(* ===== verification/_CoqProject ===== *)
-Q . S2P
Prelude.v
Dict.v
DictMap.v
DictIter.v
DictScan.v
DictRandom.v
Sds.v
SdsText.v
ClientInput.v
ClientStream.v
ClientSafety.v
ClientInline.v
ClientOutput.v
OutputQueue.v
Wire.v
Link.v
Double.v
VectorClock.v
LamportClock.v
Intset.v
SetType.v
Ziplist.v
ZiplistRep.v
ZiplistUpdate.v
ZiplistQuery.v
ZiplistMerge.v
HashType.v
HashRep.v
HashMeta.v
Server.v
HashCommands.v
HashClient.v
RWFramework.v
Container.v
RWSet.v
Stamps.v
RWSetStore.v
SetCommands.v
SetClient.v
SetAlgebra.v
SetRandom.v
VcCommands.v
P2P.v
Commands.v
Transactions.v
Replay.v
System.v
Zset.v
DoubleExact.v
DoubleOrder.v
Skiplist.v
SkiplistRep.v
SkiplistSorted.v
SkiplistQuery.v
SkiplistLex.v
ZsetObj.v
ZsetHistory.v
RZSet.v
RZSetConv.v
RZSetClient.v
PNSet.v
ORSet.v
OZSet.v
OZSetConv.v
OZSetClient.v
RWTree.v
RWTreeRep.v
RWTreeConv.v
RWTreeWalk.v
RWTreeClient.v
RWTreeLimits.v
Properties.v
