(* ===== verification/Prelude.v ===== *)
(** * Replicated data types of RemoveWin-Tree

    The repository is Redis 4.0.8 with conflict-free replicated data types added
    to it, under [src/redis-4.0.8/src/].  Every server is a replica.  A command
    of a replicated type has two phases, written with the macros of [CRDT.h]: the
    prepare phase runs where the client is connected, checks the arguments and
    the local state and appends what the other replicas need to the arguments;
    the effect phase runs there and, when the message arrives, at every other
    replica.  [p2p.c] keeps the links and [call] in [server.c] sends the message,
    which [networking.c] queues, writes, reads and parses as a client's request.
    Nothing orders or repeats messages: correctness means that replicas which
    received the same messages agree, and that at one replica a command does what
    its name says.

    ** How code becomes definitions

    A command handler is a function of type [cmd], a state monad over [world]
    (the server and the calling client) whose result is [Done], [Return] (an
    early return of the handler), [Crash] (a failed assertion, a null or
    out-of-bounds access, a type confusion) or [OutOfFuel].  Definitions keep the
    names of the functions they translate; [foo_prepare] and [foo_effect] are the
    two phases of [fooCommand].  C integers are [Z] with their wrap-around
    written out ([Prelude]), strings are byte strings with a length ([Sds]),
    doubles are binary64 ([Double]).  A pointer to a key-space object is its key,
    a pointer to a metadata element its key and field.

    ** Files

    Foundations.
    - [Prelude]: machine integers, the tactics and hints, lemmas on lists.
    - [Sds]: [sds.c] and [util.c], strings and integers to and from decimal.
    - [SdsText]: ranges, quoting and splitting of a line into arguments ([sds.c]).
    - [Double], [DoubleExact]: [getDoubleFromObject] with [strtod]; integers below
      2^53 are exact.
    - [Dict], [DictIter]: [dict.c], the hash table with incremental rehashing, its
      iterators and [dictScan]; [DictRandom]: a random key.  [DictMap] shows that it is
      a finite map, and [DictScan] what a scan returns.
    - [Intset]: [intset.c], byte by byte.  [SetType]: the [setType*] functions of
      [t_set.c] over both encodings.
    - [Skiplist]: the skip list of [t_zset.c], in a heap of nodes; [SkiplistQuery]
      and [SkiplistLex]: ranks, ranges of scores and of names.  [SkiplistRep] and
      [SkiplistSorted] show that it is a sorted list ([DoubleOrder]: the order of
      scores).  [ZsetObj]: the sorted set object of skip list and hash table;
      [ZsetHistory]: sequences of operations on it.  [Zset]: sorted sets as the
      replicated types use them, the map of their scores.
    - [Ziplist]: [ziplist.c], byte by byte.  [ZiplistRep] describes a buffer as a
      list of entries, [ZiplistUpdate] is about the cascade, insertion and deletion,
      [ZiplistQuery] about access and search, [ZiplistMerge] about merging.
    - [HashType]: the [hashType*] functions of [t_hash.c] over ziplists and hash
      tables; [HashRep] shows that a hash object is a finite map, and [HashMeta]
      that such objects hold the addresses of metadata as the other files assume.
      [HashCommands], [HashClient]: the hash commands and what they do.
    - [SetCommands]: the set commands of [t_set.c]; [SetClient], [SetAlgebra] and
      [SetRandom]: what those on one set, on several sets and with random elements
      do.  What [qsort], [rand] and [dictGetRandomKey] choose are the classes
      [Qsort] and [RandomChoice].
    - [VectorClock], [LamportClock], [Stamps]: [vector_clock.c], [lamport_clock.h],
      and the stamps inside messages.
    - [Server]: key space, replies, [call], the macros of [CRDT.h].  [P2P]: [p2p.c].
    - [RWFramework]: [RWFramework.c], the header of a remove-win element and the
      metadata hashes.  [Container]: the layout all replicated sets share, behind
      the interface [Elem] of the element type.

    Clients and links.
    - [ClientInput]: the requests of a client in [networking.c], from the bytes read
      to the command that is run; [processCommand] is a parameter.  [ClientStream]
      is about requests in the multi bulk form that arrive in pieces, under the
      contract [CalmServer]; [ClientSafety] about arbitrary bytes, under the
      contract [SoundServer]; [ClientInline] about quoted lines.
    - [ClientOutput]: the output buffer of a client, the [addReply*] functions and
      the write handlers of [networking.c]; [OutputQueue] shows that it is a queue.
    - [Wire]: the broadcast of [p2p.c] into these buffers.  [Link]: a link as a
      state machine of broadcasts, writes and reads.
    - [Commands]: the command table of [server.c], its lookup and the keys of a
      request ([db.c]).  [Transactions]: all checks of [processCommand], the
      transactions of [multi.c] and [SELECT]; it satisfies both contracts.
      [Replay]: what the receiver of a link runs.

    Replicated types.
    - [RWTree]: [t_rwtree.c].  [RWTreeRep] describes a tree as a table of nodes and
      shows that each effect is a function on it; [RWTreeConv] is about histories
      of messages, [RWTreeWalk] about the loops over the links, [RWTreeClient]
      about the commands at their origin, [RWTreeLimits] about where replicas disagree.
    - [RWSet], [RWSetStore]: [t_rwset.c]; [System]: servers with such a set, their
      clients and the channels between them, as a state machine.  [ORSet]: [t_orset.c].  [PNSet]: [t_pnset.c].
    - [RZSet], [RZSetConv], [RZSetClient]: [t_rzset.c].
    - [OZSet], [OZSetConv], [OZSetClient]: [t_ozset.c].
    - [VcCommands]: the vector clock commands of [vector_clock.c].

    [Properties] states the main theorems, with an instance of each.

    ** What is shown

    - Convergence.  In a system of servers with a remove-win set all servers show the
      same set whenever no message is under way, whatever the clients did.  Replicas
      of the remove-win set that received the same messages, in any order and any
      number of times, show the same set.  So do replicas of the observed-remove set
      and of the counting set that received each message once, in any order, the
      first with distinct tags of its additions.  Trees agree, in any order that does
      not put a move before the insertion of its node, on which nodes other than the
      root exist, and on the root while nobody deletes it.  The sorted sets show the
      same scores when the scores are integers with a sum of magnitudes below 2^53,
      for which addition of doubles is exact; for the observed-remove one increments
      must follow the additions they name.  A removal wins over the additions that
      have not seen it.
    - Behaviour at the origin.  The reply, the message sent and the state afterwards,
      for insertion, change and move in a tree as exact tables of nodes (a move keeps
      the tree free of cycles and takes along what hangs below the node), for deletion
      as the set of nodes left;
      for the updates of the two replicated sorted sets, on every branch (the
      observed-remove one with such integer scores); for the
      updates and the store commands of the remove-win set, the reply and the visible
      set.  The store commands add to or filter their destination instead of
      replacing it.  For the observed-remove set and the counting set only the effect
      of the messages is covered.
    - Clients and links.  Requests in pieces are run whole and in order, any bytes are
      safe to read, replies are a queue of which a write takes the front.  The
      receiver of a link has always run a prefix of the broadcast commands, each in
      its database, and all of them can be delivered.  A transaction runs all of its
      commands or none, unless a check refuses one without noting it.  The command
      table loads and the keys it finds in a request are arguments of it, but for the
      entry of [rwftreecreate] and for negative numbers of keys, which crash.
    - Data structures.  Hash tables, integer sets, set objects, hash objects,
      skip lists and ziplists refine finite maps, finite sets, sorted sequences and
      lists; the hash commands do to the map of a hash what they say, and
      [hincrby] never wraps around; the set commands compute the set operations,
      with either algorithm for the difference, and draw what they say for any
      choices; an optimised printer equals the
      simple one; clocks and integers survive printing and reading; rehashing,
      iteration, scanning and the walks over a tree end.
    - Limits.  Whatever two replicas hold, concurrent changes of one node of a tree
      and concurrent insertions of one id leave them with different values and
      parents, two crossing moves close a cycle at both, and a late creation undoes a
      deletion of the root.  Sums of fractions depend on the order, a scan can miss an
      entry; a link made late, drawing from a set that a replicated type has emptied,
      a request ended by a bare line feed, a transaction on a read only replica do not
      do what is expected.

    ** Bounds and fuel

    Loops over data recurse on the data.  The two walks of the tree, which need
    not end, take fuel ([tree_walks_end]).  For [istreeMember] a fuel above the
    number of nodes is enough when the parent links have no cycle.  For [subTree],
    when the children links are well founded, there is an exact number of iterations
    from which on it ends, and that is at most one more than the number of nodes when
    every child is stored and has one parent.  On a cycle no fuel is enough
    ([tree_limits]).  The commands run with [FUEL] where a concrete run
    is evaluated, and with any sufficient fuel in theorems.  The loops over a
    ziplist take its number of bytes, which every entry they pass reduces; that it
    is enough is part of the theorems on it.  So it is for the loop over the
    requests of a buffer, which takes its number of bytes, for the write loop, which
    takes the number of results of [write] and of nodes, and for the loops that
    split a line or look for keys.  The search of [srandmember] for different
    elements ends when the draws have shown enough of them ([enough_draws]).  Counters are assumed
    not to have reached the end of their range where the code increments them.

    ** What is not modelled

    Sockets and the event loop (the results of [read] and [write] are given, and
    opening a link is the parameter [connect]), the answers of the cluster and of the
    eviction of keys (part of the state the checks look at), the list of watched keys
    (a touched key is an event), built-in replication, persistence, expiry, statistics, logs
    and the counters under [RW_OVERHEAD], [COUNT_OPS] and [RPQ_LOG]; memory
    management; the commands that report memory overhead; the use of
    ziplists for small sorted sets; the data types of Redis the replicated ones do
    not use; vendored libraries.  The hash function and the order in which a hash
    table enumerates its members are parameters. *)
From stdpp Require Import base numbers list strings gmap.
From Stdlib Require Import ZArith Lia.

(** ** C integers

    A C integer is a [Z] together with the range of its type.  Where the C
    code may leave the range the model writes the wrap-around out. *)
Open Scope Z_scope.

Definition INT_MIN : Z := -2147483648.
Definition INT_MAX : Z := 2147483647.
Definition LLONG_MIN : Z := -9223372036854775808.
Definition LLONG_MAX : Z := 9223372036854775807.
Definition ULLONG_MAX : Z := 18446744073709551615.

(** Two's complement wrap-around to [int] and [long long], and reduction to
    [unsigned int] and [unsigned long long]. *)
Definition to_int (z : Z) : Z := (z + 2147483648) mod 4294967296 - 2147483648.
Definition to_llong (z : Z) : Z :=
  (z + 9223372036854775808) mod 18446744073709551616 - 9223372036854775808.
Definition to_uint (z : Z) : Z := z mod 4294967296.
Definition to_ullong (z : Z) : Z := z mod 18446744073709551616.

Definition in_int (z : Z) : Prop := INT_MIN <= z <= INT_MAX.
Definition in_llong (z : Z) : Prop := LLONG_MIN <= z <= LLONG_MAX.
Definition in_ullong (z : Z) : Prop := 0 <= z <= ULLONG_MAX.

#[global] Instance in_int_dec z : Decision (in_int z).
Proof. unfold in_int. apply _. Defined.
#[global] Instance in_llong_dec z : Decision (in_llong z).
Proof. unfold in_llong. apply _. Defined.
#[global] Instance in_ullong_dec z : Decision (in_ullong z).
Proof. unfold in_ullong. apply _. Defined.

(** Unfold every width constant before calling [lia]. *)
Ltac clia :=
  unfold in_int, in_llong, in_ullong, to_int, to_llong, to_uint, to_ullong,
    INT_MIN, INT_MAX, LLONG_MIN, LLONG_MAX, ULLONG_MAX in *; lia.

Lemma to_int_id z : in_int z -> to_int z = z.
Proof.
  unfold to_int; intros H. rewrite Z.mod_small; [lia | clia].
Qed.

Lemma to_llong_id z : in_llong z -> to_llong z = z.
Proof.
  unfold to_llong; intros H. rewrite Z.mod_small; [lia | clia].
Qed.

Lemma to_ullong_id z : in_ullong z -> to_ullong z = z.
Proof. unfold to_ullong; intros H. rewrite Z.mod_small; [lia | clia]. Qed.

Lemma to_uint_id z : 0 <= z < 4294967296 -> to_uint z = z.
Proof. unfold to_uint; intros H. by rewrite Z.mod_small. Qed.

Lemma to_int_range z : in_int (to_int z).
Proof.
  unfold to_int.
  pose proof (Z.mod_pos_bound (z + 2147483648) 4294967296 ltac:(lia)). clia.
Qed.

Lemma to_llong_range z : in_llong (to_llong z).
Proof.
  unfold to_llong.
  pose proof (Z.mod_pos_bound (z + 9223372036854775808) 18446744073709551616 ltac:(lia)).
  clia.
Qed.

(** Wrapping is a ring homomorphism onto the machine integers. *)
Lemma to_llong_add_l a b : to_llong (to_llong a + b) = to_llong (a + b).
Proof.
  unfold to_llong.
  replace ((a + 9223372036854775808) mod 18446744073709551616 - 9223372036854775808 + b
           + 9223372036854775808)
    with ((a + 9223372036854775808) mod 18446744073709551616 + b) by lia.
  rewrite Zplus_mod_idemp_l. f_equal. f_equal. lia.
Qed.

(** ** Lists *)

Lemma filter_true {A} (p : A -> bool) (l : list A) :
  (forall x, x ∈ l -> p x = true) -> filter p l = l.
Proof.
  induction l as [|x l IH]; intros Hp; [done|].
  rewrite filter_cons_True by (rewrite Hp; [done|by left]). f_equal. apply IH.
  intros y Hy. apply Hp. by right.
Qed.

Lemma bind_one {A B} (g : A -> list B) (x : A) : [x] ≫= g = g x.
Proof. apply app_nil_r. Qed.

(** ** Effects of C code

    A C function that reads and writes the state [S] and computes an [A]:
    it ends normally, leaves the enclosing function by [return], aborts the
    process (a failed assertion, a panic, or undefined behaviour such as a
    null or out-of-bounds access), or is cut off while a loop still runs. *)
Inductive outcome (S A : Type) : Type :=
  | Done (a : A) (s : S)
  | Return (s : S)
  | Crash
  | OutOfFuel.
Arguments Done {S A} a s.
Arguments Return {S A} s.
Arguments Crash {S A}.
Arguments OutOfFuel {S A}.

Definition M (S A : Type) : Type := S -> outcome S A.

Definition ret {S A} (a : A) : M S A := fun s => Done a s.
Definition bind {S A B} (m : M S A) (k : A -> M S B) : M S B := fun s =>
  match m s with
  | Done a s => k a s
  | Return s => Return s
  | Crash => Crash
  | OutOfFuel => OutOfFuel
  end.
Definition creturn {S A} : M S A := fun s => Return s.
Definition crash {S A} : M S A := fun _ => Crash.
Definition out_of_fuel {S A} : M S A := fun _ => OutOfFuel.
Definition gets {S A} (f : S -> A) : M S A := fun s => Done (f s) s.
Definition modify {S} (f : S -> S) : M S unit := fun s => Done tt (f s).

(** Calling a [void] function: its [return] ends the callee only. *)
Definition fn {S} (m : M S unit) : M S unit := fun s =>
  match m s with
  | Return s => Done tt s
  | o => o
  end.

(** Dereferencing a pointer that must not be null, or an access that must be
    in bounds. *)
Definition deref {S A} (o : option A) : M S A :=
  match o with
  | Some a => ret a
  | None => crash
  end.

Declare Scope c_scope.
Delimit Scope c_scope with C.
Notation "x <- m ;; k" := (bind m (fun x => k))
  (at level 100, m at next level, right associativity) : c_scope.
Notation "m ;; k" := (bind m (fun _ => k)) (at level 100, right associativity) : c_scope.
Notation "'when' b 'do' m" := (if b then m else ret tt) (at level 99, b at level 99, m at level 99) : c_scope.
Open Scope c_scope.

(** A [for] loop over the elements of a list, without and with a loop-carried
    value. *)
Fixpoint for_each {S A} (l : list A) (body : A -> M S unit) : M S unit :=
  match l with
  | [] => ret tt
  | x :: l => body x ;; for_each l body
  end.

Fixpoint fold_each {S A B} (l : list A) (acc : B) (body : B -> A -> M S B) : M S B :=
  match l with
  | [] => ret acc
  | x :: l => acc <- body acc x ;; fold_each l acc body
  end.

(** *** Symbolic execution *)

Section Exec.
Context {S : Type}.

Lemma bind_done {A B} (m : M S A) (k : A -> M S B) s a s' :
  m s = Done a s' -> bind m k s = k a s'.
Proof. intros H. unfold bind. by rewrite H. Qed.

Lemma bind_return {A B} (m : M S A) (k : A -> M S B) s s' :
  m s = Return s' -> bind m k s = Return s'.
Proof. intros H. unfold bind. by rewrite H. Qed.

Lemma bind_done_inv {A B} (m : M S A) (k : A -> M S B) s b s' :
  bind m k s = Done b s' -> exists a s1, m s = Done a s1 /\ k a s1 = Done b s'.
Proof. unfold bind. destruct (m s); try discriminate. eauto. Qed.

Lemma bind_assoc {A B C} (m : M S A) (k : A -> M S B) (h : B -> M S C) s :
  bind (bind m k) h s = bind m (fun a => bind (k a) h) s.
Proof. unfold bind. by destruct (m s). Qed.

Lemma deref_some {A} (a : A) (s : S) : deref (Some a) s = Done a s.
Proof. done. Qed.

Lemma fn_done (m : M S unit) s s' : m s = Done tt s' -> fn m s = Done tt s'.
Proof. intros H. unfold fn. by rewrite H. Qed.

Lemma fn_return (m : M S unit) s s' : m s = Return s' -> fn m s = Done tt s'.
Proof. intros H. unfold fn. by rewrite H. Qed.

(** A loop invariant over [for_each], indexed by the elements still to do. *)
Lemma for_each_inv {A} (body : A -> M S unit) (P : list A -> S -> Prop) l s :
  P l s ->
  (forall x l s, P (x :: l) s -> exists s', body x s = Done tt s' /\ P l s') ->
  exists s', for_each l body s = Done tt s' /\ P [] s'.
Proof.
  intros HP Hstep. revert s HP. induction l as [|x l IH]; intros s HP; cbn [for_each].
  - by exists s.
  - destruct (Hstep x l s HP) as (s1 & Hb & HP1).
    destruct (IH _ HP1) as (s2 & Hf & HP2). exists s2. split; [|done].
    by rewrite (bind_done _ _ _ _ _ Hb).
Qed.

Lemma for_each_app {A} (body : A -> M S unit) l k s :
  for_each (l ++ k) body s = bind (for_each l body) (fun _ => for_each k body) s.
Proof.
  revert s. induction l as [|x l IH]; intros s; [done|]. cbn [for_each app].
  rewrite bind_assoc. unfold bind at 1 2. destruct (body x s); first [done | by rewrite IH].
Qed.

Lemma fold_each_inv {A B} (body : B -> A -> M S B) (P : list A -> B -> S -> Prop) l acc s :
  P l acc s ->
  (forall x l acc s, P (x :: l) acc s -> exists acc' s', body acc x s = Done acc' s' /\ P l acc' s') ->
  exists acc' s', fold_each l acc body s = Done acc' s' /\ P [] acc' s'.
Proof.
  intros HP Hstep. revert acc s HP. induction l as [|x l IH]; intros acc s HP; cbn [fold_each].
  - by exists acc, s.
  - destruct (Hstep x l acc s HP) as (a1 & s1 & Hb & HP1).
    destruct (IH _ _ HP1) as (a2 & s2 & Hf & HP2). exists a2, s2. split; [|done].
    by rewrite (bind_done _ _ _ _ _ Hb).
Qed.
End Exec.

(** Run one command of a monadic goal with a known result. *)
Tactic Notation "step_with" uconstr(H) := rewrite (bind_done _ _ _ _ _ H); cbv beta.
Ltac step := erewrite bind_done; [cbv beta | solve [eauto with exec | reflexivity]].

Create HintDb exec.
