(* ===== verification/Dict.v ===== *)
(** * Hash tables ([dict.c], [dict.h])

    The dictionary behind the key space, the sets and the hashes: chained
    buckets in tables of a power of two, and a second table to which the buckets
    of the first are moved a few at a time.  A pointer to an entry is its table,
    bucket and position in the chain.  A null table and a position outside a
    table are [None], and so is a failed [assert].

    The hash function and the comparison of keys are fields of [dictType]: the
    first is a parameter, the second is equality.  The values are owned by the
    caller; the value of an entry that has not been set is arbitrary. *)
From Stdlib Require Import ZArith Lia.
From stdpp Require Import base numbers gmap list.
From S2P Require Import Prelude.
Open Scope Z_scope.

Record dictht {K V : Type} := mkHt {
  table : option (list (list (K * V)));
  ht_size : Z;
  sizemask : Z;
  used : Z
}.
Arguments dictht : clear implicits.
Arguments mkHt {K V}.

Record dict {K V : Type} := mkDict {
  ht0 : dictht K V;
  ht1 : dictht K V;
  rehashidx : Z;
  iterators : Z
}.
Arguments dict : clear implicits.
Arguments mkDict {K V}.

(** A [dictEntry *]: [ht[1]] or [ht[0]], the bucket and the place in its
    chain. *)
Record eptr := mkPtr { p_table : bool; p_idx : Z; p_pos : nat }.

Definition DICT_HT_INITIAL_SIZE : Z := 4.
Definition dict_force_resize_ratio : Z := 5.
Definition HASHTABLE_MIN_FILL : Z := 10.
Definition LONG_MAX : Z := 9223372036854775807.

(** What [_dictKeyIndex] finds: a bucket to insert into, the entry of the key,
    or no table to insert into. *)
Inductive slot := Free (idx : Z) | Existing (p : eptr) | NoSlot.

(** ** Sizes *)

Fixpoint next_power (fuel : nat) (i size : Z) : Z :=
  match fuel with
  | O => i
  | S fuel => if size <=? i then i else next_power fuel (to_ullong (i * 2)) size
  end.

Definition _dictNextPower (size : Z) : Z :=
  if LONG_MAX <=? size then LONG_MAX + 1 else next_power 64 DICT_HT_INITIAL_SIZE size.

Section Dict.
Context {K V : Type} `{Countable K} `{Inhabited V}.
Context (hashKey : K -> Z) (dict_can_resize : bool).
Abbreviation dictht := (dictht K V).
Abbreviation dict := (dict K V).
Implicit Types (t : dictht) (d : dict) (key : K) (val : V).

Definition _dictReset : dictht := mkHt None 0 0 0.
Definition dictCreate : dict := mkDict _dictReset _dictReset (-1) 0.

Definition dictIsRehashing d : bool := negb (rehashidx d =? -1).
Definition dictSize d : Z := used (ht0 d) + used (ht1 d).
Definition dictSlots d : Z := ht_size (ht0 d) + ht_size (ht1 d).

(** [server.c]: a table less than a tenth full should shrink. *)
Definition htNeedsResize d : bool :=
  let size := dictSlots d in
  let used := dictSize d in
  (DICT_HT_INITIAL_SIZE <? size) && (Z.quot (to_llong (used * 100)) size <? HASHTABLE_MIN_FILL).

Definition get_ht d (b : bool) : dictht := if b then ht1 d else ht0 d.
Definition set_ht d (b : bool) t : dict :=
  if b then mkDict (ht0 d) t (rehashidx d) (iterators d) else mkDict t (ht1 d) (rehashidx d) (iterators d).

Definition bucket t (i : Z) : option (list (K * V)) := tbl ← table t; tbl !! Z.to_nat i.
(** Store a chain, adding [n] to the number of entries. *)
Definition set_bucket t (i : Z) (b : list (K * V)) (n : Z) : dictht :=
  mkHt ((fun tbl => <[Z.to_nat i := b]> tbl) <$> table t) (ht_size t) (sizemask t) (used t + n).

(** ** Resizing *)

(** The flag is [DICT_OK]. *)
Definition dictExpand d (size : Z) : dict * bool :=
  let realsize := _dictNextPower size in
  if dictIsRehashing d || (size <? used (ht0 d)) then (d, false)
  else if realsize =? ht_size (ht0 d) then (d, false)
  else
    let n := mkHt (Some (replicate (Z.to_nat realsize) [])) realsize (realsize - 1) 0 in
    match table (ht0 d) with
    | None => (mkDict n (ht1 d) (rehashidx d) (iterators d), true)
    | Some _ => (mkDict (ht0 d) n 0 (iterators d), true)
    end.

(** [minimal] is an [int]. *)
Definition dictResize d : dict * bool :=
  if negb dict_can_resize || dictIsRehashing d then (d, false)
  else
    let minimal := to_int (used (ht0 d)) in
    let minimal := if minimal <? DICT_HT_INITIAL_SIZE then DICT_HT_INITIAL_SIZE else minimal in
    dictExpand d minimal.

Definition _dictExpandIfNeeded d : dict * bool :=
  if dictIsRehashing d then (d, true)
  else if ht_size (ht0 d) =? 0 then dictExpand d DICT_HT_INITIAL_SIZE
  else if (ht_size (ht0 d) <=? used (ht0 d)) &&
          (dict_can_resize || (dict_force_resize_ratio <? used (ht0 d) / ht_size (ht0 d)))
  then dictExpand d (to_ullong (used (ht0 d) * 2))
  else (d, true).

(** ** Incremental rehashing *)

(** Skip empty buckets, at most [visits] of them: the index reached and the
    visits left; no visit left means that the function returns. *)
Fixpoint skip_empty t (idx : Z) (visits : nat) : option (Z * nat) :=
  b ← bucket t idx;
  match b with
  | [] =>
      match visits with
      | O | S O => Some (idx + 1, O)
      | S visits => skip_empty t (idx + 1) visits
      end
  | _ => Some (idx, visits)
  end.

(** Move a chain to the second table, entry by entry. *)
Fixpoint move_chain (de : list (K * V)) t : option dictht :=
  match de with
  | [] => Some t
  | e :: nextde =>
      let h := Z.land (hashKey e.1) (sizemask t) in
      b ← bucket t h;
      move_chain nextde (set_bucket t h (e :: b) 1)
  end.

(** The end of the function: the flag says that more is left. *)
Definition rehash_end d : dict * bool :=
  if used (ht0 d) =? 0 then (mkDict (ht1 d) _dictReset (-1) (iterators d), false) else (d, true).

Fixpoint rehash_loop (n visits : nat) d : option (dict * bool) :=
  match n with
  | O => Some (rehash_end d)
  | S n =>
      if used (ht0 d) =? 0 then Some (rehash_end d)
      else if negb (rehashidx d <? ht_size (ht0 d)) then None
      else
        '(idx, visits) ← skip_empty (ht0 d) (rehashidx d) visits;
        match visits with
        | O => Some (mkDict (ht0 d) (ht1 d) idx (iterators d), true)
        | _ =>
            de ← bucket (ht0 d) idx;
            t1 ← move_chain de (ht1 d);
            rehash_loop n visits
              (mkDict (set_bucket (ht0 d) idx [] (- Z.of_nat (length de))) t1 (idx + 1) (iterators d))
        end
  end.

(** [n] is never negative in the code. *)
Definition dictRehash d (n : nat) : option (dict * bool) :=
  if dictIsRehashing d then rehash_loop n (n * 10) d else Some (d, false).

Definition _dictRehashStep d : option dict :=
  if iterators d =? 0 then fst <$> dictRehash d 1 else Some d.

(** [if (dictIsRehashing(d)) _dictRehashStep(d);] *)
Definition rehash_step d : option dict := if dictIsRehashing d then _dictRehashStep d else Some d.

(** ** Lookup *)

Fixpoint chain_find key (he : list (K * V)) (pos : nat) : option nat :=
  match he with
  | [] => None
  | e :: he => if decide (key = e.1) then Some pos else chain_find key he (S pos)
  end.

Definition table_find d (b : bool) key (hash : Z) : option (option eptr) :=
  let idx := Z.land hash (sizemask (get_ht d b)) in
  he ← bucket (get_ht d b) idx;
  Some (mkPtr b idx <$> chain_find key he 0).

(** The loop over the two tables, left after the first one unless a rehashing
    is under way. *)
Definition tables_find d key (hash : Z) : option (option eptr) :=
  r ← table_find d false key hash;
  match r with
  | Some p => Some (Some p)
  | None => if dictIsRehashing d then table_find d true key hash else Some None
  end.

Definition dictFind d key : option (dict * option eptr) :=
  if dictSize d =? 0 then Some (d, None)
  else
    d ← rehash_step d;
    r ← tables_find d key (hashKey key);
    Some (d, r).

Definition dictEntryAt d (p : eptr) : option (K * V) :=
  b ← bucket (get_ht d (p_table p)) (p_idx p); b !! p_pos p.

Definition dictFetchValue d key : option (dict * option V) :=
  '(d, he) ← dictFind d key;
  match he with
  | None => Some (d, None)
  | Some p => e ← dictEntryAt d p; Some (d, Some e.2)
  end.

(** ** Insertion *)

Definition _dictKeyIndex d key (hash : Z) : option (dict * slot) :=
  let '(d, ok) := _dictExpandIfNeeded d in
  if negb ok then Some (d, NoSlot)
  else
    r ← tables_find d key hash;
    match r with
    | Some p => Some (d, Existing p)
    | None => Some (d, Free (Z.land hash (sizemask (get_ht d (dictIsRehashing d)))))
    end.

(** The new entry, and the existing one. *)
Definition dictAddRaw d key : option (dict * option eptr * option eptr) :=
  d ← rehash_step d;
  '(d, s) ← _dictKeyIndex d key (hashKey key);
  match s with
  | NoSlot => Some (d, None, None)
  | Existing p => Some (d, None, Some p)
  | Free idx =>
      let b := dictIsRehashing d in
      he ← bucket (get_ht d b) idx;
      Some (set_ht d b (set_bucket (get_ht d b) idx ((key, inhabitant) :: he) 1), Some (mkPtr b idx 0), None)
  end.

Definition dictSetVal d (p : eptr) val : option dict :=
  b ← bucket (get_ht d (p_table p)) (p_idx p);
  e ← b !! p_pos p;
  Some (set_ht d (p_table p) (set_bucket (get_ht d (p_table p)) (p_idx p) (<[p_pos p := (e.1, val)]> b) 0)).

Definition dictAdd d key val : option (dict * bool) :=
  '(d, entry, _) ← dictAddRaw d key;
  match entry with
  | None => Some (d, false)
  | Some p => d ← dictSetVal d p val; Some (d, true)
  end.

(** A null [existing] is dereferenced. *)
Definition dictReplace d key val : option (dict * bool) :=
  '(d, entry, existing) ← dictAddRaw d key;
  match entry with
  | Some p => d ← dictSetVal d p val; Some (d, true)
  | None => p ← existing; d ← dictSetVal d p val; Some (d, false)
  end.

Definition dictAddOrFind d key : option (dict * option eptr) :=
  '(d, entry, existing) ← dictAddRaw d key;
  Some (d, match entry with Some p => Some p | None => existing end).

(** ** Deletion *)

(** The unlinked entry; freeing it is left to the caller. *)
Definition dictGenericDelete d key : option (dict * option (K * V)) :=
  if (used (ht0 d) =? 0) && (used (ht1 d) =? 0) then Some (d, None)
  else
    d ← rehash_step d;
    r ← tables_find d key (hashKey key);
    match r with
    | None => Some (d, None)
    | Some p =>
        let t := get_ht d (p_table p) in
        b ← bucket t (p_idx p);
        e ← b !! p_pos p;
        Some (set_ht d (p_table p) (set_bucket t (p_idx p) (delete (p_pos p) b) (-1)), Some e)
    end.

Definition dictDelete d key : option (dict * bool) :=
  '(d, he) ← dictGenericDelete d key; Some (d, bool_decide (is_Some he)).

Definition dictUnlink d key : option (dict * option (K * V)) := dictGenericDelete d key.

(** The loop of [_dictClear] stops when no entry is left: the entries it
    frees. *)
Fixpoint clear_loop (buckets : list (list (K * V))) (left : Z) : list (K * V) :=
  match buckets with
  | [] => []
  | he :: buckets => if 0 <? left then he ++ clear_loop buckets (left - Z.of_nat (length he)) else []
  end.

Definition _dictClear t : dictht * list (K * V) :=
  (_dictReset, clear_loop (default [] (table t)) (used t)).

Definition dictEmpty d : dict * list (K * V) :=
  let '(t0, f0) := _dictClear (ht0 d) in
  let '(t1, f1) := _dictClear (ht1 d) in
  (mkDict t0 t1 (-1) 0, f0 ++ f1).
End Dict.
