(* ===== verification/DictMap.v ===== *)
(** * Hash tables are finite maps

    The invariant of a dictionary, that every operation keeps it and never
    fails, and what each does to the map of its entries, whatever the state of
    the incremental rehashing. *)
From Stdlib Require Import ZArith Lia.
From stdpp Require Import base numbers gmap list.
From S2P Require Import Prelude Dict.
Open Scope Z_scope.

(** ** Sizes *)

Lemma next_power_spec fuel k size :
  2 <= k -> k + Z.of_nat fuel <= 66 -> size < 2 ^ 63 -> size <= 2 ^ (k + Z.of_nat fuel) -> (k = 2 \/ 2 ^ (k - 1) < size) ->
  k <= 63 ->
  exists j, 2 <= j <= 63 /\ next_power fuel (2 ^ k) size = 2 ^ j /\ size <= 2 ^ j /\ (j = 2 \/ 2 ^ (j - 1) < size).
Proof.
  revert k. induction fuel as [|fuel IH]; intros k Hk Hf H63 Hle Hlow Hk63; cbn [next_power].
  - exists k. rewrite Z.add_0_r in Hle. by split_and!.
  - destruct (Z.leb_spec size (2 ^ k)); [by exists k; split_and!|].
    assert (k < 63) by (destruct (decide (k = 63)) as [->|]; lia).
    assert (2 ^ (k + 1) = 2 ^ k * 2) as Hp by (rewrite Z.pow_add_r; lia).
    assert (2 ^ (k + 1) <= 2 ^ 63) by (apply Z.pow_le_mono_r; lia).
    assert (0 < 2 ^ k) by (apply Z.pow_pos_nonneg; lia).
    rewrite to_ullong_id by (rewrite <- Hp; clia). rewrite <- Hp. apply IH; try lia.
    + by replace (k + 1 + Z.of_nat fuel) with (k + Z.of_nat (S fuel)) by lia.
    + right. by replace (k + 1 - 1) with k by lia.
Qed.

(** The smallest admissible size that is not below the one asked for. *)
Lemma dictNextPower_spec size :
  size < LONG_MAX ->
  exists j, 2 <= j <= 63 /\ _dictNextPower size = 2 ^ j /\ size <= 2 ^ j /\ (j = 2 \/ 2 ^ (j - 1) < size).
Proof.
  intros Hs. unfold _dictNextPower. destruct (Z.leb_spec LONG_MAX size) as [|_]; [lia|].
  change DICT_HT_INITIAL_SIZE with (2 ^ 2). unfold LONG_MAX in Hs. apply next_power_spec; try lia.
Qed.

Lemma mask_range h k : 0 <= k -> 0 <= Z.land h (2 ^ k - 1) < 2 ^ k.
Proof.
  intros Hk. replace (2 ^ k - 1) with (Z.ones k) by (rewrite Z.ones_equiv; lia).
  rewrite Z.land_ones by done. apply Z.mod_pos_bound. apply Z.pow_pos_nonneg; lia.
Qed.

(** Replacing one bucket. *)
Lemma concat_insert {A} (l : list (list A)) i b :
  l !! i = Some b ->
  exists rest, concat l ≡ₚ b ++ rest /\ forall b', concat (<[i := b']> l) ≡ₚ b' ++ rest.
Proof.
  intros Hi. exists (concat (take i l) ++ concat (drop (S i) l)). split.
  - rewrite <- (take_drop_middle l i b Hi) at 1. rewrite concat_app. cbn.
    rewrite Permutation_app_comm. rewrite <- app_assoc. f_equiv. apply Permutation_app_comm.
  - intros b'. rewrite insert_take_drop by (by eapply lookup_lt_Some). rewrite concat_app. cbn.
    rewrite Permutation_app_comm. rewrite <- app_assoc. f_equiv. apply Permutation_app_comm.
Qed.

Lemma concat_empty {A} (l : list (list A)) : (forall i b, l !! i = Some b -> b = []) -> concat l = [].
Proof.
  induction l as [|b l IH]; intros Hl; [done|]. cbn. rewrite (Hl 0%nat b eq_refl). cbn.
  apply IH. intros i. by apply (Hl (S i)).
Qed.

Section Dict.
Context {K V : Type} `{Countable K} `{Inhabited V}.
Context (hashKey : K -> Z) (dict_can_resize : bool).
Abbreviation dictht := (dictht K V).
Abbreviation dict := (dict K V).
Implicit Types (t : dictht) (d : dict) (key : K) (val : V).

(** ** The invariant *)

Definition ht_entries t : list (K * V) := concat (default [] (table t)).
Definition entries d : list (K * V) := ht_entries (ht0 d) ++ ht_entries (ht1 d).

Definition ht_ok t : Prop :=
  match table t with
  | None => ht_size t = 0 /\ sizemask t = 0 /\ used t = 0
  | Some tbl =>
      (exists k, 2 <= k <= 63 /\ ht_size t = 2 ^ k) /\ sizemask t = ht_size t - 1 /\
      Z.of_nat (length tbl) = ht_size t /\ used t = Z.of_nat (length (concat tbl)) /\
      forall i b e, tbl !! i = Some b -> e ∈ b -> Z.land (hashKey e.1) (sizemask t) = Z.of_nat i
  end.

(** The buckets before [i] are empty. *)
Definition cleared t (i : Z) : Prop := forall j b, 0 <= j < i -> bucket t j = Some b -> b = [].

Definition rehashing_ok d : Prop :=
  is_Some (table (ht0 d)) /\ is_Some (table (ht1 d)) /\
  0 <= rehashidx d <= ht_size (ht0 d) /\ cleared (ht0 d) (rehashidx d).

Record dict_ok d : Prop := {
  ok_ht0 : ht_ok (ht0 d);
  ok_ht1 : ht_ok (ht1 d);
  ok_keys : NoDup (entries d).*1;
  ok_idx : if decide (rehashidx d = -1) then table (ht1 d) = None else rehashing_ok d
}.

Lemma rehashing_true d : dict_ok d -> dictIsRehashing d = true -> rehashing_ok d.
Proof.
  intros [_ _ _ Hi] Hr. unfold dictIsRehashing in Hr. destruct (Z.eqb_spec (rehashidx d) (-1)); [done|].
  by rewrite decide_False in Hi.
Qed.

Lemma rehashing_false d : dict_ok d -> dictIsRehashing d = false -> table (ht1 d) = None.
Proof.
  intros [_ _ _ Hi] Hr. unfold dictIsRehashing in Hr. destruct (Z.eqb_spec (rehashidx d) (-1)); [|done].
  by rewrite decide_True in Hi.
Qed.

Lemma used_entries t : ht_ok t -> used t = Z.of_nat (length (ht_entries t)).
Proof. unfold ht_ok, ht_entries. destruct (table t); intros Hok; [apply Hok|]. cbn. by destruct Hok as (_ & _ & ->). Qed.

(** ** Buckets *)

Lemma bucket_range t i b : ht_ok t -> bucket t i = Some b -> Z.of_nat (Z.to_nat i) < ht_size t.
Proof.
  unfold ht_ok, bucket. destruct (table t) as [tbl|]; [|done]. cbn. intros (_ & _ & Hl & _) Hb.
  apply lookup_lt_Some in Hb. lia.
Qed.

Lemma bucket_in t i : ht_ok t -> is_Some (table t) -> 0 <= i < ht_size t -> exists b, bucket t i = Some b.
Proof.
  unfold ht_ok, bucket. destruct (table t) as [tbl|]; [|by intros _ []]. cbn. intros (_ & _ & Hl & _) _ Hi.
  apply lookup_lt_is_Some. lia.
Qed.

Lemma hash_range t key : ht_ok t -> is_Some (table t) -> 0 <= Z.land (hashKey key) (sizemask t) < ht_size t.
Proof.
  unfold ht_ok. destruct (table t) as [tbl|]; [|by intros _ []]. intros ((k & Hk & Hs) & Hm & _) _.
  rewrite Hm, Hs. apply mask_range. lia.
Qed.

Lemma bucket_split t i b :
  bucket t i = Some b ->
  exists rest, ht_entries t ≡ₚ b ++ rest /\ forall b' n, ht_entries (set_bucket t i b' n) ≡ₚ b' ++ rest.
Proof.
  unfold bucket, ht_entries, set_bucket. destruct (table t) as [tbl|]; [|done]. cbn. intros Hb.
  destruct (concat_insert _ _ _ Hb) as (rest & Hr & Hins). exists rest. by split.
Qed.

Lemma set_bucket_shape t i b n :
  ht_size (set_bucket t i b n) = ht_size t /\ sizemask (set_bucket t i b n) = sizemask t /\
  (is_Some (table t) -> is_Some (table (set_bucket t i b n))).
Proof. split_and!; [done|done|]. intros [tbl Ht]. unfold set_bucket. cbn. rewrite Ht. eauto. Qed.

Lemma set_bucket_ok t i b b' :
  ht_ok t -> 0 <= i -> bucket t i = Some b ->
  (forall e, e ∈ b' -> Z.land (hashKey e.1) (sizemask t) = i) ->
  ht_ok (set_bucket t i b' (Z.of_nat (length b') - Z.of_nat (length b))).
Proof.
  unfold ht_ok, bucket, set_bucket. destruct (table t) as [tbl|]; [|done]. cbn.
  intros (Hk & Hm & Hl & Hu & He) Hi Hb Hb'. split_and!; [done|done|by rewrite length_insert| |].
  - destruct (concat_insert _ _ _ Hb) as (rest & Hr & Hins). rewrite Hins, Hu, Hr, !length_app. lia.
  - intros j c e Hj Hec. destruct (decide (j = Z.to_nat i)) as [->|Hne].
    + rewrite list_lookup_insert_eq in Hj by (by eapply lookup_lt_Some). simplify_eq. rewrite (Hb' e Hec). lia.
    + rewrite list_lookup_insert_ne in Hj by done. by apply (He j c).
Qed.

Lemma set_bucket_lookup t i b n j : 0 <= i -> 0 <= j ->
  bucket (set_bucket t i b n) j =
  if decide (j = i) then (bucket t i ≫= fun _ => Some b) else bucket t j.
Proof.
  intros Hi Hj. unfold bucket, set_bucket. cbn. destruct (table t) as [tbl|]; cbn; [|by case_decide].
  case_decide as Hd.
  - subst j. destruct (tbl !! Z.to_nat i) eqn:Hb; cbn.
    + apply list_lookup_insert_eq. by eapply lookup_lt_Some.
    + rewrite list_insert_ge; [done|]. by apply lookup_ge_None.
  - apply list_lookup_insert_ne. lia.
Qed.

(** A key is in its bucket. *)
Lemma bucket_entry t e :
  ht_ok t -> e ∈ ht_entries t -> exists b, bucket t (Z.land (hashKey e.1) (sizemask t)) = Some b /\ e ∈ b.
Proof.
  unfold ht_ok, ht_entries, bucket. destruct (table t) as [tbl|]; cbn; [|by intros _ ?%elem_of_nil].
  intros (_ & _ & _ & _ & He) Hin. apply list_elem_of_In, in_concat in Hin as (b & Hb & Heb).
  apply list_elem_of_In in Hb, Heb. apply list_elem_of_lookup in Hb as (i & Hi). exists b. split; [|done]. rewrite (He i b e Hi Heb).
  by rewrite Nat2Z.id.
Qed.

Lemma bucket_hash t i b e :
  ht_ok t -> 0 <= i -> bucket t i = Some b -> e ∈ b -> Z.land (hashKey e.1) (sizemask t) = i.
Proof.
  unfold ht_ok, bucket. destruct (table t) as [tbl|]; cbn; [|done]. intros (_ & _ & _ & _ & He) Hi Hb Hin.
  rewrite (He _ _ _ Hb Hin). lia.
Qed.

(** ** Rehashing *)

Lemma cleared_all t i : ht_ok t -> cleared t i -> ht_size t <= i -> used t = 0.
Proof.
  intros Hok Hc Hi. rewrite (used_entries _ Hok). unfold ht_entries.
  rewrite concat_empty; [done|]. intros j b Hj. destruct (table t) as [tbl|] eqn:Ht; [|done].
  apply (Hc (Z.of_nat j)); unfold bucket; rewrite ?Ht; cbn; [|by rewrite Nat2Z.id].
  unfold ht_ok in Hok. rewrite Ht in Hok. apply lookup_lt_Some in Hj. cbn in Hj. lia.
Qed.

Lemma cleared_next t i : 0 <= i -> cleared t i -> bucket t i = Some [] -> cleared t (i + 1).
Proof. intros Hi Hc Hb j b Hj Hjb. destruct (decide (j = i)) as [->|]; [congruence|]. apply (Hc j); [lia|done]. Qed.

Lemma skip_empty_spec t idx visits :
  ht_ok t -> is_Some (table t) -> used t <> 0 -> 0 <= idx -> cleared t idx -> (1 <= visits)%nat ->
  exists idx' v', skip_empty t idx visits = Some (idx', v') /\ cleared t idx' /\ idx <= idx' <= ht_size t /\
    ((v' = 0%nat /\ idx < idx') \/ ((1 <= v')%nat /\ exists b, bucket t idx' = Some b /\ b <> [])).
Proof.
  intros Hok Ht Hu. revert idx. induction visits as [|visits IH]; intros idx Hi Hc Hv; [lia|].
  assert (idx < ht_size t) as Hlt by (destruct (Z.lt_ge_cases idx (ht_size t)); [done|by destruct Hu; eapply cleared_all]).
  destruct (bucket_in t idx Hok Ht) as [b Hb]; [lia|]. cbn [skip_empty]. rewrite Hb. cbn [mbind option_bind].
  destruct b as [|e b]; [|exists idx, (S visits); split_and!; [done|done|lia|lia|right; eauto with lia]].
  pose proof (cleared_next _ _ Hi Hc Hb) as Hc'.
  destruct visits as [|visits]; [exists (idx + 1), 0%nat; split_and!; [done|done|lia|lia|left; lia]|].
  destruct (IH (idx + 1)) as (idx' & v' & -> & Hc2 & Hr & Hcase); [lia|done|lia|].
  exists idx', v'. split_and!; [done|done|lia|lia|]. destruct Hcase as [[]|]; [left; lia|by right].
Qed.

Lemma move_chain_spec de t :
  ht_ok t -> is_Some (table t) ->
  exists t', move_chain hashKey de t = Some t' /\ ht_ok t' /\ is_Some (table t') /\
    ht_size t' = ht_size t /\ ht_entries t' ≡ₚ de ++ ht_entries t.
Proof.
  revert t. induction de as [|e de IH]; intros t Hok Ht; [by exists t; split_and!|].
  pose proof (hash_range t e.1 Hok Ht) as Hr. cbn [move_chain].
  destruct (bucket_in t _ Hok Ht Hr) as [b Hb]. rewrite Hb. cbn [mbind option_bind].
  assert (ht_ok (set_bucket t (Z.land (hashKey e.1) (sizemask t)) (e :: b) 1)) as Hok1.
  { replace 1 with (Z.of_nat (length (e :: b)) - Z.of_nat (length b)) by (cbn [length]; lia).
    apply set_bucket_ok; [done|lia|done|]. intros x [->|Hx]%elem_of_cons; [done|].
    by eapply bucket_hash; [|lia| |]. }
  destruct (set_bucket_shape t (Z.land (hashKey e.1) (sizemask t)) (e :: b) 1) as (Hs1 & Hs2 & Hs3).
  destruct (IH _ Hok1 (Hs3 Ht)) as (t' & -> & Hok' & Ht' & Hsz & Hperm). exists t'.
  split_and!; [done|done|done|congruence|]. rewrite Hperm.
  destruct (bucket_split _ _ _ Hb) as (rest & Hrest & Hset). rewrite Hset, Hrest. cbn.
  by rewrite <- Permutation_middle.
Qed.

(** What a rehashing does: nothing to the entries. *)
Definition rehashed d d' : Prop :=
  dict_ok d' /\ entries d' ≡ₚ entries d /\ iterators d' = iterators d.

Lemma entries_keys (l l' : list (K * V)) : l ≡ₚ l' -> NoDup l.*1 -> NoDup l'.*1.
Proof. intros Hp. by rewrite Hp. Qed.

Lemma rehash_end_spec d :
  dict_ok d -> rehashing_ok d -> exists d' more, rehash_end d = (d', more) /\ rehashed d d' /\
    more = dictIsRehashing d' /\ (more = true -> rehashidx d' = rehashidx d).
Proof.
  intros Hok (Ht0 & Ht1 & Hi & Hc). unfold rehash_end. destruct (Z.eqb_spec (used (ht0 d)) 0) as [Hu|Hu].
  - eexists _, _. split; [done|]. split_and!; [|done|done]. destruct Hok as [O0 O1 Hk Hr].
    assert (ht_entries (ht0 d) = []) as He.
    { rewrite (used_entries _ O0) in Hu. destruct (ht_entries (ht0 d)); [done|cbn in Hu; lia]. }
    split_and!; [|unfold entries; cbn; by rewrite He, app_nil_r|done]. split; cbn; [done|done| |done].
    unfold entries in *. cbn. by rewrite He, app_nil_r in *.
  - eexists _, _. split; [done|]. split_and!; [by split_and!| |done].
    unfold dictIsRehashing. destruct (Z.eqb_spec (rehashidx d) (-1)); [lia|done].
Qed.

Lemma rehash_loop_spec n visits d :
  dict_ok d -> rehashing_ok d -> (n = 0 \/ 1 <= visits)%nat ->
  exists d' more, rehash_loop hashKey n visits d = Some (d', more) /\ rehashed d d' /\
    more = dictIsRehashing d' /\ (more = true -> rehashidx d <= rehashidx d' /\ ((1 <= n)%nat -> rehashidx d < rehashidx d')).
Proof.
  revert visits d. induction n as [|n IH]; intros visits d Hok Hre Hv; cbn [rehash_loop].
  { destruct (rehash_end_spec d Hok Hre) as (d' & more & -> & Hr & Hm & Hi).
    exists d', more. split_and!; [done|done|done|]. intros Hmore. rewrite (Hi Hmore). lia. }
  destruct (Z.eqb_spec (used (ht0 d)) 0) as [Hu|Hu].
  { destruct (rehash_end_spec d Hok Hre) as (d' & more & Heq & Hr & Hm & Hi).
    exists d', more. rewrite Heq. split_and!; [done|done|done|]. intros ->. unfold rehash_end in Heq.
    rewrite Hu in Heq. simplify_eq. }
  pose proof Hre as (Ht0 & Ht1 & Hi & Hc). pose proof Hok as [O0 O1 Hk _].
  assert (rehashidx d < ht_size (ht0 d)) as Hlt
    by (destruct (Z.lt_ge_cases (rehashidx d) (ht_size (ht0 d))); [done|by destruct Hu; eapply cleared_all]).
  destruct (Z.ltb_spec (rehashidx d) (ht_size (ht0 d))); [|lia]. cbn [negb].
  destruct (skip_empty_spec (ht0 d) (rehashidx d) visits) as (idx & v & -> & Hcl & Hidx & Hcase); [done..|lia|done|lia|].
  cbn [mbind option_bind]. destruct Hcase as [[-> Hlt']|(Hv1 & b & Hb & Hne)].
  { eexists _, _. split; [done|]. split_and!; cbn.
    - split_and!; [|done|done]. split; [done|done|done|]. cbn. rewrite decide_False by lia. by split_and!; cbn; try lia.
    - unfold dictIsRehashing. cbn. destruct (Z.eqb_spec idx (-1)); [lia|done].
    - lia. }
  destruct v as [|v]; [lia|]. rewrite Hb. cbn [mbind option_bind].
  destruct (move_chain_spec b (ht1 d) O1 Ht1) as (t1 & -> & Hok1 & Ht1' & Hsz & Hperm). cbn [mbind option_bind].
  set (d1 := mkDict _ _ _ _).
  assert (ht_ok (ht0 d1)) as Hok0.
  { cbn. replace (- Z.of_nat (length b)) with (Z.of_nat (length (@nil (K * V))) - Z.of_nat (length b)) by (cbn; lia).
    apply set_bucket_ok; [done|lia|done|]. by intros e ?%elem_of_nil. }
  assert (entries d1 ≡ₚ entries d) as Hent.
  { unfold entries, d1. cbn [ht0 ht1]. rewrite Hperm. destruct (bucket_split _ _ _ Hb) as (rest & Hr & Hset).
    rewrite Hset, Hr. cbn. rewrite !app_assoc. f_equiv. apply Permutation_app_comm. }
  assert (rehashing_ok d1) as Hre1.
  { destruct (set_bucket_shape (ht0 d) idx [] (- Z.of_nat (length b))) as (Hs1 & _ & Hs3).
    pose proof (bucket_range _ _ _ O0 Hb). split_and!; cbn; [by apply Hs3|done|lia|lia|].
    intros j c Hj. rewrite set_bucket_lookup by lia. case_decide as Hd.
    - rewrite Hb. cbn. congruence.
    - apply Hcl. lia. }
  assert (dict_ok d1) as Hd1.
  { split; [done|done|by rewrite Hent|]. rewrite decide_False; [done|]. cbn. lia. }
  destruct (IH (S v) d1 Hd1 Hre1) as (d' & more & -> & (Hr1 & Hr2 & Hr3) & Hm & Hprog); [lia|].
  exists d', more. split_and!; [done| |done|].
  - split_and!; [done|by rewrite Hr2|done].
  - intros Hmore. destruct (Hprog Hmore) as [Hle _]. cbn in Hle. lia.
Qed.

Lemma dictRehash_spec d n :
  dict_ok d ->
  exists d' more, dictRehash hashKey d n = Some (d', more) /\ rehashed d d' /\
    more = dictIsRehashing d' /\ (more = true -> (1 <= n)%nat -> rehashidx d < rehashidx d').
Proof.
  intros Hok. unfold dictRehash. destruct (dictIsRehashing d) eqn:Hr.
  - destruct (rehash_loop_spec n (n * 10) d Hok (rehashing_true _ Hok Hr)) as (d' & more & -> & ? & ? & Hp); [lia|].
    exists d', more. split_and!; [done..|]. intros ? ?. by apply Hp.
  - exists d, false. split_and!; [done| |done|done]. by split_and!.
Qed.

Lemma rehash_step_spec d : dict_ok d -> exists d', rehash_step hashKey d = Some d' /\ rehashed d d'.
Proof.
  intros Hok. unfold rehash_step, _dictRehashStep.
  assert (rehashed d d) as Hrefl by (by split_and!).
  destruct (dictIsRehashing d); [|by exists d]. destruct (iterators d =? 0); [|by exists d].
  destruct (dictRehash_spec d 1 Hok) as (d' & more & -> & Hr & _). by exists d'.
Qed.

(** Called again and again, [dictRehash] completes the rehashing: every call
    advances the index, which the size of the first table bounds. *)
Fixpoint rehash_all (rounds n : nat) d : option dict :=
  match rounds with
  | O => Some d
  | S rounds =>
      match dictRehash hashKey d n with
      | None => None
      | Some (d, more) => if more then rehash_all rounds n d else Some d
      end
  end.

Lemma ht0_size_kept n d d' : dictRehash hashKey d n = Some (d', true) -> ht_size (ht0 d') = ht_size (ht0 d).
Proof.
  unfold dictRehash. destruct (dictIsRehashing d); [|done]. generalize (n * 10)%nat as v. intros v.
  revert v d. induction n as [|n IH]; intros v d; cbn [rehash_loop].
  - unfold rehash_end. by case_match; intros; simplify_eq.
  - unfold rehash_end. destruct (used (ht0 d) =? 0); [done|]. destruct (negb _); [done|].
    destruct (skip_empty _ _ _) as [[idx v']|]; [|done]. cbn. destruct v'; [by intros; simplify_eq|].
    destruct (bucket _ _); [|done]. cbn. destruct (move_chain _ _ _); [|done]. cbn. intros Hl. by apply IH in Hl.
Qed.

Lemma rehash_all_done n d :
  dict_ok d -> (1 <= n)%nat ->
  forall rounds, ht_size (ht0 d) + 1 - rehashidx d <= Z.of_nat rounds ->
  exists d', rehash_all rounds n d = Some d' /\ rehashed d d' /\ dictIsRehashing d' = false.
Proof.
  intros Hok Hn rounds. revert d Hok. induction rounds as [|rounds IH]; intros d Hok Hb; cbn.
  - exists d. destruct (dictIsRehashing d) eqn:Hr; [|by split_and!].
    destruct (rehashing_true _ Hok Hr) as (_ & _ & Hi & _). lia.
  - destruct (dictRehash_spec d n Hok) as (d1 & more & Heq & (Hok1 & He & Hit) & Hm & Hp). rewrite Heq. cbn.
    destruct more; [|by exists d1].
    specialize (Hp eq_refl Hn). destruct (IH d1 Hok1) as (d' & -> & (Hok' & He' & Hit') & Hd').
    { rewrite (ht0_size_kept _ _ _ Heq). lia. }
    exists d'. split_and!; [done| |done]. split_and!; [done|by rewrite He', He|congruence].
Qed.

(** ** The map of the entries *)

Definition dict_map d : gmap K V := list_to_map (entries d).

Lemma dict_map_lookup d k v : dict_ok d -> dict_map d !! k = Some v <-> (k, v) ∈ entries d.
Proof. intros Hok. symmetry. apply elem_of_list_to_map, (ok_keys _ Hok). Qed.

Lemma dict_map_none d k : dict_map d !! k = None <-> k ∉ (entries d).*1.
Proof. symmetry. apply not_elem_of_list_to_map. Qed.

Lemma dict_map_perm d l : dict_ok d -> entries d ≡ₚ l -> dict_map d = list_to_map l.
Proof. intros Hok Hp. apply list_to_map_proper; [apply (ok_keys _ Hok)|done]. Qed.

Lemma rehashed_map d d' : dict_ok d -> rehashed d d' -> dict_map d' = dict_map d.
Proof. intros Hok (Hok' & Hp & _). by apply dict_map_perm. Qed.

Lemma dictSize_map d : dict_ok d -> dictSize d = Z.of_nat (size (dict_map d)).
Proof.
  intros Hok. unfold dictSize. rewrite (used_entries _ (ok_ht0 _ Hok)), (used_entries _ (ok_ht1 _ Hok)).
  unfold dict_map. rewrite <- (length_map_to_list (M := gmap K)), map_to_list_to_map by apply (ok_keys _ Hok).
  unfold entries. rewrite length_app. lia.
Qed.

(** ** Lookup *)

Lemma chain_find_spec key (he : list (K * V)) pos :
  match chain_find key he pos with
  | Some p => exists q v, p = (pos + q)%nat /\ he !! q = Some (key, v)
  | None => key ∉ he.*1
  end.
Proof.
  revert pos. induction he as [|[k v] he IH]; intros pos; cbn; [apply not_elem_of_nil|].
  case_decide as Hd; cbn in Hd.
  - subst. exists 0%nat, v. split; [lia|done].
  - specialize (IH (S pos)). destruct (chain_find key he (S pos)) as [p|].
    + destruct IH as (q & w & -> & Hq). exists (S q), w. split; [lia|done].
    + by apply not_elem_of_cons.
Qed.

Lemma get_ht_ok d b : dict_ok d -> ht_ok (get_ht d b).
Proof. intros []. by destruct b. Qed.

Lemma get_ht_entries d b e : e ∈ ht_entries (get_ht d b) -> e ∈ entries d.
Proof. unfold entries. rewrite elem_of_app. destruct b; auto. Qed.

Lemma table_find_spec d b key :
  dict_ok d -> is_Some (table (get_ht d b)) ->
  exists r, table_find d b key (hashKey key) = Some r /\
    match r with
    | Some p => 0 <= p_idx p /\ exists v, dictEntryAt d p = Some (key, v)
    | None => key ∉ (ht_entries (get_ht d b)).*1
    end.
Proof.
  intros Hok Ht. pose proof (get_ht_ok d b Hok) as Hht. pose proof (hash_range _ key Hht Ht) as Hr.
  destruct (bucket_in _ _ Hht Ht Hr) as [he Hhe]. unfold table_find. rewrite Hhe. cbn [mbind option_bind].
  eexists. split; [done|]. pose proof (chain_find_spec key he 0) as Hf.
  destruct (chain_find key he 0) as [pos|]; cbn.
  - destruct Hf as (q & v & -> & Hq). split; [lia|]. exists v. unfold dictEntryAt. cbn. by rewrite Hhe.
  - intros ([k v] & Hk & Hin)%list_elem_of_fmap. cbn in Hk. subst k.
    destruct (bucket_entry _ _ Hht Hin) as (he' & Hb & Hin'). cbn in Hb. rewrite Hhe in Hb. simplify_eq.
    apply Hf, list_elem_of_fmap. by exists (key, v).
Qed.

Lemma tables_find_spec d key :
  dict_ok d -> is_Some (table (ht0 d)) ->
  exists r, tables_find d key (hashKey key) = Some r /\
    match r with
    | Some p => 0 <= p_idx p /\ exists v, dictEntryAt d p = Some (key, v)
    | None => dict_map d !! key = None
    end.
Proof.
  intros Hok Ht. unfold tables_find.
  destruct (table_find_spec d false key Hok Ht) as ([p|] & -> & Hp); cbn [mbind option_bind]; [by eexists|].
  destruct (dictIsRehashing d) eqn:Hr.
  - destruct (rehashing_true _ Hok Hr) as (_ & Ht1 & _).
    destruct (table_find_spec d true key Hok Ht1) as ([p'|] & -> & Hp'); eexists; (split; [done|]); [done|].
    apply dict_map_none. unfold entries. rewrite fmap_app, elem_of_app. naive_solver.
  - eexists. split; [done|]. apply dict_map_none. unfold entries, ht_entries at 2.
    rewrite (rehashing_false _ Hok Hr). cbn. by rewrite app_nil_r.
Qed.

Lemma entryAt_in d p e : dictEntryAt d p = Some e -> e ∈ entries d.
Proof.
  unfold dictEntryAt. destruct (bucket _ _) as [b|] eqn:Hb; [|done]. cbn. intros He.
  apply (get_ht_entries d (p_table p)). destruct (bucket_split _ _ _ Hb) as (rest & -> & _).
  apply elem_of_app. left. by eapply list_elem_of_lookup_2.
Qed.

Lemma table_some d : dict_ok d -> dictSize d <> 0 -> is_Some (table (ht0 d)).
Proof.
  intros Hok Hs. destruct (dictIsRehashing d) eqn:Hr; [apply (rehashing_true _ Hok Hr)|].
  destruct (table (ht0 d)) eqn:Ht; [eauto|]. destruct Hs. unfold dictSize.
  pose proof (ok_ht0 _ Hok) as O0. pose proof (ok_ht1 _ Hok) as O1. unfold ht_ok in O0, O1.
  rewrite Ht in O0. rewrite (rehashing_false _ Hok Hr) in O1. lia.
Qed.

Lemma size_empty d : dict_ok d -> dictSize d = 0 -> dict_map d = ∅.
Proof. intros Hok Hs. rewrite (dictSize_map _ Hok) in Hs. apply map_size_empty_iff. lia. Qed.

Lemma dictFind_spec d key :
  dict_ok d ->
  exists d' r, dictFind hashKey d key = Some (d', r) /\ rehashed d d' /\
    match r with
    | Some p => 0 <= p_idx p /\ exists v, dictEntryAt d' p = Some (key, v) /\ dict_map d !! key = Some v
    | None => dict_map d !! key = None
    end.
Proof.
  intros Hok. unfold dictFind. destruct (Z.eqb_spec (dictSize d) 0) as [Hz|Hz].
  { exists d, None. split_and!; [done|by split_and!|]. by rewrite (size_empty _ Hok Hz), lookup_empty. }
  destruct (rehash_step_spec d Hok) as (d' & -> & Hr). cbn [mbind option_bind]. pose proof Hr as (Hok' & Hp & _).
  assert (is_Some (table (ht0 d'))) as Ht.
  { apply table_some; [done|]. rewrite (dictSize_map _ Hok'), (rehashed_map _ _ Hok Hr). by rewrite <- dictSize_map. }
  destruct (tables_find_spec d' key Hok' Ht) as (r & -> & Hf). cbn. exists d', r. split_and!; [done|done|].
  rewrite <- (rehashed_map _ _ Hok Hr). destruct r as [p|]; [|done]. destruct Hf as (Hi & v & Hv). split; [done|]. exists v.
  split; [done|]. apply dict_map_lookup; [done|]. by eapply entryAt_in.
Qed.

Lemma dictFetchValue_spec d key :
  dict_ok d -> exists d', dictFetchValue hashKey d key = Some (d', dict_map d !! key) /\ rehashed d d'.
Proof.
  intros Hok. destruct (dictFind_spec d key Hok) as (d' & r & Hf & Hr & Hv). exists d'. split; [|done].
  unfold dictFetchValue. rewrite Hf. cbn. destruct r as [p|]; [|by rewrite Hv].
  destruct Hv as (_ & v & -> & ->). done.
Qed.

(** ** Updates *)

(** Replacing a chain of either table. *)
Lemma set_chain_spec d tb i b b' :
  dict_ok d -> 0 <= i -> bucket (get_ht d tb) i = Some b ->
  (forall e, e ∈ b' -> Z.land (hashKey e.1) (sizemask (get_ht d tb)) = i) ->
  (tb = false -> dictIsRehashing d = true -> b = [] -> b' = []) ->
  let d' := set_ht d tb (set_bucket (get_ht d tb) i b' (Z.of_nat (length b') - Z.of_nat (length b))) in
  exists rest, entries d ≡ₚ b ++ rest /\ entries d' ≡ₚ b' ++ rest /\ iterators d' = iterators d /\
    (NoDup (b' ++ rest).*1 -> dict_ok d').
Proof.
  intros Hok Hi Hb Hh Hcl. cbn zeta. set (n := _ - _).
  pose proof (set_bucket_ok _ _ _ b' (get_ht_ok d tb Hok) Hi Hb Hh) as Hok'.
  destruct (bucket_split _ _ _ Hb) as (rest & Hrest & Hset).
  destruct (set_bucket_shape (get_ht d tb) i b' n) as (Hs1 & Hs2 & Hs3). destruct Hok as [O0 O1 Hk Hidx].
  destruct tb; cbn [get_ht set_ht] in *.
  - exists (rest ++ ht_entries (ht0 d)).
    assert (entries (mkDict (ht0 d) (set_bucket (ht1 d) i b' n) (rehashidx d) (iterators d)) ≡ₚ
      b' ++ rest ++ ht_entries (ht0 d)) as Hp.
    { unfold entries. cbn [ht0 ht1]. by rewrite Hset, Permutation_app_comm, <- app_assoc. }
    split_and!; [unfold entries; by rewrite Hrest, Permutation_app_comm, <- app_assoc|done|done|].
    intros Hnd. split; [done|done|by rewrite Hp|]. cbn. case_decide as Hd.
    + unfold bucket in Hb. by rewrite Hidx in Hb.
    + destruct Hidx as (?&?&?&?). split_and!; cbn; [done|by apply Hs3|lia|lia|done].
  - exists (rest ++ ht_entries (ht1 d)).
    assert (entries (mkDict (set_bucket (ht0 d) i b' n) (ht1 d) (rehashidx d) (iterators d)) ≡ₚ
      b' ++ rest ++ ht_entries (ht1 d)) as Hp.
    { unfold entries. cbn [ht0 ht1]. by rewrite Hset, <- app_assoc. }
    split_and!; [unfold entries; by rewrite Hrest, <- app_assoc|done|done|].
    intros Hnd. split; [done|done|by rewrite Hp|]. cbn. case_decide as Hd; [done|].
    destruct Hidx as (?&?&?&Hc). split_and!; cbn; [by apply Hs3|done|lia|lia|].
    intros j c Hj. rewrite set_bucket_lookup by lia. case_decide as Hji; [|by apply Hc].
    subst j. rewrite Hb. cbn. intros [= <-]. apply Hcl; [done| |by apply (Hc i)].
    unfold dictIsRehashing. by destruct (Z.eqb_spec (rehashidx d) (-1)).
Qed.

Lemma entryAt_bucket d p e :
  dict_ok d -> 0 <= p_idx p -> dictEntryAt d p = Some e ->
  exists b, bucket (get_ht d (p_table p)) (p_idx p) = Some b /\ b !! p_pos p = Some e /\
    forall x, x ∈ b -> Z.land (hashKey x.1) (sizemask (get_ht d (p_table p))) = p_idx p.
Proof.
  intros Hok Hi. unfold dictEntryAt. destruct (bucket _ _) as [b|] eqn:Hb; [|done]. cbn. intros He.
  exists b. split_and!; [done|done|]. intros x Hx. eapply bucket_hash; [by apply get_ht_ok|done|done|done].
Qed.

Lemma dictSetVal_spec d p k v0 val :
  dict_ok d -> 0 <= p_idx p -> dictEntryAt d p = Some (k, v0) ->
  exists d', dictSetVal d p val = Some d' /\ dict_ok d' /\ iterators d' = iterators d /\
    dict_map d' = <[k := val]> (dict_map d).
Proof.
  intros Hok Hi He. destruct (entryAt_bucket _ _ _ Hok Hi He) as (b & Hb & Hp & Hh).
  unfold dictSetVal. rewrite Hb. cbn [mbind option_bind]. rewrite Hp. cbn [mbind option_bind fst].
  set (b' := <[p_pos p := (k, val)]> b).
  assert (b ≡ₚ (k, v0) :: delete (p_pos p) b) as Hb1 by (by apply delete_Permutation).
  assert (b' ≡ₚ (k, val) :: delete (p_pos p) b) as Hb2.
  { unfold b'. rewrite insert_take_drop, delete_take_drop by (by eapply lookup_lt_Some).
    by rewrite <- Permutation_middle. }
  destruct (set_chain_spec d (p_table p) (p_idx p) b b' Hok Hi Hb) as (rest & He1 & He2 & Hit & Hok').
  { intros e Hin. rewrite Hb2 in Hin. apply elem_of_cons in Hin as [->|Hin]; cbn.
    - apply (Hh (k, v0)). by eapply list_elem_of_lookup_2.
    - apply Hh. rewrite Hb1. by right. }
  { intros _ _ ->. by rewrite lookup_nil in Hp. }
  assert (length b' = length b) as Hlen by apply length_insert. rewrite Hlen, Z.sub_diag in *.
  rewrite Hb1 in He1. pose proof (transitivity He2 (Permutation_app_tail rest Hb2)) as He3. pose proof (ok_keys _ Hok) as Hnd. rewrite He1 in Hnd.
  assert (dict_ok (set_ht d (p_table p) (set_bucket (get_ht d (p_table p)) (p_idx p) b' 0))) as Hd'.
  { apply Hok'. by rewrite Hb2. }
  eexists. split; [done|]. split_and!; [done|done|].
  rewrite (dict_map_perm _ _ Hd' He3), (dict_map_perm _ _ Hok He1). cbn. by rewrite insert_insert_eq.
Qed.

(** ** Resizing *)

Lemma new_table_ok j :
  2 <= j <= 63 -> ht_ok (mkHt (Some (replicate (Z.to_nat (2 ^ j)) [])) (2 ^ j) (2 ^ j - 1) 0 : dictht) /\
  ht_entries (mkHt (Some (replicate (Z.to_nat (2 ^ j)) [])) (2 ^ j) (2 ^ j - 1) 0 : dictht) = [].
Proof.
  intros Hj. pose proof (Z.pow_pos_nonneg 2 j ltac:(lia) ltac:(lia)).
  assert (concat (replicate (Z.to_nat (2 ^ j)) []) = ([] : list (K * V))) as Hc.
  { apply concat_empty. intros i b Hb. by apply lookup_replicate_1 in Hb as [-> _]. }
  split; [|exact Hc]. unfold ht_ok. cbn [table ht_size sizemask used]. rewrite length_replicate, Hc.
  split_and!; [by exists j|done|lia|done|]. intros i b e Hb He.
  apply lookup_replicate_1 in Hb as [-> _]. by apply elem_of_nil in He.
Qed.

Definition resized d d' : Prop := dict_ok d' /\ entries d' = entries d /\ iterators d' = iterators d.

Lemma resized_rehashed d d' : resized d d' -> rehashed d d'.
Proof. intros (? & He & ?). split_and!; [done|by rewrite He|done]. Qed.

Lemma dictExpand_spec d size :
  dict_ok d -> size < LONG_MAX ->
  resized d (dictExpand d size).1 /\ ((dictExpand d size).2 = true -> is_Some (table (ht0 (dictExpand d size).1))).
Proof.
  intros Hok Hs. assert (resized d d) as Hrefl by (by split_and!). unfold dictExpand.
  destruct (dictIsRehashing d) eqn:Hr; [by split|]. cbn [orb].
  destruct (size <? used (ht0 d)); [by split|]. destruct (_ =? ht_size (ht0 d)); [by split|].
  destruct (dictNextPower_spec size Hs) as (j & Hj & -> & _). destruct (new_table_ok j Hj) as [Hn Hne].
  pose proof (rehashing_false _ Hok Hr) as Ht1. destruct Hok as [O0 O1 Hk Hi].
  destruct (table (ht0 d)) as [tbl|] eqn:Ht; cbn [fst snd].
  - assert (entries (mkDict (ht0 d) (mkHt (Some (replicate (Z.to_nat (2 ^ j)) [])) (2 ^ j) (2 ^ j - 1) 0) 0
      (iterators d)) = entries d) as He.
    { unfold entries. cbn [ht0 ht1]. rewrite Hne. unfold ht_entries at 3. by rewrite Ht1. }
    split; [|cbn; rewrite Ht; eauto]. split_and!; [|done|done]. split; [done|done|by rewrite He|]. cbn.
    split_and!; cbn; [by rewrite Ht|done|lia| |intros i b ?; lia].
    unfold ht_ok in O0. rewrite Ht in O0. lia.
  - assert (entries (mkDict (mkHt (Some (replicate (Z.to_nat (2 ^ j)) [])) (2 ^ j) (2 ^ j - 1) 0) (ht1 d)
      (rehashidx d) (iterators d)) = entries d) as He.
    { unfold entries. cbn [ht0 ht1]. rewrite Hne. unfold ht_entries at 2. by rewrite Ht. }
    split; [|done]. split_and!; [|done|done]. split; [done|done|by rewrite He|]. cbn [rehashidx ht1].
    case_decide; [done|]. unfold dictIsRehashing in Hr. by destruct (Z.eqb_spec (rehashidx d) (-1)).
Qed.

Lemma dictResize_spec d : dict_ok d -> resized d (dictResize dict_can_resize d).1.
Proof.
  intros Hok. unfold dictResize. destruct (_ || _); [by split_and!|].
  apply dictExpand_spec; [done|]. pose proof (to_int_range (used (ht0 d))) as Hr.
  unfold LONG_MAX, DICT_HT_INITIAL_SIZE. destruct (Z.ltb_spec (to_int (used (ht0 d))) 4); clia.
Qed.

(** The number of entries that keeps every size within 64 bits. *)
Definition dict_room d : Prop := Z.of_nat (size (dict_map d)) < 2 ^ 61.

Lemma ht0_size d : ht_ok (ht0 d) -> ht_size (ht0 d) = 0 \/ (4 <= ht_size (ht0 d) /\ is_Some (table (ht0 d))).
Proof.
  unfold ht_ok. destruct (table (ht0 d)) as [tbl|]; [|lia]. intros ((k & Hk & ->) & _). right.
  split; [|eauto]. change 4 with (2 ^ 2). apply Z.pow_le_mono_r; lia.
Qed.

Lemma dictExpandIfNeeded_spec d :
  dict_ok d -> dict_room d ->
  exists d', _dictExpandIfNeeded dict_can_resize d = (d', true) /\ resized d d' /\ is_Some (table (ht0 d')).
Proof.
  intros Hok Hroom. assert (resized d d) as Hrefl by (by split_and!). unfold _dictExpandIfNeeded.
  destruct (dictIsRehashing d) eqn:Hr; [exists d; split_and!; [done|done|apply (rehashing_true _ Hok Hr)]|].
  unfold dict_room in Hroom. rewrite <- (dictSize_map _ Hok) in Hroom. unfold dictSize in Hroom.
  assert (0 <= used (ht0 d) /\ 0 <= used (ht1 d)) as [Hu0 Hu1].
  { rewrite (used_entries _ (ok_ht0 _ Hok)), (used_entries _ (ok_ht1 _ Hok)). lia. }
  assert (forall size, used (ht0 d) <= size < LONG_MAX -> ht_size (ht0 d) < _dictNextPower size ->
    exists d', dictExpand d size = (d', true) /\ resized d d' /\ is_Some (table (ht0 d'))) as Hex.
  { intros sz Hsz Hlt. destruct (dictExpand_spec d sz Hok ltac:(lia)) as [Hre Hsome].
    assert ((dictExpand d sz).2 = true) as Hok2.
    { unfold dictExpand. rewrite Hr. cbn [orb]. destruct (Z.ltb_spec sz (used (ht0 d))); [lia|].
      destruct (Z.eqb_spec (_dictNextPower sz) (ht_size (ht0 d))); [lia|]. by destruct (table (ht0 d)). }
    destruct (dictExpand d sz) as [d' ok]. cbn in *. subst. by exists d'; split_and!; [..|apply Hsome]. }
  destruct (ht0_size d (ok_ht0 _ Hok)) as [Hz|[Hge Hsome]].
  - rewrite Hz. cbn [Z.eqb]. apply Hex; [|by rewrite Hz].
    assert (used (ht0 d) = 0) as ->; [|unfold LONG_MAX, DICT_HT_INITIAL_SIZE; lia].
    pose proof (ok_ht0 _ Hok) as O0. unfold ht_ok in O0. destruct (table (ht0 d)); [|lia].
    destruct O0 as ((k & Hk & Hp) & _). rewrite Hz in Hp. pose proof (Z.pow_pos_nonneg 2 k). lia.
  - destruct (Z.eqb_spec (ht_size (ht0 d)) 0); [lia|].
    destruct (Z.leb_spec (ht_size (ht0 d)) (used (ht0 d))) as [Hle|]; [|by exists d].
    cbn [andb]. destruct (_ || _); [|by exists d]. rewrite to_ullong_id by clia.
    apply Hex; [unfold LONG_MAX; lia|].
    destruct (dictNextPower_spec (used (ht0 d) * 2)) as (j & Hj & -> & Hj1 & _); [unfold LONG_MAX|]; lia.
Qed.

(** ** Insertion *)

Lemma dictKeyIndex_spec d key :
  dict_ok d -> dict_room d ->
  exists d' s, _dictKeyIndex dict_can_resize d key (hashKey key) = Some (d', s) /\ resized d d' /\
    is_Some (table (ht0 d')) /\
    match s with
    | NoSlot => False
    | Existing p => 0 <= p_idx p /\ exists v, dictEntryAt d' p = Some (key, v)
    | Free idx => dict_map d' !! key = None /\ idx = Z.land (hashKey key) (sizemask (get_ht d' (dictIsRehashing d')))
    end.
Proof.
  intros Hok Hroom. unfold _dictKeyIndex.
  destruct (dictExpandIfNeeded_spec d Hok Hroom) as (d' & -> & Hre & Ht). cbn [negb].
  destruct (tables_find_spec d' key (proj1 Hre) Ht) as ([p|] & -> & Hf); cbn [mbind option_bind]; by eexists _, _.
Qed.

Lemma insert_head d key :
  dict_ok d -> is_Some (table (ht0 d)) -> dict_map d !! key = None ->
  let b := dictIsRehashing d in
  let idx := Z.land (hashKey key) (sizemask (get_ht d b)) in
  exists he, bucket (get_ht d b) idx = Some he /\
    let d' := set_ht d b (set_bucket (get_ht d b) idx ((key, inhabitant) :: he) 1) in
    dict_ok d' /\ iterators d' = iterators d /\ 0 <= idx /\
    dictEntryAt d' (mkPtr b idx 0) = Some (key, inhabitant) /\
    dict_map d' = <[key := inhabitant]> (dict_map d).
Proof.
  intros Hok Ht Hnone. set (b := dictIsRehashing d). set (idx := Z.land (hashKey key) (sizemask (get_ht d b))). cbn zeta.
  assert (is_Some (table (get_ht d b))) as Htb.
  { unfold b. destruct (dictIsRehashing d) eqn:Hr; [apply (rehashing_true _ Hok Hr)|done]. }
  pose proof (hash_range _ key (get_ht_ok d b Hok) Htb) as Hr. fold idx in Hr.
  destruct (bucket_in _ _ (get_ht_ok d b Hok) Htb Hr) as [he Hhe]. exists he. split; [done|].
  destruct (set_chain_spec d b idx he ((key, inhabitant) :: he) Hok (proj1 Hr) Hhe) as (rest & He1 & He2 & Hit & Hok').
  { intros e [->|Hin]%elem_of_cons; [done|]. by eapply bucket_hash; [apply get_ht_ok|lia| |]. }
  { unfold b. by destruct (dictIsRehashing d). }
  replace (Z.of_nat (length ((key, inhabitant) :: he)) - Z.of_nat (length he)) with 1 in * by (cbn [length]; lia).
  set (d' := set_ht d b _) in *. apply dict_map_none in Hnone.
  assert (dict_ok d') as Hd'.
  { apply Hok'. cbn. rewrite <- He1. apply NoDup_cons. split; [done|apply (ok_keys _ Hok)]. }
  split_and!; [done|done|lia| |].
  - unfold dictEntryAt, d'. cbn [p_table p_idx p_pos].
    replace (get_ht (set_ht d b _) b) with (set_bucket (get_ht d b) idx ((key, inhabitant) :: he) 1) by (by destruct b).
    rewrite set_bucket_lookup, decide_True by (done || lia). by rewrite Hhe.
  - rewrite (dict_map_perm _ _ Hd' He2), (dict_map_perm _ _ Hok He1). done.
Qed.

(** Adding a key: a new entry, or the existing one. *)
Lemma dictAddRaw_spec d key :
  dict_ok d -> dict_room d ->
  exists d' p, 0 <= p_idx p /\ dict_ok d' /\ iterators d' = iterators d /\
    match dict_map d !! key with
    | Some v => dictAddRaw hashKey dict_can_resize d key = Some (d', None, Some p) /\
        dictEntryAt d' p = Some (key, v) /\ dict_map d' = dict_map d
    | None => dictAddRaw hashKey dict_can_resize d key = Some (d', Some p, None) /\
        dictEntryAt d' p = Some (key, inhabitant) /\ dict_map d' = <[key := inhabitant]> (dict_map d)
    end.
Proof.
  intros Hok Hroom. unfold dictAddRaw. destruct (rehash_step_spec d Hok) as (d1 & -> & Hr1).
  cbn [mbind option_bind]. pose proof (rehashed_map _ _ Hok Hr1) as Hm1.
  destruct (dictKeyIndex_spec d1 key (proj1 Hr1)) as (d2 & s & -> & Hr2%resized_rehashed & Ht & Hs);
    [by unfold dict_room; rewrite Hm1|]. cbn [mbind option_bind].
  pose proof (rehashed_map _ _ (proj1 Hr1) Hr2) as Hm2. rewrite Hm1 in Hm2. rewrite <- Hm2.
  pose proof Hr1 as (_ & _ & Hit1). pose proof Hr2 as (Hok2 & _ & Hit2). rewrite Hit1 in Hit2.
  destruct s as [idx|p|]; [|destruct Hs as (Hp & v & Hv)|done].
  - destruct Hs as [Hnone ->]. rewrite Hnone.
    destruct (insert_head d2 key Hok2 Ht Hnone) as (he & -> & Hd' & Hit & Hi & Hat & Hmap). cbn [mbind option_bind].
    eexists _, (mkPtr _ _ 0). split; [exact Hi|]. split; [exact Hd'|]. split; [congruence|]. by split_and!.
  - rewrite (proj2 (dict_map_lookup _ _ _ Hok2) (entryAt_in _ _ _ Hv)). exists d2, p. by split_and!.
Qed.

Lemma dictAdd_spec d key val :
  dict_ok d -> dict_room d ->
  exists d', dictAdd hashKey dict_can_resize d key val = Some (d', bool_decide (dict_map d !! key = None)) /\
    dict_ok d' /\ dict_map d' = match dict_map d !! key with Some _ => dict_map d | None => <[key := val]> (dict_map d) end.
Proof.
  intros Hok Hroom. destruct (dictAddRaw_spec d key Hok Hroom) as (d1 & p & Hp & Hok1 & _ & Hadd). unfold dictAdd.
  destruct (dict_map d !! key) as [v|]; destruct Hadd as (-> & Hat & Hm); cbn [mbind option_bind].
  - exists d1. by split_and!.
  - destruct (dictSetVal_spec d1 p key inhabitant val Hok1 Hp Hat) as (d2 & -> & Hok2 & _ & Hm2).
    exists d2. split_and!; [done|done|]. by rewrite Hm2, Hm, insert_insert_eq.
Qed.

Lemma dictReplace_spec d key val :
  dict_ok d -> dict_room d ->
  exists d', dictReplace hashKey dict_can_resize d key val = Some (d', bool_decide (dict_map d !! key = None)) /\
    dict_ok d' /\ dict_map d' = <[key := val]> (dict_map d).
Proof.
  intros Hok Hroom. destruct (dictAddRaw_spec d key Hok Hroom) as (d1 & p & Hp & Hok1 & _ & Hadd). unfold dictReplace.
  destruct (dict_map d !! key) as [v|]; destruct Hadd as (-> & Hat & Hm); cbn [mbind option_bind].
  - destruct (dictSetVal_spec d1 p key v val Hok1 Hp Hat) as (d2 & -> & Hok2 & _ & Hm2).
    exists d2. split_and!; [done|done|]. by rewrite Hm2, Hm.
  - destruct (dictSetVal_spec d1 p key inhabitant val Hok1 Hp Hat) as (d2 & -> & Hok2 & _ & Hm2).
    exists d2. split_and!; [done|done|]. by rewrite Hm2, Hm, insert_insert_eq.
Qed.

(** ** Deletion *)

Lemma dictGenericDelete_spec d key :
  dict_ok d ->
  exists d', dictGenericDelete hashKey d key = Some (d', pair key <$> dict_map d !! key) /\
    dict_ok d' /\ dict_map d' = delete key (dict_map d).
Proof.
  intros Hok. unfold dictGenericDelete.
  assert ((used (ht0 d) =? 0) && (used (ht1 d) =? 0) = (dictSize d =? 0)) as ->.
  { pose proof (used_entries _ (ok_ht0 _ Hok)). pose proof (used_entries _ (ok_ht1 _ Hok)). unfold dictSize.
    destruct (Z.eqb_spec (used (ht0 d)) 0), (Z.eqb_spec (used (ht1 d)) 0), (Z.eqb_spec (used (ht0 d) + used (ht1 d)) 0); cbn; lia. }
  destruct (Z.eqb_spec (dictSize d) 0) as [Hz|Hz].
  { exists d. rewrite (size_empty _ Hok Hz), lookup_empty, delete_empty. by split_and!. }
  destruct (rehash_step_spec d Hok) as (d1 & -> & Hr). cbn [mbind option_bind]. pose proof Hr as (Hok1 & Hp & _).
  pose proof (rehashed_map _ _ Hok Hr) as Hm1. rewrite <- Hm1.
  assert (is_Some (table (ht0 d1))) as Ht.
  { apply table_some; [done|]. rewrite (dictSize_map _ Hok1), Hm1. by rewrite <- dictSize_map. }
  destruct (tables_find_spec d1 key Hok1 Ht) as ([p|] & -> & Hf); cbn [mbind option_bind].
  2: { exists d1. rewrite Hf. split_and!; [done|done|]. by rewrite delete_id. }
  destruct Hf as (Hi & v & Hat). destruct (entryAt_bucket _ _ _ Hok1 Hi Hat) as (b & Hb & Hbp & Hh).
  rewrite Hb. cbn [mbind option_bind]. rewrite Hbp. cbn [mbind option_bind].
  assert (dict_map d1 !! key = Some v) as Hk by (by apply dict_map_lookup, entryAt_in with p).
  pose proof (delete_Permutation _ _ _ Hbp) as Hb1.
  destruct (set_chain_spec d1 (p_table p) (p_idx p) b (delete (p_pos p) b) Hok1 Hi Hb) as (rest & He1 & He2 & Hit & Hok').
  { intros e Hin. apply Hh. rewrite Hb1. by right. }
  { intros _ _ ->. by rewrite lookup_nil in Hbp. }
  assert (Z.of_nat (length (delete (p_pos p) b)) - Z.of_nat (length b) = -1) as Hlen.
  { rewrite length_delete by eauto. apply lookup_lt_Some in Hbp. lia. }
  rewrite Hlen in *. rewrite Hb1 in He1. cbn in He1. pose proof (ok_keys _ Hok1) as Hnd. rewrite He1 in Hnd.
  cbn in Hnd. apply NoDup_cons in Hnd as [Hnin Hnd].
  eexists. rewrite Hk. split; [done|]. split; [by apply Hok'|].
  rewrite (dict_map_perm _ _ (Hok' Hnd) He2), (dict_map_perm _ _ Hok1 He1). cbn. rewrite delete_insert_id; [done|].
  by apply not_elem_of_list_to_map.
Qed.

Lemma dictDelete_spec d key :
  dict_ok d ->
  exists d', dictDelete hashKey d key = Some (d', bool_decide (is_Some (dict_map d !! key))) /\
    dict_ok d' /\ dict_map d' = delete key (dict_map d).
Proof.
  intros Hok. destruct (dictGenericDelete_spec d key Hok) as (d' & Hd & Hok' & Hm). exists d'.
  unfold dictDelete. rewrite Hd. cbn [mbind option_bind]. split_and!; [|done|done]. do 2 f_equal.
  by destruct (dict_map d !! key).
Qed.

(** ** Emptying frees every entry *)

Lemma clear_loop_all (tbl : list (list (K * V))) : clear_loop tbl (Z.of_nat (length (concat tbl))) = concat tbl.
Proof.
  induction tbl as [|b tbl IH]; [done|]. cbn [clear_loop concat].
  destruct (Z.ltb_spec 0 (Z.of_nat (length (b ++ concat tbl)))) as [Hl|Hl].
  - f_equal. rewrite <- IH at 2. f_equal. rewrite length_app. lia.
  - destruct (b ++ concat tbl); [done|cbn in Hl; lia].
Qed.

Lemma dictEmpty_spec d : dict_ok d -> dict_ok (dictEmpty d).1 /\ dict_map (dictEmpty d).1 = ∅ /\ (dictEmpty d).2 = entries d.
Proof.
  intros Hok. split_and!; [split; cbn; [done|done|apply NoDup_nil_2|done]|done|].
  unfold dictEmpty, _dictClear, entries, ht_entries. cbn [fst snd].
  rewrite (used_entries _ (ok_ht0 _ Hok)), (used_entries _ (ok_ht1 _ Hok)). by rewrite !clear_loop_all.
Qed.

Lemma dictCreate_spec : dict_ok (dictCreate : dict) /\ dict_map (dictCreate : dict) = ∅.
Proof. split; [|done]. split; cbn; [done|done|apply NoDup_nil_2|done]. Qed.
End Dict.
