(* ===== verification/DictIter.v ===== *)
(** * Iteration over hash tables ([dict.c])

    The iterator, which walks the buckets of both tables, and the stateless
    scan, whose cursor counts from the high bits so that it survives a resize.

    An entry pointer of the iterator is the rest of its chain.  The fingerprint
    an unsafe iterator takes only serves to detect misuse and is left out. *)
From Stdlib Require Import ZArith Lia.
From stdpp Require Import base numbers gmap list.
From S2P Require Import Prelude Dict DictMap.
Open Scope Z_scope.

Record dictIterator {K V : Type} := mkIter {
  it_table : bool;
  it_index : Z;
  it_safe : bool;
  it_entry : list (K * V);
  it_next : list (K * V)
}.
Arguments dictIterator : clear implicits.
Arguments mkIter {K V}.

(** ** Bit reversal *)

(** [v = ((v >> s) & mask) | ((v << s) & ~mask)] on 64 bits. *)
Definition swap_bits (s mask v : Z) : Z :=
  Z.lor (Z.land (Z.shiftr v s) mask) (Z.land (to_ullong (Z.shiftl v s)) (to_ullong (Z.lnot mask))).

Fixpoint rev_loop (fuel : nat) (s mask v : Z) : Z :=
  match fuel with
  | O => v
  | S fuel =>
      let s := Z.shiftr s 1 in
      if 0 <? s then
        let mask := Z.lxor mask (to_ullong (Z.shiftl mask s)) in
        rev_loop fuel s mask (swap_bits s mask v)
      else v
  end.

(** Seven turns: the last one finds [s] zero. *)
Definition rev (v : Z) : Z := rev_loop 7 64 ULLONG_MAX v.

(** Increment the reversed cursor in the bits of [m]. *)
Definition next_cursor (v m : Z) : Z :=
  let v := Z.lor v (to_ullong (Z.lnot m)) in
  rev (to_ullong (rev v + 1)).

(** Increment the bits not covered by the smaller mask. *)
Definition next_expansion (v m0 : Z) : Z :=
  Z.lor (Z.land (to_ullong (Z.lor v m0 + 1)) (to_ullong (Z.lnot m0))) (Z.land v m0).

Section Iter.
Context {K V : Type}.
Abbreviation dictht := (dictht K V).
Abbreviation dict := (dict K V).
Abbreviation dictIterator := (dictIterator K V).
Implicit Types (t : dictht) (d : dict) (it : dictIterator).

(** ** The iterator *)

Definition dictGetIterator : dictIterator := mkIter false (-1) false [] [].
Definition dictGetSafeIterator : dictIterator := mkIter false (-1) true [] [].

(** The first call registers a safe iterator. *)
Definition start_iter d it : dict :=
  if (it_index it =? -1) && negb (it_table it) && it_safe it
  then mkDict (ht0 d) (ht1 d) (rehashidx d) (iterators d + 1) else d.

(** The next bucket: the table, its index and its chain. *)
Definition next_bucket d it : option (option (bool * Z * list (K * V))) :=
  let index := it_index it + 1 in
  if ht_size (get_ht d (it_table it)) <=? index then
    if dictIsRehashing d && negb (it_table it)
    then b ← bucket (ht1 d) 0; Some (Some (true, 0, b))
    else Some None
  else b ← bucket (get_ht d (it_table it)) index; Some (Some (it_table it, index, b)).

Fixpoint dictNext (fuel : nat) d it : option (dict * dictIterator * option (K * V)) :=
  match fuel with
  | O => None
  | S fuel =>
      match it_entry it with
      | [] =>
          let d := start_iter d it in
          nb ← next_bucket d it;
          match nb with
          | None => Some (d, mkIter (it_table it) (it_index it + 1) (it_safe it) [] (it_next it), None)
          | Some (tb, index, b) =>
              match b with
              | [] => dictNext fuel d (mkIter tb index (it_safe it) [] (it_next it))
              | e :: next => Some (d, mkIter tb index (it_safe it) b next, Some e)
              end
          end
      | _ :: _ =>
          match it_next it with
          | [] => dictNext fuel d (mkIter (it_table it) (it_index it) (it_safe it) [] [])
          | e :: next => Some (d, mkIter (it_table it) (it_index it) (it_safe it) (it_next it) next, Some e)
          end
      end
  end.

Definition dictReleaseIterator d it : dict :=
  if negb ((it_index it =? -1) && negb (it_table it)) && it_safe it
  then mkDict (ht0 d) (ht1 d) (rehashidx d) (iterators d - 1) else d.

(** Every bucket of both tables, and the end. *)
Definition iter_fuel d : nat := Z.to_nat (ht_size (ht0 d) + ht_size (ht1 d) + 3).

(** A loop that calls [dictNext] until it returns null. *)
Fixpoint drain_iter (n : nat) d it : option (dict * dictIterator * list (K * V)) :=
  match n with
  | O => None
  | S n =>
      r ← dictNext (iter_fuel d) d it;
      match r with
      | (d, it, None) => Some (d, it, [])
      | (d, it, Some e) =>
          r ← drain_iter n d it;
          Some (r.1.1, r.1.2, e :: r.2)
      end
  end.

(** ** The scan *)

(** The tables in the order of their sizes. *)
Definition small_ht d : dictht := if ht_size (ht1 d) <? ht_size (ht0 d) then ht1 d else ht0 d.
Definition large_ht d : dictht := if ht_size (ht1 d) <? ht_size (ht0 d) then ht0 d else ht1 d.

(** The [do ... while] over the larger table: the entries passed to the
    callback and the cursor. *)
Fixpoint scan_expansions (fuel : nat) t (m0 v : Z) : option (list (K * V) * Z) :=
  match fuel with
  | O => None
  | S fuel =>
      b ← bucket t (Z.land v (sizemask t));
      let v := next_expansion v m0 in
      if Z.land v (Z.lxor m0 (sizemask t)) =? 0 then Some (b, v)
      else r ← scan_expansions fuel t m0 v; Some (b ++ r.1, r.2)
  end.

Definition dictScan d (v : Z) : option (list (K * V) * Z) :=
  if dictSize d =? 0 then Some ([], 0)
  else if dictIsRehashing d then
    let m0 := sizemask (small_ht d) in
    b ← bucket (small_ht d) (Z.land v m0);
    r ← scan_expansions (Z.to_nat (ht_size (large_ht d))) (large_ht d) m0 v;
    Some (b ++ r.1, next_cursor r.2 m0)
  else
    let m0 := sizemask (ht0 d) in
    b ← bucket (ht0 d) (Z.land v m0);
    Some (b, next_cursor v m0).
End Iter.

Example rev_ex : rev 1 = 2 ^ 63 /\ rev 6 = 3 * 2 ^ 61 /\ next_cursor 0 15 = 8 /\ next_cursor 8 15 = 4 /\ next_cursor 15 15 = 0.
Proof. vm_compute. by split_and!. Qed.

(** ** The iterator visits every entry once *)

Section IterFacts.
Context {K V : Type} `{Countable K}.
Context (hashKey : K -> Z).
Abbreviation dict := (dict K V).
Abbreviation dictIterator := (dictIterator K V).
Implicit Types (d : dict) (it : dictIterator).

Definition rest_buckets d it : list (list (K * V)) :=
  drop (Z.to_nat (it_index it + 1)) (default [] (table (get_ht d (it_table it)))) ++
  (if it_table it then [] else default [] (table (ht1 d))).

(** The entries not yet returned. *)
Definition iter_left d it : list (K * V) := it_next it ++ concat (rest_buckets d it).

Record iter_ok it : Prop := {
  io_index : -1 <= it_index it;
  io_start : it_entry it = [] -> it_next it = [];
  io_entry : it_entry it <> [] -> 0 <= it_index it
}.

Lemma start_iter_same d it :
  ht0 (start_iter d it) = ht0 d /\ ht1 (start_iter d it) = ht1 d /\ rehashidx (start_iter d it) = rehashidx d.
Proof. unfold start_iter. by destruct (_ && _). Qed.

Lemma dict_ok_same d d' :
  ht0 d' = ht0 d -> ht1 d' = ht1 d -> rehashidx d' = rehashidx d -> dict_ok hashKey d -> dict_ok hashKey d'.
Proof.
  intros E0 E1 Ei [O0 O1 Hk Hi]. unfold entries, rehashing_ok in *.
  split; unfold entries, rehashing_ok; rewrite ?E0, ?E1, ?Ei; done.
Qed.

Lemma rest_same d d' it :
  ht0 d' = ht0 d -> ht1 d' = ht1 d -> rest_buckets d' it = rest_buckets d it.
Proof. intros E0 E1. unfold rest_buckets, get_ht. by rewrite E0, E1. Qed.

Lemma table_length d b : dict_ok hashKey d -> Z.of_nat (length (default [] (table (get_ht d b)))) = ht_size (get_ht d b).
Proof.
  intros Hok. pose proof (get_ht_ok hashKey d b Hok) as Hht. unfold ht_ok in Hht.
  destruct (table (get_ht d b)); cbn; [apply Hht|lia].
Qed.

Lemma next_bucket_spec d it :
  dict_ok hashKey d -> -1 <= it_index it ->
  match rest_buckets d it with
  | [] => next_bucket d it = Some None
  | b :: bs => exists tb i, next_bucket d it = Some (Some (tb, i, b)) /\ 0 <= i /\
      forall safe en nx, rest_buckets d (mkIter tb i safe en nx) = bs
  end.
Proof.
  intros Hok Hi. pose proof (table_length d (it_table it) Hok) as Hlen. unfold rest_buckets, next_bucket.
  destruct (Z.leb_spec (ht_size (get_ht d (it_table it))) (it_index it + 1)) as [Hle|Hlt].
  - rewrite drop_ge by lia. cbn [app]. destruct (it_table it); cbn [negb].
    { by rewrite andb_false_r. }
    destruct (dictIsRehashing d) eqn:Hr; cbn [andb].
    + destruct (rehashing_true hashKey _ Hok Hr) as (_ & [tbl Ht] & _). rewrite Ht. cbn [default].
      pose proof (ok_ht1 _ _ Hok) as O1. unfold ht_ok in O1. rewrite Ht in O1.
      destruct O1 as ((k & Hk & Hs) & _ & Hl & _). destruct tbl as [|b bs].
      { pose proof (Z.pow_pos_nonneg 2 k). cbn in Hl. lia. }
      exists true, 0. unfold bucket. rewrite Ht. split_and!; [done|lia|]. intros. cbn. rewrite Ht. cbn. by rewrite app_nil_r.
    + by rewrite (rehashing_false hashKey _ Hok Hr).
  - destruct (lookup_lt_is_Some_2 (default [] (table (get_ht d (it_table it)))) (Z.to_nat (it_index it + 1))) as [b Hb]; [lia|].
    rewrite (drop_S _ _ _ Hb). cbn [app]. exists (it_table it), (it_index it + 1).
    unfold bucket. destruct (table (get_ht d (it_table it))) as [tbl|] eqn:Ht; [|done].
    change (default [] (Some tbl)) with tbl in *. cbn [mbind option_bind]. rewrite Hb. cbn [mbind option_bind].
    split_and!; [done|lia|]. intros. unfold rest_buckets. cbn [it_table it_index]. rewrite Ht. cbn [from_option].
    unfold id. by replace (Z.to_nat (it_index it + 1 + 1)) with (S (Z.to_nat (it_index it + 1))) by lia.
Qed.

Lemma start_iter_later d it : 0 <= it_index it -> start_iter d it = d.
Proof. intros Hi. unfold start_iter. destruct (Z.eqb_spec (it_index it) (-1)); [lia|done]. Qed.

Lemma dictNext_spec fuel d it :
  dict_ok hashKey d -> iter_ok it ->
  (length (rest_buckets d it) + match it_entry it with [] => 1 | _ => 2 end <= fuel)%nat ->
  exists it', it_safe it' = it_safe it /\ 0 <= it_index it' /\
  match iter_left d it with
  | [] => dictNext fuel d it = Some (start_iter d it, it', None)
  | e :: l => dictNext fuel d it = Some (start_iter d it, it', Some e) /\ iter_ok it' /\ iter_left d it' = l
  end.
Proof.
  revert d it. induction fuel as [|fuel IH]; intros d it Hok Hit Hf; [destruct (it_entry it); lia|].
  (* a turn of the loop with a null entry *)
  assert (forall it, iter_ok it -> it_entry it = [] -> (length (rest_buckets d it) < S fuel)%nat ->
    exists it', it_safe it' = it_safe it /\ 0 <= it_index it' /\
    match iter_left d it with
    | [] => dictNext (S fuel) d it = Some (start_iter d it, it', None)
    | e :: l => dictNext (S fuel) d it = Some (start_iter d it, it', Some e) /\ iter_ok it' /\ iter_left d it' = l
    end) as Hturn.
  { clear Hit Hf it. intros it Hit Hnull Hf. unfold iter_left. rewrite (io_start _ Hit Hnull). cbn [app dictNext].
    rewrite Hnull. destruct (start_iter_same d it) as (E0 & E1 & Ei).
    pose proof (next_bucket_spec (start_iter d it) it (dict_ok_same _ _ E0 E1 Ei Hok) (io_index _ Hit)) as Hnb.
    rewrite (rest_same _ _ it E0 E1) in Hnb. pose proof (io_index _ Hit).
    destruct (rest_buckets d it) as [|b bs].
    { rewrite Hnb. cbn. exists (mkIter (it_table it) (it_index it + 1) (it_safe it) [] (it_next it)).
      split_and!; [done|cbn; lia|done]. }
    destruct Hnb as (tb & i & -> & Hi & Hbs). cbn [mbind option_bind concat]. destruct b as [|e b].
    - cbn [app]. assert (iter_ok (mkIter tb i (it_safe it) [] (it_next it))) as Hit'
        by (split; cbn; [lia|intros _; by apply io_start|done]).
      specialize (IH (start_iter d it) (mkIter tb i (it_safe it) [] (it_next it)) (dict_ok_same _ _ E0 E1 Ei Hok) Hit').
      rewrite Hbs in IH. cbn in Hf. destruct IH as (it' & Hs' & Hi' & Hm); [cbn; lia|]. exists it'. split; [done|]. split; [done|].
      rewrite (start_iter_later _ (mkIter tb i (it_safe it) [] (it_next it)) Hi) in Hm. unfold iter_left in Hm at 1.
      rewrite Hbs in Hm. cbn [it_next] in Hm. rewrite (io_start _ Hit Hnull) in *. cbn [app] in Hm.
      destruct (concat bs); [done|]. destruct Hm as (? & ? & <-). unfold iter_left.
      split_and!; [done|done|]. by rewrite (rest_same (start_iter d it) d).
    - cbn [app]. exists (mkIter tb i (it_safe it) (e :: b) b). split; [done|]. split; [done|]. split; [done|]. split.
      + split; cbn; [lia|done|done].
      + unfold iter_left. cbn [it_next]. rewrite <- (rest_same _ _ _ E0 E1). by rewrite Hbs. }
  destruct (it_entry it) as [|e0 en] eqn:Hen; [apply Hturn; [done|done|lia]|].
  assert (start_iter d it = d) as Hst by (apply start_iter_later, (io_entry _ Hit); by rewrite Hen).
  cbn [dictNext]. rewrite Hen, Hst. unfold iter_left. destruct (it_next it) as [|e nx] eqn:Hnx.
  - cbn [app]. assert (0 <= it_index it) as Hi by (apply (io_entry _ Hit); by rewrite Hen).
    destruct (IH d (mkIter (it_table it) (it_index it) (it_safe it) [] []) Hok) as (it' & ? & ? & Hm).
    { split; cbn; [lia|done|done]. }
    { change (rest_buckets d (mkIter _ _ _ _ _)) with (rest_buckets d it). cbn. lia. }
    exists it'. split; [done|]. split; [done|]. rewrite start_iter_later in Hm by done. exact Hm.
  - cbn [app]. exists (mkIter (it_table it) (it_index it) (it_safe it) (e :: nx) nx).
    split; [done|]. split; [|split; [done|]]; cbn.
    + apply (io_entry _ Hit). by rewrite Hen.
    + split; [|done]. split; cbn; [|done|]; [|intros _]; apply io_index in Hit as ?; [lia|].
      apply (io_entry _ Hit). by rewrite Hen.
Qed.

Lemma rest_fuel d it : dict_ok hashKey d -> -1 <= it_index it -> (length (rest_buckets d it) + 2 <= iter_fuel d)%nat.
Proof.
  intros Hok Hi. unfold rest_buckets, iter_fuel. rewrite length_app, length_drop.
  pose proof (table_length d false Hok). pose proof (table_length d true Hok). cbn [get_ht] in *.
  destruct (it_table it); cbn [get_ht length]; lia.
Qed.

Lemma drain_iter_spec n d it :
  dict_ok hashKey d -> iter_ok it -> (length (iter_left d it) < n)%nat ->
  exists it', drain_iter n d it = Some (start_iter d it, it', iter_left d it) /\
    it_safe it' = it_safe it /\ 0 <= it_index it'.
Proof.
  revert d it. induction n as [|n IH]; intros d it Hok Hit Hn; [lia|]. cbn [drain_iter].
  destruct (dictNext_spec (iter_fuel d) d it Hok Hit) as (it1 & Hs1 & Hi1 & Hnext).
  { pose proof (rest_fuel d it Hok (io_index _ Hit)). destruct (it_entry it); lia. }
  destruct (iter_left d it) as [|e l] eqn:Hl.
  - rewrite Hnext. cbn. by exists it1.
  - destruct Hnext as (-> & Hit1 & Hl1). cbn [mbind option_bind].
    destruct (start_iter_same d it) as (E0 & E1 & Ei).
    destruct (IH (start_iter d it) it1) as (it' & -> & Hs' & Hi').
    { by apply (dict_ok_same d). }
    { done. }
    { unfold iter_left. rewrite (rest_same _ _ it1 E0 E1). fold (iter_left d it1). rewrite Hl1. cbn in Hn. lia. }
    cbn. rewrite (start_iter_later _ it1 Hi1). exists it'. split_and!; [|congruence|done].
    do 3 f_equal. unfold iter_left. rewrite (rest_same _ _ it1 E0 E1). exact Hl1.
Qed.

(** From a fresh iterator, of either kind. *)
Lemma iterate_all d safe :
  dict_ok hashKey d ->
  exists d' it', drain_iter (S (length (entries d))) d (mkIter false (-1) safe [] []) = Some (d', it', entries d) /\
    iterators d' = iterators d + (if safe then 1 else 0) /\ dictReleaseIterator d' it' = d.
Proof.
  intros Hok. set (it := mkIter false (-1) safe [] []).
  assert (iter_left d it = entries d) as Hl.
  { unfold iter_left, rest_buckets, it. cbn [it_next it_index it_table get_ht app]. change (Z.to_nat (-1 + 1)) with 0%nat.
    rewrite drop_0, concat_app. done. }
  destruct (drain_iter_spec (S (length (entries d))) d it Hok) as (it' & Hd & Hs & Hi); [by split|by rewrite Hl; lia|].
  exists (start_iter d it), it'. rewrite Hd, Hl. split; [done|]. unfold start_iter, dictReleaseIterator, it in *.
  cbn [it_index it_table it_safe] in *. rewrite Hs. destruct (Z.eqb_spec (it_index it') (-1)); [lia|].
  destruct safe; cbn; (split; [lia|]); [|done]. destruct d; cbn. f_equal. lia.
Qed.
End IterFacts.
