(* ===== verification/DictScan.v ===== *)
(** * The guarantee of [dictScan]

    In the order of the reversed hashes a call with cursor [v] covers one block,
    that of the keys in the bucket of [v] of the smaller table, and returns the
    start of the next block, whatever the sizes of the tables.  An entry that
    stays in the dictionary is therefore met, as long as the loop over the larger
    table of a rehashing covers the whole block; it does not when the table is
    shrinking and the cursor stands inside the block. *)
From Stdlib Require Import ZArith Lia.
From stdpp Require Import base numbers gmap list.
From S2P Require Import Prelude Dict DictMap DictIter.
Open Scope Z_scope.

(** ** 64-bit words as bits *)

Definition word (v : Z) : Prop := 0 <= v < 2 ^ 64.

Lemma to_ullong_pow z : to_ullong z = z mod 2 ^ 64.
Proof. done. Qed.

Lemma to_ullong_word z : word (to_ullong z).
Proof. rewrite to_ullong_pow. apply Z.mod_pos_bound. done. Qed.

Lemma ullong_bits z i : 0 <= i < 64 -> Z.testbit (to_ullong z) i = Z.testbit z i.
Proof. intros Hi. rewrite to_ullong_pow. apply Z.mod_pow2_bits_low. lia. Qed.

Lemma word_high v i : word v -> 64 <= i -> Z.testbit v i = false.
Proof.
  intros Hv Hi. unfold word in Hv. rewrite <- (Z.mod_small v (2 ^ 64)) by done. apply Z.mod_pow2_bits_high. lia.
Qed.

Lemma word_intro v : 0 <= v -> (forall i, 64 <= i -> Z.testbit v i = false) -> word v.
Proof.
  intros Hv Hb. replace v with (to_ullong v); [apply to_ullong_word|]. rewrite to_ullong_pow.
  apply Z.bits_inj'. intros i Hi. destruct (Z.lt_ge_cases i 64); [by apply Z.mod_pow2_bits_low|].
  rewrite Z.mod_pow2_bits_high by lia. by rewrite Hb.
Qed.

Lemma word_ext v u : word v -> word u -> (forall i, 0 <= i < 64 -> Z.testbit v i = Z.testbit u i) -> v = u.
Proof.
  intros Hv Hu Hb. apply Z.bits_inj'. intros i Hi. destruct (Z.lt_ge_cases i 64); [apply Hb; lia|].
  by rewrite !word_high.
Qed.

(** ** Bit reversal *)

Lemma swap_bits_testbit s mask v i :
  0 <= i < 64 -> 0 <= s ->
  Z.testbit (swap_bits s mask v) i = if Z.testbit mask i then Z.testbit v (i + s) else Z.testbit v (i - s).
Proof.
  intros Hi Hs. unfold swap_bits. rewrite Z.lor_spec, !Z.land_spec, !ullong_bits by done.
  rewrite Z.shiftr_spec, Z.shiftl_spec, Z.lnot_spec by lia. destruct (Z.testbit mask i); cbn.
  - by rewrite andb_true_r, andb_false_r, orb_false_r.
  - by rewrite andb_false_r, andb_true_r.
Qed.

Lemma swap_bits_word s mask v : word mask -> 0 <= v -> word (swap_bits s mask v).
Proof.
  intros Hm Hv. unfold swap_bits. apply word_intro.
  - apply Z.lor_nonneg. split; apply Z.land_nonneg; [right; apply Hm|left; apply to_ullong_word].
  - intros i Hi. rewrite Z.lor_spec, !Z.land_spec, (word_high mask), (word_high (to_ullong _)) by (done || apply to_ullong_word).
    by rewrite andb_false_r.
Qed.

(** The turns of the loop: shift and mask. *)
Definition rev_stages : list (Z * Z) :=
  [(32, 4294967295); (16, 281470681808895); (8, 71777214294589695);
   (4, 1085102592571150095); (2, 3689348814741910323); (1, 6148914691236517205)].

Lemma rev_stages_eq v : rev v = fold_left (fun v p => swap_bits p.1 p.2 v) rev_stages v.
Proof. reflexivity. Qed.

Definition bit_from (p : Z * Z) (i : Z) : Z := if Z.testbit p.2 i then i + p.1 else i - p.1.

Definition positions : list Z := Z.of_nat <$> seq 0 64.

Lemma positions_in i : 0 <= i < 64 -> i ∈ positions.
Proof. intros Hi. apply list_elem_of_fmap. exists (Z.to_nat i). rewrite elem_of_seq. lia. Qed.

Lemma bit_from_all : Forall (fun p => Forall (fun i => 0 <= bit_from p i < 64) positions) rev_stages.
Proof. apply (bool_decide_unpack _). by vm_compute. Qed.

Lemma bit_from_reverse : Forall (fun i => foldr bit_from i rev_stages = 63 - i) positions.
Proof. apply (bool_decide_unpack _). by vm_compute. Qed.

Lemma stages_testbit st v i :
  Forall (fun p => 0 <= p.1 /\ forall j, 0 <= j < 64 -> 0 <= bit_from p j < 64) st -> 0 <= i < 64 ->
  Z.testbit (fold_left (fun v p => swap_bits p.1 p.2 v) st v) i = Z.testbit v (foldr bit_from i st).
Proof.
  revert i. induction st as [|p st IH] using rev_ind; intros i Hst Hi; [done|].
  apply Forall_app in Hst as [Hst Hp]. apply Forall_cons_1 in Hp as [[Hs Hp] _].
  rewrite fold_left_app, foldr_app. cbn [fold_left foldr]. rewrite swap_bits_testbit by done.
  specialize (Hp i Hi). rewrite <- IH by done. unfold bit_from. by destruct (Z.testbit p.2 i).
Qed.

Lemma rev_testbit v i : 0 <= i < 64 -> Z.testbit (rev v) i = Z.testbit v (63 - i).
Proof.
  intros Hi. rewrite rev_stages_eq, stages_testbit; [|clear|done].
  - f_equal. pose proof bit_from_reverse as Hall. rewrite Forall_forall in Hall. by apply Hall, positions_in.
  - pose proof bit_from_all as Hall. eapply Forall_impl; [apply Forall_and; split; [exact Hall|]|].
    + apply (bool_decide_unpack (Forall (fun p => 0 <= p.1) rev_stages)). by vm_compute.
    + intros p [Hp H0]. split; [done|]. intros j Hj. rewrite Forall_forall in Hp. by apply Hp, positions_in.
Qed.

Lemma rev_word v : 0 <= v -> word (rev v).
Proof.
  intros Hv. rewrite rev_stages_eq. cbn [fold_left rev_stages fst snd].
  repeat first [done | apply swap_bits_word | eapply proj1, swap_bits_word].
Qed.

Lemma rev_rev v : word v -> rev (rev v) = v.
Proof.
  intros Hv. destruct (rev_word v ltac:(apply Hv)) as [Hr _]. apply word_ext; [by apply rev_word|done|].
  intros i Hi. rewrite !rev_testbit by lia. f_equal. lia.
Qed.

(** ** Blocks of the reversed order *)

Section Blocks.
Context (k : Z) (Hk : 0 <= k <= 64).
Abbreviation B := (2 ^ (64 - k)).

Lemma block_pos : 0 < B.
Proof. apply Z.pow_pos_nonneg; lia. Qed.

Lemma block_bits v j : 0 <= j < k -> Z.testbit (rev v / B) (k - 1 - j) = Z.testbit v j.
Proof. intros Hj. rewrite Z.div_pow2_bits, rev_testbit by lia. f_equal. lia. Qed.

(** Keys of one block are in one bucket. *)
Lemma same_block h v : rev h / B = rev v / B -> Z.land h (Z.ones k) = Z.land v (Z.ones k).
Proof.
  intros Heq. apply Z.bits_inj'. intros i Hi. rewrite !Z.land_spec.
  destruct (Z.lt_ge_cases i k); [|by rewrite Z.ones_spec_high, !andb_false_r by lia].
  by rewrite <- (block_bits h), <- (block_bits v), Heq by lia.
Qed.

Lemma not_mask_word : word (to_ullong (Z.lnot (Z.ones k))).
Proof. apply to_ullong_word. Qed.

Lemma filled_word v : word v -> word (Z.lor v (to_ullong (Z.lnot (Z.ones k)))).
Proof.
  intros Hv. pose proof not_mask_word as Hm. apply word_intro; [apply Z.lor_nonneg; split; [apply Hv|apply Hm]|].
  intros i Hi. by rewrite Z.lor_spec, !word_high.
Qed.

Lemma filled_testbit v i : word v -> 0 <= i < 64 ->
  Z.testbit (Z.lor v (to_ullong (Z.lnot (Z.ones k)))) i = Z.testbit v i || (k <=? i).
Proof.
  intros Hv Hi. rewrite Z.lor_spec, ullong_bits, Z.lnot_spec by lia. f_equal.
  destruct (Z.leb_spec k i); [by rewrite Z.ones_spec_high by lia|by rewrite Z.ones_spec_low by lia].
Qed.

(** Filling the bits outside the mask moves the cursor to the end of its
    block. *)
Lemma rev_filled v : word v -> rev (Z.lor v (to_ullong (Z.lnot (Z.ones k)))) = (rev v / B) * B + (B - 1).
Proof.
  intros Hv. set (x := Z.lor _ _). pose proof block_pos as HB.
  assert (rev x / B = rev v / B) as Hq.
  { apply Z.bits_inj'. intros i Hi. rewrite !Z.div_pow2_bits by lia.
    destruct (Z.lt_ge_cases (i + (64 - k)) 64) as [Hl|Hl].
    - rewrite !rev_testbit by lia. unfold x. rewrite filled_testbit by (done || lia).
      destruct (Z.leb_spec k (63 - (i + (64 - k)))); [lia|]. apply orb_false_r.
    - rewrite !word_high; [done|apply rev_word, Hv|done|apply rev_word, (filled_word v Hv)|done]. }
  assert (rev x mod B = B - 1) as Hm.
  { rewrite <- Z.land_ones by lia. replace (B - 1) with (Z.ones (64 - k)) by (rewrite Z.ones_equiv; lia).
    apply Z.bits_inj'. intros i Hi. rewrite Z.land_spec. destruct (Z.lt_ge_cases i (64 - k)).
    - rewrite Z.ones_spec_low, andb_true_r, rev_testbit by lia. unfold x. rewrite filled_testbit by (done || lia).
      destruct (Z.leb_spec k (63 - i)); [apply orb_true_r|lia].
    - by rewrite Z.ones_spec_high, andb_false_r by lia. }
  pose proof (Z.div_mod (rev x) B ltac:(lia)) as Hd. rewrite Hq, Hm in Hd. lia.
Qed.

Lemma next_cursor_word v : word (next_cursor v (Z.ones k)).
Proof. unfold next_cursor. apply rev_word, to_ullong_word. Qed.

(** The next cursor is the start of the next block. *)
Lemma rev_next_cursor v : word v -> rev (next_cursor v (Z.ones k)) = ((rev v / B + 1) * B) mod 2 ^ 64.
Proof.
  intros Hv. unfold next_cursor. rewrite rev_rev by apply to_ullong_word.
  rewrite rev_filled by done. rewrite to_ullong_pow. f_equal. lia.
Qed.

(** Only the bits of the mask matter. *)
Lemma next_cursor_mask v u : word v -> word u ->
  Z.land v (Z.ones k) = Z.land u (Z.ones k) -> next_cursor v (Z.ones k) = next_cursor u (Z.ones k).
Proof.
  intros Hv Hu Heq. unfold next_cursor.
  enough (Z.lor v (to_ullong (Z.lnot (Z.ones k))) = Z.lor u (to_ullong (Z.lnot (Z.ones k)))) as ->; [done|].
  apply word_ext; [by apply filled_word..|].
  intros i Hi. rewrite !filled_testbit by done. destruct (Z.leb_spec k i); [by rewrite !orb_true_r|].
  apply (f_equal (fun z => Z.testbit z i)) in Heq. rewrite !Z.land_spec, Z.ones_spec_low, !andb_true_r in Heq by lia.
  by rewrite Heq.
Qed.

(** A key ahead of the cursor is in its block, or still ahead after it. *)
Lemma cursor_step v h :
  word v -> word h -> rev v <= rev h ->
  Z.land h (Z.ones k) = Z.land v (Z.ones k) \/
  (rev (next_cursor v (Z.ones k)) <= rev h /\ next_cursor v (Z.ones k) <> 0).
Proof.
  intros Hv Hh Hle. pose proof block_pos as HB. pose proof (Z.div_le_mono _ _ B HB Hle) as Hq.
  destruct (Z.eq_dec (rev h / B) (rev v / B)) as [Heq|Hne]; [left; by apply same_block|right].
  pose proof (rev_word h ltac:(apply Hh)) as Hw. pose proof (rev_word v ltac:(apply Hv)) as Hwv. unfold word in Hw, Hwv.
  pose proof (Z.div_mod (rev h) B ltac:(lia)) as Hd. pose proof (Z.mod_pos_bound (rev h) B HB) as Hmb.
  pose proof (Z.div_pos (rev v) B ltac:(lia) HB).
  assert ((rev v / B + 1) * B <= rev h) as Hnext by nia.
  pose proof (rev_next_cursor v Hv) as Hr. rewrite Z.mod_small in Hr by nia. rewrite Hr. split; [done|].
  intros Hz. rewrite Hz in Hr. change (rev 0) with 0 in Hr. nia.
Qed.
End Blocks.

(** ** The expansions of a cursor in the larger table *)

Section Expansions.
Context (k0 k1 : Z) (Hk : 0 <= k0 <= k1) (Hk1 : k1 <= 63).
Abbreviation P := (2 ^ k0).
Abbreviation E := (2 ^ (k1 - k0)).

Lemma expansion_pos : 0 < P /\ 0 < E /\ 2 ^ k1 = P * E /\ 2 ^ 64 = 2 ^ (64 - k0) * P.
Proof.
  split_and!; [apply Z.pow_pos_nonneg; lia..| |]; rewrite <- Z.pow_add_r by lia; f_equal; lia.
Qed.

Lemma fill_low v : Z.lor v (Z.ones k0) = (v / P) * P + (P - 1).
Proof.
  destruct expansion_pos as (HP & _). set (x := Z.lor v (Z.ones k0)).
  assert (x / P = v / P) as Hq.
  { unfold x. rewrite <- !Z.shiftr_div_pow2, Z.shiftr_lor by lia.
    rewrite (Z.shiftr_div_pow2 (Z.ones k0)), Z.ones_equiv by lia. rewrite (Z.div_small (Z.pred P)), Z.lor_0_r by lia. done. }
  assert (x mod P = P - 1) as Hm.
  { unfold x. rewrite <- Z.land_ones by lia. rewrite Z.land_lor_distr_l, Z.land_diag.
    replace (P - 1) with (Z.ones k0) by (rewrite Z.ones_equiv; lia).
    apply Z.bits_inj'. intros i Hi. rewrite Z.lor_spec, Z.land_spec.
    destruct (Z.testbit (Z.ones k0) i); [by rewrite orb_true_r|by rewrite andb_false_r]. }
  pose proof (Z.div_mod x P ltac:(lia)) as Hd. rewrite Hq, Hm in Hd. lia.
Qed.

Lemma multiple_low u : Z.land (u * P) (Z.ones k0) = 0.
Proof. rewrite Z.land_ones by lia. apply Z.mod_mul. destruct expansion_pos. lia. Qed.

Lemma keep_high y : word y -> Z.land y (Z.ones k0) = 0 -> Z.land y (to_ullong (Z.lnot (Z.ones k0))) = y.
Proof.
  intros Hy Hz. apply Z.bits_inj'. intros i Hi. rewrite Z.land_spec. destruct (Z.lt_ge_cases i 64) as [Hl|Hl].
  2: { by rewrite word_high. }
  rewrite ullong_bits, Z.lnot_spec by lia. apply (f_equal (fun z => Z.testbit z i)) in Hz.
  rewrite Z.land_spec, Z.testbit_0_l in Hz. destruct (Z.testbit y i), (Z.testbit (Z.ones k0) i); done.
Qed.

Lemma disjoint_add y r : Z.land y (Z.ones k0) = 0 -> Z.lor y (Z.land r (Z.ones k0)) = y + r mod P.
Proof.
  intros Hz. rewrite <- Z.land_ones by lia.
  assert (Z.land y (Z.land r (Z.ones k0)) = 0) as Hd.
  { by rewrite (Z.land_comm r), Z.land_assoc, Hz, Z.land_0_l. }
  rewrite <- Z.lxor_lor by done. symmetry. by apply Z.add_nocarry_lxor.
Qed.

(** The next expansion: one more in the bits above the smaller mask. *)
Lemma next_expansion_eq v :
  word v -> next_expansion v (Z.ones k0) = ((v / P + 1) mod 2 ^ (64 - k0)) * P + v mod P.
Proof.
  intros Hv. destruct expansion_pos as (HP & _ & _ & H64). unfold next_expansion. rewrite fill_low.
  replace ((v / P) * P + (P - 1) + 1) with ((v / P + 1) * P) by lia.
  assert (to_ullong ((v / P + 1) * P) = ((v / P + 1) mod 2 ^ (64 - k0)) * P) as Hy.
  { rewrite to_ullong_pow, H64. apply Z.mul_mod_distr_r; [|lia]. apply Z.pow_nonzero; lia. }
  rewrite keep_high; [|apply to_ullong_word|rewrite Hy; apply multiple_low].
  rewrite disjoint_add by (rewrite Hy; apply multiple_low). by rewrite Hy.
Qed.

Lemma next_expansion_spec v :
  word v -> word (next_expansion v (Z.ones k0)) /\ next_expansion v (Z.ones k0) mod P = v mod P /\
    (next_expansion v (Z.ones k0) / P) mod E = (v / P + 1) mod E.
Proof.
  intros Hv. rewrite next_expansion_eq by done. destruct expansion_pos as (HP & HE & HPE & H64).
  pose proof (Z.mod_pos_bound v P HP) as Hr.
  pose proof (Z.mod_pos_bound (v / P + 1) (2 ^ (64 - k0)) ltac:(apply Z.pow_pos_nonneg; lia)) as Hu.
  split_and!.
  - unfold word. nia.
  - rewrite Z.add_comm, Z.mod_add by lia. by apply Z.mod_small.
  - rewrite Z.div_add_l, (Z.div_small (v mod P)), Z.add_0_r by lia. apply Z.mod_mod_divide.
    exists (2 ^ (64 - k1)). rewrite <- Z.pow_add_r by lia. f_equal. lia.
Qed.

(** The test of the loop, and the index of a bucket. *)
Lemma difference_bits x : Z.land x (Z.lxor (Z.ones k0) (Z.ones k1)) = ((x / P) mod E) * P.
Proof.
  rewrite <- Z.shiftr_div_pow2, <- Z.land_ones, <- Z.shiftl_mul_pow2 by lia.
  apply Z.bits_inj'. intros i Hi. rewrite Z.land_spec, Z.lxor_spec, Z.shiftl_spec by lia.
  destruct (Z.lt_ge_cases i k0) as [Hl|Hl].
  - rewrite !Z.ones_spec_low, (Z.testbit_neg_r _ (i - k0)) by lia. apply andb_false_r.
  - rewrite Z.land_spec, Z.shiftr_spec, (Z.ones_spec_high k0) by lia. replace (i - k0 + k0) with i by lia.
    f_equal. rewrite xorb_false_l. destruct (Z.lt_ge_cases i k1).
    + by rewrite !Z.ones_spec_low by lia.
    + by rewrite !Z.ones_spec_high by lia.
Qed.

Lemma expansion_index v : Z.land v (Z.ones k1) = ((v / P) mod E) * P + v mod P.
Proof.
  destruct expansion_pos as (HP & HE & HPE & _). rewrite Z.land_ones, HPE, Z.rem_mul_r by lia. lia.
Qed.

Lemma succ_mod u : 0 < E -> (u mod E + 1 < E -> (u + 1) mod E = u mod E + 1) /\ (u mod E + 1 = E -> (u + 1) mod E = 0).
Proof.
  intros HE. pose proof (Z.mod_pos_bound u E HE) as Hu. pose proof (Z.div_mod u E ltac:(lia)) as Hd. split; intros Hc.
  - symmetry. apply (Z.mod_unique_pos _ _ (u / E)); lia.
  - symmetry. apply (Z.mod_unique_pos _ _ (u / E + 1)); lia.
Qed.

Context {K V : Type} `{Countable K} (hashKey : K -> Z) (t : dictht K V).
Context (Hok : ht_ok hashKey t) (Ht : is_Some (table t)) (Hsize : ht_size t = 2 ^ k1) (Hmask : sizemask t = Z.ones k1).

(** From an expansion on, all the later ones are visited. *)
Lemma scan_expansions_spec fuel v :
  word v -> E - (v / P) mod E <= Z.of_nat fuel ->
  exists em v', scan_expansions fuel t (Z.ones k0) v = Some (em, v') /\ word v' /\ v' mod P = v mod P /\
    forall x b e, (v / P) mod E <= x < E -> bucket t (x * P + v mod P) = Some b -> e ∈ b -> e ∈ em.
Proof.
  destruct expansion_pos as (HP & HE & HPE & _). revert v. induction fuel as [|fuel IH]; intros v Hv Hf.
  { pose proof (Z.mod_pos_bound (v / P) E HE). lia. }
  pose proof (Z.mod_pos_bound (v / P) E HE) as Hc. pose proof (Z.mod_pos_bound v P HP) as Hr.
  cbn [scan_expansions]. rewrite Hmask, expansion_index.
  destruct (bucket_in hashKey t ((v / P) mod E * P + v mod P) Hok Ht) as [b Hb]; [rewrite Hsize, HPE; nia|].
  rewrite Hb. cbn [mbind option_bind]. rewrite difference_bits.
  destruct (next_expansion_spec v Hv) as (Hw & Hlow & Hup). rewrite Hup.
  destruct (succ_mod (v / P) HE) as [Hs1 Hs2].
  destruct (Z.lt_ge_cases ((v / P) mod E + 1) E) as [Hlt|Hge].
  - rewrite (Hs1 Hlt). destruct (Z.eqb_spec (((v / P) mod E + 1) * P) 0); [nia|].
    destruct (IH (next_expansion v (Z.ones k0)) Hw) as (em & v' & -> & Hw' & Hlow' & Hall);
      [rewrite Hup, (Hs1 Hlt); lia|]. cbn [mbind option_bind fst snd]. eexists _, _. split; [done|].
    split_and!; [done|congruence|]. rewrite Hup, (Hs1 Hlt), Hlow in Hall. intros x b' e Hx Hb' He.
    apply elem_of_app. destruct (decide (x = (v / P) mod E)) as [->|Hne]; [left; congruence|].
    right. by apply (Hall x b'); [lia| |].
  - rewrite Hs2 by lia. cbn [Z.mul Z.eqb]. eexists _, _. split; [done|]. split_and!; [done|done|].
    intros x b' e Hx Hb' He. assert (x = (v / P) mod E) as -> by lia. congruence.
Qed.
End Expansions.

(** ** One call *)

Section Scan.
Context {K V : Type} `{Countable K} (hashKey : K -> Z) (Hhash : forall x, word (hashKey x)).
Abbreviation dict := (dict K V).
Implicit Types (d : dict) (v : Z).

(** The cursor does not stand inside a block of the smaller table while a
    rehashing is under way. *)
Definition aligned d v : Prop :=
  dictIsRehashing d = true -> Z.land v (Z.lxor (sizemask (small_ht d)) (sizemask (large_ht d))) = 0.

#[global] Instance aligned_dec d v : Decision (aligned d v).
Proof. unfold aligned. apply _. Defined.

(** The smaller of the tables in use. *)
Definition min_ht d : dictht K V := if dictIsRehashing d then small_ht d else ht0 d.

Lemma ht_shape (t : dictht K V) : ht_ok hashKey t -> is_Some (table t) -> exists k, 2 <= k <= 63 /\ ht_size t = 2 ^ k /\ sizemask t = Z.ones k.
Proof.
  intros Hok [tbl Ht]. unfold ht_ok in Hok. rewrite Ht in Hok. destruct Hok as ((k & Hk & Hs) & Hm & _).
  exists k. split_and!; [lia|lia|done|]. rewrite Hm, Hs, Z.ones_equiv. lia.
Qed.

Lemma min_shape d :
  dict_ok hashKey d -> dictSize d <> 0 ->
  ht_ok hashKey (min_ht d) /\ is_Some (table (min_ht d)).
Proof.
  intros Hok Hs. pose proof (table_some hashKey d Hok Hs) as Ht. unfold min_ht, small_ht.
  pose proof (ok_ht0 _ _ Hok). pose proof (ok_ht1 _ _ Hok).
  destruct (dictIsRehashing d) eqn:Hr; [|done]. destruct (rehashing_true hashKey _ Hok Hr) as (? & ? & _).
  by destruct (_ <? _).
Qed.

Lemma scan_covers d v k :
  dict_ok hashKey d -> dictSize d <> 0 -> word v -> sizemask (min_ht d) = Z.ones k -> 0 <= k -> ht_size (min_ht d) = 2 ^ k ->
  exists em, dictScan d v = Some (em, next_cursor v (Z.ones k)) /\
    (aligned d v -> forall e, e ∈ entries d -> Z.land (hashKey e.1) (Z.ones k) = Z.land v (Z.ones k) -> e ∈ em).
Proof.
  intros Hok Hs Hv Hm Hk0 Hsz. pose proof (table_some hashKey d Hok Hs) as Ht0.
  destruct (min_shape d Hok Hs) as [Hokm Htm]. unfold dictScan. destruct (Z.eqb_spec (dictSize d) 0); [done|].
  assert (0 <= Z.land v (Z.ones k) < ht_size (min_ht d)) as Hidx.
  { rewrite Z.land_ones, Hsz by done. apply Z.mod_pos_bound, Z.pow_pos_nonneg; lia. }
  destruct (bucket_in hashKey (min_ht d) _ Hokm Htm Hidx) as [b Hb]. unfold aligned, min_ht in *.
  destruct (dictIsRehashing d) eqn:Hr.
  2: { rewrite Hm, Hb. cbn. eexists. split; [done|]. intros _ e He Hmask.
       unfold entries, ht_entries at 2 in He. rewrite (rehashing_false hashKey _ Hok Hr) in He. cbn in He. rewrite app_nil_r in He.
       destruct (bucket_entry hashKey _ _ (ok_ht0 _ _ Hok) He) as (b' & Hb' & Hin). rewrite Hm, Hmask in Hb'. congruence. }
  destruct (rehashing_true hashKey _ Hok Hr) as (_ & Ht1 & _).
  assert (ht_ok hashKey (large_ht d) /\ is_Some (table (large_ht d)) /\ ht_size (small_ht d) <= ht_size (large_ht d) /\
    forall e, e ∈ entries d -> e ∈ ht_entries (small_ht d) \/ e ∈ ht_entries (large_ht d)) as (Hokl & Htl & Hle & Hin).
  { unfold small_ht, large_ht. pose proof (ok_ht0 _ _ Hok). pose proof (ok_ht1 _ _ Hok).
    destruct (Z.ltb_spec (ht_size (ht1 d)) (ht_size (ht0 d))); split_and!; try done; try lia;
      intros e; unfold entries; rewrite elem_of_app; tauto. }
  destruct (ht_shape _ Hokl Htl) as (k1 & Hk1 & Hsz1 & Hm1).
  assert (k <= k1) as Hkk. { rewrite Hsz, Hsz1 in Hle. by apply Z.pow_le_mono_r_iff in Hle; [|lia..]. }
  destruct (expansion_pos k k1 ltac:(lia) ltac:(lia)) as (HP & HE & HPE & _).
  rewrite Hm, Hb. cbn [mbind option_bind].
  pose proof (Z.mod_pos_bound (v / 2 ^ k) (2 ^ (k1 - k)) HE) as Hc.
  destruct (scan_expansions_spec k k1 ltac:(lia) ltac:(lia) hashKey (large_ht d) Hokl Htl Hsz1 Hm1
    (Z.to_nat (ht_size (large_ht d))) v Hv) as (em & v' & -> & Hw' & Hlow & Hall); [rewrite Hsz1, HPE; nia|].
  cbn [mbind option_bind fst snd]. eexists. split.
  { do 2 f_equal. apply next_cursor_mask; [lia|done|done|]. by rewrite !Z.land_ones. }
  intros Hal e He Hmask. specialize (Hal eq_refl). rewrite ?Hm, Hm1, (difference_bits k k1) in Hal by lia.
  apply elem_of_app. destruct (Hin e He) as [He'|He'].
  - left. destruct (bucket_entry hashKey _ _ Hokm He') as (b' & Hb' & Hin'). rewrite Hm, Hmask in Hb'. congruence.
  - right. destruct (bucket_entry hashKey _ _ Hokl He') as (b' & Hb' & Hin').
    rewrite Hm1, (expansion_index k k1) in Hb' by lia. rewrite !Z.land_ones in Hmask by done. rewrite Hmask in Hb'.
    eapply Hall; [|exact Hb'|done]. pose proof (Z.mod_pos_bound (hashKey e.1 / 2 ^ k) (2 ^ (k1 - k)) HE). nia.
Qed.

(** One call meets the entry, or leaves it ahead of a cursor that is not the
    end. *)
Lemma scan_step d v e :
  dict_ok hashKey d -> word v -> e ∈ entries d -> aligned d v -> rev v <= rev (hashKey e.1) ->
  exists em v', dictScan d v = Some (em, v') /\ word v' /\
    (e ∈ em \/ (rev v' <= rev (hashKey e.1) /\ v' <> 0)).
Proof.
  intros Hok Hv He Hal Hle.
  assert (dictSize d <> 0) as Hs.
  { intros Hz. pose proof (size_empty hashKey d Hok Hz) as Hm.
    assert (dict_map d !! e.1 = None) as Hn by (by rewrite Hm, lookup_empty).
    apply dict_map_none in Hn. destruct Hn. apply list_elem_of_fmap. by exists e. }
  destruct (min_shape d Hok Hs) as [Hokm Htm]. destruct (ht_shape _ Hokm Htm) as (k & Hk & Hsz & Hm).
  destruct (scan_covers d v k Hok Hs Hv Hm ltac:(lia) Hsz) as (em & -> & Hcov).
  exists em, (next_cursor v (Z.ones k)). split_and!; [done|apply next_cursor_word|].
  destruct (cursor_step k ltac:(lia) v (hashKey e.1) Hv (Hhash _) Hle) as [Hb|Hn]; [left; by apply Hcov|by right].
Qed.

(** ** The guarantee *)

(** Successive calls, each on the dictionary of its time, the last one
    returning the cursor. *)
Fixpoint scan_run (ds : list dict) v : option (list (K * V) * Z) :=
  match ds with
  | [] => Some ([], v)
  | d :: ds =>
      match dictScan d v with
      | None => None
      | Some (em, v) =>
          match scan_run ds v with None => None | Some (em', v) => Some (em ++ em', v) end
      end
  end.

Fixpoint aligned_run (ds : list dict) v : Prop :=
  match ds with
  | [] => True
  | d :: ds => aligned d v /\ forall em v', dictScan d v = Some (em, v') -> aligned_run ds v'
  end.

(** A call always returns. *)
Lemma dictScan_total d v :
  dict_ok hashKey d -> word v -> exists em v', dictScan d v = Some (em, v') /\ word v'.
Proof.
  intros Hok Hv. destruct (decide (dictSize d = 0)) as [Hz|Hs].
  { exists [], 0. unfold dictScan. rewrite Hz. by split. }
  destruct (min_shape d Hok Hs) as [Hokm Htm]. destruct (ht_shape _ Hokm Htm) as (k & Hk & Hsz & Hm).
  destruct (scan_covers d v k Hok Hs Hv Hm ltac:(lia) Hsz) as (em & -> & _).
  eexists _, _. split; [done|apply next_cursor_word].
Qed.

Lemma scan_run_total ds v :
  Forall (dict_ok hashKey) ds -> word v -> exists em v', scan_run ds v = Some (em, v') /\ word v'.
Proof.
  intros Hds. revert v. induction Hds as [|d ds Hok _ IH]; intros v Hv; cbn [scan_run]; [by exists [], v|].
  destruct (dictScan_total d v Hok Hv) as (em & v1 & -> & Hv1).
  destruct (IH v1 Hv1) as (em' & v' & -> & Hv'). by eexists _, _.
Qed.

Lemma scan_run_meets ds v e :
  Forall (fun d => dict_ok hashKey d /\ e ∈ entries d) ds -> word v -> aligned_run ds v -> rev v <= rev (hashKey e.1) ->
  exists em v', scan_run ds v = Some (em, v') /\ (e ∈ em \/ (rev v' <= rev (hashKey e.1) /\ (ds <> [] -> v' <> 0))).
Proof.
  intros Hds. revert v. induction Hds as [|d ds [Hok He] Hds IH]; intros v Hv Hal Hle.
  { exists [], v. split; [done|]. by right. }
  destruct Hal as [Hal Hals]. destruct (scan_step d v e Hok Hv He Hal Hle) as (em & v1 & Hsc & Hv1 & Hcase).
  cbn [scan_run]. rewrite Hsc. specialize (Hals em v1 Hsc). destruct Hcase as [Hin|[Hle1 Hne1]].
  - destruct (scan_run_total ds v1) as (em' & v' & -> & _); [|done|].
    { eapply Forall_impl; [exact Hds|]. by intros ? []. }
    eexists _, _. split; [done|]. left. apply elem_of_app. by left.
  - destruct (IH v1 Hv1 Hals Hle1) as (em' & v' & Hrun & Hcase). rewrite Hrun.
    eexists _, _. split; [done|]. destruct Hcase as [Hin|[Hle' Hne]]; [left; apply elem_of_app; by right|].
    right. split; [done|]. intros _. destruct ds; [|by apply Hne]. cbn in Hrun. by simplify_eq.
Qed.

(** A complete scan, from cursor zero to cursor zero, returns every entry that
    was in the dictionary at each of its calls. *)
Lemma scan_guarantee ds e em :
  Forall (fun d => dict_ok hashKey d /\ e ∈ entries d) ds -> ds <> [] -> aligned_run ds 0 ->
  scan_run ds 0 = Some (em, 0) -> e ∈ em.
Proof.
  intros Hds Hne Hal Hrun. destruct (scan_run_meets ds 0 e Hds) as (em' & v' & Hrun' & Hcase).
  - done.
  - done.
  - change (rev 0) with 0. pose proof (rev_word (hashKey e.1) ltac:(apply Hhash)) as Hw. apply Hw.
  - rewrite Hrun in Hrun'. simplify_eq. destruct Hcase as [|[_ Hz]]; [done|]. by destruct (Hz Hne).
Qed.

(** A cursor has no bits beyond the mask of the table that produced it, so it
    is aligned for every later table that is not smaller. *)
Lemma next_cursor_low v k i : word v -> 0 <= k <= 64 -> k <= i -> Z.testbit (next_cursor v (Z.ones k)) i = false.
Proof.
  intros Hv Hk Hi. pose proof (next_cursor_word k v) as Hw.
  destruct (Z.lt_ge_cases i 64) as [Hl|Hl]; [|by apply word_high].
  replace i with (63 - (63 - i)) by lia. rewrite <- rev_testbit, rev_next_cursor by (done || lia).
  rewrite Z.mod_pow2_bits_low by lia. apply Z.mul_pow2_bits_low. lia.
Qed.

Lemma grown_aligned d v k :
  dict_ok hashKey d -> word v -> 0 <= k <= 64 -> (dictIsRehashing d = true -> 2 ^ k <= ht_size (small_ht d)) ->
  aligned d (next_cursor v (Z.ones k)).
Proof.
  intros Hok Hv Hk Hge Hr. specialize (Hge Hr). destruct (rehashing_true hashKey _ Hok Hr) as (Ht0 & Ht1 & _).
  assert (ht_ok hashKey (small_ht d) /\ ht_ok hashKey (large_ht d) /\ is_Some (table (small_ht d)) /\ is_Some (table (large_ht d)))
    as (Oks & Okl & Hts & Htl).
  { unfold small_ht, large_ht. pose proof (ok_ht0 _ _ Hok). pose proof (ok_ht1 _ _ Hok). by destruct (_ <? _). }
  destruct (ht_shape _ Oks Hts) as (k0 & Hk0 & Hs0 & ->). destruct (ht_shape _ Okl Htl) as (k1 & Hk1 & Hs1 & ->).
  rewrite Hs0 in Hge. apply Z.pow_le_mono_r_iff in Hge; [|lia..].
  apply Z.bits_inj'. intros i Hi. rewrite Z.land_spec, Z.testbit_0_l.
  destruct (Z.lt_ge_cases i k) as [Hl|Hl]; [|by rewrite next_cursor_low].
  assert (k0 <= k1) as Hkk.
  { apply (Z.pow_le_mono_r_iff 2); [lia..|]. rewrite <- Hs0, <- Hs1. unfold small_ht, large_ht.
    destruct (Z.ltb_spec (ht_size (ht1 d)) (ht_size (ht0 d))); lia. }
  rewrite Z.lxor_spec, !Z.ones_spec_low by lia. apply andb_false_r.
Qed.

(** ** A dictionary that does not change *)

Lemma scan_fixed d k :
  dict_ok hashKey d -> dictSize d <> 0 -> sizemask (min_ht d) = Z.ones k -> 2 <= k <= 63 -> ht_size (min_ht d) = 2 ^ k ->
  forall n v, word v -> aligned d v -> rev v mod 2 ^ (64 - k) = 0 ->
  aligned_run (replicate n d) v /\
  exists em v', scan_run (replicate n d) v = Some (em, v') /\ word v' /\
    rev v' = (rev v + Z.of_nat n * 2 ^ (64 - k)) mod 2 ^ 64.
Proof.
  intros Hok Hs Hm Hk Hsz. induction n as [|n IH]; intros v Hv Hal Hmul; cbn [replicate aligned_run scan_run].
  { split; [done|]. exists [], v. split_and!; [done|apply Hv..|]. rewrite Z.add_0_r. symmetry.
    apply Z.mod_small. apply rev_word, Hv. }
  destruct (scan_covers d v k Hok Hs Hv Hm ltac:(lia) Hsz) as (em & Hsc & _).
  set (v1 := next_cursor v (Z.ones k)) in *. assert (word v1) as Hv1 by apply next_cursor_word.
  pose proof (block_pos k ltac:(lia)) as HB.
  assert (2 ^ 64 = 2 ^ k * 2 ^ (64 - k)) as H64 by (rewrite <- Z.pow_add_r by lia; f_equal; lia).
  assert (rev v1 = (rev v + 2 ^ (64 - k)) mod 2 ^ 64) as Hr1.
  { unfold v1. rewrite rev_next_cursor by (done || lia). f_equal. pose proof (Z.div_mod (rev v) (2 ^ (64 - k)) ltac:(lia)). lia. }
  assert (aligned d v1) as Hal1.
  { apply grown_aligned; [done|done|lia|]. intros Hreh. rewrite <- Hsz. unfold min_ht. by rewrite Hreh. }
  assert (rev v1 mod 2 ^ (64 - k) = 0) as Hmul1.
  { rewrite Hr1, H64, Z.mod_mod_divide by (by exists (2 ^ k)).
    rewrite Z.add_mod, Hmul, Z.mod_same by lia. done. }
  destruct (IH v1 Hv1 Hal1 Hmul1) as (Hals & em' & v' & Hrun & Hv' & Hr').
  split; [split; [done|]; intros em0 v0 Hsc'; rewrite Hsc in Hsc'; by simplify_eq|].
  rewrite Hsc, Hrun. eexists _, _. split_and!; [done|apply Hv'..|]. rewrite Hr', Hr1.
  rewrite Z.add_mod_idemp_l by done. f_equal. lia.
Qed.

(** As many calls as the smaller table has buckets make a complete scan, and
    it returns every entry. *)
Lemma scan_complete d :
  dict_ok hashKey d -> dictSize d <> 0 ->
  exists em, scan_run (replicate (Z.to_nat (ht_size (min_ht d))) d) 0 = Some (em, 0) /\
    forall e, e ∈ entries d -> e ∈ em.
Proof.
  intros Hok Hs. destruct (min_shape d Hok Hs) as [Hokm Htm]. destruct (ht_shape _ Hokm Htm) as (k & Hk & Hsz & Hm).
  destruct (scan_fixed d k Hok Hs Hm Hk Hsz (Z.to_nat (ht_size (min_ht d))) 0) as (Hal & em & v' & Hrun & Hv' & Hr').
  - done.
  - intros _. apply Z.land_0_l.
  - by rewrite Zmod_0_l.
  - change (rev 0) with 0 in Hr'. rewrite Hsz, Z2Nat.id, Z.add_0_l, <- Z.pow_add_r in Hr' by (try apply Z.pow_nonneg; lia).
    replace (k + (64 - k)) with 64 in Hr' by lia. rewrite Z.mod_same in Hr' by done.
    assert (v' = 0) as -> by (rewrite <- (rev_rev v'), Hr' by done; reflexivity).
    exists em. split; [done|]. intros e He. eapply scan_guarantee; [|..|exact Hal|exact Hrun].
    + apply Forall_replicate. by split.
    + rewrite Hsz. pose proof (Z.pow_pos_nonneg 2 k). destruct (Z.to_nat (2 ^ k)) eqn:Hn; [lia|done].
Qed.
End Scan.

(** ** An entry that a scan of a shrinking table misses

    Sixteen buckets with the key 4 in the fourth and the key 1 in the first.
    The scan has returned the bucket 0 and stands at the bucket 8 when the table
    is resized to four buckets.  The rest of the scan, during which nothing
    changes, does not return the key 4. *)

Definition id_hash (x : Z) : Z := to_ullong x.

(** Insert and then delete keys. *)
Definition add_all (ks : list Z) (d : option (dict Z unit)) : option (dict Z unit) :=
  foldl (fun d x => d ← d; fst <$> dictAdd id_hash true d x tt) d ks.
Definition del_all (ks : list Z) (d : option (dict Z unit)) : option (dict Z unit) :=
  foldl (fun d x => d ← d; fst <$> dictDelete id_hash d x) d ks.

Lemma add_all_ok ks d d' :
  dict_ok id_hash d -> Z.of_nat (size (dict_map d) + length ks) < 2 ^ 61 ->
  add_all ks (Some d) = Some d' -> dict_ok id_hash d'.
Proof.
  unfold add_all. revert d. induction ks as [|x ks IH]; intros d Hok Hr; cbn [foldl]; [by intros [= <-]|].
  cbn [mbind option_bind length] in *.
  destruct (dictAdd_spec id_hash true d x tt Hok) as (d1 & -> & Hok1 & Hm1); [unfold dict_room; lia|]. cbn [fmap option_fmap option_map fst].
  apply IH; [done|]. rewrite Hm1. destruct (dict_map d !! x) eqn:Hx; [lia|]. rewrite map_size_insert_None by done. lia.
Qed.

Definition sparse : option (dict Z unit) :=
  del_all [0; 2; 3; 5; 6; 7; 8; 9; 10; 11; 12; 13]
    (add_all [0; 1; 2; 3; 4; 5; 6; 7; 8; 9; 10; 11; 12; 13] (Some dictCreate)).

Definition shrinking : option (dict Z unit) := d ← sparse; Some (dictResize true d).1.

Definition missed_scan : option (list (Z * unit) * Z) :=
  d0 ← sparse; d1 ← shrinking; scan_run [d0; d1; d1; d1; d1] 0.

Lemma missed_entry :
  exists d0 d1 em, sparse = Some d0 /\ shrinking = Some d1 /\ (4, tt) ∈ entries d0 /\ (4, tt) ∈ entries d1 /\
    scan_run [d0; d1; d1; d1; d1] 0 = Some (em, 0) /\ (4, tt) ∉ em.
Proof.
  destruct sparse as [d0|] eqn:H0; [|by vm_compute in H0]. destruct shrinking as [d1|] eqn:H1; [|by vm_compute in H1].
  exists d0, d1, [(1, tt)]. split; [done|]. split; [done|]. vm_compute in H0, H1. simplify_eq.
  split_and!; [apply (bool_decide_unpack _); by vm_compute..|by vm_compute|apply (bool_decide_unpack _); by vm_compute].
Qed.
