(* ===== verification/DictRandom.v ===== *)
(** * A random entry of a hash table ([dict.c], [dictGetRandomKey])

    Buckets are drawn until one is not empty, then an entry of its chain.  The
    draws of [random] are given, numbered from 0.  Whatever they are, what is
    returned is an entry of the table; and the search ends once the draws have
    shown a full bucket, which they have when every number below that of the
    slots came up.  This is what [SetCommands.RandomChoice] asks of the function. *)
From Stdlib Require Import ZArith Lia.
From stdpp Require Import base numbers gmap list.
From S2P Require Import Prelude Dict DictMap.
Open Scope Z_scope.

Inductive random_entry (A : Type) := RNull | REntry (e : A) | RSearching.
Arguments RNull {A}.
Arguments REntry {A} e.
Arguments RSearching {A}.

Section Random.
Context {K V : Type} `{Countable K} (hashKey : K -> Z) (random : nat -> Z).
Context (random_nonneg : forall n, 0 <= random n).
Implicit Types (d : dict K V) (he : list (K * V)) (r : Z).

(** The bucket one draw looks at. *)
Definition drawn_bucket d r : option (list (K * V)) :=
  if dictIsRehashing d then
    let h := to_ullong (rehashidx d + r mod to_ullong (ht_size (ht0 d) + ht_size (ht1 d) - rehashidx d)) in
    if ht_size (ht0 d) <=? h then bucket (ht1 d) (h - ht_size (ht0 d)) else bucket (ht0 d) h
  else bucket (ht0 d) (Z.land r (sizemask (ht0 d))).

(** The chain found and the number of the next draw; the inner [None]: the draws
    are used up. *)
Fixpoint find_chain (fuel n : nat) d : option (option (list (K * V) * nat)) :=
  match fuel with
  | O => Some None
  | S fuel =>
      he ← drawn_bucket d (random n);
      match he with
      | [] => find_chain fuel (S n) d
      | _ => Some (Some (he, S n))
      end
  end.

(** [listlen] and [listele] are [int]. *)
Definition chain_entry he r : option (K * V) :=
  let listlen := to_int (Z.of_nat (length he)) in
  if listlen =? 0 then None else he !! Z.to_nat (to_int (Z.rem r listlen)).

Definition dictGetRandomKey (fuel : nat) d : option (dict K V * random_entry (K * V)) :=
  if dictSize d =? 0 then Some (d, RNull)
  else
    d ← rehash_step hashKey d;
    found ← find_chain fuel 0 d;
    match found with
    | None => Some (d, RSearching)
    | Some (he, n) => e ← chain_entry he (random n); Some (d, REntry e)
    end.

(** ** Draws *)

Definition few_slots d : Prop := dictSlots d < 2 ^ 64.

Lemma rehash_slot d r :
  dict_ok hashKey d -> dictIsRehashing d = true -> few_slots d -> 0 <= r ->
  let m := ht_size (ht0 d) + ht_size (ht1 d) - rehashidx d in
  0 < m /\ to_ullong (rehashidx d + r mod to_ullong m) = rehashidx d + r mod m /\ rehashidx d + r mod m < ht_size (ht0 d) + ht_size (ht1 d).
Proof.
  intros Hok Hre Hf Hr m. destruct (rehashing_true _ _ Hok Hre) as (H0 & [tbl H1] & Hi & _).
  pose proof (ok_ht1 _ _ Hok) as O1. unfold ht_ok in O1. rewrite H1 in O1. destruct O1 as ((k & Hk & Hs) & _).
  assert (0 < ht_size (ht1 d)) by (rewrite Hs; lia). unfold few_slots, dictSlots in Hf.
  assert (to_ullong m = m) as -> by (unfold to_ullong, m; apply Z.mod_small; lia).
  assert (0 < m) as Hm by (unfold m; lia). pose proof (Z.mod_pos_bound r m Hm). split_and!; [done| |unfold m in *; lia].
  unfold to_ullong. apply Z.mod_small. unfold m in *. lia.
Qed.

(** Every draw is a bucket of the table. *)
Lemma drawn_bucket_in d r :
  dict_ok hashKey d -> is_Some (table (ht0 d)) -> few_slots d -> 0 <= r ->
  exists he, drawn_bucket d r = Some he /\ forall e, e ∈ he -> e ∈ entries d.
Proof.
  intros Hok Ht Hf Hr. unfold drawn_bucket.
  assert (forall b i he, bucket (get_ht d b) i = Some he -> forall e, e ∈ he -> e ∈ entries d) as Hin.
  { intros b i he Hb e He. apply (get_ht_entries d b). destruct (bucket_split _ _ _ Hb) as (rest & -> & _). apply elem_of_app. by left. }
  destruct (dictIsRehashing d) eqn:Hre.
  - destruct (rehash_slot d r Hok Hre Hf Hr) as (Hm & -> & Hlt). destruct (rehashing_true _ _ Hok Hre) as (H0 & H1 & Hi & _).
    pose proof (Z.mod_pos_bound r _ Hm). destruct (Z.leb_spec (ht_size (ht0 d)) (rehashidx d + r mod (ht_size (ht0 d) + ht_size (ht1 d) - rehashidx d))).
    + destruct (bucket_in hashKey (ht1 d) (rehashidx d + r mod (ht_size (ht0 d) + ht_size (ht1 d) - rehashidx d) - ht_size (ht0 d))
        (ok_ht1 _ _ Hok) H1) as (he & Hb); [lia|]. exists he. split; [done|]. by apply (Hin true _ _ Hb).
    + destruct (bucket_in hashKey (ht0 d) (rehashidx d + r mod (ht_size (ht0 d) + ht_size (ht1 d) - rehashidx d))
        (ok_ht0 _ _ Hok) H0) as (he & Hb); [lia|]. exists he. split; [done|]. by apply (Hin false _ _ Hb).
  - destruct (bucket_in hashKey (ht0 d) (Z.land r (sizemask (ht0 d))) (ok_ht0 _ _ Hok) Ht) as (he & Hb).
    { pose proof (ok_ht0 _ _ Hok) as O0. unfold ht_ok in O0. destruct Ht as [tbl Ht]. rewrite Ht in O0. destruct O0 as ((k & Hk & Hs) & Hm & _).
      rewrite Hm, Hs. apply mask_range. lia. }
    exists he. split; [done|]. by apply (Hin false _ _ Hb).
Qed.

(** Some number below that of the slots draws a full bucket. *)
Lemma full_bucket d :
  dict_ok hashKey d -> is_Some (table (ht0 d)) -> few_slots d -> entries d <> [] ->
  exists r e he, 0 <= r < dictSlots d /\ drawn_bucket d r = Some (e :: he).
Proof.
  intros Hok Ht Hf Hne.
  assert (forall he e, e ∈ he -> exists e' he', he = e' :: he') as Hcons by (intros [|e' he'] e He; [by apply elem_of_nil in He|eauto]).
  destruct (entries d) as [|e l] eqn:He; [done|]. assert (e ∈ entries d) as Hin by (rewrite He; left). clear He Hne.
  unfold entries in Hin. apply elem_of_app in Hin. unfold drawn_bucket, dictSlots. destruct (dictIsRehashing d) eqn:Hre.
  - destruct (rehashing_true _ _ Hok Hre) as (H0 & H1 & Hi & Hcl).
    pose proof (hash_range hashKey (ht0 d) e.1 (ok_ht0 _ _ Hok) H0) as R0. pose proof (hash_range hashKey (ht1 d) e.1 (ok_ht1 _ _ Hok) H1) as R1.
    destruct Hin as [Hin|Hin].
    + destruct (bucket_entry hashKey _ _ (ok_ht0 _ _ Hok) Hin) as (he & Hb & Heb). set (h := Z.land (hashKey e.1) (sizemask (ht0 d))) in *.
      assert (rehashidx d <= h) as Hle.
      { destruct (Z.le_gt_cases (rehashidx d) h); [done|]. rewrite (Hcl h he) in Heb by (done || lia). by apply elem_of_nil in Heb. }
      destruct (Hcons he e Heb) as (e' & he' & ->). exists (h - rehashidx d), e', he'. split; [lia|].
      destruct (rehash_slot d (h - rehashidx d) Hok Hre Hf) as (Hm & -> & _); [lia|]. rewrite Z.mod_small by lia.
      replace (rehashidx d + (h - rehashidx d)) with h by lia. destruct (Z.leb_spec (ht_size (ht0 d)) h); [lia|done].
    + destruct (bucket_entry hashKey _ _ (ok_ht1 _ _ Hok) Hin) as (he & Hb & Heb). set (h := Z.land (hashKey e.1) (sizemask (ht1 d))) in *.
      destruct (Hcons he e Heb) as (e' & he' & ->). exists (h + ht_size (ht0 d) - rehashidx d), e', he'. split; [lia|].
      destruct (rehash_slot d (h + ht_size (ht0 d) - rehashidx d) Hok Hre Hf) as (Hm & -> & _); [lia|]. rewrite Z.mod_small by lia.
      replace (rehashidx d + (h + ht_size (ht0 d) - rehashidx d)) with (h + ht_size (ht0 d)) by lia.
      destruct (Z.leb_spec (ht_size (ht0 d)) (h + ht_size (ht0 d))); [|lia]. by replace (h + ht_size (ht0 d) - ht_size (ht0 d)) with h by lia.
  - destruct Hin as [Hin|Hin].
    2: { unfold ht_entries in Hin. rewrite (rehashing_false _ _ Hok Hre) in Hin. by apply elem_of_nil in Hin. }
    destruct (bucket_entry hashKey _ _ (ok_ht0 _ _ Hok) Hin) as (he & Hb & Heb). destruct (Hcons he e Heb) as (e' & he' & ->).
    pose proof (hash_range hashKey (ht0 d) e.1 (ok_ht0 _ _ Hok) Ht) as R0.
    exists (Z.land (hashKey e.1) (sizemask (ht0 d))), e', he'. split.
    + pose proof (ok_ht1 _ _ Hok) as O1. unfold ht_ok in O1. rewrite (rehashing_false _ _ Hok Hre) in O1. lia.
    + by rewrite <- Z.land_assoc, Z.land_diag.
Qed.

(** ** The search *)

Lemma find_chain_spec fuel n d :
  dict_ok hashKey d -> is_Some (table (ht0 d)) -> few_slots d ->
  exists found, find_chain fuel n d = Some found /\
    match found with
    | Some (he, _) => he <> [] /\ exists r, drawn_bucket d r = Some he /\ 0 <= r
    | None => forall i, (n <= i < n + fuel)%nat -> drawn_bucket d (random i) = Some []
    end.
Proof.
  intros Hok Ht Hf. revert n. induction fuel as [|fuel IH]; intros n; cbn [find_chain].
  - exists None. split; [done|]. lia.
  - destruct (drawn_bucket_in d (random n) Hok Ht Hf (random_nonneg n)) as (he & Hb & _). rewrite Hb. cbn [mbind option_bind].
    destruct he as [|e he]; [|exists (Some (e :: he, S n)); split; [done|]; split; [done|]; by exists (random n)].
    destruct (IH (S n)) as (found & Hrun & Hres). exists found. split; [done|]. destruct found as [[he n']|]; [done|].
    intros i Hi. destruct (decide (i = n)) as [->|]; [done|]. apply Hres. lia.
Qed.

Lemma chain_entry_spec he r :
  he <> [] -> Z.of_nat (length he) <= INT_MAX -> 0 <= r -> exists e, chain_entry he r = Some e /\ e ∈ he.
Proof.
  intros Hne Hl Hr. unfold chain_entry. assert (0 < Z.of_nat (length he)) by (destruct he; [done|cbn; lia]).
  rewrite (to_int_id (Z.of_nat (length he))) by (unfold in_int; clia). destruct (Z.eqb_spec (Z.of_nat (length he)) 0); [lia|].
  rewrite Z.rem_mod_nonneg by lia. pose proof (Z.mod_pos_bound r (Z.of_nat (length he)) ltac:(lia)).
  rewrite to_int_id by (unfold in_int; clia).
  destruct (lookup_lt_is_Some_2 he (Z.to_nat (r mod Z.of_nat (length he)))) as [e He]; [lia|].
  exists e. split; [done|]. by eapply list_elem_of_lookup_2.
Qed.

(** The numbers below that of the slots came up among the draws. *)
Definition all_drawn (fuel : nat) d : Prop := forall r, 0 <= r < dictSlots d -> exists i, (i < fuel)%nat /\ random i = r.

Lemma chain_size d r he : dict_ok hashKey d -> drawn_bucket d r = Some he -> Z.of_nat (length he) <= dictSize d.
Proof.
  intros Hok Hb. unfold dictSize. rewrite (used_entries _ _ (ok_ht0 _ _ Hok)), (used_entries _ _ (ok_ht1 _ _ Hok)).
  assert (forall b i, bucket (get_ht d b) i = Some he -> (length he <= length (ht_entries (get_ht d b)))%nat) as Hle.
  { intros b i Hbi. destruct (bucket_split _ _ _ Hbi) as (rest & -> & _). rewrite length_app. lia. }
  unfold drawn_bucket in Hb. destruct (dictIsRehashing d); [destruct (_ <=? _)|].
  - specialize (Hle true _ Hb). cbn in Hle. lia.
  - specialize (Hle false _ Hb). cbn in Hle. lia.
  - specialize (Hle false _ Hb). cbn in Hle. lia.
Qed.

Lemma dictGetRandomKey_spec fuel d :
  dict_ok hashKey d -> dictSize d <= INT_MAX -> (forall d', rehash_step hashKey d = Some d' -> few_slots d') ->
  exists d' res, dictGetRandomKey fuel d = Some (d', res) /\ rehashed hashKey d d' /\
    match res with
    | RNull => dict_map d = ∅
    | REntry e => dict_map d !! e.1 = Some e.2
    | RSearching => ~ all_drawn fuel d'
    end.
Proof.
  intros Hok Hsz Hf. unfold dictGetRandomKey. destruct (Z.eqb_spec (dictSize d) 0) as [Hz|Hz].
  - exists d, RNull. split_and!; [done|by split_and!|]. by apply (DictMap.size_empty hashKey).
  - destruct (rehash_step_spec hashKey d Hok) as (d1 & Hst & Hre). rewrite Hst. cbn [mbind option_bind].
    specialize (Hf d1 Hst). pose proof Hre as (Hok1 & Hperm & Hit).
    assert (dictSize d1 = dictSize d) as Hs1.
    { rewrite (dictSize_map _ _ Hok1), (dictSize_map _ _ Hok). by rewrite (rehashed_map _ _ _ Hok Hre). }
    pose proof (table_some _ _ Hok1 ltac:(lia)) as Ht1.
    destruct (find_chain_spec fuel 0 d1 Hok1 Ht1 Hf) as (found & -> & Hres). cbn [mbind option_bind].
    destruct found as [[he n]|].
    + destruct Hres as (Hne & r & Hb & Hr). pose proof (chain_size d1 r he Hok1 Hb).
      destruct (chain_entry_spec he (random n) Hne) as (e & -> & Hin); [lia|done|]. cbn [mbind option_bind].
      exists d1, (REntry e). split_and!; [done|done|]. destruct (drawn_bucket_in d1 r Hok1 Ht1 Hf Hr) as (he' & Hb' & Hall).
      rewrite Hb in Hb'. injection Hb' as <-. apply (dict_map_lookup hashKey); [done|]. rewrite <- Hperm. destruct e. by apply Hall.
    + exists d1, RSearching. split_and!; [done|done|]. intros Hdr.
      destruct (full_bucket d1 Hok1 Ht1 Hf) as (r & e & he & Hr & Hb).
      { intros He. apply Hz. rewrite <- Hs1. unfold dictSize. rewrite (used_entries _ _ (ok_ht0 _ _ Hok1)), (used_entries _ _ (ok_ht1 _ _ Hok1)).
        unfold entries in He. apply app_nil in He as [-> ->]. done. }
      destruct (Hdr r Hr) as (i & Hi & Hri). specialize (Hres i ltac:(lia)). rewrite Hri, Hb in Hres. discriminate.
Qed.
End Random.
