(* ===== verification/Sds.v ===== *)
(** * Strings and numbers

    The part of [sds.c], [util.c] and the C library that the replicated types
    rely on: sds construction and comparison, printing an integer
    ([sdsll2str], [ll2string], [printf "%d"]) and reading one back
    ([string2ll], [atoi]).  An sds value is a Rocq [string]: a binary safe
    byte sequence whose length is known, which may hold NUL bytes. *)
From Stdlib Require Import Ascii String ZArith Lia.
From stdpp Require Import base numbers list strings gmap.
From S2P Require Import Prelude.
Open Scope Z_scope.

Abbreviation sds := string.

Create Rewrite HintDb sds.

(** ** Characters *)

Definition byteZ (c : ascii) : Z := Z.of_N (N_of_ascii c).
Definition NUL : ascii := "000"%char.
Definition digit_char (d : Z) : ascii := ascii_of_N (Z.to_N (48 + d)).
Definition is_digit (c : ascii) : bool := (48 <=? byteZ c) && (byteZ c <=? 57).
Definition digit_val (c : ascii) : Z := byteZ c - 48.

Definition chars : sds -> list ascii := list_ascii_of_string.
Definition of_chars : list ascii -> sds := string_of_list_ascii.

(** ** Constructors *)

(** [sdsnew] takes a C string: it stops at the first NUL byte.  [sdsdup]
    copies the whole length. *)
Fixpoint sdsnew (init : sds) : sds :=
  match init with
  | EmptyString => EmptyString
  | String c r => if bool_decide (c = NUL) then EmptyString else String c (sdsnew r)
  end.

(** A NULL pointer gives the empty string. *)
Definition sdsnew_ptr (init : option sds) : sds :=
  match init with None => EmptyString | Some s => sdsnew s end.

Definition sdsdup (s : sds) : sds := s.

(** [sdscat s t] appends the C string [t]. *)
Definition sdscat (s t : sds) : sds := String.append s (sdsnew t).

(** ** Comparison

    [memcmp] on the common prefix, the bytes taken as unsigned, then the
    lengths.  Only the sign of [memcmp] is specified; the model returns
    -1, 0 or 1. *)
Fixpoint memcmp (a b : list ascii) : Z :=
  match a, b with
  | x :: a', y :: b' =>
      if byteZ x <? byteZ y then -1
      else if byteZ y <? byteZ x then 1
      else memcmp a' b'
  | _, _ => 0
  end.

Definition sdscmp (s1 s2 : sds) : Z :=
  let l1 := length (chars s1) in
  let l2 := length (chars s2) in
  let minlen := if decide (l1 < l2)%nat then l1 else l2 in
  let cmp := memcmp (take minlen (chars s1)) (take minlen (chars s2)) in
  if cmp =? 0 then
    if decide (l2 < l1)%nat then 1 else if decide (l1 < l2)%nat then -1 else 0
  else cmp.

(** ** Printing integers *)

(** The [do .. while] loop of [sdsll2str]: least significant digit first.
    A 64-bit value has at most 20 digits, which is the fuel. *)
Fixpoint digits_rev (fuel : nat) (v : Z) : list ascii :=
  match fuel with
  | O => []
  | S f =>
      digit_char (v mod 10) ::
        (if v / 10 =? 0 then [] else digits_rev f (v / 10))
  end.

Definition sdsll2str (value : Z) : list ascii :=
  let v := if value <? 0 then to_ullong (- value) else value in
  let p := digits_rev 20 v in
  let p := if value <? 0 then p ++ ["-"%char] else p in
  rev p.

Definition sdsfromlonglong (value : Z) : sds := of_chars (sdsll2str value).

(** [printf "%d"] of the C library prints the same decimal notation. *)
Definition fmt_d (value : Z) : sds := of_chars (sdsll2str value).

(** [digits10]: the number of decimal digits of an unsigned 64-bit value.
    The recursive call divides by 10^12, so two levels cover 64 bits. *)
Fixpoint digits10 (fuel : nat) (v : Z) : Z :=
  if v <? 10 then 1 else
  if v <? 100 then 2 else
  if v <? 1000 then 3 else
  if v <? 1000000000000 then
    if v <? 100000000 then
      if v <? 1000000 then
        if v <? 10000 then 4 else 5 + (if 100000 <=? v then 1 else 0)
      else 7 + (if 10000000 <=? v then 1 else 0)
    else if v <? 10000000000 then 9 + (if 1000000000 <=? v then 1 else 0)
    else 11 + (if 100000000000 <=? v then 1 else 0)
  else match fuel with
       | O => 0
       | S f => 12 + digits10 f (v / 1000000000000)
       end.

Definition sdigits10 (v : Z) : Z :=
  if v <? 0 then
    let uv := if v =? LLONG_MIN then to_ullong (LLONG_MAX + 1) else - v in
    digits10 1 uv + 1
  else digits10 1 v.

(** The table [digits] of [ll2string]: entry [2*i] and [2*i+1] are the two
    digits of [i]. *)
Definition digits_table : list ascii :=
  chars ("0001020304050607080910111213141516171819" ++
         "2021222324252627282930313233343536373839" ++
         "4041424344454647484950515253545556575859" ++
         "6061626364656667686970717273747576777879" ++
         "8081828384858687888990919293949596979899")%string.

Definition table_at (i : Z) : ascii := nth (Z.to_nat i) digits_table NUL.

(** The loop that writes two digits at a time at [dst[next-1]], [dst[next]]. *)
Fixpoint ll2string_loop (fuel : nat) (value : Z) (next : nat) (dst : list ascii)
  : Z * nat * list ascii :=
  match fuel with
  | O => (value, next, dst)
  | S f =>
      if 100 <=? value then
        let i := (value mod 100) * 2 in
        let dst := <[next := table_at (i + 1)]> dst in
        let dst := <[(next - 1)%nat := table_at i]> dst in
        ll2string_loop f (value / 100) (next - 2)%nat dst
      else (value, next, dst)
  end.

(** [ll2string dst dstlen svalue]: [None] is the 0 the code returns when the
    buffer is too small.  The buffer starts with arbitrary bytes [dst]. *)
Definition ll2string (dst : list ascii) (dstlen : Z) (svalue : Z) : option (list ascii) :=
  let negative := svalue <? 0 in
  let value :=
    if svalue <? 0 then
      if svalue =? LLONG_MIN then to_ullong (LLONG_MAX + 1) else - svalue
    else svalue in
  let len := digits10 1 value + (if negative then 1 else 0) in
  if dstlen <=? len then None
  else
    let next := Z.to_nat len in
    let dst := <[next := NUL]> dst in
    let '(value, next, dst) := ll2string_loop 10 value (next - 1)%nat dst in
    let dst :=
      if value <? 10 then <[next := digit_char value]> dst
      else <[(next - 1)%nat := table_at (value * 2)]>
             (<[next := table_at (value * 2 + 1)]> dst) in
    let dst := if negative then <[0%nat := "-"%char]> dst else dst in
    Some (take (Z.to_nat len) dst).

(** ** Reading integers *)

(** The digit loop of [string2ll]: [None] on overflow of [unsigned long
    long], otherwise the value and the bytes not consumed. *)
Fixpoint s2ll_loop (v : Z) (p : list ascii) : option (Z * list ascii) :=
  match p with
  | [] => Some (v, [])
  | c :: p' =>
      if is_digit c then
        if ULLONG_MAX / 10 <? v then None
        else
          let v := v * 10 in
          if ULLONG_MAX - digit_val c <? v then None
          else s2ll_loop (v + digit_val c) p'
      else Some (v, p)
  end.

(** [string2ll]: [None] is the 0 the code returns. *)
Definition string2ll (s : sds) : option Z :=
  let slen := length (chars s) in
  match chars s with
  | [] => None
  | c :: p =>
      if bool_decide (slen = 1%nat) && bool_decide (c = "0"%char) then Some 0
      else
        let negative := bool_decide (c = "-"%char) in
        match (if negative then p else c :: p) with
        | [] => None
        | d :: p' =>
            if (49 <=? byteZ d) && (byteZ d <=? 57) then
              match s2ll_loop (digit_val d) p' with
              | None => None
              | Some (v, []) =>
                  if negative then
                    if LLONG_MAX + 1 <? v then None else Some (to_llong (- v))
                  else if LLONG_MAX <? v then None else Some v
              | Some (_, _ :: _) => None
              end
            else if bool_decide (d = "0"%char) && bool_decide (slen = 1%nat) then Some 0
            else None
        end
  end.

(** [atoi]: leading white space, an optional sign, digits; [strtol] saturates
    at the range of [long] and the result is converted to [int]. *)
Definition is_space (c : ascii) : bool :=
  (byteZ c =? 32) || ((9 <=? byteZ c) && (byteZ c <=? 13)).

Fixpoint skip_space (p : list ascii) : list ascii :=
  match p with
  | c :: p' => if is_space c then skip_space p' else p
  | [] => []
  end.

Fixpoint read_digits (v : Z) (p : list ascii) : Z :=
  match p with
  | c :: p' => if is_digit c then read_digits (v * 10 + digit_val c) p' else v
  | [] => v
  end.

Definition saturate_long (z : Z) : Z := Z.max LLONG_MIN (Z.min LLONG_MAX z).

Definition strtol10 (p : list ascii) : Z :=
  let p := skip_space p in
  match p with
  | c :: p' =>
      if bool_decide (c = "-"%char) then saturate_long (- read_digits 0 p')
      else if bool_decide (c = "+"%char) then saturate_long (read_digits 0 p')
      else saturate_long (read_digits 0 p)
  | [] => 0
  end.

Definition atoi (p : list ascii) : Z := to_int (strtol10 p).

Example sdsfromlonglong_ex :
  (sdsfromlonglong (-1203), sdsfromlonglong 0, sdsfromlonglong LLONG_MIN)
  = ("-1203", "0", "-9223372036854775808")%string.
Proof. reflexivity. Qed.

Example string2ll_ex :
  (string2ll "-1203", string2ll "0", string2ll "007", string2ll "-0",
   string2ll "9223372036854775808", string2ll "-9223372036854775808", string2ll "1a")
  = (Some (-1203), Some 0, None, None, None, Some LLONG_MIN, None).
Proof. reflexivity. Qed.

Example ll2string_ex :
  ll2string (replicate 32 NUL) 32 (-1203456) = Some (chars "-1203456")
  /\ ll2string (replicate 32 NUL) 32 LLONG_MIN = Some (sdsll2str LLONG_MIN)
  /\ ll2string (replicate 32 NUL) 3 100 = None.
Proof. repeat split; reflexivity. Qed.

(** ** Characters and digits *)

Lemma byteZ_range c : 0 <= byteZ c < 256.
Proof. unfold byteZ. pose proof (N_ascii_bounded c). lia. Qed.

Lemma byteZ_inj a b : byteZ a = byteZ b -> a = b.
Proof.
  unfold byteZ; intros H. rewrite <- (ascii_N_embedding a), <- (ascii_N_embedding b).
  f_equal. lia.
Qed.

Lemma byteZ_digit_char d : 0 <= d < 10 -> byteZ (digit_char d) = 48 + d.
Proof.
  intros H. unfold byteZ, digit_char. rewrite N_ascii_embedding; lia.
Qed.

Lemma is_digit_char d : 0 <= d < 10 -> is_digit (digit_char d) = true.
Proof. intros H. unfold is_digit. rewrite byteZ_digit_char; lia. Qed.

Lemma digit_val_char d : 0 <= d < 10 -> digit_val (digit_char d) = d.
Proof. intros H. unfold digit_val. rewrite byteZ_digit_char; lia. Qed.

Lemma is_digit_range c : is_digit c = true -> 0 <= digit_val c < 10.
Proof. unfold is_digit, digit_val. lia. Qed.

Lemma digit_char_val c : is_digit c = true -> digit_char (digit_val c) = c.
Proof.
  intros H. apply byteZ_inj. rewrite byteZ_digit_char by now apply is_digit_range.
  unfold digit_val. lia.
Qed.

Lemma chars_of_chars l : chars (of_chars l) = l.
Proof. apply list_ascii_of_string_of_list_ascii. Qed.

Lemma of_chars_chars s : of_chars (chars s) = s.
Proof. apply string_of_list_ascii_of_string. Qed.

Lemma chars_cons c s : chars (String c s) = c :: chars s.
Proof. done. Qed.

Lemma chars_append s t : chars (String.append s t) = chars s ++ chars t.
Proof.
  induction s as [|c s IH]; [done|].
  change (c :: chars (String.append s t) = c :: chars s ++ chars t). by rewrite IH.
Qed.

#[export] Hint Rewrite chars_of_chars of_chars_chars chars_cons chars_append : sds.

(** ** Decimal notation *)

Lemma digits_rev_step f v :
  10 <= v -> digits_rev (S f) v = digit_char (v mod 10) :: digits_rev f (v / 10).
Proof.
  intros H. cbn [digits_rev].
  destruct (v / 10 =? 0) eqn:E; [|done].
  pose proof (Z.div_le_mono 10 v 10). change (10 / 10) with 1 in *. lia.
Qed.

Lemma digits_rev_small f v :
  0 <= v < 10 -> digits_rev (S f) v = [digit_char v].
Proof.
  intros H. cbn [digits_rev].
  rewrite Z.mod_small, Z.div_small by lia. done.
Qed.

Lemma div10_pow v f : 0 <= v < 10 ^ Z.of_nat (S f) -> 0 <= v / 10 < 10 ^ Z.of_nat f.
Proof.
  intros H. rewrite Nat2Z.inj_succ, Z.pow_succ_r in H by lia.
  split; [apply Z.div_pos; lia | apply Z.div_lt_upper_bound; lia].
Qed.

Lemma s2ll_loop_snoc v p w c :
  s2ll_loop v p = Some (w, []) -> is_digit c = true ->
  w <= ULLONG_MAX / 10 -> w * 10 + digit_val c <= ULLONG_MAX ->
  s2ll_loop v (p ++ [c]) = Some (w * 10 + digit_val c, []).
Proof.
  revert v. induction p as [|a p IH]; intros v; cbn.
  - intros [= ->] Hc H1 H2. rewrite Hc.
    destruct (ULLONG_MAX / 10 <? w) eqn:E1; [lia|].
    destruct (ULLONG_MAX - digit_val c <? w * 10) eqn:E2; [lia|]. done.
  - destruct (is_digit a); [|done].
    destruct (ULLONG_MAX / 10 <? v); [done|].
    destruct (ULLONG_MAX - digit_val a <? v * 10); [done|]. apply IH.
Qed.

Lemma s2ll_loop_snoc_inv v p c w :
  s2ll_loop v (p ++ [c]) = Some (w, []) ->
  exists v0, s2ll_loop v p = Some (v0, []) /\ is_digit c = true /\
    v0 <= ULLONG_MAX / 10 /\ w = v0 * 10 + digit_val c /\ w <= ULLONG_MAX.
Proof.
  revert v. induction p as [|a p IH]; intros v; cbn.
  - destruct (is_digit c); [|done].
    destruct (ULLONG_MAX / 10 <? v) eqn:E1; [done|].
    destruct (ULLONG_MAX - digit_val c <? v * 10) eqn:E2; [done|].
    intros [= <-]. exists v. repeat split; lia.
  - destruct (is_digit a); [|done].
    destruct (ULLONG_MAX / 10 <? v); [done|].
    destruct (ULLONG_MAX - digit_val a <? v * 10); [done|]. apply IH.
Qed.

(** Printing a positive value and running the digit loop of [string2ll] on
    the result gives the value back. *)
Lemma print_parse f v :
  0 < v < 10 ^ Z.of_nat f -> v <= ULLONG_MAX ->
  exists d p, rev (digits_rev f v) = d :: p /\ 49 <= byteZ d <= 57 /\
    s2ll_loop (digit_val d) p = Some (v, []).
Proof.
  revert v. induction f as [|f IH]; intros v Hv Hmax; [cbn in Hv; lia|].
  destruct (Z.ltb_spec v 10) as [Hs|Hs].
  - rewrite digits_rev_small by lia. exists (digit_char v), [].
    rewrite byteZ_digit_char, digit_val_char by lia. cbn. repeat split; lia.
  - rewrite digits_rev_step by lia. cbn [rev].
    pose proof (div10_pow v f ltac:(lia)). pose proof (Z.mod_pos_bound v 10 ltac:(lia)).
    pose proof (Z.div_mod v 10 ltac:(lia)).
    destruct (IH (v / 10)) as (d & p & -> & Hd & Hp); [lia..|].
    exists d, (p ++ [digit_char (v mod 10)]). split; [done|]. split; [done|].
    rewrite (s2ll_loop_snoc _ _ _ _ Hp).
    + do 2 f_equal. rewrite digit_val_char; lia.
    + apply is_digit_char; lia.
    + apply Z.div_le_mono; lia.
    + rewrite digit_val_char; lia.
Qed.

(** Conversely the digits [string2ll] accepts are the ones printed. *)
Lemma parse_print d p v :
  49 <= byteZ d <= 57 -> s2ll_loop (digit_val d) p = Some (v, []) ->
  0 < v /\ (v <= ULLONG_MAX) /\
  forall f, v < 10 ^ Z.of_nat f -> rev (digits_rev f v) = d :: p.
Proof.
  intros Hd. revert v. induction p as [|c p IH] using rev_ind; intros v Hl.
  - cbn in Hl. injection Hl as <-.
    repeat split; [unfold digit_val, ULLONG_MAX; lia..|]. intros [|f] Hf; [unfold digit_val in Hf; cbn in Hf; lia|].
    rewrite digits_rev_small by (unfold digit_val; lia). cbn.
    rewrite (digit_char_val d) by (unfold is_digit; lia). done.
  - apply s2ll_loop_snoc_inv in Hl as (v0 & Hl & Hc & H0 & -> & Hm).
    destruct (IH _ Hl) as (Hpos & _ & Hf). pose proof (is_digit_range c Hc).
    repeat split; [lia..|]. intros [|f] Hlt; [cbn in Hlt; lia|].
    rewrite digits_rev_step by lia. cbn [rev].
    assert ((v0 * 10 + digit_val c) / 10 = v0) as ->.
    { rewrite Z.div_add_l by lia. rewrite (Z.div_small (digit_val c)) by lia. lia. }
    assert ((v0 * 10 + digit_val c) mod 10 = digit_val c) as ->.
    { rewrite Z.add_comm, Z.mod_add by lia. apply Z.mod_small; lia. }
    rewrite Nat2Z.inj_succ, Z.pow_succ_r in Hlt by lia.
    rewrite digit_char_val, Hf by (done || lia). done.
Qed.

(** A decimal digit is not the minus sign. *)
Lemma digit_not_minus d : 49 <= byteZ d <= 57 -> bool_decide (d = "-"%char) = false.
Proof.
  intros H. apply bool_decide_eq_false. intros ->.
  change (byteZ "-"%char) with 45 in H. lia.
Qed.

Lemma digit_not_zero d : 49 <= byteZ d <= 57 -> bool_decide (d = "0"%char) = false.
Proof.
  intros H. apply bool_decide_eq_false. intros ->.
  change (byteZ "0"%char) with 48 in H. lia.
Qed.

Lemma sdsll2str_cases z :
  in_llong z ->
  (z = 0 /\ sdsll2str z = ["0"%char]) \/
  (0 < z /\ sdsll2str z = rev (digits_rev 20 z)) \/
  (z < 0 /\ sdsll2str z = "-"%char :: rev (digits_rev 20 (- z))).
Proof.
  intros H. unfold sdsll2str. destruct (Z.ltb_spec z 0).
  - right; right. split; [done|]. rewrite to_ullong_id by clia.
    rewrite rev_app_distr. done.
  - destruct (decide (z = 0)) as [->|]; [left; done|]. right; left. split; [lia|done].
Qed.

(** The decimal notation of a 64-bit value read back. *)
Lemma string2ll_print z : in_llong z -> string2ll (sdsfromlonglong z) = Some z.
Proof.
  intros Hz. unfold string2ll, sdsfromlonglong. rewrite chars_of_chars.
  destruct (sdsll2str_cases z Hz) as [[-> ->]|[[Hp ->]|[Hn ->]]]; [done|..].
  - destruct (print_parse 20 z ltac:(clia) ltac:(clia)) as (d & p & -> & Hd & Hl).
    rewrite digit_not_zero, digit_not_minus, Hl by done. rewrite andb_false_r.
    replace ((49 <=? byteZ d) && (byteZ d <=? 57)) with true by lia.
    destruct (LLONG_MAX <? z) eqn:E; [clia|done].
  - destruct (print_parse 20 (- z) ltac:(clia) ltac:(clia)) as (d & p & -> & Hd & Hl).
    change (bool_decide ("-"%char = "0"%char)) with false.
    change (bool_decide ("-"%char = "-"%char)) with true. rewrite andb_false_r, Hl.
    replace ((49 <=? byteZ d) && (byteZ d <=? 57)) with true by lia.
    destruct (LLONG_MAX + 1 <? - z) eqn:E; [clia|].
    rewrite to_llong_id by clia. f_equal; lia.
Qed.

(** The strings [string2ll] accepts are exactly the printed ones: no leading
    zeroes, no spaces, no plus sign. *)
Lemma string2ll_canonical s z :
  string2ll s = Some z -> in_llong z /\ sdsfromlonglong z = s.
Proof.
  unfold string2ll, sdsfromlonglong. intros H.
  rewrite <- (of_chars_chars s) at 1. revert H.
  destruct (chars s) as [|c p] eqn:Ec; [done|].
  destruct (bool_decide (length (c :: p) = 1%nat) && bool_decide (c = "0"%char)) eqn:E0.
  { intros [= <-]. apply andb_prop in E0 as [E1 E2].
    apply bool_decide_eq_true in E1, E2. subst c. destruct p; [|done].
    split; [clia|done]. }
  destruct (bool_decide (c = "-"%char)) eqn:Eneg.
  - apply bool_decide_eq_true in Eneg as ->. destruct p as [|d p]; [done|].
    destruct ((49 <=? byteZ d) && (byteZ d <=? 57)) eqn:Ed.
    2: { destruct (bool_decide (d = "0"%char)); done. }
    destruct (s2ll_loop (digit_val d) p) as [[v [|]]|] eqn:El; [|done..].
    destruct (LLONG_MAX + 1 <? v) eqn:Ev; [done|]. intros [= <-].
    apply parse_print in El as (Hp & Hm & Hf); [|lia].
    rewrite to_llong_id by clia. split; [clia|]. f_equal.
    destruct (sdsll2str_cases (- v) ltac:(clia)) as [[? _]|[[? _]|[_ ->]]]; [lia..|].
    rewrite Z.opp_involutive, Hf by clia. done.
  - destruct ((49 <=? byteZ c) && (byteZ c <=? 57)) eqn:Ed.
    2: { rewrite andb_comm in E0. rewrite E0. done. }
    destruct (s2ll_loop (digit_val c) p) as [[v [|]]|] eqn:El; [|done..].
    destruct (LLONG_MAX <? v) eqn:Ev; [done|]. intros [= <-].
    apply parse_print in El as (Hp & Hm & Hf); [|lia]. split; [clia|]. f_equal.
    destruct (sdsll2str_cases v ltac:(clia)) as [[? _]|[[_ ->]|[? _]]]; [lia| |lia].
    rewrite Hf by clia. done.
Qed.

(** ** [atoi] reads what [printf "%d"] prints *)

(** What follows a printed number is not a digit. *)
Definition no_digit_head (p : list ascii) : Prop :=
  match p with [] => True | c :: _ => is_digit c = false end.

Lemma read_digits_app v p w rest :
  s2ll_loop v p = Some (w, []) -> no_digit_head rest ->
  read_digits v (p ++ rest) = w.
Proof.
  revert v. induction p as [|c p IH]; intros v; cbn.
  - intros [= ->] Hr. destruct rest as [|a rest]; [done|]. cbn. by rewrite Hr.
  - destruct (is_digit c); [|done].
    destruct (ULLONG_MAX / 10 <? v); [done|].
    destruct (ULLONG_MAX - digit_val c <? v * 10); [done|]. apply IH.
Qed.

Lemma digit_head_facts d :
  49 <= byteZ d <= 57 ->
  is_space d = false /\ is_digit d = true /\ bool_decide (d = "+"%char) = false.
Proof.
  intros H. unfold is_space, is_digit. split; [lia|]. split; [lia|].
  apply bool_decide_eq_false. intros ->. change (byteZ "+"%char) with 43 in H. lia.
Qed.

Lemma saturate_long_id z : in_llong z -> saturate_long z = z.
Proof. unfold saturate_long. clia. Qed.

Lemma atoi_print z rest :
  in_int z -> no_digit_head rest -> atoi (chars (fmt_d z) ++ rest) = z.
Proof.
  intros Hz Hr. unfold atoi, strtol10, fmt_d. rewrite chars_of_chars.
  destruct (sdsll2str_cases z ltac:(clia)) as [[-> ->]|[[Hp ->]|[Hn ->]]].
  - destruct rest as [|c rest]; [done|].
    cbn in Hr. cbn [app skip_space is_space].
    change (is_space "0"%char) with false. cbn -[saturate_long to_int]. by rewrite Hr.
  - destruct (print_parse 20 z ltac:(clia) ltac:(clia)) as (d & p & -> & Hd & Hl).
    destruct (digit_head_facts d Hd) as (Hs & Hdg & Hplus).
    cbn [app skip_space]. rewrite Hs. cbn [app]. rewrite digit_not_minus, Hplus by done.
    cbn [read_digits]. rewrite Hdg, Z.add_0_l, (read_digits_app _ _ _ _ Hl Hr).
    rewrite saturate_long_id, to_int_id by clia. done.
  - destruct (print_parse 20 (- z) ltac:(clia) ltac:(clia)) as (d & p & -> & Hd & Hl).
    destruct (digit_head_facts d Hd) as (_ & Hdg & _).
    cbn [app skip_space]. change (is_space "-"%char) with false.
    cbn [app]. rewrite bool_decide_eq_true_2 by done. cbn [read_digits].
    rewrite Hdg, Z.add_0_l, (read_digits_app _ _ _ _ Hl Hr), Z.opp_involutive.
    rewrite saturate_long_id, to_int_id by clia. done.
Qed.

(** Every byte of a printed number is a digit or the minus sign. *)
Definition num_char (c : ascii) : Prop := is_digit c = true \/ c = "-"%char.

Lemma digits_rev_chars f v : Forall (fun c => is_digit c = true) (digits_rev f v).
Proof.
  revert v. induction f as [|f IH]; intros v; cbn; [constructor|].
  constructor; [apply is_digit_char, Z.mod_pos_bound; lia|].
  destruct (v / 10 =? 0); [constructor|apply IH].
Qed.

Lemma sdsll2str_chars z : Forall num_char (sdsll2str z).
Proof.
  unfold sdsll2str. apply Forall_rev. destruct (z <? 0).
  - apply Forall_app; split; [|by repeat constructor; right].
    eapply Forall_impl; [apply digits_rev_chars|by left].
  - eapply Forall_impl; [apply digits_rev_chars|by left].
Qed.

Lemma sdsll2str_nonempty z : sdsll2str z <> [].
Proof.
  unfold sdsll2str. intros H. apply (f_equal length) in H. rewrite length_rev in H.
  destruct (z <? 0); [rewrite length_app in H; cbn in H; lia|discriminate].
Qed.

(** ** The order of [sdscmp] *)

(** Lexicographic order on bytes, a proper prefix being smaller. *)
Fixpoint lexcmp (a b : list ascii) : Z :=
  match a, b with
  | [], [] => 0
  | [], _ :: _ => -1
  | _ :: _, [] => 1
  | x :: a', y :: b' =>
      if byteZ x <? byteZ y then -1 else if byteZ y <? byteZ x then 1 else lexcmp a' b'
  end.

Lemma sdscmp_lex s1 s2 : sdscmp s1 s2 = lexcmp (chars s1) (chars s2).
Proof.
  unfold sdscmp. generalize (chars s1) as a, (chars s2) as b. clear s1 s2.
  induction a as [|x a IH]; intros [|y b]; [done..|]. cbn [lexcmp]. rewrite <- IH.
  cbn [length]. destruct (decide (length a < length b)%nat), (decide (S (length a) < S (length b))%nat);
    try lia; cbn [take memcmp]; (destruct (byteZ x <? byteZ y); [done|]);
    (destruct (byteZ y <? byteZ x); [done|]); destruct (memcmp _ _ =? 0); try done;
    repeat case_decide; done || lia.
Qed.

Lemma lexcmp_eq a b : lexcmp a b = 0 <-> a = b.
Proof.
  revert b. induction a as [|x a IH]; intros [|y b]; cbn; [done..|].
  destruct (Z.ltb_spec (byteZ x) (byteZ y)); [split; [done|intros [= -> ->]; lia]|].
  destruct (Z.ltb_spec (byteZ y) (byteZ x)); [split; [done|intros [= -> ->]; lia]|].
  rewrite IH. assert (x = y) as -> by (apply byteZ_inj; lia).
  split; [by intros ->|by intros [= ->]].
Qed.

Lemma lexcmp_antisym a b : lexcmp a b = - lexcmp b a.
Proof.
  revert b. induction a as [|x a IH]; intros [|y b]; cbn; [done..|].
  destruct (Z.ltb_spec (byteZ x) (byteZ y)), (Z.ltb_spec (byteZ y) (byteZ x)); try lia; done.
Qed.

Lemma lexcmp_trans a b c : 0 < lexcmp a b -> 0 < lexcmp b c -> 0 < lexcmp a c.
Proof.
  revert b c. induction a as [|x a IH]; intros [|y b] [|z c]; cbn; try lia.
  repeat match goal with |- context [?p <? ?q] => destruct (Z.ltb_spec p q) end; try lia.
  apply IH.
Qed.

Lemma sdscmp_eq s1 s2 : sdscmp s1 s2 = 0 <-> s1 = s2.
Proof.
  rewrite sdscmp_lex, lexcmp_eq. split; [|by intros ->].
  intros H. rewrite <- (of_chars_chars s1), <- (of_chars_chars s2). by rewrite H.
Qed.

Lemma sdscmp_antisym s1 s2 : sdscmp s1 s2 = - sdscmp s2 s1.
Proof. rewrite !sdscmp_lex. apply lexcmp_antisym. Qed.

Lemma sdscmp_trans s1 s2 s3 : 0 < sdscmp s1 s2 -> 0 < sdscmp s2 s3 -> 0 < sdscmp s1 s3.
Proof. rewrite !sdscmp_lex. apply lexcmp_trans. Qed.

(** ** [sdsnew] and NUL bytes *)

Definition nul_free (s : sds) : Prop := NUL ∉ chars s.

#[global] Instance nul_free_dec s : Decision (nul_free s).
Proof. unfold nul_free. apply _. Defined.

Lemma sdsnew_nul_free s : nul_free s -> sdsnew s = s.
Proof.
  unfold nul_free. induction s as [|c s IH]; cbn; [done|].
  intros H. rewrite not_elem_of_cons in H. destruct H as [H1 H2].
  rewrite bool_decide_eq_false_2 by done. by rewrite IH.
Qed.

Lemma nul_free_sdsnew s : nul_free (sdsnew s).
Proof.
  unfold nul_free. induction s as [|c s IH]; cbn; [apply not_elem_of_nil|].
  case_bool_decide; cbn; [apply not_elem_of_nil|]. apply not_elem_of_cons. done.
Qed.

Lemma num_char_not c : num_char c -> c <> NUL /\ c <> ","%char /\ c <> "|"%char.
Proof.
  intros [H| ->]; [|done].
  split_and!; intros ->; done.
Qed.

(** ** [ll2string] prints like [sdsll2str]

    The two-digits-at-a-time routine of [util.c] fills exactly the bytes that
    [digits10] announced. *)

Lemma digits_rev_length f k v :
  10 ^ Z.of_nat k <= v < 10 ^ Z.of_nat (S k) -> (k < f)%nat ->
  length (digits_rev f v) = S k.
Proof.
  revert k v. induction f as [|f IH]; intros k v Hv Hk; [lia|].
  destruct k as [|k].
  - cbn in Hv. rewrite digits_rev_small by lia. done.
  - assert (10 <= v).
    { rewrite Nat2Z.inj_succ, Z.pow_succ_r in Hv by lia.
      pose proof (Z.pow_pos_nonneg 10 (Z.of_nat k) ltac:(lia) ltac:(lia)). lia. }
    rewrite digits_rev_step by done. cbn. rewrite (IH k); [done| |lia].
    rewrite (Nat2Z.inj_succ (S k)), (Z.pow_succ_r 10 (Z.of_nat (S k))) in Hv by lia.
    rewrite (Nat2Z.inj_succ k), Z.pow_succ_r in * by lia.
    split; [apply Z.div_le_lower_bound; lia|apply Z.div_lt_upper_bound; lia].
Qed.

Lemma digits_rev_length_1 f v : 0 <= v < 10 -> (0 < f)%nat -> length (digits_rev f v) = 1%nat.
Proof. intros. destruct f; [lia|]. by rewrite digits_rev_small. Qed.

(** [digits10] counts the digits. *)
Lemma digits10_length v :
  in_ullong v -> digits10 1 v = Z.of_nat (length (digits_rev 20 v)).
Proof.
  intros Hv. destruct (Z.ltb_spec v 10) as [H10|H10].
  { rewrite digits_rev_length_1 by (clia || lia). cbn [digits10].
    replace (v <? 10) with true by lia. done. }
  assert (exists k, (k < 20)%nat /\ 10 ^ Z.of_nat k <= v < 10 ^ Z.of_nat (S k)
            /\ digits10 1 v = Z.of_nat (S k)) as (k & Hk & Hb & ->).
  2: { by rewrite (digits_rev_length 20 k). }
  cbn [digits10].
  assert (v / 1000000000000 < 18446745) as Hdiv
    by (apply Z.div_lt_upper_bound; clia).
  pose proof (Z.div_mod v 1000000000000 ltac:(lia)) as Hdm.
  pose proof (Z.mod_pos_bound v 1000000000000 ltac:(lia)) as Hmb.
  repeat match goal with
  | |- context [?p <? ?q] => destruct (Z.ltb_spec p q); try lia
  | |- context [?p <=? ?q] => destruct (Z.leb_spec p q); try lia
  end;
  match goal with
  | |- exists k, _ /\ _ /\ ?n = _ =>
      let m := eval vm_compute in (Z.to_nat n - 1)%nat in
      exists m; cbn [Z.of_nat]; split; [lia|split; [|reflexivity]]; cbn; lia
  end.
Qed.

Lemma table_at_spec i :
  0 <= i < 100 ->
  table_at (i * 2) = digit_char (i / 10) /\ table_at (i * 2 + 1) = digit_char (i mod 10).
Proof.
  intros H.
  assert (Forall (fun n => table_at (Z.of_nat n * 2) = digit_char (Z.of_nat n / 10) /\
     table_at (Z.of_nat n * 2 + 1) = digit_char (Z.of_nat n mod 10)) (seq 0 100)) as HF.
  { vm_compute. repeat constructor. }
  rewrite Forall_forall in HF. specialize (HF (Z.to_nat i)).
  rewrite Z2Nat.id in HF by lia. apply HF, elem_of_seq. lia.
Qed.

Lemma digits_rev_two f v :
  100 <= v ->
  rev (digits_rev (S (S f)) v) =
  rev (digits_rev f (v / 100)) ++ [table_at (v mod 100 * 2); table_at (v mod 100 * 2 + 1)].
Proof.
  intros Hv. rewrite digits_rev_step by lia.
  rewrite digits_rev_step by (apply Z.div_le_lower_bound; lia).
  rewrite Z.div_div by lia. change (10 * 10) with 100.
  pose proof (Z.mod_pos_bound v 100 ltac:(lia)) as Hm.
  destruct (table_at_spec (v mod 100) Hm) as [-> ->].
  assert ((v / 10) mod 10 = v mod 100 / 10) as ->
    by (Z.to_euclidean_division_equations; lia).
  assert (v mod 10 = (v mod 100) mod 10) as ->
    by (Z.to_euclidean_division_equations; lia).
  cbn [rev]. by rewrite <- app_assoc.
Qed.

(** Overwriting part of a buffer. *)
Definition fill (k : nat) (l dst : list ascii) : list ascii :=
  take k dst ++ l ++ drop (k + length l) dst.

Lemma fill_snoc k l x dst :
  (k + length l < length dst)%nat ->
  fill k l (<[(k + length l)%nat := x]> dst) = fill k (l ++ [x]) dst.
Proof.
  intros H. unfold fill. rewrite take_insert_ge by lia. f_equal.
  rewrite <- app_assoc. f_equal. rewrite length_app. cbn.
  rewrite (drop_S _ x) by (apply list_lookup_insert_eq; lia).
  rewrite drop_insert_lt by lia. do 2 f_equal. lia.
Qed.

(** The last bytes written by the loop and the final one or two digits. *)
Definition ll2string_tail (value : Z) (next : nat) (dst : list ascii) : list ascii :=
  if value <? 10 then <[next := digit_char value]> dst
  else <[(next - 1)%nat := table_at (value * 2)]>
         (<[next := table_at (value * 2 + 1)]> dst).

Lemma ll2string_tail_fill f k v dst :
  0 <= v < 100 -> v < 10 ^ Z.of_nat f -> (0 < f)%nat ->
  (k + length (digits_rev f v) <= length dst)%nat ->
  ll2string_tail v (k + length (digits_rev f v) - 1)%nat dst
  = fill k (rev (digits_rev f v)) dst.
Proof.
  intros Hv Hf Hf0. unfold ll2string_tail. destruct (Z.ltb_spec v 10).
  - destruct f; [lia|]. rewrite digits_rev_small by lia. cbn [length rev app].
    intros Hl. replace (k + 1 - 1)%nat with (k + length (@nil ascii))%nat by (cbn; lia).
    rewrite <- (fill_snoc k [] (digit_char v)) by (cbn; lia).
    unfold fill. cbn. rewrite !Nat.add_0_r. by rewrite take_drop.
  - destruct f as [|[|f]]; [lia|cbn in Hf; lia|].
    rewrite digits_rev_step by lia.
    rewrite digits_rev_small by (split; [apply Z.div_pos|apply Z.div_lt_upper_bound]; lia).
    destruct (table_at_spec v ltac:(lia)) as [-> ->]. cbn [length rev app]. intros Hl.
    replace (k + 2 - 1)%nat with (k + length [digit_char (v / 10)])%nat by (cbn; lia).
    change [digit_char (v / 10); digit_char (v mod 10)]
      with ([digit_char (v / 10)] ++ [digit_char (v mod 10)]).
    rewrite <- fill_snoc by (cbn; lia). cbn [length].
    replace (k + 1 - 1)%nat with (k + length (@nil ascii))%nat by (cbn; lia).
    change [digit_char (v / 10)] with ([] ++ [digit_char (v / 10)]).
    rewrite <- (fill_snoc k []) by (rewrite length_insert; cbn; lia).
    unfold fill. cbn. rewrite !Nat.add_0_r. by rewrite take_drop.
Qed.

Lemma fill_two k l x y dst :
  (k + length l + 2 <= length dst)%nat ->
  fill k l (<[(k + length l)%nat := x]> (<[(k + length l + 1)%nat := y]> dst))
  = fill k (l ++ [x; y]) dst.
Proof.
  intros H. rewrite fill_snoc by (rewrite length_insert; lia).
  replace (k + length l + 1)%nat with (k + length (l ++ [x]))%nat
    by (rewrite length_app; cbn; lia).
  rewrite fill_snoc by (rewrite length_app; cbn; lia). by rewrite <- app_assoc.
Qed.

Lemma ll2string_loop_fill fuel f k v dst value next dst' :
  0 <= v < 10 ^ Z.of_nat f -> (f <= 2 * S fuel)%nat -> (0 < f)%nat ->
  (k + length (digits_rev f v) <= length dst)%nat ->
  ll2string_loop fuel v (k + length (digits_rev f v) - 1)%nat dst = (value, next, dst') ->
  ll2string_tail value next dst' = fill k (rev (digits_rev f v)) dst.
Proof.
  revert f v dst. induction fuel as [|fuel IH]; intros f v dst Hv Hf Hf0 Hlen.
  - assert (10 ^ Z.of_nat f <= 10 ^ 2) by (apply Z.pow_le_mono_r; lia).
    cbn. intros [= <- <- <-]. apply ll2string_tail_fill; lia.
  - cbn [ll2string_loop]. destruct (100 <=? v) eqn:E.
    2: { intros [= <- <- <-]. apply ll2string_tail_fill; lia. }
    destruct f as [|[|[|f]]]; [lia|cbn in Hv; lia|cbn in Hv; lia|].
    pose proof (f_equal length (digits_rev_two (S f) v ltac:(lia))) as Hl2.
    rewrite length_app, !length_rev in Hl2. cbn [length] in Hl2.
    intros Hloop. rewrite digits_rev_two by lia.
    rewrite Hl2 in Hloop, Hlen. set (n := length (digits_rev (S f) (v / 100))) in *.
    assert (1 <= n)%nat by (unfold n; cbn; lia).
    replace (k + (n + 2) - 1 - 2)%nat with (k + n - 1)%nat in Hloop by lia.
    assert (0 <= v / 100 < 10 ^ Z.of_nat (S f)) as Hv'.
    { rewrite !Nat2Z.inj_succ, !Z.pow_succ_r in Hv by lia.
      rewrite Nat2Z.inj_succ, Z.pow_succ_r by lia.
      split; [apply Z.div_pos; lia|apply Z.div_lt_upper_bound; lia]. }
    apply (IH (S f)) in Hloop; [|done|lia|lia|rewrite !length_insert; fold n; lia].
    rewrite Hloop, <- fill_two by (rewrite length_rev; fold n; lia).
    rewrite length_rev. fold n. f_equal.
    replace (k + (n + 2) - 1)%nat with (k + n + 1)%nat by lia.
    by replace (k + n + 1 - 1)%nat with (k + n)%nat by lia.
Qed.

Lemma take_fill_0 l dst : (length l <= length dst)%nat -> take (length l) (fill 0 l dst) = l.
Proof. intros _. unfold fill. rewrite take_0. cbn. apply take_app_length. Qed.

Lemma fill_insert_lt k l i x dst :
  (i < k)%nat -> (k <= length dst)%nat ->
  <[i := x]> (fill k l dst) = fill k l (<[i := x]> dst).
Proof.
  intros Hi Hk. unfold fill. rewrite insert_app_l by (rewrite length_take; lia).
  rewrite take_insert_lt, drop_insert_lt by lia. done.
Qed.

(** Both printers produce the same bytes, whatever the buffer held before. *)
Lemma ll2string_sdsll2str dst dstlen z :
  in_llong z -> dstlen <= Z.of_nat (length dst) ->
  Z.of_nat (length (sdsll2str z)) < dstlen ->
  ll2string dst dstlen z = Some (sdsll2str z).
Proof.
  intros Hz Hd Hlen. unfold ll2string.
  set (u := if z <? 0 then _ else _).
  assert (u = Z.abs z) as -> by
    (unfold u; destruct (Z.ltb_spec z 0); [destruct (Z.eqb_spec z LLONG_MIN)|]; [subst; done|lia..]).
  rewrite (digits10_length (Z.abs z)) by clia.
  assert (sdsll2str z = (if z <? 0 then ["-"%char] else []) ++ rev (digits_rev 20 (Z.abs z))) as Hs.
  { destruct (sdsll2str_cases z Hz) as [[-> ->]|[[Hp ->]|[Hn ->]]]; [done| |].
    - replace (z <? 0) with false by lia. by rewrite Z.abs_eq by lia.
    - replace (z <? 0) with true by lia. by rewrite Z.abs_neq by lia. }
  rewrite Hs in Hlen |- *. rewrite length_app, length_rev in Hlen.
  remember (digits_rev 20 (Z.abs z)) as D eqn:HD in *.
  remember (length (if z <? 0 then ["-"%char] else [])) as k eqn:Hk in *.
  assert (Z.of_nat (length D) + (if z <? 0 then 1 else 0) = Z.of_nat (k + length D)) as ->
    by (rewrite Hk; destruct (z <? 0); cbn; lia).
  destruct (Z.leb_spec dstlen (Z.of_nat (k + length D))); [lia|]. rewrite Nat2Z.id.
  set (dst0 := <[(k + length D)%nat := NUL]> dst).
  assert (length dst0 = length dst) by apply length_insert.
  destruct (ll2string_loop 10 (Z.abs z) (k + length D - 1)%nat dst0) as [[v n] d1] eqn:El.
  rewrite HD in El. apply (ll2string_loop_fill 10 20 k) in El; [|clia|lia|lia|rewrite <- HD; lia].
  unfold ll2string_tail in El. rewrite El, <- HD. f_equal.
  rewrite <- (length_rev D). subst k. destruct (z <? 0); cbn [length app] in *.
  - rewrite fill_insert_lt by lia. unfold fill.
    replace (take 1 (<[0%nat:="-"%char]> dst0)) with ["-"%char]
      by (destruct dst0; [cbn in *; lia|done]).
    rewrite app_assoc, take_app_le by (rewrite length_app; cbn; lia).
    by apply take_ge.
  - rewrite Nat.add_0_l. apply take_fill_0. rewrite length_rev. lia.
Qed.

Lemma ll2string_too_small dst dstlen z :
  in_llong z -> dstlen <= Z.of_nat (length (sdsll2str z)) ->
  ll2string dst dstlen z = None.
Proof.
  intros Hz Hlen. unfold ll2string.
  set (u := if z <? 0 then _ else _).
  assert (u = Z.abs z) as -> by
    (unfold u; destruct (Z.ltb_spec z 0); [destruct (Z.eqb_spec z LLONG_MIN)|]; [subst; done|lia..]).
  rewrite (digits10_length (Z.abs z)) by clia.
  enough (Z.of_nat (length (digits_rev 20 (Z.abs z))) + (if z <? 0 then 1 else 0) >= dstlen)
    by (match goal with |- context [dstlen <=? ?x] => destruct (Z.leb_spec dstlen x) end; [done|lia]).
  revert Hlen. destruct (sdsll2str_cases z Hz) as [[-> ->]|[[Hp ->]|[Hn ->]]]; [cbn; lia| |];
    cbn [length]; rewrite length_rev.
  - replace (z <? 0) with false by lia. rewrite Z.abs_eq by lia. lia.
  - replace (z <? 0) with true by lia. rewrite Z.abs_neq by lia. lia.
Qed.

(** [ll2string] is equivalent to [sdsll2str]. *)
Lemma ll2string_equiv dst dstlen z :
  in_llong z -> dstlen <= Z.of_nat (length dst) ->
  ll2string dst dstlen z =
  if Z.of_nat (length (sdsll2str z)) <? dstlen then Some (sdsll2str z) else None.
Proof.
  intros Hz Hd. destruct (Z.ltb_spec (Z.of_nat (length (sdsll2str z))) dstlen).
  - by apply ll2string_sdsll2str.
  - by apply ll2string_too_small.
Qed.
