(* ===== verification/SdsText.v ===== *)
(** * Strings as text ([sds.c])

    Cutting a string ([sdsrange]), splitting a line into arguments
    ([sdssplitargs]) and printing a string in the quoted form that splitting
    reads back ([sdscatrepr]).  Here a string is the list of its bytes; a C
    string is such a list without a NUL, whose end is the terminator. *)
From Stdlib Require Import Ascii String ZArith Lia.
From stdpp Require Import base numbers list strings.
From S2P Require Import Prelude Sds.
Open Scope Z_scope.

Abbreviation bytes := (list ascii).

Create Rewrite HintDb text.

Definition CR : ascii := "013"%char.
Definition LF : ascii := "010"%char.
Definition TAB : ascii := "009"%char.
Definition DQ : ascii := "034"%char.
Definition SQ : ascii := "039"%char.
Definition BS : ascii := "092"%char.
Definition isc (x c : ascii) : bool := Ascii.eqb c x.

(** What [char *] functions see of a buffer: the bytes before the first NUL. *)
Fixpoint cstr (p : bytes) : bytes :=
  match p with
  | [] => []
  | c :: p => if isc NUL c then [] else c :: cstr p
  end.

(** The position of the first [c] before the terminator. *)
Fixpoint strchr (p : bytes) (c : ascii) : option nat :=
  match p with
  | [] => None
  | x :: p => if isc NUL x then None else if isc c x then Some 0%nat else S <$> strchr p c
  end.

(** ** Cutting *)

Definition sdsrange (s : bytes) (start stop : Z) : bytes :=
  let len := Z.of_nat (length s) in
  if len =? 0 then s
  else
    let start := if start <? 0 then (if len + start <? 0 then 0 else len + start) else start in
    let stop := if stop <? 0 then (if len + stop <? 0 then 0 else len + stop) else stop in
    let newlen := if stop <? start then 0 else stop - start + 1 in
    let '(start, newlen) :=
      if negb (newlen =? 0) then
        if len <=? start then (start, 0)
        else if len <=? stop then
          let stop := len - 1 in
          (start, if stop <? start then 0 else stop - start + 1)
        else (start, newlen)
      else (0, newlen) in
    let moved := if negb (start =? 0) && negb (newlen =? 0) then drop (Z.to_nat start) s else s in
    take (Z.to_nat newlen) moved.

(** ** Splitting *)

Definition is_hex_digit (c : ascii) : bool :=
  let n := byteZ c in
  ((48 <=? n) && (n <=? 57)) || ((97 <=? n) && (n <=? 102)) || ((65 <=? n) && (n <=? 70)).

Definition hex_digit_to_int (c : ascii) : Z :=
  let n := byteZ c in
  if (48 <=? n) && (n <=? 57) then n - 48
  else if (97 <=? n) && (n <=? 102) then n - 87
  else if (65 <=? n) && (n <=? 70) then n - 55
  else 0.

Definition byte_char (z : Z) : ascii := ascii_of_N (Z.to_N z).

(** The character after a backslash. *)
Definition unescape (c : ascii) : ascii :=
  if isc "n"%char c then LF
  else if isc "r"%char c then CR
  else if isc "t"%char c then TAB
  else if isc "b"%char c then "008"%char
  else if isc "a"%char c then "007"%char
  else c.

Inductive quoting := Plain | InQ | InSq.

(** A closing quote must be followed by a space or nothing at all. *)
Definition closes (p : bytes) : bool :=
  match p with [] => true | c :: _ => is_space c end.

(** The loop that gets one token: [None] is the jump to [err]; otherwise the
    token and what follows it.  In single quotes the tests for an escaped and
    for a closing quote exclude each other. *)
Fixpoint get_token (q : quoting) (current p : bytes) {struct p} : option (bytes * bytes) :=
  match q with
  | InQ =>
      match p with
      | [] => None
      | c :: p1 =>
          if isc BS c then
            match p1 with
            | [] => get_token InQ (current ++ [c]) p1
            | e :: p2 =>
                match p2 with
                | h :: l :: p4 =>
                    if isc "x"%char e && is_hex_digit h && is_hex_digit l then
                      get_token InQ (current ++ [byte_char (hex_digit_to_int h * 16 + hex_digit_to_int l)]) p4
                    else get_token InQ (current ++ [unescape e]) p2
                | _ => get_token InQ (current ++ [unescape e]) p2
                end
            end
          else if isc DQ c then if closes p1 then Some (current, p1) else None
          else get_token InQ (current ++ [c]) p1
      end
  | InSq =>
      match p with
      | [] => None
      | c :: p1 =>
          if isc SQ c then if closes p1 then Some (current, p1) else None
          else match p1 with
               | e :: p2 =>
                   if isc BS c && isc SQ e then get_token InSq (current ++ [SQ]) p2
                   else get_token InSq (current ++ [c]) p1
               | [] => get_token InSq (current ++ [c]) p1
               end
      end
  | Plain =>
      match p with
      | [] => Some (current, [])
      | c :: p1 =>
          if isc " "%char c || isc LF c || isc CR c || isc TAB c then Some (current, p1)
          else if isc DQ c then get_token InQ current p1
          else if isc SQ c then get_token InSq current p1
          else get_token Plain (current ++ [c]) p1
      end
  end.

(** The outer loop; the outer [None] is the end of the fuel, the inner one the
    NULL the function returns. *)
Fixpoint split_loop (fuel : nat) (vector : list sds) (p : bytes) : option (option (list sds)) :=
  match fuel with
  | O => None
  | S fuel =>
      match skip_space p with
      | [] => Some (Some vector)
      | p1 =>
          match get_token Plain [] p1 with
          | None => Some None
          | Some (current, p2) => split_loop fuel (vector ++ [of_chars current]) p2
          end
      end
  end.

Definition sdssplitargs (line : bytes) : option (list sds) :=
  let p := cstr line in
  default None (split_loop (S (length p)) [] p).

(** ** Printing *)

Definition isprint (c : ascii) : bool := (32 <=? byteZ c) && (byteZ c <=? 126).

Definition hex_lower (d : Z) : ascii := byte_char (if d <? 10 then 48 + d else 87 + d).

Definition repr_char (c : ascii) : bytes :=
  if isc BS c || isc DQ c then [BS; c]
  else if isc LF c then [BS; "n"%char]
  else if isc CR c then [BS; "r"%char]
  else if isc TAB c then [BS; "t"%char]
  else if isc "007"%char c then [BS; "a"%char]
  else if isc "008"%char c then [BS; "b"%char]
  else if isprint c then [c]
  else [BS; "x"%char; hex_lower (byteZ c / 16); hex_lower (byteZ c mod 16)].

Definition sdscatrepr (s p : bytes) : bytes := s ++ [DQ] ++ (p ≫= repr_char) ++ [DQ].

(** * Facts *)

Lemma is_true x c : isc x c = true <-> c = x.
Proof. apply Ascii.eqb_eq. Qed.
Lemma is_false x c : isc x c = false <-> c <> x.
Proof. apply Ascii.eqb_neq. Qed.
Lemma is_refl x : isc x x = true.
Proof. by apply is_true. Qed.

(** A property of one character, checked on all 256. *)
Lemma ascii_forall (P : ascii -> bool) :
  forallb P (ascii_of_nat <$> seq 0 256) = true -> forall c, P c = true.
Proof.
  intros H c. rewrite forallb_forall in H. apply H. rewrite <- list_elem_of_In, <- (ascii_nat_embedding c).
  apply list_elem_of_fmap_2, elem_of_seq. pose proof (nat_ascii_bounded c). lia.
Qed.

Lemma cstr_no_nul p : NUL ∉ p -> cstr p = p.
Proof.
  induction p as [|c p IH]; [done|]. intros Hn. cbn. rewrite not_elem_of_cons in Hn. destruct Hn as [Hc Hn].
  rewrite (proj2 (is_false NUL c)) by done. by rewrite IH.
Qed.

Lemma strchr_app h c q : NUL ∉ h -> c ∉ h -> c <> NUL ->
  strchr (h ++ c :: q) c = Some (length h).
Proof.
  intros Hn Hc Hcn. induction h as [|x h IH]; cbn.
  - by rewrite (proj2 (is_false NUL c)), is_refl.
  - rewrite not_elem_of_cons in Hn, Hc. destruct Hn as [Hx Hn], Hc as [Hcx Hc].
    rewrite (proj2 (is_false NUL x)), (proj2 (is_false c x)) by done. by rewrite IH.
Qed.
Lemma strchr_none h c : c ∉ h -> strchr h c = None.
Proof.
  induction h as [|x h IH]; [done|]. rewrite not_elem_of_cons. intros [Hx Hc]. cbn.
  destruct (isc NUL x); [done|]. rewrite (proj2 (is_false c x)) by done. by rewrite IH.
Qed.
Lemma strchr_lookup p c k : strchr p c = Some k -> p !! k = Some c /\ NUL ∉ take k p.
Proof.
  revert k. induction p as [|x p IH]; intros k; cbn; [done|].
  destruct (isc NUL x) eqn:En; [done|]. destruct (isc c x) eqn:Ec.
  - intros [= <-]. apply is_true in Ec as ->. split; [done|apply not_elem_of_nil].
  - destruct (strchr p c) as [j|]; [|done]. intros [= <-]. destruct (IH j eq_refl) as [Hl Hn].
    split; [done|]. cbn. apply not_elem_of_cons. split; [|done]. by apply is_false in En.
Qed.

(** Trimming the front, as all callers on input buffers do. *)
Lemma sdsrange_tail s (pos : nat) : sdsrange s (Z.of_nat pos) (-1) = drop pos s.
Proof.
  unfold sdsrange. destruct s as [|c s]; [by rewrite drop_nil|]. set (s' := c :: s).
  assert (0 < length s')%nat as Hl by (cbn; lia). destruct (Z.eqb_spec (Z.of_nat (length s')) 0); [lia|].
  destruct (Z.ltb_spec (Z.of_nat pos) 0); [lia|]. cbn zeta. change (-1 <? 0) with true. cbv iota.
  destruct (Z.ltb_spec (Z.of_nat (length s') + -1) 0); [lia|].
  destruct (Z.ltb_spec (Z.of_nat (length s') + -1) (Z.of_nat pos)).
  - cbn. symmetry. apply drop_ge. lia.
  - destruct (Z.eqb_spec (Z.of_nat (length s') + -1 - Z.of_nat pos + 1) 0); [lia|]. cbn [negb].
    destruct (Z.leb_spec (Z.of_nat (length s')) (Z.of_nat pos)); [lia|].
    destruct (Z.leb_spec (Z.of_nat (length s')) (Z.of_nat (length s') + -1)); [lia|].
    cbv iota beta. destruct (Z.eqb_spec (Z.of_nat (length s') + -1 - Z.of_nat pos + 1) 0); [lia|].
    destruct (Z.eqb_spec (Z.of_nat pos) 0) as [Hz|]; cbn [negb andb].
    + replace pos with 0%nat by lia. apply take_ge. cbn in *. lia.
    + rewrite Nat2Z.id. apply take_ge. rewrite length_drop. lia.
Qed.

(** ** Termination of splitting *)

Lemma get_token_shorter q cur p t r : get_token q cur p = Some (t, r) -> (length r <= length p)%nat.
Proof.
  remember (length p) as n eqn:Hn. revert q cur p Hn. induction (lt_wf n) as [n _ IH]. intros q cur p ->.
  assert (forall q' cur' p', (length p' < length p)%nat -> get_token q' cur' p' = Some (t, r) -> (length r <= length p)%nat) as Hrec.
  { intros q' cur' p' Hlt H. pose proof (IH _ Hlt q' cur' p' eq_refl H). lia. }
  clear IH. destruct p as [|c p1]; [by destruct q; cbn; intros [= <- <-]|].
  assert (forall q' cur', get_token q' cur' p1 = Some (t, r) -> (length r <= length (c :: p1))%nat) as Hrec1
    by (intros q' cur'; apply Hrec; cbn; lia).
  assert (forall b : bool, (if b then Some (cur, p1) else None) = Some (t, r) -> (length r <= length (c :: p1))%nat) as Hend
    by (intros [] [= <- <-]; cbn; lia).
  destruct q; cbn [get_token].
  - destruct (_ || _); [apply (Hend true)|]. destruct (isc DQ c); [|destruct (isc SQ c)]; apply Hrec1.
  - destruct (isc BS c); [|destruct (isc DQ c); [apply Hend|apply Hrec1]].
    destruct p1 as [|e p2]; [apply Hrec1|]. destruct p2 as [|h [|l p4]]; try destruct (_ && _); apply Hrec; cbn; lia.
  - destruct (isc SQ c); [apply Hend|]. destruct p1 as [|e p2]; [apply Hrec1|].
    destruct (_ && _); apply Hrec; cbn; lia.
Qed.

Lemma skip_space_shorter p : (length (skip_space p) <= length p)%nat.
Proof. induction p as [|c p IH]; cbn; [lia|]. destruct (is_space c); cbn; lia. Qed.
Lemma skip_space_head p c r : skip_space p = c :: r -> is_space c = false.
Proof. induction p as [|x p IH]; cbn; [done|]. destruct (is_space x) eqn:E; [done|]. by intros [= <- <-]. Qed.

(** A token takes at least its first character, which is not a space. *)
Lemma get_token_progress c p t r :
  is_space c = false -> get_token Plain [] (c :: p) = Some (t, r) -> (length r <= length p)%nat.
Proof.
  intros Hs. cbn [get_token]. destruct (isc " "%char c || isc LF c || isc CR c || isc TAB c) eqn:E.
  - exfalso. rewrite !orb_true_iff, !is_true in E. destruct E as [[[-> | ->]| ->]| ->]; done.
  - destruct (isc DQ c); [|destruct (isc SQ c)]; apply get_token_shorter.
Qed.

Lemma split_loop_total fuel v p : (length p < fuel)%nat -> split_loop fuel v p <> None.
Proof.
  revert v p. induction fuel as [|fuel IH]; intros v p Hf; [lia|]. cbn [split_loop].
  pose proof (skip_space_shorter p) as Hle. destruct (skip_space p) as [|c r] eqn:E; [done|].
  destruct (get_token Plain [] (c :: r)) as [[t r']|] eqn:Et; [|done].
  apply IH. apply get_token_progress in Et; [|by eapply skip_space_head]. cbn in Hle. lia.
Qed.

Lemma split_loop_fuel fuel fuel' v p r :
  split_loop fuel v p = Some r -> (fuel <= fuel')%nat -> split_loop fuel' v p = Some r.
Proof.
  revert fuel' v p. induction fuel as [|fuel IH]; intros fuel' v p; cbn [split_loop]; [done|].
  intros H Hle. destruct fuel' as [|fuel']; [lia|]. cbn [split_loop]. destruct (skip_space p) as [|c q]; [done|].
  destruct (get_token Plain [] (c :: q)) as [[t r']|]; [|done]. apply (IH fuel'); [done|lia].
Qed.

(** ** Printing and splitting *)

Lemma hex_ok c :
  let h := hex_lower (byteZ c / 16) in let l := hex_lower (byteZ c mod 16) in
  is_hex_digit h && is_hex_digit l && isc c (byte_char (hex_digit_to_int h * 16 + hex_digit_to_int l)) = true.
Proof. revert c. apply (ascii_forall (fun c => _)). vm_compute. reflexivity. Qed.

(** One printed character is read as that character. *)
Lemma get_token_repr cur c p : get_token InQ cur (repr_char c ++ p) = get_token InQ (cur ++ [c]) p.
Proof.
  pose proof (hex_ok c) as Hh. cbn zeta in Hh. rewrite !andb_true_iff, is_true in Hh. destruct Hh as [[H1 H2] H3].
  assert (forall e, isc "x"%char e = false -> get_token InQ cur (BS :: e :: p) = get_token InQ (cur ++ [unescape e]) p) as Hesc.
  { intros e He. cbn [get_token]. rewrite is_refl, He. cbn [andb]. destruct p as [|h [|l p4]]; done. }
  unfold repr_char. destruct (isc BS c) eqn:E1; [|destruct (isc DQ c) eqn:E2]; cbn [orb].
  - apply is_true in E1 as ->. by apply Hesc.
  - apply is_true in E2 as ->. by apply Hesc.
  - destruct (isc LF c) eqn:E3; [apply is_true in E3 as ->; by apply Hesc|].
    destruct (isc CR c) eqn:E4; [apply is_true in E4 as ->; by apply Hesc|].
    destruct (isc TAB c) eqn:E5; [apply is_true in E5 as ->; by apply Hesc|].
    destruct (isc "007"%char c) eqn:E6; [apply is_true in E6 as ->; by apply Hesc|].
    destruct (isc "008"%char c) eqn:E7; [apply is_true in E7 as ->; by apply Hesc|].
    destruct (isprint c); cbn [app get_token].
    + by rewrite E1, E2.
    + by rewrite !is_refl, H1, H2, H3.
Qed.

Lemma get_token_reprs cur s p : get_token InQ cur ((s ≫= repr_char) ++ p) = get_token InQ (cur ++ s) p.
Proof.
  revert cur. induction s as [|c s IH]; intros cur; [by rewrite app_nil_r|].
  cbn [mbind list_bind]. change (list_bind _ _ repr_char s) with (s ≫= repr_char).
  rewrite <- (app_assoc (repr_char c)), get_token_repr, IH, <- app_assoc. done.
Qed.

(** A quoted string in front of the end or a space is one token. *)
Lemma get_token_quoted s p :
  closes p = true -> get_token Plain [] (sdscatrepr [] s ++ p) = Some (s, p).
Proof.
  intros Hc. unfold sdscatrepr. cbn [app]. cbn [get_token]. change (isc " " DQ || isc LF DQ || isc CR DQ || isc TAB DQ) with false.
  cbv iota. rewrite is_refl, <- app_assoc, get_token_reprs. cbn [app get_token]. change (isc BS DQ) with false. cbv iota.
  by rewrite is_refl, Hc.
Qed.

(** Quoted strings, each after a space. *)
Definition quote_args (l : list sds) : bytes := l ≫= fun a => " "%char :: sdscatrepr [] (chars a).

Lemma closes_quote_args l : closes (quote_args l) = true.
Proof. by destruct l. Qed.

Lemma split_quoted l : forall v, split_loop (S (length l)) v (quote_args l) = Some (Some (v ++ l)).
Proof.
  induction l as [|a l IH]; intros v; [by rewrite app_nil_r|].
  change (quote_args (a :: l)) with (" "%char :: (sdscatrepr [] (chars a) ++ quote_args l)).
  change (length (a :: l)) with (S (length l)). remember (S (length l)) as n eqn:Hn.
  cbn [split_loop skip_space]. change (is_space " ") with true. cbv iota.
  assert (exists r, skip_space (sdscatrepr [] (chars a) ++ quote_args l) = DQ :: r /\ sdscatrepr [] (chars a) ++ quote_args l = DQ :: r) as (r & -> & Hr)
    by (eexists; split; reflexivity).
  rewrite <- Hr, get_token_quoted by apply closes_quote_args. rewrite of_chars_chars, IH.
  by rewrite <- app_assoc.
Qed.

Lemma repr_char_no_nul c : NUL ∉ repr_char c.
Proof.
  assert (forallb (fun x => negb (isc NUL x)) (repr_char c) = true) as H.
  { revert c. apply (ascii_forall (fun c => _)). vm_compute. reflexivity. }
  rewrite forallb_forall in H. intros Hin. apply list_elem_of_In in Hin. apply H in Hin. by rewrite is_refl in Hin.
Qed.
Lemma quote_args_no_nul l : NUL ∉ quote_args l.
Proof.
  unfold quote_args. rewrite list_elem_of_bind. intros (a & Hin & _). unfold sdscatrepr in Hin.
  cbn in Hin. rewrite !elem_of_cons, elem_of_app, list_elem_of_bind, list_elem_of_singleton in Hin.
  destruct Hin as [?|[?|[(c & Hc & _)|?]]]; try done. by apply repr_char_no_nul in Hc.
Qed.

(** What [sdscatrepr] prints, [sdssplitargs] reads. *)
Lemma sdssplitargs_quoted l : sdssplitargs (quote_args l) = Some l.
Proof.
  unfold sdssplitargs. rewrite (cstr_no_nul _ (quote_args_no_nul l)).
  rewrite (split_loop_fuel _ _ _ _ _ (split_quoted l [])); [done|].
  apply le_n_S. clear. induction l as [|a l IH]; [done|]. unfold quote_args in *. cbn [length mbind list_bind].
  rewrite length_app. cbn in *. lia.
Qed.
