(* ===== verification/ClientInput.v ===== *)
(** * Requests of clients ([networking.c])

    The query buffer of a client and the two protocols it can hold: a line of
    text, or the multi bulk form, in which a request is the number of its
    arguments and each argument is preceded by its length.  The reader gets the
    bytes of a socket in pieces of any size, parses as much as is there and runs
    every complete request.

    Running a request is the parameter [processCommand] of the last section: it
    gets the arguments, the flags of the client and the state of the server, and
    may change both.  The protocol errors are kept as the list of messages sent
    to the client. *)
From Stdlib Require Import Ascii String ZArith Lia.
From stdpp Require Import base numbers list strings.
From S2P Require Import Prelude Sds SdsText.
Open Scope Z_scope.

(** ** Limits ([server.h]) *)

Definition PROTO_IOBUF_LEN : Z := 1024 * 16.
Definition PROTO_INLINE_MAX_SIZE : Z := 1024 * 64.
Definition PROTO_MBULK_BIG_ARG : Z := 1024 * 32.
Definition MAX_MULTIBULK : Z := 1024 * 1024.

Definition PROTO_REQ_INLINE : Z := 1.
Definition PROTO_REQ_MULTIBULK : Z := 2.

(** ** State *)

(** The flags that reading requests looks at or changes. *)
Record cflags := mkFlags {
  f_slave : bool;              (* CLIENT_SLAVE *)
  f_master : bool;             (* CLIENT_MASTER *)
  f_multi : bool;              (* CLIENT_MULTI *)
  f_blocked : bool;            (* CLIENT_BLOCKED *)
  f_module : bool;             (* btype == BLOCKED_MODULE *)
  f_close_after : bool;        (* CLIENT_CLOSE_AFTER_REPLY *)
  f_close_asap : bool;         (* CLIENT_CLOSE_ASAP *)
  f_asking : bool;             (* CLIENT_ASKING *)
  f_cmd_asking : bool;         (* cmd->proc == askingCommand *)
  f_skip : bool;               (* CLIENT_REPLY_SKIP *)
  f_skip_next : bool           (* CLIENT_REPLY_SKIP_NEXT *)
}.

Record qclient := mkQ {
  querybuf : bytes;
  pending_querybuf : bytes;
  reqtype : Z;                 (* 0 when unknown *)
  multibulklen : Z;            (* arguments left to read *)
  bulklen : Z;                 (* -1 when unknown *)
  cargv : list sds;            (* argc is its length *)
  flags : cflags;
  read_reploff : Z;
  reploff : Z;
  repl_ack_time : Z;
  errs : list sds              (* newest first *)
}.

Definition set_querybuf (b : bytes) (c : qclient) : qclient :=
  mkQ b (pending_querybuf c) (reqtype c) (multibulklen c) (bulklen c) (cargv c) (flags c)
    (read_reploff c) (reploff c) (repl_ack_time c) (errs c).
Definition set_pending (b : bytes) (c : qclient) : qclient :=
  mkQ (querybuf c) b (reqtype c) (multibulklen c) (bulklen c) (cargv c) (flags c)
    (read_reploff c) (reploff c) (repl_ack_time c) (errs c).
Definition set_reqtype (r : Z) (c : qclient) : qclient :=
  mkQ (querybuf c) (pending_querybuf c) r (multibulklen c) (bulklen c) (cargv c) (flags c)
    (read_reploff c) (reploff c) (repl_ack_time c) (errs c).
Definition set_multibulklen (m : Z) (c : qclient) : qclient :=
  mkQ (querybuf c) (pending_querybuf c) (reqtype c) m (bulklen c) (cargv c) (flags c)
    (read_reploff c) (reploff c) (repl_ack_time c) (errs c).
Definition set_bulklen (b : Z) (c : qclient) : qclient :=
  mkQ (querybuf c) (pending_querybuf c) (reqtype c) (multibulklen c) b (cargv c) (flags c)
    (read_reploff c) (reploff c) (repl_ack_time c) (errs c).
Definition set_cargv (a : list sds) (c : qclient) : qclient :=
  mkQ (querybuf c) (pending_querybuf c) (reqtype c) (multibulklen c) (bulklen c) a (flags c)
    (read_reploff c) (reploff c) (repl_ack_time c) (errs c).
Definition set_cflags (f : cflags) (c : qclient) : qclient :=
  mkQ (querybuf c) (pending_querybuf c) (reqtype c) (multibulklen c) (bulklen c) (cargv c) f
    (read_reploff c) (reploff c) (repl_ack_time c) (errs c).
Definition set_read_reploff (z : Z) (c : qclient) : qclient :=
  mkQ (querybuf c) (pending_querybuf c) (reqtype c) (multibulklen c) (bulklen c) (cargv c) (flags c)
    z (reploff c) (repl_ack_time c) (errs c).
Definition set_reploff (z : Z) (c : qclient) : qclient :=
  mkQ (querybuf c) (pending_querybuf c) (reqtype c) (multibulklen c) (bulklen c) (cargv c) (flags c)
    (read_reploff c) z (repl_ack_time c) (errs c).
Definition set_ack_time (z : Z) (c : qclient) : qclient :=
  mkQ (querybuf c) (pending_querybuf c) (reqtype c) (multibulklen c) (bulklen c) (cargv c) (flags c)
    (read_reploff c) (reploff c) z (errs c).
Definition add_err (m : sds) (c : qclient) : qclient :=
  mkQ (querybuf c) (pending_querybuf c) (reqtype c) (multibulklen c) (bulklen c) (cargv c) (flags c)
    (read_reploff c) (reploff c) (repl_ack_time c) (m :: errs c).

Definition qlen (c : qclient) : Z := Z.of_nat (length (querybuf c)).
Definition argc (c : qclient) : Z := Z.of_nat (length (cargv c)).

Definition no_flags : cflags :=
  mkFlags false false false false false false false false false false false.

(** The part of [createClient] that concerns requests. *)
Definition createClient : qclient := mkQ [] [] 0 0 (-1) [] no_flags 0 0 0 [].

Definition close_after (f : cflags) : cflags :=
  mkFlags (f_slave f) (f_master f) (f_multi f) (f_blocked f) (f_module f) true (f_close_asap f)
    (f_asking f) (f_cmd_asking f) (f_skip f) (f_skip_next f).

(** [resetClient]: ready for the next request. *)
Definition reset_flags (f : cflags) : cflags :=
  let asking := if negb (f_multi f) && negb (f_cmd_asking f) then false else f_asking f in
  let skip := if f_skip_next f then true else false in
  mkFlags (f_slave f) (f_master f) (f_multi f) (f_blocked f) (f_module f) (f_close_after f) (f_close_asap f)
    asking (f_cmd_asking f) skip false.

Definition resetClient (c : qclient) : qclient :=
  mkQ (querybuf c) (pending_querybuf c) 0 0 (-1) [] (reset_flags (flags c))
    (read_reploff c) (reploff c) (repl_ack_time c) (errs c).

(** ** Errors *)

(** The message is kept, the connection will be closed and the buffer trimmed. *)
Definition setProtocolError (pos : nat) (c : qclient) : qclient :=
  let c := set_cflags (close_after (flags c)) c in
  set_querybuf (sdsrange (querybuf c) (Z.of_nat pos) (-1)) c.

Definition protocol_error (msg : sds) (pos : nat) (c : qclient) : qclient :=
  setProtocolError pos (add_err msg c).

(** [addReplyErrorFormat] replaces the ends of lines. *)
Definition flatten_lines (l : bytes) : bytes :=
  (fun c => if isc CR c || isc LF c then " "%char else c) <$> l.

Definition expected_dollar (got : ascii) : sds :=
  of_chars (flatten_lines (chars "Protocol error: expected '$', got '" ++ [got; SQ])).

(** ** The inline protocol

    [true] is C_OK. *)
Definition processInlineBuffer (unixtime : Z) (c : qclient) : bool * qclient :=
  match strchr (querybuf c) LF with
  | None =>
      (false, if PROTO_INLINE_MAX_SIZE <? qlen c
              then protocol_error "Protocol error: too big inline request" 0 c else c)
  | Some newline =>
      let newline :=
        if negb (Nat.eqb newline 0) && bool_decide (querybuf c !! (newline - 1)%nat = Some CR)
        then (newline - 1)%nat else newline in
      let querylen := newline in
      match sdssplitargs (take querylen (querybuf c)) with
      | None => (false, protocol_error "Protocol error: unbalanced quotes in request" 0 c)
      | Some argv =>
          let c := if Nat.eqb querylen 0 && f_slave (flags c) then set_ack_time unixtime c else c in
          let c := set_querybuf (sdsrange (querybuf c) (Z.of_nat querylen + 2) (-1)) c in
          (true, set_cargv (base.filter (fun a => a <> EmptyString) argv) c)
      end
  end.

(** ** The multi bulk protocol *)

Section Multibulk.
Context (proto_max_bulk_len : Z).

(** What reading a header leaves: more bytes are needed, the request is
    refused, or the position after it. *)
Inductive header :=
  | H_more
  | H_refused (c : qclient)
  | H_read (pos : nat) (c : qclient).

(** The text of a number between a type byte at [pos] and the end of line. *)
Definition number_at (pos newline : nat) (c : qclient) : option Z :=
  string2ll (of_chars (take (newline - (pos + 1)) (drop (pos + 1) (querybuf c)))).

(** The length of the next argument, read when it is unknown. *)
Definition read_bulklen (pos : nat) (c : qclient) : header :=
  if negb (bulklen c =? -1) then H_read pos c
  else
    match strchr (drop pos (querybuf c)) CR with
    | None =>
        if PROTO_INLINE_MAX_SIZE <? qlen c
        then H_refused (protocol_error "Protocol error: too big bulk count string" 0 c)
        else H_more
    | Some k =>
        let newline := (pos + k)%nat in
        if to_int (qlen c) - 2 <? Z.of_nat newline then H_more
        else
          match querybuf c !! pos with
          | None => H_more
          | Some t =>
              if negb (isc "$"%char t) then H_refused (protocol_error (expected_dollar t) pos c)
              else
                match number_at pos newline c with
                | Some ll =>
                    if (ll <? 0) || (proto_max_bulk_len <? ll)
                    then H_refused (protocol_error "Protocol error: invalid bulk length" pos c)
                    else
                      let pos := (newline + 2)%nat in
                      if PROTO_MBULK_BIG_ARG <=? ll
                      then H_read 0 (set_bulklen ll (set_querybuf (sdsrange (querybuf c) (Z.of_nat pos) (-1)) c))
                      else H_read pos (set_bulklen ll c)
                | None => H_refused (protocol_error "Protocol error: invalid bulk length" pos c)
                end
          end
    end.

(** The next argument is complete.  When the buffer holds just a big one, it
    becomes the argument as it is. *)
Definition take_bulk (pos : nat) (c : qclient) : nat * qclient :=
  let len := Z.to_nat (bulklen c) in
  if Nat.eqb pos 0 && (PROTO_MBULK_BIG_ARG <=? bulklen c) && (qlen c =? bulklen c + 2)
  then (0%nat, set_querybuf [] (set_cargv (cargv c ++ [of_chars (take (length (querybuf c) - 2) (querybuf c))]) c))
  else ((pos + len + 2)%nat, set_cargv (cargv c ++ [of_chars (take len (drop pos (querybuf c)))]) c).

(** The loop over the arguments, [n] of them left: [None] is the return of an
    error, otherwise the position up to which the buffer was read. *)
Fixpoint read_bulks (n pos : nat) (c : qclient) : option nat * qclient :=
  match n with
  | O => (Some pos, c)
  | S n =>
      match read_bulklen pos c with
      | H_more => (Some pos, c)
      | H_refused c => (None, c)
      | H_read pos c =>
          if qlen c - Z.of_nat pos <? bulklen c + 2 then (Some pos, c)
          else
            let '(pos, c) := take_bulk pos c in
            read_bulks n pos (set_multibulklen (multibulklen c - 1) (set_bulklen (-1) c))
      end
  end.

(** The number of arguments, read when none is left.  [None] is a failed
    assertion; the second form ends the function with its result. *)
Inductive count :=
  | C_read (pos : nat) (c : qclient)
  | C_end (ok : bool) (c : qclient).

Definition read_count (c : qclient) : option count :=
  if negb (multibulklen c =? 0) then Some (C_read 0 c)
  else if negb (argc c =? 0) then None
  else
    match strchr (querybuf c) CR with
    | None =>
        Some (C_end false (if PROTO_INLINE_MAX_SIZE <? qlen c
                           then protocol_error "Protocol error: too big mbulk count string" 0 c else c))
    | Some newline =>
        if to_int (qlen c) - 2 <? Z.of_nat newline then Some (C_end false c)
        else if negb (bool_decide (head (querybuf c) = Some "*"%char)) then None
        else
          match number_at 0 newline c with
          | Some ll =>
              if MAX_MULTIBULK <? ll
              then Some (C_end false (protocol_error "Protocol error: invalid multibulk length" 0 c))
              else
                let pos := (newline + 2)%nat in
                if ll <=? 0 then Some (C_end true (set_querybuf (sdsrange (querybuf c) (Z.of_nat pos) (-1)) c))
                else Some (C_read pos (set_multibulklen ll c))
          | None => Some (C_end false (protocol_error "Protocol error: invalid multibulk length" 0 c))
          end
    end.

(** The arguments from [pos] on; what was read is then cut off the buffer. *)
Definition read_args (pos : nat) (c : qclient) : bool * qclient :=
  match read_bulks (Z.to_nat (multibulklen c)) pos c with
  | (None, c) => (false, c)
  | (Some pos, c) =>
      let c := if negb (Nat.eqb pos 0) then set_querybuf (sdsrange (querybuf c) (Z.of_nat pos) (-1)) c else c in
      (multibulklen c =? 0, c)
  end.

(** [None] is a failed assertion. *)
Definition processMultibulkBuffer (c : qclient) : option (bool * qclient) :=
  match read_count c with
  | None => None
  | Some (C_end ok c) => Some (ok, c)
  | Some (C_read pos c) => if negb (0 <? multibulklen c) then None else Some (read_args pos c)
  end.
End Multibulk.

(** ** Running requests *)

(** What [processCommand] leaves: its result ([true] is C_OK), the flags of the
    client, and whether the client was freed meanwhile. *)
Record presult := mkP { p_ok : bool; p_flags : cflags; p_gone : bool }.

Section Run.
Context {S : Type} (processCommand : list sds -> cflags -> S -> presult * S).
Context (clientsArePaused : S -> bool).
Context (proto_max_bulk_len client_max_querybuf_len unixtime : Z).

(** One request was parsed: run it. *)
Definition run_request (c : qclient) (s : S) : bool * qclient * S :=
  if argc c =? 0 then (true, resetClient c, s)
  else
    let '(r, s) := processCommand (cargv c) (flags c) s in
    let c := set_cflags (p_flags r) c in
    let c :=
      if p_ok r then
        let c := if f_master (flags c) && negb (f_multi (flags c)) then set_reploff (read_reploff c - qlen c) c else c in
        if negb (f_blocked (flags c)) || negb (f_module (flags c)) then resetClient c else c
      else c in
    (negb (p_gone r), c, s).

(** The conditions under which no further request is parsed. *)
Definition on_hold (c : qclient) (s : S) : bool :=
  (negb (f_slave (flags c)) && clientsArePaused s) || f_blocked (flags c) ||
  f_close_after (flags c) || f_close_asap (flags c).

(** Every request takes bytes of the buffer: its length is enough fuel. *)
Fixpoint processInputBuffer (fuel : nat) (c : qclient) (s : S) : outcome S qclient :=
  match fuel with
  | O => OutOfFuel
  | Datatypes.S fuel =>
      if qlen c =? 0 then Done c s
      else if on_hold c s then Done c s
      else
        let c :=
          if reqtype c =? 0 then
            set_reqtype (if bool_decide (head (querybuf c) = Some "*"%char) then PROTO_REQ_MULTIBULK else PROTO_REQ_INLINE) c
          else c in
        match (if reqtype c =? PROTO_REQ_INLINE then Some (processInlineBuffer unixtime c)
               else if reqtype c =? PROTO_REQ_MULTIBULK then processMultibulkBuffer proto_max_bulk_len c
               else None) with
        | None => Crash
        | Some (false, c) => Done c s
        | Some (true, c) =>
            let '(go, c, s) := run_request c s in
            if go then processInputBuffer fuel c s else Done c s
        end
  end.

(** ** Reading *)

(** How much to read: not beyond the end of a big argument. *)
Definition readlen (c : qclient) : Z :=
  if (reqtype c =? PROTO_REQ_MULTIBULK) && negb (multibulklen c =? 0) && negb (bulklen c =? -1) &&
     (PROTO_MBULK_BIG_ARG <=? bulklen c)
  then let remaining := bulklen c + 2 - qlen c in
       if remaining <? PROTO_IOBUF_LEN then remaining else PROTO_IOBUF_LEN
  else PROTO_IOBUF_LEN.

(** What [read] on the socket returns. *)
Inductive nread := N_data (b : bytes) | N_again | N_error | N_eof.

(** [None] for the client when it was freed; the last result is what is passed
    on to the replicas of a replica. *)
Definition readQueryFromClient (n : nread) (c : qclient) (s : S) : outcome S (option qclient * bytes) :=
  match n with
  | N_again => Done (Some c, []) s
  | N_error | N_eof => Done (None, []) s
  | N_data b =>
      let c := if f_master (flags c) then set_pending (pending_querybuf c ++ b) c else c in
      let c := set_querybuf (querybuf c ++ b) c in
      let c := if f_master (flags c) then set_read_reploff (read_reploff c + Z.of_nat (length b)) c else c in
      if client_max_querybuf_len <? qlen c then Done (None, []) s
      else if negb (f_master (flags c)) then
        match processInputBuffer (Datatypes.S (length (querybuf c))) c s with
        | Done c s => Done (Some c, []) s
        | Return s => Return s
        | Crash => Crash
        | OutOfFuel => OutOfFuel
        end
      else
        let prev_offset := reploff c in
        match processInputBuffer (Datatypes.S (length (querybuf c))) c s with
        | Done c s =>
            let applied := reploff c - prev_offset in
            if negb (applied =? 0)
            then Done (Some (set_pending (sdsrange (pending_querybuf c) applied (-1)) c),
                       take (Z.to_nat applied) (pending_querybuf c)) s
            else Done (Some c, []) s
        | Return s => Return s
        | Crash => Crash
        | OutOfFuel => OutOfFuel
        end
  end.
End Run.
