(* ===== verification/ClientStream.v ===== *)
(** * Requests through a stream

    A stream of requests in the multi bulk form reaches the server in pieces of
    any size.  [enc_cmd] is the form of one request; [expects] says where in the
    stream a client stands.  The functions of [ClientInput] run exactly the
    requests of the stream, in order, whatever the pieces are, and no stream of
    bytes makes them fail an assertion. *)
From Stdlib Require Import Ascii String ZArith Lia.
From stdpp Require Import base numbers list strings.
From S2P Require Import Prelude Sds SdsText ClientInput.
Open Scope Z_scope.

(** ** The form of a request *)

Definition crlf : bytes := [CR; LF].
Definition slen (a : sds) : nat := length (chars a).
Definition enc_num (t : ascii) (n : nat) : bytes := t :: sdsll2str (Z.of_nat n) ++ crlf.
Definition enc_bulk (a : sds) : bytes := enc_num "$" (slen a) ++ chars a ++ crlf.
Definition enc_cmd (args : list sds) : bytes := enc_num "*" (length args) ++ (args ≫= enc_bulk).

(** ** Lists *)

(** Of two ways to cut the same list, one is at least as long. *)
Lemma split_prefix {A} (q F h T : list A) :
  q ++ F = h ++ T ->
  (exists q', q = h ++ q' /\ q' ++ F = T) \/ (exists r, h = q ++ r /\ r <> [] /\ F = r ++ T).
Proof.
  intros H. apply app_eq_app in H as (k & [[-> ->]|[-> ->]]); [by left; exists k|].
  destruct k as [|x k]; [left; exists []; by rewrite !app_nil_r|right; by exists (x :: k)].
Qed.

Lemma num_char_line n : let l := sdsll2str n in (NUL ∉ l) /\ (CR ∉ l) /\ (LF ∉ l).
Proof.
  pose proof (sdsll2str_chars n) as Hd. rewrite Forall_forall in Hd. cbn zeta.
  split_and!; intros Hin; destruct (Hd _ Hin) as [?|?]; done.
Qed.

Lemma enc_num_length t n : length (enc_num t n) = (length (sdsll2str (Z.of_nat n)) + 3)%nat.
Proof. unfold enc_num. cbn. rewrite length_app. cbn. lia. Qed.

(** Small numbers have short texts. *)
Lemma digits_rev_length_le f : forall v k, 0 <= v < 10 ^ Z.of_nat k -> (0 < k)%nat -> (length (digits_rev f v) <= k)%nat.
Proof.
  induction f as [|f IH]; intros v k Hv Hk; [cbn; lia|]. cbn [digits_rev].
  destruct (v / 10 =? 0) eqn:E; [cbn; lia|]. cbn [length]. destruct k as [|[|k]]; [lia| |].
  - exfalso. apply Z.eqb_neq in E. apply E. apply Z.div_small. change (10 ^ Z.of_nat 1) with 10 in Hv. lia.
  - apply le_n_S, IH; [|lia]. by apply div10_pow.
Qed.
Lemma int_length z : in_int z -> (length (sdsll2str z) <= 11)%nat.
Proof.
  intros Hz. unfold in_int, INT_MIN, INT_MAX in Hz. unfold sdsll2str. rewrite length_rev. destruct (Z.ltb_spec z 0).
  - rewrite to_ullong_id by (unfold in_ullong, ULLONG_MAX; lia). rewrite length_app.
    pose proof (digits_rev_length_le 20 (- z) 10) as Hl. change (10 ^ Z.of_nat 10) with 10000000000 in Hl.
    specialize (Hl ltac:(lia) ltac:(lia)). cbn [length]. lia.
  - pose proof (digits_rev_length_le 20 z 10) as Hl. change (10 ^ Z.of_nat 10) with 10000000000 in Hl.
    specialize (Hl ltac:(lia) ltac:(lia)). lia.
Qed.
Lemma enc_num_short t n : Z.of_nat n <= INT_MAX -> (length (enc_num t n) <= 14)%nat.
Proof.
  intros Hn. rewrite enc_num_length. pose proof (int_length (Z.of_nat n)) as Hl.
  unfold in_int, INT_MIN in Hl. specialize (Hl ltac:(lia)). lia.
Qed.

(** ** Reading a header *)

(** A cut header: there is no end of line yet, or its second byte is missing. *)
Lemma cut_header t n q r :
  t <> NUL -> t <> CR -> enc_num t n = q ++ r -> r <> [] ->
  strchr q CR = None \/ (strchr q CR = Some (length q - 1)%nat /\ (0 < length q)%nat).
Proof.
  intros Ht Htc Hq Hr. destruct (num_char_line (Z.of_nat n)) as (Hn & Hc & _).
  change (enc_num t n) with ((t :: sdsll2str (Z.of_nat n)) ++ CR :: [LF]) in Hq. symmetry in Hq.
  apply split_prefix in Hq as [(q' & -> & Hq')|(h' & Hh & _)].
  - destruct q' as [|x q'].
    + left. rewrite app_nil_r. apply strchr_none. rewrite not_elem_of_cons. done.
    + right. assert (x = CR /\ q' = []) as [-> ->].
      { destruct q' as [|y [|z q']]; cbn in Hq'; simplify_eq; done. }
      rewrite strchr_app; [|by rewrite not_elem_of_cons..|done]. rewrite length_app. cbn. split; [f_equal; lia|lia].
  - left. apply strchr_none. intros Hin. assert (CR ∈ t :: sdsll2str (Z.of_nat n)) as Hin'
      by (rewrite Hh; apply elem_of_app; by left).
    rewrite elem_of_cons in Hin'. naive_solver.
Qed.
Lemma whole_header t n q :
  t <> NUL -> t <> CR -> strchr (enc_num t n ++ q) CR = Some (length (enc_num t n) - 2)%nat.
Proof.
  intros Ht Htc. destruct (num_char_line (Z.of_nat n)) as (Hn & Hc & _).
  change (enc_num t n ++ q) with ((t :: (sdsll2str (Z.of_nat n) ++ crlf)) ++ q).
  replace ((t :: (sdsll2str (Z.of_nat n) ++ crlf)) ++ q) with ((t :: sdsll2str (Z.of_nat n)) ++ CR :: LF :: q)
    by (cbn; by rewrite <- app_assoc).
  rewrite strchr_app; [|by rewrite not_elem_of_cons..|done]. rewrite enc_num_length. cbn. f_equal. lia.
Qed.
Lemma number_whole t n q pos c :
  Z.of_nat n <= LLONG_MAX -> drop pos (querybuf c) = enc_num t n ++ q ->
  number_at pos (pos + (length (enc_num t n) - 2)) c = Some (Z.of_nat n).
Proof.
  intros Hn Hq. unfold number_at. 
  replace (drop (pos + 1) (querybuf c)) with (sdsll2str (Z.of_nat n) ++ crlf ++ q)
    by (rewrite <- drop_drop, Hq; cbn; by rewrite <- app_assoc).
  rewrite take_app_length' by (rewrite enc_num_length; lia).
  apply (string2ll_print (Z.of_nat n)). clia.
Qed.

Lemma set_querybuf_same c : set_querybuf (querybuf c) c = c.
Proof. by destruct c. Qed.
Lemma to_int_qlen c : qlen c <= PROTO_INLINE_MAX_SIZE -> to_int (qlen c) = qlen c.
Proof. intros H. apply to_int_id. unfold in_int, INT_MIN, INT_MAX, PROTO_INLINE_MAX_SIZE, qlen in *. lia. Qed.

Section Stream.
Context (maxbulk : Z) (Hmax : maxbulk + 2 <= INT_MAX).

Lemma read_bulklen_spec pos c a F T :
  bulklen c = -1 -> qlen c <= PROTO_INLINE_MAX_SIZE -> Z.of_nat (slen a) <= maxbulk ->
  drop pos (querybuf c) ++ F = enc_bulk a ++ T ->
  (read_bulklen maxbulk pos c = H_more /\ F <> [] /\ (length (drop pos (querybuf c)) <= 14)%nat) \/
  (exists pos' qb', read_bulklen maxbulk pos c = H_read pos' (set_bulklen (Z.of_nat (slen a)) (set_querybuf qb' c)) /\
     drop pos' qb' ++ F = chars a ++ crlf ++ T /\ (length qb' <= length (querybuf c))%nat /\
     (PROTO_MBULK_BIG_ARG <= Z.of_nat (slen a) -> pos' = 0%nat)).
Proof using Hmax.
  intros Hb Hq Ha Hs. unfold enc_bulk in Hs. rewrite <- !app_assoc in Hs. unfold read_bulklen. rewrite Hb. cbn [negb Z.eqb].
  rewrite (to_int_qlen c Hq). destruct (split_prefix _ _ _ _ Hs) as [(q' & Hd & Hq')|(r & Hh & Hr & HF)].
  - right. rewrite Hd, whole_header by done. pose proof (f_equal length Hd) as Hl. rewrite length_drop, length_app in Hl.
    assert (querybuf c !! pos = Some "$"%char) as Hlk.
    { rewrite <- (Nat.add_0_r pos), <- lookup_drop, Hd. reflexivity. }
    destruct (Z.ltb_spec (qlen c - 2) (Z.of_nat (pos + (length (enc_num "$" (slen a)) - 2)))) as [Hlt|Hge].
    { unfold qlen in Hlt. rewrite enc_num_length in *. lia. }
    rewrite Hlk. change (isc "$" "$") with true. cbn [negb]. unfold INT_MAX in Hmax.
    rewrite (number_whole "$" (slen a) q' pos c) by (exact Hd || (unfold LLONG_MAX; lia)).
    destruct (Z.ltb_spec (Z.of_nat (slen a)) 0); [lia|]. destruct (Z.ltb_spec maxbulk (Z.of_nat (slen a))); [lia|]. cbn [orb].
    set (p := (pos + (length (enc_num "$" (slen a)) - 2) + 2)%nat).
    assert (drop p (querybuf c) = q') as Hp.
    { unfold p. replace (pos + (length (enc_num "$" (slen a)) - 2) + 2)%nat with (pos + length (enc_num "$" (slen a)))%nat
        by (rewrite enc_num_length; lia). rewrite <- drop_drop, Hd. apply drop_app_length. }
    rewrite sdsrange_tail. destruct (Z.leb_spec PROTO_MBULK_BIG_ARG (Z.of_nat (slen a))) as [Hbig|Hsm].
    + exists 0%nat, (drop p (querybuf c)). rewrite drop_0, Hp. split_and!; [done|done| |done].
      rewrite <- Hp, length_drop. lia.
    + exists p, (querybuf c). rewrite set_querybuf_same, Hp. split_and!; [done|done|lia|lia].
  - left. destruct (cut_header "$" (slen a) _ r ltac:(done) ltac:(done) Hh Hr) as [-> | [-> Hpos]].
    + unfold qlen, PROTO_INLINE_MAX_SIZE in *. destruct (Z.ltb_spec (1024 * 64) (Z.of_nat (length (querybuf c)))); [lia|].
      split_and!; [done|rewrite HF; by destruct r|]. pose proof (f_equal length Hh) as Hl. rewrite length_app in Hl.
      pose proof (enc_num_short "$" (slen a)). unfold INT_MAX in *. lia.
    + rewrite length_drop in *. destruct (Z.ltb_spec (qlen c - 2) (Z.of_nat (pos + (length (querybuf c) - pos - 1)))) as [Hlt|Hge];
        [|unfold qlen in *; lia].
      split_and!; [done|rewrite HF; by destruct r|]. pose proof (f_equal length Hh) as Hl. rewrite length_app, length_drop in Hl.
      pose proof (enc_num_short "$" (slen a)). unfold INT_MAX in *. lia.
Qed.

(** Where a client that still reads the arguments [rest] stands: in front of the
    next length, or behind it.  [F] are the bytes not received yet, [T] what
    follows the request. *)
Inductive awaits (c : qclient) (pos : nat) (F T : bytes) : list sds -> Prop :=
  | A_header rest :
      bulklen c = -1 -> drop pos (querybuf c) ++ F = (rest ≫= enc_bulk) ++ T -> awaits c pos F T rest
  | A_inside a rest :
      bulklen c = Z.of_nat (slen a) -> (PROTO_MBULK_BIG_ARG <= bulklen c -> pos = 0%nat) ->
      drop pos (querybuf c) ++ F = chars a ++ crlf ++ (rest ≫= enc_bulk) ++ T -> awaits c pos F T (a :: rest).

(** The size of the buffer before and after it was read. *)
Definition fits (c : qclient) (pos : nat) : Prop :=
  qlen c <= PROTO_INLINE_MAX_SIZE \/ (pos = 0%nat /\ PROTO_MBULK_BIG_ARG <= bulklen c /\ qlen c <= bulklen c + 2).
Definition small (c : qclient) (pos : nat) : Prop :=
  Z.of_nat (length (drop pos (querybuf c))) < PROTO_MBULK_BIG_ARG + 2 \/
  (pos = 0%nat /\ PROTO_MBULK_BIG_ARG <= bulklen c /\ qlen c < bulklen c + 2).

(** What parsing does not touch. *)
Definition frame (c : qclient) :=
  (pending_querybuf c, reqtype c, flags c, (read_reploff c, reploff c, repl_ack_time c), errs c).

Lemma take_bulk_spec pos c a F X :
  bulklen c = Z.of_nat (slen a) -> bulklen c + 2 <= qlen c - Z.of_nat pos ->
  drop pos (querybuf c) ++ F = chars a ++ crlf ++ X ->
  exists pos' c', take_bulk pos c = (pos', c') /\ cargv c' = cargv c ++ [a] /\ drop pos' (querybuf c') ++ F = X /\
    frame c' = frame c /\ multibulklen c' = multibulklen c /\ (fits c pos -> qlen c' <= PROTO_INLINE_MAX_SIZE).
Proof.
  intros Hb Hl Hs. assert (exists q', drop pos (querybuf c) = chars a ++ crlf ++ q' /\ q' ++ F = X) as (q' & Hd & Hq').
  { rewrite app_assoc in Hs. destruct (split_prefix _ _ _ _ Hs) as [(q' & Hd & Hq')|(r & Hh & Hr & _)].
    - exists q'. by rewrite app_assoc.
    - exfalso. pose proof (f_equal length Hh) as Hl'. rewrite !length_app, length_drop in Hl'.
      assert (length r <> 0%nat) by (by destruct r). unfold qlen, slen, crlf in *. cbn in Hl'. lia. }
  pose proof (f_equal length Hd) as Hld. rewrite length_drop, !length_app in Hld. unfold take_bulk.
  destruct (Nat.eqb_spec pos 0) as [Hp|Hp], (Z.leb_spec PROTO_MBULK_BIG_ARG (bulklen c)) as [Hbig|Hbig],
    (Z.eqb_spec (qlen c) (bulklen c + 2)) as [He|He]; cbn [andb].
  1: { subst pos. rewrite drop_0 in Hd. unfold crlf in *. cbn [length] in Hld.
    assert (q' = []) as -> by (apply nil_length_inv; unfold qlen, slen in *; lia).
    eexists _, _. split; [reflexivity|]. cbn. split_and!; try done.
    rewrite Hd. rewrite take_app_length' by (rewrite length_app; cbn; lia). by rewrite of_chars_chars. }
  all: eexists _, _; split; [reflexivity|]; cbn [cargv querybuf set_cargv multibulklen]; split_and!; try done.
  all: try (rewrite Hd, Hb, Nat2Z.id; unfold slen; rewrite take_app_length; by rewrite of_chars_chars).
  all: try (rewrite Hb, Nat2Z.id, <- Nat.add_assoc, <- drop_drop, Hd; unfold slen;
    rewrite app_assoc, drop_app_length' by (rewrite length_app; cbn; lia); done).
  all: intros [Hf|(Hp0 & Hb0 & Hf)]; [exact Hf|exfalso; subst; unfold qlen in *; lia].
Qed.

Definition arg_ok (a : sds) : Prop := Z.of_nat (slen a) <= maxbulk.

(** What the loop over the arguments [rest] leaves. *)
Definition bulks_read (c : qclient) (rest : list sds) (F T : bytes) (r : option nat * qclient) : Prop :=
  exists pos' c' read todo, r = (Some pos', c') /\ rest = read ++ todo /\ cargv c' = cargv c ++ read /\
    multibulklen c' = Z.of_nat (length todo) /\ frame c' = frame c /\ awaits c' pos' F T todo /\
    (todo = [] -> qlen c' <= PROTO_INLINE_MAX_SIZE) /\ (todo <> [] -> F <> [] /\ small c' pos').

(** It stops in front of the arguments [rest]. *)
Lemma bulks_stop c0 c pos rest F T :
  cargv c = cargv c0 -> multibulklen c = Z.of_nat (length rest) -> frame c = frame c0 -> awaits c pos F T rest ->
  rest <> [] -> F <> [] -> small c pos -> bulks_read c0 rest F T (Some pos, c).
Proof.
  intros Ha Hm Hf Hw Hr HF Hs. exists pos, c, [], rest. rewrite app_nil_r. split_and!; try done.
Qed.

Lemma inside_stop pos c a rest F T :
  bulklen c = Z.of_nat (slen a) -> (PROTO_MBULK_BIG_ARG <= bulklen c -> pos = 0%nat) ->
  drop pos (querybuf c) ++ F = chars a ++ crlf ++ (rest ≫= enc_bulk) ++ T ->
  qlen c - Z.of_nat pos < bulklen c + 2 -> F <> [] /\ small c pos.
Proof.
  intros Hb Hbig Hs Hl. split.
  - intros ->. apply (f_equal length) in Hs. rewrite app_nil_r, !length_app, length_drop in Hs.
    unfold qlen, slen, crlf in *. cbn in Hs. lia.
  - unfold small. rewrite length_drop. destruct (Z.le_gt_cases PROTO_MBULK_BIG_ARG (bulklen c)) as [H|H].
    + right. rewrite (Hbig H) in *. split_and!; [done|done|lia].
    + left. unfold qlen, slen, PROTO_MBULK_BIG_ARG in *. lia.
Qed.

Lemma read_bulks_spec rest : forall pos c F T,
  Forall arg_ok rest -> multibulklen c = Z.of_nat (length rest) -> awaits c pos F T rest -> fits c pos ->
  bulks_read c rest F T (read_bulks maxbulk (length rest) pos c).
Proof using Hmax.
  induction rest as [|a rest IH]; intros pos c F T Hok Hm Hw Hf.
  { exists pos, c, [], []. inversion Hw as [? Hb|]; subst. split_and!; try done; [by rewrite app_nil_r|].
    intros _. destruct Hf as [Hf|(_ & Hb' & _)]; [done|]. unfold PROTO_MBULK_BIG_ARG in *. lia. }
  apply Forall_cons_1 in Hok as [Ha Hok].
  assert (forall pos1 c1, cargv c1 = cargv c -> multibulklen c1 = multibulklen c -> frame c1 = frame c ->
    bulklen c1 = Z.of_nat (slen a) -> (PROTO_MBULK_BIG_ARG <= bulklen c1 -> pos1 = 0%nat) ->
    drop pos1 (querybuf c1) ++ F = chars a ++ crlf ++ (rest ≫= enc_bulk) ++ T -> fits c1 pos1 ->
    bulks_read c (a :: rest) F T
      (if qlen c1 - Z.of_nat pos1 <? bulklen c1 + 2 then (Some pos1, c1)
       else let '(pos, c) := take_bulk pos1 c1 in
            read_bulks maxbulk (length rest) pos (set_multibulklen (multibulklen c - 1) (set_bulklen (-1) c)))) as Hin.
  { intros pos1 c1 Hca Hcm Hcf Hb Hbig Hs Hfit. destruct (Z.ltb_spec (qlen c1 - Z.of_nat pos1) (bulklen c1 + 2)) as [Hlt|Hge].
    - destruct (inside_stop pos1 c1 a rest F T Hb Hbig Hs Hlt) as [HF Hsm].
      apply bulks_stop; try done; [by rewrite Hcm|by apply A_inside].
    - destruct (take_bulk_spec pos1 c1 a F _ Hb Hge Hs) as (pos2 & c2 & -> & Hca2 & Hs2 & Hf2 & Hm2 & Hq2).
      destruct (IH pos2 (set_multibulklen (multibulklen c2 - 1) (set_bulklen (-1) c2)) F T Hok) as
        (pos' & c' & read & todo & Hr & -> & Ha' & Hm' & Hf' & Hrest).
      + cbn. cbn [length] in Hm. lia.
      + by apply A_header.
      + left. by apply Hq2.
      + exists pos', c', (a :: read), todo. rewrite Ha'. cbn [cargv set_multibulklen set_bulklen].
        rewrite Hca2, Hca, <- app_assoc. split_and!; try done; [|apply Hrest..].
        rewrite Hf'. change (frame (set_multibulklen _ (set_bulklen _ c2))) with (frame c2). congruence. }
  cbn [length read_bulks]. inversion Hw as [? Hb Hs|? ? Hb Hbig Hs]; subst.
  - assert (qlen c <= PROTO_INLINE_MAX_SIZE) as Hq.
    { destruct Hf as [?|(_ & Hb' & _)]; [done|]. unfold PROTO_MBULK_BIG_ARG in *. lia. }
    change ((a :: rest) ≫= enc_bulk) with (enc_bulk a ++ (rest ≫= enc_bulk)) in Hs. rewrite <- app_assoc in Hs.
    destruct (read_bulklen_spec pos c a F _ Hb Hq Ha Hs) as [(-> & HF & Hl)|(pos1 & qb & -> & Hs1 & Hl & Hbig)].
    + apply bulks_stop; try done. left. unfold PROTO_MBULK_BIG_ARG. lia.
    + apply Hin; try done. left. unfold qlen in *. cbn. lia.
  - unfold read_bulklen. replace (bulklen c =? -1) with false by lia. cbn [negb]. by apply Hin.
Qed.

(** ** One request *)

Definition cmd_ok (args : list sds) : Prop :=
  args <> [] /\ Z.of_nat (length args) <= MAX_MULTIBULK /\ Forall arg_ok args.

(** The client stands in a stream in which [cmds] are still to be run: between
    two requests, or inside the arguments of the first. *)
Inductive expects (c : qclient) (F : bytes) : list (list sds) -> Prop :=
  | E_idle cmds :
      reqtype c = 0 \/ reqtype c = PROTO_REQ_MULTIBULK -> multibulklen c = 0 -> bulklen c = -1 -> cargv c = [] ->
      querybuf c ++ F = (cmds ≫= enc_cmd) -> expects c F cmds
  | E_args read todo cmds :
      reqtype c = PROTO_REQ_MULTIBULK -> todo <> [] -> multibulklen c = Z.of_nat (length todo) -> cargv c = read ->
      awaits c 0 F (cmds ≫= enc_cmd) todo -> expects c F ((read ++ todo) :: cmds).

Definition trimmed (pos : nat) (c : qclient) : qclient := set_querybuf (drop pos (querybuf c)) c.

Lemma trim_eq pos c :
  (if negb (Nat.eqb pos 0) then set_querybuf (sdsrange (querybuf c) (Z.of_nat pos) (-1)) c else c) = trimmed pos c.
Proof.
  unfold trimmed. rewrite sdsrange_tail. destruct (Nat.eqb_spec pos 0) as [->|]; cbn [negb]; [|done].
  by rewrite drop_0, set_querybuf_same.
Qed.
Lemma trimmed_awaits pos c F T rest : awaits c pos F T rest -> awaits (trimmed pos c) 0 F T rest.
Proof. intros [? Hb Hs|? ? Hb Hbig Hs]; [apply A_header|apply A_inside]; done. Qed.
Lemma trimmed_small pos c : small c pos -> small (trimmed pos c) 0.
Proof. intros [H|(-> & Hb & Hl)]; [by left|right]. unfold trimmed. by rewrite drop_0, set_querybuf_same. Qed.

(** The bytes of arguments still to be read. *)
Lemma awaits_bytes c F T rest :
  awaits c 0 F T rest -> rest <> [] -> exists x, querybuf c ++ F = x ++ T /\ (0 < length x)%nat.
Proof.
  intros [l Hb Hs|a l Hb _ Hs] Hr; rewrite drop_0 in Hs.
  - exists (l ≫= enc_bulk). split; [done|]. destruct l as [|a l]; [done|]. cbn. lia.
  - exists (chars a ++ crlf ++ (l ≫= enc_bulk)). split; [by rewrite <- !app_assoc|]. rewrite !length_app. cbn. lia.
Qed.

(** The two ends of reading one request. *)
Definition request_read (c : qclient) (F : bytes) (cmds : list (list sds)) (r : bool * qclient) : Prop :=
  let '(ok, c') := r in
  frame c' = frame c /\
  if ok then exists args cmds', cmds = args :: cmds' /\ cargv c' = args /\
                querybuf c' ++ F = (cmds' ≫= enc_cmd) /\ qlen c' <= PROTO_INLINE_MAX_SIZE
  else expects c' F cmds /\ F <> [] /\ small c' 0.

Lemma bulks_request c0 c pos read rest cmds F :
  frame c = frame c0 -> reqtype c = PROTO_REQ_MULTIBULK -> Forall arg_ok rest -> multibulklen c = Z.of_nat (length rest) ->
  cargv c = read -> awaits c pos F (cmds ≫= enc_cmd) rest -> fits c pos ->
  request_read c0 F ((read ++ rest) :: cmds) (read_args maxbulk pos c).
Proof using Hmax.
  intros Hfr Hrt Hok Hm Ha Hw Hf. unfold read_args. rewrite Hm, Nat2Z.id.
  destruct (read_bulks_spec rest pos c F _ Hok Hm Hw Hf) as
    (pos' & c' & read' & todo & -> & -> & Ha' & Hm' & Hf' & Hw' & Hdone & Hmore).
  cbv zeta. rewrite trim_eq. change (multibulklen (trimmed pos' c')) with (multibulklen c').
  cbn [request_read]. change (frame (trimmed pos' c')) with (frame c'). split; [congruence|]. rewrite Hm'.
  destruct todo as [|a todo].
  - cbn [length Z.of_nat Z.eqb]. exists (read ++ read'), cmds. rewrite app_nil_r. inversion Hw' as [? Hb' Hs'|]; subst.
    split_and!; [done|done|done|]. specialize (Hdone eq_refl). unfold qlen, trimmed in *. cbn. rewrite length_drop. lia.
  - destruct (Hmore ltac:(done)) as [HF Hsm]. destruct (Z.eqb_spec (Z.of_nat (length (a :: todo))) 0); [cbn [length] in *; lia|].
    split_and!; [|done|by apply trimmed_small]. rewrite app_assoc. apply E_args; try done.
    + injection Hf' as _ Hr _ _. cbn. congruence.
    + cbn. congruence.
    + by apply trimmed_awaits.
Qed.

(** The number of arguments. *)
Lemma read_count_spec c F args T :
  multibulklen c = 0 -> cargv c = [] -> qlen c <= PROTO_INLINE_MAX_SIZE -> querybuf c <> [] ->
  args <> [] -> Z.of_nat (length args) <= MAX_MULTIBULK -> querybuf c ++ F = enc_cmd args ++ T ->
  (read_count c = Some (C_end false c) /\ F <> [] /\ (length (querybuf c) <= 14)%nat) \/
  (exists pos, read_count c = Some (C_read pos (set_multibulklen (Z.of_nat (length args)) c)) /\
     drop pos (querybuf c) ++ F = (args ≫= enc_bulk) ++ T).
Proof.
  intros Hm Ha Hq Hne Hargs Hlen Hs. unfold enc_cmd in Hs. rewrite <- !app_assoc in Hs. unfold read_count. rewrite Hm.
  unfold argc. rewrite Ha, (to_int_qlen c Hq). cbn [negb Z.eqb length Z.of_nat].
  assert (Z.of_nat (length args) <= INT_MAX) as Hint by (unfold INT_MAX, MAX_MULTIBULK in *; lia).
  destruct (split_prefix _ _ _ _ Hs) as [(q' & Hd & Hq')|(r & Hh & Hr & HF)].
  - right. rewrite Hd, whole_header by done. pose proof (f_equal length Hd) as Hl. rewrite length_app in Hl.
    exists (length (enc_num "*" (length args)) - 2 + 2)%nat.
    destruct (Z.ltb_spec (qlen c - 2) (Z.of_nat (length (enc_num "*" (length args)) - 2))) as [Hlt|Hge].
    { unfold qlen in Hlt. rewrite enc_num_length in *. lia. }
    rewrite bool_decide_true by done. cbn [negb].
    pose proof (number_whole "*" (length args) q' 0 c ltac:(unfold LLONG_MAX, INT_MAX in *; lia) Hd) as Hn.
    rewrite Nat.add_0_l in Hn. rewrite Hn.
    destruct (Z.ltb_spec MAX_MULTIBULK (Z.of_nat (length args))); [lia|].
    destruct (Z.leb_spec (Z.of_nat (length args)) 0) as [Hz|_]; [destruct args; [done|cbn in Hz; lia]|].
    split; [done|]. rewrite <- Hq'. f_equal.
    apply drop_app_length'. rewrite enc_num_length. lia.
  - left. pose proof (f_equal length Hh) as Hl. rewrite length_app in Hl. pose proof (enc_num_short "*" (length args) Hint).
    destruct (cut_header "*" (length args) _ r ltac:(done) ltac:(done) Hh Hr) as [-> | [-> Hpos]].
    + unfold qlen, PROTO_INLINE_MAX_SIZE in *. destruct (Z.ltb_spec (1024 * 64) (Z.of_nat (length (querybuf c)))); [lia|].
      split_and!; [done|rewrite HF; by destruct r|lia].
    + destruct (Z.ltb_spec (qlen c - 2) (Z.of_nat (length (querybuf c) - 1))) as [Hlt|Hge]; [|unfold qlen in *; lia].
      split_and!; [done|rewrite HF; by destruct r|lia].
Qed.

Lemma multibulk_spec c F cmds :
  reqtype c = PROTO_REQ_MULTIBULK -> querybuf c <> [] -> fits c 0 -> expects c F cmds -> Forall cmd_ok cmds ->
  exists r, processMultibulkBuffer maxbulk c = Some r /\ request_read c F cmds r.
Proof using Hmax.
  intros Hrt Hne Hf He Hok. unfold processMultibulkBuffer. destruct He as [cmds _ Hm Hb Ha Hs|read todo cmds _ Htodo Hm Ha Hw].
  - assert (qlen c <= PROTO_INLINE_MAX_SIZE) as Hq.
    { destruct Hf as [?|(_ & Hb' & _)]; [done|]. unfold PROTO_MBULK_BIG_ARG in *. lia. }
    destruct cmds as [|args cmds]; [by destruct (querybuf c)|]. apply Forall_cons_1 in Hok as [(Hargs & Hlen & Hall) _].
    change ((args :: cmds) ≫= enc_cmd) with (enc_cmd args ++ (cmds ≫= enc_cmd)) in Hs.
    destruct (read_count_spec c F args _ Hm Ha Hq Hne Hargs Hlen Hs) as [(-> & HF & Hl)|(pos & -> & Hd)].
    + exists (false, c). split; [done|]. split; [done|]. split_and!; [|done|].
      * apply E_idle; auto.
      * left. rewrite drop_0. unfold PROTO_MBULK_BIG_ARG. lia.
    + cbn [multibulklen set_multibulklen]. destruct (Z.ltb_spec 0 (Z.of_nat (length args))) as [_|Hz];
        [|destruct args; [done|cbn in Hz; lia]].
      cbn [negb]. eexists. split; [reflexivity|]. apply (bulks_request c (set_multibulklen (Z.of_nat (length args)) c) pos [] args); try done.
      * by apply A_header.
      * by left.
  - assert (read_count c = Some (C_read 0 c)) as ->.
    { unfold read_count. rewrite Hm. by destruct todo. }
    assert ((0 <? multibulklen c) = true) as -> by (rewrite Hm; by destruct todo).
    cbn [negb]. eexists. split; [reflexivity|]. apply (bulks_request c c 0 read todo cmds); try done.
    apply Forall_cons_1 in Hok as [(_ & _ & Hall) _]. by apply Forall_app in Hall as [_ ?].
Qed.

Lemma expects_bytes c F args cmds :
  expects c F (args :: cmds) -> exists x, querybuf c ++ F = x ++ (cmds ≫= enc_cmd) /\ (0 < length x)%nat.
Proof.
  inversion 1 as [? _ _ _ _ Hs|read todo ? _ Htodo _ _ Hw]; subst.
  - exists (enc_cmd args). split; [done|]. cbn. lia.
  - by apply (awaits_bytes c F _ todo).
Qed.
End Stream.

(** ** All requests of the buffer *)

(** A client that is neither blocked nor being closed, and not a master. *)
Definition calm (f : cflags) : Prop :=
  f_blocked f = false /\ f_close_after f = false /\ f_close_asap f = false /\ f_master f = false.

(** What the reader relies on: a request of the kind [good] leaves such a client
    as it is, and the clients are not paused. *)
Class CalmServer {S : Type} (good : list sds -> Prop) (processCommand : list sds -> cflags -> S -> presult * S)
    (paused : S -> bool) : Prop := {
  calm_run a f s : good a -> calm f -> let r := (processCommand a f s).1 in p_ok r = true /\ p_gone r = false /\ calm (p_flags r);
  calm_pause s : paused s = false
}.

Section Run.
Context {S : Type} (good : list sds -> Prop) (processCommand : list sds -> cflags -> S -> presult * S) (paused : S -> bool).
Context `{Hcalm : !CalmServer good processCommand paused}.
Context (maxbulk maxbuf unixtime : Z) (Hmax : maxbulk + 2 <= INT_MAX) (Hbuf : PROTO_INLINE_MAX_SIZE <= maxbuf) (Hbuf' : maxbulk + 2 <= maxbuf).

(** Running requests one after the other. *)
Definition run_one (fs : cflags * S) (args : list sds) : cflags * S :=
  let '(r, s) := processCommand args fs.1 fs.2 in (reset_flags (p_flags r), s).
Definition run_all (cmds : list (list sds)) (fs : cflags * S) : cflags * S := foldl run_one fs cmds.

Abbreviation input := (processInputBuffer processCommand paused maxbulk unixtime).

Lemma calm_hold c s : calm (flags c) -> on_hold paused c s = false.
Proof using Hcalm. intros (Hb & Ha & Hs & _). unfold on_hold. rewrite (@calm_pause _ _ _ _ Hcalm s), Hb, Ha, Hs. by rewrite andb_false_r. Qed.

Lemma run_request_spec c s args :
  calm (flags c) -> cargv c = args -> args <> [] -> good args ->
  exists f s', run_one (flags c, s) args = (f, s') /\ calm f /\
    run_request processCommand c s = (true, set_cflags f (resetClient c), s').
Proof using Hcalm.
  intros Hc Ha Hne Hg0. unfold run_request, run_one, argc. rewrite Ha. destruct args as [|a args]; [done|].
  cbn [length]. change (Z.of_nat (Datatypes.S (length args)) =? 0) with false. cbn [fst snd].
  pose proof (@calm_run _ _ _ _ Hcalm (a :: args) (flags c) s Hg0 Hc) as Hr. destruct (processCommand (a :: args) (flags c) s) as [r s'].
  cbn [fst] in Hr. destruct Hr as (Hok & Hg & Hb & Hca & Hcs & Hm). eexists _, _. split; [reflexivity|].
  rewrite Hok, Hg. cbn [flags set_cflags]. rewrite Hm. cbn [andb flags set_cflags]. rewrite Hb. cbn [orb negb].
  done.
Qed.

Lemma input_spec fuel : forall c s F cmds,
  (length (querybuf c) < fuel)%nat -> calm (flags c) -> fits c 0 -> expects c F cmds ->
  Forall (cmd_ok maxbulk) cmds -> Forall good cmds ->
  exists c' s' ran todo, input fuel c s = Done c' s' /\ cmds = ran ++ todo /\
    run_all ran (flags c, s) = (flags c', s') /\ calm (flags c') /\ expects c' F todo /\ small c' 0 /\
    (F = [] -> todo = [] /\ querybuf c' = []) /\ errs c' = errs c.
Proof using Hcalm Hmax.
  induction fuel as [|fuel IH]; intros c s F cmds Hfu Hc Hf He Hok Hgd; [lia|]. cbn [processInputBuffer].
  destruct (Z.eqb_spec (qlen c) 0) as [Hz|Hz].
  { assert (querybuf c = []) as Hq by (apply nil_length_inv; unfold qlen in Hz; lia).
    exists c, s, [], cmds. split_and!; try done.
    - left. rewrite Hq. done.
    - intros ->. split; [|done]. destruct cmds as [|args cmds]; [done|].
      destruct (expects_bytes c [] args cmds He) as (x & Hx & Hl). rewrite Hq in Hx. destruct x; [cbn in Hl; lia|done]. }
  rewrite (calm_hold c s Hc). assert (querybuf c <> []) as Hne by (intros Hq; unfold qlen in Hz; by rewrite Hq in Hz).
  set (c1 := if reqtype c =? 0 then _ else c).
  assert (reqtype c1 = PROTO_REQ_MULTIBULK /\ querybuf c1 = querybuf c /\ fits c1 0 /\ expects c1 F cmds /\ flags c1 = flags c /\ errs c1 = errs c) as
    (Hrt & Hq1 & Hf1 & He1 & Hfl & Her).
  { subst c1. destruct (Z.eqb_spec (reqtype c) 0) as [Hr|Hr].
    - inversion He as [? _ Hm Hb Ha Hs|? ? ? Hr2]; subst; [|rewrite Hr in Hr2; done].
      assert (head (querybuf c) = Some "*"%char) as Hh.
      { destruct cmds as [|args cmds], (querybuf c); try done. by injection Hs as -> _. }
      rewrite bool_decide_true by done. split_and!; try done. apply E_idle; auto.
    - split_and!; try done. inversion He as [? [?|?]|]; subst; done. }
  rewrite Hrt. change (PROTO_REQ_MULTIBULK =? PROTO_REQ_INLINE) with false. rewrite Z.eqb_refl. cbv iota.
  destruct (multibulk_spec maxbulk Hmax c1 F cmds Hrt ltac:(by rewrite Hq1) Hf1 He1 Hok) as ([[] c2] & -> & Hfr & Hres).
  all: injection Hfr as _ Hr2 Hfl2 _ _ _ Her2; rewrite Hfl in Hfl2; rewrite Her in Her2.
  - destruct Hres as (args & cmds' & -> & Ha & Hs & Hq2). apply Forall_cons_1 in Hok as [(Hargs & _ & _) Hok]. apply Forall_cons_1 in Hgd as [Hg1 Hgd].
    destruct (run_request_spec c2 s args ltac:(by rewrite Hfl2) Ha Hargs Hg1) as (f & s1 & Hrun & Hcf & ->).
    destruct (expects_bytes c1 F args cmds' He1) as (x & Hx & Hl).
    destruct (IH (set_cflags f (resetClient c2)) s1 F cmds') as (c' & s' & ran & todo & Hi & -> & Hrun' & Hrest).
    + cbn. rewrite <- Hs, Hq1 in Hx. apply (f_equal length) in Hx. rewrite !length_app in Hx. lia.
    + done.
    + by left.
    + apply E_idle; auto.
    + done.
    + done.
    + exists c', s', (args :: ran), todo. rewrite Hi. cbn [run_all foldl]. rewrite <- Hfl2, Hrun. cbn in Hrun'.
      split_and!; try done; [apply Hrest..|]. destruct Hrest as (_ & _ & _ & _ & ->). done.
  - destruct Hres as (He2 & HF & Hsm). exists c2, s, [], cmds. rewrite Hfl2. split_and!; done.
Qed.

(** ** Reading from a socket *)

Lemma expects_feed c b F cmds : expects c (b ++ F) cmds -> expects (set_querybuf (querybuf c ++ b) c) F cmds.
Proof.
  intros [? Hr Hm Hb Ha Hs|? ? ? Hr Ht Hm Ha Hw].
  - apply E_idle; try done. cbn. by rewrite <- app_assoc.
  - apply E_args; try done. destruct Hw as [? Hb Hs|? ? Hb Hbig Hs]; [apply A_header|apply A_inside]; try done;
      rewrite drop_0 in *; cbn; by rewrite <- app_assoc.
Qed.

(** A big argument is never read beyond its end, and anything else stays below
    the limit of a header. *)
Lemma readlen_fits c U cmds b :
  expects c U cmds -> small c 0 -> Z.of_nat (length b) <= readlen c -> fits (set_querybuf (querybuf c ++ b) c) 0.
Proof.
  intros He Hsm Hb. unfold readlen in Hb. unfold fits, small, qlen in *. cbn [querybuf bulklen set_querybuf].
  rewrite drop_0 in Hsm. rewrite length_app. unfold PROTO_INLINE_MAX_SIZE, PROTO_IOBUF_LEN, PROTO_MBULK_BIG_ARG in *.
  destruct (Z.le_gt_cases (1024 * 32) (bulklen c)) as [Hbig|Hbig].
  - destruct He as [? _ _ Hb' _ _|? todo ? Hr Ht Hm _ _]; [lia|]. rewrite Hr, Hm in Hb.
    change (PROTO_REQ_MULTIBULK =? PROTO_REQ_MULTIBULK) with true in Hb.
    replace (Z.of_nat (length todo) =? 0) with false in Hb by (by destruct todo).
    replace (bulklen c =? -1) with false in Hb by lia. replace (1024 * 32 <=? bulklen c) with true in Hb by lia.
    cbn [andb negb] in Hb. right. split_and!; [done|done|].
    destruct (Z.ltb_spec (bulklen c + 2 - Z.of_nat (length (querybuf c))) (1024 * 16)); lia.
  - left. replace (1024 * 32 <=? bulklen c) with false in Hb by lia. rewrite andb_false_r in Hb. lia.
Qed.
Lemma readlen_pos c : small c 0 -> 1 <= readlen c.
Proof.
  intros Hsm. unfold readlen, small, qlen in *. rewrite drop_0 in Hsm. unfold PROTO_IOBUF_LEN, PROTO_MBULK_BIG_ARG in *.
  destruct (Z.leb_spec (1024 * 32) (bulklen c)) as [Hb|Hb]; [|rewrite andb_false_r; lia].
  destruct (_ && true); [|lia]. destruct (Z.ltb_spec (bulklen c + 2 - Z.of_nat (length (querybuf c))) (1024 * 16)); lia.
Qed.
Lemma fits_maxbuf c F cmds : expects c F cmds -> Forall (cmd_ok maxbulk) cmds -> fits c 0 -> qlen c <= maxbuf.
Proof using Hbuf Hbuf'.
  intros He Hok [Hf|(_ & Hb & Hf)]; [lia|]. unfold PROTO_MBULK_BIG_ARG in *.
  destruct He as [? _ _ Hb' _ _|read todo cmds _ _ _ _ Hw]; [lia|]. destruct Hw as [|a rest Hb' _ _]; [lia|].
  apply Forall_cons_1 in Hok as [(_ & _ & Hall) _]. apply Forall_app in Hall as [_ Hall].
  apply Forall_cons_1 in Hall as [Ha _]. unfold arg_ok in Ha. lia.
Qed.

(** What one read of [b] leaves, [F] being the bytes that are still to come. *)
Lemma read_spec c s b F cmds :
  calm (flags c) -> expects c (b ++ F) cmds -> small c 0 -> Z.of_nat (length b) <= readlen c ->
  Forall (cmd_ok maxbulk) cmds -> Forall good cmds ->
  exists c' s' ran todo,
    readQueryFromClient processCommand paused maxbulk maxbuf unixtime (N_data b) c s = Done (Some c', []) s' /\
    cmds = ran ++ todo /\ run_all ran (flags c, s) = (flags c', s') /\ calm (flags c') /\ expects c' F todo /\ small c' 0 /\
    (F = [] -> todo = [] /\ querybuf c' = []) /\ errs c' = errs c.
Proof using Hcalm Hmax Hbuf Hbuf'.
  intros Hc He Hsm Hb Hok Hgd. pose proof (expects_feed c b F cmds He) as He'.
  pose proof (readlen_fits c _ cmds b He Hsm Hb) as Hf. set (c1 := set_querybuf (querybuf c ++ b) c) in *.
  destruct (input_spec (Datatypes.S (length (querybuf c1))) c1 s F cmds) as (c' & s' & ran & todo & Hi & Hrest); try done; [lia|].
  exists c', s', ran, todo. split; [|exact Hrest]. unfold readQueryFromClient. destruct Hc as (_ & _ & _ & Hm).
  rewrite Hm. cbv zeta. fold c1. change (flags c1) with (flags c). rewrite Hm. change (flags c1) with (flags c). rewrite Hm.
  destruct (Z.ltb_spec maxbuf (qlen c1)) as [Hlt|_]; [pose proof (fits_maxbuf c1 F cmds He' Hok Hf); lia|].
  cbn [negb]. by rewrite Hi.
Qed.

(** Reading a socket that holds [unread]: each read returns at most the given
    number of bytes. *)
Fixpoint serve (sizes : list nat) (unread : bytes) (c : qclient) (s : S) : outcome S (option qclient * bytes) :=
  match sizes with
  | [] => Done (Some c, unread) s
  | n :: sizes =>
      let b := take (Nat.min n (Z.to_nat (readlen c))) unread in
      match readQueryFromClient processCommand paused maxbulk maxbuf unixtime (if b is [] then N_again else N_data b) c s with
      | Done (Some c, _) s => serve sizes (drop (length b) unread) c s
      | Done (None, _) s => Done (None, unread) s
      | Return s => Return s
      | Crash => Crash
      | OutOfFuel => OutOfFuel
      end
  end.

Lemma serve_spec sizes : forall unread c s cmds,
  calm (flags c) -> expects c unread cmds -> small c 0 -> (unread = [] -> cmds = [] /\ querybuf c = []) ->
  Forall (cmd_ok maxbulk) cmds -> Forall good cmds ->
  exists c' s' unread' ran todo, serve sizes unread c s = Done (Some c', unread') s' /\ cmds = ran ++ todo /\
    run_all ran (flags c, s) = (flags c', s') /\ calm (flags c') /\ expects c' unread' todo /\ small c' 0 /\
    (unread' = [] -> todo = [] /\ querybuf c' = []) /\ errs c' = errs c /\
    (Forall (fun n => 0 < n)%nat sizes -> (length unread' <= length unread - length sizes)%nat).
Proof using Hcalm Hmax Hbuf Hbuf'.
  induction sizes as [|n sizes IH]; intros unread c s cmds Hc He Hsm Hend Hok Hgd.
  { exists c, s, unread, [], cmds. split_and!; try done; cbn; lia. }
  cbn [serve]. cbv zeta. set (b := take _ unread). pose proof (readlen_pos c Hsm) as Hrl.
  assert (Z.of_nat (length b) <= readlen c) as Hlb by (unfold b; rewrite length_take; lia).
  destruct b as [|x b'] eqn:Hb.
  - cbn [readQueryFromClient length]. rewrite drop_0. destruct (IH unread c s cmds Hc He Hsm Hend Hok Hgd) as
      (c' & s' & u' & ran & todo & -> & Hrest). exists c', s', u', ran, todo. split_and!; try apply Hrest; [done|].
    intros Hall. apply Forall_cons_1 in Hall as [Hn Hall]. destruct Hrest as (_ & _ & _ & _ & _ & _ & _ & Hl).
    specialize (Hl Hall). apply (f_equal length) in Hb. unfold b in Hb. rewrite length_take in Hb. cbn [length] in *. lia.
  - rewrite <- Hb in *. assert (b ++ drop (length b) unread = unread) as Hu.
    { unfold b. rewrite length_take. rewrite <- (take_drop (Nat.min n (Z.to_nat (readlen c))) unread) at 4. f_equal.
      destruct (Nat.le_gt_cases (Nat.min n (Z.to_nat (readlen c))) (length unread)); [f_equal; lia|].
      rewrite !drop_ge by lia. done. }
    rewrite <- Hu in He. destruct (read_spec c s b (drop (length b) unread) cmds Hc He Hsm Hlb Hok Hgd) as
      (c1 & s1 & ran1 & todo1 & Hr & -> & Hrun & Hc1 & He1 & Hsm1 & Hend1 & Her1).
    rewrite Hr. apply Forall_app in Hok as [_ Hok]. apply Forall_app in Hgd as [_ Hgd].
    destruct (IH (drop (length b) unread) c1 s1 todo1 Hc1 He1 Hsm1 Hend1 Hok Hgd) as
      (c' & s' & u' & ran & todo & -> & -> & Hrun' & Hc' & He' & Hsm' & Hend' & Her' & Hl).
    exists c', s', u', (ran1 ++ ran), todo. unfold run_all in *. rewrite foldl_app, Hrun.
    split_and!; try done; [by rewrite app_assoc|congruence|].
    intros Hall. apply Forall_cons_1 in Hall as [Hn Hall]. specialize (Hl Hall). rewrite length_drop in Hl.
    rewrite Hb in Hl. cbn [length] in *. lia.
Qed.
End Run.
