(* ===== verification/ClientSafety.v ===== *)
(** * Any bytes are safe to read

    Whatever bytes a client sends, in whatever pieces, reading them ends, no
    assertion of the parser fails, and the client is left in a state from which
    reading can go on or which is being closed.  For the link to a master, the
    bytes passed on to the replicas of this server are those that were applied. *)
From Stdlib Require Import Ascii String ZArith Lia.
From stdpp Require Import base numbers list strings.
From S2P Require Import Prelude Sds SdsText ClientInput.
Open Scope Z_scope.

(** A client whose requests are not parsed. *)
Definition stuck (f : cflags) : bool := f_blocked f || f_close_after f || f_close_asap f.

(** The states between two reads. *)
Definition idle (c : qclient) : Prop := multibulklen c = 0 /\ bulklen c = -1 /\ cargv c = [].
Inductive q_ok (c : qclient) : Prop :=
  | Q_stuck : stuck (flags c) = true -> q_ok c
  | Q_text : reqtype c = 0 \/ reqtype c = PROTO_REQ_INLINE -> idle c -> q_ok c
  | Q_count : reqtype c = PROTO_REQ_MULTIBULK -> idle c -> head (querybuf c) = Some "*"%char -> q_ok c
  | Q_bulks : reqtype c = PROTO_REQ_MULTIBULK -> 0 < multibulklen c -> -1 <= bulklen c -> q_ok c.

(** What the parsers leave alone. *)
Definition link (c : qclient) := (reqtype c, pending_querybuf c, read_reploff c, reploff c, f_master (flags c)).

(** A request was refused: the client is being closed. *)
Definition refused (c c' : qclient) : Prop :=
  stuck (flags c') = true /\ link c' = link c /\ (length (querybuf c') <= length (querybuf c))%nat.
Lemma protocol_refused msg pos c : refused c (protocol_error msg pos c).
Proof. split_and!; [by unfold stuck; cbn; rewrite orb_true_r|done|]. cbn. rewrite sdsrange_tail, length_drop. lia. Qed.
#[local] Hint Resolve protocol_refused : core.
Lemma stuck_orb f : stuck f = true -> forall b, b || f_blocked f || f_close_after f || f_close_asap f = true.
Proof. unfold stuck. intros H b. by destruct b, (f_blocked f). Qed.

(** ** The parsers *)

(** What a parser returns from [c]: a request and a shorter buffer, or a state
    to go on from. *)
Definition parsed (c : qclient) (r : bool * qclient) : Prop :=
  link r.2 = link c /\
  if r.1 then (length (querybuf r.2) < length (querybuf c))%nat /\ flags r.2 = flags c
  else q_ok r.2 /\ (length (querybuf r.2) <= length (querybuf c))%nat.

Lemma parsed_refused c c' : refused c c' -> parsed c (false, c').
Proof. intros (Hs & Hl & Hq). split; [done|]. split; [by apply Q_stuck|done]. Qed.
#[local] Hint Resolve parsed_refused : core.

Lemma inline_safe t c : reqtype c = PROTO_REQ_INLINE -> q_ok c -> parsed c (processInlineBuffer t c).
Proof.
  intros Hr Hq. unfold processInlineBuffer. destruct (strchr (querybuf c) LF) as [nl|] eqn:E.
  - cbv zeta. match goal with |- context [sdssplitargs (take ?x _)] => generalize x as n end. intros n. destruct (sdssplitargs (take n (querybuf c))) as [argv|]; [|by auto].
    apply strchr_lookup in E as [E _]. apply lookup_lt_Some in E. split; [|split]; cbn [fst snd].
    + by destruct (_ && _).
    + replace (Z.of_nat n + 2) with (Z.of_nat (n + 2)) by lia.
      rewrite sdsrange_tail. destruct (_ && _); cbn; rewrite length_drop; lia.
    + by destruct (_ && _).
  - destruct (Z.ltb_spec PROTO_INLINE_MAX_SIZE (qlen c)); [by auto|]. by split.
Qed.

Section Multibulk.
Context (maxbulk : Z).

(** The bytes from the position on, and the place of the parser. *)
Definition left_from (pos : nat) (c : qclient) : nat := length (drop pos (querybuf c)).

Lemma read_bulklen_safe pos c :
  -1 <= bulklen c ->
  match read_bulklen maxbulk pos c with
  | H_more => True
  | H_refused c' => refused c c'
  | H_read pos' c' => 0 <= bulklen c' /\ multibulklen c' = multibulklen c /\ link c' = link c /\ flags c' = flags c /\
      (left_from pos' c' <= left_from pos c)%nat /\ (length (querybuf c') <= length (querybuf c))%nat
  end.
Proof.
  intros Hb. unfold read_bulklen, left_from. destruct (Z.eqb_spec (bulklen c) (-1)) as [He|He]; cbn [negb]; [|by split_and!; try lia].
  destruct (strchr (drop pos (querybuf c)) CR) as [k|]; [|destruct (_ <? _); [by auto|done]].
  destruct (_ <? _); [done|]. destruct (querybuf c !! pos) as [t|]; [|done].
  destruct (negb _); [by auto|]. destruct (number_at pos (pos + k) c) as [ll|]; [|by auto].
  destruct (Z.ltb_spec ll 0), (Z.ltb_spec maxbulk ll); cbn [orb]; try by auto.
  destruct (_ <=? _); cbn; rewrite ?drop_0, ?sdsrange_tail, ?length_drop; split_and!; done || lia.
Qed.

Lemma take_bulk_safe pos c :
  0 <= bulklen c -> bulklen c + 2 <= qlen c - Z.of_nat pos ->
  let '(pos', c') := take_bulk pos c in
  multibulklen c' = multibulklen c /\ link c' = link c /\ flags c' = flags c /\
  (left_from pos' c' + 2 <= left_from pos c)%nat /\ (length (querybuf c') <= length (querybuf c))%nat.
Proof.
  intros Hb Hq. unfold take_bulk, left_from, qlen in *. destruct (_ && _ && _); cbn; split_and!; try done; rewrite ?drop_nil, ?length_drop; cbn; lia.
Qed.

(** The loop: it keeps to the buffer and takes two bytes at least for every
    argument it finishes. *)
Lemma read_bulks_safe n : forall pos c,
  multibulklen c = Z.of_nat n -> -1 <= bulklen c ->
  match read_bulks maxbulk n pos c with
  | (None, c') => refused c c'
  | (Some pos', c') => 0 <= multibulklen c' <= Z.of_nat n /\ -1 <= bulklen c' /\ link c' = link c /\ flags c' = flags c /\
      (length (querybuf c') <= length (querybuf c))%nat /\
      Z.of_nat (left_from pos' c') + 2 * (Z.of_nat n - multibulklen c') <= Z.of_nat (left_from pos c)
  end.
Proof.
  induction n as [|n IH]; intros pos c Hm Hb; cbn [read_bulks]; [split_and!; done || lia|].
  pose proof (read_bulklen_safe pos c Hb) as Hh. destruct (read_bulklen maxbulk pos c) as [|c1|pos1 c1].
  - split_and!; done || lia.
  - done.
  - destruct Hh as (Hb1 & Hm1 & Hl1 & Hf1 & Hle1 & Hq1).
    destruct (Z.ltb_spec (qlen c1 - Z.of_nat pos1) (bulklen c1 + 2)) as [Hlt|Hge]; [split_and!; done || lia|].
    pose proof (take_bulk_safe pos1 c1 Hb1 Hge) as Ht. destruct (take_bulk pos1 c1) as [pos2 c2].
    destruct Ht as (Hm2 & Hl2 & Hf2 & Hle2 & Hq2).
    specialize (IH pos2 (set_multibulklen (multibulklen c2 - 1) (set_bulklen (-1) c2)) ltac:(cbn; lia) ltac:(cbn; lia)).
    destruct (read_bulks maxbulk n pos2 _) as [[pos3|] c3].
    + destruct IH as (Hm3 & Hb3 & Hl3 & Hf3 & Hq3 & Hle3). change (link (set_multibulklen _ _)) with (link c2) in Hl3.
      unfold left_from in *. cbn in Hf3, Hq3, Hle3. split_and!; try lia; congruence.
    + destruct IH as (Hs3 & Hl3 & Hq3). change (link (set_multibulklen _ _)) with (link c2) in Hl3. cbn in Hq3.
      split_and!; [done|congruence|lia].
Qed.

Lemma read_args_safe pos c0 c :
  0 < multibulklen c -> -1 <= bulklen c -> link c = link c0 -> flags c = flags c0 -> querybuf c = querybuf c0 ->
  reqtype c0 = PROTO_REQ_MULTIBULK -> parsed c0 (read_args maxbulk pos c).
Proof.
  intros Hm Hb Hl Hf Hqe Hr. unfold read_args.
  pose proof (read_bulks_safe (Z.to_nat (multibulklen c)) pos c ltac:(lia) Hb) as Hrb.
  destruct (read_bulks maxbulk _ pos c) as [[pos2|] c2].
  - destruct Hrb as (Hm2 & Hb2 & Hl2 & Hf2 & Hq2 & Hle). cbv zeta. match goal with |- parsed _ (_, ?x) => set (c3 := x) end.
    assert (link c3 = link c2 /\ flags c3 = flags c2 /\ multibulklen c3 = multibulklen c2 /\ bulklen c3 = bulklen c2 /\
      length (querybuf c3) = left_from pos2 c2) as (Hl3 & Hf3 & Hm3 & Hb3 & Hq3).
    { subst c3. unfold left_from. destruct (Nat.eqb_spec pos2 0) as [->|]; cbn; [done|]. by rewrite sdsrange_tail. }
    split; [cbn [snd]; congruence|]. unfold left_from in *. rewrite !length_drop in Hle. rewrite length_drop in Hq3.
    destruct (Z.eqb_spec (multibulklen c3) 0) as [Hz|Hz]; cbn [fst snd]; rewrite Hq3, <- Hqe.
    + split; [lia|congruence].
    + split; [|lia]. apply Q_bulks; [|lia|lia]. unfold link in *. congruence.
  - apply parsed_refused. destruct Hrb as (? & ? & Hq2). rewrite Hqe in Hq2. split_and!; [done|congruence|done].
Qed.

Lemma multibulk_safe c :
  reqtype c = PROTO_REQ_MULTIBULK -> q_ok c -> stuck (flags c) = false ->
  exists r, processMultibulkBuffer maxbulk c = Some r /\ parsed c r.
Proof.
  intros Hr Hq Hs. unfold processMultibulkBuffer.
  destruct Hq as [Hst|[Hr'|Hr'] Hi|_ (Hm & Hb & Ha) Hh|_ Hm Hb]; [congruence|by rewrite Hr in Hr'..| |].
  - assert (parsed c (false, c)) as Hmore by (split; [done|split; [by apply Q_count|cbn; lia]]).
    unfold read_count, argc. rewrite Hm, Ha. cbn [negb Z.eqb length]. change (Z.of_nat 0 =? 0) with true. cbn [negb].
    destruct (strchr (querybuf c) CR) as [nl|] eqn:E; [|destruct (_ <? _); eexists; by auto].
    destruct (_ <? _); [by eexists|]. rewrite bool_decide_true by done. cbn [negb].
    destruct (number_at 0 nl c) as [ll|]; [|eexists; by auto].
    destruct (_ <? ll); [eexists; by auto|]. destruct (Z.leb_spec ll 0).
    + eexists. split; [done|]. split; [done|]. cbn [fst snd]. split; [|done]. cbn. rewrite sdsrange_tail, length_drop.
      apply strchr_lookup in E as [E _]. apply lookup_lt_Some in E. lia.
    + cbn [multibulklen set_multibulklen]. destruct (Z.ltb_spec 0 ll); [cbn [negb]|lia]. eexists. split; [reflexivity|]. apply read_args_safe; cbn; done || lia.
  - unfold read_count. replace (multibulklen c =? 0) with false by lia. cbn [negb]. replace (0 <? multibulklen c) with true by lia.
    eexists. split; [reflexivity|]. by apply read_args_safe.
Qed.
End Multibulk.

(** ** The loop *)

(** What [processCommand] promises: a client it does not leave ready is blocked
    or being closed. *)
Class SoundServer {S : Type} (processCommand : list sds -> cflags -> S -> presult * S) : Prop :=
  sound_run a f s : let r := (processCommand a f s).1 in
    (p_ok r = false \/ p_gone r = true -> stuck (p_flags r) = true) /\ f_master (p_flags r) = f_master f.

Section Run.
Context {S : Type} (processCommand : list sds -> cflags -> S -> presult * S) (paused : S -> bool).
Context `{Hsound : !SoundServer processCommand}.
Context (maxbulk maxbuf unixtime : Z).

(** Offsets of the link to a master: the bytes received and not applied are
    pending. *)
Definition master_ok (c : qclient) : Prop :=
  Z.of_nat (length (pending_querybuf c)) = read_reploff c - reploff c /\ qlen c <= read_reploff c - reploff c.

Definition same_link (c c' : qclient) : Prop :=
  pending_querybuf c' = pending_querybuf c /\ read_reploff c' = read_reploff c /\ f_master (flags c') = f_master (flags c).

Lemma run_request_safe c s :
  exists go c' s', run_request processCommand c s = (go, c', s') /\ q_ok c' /\ same_link c c' /\ querybuf c' = querybuf c /\
    (reploff c' = reploff c \/ reploff c' = read_reploff c - qlen c).
Proof using Hsound.
  unfold run_request. destruct (argc c =? 0).
  { eexists _, _, _. split; [reflexivity|]. split_and!; [|done|done|by left]. apply Q_text; [by left|done]. }
  pose proof (sound_run (cargv c) (flags c) s) as Hr. destruct (processCommand (cargv c) (flags c) s) as [r s'].
  cbn [fst] in Hr. destruct Hr as [Hst Hma]. eexists _, _, _. split; [reflexivity|].
  destruct (p_ok r); [|split_and!; [apply Q_stuck; cbn; by auto|by split_and!|done|by left]].
  cbn [flags set_cflags]. set (c1 := if f_master (p_flags r) && _ then _ else _).
  assert (same_link c c1 /\ querybuf c1 = querybuf c /\ flags c1 = p_flags r /\ (reploff c1 = reploff c \/ reploff c1 = read_reploff c - qlen c)) as
    (Hl & Hq & Hf & Ho) by (subst c1; unfold same_link; destruct (f_master (p_flags r) && negb (f_multi (p_flags r))); cbn; by auto).
  rewrite Hf. destruct (f_blocked (p_flags r)) eqn:Eb; cbn [negb orb].
  - destruct (f_module (p_flags r)); cbn [negb].
    + split_and!; [apply Q_stuck; rewrite Hf; unfold stuck; by rewrite Eb|exact Hl|done|done].
    + split_and!; [|exact Hl|done|done]. apply Q_text; [by left|done].
  - split_and!; [|exact Hl|done|done]. apply Q_text; [by left|done].
Qed.

Lemma input_safe fuel : forall c s,
  (length (querybuf c) < fuel)%nat -> q_ok c ->
  exists c' s', processInputBuffer processCommand paused maxbulk unixtime fuel c s = Done c' s' /\ q_ok c' /\ same_link c c' /\
    (length (querybuf c') <= length (querybuf c))%nat /\
    (qlen c <= read_reploff c - reploff c -> reploff c <= reploff c' /\ qlen c' <= read_reploff c' - reploff c').
Proof using Hsound.
  induction fuel as [|fuel IH]; intros c s Hfu Hq; [lia|]. cbn [processInputBuffer].
  destruct (Z.eqb_spec (qlen c) 0) as [Hz|Hz]; [by exists c, s; split_and!; try lia|].
  destruct (on_hold paused c s) eqn:Eh; [by exists c, s; split_and!; try lia|].
  assert (stuck (flags c) = false) as Hst.
  { destruct (stuck (flags c)) eqn:E; [|done]. unfold on_hold in Eh. rewrite stuck_orb in Eh by done. done. }
  set (c1 := if reqtype c =? 0 then _ else c).
  assert (q_ok c1 /\ (reqtype c1 = PROTO_REQ_INLINE \/ reqtype c1 = PROTO_REQ_MULTIBULK) /\ querybuf c1 = querybuf c /\ flags c1 = flags c /\
    same_link c c1 /\ reploff c1 = reploff c) as (Hq1 & Hr1 & Hqb1 & Hf1 & Hl1 & Ho1).
  { subst c1. destruct (Z.eqb_spec (reqtype c) 0) as [Hr|Hr].
    - assert (idle c) as Hi by (destruct Hq as [?|? ?|Hr2|Hr2]; [congruence|done|by rewrite Hr in Hr2..]).
      destruct (bool_decide_reflect (head (querybuf c) = Some "*"%char)) as [Hh|Hh]; split_and!; try done; auto.
      + by apply Q_count.
      + apply Q_text; [by right|done].
    - split_and!; try done. destruct Hq as [?|[?|?] ?|Hr2|Hr2]; try done; auto. congruence. }
  assert (exists r, (if reqtype c1 =? PROTO_REQ_INLINE then Some (processInlineBuffer unixtime c1)
     else if reqtype c1 =? PROTO_REQ_MULTIBULK then processMultibulkBuffer maxbulk c1 else None) = Some r /\ parsed c1 r) as (r & -> & Hp).
  { destruct Hr1 as [Hr|Hr]; rewrite Hr; cbn [Z.eqb PROTO_REQ_INLINE PROTO_REQ_MULTIBULK Pos.eqb].
    - eexists. split; [done|]. by apply inline_safe.
    - apply multibulk_safe; [done..|congruence]. }
  destruct r as [[] c2]; destruct Hp as [Hlk Hp]; cbn [fst snd] in *; unfold link in Hlk; injection Hlk as _ Hpe Hrr Hro Hfm.
  - destruct Hp as [Hlt Hf2]. rewrite Hqb1 in Hlt. destruct (run_request_safe c2 s) as (go & c3 & s3 & -> & Hq3 & (Hp3 & Hr3 & Hm3) & Hqb3 & Ho3).
    unfold same_link in *. destruct Hl1 as (Hl1a & Hl1b & Hl1c).
    assert (qlen c <= read_reploff c - reploff c -> reploff c <= reploff c3 /\ qlen c3 <= read_reploff c3 - reploff c3) as Hoff.
    { intros Hle. unfold qlen in *. rewrite Hqb3. destruct Ho3 as [Ho3|Ho3]; rewrite Ho3; lia. }
    destruct go.
    + destruct (IH c3 s3) as (c' & s' & -> & Hq' & (Hpa & Hpb & Hpc) & Hqb' & Hoff'); [rewrite Hqb3; lia|done|].
      exists c', s'. split_and!; try done; try congruence; [rewrite Hqb3 in Hqb'; lia|]. intros Hle.
      destruct (Hoff Hle) as [H1 H2]. destruct (Hoff' H2) as [H3 H4]. lia.
    + exists c3, s3. split_and!; try done; try congruence. rewrite Hqb3. lia.
  - destruct Hp as [Hq2 Hle2]. rewrite Hqb1 in Hle2. exists c2, s. unfold same_link in *. destruct Hl1 as (Hl1a & Hl1b & Hl1c).
    split_and!; try done; try congruence. unfold qlen. lia.
Qed.

(** ** Reading *)

Lemma q_ok_feed c b : q_ok c -> q_ok (set_querybuf (querybuf c ++ b) c).
Proof.
  intros [Hs|Hr Hi|Hr Hi Hh|Hr Hm Hb]; [by apply Q_stuck|by apply Q_text| |by apply Q_bulks].
  apply Q_count; try done. cbn. by destruct (querybuf c).
Qed.

Definition received (n : nread) : bytes := match n with N_data b => b | _ => [] end.

(** One read: it ends in a good state; on the link to a master, what is passed
    on and what is pending are together what was pending and what was read. *)
Lemma read_safe n c s :
  q_ok c -> exists oc fed s', readQueryFromClient processCommand paused maxbulk maxbuf unixtime n c s = Done (oc, fed) s' /\
    forall c', oc = Some c' -> q_ok c' /\ f_master (flags c') = f_master (flags c) /\
      (f_master (flags c) = true -> master_ok c -> fed ++ pending_querybuf c' = pending_querybuf c ++ received n /\ master_ok c').
Proof using Hsound.
  intros Hq. destruct n as [b| | |]; cbn [readQueryFromClient received]; cycle 1.
  { exists (Some c), [], s. split; [done|]. intros ? [= <-]. rewrite app_nil_r. by split_and!. }
  1,2: by exists None, [], s.
  set (c0 := if f_master (flags c) then set_pending _ c else c). cbv zeta. set (c1 := set_querybuf _ c0).
  set (c2 := if f_master (flags c1) then _ else c1).
  assert (q_ok c2 /\ f_master (flags c2) = f_master (flags c) /\ (f_master (flags c) = true -> master_ok c ->
    pending_querybuf c2 = pending_querybuf c ++ b /\ master_ok c2)) as (Hq2 & Hm2 & Hmas).
  { pose proof (q_ok_feed c b Hq) as Hqf. unfold master_ok, qlen, c2, c1, c0. cbn. destruct (f_master (flags c)) eqn:Em; cbn; rewrite ?Em; cbn; [|by split_and!].
    rewrite !length_app. split_and!; [|done|intros _ [? ?]; split_and!; done || lia].
    destruct Hqf as [Hs|Hr Hi|Hr Hi Hh|Hr Hm Hb]; [by apply Q_stuck|by apply Q_text|by apply Q_count|by apply Q_bulks]. }
  destruct (maxbuf <? qlen c2); [by exists None, [], s|].
  destruct (input_safe (Datatypes.S (length (querybuf c2))) c2 s ltac:(lia) Hq2) as (c' & s' & Hi & Hq' & (Hpe & Hrr & Hfm) & _ & Hoff).
  rewrite Hm2. destruct (f_master (flags c)) eqn:Em; cbn [negb]; rewrite Hi; [|by exists (Some c'), [], s'; split; [|intros ? [= <-]; split_and!; congruence]].
  destruct (Z.eqb_spec (reploff c' - reploff c2) 0) as [Ha|Ha]; cbn [negb].
  - exists (Some c'), [], s'. split; [done|]. intros ? [= <-]. split_and!; [done|congruence|]. intros _ Hc.
    destruct (Hmas eq_refl Hc) as [Hp [Hl Hle]]. destruct (Hoff Hle) as [_ Hle']. cbn. unfold master_ok. rewrite Hpe. split_and!; [done|lia|lia].
  - eexists _, _, s'. split; [reflexivity|]. intros ? [= <-]. split_and!; [|cbn; congruence|].
    { destruct Hq' as [Hs|Hr Hi'|Hr Hi' Hh|Hr Hm Hb]; [by apply Q_stuck|by apply Q_text|by apply Q_count|by apply Q_bulks]. }
    intros _ Hc. destruct (Hmas eq_refl Hc) as [Hp [Hl Hle]]. destruct (Hoff Hle) as [Hge Hle'].
    replace (reploff c' - reploff c2) with (Z.of_nat (Z.to_nat (reploff c' - reploff c2))) by lia.
    rewrite sdsrange_tail, Nat2Z.id. unfold master_ok. cbn. rewrite take_drop, length_drop, Hpe. split_and!; [done| |unfold qlen in *; cbn; lia].
    unfold qlen in *. lia.
Qed.

(** Any number of reads. *)
Fixpoint session (ns : list nread) (c : qclient) (s : S) : outcome S (option qclient * bytes) :=
  match ns with
  | [] => Done (Some c, []) s
  | n :: ns =>
      match readQueryFromClient processCommand paused maxbulk maxbuf unixtime n c s with
      | Done (Some c, fed) s =>
          match session ns c s with
          | Done (oc, fed') s => Done (oc, fed ++ fed') s
          | other => other
          end
      | other => other
      end
  end.

Lemma session_safe ns : forall c s,
  q_ok c -> exists oc fed s', session ns c s = Done (oc, fed) s' /\
    forall c', oc = Some c' -> q_ok c' /\ f_master (flags c') = f_master (flags c) /\
      (f_master (flags c) = true -> master_ok c -> fed ++ pending_querybuf c' = pending_querybuf c ++ (ns ≫= received) /\ master_ok c').
Proof using Hsound.
  induction ns as [|n ns IH]; intros c s Hq; cbn [session].
  { exists (Some c), [], s. split; [done|]. intros ? [= <-]. cbn. rewrite app_nil_r. by split_and!. }
  destruct (read_safe n c s Hq) as (oc & fed & s1 & -> & H1). destruct oc as [c1|]; [|by exists None, fed, s1].
  destruct (H1 c1 eq_refl) as (Hq1 & Hm1 & Hp1). destruct (IH c1 s1 Hq1) as (oc & fed' & s2 & -> & H2).
  exists oc, (fed ++ fed'), s2. split; [done|]. intros c' ->. destruct (H2 c' eq_refl) as (Hq2 & Hm2 & Hp2).
  split_and!; [done|congruence|]. intros Hm Hok. destruct (Hp1 Hm Hok) as [He1 Hok1]. rewrite Hm1 in Hp2.
  destruct (Hp2 Hm Hok1) as [He2 Hok2]. split; [|done]. cbn [mbind list_bind].
  by rewrite <- app_assoc, He2, app_assoc, He1, <- app_assoc.
Qed.
End Run.

Lemma createClient_ok : q_ok createClient.
Proof. apply Q_text; [by left|done]. Qed.
