(* ===== verification/ClientInline.v ===== *)
(** * Requests as lines of text

    The inline protocol: a line of quoted arguments is the request with these
    arguments.  Then runs of the reader at the edges of both protocols. *)
From Stdlib Require Import Ascii String ZArith Lia.
From stdpp Require Import base numbers list strings.
From S2P Require Import Prelude Sds SdsText ClientInput ClientStream ClientSafety.
Open Scope Z_scope.

(** ** Lines *)

Lemma repr_char_no_lf c : LF ∉ repr_char c.
Proof.
  assert (forallb (fun x => negb (isc LF x)) (repr_char c) = true) as H.
  { revert c. apply (ascii_forall (fun c => _)). vm_compute. reflexivity. }
  rewrite forallb_forall in H. intros Hin. apply list_elem_of_In in Hin. apply H in Hin. by rewrite is_refl in Hin.
Qed.
Lemma quote_args_no_lf l : LF ∉ quote_args l.
Proof.
  unfold quote_args. rewrite list_elem_of_bind. intros (a & Hin & _). unfold sdscatrepr in Hin.
  cbn in Hin. rewrite !elem_of_cons, elem_of_app, list_elem_of_bind, list_elem_of_singleton in Hin.
  destruct Hin as [?|[?|[(c & Hc & _)|?]]]; try done. by apply repr_char_no_lf in Hc.
Qed.

(** A line of quoted arguments; the empty ones are lost. *)
Lemma inline_quoted t c l rest :
  querybuf c = quote_args l ++ crlf ++ rest ->
  exists c', processInlineBuffer t c = (true, c') /\ cargv c' = base.filter (fun a => a <> EmptyString) l /\ querybuf c' = rest.
Proof.
  intros Hq. unfold processInlineBuffer.
  assert (strchr (querybuf c) LF = Some (Datatypes.S (length (quote_args l)))) as ->.
  { rewrite Hq. replace (quote_args l ++ crlf ++ rest) with ((quote_args l ++ [CR]) ++ LF :: rest) by (by rewrite <- app_assoc).
    rewrite strchr_app; [rewrite length_app; cbn; f_equal; lia| | |done].
    - rewrite elem_of_app, list_elem_of_singleton. intros [H|H]; [by apply quote_args_no_nul in H|done].
    - rewrite elem_of_app, list_elem_of_singleton. intros [H|H]; [by apply quote_args_no_lf in H|done]. }
  cbn [Nat.eqb negb andb Nat.sub]. rewrite Nat.sub_0_r.
  assert (querybuf c !! length (quote_args l) = Some CR) as Hcr by (rewrite Hq, lookup_app_r, Nat.sub_diag by lia; done).
  rewrite bool_decide_true by done. cbv zeta.
  assert (take (length (quote_args l)) (querybuf c) = quote_args l) as -> by (rewrite Hq; apply take_app_length).
  rewrite sdssplitargs_quoted.
  eexists. split; [reflexivity|]. cbn [cargv set_cargv querybuf set_querybuf]. split; [done|].
  replace (Z.of_nat (length (quote_args l)) + 2) with (Z.of_nat (length (quote_args l) + 2)) by lia.
  rewrite sdsrange_tail. assert (querybuf (if (length (quote_args l) =? 0)%nat && f_slave (flags c) then set_ack_time t c else c) = querybuf c) as ->
    by (by destruct (_ && _)).
  rewrite Hq, app_assoc. apply drop_app_length'. by rewrite length_app.
Qed.

Lemma filter_nonempty (l : list sds) : Forall (fun a => a <> EmptyString) l -> base.filter (fun a => a <> EmptyString) l = l.
Proof. induction 1 as [|a l Ha _ IH]; [done|]. rewrite filter_cons_True by done. by rewrite IH. Qed.

(** ** Runs

    A server that records what it is asked to run. *)
Definition record_server (args : list sds) (f : cflags) (s : list (list sds)) : presult * list (list sds) :=
  (mkP true f false, s ++ [args]).

#[global] Instance record_calm : CalmServer (fun _ => True) record_server (fun _ => false).
Proof. by split. Qed.
#[global] Instance record_sound : SoundServer record_server.
Proof. intros a f s. cbn. split; [|done]. by intros [?|?]. Qed.

Lemma record_all cmds fs : snd (run_all record_server cmds fs) = fs.2 ++ cmds.
Proof.
  revert fs. induction cmds as [|a cmds IH]; intros fs; [by rewrite app_nil_r|]. cbn. unfold run_all in IH.
  rewrite IH. cbn. by rewrite <- app_assoc.
Qed.

Definition MAXBULK : Z := 512 * 1024 * 1024.
Definition MAXBUF : Z := 1024 * 1024 * 1024.

(** The requests run from one buffer, and the errors sent. *)
Definition run_buffer (b : bytes) : option (list (list sds) * list sds) :=
  match processInputBuffer record_server (fun _ => false) MAXBULK 0 (S (length b)) (set_querybuf b createClient) [] with
  | Done c s => Some (s, errs c)
  | _ => None
  end.

(** A line that ends with a line feed only takes the first byte of the next
    request with it. *)
Lemma bare_line_feed_run :
  run_buffer (chars "GET k" ++ [LF] ++ chars "GET k" ++ [CR; LF]) = Some ([["GET"; "k"]; ["ET"; "k"]]%string, []).
Proof. vm_compute. reflexivity. Qed.

(** An empty argument of a line is dropped. *)
Lemma empty_argument_run :
  run_buffer (chars "SET k " ++ [DQ; DQ; CR; LF]) = Some ([["SET"; "k"]]%string, []).
Proof. vm_compute. reflexivity. Qed.

(** A buffer that grew beyond 64 KB while the client was on hold: a request
    whose last header is cut is refused, although it would be complete with the
    next bytes. *)
Definition long_args : list sds := replicate 3 (of_chars (replicate (Z.to_nat 30000) "a"%char)).
Definition long_buffer : bytes := enc_num "*" 4 ++ (long_args ≫= enc_bulk) ++ chars "$".
Definition run_sizes (b : bytes) : option (list (list Z) * list sds) :=
  option_map (fun r : list (list sds) * list sds => (map (map (fun a => Z.of_nat (slen a))) r.1, r.2)) (run_buffer b).
Lemma consumed_bytes_count_run :
  run_sizes long_buffer = Some ([], ["Protocol error: too big bulk count string"]%string) /\
  run_sizes (long_buffer ++ chars "1" ++ crlf ++ chars "x" ++ crlf) = Some ([[30000; 30000; 30000; 1]], []).
Proof. split; vm_compute; reflexivity. Qed.
