(* ===== verification/ClientOutput.v ===== *)
(** * Replies to clients ([networking.c])

    What a client is to be sent is kept in a static buffer and, when that is
    full, in a list of nodes.  The functions [addReply*] append to it, an event
    handler writes it to the socket piece by piece.  A node of the list has an
    identity, which stands for its address: a reply whose length is not known yet
    is announced by an empty node that is filled in later.

    The functions return [None] where an assertion fails or a pointer is bad.
    What [write] returns is a list of results given to the handler. *)
From Stdlib Require Import Ascii String ZArith Lia.
From stdpp Require Import base numbers list strings.
From S2P Require Import Prelude Sds SdsText.
Open Scope Z_scope.

(** ** Limits ([server.h]) *)

Definition PROTO_REPLY_CHUNK_BYTES : Z := 16 * 1024.
Definition NET_MAX_WRITES_PER_EVENT : Z := 1024 * 64.
Definition OBJ_SHARED_BULKHDR_LEN : Z := 32.
Definition PROTO_SHARED_SELECT_CMDS : Z := 10.
Definition LIST_ITEM_SIZE : Z := 24 + 5.
Definition SIZE_MAX : Z := ULLONG_MAX.

(** The classes of clients, with limits of their own. *)
Inductive client_type := CLIENT_TYPE_NORMAL | CLIENT_TYPE_SLAVE | CLIENT_TYPE_PUBSUB | CLIENT_TYPE_MASTER.
Record clientBufferLimitsConfig := mkLimits {
  hard_limit_bytes : Z; soft_limit_bytes : Z; soft_limit_seconds : Z
}.

(** ** State *)

Record oflags := mkOF {
  o_lua : bool;                (* CLIENT_LUA or CLIENT_MODULE *)
  o_off : bool;                (* CLIENT_REPLY_OFF or CLIENT_REPLY_SKIP *)
  o_master : bool;
  o_force : bool;              (* CLIENT_MASTER_FORCE_REPLY *)
  o_replica : bool;            (* CLIENT_REPLICA *)
  o_message : bool;            (* CLIENT_REPLICA_MESSAGE *)
  o_slave : bool;
  o_monitor : bool;
  o_pubsub : bool;
  o_fake : bool;               (* fd <= 0 *)
  o_online : bool;             (* not a slave, or one that can receive writes *)
  o_close_after : bool         (* CLIENT_CLOSE_AFTER_REPLY *)
}.

Record oclient := mkO {
  buf : bytes;                             (* its length is bufpos *)
  sentlen : nat;
  reply : list (nat * option bytes);       (* nodes; None is NULL *)
  next_node : nat;                         (* the next address *)
  reply_bytes : Z;
  pending_write : bool;                    (* CLIENT_PENDING_WRITE *)
  handler : bool;                          (* a write event is installed *)
  close_asap : bool;                       (* CLIENT_CLOSE_ASAP *)
  obuf_soft_limit_reached_time : Z;
  oflags_of : oflags
}.

Definition set_out (b : bytes) (sent : nat) (c : oclient) : oclient :=
  mkO b sent (reply c) (next_node c) (reply_bytes c) (pending_write c) (handler c) (close_asap c)
    (obuf_soft_limit_reached_time c) (oflags_of c).
Definition set_reply (l : list (nat * option bytes)) (next : nat) (total : Z) (c : oclient) : oclient :=
  mkO (buf c) (sentlen c) l next total (pending_write c) (handler c) (close_asap c)
    (obuf_soft_limit_reached_time c) (oflags_of c).
Definition set_sched (pw h : bool) (c : oclient) : oclient :=
  mkO (buf c) (sentlen c) (reply c) (next_node c) (reply_bytes c) pw h (close_asap c)
    (obuf_soft_limit_reached_time c) (oflags_of c).
Definition set_limit (asap : bool) (t : Z) (c : oclient) : oclient :=
  mkO (buf c) (sentlen c) (reply c) (next_node c) (reply_bytes c) (pending_write c) (handler c) asap t (oflags_of c).
Definition set_oflags (f : oflags) (c : oclient) : oclient :=
  mkO (buf c) (sentlen c) (reply c) (next_node c) (reply_bytes c) (pending_write c) (handler c) (close_asap c)
    (obuf_soft_limit_reached_time c) f.

Definition bufpos (c : oclient) : Z := Z.of_nat (length (buf c)).

Definition clientHasPendingReplies (c : oclient) : bool :=
  negb (bufpos c =? 0) || negb (Nat.eqb (length (reply c)) 0).

(** ** Preparing to write *)

(** [false] is C_ERR: nothing may be appended.  A client with nothing to send
    so far is scheduled to be written to. *)
Definition prepareClientToWrite (c : oclient) : bool * oclient :=
  let f := oflags_of c in
  if o_lua f then (true, c)
  else if o_off f then (false, c)
  else if o_master f && negb (o_force f) then (false, c)
  else if o_replica f && negb (o_message f) then (false, c)
  else if o_fake f then (false, c)
  else (true, if negb (clientHasPendingReplies c) && negb (pending_write c) && o_online f
              then set_sched true (handler c) c else c).

(** ** Output limits *)

Section Output.
Context (client_obuf_limits : client_type -> clientBufferLimitsConfig) (unixtime : Z).

Definition getClientOutputBufferMemoryUsage (c : oclient) : Z :=
  reply_bytes c + LIST_ITEM_SIZE * Z.of_nat (length (reply c)).

Definition getClientType (c : oclient) : client_type :=
  let f := oflags_of c in
  if o_master f then CLIENT_TYPE_MASTER
  else if o_slave f && negb (o_monitor f) then CLIENT_TYPE_SLAVE
  else if o_pubsub f then CLIENT_TYPE_PUBSUB
  else CLIENT_TYPE_NORMAL.

Definition checkClientOutputBufferLimits (c : oclient) : bool * oclient :=
  let used_mem := getClientOutputBufferMemoryUsage c in
  let class := match getClientType c with CLIENT_TYPE_MASTER => CLIENT_TYPE_NORMAL | t => t end in
  let l := client_obuf_limits class in
  let hard := negb (hard_limit_bytes l =? 0) && (hard_limit_bytes l <=? used_mem) in
  let soft := negb (soft_limit_bytes l =? 0) && (soft_limit_bytes l <=? used_mem) in
  if soft then
    if obuf_soft_limit_reached_time c =? 0
    then (hard, set_limit (close_asap c) unixtime c)
    else
      let elapsed := unixtime - obuf_soft_limit_reached_time c in
      (negb (elapsed <=? soft_limit_seconds l) || hard, c)
  else (hard, set_limit (close_asap c) 0 c).

Definition freeClientAsync (c : oclient) : oclient :=
  if close_asap c || o_lua (oflags_of c) then c else set_limit true (obuf_soft_limit_reached_time c) c.

Definition asyncCloseClientOnOutputBufferLimitReached (c : oclient) : option oclient :=
  if negb (reply_bytes c <? SIZE_MAX - 1024 * 64) then None
  else if (reply_bytes c =? 0) || close_asap c then Some c
  else let '(over, c) := checkClientOutputBufferLimits c in
       Some (if over then freeClientAsync c else c).

(** ** Appending bytes *)

Definition _addReplyToBuffer (s : bytes) (c : oclient) : bool * oclient :=
  let available := PROTO_REPLY_CHUNK_BYTES - bufpos c in
  if o_close_after (oflags_of c) then (true, c)
  else if Nat.ltb 0 (length (reply c)) then (false, c)
  else if available <? Z.of_nat (length s) then (false, c)
  else (true, set_out (buf c ++ s) (sentlen c) c).

Definition listAddNodeTail (v : option bytes) (n : Z) (c : oclient) : oclient :=
  set_reply (reply c ++ [(next_node c, v)]) (S (next_node c)) (reply_bytes c + n) c.

(** The three functions that append to the list differ in who owns the bytes. *)
Definition _addReplyStringToList (s : bytes) (c : oclient) : option oclient :=
  if o_close_after (oflags_of c) then Some c
  else
    let len := Z.of_nat (length s) in
    let c :=
      match last (reply c) with
      | None => listAddNodeTail (Some s) len c
      | Some (id, tail) =>
          match tail with
          | Some t =>
              if Z.of_nat (length t) + len <=? PROTO_REPLY_CHUNK_BYTES
              then set_reply (<[(length (reply c) - 1)%nat := (id, Some (t ++ s))]> (reply c)) (next_node c) (reply_bytes c + len) c
              else listAddNodeTail (Some s) len c
          | None => listAddNodeTail (Some s) len c
          end
      end in
    asyncCloseClientOnOutputBufferLimitReached c.
Definition _addReplyObjectToList : bytes -> oclient -> option oclient := _addReplyStringToList.
Definition _addReplySdsToList : bytes -> oclient -> option oclient := _addReplyStringToList.

(** A string object: its bytes, or an integer. *)
Inductive sobj := O_raw (s : bytes) | O_int (z : Z).
Definition getDecodedObject (o : sobj) : bytes :=
  match o with O_raw s => s | O_int z => sdsll2str z end.

Definition addReply (o : sobj) (c : oclient) : option oclient :=
  let '(ok, c) := prepareClientToWrite c in
  if negb ok then Some c
  else
    match o with
    | O_raw s =>
        let '(ok, c) := _addReplyToBuffer s c in
        if ok then Some c else _addReplyObjectToList s c
    | O_int z =>
        let direct :=
          if Nat.eqb (length (reply c)) 0 && (32 <=? PROTO_REPLY_CHUNK_BYTES - bufpos c) then
            match ll2string (replicate 32 NUL) 32 z with
            | Some s => let '(ok, c) := _addReplyToBuffer s c in if ok then Some c else None
            | None => None
            end
          else None in
        match direct with
        | Some c => Some c
        | None =>
            let s := getDecodedObject o in
            let '(ok, c) := _addReplyToBuffer s c in
            if ok then Some c else _addReplyObjectToList s c
        end
    end.

Definition addReplySds (s : bytes) (c : oclient) : option oclient :=
  let '(ok, c) := prepareClientToWrite c in
  if negb ok then Some c
  else let '(ok, c) := _addReplyToBuffer s c in
       if ok then Some c else _addReplySdsToList s c.

Definition addReplyString (s : bytes) (c : oclient) : option oclient :=
  let '(ok, c) := prepareClientToWrite c in
  if negb ok then Some c
  else let '(ok, c) := _addReplyToBuffer s c in
       if ok then Some c else _addReplyStringToList s c.

(** ** Shared objects ([createSharedObjects]) *)

Definition crlf_obj : bytes := [CR; LF].
Definition line (s : sds) : bytes := chars s ++ crlf_obj.
Definition mbulkhdr (j : Z) : option bytes :=
  if (0 <=? j) && (j <? OBJ_SHARED_BULKHDR_LEN) then Some ("*"%char :: chars (fmt_d j) ++ crlf_obj) else None.
Definition bulkhdr (j : Z) : option bytes :=
  if (0 <=? j) && (j <? OBJ_SHARED_BULKHDR_LEN) then Some ("$"%char :: chars (fmt_d j) ++ crlf_obj) else None.

(** ** Replies *)

Definition addReplyErrorLength (s : bytes) (c : oclient) : option oclient :=
  c ← addReplyString (chars "-ERR ") c; c ← addReplyString s c; addReplyString crlf_obj c.
Definition addReplyError (err : sds) (c : oclient) : option oclient := addReplyErrorLength (cstr (chars err)) c.
(** The formatted text [s]: no ends of lines may be left in it. *)
Definition addReplyErrorFormat (s : bytes) (c : oclient) : option oclient :=
  addReplyErrorLength ((fun x => if isc CR x || isc LF x then " "%char else x) <$> s) c.

Definition addReplyStatusLength (s : bytes) (c : oclient) : option oclient :=
  c ← addReplyString (chars "+") c; c ← addReplyString s c; addReplyString crlf_obj c.
Definition addReplyStatus (status : sds) (c : oclient) : option oclient := addReplyStatusLength (cstr (chars status)) c.
Definition addReplyStatusFormat (s : bytes) (c : oclient) : option oclient := addReplyStatusLength s c.

Definition addReplyLongLongWithPrefix (ll : Z) (prefix : ascii) (c : oclient) : option oclient :=
  if isc "*" prefix && (ll <? OBJ_SHARED_BULKHDR_LEN) && (0 <=? ll) then h ← mbulkhdr ll; addReply (O_raw h) c
  else if isc "$" prefix && (ll <? OBJ_SHARED_BULKHDR_LEN) && (0 <=? ll) then h ← bulkhdr ll; addReply (O_raw h) c
  else
    s ← ll2string (replicate 127 NUL) 127 ll;
    addReplyString (prefix :: s ++ crlf_obj) c.

Definition addReplyLongLong (ll : Z) (c : oclient) : option oclient :=
  if ll =? 0 then addReply (O_raw (line ":0")) c
  else if ll =? 1 then addReply (O_raw (line ":1")) c
  else addReplyLongLongWithPrefix ll ":" c.

Definition addReplyMultiBulkLen (length : Z) (c : oclient) : option oclient :=
  if length <? OBJ_SHARED_BULKHDR_LEN then h ← mbulkhdr length; addReply (O_raw h) c
  else addReplyLongLongWithPrefix length "*" c.

(** The number of characters of an integer, counted by dividing. *)
Fixpoint count_digits (fuel : nat) (n len : Z) : Z :=
  match fuel with
  | O => len
  | S fuel => let n := Z.quot n 10 in if n =? 0 then len else count_digits fuel n (len + 1)
  end.
Definition bulk_len (o : sobj) : Z :=
  match o with
  | O_raw s => Z.of_nat (length s)
  | O_int n => if n <? 0 then count_digits 20 (to_llong (- n)) 2 else count_digits 20 n 1
  end.

Definition addReplyBulkLen (o : sobj) (c : oclient) : option oclient :=
  let len := bulk_len o in
  if len <? OBJ_SHARED_BULKHDR_LEN then h ← bulkhdr len; addReply (O_raw h) c
  else addReplyLongLongWithPrefix len "$" c.

Definition addReplyBulk (o : sobj) (c : oclient) : option oclient :=
  c ← addReplyBulkLen o c; c ← addReply o c; addReply (O_raw crlf_obj) c.
Definition addReplyBulkCBuffer (p : bytes) (c : oclient) : option oclient :=
  c ← addReplyLongLongWithPrefix (Z.of_nat (length p)) "$" c; c ← addReplyString p c; addReply (O_raw crlf_obj) c.
Definition addReplyBulkSds (s : bytes) (c : oclient) : option oclient :=
  c ← addReplyLongLongWithPrefix (Z.of_nat (length s)) "$" c; c ← addReplySds s c; addReply (O_raw crlf_obj) c.
Definition addReplyBulkCString (s : option sds) (c : oclient) : option oclient :=
  match s with
  | None => addReply (O_raw (line "$-1")) c
  | Some s => addReplyBulkCBuffer (cstr (chars s)) c
  end.
Definition addReplyBulkLongLong (ll : Z) (c : oclient) : option oclient :=
  s ← ll2string (replicate 64 NUL) 64 ll; addReplyBulkCBuffer s c.

(** ** Lengths that are not known yet *)

(** The address of the node, or NULL. *)
Definition addDeferredMultiBulkLength (c : oclient) : option nat * oclient :=
  let '(ok, c) := prepareClientToWrite c in
  if negb ok then (None, c) else (Some (next_node c), listAddNodeTail None 0 c).

(** The list with the node filled in, glued to the next one if that holds
    bytes; [None] if there is no such node. *)
Fixpoint fill_node (id : nat) (len : bytes) (l : list (nat * option bytes)) : option (list (nat * option bytes)) :=
  match l with
  | [] => None
  | (i, v) :: l =>
      if Nat.eqb i id then
        Some (match l with
              | (_, Some next) :: l' => (i, Some (len ++ next)) :: l'
              | _ => (i, Some len) :: l
              end)
      else l' ← fill_node id len l; Some ((i, v) :: l')
  end.

Definition setDeferredMultiBulkLength (node : option nat) (length : Z) (c : oclient) : option oclient :=
  match node with
  | None => Some c
  | Some id =>
      let len := "*"%char :: sdsll2str length ++ crlf_obj in
      l ← fill_node id len (reply c);
      asyncCloseClientOnOutputBufferLimitReached
        (set_reply l (next_node c) (reply_bytes c + Z.of_nat (List.length len)) c)
  end.

(** The replies of one client given to another. *)
Definition copyClientOutputBuffer (dst src : oclient) : oclient :=
  set_out (buf src) (sentlen dst)
    (set_reply ((fun p => (next_node dst + p.1, p.2.2)%nat) <$> imap pair (reply src))
       (next_node dst + length (reply src)) (reply_bytes src) dst).
End Output.

(** ** Writing *)

(** What [write] returns: the number of bytes taken, EAGAIN or another error. *)
Inductive wres := W_bytes (n : nat) | W_again | W_error.

(** The last result of the loop. *)
Inductive wstat := WS_none | WS_done (n : nat) | WS_again | WS_error.

(** [write] of the bytes [b]: how many are taken.  A socket with no result left
    cannot take more. *)
Definition do_write (ws : list wres) (b : bytes) : wstat * list wres :=
  match ws with
  | [] => (WS_again, [])
  | W_again :: ws => (WS_again, ws)
  | W_error :: ws => (WS_error, ws)
  | W_bytes n :: ws => (WS_done (Nat.min n (length b)), ws)
  end.

Section Write.
Context (over_memory : bool).          (* maxmemory is set and reached *)

(** The loop of [writeToClient]; [out] is what went to the socket so far. *)
Fixpoint write_loop (fuel : nat) (ws : list wres) (st : wstat) (out : bytes) (c : oclient) : outcome oclient (wstat * bytes) :=
  match fuel with
  | O => OutOfFuel
  | S fuel =>
      let enough out := (NET_MAX_WRITES_PER_EVENT <? Z.of_nat (length out)) && negb over_memory && negb (o_slave (oflags_of c)) in
      if negb (clientHasPendingReplies c) then Done (st, out) c
      else if negb (bufpos c =? 0) then
        let b := drop (sentlen c) (buf c) in
        let '(r, ws) := do_write ws b in
        match r with
        | WS_done (S _ as n) =>
            let out := out ++ take n b in
            let sent := (sentlen c + n)%nat in
            let c := if Nat.eqb sent (length (buf c)) then set_out [] 0 c else set_out (buf c) sent c in
            if enough out then Done (r, out) c else write_loop fuel ws r out c
        | _ => Done (r, out) c
        end
      else
        match reply c with
        | (_, Some o) :: l =>
            if Nat.eqb (length o) 0 then write_loop fuel ws st out (set_reply l (next_node c) (reply_bytes c) c)
            else
              let b := drop (sentlen c) o in
              let '(r, ws) := do_write ws b in
              match r with
              | WS_done (S _ as n) =>
                  let out := out ++ take n b in
                  let sent := (sentlen c + n)%nat in
                  if Nat.eqb sent (length o) then
                    let c := set_out (buf c) 0 (set_reply l (next_node c) (reply_bytes c - Z.of_nat (length o)) c) in
                    if Nat.eqb (length l) 0 && negb (reply_bytes c =? 0) then Crash
                    else if enough out then Done (r, out) c else write_loop fuel ws r out c
                  else
                    let c := set_out (buf c) sent c in
                    if enough out then Done (r, out) c else write_loop fuel ws r out c
              | _ => Done (r, out) c
              end
        | _ => Crash
        end
  end.

(** After the loop: whether the client still exists, and the bytes sent. *)
Definition finish_write (handler_installed : bool) (st : wstat) (out : bytes) (c : oclient) : bool * bytes * oclient :=
  match st with
  | WS_error => (false, out, c)
  | _ =>
      if negb (clientHasPendingReplies c) then
        let c := set_out (buf c) 0 c in
        let c := if handler_installed then set_sched (pending_write c) false c else c in
        (negb (o_close_after (oflags_of c)), out, c)
      else (true, out, c)
  end.

Definition writeToClient (handler_installed : bool) (ws : list wres) (c : oclient) : outcome oclient (bool * bytes) :=
  match write_loop (S (length ws + length (reply c))) ws WS_none [] c with
  | Done (st, out) c => let '(alive, out, c) := finish_write handler_installed st out c in Done (alive, out) c
  | Return c => Return c
  | Crash => Crash
  | OutOfFuel => OutOfFuel
  end.

Definition sendReplyToClient : list wres -> oclient -> outcome oclient (bool * bytes) := writeToClient true.

(** The body of [handleClientsWithPendingWrites] for one client; [installed] is
    the result of creating the write event. *)
Definition handleClientWithPendingWrites (installed : bool) (ws : list wres) (c : oclient) : outcome oclient (bool * bytes) :=
  match writeToClient false ws (set_sched false (handler c) c) with
  | Done (true, out) c =>
      Done (true, out)
        (if clientHasPendingReplies c then if installed then set_sched (pending_write c) true c else freeClientAsync c else c)
  | r => r
  end.
End Write.
