(* ===== verification/OutputQueue.v ===== *)
(** * The output of a client is a queue of bytes

    The static buffer, the list of nodes and the number of bytes already sent
    make one queue, [queue].  The functions of [ClientOutput] append to its end
    and the write handler takes from its front, in pieces of any size; nothing is
    lost, repeated or reordered, and whatever is in the queue is scheduled to be
    written. *)
From Stdlib Require Import Ascii String ZArith Lia.
From stdpp Require Import base numbers list strings.
From S2P Require Import Prelude Sds SdsText ClientOutput.
Open Scope Z_scope.

Create HintDb adds.

(** ** The queue *)

(** The bytes of the nodes; [g] gives those of the nodes not filled in yet. *)
Definition node_bytes (g : nat -> bytes) (n : nat * option bytes) : bytes := default (g n.1) n.2.
Definition flat (g : nat -> bytes) (l : list (nat * option bytes)) : bytes := l ≫= node_bytes g.
Definition queue_with (g : nat -> bytes) (c : oclient) : bytes := drop (sentlen c) (buf c ++ flat g (reply c)).
Arguments flat : simpl never.
Arguments queue_with : simpl never.
Definition no_bytes (id : nat) : bytes := [].
Definition queue (c : oclient) : bytes := queue_with no_bytes c.

(** Every announced length was filled in. *)
Definition filled (c : oclient) : Prop := Forall (fun n => n.2 <> None) (reply c).

Definition sent_ok (c : oclient) : Prop :=
  sentlen c = 0%nat \/ (sentlen c < length (buf c))%nat \/
  (exists id h l, buf c = [] /\ reply c = (id, Some h) :: l /\ (sentlen c < length h)%nat).

Record o_ok (c : oclient) : Prop := {
  o_buf : bufpos c <= PROTO_REPLY_CHUNK_BYTES;
  o_total : reply_bytes c = Z.of_nat (length (flat no_bytes (reply c)));
  o_sent : sent_ok c;
  o_ids : NoDup (reply c).*1;
  o_next : Forall (fun n => n.1 < next_node c)%nat (reply c)
}.

(** Something to send is scheduled to be sent. *)
Definition scheduled (c : oclient) : Prop :=
  clientHasPendingReplies c = true -> o_online (oflags_of c) = true -> pending_write c || handler c = true.

Lemma nodes_app g l k : flat g (l ++ k) = flat g l ++ flat g k.
Proof. apply bind_app. Qed.
Lemma flat_nil g : flat g [] = [].
Proof. done. Qed.
Lemma flat_cons g n l : flat g (n :: l) = node_bytes g n ++ flat g l.
Proof. done. Qed.

Lemma sent_le g c : sent_ok c -> (sentlen c <= length (buf c ++ flat g (reply c)))%nat.
Proof.
  rewrite length_app. intros [->|[H|(id & h & l & Hb & Hr & Hl)]]; [lia|lia|].
  rewrite Hr, flat_cons. cbn. rewrite length_app. lia.
Qed.

Lemma queue_app g c c' s :
  sent_ok c -> sentlen c' = sentlen c -> buf c' ++ flat g (reply c') = (buf c ++ flat g (reply c)) ++ s ->
  queue_with g c' = queue_with g c ++ s.
Proof. intros Hs He Hb. unfold queue_with. rewrite He, Hb. apply drop_app_le. by apply sent_le. Qed.

Lemma no_replies_queue g c : clientHasPendingReplies c = false -> queue_with g c = [].
Proof.
  unfold clientHasPendingReplies, queue_with, bufpos. rewrite orb_false_iff, !negb_false_iff, Z.eqb_eq, Nat.eqb_eq.
  intros [Hb Hr]. destruct (buf c); [|cbn in Hb; lia]. apply nil_length_inv in Hr as ->. apply drop_nil.
Qed.

(** ** Appending *)

(** Such clients accept replies. *)
Definition writable (f : oflags) : Prop :=
  o_lua f = false /\ o_off f = false /\ (o_master f = true -> o_force f = true) /\
  (o_replica f = true -> o_message f = true) /\ o_fake f = false /\ o_close_after f = false.

(** The room the counter of bytes has. *)
Definition BYTES_LIMIT : Z := SIZE_MAX - 1024 * 64.

(** [s] was appended. *)
Record appended (s : bytes) (c c' : oclient) : Prop := {
  a_queue g : queue_with g c' = queue_with g c ++ s;
  a_ok : o_ok c';
  a_flags : oflags_of c' = oflags_of c;
  a_bytes : reply_bytes c' <= reply_bytes c + Z.of_nat (length s);
  a_holes i : (i, None) ∈ reply c' <-> (i, None) ∈ reply c;
  a_sched : scheduled c -> scheduled c'
}.

(** The same with the schedule untouched. *)
Record extended (s : bytes) (c c' : oclient) : Prop := {
  e_queue g : queue_with g c' = queue_with g c ++ s;
  e_ok : o_ok c';
  e_flags : oflags_of c' = oflags_of c;
  e_bytes : reply_bytes c' <= reply_bytes c + Z.of_nat (length s);
  e_holes i : (i, None) ∈ reply c' <-> (i, None) ∈ reply c;
  e_write : pending_write c' = pending_write c;
  e_handler : handler c' = handler c
}.

Lemma appended_trans s t c c1 c2 : appended s c c1 -> appended t c1 c2 -> appended (s ++ t) c c2.
Proof.
  intros [Hq Ho Hf Hb Hh Hs] [Hq' Ho' Hf' Hb' Hh' Hs'].
  split; [intros g; by rewrite Hq', Hq, app_assoc|done|congruence|rewrite length_app; lia|intros i; by rewrite Hh'|auto].
Qed.

(** [f] appends [s] to any client that accepts replies. *)
Definition adds (f : oclient -> option oclient) (s : bytes) : Prop :=
  forall c, o_ok c -> writable (oflags_of c) -> reply_bytes c + Z.of_nat (length s) < BYTES_LIMIT ->
  exists c', f c = Some c' /\ appended s c c'.

Lemma adds_bind f h s t : adds f s -> adds h t -> adds (fun c => f c ≫= h) (s ++ t).
Proof.
  intros Hf Hh c Hok Hw Hr. rewrite length_app in Hr. destruct (Hf c Hok Hw ltac:(lia)) as (c1 & -> & H1).
  destruct H1 as [Hq Hok1 Hfl Hb Hho Hs] eqn:E. destruct (Hh c1 Hok1) as (c2 & H2 & Ha); [by rewrite Hfl|lia|].
  exists c2. split; [done|]. by eapply appended_trans.
Qed.

Section Output.
Context (limits : client_type -> clientBufferLimitsConfig) (unixtime : Z).

Lemma check_limits_some c : exists b t, checkClientOutputBufferLimits limits unixtime c = (b, set_limit (close_asap c) t c).
Proof.
  unfold checkClientOutputBufferLimits. cbv zeta. destruct (negb (soft_limit_bytes _ =? 0) && _); [|eauto].
  destruct (_ =? 0); [eauto|]. eexists _, (obuf_soft_limit_reached_time c). f_equal. by destruct c.
Qed.
Lemma async_close_some c :
  reply_bytes c < BYTES_LIMIT ->
  exists a t, asyncCloseClientOnOutputBufferLimitReached limits unixtime c = Some (set_limit a t c).
Proof.
  intros Hb. unfold asyncCloseClientOnOutputBufferLimitReached, BYTES_LIMIT in *.
  destruct (Z.ltb_spec (reply_bytes c) (SIZE_MAX - 1024 * 64)); [|lia]. cbn [negb]. destruct (_ || _).
  { exists (close_asap c), (obuf_soft_limit_reached_time c). by destruct c. }
  destruct (check_limits_some c) as (b & t & ->). unfold freeClientAsync. destruct b; [|eauto]. destruct (_ || _); cbn; eauto.
Qed.

(** The limits do not concern the queue. *)
Lemma limit_extended a t s c c' : extended s c c' -> extended s c (set_limit a t c').
Proof. intros [Hq [] Hf Hb Ho Hw Hh]. split; [exact Hq|by split|exact Hf|exact Hb|exact Ho|exact Hw|exact Hh]. Qed.

Lemma prepare_writable c :
  o_ok c -> writable (oflags_of c) ->
  exists c1, prepareClientToWrite c = (true, c1) /\ appended [] c c1 /\
    (scheduled c -> o_online (oflags_of c) = true -> pending_write c1 || handler c1 = true).
Proof.
  intros Hok (Hl & Ho & Hm & Hr & Hf & _). unfold prepareClientToWrite. rewrite Hl, Ho, Hf.
  replace (o_master (oflags_of c) && negb (o_force (oflags_of c))) with false by (destruct (o_master (oflags_of c)); [by rewrite Hm|done]).
  replace (o_replica (oflags_of c) && negb (o_message (oflags_of c))) with false by (destruct (o_replica (oflags_of c)); [by rewrite Hr|done]).
  eexists. split; [reflexivity|]. destruct (negb (clientHasPendingReplies c) && _ && _) eqn:E.
  - split; [|done]. split; [intros g; by rewrite app_nil_r|by destruct Hok|done|cbn; lia|done|by intros _ _ _].
  - split.
    + split; [intros g; by rewrite app_nil_r|done|done|cbn; lia|done|auto].
    + intros Hs Hon. rewrite Hon, andb_true_r in E. destruct (clientHasPendingReplies c) eqn:Ep; [by auto|].
      cbn in E. by destruct (pending_write c).
Qed.

(** Into the buffer, or else to the end of the list. *)
Definition put (s : bytes) (c : oclient) : option oclient :=
  let '(ok, c) := _addReplyToBuffer s c in if ok then Some c else _addReplyStringToList limits unixtime s c.

(** A new node at the end of the list. *)
Lemma add_node_ok v n c :
  o_ok c -> n = Z.of_nat (length (node_bytes no_bytes (next_node c, v))) -> o_ok (listAddNodeTail v n c).
Proof.
  intros [Hb Ht Hs Hi Hn] ->. split; [done|..]; cbn.
  - rewrite nodes_app, length_app, flat_cons, length_app, Nat2Z.inj_add, <- Ht, flat_nil. cbn. lia.
  - destruct Hs as [?|[?|(id & h & l & Hb' & Hr & Hl)]]; [by left|by right; left|right; right].
    exists id, h, (l ++ [(next_node c, v)]). cbn. by rewrite Hr.
  - rewrite fmap_app. apply NoDup_app. split_and!; [done| |apply NoDup_singleton]. cbn.
    intros x Hx. rewrite list_elem_of_singleton. intros ->. apply list_elem_of_fmap in Hx as ([i w] & Heq & Hin).
    rewrite Forall_forall in Hn. specialize (Hn _ Hin). cbn in *. lia.
  - apply Forall_app. split; [|apply Forall_singleton; cbn; lia]. eapply Forall_impl; [done|]. cbn. lia.
Qed.

Lemma put_list_extended s c :
  o_ok c -> o_close_after (oflags_of c) = false -> reply_bytes c + Z.of_nat (length s) < BYTES_LIMIT ->
  exists c', _addReplyStringToList limits unixtime s c = Some c' /\ extended s c c'.
Proof.
  intros Hok Hc Hr. unfold _addReplyStringToList. rewrite Hc. cbv zeta.
  match goal with |- context [asyncCloseClientOnOutputBufferLimitReached _ _ ?x] => set (c1 := x) end.
  enough (extended s c c1) as Ha.
  { destruct (async_close_some c1) as (a & t & ->); [destruct Ha; lia|]. eexists. split; [done|]. by apply limit_extended. }
  assert (extended s c (listAddNodeTail (Some s) (Z.of_nat (length s)) c)) as Hnew.
  { split; [|by apply add_node_ok|done|done| |done|done].
    2: { intros i. cbn. rewrite elem_of_app, list_elem_of_singleton. split; [by intros [?|?]|by left]. }
    intros g. apply queue_app; [apply Hok|done|]. cbn. rewrite nodes_app, flat_cons, flat_nil. cbn. by rewrite app_nil_r, app_assoc. }
  subst c1. destruct (last (reply c)) as [[id tail]|] eqn:El; [|done]. destruct tail as [t|]; [|done].
  destruct (_ <=? _); [|done]. apply last_Some in El as [l Hl]. rewrite Hl, length_app. cbn [length].
  replace (length l + 1 - 1)%nat with (length l) by lia. rewrite insert_app_r_alt by lia.
  rewrite ?Nat.sub_diag. cbn [list_insert]. destruct Hok as [Hb Ht Hse Hi Hn].
  rewrite Hl in Ht, Hi, Hn. split; [| |done|done| |done|done].
  - intros g. apply queue_app; [done|done|]. cbn. rewrite Hl, !nodes_app, !flat_cons, !flat_nil. cbn. by rewrite !app_nil_r, !app_assoc.
  - split; cbn; [done|..].
    + rewrite nodes_app, flat_cons, flat_nil in *. cbn in *. rewrite !app_nil_r, !length_app in *. lia.
    + destruct Hse as [?|[?|(i & h & l' & Hb' & Hr' & Hl')]]; [by left|by right; left|right; right].
      cbn. rewrite Hl in Hr'. clear Hl. destruct l as [|x l]; simplify_eq/=.
      * exists i, (h ++ s), []. rewrite length_app. split_and!; [done|done|lia].
      * exists i, h, (l ++ [(id, Some (t ++ s))]). done.
    + rewrite fmap_app in *. done.
    + apply Forall_app in Hn as [Hn1 Hn2]. apply Forall_app. split; [done|]. rewrite Forall_singleton in *. done.
  - intros i. cbn. rewrite Hl, !elem_of_app, !list_elem_of_singleton. split; by intros [?|?]; [left|].
Qed.

Lemma put_extended s c :
  o_ok c -> o_close_after (oflags_of c) = false -> reply_bytes c + Z.of_nat (length s) < BYTES_LIMIT ->
  exists c', put s c = Some c' /\ extended s c c'.
Proof.
  intros Hok Hc Hr. unfold put, _addReplyToBuffer. rewrite Hc. cbv zeta.
  destruct (Nat.ltb_spec 0 (length (reply c))) as [Hlt|Hle]; [by apply put_list_extended|].
  destruct (Z.ltb_spec (PROTO_REPLY_CHUNK_BYTES - bufpos c) (Z.of_nat (length s))) as [Hlt|Hge]; [by apply put_list_extended|].
  assert (reply c = []) as Hnil by (apply nil_length_inv; lia).
  eexists. split; [reflexivity|]. destruct Hok as [Hb Ht Hse Hi Hn]. split; [| |done|cbn; lia|done..].
  - intros g. apply queue_app; [done|done|]. cbn. rewrite Hnil, flat_nil. by rewrite !app_nil_r.
  - split; cbn; try done.
    + unfold bufpos in *. cbn. rewrite length_app. lia.
    + destruct Hse as [?|[?|(i & h & l' & _ & Hr' & _)]]; [by left|right; left|by rewrite Hnil in Hr'].
      cbn. rewrite length_app. lia.
Qed.

(** Preparing and appending: the three basic functions. *)
Lemma adds_put s : adds (fun c => let '(ok, c) := prepareClientToWrite c in if negb ok then Some c else put s c) s.
Proof.
  intros c Hok Hw Hr. destruct (prepare_writable c Hok Hw) as (c1 & -> & [Hq1 Hok1 Hf1 Hb1 Ho1 _] & Hs). cbn [negb].
  cbn [length] in Hb1. destruct (put_extended s c1) as (c2 & -> & [Hq2 Hok2 Hf2 Hb2 Ho2 Hw2 Hh2]); [done|rewrite Hf1; apply Hw|lia|].
  exists c2. split; [done|]. split; [intros g; by rewrite Hq2, Hq1, app_nil_r|done|congruence|lia|intros i; by rewrite Ho2|].
  intros Hsc _ Hon. rewrite Hw2, Hh2. apply Hs; [done|congruence].
Qed.

Lemma digits_rev_le f v : (length (digits_rev f v) <= f)%nat.
Proof. revert v. induction f as [|f IH]; intros v; cbn; [lia|]. destruct (_ =? 0); cbn; [lia|]. specialize (IH (v / 10)). lia. Qed.
Lemma sdsll2str_length z : (length (sdsll2str z) <= 21)%nat.
Proof.
  unfold sdsll2str. rewrite length_rev. pose proof (digits_rev_le 20 (if z <? 0 then to_ullong (- z) else z)).
  destruct (z <? 0); rewrite ?length_app; cbn [length]; lia.
Qed.
Lemma ll2string_fits n m z : 21 < m <= Z.of_nat n -> in_llong z -> ll2string (replicate n NUL) m z = Some (sdsll2str z).
Proof. intros Hn Hz. pose proof (sdsll2str_length z). apply ll2string_sdsll2str; [done|rewrite length_replicate; lia|lia]. Qed.

(** ** The functions that append *)

Lemma adds_string s : adds (addReplyString limits unixtime s) s.
Proof. exact (adds_put s). Qed.
Lemma adds_sds s : adds (addReplySds limits unixtime s) s.
Proof. exact (adds_put s). Qed.
Lemma adds_raw s : adds (addReply limits unixtime (O_raw s)) s.
Proof. exact (adds_put s). Qed.
Lemma adds_int z : in_llong z -> adds (addReply limits unixtime (O_int z)) (sdsll2str z).
Proof.
  intros Hz c Hok Hw Hr. destruct (adds_put (sdsll2str z) c Hok Hw Hr) as (c' & Hp & Ha). exists c'. split; [|done].
  unfold addReply, getDecodedObject. destruct (prepareClientToWrite c) as [[] c1]; [|done]. cbn [negb] in *.
  rewrite (ll2string_fits 32 32 z ltac:(lia) Hz). unfold put in Hp.
  destruct (_ && _); [|done]. destruct (_addReplyToBuffer (sdsll2str z) c1) as [[] c2] eqn:E; done.
Qed.
#[local] Hint Resolve adds_string adds_sds adds_raw adds_int : adds.

Lemma adds_eq f s t : adds f s -> s = t -> adds f t.
Proof. by intros ? <-. Qed.
Lemma adds_ext f h s : adds f s -> (forall c, h c = f c) -> adds h s.
Proof. intros Hf He c. rewrite He. apply Hf. Qed.

Lemma adds_error s : adds (addReplyErrorLength limits unixtime s) (chars "-ERR " ++ s ++ crlf_obj).
Proof. repeat apply adds_bind; auto with adds. Qed.
Lemma adds_status s : adds (addReplyStatusLength limits unixtime s) (chars "+" ++ s ++ crlf_obj).
Proof. repeat apply adds_bind; auto with adds. Qed.

(** A number with a prefix, by the shared headers or not. *)
Definition num_line (p : ascii) (z : Z) : bytes := p :: sdsll2str z ++ crlf_obj.

Lemma adds_prefix z p : in_llong z -> adds (addReplyLongLongWithPrefix limits unixtime z p) (num_line p z).
Proof.
  intros Hz. unfold addReplyLongLongWithPrefix.
  assert (forall q, isc q p && (z <? OBJ_SHARED_BULKHDR_LEN) && (0 <=? z) = true -> p = q /\ (0 <=? z) && (z <? OBJ_SHARED_BULKHDR_LEN) = true) as Hsh.
  { intros q H. rewrite !andb_true_iff in *. destruct H as [[Hp ?] ?]. by apply is_true in Hp. }
  destruct (isc "*" p && _ && _) eqn:E1; [|destruct (isc "$" p && _ && _) eqn:E2].
  - destruct (Hsh _ E1) as [-> Hr]. unfold mbulkhdr, fmt_d. rewrite Hr, chars_of_chars. cbn [mbind option_bind]. auto with adds.
  - destruct (Hsh _ E2) as [-> Hr]. unfold bulkhdr, fmt_d. rewrite Hr, chars_of_chars. cbn [mbind option_bind]. auto with adds.
  - rewrite (ll2string_fits 127 127 z ltac:(lia) Hz). cbn [mbind option_bind]. auto with adds.
Qed.
#[local] Hint Resolve adds_prefix : adds.

Lemma adds_longlong z : in_llong z -> adds (addReplyLongLong limits unixtime z) (num_line ":" z).
Proof.
  intros Hz. unfold addReplyLongLong. destruct (Z.eqb_spec z 0) as [->|]; [apply adds_raw|].
  destruct (Z.eqb_spec z 1) as [->|]; [apply adds_raw|]. by apply adds_prefix.
Qed.
Lemma adds_multibulklen z : 0 <= z <= LLONG_MAX -> adds (addReplyMultiBulkLen limits unixtime z) (num_line "*" z).
Proof.
  intros Hz. unfold addReplyMultiBulkLen. destruct (Z.ltb_spec z OBJ_SHARED_BULKHDR_LEN) as [Hlt|]; [|apply adds_prefix; clia].
  unfold mbulkhdr, fmt_d. replace ((0 <=? z) && (z <? OBJ_SHARED_BULKHDR_LEN)) with true by lia.
  rewrite chars_of_chars. cbn [mbind option_bind]. apply adds_raw.
Qed.

(** Counting the digits gives the length of the printed number. *)
Lemma count_digits_pos f n len : 0 <= n -> count_digits f n len = len + Z.of_nat (length (digits_rev (S f) n)) - 1.
Proof.
  revert n len. induction f as [|f IH]; intros n len Hn; cbn [count_digits].
  - cbn. destruct (_ =? 0); cbn; lia.
  - rewrite Z.quot_div_nonneg by lia. change (digits_rev (S (S f)) n) with (digit_char (n mod 10) :: (if n / 10 =? 0 then [] else digits_rev (S f) (n / 10))).
    destruct (Z.eqb_spec (n / 10) 0) as [|Hd]; [cbn; lia|]. rewrite IH by (apply Z.div_pos; lia). cbn [length]. lia.
Qed.
Lemma digits_rev_more f n : 0 <= n < 10 ^ Z.of_nat f -> (0 < f)%nat -> digits_rev (S f) n = digits_rev f n.
Proof.
  revert n. induction f as [|f IH]; intros n Hn Hf; [lia|]. cbn [digits_rev]. f_equal.
  destruct (Z.eqb_spec (n / 10) 0) as [|Hd]; [done|]. destruct f as [|f].
  - exfalso. apply Hd, Z.div_small. change (10 ^ Z.of_nat 1) with 10 in Hn. lia.
  - apply IH; [|lia]. by apply div10_pow.
Qed.
Lemma bulk_len_int z : in_llong z -> bulk_len (O_int z) = Z.of_nat (length (sdsll2str z)).
Proof.
  intros Hz. unfold bulk_len, sdsll2str. destruct (Z.ltb_spec z 0) as [Hneg|Hpos].
  - destruct (Z.eq_dec z LLONG_MIN) as [->|Hm]; [by vm_compute|].
    rewrite to_llong_id by (unfold in_llong, LLONG_MIN, LLONG_MAX in *; lia).
    rewrite to_ullong_id by (unfold in_ullong, in_llong, ULLONG_MAX, LLONG_MIN, LLONG_MAX in *; lia).
    rewrite count_digits_pos by lia. rewrite digits_rev_more; [|unfold in_llong, LLONG_MIN in *; cbn; lia|lia].
    rewrite length_rev, length_app. cbn [length]. lia.
  - rewrite count_digits_pos by lia. rewrite digits_rev_more; [|unfold in_llong, LLONG_MAX in *; cbn; lia|lia].
    rewrite length_rev. lia.
Qed.

(** The bytes of an object and the objects whose length fits. *)
Definition obj_ok (o : sobj) : Prop :=
  match o with O_raw s => Z.of_nat (length s) <= LLONG_MAX | O_int z => in_llong z end.
Definition bulk_line (s : bytes) : bytes := num_line "$" (Z.of_nat (length s)) ++ s ++ crlf_obj.

Lemma adds_obj o : obj_ok o -> adds (addReply limits unixtime o) (getDecodedObject o).
Proof. destruct o; cbn; auto with adds. Qed.
Lemma bulk_len_obj o : obj_ok o -> bulk_len o = Z.of_nat (length (getDecodedObject o)).
Proof. destruct o; [done|]. apply bulk_len_int. Qed.

Lemma adds_bulklen o : obj_ok o -> adds (addReplyBulkLen limits unixtime o) (num_line "$" (Z.of_nat (length (getDecodedObject o)))).
Proof.
  intros Ho. unfold addReplyBulkLen. rewrite (bulk_len_obj o Ho).
  assert (Z.of_nat (length (getDecodedObject o)) <= LLONG_MAX) as Hl.
  { destruct o as [|z]; [done|]. pose proof (sdsll2str_length z). unfold LLONG_MAX. cbn. lia. }
  set (n := Z.of_nat (length (getDecodedObject o))) in *.
  destruct (Z.ltb_spec n OBJ_SHARED_BULKHDR_LEN) as [Hlt|]; [|apply adds_prefix; clia].
  unfold bulkhdr, fmt_d. replace ((0 <=? n) && (n <? OBJ_SHARED_BULKHDR_LEN)) with true by lia.
  rewrite chars_of_chars. cbn [mbind option_bind]. apply adds_raw.
Qed.
Lemma adds_bulk o : obj_ok o -> adds (addReplyBulk limits unixtime o) (bulk_line (getDecodedObject o)).
Proof.
  intros Ho. unfold bulk_line. apply adds_bind; [by apply adds_bulklen|]. apply adds_bind; [by apply adds_obj|apply adds_raw].
Qed.
Lemma adds_bulk_buffer s : Z.of_nat (length s) <= LLONG_MAX -> adds (addReplyBulkCBuffer limits unixtime s) (bulk_line s).
Proof. intros Hs. unfold bulk_line. apply adds_bind; [apply adds_prefix; clia|]. apply adds_bind; [apply adds_string|apply adds_raw]. Qed.
Lemma adds_bulk_sds s : Z.of_nat (length s) <= LLONG_MAX -> adds (addReplyBulkSds limits unixtime s) (bulk_line s).
Proof. intros Hs. unfold bulk_line. apply adds_bind; [apply adds_prefix; clia|]. apply adds_bind; [apply adds_sds|apply adds_raw]. Qed.
Lemma adds_bulk_longlong z : in_llong z -> adds (addReplyBulkLongLong limits unixtime z) (bulk_line (sdsll2str z)).
Proof.
  intros Hz. unfold addReplyBulkLongLong. rewrite (ll2string_fits 64 64 z ltac:(lia) Hz). cbn [mbind option_bind].
  apply adds_bulk_buffer. pose proof (sdsll2str_length z). unfold LLONG_MAX. lia.
Qed.

Lemma cstr_length p : (length (cstr p) <= length p)%nat.
Proof. induction p as [|c p IH]; cbn; [lia|]. destruct (isc NUL c); cbn; lia. Qed.

Lemma adds_bulk_cstring e :
  Z.of_nat (length (chars e)) <= LLONG_MAX -> adds (addReplyBulkCString limits unixtime (Some e)) (bulk_line (cstr (chars e))).
Proof. intros He. apply adds_bulk_buffer. pose proof (cstr_length (chars e)). lia. Qed.

(** An error text loses its ends of lines and nothing else. *)
Definition one_line (s t : bytes) : Prop :=
  length t = length s /\ (CR ∉ t) /\ (LF ∉ t) /\
  forall i x, s !! i = Some x -> t !! i = Some (if decide (x = CR \/ x = LF) then " "%char else x).

Lemma adds_error_format s :
  exists t, one_line s t /\ adds (addReplyErrorFormat limits unixtime s) (chars "-ERR " ++ t ++ crlf_obj).
Proof.
  eexists. split; [|apply adds_error].
  assert (forall x, (if isc CR x || isc LF x then " "%char else x) = if decide (x = CR \/ x = LF) then " "%char else x) as Hx.
  { intros x. case_decide as Hx; destruct (isc CR x || isc LF x) eqn:E; try done.
    - exfalso. apply orb_false_iff in E as [E1 E2]. by destruct Hx; subst.
    - apply orb_true_iff in E as [E|E]; apply is_true in E; tauto. }
  split_and!.
  - apply length_fmap.
  - rewrite list_elem_of_fmap. intros (x & Heq & _). rewrite Hx in Heq. case_decide; [done|]. subst. tauto.
  - rewrite list_elem_of_fmap. intros (x & Heq & _). rewrite Hx in Heq. case_decide; [done|]. subst. tauto.
  - intros i x Hi. rewrite list_lookup_fmap, Hi. cbn. by rewrite Hx.
Qed.

(** ** Lengths filled in later *)

Definition fill_with (id : nat) (s : bytes) (g : nat -> bytes) : nat -> bytes := fun i => if Nat.eqb i id then s else g i.

Lemma flat_fresh id s g l : id ∉ l.*1 -> flat (fill_with id s g) l = flat g l.
Proof.
  induction l as [|[i v] l IH]; [done|]. cbn. rewrite not_elem_of_cons. intros [Hi Hl]. rewrite !flat_cons, IH by done.
  f_equal. unfold node_bytes, fill_with. cbn. by destruct (Nat.eqb_spec i id).
Qed.

(** The node [id] of the list gets the bytes [s], possibly together with the
    next node. *)
Lemma fill_node_spec id s l :
  NoDup l.*1 -> (id, None) ∈ l ->
  exists l', fill_node id s l = Some l' /\ (forall g, flat g l' = flat (fill_with id s g) l) /\ l'.*1 `sublist_of` l.*1 /\
    (forall i h k, l = (i, Some h) :: k -> exists k', l' = (i, Some h) :: k') /\
    (forall i, (i, None) ∈ l' <-> (i, None) ∈ l /\ i <> id).
Proof.
  induction l as [|[i v] l IH]; cbn [fill_node]; rewrite ?fmap_cons; intros Hnd Hin; [by apply not_elem_of_nil in Hin|].
  apply NoDup_cons in Hnd as [Hi Hnd]. destruct (Nat.eqb_spec i id) as [->|Hne].
  - assert (v = None) as ->.
    { apply elem_of_cons in Hin as [Heq|Hin]; [by injection Heq|]. exfalso. apply Hi. by apply (list_elem_of_fmap_2 fst l (id, None)). }
    assert (forall i, (i, @None bytes) ∈ l -> i <> id) as Hother.
    { intros i Hil ->. apply Hi. by apply (list_elem_of_fmap_2 fst l (id, None)). }
    assert (forall g, flat (fill_with id s g) ((id, None) :: l) = s ++ flat g l) as Hfl.
    { intros g. rewrite flat_cons, flat_fresh by done. unfold node_bytes, fill_with. cbn. by rewrite Nat.eqb_refl. }
    assert (forall i, (i, @None bytes) ∈ (id, None) :: l /\ i <> id <-> (i, @None bytes) ∈ l) as Hmem.
    { intros i. rewrite elem_of_cons. split; [by intros [[[= ->]|?] ?]|]. intros H. split; [by right|by apply Hother]. }
    assert (forall k : nat * option bytes, (forall i, k <> (i, None)) -> forall m i, (i, None) ∈ k :: m <-> (i, @None bytes) ∈ m) as Hsome.
    { intros k Hk m i. rewrite elem_of_cons. split; [intros [He|?]; [by destruct (Hk i)|done]|by right]. }
    eexists. split; [reflexivity|]. destruct l as [|[j [w|]] l].
    + split_and!; [intros g; by rewrite Hfl, flat_cons|done|done|]. intros i. by rewrite Hmem, Hsome.
    + split_and!; [|by apply sublist_skip, sublist_cons|done|].
      * intros g. rewrite Hfl, !flat_cons. cbn. by rewrite <- app_assoc.
      * intros i. rewrite Hmem, !Hsome; done.
    + split_and!; [intros g; by rewrite Hfl, flat_cons|done|done|]. intros i. by rewrite Hmem, Hsome.
  - destruct IH as (l' & -> & Hfl & Hsub & Hhd & Hmem); [done|by apply elem_of_cons in Hin as [[= -> _]|?]|].
    eexists. split; [reflexivity|]. split_and!.
    + intros g. rewrite !flat_cons, Hfl. f_equal. unfold node_bytes, fill_with. cbn. by destruct (Nat.eqb_spec i id).
    + by apply sublist_skip.
    + intros i' h k [= -> -> _]. by exists l'.
    + intros i'. rewrite !elem_of_cons, Hmem. split; [intros [[= -> ->]|[? ?]]; auto|]. intros [[?|?] ?]; auto.
Qed.

Lemma deferred_announced c :
  o_ok c -> writable (oflags_of c) ->
  exists id c', addDeferredMultiBulkLength c = (Some id, c') /\ o_ok c' /\ oflags_of c' = oflags_of c /\
    (forall g, queue_with g c' = queue_with g c ++ g id) /\ ((id, None) ∉ reply c) /\
    (forall i, (i, None) ∈ reply c' <-> ((i, None) ∈ reply c) \/ i = id) /\
    reply_bytes c' <= reply_bytes c /\ (scheduled c -> scheduled c').
Proof.
  intros Hok Hw. destruct (prepare_writable c Hok Hw) as (c1 & Hp & [Hq1 Hok1 Hf1 Hb1 Ho1 _] & Hs).
  unfold addDeferredMultiBulkLength. rewrite Hp. cbn [negb]. eexists _, _. split; [reflexivity|]. split_and!.
  - by apply add_node_ok.
  - done.
  - intros g. rewrite (queue_app g c1 _ (g (next_node c1))); [by rewrite Hq1, app_nil_r|apply Hok1|done|].
    cbn. rewrite nodes_app, flat_cons, flat_nil, app_nil_r, app_assoc. done.
  - intros Hin. rewrite <- Ho1 in Hin. destruct Hok1 as [_ _ _ _ Hn]. rewrite Forall_forall in Hn. specialize (Hn _ Hin). cbn in Hn. lia.
  - intros i. cbn. rewrite elem_of_app, list_elem_of_singleton, Ho1. split; [intros [?|[= ->]]; auto|intros [?| ->]; auto].
  - cbn in *. lia.
  - intros Hsc _ Hon. apply Hs; [done|]. cbn in Hon. congruence.
Qed.

Lemma deferred_set id n c :
  o_ok c -> (id, None) ∈ reply c -> reply_bytes c + 24 < BYTES_LIMIT -> 
  exists c', setDeferredMultiBulkLength limits unixtime (Some id) n c = Some c' /\ o_ok c' /\ oflags_of c' = oflags_of c /\
    (forall g, queue_with g c' = queue_with (fill_with id (num_line "*" n) g) c) /\
    (forall i, (i, None) ∈ reply c' <-> (i, None) ∈ reply c /\ i <> id) /\ (scheduled c -> scheduled c').
Proof.
  intros Hok Hin Hb. destruct Hok as [Hbuf Ht Hs Hi Hn].
  destruct (fill_node_spec id (num_line "*" n) (reply c) Hi Hin) as (l' & Hl & Hfl & Hsub & Hhd & Hmem).
  unfold setDeferredMultiBulkLength. fold (num_line "*" n). cbv zeta. rewrite Hl. cbn [mbind option_bind].
  pose proof (sdsll2str_length n) as Hlen.
  destruct (async_close_some (set_reply l' (next_node c) (reply_bytes c + Z.of_nat (length (num_line "*" n))) c)) as (a & t & ->).
  { unfold num_line. cbn. rewrite length_app. cbn. lia. }
  assert (flat no_bytes l' ≡ₚ num_line "*" n ++ flat no_bytes (reply c)) as Hperm.
  { rewrite Hfl. clear -Hi Hin. apply list_elem_of_split in Hin as (l1 & l2 & Hr). rewrite Hr in *. rewrite fmap_app, fmap_cons in Hi.
    apply NoDup_app in Hi as (_ & H1 & H2). apply NoDup_cons in H2 as [H2 _].
    rewrite !nodes_app, !flat_cons, !flat_fresh; [|done|intros H; apply (H1 id H); by left]. unfold node_bytes, fill_with. cbn.
    rewrite Nat.eqb_refl. solve_Permutation. }
  eexists. split; [reflexivity|]. split_and!; [|done| |exact Hmem|].
  - split; [done| | | |].
    + cbn [reply reply_bytes set_limit set_reply]. rewrite Hperm, length_app, Ht. lia.
    + destruct Hs as [?|[?|(i & h & k & Hb' & Hr & Hl')]]; [by left|by right; left|right; right].
      destruct (Hhd i h k Hr) as [k' Hk']. by exists i, h, k'.
    + by eapply sublist_NoDup.
    + rewrite Forall_forall in *. intros x Hx. cbn in *. apply (list_elem_of_fmap_2 fst) in Hx.
      apply (elem_of_sublist _ _ _ Hx) in Hsub. apply list_elem_of_fmap in Hsub as (y & -> & Hy). by apply Hn.
  - intros g. unfold queue_with. cbn. by rewrite Hfl.
  - intros Hsc Hp Hon. apply Hsc; [|done]. unfold clientHasPendingReplies. apply orb_true_iff. right.
    destruct (reply c); [by apply not_elem_of_nil in Hin|done].
Qed.

(** A header announced, replies added after it, the header filled in. *)
Lemma deferred_header n c :
  o_ok c -> writable (oflags_of c) -> filled c ->
  exists id c1, addDeferredMultiBulkLength c = (Some id, c1) /\
    forall s c2, appended s c1 c2 -> reply_bytes c2 + 24 < BYTES_LIMIT ->
      exists c3, setDeferredMultiBulkLength limits unixtime (Some id) n c2 = Some c3 /\
        queue c3 = queue c ++ num_line "*" n ++ s /\ o_ok c3.
Proof.
  intros Hok Hw Hfi. destruct (deferred_announced c Hok Hw) as (id & c1 & Hd & Hok1 & _ & Hq1 & _ & Hh1 & _ & _).
  exists id, c1. split; [done|]. intros s c2 [Hq2 Hok2 _ _ Hh2 _] Hb.
  destruct (deferred_set id n c2 Hok2) as (c3 & Hset & Hok3 & _ & Hq3 & _ & _); [apply Hh2, Hh1; by right|done|].
  exists c3. split; [done|]. split; [|done]. unfold queue at 1. rewrite Hq3, Hq2, Hq1.
  unfold fill_with at 2. rewrite Nat.eqb_refl, <- app_assoc. f_equal. unfold queue, queue_with. do 2 f_equal.
  clear -Hfi. unfold filled in Hfi. induction Hfi as [|[i [v|]] l Hv _ IH]; [done| |done]. by rewrite !flat_cons, IH.
Qed.
End Output.

(** ** Writing *)

Section Write.
Context (over_memory : bool).

(** One write of [b], the front of the queue. *)
Lemma do_write_some ws b n ws' :
  do_write ws b = (WS_done n, ws') -> (n <= length b)%nat /\ (length ws' < length ws)%nat.
Proof. destruct ws as [|[m| |] ws]; cbn; intros [= <- <-]. split; lia. Qed.

Definition same_client (c c' : oclient) : Prop :=
  oflags_of c' = oflags_of c /\ pending_write c' = pending_write c /\ handler c' = handler c.

Lemma take_buf n c :
  o_ok c -> buf c <> [] -> (n <= length (drop (sentlen c) (buf c)))%nat ->
  let c' := if Nat.eqb (sentlen c + n) (length (buf c)) then set_out [] 0 c else set_out (buf c) (sentlen c + n) c in
  o_ok c' /\ queue c = take n (drop (sentlen c) (buf c)) ++ queue c'.
Proof.
  intros [Hb Ht Hs Hi Hn] Hne Hle. assert (sentlen c < length (buf c))%nat as Hlt.
  { destruct Hs as [->|[?|(i & h & l & Hb' & _)]]; [destruct (buf c); [done|cbn; lia]|done|done]. }
  rewrite length_drop in Hle. unfold queue, queue_with. rewrite (drop_app_le _ (flat _ _)) by lia.
  cbv zeta. destruct (Nat.eqb_spec (sentlen c + n) (length (buf c))) as [He|He].
  - split; [split; try done; by left|]. cbn. f_equal.
    symmetry. apply take_ge. rewrite length_drop. lia.
  - split; [split; try done; right; left; cbn; lia|]. cbn. rewrite drop_app_le by lia.
    by rewrite app_assoc, <- drop_drop, take_drop.
Qed.

Lemma take_node n c id o l :
  o_ok c -> buf c = [] -> reply c = (id, Some o) :: l -> o <> [] -> (n <= length (drop (sentlen c) o))%nat ->
  let c' := if Nat.eqb (sentlen c + n) (length o)
            then set_out (buf c) 0 (set_reply l (next_node c) (reply_bytes c - Z.of_nat (length o)) c)
            else set_out (buf c) (sentlen c + n) c in
  o_ok c' /\ queue c = take n (drop (sentlen c) o) ++ queue c' /\ (l = [] -> reply_bytes c - Z.of_nat (length o) = 0).
Proof.
  intros [Hb Ht Hs Hi Hn] Hbuf Hr Ho Hle. assert (sentlen c < length o)%nat as Hlt.
  { destruct Hs as [->|[Hl|(i & h & k & _ & Hr' & Hl)]]; [destruct o; [done|cbn; lia]|rewrite Hbuf in Hl; cbn in Hl; lia|].
    rewrite Hr in Hr'. by simplify_eq. }
  rewrite length_drop in Hle. rewrite Hr, flat_cons in Ht. change (node_bytes no_bytes (id, Some o)) with o in Ht. rewrite length_app in Ht.
  split_and!; [| |intros ->; rewrite flat_nil in Ht; cbn in Ht; lia].
  - cbv zeta. destruct (Nat.eqb_spec (sentlen c + n) (length o)) as [He|He].
    + split; [done| | | |]; cbn; [lia|by left|..].
      * rewrite Hr in Hi. by apply NoDup_cons in Hi as [_ ?].
      * rewrite Hr in Hn. by apply Forall_cons_1 in Hn as [_ ?].
    + split; try done; [cbn; rewrite Hr, flat_cons; cbn; rewrite length_app; lia|].
      right; right. exists id, o, l. cbn. split_and!; [done|done|lia].
  - unfold queue, queue_with. rewrite Hbuf, Hr, flat_cons. change (node_bytes no_bytes (id, Some o)) with o. cbn [app]. rewrite (drop_app_le o) by lia.
    cbv zeta. destruct (Nat.eqb_spec (sentlen c + n) (length o)) as [He|He]; cbn; rewrite ?Hbuf, ?Hr, ?flat_cons; cbn.
    + f_equal. symmetry. apply take_ge. rewrite length_drop. lia.
    + rewrite (drop_app_le o) by lia. by rewrite app_assoc, <- drop_drop, take_drop.
Qed.

Lemma filled_cons c n l : filled c -> reply c = n :: l -> n.2 <> None /\ Forall (fun n => n.2 <> None) l.
Proof. unfold filled. intros H Hr. rewrite Hr in H. by apply Forall_cons_1 in H. Qed.

(** What a run of the loop from [c] leaves: [out'] is the front of the queue,
    and an error comes from the socket. *)
Definition no_error (ws : list wres) (st : wstat) : Prop := (W_error ∉ ws) /\ st <> WS_error.
Definition written (c : oclient) (out : bytes) (st : wstat) (ws : list wres) (r : outcome oclient (wstat * bytes)) : Prop :=
  exists st' out' c', r = Done (st', out ++ out') c' /\ queue c = out' ++ queue c' /\ o_ok c' /\ filled c' /\ same_client c c' /\
    (forall n ws', ws = W_bytes (S n) :: ws' -> queue c <> [] -> out' <> []) /\ (no_error ws st -> st' <> WS_error).

Lemma written_stop c out st st' ws : o_ok c -> filled c -> queue c = [] \/ (forall n ws', ws <> W_bytes (S n) :: ws') ->
  (no_error ws st -> st' <> WS_error) -> written c out st ws (Done (st', out) c).
Proof.
  intros Hok Hf Hq Hst. exists st', [], c. rewrite app_nil_r. split_and!; try done. intros n ws' Hws Hne. destruct Hq; [done|naive_solver].
Qed.

(** [b] was written, and the rest of the loop ran from there. *)
Lemma written_more c c1 out b st st1 ws ws1 r :
  b <> [] -> queue c = b ++ queue c1 -> same_client c c1 -> (no_error ws st -> no_error ws1 st1) ->
  written c1 (out ++ b) st1 ws1 r -> written c out st ws r.
Proof.
  intros Hb Hq (Hf & Hp & Hh) Hne (st' & out' & c' & -> & Hq' & Hok' & Hfi & (Hf' & Hp' & Hh') & _ & Hst).
  exists st', (b ++ out'), c'. rewrite app_assoc. split_and!; try done.
  - rewrite Hq, Hq'. by rewrite app_assoc.
  - split_and!; congruence.
  - intros n ws' _ _. by destruct b.
  - auto.
Qed.

Lemma skip_node c id l :
  o_ok c -> buf c = [] -> reply c = (id, Some []) :: l ->
  let c1 := set_reply l (next_node c) (reply_bytes c) c in o_ok c1 /\ queue c1 = queue c.
Proof.
  intros [Hb Ht Hs Hi Hn] Hbuf Hr. cbv zeta. rewrite Hr in Hi, Hn, Ht. split.
  - split; [done|done| | |].
    + left. destruct Hs as [?|[Hl|(i & h & k & _ & Hr' & Hl)]]; [done|rewrite Hbuf in Hl; cbn in Hl; lia|].
      rewrite Hr in Hr'. simplify_eq. cbn in Hl. lia.
    + by apply NoDup_cons in Hi as [_ ?].
    + by apply Forall_cons_1 in Hn as [_ ?].
  - unfold queue, queue_with. cbn. by rewrite Hr, flat_cons.
Qed.

Lemma do_write_none ws b r ws' :
  b <> [] -> do_write ws b = (r, ws') -> (forall n, r <> WS_done (S n)) -> forall n ws'', ws <> W_bytes (S n) :: ws''.
Proof.
  intros Hb Hd Hr n ws'' ->. cbn in Hd. injection Hd as <- <-. destruct b as [|x b]; [done|]. by apply (Hr (Nat.min n (length b))).
Qed.

Lemma do_write_error ws b r ws' st : do_write ws b = (r, ws') -> no_error ws st -> no_error ws' r.
Proof.
  intros Hd [Hw Hs]. destruct ws as [|[m| |] ws]; cbn in Hd; injection Hd as <- <-; [by split|..];
    rewrite not_elem_of_cons in Hw; by destruct Hw.
Qed.

Lemma write_step c c1 out b st ws ws' n (enough : bool) r :
  b <> [] -> queue c = b ++ queue c1 -> same_client c c1 -> o_ok c1 -> filled c1 -> (no_error ws st -> no_error ws' (WS_done n)) ->
  written c1 (out ++ b) (WS_done n) ws' r -> written c out st ws (if enough then Done (WS_done n, out ++ b) c1 else r).
Proof.
  intros Hb Hq Hs Hok Hf He Hw. destruct enough; [|by eapply written_more].
  apply (written_more c c1 out b st (WS_done n) ws []); try done; [intros H; split; [by apply not_elem_of_nil|done]|].
  apply written_stop; [done|done|by right|done].
Qed.

(** There are bytes left in the node or in the buffer that is being sent. *)
Lemma sending_node c id o l : o_ok c -> buf c = [] -> reply c = (id, Some o) :: l -> o <> [] -> drop (sentlen c) o <> [].
Proof.
  intros Hok Hbuf Hr Hne H. apply (f_equal length) in H. rewrite length_drop in H. cbn in H.
  assert (length o <> 0%nat) by (by destruct o). destruct (o_sent c Hok) as [Hs|[Hs|(i & h & k & _ & Hr' & Hs)]].
  - lia.
  - rewrite Hbuf in Hs. cbn in Hs. lia.
  - rewrite Hr in Hr'. simplify_eq. lia.
Qed.
Lemma sending_buf c : o_ok c -> buf c <> [] -> drop (sentlen c) (buf c) <> [].
Proof.
  intros Hok Hne H. apply (f_equal length) in H. rewrite length_drop in H. cbn in H.
  assert (length (buf c) <> 0%nat) by (by destruct (buf c)). destruct (o_sent c Hok) as [Hs|[Hs|(i & h & k & Hb & _)]]; [lia|lia|done].
Qed.
Lemma take_ne {A} n (l : list A) : l <> [] -> take (S n) l <> [].
Proof. by destruct l. Qed.

Lemma write_loop_spec fuel : forall ws st out c,
  (length ws + length (reply c) < fuel)%nat -> o_ok c -> filled c -> written c out st ws (write_loop over_memory fuel ws st out c).
Proof.
  induction fuel as [|fuel IH]; intros ws st out c Hfu Hok Hfi; [lia|]. cbn [write_loop].
  destruct (clientHasPendingReplies c) eqn:Ep; cbn [negb].
  2: { apply written_stop; [done|done|left; by apply no_replies_queue|by intros [_ ?]]. }
  destruct (Z.eqb_spec (bufpos c) 0) as [Hz|Hz]; cbn [negb].
  - assert (buf c = []) as Hbuf by (apply nil_length_inv; unfold bufpos in Hz; lia).
    destruct (reply c) as [|[id v] l] eqn:Hr.
    { exfalso. unfold clientHasPendingReplies, bufpos in Ep. by rewrite Hbuf, Hr in Ep. }
    destruct (filled_cons c _ l Hfi Hr) as [Hv Hl]. destruct v as [o|]; [|done].
    destruct (Nat.eqb_spec (length o) 0) as [Ho|Ho].
    + apply nil_length_inv in Ho as ->. destruct (skip_node c id l Hok Hbuf Hr) as [Hok1 Hq1].
      destruct (IH ws st out (set_reply l (next_node c) (reply_bytes c) c)) as (st' & out' & c' & -> & Hq' & Hrest); [cbn in *; lia|done|done|].
      exists st', out', c'. rewrite <- Hq1. split_and!; try done; apply Hrest.
    + assert (o <> []) as Hne by (by intros ->). destruct (do_write ws (drop (sentlen c) o)) as [r ws'] eqn:Ew.
      pose proof (sending_node c id o l Hok Hbuf Hr Hne) as Hdne.
      destruct r as [|[|n]| |]; try (apply written_stop; [done|done|right; by eapply do_write_none|intros H; apply (do_write_error _ _ _ _ _ Ew H)]).
      destruct (do_write_some _ _ _ _ Ew) as [Hle Hws]. destruct (take_node (S n) c id o l Hok Hbuf Hr Hne Hle) as (Hok1 & Hq1 & Hz1).
      cbn [length] in Hfu. destruct (Nat.eqb_spec (sentlen c + S n) (length o)) as [He|He].
      * assert (Nat.eqb (length l) 0 && negb (reply_bytes c - Z.of_nat (length o) =? 0) = false) as Hass.
        { destruct l as [|x l']; [|done]. by rewrite (Hz1 eq_refl). }
        cbn [reply_bytes set_out set_reply]. rewrite Hass.
        apply (write_step c _ out _ st ws ws'); try done; [by apply take_ne|by apply do_write_error with (1 := Ew)|]. apply IH; [cbn; lia|done|done].
      * apply (write_step c _ out _ st ws ws'); try done; [by apply take_ne|by apply do_write_error with (1 := Ew)|].
        apply IH; [cbn; rewrite Hr; cbn; lia|done|done].
  - assert (buf c <> []) as Hbuf by (intros H; unfold bufpos in Hz; by rewrite H in Hz).
    pose proof (sending_buf c Hok Hbuf) as Hdne. destruct (do_write ws (drop (sentlen c) (buf c))) as [r ws'] eqn:Ew.
    destruct r as [|[|n]| |]; try (apply written_stop; [done|done|right; by eapply do_write_none|intros H; apply (do_write_error _ _ _ _ _ Ew H)]).
    destruct (do_write_some _ _ _ _ Ew) as [Hle Hws]. destruct (take_buf (S n) c Hok Hbuf Hle) as (Hok1 & Hq1).
    destruct (Nat.eqb_spec (sentlen c + S n) (length (buf c))) as [He|He].
    all: apply (write_step c _ out _ st ws ws'); try done; [by apply take_ne|by apply do_write_error with (1 := Ew)|]; apply IH; [cbn; lia|done|done].
Qed.

(** ** The handlers *)

Lemma finish_write_spec h st out c :
  o_ok c -> filled c ->
  exists alive c', finish_write h st out c = (alive, out, c') /\ queue c' = queue c /\ o_ok c' /\ filled c' /\
    oflags_of c' = oflags_of c /\ pending_write c' = pending_write c /\
    (handler c' = handler c \/ (h = true /\ clientHasPendingReplies c' = false)) /\
    (st <> WS_error -> o_close_after (oflags_of c) = false -> alive = true).
Proof.
  intros Hok Hfi. unfold finish_write.
  assert (clientHasPendingReplies c = false -> o_ok (set_out (buf c) 0 c) /\ queue (set_out (buf c) 0 c) = queue c) as Hend.
  { intros Hno. split; [destruct Hok; split; try done; by left|]. unfold queue at 2. rewrite (no_replies_queue _ c Hno).
    unfold queue. by apply no_replies_queue. }
  destruct (clientHasPendingReplies c) eqn:Ep; cbn [negb].
  { destruct st; eexists _, _; (split; [reflexivity|]); split_and!; auto. }
  destruct (Hend eq_refl) as [Hok2 Hq2].
  destruct st; eexists _, _; (split; [reflexivity|]); try (split_and!; auto; done).
  all: destruct h; split_and!; auto; try (by destruct Hok2); intros _ Hca; cbn; by rewrite Hca.
Qed.

(** The client exists after the write, with what was not sent yet; or it was
    freed, after an error or because it was to be closed. *)
Lemma writeToClient_spec h ws c :
  o_ok c -> filled c ->
  exists alive out c', writeToClient over_memory h ws c = Done (alive, out) c' /\ queue c = out ++ queue c' /\ o_ok c' /\ filled c' /\
    oflags_of c' = oflags_of c /\ pending_write c' = pending_write c /\
    (handler c' = handler c \/ (h = true /\ clientHasPendingReplies c' = false)) /\
    (forall n ws', ws = W_bytes (S n) :: ws' -> queue c <> [] -> out <> []) /\
    (W_error ∉ ws -> o_close_after (oflags_of c) = false -> alive = true).
Proof.
  intros Hok Hfi. unfold writeToClient.
  destruct (write_loop_spec (S (length ws + length (reply c))) ws WS_none [] c ltac:(lia) Hok Hfi) as
    (st & out & c' & -> & Hq & Hok' & Hfi' & (Hf & Hp & Hh) & Hpr & Hst). cbn [app].
  destruct (finish_write_spec h st out c' Hok' Hfi') as (alive & c2 & -> & Hq2 & Hok2 & Hfi2 & Hf2 & Hp2 & Hh2 & Ha).
  exists alive, out, c2. rewrite Hq2, Hf2, Hp2. split_and!; [done..| | |].
  - destruct Hh2 as [?|?]; [left; congruence|by right].
  - done.
  - intros Hne Hca. apply Ha; [by apply Hst|congruence].
Qed.

(** What is left is scheduled: by the event that is installed, or by the one
    that was. *)
Lemma handler_scheduled ws c :
  o_ok c -> filled c -> handler c = true ->
  exists alive out c', sendReplyToClient over_memory ws c = Done (alive, out) c' /\ queue c = out ++ queue c' /\
    o_ok c' /\ filled c' /\ oflags_of c' = oflags_of c /\ scheduled c' /\
    (forall n ws', ws = W_bytes (S n) :: ws' -> queue c <> [] -> out <> []) /\
    (W_error ∉ ws -> o_close_after (oflags_of c) = false -> alive = true).
Proof.
  intros Hok Hfi Hh. destruct (writeToClient_spec true ws c Hok Hfi) as (alive & out & c' & Hw & Hq & Hok' & Hfi' & Hf & _ & Hh' & Hrest).
  exists alive, out, c'. split_and!; try done; [|apply Hrest..]. intros Hp _. apply orb_true_iff. right.
  destruct Hh' as [->|[_ He]]; [done|congruence].
Qed.
Lemma pending_scheduled ws c :
  o_ok c -> filled c ->
  exists alive out c', handleClientWithPendingWrites over_memory true ws c = Done (alive, out) c' /\ queue c = out ++ queue c' /\
    o_ok c' /\ filled c' /\ oflags_of c' = oflags_of c /\ (alive = true -> scheduled c') /\
    (forall n ws', ws = W_bytes (S n) :: ws' -> queue c <> [] -> out <> []) /\
    (W_error ∉ ws -> o_close_after (oflags_of c) = false -> alive = true).
Proof.
  intros Hok Hfi. unfold handleClientWithPendingWrites.
  destruct (writeToClient_spec false ws (set_sched false (handler c) c)) as
    (alive & out & c' & -> & Hq & Hok' & Hfi' & Hf & _ & _ & Hpr & Hal); [by destruct Hok|done|].
  destruct alive; cbn [oflags_of set_sched] in *; eexists _, _, _; (split; [reflexivity|]); [|by split_and!].
  destruct (clientHasPendingReplies c') eqn:Ep.
  - split_and!; try done; [by destruct Hok'|]. intros _ _ _. cbn. apply orb_true_r.
  - split_and!; try done. intros _ Hp. congruence.
Qed.
End Write.
