(* ===== verification/Wire.v ===== *)
(** * From one server to another

    The broadcast of [p2p.c] on the level of bytes, and a link: the output queue
    of the sender, the bytes under way, and the reader of the receiver.  What is
    broadcast at one end is what is run at the other, whatever the pieces in
    which the bytes are written and read. *)
From Stdlib Require Import Ascii String ZArith Lia Relations.
From stdpp Require Import base numbers list strings.
From S2P Require Import Prelude Sds SdsText ClientInput ClientStream ClientOutput OutputQueue.
Open Scope Z_scope.

(** ** Shared objects *)

Definition lines (l : list sds) : bytes := l ≫= line.
Definition shared_multi : bytes := lines ["*1"; "$5"; "MULTI"]%string.
Definition shared_exec : bytes := lines ["*1"; "$4"; "EXEC"]%string.
Definition shared_replhandshake : bytes := lines ["*3"; "$9"; "REPLICATE"; "$7"; "replica"; "$9"; "handshake"]%string.

(** The format of a SELECT request, from the text of the number. *)
Definition select_format (llstr : bytes) : bytes :=
  lines ["*2"; "$6"; "SELECT"]%string ++ "$"%char :: chars (fmt_d (Z.of_nat (length llstr))) ++ crlf_obj ++ llstr ++ crlf_obj.
Definition shared_select (j : Z) : option bytes :=
  s ← ll2string (replicate 64 NUL) 64 j; Some (select_format s).
Definition LONG_STR_SIZE : Z := 21.

(** ** The broadcast ([p2p.c]) *)

(** [replica->flags |= CLIENT_REPLICA_MESSAGE] and back. *)
Definition set_message (b : bool) (c : oclient) : oclient :=
  let f := oflags_of c in
  set_oflags (mkOF (o_lua f) (o_off f) (o_master f) (o_force f) (o_replica f) b (o_slave f) (o_monitor f) (o_pubsub f)
                (o_fake f) (o_online f) (o_close_after f)) c.

Section Broadcast.
Context (limits : client_type -> clientBufferLimitsConfig) (unixtime : Z).

Definition select_cmd (dictid : Z) : option bytes :=
  if (0 <=? dictid) && (dictid <? PROTO_SHARED_SELECT_CMDS) then shared_select dictid
  else s ← ll2string (replicate 21 NUL) LONG_STR_SIZE dictid; Some (select_format s).

Definition send_select (selectcmd : bytes) (replica : oclient) : option oclient :=
  c ← addReply limits unixtime (O_raw shared_multi) (set_message true replica);
  c ← addReply limits unixtime (O_raw selectcmd) c;
  Some (set_message false c).

Fixpoint send_bulks (argv : list sds) (c : oclient) : option oclient :=
  match argv with
  | [] => Some c
  | a :: argv => c ← addReplyBulk limits unixtime (O_raw (chars a)) c; send_bulks argv c
  end.

Definition send_command (selected : bool) (argv : list sds) (replica : oclient) : option oclient :=
  c ← addReplyMultiBulkLen limits unixtime (Z.of_nat (length argv)) (set_message true replica);
  c ← send_bulks argv c;
  c ← (if selected then addReply limits unixtime (O_raw shared_exec) c else Some c);
  Some (set_message false c).

(** The replicas afterwards and [server.p2p_seldb]. *)
Definition replicationBroadcast (replicas : list oclient) (p2p_seldb dictid : Z) (argv : list sds) : option (list oclient * Z) :=
  if Nat.eqb (length replicas) 0 then Some (replicas, p2p_seldb)
  else
    let selected := negb (p2p_seldb =? dictid) in
    replicas ← (if selected then selectcmd ← select_cmd dictid; mapM (send_select selectcmd) replicas else Some replicas);
    replicas ← mapM (send_command selected argv) replicas;
    Some (replicas, dictid).

(** ** What it sends *)

(** The requests one broadcast makes. *)
Definition requests (p2p_seldb dictid : Z) (argv : list sds) : list (list sds) :=
  if negb (p2p_seldb =? dictid) then [["MULTI"%string]; ["SELECT"%string; sdsfromlonglong dictid]; argv; ["EXEC"%string]] else [argv].

(** The requests of broadcasts, each a database and a command, when the last
    database a message was sent for is [sel]. *)
Fixpoint chain (sel : Z) (l : list (Z * list sds)) : list (list sds) :=
  match l with
  | [] => []
  | (d, argv) :: l => requests sel d argv ++ chain d l
  end.

(** The database of the last one. *)
Definition last_db (sel : Z) (l : list (Z * list sds)) : Z := foldl (fun _ b => b.1) sel l.

Lemma chain_snoc sel l d argv : chain sel (l ++ [(d, argv)]) = chain sel l ++ requests (last_db sel l) d argv.
Proof.
  revert sel. induction l as [|[d' a'] l IH]; intros sel; cbn [chain app]; [by rewrite app_nil_r|].
  by rewrite IH, <- app_assoc.
Qed.

Lemma multi_enc : shared_multi = enc_cmd ["MULTI"%string].
Proof. reflexivity. Qed.
Lemma exec_enc : shared_exec = enc_cmd ["EXEC"%string].
Proof. reflexivity. Qed.
Lemma replhandshake_enc : shared_replhandshake = enc_cmd ["REPLICATE"; "replica"; "handshake"]%string.
Proof. reflexivity. Qed.
Lemma select_enc z : select_format (sdsll2str z) = enc_cmd ["SELECT"%string; sdsfromlonglong z].
Proof.
  unfold select_format, enc_cmd, sdsfromlonglong, fmt_d. cbn [mbind list_bind length]. unfold enc_bulk at 2, enc_num, slen.
  rewrite !chars_of_chars, app_nil_r. cbn. rewrite <- !app_assoc. done.
Qed.
Lemma select_cmd_enc z : in_int z -> select_cmd z = Some (enc_cmd ["SELECT"%string; sdsfromlonglong z]).
Proof.
  intros Hz. unfold select_cmd, shared_select. rewrite <- select_enc.
  destruct (_ && _); [by rewrite (ll2string_fits 64 64 z ltac:(lia)) by clia|].
  rewrite ll2string_sdsll2str; [done|clia|done|]. pose proof (int_length z Hz). unfold LONG_STR_SIZE. lia.
Qed.

Lemma adds_bulks argv : Forall (fun a => Z.of_nat (slen a) <= LLONG_MAX) argv -> adds (send_bulks argv) (argv ≫= enc_bulk).
Proof.
  induction 1 as [|a argv Ha _ IH].
  - intros c Hok _ _. exists c. split; [done|]. split; [intros g; by rewrite app_nil_r|done|done|cbn; lia|done|done].
  - apply (adds_bind (addReplyBulk limits unixtime (O_raw (chars a))) (send_bulks argv) (enc_bulk a) _); [|done].
    by apply (adds_bulk limits unixtime (O_raw (chars a))).
Qed.

(** ** A link *)

(** A client of [server.replicas] that can be sent to. *)
Record link_ok (c : oclient) : Prop := {
  l_ok : o_ok c;
  l_open : writable (oflags_of (set_message true c)) /\ o_online (oflags_of c) = true;
  l_filled : filled c;
  l_sched : scheduled c
}.

Lemma filled_holes c : filled c <-> forall i, ((i, None) ∉ reply c).
Proof.
  unfold filled. rewrite Forall_forall. split; [intros H i Hin; by apply (H _ Hin)|].
  intros H [i [v|]] Hin; [done|]. by destruct (H i).
Qed.

(** [s] was sent on a link. *)
Definition sent_on (s : bytes) (c c' : oclient) : Prop :=
  queue c' = queue c ++ s /\ link_ok c' /\ reply_bytes c' <= reply_bytes c + Z.of_nat (length s) /\ 
  oflags_of (set_message true c') = oflags_of (set_message true c).

(** A message: the flag is set around it. *)
Lemma send_message f s c :
  adds f s -> link_ok c -> reply_bytes c + Z.of_nat (length s) < BYTES_LIMIT ->
  exists c', (c ← f (set_message true c); Some (set_message false c)) = Some c' /\ sent_on s c c'.
Proof.
  intros Hf [Hok [Hw Hon] Hfi Hs] Hr. destruct (Hf (set_message true c)) as (c1 & -> & [Hq Hok1 Hf1 Hb1 Hh1 Hs1]); [by destruct Hok|done|done|].
  cbn [mbind option_bind]. eexists. split; [reflexivity|]. unfold sent_on. split_and!; [apply (Hq no_bytes)| |done|].
  - split; [by destruct Hok1| | |exact (Hs1 Hs)].
    + replace (oflags_of (set_message true (set_message false c1))) with (oflags_of (set_message true c));
        [split; [done|]; cbn; by rewrite Hf1|]. cbn. rewrite Hf1. by destruct c as [? ? ? ? ? ? ? ? ? []].
    + apply filled_holes. intros i. cbn. rewrite Hh1. by apply filled_holes.
  - cbn. rewrite Hf1. by destruct c as [? ? ? ? ? ? ? ? ? []].
Qed.

Lemma sent_on_trans s t c c1 c2 : sent_on s c c1 -> sent_on t c1 c2 -> sent_on (s ++ t) c c2.
Proof.
  intros (Hq & _ & Hb & Hf) (Hq' & Hl & Hb' & Hf'). unfold sent_on. rewrite length_app, Hq', Hq, app_assoc.
  split_and!; [done|done|lia|congruence].
Qed.

Lemma send_select_sent z c :
  link_ok c -> let s := enc_cmd ["MULTI"%string] ++ enc_cmd ["SELECT"%string; sdsfromlonglong z] in
  reply_bytes c + Z.of_nat (length s) < BYTES_LIMIT ->
  exists c', send_select (enc_cmd ["SELECT"%string; sdsfromlonglong z]) c = Some c' /\ sent_on s c c'.
Proof.
  intros Hl s Hr. destruct (send_message (fun c => c ← addReply limits unixtime (O_raw shared_multi) c;
    addReply limits unixtime (O_raw (enc_cmd ["SELECT"%string; sdsfromlonglong z])) c) s c) as (c' & He & Hs); [|done|done|].
  - apply (adds_bind (addReply limits unixtime (O_raw shared_multi))); apply adds_raw.
  - exists c'. split; [|done]. rewrite <- He. unfold send_select. cbn [mbind option_bind].
    by destruct (addReply limits unixtime (O_raw shared_multi) (set_message true c)).
Qed.

Lemma send_command_sent (selected : bool) argv c :
  link_ok c -> Z.of_nat (length argv) <= LLONG_MAX -> Forall (fun a => Z.of_nat (slen a) <= LLONG_MAX) argv ->
  let s := enc_cmd argv ++ (if selected then enc_cmd ["EXEC"%string] else []) in
  reply_bytes c + Z.of_nat (length s) < BYTES_LIMIT ->
  exists c', send_command selected argv c = Some c' /\ sent_on s c c'.
Proof.
  intros Hl Hn Ha s Hr.
  assert (adds (fun c => if selected then addReply limits unixtime (O_raw shared_exec) c else Some c) (if selected then enc_cmd ["EXEC"%string] else [])) as Hx.
  { destruct selected; [apply adds_raw|]. intros c0 Hok _ _. exists c0. split; [done|].
    split; [intros g; by rewrite app_nil_r|done|done|cbn; lia|done|done]. }
  destruct (send_message (fun c : oclient => c ← addReplyMultiBulkLen limits unixtime (Z.of_nat (length argv)) c; c ← send_bulks argv c;
    if selected then addReply limits unixtime (O_raw shared_exec) c else Some c) s c) as (c' & He & Hs); [|done|done|].
  - unfold s, enc_cmd at 1. rewrite <- app_assoc. apply (adds_bind (addReplyMultiBulkLen limits unixtime (Z.of_nat (length argv)))).
    + apply (adds_multibulklen limits unixtime (Z.of_nat (length argv))). lia.
    + apply (adds_bind (send_bulks argv)); [by apply adds_bulks|exact Hx].
  - exists c'. split; [|done]. rewrite <- He. unfold send_command. cbn [mbind option_bind].
    destruct (addReplyMultiBulkLen limits unixtime (Z.of_nat (length argv)) (set_message true c)) as [c1|]; [|done].
    cbn [mbind option_bind]. by destruct (send_bulks argv c1).
Qed.

Lemma mapM_all {A B} (f : A -> option B) (P : A -> B -> Prop) l :
  Forall (fun a => exists b, f a = Some b /\ P a b) l -> exists k, mapM f l = Some k /\ Forall2 P l k.
Proof.
  induction 1 as [|a l (b & Hb & Hp) _ (k & Hk & Hf)]; [by exists []|]. exists (b :: k). cbn. rewrite Hb. cbn. rewrite Hk. by split; [|constructor].
Qed.

(** The bytes of one broadcast. *)
Definition message (p2p_seldb dictid : Z) (argv : list sds) : bytes := requests p2p_seldb dictid argv ≫= enc_cmd.

(** Every link gets the requests of the broadcast, after all it was sent
    before. *)
Lemma broadcast_spec replicas p2p_seldb dictid argv :
  Forall link_ok replicas -> in_int dictid -> Z.of_nat (length argv) <= LLONG_MAX ->
  Forall (fun a => Z.of_nat (slen a) <= LLONG_MAX) argv ->
  Forall (fun c => reply_bytes c + Z.of_nat (length (message p2p_seldb dictid argv)) < BYTES_LIMIT) replicas -> replicas <> [] ->
  exists rs, replicationBroadcast replicas p2p_seldb dictid argv = Some (rs, dictid) /\
    Forall2 (sent_on (message p2p_seldb dictid argv)) replicas rs.
Proof.
  intros Hl Hd Hn Ha Hr Hne. unfold replicationBroadcast, message, requests in *.
  destruct (Nat.eqb_spec (length replicas) 0) as [Hz|_]; [by apply nil_length_inv in Hz|].
  destruct (negb (p2p_seldb =? dictid)); cbn [mbind list_bind] in Hr |- *.
  - rewrite (select_cmd_enc dictid Hd). cbn [mbind option_bind].
    set (s1 := enc_cmd ["MULTI"%string] ++ enc_cmd ["SELECT"%string; sdsfromlonglong dictid]).
    set (s2 := enc_cmd argv ++ enc_cmd ["EXEC"%string]).
    match type of Hr with Forall (fun c => _ + Z.of_nat (length ?x) < _) _ => replace x with (s1 ++ s2) in * by (unfold s1, s2; by rewrite app_nil_r, <- app_assoc) end.
    destruct (mapM_all (send_select (enc_cmd ["SELECT"%string; sdsfromlonglong dictid])) (sent_on s1) replicas) as (r1 & -> & H1).
    { rewrite Forall_forall in *. intros c Hc. apply send_select_sent; [by apply Hl|]. specialize (Hr c Hc). rewrite length_app in Hr. fold s1. lia. }
    cbn [mbind option_bind]. destruct (mapM_all (send_command true argv) (sent_on s2) r1) as (r2 & -> & H2).
    { rewrite Forall_forall. intros c1 Hc1. apply list_elem_of_lookup in Hc1 as [i Hi].
      destruct (Forall2_lookup_r _ _ _ _ _ H1 Hi) as (c & Hc & (_ & Hl1 & Hb1 & _)).
      apply send_command_sent; try done. apply list_elem_of_lookup_2 in Hc. rewrite Forall_forall in Hr. specialize (Hr c Hc).
      rewrite length_app in Hr. fold s2. lia. }
    exists r2. split; [done|]. clear -H1 H2. revert r2 H2. induction H1 as [|c c1 r r1 Hs _ IH]; intros r2 H2; inversion H2; subst; constructor; [by eapply sent_on_trans|auto].
  - rewrite app_nil_r in *. cbn [mbind option_bind]. destruct (mapM_all (send_command false argv) (sent_on (enc_cmd argv)) replicas) as (r2 & -> & H2); [|by exists r2].
    rewrite Forall_forall in Hl, Hr |- *. intros c Hc. specialize (Hr c Hc).
    destruct (send_command_sent false argv c) as (c' & Hc' & Hs); [by apply Hl|done|done|by rewrite app_nil_r|]. rewrite app_nil_r in Hs. eauto.
Qed.
End Broadcast.
