(* ===== verification/Link.v ===== *)
(** * A link as a state machine

    One server broadcasts, its event loop writes what the socket takes, the other
    server reads what has arrived: each is a step, in any order.  In every
    reachable state the receiver has run a prefix of what was broadcast, and
    from every reachable state the rest can be delivered. *)
From Stdlib Require Import Ascii String ZArith Lia.
From stdpp Require Import base numbers list strings relations.
From S2P Require Import Prelude Sds SdsText ClientInput ClientStream ClientOutput OutputQueue Wire.
Open Scope Z_scope.

Section Link.
Context {S : Type} (good : list sds -> Prop) (processCommand : list sds -> cflags -> S -> presult * S) (paused : S -> bool).
Context `{Hcalm : !CalmServer good processCommand paused}.
(** The requests around a command in another database are of the kind the
    receiver takes. *)
Context (Hgood : forall sel dictid argv, good argv -> Forall good (requests sel dictid argv)).
Context (limits : client_type -> clientBufferLimitsConfig) (over_memory : bool) (unixtime : Z).
Context (maxbulk maxbuf : Z) (Hmin : 16 <= maxbulk) (Hmax : maxbulk + 2 <= INT_MAX).
Context (Hbuf : PROTO_INLINE_MAX_SIZE <= maxbuf) (Hbuf' : maxbulk + 2 <= maxbuf).

(** The sender's client, the database its last message was for, the bytes under
    way, the receiver's client and state, the requests sent so far and the
    broadcasts they come from. *)
Record net := mkNet {
  n_out : oclient; n_seldb : Z; n_chan : bytes; n_in : qclient; n_state : S; n_sent : list (list sds);
  n_log : list (Z * list sds)
}.

Inductive step : net -> net -> Prop :=
  | S_broadcast o sel ch i s sent log dictid argv o' :
      in_int dictid -> cmd_ok maxbulk argv -> good argv ->
      reply_bytes o + Z.of_nat (length (message sel dictid argv)) < BYTES_LIMIT ->
      replicationBroadcast limits unixtime [o] sel dictid argv = Some ([o'], dictid) ->
      step (mkNet o sel ch i s sent log) (mkNet o' dictid ch i s (sent ++ requests sel dictid argv) (log ++ [(dictid, argv)]))
  | S_pending o sel ch i s sent log ws b o' :
      pending_write o = true -> (W_error ∉ ws) ->
      handleClientWithPendingWrites over_memory true ws o = Done (true, b) o' ->
      step (mkNet o sel ch i s sent log) (mkNet o' sel (ch ++ b) i s sent log)
  | S_event o sel ch i s sent log ws b o' :
      handler o = true -> (W_error ∉ ws) ->
      sendReplyToClient over_memory ws o = Done (true, b) o' ->
      step (mkNet o sel ch i s sent log) (mkNet o' sel (ch ++ b) i s sent log)
  | S_read o sel ch i s sent log n i' fed s' :
      let b := take (Nat.min n (Z.to_nat (readlen i))) ch in
      b <> [] ->
      readQueryFromClient processCommand paused maxbulk maxbuf unixtime (N_data b) i s = Done (Some i', fed) s' ->
      step (mkNet o sel ch i s sent log) (mkNet o sel (drop (length b) ch) i' s' sent log).

(** A new link, on which the greeting may already be queued. *)
Definition fresh_link (s0 : S) (n : net) : Prop :=
  link_ok (n_out n) /\ queue (n_out n) = (n_sent n ≫= enc_cmd) /\ Forall (cmd_ok maxbulk) (n_sent n) /\ Forall good (n_sent n) /\
  n_chan n = [] /\ n_in n = createClient /\ n_state n = s0 /\ n_log n = [].

(** What holds of every reachable state. *)
Definition link_inv (s0 : S) (n : net) : Prop :=
  link_ok (n_out n) /\
  exists ran todo, n_sent n = ran ++ todo /\
    run_all processCommand ran (no_flags, s0) = (flags (n_in n), n_state n) /\ calm (flags (n_in n)) /\
    errs (n_in n) = [] /\ Forall (cmd_ok maxbulk) todo /\ Forall good todo /\ small (n_in n) 0 /\
    expects (n_in n) (n_chan n ++ queue (n_out n)) todo /\
    (n_chan n ++ queue (n_out n) = [] -> todo = [] /\ querybuf (n_in n) = []).

Lemma expects_extend c F cmds more : expects c F cmds -> expects c (F ++ (more ≫= enc_cmd)) (cmds ++ more).
Proof.
  intros [? Hr Hm Hb Ha Hs|read todo cmds' Hr Ht Hm Ha Hw].
  - apply E_idle; try done. by rewrite app_assoc, Hs, bind_app.
  - apply (E_args _ _ read todo (cmds' ++ more)); try done. rewrite bind_app.
    destruct Hw as [? Hb Hs|? ? Hb Hbig Hs]; [apply A_header|apply A_inside]; try done; rewrite app_assoc, Hs; by rewrite <- !app_assoc.
Qed.

Lemma requests_ok sel dictid argv : in_int dictid -> cmd_ok maxbulk argv -> Forall (cmd_ok maxbulk) (requests sel dictid argv).
Proof using Hmin.
  intros Hd Hc. assert (forall l : list sds, l <> [] -> (length l <= 16)%nat -> Forall (fun a => slen a <= 16)%nat l -> cmd_ok maxbulk l) as Hs.
  { intros l Hne Hl Hf. split_and!; [done|unfold MAX_MULTIBULK; lia|]. eapply Forall_impl; [exact Hf|]. unfold arg_ok. cbn. lia. }
  assert (slen (sdsfromlonglong dictid) <= 16)%nat as Hz.
  { unfold slen, sdsfromlonglong. rewrite chars_of_chars. pose proof (int_length dictid Hd). lia. }
  unfold requests. destruct (negb _); [|by apply Forall_singleton].
  apply Forall_cons_2; [|apply Forall_cons_2; [|apply Forall_cons_2; [done|apply Forall_singleton]]]; apply Hs; try done; try (cbn; lia);
    repeat (apply Forall_cons_2; [done || (cbn; lia)|]); apply Forall_nil_2.
Qed.
Lemma message_nonempty sel dictid argv : message sel dictid argv <> [].
Proof. unfold message, requests. by destruct (negb _). Qed.

Lemma fresh_link_inv s0 n : fresh_link s0 n -> link_inv s0 n.
Proof.
  intros (Hl & Hq & Hok & Hgd & Hch & Hi & Hs & _). split; [done|]. exists [], (n_sent n). rewrite Hi, Hs, Hch, Hq. cbn [app].
  split_and!; try done; [by left|apply E_idle; auto|]. intros H. split; [|done]. by destruct (n_sent n).
Qed.

(** A write moves bytes from the queue to the channel. *)
Lemma write_inv s0 o sel ch i s sent log b o' :
  link_inv s0 (mkNet o sel ch i s sent log) -> queue o = b ++ queue o' -> o_ok o' -> filled o' -> oflags_of o' = oflags_of o -> scheduled o' ->
  link_inv s0 (mkNet o' sel (ch ++ b) i s sent log).
Proof.
  intros [[Hok Hw Hfi Hsc] (ran & todo & Hrest)] Hq Hok' Hfi' Hf Hsc'. cbn in *. split.
  - split; [done| |done|done]. cbn in *. by rewrite Hf.
  - exists ran, todo. cbn. rewrite <- app_assoc, <- Hq. done.
Qed.

Lemma step_inv s0 n n' : step n n' -> link_inv s0 n -> link_inv s0 n'.
Proof using Hcalm Hgood Hmin Hmax Hbuf Hbuf'.
  intros Hst Hinv. destruct Hst as [o sel ch i s sent log dictid argv o' Hd Hc Hga Hr Hbc|o sel ch i s sent log ws b o' Hp He Hw|
    o sel ch i s sent log ws b o' Hh He Hw|o sel ch i s sent log k i' fed s' b Hb Hrd].
  - destruct Hinv as [Hl (ran & todo & Hsent & Hrun & Hca & Her & Hok & Hgd & Hsm & Hex & _)]. cbn [n_out n_seldb n_chan n_in n_state n_sent n_log] in *.
    destruct Hc as (Hne & Hlen & Hall) eqn:Ec. destruct (broadcast_spec limits unixtime [o] sel dictid argv) as (rs & Hrs & Hf2); try done.
    + by apply Forall_singleton.
    + unfold MAX_MULTIBULK, LLONG_MAX in *. lia.
    + eapply Forall_impl; [done|]. intros a Ha. unfold arg_ok, INT_MAX, LLONG_MAX in *. lia.
    + by apply Forall_singleton.
    + rewrite Hbc in Hrs. injection Hrs as <-. apply Forall2_cons_1 in Hf2 as [Hso _]. destruct Hso as (Hq & Hl' & _ & _).
      split; [done|]. exists ran, (todo ++ requests sel dictid argv). cbn [n_out n_seldb n_chan n_in n_state n_sent n_log].
      rewrite Hq. split_and!; try done.
      * by rewrite Hsent, app_assoc.
      * apply Forall_app. split; [done|]. by apply requests_ok.
      * apply Forall_app. split; [done|]. by apply Hgood.
      * rewrite app_assoc. by apply expects_extend.
      * intros H. exfalso. rewrite app_assoc in H. apply app_eq_nil in H as [_ H]. by apply (message_nonempty sel dictid argv).
  - destruct (pending_scheduled over_memory ws o) as (al & out & c' & Hw' & Hq & Hok & Hfi & Hf & Hs & _); [apply Hinv|apply Hinv|].
    rewrite Hw in Hw'. injection Hw' as <- <- <-. by apply (write_inv s0 o sel ch i s sent log b o'); auto.
  - destruct (handler_scheduled over_memory ws o) as (al & out & c' & Hw' & Hq & Hok & Hfi & Hf & Hs & _); [apply Hinv|apply Hinv|done|].
    rewrite Hw in Hw'. injection Hw' as <- <- <-. by apply (write_inv s0 o sel ch i s sent log b o').
  - destruct Hinv as [Hl (ran & todo & Hsent & Hrun & Hca & Her & Hok & Hgd & Hsm & Hex & _)]. cbn [n_out n_seldb n_chan n_in n_state n_sent n_log] in *.
    pose proof (readlen_pos i Hsm) as Hrl. assert (ch = b ++ drop (length b) ch) as Hch.
    { unfold b. rewrite length_take. rewrite <- (take_drop (Nat.min k (Z.to_nat (readlen i))) ch) at 1. f_equal.
      destruct (Nat.le_gt_cases (Nat.min k (Z.to_nat (readlen i))) (length ch)); [f_equal; lia|]. by rewrite !drop_ge by lia. }
    rewrite Hch, <- app_assoc in Hex.
    destruct (read_spec good processCommand paused maxbulk maxbuf unixtime Hmax Hbuf Hbuf' i s b (drop (length b) ch ++ queue o) todo) as
      (c' & s1 & ran1 & todo1 & Hrd' & -> & Hrun1 & Hca1 & Hex1 & Hsm1 & Hend1 & Her1); try done.
    { unfold b. rewrite length_take. lia. }
    rewrite Hrd in Hrd'. injection Hrd' as -> -> ->. split; [done|]. exists (ran ++ ran1), todo1. cbn.
    apply Forall_app in Hok as [_ Hok]. apply Forall_app in Hgd as [_ Hgd]. split_and!; try done.
    + by rewrite Hsent, app_assoc.
    + unfold run_all in *. by rewrite foldl_app, Hrun, Hrun1.
    + congruence.
Qed.

Lemma reachable_inv s0 n0 n : fresh_link s0 n0 -> rtc step n0 n -> link_inv s0 n.
Proof using Hcalm Hgood Hmin Hmax Hbuf Hbuf'.
  intros Hf Hr. assert (link_inv s0 n0) as Hi by (by apply fresh_link_inv). clear Hf. induction Hr as [|n1 n2 n3 Hs _ IH]; [done|].
  apply IH. by eapply step_inv.
Qed.

(** The requests are those of the broadcasts. *)
Lemma log_inv n0 n :
  n_log n0 = [] -> rtc step n0 n ->
  n_sent n = n_sent n0 ++ chain (n_seldb n0) (n_log n) /\ n_seldb n = last_db (n_seldb n0) (n_log n) /\
  Forall (fun b => in_int b.1 /\ cmd_ok maxbulk b.2) (n_log n).
Proof.
  intros Hl Hr. pattern n. eapply rtc_ind_r; [by rewrite Hl, app_nil_r| |exact Hr].
  intros n1 n2 _ Hs (Hsent & Hsel & Hall).
  destruct Hs as [o sel ch i s sent log dictid argv o' Hd Hc _ _ _| | |]; cbn [n_sent n_seldb n_log] in *; try done.
  rewrite chain_snoc, Hsent, <- Hsel, app_assoc. split_and!; [done| |].
  - unfold last_db. by rewrite foldl_app.
  - apply Forall_app. split; [done|]. by apply Forall_singleton.
Qed.

(** ** Delivery *)

(** When nothing is under way, everything sent was run. *)
Lemma inv_quiet s0 n :
  link_inv s0 n -> n_chan n = [] -> queue (n_out n) = [] ->
  run_all processCommand (n_sent n) (no_flags, s0) = (flags (n_in n), n_state n) /\ querybuf (n_in n) = [].
Proof.
  intros [_ (ran & todo & Hs & Hrun & _ & _ & _ & _ & _ & _ & Hend)] Hc Hq. rewrite Hc, Hq in Hend.
  destruct (Hend eq_refl) as [-> Hb]. by rewrite Hs, app_nil_r.
Qed.

Lemma queue_pending c : queue c <> [] -> clientHasPendingReplies c = true.
Proof. intros Hq. destruct (clientHasPendingReplies c) eqn:E; [done|]. by destruct (Hq (no_replies_queue no_bytes c E)). Qed.

(** A step that takes a byte from the queue to the channel. *)
Lemma write_possible s0 n :
  link_inv s0 n -> queue (n_out n) <> [] ->
  exists n', step n n' /\ n_sent n' = n_sent n /\ n_log n' = n_log n /\
    (2 * length (queue (n_out n')) + length (n_chan n') < 2 * length (queue (n_out n)) + length (n_chan n))%nat.
Proof.
  destruct n as [o sel ch i s sent log]. cbn. intros [[Hok [Hw Hon] Hfi Hsc] _] Hq. cbn [n_out] in *.
  assert (forall b o', queue o = b ++ queue o' -> b <> [] ->
    (2 * length (queue o') + length (ch ++ b) < 2 * length (queue o) + length ch)%nat) as Hlt.
  { intros b o' -> Hb. rewrite !length_app. assert (length b <> 0%nat) by (by destruct b). lia. }
  assert (o_close_after (oflags_of o) = false) as Hcl by apply Hw.
  assert (W_error ∉ [W_bytes 1]) as Hne by (by rewrite list_elem_of_singleton).
  specialize (Hsc (queue_pending o Hq) Hon). destruct (pending_write o) eqn:Ep.
  - destruct (pending_scheduled over_memory [W_bytes 1] o Hok Hfi) as (al & b & o' & Hh & Hqb & _ & _ & _ & _ & Hpr & Hal).
    rewrite (Hal Hne Hcl) in Hh. eexists. split; [by eapply S_pending|]. split; [done|]. split; [done|]. apply Hlt; [done|]. by apply (Hpr 0%nat []).
  - destruct (handler_scheduled over_memory [W_bytes 1] o Hok Hfi Hsc) as (al & b & o' & Hh & Hqb & _ & _ & _ & _ & Hpr & Hal).
    rewrite (Hal Hne Hcl) in Hh. eexists. split; [by eapply S_event|]. split; [done|]. split; [done|]. apply Hlt; [done|]. by apply (Hpr 0%nat []).
Qed.

(** A step that reads what is in the channel. *)
Lemma read_possible s0 n :
  link_inv s0 n -> n_chan n <> [] ->
  exists n', step n n' /\ n_sent n' = n_sent n /\ n_log n' = n_log n /\
    (2 * length (queue (n_out n')) + length (n_chan n') < 2 * length (queue (n_out n)) + length (n_chan n))%nat.
Proof using Hcalm Hmax Hbuf Hbuf'.
  destruct n as [o sel ch i s sent log]. intros [Hl (ran & todo & Hsent & Hrun & Hca & Her & Hok & Hgd & Hsm & Hex & _)] Hch.
  cbn [n_out n_seldb n_chan n_in n_state n_sent n_log] in *. pose proof (readlen_pos i Hsm) as Hrl.
  destruct ch as [|x ch]; [done|]. set (b := take (Nat.min 1 (Z.to_nat (readlen i))) (x :: ch)).
  assert (b = [x]) as Hb by (unfold b; by replace (Nat.min 1 (Z.to_nat (readlen i))) with 1%nat by lia).
  destruct (read_spec good processCommand paused maxbulk maxbuf unixtime Hmax Hbuf Hbuf' i s b (ch ++ queue o) todo) as
    (i' & s' & ran1 & todo1 & Hrd & _); try done; [by rewrite Hb|rewrite Hb; cbn; lia|].
  eexists. split; [apply (S_read o sel (x :: ch) i s sent log 1%nat i' [] s'); [by fold b; rewrite Hb|by fold b]|]. split; [done|]. split; [done|].
  cbn [n_out n_chan]. fold b. rewrite Hb. cbn [length drop]. rewrite drop_0. lia.
Qed.

Lemma delivery s0 n :
  link_inv s0 n -> exists n', rtc step n n' /\ n_sent n' = n_sent n /\ n_log n' = n_log n /\ n_chan n' = [] /\ queue (n_out n') = [] /\ link_inv s0 n'.
Proof using Hcalm Hgood Hmin Hmax Hbuf Hbuf'.
  remember (2 * length (queue (n_out n)) + length (n_chan n))%nat as k eqn:Hk. revert n Hk.
  induction (lt_wf k) as [k _ IH]. intros n -> Hinv.
  assert (forall n1, step n n1 -> n_sent n1 = n_sent n -> n_log n1 = n_log n ->
    (2 * length (queue (n_out n1)) + length (n_chan n1) < 2 * length (queue (n_out n)) + length (n_chan n))%nat ->
    exists n', rtc step n n' /\ n_sent n' = n_sent n /\ n_log n' = n_log n /\ n_chan n' = [] /\ queue (n_out n') = [] /\ link_inv s0 n') as Hgo.
  { intros n1 Hs He Hg Hlt. destruct (IH _ Hlt n1 eq_refl) as (n' & Hr & He' & Hg' & Hrest); [by eapply step_inv|].
    exists n'. split; [by eapply rtc_l|]. split; [congruence|]. split; [congruence|done]. }
  destruct (decide (queue (n_out n) = [])) as [Hq|Hq].
  - destruct (decide (n_chan n = [])) as [Hc|Hc]; [by exists n|].
    destruct (read_possible s0 n Hinv Hc) as (n1 & Hs & He & Hg & Hlt). by apply (Hgo n1).
  - destruct (write_possible s0 n Hinv Hq) as (n1 & Hs & He & Hg & Hlt). by apply (Hgo n1).
Qed.
End Link.
