(* ===== verification/Double.v ===== *)
(** * Doubles ([object.c])

    The [double] of C as the binary64 format of IEEE 754, with its rounding, and
    the conversion of arguments by [strtod]. *)
From Stdlib Require Import ZArith Lia Ascii String SpecFloat.
From stdpp Require Import base numbers strings list.
From S2P Require Import Prelude Sds.
Open Scope Z_scope.

Abbreviation double := spec_float.

#[global] Instance double_eq_dec : EqDecision double.
Proof. solve_decision. Defined.

(** ** Arithmetic and comparison *)

Definition dzero : double := S754_zero false.
Definition dadd (x y : double) : double := SFadd 53 1024 x y.
Definition dneg (x : double) : double := SFopp x.
Definition deqb (x y : double) : bool := SFeqb x y.
Definition dltb (x y : double) : bool := SFltb x y.
Definition isnan (x : double) : bool := match x with S754_nan => true | _ => false end.
Definition of_Z (z : Z) : double := binary_normalize 53 1024 z 0 false.

Definition is_inf (x : double) : bool := match x with S754_infinity _ => true | _ => false end.
Definition is_zero (x : double) : bool := match x with S754_zero _ => true | _ => false end.

Lemma deqb_refl x : isnan x = false -> deqb x x = true.
Proof.
  unfold deqb, SFeqb. destruct x as [s|s| |s m e]; try done; cbn; intros _; destruct s; try done;
    rewrite Z.compare_refl; change (PosDef.Pos.compare_cont Eq m m) with (Pos.compare m m);
    by rewrite Pos.compare_refl.
Qed.

(** ** Reading a number *)

(** The digits at the front, most significant first, in base 10 or 16. *)
Definition hex_val (c : ascii) : option Z :=
  let b := byteZ c in
  if is_digit c then Some (b - 48)
  else if (97 <=? b) && (b <=? 102) then Some (b - 87)
  else if (65 <=? b) && (b <=? 70) then Some (b - 55)
  else None.

Definition digit_of (hex : bool) (c : ascii) : option Z :=
  if hex then hex_val c else if is_digit c then Some (digit_val c) else None.

Fixpoint take_digits (hex : bool) (v : Z) (n : Z) (p : list ascii) : Z * Z * list ascii :=
  match p with
  | c :: p' =>
      match digit_of hex c with
      | Some x => take_digits hex (v * (if hex then 16 else 10) + x) (n + 1) p'
      | None => (v, n, p)
      end
  | [] => (v, n, p)
  end.

(** An optional sign. *)
Definition take_sign (p : list ascii) : bool * list ascii :=
  match p with
  | c :: p' => if bool_decide (c = "-"%char) then (true, p') else if bool_decide (c = "+"%char) then (false, p') else (false, p)
  | [] => (false, p)
  end.

(** The exponent, present only when it has a digit. *)
Definition take_exponent (e1 e2 : ascii) (p : list ascii) : Z * list ascii :=
  match p with
  | c :: p' =>
      if bool_decide (c = e1) || bool_decide (c = e2) then
        let '(neg, q) := take_sign p' in
        let '(v, n, rest) := take_digits false 0 0 q in
        if n =? 0 then (0, p) else ((if neg then - v else v), rest)
      else (0, p)
  | [] => (0, p)
  end.

(** Integer and fraction digits: the value of the digits, the number of them
    behind the point and in all, and the rest. *)
Definition take_mantissa (hex : bool) (p : list ascii) : Z * Z * Z * list ascii :=
  let '(v, n, p1) := take_digits hex 0 0 p in
  match p1 with
  | c :: p2 =>
      if bool_decide (c = "."%char) then
        let '(v', m, p3) := take_digits hex v 0 p2 in
        if n + m =? 0 then (0, 0, 0, p) else (v', m, n + m, p3)
      else (v, 0, n, p1)
  | [] => (v, 0, n, p1)
  end.

(** [(-1)^neg * m * 10^e] rounded; far outside the range of the format the
    power is not computed. *)
Definition decimal (neg : bool) (m e digits : Z) : double :=
  match m with
  | Zpos pm =>
      if 400 <? e + digits then S754_infinity neg
      else if e + digits <? -400 then S754_zero neg
      else if 0 <=? e then binary_normalize 53 1024 ((if neg then -1 else 1) * (m * 10 ^ e)) 0 neg
      else
        match 10 ^ (- e) with
        | Zpos pe => SFdiv 53 1024 (S754_finite neg pm 0) (S754_finite false pe 0)
        | _ => S754_zero neg
        end
  | _ => S754_zero neg
  end.

Definition hexadecimal (neg : bool) (m e digits : Z) : double :=
  if m =? 0 then S754_zero neg
  else if 1100 <? e + 4 * digits then S754_infinity neg
  else if e + 4 * digits <? -1200 then S754_zero neg
  else binary_normalize 53 1024 ((if neg then -1 else 1) * m) e neg.

(** Case-insensitive words. *)
Definition lower_char (c : ascii) : ascii :=
  if (65 <=? byteZ c) && (byteZ c <=? 90) then ascii_of_nat (Z.to_nat (byteZ c + 32)) else c.
Definition take_word (w : sds) (p : list ascii) : option (list ascii) :=
  if bool_decide (lower_char <$> take (length (chars w)) p = chars w) then Some (drop (length (chars w)) p) else None.

(** The characters of a [nan(...)] payload. *)
Fixpoint nan_payload (p : list ascii) : option (list ascii) :=
  match p with
  | c :: p' =>
      if bool_decide (c = ")"%char) then Some p'
      else if is_digit c || ((97 <=? byteZ (lower_char c)) && (byteZ (lower_char c) <=? 122)) || bool_decide (c = "_"%char)
      then nan_payload p' else None
  | [] => None
  end.

(** The value, whether it is out of range, and the bytes not read. *)
Definition strtod_number (neg : bool) (p whole : list ascii) : double * bool * list ascii :=
  let '(m, frac, digits, rest) := take_mantissa false p in
  let hex := match p with
    | c0 :: c1 :: q =>
        if bool_decide (c0 = "0"%char) && bool_decide (lower_char c1 = "x"%char) then
          let '(hm, hfrac, hdigits, hrest) := take_mantissa true q in
          if hdigits =? 0 then None else Some (hm, hfrac, hdigits, hrest)
        else None
    | _ => None
    end in
  match hex with
  | Some (hm, hfrac, hdigits, hrest) =>
      let '(e, rest) := take_exponent "p" "P" hrest in
      let v := hexadecimal neg hm (e - 4 * hfrac) hdigits in
      (v, is_inf v || (is_zero v && negb (hm =? 0)), rest)
  | None =>
      if digits =? 0 then (dzero, false, whole)
      else
        let '(e, rest) := take_exponent "e" "E" rest in
        let v := decimal neg m (e - frac) digits in
        (v, is_inf v || (is_zero v && negb (m =? 0)), rest)
  end.

Definition strtod (s : list ascii) : double * bool * list ascii :=
  let '(neg, p) := take_sign (skip_space s) in
  match take_word "infinity" p, take_word "inf" p, take_word "nan" p with
  | Some rest, _, _ | None, Some rest, _ => (S754_infinity neg, false, rest)
  | None, None, Some rest =>
      (S754_nan, false,
        match rest with
        | c :: q => if bool_decide (c = "("%char) then default rest (nan_payload q) else rest
        | [] => rest
        end)
  | None, None, None => strtod_number neg p s
  end.

(** [getDoubleFromObject] on a string: [strtod] reads up to the terminator, and
    the whole string must have been read. *)
Definition getDoubleFromObject (o : sds) : option double :=
  let '(value, erange, rest) := strtod (chars (sdsnew o)) in
  let read := (length (chars (sdsnew o)) - length rest)%nat in
  match chars o with
  | [] => None
  | c :: _ =>
      if is_space c || negb (read =? length (chars o))%nat || (erange && (is_inf value || is_zero value)) || isnan value
      then None else Some value
  end.

Example getDouble_ex :
  getDoubleFromObject "0.1" = Some (S754_finite false 7205759403792794 (-56)) /\
  getDoubleFromObject "3" = Some (of_Z 3) /\ getDoubleFromObject "-2.5e1" = Some (of_Z (-25)) /\
  getDoubleFromObject "0x10" = Some (of_Z 16) /\ getDoubleFromObject "-inf" = Some (S754_infinity true) /\
  getDoubleFromObject "1e999" = None /\ getDoubleFromObject "nan" = None /\ getDoubleFromObject " 1" = None /\
  getDoubleFromObject "1x" = None /\ getDoubleFromObject "." = None /\ getDoubleFromObject "1." = Some (of_Z 1) /\
  getDoubleFromObject "4.9e-324" = Some (S754_finite false 1 (-1074)) /\ getDoubleFromObject "1e-400" = None.
Proof. vm_compute. repeat split. Qed.
