(* ===== verification/VectorClock.v ===== *)
(** * Vector clocks ([vector_clock.h], [vector_clock.c])

    A clock is a vector with one counter per replica and the id of the replica
    it belongs to.  The state of a remove-win element, and the timestamps that
    travel with operations, are such clocks.  [None] marks a run that leaves
    the arrays or fails an assertion. *)
From Stdlib Require Import Ascii String ZArith Lia.
From stdpp Require Import base numbers list strings gmap.
From S2P Require Import Prelude Sds.
Open Scope Z_scope.

Record vc := mkVC { vector : list Z; vc_id : Z }.

#[global] Instance vc_eq_dec : EqDecision vc.
Proof. solve_decision. Defined.

Definition vc_size (c : vc) : nat := length (vector c).

Definition CLOCK_LESS : Z := -2.
Definition CLOCK_C_LESS : Z := -1.
Definition CLOCK_ERROR : Z := 0.
Definition CLOCK_C_GREATER : Z := 1.
Definition CLOCK_GREATER : Z := 2.

Definition CONCURRENT (x : Z) : bool := (x =? CLOCK_C_LESS) || (x =? CLOCK_C_GREATER).

Definition newVC (size id : Z) : vc := mkVC (replicate (Z.to_nat size) 0) id.

Definition duplicateVC (c : vc) : vc := mkVC (vector c) (vc_id c).

(** The comparison loop of [equalVC], both arrays of the same size. *)
Fixpoint equal_loop (v1 v2 : list Z) : bool :=
  match v1, v2 with
  | x :: v1, y :: v2 => if negb (x =? y) then false else equal_loop v1 v2
  | _, _ => true
  end.

Definition equalVC (c1 c2 : vc) : bool :=
  if negb (Nat.eqb (vc_size c1) (vc_size c2)) then false
  else equal_loop (vector c1) (vector c2).

(** [causally_ready]: the loop skips index [o], the id of the sender. *)
Fixpoint ready_loop (i : nat) (o : Z) (current next : list Z) : bool :=
  match current, next with
  | x :: current, y :: next =>
      if Z.of_nat i =? o then ready_loop (S i) o current next
      else if x <? y then false
      else ready_loop (S i) o current next
  | _, _ => true
  end.

Definition at_index (v : list Z) (i : Z) : option Z :=
  if i <? 0 then None else v !! Z.to_nat i.

Definition causally_ready (current next : vc) : option bool :=
  if negb (Nat.eqb (vc_size current) (vc_size next)) then None
  else
    let o := vc_id next in
    if negb (ready_loop 0 o (vector current) (vector next)) then Some false
    else
      match at_index (vector next) o, at_index (vector current) o with
      | Some y, Some x => Some (y =? to_int (x + 1))
      | _, _ => None
      end.

(** [compareVC]: the first loop skips equal entries, the second looks for an
    entry ordered the other way. *)
Fixpoint skip_equal (v1 v2 : list Z) : list (Z * Z) :=
  match v1, v2 with
  | x :: v1', y :: v2' => if x =? y then skip_equal v1' v2' else (x, y) :: zip v1' v2'
  | _, _ => []
  end.

Fixpoint compare_loop (opposite : Z -> Z -> bool) (id1 id2 : Z) (l : list (Z * Z)) (default : Z)
  : Z :=
  match l with
  | [] => default
  | (x, y) :: l =>
      if opposite x y then
        if id2 <? id1 then CLOCK_C_GREATER
        else if id1 <? id2 then CLOCK_C_LESS
        else compare_loop opposite id1 id2 l default
      else compare_loop opposite id1 id2 l default
  end.

Definition compareVC (c1 c2 : vc) : Z :=
  if negb (Nat.eqb (vc_size c1) (vc_size c2)) then CLOCK_ERROR
  else
    match skip_equal (vector c1) (vector c2) with
    | [] =>
        if vc_id c1 =? vc_id c2 then CLOCK_ERROR
        else if vc_id c2 <? vc_id c1 then CLOCK_C_GREATER
        else CLOCK_C_LESS
    | (x, y) :: l =>
        if y <? x then compare_loop Z.ltb (vc_id c1) (vc_id c2) l CLOCK_GREATER
        else if x <? y then compare_loop (fun a b => b <? a) (vc_id c1) (vc_id c2) l CLOCK_LESS
        else CLOCK_ERROR
    end.

(** [updateVC tar m]: pointwise maximum, in place. *)
Fixpoint update_loop (tar m : list Z) : list Z :=
  match tar, m with
  | x :: tar, y :: m => (if x <? y then y else x) :: update_loop tar m
  | _, _ => tar
  end.

Definition updateVC (tar m : vc) : vc :=
  if negb (Nat.eqb (vc_size tar) (vc_size m)) then tar
  else mkVC (update_loop (vector tar) (vector m)) (vc_id tar).

(** [VCToSds]: entries separated by commas, then ["|"] and the id.  A clock of
    size 0 would read [vector[0]] of an empty array. *)
Fixpoint print_loop (v : list Z) : sds :=
  match v with
  | [] => EmptyString
  | [x] => fmt_d x
  | x :: v => String.append (fmt_d x) (String ","%char (print_loop v))
  end.

Definition VCToSds (c : vc) : option sds :=
  match vector c with
  | [] => None
  | _ => Some (String.append (print_loop (vector c)) (String "|"%char (fmt_d (vc_id c))))
  end.

(** [SdsToVC]: numbers go to the static buffer [vc_int_buf[100]]; the scan for
    a separator has no other stop than [','] and ['|']. *)
Definition VC_BUF : nat := 100.

Fixpoint skip_to_sep (p : list ascii) : option (list ascii) :=
  match p with
  | [] => None
  | c :: p' =>
      if bool_decide (c = ","%char) || bool_decide (c = "|"%char) then Some p
      else skip_to_sep p'
  end.

Fixpoint SdsToVC_loop (fuel : nat) (p : list ascii) (buf : list Z) : option (list Z * list ascii) :=
  match fuel with
  | O => None
  | S fuel =>
      if Nat.leb VC_BUF (length buf) then None
      else
        let buf := buf ++ [atoi p] in
        match skip_to_sep p with
        | None | Some [] => None
        | Some (c :: p') =>
            if bool_decide (c = "|"%char) then Some (buf, p')
            else SdsToVC_loop fuel p' buf
        end
  end.

Definition SdsToVC (s : sds) : option vc :=
  match SdsToVC_loop (S (length (chars s))) (chars s) [] with
  | None => None
  | Some (buf, p) => Some (mkVC buf (atoi p))
  end.

Definition set_index (v : list Z) (i x : Z) : list Z := <[Z.to_nat i := x]> v.

(** [increaseVC]: [c->vector[id]++]. *)
Definition increaseVC (c : vc) (id : Z) : option vc :=
  match at_index (vector c) id with
  | None => None
  | Some x => Some (mkVC (set_index (vector c) id (to_int (x + 1))) id)
  end.

(** [nowVC]: increment the own entry, print, decrement again. *)
Definition nowVC (c : vc) : option sds :=
  match increaseVC c (vc_id c) with
  | None => None
  | Some c' => VCToSds c'
  end.

Example vc_print_ex :
  VCToSds (mkVC [3; 0; 12] 2) = Some "3,0,12|2"%string
  /\ SdsToVC "3,0,12|2" = Some (mkVC [3; 0; 12] 2)
  /\ nowVC (mkVC [3; 0; 12] 1) = Some "3,1,12|1"%string
  /\ SdsToVC "3,0,12" = None.
Proof. repeat split; reflexivity. Qed.

(** ** The pointwise order *)

Definition vle : list Z -> list Z -> Prop := Forall2 Z.le.

#[global] Instance vle_dec v w : Decision (vle v w).
Proof. unfold vle. apply _. Defined.

Lemma vle_length v w : vle v w -> length v = length w.
Proof. apply Forall2_length. Qed.

Lemma vle_refl v : vle v v.
Proof. unfold vle. induction v; constructor; [lia|done]. Qed.

Lemma vle_trans u v w : vle u v -> vle v w -> vle u w.
Proof.
  unfold vle. intros H. revert w. induction H as [|x y u v Hxy _ IH]; intros w Hw; [done|].
  inversion Hw; subst. constructor; [lia|by apply IH].
Qed.

Lemma vle_antisym v w : vle v w -> vle w v -> v = w.
Proof.
  unfold vle. intros H. induction H as [|x y v w Hxy _ IH]; intros Hw; [done|].
  inversion Hw; subst. f_equal; [lia|by apply IH].
Qed.

#[global] Instance vle_PO : PartialOrder vle.
Proof.
  split; [split|]; [exact vle_refl|exact vle_trans|exact vle_antisym].
Qed.

Lemma equal_loop_spec v w : length v = length w -> equal_loop v w = true <-> v = w.
Proof.
  revert w. induction v as [|x v IH]; intros [|y w] Hl; [done..|]. cbn in *.
  destruct (Z.eqb_spec x y) as [->|Hne]; cbn.
  - rewrite IH by lia. split; [by intros ->|by intros [= ->]].
  - split; [done|]. by intros [= ->].
Qed.

(** [equalVC] decides equality of the vectors; the ids play no role. *)
Lemma equalVC_spec c1 c2 : equalVC c1 c2 = true <-> vector c1 = vector c2.
Proof.
  unfold equalVC, vc_size. destruct (Nat.eqb_spec (length (vector c1)) (length (vector c2))) as [E|E].
  - cbn [negb]. by apply equal_loop_spec.
  - split; [done|]. intros H. by rewrite H in E.
Qed.

Lemma equalVC_refl c : equalVC c c = true.
Proof. by apply equalVC_spec. Qed.

(** ** [updateVC] is the join of the pointwise order *)

Lemma update_loop_length v w : length (update_loop v w) = length v.
Proof. revert w. induction v as [|x v IH]; intros [|y w]; cbn; [done..|]. by rewrite IH. Qed.

Lemma update_loop_ub_l v w : vle v (update_loop v w).
Proof.
  unfold vle. revert w. induction v as [|x v IH]; intros [|y w]; cbn; try apply vle_refl.
  constructor; [destruct (Z.ltb_spec x y); lia|apply IH].
Qed.

Lemma update_loop_ub_r v w : length v = length w -> vle w (update_loop v w).
Proof.
  unfold vle. revert w. induction v as [|x v IH]; intros [|y w] Hl; cbn in *; try done.
  constructor; [destruct (Z.ltb_spec x y); lia|apply IH; lia].
Qed.

Lemma update_loop_lub v w u : vle v u -> vle w u -> vle (update_loop v w) u.
Proof.
  unfold vle. intros H. revert w. induction H as [|x z v u Hxz _ IH]; intros w Hw.
  - inversion Hw; subst. constructor.
  - inversion Hw as [|y ? w' ? Hyz Hw']; subst. cbn. constructor; [destruct (x <? y); lia|by apply IH].
Qed.

Lemma update_loop_comm v w : length v = length w -> update_loop v w = update_loop w v.
Proof.
  intros Hl. apply vle_antisym; apply update_loop_lub;
    auto using update_loop_ub_l, update_loop_ub_r.
Qed.

Lemma update_loop_absorb v w : vle w v -> update_loop v w = v.
Proof.
  intros H. apply vle_antisym; [|apply update_loop_ub_l].
  apply update_loop_lub; [apply vle_refl|done].
Qed.

Lemma update_loop_assoc u v w :
  length u = length v -> length v = length w ->
  update_loop (update_loop u v) w = update_loop u (update_loop v w).
Proof.
  revert v w. induction u as [|x u IH]; intros [|y v] [|z w] H1 H2; cbn in *; try done.
  f_equal; [|apply IH; lia].
  destruct (Z.ltb_spec x y), (Z.ltb_spec y z); repeat case_match; lia.
Qed.

Lemma updateVC_vector tar m :
  vc_size tar = vc_size m -> vector (updateVC tar m) = update_loop (vector tar) (vector m).
Proof. unfold updateVC. intros ->. by rewrite Nat.eqb_refl. Qed.

Lemma updateVC_id tar m : vc_id (updateVC tar m) = vc_id tar.
Proof. unfold updateVC. by destruct (negb _). Qed.

Lemma updateVC_size tar m : vc_size (updateVC tar m) = vc_size tar.
Proof.
  unfold updateVC. destruct (negb _); [done|]. unfold vc_size. cbn. apply update_loop_length.
Qed.

(** ** [compareVC] decides the causal order *)

(** The intended meaning: componentwise comparison, incomparable and equal
    vectors being ordered by replica id. *)
Definition clock_order (c1 c2 : vc) : Z :=
  if decide (vector c1 = vector c2) then
    if vc_id c2 <? vc_id c1 then CLOCK_C_GREATER else CLOCK_C_LESS
  else if decide (vle (vector c1) (vector c2)) then CLOCK_LESS
  else if decide (vle (vector c2) (vector c1)) then CLOCK_GREATER
  else if vc_id c2 <? vc_id c1 then CLOCK_C_GREATER else CLOCK_C_LESS.

Lemma skip_equal_spec v w :
  length v = length w ->
  match skip_equal v w with
  | [] => v = w
  | (x, y) :: l =>
      exists p v' w', v = p ++ x :: v' /\ w = p ++ y :: w' /\ x <> y /\
        length v' = length w' /\ l = zip v' w'
  end.
Proof.
  revert w. induction v as [|x v IH]; intros [|y w] Hl; cbn in *; [done..|].
  destruct (Z.eqb_spec x y) as [->|Hne].
  - specialize (IH w ltac:(lia)). destruct (skip_equal v w) as [|[a b] l]; [by subst|].
    destruct IH as (p & v' & w' & -> & -> & Hab & Hl' & ->).
    exists (y :: p), v', w'. done.
  - exists [], v, w. split_and!; [done..|lia|done].
Qed.

Lemma compare_loop_spec opp id1 id2 l d :
  id1 <> id2 ->
  compare_loop opp id1 id2 l d =
  if existsb (fun p => opp p.1 p.2) l
  then (if id2 <? id1 then CLOCK_C_GREATER else CLOCK_C_LESS) else d.
Proof.
  intros Hid. induction l as [|[x y] l IH]; cbn; [done|].
  rewrite IH. destruct (opp x y); cbn; [|done].
  destruct (Z.ltb_spec id2 id1), (Z.ltb_spec id1 id2); lia || done.
Qed.

Lemma vle_prefix p x y v w : vle (p ++ x :: v) (p ++ y :: w) <-> x <= y /\ vle v w.
Proof.
  induction p as [|z p IH]; cbn; unfold vle in *.
  - rewrite Forall2_cons. done.
  - rewrite Forall2_cons, IH. split; [tauto|]. intros ?. split; [lia|done].
Qed.

Lemma existsb_vle v w :
  length v = length w -> existsb (fun p => p.1 <? p.2) (zip v w) = true <-> ~ vle w v.
Proof.
  revert w. induction v as [|x v IH]; intros [|y w] Hl; cbn in *; try done.
  unfold vle in *. rewrite Forall2_cons. destruct (Z.ltb_spec x y); cbn.
  - split; [|done]. intros _ [? _]. lia.
  - rewrite IH by lia. split; [tauto|]. intros Hn Hv. apply Hn. split; [lia|done].
Qed.

Lemma existsb_vle_flip v w :
  length v = length w -> existsb (fun p => p.2 <? p.1) (zip v w) = true <-> ~ vle v w.
Proof.
  intros Hl. rewrite <- existsb_vle by done.
  revert w Hl. induction v as [|x v IH]; intros [|y w] Hl; cbn in *; try done.
  destruct (y <? x); cbn; [done|]. apply IH. lia.
Qed.

Lemma compareVC_order c1 c2 :
  vc_size c1 = vc_size c2 -> vc_id c1 <> vc_id c2 -> compareVC c1 c2 = clock_order c1 c2.
Proof.
  intros Hs Hid. unfold compareVC, clock_order. rewrite Hs, Nat.eqb_refl. cbn [negb].
  pose proof (skip_equal_spec (vector c1) (vector c2) Hs) as Hsk.
  destruct (skip_equal _ _) as [|[x y] l].
  - rewrite decide_True by done. rewrite (proj2 (Z.eqb_neq _ _) Hid). done.
  - destruct Hsk as (p & v & w & Hv & Hw & Hne & Hl & ->). rewrite Hv, Hw.
    rewrite decide_False by (intros H; apply app_inv_head in H; congruence).
    rewrite (decide_ext _ _ _ _ (vle_prefix p x y v w)).
    rewrite (decide_ext _ _ _ _ (vle_prefix p y x w v)).
    rewrite !compare_loop_spec by done. cbv beta.
    pose proof (existsb_vle v w Hl) as E1. pose proof (existsb_vle_flip v w Hl) as E2.
    destruct (Z.ltb_spec y x) as [Hyx|Hxy].
    + clear E2. rewrite (decide_False (P := x <= y /\ _)) by lia.
      destruct (existsb _ _); case_decide as Hd; [|done..|].
      * exfalso. apply (proj1 E1 eq_refl), Hd.
      * destruct (decide (vle w v)) as [|Hn%E1]; [|done]. destruct Hd. split; [lia|done].
    + clear E1. destruct (Z.ltb_spec x y); [|lia].
      rewrite (decide_False (P := y <= x /\ _)) by lia.
      destruct (existsb _ _); case_decide as Hd; [|done..|].
      * exfalso. apply (proj1 E2 eq_refl), Hd.
      * destruct (decide (vle v w)) as [|Hn%E2]; [|done]. destruct Hd. split; [lia|done].
Qed.

(** Swapping the arguments negates the answer, on all inputs. *)
Lemma compare_loop_antisym opp1 opp2 id1 id2 l1 l2 d :
  Forall2 (fun p q => opp1 p.1 p.2 = opp2 q.1 q.2) l1 l2 ->
  compare_loop opp1 id1 id2 l1 d = - compare_loop opp2 id2 id1 l2 (- d).
Proof.
  induction 1 as [|[x y] [x' y'] l1 l2 Hp _ IH]; cbn; [lia|].
  cbn in Hp. rewrite Hp, IH. destruct (opp2 x' y'); [|done].
  destruct (Z.ltb_spec id2 id1), (Z.ltb_spec id1 id2); lia || done.
Qed.

Lemma zip_flip (v w : list Z) (f g : Z -> Z -> bool) :
  (forall a b, f a b = g b a) -> length v = length w ->
  Forall2 (fun p q : Z * Z => f p.1 p.2 = g q.1 q.2) (zip v w) (zip w v).
Proof.
  intros Hfg. revert w. induction v as [|x v IH]; intros [|y w] Hl; cbn in *; try done.
  constructor; [apply Hfg|]. apply IH. lia.
Qed.

Lemma skip_equal_flip v w :
  length v = length w ->
  match skip_equal v w with
  | [] => skip_equal w v = []
  | (x, y) :: l => exists l', skip_equal w v = (y, x) :: l' /\ x <> y /\
      exists v' w', l = zip v' w' /\ l' = zip w' v' /\ length v' = length w'
  end.
Proof.
  revert w. induction v as [|x v IH]; intros [|y w] Hl; cbn in *; try done.
  rewrite (Z.eqb_sym y x). destruct (Z.eqb_spec x y) as [->|Hne]; [apply IH; lia|].
  exists (zip w v). split_and!; [done..|]. exists v, w. split_and!; [done..|lia].
Qed.

Lemma compareVC_antisym c1 c2 : compareVC c1 c2 = - compareVC c2 c1.
Proof.
  unfold compareVC, vc_size. rewrite (Nat.eqb_sym (length (vector c2))).
  destruct (Nat.eqb_spec (length (vector c1)) (length (vector c2))) as [Hl|]; [cbn [negb]|done].
  pose proof (skip_equal_flip _ _ Hl) as Hf. destruct (skip_equal (vector c1) _) as [|[x y] l].
  - rewrite Hf, (Z.eqb_sym (vc_id c2)). destruct (Z.eqb_spec (vc_id c1) (vc_id c2)); [done|].
    destruct (Z.ltb_spec (vc_id c2) (vc_id c1)), (Z.ltb_spec (vc_id c1) (vc_id c2)); lia || done.
  - destruct Hf as (l' & -> & Hne & v & w & -> & -> & Hl2).
    destruct (Z.ltb_spec y x), (Z.ltb_spec x y); try lia.
    + apply (compare_loop_antisym _ _ _ _ _ _ CLOCK_GREATER).
      by apply (zip_flip _ _ Z.ltb (fun a b => b <? a)).
    + apply (compare_loop_antisym _ _ _ _ _ _ CLOCK_LESS).
      by apply (zip_flip _ _ (fun a b => b <? a) Z.ltb).
Qed.

(** ** [causally_ready] *)

Lemma ready_loop_spec i o v w :
  length v = length w ->
  ready_loop i o v w = true <->
  forall j x y, v !! j = Some x -> w !! j = Some y -> Z.of_nat (i + j) <> o -> y <= x.
Proof.
  revert i w. induction v as [|a v IH]; intros i [|b w] Hl; cbn in *; try done.
  assert (ready_loop (S i) o v w = true <->
    forall j x y, v !! j = Some x -> w !! j = Some y -> Z.of_nat (i + S j) <> o -> y <= x) as IH'.
  { rewrite IH by lia. by setoid_rewrite Nat.add_succ_r. }
  assert (forall P : nat -> Prop, (forall j, P j) <-> P 0%nat /\ (forall j, P (S j))) as Hsplit.
  { intros P. split; [auto|]. intros [? ?] [|j]; auto. }
  rewrite Hsplit. cbn. rewrite Nat.add_0_r.
  destruct (Z.eqb_spec (Z.of_nat i) o) as [Ho|Ho]; [|destruct (Z.ltb_spec a b)].
  - rewrite IH'. split; [|tauto]. intros H. split; [|done]. intros; lia.
  - split; [done|]. intros [H0 _]. specialize (H0 a b eq_refl eq_refl Ho). lia.
  - rewrite IH'. split; [|tauto]. intros H1. split; [|done]. by intros x y [= ->] [= ->].
Qed.

Lemma at_index_lookup v i x : at_index v i = Some x -> 0 <= i /\ v !! Z.to_nat i = Some x.
Proof. unfold at_index. destruct (Z.ltb_spec i 0); [done|]. by split. Qed.

Lemma at_index_some v i : 0 <= i < Z.of_nat (length v) -> is_Some (at_index v i).
Proof.
  intros H. unfold at_index. destruct (Z.ltb_spec i 0); [lia|]. apply lookup_lt_is_Some. lia.
Qed.

(** An operation is ready when it is the next one of its origin and depends on
    nothing that has not been seen. *)
Definition next_event (current next : vc) : Prop :=
  exists x y, at_index (vector current) (vc_id next) = Some x /\
    at_index (vector next) (vc_id next) = Some y /\ y = x + 1 /\
    forall j a b, vector current !! j = Some a -> vector next !! j = Some b ->
      Z.of_nat j <> vc_id next -> b <= a.

Lemma causally_ready_next current next :
  vc_size current = vc_size next -> 0 <= vc_id next < Z.of_nat (vc_size next) ->
  Forall (fun x => x < INT_MAX) (vector current) -> Forall in_int (vector current) ->
  exists b, causally_ready current next = Some b /\ (b = true <-> next_event current next).
Proof.
  intros Hs Hid Hmax Hin. unfold causally_ready, next_event. rewrite Hs, Nat.eqb_refl. cbn [negb].
  destruct (at_index_some (vector current) (vc_id next)) as [x Hx];
    [unfold vc_size in *; lia|].
  destruct (at_index_some (vector next) (vc_id next)) as [y Hy]; [unfold vc_size in *; lia|].
  rewrite Hx, Hy. pose proof (ready_loop_spec 0 (vc_id next) _ _ Hs) as Hr.
  setoid_rewrite Nat.add_0_l in Hr.
  assert (to_int (x + 1) = x + 1) as ->.
  { apply at_index_lookup in Hx as [_ Hx]. rewrite Forall_lookup in Hmax, Hin.
    specialize (Hmax _ _ Hx). specialize (Hin _ _ Hx). apply to_int_id. clia. }
  destruct (ready_loop _ _ _ _); cbn [negb]; (eexists; split; [done|]).
  - rewrite Z.eqb_eq. split; [|by intros (x' & y' & [= ->] & [= ->] & ? & _)].
    intros ->. exists x, (x + 1). split_and!; [done..|by apply Hr].
  - split; [done|]. intros (_ & _ & _ & _ & _ & Hall). by apply Hr in Hall.
Qed.

(** ** Printing and parsing clocks *)

Lemma skip_to_sep_num l c rest :
  Forall num_char l -> c = ","%char \/ c = "|"%char ->
  skip_to_sep (l ++ c :: rest) = Some (c :: rest).
Proof.
  intros Hl Hc. induction Hl as [|a l Ha _ IH]; cbn [app skip_to_sep].
  - destruct Hc as [-> | ->]; done.
  - destruct (num_char_not a Ha) as (_ & Hne1 & Hne2).
    rewrite !bool_decide_eq_false_2 by done. apply IH.
Qed.

Lemma sep_no_digit c rest : c = ","%char \/ c = "|"%char -> no_digit_head (c :: rest).
Proof. intros [-> | ->]; done. Qed.

Lemma fmt_d_chars z : Forall num_char (chars (fmt_d z)).
Proof. unfold fmt_d. rewrite chars_of_chars. apply sdsll2str_chars. Qed.

Lemma SdsToVC_loop_print fuel v buf rest :
  v <> [] -> Forall in_int v -> (length (buf ++ v) <= VC_BUF)%nat -> (length v <= fuel)%nat ->
  SdsToVC_loop fuel (chars (print_loop v) ++ "|"%char :: rest) buf = Some (buf ++ v, rest).
Proof.
  revert fuel buf. induction v as [|x v IH]; intros fuel buf Hne Hin Hbuf Hfuel; [done|].
  destruct fuel as [|fuel]; [cbn in Hfuel; lia|]. cbn [SdsToVC_loop].
  inversion Hin as [|? ? Hx Hv]; subst. rewrite length_app in Hbuf. cbn [length] in *.
  destruct (Nat.leb_spec VC_BUF (length buf)); [lia|].
  destruct v as [|y v].
  - cbn [print_loop].
    rewrite atoi_print, skip_to_sep_num by (auto using fmt_d_chars, sep_no_digit).
    rewrite bool_decide_eq_true_2 by done. done.
  - set (w := y :: v) in *. change (print_loop (x :: w)) with
      (String.append (fmt_d x) (String ","%char (print_loop w))).
    rewrite chars_append, chars_cons, <- app_assoc. cbn [app].
    rewrite atoi_print, skip_to_sep_num by (auto using fmt_d_chars, sep_no_digit).
    rewrite bool_decide_eq_false_2 by done.
    rewrite IH; [by rewrite <- app_assoc|done|done| |lia].
    rewrite !length_app. cbn [length]. lia.
Qed.

Definition vc_printable (c : vc) : Prop :=
  (1 <= vc_size c <= VC_BUF)%nat /\ Forall in_int (vector c) /\ in_int (vc_id c).

#[global] Instance vc_printable_dec c : Decision (vc_printable c).
Proof. unfold vc_printable. apply _. Defined.

Lemma print_loop_length v : (length v <= length (chars (print_loop v)))%nat.
Proof.
  induction v as [|x v IH]; [done|]. destruct v as [|y v].
  - cbn. unfold fmt_d. rewrite chars_of_chars.
    pose proof (sdsll2str_nonempty x). destruct (sdsll2str x); cbn; [done|lia].
  - change (print_loop (x :: y :: v)) with
      (String.append (fmt_d x) (String ","%char (print_loop (y :: v)))).
    rewrite chars_append, chars_cons, length_app. cbn [length] in *. lia.
Qed.

Lemma VCToSds_SdsToVC c :
  vc_printable c -> exists s, VCToSds c = Some s /\ SdsToVC s = Some c.
Proof.
  intros ((Hs & Hb) & Hin & Hid). unfold VCToSds, SdsToVC, vc_size in *.
  destruct c as [v id]. cbn [vector vc_id] in *. destruct v as [|x v]; [cbn in Hs; lia|].
  exists (String.append (print_loop (x :: v)) (String "|"%char (fmt_d id))).
  split; [done|]. rewrite chars_append, chars_cons.
  pose proof (print_loop_length (x :: v)) as Hlen.
  rewrite SdsToVC_loop_print; [|done|done|done|rewrite length_app; lia].
  cbn [app]. rewrite <- (app_nil_r (chars (fmt_d id))), atoi_print by done. done.
Qed.

(** The bytes a clock is printed with hold no NUL. *)
Lemma print_loop_nul_free v : NUL ∉ chars (print_loop v).
Proof.
  assert (forall z, NUL ∉ chars (fmt_d z)) as Hd.
  { intros z Hz. pose proof (fmt_d_chars z) as HF. rewrite Forall_forall in HF.
    by destruct (num_char_not NUL (HF _ Hz)). }
  induction v as [|x v IH]; [apply not_elem_of_nil|]. destruct v as [|y v]; [apply Hd|].
  change (print_loop (x :: y :: v)) with
    (String.append (fmt_d x) (String ","%char (print_loop (y :: v)))).
  rewrite chars_append, chars_cons, not_elem_of_app. split; [apply Hd|]. apply not_elem_of_cons. split; [done|apply IH].
Qed.

(** ** [nowVC]: the next timestamp of a replica *)

Definition bump (v : list Z) (i : Z) : list Z :=
  match at_index v i with Some x => set_index v i (x + 1) | None => v end.

Lemma bump_length v i : length (bump v i) = length v.
Proof. unfold bump, set_index. destruct (at_index v i); [apply length_insert|done]. Qed.

Lemma bump_ge v i : vle v (bump v i).
Proof.
  unfold bump. destruct (at_index v i) as [x|] eqn:E; [|apply vle_refl].
  apply at_index_lookup in E as [_ E]. unfold set_index, vle.
  apply Forall2_same_length_lookup_2; [by rewrite length_insert|].
  intros j a b Ha Hb. destruct (decide (Z.to_nat i = j)) as [<-|Hne].
  - rewrite list_lookup_insert_eq in Hb by (by eapply lookup_lt_Some).
    rewrite E in Ha. injection Ha as ->. injection Hb as <-. lia.
  - rewrite list_lookup_insert_ne in Hb by done. rewrite Ha in Hb. injection Hb as ->. lia.
Qed.

Lemma bump_not_le v i : 0 <= i < Z.of_nat (length v) -> ~ vle (bump v i) v.
Proof.
  intros Hi. unfold bump. destruct (at_index_some v i Hi) as [x Hx]. rewrite Hx.
  apply at_index_lookup in Hx as [_ Hx]. unfold set_index. intros Hle.
  pose proof (Forall2_lookup_lr _ _ _ (Z.to_nat i) (x + 1) x Hle) as Hc.
  rewrite list_lookup_insert_eq in Hc by (by eapply lookup_lt_Some).
  specialize (Hc eq_refl Hx). lia.
Qed.

Lemma bump_in_int v i : Forall (fun x => x < INT_MAX) v -> Forall in_int v -> Forall in_int (bump v i).
Proof.
  intros Hmax Hin. unfold bump. destruct (at_index v i) as [x|] eqn:E; [|done].
  apply at_index_lookup in E as [_ E]. apply Forall_insert; [done|].
  rewrite Forall_lookup in Hmax, Hin. specialize (Hmax _ _ E). specialize (Hin _ _ E). clia.
Qed.

(** A clock whose own entry can still grow. *)
Definition vc_ready (c : vc) : Prop :=
  vc_printable c /\ 0 <= vc_id c < Z.of_nat (vc_size c) /\
  Forall (fun x => x < INT_MAX) (vector c).

Lemma nowVC_parse c :
  vc_ready c ->
  exists s, nowVC c = Some s /\ SdsToVC s = Some (mkVC (bump (vector c) (vc_id c)) (vc_id c)).
Proof.
  intros ((Hs & Hin & Hid) & Hown & Hmax). unfold nowVC, increaseVC.
  destruct (at_index_some (vector c) (vc_id c) Hown) as [x Hx]. rewrite Hx.
  assert (to_int (x + 1) = x + 1) as ->.
  { apply at_index_lookup in Hx as [_ Hx]. rewrite Forall_lookup in Hmax, Hin.
    specialize (Hmax _ _ Hx). specialize (Hin _ _ Hx). apply to_int_id. clia. }
  assert (set_index (vector c) (vc_id c) (x + 1) = bump (vector c) (vc_id c)) as ->
    by (unfold bump; by rewrite Hx).
  apply (VCToSds_SdsToVC (mkVC _ _)). unfold vc_printable, vc_size in *. cbn.
  rewrite bump_length. split_and!; [lia..| |done]. by apply bump_in_int.
Qed.

(** The text of a clock in a message. *)
Definition vcs (t : vc) : sds := default EmptyString (VCToSds t).

Lemma vcs_read t : vc_printable t -> SdsToVC (vcs t) = Some t.
Proof. intros Hp. destruct (VCToSds_SdsToVC t Hp) as (str & Hs & Hb). unfold vcs. by rewrite Hs. Qed.
