(* ===== verification/LamportClock.v ===== *)
(** * Lamport clocks ([lamport_clock.h])

    A pair of a counter and a replica id.  The observed-remove types use them
    as unique tags. *)
From Stdlib Require Import Ascii String ZArith Lia.
From stdpp Require Import base numbers list strings gmap.
From S2P Require Import Prelude Sds.
Open Scope Z_scope.

Record lc := mkLC { lc_x : Z; lc_id : Z }.

#[global] Instance lc_eq_dec : EqDecision lc.
Proof. solve_decision. Defined.

Definition _lc_new (x id : Z) : lc := mkLC x id.

(** The C code subtracts: the result wraps when the operands are far apart. *)
Definition lc_cmp_as_tag (t1 t2 : lc) : Z :=
  if negb (lc_id t1 =? lc_id t2) then to_int (lc_id t1 - lc_id t2)
  else to_int (lc_x t1 - lc_x t2).

Definition lc_cmp (t1 t2 : lc) : Z :=
  if negb (lc_x t1 =? lc_x t2) then to_int (lc_x t1 - lc_x t2)
  else to_int (lc_id t1 - lc_id t2).

Definition lc_dup (t : lc) : lc := mkLC (lc_x t) (lc_id t).

Definition lcToSds (t : lc) : sds :=
  String.append (fmt_d (lc_x t)) (String ","%char (fmt_d (lc_id t))).

(** [sscanf "%d"]: white space, an optional sign and at least one digit. *)
Fixpoint scan_digits (v : Z) (p : list ascii) : Z * list ascii :=
  match p with
  | c :: p' => if is_digit c then scan_digits (v * 10 + digit_val c) p' else (v, p)
  | [] => (v, [])
  end.

Definition scan_unsigned (p : list ascii) : option (Z * list ascii) :=
  match p with
  | c :: _ => if is_digit c then Some (scan_digits 0 p) else None
  | [] => None
  end.

Definition scan_d (p : list ascii) : option (Z * list ascii) :=
  match skip_space p with
  | c :: p' =>
      if bool_decide (c = "-"%char) then
        match scan_unsigned p' with
        | Some (v, r) => Some (to_int (saturate_long (- v)), r)
        | None => None
        end
      else
        match scan_unsigned (if bool_decide (c = "+"%char) then p' else c :: p') with
        | Some (v, r) => Some (to_int (saturate_long v), r)
        | None => None
        end
  | [] => None
  end.

(** [sdsToLc]: [None] when [sscanf] leaves a field of the fresh structure
    uninitialised. *)
Definition sdsToLc (s : sds) : option lc :=
  match scan_d (chars s) with
  | Some (x, c :: p) =>
      if bool_decide (c = ","%char) then
        match scan_d p with
        | Some (id, _) => Some (mkLC x id)
        | None => None
        end
      else None
  | _ => None
  end.

Definition lc_update (tar m : lc) : lc :=
  mkLC (if lc_x m <? lc_x tar then lc_x tar else lc_x m) (lc_id tar).

(** [lc_now]: increment, print, decrement. *)
Definition lc_now (t : lc) : sds := lcToSds (mkLC (to_int (lc_x t + 1)) (lc_id t)).

Example lc_ex :
  lcToSds (mkLC 4 1) = "4,1"%string /\ sdsToLc "4,1" = Some (mkLC 4 1)
  /\ sdsToLc "4;1" = None.
Proof. repeat split; reflexivity. Qed.

(** ** Printing and scanning *)

Lemma scan_digits_app v p w rest :
  s2ll_loop v p = Some (w, []) -> no_digit_head rest ->
  scan_digits v (p ++ rest) = (w, rest).
Proof.
  revert v. induction p as [|c p IH]; intros v; cbn.
  - intros [= ->] Hr. destruct rest as [|a rest]; [done|]. cbn. by rewrite Hr.
  - destruct (is_digit c); [|done].
    destruct (ULLONG_MAX / 10 <? v); [done|].
    destruct (ULLONG_MAX - digit_val c <? v * 10); [done|]. apply IH.
Qed.

Lemma scan_d_print z rest :
  in_int z -> no_digit_head rest -> scan_d (chars (fmt_d z) ++ rest) = Some (z, rest).
Proof.
  intros Hz Hr. unfold scan_d, fmt_d. rewrite chars_of_chars.
  destruct (sdsll2str_cases z ltac:(clia)) as [[-> ->]|[[Hp ->]|[Hn ->]]].
  - cbn [app skip_space]. change (is_space "0"%char) with false.
    cbn [app]. rewrite !bool_decide_eq_false_2 by done. cbn [scan_unsigned].
    change (is_digit "0"%char) with true. cbv iota.
    change ("0"%char :: rest) with (["0"%char] ++ rest). rewrite (scan_digits_app 0 ["0"%char] 0) by done. done.
  - destruct (print_parse 20 z ltac:(clia) ltac:(clia)) as (d & p & -> & Hd & Hl).
    destruct (digit_head_facts d Hd) as (Hs & Hdg & Hplus).
    cbn [app skip_space]. rewrite Hs. cbn [app]. rewrite digit_not_minus, Hplus by done.
    cbn [scan_unsigned scan_digits]. rewrite Hdg, Z.add_0_l, (scan_digits_app _ _ _ _ Hl Hr).
    rewrite saturate_long_id, to_int_id by clia. done.
  - destruct (print_parse 20 (- z) ltac:(clia) ltac:(clia)) as (d & p & -> & Hd & Hl).
    destruct (digit_head_facts d Hd) as (_ & Hdg & _).
    cbn [app skip_space]. change (is_space "-"%char) with false.
    cbn [app]. rewrite bool_decide_eq_true_2 by done. cbn [scan_unsigned scan_digits].
    rewrite Hdg, Z.add_0_l, (scan_digits_app _ _ _ _ Hl Hr), Z.opp_involutive.
    rewrite saturate_long_id, to_int_id by clia. done.
Qed.

Definition lc_printable (t : lc) : Prop := in_int (lc_x t) /\ in_int (lc_id t).

#[global] Instance lc_printable_dec t : Decision (lc_printable t).
Proof. unfold lc_printable. apply _. Defined.

Lemma lcToSds_sdsToLc t : lc_printable t -> sdsToLc (lcToSds t) = Some t.
Proof.
  intros [Hx Hid]. unfold sdsToLc, lcToSds. rewrite chars_append, chars_cons.
  rewrite scan_d_print by done. rewrite bool_decide_eq_true_2 by done.
  rewrite <- (app_nil_r (chars (fmt_d (lc_id t)))), scan_d_print by done. by destruct t.
Qed.

(** The printed tag identifies the clock. *)
Lemma lcToSds_inj t1 t2 :
  lc_printable t1 -> lc_printable t2 -> lcToSds t1 = lcToSds t2 -> t1 = t2.
Proof.
  intros H1 H2 E. apply (f_equal sdsToLc) in E.
  rewrite !lcToSds_sdsToLc in E by done. congruence.
Qed.

(** ** The tag order

    Counters and ids that are non-negative do not make the subtraction wrap. *)
Definition lc_wf (t : lc) : Prop := 0 <= lc_x t <= INT_MAX /\ 0 <= lc_id t <= INT_MAX.

Lemma lc_wf_printable t : lc_wf t -> lc_printable t.
Proof. unfold lc_wf, lc_printable. clia. Qed.

Definition tag_lt (t1 t2 : lc) : Prop :=
  lc_id t1 < lc_id t2 \/ (lc_id t1 = lc_id t2 /\ lc_x t1 < lc_x t2).

Lemma lc_cmp_as_tag_spec t1 t2 :
  lc_wf t1 -> lc_wf t2 ->
  (lc_cmp_as_tag t1 t2 < 0 <-> tag_lt t1 t2) /\ (lc_cmp_as_tag t1 t2 = 0 <-> t1 = t2).
Proof.
  destruct t1 as [x1 i1], t2 as [x2 i2]. unfold lc_wf, lc_cmp_as_tag, tag_lt. cbn.
  intros H1 H2. destruct (Z.eqb_spec i1 i2) as [->|Hne]; cbn; rewrite to_int_id by clia.
  - split; [lia|]. split; [intros ?; f_equal; lia|intros [= ->]; lia].
  - split; [lia|]. split; [lia|intros [= -> ->]; lia].
Qed.

Lemma lc_cmp_as_tag_antisym t1 t2 :
  lc_wf t1 -> lc_wf t2 -> lc_cmp_as_tag t1 t2 = - lc_cmp_as_tag t2 t1.
Proof.
  unfold lc_wf, lc_cmp_as_tag. intros H1 H2. rewrite (Z.eqb_sym (lc_id t2)).
  destruct (lc_id t1 =? lc_id t2); cbn; rewrite !to_int_id by clia; lia.
Qed.
