(* ===== verification/Intset.v ===== *)
(** * Integer sets ([intset.c])

    The compact encoding of a set whose members are all integers: a sorted
    array of 16, 32 or 64-bit little-endian integers in one byte buffer,
    upgraded in place when a wider value arrives.  The buffer is modelled byte
    by byte; memory that [zrealloc] adds is zero. *)
From Stdlib Require Import ZArith Lia Sorted.
From stdpp Require Import base numbers list sorting sets.
From S2P Require Import Prelude.
Open Scope Z_scope.

(** ** Bytes *)

Fixpoint le_bytes (n : nat) (v : Z) : list Z :=
  match n with
  | O => []
  | S n => v mod 256 :: le_bytes n (v / 256)
  end.

Fixpoint le_val (l : list Z) : Z :=
  match l with
  | [] => 0
  | b :: l => b + 256 * le_val l
  end.

Definition sext (n : nat) (u : Z) : Z :=
  if u <? 2 ^ (8 * Z.of_nat n - 1) then u else u - 2 ^ (8 * Z.of_nat n).

(** ** The structure *)

Definition INTSET_ENC_INT16 : nat := 2.
Definition INTSET_ENC_INT32 : nat := 4.
Definition INTSET_ENC_INT64 : nat := 8.

Record intset := mkIntset {
  is_encoding : nat;      (* bytes per integer *)
  is_length : nat;        (* number of integers *)
  is_contents : list Z    (* the bytes *)
}.

#[global] Instance intset_eq_dec : EqDecision intset.
Proof. solve_decision. Defined.

Definition _intsetValueEncoding (v : Z) : nat :=
  if (v <? -2147483648) || (2147483647 <? v) then INTSET_ENC_INT64
  else if (v <? -32768) || (32767 <? v) then INTSET_ENC_INT32
  else INTSET_ENC_INT16.

(** Read or write the [enc] bytes at index [pos]. *)
Definition _intsetGetEncoded (ins : intset) (pos : nat) (enc : nat) : Z :=
  sext enc (le_val (take enc (drop (pos * enc) (is_contents ins)))).

Definition _intsetGet (ins : intset) (pos : nat) : Z :=
  _intsetGetEncoded ins pos (is_encoding ins).

Definition write_at (off : nat) (b c : list Z) : list Z :=
  take off c ++ b ++ drop (off + length b) c.

Definition _intsetSet (ins : intset) (pos : nat) (value : Z) : intset :=
  let enc := is_encoding ins in
  mkIntset enc (is_length ins) (write_at (pos * enc) (le_bytes enc value) (is_contents ins)).

Definition intsetNew : intset := mkIntset INTSET_ENC_INT16 0 [].

Definition intsetResize (ins : intset) (len : nat) : intset :=
  mkIntset (is_encoding ins) (is_length ins)
    (resize (len * is_encoding ins)%nat 0 (is_contents ins)).

(** ** Search

    The binary search loop; [min], [max], [mid] are C ints, [mid] computed with
    unsigned arithmetic.  Every iteration halves the interval: the fuel is the
    length of the array. *)
Fixpoint search_loop (fuel : nat) (ins : intset) (value min max mid cur : Z) : Z * Z * Z :=
  match fuel with
  | O => (min, mid, cur)
  | S fuel =>
      if min <=? max then
        let mid := to_uint (to_uint min + to_uint max) / 2 in
        let cur := _intsetGet ins (Z.to_nat mid) in
        if cur <? value then search_loop fuel ins value (mid + 1) max mid cur
        else if value <? cur then search_loop fuel ins value min (mid - 1) mid cur
        else (min, mid, cur)
      else (min, mid, cur)
  end.

Definition intsetSearch (ins : intset) (value : Z) : bool * nat :=
  if Nat.eqb (is_length ins) 0 then (false, 0%nat)
  else if _intsetGet ins (is_length ins - 1) <? value then (false, is_length ins)
  else if value <? _intsetGet ins 0 then (false, 0%nat)
  else
    let '(min, mid, cur) :=
      search_loop (S (is_length ins)) ins value 0 (Z.of_nat (is_length ins) - 1) (-1) (-1) in
    if value =? cur then (true, Z.to_nat mid) else (false, Z.to_nat min).

(** ** Update *)

(** The back-to-front copy loop [while(length--)]. *)
Fixpoint upgrade_loop (ins : intset) (curenc prepend k : nat) : intset :=
  match k with
  | O => ins
  | S k =>
      let ins := _intsetSet ins (k + prepend) (_intsetGetEncoded ins k curenc) in
      upgrade_loop ins curenc prepend k
  end.

Definition intsetUpgradeAndAdd (ins : intset) (value : Z) : intset :=
  let curenc := is_encoding ins in
  let newenc := _intsetValueEncoding value in
  let length := is_length ins in
  let prepend := if value <? 0 then 1%nat else 0%nat in
  let ins := mkIntset newenc (is_length ins) (is_contents ins) in
  let ins := intsetResize ins (is_length ins + 1) in
  let ins := upgrade_loop ins curenc prepend length in
  let ins :=
    if value <? 0 then _intsetSet ins 0 value else _intsetSet ins (is_length ins) value in
  mkIntset (is_encoding ins) (is_length ins + 1) (is_contents ins).

(** [memmove(contents+dst, contents+src, bytes)]. *)
Definition memmove (dst src bytes : nat) (c : list Z) : list Z :=
  write_at dst (take bytes (drop src c)) c.

Definition intsetMoveTail (ins : intset) (from to : nat) : intset :=
  let enc := is_encoding ins in
  let bytes := ((is_length ins - from) * enc)%nat in
  mkIntset enc (is_length ins) (memmove (to * enc) (from * enc) bytes (is_contents ins)).

(** The flag is [*success]. *)
Definition intsetAdd (ins : intset) (value : Z) : intset * bool :=
  let valenc := _intsetValueEncoding value in
  if Nat.ltb (is_encoding ins) valenc then (intsetUpgradeAndAdd ins value, true)
  else
    let '(found, pos) := intsetSearch ins value in
    if found then (ins, false)
    else
      let ins := intsetResize ins (is_length ins + 1) in
      let ins := if Nat.ltb pos (is_length ins) then intsetMoveTail ins pos (pos + 1) else ins in
      let ins := _intsetSet ins pos value in
      (mkIntset (is_encoding ins) (is_length ins + 1) (is_contents ins), true).

Definition intsetRemove (ins : intset) (value : Z) : intset * bool :=
  let valenc := _intsetValueEncoding value in
  if Nat.leb valenc (is_encoding ins) then
    let '(found, pos) := intsetSearch ins value in
    if found then
      let len := is_length ins in
      let ins := if Nat.ltb pos (len - 1) then intsetMoveTail ins (pos + 1) pos else ins in
      let ins := intsetResize ins (len - 1) in
      (mkIntset (is_encoding ins) (len - 1) (is_contents ins), true)
    else (ins, false)
  else (ins, false).

Definition intsetFind (ins : intset) (value : Z) : bool :=
  let valenc := _intsetValueEncoding value in
  Nat.leb valenc (is_encoding ins) && (intsetSearch ins value).1.

(** [intsetGet]: [None] is the 0 returned when [pos] is out of range. *)
Definition intsetGet (ins : intset) (pos : nat) : option Z :=
  if Nat.ltb pos (is_length ins) then Some (_intsetGet ins pos) else None.

Definition intsetLen (ins : intset) : nat := is_length ins.

(** The integers in iteration order. *)
Definition intset_values (ins : intset) : list Z :=
  map (_intsetGet ins) (seq 0 (is_length ins)).

Example intset_ex :
  let add l v := (intsetAdd l v).1 in
  let ins := foldl add intsetNew [5; 3; 70000; -9; 5; -9000000000; 4] in
  intset_values ins = [-9000000000; -9; 3; 4; 5; 70000]
  /\ is_encoding ins = 8%nat /\ length (is_contents ins) = 48%nat
  /\ intset_values (intsetRemove ins 4).1 = [-9000000000; -9; 3; 5; 70000]
  /\ intsetFind ins 70000 = true /\ intsetFind ins 6 = false.
Proof. vm_compute. repeat split. Qed.

(** ** Encoding integers as bytes *)

Definition fits (enc : nat) (v : Z) : Prop :=
  - 2 ^ (8 * Z.of_nat enc - 1) <= v < 2 ^ (8 * Z.of_nat enc - 1).

Definition encode (enc : nat) (l : list Z) : list Z := l ≫= le_bytes enc.

Lemma length_le_bytes n v : length (le_bytes n v) = n.
Proof. revert v. induction n as [|n IH]; intros v; cbn; [done|]. by rewrite IH. Qed.

Lemma le_val_le_bytes n v : le_val (le_bytes n v) = v mod 2 ^ (8 * Z.of_nat n).
Proof.
  revert v. induction n as [|n IH]; intros v; cbn [le_bytes le_val].
  - cbn. by rewrite Z.mod_1_r.
  - rewrite IH. replace (8 * Z.of_nat (S n)) with (8 + 8 * Z.of_nat n) by lia.
    rewrite Z.pow_add_r by lia. change (2 ^ 8) with 256.
    rewrite Z.rem_mul_r by (try apply Z.pow_nonzero; lia). done.
Qed.

Lemma sext_le_bytes n v : (0 < n)%nat -> fits n v -> sext n (le_val (le_bytes n v)) = v.
Proof.
  intros Hn [Hlo Hhi]. rewrite le_val_le_bytes. unfold sext.
  set (p := 2 ^ (8 * Z.of_nat n - 1)) in *.
  assert (2 ^ (8 * Z.of_nat n) = 2 * p) as ->
    by (unfold p; rewrite <- Z.pow_succ_r by lia; f_equal; lia).
  assert (0 < p) by (apply Z.pow_pos_nonneg; lia).
  destruct (Z.ltb_spec v 0).
  - rewrite <- (Z.mod_unique v (2 * p) (-1) (v + 2 * p)) by lia.
    destruct (Z.ltb_spec (v + 2 * p) p); lia.
  - rewrite Z.mod_small by lia. destruct (Z.ltb_spec v p); lia.
Qed.

Lemma encode_app enc l k : encode enc (l ++ k) = encode enc l ++ encode enc k.
Proof. apply bind_app. Qed.

Lemma encode_cons enc v l : encode enc (v :: l) = le_bytes enc v ++ encode enc l.
Proof. done. Qed.

Lemma encode_length enc l : length (encode enc l) = (length l * enc)%nat.
Proof.
  induction l as [|v l IH]; [done|]. unfold encode in *. cbn.
  rewrite length_app, length_le_bytes, IH. lia.
Qed.

Lemma take_encode enc k l : take (k * enc) (encode enc l) = encode enc (take k l).
Proof.
  destruct (Nat.le_gt_cases k (length l)) as [Hk|Hk].
  - rewrite <- (take_drop k l) at 1. rewrite encode_app.
    rewrite take_app_le by (rewrite encode_length, length_take; nia).
    apply take_ge. rewrite encode_length, length_take. nia.
  - rewrite (take_ge l) by lia. apply take_ge. rewrite encode_length. nia.
Qed.

Lemma drop_encode enc k l : drop (k * enc) (encode enc l) = encode enc (drop k l).
Proof.
  destruct (Nat.le_gt_cases k (length l)) as [Hk|Hk].
  - rewrite <- (take_drop k l) at 1. rewrite encode_app.
    rewrite drop_app_ge by (rewrite encode_length, length_take; nia).
    rewrite encode_length, length_take, Nat.min_l, Nat.sub_diag by lia. done.
  - rewrite (drop_ge l) by lia. apply drop_ge. rewrite encode_length. nia.
Qed.

Lemma get_encode enc n len l i v :
  (0 < enc)%nat -> l !! i = Some v -> fits enc v ->
  _intsetGetEncoded (mkIntset n len (encode enc l)) i enc = v.
Proof.
  intros He Hi Hf. unfold _intsetGetEncoded. cbn [is_contents].
  rewrite drop_encode, (drop_S _ v) by done.
  unfold encode. cbn. rewrite take_app_le by (rewrite length_le_bytes; lia).
  rewrite take_ge by (rewrite length_le_bytes; lia). by apply sext_le_bytes.
Qed.

Lemma write_encode enc l i v :
  (i < length l)%nat ->
  write_at (i * enc) (le_bytes enc v) (encode enc l) = encode enc (<[i := v]> l).
Proof.
  intros Hi. unfold write_at. rewrite length_le_bytes.
  replace (i * enc + enc)%nat with (S i * enc)%nat by lia.
  rewrite take_encode, drop_encode, insert_take_drop by done.
  by rewrite encode_app, encode_cons.
Qed.

Lemma resize_encode_grow enc l :
  resize ((length l + 1) * enc) 0 (encode enc l) = encode enc (l ++ [0]).
Proof.
  rewrite resize_ge by (rewrite encode_length; lia). rewrite encode_app. f_equal.
  rewrite encode_length. replace ((length l + 1) * enc - length l * enc)%nat with enc by lia.
  unfold encode. cbn. rewrite app_nil_r. clear l.
  induction enc as [|enc IH]; [done|]. cbn. by rewrite IH.
Qed.

(** ** Representation

    [intset_rep ins l]: the buffer holds exactly the integers [l], strictly
    increasing and within the width. *)
Definition good_enc (enc : nat) : Prop := enc = 2%nat \/ enc = 4%nat \/ enc = 8%nat.

Definition sorted_lt : list Z -> Prop := StronglySorted Z.lt.

Record intset_rep (ins : intset) (l : list Z) : Prop := mk_rep {
  rep_enc : good_enc (is_encoding ins);
  rep_len : is_length ins = length l;
  rep_bytes : is_contents ins = encode (is_encoding ins) l;
  rep_fits : Forall (fits (is_encoding ins)) l;
  rep_sorted : sorted_lt l;
  rep_small : Z.of_nat (length l) < 2147483648
}.

Lemma good_enc_pos enc : good_enc enc -> (0 < enc)%nat.
Proof. unfold good_enc. lia. Qed.

Lemma rep_get ins l i v :
  intset_rep ins l -> l !! i = Some v -> _intsetGet ins i = v.
Proof.
  intros [He Hl Hb Hf _ _] Hi. unfold _intsetGet. destruct ins as [enc len c]. cbn in *.
  subst c. apply (get_encode enc enc len l); [by apply good_enc_pos|done|].
  rewrite Forall_lookup in Hf. by eapply Hf.
Qed.

Lemma rep_values ins l : intset_rep ins l -> intset_values ins = l.
Proof.
  intros H. unfold intset_values. rewrite (rep_len _ _ H).
  apply list_eq. intros i. rewrite list_lookup_fmap.
  destruct (l !! i) as [v|] eqn:E.
  - rewrite lookup_seq_lt by (by eapply lookup_lt_Some). cbn. f_equal. by eapply rep_get.
  - apply lookup_ge_None in E. rewrite lookup_seq_ge by done. done.
Qed.

Lemma intsetNew_rep : intset_rep intsetNew [].
Proof. split; cbn; [left|..]; try done; constructor. Qed.

(** *** Sorted lists *)

Lemma sorted_lookup l i j x y :
  sorted_lt l -> l !! i = Some x -> l !! j = Some y -> (i < j)%nat -> x < y.
Proof.
  intros Hs. revert i j. induction Hs as [|a l Hs IH HF]; intros i j Hi Hj Hij; [done|].
  destruct j as [|j]; [lia|]. cbn in Hj. destruct i as [|i].
  - injection Hi as ->. rewrite Forall_lookup in HF. by eapply HF.
  - cbn in Hi. eapply (IH i j); eauto; lia.
Qed.

Lemma sorted_app l k :
  sorted_lt (l ++ k) <->
  sorted_lt l /\ sorted_lt k /\ (forall x y, x ∈ l -> y ∈ k -> x < y).
Proof.
  unfold sorted_lt. induction l as [|a l IH]; cbn.
  - split; [|tauto]. intros H. split_and!; [constructor|done|]. intros x y Hx. by apply elem_of_nil in Hx.
  - split.
    + intros H. apply StronglySorted_inv in H as [H1 H2]. apply IH in H1 as (Hl & Hk & Hlk).
      apply Forall_app in H2 as [Ha1 Ha2]. rewrite Forall_forall in Ha2.
      split_and!; [by constructor|done|]. intros x y [->|Hx]%elem_of_cons Hy; auto.
    + intros (H1 & Hk & Hlk). apply StronglySorted_inv in H1 as [H1 H2].
      constructor.
      * apply IH. split_and!; [done..|]. intros x y Hx Hy. apply Hlk; [by right|done].
      * apply Forall_app. split; [done|]. apply Forall_forall. intros y Hy. apply Hlk; [by left|done].
Qed.

Lemma sorted_NoDup l : sorted_lt l -> NoDup l.
Proof.
  induction 1 as [|a l Hs IH HF]; constructor; [|done].
  intros Hin. rewrite Forall_forall in HF. specialize (HF _ Hin). lia.
Qed.

(** Where a value goes in a sorted list. *)
Definition insert_pos (l : list Z) (value : Z) (pos : nat) : Prop :=
  (pos <= length l)%nat /\
  (forall i x, l !! i = Some x -> (i < pos)%nat -> x < value) /\
  (forall i x, l !! i = Some x -> (pos <= i)%nat -> value < x).

Lemma insert_pos_not_in l value pos : insert_pos l value pos -> value ∉ l.
Proof.
  intros (_ & Hlt & Hgt) Hin. apply list_elem_of_lookup in Hin as [i Hi].
  destruct (Nat.lt_ge_cases i pos) as [H|H]; [specialize (Hlt _ _ Hi H)|specialize (Hgt _ _ Hi H)]; lia.
Qed.

Lemma insert_pos_sorted l value pos :
  sorted_lt l -> insert_pos l value pos -> sorted_lt (take pos l ++ value :: drop pos l).
Proof.
  intros Hs (Hp & Hlt & Hgt). rewrite <- (take_drop pos l) in Hs.
  apply sorted_app in Hs as (H1 & H2 & H3).
  assert (forall x, x ∈ take pos l -> x < value) as Hl.
  { intros x Hx. apply list_elem_of_lookup in Hx as [i Hi].
    apply lookup_take_Some in Hi as [Hi ?]. by eapply Hlt. }
  assert (forall x, x ∈ drop pos l -> value < x) as Hr.
  { intros x Hx. apply list_elem_of_lookup in Hx as [i Hi].
    rewrite lookup_drop in Hi. eapply Hgt; [done|lia]. }
  apply sorted_app. split_and!; [done| |].
  - constructor; [done|]. apply Forall_forall. done.
  - intros x y Hx [->|Hy]%elem_of_cons; auto.
Qed.

(** ** The binary search is correct and terminates *)

Lemma search_loop_spec ins l value fuel min max mid cur :
  intset_rep ins l -> 0 <= min -> max < Z.of_nat (length l) -> min <= max + 1 ->
  (Z.to_nat (max - min + 1) < fuel)%nat -> (min <= max \/ cur <> value) ->
  (forall i x, l !! i = Some x -> Z.of_nat i < min -> x < value) ->
  (forall i x, l !! i = Some x -> max < Z.of_nat i -> value < x) ->
  exists min' mid' cur', search_loop fuel ins value min max mid cur = (min', mid', cur') /\
    ((cur' = value /\ l !! Z.to_nat mid' = Some value) \/
     (cur' <> value /\ insert_pos l value (Z.to_nat min'))).
Proof.
  intros Hrep. revert min max mid cur.
  induction fuel as [|fuel IH]; intros min max mid cur H0 Hmax Hmm Hfuel Hcur Hlt Hgt; [lia|].
  cbn [search_loop]. destruct (Z.leb_spec min max) as [Hle|Hle].
  2: { exists min, mid, cur. split; [done|]. right. split; [lia|].
       split; [lia|]. split; intros i x Hi Hp; [apply (Hlt i x Hi); lia|apply (Hgt i x Hi); lia]. }
  pose proof (rep_small _ _ Hrep) as Hsm.
  assert (to_uint (to_uint min + to_uint max) / 2 = (min + max) / 2) as ->
    by (unfold to_uint; rewrite !Z.mod_small; rewrite ?Z.mod_small; lia).
  set (m := (min + max) / 2).
  assert (min <= m <= max) as Hm
    by (unfold m; split; [apply Z.div_le_lower_bound|apply Z.div_le_upper_bound]; lia).
  destruct (lookup_lt_is_Some_2 l (Z.to_nat m)) as [v Hv]; [lia|].
  rewrite (rep_get _ _ _ _ Hrep Hv).
  destruct (Z.ltb_spec v value) as [Hvl|Hvl]; [|destruct (Z.ltb_spec value v) as [Hvg|Hvg]].
  - apply IH; try lia.
    + intros i x Hi Hp. destruct (decide (Z.of_nat i = m)) as [Heq|].
      * replace (Z.to_nat m) with i in Hv by lia. congruence.
      * pose proof (sorted_lookup l i (Z.to_nat m) x v (rep_sorted _ _ Hrep) Hi Hv). lia.
    + done.
  - apply IH; try lia.
    + done.
    + intros i x Hi Hp. destruct (decide (Z.of_nat i = m)) as [Heq|].
      * replace (Z.to_nat m) with i in Hv by lia. congruence.
      * pose proof (sorted_lookup l (Z.to_nat m) i v x (rep_sorted _ _ Hrep) Hv Hi). lia.
  - assert (v = value) as -> by lia. exists min, m, value. split; [done|]. by left.
Qed.

Lemma intsetSearch_spec ins l value :
  intset_rep ins l ->
  (exists pos, intsetSearch ins value = (true, pos) /\ l !! pos = Some value) \/
  (exists pos, intsetSearch ins value = (false, pos) /\ insert_pos l value pos).
Proof.
  intros Hrep. unfold intsetSearch. rewrite (rep_len _ _ Hrep).
  pose proof (rep_sorted _ _ Hrep) as Hs.
  destruct (Nat.eqb_spec (length l) 0) as [Hz|Hz].
  { right. exists 0%nat. split; [done|]. destruct l; [|done]. by repeat split. }
  destruct (lookup_lt_is_Some_2 l (length l - 1)) as [hi Hhi]; [lia|].
  destruct (lookup_lt_is_Some_2 l 0) as [lo Hlo]; [lia|].
  rewrite (rep_get _ _ _ _ Hrep Hhi), (rep_get _ _ _ _ Hrep Hlo).
  destruct (Z.ltb_spec hi value) as [Hbig|Hbig].
  { right. exists (length l). split; [done|]. split; [lia|]. split; intros i x Hi Hp.
    - destruct (decide (i = length l - 1)%nat) as [->|]; [congruence|].
      pose proof (sorted_lookup l i (length l - 1) x hi Hs Hi Hhi). lia.
    - apply lookup_lt_Some in Hi. lia. }
  destruct (Z.ltb_spec value lo) as [Hsmall|Hsmall].
  { right. exists 0%nat. split; [done|]. split; [lia|]. split; intros i x Hi Hp; [lia|].
    destruct (decide (i = 0%nat)) as [->|]; [congruence|].
    pose proof (sorted_lookup l 0 i lo x Hs Hlo Hi). lia. }
  destruct (search_loop_spec ins l value (S (length l)) 0 (Z.of_nat (length l) - 1) (-1) (-1))
    as (min & mid & cur & -> & Hres); try lia; [done| |].
  { intros i x Hi Hp. apply lookup_lt_Some in Hi. lia. }
  destruct Hres as [[-> Hm]|[Hne Hins]].
  - rewrite Z.eqb_refl. left. eauto.
  - rewrite (proj2 (Z.eqb_neq value cur)) by done. right. eauto.
Qed.

(** ** Widths *)

Lemma pow_bits enc : good_enc enc ->
  2 ^ (8 * Z.of_nat enc - 1) =
  if Nat.eqb enc 2 then 32768 else if Nat.eqb enc 4 then 2147483648 else 9223372036854775808.
Proof. by intros [-> | [-> | ->]]. Qed.

Lemma value_encoding_good v : good_enc (_intsetValueEncoding v).
Proof.
  unfold _intsetValueEncoding, good_enc, INTSET_ENC_INT64, INTSET_ENC_INT32, INTSET_ENC_INT16.
  repeat case_match; lia.
Qed.

(** A value fits exactly the encodings at least as wide as its own. *)
Lemma fits_value_encoding enc v :
  good_enc enc -> in_llong v -> fits enc v <-> (_intsetValueEncoding v <= enc)%nat.
Proof.
  intros He Hv. unfold fits. rewrite pow_bits by done.
  unfold _intsetValueEncoding, INTSET_ENC_INT64, INTSET_ENC_INT32, INTSET_ENC_INT16.
  destruct He as [-> | [-> | ->]]; cbn [Nat.eqb];
    destruct ((v <? -2147483648) || (2147483647 <? v)) eqn:E1;
    [|destruct ((v <? -32768) || (32767 <? v)) eqn:E2| |destruct ((v <? -32768) || (32767 <? v)) eqn:E2
     | |destruct ((v <? -32768) || (32767 <? v)) eqn:E2]; clia.
Qed.

Lemma fits_mono enc enc' v :
  good_enc enc -> good_enc enc' -> (enc <= enc')%nat -> fits enc v -> fits enc' v.
Proof.
  intros He He' Hle. unfold fits. rewrite !pow_bits by done.
  destruct He as [-> | [-> | ->]], He' as [-> | [-> | ->]]; cbn; lia.
Qed.

(** ** Upgrading in place *)

(** The part of the buffer not yet copied still holds the old integers and the
    part already copied holds the new ones. *)
Record upgrade_inv (old new prepend : nat) (l gap c : list Z) (k : nat) : Prop := {
  upg_old : take (k * old) c = encode old (take k l);
  upg_new : drop ((k + prepend) * new) c = encode new (drop k l) ++ gap;
  upg_len : length c = (length l * new + new)%nat
}.

Lemma write_at_length off b c :
  (off + length b <= length c)%nat -> length (write_at off b c) = length c.
Proof.
  intros H. unfold write_at. rewrite !length_app, length_take, length_drop. lia.
Qed.

Lemma upgrade_step old new prepend l gap c k v len :
  (0 < old <= new)%nat -> (prepend <= 1)%nat -> Forall (fits old) l -> l !! k = Some v ->
  upgrade_inv old new prepend l gap c (S k) ->
  upgrade_inv old new prepend l gap
    (is_contents (_intsetSet (mkIntset new len c) (k + prepend)
       (_intsetGetEncoded (mkIntset new len c) k old))) k.
Proof.
  intros Hon Hp Hf Hk [Ho Hn Hlen]. pose proof (lookup_lt_Some _ _ _ Hk) as Hlt.
  assert (_intsetGetEncoded (mkIntset new len c) k old = v) as ->.
  { unfold _intsetGetEncoded. cbn [is_contents].
    replace (take old (drop (k * old) c)) with (take old (drop (k * old) (take (S k * old) c))).
    - rewrite Ho, drop_encode, skipn_firstn_comm. replace (S k - k)%nat with 1%nat by lia.
      rewrite (drop_S l v) by done. cbn [take]. rewrite encode_cons. cbn. rewrite app_nil_r.
      rewrite take_ge by (rewrite length_le_bytes; lia). apply sext_le_bytes; [lia|].
      rewrite Forall_lookup in Hf. by eapply Hf.
    - rewrite skipn_firstn_comm. replace (S k * old - k * old)%nat with old by lia.
      by rewrite take_take, Nat.min_id. }
  cbn [_intsetSet is_encoding is_contents is_length].
  assert (((k + prepend) * new + length (le_bytes new v) <= length c)%nat)
    by (rewrite length_le_bytes, Hlen; nia).
  split.
  - unfold write_at. rewrite take_app_le by (rewrite length_take; nia).
    rewrite take_take, Nat.min_l by nia.
    replace (take k l) with (take k (take (S k) l)) by (rewrite take_take; f_equal; lia).
    rewrite <- take_encode, <- Ho, take_take. f_equal. nia.
  - unfold write_at. rewrite drop_app_ge by (rewrite length_take; nia).
    rewrite length_take, Nat.min_l, Nat.sub_diag, drop_0 by nia.
    rewrite length_le_bytes. replace ((k + prepend) * new + new)%nat with ((S k + prepend) * new)%nat by lia.
    rewrite Hn, (drop_S l v k Hk), encode_cons. by rewrite app_assoc.
  - by rewrite write_at_length.
Qed.

Lemma upgrade_loop_inv old new prepend l gap len k c :
  (0 < old <= new)%nat -> (prepend <= 1)%nat -> Forall (fits old) l -> (k <= length l)%nat ->
  upgrade_inv old new prepend l gap c k ->
  exists c', upgrade_loop (mkIntset new len c) old prepend k = mkIntset new len c' /\
    upgrade_inv old new prepend l gap c' 0.
Proof.
  intros Hon Hp Hf. revert c. induction k as [|k IH]; intros c Hk Hinv; [by exists c|].
  cbn [upgrade_loop]. destruct (lookup_lt_is_Some_2 l k) as [v Hv]; [lia|].
  pose proof (upgrade_step _ _ _ _ _ _ _ _ len Hon Hp Hf Hv Hinv) as Hstep.
  destruct (IH _ ltac:(lia) Hstep) as (c' & Hc' & Hinv'). exists c'. split; [|done].
  rewrite <- Hc'. done.
Qed.

Lemma upgrade_sorted enc value l :
  good_enc enc -> in_llong value -> (enc < _intsetValueEncoding value)%nat ->
  Forall (fits enc) l -> sorted_lt l ->
  sorted_lt (if value <? 0 then value :: l else l ++ [value]).
Proof.
  intros He Hv Hlt Hf Hs.
  assert (~ fits enc value) as Hnf by (rewrite fits_value_encoding by done; lia).
  rewrite Forall_forall in Hf. unfold fits in *.
  destruct (Z.ltb_spec value 0).
  - constructor; [done|]. apply Forall_forall. intros x Hx. specialize (Hf _ Hx). lia.
  - apply sorted_app. split_and!; [done|repeat constructor|].
    intros x y Hx ->%list_elem_of_singleton. specialize (Hf _ Hx). lia.
Qed.

Lemma intsetUpgradeAndAdd_rep ins l value :
  intset_rep ins l -> in_llong value -> (is_encoding ins < _intsetValueEncoding value)%nat ->
  Z.of_nat (length l) + 1 < 2147483648 ->
  intset_rep (intsetUpgradeAndAdd ins value) (if value <? 0 then value :: l else l ++ [value]).
Proof.
  intros [He Hl Hb Hf Hs _] Hv Hlt Hsm. destruct ins as [old len c]. cbn in He, Hl, Hb, Hf, Hlt.
  subst len c. unfold intsetUpgradeAndAdd, intsetResize. cbn [is_encoding is_length is_contents].
  set (new := _intsetValueEncoding value) in *.
  pose proof (value_encoding_good value : good_enc new) as Hn.
  pose proof (good_enc_pos _ He) as Hpos.
  set (p := if value <? 0 then 1%nat else 0%nat).
  assert (p <= 1)%nat as Hp by (unfold p; case_match; lia).
  set (c0 := resize ((length l + 1) * new) 0 (encode old l)).
  assert (length c0 = (length l * new + new)%nat) as Hc0
    by (unfold c0; rewrite length_resize; lia).
  destruct (upgrade_loop_inv old new p l (drop ((length l + p) * new) c0) (length l) (length l) c0)
    as (c & -> & [_ Hdrop Hlen]); [lia|done|done|lia| |].
  { split; [|by rewrite (drop_ge l) by lia|done].
    rewrite (take_ge l) by lia. unfold c0. rewrite take_resize_le by nia.
    rewrite resize_all_alt; [done|by rewrite encode_length]. }
  cbn [Nat.add drop is_encoding is_length] in Hdrop |- *.
  assert (Forall (fits new) l) as Hfn.
  { eapply Forall_impl; [done|]. intros x. apply fits_mono; [done..|lia]. }
  assert (fits new value) as Hfv by (apply fits_value_encoding; [done..|lia]).
  pose proof (upgrade_sorted _ _ _ He Hv Hlt Hf Hs) as Hsort. rewrite drop_0 in Hdrop.
  unfold p in *. destruct (value <? 0).
  - unfold _intsetSet. split; cbn [is_encoding is_length is_contents length]; try done; [lia| |by constructor|lia].
    unfold write_at. rewrite length_le_bytes. cbn [Nat.mul take Nat.add app] in *.
    rewrite Nat.add_0_r in Hdrop. rewrite Hdrop, encode_cons, (drop_ge c0) by nia.
    by rewrite app_nil_r.
  - unfold _intsetSet. split; cbn [is_encoding is_length is_contents]; rewrite ?length_app; cbn [length]; try done; [| |lia].
    + rewrite Nat.mul_0_l, drop_0 in Hdrop. rewrite Hdrop. unfold write_at. rewrite length_le_bytes.
      rewrite take_app_le by (rewrite encode_length; lia).
      rewrite take_ge by (rewrite encode_length; lia).
      rewrite (drop_ge (_ ++ _)) by (rewrite length_app, length_drop, encode_length; lia).
      rewrite app_nil_r, encode_app, encode_cons. cbn. by rewrite app_nil_r.
    + apply Forall_app. split; [done|]. by constructor.
Qed.

(** ** Insertion and removal within the width *)

Lemma memmove_encode_up enc l pos x :
  (pos < length l)%nat ->
  memmove ((pos + 1) * enc) (pos * enc) ((length l - pos) * enc) (encode enc (l ++ [x])) =
  encode enc (take (S pos) (l ++ [x]) ++ drop pos l).
Proof.
  intros Hp. unfold memmove. rewrite drop_encode, take_encode.
  rewrite drop_app_le, take_app_le by (rewrite ?length_drop; lia).
  rewrite (take_ge (drop pos l)) by (rewrite length_drop; lia).
  unfold write_at. rewrite take_encode, (encode_app enc (take _ _)), encode_length, length_drop.
  rewrite (drop_ge (encode _ _)) by (rewrite encode_length, length_app; cbn; nia).
  rewrite app_nil_r. replace (pos + 1)%nat with (S pos) by lia. done.
Qed.

Lemma memmove_encode_down enc l pos :
  (S pos < length l)%nat ->
  take ((length l - 1) * enc)
    (memmove (pos * enc) ((pos + 1) * enc) ((length l - (pos + 1)) * enc) (encode enc l)) =
  encode enc (take pos l ++ drop (S pos) l).
Proof.
  intros Hp. unfold memmove. rewrite drop_encode, take_encode.
  replace (pos + 1)%nat with (S pos) by lia.
  rewrite (take_ge (drop (S pos) l)) by (rewrite length_drop; lia).
  unfold write_at. rewrite take_encode, app_assoc, <- encode_app.
  rewrite take_app_le by (rewrite encode_length, length_app, length_take, length_drop; nia).
  apply take_ge. rewrite encode_length, length_app, length_take, length_drop. nia.
Qed.

Lemma intsetAdd_insert ins l value pos :
  intset_rep ins l -> fits (is_encoding ins) value -> insert_pos l value pos ->
  Z.of_nat (length l) + 1 < 2147483648 ->
  intset_rep
    (let ins := intsetResize ins (is_length ins + 1) in
     let ins := if Nat.ltb pos (is_length ins) then intsetMoveTail ins pos (pos + 1) else ins in
     let ins := _intsetSet ins pos value in
     mkIntset (is_encoding ins) (is_length ins + 1) (is_contents ins))
    (take pos l ++ value :: drop pos l).
Proof.
  intros [He Hl Hb Hf Hs _] Hfit Hpos Hsm. destruct ins as [enc len c]. cbn in He, Hl, Hb, Hf, Hfit.
  subst len c. unfold intsetResize, intsetMoveTail, _intsetSet. cbn zeta.
  cbn [is_encoding is_length is_contents]. rewrite resize_encode_grow.
  pose proof (insert_pos_sorted _ _ _ Hs Hpos) as Hs'. destruct Hpos as [Hle _].
  assert (length (take pos l ++ value :: drop pos l) = S (length l)) as Hlen'.
  { rewrite length_app, length_take. cbn. rewrite length_drop. lia. }
  rewrite <- (take_drop pos l), Forall_app in Hf.
  destruct (Nat.ltb_spec pos (length l)) as [Hlt|Hge]; cbn [is_encoding is_length is_contents];
    (split; cbn [is_encoding is_length is_contents];
       [done|lia| |apply Forall_app; split; [|constructor]; tauto|done|lia]).
  - rewrite memmove_encode_up by done. rewrite write_encode.
    2: { rewrite length_app, length_take, length_app, length_drop. cbn [length]. lia. }
    f_equal. rewrite insert_app_l by (rewrite length_take, length_app; cbn [length]; lia).
    rewrite take_app_le by lia. destruct (lookup_lt_is_Some_2 l pos Hlt) as [w Hw].
    rewrite (take_S_r _ _ w Hw), insert_app_r_alt by (rewrite length_take; lia).
    rewrite length_take, Nat.min_l, Nat.sub_diag by lia. cbn. by rewrite <- app_assoc.
  - assert (pos = length l) as -> by lia.
    rewrite write_encode by (rewrite length_app; cbn; lia). f_equal.
    rewrite insert_app_r_alt, Nat.sub_diag by lia. cbn.
    rewrite (take_ge l), (drop_ge l) by lia. done.
Qed.

(** ** The operations on the abstract set *)

Lemma rep_in_llong ins l v : intset_rep ins l -> v ∈ l -> in_llong v.
Proof.
  intros [He _ _ Hf _ _] Hv. rewrite Forall_forall in Hf. specialize (Hf _ Hv).
  unfold fits in Hf. rewrite pow_bits in Hf by done. destruct He as [He|[He|He]]; rewrite He in Hf; cbn in Hf; clia.
Qed.

Lemma rep_enc_le ins l v :
  intset_rep ins l -> v ∈ l -> (_intsetValueEncoding v <= is_encoding ins)%nat.
Proof.
  intros Hr Hv. apply fits_value_encoding; [apply Hr|by eapply rep_in_llong|].
  pose proof (rep_fits _ _ Hr) as Hf. rewrite Forall_forall in Hf. auto.
Qed.

Lemma intsetFind_rep ins l value :
  intset_rep ins l -> intsetFind ins value = bool_decide (value ∈ l).
Proof.
  intros Hr. unfold intsetFind. apply eq_sym. destruct (intsetSearch_spec _ _ value Hr)
    as [(pos & -> & Hp)|(pos & -> & Hp)]; cbn.
  - assert (value ∈ l) as Hin by (apply list_elem_of_lookup; eauto).
    rewrite bool_decide_true by done. rewrite andb_true_r. symmetry. apply Nat.leb_le.
    by eapply rep_enc_le.
  - rewrite andb_false_r. apply bool_decide_eq_false. by eapply insert_pos_not_in.
Qed.

(** Inserting: the members of the new set, and the success flag. *)
Lemma intsetAdd_rep ins l value :
  intset_rep ins l -> in_llong value -> Z.of_nat (length l) + 1 < 2147483648 ->
  exists l', intset_rep (intsetAdd ins value).1 l' /\
    (forall x, x ∈ l' <-> x = value \/ x ∈ l) /\
    (intsetAdd ins value).2 = bool_decide (value ∉ l).
Proof.
  intros Hr Hv Hsm. unfold intsetAdd.
  destruct (Nat.ltb_spec (is_encoding ins) (_intsetValueEncoding value)) as [Hlt|Hge].
  - eexists. split; [by apply intsetUpgradeAndAdd_rep|]. split.
    + intros x. destruct (value <? 0); set_solver.
    + cbn. symmetry. apply bool_decide_eq_true. intros Hin. pose proof (rep_enc_le _ _ _ Hr Hin). lia.
  - destruct (intsetSearch_spec _ _ value Hr) as [(pos & -> & Hp)|(pos & -> & Hp)].
    + assert (value ∈ l) as Hin by (apply list_elem_of_lookup; eauto).
      exists l. split; [done|]. split; [set_solver|]. cbn. symmetry. apply bool_decide_eq_false. tauto.
    + exists (take pos l ++ value :: drop pos l). split; [|split].
      * apply intsetAdd_insert; try done. apply fits_value_encoding; [apply Hr|done|done].
      * intros x. rewrite <- (take_drop pos l) at 3. set_solver.
      * symmetry. apply bool_decide_eq_true. by eapply insert_pos_not_in.
Qed.

Lemma intsetRemove_at ins l value pos :
  intset_rep ins l -> l !! pos = Some value ->
  intset_rep
    (let len := is_length ins in
     let ins := if Nat.ltb pos (len - 1) then intsetMoveTail ins (pos + 1) pos else ins in
     let ins := intsetResize ins (len - 1) in
     mkIntset (is_encoding ins) (len - 1) (is_contents ins))
    (take pos l ++ drop (S pos) l).
Proof.
  intros [He Hl Hb Hf Hs Hsm] Hpos. destruct ins as [enc len c]. cbn in He, Hl, Hb, Hf.
  subst len c. pose proof (lookup_lt_Some _ _ _ Hpos) as Hlt.
  assert (length (take pos l ++ drop (S pos) l) = length l - 1)%nat as Hlen'
    by (rewrite length_app, length_take, length_drop; lia).
  assert (sorted_lt (take pos l ++ drop (S pos) l)) as Hs'.
  { rewrite <- (take_drop_middle _ _ _ Hpos) in Hs. apply sorted_app in Hs as (H1 & H2 & H3).
    apply sorted_app. apply StronglySorted_inv in H2 as [H2 _]. split_and!; [done..|].
    intros x y Hx Hy. apply H3; [done|by right]. }
  rewrite <- (take_drop_middle _ _ _ Hpos), Forall_app, Forall_cons in Hf.
  cbn zeta. unfold intsetResize, intsetMoveTail. cbn [is_encoding is_length is_contents].
  destruct (Nat.ltb_spec pos (length l - 1)) as [Hp|Hp]; cbn [is_encoding is_length is_contents];
    (split; cbn [is_encoding is_length is_contents]; [done|lia| |apply Forall_app; tauto|done|lia]).
  - rewrite resize_le.
    + apply memmove_encode_down. lia.
    + unfold memmove. rewrite write_at_length; rewrite ?length_take, ?length_drop, encode_length; nia.
  - assert (S pos = length l) as HS by lia.
    rewrite resize_le by (rewrite encode_length; nia). rewrite take_encode.
    rewrite (drop_ge l) by lia. rewrite app_nil_r. do 2 f_equal. lia.
Qed.

Lemma intsetRemove_rep ins l value :
  intset_rep ins l ->
  exists l', intset_rep (intsetRemove ins value).1 l' /\
    (forall x, x ∈ l' <-> x <> value /\ x ∈ l) /\
    (intsetRemove ins value).2 = bool_decide (value ∈ l).
Proof.
  intros Hr. unfold intsetRemove.
  assert (value ∉ l -> exists l', intset_rep ins l' /\ (forall x, x ∈ l' <-> x <> value /\ x ∈ l) /\
    false = bool_decide (value ∈ l)) as Hno.
  { intros Hin. exists l. split; [done|]. split; [|by rewrite bool_decide_false].
    intros x. split; [|tauto]. intros Hx. split; [congruence|done]. }
  destruct (Nat.leb_spec (_intsetValueEncoding value) (is_encoding ins)) as [Hle|Hgt].
  - destruct (intsetSearch_spec _ _ value Hr) as [(pos & -> & Hp)|(pos & -> & Hp)].
    + exists (take pos l ++ drop (S pos) l). split; [by eapply intsetRemove_at|]. split.
      * pose proof (sorted_NoDup _ (rep_sorted _ _ Hr)) as Hnd.
        rewrite <- (take_drop_middle _ _ _ Hp) in Hnd. apply NoDup_app in Hnd as (_ & Hd & Hnd2).
        apply NoDup_cons in Hnd2 as [Hnd2 _].
        intros x. rewrite <- (take_drop_middle _ _ _ Hp) at 3. set_solver.
      * rewrite bool_decide_true; [done|]. apply list_elem_of_lookup. eauto.
    + apply Hno. by eapply insert_pos_not_in.
  - apply Hno. intros Hin. pose proof (rep_enc_le _ _ _ Hr Hin). lia.
Qed.

(** An integer set reached from the empty one by insertions and removals of
    [long long] values. *)
Definition intset_ok (ins : intset) : Prop := exists l, intset_rep ins l.

Lemma intset_ok_values ins : intset_ok ins -> intset_rep ins (intset_values ins).
Proof. intros [l Hl]. by rewrite (rep_values _ _ Hl). Qed.
