(* ===== verification/SetType.v ===== *)
(** * Set objects ([t_set.c], the [setType*] functions)

    A Redis set is an integer set while all its members are integers and it is
    small, and a hash table otherwise.  The hash table is a finite set of
    strings together with an enumeration order that the code cannot rely on:
    the order is a class, and every result holds for every order. *)
From Stdlib Require Import ZArith Lia Ascii String.
From stdpp Require Import base numbers list strings gmap sets.
From S2P Require Import Prelude Sds Intset.
Open Scope Z_scope.

(** ** Hash tables without values *)

(** The order in which [dictNext] enumerates a table. *)
Class DictOrder := {
  dict_iter : gset sds -> list sds;
  dict_iter_perm d : dict_iter d ≡ₚ elements d
}.

(** The enumeration used in the examples. *)
#[global] Instance elements_order : DictOrder | 100 := {
  dict_iter := elements;
  dict_iter_perm d := reflexivity (elements d)
}.

Definition dictAdd (d : gset sds) (key : sds) : option (gset sds) :=
  if decide (key ∈ d) then None else Some ({[key]} ∪ d).

Definition dictDelete (d : gset sds) (key : sds) : option (gset sds) :=
  if decide (key ∈ d) then Some (d ∖ {[key]}) else None.

(** ** Objects *)

Inductive setobj :=
  | SIntset (ins : intset)
  | SHT (d : gset sds).

#[global] Instance setobj_eq_dec : EqDecision setobj.
Proof. solve_decision. Defined.

Definition createIntsetObject : setobj := SIntset intsetNew.
Definition createSetObject : setobj := SHT ∅.

Definition isSdsRepresentableAsLongLong (s : sds) : option Z := string2ll s.

Definition setTypeCreate (value : sds) : setobj :=
  match isSdsRepresentableAsLongLong value with
  | Some _ => createIntsetObject
  | None => createSetObject
  end.

(** *** Iteration

    [setTypeNext] returns the encoding along with the element; [None] is -1. *)
Inductive selem := EInt (z : Z) | ESds (s : sds).

Inductive setTypeIterator :=
  | SI_HT (rest : list sds)
  | SI_IS (subject : intset) (ii : nat).

Section Iter.
Context `{DictOrder}.

Definition setTypeInitIterator (so : setobj) : setTypeIterator :=
  match so with
  | SHT d => SI_HT (dict_iter d)
  | SIntset ins => SI_IS ins 0
  end.

Definition setTypeNext (si : setTypeIterator) : option (selem * setTypeIterator) :=
  match si with
  | SI_HT [] => None
  | SI_HT (key :: rest) => Some (ESds key, SI_HT rest)
  | SI_IS ins ii =>
      match intsetGet ins ii with
      | Some v => Some (EInt v, SI_IS ins (S ii))
      | None => None
      end
  end.

Definition selem_sds (e : selem) : sds :=
  match e with
  | EInt z => sdsfromlonglong z
  | ESds s => sdsdup s
  end.

Definition setTypeNextObject (si : setTypeIterator) : option (sds * setTypeIterator) :=
  match setTypeNext si with
  | Some (e, si) => Some (selem_sds e, si)
  | None => None
  end.

Definition setTypeSize (so : setobj) : nat :=
  match so with
  | SHT d => size d
  | SIntset ins => intsetLen ins
  end.

(** The elements a [while] loop over [setTypeNext] sees; a set yields as many
    elements as its size, which is the fuel. *)
Fixpoint drain (fuel : nat) (si : setTypeIterator) : list selem :=
  match fuel with
  | O => []
  | S fuel =>
      match setTypeNext si with
      | Some (e, si) => e :: drain fuel si
      | None => []
      end
  end.

Definition set_elems (so : setobj) : list selem :=
  drain (S (setTypeSize so)) (setTypeInitIterator so).

(** The same for [setTypeNextObject]. *)
Definition set_list (so : setobj) : list sds := selem_sds <$> set_elems so.

(** *** Updates

    [None] is a failed [serverAssert]. *)

Definition setTypeConvert (so : setobj) : option setobj :=
  match so with
  | SIntset ins =>
      d ← foldl (fun (d : option (gset sds)) (e : selem) =>
             d ← d; dictAdd d (selem_sds e))
           (Some ∅) (set_elems so);
      Some (SHT d)
  | SHT _ => None
  end.

(** The flag is the return value; [max] is [server.set_max_intset_entries]. *)
Definition setTypeAdd (max : Z) (so : setobj) (value : sds) : option (setobj * bool) :=
  match so with
  | SHT d =>
      match dictAdd d (sdsdup value) with
      | Some d => Some (SHT d, true)
      | None => Some (SHT d, false)
      end
  | SIntset ins =>
      match isSdsRepresentableAsLongLong value with
      | Some llval =>
          let '(ins, success) := intsetAdd ins llval in
          if success then
            if max <? Z.of_nat (intsetLen ins) then
              so ← setTypeConvert (SIntset ins); Some (so, true)
            else Some (SIntset ins, true)
          else Some (SIntset ins, false)
      | None =>
          so ← setTypeConvert (SIntset ins);
          match so with
          | SHT d => d ← dictAdd d (sdsdup value); Some (SHT d, true)
          | SIntset _ => None
          end
      end
  end.

Definition setTypeRemove (so : setobj) (value : sds) : setobj * bool :=
  match so with
  | SHT d =>
      match dictDelete d value with
      | Some d => (SHT d, true)
      | None => (SHT d, false)
      end
  | SIntset ins =>
      match isSdsRepresentableAsLongLong value with
      | Some llval => let '(ins, success) := intsetRemove ins llval in (SIntset ins, success)
      | None => (SIntset ins, false)
      end
  end.

Definition setTypeIsMember (so : setobj) (value : sds) : bool :=
  match so with
  | SHT d => bool_decide (value ∈ d)
  | SIntset ins =>
      match isSdsRepresentableAsLongLong value with
      | Some llval => intsetFind ins llval
      | None => false
      end
  end.
End Iter.

Open Scope string_scope.
Example setTypeAdd_ex :
  let add so v := from_option fst so (setTypeAdd 3 so v) in
  let so := foldl add (setTypeCreate "7") ["7"; "12"; "7"; "-3"] in
  set_list so = ["-3"; "7"; "12"]
  /\ setTypeIsMember so "12" = true /\ setTypeIsMember so "012" = false
  /\ setTypeSize so = 3%nat
  /\ setTypeSize (add so "x") = 4%nat
  /\ setTypeIsMember (add so "99") "99" = true
  /\ (exists d, add so "99" = SHT d).
Proof. vm_compute. repeat split. eauto. Qed.
Close Scope string_scope.

(** ** What a set object denotes *)

Definition set_members (so : setobj) : gset sds :=
  match so with
  | SHT d => d
  | SIntset ins => list_to_set (sdsfromlonglong <$> intset_values ins)
  end.

(** The representation invariant; [max] bounds the integer sets. *)
Definition set_ok (max : Z) (so : setobj) : Prop :=
  match so with
  | SHT _ => True
  | SIntset ins => intset_ok ins /\ Z.of_nat (is_length ins) <= max
  end.

(** A configuration whose integer sets can be indexed by a C [int]. *)
Definition max_ok (max : Z) : Prop := 0 <= max < 2147483646.

Lemma sdsfromlonglong_inj a b :
  in_llong a -> in_llong b -> sdsfromlonglong a = sdsfromlonglong b -> a = b.
Proof.
  intros Ha Hb Heq. apply string2ll_print in Ha, Hb. rewrite Heq in Ha. congruence.
Qed.

Lemma in_intset_members ins l v z :
  intset_rep ins l -> string2ll v = Some z ->
  v ∈ set_members (SIntset ins) <-> z ∈ l.
Proof.
  intros Hr Hz. unfold set_members. rewrite (rep_values _ _ Hr).
  rewrite elem_of_list_to_set, list_elem_of_fmap.
  pose proof (string2ll_canonical _ _ Hz) as [Hzr <-]. split.
  - intros (x & Hx & Hin). apply sdsfromlonglong_inj in Hx as ->; [done..|].
    by eapply rep_in_llong.
  - eauto.
Qed.

Lemma non_int_not_member ins l v :
  intset_rep ins l -> string2ll v = None -> v ∉ set_members (SIntset ins).
Proof.
  intros Hr Hv. unfold set_members. rewrite (rep_values _ _ Hr).
  rewrite elem_of_list_to_set, list_elem_of_fmap. intros (x & -> & Hin).
  rewrite string2ll_print in Hv; [done|]. by eapply rep_in_llong.
Qed.

Section Facts.
Context `{DictOrder}.

(** *** Iteration enumerates the members *)

Lemma drain_HT n rest : drain (length rest + n) (SI_HT rest) = ESds <$> rest.
Proof.
  induction rest as [|k rest IH]; cbn; [by destruct n|]. by rewrite IH.
Qed.

Lemma drain_IS n ins i :
  (i <= is_length ins)%nat ->
  drain (is_length ins - i + S n) (SI_IS ins i) =
  EInt <$> map (_intsetGet ins) (seq i (is_length ins - i)).
Proof.
  remember (is_length ins - i)%nat as k eqn:Hk. revert i Hk.
  induction k as [|k IH]; intros i Hk Hi; cbn [Nat.add drain setTypeNext]; unfold intsetGet.
  - destruct (Nat.ltb_spec i (is_length ins)); [lia|done].
  - destruct (Nat.ltb_spec i (is_length ins)); [|lia].
    cbn [seq map fmap list_fmap]. f_equal. apply IH; lia.
Qed.

Lemma set_elems_HT d : set_elems (SHT d) = ESds <$> dict_iter d.
Proof.
  unfold set_elems. cbn [setTypeSize setTypeInitIterator].
  replace (S (size d)) with (length (dict_iter d) + 1)%nat; [apply drain_HT|].
  rewrite (Permutation_length (dict_iter_perm d)).
  unfold size, set_size. cbn. lia.
Qed.

Lemma set_elems_IS ins : set_elems (SIntset ins) = EInt <$> intset_values ins.
Proof.
  unfold set_elems, intset_values. cbn [setTypeSize setTypeInitIterator]. unfold intsetLen.
  replace (S (is_length ins)) with (is_length ins - 0 + S 0)%nat by lia.
  rewrite drain_IS by lia. by rewrite Nat.sub_0_r.
Qed.

Lemma NoDup_members_list ins l :
  intset_rep ins l -> NoDup (sdsfromlonglong <$> intset_values ins).
Proof.
  intros Hr. rewrite (rep_values _ _ Hr). apply NoDup_fmap_2_strong.
  - intros x y Hx Hy. apply sdsfromlonglong_inj; by eapply rep_in_llong.
  - apply sorted_NoDup, Hr.
Qed.

(** The loop over a set object visits each member exactly once. *)
Lemma set_list_perm max so : set_ok max so -> set_list so ≡ₚ elements (set_members so).
Proof.
  unfold set_list. destruct so as [ins|d]; cbn [set_ok set_members].
  - intros [[l Hr] _]. rewrite set_elems_IS, <- list_fmap_compose.
    change (selem_sds ∘ EInt) with sdsfromlonglong.
    by rewrite elements_list_to_set by (by eapply NoDup_members_list).
  - intros _. rewrite set_elems_HT, <- list_fmap_compose.
    rewrite (list_fmap_id (dict_iter d)). apply dict_iter_perm.
Qed.

Lemma elem_of_set_list max so x : set_ok max so -> x ∈ set_list so <-> x ∈ set_members so.
Proof. intros Hok. by rewrite (set_list_perm _ _ Hok), elem_of_elements. Qed.

Lemma setTypeSize_spec max so : set_ok max so -> setTypeSize so = size (set_members so).
Proof.
  destruct so as [ins|d]; [|done]. intros [[l Hr] _]. cbn.
  rewrite size_list_to_set by (by eapply NoDup_members_list).
  rewrite length_fmap, (rep_values _ _ Hr). apply Hr.
Qed.

(** *** The operations *)

Lemma convert_fold l d :
  NoDup l -> (forall x, x ∈ l -> x ∉ d) ->
  foldl (fun (d : option (gset sds)) (x : sds) => d ← d; dictAdd d x) (Some d) l =
  Some (list_to_set l ∪ d).
Proof.
  intros Hnd. revert d. induction Hnd as [|x l Hx Hnd IH]; intros d Hd; cbn [foldl].
  - f_equal. set_solver.
  - assert (dictAdd d x = Some ({[x]} ∪ d)) as Hadd
      by (unfold dictAdd; apply decide_False, Hd; set_solver).
    change (Some d ≫= λ d, dictAdd d x) with (dictAdd d x). rewrite Hadd.
    rewrite IH; [f_equal; set_solver|]. intros y Hy. specialize (Hd y). set_solver.
Qed.

Lemma setTypeConvert_spec ins :
  intset_ok ins -> setTypeConvert (SIntset ins) = Some (SHT (set_members (SIntset ins))).
Proof.
  intros [l Hr]. unfold setTypeConvert, set_members. rewrite set_elems_IS.
  rewrite foldl_fmap. cbn [selem_sds].
  pose proof (convert_fold (sdsfromlonglong <$> intset_values ins) ∅
    ltac:(by eapply NoDup_members_list) ltac:(set_solver)) as Hc.
  rewrite foldl_fmap in Hc. rewrite Hc. cbn. by rewrite (right_id_L ∅ (∪)).
Qed.

Lemma dictAdd_add d v :
  match dictAdd d v with
  | Some d => (SHT d, true)
  | None => (SHT d, false)
  end = (SHT ({[v]} ∪ d), bool_decide (v ∉ d)).
Proof.
  unfold dictAdd. case_decide.
  - rewrite bool_decide_false by tauto. do 2 f_equal. set_solver.
  - by rewrite bool_decide_true.
Qed.

Lemma setTypeAdd_spec max so v :
  max_ok max -> set_ok max so ->
  exists so', setTypeAdd max so v = Some (so', bool_decide (v ∉ set_members so)) /\
    set_ok max so' /\ set_members so' = {[v]} ∪ set_members so.
Proof.
  intros Hmax Hok. destruct so as [ins|d]; cbn [setTypeAdd].
  - destruct Hok as [[l Hr] Hlen]. unfold isSdsRepresentableAsLongLong.
    destruct (string2ll v) as [z|] eqn:Hz.
    + pose proof (string2ll_canonical _ _ Hz) as [Hzr Hv].
      destruct (intsetAdd_rep ins l z Hr Hzr) as (l' & Hr' & Hl' & Hb).
      { rewrite <- (rep_len _ _ Hr). unfold max_ok in Hmax. lia. }
      destruct (intsetAdd ins z) as [ins' b]. cbn [fst snd] in Hr', Hb. subst b.
      assert (set_members (SIntset ins') = {[v]} ∪ set_members (SIntset ins)) as Hm.
      { unfold set_members. rewrite (rep_values _ _ Hr'), (rep_values _ _ Hr), <- Hv.
        apply set_eq. intros x. rewrite elem_of_union, elem_of_singleton, !elem_of_list_to_set, !list_elem_of_fmap.
        setoid_rewrite Hl'. naive_solver. }
      assert (bool_decide (v ∉ set_members (SIntset ins)) = bool_decide (z ∉ l)) as ->.
      { apply bool_decide_ext. by rewrite (in_intset_members _ _ _ _ Hr Hz). }
      case_bool_decide as Hin.
      * destruct (Z.ltb_spec max (Z.of_nat (intsetLen ins'))).
        -- rewrite setTypeConvert_spec by (by exists l'). eexists. split; [done|]. split; [done|]. exact Hm.
        -- eexists. split; [done|]. split; [|done]. split; [by exists l'|]. done.
      * eexists. split; [done|]. split; [|done]. split; [by exists l'|].
        enough (length l' <= length l)%nat.
        { rewrite (rep_len _ _ Hr'). rewrite (rep_len _ _ Hr) in Hlen. lia. }
        apply submseteq_length, NoDup_submseteq; [apply sorted_NoDup, Hr'|].
        intros x. rewrite Hl'. intros [-> |?]; [|done]. done.
    + rewrite setTypeConvert_spec by (by exists l). cbn [mbind option_bind].
      unfold dictAdd, sdsdup. rewrite decide_False by (by eapply non_int_not_member).
      rewrite bool_decide_true by (by eapply non_int_not_member). eexists. by split.
  - exists (SHT ({[v]} ∪ d)). split; [|by split].
    pose proof (dictAdd_add d v) as Hd. unfold sdsdup. cbn [set_members].
    destruct (dictAdd d v); by rewrite Hd.
Qed.

Lemma setTypeRemove_spec max so v :
  set_ok max so ->
  set_ok max (setTypeRemove so v).1 /\
  set_members (setTypeRemove so v).1 = set_members so ∖ {[v]} /\
  (setTypeRemove so v).2 = bool_decide (v ∈ set_members so).
Proof.
  intros Hok. destruct so as [ins|d]; cbn [setTypeRemove].
  - destruct Hok as [[l Hr] Hlen]. unfold isSdsRepresentableAsLongLong.
    destruct (string2ll v) as [z|] eqn:Hz.
    + pose proof (string2ll_canonical _ _ Hz) as [Hzr Hv].
      destruct (intsetRemove_rep ins l z Hr) as (l' & Hr' & Hl' & Hb).
      destruct (intsetRemove ins z) as [ins' b]. cbn [fst snd] in *. subst b. split_and!.
      * split; [by exists l'|]. rewrite (rep_len _ _ Hr'). rewrite (rep_len _ _ Hr) in Hlen.
        enough (length l' <= length l)%nat by lia.
        apply submseteq_length, NoDup_submseteq; [apply sorted_NoDup, Hr'|].
        intros x. rewrite Hl'. tauto.
      * unfold set_members. rewrite (rep_values _ _ Hr'), (rep_values _ _ Hr), <- Hv.
        apply set_eq. intros x. rewrite elem_of_difference, elem_of_singleton, !elem_of_list_to_set, !list_elem_of_fmap.
        setoid_rewrite Hl'. split; [|naive_solver].
        intros (y & -> & Hne & Hy). split; [by eauto|]. intros Heq. apply Hne.
        apply sdsfromlonglong_inj in Heq; [done| |done]. apply (rep_in_llong _ _ _ Hr Hy).
      * apply bool_decide_ext. by rewrite (in_intset_members _ _ _ _ Hr Hz).
    + cbn [fst snd]. pose proof (non_int_not_member _ _ _ Hr Hz) as Hn. split_and!.
      * split; [by exists l|done].
      * set_solver.
      * by rewrite bool_decide_false.
  - unfold dictDelete. cbn [set_members]. case_decide; cbn [fst snd set_ok set_members].
    + by rewrite bool_decide_true.
    + rewrite bool_decide_false by done. split_and!; [done|set_solver|done].
Qed.

Lemma setTypeIsMember_spec max so v :
  set_ok max so -> setTypeIsMember so v = bool_decide (v ∈ set_members so).
Proof.
  destruct so as [ins|d]; [|done]. intros [[l Hr] _]. cbn [setTypeIsMember].
  unfold isSdsRepresentableAsLongLong. destruct (string2ll v) as [z|] eqn:Hz.
  - rewrite (intsetFind_rep _ _ _ Hr). apply bool_decide_ext.
    by rewrite (in_intset_members _ _ _ _ Hr Hz).
  - symmetry. apply bool_decide_eq_false. by eapply non_int_not_member.
Qed.

Lemma createIntsetObject_ok max : max_ok max -> set_ok max createIntsetObject.
Proof. intros Hm. split; [exists []; apply intsetNew_rep|]. unfold max_ok in Hm. cbn. lia. Qed.

Lemma setTypeCreate_ok max v :
  max_ok max -> set_ok max (setTypeCreate v) /\ set_members (setTypeCreate v) = ∅.
Proof.
  intros Hm. unfold setTypeCreate. case_match; [|done].
  split; [by apply createIntsetObject_ok|done].
Qed.
End Facts.
