(* ===== verification/Ziplist.v ===== *)
(** * Ziplists ([ziplist.c])

    A list of strings in one byte buffer: a header with the number of bytes, the
    offset of the last entry and the number of entries; the entries, each with the
    length of the previous one in one or five bytes, an encoding, and the bytes of
    the string or of the integer it spells; and an end mark.  Pointers are offsets
    into the buffer; an access outside it, and a panic, is [None].  The machine is
    little-endian; memory that [zrealloc] adds is zero. *)
From Stdlib Require Import ZArith Lia Ascii String.
From stdpp Require Import base numbers strings list.
From S2P Require Import Prelude Sds Intset.
Open Scope Z_scope.

Abbreviation buffer := (list Z).
Implicit Types (zl : buffer) (p : nat).

(** ** Memory *)

Definition load zl (p n : nat) : option (list Z) :=
  if decide (p + n <= length zl)%nat then Some (take n (drop p zl)) else None.

Definition store zl (p : nat) (b : list Z) : option buffer :=
  if decide (p + length b <= length zl)%nat then Some (write_at p b zl) else None.

Definition move zl (dst src n : nat) : option buffer := b ← load zl src n; store zl dst b.

(** ** Constants *)

Definition ZIP_END : Z := 255.
Definition ZIP_BIG_PREVLEN : Z := 254.
Definition ZIP_STR_MASK : Z := 192.
Definition ZIP_STR_06B : Z := 0.
Definition ZIP_STR_14B : Z := 64.
Definition ZIP_STR_32B : Z := 128.
Definition ZIP_INT_16B : Z := 192.
Definition ZIP_INT_32B : Z := 208.
Definition ZIP_INT_64B : Z := 224.
Definition ZIP_INT_24B : Z := 240.
Definition ZIP_INT_8B : Z := 254.
Definition ZIP_INT_IMM_MASK : Z := 15.
Definition ZIP_INT_IMM_MIN : Z := 241.
Definition ZIP_INT_IMM_MAX : Z := 253.
Definition INT24_MAX : Z := 8388607.
Definition INT24_MIN : Z := -8388608.
Definition UINT16_MAX : Z := 65535.

Definition ZIP_IS_STR (enc : Z) : bool := Z.land enc ZIP_STR_MASK <? ZIP_STR_MASK.

(** ** The header *)

Definition ZIPLIST_HEADER_SIZE : nat := 10.
Definition ZIPLIST_BYTES zl : option Z := le_val <$> load zl 0 4.
Definition ZIPLIST_TAIL_OFFSET zl : option Z := le_val <$> load zl 4 4.
Definition ZIPLIST_LENGTH zl : option Z := le_val <$> load zl 8 2.
Definition set_bytes zl (v : Z) : option buffer := store zl 0 (le_bytes 4 v).
Definition set_tail_offset zl (v : Z) : option buffer := store zl 4 (le_bytes 4 v).
Definition set_length zl (v : Z) : option buffer := store zl 8 (le_bytes 2 v).

Definition ZIPLIST_INCR_LENGTH zl (incr : Z) : option buffer :=
  n ← ZIPLIST_LENGTH zl;
  if n <? UINT16_MAX then set_length zl (n + incr) else Some zl.

(** ** Encodings *)

Definition ZIP_ENTRY_ENCODING (b : Z) : Z := if b <? ZIP_STR_MASK then Z.land b ZIP_STR_MASK else b.

Definition zipIntSize (encoding : Z) : option nat :=
  if encoding =? ZIP_INT_8B then Some 1%nat
  else if encoding =? ZIP_INT_16B then Some 2%nat
  else if encoding =? ZIP_INT_24B then Some 3%nat
  else if encoding =? ZIP_INT_32B then Some 4%nat
  else if encoding =? ZIP_INT_64B then Some 8%nat
  else if (ZIP_INT_IMM_MIN <=? encoding) && (encoding <=? ZIP_INT_IMM_MAX) then Some 0%nat
  else None.

(** The bytes written; their number when the pointer is null. *)
Definition zipStoreEntryEncoding (encoding : Z) (rawlen : nat) : list Z :=
  let r := Z.of_nat rawlen in
  if ZIP_IS_STR encoding then
    if r <=? 63 then [Z.lor ZIP_STR_06B r]
    else if r <=? 16383 then [Z.lor ZIP_STR_14B (Z.land (Z.shiftr r 8) 63); Z.land r 255]
    else [ZIP_STR_32B; Z.land (Z.shiftr r 24) 255; Z.land (Z.shiftr r 16) 255; Z.land (Z.shiftr r 8) 255; Z.land r 255]
  else [encoding].

(** Encoding, size of the length field, length. *)
Definition ZIP_DECODE_LENGTH zl p : option (Z * nat * nat) :=
  b0 ← zl !! p;
  let encoding := ZIP_ENTRY_ENCODING b0 in
  if encoding <? ZIP_STR_MASK then
    if encoding =? ZIP_STR_06B then Some (encoding, 1%nat, Z.to_nat (Z.land b0 63))
    else if encoding =? ZIP_STR_14B then
      b1 ← zl !! (p + 1)%nat;
      Some (encoding, 2%nat, Z.to_nat (Z.lor (Z.shiftl (Z.land b0 63) 8) b1))
    else if encoding =? ZIP_STR_32B then
      b1 ← zl !! (p + 1)%nat; b2 ← zl !! (p + 2)%nat; b3 ← zl !! (p + 3)%nat; b4 ← zl !! (p + 4)%nat;
      Some (encoding, 5%nat, Z.to_nat (Z.lor (Z.lor (Z.lor (Z.shiftl b1 24) (Z.shiftl b2 16)) (Z.shiftl b3 8)) b4))
    else None
  else len ← zipIntSize encoding; Some (encoding, 1%nat, len).

Definition zipStorePrevEntryLengthLarge (len : nat) : list Z := ZIP_BIG_PREVLEN :: le_bytes 4 (Z.of_nat len).
Definition zipStorePrevEntryLength (len : nat) : list Z :=
  if Z.of_nat len <? ZIP_BIG_PREVLEN then [Z.of_nat len] else zipStorePrevEntryLengthLarge len.

Definition ZIP_DECODE_PREVLENSIZE zl p : option nat :=
  b ← zl !! p; Some (if b <? ZIP_BIG_PREVLEN then 1%nat else 5%nat).

(** Size of the field, and the length in it. *)
Definition ZIP_DECODE_PREVLEN zl p : option (nat * nat) :=
  prevlensize ← ZIP_DECODE_PREVLENSIZE zl p;
  if decide (prevlensize = 1%nat) then b ← zl !! p; Some (prevlensize, Z.to_nat b)
  else b ← load zl (p + 1) 4; Some (prevlensize, Z.to_nat (le_val b)).

Definition zipPrevLenByteDiff zl p (len : nat) : option Z :=
  prevlensize ← ZIP_DECODE_PREVLENSIZE zl p;
  Some (Z.of_nat (length (zipStorePrevEntryLength len)) - Z.of_nat prevlensize).

Definition zipRawEntryLength zl p : option nat :=
  prevlensize ← ZIP_DECODE_PREVLENSIZE zl p;
  '(_, lensize, len) ← ZIP_DECODE_LENGTH zl (p + prevlensize)%nat;
  Some (prevlensize + lensize + len)%nat.

(** The smallest encoding that holds the value. *)
Definition int_encoding (value : Z) : Z :=
  if (0 <=? value) && (value <=? 12) then ZIP_INT_IMM_MIN + value
  else if (-128 <=? value) && (value <=? 127) then ZIP_INT_8B
  else if (-32768 <=? value) && (value <=? 32767) then ZIP_INT_16B
  else if (INT24_MIN <=? value) && (value <=? INT24_MAX) then ZIP_INT_24B
  else if (INT_MIN <=? value) && (value <=? INT_MAX) then ZIP_INT_32B
  else ZIP_INT_64B.

(** The value and its encoding. *)
Definition zipTryEncoding (entry : sds) : option (Z * Z) :=
  if (32 <=? String.length entry)%nat || (String.length entry =? 0)%nat then None
  else value ← string2ll entry; Some (value, int_encoding value).

(** The bytes written. *)
Definition zipSaveInteger (value encoding : Z) : option (list Z) :=
  if encoding =? ZIP_INT_8B then Some (le_bytes 1 value)
  else if encoding =? ZIP_INT_16B then Some (le_bytes 2 value)
  else if encoding =? ZIP_INT_24B then Some (drop 1 (le_bytes 4 (Z.shiftl value 8)))
  else if encoding =? ZIP_INT_32B then Some (le_bytes 4 value)
  else if encoding =? ZIP_INT_64B then Some (le_bytes 8 value)
  else if (ZIP_INT_IMM_MIN <=? encoding) && (encoding <=? ZIP_INT_IMM_MAX) then Some []
  else None.

Definition zipLoadInteger zl p (encoding : Z) : option Z :=
  if encoding =? ZIP_INT_8B then (fun b => sext 1 (le_val b)) <$> load zl p 1
  else if encoding =? ZIP_INT_16B then (fun b => sext 2 (le_val b)) <$> load zl p 2
  else if encoding =? ZIP_INT_32B then (fun b => sext 4 (le_val b)) <$> load zl p 4
  else if encoding =? ZIP_INT_24B then (fun b => Z.shiftr (sext 4 (le_val (0 :: b))) 8) <$> load zl p 3
  else if encoding =? ZIP_INT_64B then (fun b => sext 8 (le_val b)) <$> load zl p 8
  else if (ZIP_INT_IMM_MIN <=? encoding) && (encoding <=? ZIP_INT_IMM_MAX) then Some (Z.land encoding ZIP_INT_IMM_MASK - 1)
  else None.

(** ** Entries *)

Record zlentry := mkZlentry {
  prevrawlensize : nat;
  prevrawlen : nat;
  lensize : nat;
  zlen : nat;
  headersize : nat;
  encoding : Z;
  ze_p : nat
}.

Definition zipEntry zl p : option zlentry :=
  '(psize, plen) ← ZIP_DECODE_PREVLEN zl p;
  '(enc, lsize, len) ← ZIP_DECODE_LENGTH zl (p + psize)%nat;
  Some (mkZlentry psize plen lsize len (psize + lsize) enc p).

(** ** Construction *)

Definition ziplistResize zl (len : nat) : option buffer :=
  zl ← set_bytes (resize len 0 zl) (Z.of_nat len);
  store zl (len - 1)%nat [ZIP_END].

Definition ziplistNew : option buffer :=
  let bytes := (ZIPLIST_HEADER_SIZE + 1)%nat in
  zl ← set_bytes (replicate bytes 0) (Z.of_nat bytes);
  zl ← set_tail_offset zl (Z.of_nat ZIPLIST_HEADER_SIZE);
  zl ← set_length zl 0;
  store zl (bytes - 1)%nat [ZIP_END].

(** The entries from [p] on, until one whose predecessor's length did not
    change. *)
Fixpoint cascade_loop (fuel : nat) zl p (curlen : nat) : option buffer :=
  match fuel with
  | O => None
  | S fuel =>
      b ← zl !! p;
      if b =? ZIP_END then Some zl
      else
        cur ← zipEntry zl p;
        let rawlen := (headersize cur + zlen cur)%nat in
        let rawlensize := length (zipStorePrevEntryLength rawlen) in
        nb ← zl !! (p + rawlen)%nat;
        if nb =? ZIP_END then Some zl
        else
          next ← zipEntry zl (p + rawlen)%nat;
          if decide (prevrawlen next = rawlen) then Some zl
          else if decide (prevrawlensize next < rawlensize)%nat then
            let extra := (rawlensize - prevrawlensize next)%nat in
            zl ← ziplistResize zl (curlen + extra);
            let np := (p + rawlen)%nat in
            t ← ZIPLIST_TAIL_OFFSET zl;
            zl ← (if decide (t = Z.of_nat np) then Some zl else set_tail_offset zl (t + Z.of_nat extra));
            zl ← move zl (np + rawlensize) (np + prevrawlensize next) (curlen - np - prevrawlensize next - 1);
            zl ← store zl np (zipStorePrevEntryLength rawlen);
            cascade_loop fuel zl np (curlen + extra)
          else if decide (rawlensize < prevrawlensize next)%nat then store zl (p + rawlen) (zipStorePrevEntryLengthLarge rawlen)
          else store zl (p + rawlen) (zipStorePrevEntryLength rawlen)
  end.

(** Every round moves on to the next entry. *)
Definition __ziplistCascadeUpdate zl p : option buffer :=
  curlen ← ZIPLIST_BYTES zl;
  cascade_loop (S (Z.to_nat curlen)) zl p (Z.to_nat curlen).

(** The offset of the last entry, when the entry now at [p] and those after it
    move by [delta], and those after it by [nextdiff] more: an entry whose field
    changes its size starts where it did. *)
Definition shift_tail zl p (delta nextdiff : Z) : option buffer :=
  t ← ZIPLIST_TAIL_OFFSET zl;
  zl ← set_tail_offset zl (t + delta);
  tail ← zipEntry zl p;
  b ← zl !! (p + (headersize tail + zlen tail))%nat;
  if b =? ZIP_END then Some zl
  else t ← ZIPLIST_TAIL_OFFSET zl; set_tail_offset zl (t + nextdiff).

(** ** Deletion *)

(** The pointer after at most [num] entries, and how many there were. *)
Fixpoint skip_entries zl p (num : nat) (deleted : nat) : option (nat * nat) :=
  match num with
  | O => _ ← zl !! p; Some (p, deleted)
  | S num =>
      b ← zl !! p;
      if b =? ZIP_END then Some (p, deleted)
      else n ← zipRawEntryLength zl p; skip_entries zl (p + n)%nat num (S deleted)
  end.

(** The entries from [p] on move to where the first deleted one was; the buffer
    and the change in the size of the field at [p]. *)
Definition close_gap zl (first : zlentry) p (totlen : nat) : option (buffer * Z) :=
  b ← zl !! p;
  if b =? ZIP_END then
    zl ← set_tail_offset zl (Z.of_nat (ze_p first) - Z.of_nat (prevrawlen first));
    Some (zl, 0)
  else
    nextdiff ← zipPrevLenByteDiff zl p (prevrawlen first);
    let p := Z.to_nat (Z.of_nat p - nextdiff) in
    zl ← store zl p (zipStorePrevEntryLength (prevrawlen first));
    zl ← shift_tail zl p (- Z.of_nat totlen) nextdiff;
    bytes ← ZIPLIST_BYTES zl;
    zl ← move zl (ze_p first) p (Z.to_nat bytes - p - 1);
    Some (zl, nextdiff).

Definition __ziplistDelete zl p (num : nat) : option buffer :=
  first ← zipEntry zl p;
  '(p, deleted) ← skip_entries zl p num 0;
  let totlen := (p - ze_p first)%nat in
  if decide (0 < totlen)%nat then
    '(zl, nextdiff) ← close_gap zl first p totlen;
    bytes ← ZIPLIST_BYTES zl;
    zl ← ziplistResize zl (Z.to_nat (bytes - Z.of_nat totlen + nextdiff));
    zl ← ZIPLIST_INCR_LENGTH zl (- Z.of_nat deleted);
    if nextdiff =? 0 then Some zl else __ziplistCascadeUpdate zl (ze_p first)
  else Some zl.

(** ** Insertion *)

Definition ZIPLIST_ENTRY_TAIL zl : option nat := Z.to_nat <$> ZIPLIST_TAIL_OFFSET zl.
Definition ZIPLIST_ENTRY_END zl : option nat := bytes ← ZIPLIST_BYTES zl; Some (Z.to_nat (bytes - 1)).

(** The length of the entry before [p]. *)
Definition insert_prevlen zl p : option nat :=
  b ← zl !! p;
  if b =? ZIP_END then
    ptail ← ZIPLIST_ENTRY_TAIL zl;
    t ← zl !! ptail;
    if t =? ZIP_END then Some 0%nat else zipRawEntryLength zl ptail
  else snd <$> ZIP_DECODE_PREVLEN zl p.

(** The bytes of the entry that is inserted: previous length, encoding, payload. *)
Definition entry_payload (s : sds) : option (Z * list Z) :=
  match zipTryEncoding s with
  | Some (value, encoding) => b ← zipSaveInteger value encoding; Some (encoding, b)
  | None => Some (0, byteZ <$> chars s)
  end.

(** A gap of [reqlen] bytes at [p], whose length is written as the previous one
    into the entry that follows. *)
Definition open_gap zl p (curlen reqlen : nat) : option buffer :=
  b ← zl !! p;
  nextdiff ← (if b =? ZIP_END then Some 0 else zipPrevLenByteDiff zl p reqlen);
  let forcelarge := (nextdiff =? -4) && (reqlen <? 4)%nat in
  let nextdiff := if forcelarge then 0 else nextdiff in
  zl ← ziplistResize zl (Z.to_nat (Z.of_nat (curlen + reqlen) + nextdiff));
  b ← zl !! p;
  zl ←
    (if b =? ZIP_END then set_tail_offset zl (Z.of_nat p)
     else
       zl ← move zl (p + reqlen) (Z.to_nat (Z.of_nat p - nextdiff)) (Z.to_nat (Z.of_nat curlen - Z.of_nat p - 1 + nextdiff));
       zl ← store zl (p + reqlen) (if forcelarge then zipStorePrevEntryLengthLarge reqlen else zipStorePrevEntryLength reqlen);
       shift_tail zl (p + reqlen) (Z.of_nat reqlen) nextdiff);
  if nextdiff =? 0 then Some zl else __ziplistCascadeUpdate zl (p + reqlen)%nat.

Definition __ziplistInsert zl p (s : sds) : option buffer :=
  curlen ← ZIPLIST_BYTES zl;
  let curlen := Z.to_nat curlen in
  prevlen ← insert_prevlen zl p;
  '(encoding, payload) ← entry_payload s;
  len ← (if ZIP_IS_STR encoding then Some (String.length s) else zipIntSize encoding);
  let prevb := zipStorePrevEntryLength prevlen in
  let encb := zipStoreEntryEncoding encoding (String.length s) in
  let reqlen := (len + length prevb + length encb)%nat in
  zl ← open_gap zl p curlen reqlen;
  zl ← store zl p prevb;
  zl ← store zl (p + length prevb)%nat encb;
  zl ← store zl (p + length prevb + length encb)%nat payload;
  ZIPLIST_INCR_LENGTH zl 1.

(** ** Access *)

(** [true]: at the head. *)
Definition ziplistPush zl (s : sds) (head : bool) : option buffer :=
  p ← (if head then Some ZIPLIST_HEADER_SIZE else ZIPLIST_ENTRY_END zl);
  __ziplistInsert zl p s.

(** Back from [p], while there is a previous entry; the pointer and what is left
    of the index. *)
Fixpoint index_back zl p (index : nat) : option (option nat) :=
  '(_, prevlen) ← ZIP_DECODE_PREVLEN zl p;
  match index with
  | O => b ← zl !! p; Some (if b =? ZIP_END then None else Some p)
  | S index => if decide (0 < prevlen)%nat then index_back zl (p - prevlen)%nat index else Some None
  end.

Fixpoint index_fwd zl p (index : nat) : option (option nat) :=
  b ← zl !! p;
  if b =? ZIP_END then Some None
  else
    match index with
    | O => Some (Some p)
    | S index => n ← zipRawEntryLength zl p; index_fwd zl (p + n)%nat index
    end.

(** [None] inside is a null pointer. *)
Definition ziplistIndex zl (index : Z) : option (option nat) :=
  if index <? 0 then
    p ← ZIPLIST_ENTRY_TAIL zl;
    b ← zl !! p;
    if b =? ZIP_END then Some None else index_back zl p (Z.to_nat (- index - 1))
  else index_fwd zl ZIPLIST_HEADER_SIZE (Z.to_nat index).

Definition ziplistNext zl p : option (option nat) :=
  b ← zl !! p;
  if b =? ZIP_END then Some None
  else
    n ← zipRawEntryLength zl p;
    let p := (p + n)%nat in
    b ← zl !! p;
    if b =? ZIP_END then Some None else Some (Some p).

Definition ziplistPrev zl p : option (option nat) :=
  b ← zl !! p;
  if b =? ZIP_END then
    p ← ZIPLIST_ENTRY_TAIL zl;
    b ← zl !! p;
    Some (if b =? ZIP_END then None else Some p)
  else if decide (p = ZIPLIST_HEADER_SIZE) then Some None
  else
    '(_, prevlen) ← ZIP_DECODE_PREVLEN zl p;
    if decide (0 < prevlen)%nat then Some (Some (p - prevlen)%nat) else None.

(** A string or an integer; [None] inside at the end of the list. *)
Definition ziplistGet zl p : option (option (list Z + Z)) :=
  b ← zl !! p;
  if b =? ZIP_END then Some None
  else
    entry ← zipEntry zl p;
    if ZIP_IS_STR (encoding entry) then str ← load zl (p + headersize entry) (zlen entry); Some (Some (inl str))
    else v ← zipLoadInteger zl (p + headersize entry) (encoding entry); Some (Some (inr v)).

Definition ziplistInsert zl p (s : sds) : option buffer := __ziplistInsert zl p s.

(** The offset of [*p] does not change. *)
Definition ziplistDelete zl p : option (buffer * nat) := zl ← __ziplistDelete zl p 1; Some (zl, p).

Definition ziplistDeleteRange zl (index : Z) (num : nat) : option buffer :=
  p ← ziplistIndex zl index;
  match p with None => Some zl | Some p => __ziplistDelete zl p num end.

Definition ziplistCompare zl p (sstr : sds) : option bool :=
  b ← zl !! p;
  if b =? ZIP_END then Some false
  else
    entry ← zipEntry zl p;
    if ZIP_IS_STR (encoding entry) then
      if decide (zlen entry = String.length sstr) then
        str ← load zl (p + headersize entry) (zlen entry);
        Some (bool_decide (str = byteZ <$> chars sstr))
      else Some false
    else
      match zipTryEncoding sstr with
      | Some (sval, _) => zval ← zipLoadInteger zl (p + headersize entry) (encoding entry); Some (zval =? sval)
      | None => Some false
      end.

(** [vencoding] is not tried again: the search remembers the integer, if any. *)
Fixpoint find_loop (fuel : nat) zl p (vstr : sds) (skip skipcnt : nat) : option (option nat) :=
  match fuel with
  | O => None
  | S fuel =>
      b ← zl !! p;
      if b =? ZIP_END then Some None
      else
        prevlensize ← ZIP_DECODE_PREVLENSIZE zl p;
        '(encoding, lensize, len) ← ZIP_DECODE_LENGTH zl (p + prevlensize)%nat;
        let q := (p + prevlensize + lensize)%nat in
        match skipcnt with
        | O =>
            found ← (if ZIP_IS_STR encoding then
                       if decide (len = String.length vstr) then
                         str ← load zl q len; Some (bool_decide (str = byteZ <$> chars vstr))
                       else Some false
                     else
                       match zipTryEncoding vstr with
                       | Some (vll, _) => ll ← zipLoadInteger zl q encoding; Some (ll =? vll)
                       | None => Some false
                       end);
            if (found : bool) then Some (Some p) else find_loop fuel zl (q + len)%nat vstr skip skip
        | S skipcnt => find_loop fuel zl (q + len)%nat vstr skip skipcnt
        end
  end.

Definition ziplistFind zl p (vstr : sds) (skip : nat) : option (option nat) :=
  find_loop (length zl) zl p vstr skip 0.

Fixpoint len_loop (fuel : nat) zl p (len : nat) : option nat :=
  match fuel with
  | O => None
  | S fuel =>
      b ← zl !! p;
      if b =? ZIP_END then Some len
      else n ← zipRawEntryLength zl p; len_loop fuel zl (p + n)%nat (S len)
  end.

(** The length may be stored anew. *)
Definition ziplistLen zl : option (buffer * nat) :=
  n ← ZIPLIST_LENGTH zl;
  if n <? UINT16_MAX then Some (zl, Z.to_nat n)
  else
    len ← len_loop (length zl) zl ZIPLIST_HEADER_SIZE 0;
    if Z.of_nat len <? UINT16_MAX then zl ← set_length zl (Z.of_nat len); Some (zl, len) else Some (zl, len).

Definition ziplistBlobLen zl : option Z := ZIPLIST_BYTES zl.

(** ** Merging

    [same]: both arguments are one list; [None] inside is the null pointer that is
    returned then.  The longer list is extended. *)
Definition ziplistMerge (same : bool) (first second : buffer) : option (option buffer) :=
  if same then Some None
  else
    first_bytes ← ZIPLIST_BYTES first;
    first_len ← ZIPLIST_LENGTH first;
    second_bytes ← ZIPLIST_BYTES second;
    second_len ← ZIPLIST_LENGTH second;
    let zlbytes := first_bytes + second_bytes - Z.of_nat ZIPLIST_HEADER_SIZE - 1 in
    let zllength := if first_len + second_len <? UINT16_MAX then first_len + second_len else UINT16_MAX in
    first_offset ← ZIPLIST_TAIL_OFFSET first;
    second_offset ← ZIPLIST_TAIL_OFFSET second;
    target ←
      (if second_len <=? first_len then
         let target := resize (Z.to_nat zlbytes) 0 first in
         b ← load second ZIPLIST_HEADER_SIZE (Z.to_nat second_bytes - ZIPLIST_HEADER_SIZE);
         store target (Z.to_nat first_bytes - 1) b
       else
         let target := resize (Z.to_nat zlbytes) 0 second in
         target ← move target (Z.to_nat first_bytes - 1) ZIPLIST_HEADER_SIZE (Z.to_nat second_bytes - ZIPLIST_HEADER_SIZE);
         b ← load first 0 (Z.to_nat first_bytes - 1);
         store target 0 b);
    target ← set_bytes target zlbytes;
    target ← set_length target zllength;
    target ← set_tail_offset target (first_bytes - 1 + (second_offset - Z.of_nat ZIPLIST_HEADER_SIZE));
    target ← __ziplistCascadeUpdate target (Z.to_nat first_offset);
    Some (Some target).

(** A run: push at both ends, cascade by a long entry at the front, delete it. *)
Definition ziplist_values zl : option (list (option (list Z + Z))) :=
  '(_, n) ← ziplistLen zl;
  mapM (fun i => p ← ziplistIndex zl (Z.of_nat i); match p with Some p => ziplistGet zl p | None => Some None end) (seq 0 n).

Example ziplist_ex :
  let big := String.string_of_list_ascii (replicate 250 "x"%char) in
  let built := foldl (fun acc s => zl ← acc; ziplistPush zl s false) ziplistNew [big; big; "hi"; "1024"; "-3"; "12"; "8000000"]%string in
  let front := zl ← built; ziplistPush zl (big ++ big)%string true in
  (built ≫= ziplist_values) = Some ([Some (inl (replicate 250 120)); Some (inl (replicate 250 120)); Some (inl [104; 105]); Some (inr 1024);
                          Some (inr (-3)); Some (inr 12); Some (inr 8000000)]) /\
  (length <$> front) = ((fun n => n + 503 + 12)%nat <$> (length <$> built)) /\
  ((front ≫= fun zl => ziplistDeleteRange zl 0 1) ≫= ziplist_values) = (built ≫= ziplist_values).
Proof. vm_compute. repeat split. Qed.
