(* ===== verification/ZiplistRep.v ===== *)
(** * Ziplists as lists of strings ([ziplist.c])

    What the bytes of a ziplist stand for: the strings of its entries, and for
    each whether its field for the previous length has one byte or five, which may
    be more than it needs.  Reading an entry inverts writing it. *)
From Stdlib Require Import ZArith Lia Ascii String.
From stdpp Require Import base numbers strings list.
From S2P Require Import Prelude Sds Intset Ziplist.
Open Scope Z_scope.

(** ** Memory *)

Section Memory.
Implicit Types (P X R b zl : list Z).

Lemma look P X (i p : nat) : p = (length P + i)%nat -> (P ++ X) !! p = X !! i.
Proof. intros ->. rewrite lookup_app_r by lia. f_equal. lia. Qed.

Lemma load_mid P X R (p n : nat) : p = length P -> n = length X -> load (P ++ X ++ R) p n = Some X.
Proof.
  intros -> ->. unfold load. rewrite decide_True by (rewrite !length_app; lia). by rewrite drop_app_length, take_app_length.
Qed.

Lemma store_mid P X R b (p : nat) : p = length P -> length X = length b -> store (P ++ X ++ R) p b = Some (P ++ b ++ R).
Proof.
  intros -> Hb. unfold store, write_at. rewrite decide_True by (rewrite !length_app; lia). rewrite take_app_length.
  rewrite <- drop_drop, drop_app_length, <- Hb. by rewrite drop_app_length.
Qed.

Lemma store_end P X b (p : nat) : p = length P -> length X = length b -> store (P ++ X) p b = Some (P ++ b).
Proof. intros Hp Hb. pose proof (store_mid P X [] b p Hp Hb) as Hs. by rewrite !app_nil_r in Hs. Qed.

Lemma load_front X R (n : nat) : n = length X -> load (X ++ R) 0 n = Some X.
Proof. by apply (load_mid []). Qed.

Lemma store_front X R b : length X = length b -> store (X ++ R) 0 b = Some (b ++ R).
Proof. by apply (store_mid []). Qed.

(** Moving [X] by [k] bytes to the back, over [T]. *)
Lemma move_back P X T R (dst src n : nat) :
  src = length P -> n = length X -> dst = (length P + length T)%nat ->
  exists G, length G = length T /\ move (P ++ X ++ T ++ R) dst src n = Some (P ++ G ++ X ++ R).
Proof.
  intros -> -> ->. exists (take (length T) (X ++ T)). split; [rewrite length_take, length_app; lia|].
  unfold move. rewrite load_mid by done. cbn [mbind option_bind]. rewrite (app_assoc X), <- (take_drop (length T) (X ++ T)), <- app_assoc at 1.
  rewrite app_assoc. rewrite (store_mid (P ++ take (length T) (X ++ T)) (drop (length T) (X ++ T)) R X).
  - by rewrite <- app_assoc.
  - rewrite length_app, length_take, length_app. lia.
  - rewrite length_drop, length_app. lia.
Qed.

(** Moving [X] to the front, over [T]: what follows is left as it was. *)
Lemma move_front P X T R (dst src n : nat) :
  dst = length P -> src = (length P + length T)%nat -> n = length X ->
  exists G, length G = length T /\ move (P ++ T ++ X ++ R) dst src n = Some (P ++ X ++ G ++ R).
Proof.
  intros -> -> ->. exists (drop (length X) (T ++ X)). split; [rewrite length_drop, length_app; lia|].
  unfold move. rewrite (app_assoc P), load_mid by (rewrite ?length_app; done). cbn [mbind option_bind].
  rewrite <- app_assoc, (app_assoc T), <- (take_drop (length X) (T ++ X)), <- (app_assoc (take _ _)) at 1.
  rewrite (store_mid P (take (length X) (T ++ X))); [done|done|]. rewrite length_take, length_app. lia.
Qed.

Lemma resize_grow zl (n : nat) : (length zl <= n)%nat -> resize n 0 zl = zl ++ replicate (n - length zl) 0.
Proof. intros Hn. by apply resize_ge. Qed.
End Memory.

(** ** Entries *)

Record zent := mkZent { ze_str : sds; ze_big : bool }.
Implicit Types (e : zent) (es A B : list zent).

Definition body (s : sds) : list Z :=
  match entry_payload s with
  | Some (enc, payload) => zipStoreEntryEncoding enc (String.length s) ++ payload
  | None => []
  end.
Definition psize (big : bool) : nat := if big then 5 else 1.
Definition prevb (big : bool) (prev : nat) : list Z := if big then zipStorePrevEntryLengthLarge prev else [Z.of_nat prev].
Definition ebytes (prev : nat) e : list Z := prevb (ze_big e) prev ++ body (ze_str e).
Definition elen e : nat := (psize (ze_big e) + length (body (ze_str e)))%nat.

Fixpoint layout (prev : nat) es : list Z :=
  match es with [] => [] | e :: es => ebytes prev e ++ layout (elen e) es end.

(** The previous length fits its field. *)
Definition fits_prev e (prev : nat) : Prop := Z.of_nat prev < 4294967296 /\ (ze_big e = false -> (prev < 254)%nat).
Definition short_str (s : sds) : Prop := Z.of_nat (String.length s) < 4294967296.

Fixpoint chain (prev : nat) es : Prop :=
  match es with [] => True | e :: es => fits_prev e prev /\ short_str (ze_str e) /\ chain (elen e) es end.

Lemma length_prevb big prev : length (prevb big prev) = psize big.
Proof. by destruct big. Qed.

Lemma length_ebytes prev e : length (ebytes prev e) = elen e.
Proof. unfold ebytes, elen. by rewrite length_app, length_prevb. Qed.

Lemma store_prev (prev : nat) : zipStorePrevEntryLength prev = prevb (bool_decide (254 <= prev)%nat) prev.
Proof.
  unfold zipStorePrevEntryLength, ZIP_BIG_PREVLEN. case_bool_decide; [rewrite (proj2 (Z.ltb_ge _ _)) by lia|rewrite (proj2 (Z.ltb_lt _ _)) by lia]; done.
Qed.

Lemma length_store_prev (prev : nat) : length (zipStorePrevEntryLength prev) = psize (bool_decide (254 <= prev)%nat).
Proof. by rewrite store_prev, length_prevb. Qed.

(** ** Bits of the string lengths *)

Ltac bits_arith := rewrite ?Z.shiftr_div_pow2, ?Z.shiftl_mul_pow2 by lia; change 255 with (Z.ones 8); change 63 with (Z.ones 6);
  rewrite ?Z.land_ones by lia; change (2 ^ 8) with 256; change (2 ^ 6) with 64; change (2 ^ 16) with 65536; change (2 ^ 24) with 16777216.

(** Bits above and below a position do not meet. *)
Lemma lor_high_low (a b n : Z) : 0 <= n -> 0 <= b < 2 ^ n -> Z.lor (a * 2 ^ n) b = a * 2 ^ n + b.
Proof.
  intros Hn Hb. symmetry. rewrite <- Z.shiftl_mul_pow2 by done. apply Z.add_nocarry_lor. apply Z.bits_inj'. intros i Hi.
  rewrite Z.land_spec, Z.bits_0. destruct (Z.ltb_spec i n); [by rewrite Z.shiftl_spec_low|].
  rewrite andb_comm. destruct (decide (b = 0)) as [->|]; [by rewrite Z.bits_0|].
  rewrite Z.bits_above_log2; [done|lia|]. apply Z.log2_lt_pow2; [lia|]. apply Z.lt_le_trans with (2 ^ n); [lia|]. apply Z.pow_le_mono_r; lia.
Qed.

Lemma low6 (r : Z) : 0 <= r < 64 -> Z.land r 192 = 0.
Proof.
  intros Hr. apply Z.bits_inj'. intros i Hi. rewrite Z.land_spec, Z.bits_0. destruct (Z.ltb_spec i 6).
  - assert (Z.testbit 192 i = false) as -> by (assert (i = 0 \/ i = 1 \/ i = 2 \/ i = 3 \/ i = 4 \/ i = 5) as Hc by lia; destruct_or! Hc; by subst i).
    apply andb_false_r.
  - destruct (decide (r = 0)) as [->|]; [by rewrite Z.bits_0|]. rewrite Z.bits_above_log2; [done|lia|].
    apply Z.log2_lt_pow2; [lia|]. apply Z.lt_le_trans with (2 ^ 6); [lia|]. apply Z.pow_le_mono_r; lia.
Qed.

Lemma str14 (r : Z) : 0 <= r <= 16383 ->
  let b0 := Z.lor ZIP_STR_14B (Z.land (Z.shiftr r 8) 63) in
  let b1 := Z.land r 255 in
  ZIP_ENTRY_ENCODING b0 = ZIP_STR_14B /\ Z.lor (Z.shiftl (Z.land b0 63) 8) b1 = r.
Proof.
  intros Hr b0 b1. assert (b0 = 64 + r / 256) as ->.
  { unfold b0. bits_arith. rewrite (Z.mod_small (r / 256)) by (split; [apply Z.div_pos|apply Z.div_lt_upper_bound]; lia).
    apply (lor_high_low 1 (r / 256) 6); [lia|]. split; [apply Z.div_pos|apply Z.div_lt_upper_bound]; lia. }
  assert (0 <= r / 256 < 64) as Hq by (split; [apply Z.div_pos|apply Z.div_lt_upper_bound]; lia).
  split.
  - unfold ZIP_ENTRY_ENCODING, ZIP_STR_MASK. rewrite (proj2 (Z.ltb_lt _ _)) by lia.
    change (64 + r / 256) with (1 * 2 ^ 6 + r / 256). rewrite <- lor_high_low by lia. rewrite Z.land_lor_distr_l. change (Z.land (1 * 2 ^ 6) 192) with 64.
    by rewrite low6.
  - unfold b1. bits_arith. replace (64 + r / 256) with (r / 256 + 1 * 64) by lia. rewrite Z.mod_add, Z.mod_small by lia.
    pose proof (Z.mod_pos_bound r 256). pose proof (Z.div_mod r 256). change 256 with (2 ^ 8) at 2. rewrite lor_high_low by lia. lia.
Qed.

Lemma str32 (r : Z) : 0 <= r < 4294967296 ->
  Z.lor (Z.lor (Z.lor (Z.shiftl (Z.land (Z.shiftr r 24) 255) 24) (Z.shiftl (Z.land (Z.shiftr r 16) 255) 16))
    (Z.shiftl (Z.land (Z.shiftr r 8) 255) 8)) (Z.land r 255) = r.
Proof.
  intros Hr. bits_arith.
  set (a := r / 16777216 mod 256). set (b := r / 65536 mod 256). set (c := r / 256 mod 256). set (d := r mod 256).
  assert (0 <= a < 256 /\ 0 <= b < 256 /\ 0 <= c < 256 /\ 0 <= d < 256) as (Ha & Hb & Hc & Hd) by (split_and!; apply Z.mod_pos_bound; lia).
  change 16777216 with (2 ^ 24). rewrite lor_high_low by lia.
  replace (a * 2 ^ 24 + b * 65536) with ((a * 256 + b) * 2 ^ 16) by lia. rewrite lor_high_low by lia.
  replace ((a * 256 + b) * 2 ^ 16 + c * 256) with (((a * 256 + b) * 256 + c) * 2 ^ 8) by lia. rewrite lor_high_low by lia.
  assert (a = r / 16777216) as -> by (apply Z.mod_small; split; [apply Z.div_pos|apply Z.div_lt_upper_bound]; lia).
  subst b c d. Z.div_mod_to_equations. lia.
Qed.

(** ** Reading what was written *)

Definition str_encoding (len : nat) : Z :=
  if Z.of_nat len <=? 63 then ZIP_STR_06B else if Z.of_nat len <=? 16383 then ZIP_STR_14B else ZIP_STR_32B.

(** The encoding of a string, its length field and its length. *)
Lemma decode_str (P R : list Z) (len p : nat) :
  p = length P -> Z.of_nat len < 4294967296 ->
  ZIP_DECODE_LENGTH (P ++ zipStoreEntryEncoding 0 len ++ R) p = Some (str_encoding len, length (zipStoreEntryEncoding 0 len), len).
Proof.
  intros -> Hlen. set (r := Z.of_nat len). assert (0 <= r < 4294967296) as Hr by (unfold r; lia). unfold zipStoreEntryEncoding, str_encoding. change (ZIP_IS_STR 0) with true. cbv iota. fold r.
  unfold ZIP_DECODE_LENGTH. destruct (Z.leb_spec r 63); [|destruct (Z.leb_spec r 16383)].
  - rewrite (look P _ 0 (length P)) by lia. cbn [app lookup list_lookup mbind option_bind length]. change (Z.lor ZIP_STR_06B r) with r.
    unfold ZIP_ENTRY_ENCODING, ZIP_STR_MASK. rewrite (proj2 (Z.ltb_lt r 192)) by lia. rewrite low6 by lia. cbn.
    change 63 with (Z.ones 6). rewrite Z.land_ones, Z.mod_small by lia. unfold r. by rewrite Nat2Z.id.
  - rewrite (look P _ 0 (length P)), (look P _ 1 (length P + 1)) by lia. cbn [app lookup list_lookup mbind option_bind length].
    destruct (str14 r) as [-> ->]; [lia|]. cbn. unfold r. by rewrite Nat2Z.id.
  - rewrite (look P _ 0 (length P)), (look P _ 1 (length P + 1)), (look P _ 2 (length P + 2)), (look P _ 3 (length P + 3)), (look P _ 4 (length P + 4)) by lia. cbn [app lookup list_lookup mbind option_bind length].
    change (ZIP_ENTRY_ENCODING ZIP_STR_32B) with ZIP_STR_32B. rewrite str32 by lia. cbn. unfold r. by rewrite Nat2Z.id.
Qed.

(** An integer and its encoding. *)
Lemma int_codec (v : Z) : in_llong v ->
  let enc := int_encoding v in
  exists b, zipSaveInteger v enc = Some b /\ zipIntSize enc = Some (length b) /\ ZIP_IS_STR enc = false /\ 192 <= enc < 255 /\
    forall P R p, p = length P -> zipLoadInteger (P ++ b ++ R) p enc = Some v.
Proof.
  intros Hv enc. unfold enc, int_encoding. destruct ((0 <=? v) && (v <=? 12)) eqn:H0.
  { assert (v = 0 \/ v = 1 \/ v = 2 \/ v = 3 \/ v = 4 \/ v = 5 \/ v = 6 \/ v = 7 \/ v = 8 \/ v = 9 \/ v = 10 \/ v = 11 \/ v = 12) as Hc by lia.
    exists []. destruct_or! Hc; subst v; by split_and!. }
  destruct ((-128 <=? v) && _) eqn:H1; [|destruct ((-32768 <=? v) && _) eqn:H2; [|destruct ((INT24_MIN <=? v) && _) eqn:H3; [|destruct ((INT_MIN <=? v) && _) eqn:H4]]].
  - exists (le_bytes 1 v). split_and!; try done. intros P R p Hp. unfold zipLoadInteger. change (ZIP_INT_8B =? ZIP_INT_8B) with true. cbv iota.
    rewrite (load_mid P) by done. cbn [fmap option_fmap option_map]. rewrite sext_le_bytes; [done|lia|]. unfold fits. change (2 ^ _) with 128. lia.
  - exists (le_bytes 2 v). split_and!; try done. intros P R p Hp. unfold zipLoadInteger. cbn [Z.eqb ZIP_INT_16B ZIP_INT_8B Pos.eqb].
    rewrite (load_mid P) by done. cbn [fmap option_fmap option_map]. rewrite sext_le_bytes; [done|lia|]. unfold fits. change (2 ^ _) with 32768. lia.
  - exists (drop 1 (le_bytes 4 (Z.shiftl v 8))). split_and!; try done. intros P R p Hp. unfold zipLoadInteger.
    cbn [Z.eqb ZIP_INT_16B ZIP_INT_8B ZIP_INT_24B ZIP_INT_32B Pos.eqb].
    rewrite (load_mid P) by done. cbn [fmap option_fmap option_map]. rewrite Z.shiftl_mul_pow2 by lia. change (2 ^ 8) with 256.
    assert (0 :: drop 1 (le_bytes 4 (v * 256)) = le_bytes 4 (v * 256)) as -> by (cbn [le_bytes drop]; by rewrite Z.mod_mul by lia).
    unfold INT24_MIN, INT24_MAX in H3. rewrite sext_le_bytes; [|lia|unfold fits; change (2 ^ _) with 2147483648; lia].
    rewrite Z.shiftr_div_pow2 by lia. change (2 ^ 8) with 256. by rewrite Z.div_mul by lia.
  - exists (le_bytes 4 v). split_and!; try done. intros P R p Hp. unfold zipLoadInteger.
    cbn [Z.eqb ZIP_INT_16B ZIP_INT_8B ZIP_INT_24B ZIP_INT_32B Pos.eqb].
    rewrite (load_mid P) by done. cbn [fmap option_fmap option_map]. unfold INT_MIN, INT_MAX in H4.
    rewrite sext_le_bytes; [done|lia|]. unfold fits. change (2 ^ _) with 2147483648. lia.
  - exists (le_bytes 8 v). split_and!; try done. intros P R p Hp. unfold zipLoadInteger.
    cbn [Z.eqb ZIP_INT_16B ZIP_INT_8B ZIP_INT_24B ZIP_INT_32B ZIP_INT_64B Pos.eqb].
    rewrite (load_mid P) by done. cbn [fmap option_fmap option_map]. rewrite sext_le_bytes; [done|lia|]. unfold fits. change (2 ^ _) with 9223372036854775808. clia.
Qed.

Lemma try_encoding s v enc : zipTryEncoding s = Some (v, enc) -> in_llong v /\ enc = int_encoding v /\ sdsfromlonglong v = s.
Proof.
  unfold zipTryEncoding. destruct (_ || _); [done|]. destruct (string2ll s) as [z|] eqn:Hs; [|done]. cbn. intros [= <- <-].
  apply string2ll_canonical in Hs as [Hz Hp]. done.
Qed.

(** What an entry holds: an integer, or the bytes of the string. *)
Definition evalue (s : sds) : list Z + Z :=
  match zipTryEncoding s with Some (v, _) => inr v | None => inl (byteZ <$> chars s) end.

Definition read_value (zl : buffer) (q : nat) (enc : Z) (len : nat) : option (list Z + Z) :=
  if ZIP_IS_STR enc then inl <$> load zl q len else inr <$> zipLoadInteger zl q enc.

Lemma length_chars s : length (chars s) = String.length s.
Proof. unfold chars. induction s as [|c s IH]; [done|]. cbn. by rewrite IH. Qed.

Lemma payload_spec s :
  short_str s ->
  exists enc0 enc hd pl, entry_payload s = Some (enc0, pl) /\ hd = zipStoreEntryEncoding enc0 (String.length s) /\ (1 <= length hd)%nat /\
    (if ZIP_IS_STR enc0 then Some (String.length s) else zipIntSize enc0) = Some (length pl) /\
    (forall P R p, p = length P -> ZIP_DECODE_LENGTH (P ++ hd ++ R) p = Some (enc, length hd, length pl)) /\
    (forall P R p, p = length P -> read_value (P ++ pl ++ R) p enc (length pl) = Some (evalue s)) /\
    ZIP_IS_STR enc = match zipTryEncoding s with Some _ => false | None => true end.
Proof.
  intros Hs. unfold entry_payload, evalue. destruct (zipTryEncoding s) as [[v enc]|] eqn:Ht.
  - apply try_encoding in Ht as (Hv & -> & _). destruct (int_codec v Hv) as (b & -> & Hsize & Hstr & Hr & Hload). cbn [mbind option_bind].
    exists (int_encoding v), (int_encoding v), [int_encoding v], b. unfold zipStoreEntryEncoding, read_value. rewrite Hstr. split_and!; try done.
    + intros P R p ->. unfold ZIP_DECODE_LENGTH. rewrite (look P _ 0 (length P)) by lia. cbn [app lookup list_lookup mbind option_bind].
      unfold ZIP_ENTRY_ENCODING, ZIP_STR_MASK. rewrite !(proj2 (Z.ltb_ge (int_encoding v) 192)) by lia. by rewrite Hsize.
    + intros P R p Hp. by rewrite Hload.
  - assert (length (byteZ <$> chars s) = String.length s) as Hlen by (rewrite length_fmap; apply length_chars).
    assert (ZIP_IS_STR (str_encoding (String.length s)) = true) as Hstr by (unfold str_encoding; repeat (destruct (_ <=? _)); done).
    exists 0, (str_encoding (String.length s)), (zipStoreEntryEncoding 0 (String.length s)), (byteZ <$> chars s). split_and!; try done.
    + unfold zipStoreEntryEncoding. change (ZIP_IS_STR 0) with true. cbv iota. destruct (_ <=? 63); [|destruct (_ <=? 16383)]; cbn; lia.
    + change (ZIP_IS_STR 0) with true. cbv iota. by rewrite Hlen.
    + intros P R p Hp. by rewrite Hlen, (decode_str P R (String.length s) p Hp Hs).
    + intros P R p Hp. unfold read_value. rewrite Hstr, load_mid by done. done.
Qed.

Section Entry.
Context (P R : list Z) (prev : nat) (e : zent) (p : nat).
Context (Hp : p = length P) (Hprev : fits_prev e prev) (Hstr : short_str (ze_str e)).

Abbreviation zl := (P ++ ebytes prev e ++ R).

(** The first byte is not the end mark, and tells the size of the field. *)
Lemma entry_first : exists b, zl !! p = Some b /\ (b =? ZIP_END) = false /\ (b <? ZIP_BIG_PREVLEN) = negb (ze_big e) /\ (ze_big e = false -> b = Z.of_nat prev).
Proof using Hp Hprev.
  destruct Hprev as [_ Hsmall]. rewrite (look P _ 0) by lia. unfold ebytes, prevb. destruct (ze_big e); [by exists 254|].
  exists (Z.of_nat prev). specialize (Hsmall eq_refl). unfold ZIP_END, ZIP_BIG_PREVLEN. cbn. split_and!; [done|lia|lia|done].
Qed.

Lemma decode_prevlensize : ZIP_DECODE_PREVLENSIZE zl p = Some (psize (ze_big e)).
Proof using Hp Hprev. destruct entry_first as (b & Hb & _ & Hbig & _). unfold ZIP_DECODE_PREVLENSIZE. rewrite Hb. cbn. rewrite Hbig. by destruct (ze_big e). Qed.

Lemma decode_prevlen : ZIP_DECODE_PREVLEN zl p = Some (psize (ze_big e), prev).
Proof using Hp Hprev.
  unfold ZIP_DECODE_PREVLEN. rewrite decode_prevlensize. cbn [mbind option_bind].
  destruct entry_first as (b & Hb & _ & _ & Hsmall). destruct (ze_big e) eqn:Hbig; cbn [psize].
  - rewrite decide_False by done.
    assert (zl = (P ++ [ZIP_BIG_PREVLEN]) ++ le_bytes 4 (Z.of_nat prev) ++ (body (ze_str e) ++ R)) as Hz
      by (unfold ebytes, prevb; rewrite Hbig; by rewrite <- !app_assoc).
    rewrite Hz, load_mid.
    + cbn [mbind option_bind]. rewrite le_val_le_bytes. change (2 ^ _) with 4294967296. destruct Hprev as [Hlt _]. rewrite Z.mod_small by lia. by rewrite Nat2Z.id.
    + rewrite length_app. cbn. lia.
    + by rewrite length_le_bytes.
  - rewrite decide_True by done. rewrite Hb. cbn. by rewrite (Hsmall eq_refl), Nat2Z.id.
Qed.

(** The whole entry, and where its value is. *)
Lemma zipEntry_spec :
  exists en, zipEntry zl p = Some en /\ prevrawlensize en = psize (ze_big e) /\ prevrawlen en = prev /\ ze_p en = p /\
    (headersize en + zlen en)%nat = elen e /\
    read_value zl (p + headersize en) (encoding en) (zlen en) = Some (evalue (ze_str e)) /\
    ZIP_IS_STR (encoding en) = (match zipTryEncoding (ze_str e) with Some _ => false | None => true end) /\
    ZIP_DECODE_LENGTH zl (p + psize (ze_big e)) = Some (encoding en, lensize en, zlen en) /\ headersize en = (psize (ze_big e) + lensize en)%nat.
Proof using Hp Hprev Hstr.
  destruct (payload_spec (ze_str e) Hstr) as (enc0 & enc & hd & pl & Hpay & Hhd & _ & _ & Hdec & Hread & His).
  assert (body (ze_str e) = hd ++ pl) as Hbody by (unfold body; by rewrite Hpay, Hhd).
  assert (zl = (P ++ prevb (ze_big e) prev) ++ hd ++ (pl ++ R)) as Hz1 by (unfold ebytes; by rewrite Hbody, <- !app_assoc).
  assert (zl = (P ++ prevb (ze_big e) prev ++ hd) ++ pl ++ R) as Hz2 by (unfold ebytes; by rewrite Hbody, <- !app_assoc).
  assert (ZIP_DECODE_LENGTH zl (p + psize (ze_big e)) = Some (enc, length hd, length pl)) as Hd
    by (rewrite Hz1; apply Hdec; rewrite length_app, length_prevb; lia).
  exists (mkZlentry (psize (ze_big e)) prev (length hd) (length pl) (psize (ze_big e) + length hd) enc p).
  unfold zipEntry. rewrite decode_prevlen. cbn [mbind option_bind]. rewrite Hd. cbn. split_and!; try done.
  - unfold elen. rewrite Hbody, length_app. lia.
  - rewrite Hz2. apply Hread. rewrite !length_app, length_prevb. lia.
Qed.

Lemma zipRawEntryLength_spec : zipRawEntryLength zl p = Some (elen e).
Proof using Hp Hprev Hstr.
  destruct zipEntry_spec as (en & _ & _ & _ & _ & Hlen & _ & _ & Hd & Hh). unfold zipRawEntryLength. rewrite decode_prevlensize. cbn [mbind option_bind].
  rewrite Hd. cbn. by rewrite <- Hh, Hlen.
Qed.
End Entry.

Lemma elen_pos e : (1 <= elen e)%nat.
Proof. unfold elen. destruct (ze_big e); cbn; lia. Qed.

(** ** The whole list *)

Definition hdr (bytes tail len : Z) : list Z := le_bytes 4 bytes ++ le_bytes 4 tail ++ le_bytes 2 len.

Lemma length_hdr n t k : length (hdr n t k) = ZIPLIST_HEADER_SIZE.
Proof. done. Qed.

Section Header.
Context (n t k : Z) (R : list Z).

Lemma get_bytes : 0 <= n < 4294967296 -> ZIPLIST_BYTES (hdr n t k ++ R) = Some n.
Proof.
  intros Hn. unfold ZIPLIST_BYTES, hdr. rewrite <- app_assoc. rewrite load_front by done. cbn [fmap option_fmap option_map].
  rewrite le_val_le_bytes. change (2 ^ _) with 4294967296. by rewrite Z.mod_small by lia.
Qed.

Lemma get_tail : 0 <= t < 4294967296 -> ZIPLIST_TAIL_OFFSET (hdr n t k ++ R) = Some t.
Proof.
  intros Ht. unfold ZIPLIST_TAIL_OFFSET, hdr. rewrite <- !app_assoc. rewrite (load_mid (le_bytes 4 n) (le_bytes 4 t) _ 4 4) by done.
  cbn [fmap option_fmap option_map]. rewrite le_val_le_bytes. change (2 ^ _) with 4294967296. by rewrite Z.mod_small by lia.
Qed.

Lemma get_length : 0 <= k < 65536 -> ZIPLIST_LENGTH (hdr n t k ++ R) = Some k.
Proof.
  intros Hk. unfold ZIPLIST_LENGTH, hdr. rewrite <- !app_assoc, (app_assoc (le_bytes 4 n)).
  rewrite (load_mid (le_bytes 4 n ++ le_bytes 4 t) (le_bytes 2 k) _ 8 2) by done.
  cbn [fmap option_fmap option_map]. rewrite le_val_le_bytes. change (2 ^ _) with 65536. by rewrite Z.mod_small by lia.
Qed.

Lemma put_bytes n' : set_bytes (hdr n t k ++ R) n' = Some (hdr n' t k ++ R).
Proof. unfold set_bytes, hdr. rewrite <- !app_assoc. by rewrite store_front by done. Qed.

Lemma put_tail t' : set_tail_offset (hdr n t k ++ R) t' = Some (hdr n t' k ++ R).
Proof. unfold set_tail_offset, hdr. rewrite <- !app_assoc. by rewrite (store_mid (le_bytes 4 n) (le_bytes 4 t) _ (le_bytes 4 t') 4) by done. Qed.

Lemma put_length k' : set_length (hdr n t k ++ R) k' = Some (hdr n t k' ++ R).
Proof.
  unfold set_length, hdr. rewrite <- !app_assoc, !(app_assoc (le_bytes 4 n)).
  by rewrite (store_mid (le_bytes 4 n ++ le_bytes 4 t) (le_bytes 2 k) _ (le_bytes 2 k') 8) by done.
Qed.

End Header.

(** Growing the buffer: the end mark is written anew, what was there stays. *)
Lemma resize_more n t k (R : list Z) (len d : nat) : len = (length (hdr n t k ++ R) + d)%nat -> (0 < d)%nat ->
  ziplistResize (hdr n t k ++ R) len = Some (hdr (Z.of_nat len) t k ++ R ++ replicate (d - 1) 0 ++ [ZIP_END]).
Proof.
  intros -> Hd. unfold ziplistResize. rewrite resize_grow by lia. replace (length (hdr n t k ++ R) + d - length (hdr n t k ++ R))%nat with d by lia. rewrite <- app_assoc, put_bytes. cbn [mbind option_bind].
  replace (replicate d 0) with (replicate (d - 1) 0 ++ [0]) by (rewrite <- replicate_S_end; f_equal; lia).
  rewrite !app_assoc. apply store_end; [|done]. rewrite !length_app, length_replicate. cbn. lia.
Qed.

(** Shrinking, or keeping the size. *)
Lemma resize_less n t k (Q R : list Z) x (len : nat) :
  len = length (hdr n t k ++ Q ++ [x]) ->
  ziplistResize (hdr n t k ++ Q ++ x :: R) len = Some (hdr (Z.of_nat len) t k ++ Q ++ [ZIP_END]).
Proof.
  intros ->. unfold ziplistResize. rewrite resize_le by (rewrite !length_app; cbn; lia).
  assert (take (length (hdr n t k ++ Q ++ [x])) (hdr n t k ++ Q ++ x :: R) = hdr n t k ++ Q ++ [x]) as ->
    by (rewrite (cons_middle x Q R), !app_assoc; apply take_app_length).
  rewrite put_bytes. cbn [mbind option_bind]. rewrite !app_assoc. apply store_end; [|done]. rewrite !length_app. cbn. lia.
Qed.

(** The offset of the last entry, when the first is at [off]. *)
Fixpoint tail_at (off : nat) es : nat :=
  match es with
  | e :: (_ :: _) as es' => tail_at (off + elen e) es'
  | _ => off
  end.

Lemma tail_at_shift off d es : tail_at (off + d) es = (tail_at off es + d)%nat.
Proof.
  revert off. induction es as [|e es IH]; intros off; [done|]. destruct es as [|e' es]; [done|].
  change (tail_at (off + d + elen e) (e' :: es) = (tail_at (off + elen e) (e' :: es) + d)%nat). rewrite <- IH. f_equal. lia.
Qed.

(** A buffer with the entries [C] and the last one at [t]. *)
Definition zbuf (k : Z) (t : nat) (C : list Z) : buffer :=
  hdr (Z.of_nat (ZIPLIST_HEADER_SIZE + length C + 1)) (Z.of_nat t) k ++ C ++ [ZIP_END].

#[global] Arguments hdr : simpl never.
#[global] Arguments zbuf : simpl never.

Lemma length_zbuf k t C : length (zbuf k t C) = (ZIPLIST_HEADER_SIZE + length C + 1)%nat.
Proof. unfold zbuf. rewrite !length_app, length_hdr. cbn [length]. lia. Qed.

Record zlrep (zl : buffer) es : Prop := {
  zl_bytes : exists k, zl = zbuf k (tail_at ZIPLIST_HEADER_SIZE es) (layout 0 es) /\
    0 <= k <= UINT16_MAX /\ (k < UINT16_MAX -> k = Z.of_nat (length es));
  zl_chain : chain 0 es;
  zl_small : Z.of_nat (length zl) < 4294967296
}.
