(* ===== verification/ZiplistUpdate.v ===== *)
(** * Updates of ziplists ([ziplist.c])

    The cascade that widens the fields for previous lengths, insertion and
    deletion: each leaves the bytes of a list with the strings that are meant. *)
From Stdlib Require Import ZArith Lia Ascii String.
From stdpp Require Import base numbers strings list.
From S2P Require Import Prelude Sds Intset Ziplist ZiplistRep.
Open Scope Z_scope.

Implicit Types (e : zent) (es A B : list zent).

Lemma length_large raw : length (zipStorePrevEntryLengthLarge raw) = 5%nat.
Proof. done. Qed.

Ltac lens := rewrite ?length_zbuf, ?length_app, ?length_large, ?length_hdr, ?length_ebytes, ?length_prevb in *; cbn [length psize] in *; unfold ZIPLIST_HEADER_SIZE in *; lia.

(** ** The cascade *)

(** The field of one byte at [np] becomes one of five; [f] is what follows. *)
Lemma grow_prev k t (P X : list Z) q (raw np curlen : nat) (f : buffer -> option buffer) :
  np = (ZIPLIST_HEADER_SIZE + length P)%nat -> curlen = length (zbuf k t (P ++ [q] ++ X)) -> (t < curlen)%nat -> Z.of_nat curlen + 4 < 4294967296 ->
  (zl ← ziplistResize (zbuf k t (P ++ [q] ++ X)) (curlen + 4);
   t' ← ZIPLIST_TAIL_OFFSET zl;
   zl ← (if decide (t' = Z.of_nat np) then Some zl else set_tail_offset zl (t' + Z.of_nat 4));
   zl ← move zl (np + 5) (np + 1) (curlen - np - 1 - 1);
   zl ← store zl np (zipStorePrevEntryLengthLarge raw);
   f zl) =
  f (zbuf k (if decide (t = np) then t else t + 4) (P ++ zipStorePrevEntryLengthLarge raw ++ X)).
Proof.
  intros Hnp Hcur Ht Hmax. assert (length (P ++ [q] ++ X) = length P + 1 + length X)%nat as Hlen by (rewrite !length_app; cbn; lia).
  rewrite length_zbuf, Hlen in Hcur. unfold zbuf. rewrite (resize_more _ _ _ _ _ 4) by (lia || (rewrite !length_app, length_hdr; cbn [length]; lia)).
  cbn [mbind option_bind]. rewrite get_tail by lia. cbn [mbind option_bind].
  set (t2 := if decide (t = np) then t else (t + 4)%nat). set (h := hdr (Z.of_nat (curlen + 4)) (Z.of_nat t2) k).
  assert (length h = ZIPLIST_HEADER_SIZE) as Hh by done.
  assert ((if decide (Z.of_nat t = Z.of_nat np) then Some (hdr (Z.of_nat (curlen + 4)) (Z.of_nat t) k ++ ((P ++ [q] ++ X) ++ [ZIP_END]) ++ replicate (4 - 1) 0 ++ [ZIP_END])
    else set_tail_offset (hdr (Z.of_nat (curlen + 4)) (Z.of_nat t) k ++ ((P ++ [q] ++ X) ++ [ZIP_END]) ++ replicate (4 - 1) 0 ++ [ZIP_END]) (Z.of_nat t + Z.of_nat 4))
    = Some ((h ++ P ++ [q]) ++ X ++ [ZIP_END; 0; 0; 0] ++ [ZIP_END])) as ->.
  { unfold h, t2. destruct (decide (t = np)) as [->|Hne].
    - rewrite decide_True by done. by rewrite <- !app_assoc.
    - rewrite decide_False by lia. replace (Z.of_nat t + Z.of_nat 4) with (Z.of_nat (t + 4)) by lia. rewrite put_tail. by rewrite <- !app_assoc. }
  cbn [mbind option_bind].
  destruct (move_back (h ++ P ++ [q]) X [ZIP_END; 0; 0; 0] [ZIP_END] (np + 5) (np + 1) (curlen - np - 1 - 1)) as (G & HG & ->).
  { lens. }
  { lens. }
  { lens. }
  cbn [mbind option_bind].
  replace ((h ++ P ++ [q]) ++ G ++ X ++ [ZIP_END]) with ((h ++ P) ++ ([q] ++ G) ++ (X ++ [ZIP_END])) by (by rewrite <- !app_assoc).
  rewrite (store_mid (h ++ P) ([q] ++ G)).
  - cbn [mbind option_bind]. f_equal. unfold h. rewrite <- !app_assoc. f_equal. f_equal. lens.
  - lens.
  - rewrite length_app, HG. done.
Qed.

(** The buffer around a place. *)
Lemma zbuf_mid k t (P X R : list Z) :
  zbuf k t (P ++ X ++ R) = (hdr (Z.of_nat (ZIPLIST_HEADER_SIZE + length (P ++ X ++ R) + 1)) (Z.of_nat t) k ++ P) ++ X ++ (R ++ [ZIP_END]).
Proof. unfold zbuf. by rewrite <- !app_assoc. Qed.

Lemma store_zbuf k t (P X R b : list Z) p :
  p = (ZIPLIST_HEADER_SIZE + length P)%nat -> length X = length b -> store (zbuf k t (P ++ X ++ R)) p b = Some (zbuf k t (P ++ b ++ R)).
Proof.
  intros Hp Hb. rewrite !zbuf_mid, store_mid; [|lens|done]. do 5 f_equal. lens.
Qed.

Section At.
Context (k : Z) (t : nat) (P : list Z) (prev : nat) (e : zent) (R : list Z) (p : nat).
Context (Hp : p = (ZIPLIST_HEADER_SIZE + length P)%nat) (Hprev : fits_prev e prev) (Hs : short_str (ze_str e)).

Abbreviation zl := (zbuf k t (P ++ ebytes prev e ++ R)).

Lemma at_first : exists b, zl !! p = Some b /\ (b =? ZIP_END) = false.
Proof using Hp Hprev.
  rewrite zbuf_mid. destruct (entry_first (hdr (Z.of_nat (ZIPLIST_HEADER_SIZE + length (P ++ ebytes prev e ++ R) + 1)) (Z.of_nat t) k ++ P)
    (R ++ [ZIP_END]) prev e p ltac:(lens) Hprev) as (b & Hb & He & _). by exists b.
Qed.

Lemma at_entry :
  exists en, zipEntry zl p = Some en /\ prevrawlensize en = psize (ze_big e) /\ prevrawlen en = prev /\ ze_p en = p /\
    (headersize en + zlen en)%nat = elen e /\
    read_value zl (p + headersize en) (encoding en) (zlen en) = Some (evalue (ze_str e)) /\
    ZIP_IS_STR (encoding en) = (match zipTryEncoding (ze_str e) with Some _ => false | None => true end) /\
    ZIP_DECODE_LENGTH zl (p + psize (ze_big e)) = Some (encoding en, lensize en, zlen en) /\ headersize en = (psize (ze_big e) + lensize en)%nat.
Proof using Hp Hprev Hs. rewrite zbuf_mid. apply zipEntry_spec; [lens|done|done]. Qed.

Lemma at_raw : zipRawEntryLength zl p = Some (elen e).
Proof using Hp Hprev Hs. rewrite zbuf_mid. apply zipRawEntryLength_spec; [lens|done|done]. Qed.

Lemma at_prevlen : ZIP_DECODE_PREVLEN zl p = Some (psize (ze_big e), prev).
Proof using Hp Hprev. rewrite zbuf_mid. apply decode_prevlen; [lens|done]. Qed.

Lemma at_prevlensize : ZIP_DECODE_PREVLENSIZE zl p = Some (psize (ze_big e)).
Proof using Hp Hprev. rewrite zbuf_mid. apply decode_prevlensize; [lens|done]. Qed.
End At.

(** The end mark. *)
Lemma at_end k t (C : list Z) p : p = (ZIPLIST_HEADER_SIZE + length C)%nat -> zbuf k t C !! p = Some ZIP_END.
Proof. intros ->. unfold zbuf. rewrite app_assoc. apply list_lookup_middle. lens. Qed.

(** A new previous length in a field of the same size. *)
Lemma store_prevlen k t (P : list Z) q raw e R p :
  p = (ZIPLIST_HEADER_SIZE + length P)%nat ->
  store (zbuf k t (P ++ ebytes q e ++ R)) p (prevb (ze_big e) raw) = Some (zbuf k t (P ++ ebytes raw e ++ R)).
Proof.
  intros Hp. unfold ebytes. rewrite <- !app_assoc. apply store_zbuf; [done|]. by rewrite !length_prevb.
Qed.

Lemma tail_at_ge off es : (off <= tail_at off es)%nat.
Proof.
  revert off. induction es as [|e es IH]; intros off; [done|]. destruct es as [|e' es]; [done|].
  change (off <= tail_at (off + elen e) (e' :: es))%nat. specialize (IH (off + elen e)%nat). lia.
Qed.

Lemma count_layout prev es : (length es <= length (layout prev es))%nat.
Proof.
  revert prev. induction es as [|x es IH]; intros prev; [done|]. cbn [layout length]. specialize (IH (elen x)). pose proof (elen_pos x). lens.
Qed.

Lemma length_layout_pos prev e es : (elen e <= length (layout prev (e :: es)))%nat.
Proof. cbn [layout]. rewrite length_app, length_ebytes. lia. Qed.

Lemma tail_at_lt off prev e es : (tail_at off (e :: es) < off + length (layout prev (e :: es)))%nat.
Proof.
  revert off prev e. induction es as [|e' es IH]; intros off prev e.
  - cbn [tail_at layout]. rewrite app_nil_r, length_ebytes. pose proof (elen_pos e). lia.
  - change (tail_at (off + elen e) (e' :: es) < off + length (layout prev (e :: e' :: es)))%nat.
    specialize (IH (off + elen e)%nat (elen e) e'). remember (e' :: es) as es'. cbn [layout]. rewrite length_app, length_ebytes. lia.
Qed.

(** The next entry gets a field of five bytes. *)
Lemma grow_round fuel (P : list Z) q e prev n es k p curlen :
  p = (ZIPLIST_HEADER_SIZE + length P)%nat -> ze_big n = false -> (254 <= elen e)%nat ->
  curlen = (ZIPLIST_HEADER_SIZE + length P + elen e + elen n + length (layout (elen n) es) + 1)%nat -> Z.of_nat (curlen + 4) < 4294967296 ->
  let n' := mkZent (ze_str n) true in
  let np := (p + elen e)%nat in
  let new := psize (bool_decide (254 <= elen e)%nat) in
  let old := psize (ze_big n) in
  (zl ← ziplistResize (zbuf k (tail_at p (e :: n :: es)) ((P ++ ebytes prev e) ++ ebytes q n ++ layout (elen n) es)) (curlen + (new - old));
   t ← ZIPLIST_TAIL_OFFSET zl;
   zl ← (if decide (t = Z.of_nat np) then Some zl else set_tail_offset zl (t + Z.of_nat (new - old)));
   zl ← move zl (np + new) (np + old) (curlen - np - old - 1);
   zl ← store zl np (zipStorePrevEntryLength (elen e));
   cascade_loop fuel zl np (curlen + (new - old))) =
  cascade_loop fuel (zbuf k (tail_at np (n' :: es)) ((P ++ ebytes prev e) ++ ebytes (elen e) n' ++ layout (elen n) es)) np (curlen + 4).
Proof.
  intros Hp Hbn Hbig Hcl Hmax n' np new old. assert (new = 5%nat) as -> by (unfold new; by rewrite bool_decide_eq_true_2).
  assert (old = 1%nat) as -> by (unfold old; by rewrite Hbn). change (5 - 1)%nat with 4%nat. rewrite store_prev, bool_decide_eq_true_2 by done. cbn [prevb].
  assert (elen n' = elen n + 4)%nat as Hn' by (unfold elen; rewrite Hbn; cbn; lia).
  assert (elen n = 1 + length (body (ze_str n)))%nat as Hen by (unfold elen; by rewrite Hbn).
  replace ((P ++ ebytes prev e) ++ ebytes q n ++ layout (elen n) es) with ((P ++ ebytes prev e) ++ [Z.of_nat q] ++ (body (ze_str n) ++ layout (elen n) es))
    by (unfold ebytes at 3; rewrite Hbn; cbn [prevb]; by rewrite <- !app_assoc).
  pose proof (tail_at_lt p prev e (n :: es)) as Htail. cbn [layout] in Htail.
  rewrite (grow_prev k (tail_at p (e :: n :: es)) (P ++ ebytes prev e) _ (Z.of_nat q) (elen e) np curlen
    (fun zl => cascade_loop fuel zl np (curlen + 4))); [|unfold np; lens|lens|lens|lens].
  f_equal. unfold ebytes at 3. cbn [prevb ze_big n' ze_str]. rewrite <- !app_assoc. f_equal.
  change (tail_at p (e :: n :: es)) with (tail_at np (n :: es)). destruct es as [|m es]; [by rewrite decide_True|].
  change (tail_at np (n :: m :: es)) with (tail_at (np + elen n) (m :: es)). change (tail_at np (n' :: m :: es)) with (tail_at (np + elen n') (m :: es)).
  pose proof (tail_at_ge (np + elen n) (m :: es)). pose proof (elen_pos n). rewrite decide_False by lia. rewrite Hn'.
  by rewrite Nat.add_assoc, (tail_at_shift _ 4).
Qed.

(** One round: stop, widen the field of the next entry and go on there, or write
    the length into it. *)
Lemma cascade_round fuel (P : list Z) prev e q n es k p curlen :
  fits_prev e prev -> short_str (ze_str e) -> chain q (n :: es) ->
  let zl := zbuf k (tail_at p (e :: n :: es)) (P ++ ebytes prev e ++ layout q (n :: es)) in
  p = (ZIPLIST_HEADER_SIZE + length P)%nat -> curlen = length zl -> Z.of_nat (curlen + 4) < 4294967296 ->
  let n' := mkZent (ze_str n) true in
  cascade_loop (S fuel) zl p curlen =
    if decide (q = elen e) then Some zl
    else if decide (ze_big n = false /\ (254 <= elen e)%nat) then
      cascade_loop fuel (zbuf k (tail_at (p + elen e) (n' :: es)) ((P ++ ebytes prev e) ++ ebytes (elen e) n' ++ layout (elen n) es)) (p + elen e) (curlen + 4)
    else Some (zbuf k (tail_at p (e :: n :: es)) (P ++ ebytes prev e ++ layout (elen e) (n :: es))).
Proof.
  intros Hprev Hs (Hq & Hsn & Hch) zl Hp Hcur Hmax n'. cbn [cascade_loop]. unfold zl.
  destruct (at_first k (tail_at p (e :: n :: es)) P prev e (layout q (n :: es)) p Hp Hprev) as (b & -> & Hb). cbn [mbind option_bind]. rewrite Hb.
  destruct (at_entry k (tail_at p (e :: n :: es)) P prev e (layout q (n :: es)) p Hp Hprev Hs) as (en & -> & _ & _ & _ & Hlen & _). cbn [mbind option_bind]. rewrite Hlen.
  assert (P ++ ebytes prev e ++ layout q (n :: es) = (P ++ ebytes prev e) ++ ebytes q n ++ layout (elen n) es) as Hsplit by (cbn [layout]; by rewrite <- app_assoc).
  assert (p + elen e = ZIPLIST_HEADER_SIZE + length (P ++ ebytes prev e))%nat as Hnp by lens.
  assert (curlen = ZIPLIST_HEADER_SIZE + length P + elen e + elen n + length (layout (elen n) es) + 1)%nat as Hcl by (unfold zl in Hcur; rewrite Hsplit in Hcur; lens).
  clear Hcur zl. rewrite Hsplit.
  destruct (at_first k (tail_at p (e :: n :: es)) (P ++ ebytes prev e) q n (layout (elen n) es) _ Hnp Hq) as (b' & -> & Hb'). cbn [mbind option_bind]. rewrite Hb'.
  destruct (at_entry k (tail_at p (e :: n :: es)) (P ++ ebytes prev e) q n (layout (elen n) es) _ Hnp Hq Hsn) as (en' & -> & Hps & Hpl & _). cbn [mbind option_bind].
  rewrite Hps, Hpl, length_store_prev. destruct (decide (q = elen e)) as [->|Hne]; [done|].
  destruct (decide (ze_big n = false /\ (254 <= elen e)%nat)) as [[Hbn Hbig]|Hkeep].
  - rewrite decide_True by (by rewrite Hbn, bool_decide_eq_true_2 by done; cbn; lia). by apply grow_round.
  - rewrite decide_False by (destruct (ze_big n), (bool_decide_reflect (254 <= elen e)%nat); cbn; lia || tauto).
    rewrite store_prev. cbn [layout]. rewrite !(app_assoc P). destruct (decide _) as [Hsh|Hsame].
    + assert (ze_big n = true) as Hbn by (destruct (ze_big n); [done|]; case_bool_decide; cbn in Hsh; lia).
      change (zipStorePrevEntryLengthLarge (elen e)) with (prevb true (elen e)). by rewrite <- Hbn, store_prevlen.
    + assert (bool_decide (254 <= elen e)%nat = ze_big n) as -> by (destruct (ze_big n); case_bool_decide; cbn in *; done || lia || tauto). by apply store_prevlen.
Qed.

Lemma cascade_spec fuel :
  forall es (P : list Z) prev e q k p curlen,
  fits_prev e prev -> short_str (ze_str e) -> chain q es ->
  let zl := zbuf k (tail_at p (e :: es)) (P ++ ebytes prev e ++ layout q es) in
  p = (ZIPLIST_HEADER_SIZE + length P)%nat -> curlen = length zl -> Z.of_nat (curlen + 4 * length es) < 4294967296 -> (length es < fuel)%nat ->
  exists es', ze_str <$> es' = ze_str <$> es /\ chain (elen e) es' /\
    cascade_loop fuel zl p curlen = Some (zbuf k (tail_at p (e :: es')) (P ++ ebytes prev e ++ layout (elen e) es')) /\
    (length (layout (elen e) es') <= length (layout q es) + 4 * length es)%nat.
Proof.
  induction fuel as [|fuel IH]; intros es P prev e q k p curlen Hprev Hs Hch zl Hp Hcur Hmax Hf; [lia|]. destruct es as [|n es].
  { exists []. cbn [cascade_loop]. unfold zl. destruct (at_first k (tail_at p [e]) P prev e (layout q []) p Hp Hprev) as (b & -> & Hb). cbn [mbind option_bind]. rewrite Hb.
    destruct (at_entry k (tail_at p [e]) P prev e (layout q []) p Hp Hprev Hs) as (en & -> & _ & _ & _ & Hlen & _). cbn [mbind option_bind layout]. rewrite Hlen.
    rewrite at_end by lens. cbn. split_and!; [done..|lia]. }
  cbn [length] in Hmax. unfold zl. rewrite (cascade_round fuel P prev e q n es k p curlen Hprev Hs Hch Hp Hcur ltac:(lia)).
  assert (Z.of_nat (elen e) < 4294967296) as Hsmall by (unfold zl in Hcur; lens). destruct Hch as (Hq & Hsn & Hch).
  destruct (decide (q = elen e)) as [->|Hne]; [exists (n :: es); split_and!; [done|by split_and!|done|lia]|].
  destruct (decide (_ /\ _)) as [[Hbn Hbig]|Hkeep].
  - set (n' := mkZent (ze_str n) true). assert (elen n' = elen n + 4)%nat as Hn' by (unfold elen; rewrite Hbn; cbn; lia).
    assert (curlen = ZIPLIST_HEADER_SIZE + length P + elen e + elen n + length (layout (elen n) es) + 1)%nat as Hcl by (unfold zl in Hcur; cbn [layout] in Hcur; lens).
    destruct (IH es (P ++ ebytes prev e) (elen e) n' (elen n) k (p + elen e)%nat (curlen + 4)%nat) as (es' & Hstr & Hch' & -> & Hle); try done; [lens|lens|lia|cbn [length] in Hf; lia|].
    exists (n' :: es'). cbn [layout chain fmap list_fmap]. split_and!; [by f_equal|by split; [lia|]|done|done|by rewrite <- !app_assoc|lens].
  - exists (n :: es). cbn [layout chain]. split_and!; [done| |done|done|done|lens].
    split; [lia|]. intros Hb. destruct (decide (254 <= elen e)%nat); [tauto|lia].
Qed.

Lemma cascade_update es (P : list Z) prev e q k p :
  fits_prev e prev -> short_str (ze_str e) -> chain q es ->
  let zl := zbuf k (tail_at p (e :: es)) (P ++ ebytes prev e ++ layout q es) in
  p = (ZIPLIST_HEADER_SIZE + length P)%nat -> Z.of_nat (length zl + 4 * length es) < 4294967296 ->
  exists es', ze_str <$> es' = ze_str <$> es /\ chain (elen e) es' /\
    __ziplistCascadeUpdate zl p = Some (zbuf k (tail_at p (e :: es')) (P ++ ebytes prev e ++ layout (elen e) es')) /\
    (length (layout (elen e) es') <= length (layout q es) + 4 * length es)%nat.
Proof.
  intros Hprev Hs Hch zl Hp Hmax. unfold __ziplistCascadeUpdate.
  assert (ZIPLIST_BYTES zl = Some (Z.of_nat (length zl))) as ->.
  { unfold zl at 1, zbuf. rewrite get_bytes; [f_equal; unfold zl; lens|unfold zl in Hmax; lens]. }
  cbn [mbind option_bind]. rewrite Nat2Z.id. apply cascade_spec; try done.
  pose proof (count_layout q es) as Hle.
  unfold zl. lens.
Qed.

(** ** Parts of the list *)

Fixpoint last_len (prev : nat) es : nat := match es with [] => prev | e :: es => last_len (elen e) es end.

Lemma layout_app prev A B : layout prev (A ++ B) = layout prev A ++ layout (last_len prev A) B.
Proof. revert prev. induction A as [|e A IH]; intros prev; [done|]. cbn [app layout last_len]. by rewrite IH, <- app_assoc. Qed.

Lemma chain_app prev A B : chain prev (A ++ B) <-> chain prev A /\ chain (last_len prev A) B.
Proof. revert prev. induction A as [|e A IH]; intros prev; cbn [app chain last_len]; [tauto|]. rewrite IH. tauto. Qed.

Lemma tail_at_app off prev A e B : tail_at off (A ++ e :: B) = tail_at (off + length (layout prev A)) (e :: B).
Proof.
  revert off prev. induction A as [|a A IH]; intros off prev; [cbn [layout length]; by rewrite Nat.add_0_r|].
  assert (tail_at off (a :: A ++ e :: B) = tail_at (off + elen a) (A ++ e :: B)) as Ha by (by destruct A).
  cbn [app]. rewrite Ha, (IH _ (elen a)). cbn [layout]. rewrite length_app, length_ebytes. f_equal. lia.
Qed.

Lemma tail_at_cons off e B : tail_at off (e :: B) = match B with [] => off | _ => tail_at (off + elen e) B end.
Proof. by destruct B. Qed.

(** ** Room for an entry *)

Lemma resize_room k t (C : list Z) (len d : nat) :
  len = (length (zbuf k t C) + d)%nat ->
  exists T, length T = d /\ ziplistResize (zbuf k t C) len = Some (zbuf k t (C ++ T)) /\ (0 < d -> head T = Some ZIP_END)%nat.
Proof.
  intros ->. destruct d as [|d].
  - exists []. split; [done|]. split; [|lia]. rewrite app_nil_r, Nat.add_0_r. unfold zbuf. rewrite (resize_less _ _ _ C [] ZIP_END); [|done].
    do 3 f_equal. lens.
  - exists ([ZIP_END] ++ replicate d 0). split; [rewrite length_app, length_replicate; done|]. split; [|done].
    unfold zbuf at 1. rewrite (resize_more _ _ _ _ _ (S d)); [|done|lia]. f_equal. unfold zbuf. cbn [Nat.sub]. rewrite Nat.sub_0_r, <- !app_assoc.
    do 2 f_equal. rewrite !length_app, length_replicate. lens.
Qed.

(** The entries from [p] on move to the back, with a field of another size in
    front. *)
Lemma shift_entries k t (L X T : list Z) (big big' : bool) q (req p : nat) :
  p = (ZIPLIST_HEADER_SIZE + length L)%nat -> (length T + psize big = req + psize big')%nat ->
  exists G J, length G = req /\ length J = psize big' /\
    move (zbuf k t ((L ++ prevb big q ++ X) ++ T)) (p + req) (p + psize big - psize big') (psize big' + length X) =
      Some (zbuf k t (L ++ G ++ J ++ X)).
Proof.
  intros Hp HT. set (n := Z.of_nat (ZIPLIST_HEADER_SIZE + length ((L ++ prevb big q ++ X) ++ T) + 1)). set (h := hdr n (Z.of_nat t) k).
  assert (length h = ZIPLIST_HEADER_SIZE) as Hh by done.
  assert (psize big' <= 5)%nat as Hb5 by (destruct big'; cbn; lia).
  set (F := h ++ L ++ prevb big q). assert (length F = p + psize big)%nat as HF by (unfold F; lens).
  set (i := (p + psize big - psize big')%nat).
  assert (zbuf k t ((L ++ prevb big q ++ X) ++ T) = take i F ++ (drop i F ++ X) ++ (T ++ [ZIP_END])) as Hz.
  { rewrite <- (app_assoc (drop i F)), (app_assoc (take i F)), take_drop. unfold zbuf, F, h, n. by rewrite <- !app_assoc. }
  set (K := prevb big q ++ X ++ T).
  assert (zbuf k t ((L ++ prevb big q ++ X) ++ T) = (h ++ L ++ take req K) ++ drop req K ++ [ZIP_END]) as Hz2.
  { rewrite <- !app_assoc, (app_assoc (take req K)), take_drop. unfold zbuf, K, h, n. by rewrite <- !app_assoc. }
  assert (length (drop i F) = psize big') as HJ by (rewrite length_drop, HF; unfold i; unfold ZIPLIST_HEADER_SIZE in *; lia).
  assert (length (prevb big q) = psize big) as Hpb by apply length_prevb.
  assert (length K = psize big + length X + length T)%nat as HK by (unfold K; rewrite !length_app; lia).
  exists (take req K), (drop i F). split; [rewrite length_take, HK; lia|]. split; [done|].
  unfold move. rewrite Hz, load_mid; [|rewrite length_take, HF; unfold i; lia|rewrite length_app, HJ; done].
  cbn [mbind option_bind]. rewrite <- Hz, Hz2, store_mid.
  - f_equal. unfold zbuf, h, n. rewrite <- !app_assoc. do 2 f_equal. rewrite !length_app, HJ, length_take, HK, Hpb. lia.
  - rewrite !length_app, Hh, length_take, HK. lia.
  - rewrite length_drop, HK, length_app, HJ. lia.
Qed.

(** The new flag of the entry after the gap. *)
Definition next_big (req : nat) (big : bool) : bool := bool_decide (254 <= req)%nat || (big && bool_decide (req < 4)%nat).

Lemma get_tail_zbuf k t C : Z.of_nat t < 4294967296 -> ZIPLIST_TAIL_OFFSET (zbuf k t C) = Some (Z.of_nat t).
Proof. intros Ht. apply get_tail. lia. Qed.

Lemma put_tail_zbuf k t t' C z : z = Z.of_nat t' -> set_tail_offset (zbuf k t C) z = Some (zbuf k t' C).
Proof. intros ->. apply put_tail. Qed.

Lemma get_bytes_zbuf k t C : Z.of_nat (length (zbuf k t C)) < 4294967296 -> ZIPLIST_BYTES (zbuf k t C) = Some (Z.of_nat (length (zbuf k t C))).
Proof. intros Hlen. rewrite length_zbuf in *. unfold zbuf. rewrite get_bytes; [done|lia]. Qed.

(** [d] is the change of the entry's field. *)
Lemma shift_tail_spec k t (P : list Z) prev e q es p (delta nextdiff : Z) t' :
  p = (ZIPLIST_HEADER_SIZE + length P)%nat -> fits_prev e prev -> short_str (ze_str e) -> chain q es ->
  Z.of_nat t < 4294967296 -> 0 <= Z.of_nat t + delta < 4294967296 ->
  Z.of_nat t' = Z.of_nat t + delta + match es with [] => 0 | _ => nextdiff end ->
  shift_tail (zbuf k t (P ++ ebytes prev e ++ layout q es)) p delta nextdiff = Some (zbuf k t' (P ++ ebytes prev e ++ layout q es)).
Proof.
  intros Hp Hprev Hs Hch Ht Hd Ht'. unfold shift_tail. rewrite get_tail_zbuf by done. cbn [mbind option_bind].
  rewrite (put_tail_zbuf k t (Z.to_nat (Z.of_nat t + delta))) by lia. cbn [mbind option_bind].
  destruct (at_entry k (Z.to_nat (Z.of_nat t + delta)) P prev e (layout q es) p Hp Hprev Hs) as (en & -> & _ & _ & _ & Hlen & _). cbn [mbind option_bind]. rewrite Hlen.
  destruct es as [|n es].
  - cbn [layout]. rewrite at_end by lens. cbn in Ht' |- *. do 2 f_equal. lia.
  - cbn [layout chain] in *. destruct Hch as (Hn & _ & _). rewrite !app_assoc, <- (app_assoc _ (ebytes q n)).
    destruct (at_first k (Z.to_nat (Z.of_nat t + delta)) (P ++ ebytes prev e) q n (layout (elen n) es) (p + elen e)) as (b & -> & Hb); [lens|done|].
    cbn [mbind option_bind]. rewrite Hb. rewrite get_tail_zbuf by lia. cbn [mbind option_bind]. apply put_tail_zbuf. lia.
Qed.

Lemma zipPrevLenByteDiff_spec k t (P : list Z) prev e R p req :
  p = (ZIPLIST_HEADER_SIZE + length P)%nat -> fits_prev e prev ->
  zipPrevLenByteDiff (zbuf k t (P ++ ebytes prev e ++ R)) p req = Some (Z.of_nat (psize (bool_decide (254 <= req)%nat)) - Z.of_nat (psize (ze_big e))).
Proof. intros Hp Hprev. unfold zipPrevLenByteDiff. rewrite at_prevlensize by done. cbn [mbind option_bind]. by rewrite length_store_prev. Qed.

(** After the gap: the entries with the gap's length in front. *)
Lemma open_gap_middle k (L : list Z) q n es p curlen req :
  fits_prev n q -> short_str (ze_str n) -> chain (elen n) es ->
  let zl := zbuf k (tail_at p (n :: es)) (L ++ layout q (n :: es)) in
  p = (ZIPLIST_HEADER_SIZE + length L)%nat -> curlen = length zl -> (0 < req)%nat -> Z.of_nat (curlen + req + 4 + 4 * length es) < 4294967296 ->
  exists G B, length G = req /\ ze_str <$> B = ze_str <$> n :: es /\ chain req B /\
    open_gap zl p curlen req = Some (zbuf k (tail_at (p + req) B) (L ++ G ++ layout req B)) /\
    (length (layout req B) <= length (layout q (n :: es)) + 4 + 4 * length es)%nat.
Proof.
  intros Hq Hs Hch zl Hp Hcur Hreq Hmax. unfold open_gap, zl. cbn [layout].
  assert (curlen = p + elen n + length (layout (elen n) es) + 1)%nat as Hcl by (unfold zl in Hcur; cbn [layout] in Hcur; lens).
  pose proof (tail_at_lt p q n es) as Htl. cbn [layout] in Htl. rewrite length_app, length_ebytes in Htl. pose proof (tail_at_ge p (n :: es)) as Htg.
  destruct (at_first k (tail_at p (n :: es)) L q n (layout (elen n) es) p Hp Hq) as (b & -> & Hb). cbn [mbind option_bind]. rewrite Hb.
  rewrite zipPrevLenByteDiff_spec by done. cbn [mbind option_bind].
  set (need := bool_decide (254 <= req)%nat). set (diff0 := Z.of_nat (psize need) - Z.of_nat (psize (ze_big n))).
  set (force := (diff0 =? -4) && (req <? 4)%nat). set (big' := next_big req (ze_big n)).
  set (n' := mkZent (ze_str n) big').
  assert ((if force then 0 else diff0) = Z.of_nat (psize big') - Z.of_nat (psize (ze_big n)) /\
    (if force then zipStorePrevEntryLengthLarge req else zipStorePrevEntryLength req) = prevb big' req) as [-> ->].
  { rewrite store_prev. unfold force, diff0, big', next_big, need.
    destruct (Nat.ltb_spec req 4); [rewrite (bool_decide_eq_true_2 (req < 4)%nat) by lia|rewrite (bool_decide_eq_false_2 (req < 4)%nat) by lia];
      case_bool_decide; try lia; by destruct (ze_big n). }
  assert (fits_prev n' req) as Hfit.
  { split; [lia|]. cbn. unfold big', next_big. case_bool_decide; [done|lia]. }
  assert (psize (ze_big n) <= req + psize big')%nat as Hd.
  { unfold big', next_big. destruct (ze_big n); [|cbn; lia]. repeat case_bool_decide; cbn; lia. }
  assert (elen n' + psize (ze_big n) = elen n + psize big')%nat as Hn' by (unfold elen; cbn; lia).
  assert (elen n = psize (ze_big n) + length (body (ze_str n)))%nat as Hn by done.
  assert (psize big' <= 5)%nat as Hp5 by (destruct big'; cbn; lia). assert (1 <= psize (ze_big n))%nat as Hp1 by (destruct (ze_big n); cbn; lia).
  set (X := body (ze_str n) ++ layout (elen n) es). assert (length X = length (body (ze_str n)) + length (layout (elen n) es))%nat as HX by apply length_app.
  destruct (resize_room k (tail_at p (n :: es)) (L ++ ebytes q n ++ layout (elen n) es)
    (Z.to_nat (Z.of_nat (curlen + req) + (Z.of_nat (psize big') - Z.of_nat (psize (ze_big n))))) (req + psize big' - psize (ze_big n))) as (T & HT & -> & _).
  { unfold zl in Hcur. cbn [layout] in Hcur. lia. }
  cbn [mbind option_bind]. rewrite <- !app_assoc.
  destruct (at_first k (tail_at p (n :: es)) L q n (layout (elen n) es ++ T) p Hp Hq) as (b2 & -> & Hb2). cbn [mbind option_bind]. rewrite Hb2.
  destruct (shift_entries k (tail_at p (n :: es)) L X T (ze_big n) big' q req p Hp ltac:(lia)) as (G & J & HG & HJ & Hmove).
  replace (L ++ ebytes q n ++ layout (elen n) es ++ T) with ((L ++ prevb (ze_big n) q ++ X) ++ T) by (unfold ebytes, X; by rewrite <- !app_assoc).
  replace (Z.to_nat (Z.of_nat p - _)) with (p + psize (ze_big n) - psize big')%nat by lia.
  replace (Z.to_nat (Z.of_nat curlen - _ - _ + _)) with (psize big' + length X)%nat by lia.
  rewrite Hmove. cbn [mbind option_bind]. rewrite (app_assoc L G), (store_zbuf k _ (L ++ G) J X) by (lens || by rewrite HJ, length_prevb). cbn [mbind option_bind].
  replace ((L ++ G) ++ prevb big' req ++ X) with ((L ++ G) ++ ebytes req n' ++ layout (elen n) es) by (unfold ebytes, X; cbn; by rewrite <- !app_assoc).
  rewrite (shift_tail_spec k (tail_at p (n :: es)) (L ++ G) req n' (elen n) es (p + req) _ _ (tail_at (p + req) (n' :: es))); try done; [|lens|lia|lia|].
  2:{ rewrite !tail_at_cons. destruct es as [|m es]; [lia|]. replace (p + req + elen n')%nat with (p + elen n' + req)%nat by lia. rewrite tail_at_shift.
      pose proof (tail_at_shift p (elen n) (m :: es)). pose proof (tail_at_shift p (elen n') (m :: es)). lia. }
  cbn [mbind option_bind]. destruct (Z.eqb_spec (Z.of_nat (psize big') - Z.of_nat (psize (ze_big n))) 0) as [Hz|Hnz].
  - exists G, (n' :: es). cbn [layout chain fmap list_fmap]. assert (elen n' = elen n) as He by lia. rewrite He.
    split_and!; [done|done|done|done|done|by rewrite <- !app_assoc|lens].
  - destruct (cascade_update es (L ++ G) req n' (elen n) k (p + req)) as (es' & Hstr & Hch' & -> & Hle); [done|done|done|lens|lens|].
    exists G, (n' :: es'). cbn [layout chain fmap list_fmap]. split_and!; [done|by f_equal|done|done|done|by rewrite <- !app_assoc|lens].
Qed.

(** At the end of the list the gap is the last entry. *)
Lemma open_gap_end k t (C : list Z) p curlen req :
  p = (ZIPLIST_HEADER_SIZE + length C)%nat -> curlen = length (zbuf k t C) -> (0 < req)%nat ->
  exists G, length G = req /\ open_gap (zbuf k t C) p curlen req = Some (zbuf k p (C ++ G)).
Proof.
  intros Hp Hcur Hreq. unfold open_gap. rewrite at_end by done. cbn [mbind option_bind]. change (ZIP_END =? ZIP_END) with true.
  cbv iota. cbn [mbind option_bind]. change ((0 =? -4) && (req <? 4)%nat) with false. cbv iota zeta.
  destruct (resize_room k t C (Z.to_nat (Z.of_nat (curlen + req) + 0)) req ltac:(lia)) as (T & HT & -> & Hhead). cbn [mbind option_bind].
  exists T. split; [done|]. destruct T as [|x T]; [cbn in HT; lia|]. injection (Hhead Hreq) as ->.
  assert (zbuf k t (C ++ ZIP_END :: T) !! p = Some ZIP_END) as -> by (unfold zbuf; rewrite <- app_assoc, app_assoc; apply list_lookup_middle; lens).
  cbn [mbind option_bind]. change (ZIP_END =? ZIP_END) with true. cbv iota. by rewrite (put_tail_zbuf k t p) by done.
Qed.

Lemma incr_length k t C d :
  0 <= k <= UINT16_MAX -> ZIPLIST_INCR_LENGTH (zbuf k t C) d = Some (zbuf (if k <? UINT16_MAX then k + d else k) t C).
Proof.
  unfold UINT16_MAX. intros Hk. unfold ZIPLIST_INCR_LENGTH, zbuf. rewrite get_length by lia. cbn [mbind option_bind]. unfold UINT16_MAX.
  destruct (k <? 65535); [by rewrite put_length|done].
Qed.

Lemma last_len_snoc prev A e : last_len prev (A ++ [e]) = elen e.
Proof. revert prev. induction A as [|a A IH]; intros prev; cbn; [done|apply IH]. Qed.

Lemma last_len_le prev A : (last_len prev A <= Nat.max prev (length (layout prev A)))%nat.
Proof.
  revert prev. induction A as [|e A IH]; intros prev; cbn [last_len layout]; [cbn; lia|]. specialize (IH (elen e)). rewrite length_app, length_ebytes. lia.
Qed.

(** ** Insertion *)

Section Insert.
Context (k : Z) (A B : list zent) (p : nat).
Context (Hp : p = (ZIPLIST_HEADER_SIZE + length (layout 0 A))%nat) (Hch : chain 0 (A ++ B)).

Abbreviation zl := (zbuf k (tail_at ZIPLIST_HEADER_SIZE (A ++ B)) (layout 0 A ++ layout (last_len 0 A) B)).
Context (Hsmall : Z.of_nat (length zl) < 4294967296).

Lemma tail_small : Z.of_nat (tail_at ZIPLIST_HEADER_SIZE (A ++ B)) < 4294967296.
Proof using Hsmall.
  clear p Hp Hch. rewrite <- layout_app in Hsmall. destruct (A ++ B) as [|e es]; [done|]. pose proof (tail_at_lt ZIPLIST_HEADER_SIZE 0 e es). lens.
Qed.

Lemma insert_prevlen_spec : insert_prevlen zl p = Some (last_len 0 A).
Proof using Hp Hch Hsmall.
  pose proof tail_small as Ht. unfold insert_prevlen. apply chain_app in Hch as [HA HB]. destruct B as [|n B'].
  - cbn [layout]. rewrite !app_nil_r in *. rewrite at_end by done. cbn [mbind option_bind]. change (ZIP_END =? ZIP_END) with true. cbv iota.
    unfold ZIPLIST_ENTRY_TAIL. rewrite get_tail_zbuf by done. cbn [fmap option_fmap option_map mbind option_bind]. rewrite Nat2Z.id.
    destruct A as [|e A' _] using rev_ind; [by rewrite at_end|]. rewrite (tail_at_app _ 0), layout_app. cbn [tail_at layout].
    apply chain_app in HA as [_ (Hf & Hs & _)].
    destruct (at_first k (ZIPLIST_HEADER_SIZE + length (layout 0 A')) (layout 0 A') (last_len 0 A') e [] _ eq_refl Hf) as (b & -> & Hb).
    cbn [mbind option_bind]. rewrite Hb, last_len_snoc. by apply at_raw.
  - cbn [layout chain] in *. destruct HB as (Hf & _ & _).
    destruct (at_first k (tail_at ZIPLIST_HEADER_SIZE (A ++ n :: B')) (layout 0 A) (last_len 0 A) n (layout (elen n) B') p Hp Hf) as (b & -> & Hb).
    cbn [mbind option_bind]. rewrite Hb. by rewrite at_prevlen.
Qed.

(** A gap between the two parts. *)
Lemma open_gap_spec req :
  (0 < req)%nat -> Z.of_nat (length zl + req + 4 + 4 * length B) < 4294967296 ->
  exists G B', length G = req /\ ze_str <$> B' = ze_str <$> B /\ chain req B' /\
    open_gap zl p (length zl) req = Some (zbuf k (match B' with [] => p | _ => tail_at (p + req) B' end) (layout 0 A ++ G ++ layout req B')) /\
    (length (layout req B') <= length (layout (last_len 0 A) B) + 4 + 4 * length B)%nat.
Proof using Hp Hch Hsmall.
  intros Hreq Hmax. apply chain_app in Hch as [HA HB]. destruct B as [|n B'].
  - cbn [layout] in *. rewrite !app_nil_r in *. destruct (open_gap_end k (tail_at ZIPLIST_HEADER_SIZE A) (layout 0 A) p _ req Hp eq_refl Hreq) as (G & HG & Hopen).
    exists G, []. cbn [layout]. rewrite app_nil_r. split_and!; [done..|cbn; lia].
  - destruct HB as (Hf & Hs & HB). rewrite (tail_at_app _ 0), <- Hp in *.
    destruct (open_gap_middle k (layout 0 A) (last_len 0 A) n B' p _ req Hf Hs HB Hp eq_refl Hreq) as (G & B2 & HG & Hstr & Hch2 & Hopen & Hle).
    { cbn [length] in Hmax. lia. }
    exists G, B2. split_and!; [done..| |cbn [length]; lia]. destruct B2; [done|]. exact Hopen.
Qed.
End Insert.

Lemma encoding_length enc n : (length (zipStoreEntryEncoding enc n) <= 5)%nat.
Proof. unfold zipStoreEntryEncoding. repeat (destruct (_ : bool)); cbn; lia. Qed.

Lemma payload_length s enc pl : short_str s -> entry_payload s = Some (enc, pl) -> (length pl <= String.length s + 8)%nat.
Proof.
  intros Hs Hp. destruct (payload_spec s Hs) as (enc0 & _ & _ & pl0 & Hp0 & _ & _ & Hsize & _). rewrite Hp in Hp0. injection Hp0 as <- <-.
  destruct (ZIP_IS_STR enc); [injection Hsize as ->; lia|]. unfold zipIntSize in Hsize.
  repeat (destruct (_ : bool); [injection Hsize as ->; lia|]). done.
Qed.

Lemma body_length s : short_str s -> (length (body s) <= String.length s + 13)%nat.
Proof.
  intros Hs. unfold body. destruct (entry_payload s) as [[enc pl]|] eqn:Hp; [|cbn; lia]. pose proof (encoding_length enc (String.length s)).
  pose proof (payload_length s enc pl Hs Hp). rewrite length_app. lia.
Qed.

Lemma insert_spec zl A B s p :
  zlrep zl (A ++ B) -> short_str s -> p = (ZIPLIST_HEADER_SIZE + length (layout 0 A))%nat ->
  Z.of_nat (length zl + String.length s + 22 + 4 * length B) < 4294967296 ->
  exists zl' B', __ziplistInsert zl p s = Some zl' /\ ze_str <$> B' = ze_str <$> B /\
    zlrep zl' (A ++ mkZent s (bool_decide (254 <= last_len 0 A)%nat) :: B').
Proof.
  intros [(k & -> & Hk & Hcount) Hch Hsmall] Hs Hp Hmax. set (e := mkZent s (bool_decide (254 <= last_len 0 A)%nat)).
  rewrite layout_app in *. unfold __ziplistInsert. rewrite get_bytes_zbuf by done. cbn [mbind option_bind]. rewrite Nat2Z.id.
  rewrite insert_prevlen_spec by done. cbn [mbind option_bind].
  destruct (payload_spec s Hs) as (enc0 & enc & hd & pl & Hpay & Hhd & Hhd1 & Hlen & _). rewrite Hpay. cbn [mbind option_bind]. rewrite Hlen. cbn [mbind option_bind].
  rewrite <- Hhd, store_prev. change (bool_decide (254 <= last_len 0 A)%nat) with (ze_big e). rewrite length_prevb.
  assert (body s = hd ++ pl) as Hbody by (unfold body; by rewrite Hpay, Hhd).
  assert (length pl + psize (ze_big e) + length hd = elen e)%nat as -> by (unfold elen; cbn [ze_str e]; rewrite Hbody, length_app; lia).
  assert (elen e <= String.length s + 18)%nat as Hle by (unfold elen; pose proof (body_length s Hs); cbn [ze_str e]; destruct (ze_big e); cbn; lia).
  destruct (open_gap_spec k A B p Hp Hch Hsmall (elen e) (elen_pos e)) as (G & B' & HG & Hstr & HB' & -> & Hlay); [lia|]. cbn [mbind option_bind].
  assert (exists G1 G2 G3, G = G1 ++ G2 ++ G3 /\ length G1 = psize (ze_big e) /\ length G2 = length hd /\ length G3 = length pl) as (G1 & G2 & G3 & -> & H1 & H2 & H3).
  { exists (take (psize (ze_big e)) G), (take (length hd) (drop (psize (ze_big e)) G)), (drop (length hd) (drop (psize (ze_big e)) G)).
    assert (elen e = psize (ze_big e) + (length hd + length pl))%nat as He by (unfold elen; cbn [ze_str e]; by rewrite Hbody, length_app).
    rewrite !take_drop, !length_take, !length_drop, HG. split_and!; [done|lia..]. }
  set (t := match B' with [] => p | _ => tail_at (p + elen e) B' end).
  rewrite <- !app_assoc, (store_zbuf k t (layout 0 A) G1) by (done || by rewrite H1, length_prevb). cbn [mbind option_bind].
  rewrite (app_assoc (layout 0 A)), (store_zbuf k t (layout 0 A ++ prevb (ze_big e) (last_len 0 A)) G2) by (done || lens). cbn [mbind option_bind].
  rewrite (app_assoc (_ ++ _) hd), (store_zbuf k t ((layout 0 A ++ prevb (ze_big e) (last_len 0 A)) ++ hd) G3) by (done || lens). cbn [mbind option_bind].
  rewrite incr_length by done. eexists _, B'. split; [done|]. split; [done|].
  assert (((layout 0 A ++ prevb (ze_big e) (last_len 0 A)) ++ hd) ++ pl ++ layout (elen e) B' = layout 0 (A ++ e :: B')) as ->.
  { rewrite layout_app. cbn [layout]. unfold ebytes. cbn [ze_str e]. by rewrite Hbody, <- !app_assoc. }
  pose proof (last_len_le 0 A) as Hll. apply chain_app in Hch as [HchA _]. rewrite length_zbuf, length_app in Hsmall, Hmax. split.
  - eexists. split; [|split].
    + f_equal. unfold t. rewrite (tail_at_app _ 0), <- Hp. by rewrite tail_at_cons.
    + unfold UINT16_MAX in *. destruct (Z.ltb_spec k 65535); lia.
    + assert (length B' = length B) as HlB by (by rewrite <- (length_fmap ze_str B'), Hstr, length_fmap).
      unfold UINT16_MAX in *. destruct (Z.ltb_spec k 65535); [|lia]. intros _. rewrite Hcount, !length_app by lia. cbn [length]. lia.
  - apply chain_app. split; [done|]. cbn [chain]. split_and!; [|done|done]. split; [lia|]. intros Hb. apply bool_decide_eq_false in Hb. lia.
  - rewrite length_zbuf, layout_app. cbn [layout]. rewrite !length_app, length_ebytes. lia.
Qed.

(** ** Deletion *)

Lemma skip_entries_spec k t D :
  forall (P : list Z) q R p num d,
  chain q D -> p = (ZIPLIST_HEADER_SIZE + length P)%nat -> num = length D \/ (length D <= num /\ R = [])%nat ->
  skip_entries (zbuf k t (P ++ layout q D ++ R)) p num d = Some (p + length (layout q D), d + length D)%nat.
Proof.
  induction D as [|e D IH]; intros P q R p num d Hch Hp Hnum.
  - cbn [layout length app] in *. rewrite !Nat.add_0_r. destruct num as [|num]; cbn [skip_entries].
    + assert (is_Some (zbuf k t (P ++ R) !! p)) as [b ->] by (apply lookup_lt_is_Some; lens). done.
    + destruct Hnum as [Hnum|[_ ->]]; [done|]. rewrite app_nil_r, at_end by done. done.
  - destruct num as [|num]; [destruct Hnum; cbn in *; lia|]. cbn [skip_entries layout chain] in *. destruct Hch as (Hf & Hs & Hch). rewrite <- app_assoc.
    destruct (at_first k t P q e (layout (elen e) D ++ R) p Hp Hf) as (b & -> & Hb). cbn [mbind option_bind]. rewrite Hb.
    rewrite at_raw by done. cbn [mbind option_bind]. rewrite app_assoc, (IH (P ++ ebytes q e) (elen e) R); [|done|lens|cbn in Hnum; destruct Hnum; [left|right]; lia || naive_solver lia].
    do 2 f_equal; [lens|cbn [length]; lia].
Qed.

Lemma shrink_zbuf k t (C G : list Z) len : G <> [] -> len = length (zbuf k t C) -> ziplistResize (zbuf k t (C ++ G)) len = Some (zbuf k t C).
Proof.
  intros HG ->. destruct G as [|x G]; [done|]. unfold zbuf at 1. rewrite <- app_assoc, <- app_comm_cons. rewrite (resize_less _ _ _ C _ x); [|lens].
  unfold zbuf at 2. do 3 f_equal. lens.
Qed.

(** The first of the entries after the deleted ones, and its field. *)
Lemma close_gap_middle k (L M : list Z) q q2 n es first p totlen :
  fits_prev n q2 -> short_str (ze_str n) -> chain (elen n) es ->
  let p2 := (p + totlen)%nat in
  let zl := zbuf k (tail_at p2 (n :: es)) (L ++ M ++ layout q2 (n :: es)) in
  p = (ZIPLIST_HEADER_SIZE + length L)%nat -> totlen = length M -> ze_p first = p -> prevrawlen first = q -> Z.of_nat q < 4294967296 ->
  (0 < totlen)%nat -> ((254 <= q)%nat -> (5 <= totlen)%nat) -> Z.of_nat (length zl) < 4294967296 ->
  let n' := mkZent (ze_str n) (bool_decide (254 <= q)%nat) in
  let diff := Z.of_nat (psize (ze_big n')) - Z.of_nat (psize (ze_big n)) in
  exists G, Z.of_nat (length G) = Z.of_nat totlen - diff /\ 0 < Z.of_nat totlen - diff /\
    close_gap zl first p2 totlen = Some (zbuf k (tail_at p (n' :: es)) ((L ++ ebytes q n' ++ layout (elen n) es) ++ G), diff).
Proof.
  intros Hq2 Hs Hch p2 zl Hp Htot Hfp Hfq Hq Hpos H254 Hsmall n' diff. unfold close_gap, zl. cbn [layout] in *. rewrite (app_assoc L M).
  assert (p2 = ZIPLIST_HEADER_SIZE + length (L ++ M))%nat as Hp2 by lens.
  destruct (at_first k (tail_at p2 (n :: es)) (L ++ M) q2 n (layout (elen n) es) p2 Hp2 Hq2) as (b & -> & Hb). cbn [mbind option_bind]. rewrite Hb.
  rewrite zipPrevLenByteDiff_spec by done. cbn [mbind option_bind]. rewrite Hfp, Hfq, store_prev. change (bool_decide (254 <= q)%nat) with (ze_big n'). fold diff.
  assert (0 < Z.of_nat totlen - diff) as Hd.
  { unfold diff. cbn. case_bool_decide; [|destruct (ze_big n); cbn; lia]. specialize (H254 ltac:(done)). destruct (ze_big n); cbn; lia. }
  assert (length (prevb (ze_big n) q2) = psize (ze_big n)) as Hlp by apply length_prevb.
  assert (elen n' + psize (ze_big n) = elen n + psize (ze_big n'))%nat as Hn' by (unfold elen; cbn; lia).
  set (W := M ++ prevb (ze_big n) q2). set (i := Z.to_nat (Z.of_nat totlen - diff)). set (Y := ebytes q n' ++ layout (elen n) es).
  assert (length W = i + psize (ze_big n'))%nat as HW by (unfold W; rewrite length_app; lia).
  assert (length (take i W) = i) as HI by (rewrite length_take; lia). assert (length (drop i W) = psize (ze_big n')) as HJ by (rewrite length_drop; lia).
  assert (fits_prev n' q) as Hfit by (split; [done|]; cbn; intros ?%bool_decide_eq_false; lia).
  assert (elen n' = length (prevb (ze_big n') q) + length (body (ze_str n)))%nat as Hen' by (by rewrite length_prevb).
  replace (Z.to_nat (Z.of_nat p2 - diff)) with (p + i)%nat by lia.
  replace ((L ++ M) ++ ebytes q2 n ++ layout (elen n) es) with ((L ++ take i W) ++ drop i W ++ (body (ze_str n) ++ layout (elen n) es)).
  2:{ rewrite <- app_assoc, (app_assoc (take i W)), take_drop. unfold W, ebytes. by rewrite <- !app_assoc. }
  rewrite store_zbuf by (rewrite ?HJ, ?length_prevb, ?length_app; lia). cbn [mbind option_bind].
  replace ((L ++ take i W) ++ prevb (ze_big n') q ++ body (ze_str n) ++ layout (elen n) es) with ((L ++ take i W) ++ Y) by (unfold Y, ebytes; by rewrite <- !app_assoc).
  pose proof (tail_at_ge p2 (n :: es)) as Htg. pose proof (tail_at_lt p2 q2 n es) as Htl. cbn [layout] in Htl.
  assert (Z.of_nat (tail_at p2 (n :: es)) < 4294967296) as Hts by (unfold zl in Hsmall; lens).
  rewrite (shift_tail_spec k (tail_at p2 (n :: es)) (L ++ take i W) q n' (elen n) es (p + i) _ _ (tail_at p (n' :: es))); try done; [|lens|lia|].
  2:{ rewrite !tail_at_cons. destruct es as [|m es]; [lia|]. pose proof (tail_at_shift p (elen n') (m :: es)). pose proof (tail_at_shift p (totlen + elen n) (m :: es)) as Hsh.
      replace (p2 + elen n)%nat with (p + (totlen + elen n))%nat by lia. lia. }
  cbn [mbind option_bind]. fold Y. assert (length Y = elen n' + length (layout (elen n) es))%nat as HY by (unfold Y; lens).
  assert (length zl = ZIPLIST_HEADER_SIZE + length L + totlen + elen n + length (layout (elen n) es) + 1)%nat as Hzl by (unfold zl; lens).
  rewrite get_bytes_zbuf by lens. cbn [mbind option_bind]. rewrite Nat2Z.id.
  destruct (move_front (hdr (Z.of_nat (ZIPLIST_HEADER_SIZE + length ((L ++ take i W) ++ Y) + 1)) (Z.of_nat (tail_at p (n' :: es))) k ++ L) Y (take i W) [ZIP_END]
    p (p + i) (length (zbuf k (tail_at p (n' :: es)) ((L ++ take i W) ++ Y)) - (p + i) - 1)) as (G & HG & Hmove); [lens|lens|lens|].
  exists G. split; [lia|]. split; [done|].
  assert (zbuf k (tail_at p (n' :: es)) ((L ++ take i W) ++ Y) = (hdr (Z.of_nat (ZIPLIST_HEADER_SIZE + length ((L ++ take i W) ++ Y) + 1)) (Z.of_nat (tail_at p (n' :: es))) k ++ L) ++ take i W ++ Y ++ [ZIP_END]) as Hz
    by (unfold zbuf; by rewrite <- !app_assoc).
  rewrite Hz at 1. rewrite Hmove. cbn [mbind option_bind]. do 2 f_equal. unfold zbuf. rewrite <- !app_assoc. do 2 f_equal. lens.
Qed.

(** What is left when the entries [D] go: the rest with its new previous length. *)
Lemma close_gap_spec k A D B f p :
  chain 0 (A ++ D ++ B) -> D <> [] -> p = (ZIPLIST_HEADER_SIZE + length (layout 0 A))%nat ->
  let q := last_len 0 A in
  let zl := zbuf k (tail_at ZIPLIST_HEADER_SIZE (A ++ D ++ B)) (layout 0 A ++ layout q D ++ layout (last_len q D) B) in
  ze_p f = p -> prevrawlen f = q -> Z.of_nat (length zl) < 4294967296 ->
  exists (rest : option zent) G diff,
    close_gap zl f (p + length (layout q D)) (length (layout q D)) =
      Some (zbuf k (tail_at ZIPLIST_HEADER_SIZE (A ++ (match rest, B with Some n', _ :: es => n' :: es | _, _ => [] end)))
              ((layout 0 A ++ match rest, B with Some n', n :: es => ebytes q n' ++ layout (elen n) es | _, _ => [] end) ++ G), diff) /\
    Z.of_nat (length G) = Z.of_nat (length (layout q D)) - diff /\ (0 < length G)%nat /\
    match rest, B with
    | Some n', n :: es => ze_str n' = ze_str n /\ fits_prev n' q /\ diff = Z.of_nat (elen n') - Z.of_nat (elen n) /\ diff <= 4
    | None, [] => diff = 0
    | _, _ => False
    end.
Proof.
  intros Hch HD Hp q zl Hfp Hfq Hsmall. apply chain_app in Hch as [HA HDB]. apply chain_app in HDB as [HcD HcB]. fold q in HcD, HcB.
  assert (Z.of_nat q < 4294967296) as Hq by (pose proof (last_len_le 0 A); unfold zl in Hsmall; lens).
  assert (0 < length (layout q D))%nat as Hpos by (destruct D as [|d D]; [done|]; pose proof (length_layout_pos q d D); pose proof (elen_pos d); lia).
  destruct B as [|n es].
  - exists None, (layout q D), 0. unfold close_gap, zl. cbn [layout]. rewrite !app_nil_r. rewrite at_end by lens.
    cbn [mbind option_bind]. change (ZIP_END =? ZIP_END) with true. cbv iota. rewrite Hfp, Hfq.
    rewrite (put_tail_zbuf k _ (tail_at ZIPLIST_HEADER_SIZE A)); [split_and!; [done|lia|done|done]|].
    destruct A as [|e A' _] using rev_ind; [rewrite Hp; unfold q; cbn [last_len layout length tail_at]; lia|]. rewrite (tail_at_app _ 0). cbn [tail_at].
    unfold q. rewrite last_len_snoc, Hp, layout_app. cbn [layout]. rewrite app_nil_r. lens.
  - destruct HcB as (Hf & Hs & Hes). unfold zl. rewrite app_assoc, (tail_at_app _ 0), layout_app. fold q.
    destruct (close_gap_middle k (layout 0 A) (layout q D) q (last_len q D) n es f p (length (layout q D)) Hf Hs Hes Hp eq_refl Hfp Hfq Hq Hpos) as (G & HG & Hd & Hclose).
    { destruct D as [|d D]; [done|]. destruct HcD as ((_ & Hbig) & _). intros H254. pose proof (length_layout_pos q d D) as Hl. unfold elen in Hl.
      destruct (ze_big d); [cbn [psize] in Hl; lia|]. specialize (Hbig eq_refl). lia. }
    { unfold zl in Hsmall. lens. }
    rewrite length_app, Nat.add_assoc, <- Hp, Hclose. eexists (Some _), G, _. rewrite (tail_at_app _ 0), <- Hp. split_and!; [done|done|lia|done| | |].
    + split; [done|]. cbn. intros ?%bool_decide_eq_false. lia.
    + unfold elen. cbn. lia.
    + cbn. case_bool_decide; destruct (ze_big n); cbn; lia.
Qed.

Lemma delete_spec zl A D B p num :
  zlrep zl (A ++ D ++ B) -> D <> [] -> num = length D \/ (length D <= num /\ B = [])%nat -> p = (ZIPLIST_HEADER_SIZE + length (layout 0 A))%nat ->
  Z.of_nat (length zl + 4 + 4 * length B) < 4294967296 ->
  exists zl' B', __ziplistDelete zl p num = Some zl' /\ ze_str <$> B' = ze_str <$> B /\ zlrep zl' (A ++ B').
Proof.
  intros [(k & -> & Hk & Hcount) Hch Hsmall] HD Hnum Hp Hmax. set (q := last_len 0 A). rewrite !layout_app in *. fold q in Hsmall, Hmax |- *.
  pose proof Hch as [HA [HcD HcB]%chain_app]%chain_app. fold q in HcD, HcB. unfold __ziplistDelete.
  destruct D as [|d D]; [done|]. remember (tail_at ZIPLIST_HEADER_SIZE (A ++ (d :: D) ++ B)) as t.
  assert (exists f, zipEntry (zbuf k t (layout 0 A ++ layout q (d :: D) ++ layout (last_len q (d :: D)) B)) p = Some f /\ ze_p f = p /\ prevrawlen f = q) as (f & -> & Hfp & Hfq).
  { cbn [layout]. rewrite <- app_assoc. destruct HcD as (Hf & Hs & _).
    destruct (at_entry k t (layout 0 A) q d (layout (elen d) D ++ layout (last_len q (d :: D)) B) p Hp Hf Hs) as (f & Hf' & _ & Hpl & Hpp & _). by exists f. }
  cbn [mbind option_bind]. rewrite (skip_entries_spec k t (d :: D)) by (done || (destruct Hnum as [?|[? ->]]; [by left|right; done])). cbn [mbind option_bind].
  rewrite Hfp. replace (p + length (layout q (d :: D)) - p)%nat with (length (layout q (d :: D))) by lia.
  pose proof (length_layout_pos q d D) as Hld. pose proof (elen_pos d) as Hed. rewrite decide_True by lia. subst t.
  destruct (close_gap_spec k A (d :: D) B f p Hch HD Hp Hfp Hfq Hsmall) as (rest & G & diff & Hclose & HG & HG0 & Hrest). fold q in Hclose, HG, Hrest. rewrite Hclose.
  cbn [mbind option_bind]. assert (G <> []) as HGn by (destruct G; [cbn in HG0; lia|done]).
  set (k' := if k <? UINT16_MAX then k + - Z.of_nat (0 + length (d :: D)) else k).
  assert (forall B' : list zent, length B' = length B -> 0 <= k' <= UINT16_MAX /\ (k' < UINT16_MAX -> k' = Z.of_nat (length (A ++ B')))) as Hk'.
  { intros B' HB'. unfold k', UINT16_MAX in *. rewrite !length_app in *. cbn [length] in *. destruct (Z.ltb_spec k 65535); lia. }
  set (C := match rest, B with Some n', n :: es => ebytes q n' ++ layout (elen n) es | _, _ => [] end) in *.
  assert (Z.of_nat (length C) = Z.of_nat (length (layout (last_len q (d :: D)) B)) + diff) as HC.
  { unfold C. destruct rest as [n'|], B as [|n es]; try done. destruct Hrest as (_ & _ & -> & _). cbn [layout]. lens. }
  rewrite get_bytes_zbuf by lens. cbn [mbind option_bind]. rewrite shrink_zbuf by (done || lens). cbn [mbind option_bind].
  rewrite incr_length by done. fold k'. cbn [mbind option_bind]. destruct rest as [n'|], B as [|n es]; try done.
  - destruct Hrest as (Hstr & Hfit & Hdiff & H4). destruct HcB as (_ & Hs & Hes). destruct (Z.eqb_spec diff 0) as [Hz|Hnz].
    + assert (elen n' = elen n) as He by lia. eexists _, (n' :: es). split; [done|]. split; [cbn; by rewrite Hstr|]. split.
      * exists k'. split; [|by apply Hk']. f_equal. unfold C. rewrite layout_app. cbn [layout]. by rewrite He.
      * apply chain_app. split; [done|]. cbn [chain]. rewrite Hstr, He. by split_and!.
      * lens.
    + unfold C. rewrite (tail_at_app _ 0), <- Hp.
      destruct (cascade_update es (layout 0 A) q n' (elen n) k' p) as (es' & Hstr' & Hch' & -> & Hle); [done|by rewrite Hstr|done|done|unfold C in HC; lens|].
      eexists _, (n' :: es'). split; [done|]. split; [cbn; by rewrite Hstr, Hstr'|].
      assert (length es' = length es) as Hle' by (by rewrite <- (length_fmap ze_str es'), Hstr', length_fmap). split.
      * exists k'. split; [|apply Hk'; cbn; by rewrite Hle']. rewrite (tail_at_app _ 0), <- Hp, layout_app. done.
      * apply chain_app. split; [done|]. cbn [chain]. rewrite Hstr. by split_and!.
      * unfold C in HC. lens.
  - subst diff. cbn [Z.eqb]. eexists _, []. split; [done|]. split; [done|]. rewrite !app_nil_r. split.
    + exists k'. split; [|destruct (Hk' [] eq_refl) as [? Hkk]; rewrite app_nil_r in Hkk; done]. done.
    + done.
    + unfold C. lens.
Qed.
