(* ===== verification/ZiplistQuery.v ===== *)
(** * Reading ziplists ([ziplist.c])

    Pointers to entries by index from either end and by search, the steps between
    them, the values they hold and the length; and the updates, in terms of the
    list of strings. *)
From Stdlib Require Import ZArith Lia Ascii String.
From stdpp Require Import base numbers strings list.
From S2P Require Import Prelude Sds Intset Ziplist ZiplistRep ZiplistUpdate.
Open Scope Z_scope.

Implicit Types (e : zent) (es A B : list zent) (zl : buffer).

(** The pointer to entry [i]; to the end mark when there is none. *)
Definition off es (i : nat) : nat := (ZIPLIST_HEADER_SIZE + length (layout 0 (take i es)))%nat.

Lemma off_0 es : off es 0 = ZIPLIST_HEADER_SIZE.
Proof. unfold off. rewrite take_0. cbn [layout length]. lia. Qed.

Lemma off_app A B : off (A ++ B) (length A) = (ZIPLIST_HEADER_SIZE + length (layout 0 A))%nat.
Proof. unfold off. by rewrite take_app_length. Qed.

Lemma off_S es i e : es !! i = Some e -> off es (S i) = (off es i + elen e)%nat.
Proof. intros He. unfold off. rewrite (take_S_r _ _ _ He), layout_app. cbn [layout]. rewrite app_nil_r. lens. Qed.

Lemma ziplistNew_spec : exists zl, ziplistNew = Some zl /\ zlrep zl [].
Proof. eexists. split; [done|]. split; [exists 0; by split_and!|done|done]. Qed.

(** The buffer around entry [i]. *)
Section Entry.
Context zl es (Hz : zlrep zl es).

Lemma rep_at i e : es !! i = Some e ->
  exists k P R, zl = zbuf k (tail_at ZIPLIST_HEADER_SIZE es) (P ++ ebytes (last_len 0 (take i es)) e ++ R) /\
    off es i = (ZIPLIST_HEADER_SIZE + length P)%nat /\ fits_prev e (last_len 0 (take i es)) /\ short_str (ze_str e).
Proof.
  intros He. destruct Hz as [(k & -> & _) Hch _]. rewrite <- (take_drop_middle es i e He) in Hch. apply chain_app in Hch as [_ (Hf & Hs & _)].
  exists k, (layout 0 (take i es)), (layout (elen e) (drop (S i) es)). split_and!; [|done|done|done].
  rewrite <- (take_drop_middle es i e He) at 2. by rewrite layout_app.
Qed.

Lemma rep_end : zl !! off es (length es) = Some ZIP_END.
Proof. destruct Hz as [(k & -> & _) _ _]. apply at_end. unfold off. by rewrite firstn_all. Qed.

Lemma rep_first i e : es !! i = Some e -> exists b, zl !! off es i = Some b /\ (b =? ZIP_END) = false.
Proof. intros He. destruct (rep_at i e He) as (k & P & R & -> & Hp & Hf & _). by apply at_first. Qed.

Lemma rep_raw i e : es !! i = Some e -> zipRawEntryLength zl (off es i) = Some (elen e).
Proof. intros He. destruct (rep_at i e He) as (k & P & R & -> & Hp & Hf & Hs). by apply at_raw. Qed.

Lemma rep_prevlen i e : es !! i = Some e -> ZIP_DECODE_PREVLEN zl (off es i) = Some (psize (ze_big e), last_len 0 (take i es)).
Proof. intros He. destruct (rep_at i e He) as (k & P & R & -> & Hp & Hf & Hs). by apply at_prevlen. Qed.

Lemma rep_entry i e : es !! i = Some e ->
  exists en, zipEntry zl (off es i) = Some en /\
    read_value zl (off es i + headersize en) (encoding en) (zlen en) = Some (evalue (ze_str e)) /\
    ZIP_IS_STR (encoding en) = (match zipTryEncoding (ze_str e) with Some _ => false | None => true end) /\
    ZIP_DECODE_PREVLENSIZE zl (off es i) = Some (psize (ze_big e)) /\
    ZIP_DECODE_LENGTH zl (off es i + psize (ze_big e)) = Some (encoding en, lensize en, zlen en) /\
    headersize en = (psize (ze_big e) + lensize en)%nat /\ (headersize en + zlen en)%nat = elen e.
Proof.
  intros He. destruct (rep_at i e He) as (k & P & R & -> & Hp & Hf & Hs).
  destruct (at_entry k (tail_at ZIPLIST_HEADER_SIZE es) P _ e R _ Hp Hf Hs) as (en & Hen & _ & _ & _ & Hlen & Hread & Hstr & Hdec & Hh).
  exists en. split_and!; try done. by apply at_prevlensize.
Qed.

Lemma rep_tail : es <> [] -> ZIPLIST_ENTRY_TAIL zl = Some (off es (length es - 1)).
Proof.
  intros Hne. unfold ZIPLIST_ENTRY_TAIL. destruct Hz as [(k & -> & _) _ Hs]. destruct es as [|e A _] using rev_ind; [done|].
  rewrite (tail_at_app _ 0) in *. cbn [tail_at] in *. rewrite layout_app in *. rewrite get_tail_zbuf by lens. cbn [fmap option_fmap option_map]. rewrite Nat2Z.id.
  rewrite length_app. cbn [length]. rewrite Nat.add_sub. unfold off. by rewrite take_app_length.
Qed.

Lemma rep_tail_empty : es = [] -> ZIPLIST_ENTRY_TAIL zl = Some (off es 0).
Proof. intros ->. unfold ZIPLIST_ENTRY_TAIL. destruct Hz as [(k & -> & _) _ _]. by rewrite get_tail_zbuf. Qed.

(** ** By index *)

Lemma index_fwd_spec j : forall i, (i <= length es)%nat -> index_fwd zl (off es i) j = Some (if decide (i + j < length es)%nat then Some (off es (i + j)) else None).
Proof.
  induction j as [|j IH]; intros i Hi; cbn [index_fwd];
    (destruct (es !! i) as [e|] eqn:He; [destruct (rep_first i e He) as (b & -> & Hb)|
      apply lookup_ge_None in He; assert (i = length es) as -> by (apply Nat.le_antisymm; done); rewrite rep_end]); cbn [mbind option_bind].
  - rewrite Hb. apply lookup_lt_Some in He. rewrite Nat.add_0_r, decide_True by lia. done.
  - rewrite decide_False by lia. done.
  - rewrite Hb, (rep_raw i e He). cbn [mbind option_bind]. rewrite <- (off_S es i e He). apply lookup_lt_Some in He. rewrite IH by lia.
    by rewrite Nat.add_succ_comm.
  - rewrite decide_False by lia. done.
Qed.

Lemma index_back_spec j : forall i, (i < length es)%nat -> index_back zl (off es i) j = Some (if decide (j <= i)%nat then Some (off es (i - j)) else None).
Proof.
  induction j as [|j IH]; intros i Hi; cbn [index_back]; destruct (lookup_lt_is_Some_2 es i Hi) as [e He]; rewrite (rep_prevlen i e He); cbn [mbind option_bind].
  - destruct (rep_first i e He) as (b & -> & Hb). cbn [mbind option_bind]. rewrite Hb, Nat.sub_0_r, decide_True by lia. done.
  - destruct i as [|i]; [rewrite take_0; cbn [last_len]; rewrite !decide_False by lia; done|]. destruct (lookup_lt_is_Some_2 es i ltac:(lia)) as [a Ha].
    rewrite (take_S_r _ _ _ Ha), last_len_snoc, (off_S es i a Ha). pose proof (elen_pos a). rewrite decide_True by lia. rewrite Nat.add_sub, IH by lia.
    cbn [Nat.sub]. f_equal. do 2 case_decide; done || lia.
Qed.

(** Negative indices count from the end. *)
Definition index_of (i : Z) : option nat :=
  let n := Z.of_nat (length es) in
  if decide (0 <= i < n) then Some (Z.to_nat i) else if decide (- n <= i < 0) then Some (Z.to_nat (n + i)) else None.

Lemma ziplistIndex_spec (i : Z) : ziplistIndex zl i = Some (off es <$> index_of i).
Proof.
  unfold ziplistIndex, index_of. destruct (Z.ltb_spec i 0) as [Hi|Hi].
  - rewrite decide_False by lia. destruct (decide (es = [])) as [Hnil|Hne].
    + rewrite rep_tail_empty by done. cbn [mbind option_bind]. pose proof rep_end as Hend. replace (length es) with 0%nat in Hend |- * by (by rewrite Hnil).
      rewrite Hend. cbn [mbind option_bind].
      change (ZIP_END =? ZIP_END) with true. by rewrite decide_False by lia.
    + rewrite rep_tail by done. cbn [mbind option_bind]. assert (0 < length es)%nat as Hlen by (destruct es; [done|cbn; lia]).
      destruct (lookup_lt_is_Some_2 es (length es - 1) ltac:(lia)) as [e He]. destruct (rep_first _ e He) as (b & -> & Hb). cbn [mbind option_bind]. rewrite Hb.
      rewrite index_back_spec by lia. destruct (decide (- Z.of_nat (length es) <= i < 0)).
      * rewrite decide_True by lia. cbn [fmap option_fmap option_map]. do 2 f_equal. apply f_equal. lia.
      * rewrite decide_False by lia. done.
  - rewrite <- (off_0 es), index_fwd_spec by lia. cbn [Nat.add]. destruct (decide (0 <= i < Z.of_nat (length es))).
    + by rewrite decide_True by lia.
    + by rewrite !decide_False by lia.
Qed.

(** ** Steps *)

Lemma ziplistNext_spec i : (i <= length es)%nat -> ziplistNext zl (off es i) = Some (if decide (S i < length es)%nat then Some (off es (S i)) else None).
Proof.
  intros Hi. unfold ziplistNext. destruct (es !! i) as [e|] eqn:He.
  - destruct (rep_first i e He) as (b & -> & Hb). cbn [mbind option_bind]. rewrite Hb, (rep_raw i e He). cbn [mbind option_bind]. rewrite <- (off_S es i e He).
    destruct (es !! S i) as [e'|] eqn:He'.
    + destruct (rep_first (S i) e' He') as (b' & -> & Hb'). cbn [mbind option_bind]. rewrite Hb'. apply lookup_lt_Some in He'. by rewrite decide_True.
    + apply lookup_lt_Some in He. apply lookup_ge_None in He'. assert (S i = length es) as -> by lia. rewrite rep_end. cbn [mbind option_bind].
      by rewrite decide_False by lia.
  - apply lookup_ge_None in He. assert (i = length es) as -> by lia. rewrite rep_end. cbn [mbind option_bind]. by rewrite decide_False by lia.
Qed.

Lemma ziplistPrev_spec i : (i <= length es)%nat -> ziplistPrev zl (off es i) = Some (match i with O => None | S j => Some (off es j) end).
Proof.
  intros Hi. unfold ziplistPrev. destruct (es !! i) as [e|] eqn:He.
  - destruct (rep_first i e He) as (b & -> & Hb). cbn [mbind option_bind]. rewrite Hb. apply lookup_lt_Some in He as Hlt. destruct i as [|j].
    + by rewrite off_0, decide_True.
    + destruct (lookup_lt_is_Some_2 es j ltac:(lia)) as [a Ha]. rewrite (rep_prevlen _ e He), (take_S_r _ _ _ Ha), last_len_snoc. cbn [mbind option_bind].
      rewrite (off_S es j a Ha). pose proof (elen_pos a). rewrite decide_False by (unfold off; lia). rewrite decide_True by lia. do 2 f_equal. lia.
  - apply lookup_ge_None in He. assert (i = length es) as -> by lia. rewrite rep_end. cbn [mbind option_bind]. change (ZIP_END =? ZIP_END) with true. cbv iota.
    destruct (decide (es = [])) as [Hnil|Hne].
    + rewrite rep_tail_empty by done. cbn [mbind option_bind]. pose proof rep_end as Hend. replace (length es) with 0%nat in Hend |- * by (by rewrite Hnil).
      by rewrite Hend.
    + rewrite rep_tail by done. cbn [mbind option_bind]. destruct (length es) as [|j] eqn:Hlen; [by apply nil_length_inv in Hlen|].
      destruct (lookup_lt_is_Some_2 es j ltac:(lia)) as [a Ha]. cbn [Nat.sub]. rewrite Nat.sub_0_r. destruct (rep_first j a Ha) as (b & -> & Hb).
      cbn [mbind option_bind]. by rewrite Hb.
Qed.

(** ** Values *)

Lemma ziplistGet_spec i e : es !! i = Some e -> ziplistGet zl (off es i) = Some (Some (evalue (ze_str e))).
Proof.
  intros He. unfold ziplistGet. destruct (rep_first i e He) as (b & -> & Hb). cbn [mbind option_bind]. rewrite Hb.
  destruct (rep_entry i e He) as (en & -> & Hread & _). cbn [mbind option_bind]. unfold read_value in Hread. destruct (ZIP_IS_STR _).
  - destruct (load _ _ _) as [v|]; [|done]. injection Hread as <-. done.
  - destruct (zipLoadInteger _ _ _) as [v|]; [|done]. injection Hread as <-. done.
Qed.
End Entry.

(** The value determines the string. *)
Lemma bytes_inj s s' : byteZ <$> chars s = byteZ <$> chars s' -> s = s'.
Proof.
  intros H. apply list_fmap_eq_inj in H; [|intros ??; apply byteZ_inj]. unfold chars in H.
  by rewrite <- (string_of_list_ascii_of_string s), H, string_of_list_ascii_of_string.
Qed.

Lemma evalue_inj s s' : evalue s = evalue s' -> s = s'.
Proof.
  unfold evalue. destruct (zipTryEncoding s) as [[v enc]|] eqn:H1, (zipTryEncoding s') as [[v' enc']|] eqn:H2; intros [= H].
  - apply try_encoding in H1 as (_ & _ & <-). apply try_encoding in H2 as (_ & _ & <-). by rewrite H.
  - by apply bytes_inj.
Qed.

(** ** Comparing *)

Lemma load_length zl (p n : nat) b : load zl p n = Some b -> length b = n.
Proof. unfold load. case_decide; [|done]. intros [= <-]. rewrite length_take, length_drop. lia. Qed.

(** The comparison of an entry with a string, as [ziplistCompare] and
    [ziplistFind] make it. *)
Lemma compare_value zl (q : nat) enc len x s :
  read_value zl q enc len = Some (evalue x) -> ZIP_IS_STR enc = match zipTryEncoding x with Some _ => false | None => true end ->
  (if ZIP_IS_STR enc then
     if decide (len = String.length s) then str ← load zl q len; Some (bool_decide (str = byteZ <$> chars s)) else Some false
   else
     match zipTryEncoding s with
     | Some (sval, _) => zval ← zipLoadInteger zl q enc; Some (zval =? sval)
     | None => Some false
     end) = Some (bool_decide (x = s)).
Proof.
  unfold read_value, evalue. intros Hread Hstr. destruct (zipTryEncoding x) as [[v venc]|] eqn:Hx; rewrite Hstr in *.
  - destruct (zipLoadInteger zl q enc) as [z|]; [|done]. injection Hread as ->. destruct (zipTryEncoding s) as [[v' venc']|] eqn:Hs; cbn [mbind option_bind].
    + f_equal. apply try_encoding in Hx as (Hv & _ & <-). apply try_encoding in Hs as (Hv' & _ & <-). apply eq_true_iff_eq. rewrite Z.eqb_eq, bool_decide_eq_true.
      split; [by intros ->|]. intros Heq. apply (f_equal string2ll) in Heq. rewrite !string2ll_print in Heq by done. congruence.
    + f_equal. symmetry. apply bool_decide_eq_false. intros ->. congruence.
  - destruct (load zl q len) as [b|] eqn:Hload; [|done]. injection Hread as ->. apply load_length in Hload. rewrite length_fmap, length_chars in Hload.
    destruct (decide (len = String.length s)) as [Hlen|Hlen]; cbn [mbind option_bind]; f_equal.
    + apply bool_decide_ext. split; [apply bytes_inj|by intros ->].
    + symmetry. apply bool_decide_eq_false. intros ->. congruence.
Qed.

Fixpoint find_every (skip cnt : nat) (l : list sds) (s : sds) : option nat :=
  match l with
  | [] => None
  | x :: l =>
      match cnt with
      | O => if decide (x = s) then Some 0%nat else S <$> find_every skip skip l s
      | S cnt => S <$> find_every skip cnt l s
      end
  end.

Section Search.
Context zl es (Hz : zlrep zl es).

Lemma ziplistCompare_spec i e s : es !! i = Some e -> ziplistCompare zl (off es i) s = Some (bool_decide (ze_str e = s)).
Proof.
  intros He. unfold ziplistCompare. destruct (rep_first zl es Hz i e He) as (b & -> & Hb). cbn [mbind option_bind]. rewrite Hb.
  destruct (rep_entry zl es Hz i e He) as (en & -> & Hread & Hstr & _). cbn [mbind option_bind]. by apply compare_value.
Qed.

Lemma find_loop_spec fuel s skip : forall i cnt,
  (i <= length es)%nat -> (length es < fuel + i)%nat ->
  find_loop fuel zl (off es i) s skip cnt = Some ((fun j => off es (i + j)) <$> find_every skip cnt (ze_str <$> drop i es) s).
Proof.
  induction fuel as [|fuel IH]; intros i cnt Hi Hf; [lia|]. cbn [find_loop]. destruct (es !! i) as [e|] eqn:He.
  2:{ apply lookup_ge_None in He. assert (i = length es) as -> by lia. rewrite (rep_end zl es Hz), drop_all. done. }
  destruct (rep_first zl es Hz i e He) as (b & -> & Hb). cbn [mbind option_bind]. rewrite Hb.
  destruct (rep_entry zl es Hz i e He) as (en & _ & Hread & Hstr & -> & Hdec & Hh & Hlen). cbn [mbind option_bind]. rewrite Hdec. cbn [mbind option_bind].
  replace (off es i + psize (ze_big e) + lensize en)%nat with (off es i + headersize en)%nat by lia.
  replace (off es i + headersize en + zlen en)%nat with (off es (S i)) by (rewrite (off_S es i e He); lia).
  rewrite (drop_S es e i He). cbn [fmap list_fmap find_every]. apply lookup_lt_Some in He as Hlt.
  assert (forall c, find_loop fuel zl (off es (S i)) s skip c = Some ((fun j => off es (i + j)) <$> (S <$> find_every skip c (ze_str <$> drop (S i) es) s))) as Hnext.
  { intros c. rewrite IH by lia. f_equal. destruct (find_every _ _ _ _) as [j|]; cbn [fmap option_fmap option_map]; [|done]. by rewrite Nat.add_succ_comm. }
  destruct cnt as [|cnt]; [|apply Hnext].
  rewrite (compare_value _ _ _ _ (ze_str e) s Hread Hstr). cbn [mbind option_bind]. case_bool_decide as Heq.
  - rewrite decide_True by done. cbn [fmap option_fmap option_map]. by rewrite Nat.add_0_r.
  - rewrite decide_False by done. apply Hnext.
Qed.

Lemma count_le : (length es < length zl)%nat.
Proof.
  destruct Hz as [(k & -> & _) _ _]. rewrite length_zbuf. pose proof (count_layout 0 es). lia.
Qed.

Lemma ziplistFind_spec i s skip :
  (i <= length es)%nat -> ziplistFind zl (off es i) s skip = Some ((fun j => off es (i + j)) <$> find_every skip 0 (ze_str <$> drop i es) s).
Proof. intros Hi. apply find_loop_spec; [done|]. pose proof count_le. lia. Qed.

Lemma len_loop_spec fuel : forall i n, (i <= length es)%nat -> (length es < fuel + i)%nat -> len_loop fuel zl (off es i) n = Some (n + (length es - i))%nat.
Proof.
  induction fuel as [|fuel IH]; intros i n Hi Hf; [lia|]. cbn [len_loop]. destruct (es !! i) as [e|] eqn:He.
  - destruct (rep_first zl es Hz i e He) as (b & -> & Hb). cbn [mbind option_bind]. rewrite Hb, (rep_raw zl es Hz i e He). cbn [mbind option_bind].
    rewrite <- (off_S es i e He). apply lookup_lt_Some in He. rewrite IH by lia. f_equal. lia.
  - apply lookup_ge_None in He. assert (i = length es) as -> by lia. rewrite (rep_end zl es Hz). cbn. f_equal. lia.
Qed.

Lemma ziplistLen_spec : exists zl', ziplistLen zl = Some (zl', length es) /\ zlrep zl' es.
Proof.
  unfold ziplistLen. pose proof count_le as Hc. destruct Hz as [(k & Hzl & Hk & Hcount) Hch Hsmall]. unfold UINT16_MAX in *.
  assert (ZIPLIST_LENGTH zl = Some k) as -> by (rewrite Hzl; apply get_length; lia). cbn [mbind option_bind]. unfold UINT16_MAX.
  destruct (Z.ltb_spec k 65535) as [Hlt|Hge].
  - exists zl. rewrite Hcount, Nat2Z.id by done. done.
  - rewrite <- (off_0 es), len_loop_spec by lia. cbn [mbind option_bind]. rewrite Nat.sub_0_r, Nat.add_0_l.
    destruct (Z.ltb_spec (Z.of_nat (length es)) 65535) as [Hl|Hl]; [|by exists zl].
    rewrite Hzl. unfold zbuf. rewrite put_length. cbn [mbind option_bind]. eexists. split; [done|]. split; [|done|].
    + exists (Z.of_nat (length es)). unfold UINT16_MAX. split_and!; [done|lia|lia|done].
    + rewrite Hzl in Hsmall. lens.
Qed.
End Search.

(** What a search finds: the first match among every [skip + 1]-th string. *)
Lemma find_every_spec skip l s : forall cnt,
  match find_every skip cnt l s with
  | Some j => l !! j = Some s /\ (exists m, j = cnt + m * S skip)%nat /\ forall m, (cnt + m * S skip < j)%nat -> l !! (cnt + m * S skip)%nat <> Some s
  | None => forall m, l !! (cnt + m * S skip)%nat <> Some s
  end.
Proof.
  induction l as [|x l IH]; intros cnt; cbn [find_every]; [done|]. destruct cnt as [|cnt].
  - case_decide as Hx; [subst x; split_and!; [done|by exists 0%nat|lia]|]. specialize (IH skip). destruct (find_every skip skip l s) as [j|]; cbn [fmap option_fmap option_map].
    + destruct IH as (Hj & (m & ->) & Hno). split_and!; [done|exists (S m); lia|]. intros [|m'] Hm; [cbn; congruence|].
      replace (0 + S m' * S skip)%nat with (S (skip + m' * S skip)) in * by lia. cbn [lookup list_lookup]. apply Hno. lia.
    + intros [|m]; [cbn; congruence|]. replace (0 + S m * S skip)%nat with (S (skip + m * S skip)) by lia. apply IH.
  - specialize (IH cnt). destruct (find_every skip cnt l s) as [j|]; cbn [fmap option_fmap option_map].
    + destruct IH as (Hj & (m & ->) & Hno). split_and!; [done|exists m; lia|]. intros m' Hm. apply (Hno m'). lia.
    + intros m. apply IH.
Qed.

(** ** Updates on the list of strings *)

Abbreviation strs es := (ze_str <$> es).

Lemma ziplistInsert_spec zl es i s :
  zlrep zl es -> short_str s -> (i <= length es)%nat -> Z.of_nat (length zl + String.length s + 22 + 4 * length es) < 4294967296 ->
  exists zl' es', ziplistInsert zl (off es i) s = Some zl' /\ zlrep zl' es' /\ strs es' = take i (strs es) ++ s :: drop i (strs es).
Proof.
  intros Hz Hs Hi Hmax. rewrite <- (take_drop i es) in Hz.
  destruct (insert_spec zl (take i es) (drop i es) s (off es i) Hz Hs eq_refl) as (zl' & B & Hins & HB & Hz').
  { rewrite length_drop. lia. }
  exists zl', (take i es ++ mkZent s (bool_decide (254 <= last_len 0 (take i es))%nat) :: B). split_and!; [done..|].
  rewrite fmap_app, fmap_cons, HB, fmap_take, fmap_drop. done.
Qed.

Lemma ziplistPush_spec zl es s (head : bool) :
  zlrep zl es -> short_str s -> Z.of_nat (length zl + String.length s + 22 + 4 * length es) < 4294967296 ->
  exists zl' es', ziplistPush zl s head = Some zl' /\ zlrep zl' es' /\ strs es' = if head then s :: strs es else strs es ++ [s].
Proof.
  intros Hz Hs Hmax. unfold ziplistPush. destruct head.
  - rewrite <- (off_0 es). cbn [mbind option_bind]. by apply (ziplistInsert_spec zl es 0 s Hz Hs ltac:(lia)).
  - assert (ZIPLIST_ENTRY_END zl = Some (off es (length es))) as ->.
    { destruct Hz as [(k & -> & _) _ Hsmall]. unfold ZIPLIST_ENTRY_END. rewrite get_bytes_zbuf by done. cbn [mbind option_bind]. f_equal.
      unfold off. rewrite firstn_all, length_zbuf. lia. }
    cbn [mbind option_bind]. destruct (ziplistInsert_spec zl es (length es) s Hz Hs ltac:(lia) Hmax) as (zl' & es' & Hins & Hz' & Hstr).
    exists zl', es'. split_and!; [done..|]. rewrite Hstr, <- (length_fmap ze_str es), firstn_all, drop_all. done.
Qed.

Lemma ziplistDelete_at zl es i num :
  zlrep zl es -> (i < length es)%nat -> (0 < num)%nat -> Z.of_nat (length zl + 4 + 4 * length es) < 4294967296 ->
  exists zl' es', __ziplistDelete zl (off es i) num = Some zl' /\ zlrep zl' es' /\ strs es' = take i (strs es) ++ drop (i + num) (strs es) /\
    off es' i = off es i.
Proof.
  intros Hz Hi Hnum Hmax. assert (es = take i es ++ take num (drop i es) ++ drop (i + num) es) as Hsplit by (by rewrite <- drop_drop, !take_drop).
  assert (length (take num (drop i es)) = Nat.min num (length es - i)) as Hlen by (rewrite length_take, length_drop; lia).
  rewrite Hsplit in Hz. destruct (delete_spec zl (take i es) (take num (drop i es)) (drop (i + num) es) (off es i) num Hz) as (zl' & B & Hdel & HB & Hz').
  - intros Hnil. rewrite Hnil in Hlen. cbn in Hlen. lia.
  - destruct (decide (i + num <= length es)%nat); [left; lia|right]. split; [lia|]. apply drop_ge. lia.
  - done.
  - rewrite length_drop. lia.
  - exists zl', (take i es ++ B). split_and!; [done..| |]; [by rewrite fmap_app, HB, fmap_take, fmap_drop|].
    unfold off. rewrite take_app_le by (rewrite length_take; lia). by rewrite take_take, Nat.min_id.
Qed.

Lemma ziplistDeleteRange_spec zl es (index : Z) num :
  zlrep zl es -> (0 < num)%nat -> Z.of_nat (length zl + 4 + 4 * length es) < 4294967296 ->
  exists zl' es', ziplistDeleteRange zl index num = Some zl' /\ zlrep zl' es' /\
    strs es' = match index_of es index with Some i => take i (strs es) ++ drop (i + num) (strs es) | None => strs es end.
Proof.
  intros Hz Hnum Hmax. unfold ziplistDeleteRange. rewrite (ziplistIndex_spec zl es Hz). cbn [mbind option_bind].
  destruct (index_of es index) as [i|] eqn:Hi; cbn [fmap option_fmap option_map]; [|by exists zl, es].
  destruct (ziplistDelete_at zl es i num Hz) as (zl' & es' & ? & ? & ? & _); [|done|done|by exists zl', es'].
  unfold index_of in Hi. repeat case_decide; simplify_eq; lia.
Qed.
