(* ===== verification/ZiplistMerge.v ===== *)
(** * Merging ziplists ([ziplist.c])

    The second list goes behind the first, in the buffer of the longer one, and
    the cascade mends the place where they meet. *)
From Stdlib Require Import ZArith Lia Ascii String.
From stdpp Require Import base numbers strings list.
From S2P Require Import Prelude Sds Intset Ziplist ZiplistRep ZiplistUpdate.
Open Scope Z_scope.

Implicit Types (e : zent) (es A B : list zent) (zl : buffer).

Lemma get_length_zbuf k t C : 0 <= k <= UINT16_MAX -> ZIPLIST_LENGTH (zbuf k t C) = Some k.
Proof. unfold UINT16_MAX. intros Hk. apply get_length. lia. Qed.

(** The entries of both, whichever buffer is extended. *)
Lemma merge_bytes k1 t1 C1 k2 t2 C2 (zlbytes zllength tail : Z) (f : buffer -> option (option buffer)) :
  let first := zbuf k1 t1 C1 in
  let second := zbuf k2 t2 C2 in
  zlbytes = Z.of_nat (ZIPLIST_HEADER_SIZE + length (C1 ++ C2) + 1) ->
  (target ← (if k2 <=? k1 then
         let target := resize (Z.to_nat zlbytes) 0 first in
         b ← load second ZIPLIST_HEADER_SIZE (length second - ZIPLIST_HEADER_SIZE);
         store target (length first - 1) b
       else
         let target := resize (Z.to_nat zlbytes) 0 second in
         target ← move target (length first - 1) ZIPLIST_HEADER_SIZE (length second - ZIPLIST_HEADER_SIZE);
         b ← load first 0 (length first - 1);
         store target 0 b);
   target ← set_bytes target zlbytes;
   target ← set_length target zllength;
   target ← set_tail_offset target tail;
   f target) = f (hdr zlbytes tail zllength ++ (C1 ++ C2) ++ [ZIP_END]).
Proof.
  intros first second Hb. subst zlbytes. rewrite Nat2Z.id.
  assert (length first = ZIPLIST_HEADER_SIZE + length C1 + 1)%nat as H1 by apply length_zbuf.
  assert (length second = ZIPLIST_HEADER_SIZE + length C2 + 1)%nat as H2 by apply length_zbuf.
  assert (exists n t k, (if k2 <=? k1 then
      let target := resize (ZIPLIST_HEADER_SIZE + length (C1 ++ C2) + 1) 0 first in
      b ← load second ZIPLIST_HEADER_SIZE (length second - ZIPLIST_HEADER_SIZE); store target (length first - 1) b
    else
      let target := resize (ZIPLIST_HEADER_SIZE + length (C1 ++ C2) + 1) 0 second in
      target ← move target (length first - 1) ZIPLIST_HEADER_SIZE (length second - ZIPLIST_HEADER_SIZE);
      b ← load first 0 (length first - 1); store target 0 b) = Some (hdr n t k ++ (C1 ++ C2) ++ [ZIP_END])) as (n & t & k & ->).
  { cbv zeta. rewrite (resize_grow first), (resize_grow second) by (rewrite length_app; lia). unfold first, second, zbuf. destruct (k2 <=? k1).
    - eexists _, _, _. rewrite <- (app_nil_r (C2 ++ [ZIP_END])), load_mid by lens. cbn [mbind option_bind].
      rewrite <- !app_assoc, (app_assoc _ C1), store_end; [by rewrite <- !app_assoc|lens|]. rewrite !length_app, length_replicate. lens.
    - eexists _, _, _. set (T := replicate _ 0). assert (length T = length C1) as HT by (unfold T; rewrite length_replicate; lens).
      destruct (move_back (hdr (Z.of_nat (ZIPLIST_HEADER_SIZE + length C2 + 1)) (Z.of_nat t2) k2) (C2 ++ [ZIP_END]) T []
        (length (hdr (Z.of_nat (ZIPLIST_HEADER_SIZE + length C1 + 1)) (Z.of_nat t1) k1 ++ C1 ++ [ZIP_END]) - 1) ZIPLIST_HEADER_SIZE
        (length (hdr (Z.of_nat (ZIPLIST_HEADER_SIZE + length C2 + 1)) (Z.of_nat t2) k2 ++ C2 ++ [ZIP_END]) - ZIPLIST_HEADER_SIZE)) as (G & HG & Hmove); [lens..|].
      rewrite !app_nil_r, <- app_assoc in Hmove. rewrite <- !app_assoc, Hmove. cbn [mbind option_bind].
      rewrite (app_assoc _ C1), load_front by lens. cbn [mbind option_bind]. rewrite (app_assoc _ G), store_front by lens. by rewrite <- !app_assoc. }
  cbn [mbind option_bind]. rewrite put_bytes. cbn [mbind option_bind]. rewrite put_length. cbn [mbind option_bind]. by rewrite put_tail.
Qed.

Lemma tail_at_one n e : tail_at n [e] = n.
Proof. done. Qed.

Lemma layout_one prev e : layout prev [e] = ebytes prev e.
Proof. apply app_nil_r. Qed.

Lemma ziplistMerge_spec zl1 zl2 A B :
  zlrep zl1 A -> zlrep zl2 B -> B <> [] -> Z.of_nat (length zl1 + length zl2 + 4 * length B) < 4294967296 ->
  exists zl es, ziplistMerge false zl1 zl2 = Some (Some zl) /\ zlrep zl es /\ ze_str <$> es = (ze_str <$> A) ++ (ze_str <$> B).
Proof.
  intros [(k1 & -> & Hk1 & Hc1) Hch1 Hs1] [(k2 & -> & Hk2 & Hc2) Hch2 Hs2] HB Hmax. unfold ziplistMerge.
  assert (forall es, Z.of_nat (length (zbuf 0 0 (layout 0 es))) < 4294967296 -> Z.of_nat (tail_at ZIPLIST_HEADER_SIZE es) < 4294967296) as Htail.
  { intros [|e es] Hl; [done|]. pose proof (tail_at_lt ZIPLIST_HEADER_SIZE 0 e es). lens. }
  assert (Z.of_nat (tail_at ZIPLIST_HEADER_SIZE A) < 4294967296) as Ht1 by (apply Htail; rewrite length_zbuf in *; done).
  assert (Z.of_nat (tail_at ZIPLIST_HEADER_SIZE B) < 4294967296) as Ht2 by (apply Htail; rewrite length_zbuf in *; done).
  rewrite !get_bytes_zbuf, !get_length_zbuf, !get_tail_zbuf by done. cbn [mbind option_bind]. rewrite !Nat2Z.id.
  rewrite merge_bytes by lens.
  set (k := if k1 + k2 <? UINT16_MAX then k1 + k2 else UINT16_MAX).
  assert (forall B' : list zent, length B' = length B -> 0 <= k <= UINT16_MAX /\ (k < UINT16_MAX -> k = Z.of_nat (length (A ++ B')))) as Hk.
  { intros B' HB'. unfold k, UINT16_MAX in *. rewrite length_app. destruct (Z.ltb_spec (k1 + k2) 65535); lia. }
  pose proof (tail_at_ge ZIPLIST_HEADER_SIZE B) as Htg.
  assert (hdr (Z.of_nat (length (zbuf k1 (tail_at ZIPLIST_HEADER_SIZE A) (layout 0 A))) + Z.of_nat (length (zbuf k2 (tail_at ZIPLIST_HEADER_SIZE B) (layout 0 B))) - Z.of_nat ZIPLIST_HEADER_SIZE - 1)
      (Z.of_nat (length (zbuf k1 (tail_at ZIPLIST_HEADER_SIZE A) (layout 0 A))) - 1 + (Z.of_nat (tail_at ZIPLIST_HEADER_SIZE B) - Z.of_nat ZIPLIST_HEADER_SIZE)) k ++
      (layout 0 A ++ layout 0 B) ++ [ZIP_END] = zbuf k (length (layout 0 A) + tail_at ZIPLIST_HEADER_SIZE B) (layout 0 A ++ layout 0 B)) as ->.
  { unfold zbuf at 4. rewrite !length_zbuf. f_equal. f_equal; lens. }
  destruct B as [|b B]; [done|]. destruct A as [|a A _] using rev_ind.
  - change (length (layout 0 []) + tail_at ZIPLIST_HEADER_SIZE (b :: B))%nat with (tail_at ZIPLIST_HEADER_SIZE (b :: B)).
    change (tail_at ZIPLIST_HEADER_SIZE []) with ZIPLIST_HEADER_SIZE. change (layout 0 [] ++ layout 0 (b :: B)) with (ebytes 0 b ++ layout (elen b) B). destruct Hch2 as (Hf & Hs & Hch2).
    destruct (cascade_update B [] 0 b (elen b) k ZIPLIST_HEADER_SIZE Hf Hs Hch2 eq_refl) as (B' & Hstr & Hch' & Hcas & Hle); [cbn [app layout] in *; lens|].
    cbn [app] in Hcas. rewrite Hcas. cbn [mbind option_bind]. eexists _, (b :: B'). split; [done|].
    assert (length B' = length B) as HlB by (by rewrite <- (length_fmap ze_str B'), Hstr, length_fmap).
    split; [|cbn; by rewrite Hstr]. split; [|by split_and!|].
    + exists k. split; [done|]. apply (Hk (b :: B')). cbn. by rewrite HlB.
    + cbn [layout] in *. lens.
  - rewrite (tail_at_app _ 0 A), tail_at_one, layout_app, layout_one in *. apply chain_app in Hch1 as [HchA (Hf & Hs & _)].
    set (q := last_len 0 A) in *. set (p := (ZIPLIST_HEADER_SIZE + length (layout 0 A))%nat).
    rewrite <- (app_assoc (layout 0 A)).
    assert (length (layout 0 A ++ ebytes q a) + tail_at ZIPLIST_HEADER_SIZE (b :: B) = tail_at p (a :: b :: B))%nat as ->.
    { rewrite (tail_at_cons p a). cbv iota. unfold p. replace (ZIPLIST_HEADER_SIZE + length (layout 0 A) + elen a)%nat with (ZIPLIST_HEADER_SIZE + (length (layout 0 A) + elen a))%nat by lia.
      rewrite tail_at_shift. lens. }
    destruct (cascade_update (b :: B) (layout 0 A) q a 0 k p Hf Hs Hch2 eq_refl) as (B' & Hstr & Hch' & -> & Hle); [cbn [layout] in *; lens|].
    cbn [mbind option_bind]. eexists _, ((A ++ [a]) ++ B'). split; [done|].
    assert (length B' = length (b :: B)) as HlB by (by rewrite <- (length_fmap ze_str B'), Hstr, length_fmap).
    split; [|by rewrite fmap_app, Hstr]. split.
    + exists k. split; [|by apply (Hk B')]. rewrite <- !(app_assoc A). cbn [app]. by rewrite (tail_at_app _ 0 A), layout_app.
    + rewrite <- (app_assoc A). by apply chain_app.
    + cbn [layout] in *. lens.
Qed.

(** An empty second list: the offset of the last entry becomes that of the end
    mark, and the list looks empty from its end. *)
Lemma merge_with_empty :
  (none ← ziplistNew;
   one ← ziplistPush none "a" false;
   merged ← ziplistMerge false one none;
   zl ← merged;
   first ← ziplistIndex zl 0;
   last ← ziplistIndex zl (-1);
   Some (first, last)) = Some (Some ZIPLIST_HEADER_SIZE, None).
Proof. by vm_compute. Qed.
