(* ===== verification/HashType.v ===== *)
(** * Hash objects ([t_hash.c], [object.c])

    A hash is a ziplist of alternating fields and values while it is small, and a
    hash table of strings from then on.  The replicated types keep their metadata
    in such objects.  An assertion that fails is [None].  The flags of
    [hashTypeSet] only say who owns the two strings. *)
From Stdlib Require Import ZArith Lia Ascii String.
From S2P Require Import Dict DictMap DictIter.
From stdpp Require Import base numbers strings gmap list.
From S2P Require Import Prelude Sds Intset Ziplist.
Open Scope Z_scope.

(** The object: the encoding and what [ptr] points to. *)
Inductive hobj := HZiplist (zl : buffer) | HHT (d : Dict.dict sds sds).

#[global] Instance dictht_eq_dec {K V} `{EqDecision K, EqDecision V} : EqDecision (Dict.dictht K V).
Proof. solve_decision. Defined.
#[global] Instance dict_eq_dec {K V} `{EqDecision K, EqDecision V} : EqDecision (Dict.dict K V).
Proof. solve_decision. Defined.
#[global] Instance hobj_eq_dec : EqDecision hobj.
Proof. solve_decision. Defined.

(** What the pointers [vstr], [vlen] and [vll] receive: a string or a number. *)
Abbreviation hval := (list Z + Z)%type.

(** An iterator: the two cursors into a ziplist; the iterator of a hash table and
    the entry it is at. *)
Inductive hashTypeIterator :=
  | ZlIter (fptr vptr : option nat)
  | HtIter (di : DictIter.dictIterator sds sds) (de : option (sds * sds)).

Definition sdsnewlen (b : list Z) : sds := of_chars ((fun z => ascii_of_N (Z.to_N z)) <$> b).
Definition str_value (s : sds) : hval := inl (byteZ <$> chars s).

(** The string a value stands for. *)
Definition value_sds (v : hval) : sds := match v with inl b => sdsnewlen b | inr ll => sdsfromlonglong ll end.

Section HashType.
Context (hashKey : sds -> Z) (dict_can_resize : bool).
(** [server.hash_max_ziplist_entries] and [server.hash_max_ziplist_value]. *)
Context (max_entries max_value : Z).

Implicit Types (o : hobj) (d : Dict.dict sds sds) (zl : buffer) (field : sds) (hi : hashTypeIterator).

Definition createHashObject : option hobj := HZiplist <$> ziplistNew.

(** ** Reading *)

(** The pointer to a field of a ziplist. *)
Definition find_field zl field : option (option nat) :=
  fptr ← ziplistIndex zl 0;
  match fptr with
  | None => Some None
  | Some fptr => ziplistFind zl fptr field 1
  end.

(** [None] inside is -1. *)
Definition hashTypeGetFromZiplist zl field : option (option hval) :=
  fptr ← find_field zl field;
  match fptr with
  | None => Some None
  | Some fptr =>
      vptr ← ziplistNext zl fptr;
      vptr ← vptr;
      v ← ziplistGet zl vptr;
      v ← v;
      Some (Some v)
  end.

Definition hashTypeGetFromHashTable d field : option (Dict.dict sds sds * option sds) :=
  '(d, de) ← Dict.dictFind hashKey d field;
  match de with
  | None => Some (d, None)
  | Some de => e ← Dict.dictEntryAt d de; Some (d, Some e.2)
  end.

(** [None] inside is [C_ERR]. *)
Definition hashTypeGetValue o field : option (hobj * option hval) :=
  match o with
  | HZiplist zl => v ← hashTypeGetFromZiplist zl field; Some (o, v)
  | HHT d => '(d, v) ← hashTypeGetFromHashTable d field; Some (HHT d, option_map str_value v)
  end.

Definition hashTypeGetValueObject o field : option (hobj * option sds) :=
  '(o, v) ← hashTypeGetValue o field;
  Some (o, option_map value_sds v).

Definition hashTypeGetValueLength o field : option (hobj * Z) :=
  match o with
  | HZiplist zl =>
      v ← hashTypeGetFromZiplist zl field;
      Some (o, match v with None => 0 | Some (inl b) => Z.of_nat (length b) | Some (inr vll) => sdigits10 vll end)
  | HHT d =>
      '(d, v) ← hashTypeGetFromHashTable d field;
      Some (HHT d, match v with None => 0 | Some s => Z.of_nat (String.length s) end)
  end.

Definition hashTypeExists o field : option (hobj * bool) :=
  match o with
  | HZiplist zl => v ← hashTypeGetFromZiplist zl field; Some (o, bool_decide (is_Some v))
  | HHT d => '(d, v) ← hashTypeGetFromHashTable d field; Some (HHT d, bool_decide (is_Some v))
  end.

Definition hashTypeLength o : option (hobj * Z) :=
  match o with
  | HZiplist zl => '(zl, n) ← ziplistLen zl; Some (HZiplist zl, Z.of_nat n / 2)
  | HHT d => Some (o, Dict.dictSize d)
  end.

(** ** Iteration *)

Definition hashTypeInitIterator o : hashTypeIterator :=
  match o with
  | HZiplist _ => ZlIter None None
  | HHT _ => HtIter DictIter.dictGetIterator None
  end.

Definition hashTypeReleaseIterator o hi : hobj :=
  match o, hi with
  | HHT d, HtIter di _ => HHT (DictIter.dictReleaseIterator d di)
  | _, _ => o
  end.

(** [false] is [C_ERR]: the end. *)
Definition hashTypeNext o hi : option (hobj * hashTypeIterator * bool) :=
  match o, hi with
  | HZiplist zl, ZlIter fptr vptr =>
      fptr ← match fptr, vptr with
             | None, None => ziplistIndex zl 0
             | Some _, Some vptr => ziplistNext zl vptr
             | _, _ => None
             end;
      match fptr with
      | None => Some (o, hi, false)
      | Some fptr =>
          vptr ← ziplistNext zl fptr;
          vptr ← vptr;
          Some (o, ZlIter (Some fptr) (Some vptr), true)
      end
  | HHT d, HtIter di _ =>
      '(d, di, de) ← DictIter.dictNext (DictIter.iter_fuel d) d di;
      Some (HHT d, HtIter di de, match de with Some _ => true | None => false end)
  | _, _ => None
  end.

(** [key]: the field, not the value. *)
Definition hashTypeCurrentFromZiplist zl (fptr vptr : option nat) (key : bool) : option hval :=
  p ← (if key then fptr else vptr);
  v ← ziplistGet zl p;
  v.

Definition hashTypeCurrentFromHashTable (de : option (sds * sds)) (key : bool) : option sds :=
  e ← de; Some (if key then e.1 else e.2).

Definition hashTypeCurrentObject o hi (key : bool) : option hval :=
  match o, hi with
  | HZiplist zl, ZlIter fptr vptr => hashTypeCurrentFromZiplist zl fptr vptr key
  | HHT _, HtIter _ de => option_map str_value (hashTypeCurrentFromHashTable de key)
  | _, _ => None
  end.

Definition hashTypeCurrentObjectNewSds o hi (key : bool) : option sds := value_sds <$> hashTypeCurrentObject o hi key.

(** ** Conversion *)

(** The loop over the pairs of the ziplist; a field that occurs twice is a
    panic. *)
Fixpoint convert_loop (fuel : nat) o hi d : option (Dict.dict sds sds) :=
  match fuel with
  | O => None
  | S fuel =>
      '(o, hi, more) ← hashTypeNext o hi;
      if (more : bool) then
        key ← hashTypeCurrentObjectNewSds o hi true;
        value ← hashTypeCurrentObjectNewSds o hi false;
        '(d, added) ← Dict.dictAdd hashKey dict_can_resize d key value;
        if (added : bool) then convert_loop fuel o hi d else None
      else Some d
  end.

(** [ht]: the encoding asked for is the hash table. *)
Definition hashTypeConvertZiplist zl (ht : bool) : option hobj :=
  if ht then HHT <$> convert_loop (length zl) (HZiplist zl) (hashTypeInitIterator (HZiplist zl)) Dict.dictCreate
  else Some (HZiplist zl).

Definition hashTypeConvert o (ht : bool) : option hobj :=
  match o with
  | HZiplist zl => hashTypeConvertZiplist zl ht
  | HHT _ => None
  end.

(** The arguments from [start] to [end]. *)
Definition hashTypeTryConversion o (args : list sds) : option hobj :=
  match o with
  | HHT _ => Some o
  | HZiplist _ => if existsb (fun s => max_value <? Z.of_nat (String.length s)) args then hashTypeConvert o true else Some o
  end.

(** ** Updates *)

(** [true] is 1: an update. *)
Definition hashTypeSet o field (value : sds) : option (hobj * bool) :=
  match o with
  | HZiplist zl =>
      fptr ← find_field zl field;
      '(zl, update) ←
        match fptr with
        | Some fptr =>
            vptr ← ziplistNext zl fptr;
            vptr ← vptr;
            '(zl, vptr) ← ziplistDelete zl vptr;
            zl ← ziplistInsert zl vptr value;
            Some (zl, true)
        | None =>
            zl ← ziplistPush zl field false;
            zl ← ziplistPush zl value false;
            Some (zl, false)
        end;
      '(o, n) ← hashTypeLength (HZiplist zl);
      o ← (if max_entries <? n then hashTypeConvert o true else Some o);
      Some (o, update)
  | HHT d =>
      '(d, de) ← Dict.dictFind hashKey d field;
      match de with
      | Some de => d ← Dict.dictSetVal d de (sdsdup value); Some (HHT d, true)
      | None => '(d, _) ← Dict.dictAdd hashKey dict_can_resize d (sdsdup field) (sdsdup value); Some (HHT d, false)
      end
  end.

Definition hashTypeDelete o field : option (hobj * bool) :=
  match o with
  | HZiplist zl =>
      fptr ← find_field zl field;
      match fptr with
      | None => Some (o, false)
      | Some fptr =>
          '(zl, fptr) ← ziplistDelete zl fptr;
          '(zl, _) ← ziplistDelete zl fptr;
          Some (HZiplist zl, true)
      end
  | HHT d =>
      '(d, deleted) ← Dict.dictDelete hashKey d field;
      if (deleted : bool) then Some (HHT (if Dict.htNeedsResize d then (Dict.dictResize dict_can_resize d).1 else d), true)
      else Some (HHT d, false)
  end.

(** A loop over the object, as [genericHgetallCommand] makes it. *)
Fixpoint hash_pairs (fuel : nat) o hi : option (hobj * list (sds * sds)) :=
  match fuel with
  | O => None
  | S fuel =>
      '(o, hi, more) ← hashTypeNext o hi;
      if (more : bool) then
        key ← hashTypeCurrentObjectNewSds o hi true;
        value ← hashTypeCurrentObjectNewSds o hi false;
        '(o, l) ← hash_pairs fuel o hi;
        Some (o, (key, value) :: l)
      else Some (hashTypeReleaseIterator o hi, [])
  end.
End HashType.
