(* ===== verification/HashRep.v ===== *)
(** * Hash objects are finite maps ([t_hash.c])

    A ziplist holds the pairs one after the other, a hash table holds them by
    field; in both encodings, and across the conversion, the operations do to the
    finite map of the pairs what they say. *)
From Stdlib Require Import ZArith Lia Ascii String.
From S2P Require Import Dict DictMap DictIter.
From stdpp Require Import base numbers strings gmap list.
From S2P Require Import Prelude Sds Intset Ziplist ZiplistRep ZiplistUpdate ZiplistQuery HashType.
Open Scope Z_scope.

Implicit Types (kvs : list (sds * sds)) (l : list sds) (es : list zent) (zl : buffer).

(** ** Lists of pairs *)

Definition flat kvs : list sds := flat_map (fun kv => [kv.1; kv.2]) kvs.

Lemma flat_app kvs kvs' : flat (kvs ++ kvs') = flat kvs ++ flat kvs'.
Proof. apply flat_map_app. Qed.

Lemma length_flat kvs : length (flat kvs) = (2 * length kvs)%nat.
Proof. induction kvs as [|kv kvs IH]; [done|]. change (flat (kv :: kvs)) with (kv.1 :: kv.2 :: flat kvs). cbn [length]. lia. Qed.

(** Around pair [i]. *)
Lemma flat_split kvs i k v : kvs !! i = Some (k, v) ->
  flat kvs = flat (take i kvs) ++ k :: v :: flat (drop (S i) kvs) /\ length (flat (take i kvs)) = (2 * i)%nat.
Proof.
  intros Hi. split.
  - rewrite <- (take_drop_middle kvs i (k, v) Hi) at 1. by rewrite flat_app.
  - rewrite length_flat, length_take. apply lookup_lt_Some in Hi. lia.
Qed.

(** The position of a field. *)
Definition field_pos kvs (f : sds) : option nat := fst <$> list_find (fun kv => kv.1 = f) kvs.

Lemma field_pos_spec kvs f : NoDup kvs.*1 ->
  match field_pos kvs f with
  | Some i => exists v, kvs !! i = Some (f, v) /\ (list_to_map kvs : gmap sds sds) !! f = Some v
  | None => (list_to_map kvs : gmap sds sds) !! f = None
  end.
Proof.
  intros Hnd. unfold field_pos. destruct (list_find _ kvs) as [[i [k v]]|] eqn:Hf; cbn.
  - apply list_find_Some in Hf as (Hi & Hk & _). cbn in Hk. subst k. exists v. split; [done|]. apply elem_of_list_to_map; [done|]. by eapply list_elem_of_lookup_2.
  - apply not_elem_of_list_to_map. apply list_find_None in Hf. intros Hin. apply list_elem_of_fmap in Hin as (kv & -> & Hin).
    rewrite Forall_forall in Hf. by apply (Hf kv Hin).
Qed.

Lemma find_every_flat kvs f : find_every 1 0 (flat kvs) f = (fun i => 2 * i)%nat <$> field_pos kvs f.
Proof.
  unfold field_pos. induction kvs as [|[k v] kvs IH]; [done|]. change (flat ((k, v) :: kvs)) with (k :: v :: flat kvs). cbn [find_every list_find fst].
  case_decide; [done|]. rewrite IH. destruct (list_find _ kvs) as [[i kv]|]; cbn; [|done]. f_equal. lia.
Qed.

(** ** The size of a ziplist *)

Definition weight l : nat := sum_list_with (fun s => 22 + String.length s)%nat l.

Lemma length_body s : (length (body s) <= 13 + String.length s)%nat.
Proof.
  unfold body, entry_payload. destruct (zipTryEncoding s) as [[v enc]|] eqn:Ht.
  - apply try_encoding in Ht as (Hv & -> & _). destruct (int_codec v Hv) as (b & -> & Hsize & Hstr & _). cbn [mbind option_bind].
    unfold zipStoreEntryEncoding. rewrite Hstr. cbn [app length]. enough (length b <= 8)%nat by lia.
    revert Hsize. unfold zipIntSize. repeat case_match; intros [= <-]; lia.
  - unfold zipStoreEntryEncoding. change (ZIP_IS_STR 0) with true. cbv iota. rewrite length_app, length_fmap, length_chars. repeat case_match; cbn [length]; lia.
Qed.

Lemma length_rep zl es : zlrep zl es -> (length zl + 4 * length es <= 11 + weight (ze_str <$> es))%nat.
Proof.
  intros [(k & -> & _) _ _]. rewrite length_zbuf.
  enough (forall prev, length (layout prev es) + 4 * length es <= weight (ze_str <$> es))%nat as H by (specialize (H 0%nat); unfold ZIPLIST_HEADER_SIZE in *; lia).
  induction es as [|e es IH]; intros prev; [done|]. cbn [layout fmap list_fmap weight sum_list_with length]. rewrite length_app, length_ebytes.
  specialize (IH (elen e)). pose proof (length_body (ze_str e)). unfold weight in *. unfold elen, psize in *. destruct (ze_big e); lia.
Qed.

(** ** The value of an entry is its string *)

Lemma value_sds_str s : value_sds (str_value s) = s.
Proof.
  cbn. unfold sdsnewlen. rewrite <- list_fmap_compose. rewrite <- (of_chars_chars s) at 2. f_equal.
  rewrite <- (list_fmap_id (chars s)) at 2. apply list_fmap_ext. intros i c _. cbn. unfold byteZ. by rewrite N2Z.id, ascii_N_embedding.
Qed.

Lemma value_sds_evalue s : value_sds (evalue s) = s.
Proof.
  unfold evalue. destruct (zipTryEncoding s) as [[v enc]|] eqn:Ht; [|apply (value_sds_str s)]. by apply try_encoding in Ht as (_ & _ & <-).
Qed.

(** ** Ziplists of pairs *)

Definition zpairs zl es kvs : Prop := zlrep zl es /\ ze_str <$> es = flat kvs.

Section Pairs.
Context zl es kvs (Hz : zpairs zl es kvs).

Lemma pairs_length : length es = (2 * length kvs)%nat.
Proof using Hz. rewrite <- length_flat, <- (proj2 Hz). by rewrite length_fmap. Qed.

Lemma pairs_at i k v : kvs !! i = Some (k, v) ->
  exists ek ev, es !! (2 * i)%nat = Some ek /\ es !! S (2 * i)%nat = Some ev /\ ze_str ek = k /\ ze_str ev = v.
Proof using Hz.
  intros Hi. destruct (flat_split kvs i k v Hi) as [Hf Hl].
  assert ((ze_str <$> es) !! (2 * i)%nat = Some k /\ (ze_str <$> es) !! S (2 * i) = Some v) as [Hk Hv].
  { rewrite (proj2 Hz), Hf, <- Hl. rewrite list_lookup_middle by done. split; [done|]. rewrite lookup_app_r by lia.
    replace (S _ - _)%nat with 1%nat by lia. done. }
  apply list_lookup_fmap_Some_1 in Hk as (ek & -> & Hk). apply list_lookup_fmap_Some_1 in Hv as (ev & -> & Hv). by exists ek, ev.
Qed.

Lemma find_field_spec f : find_field zl f = Some ((fun i => off es (2 * i)) <$> field_pos kvs f).
Proof using Hz.
  destruct Hz as [Hrep Hs]. unfold find_field. rewrite (ziplistIndex_spec zl es Hrep). cbn [mbind option_bind]. unfold index_of.
  destruct (decide (0 <= 0 < Z.of_nat (length es))) as [Hlt|Hge]; cbn [fmap option_fmap option_map].
  - change (Z.to_nat 0) with 0%nat. rewrite (ziplistFind_spec zl es Hrep 0 f 1) by lia. rewrite drop_0, Hs, find_every_flat. by destruct (field_pos kvs f).
  - rewrite decide_False by lia. cbn [fmap option_fmap option_map]. assert (kvs = []) as -> by (apply nil_length_inv; pose proof pairs_length; lia). done.
Qed.

Lemma next_value i k v : kvs !! i = Some (k, v) -> ziplistNext zl (off es (2 * i)) = Some (Some (off es (S (2 * i)))).
Proof using Hz.
  intros Hi. apply lookup_lt_Some in Hi. pose proof pairs_length. rewrite (ziplistNext_spec zl es (proj1 Hz)) by lia. by rewrite decide_True by lia.
Qed.

Lemma getFromZiplist_spec f : NoDup kvs.*1 -> hashTypeGetFromZiplist zl f = Some (evalue <$> (list_to_map kvs : gmap sds sds) !! f).
Proof using Hz.
  intros Hnd. unfold hashTypeGetFromZiplist. rewrite find_field_spec. cbn [mbind option_bind]. pose proof (field_pos_spec kvs f Hnd) as Hf.
  destruct (field_pos kvs f) as [i|]; cbn [fmap option_fmap option_map]; [|by rewrite Hf]. destruct Hf as (v & Hi & ->).
  rewrite (next_value i f v Hi). cbn [mbind option_bind]. destruct (pairs_at i f v Hi) as (ek & ev & _ & Hev & _ & <-).
  rewrite (ziplistGet_spec zl es (proj1 Hz) _ ev Hev). done.
Qed.

(** The iterator before pair [i]. *)
Definition zl_iter (i : nat) : hashTypeIterator :=
  match i with O => ZlIter None None | S j => ZlIter (Some (off es (2 * j))) (Some (off es (S (2 * j)))) end.

Lemma zl_next i : (i <= length kvs)%nat ->
  hashTypeNext (HZiplist zl) (zl_iter i) =
  if decide (i < length kvs)%nat then Some (HZiplist zl, zl_iter (S i), true) else Some (HZiplist zl, zl_iter i, false).
Proof using Hz.
  intros Hi. pose proof pairs_length as Hlen.
  assert (match i with O => ziplistIndex zl 0 | S j => ziplistNext zl (off es (S (2 * j))) end =
    Some (if decide (i < length kvs)%nat then Some (off es (2 * i)) else None)) as Hn.
  { destruct i as [|j].
    - rewrite (ziplistIndex_spec zl es (proj1 Hz)). unfold index_of. destruct (decide (0 < length kvs)%nat).
      + by rewrite decide_True by lia.
      + by rewrite !decide_False by lia.
    - rewrite (ziplistNext_spec zl es (proj1 Hz)) by lia. replace (S (S (2 * j))) with (2 * S j)%nat by lia. destruct (decide (S j < length kvs)%nat).
      + by rewrite decide_True by lia.
      + by rewrite decide_False by lia. }
  unfold hashTypeNext. destruct i as [|j]; cbn [zl_iter]; rewrite Hn; cbn [mbind option_bind]; case_decide as Hlt; try done;
    destruct (lookup_lt_is_Some_2 _ _ Hlt) as [[k v] Hkv]; by rewrite (next_value _ k v Hkv).
Qed.

Lemma zl_current i k v : kvs !! i = Some (k, v) ->
  hashTypeCurrentObjectNewSds (HZiplist zl) (zl_iter (S i)) true = Some k /\ hashTypeCurrentObjectNewSds (HZiplist zl) (zl_iter (S i)) false = Some v.
Proof using Hz.
  intros Hi. destruct (pairs_at i k v Hi) as (ek & ev & Hek & Hev & <- & <-).
  unfold hashTypeCurrentObjectNewSds. cbn [hashTypeCurrentObject zl_iter]. unfold hashTypeCurrentFromZiplist. cbn [mbind option_bind].
  rewrite (ziplistGet_spec zl es (proj1 Hz) _ ek Hek), (ziplistGet_spec zl es (proj1 Hz) _ ev Hev). cbn [mbind option_bind fmap option_fmap option_map].
  by rewrite !value_sds_evalue.
Qed.
End Pairs.

(** ** Objects *)

Section Hash.
Context (hashKey : sds -> Z) (dict_can_resize : bool) (max_entries max_value : Z).
Implicit Types (o : hobj) (m : gmap sds sds) (d : Dict.dict sds sds) (f v : sds).

Definition hash_ok o m : Prop :=
  match o with
  | HZiplist zl => exists es kvs, zpairs zl es kvs /\ NoDup kvs.*1 /\ m = list_to_map kvs
  | HHT d => dict_ok hashKey d /\ dict_map d = m
  end.

(** Room for one more pair: the bytes of a ziplist are counted in 32 bits, the
    entries of a table in 64. *)
Definition hash_room o m f v : Prop :=
  match o with
  | HZiplist _ => Z.of_nat (weight (flat (map_to_list m)) + String.length f + String.length v) + 100 < 4294967296
  | HHT _ => Z.of_nat (size m) < 2 ^ 61
  end.

Lemma weight_perm kvs kvs' : kvs ≡ₚ kvs' -> weight (flat kvs) = weight (flat kvs').
Proof.
  assert (forall kvs, weight (flat kvs) = sum_list_with (fun kv => 44 + String.length kv.1 + String.length kv.2)%nat kvs) as Hw.
  { clear. intros kvs. induction kvs as [|[k v] kvs IH]; [done|]. change (flat ((k, v) :: kvs)) with (k :: v :: flat kvs). unfold weight in *. cbn [sum_list_with fst snd]. lia. }
  intros Hp. rewrite !Hw. by rewrite Hp.
Qed.

Lemma weight_map kvs : NoDup kvs.*1 -> weight (flat (map_to_list (list_to_map kvs : gmap sds sds))) = weight (flat kvs).
Proof. intros Hnd. apply weight_perm. by apply map_to_list_to_map. Qed.

Lemma size_pairs kvs : NoDup kvs.*1 -> size (list_to_map kvs : gmap sds sds) = length kvs.
Proof. intros Hnd. by rewrite <- length_map_to_list, map_to_list_to_map. Qed.

(** *** Reading *)

(** How a string is returned: a ziplist returns a number it spells. *)
Definition read_as o (s : sds) : hval := match o with HZiplist _ => evalue s | HHT _ => str_value s end.

Lemma value_sds_read o s : value_sds (read_as o s) = s.
Proof. destruct o; [apply value_sds_evalue|apply value_sds_str]. Qed.

Lemma getFromHashTable_spec d f : dict_ok hashKey d ->
  exists d', hashTypeGetFromHashTable hashKey d f = Some (d', dict_map d !! f) /\ dict_ok hashKey d' /\ dict_map d' = dict_map d.
Proof.
  intros Hok. unfold hashTypeGetFromHashTable. destruct (dictFind_spec hashKey d f Hok) as (d' & r & -> & Hr & Hf). cbn [mbind option_bind].
  exists d'. split; [|split; [apply Hr|by apply (rehashed_map hashKey)]]. destruct r as [p|]; [|by rewrite Hf]. by destruct Hf as (_ & v & -> & ->).
Qed.

Lemma hashTypeGetValue_spec o m f : hash_ok o m ->
  exists o', hashTypeGetValue hashKey o f = Some (o', read_as o <$> m !! f) /\ hash_ok o' m /\
    hashTypeGetValueObject hashKey o f = Some (o', m !! f) /\
    hashTypeExists hashKey o f = Some (o', bool_decide (is_Some (m !! f))).
Proof.
  intros Hok. assert (option_map value_sds (read_as o <$> m !! f) = m !! f) as Hv by (destruct (m !! f); cbn; [by rewrite value_sds_read|done]).
  unfold hashTypeGetValueObject. destruct o as [zl|d]; cbn [hashTypeGetValue hashTypeExists hash_ok] in *.
  - destruct Hok as (es & kvs & Hz & Hnd & ->). rewrite (getFromZiplist_spec zl es kvs Hz f Hnd). cbn [mbind option_bind]. exists (HZiplist zl).
    change (read_as (HZiplist zl)) with evalue in Hv |- *. rewrite Hv. split_and!; [done|by exists es, kvs|done|]. do 2 f_equal. apply bool_decide_ext. apply fmap_is_Some.
  - destruct Hok as [Hok <-]. destruct (getFromHashTable_spec d f Hok) as (d' & -> & Hd'). cbn [mbind option_bind]. exists (HHT d'). change (read_as (HHT d)) with str_value in Hv |- *.
    change (option_map str_value (dict_map d !! f)) with (str_value <$> dict_map d !! f). rewrite Hv. by split_and!.
Qed.

Lemma hashTypeLength_spec o m : hash_ok o m -> exists o', hashTypeLength o = Some (o', Z.of_nat (size m)) /\ hash_ok o' m.
Proof.
  destruct o as [zl|d]; cbn [hashTypeLength hash_ok].
  - intros (es & kvs & Hz & Hnd & ->). destruct (ziplistLen_spec zl es (proj1 Hz)) as (zl' & -> & Hz'). cbn [mbind option_bind]. exists (HZiplist zl').
    rewrite (pairs_length zl es kvs Hz), size_pairs by done. split; [|exists es, kvs; split_and!; [split; [done|apply Hz]|done|done]].
    do 2 f_equal. rewrite Nat2Z.inj_mul. rewrite Z.mul_comm. by apply Z.div_mul.
  - intros [Hok <-]. exists (HHT d). by rewrite (dictSize_map hashKey d Hok).
Qed.

(** Reading keeps the encoding, and so the room. *)
Lemma get_keeps_room o o' m' f f' v' r : hashTypeGetValue hashKey o f = Some (o', r) -> hash_room o m' f' v' -> hash_room o' m' f' v'.
Proof.
  destruct o as [zl|d]; cbn [hashTypeGetValue]; intros Hg.
  - destruct (hashTypeGetFromZiplist zl f); [|done]. by injection Hg as <- <-.
  - destruct (hashTypeGetFromHashTable hashKey d f) as [[d' v]|]; [|done]. by injection Hg as <- <-.
Qed.

(** *** Conversion *)

Lemma convert_loop_spec zl es kvs : zpairs zl es kvs -> NoDup kvs.*1 -> forall fuel i d,
  (i <= length kvs)%nat -> (length kvs < fuel + i)%nat -> dict_ok hashKey d -> dict_map d = list_to_map (take i kvs) ->
  exists d', convert_loop hashKey dict_can_resize fuel (HZiplist zl) (zl_iter es i) d = Some d' /\ dict_ok hashKey d' /\ dict_map d' = list_to_map kvs.
Proof.
  intros Hz Hnd. pose proof (pairs_length zl es kvs Hz) as Hlen. pose proof (count_le zl es (proj1 Hz)) as Hc. pose proof (zl_small _ _ (proj1 Hz)) as Hsm.
  induction fuel as [|fuel IH]; intros i d Hi Hf Hok Hm; [lia|]. cbn [convert_loop]. rewrite (zl_next zl es kvs Hz i Hi). case_decide as Hlt; cbn [mbind option_bind].
  - destruct (lookup_lt_is_Some_2 _ _ Hlt) as [[k v] Hkv]. destruct (zl_current zl es kvs Hz i k v Hkv) as [-> ->]. cbn [mbind option_bind].
    assert (NoDup (take (S i) kvs).*1) as Hnd'. { rewrite <- (take_drop (S i) kvs), fmap_app, NoDup_app in Hnd. apply Hnd. }
    rewrite (take_S_r _ _ _ Hkv), fmap_app, NoDup_app in Hnd'. destruct Hnd' as (Hnd1 & Hk & _).
    assert (dict_map d !! k = None) as Hnone. { rewrite Hm. apply not_elem_of_list_to_map. intros Hin. apply (Hk k Hin). by apply list_elem_of_singleton. }
    destruct (dictAdd_spec hashKey dict_can_resize d k v Hok) as (d1 & -> & Hok1 & Hm1).
    { unfold dict_room. rewrite Hm, size_pairs, length_take by done. lia. }
    rewrite Hnone in Hm1 |- *. cbn [mbind option_bind]. rewrite bool_decide_true by done. apply IH; [lia|lia|done|].
    rewrite Hm1, Hm, (take_S_r _ _ _ Hkv), list_to_map_snoc; [done|]. intros Hin. apply (Hk k Hin). by apply list_elem_of_singleton.
  - exists d. split_and!; [done|done|]. by rewrite Hm, firstn_all2 by lia.
Qed.

Lemma hashTypeConvert_spec o m : hash_ok o m -> (exists zl, o = HZiplist zl) ->
  exists d, hashTypeConvert hashKey dict_can_resize o true = Some (HHT d) /\ hash_ok (HHT d) m.
Proof.
  intros Hok [zl ->]. destruct Hok as (es & kvs & Hz & Hnd & ->). cbn [hashTypeConvert]. unfold hashTypeConvertZiplist. cbn [hashTypeInitIterator].
  pose proof (pairs_length zl es kvs Hz). pose proof (count_le zl es (proj1 Hz)). destruct (dictCreate_spec (V := sds) hashKey) as [Hok0 Hm0].
  destruct (convert_loop_spec zl es kvs Hz Hnd (length zl) 0 Dict.dictCreate) as (d & Hd & Hokd & Hmd); [lia|lia|exact Hok0|by rewrite Hm0|].
  cbn [zl_iter] in Hd. rewrite Hd. by exists d.
Qed.

Lemma hashTypeTryConversion_spec o m args : hash_ok o m -> exists o', hashTypeTryConversion hashKey dict_can_resize max_value o args = Some o' /\ hash_ok o' m.
Proof.
  intros Hok. destruct o as [zl|d]; cbn [hashTypeTryConversion]; [|by exists (HHT d)]. destruct (existsb _ _); [|by exists (HZiplist zl)].
  destruct (hashTypeConvert_spec _ m Hok (ex_intro _ zl eq_refl)) as (d & -> & Hok'). by exists (HHT d).
Qed.

(** *** Updates *)

(** The pairs around one field. *)
Lemma pair_split kvs i f w v : NoDup kvs.*1 -> kvs !! i = Some (f, w) ->
  let m := list_to_map kvs : gmap sds sds in
  NoDup (take i kvs ++ (f, v) :: drop (S i) kvs).*1 /\ list_to_map (take i kvs ++ (f, v) :: drop (S i) kvs) = <[f := v]> m /\
  NoDup (take i kvs ++ drop (S i) kvs).*1 /\ list_to_map (take i kvs ++ drop (S i) kvs) = base.delete f m.
Proof.
  intros Hnd Hi m. pose proof (take_drop_middle kvs i (f, w) Hi) as Hs. set (rest := take i kvs ++ drop (S i) kvs).
  assert (forall u, take i kvs ++ (f, u) :: drop (S i) kvs ≡ₚ (f, u) :: rest) as Hp by (intros u; by rewrite <- Permutation_middle).
  assert (NoDup ((f, w) :: rest).*1) as Hall by (rewrite <- (Hp w), Hs; done). pose proof Hall as [Hf Hrest]%NoDup_cons.
  assert (m = <[f := w]> (list_to_map rest)) as Hm.
  { unfold m. rewrite <- Hs at 1. rewrite (list_to_map_proper (take i kvs ++ (f, w) :: drop (S i) kvs) ((f, w) :: rest)); [done|by rewrite Hs|apply Hp]. }
  assert (NoDup ((f, v) :: rest).*1) as Hv by exact Hall. split_and!.
  - by rewrite (Hp v).
  - rewrite (list_to_map_proper _ ((f, v) :: rest)); [|by rewrite (Hp v)|apply Hp]. cbn. by rewrite Hm, insert_insert_eq.
  - done.
  - rewrite Hm, delete_insert_id; [done|]. by apply not_elem_of_list_to_map.
Qed.

Lemma after_set zl es kvs m (b : bool) : zpairs zl es kvs -> NoDup kvs.*1 -> m = list_to_map kvs ->
  exists o', ('(o, n) ← hashTypeLength (HZiplist zl);
    o ← (if max_entries <? n then hashTypeConvert hashKey dict_can_resize o true else Some o); Some (o, b)) = Some (o', b) /\ hash_ok o' m.
Proof.
  intros Hz Hnd Hm. assert (hash_ok (HZiplist zl) m) as Hok by (by exists es, kvs).
  destruct (ziplistLen_spec zl es (proj1 Hz)) as (zl' & Hlen & Hz'). cbn [hashTypeLength]. rewrite Hlen. cbn [mbind option_bind].
  assert (hash_ok (HZiplist zl') m) as Hok' by (exists es, kvs; split_and!; [split; [done|apply Hz]|done|done]).
  destruct (max_entries <? _); [|by exists (HZiplist zl')].
  destruct (hashTypeConvert_spec _ m Hok' (ex_intro _ zl' eq_refl)) as (d & -> & Hd). by exists (HHT d).
Qed.

(** The two ways to set a field of a ziplist. *)
Lemma replace_value zl es kvs i f w v : zpairs zl es kvs -> kvs !! i = Some (f, w) -> short_str v -> Z.of_nat (weight (flat kvs) + String.length v) + 100 < 4294967296 ->
  exists zl' es', ('(zl, vptr) ← ziplistDelete zl (off es (S (2 * i))); ziplistInsert zl vptr v) = Some zl' /\
    zpairs zl' es' (take i kvs ++ (f, v) :: drop (S i) kvs).
Proof.
  intros Hz Hi Hsv Hroom. pose proof (length_rep zl es (proj1 Hz)) as Hl. rewrite (proj2 Hz) in Hl. pose proof (pairs_length zl es kvs Hz) as Hlen.
  apply lookup_lt_Some in Hi as Hlt. destruct (flat_split kvs i f w Hi) as [Hfl Hfn].
  destruct (ziplistDelete_at zl es (S (2 * i)) 1 (proj1 Hz)) as (zl1 & es1 & Hd & Hz1 & Hs1 & Hoff); [lia|lia|lia|]. unfold ziplistDelete. rewrite Hd. cbn [mbind option_bind].
  assert (forall l (x : sds), take (S (2 * i)) (flat (take i kvs) ++ x :: l) = flat (take i kvs) ++ [x] /\ drop (S (2 * i)) (flat (take i kvs) ++ x :: l) = l) as Hcut.
  { intros l x. rewrite <- Nat.add_1_r, take_app_add', drop_app_add' by lia. done. }
  rewrite (proj2 Hz), Hfl, (proj1 (Hcut _ _)) in Hs1. rewrite <- drop_drop, (proj2 (Hcut _ _)) in Hs1. rewrite skipn_cons, drop_0 in Hs1. rewrite <- app_assoc in Hs1. cbn [app] in Hs1.
  pose proof (length_rep zl1 es1 Hz1) as Hl1. rewrite Hs1 in Hl1. pose proof (f_equal length Hs1) as Hlen1. rewrite length_fmap, length_app in Hlen1. cbn [length] in Hlen1.
  assert (weight (flat (take i kvs) ++ f :: flat (drop (S i) kvs)) + 22 <= weight (flat kvs))%nat as Hw.
  { rewrite Hfl. unfold weight. rewrite !sum_list_with_app. cbn [sum_list_with]. lia. }
  rewrite <- Hoff. destruct (ziplistInsert_spec zl1 es1 (S (2 * i)) v Hz1 Hsv) as (zl2 & es2 & -> & Hz2 & Hs2); [lia|lia|].
  exists zl2, es2. split; [done|]. split; [done|]. by rewrite Hs2, Hs1, (proj1 (Hcut _ _)), (proj2 (Hcut _ _)), flat_app, <- app_assoc.
Qed.

Lemma push_pair zl es kvs f v : zpairs zl es kvs -> short_str f -> short_str v -> Z.of_nat (weight (flat kvs) + String.length f + String.length v) + 100 < 4294967296 ->
  exists zl' es', (zl ← ziplistPush zl f false; ziplistPush zl v false) = Some zl' /\ zpairs zl' es' (kvs ++ [(f, v)]).
Proof.
  intros Hz Hsf Hsv Hroom. pose proof (length_rep zl es (proj1 Hz)) as Hl. rewrite (proj2 Hz) in Hl.
  destruct (ziplistPush_spec zl es f false (proj1 Hz) Hsf) as (zl1 & es1 & -> & Hz1 & Hs1); [lia|]. cbn [mbind option_bind].
  rewrite (proj2 Hz) in Hs1. pose proof (length_rep zl1 es1 Hz1) as Hl1. rewrite Hs1 in Hl1.
  assert (weight (flat kvs ++ [f]) = weight (flat kvs) + 22 + String.length f)%nat as Hw by (unfold weight; rewrite sum_list_with_app; cbn; lia).
  destruct (ziplistPush_spec zl1 es1 v false Hz1 Hsv) as (zl2 & es2 & -> & Hz2 & Hs2); [lia|].
  exists zl2, es2. split; [done|]. split; [done|]. by rewrite Hs2, Hs1, flat_app, <- app_assoc.
Qed.

Lemma hashTypeSet_spec o m f v : hash_ok o m -> hash_room o m f v ->
  exists o', hashTypeSet hashKey dict_can_resize max_entries o f v = Some (o', bool_decide (is_Some (m !! f))) /\ hash_ok o' (<[f := v]> m).
Proof.
  destruct o as [zl|d]; cbn [hashTypeSet hash_ok hash_room].
  - intros (es & kvs & Hz & Hnd & ->) Hroom. rewrite weight_map in Hroom by done. rewrite (find_field_spec zl es kvs Hz). cbn [mbind option_bind].
    assert (short_str f /\ short_str v) as [Hsf Hsv] by (unfold short_str; lia). pose proof (field_pos_spec kvs f Hnd) as Hf.
    destruct (field_pos kvs f) as [i|]; cbn [fmap option_fmap option_map].
    + destruct Hf as (w & Hi & ->). rewrite (next_value zl es kvs Hz i f w Hi). cbn [mbind option_bind].
      destruct (replace_value zl es kvs i f w v Hz Hi Hsv ltac:(lia)) as (zl2 & es2 & Hrep & Hz2).
      destruct (ziplistDelete zl _) as [[zl1 p]|]; [|done]. cbn [mbind option_bind] in Hrep |- *. rewrite Hrep. cbn [mbind option_bind].
      destruct (pair_split kvs i f w v Hnd Hi) as (Hnd' & Hm' & _). rewrite bool_decide_true by done. by apply (after_set zl2 es2 _ _ true Hz2 Hnd').
    + destruct (push_pair zl es kvs f v Hz Hsf Hsv Hroom) as (zl2 & es2 & Hpush & Hz2).
      destruct (ziplistPush zl f false) as [zl1|]; [|done]. cbn [mbind option_bind] in Hpush |- *. rewrite Hpush. cbn [mbind option_bind].
      rewrite Hf, bool_decide_false by (by intros [? ?]). apply not_elem_of_list_to_map in Hf. apply (after_set zl2 es2 _ _ false Hz2).
      * rewrite fmap_app, NoDup_app. split_and!; [done| |apply NoDup_singleton]. intros x Hx Hx'%list_elem_of_singleton. cbn in Hx'. by subst x.
      * by rewrite list_to_map_snoc.
  - intros [Hok <-] Hroom. destruct (dictFind_spec hashKey d f Hok) as (d' & r & -> & Hr & Hf). cbn [mbind option_bind]. pose proof (rehashed_map hashKey _ _ Hok Hr) as Hm.
    pose proof (proj1 Hr) as Hok'. destruct r as [p|].
    + destruct Hf as (Hp & w & Hat & Hl). destruct (dictSetVal_spec hashKey d' p f w (sdsdup v) Hok' Hp Hat) as (d2 & -> & Hok2 & _ & Hm2). cbn [mbind option_bind].
      exists (HHT d2). rewrite Hl, bool_decide_true by done. split; [done|]. split; [done|]. by rewrite Hm2, Hm.
    + destruct (dictAdd_spec hashKey dict_can_resize d' (sdsdup f) (sdsdup v) Hok') as (d2 & -> & Hok2 & Hm2); [by unfold dict_room; rewrite Hm|]. cbn [mbind option_bind].
      exists (HHT d2). rewrite Hf, bool_decide_false by (by intros [? ?]). split; [done|]. split; [done|]. unfold sdsdup in Hm2. by rewrite Hm2, Hm, Hf.
Qed.

Lemma hashTypeDelete_spec o m f : hash_ok o m -> hash_room o m "" "" ->
  exists o', hashTypeDelete hashKey dict_can_resize o f = Some (o', bool_decide (is_Some (m !! f))) /\ hash_ok o' (base.delete f m).
Proof.
  destruct o as [zl|d]; cbn [hashTypeDelete hash_ok hash_room].
  - intros (es & kvs & Hz & Hnd & ->) Hroom. rewrite weight_map in Hroom by done. rewrite (find_field_spec zl es kvs Hz). cbn [mbind option_bind].
    pose proof (length_rep zl es (proj1 Hz)) as Hl. rewrite (proj2 Hz) in Hl. pose proof (pairs_length zl es kvs Hz) as Hlen. pose proof (field_pos_spec kvs f Hnd) as Hf.
    destruct (field_pos kvs f) as [i|]; cbn [fmap option_fmap option_map].
    + destruct Hf as (w & Hi & ->). apply lookup_lt_Some in Hi as Hlt. destruct (flat_split kvs i f w Hi) as [Hfl Hfn].
      destruct (ziplistDelete_at zl es (2 * i) 1 (proj1 Hz)) as (zl1 & es1 & Hd & Hz1 & Hs1 & Hoff); [lia|lia|lia|]. unfold ziplistDelete. rewrite Hd. cbn [mbind option_bind].
      rewrite (proj2 Hz), Hfl, take_app_length', drop_app_add' in Hs1 by lia. rewrite skipn_cons, drop_0 in Hs1.
      pose proof (length_rep zl1 es1 Hz1) as Hl1. rewrite Hs1 in Hl1. pose proof (f_equal length Hs1) as Hlen1. rewrite length_fmap, length_app in Hlen1. cbn [length] in Hlen1.
      assert (weight (flat (take i kvs) ++ w :: flat (drop (S i) kvs)) <= weight (flat kvs))%nat as Hw.
      { rewrite Hfl. unfold weight. rewrite !sum_list_with_app. cbn [sum_list_with]. lia. }
      rewrite <- Hoff. destruct (ziplistDelete_at zl1 es1 (2 * i) 1 Hz1) as (zl2 & es2 & Hd2 & Hz2 & Hs2 & _); [lia|lia|lia|]. rewrite Hd2. cbn [mbind option_bind].
      rewrite Hs1, take_app_length', drop_app_add' in Hs2 by lia. rewrite skipn_cons, drop_0 in Hs2.
      destruct (pair_split kvs i f w w Hnd Hi) as (_ & _ & Hnd' & Hm'). exists (HZiplist zl2). rewrite bool_decide_true by done. split; [done|].
      exists es2, (take i kvs ++ drop (S i) kvs). split_and!; [split; [done|by rewrite Hs2, flat_app]|done|done].
    + exists (HZiplist zl). rewrite Hf, bool_decide_false by (by intros [? ?]). split; [done|]. exists es, kvs. split_and!; [done|done|]. by rewrite delete_id.
  - intros [Hok <-] Hroom. destruct (dictDelete_spec hashKey d f Hok) as (d1 & -> & Hok1 & Hm1). cbn [mbind option_bind].
    destruct (bool_decide _) eqn:Hb; [|by exists (HHT d1)]. destruct (Dict.htNeedsResize d1); [|by exists (HHT d1)].
    pose proof (dictResize_spec hashKey dict_can_resize d1 Hok1) as Hre. exists (HHT (Dict.dictResize dict_can_resize d1).1). split; [done|]. split; [apply Hre|].
    rewrite <- Hm1. apply (rehashed_map hashKey); [done|]. by apply resized_rehashed.
Qed.

Lemma sdigits10_spec ll : in_llong ll -> sdigits10 ll = Z.of_nat (String.length (sdsfromlonglong ll)).
Proof.
  intros Hll. unfold sdsfromlonglong. rewrite <- length_chars, chars_of_chars. unfold sdigits10.
  destruct (sdsll2str_cases ll Hll) as [[-> ->]|[[Hp ->]|[Hn ->]]]; [done| |].
  - rewrite (proj2 (Z.ltb_ge ll 0)), digits10_length by clia. by rewrite length_rev.
  - rewrite (proj2 (Z.ltb_lt ll 0)) by lia. cbn [length]. rewrite length_rev. destruct (Z.eqb_spec ll LLONG_MIN) as [->|Hne].
    + rewrite to_ullong_id, digits10_length by clia. change (LLONG_MAX + 1) with (- LLONG_MIN). lia.
    + rewrite digits10_length by clia. lia.
Qed.

Lemma hashTypeGetValueLength_spec o m f : hash_ok o m ->
  exists o', hashTypeGetValueLength hashKey o f = Some (o', match m !! f with Some v => Z.of_nat (String.length v) | None => 0 end) /\ hash_ok o' m.
Proof.
  destruct o as [zl|d]; cbn [hashTypeGetValueLength hash_ok].
  - intros (es & kvs & Hz & Hnd & ->). rewrite (getFromZiplist_spec zl es kvs Hz f Hnd). cbn [mbind option_bind]. exists (HZiplist zl).
    split; [|by exists es, kvs]. do 2 f_equal. destruct (_ !! f) as [v|]; cbn; [|done]. unfold evalue. destruct (zipTryEncoding v) as [[ll enc]|] eqn:Ht.
    + apply try_encoding in Ht as (Hll & _ & <-). by apply sdigits10_spec.
    + by rewrite length_fmap, length_chars.
  - intros [Hok <-]. destruct (getFromHashTable_spec d f Hok) as (d' & -> & Hd'). cbn [mbind option_bind]. by exists (HHT d').
Qed.

(** *** Iteration *)

Lemma zl_pairs zl es kvs : zpairs zl es kvs -> forall fuel i, (i <= length kvs)%nat -> (length kvs < fuel + i)%nat ->
  hash_pairs fuel (HZiplist zl) (zl_iter es i) = Some (HZiplist zl, drop i kvs).
Proof.
  intros Hz. induction fuel as [|fuel IH]; intros i Hi Hf; [lia|]. cbn [hash_pairs]. rewrite (zl_next zl es kvs Hz i Hi). case_decide as Hlt; cbn [mbind option_bind].
  - destruct (lookup_lt_is_Some_2 _ _ Hlt) as [[k v] Hkv]. destruct (zl_current zl es kvs Hz i k v Hkv) as [-> ->]. cbn [mbind option_bind].
    rewrite IH by lia. cbn [mbind option_bind]. by rewrite (drop_S _ _ _ Hkv).
  - rewrite drop_ge by lia. by destruct i.
Qed.

Lemma ht_pairs d de : dict_ok hashKey d -> forall fuel it, iter_ok it -> it_safe it = false -> (length (iter_left d it) < fuel)%nat ->
  hash_pairs fuel (HHT d) (HtIter it de) = Some (HHT d, iter_left d it).
Proof.
  intros Hok fuel. revert de. induction fuel as [|fuel IH]; intros de it Hit Hsafe Hf; [lia|]. cbn [hash_pairs hashTypeNext].
  assert (start_iter d it = d) as Hst by (unfold start_iter; by rewrite Hsafe, andb_false_r).
  destruct (dictNext_spec hashKey (iter_fuel d) d it Hok Hit) as (it1 & Hs1 & _ & Hn).
  { pose proof (rest_fuel hashKey d it Hok (io_index _ Hit)). destruct (it_entry it); lia. }
  rewrite Hst in Hn. destruct (iter_left d it) as [|[k v] l].
  - rewrite Hn. cbn. unfold dictReleaseIterator. by rewrite Hs1, Hsafe, andb_false_r.
  - destruct Hn as (-> & Hit1 & Hl1). cbn [mbind option_bind]. unfold hashTypeCurrentObjectNewSds.
    cbn [hashTypeCurrentObject hashTypeCurrentFromHashTable mbind option_bind option_map fmap option_fmap fst snd]. rewrite !value_sds_str. cbn [mbind option_bind].
    rewrite IH; [|done|congruence|rewrite Hl1; cbn in Hf; lia]. cbn [mbind option_bind]. by rewrite Hl1.
Qed.

(** Every pair once, and then the end. *)
Lemma hash_pairs_spec o m : hash_ok o m ->
  exists kvs, hash_pairs (S (size m)) o (hashTypeInitIterator o) = Some (o, kvs) /\ kvs ≡ₚ map_to_list m.
Proof.
  destruct o as [zl|d]; cbn [hash_ok hashTypeInitIterator].
  - intros (es & kvs & Hz & Hnd & ->). exists kvs. split; [|by rewrite map_to_list_to_map].
    pose proof (zl_pairs zl es kvs Hz (S (size (list_to_map kvs : gmap sds sds))) 0) as Hp. rewrite drop_0 in Hp. apply Hp; [lia|]. rewrite size_pairs by done. lia.
  - intros [Hok <-]. assert (iter_left d dictGetIterator = entries d) as Hl.
    { unfold iter_left, rest_buckets, dictGetIterator. cbn [it_next it_index it_table get_ht app]. change (Z.to_nat (-1 + 1)) with 0%nat. by rewrite drop_0, concat_app. }
    assert (size (dict_map d) = length (entries d)) as Hsz by (unfold dict_map; apply size_pairs, (ok_keys _ _ Hok)).
    exists (entries d). split; [|unfold dict_map; by rewrite map_to_list_to_map by apply (ok_keys _ _ Hok)].
    rewrite <- Hl. apply ht_pairs; [done|by split|done|]. rewrite Hl, Hsz. lia.
Qed.

Lemma createHashObject_spec : exists o, createHashObject = Some o /\ hash_ok o ∅.
Proof. destruct ziplistNew_spec as (zl & Hn & Hz). exists (HZiplist zl). unfold createHashObject. rewrite Hn. split; [done|]. exists [], []. split_and!; [done|apply NoDup_nil_2|done]. Qed.
End Hash.
