(* ===== verification/HashMeta.v ===== *)
(** * Metadata in hash objects ([RWFramework.c])

    The replicated types keep the address of each element's metadata as the eight
    bytes of a string in a hash object, and read it back by casting the string.
    The rest of the development takes such an object for a finite map; here the
    two are related.  The cast is right because the bytes of an address never spell
    a number, which a ziplist would store, and return, as one. *)
From Stdlib Require Import ZArith Lia Ascii String.
From S2P Require Import Dict DictMap DictIter.
From stdpp Require Import base numbers strings gmap list.
From S2P Require Import Prelude Sds Intset Ziplist ZiplistRep HashType HashRep.
Open Scope Z_scope.

(** [sdsnewlen(&e, sizeof(reh * ))]. *)
Definition ptr_sds (a : Z) : sds := sdsnewlen (le_bytes 8 a).

Section Meta.
Context (hashKey : sds -> Z) (dict_can_resize : bool) (max_entries : Z).
Implicit Types (o : hobj) (key : sds) (h : gmap sds Z).

(** [*(reh ** )(value->ptr)]: the pointer of a number's object is the number. *)
Definition read_ptr (v : hval) : option Z :=
  match v with
  | inl b => if decide (8 <= length b)%nat then Some (le_val (take 8 b)) else None
  | inr _ => None
  end.

(** [rehHTGet] on the object [getInnerHT] returns; [e] is the address of a new
    element. *)
Definition rehHTGet_obj o key (create : bool) (e : Z) : option (hobj * option Z) :=
  '(o, value) ← hashTypeGetValue hashKey o key;
  match value with
  | Some v => e ← read_ptr v; Some (o, Some e)
  | None =>
      if create then
        '(o, _) ← hashTypeSet hashKey dict_can_resize max_entries o key (ptr_sds e);
        Some (o, Some e)
      else Some (o, None)
  end.

(** User space. *)
Definition address (a : Z) : Prop := 0 <= a < 2 ^ 47.

(** The fields and the addresses stored under them. *)
Definition meta_ok o h : Prop := hash_ok hashKey o (ptr_sds <$> h) /\ map_Forall (fun _ => address) h.

Lemma byte_ascii b : 0 <= b < 256 -> byteZ (ascii_of_N (Z.to_N b)) = b.
Proof. intros Hb. unfold byteZ. rewrite N_ascii_embedding; lia. Qed.

Lemma le_bytes_range n v : Forall (fun b => 0 <= b < 256) (le_bytes n v).
Proof. revert v. induction n as [|n IH]; intros v; constructor; [apply Z.mod_pos_bound; lia|apply IH]. Qed.

Lemma ptr_bytes a : byteZ <$> chars (ptr_sds a) = le_bytes 8 a.
Proof.
  unfold ptr_sds, sdsnewlen. rewrite chars_of_chars, <- list_fmap_compose. rewrite <- (list_fmap_id (le_bytes 8 a)) at 2.
  apply Forall_fmap_ext_1. eapply Forall_impl; [apply le_bytes_range|]. intros b Hb. by apply byte_ascii.
Qed.

(** The last byte of an address is zero, so the eight do not spell a number. *)
Lemma ptr_not_number a : address a -> zipTryEncoding (ptr_sds a) = None.
Proof.
  intros Ha. destruct (zipTryEncoding (ptr_sds a)) as [[v enc]|] eqn:Ht; [|done]. apply try_encoding in Ht as (_ & _ & Hs).
  pose proof (sdsll2str_chars v) as Hc. rewrite <- (chars_of_chars (sdsll2str v)) in Hc. fold (sdsfromlonglong v) in Hc. rewrite Hs in Hc.
  assert (exists c, chars (ptr_sds a) !! 7%nat = Some c /\ byteZ c = 0) as (c & Hc7 & Hb).
  { assert ((byteZ <$> chars (ptr_sds a)) !! 7%nat = Some 0) as H7.
    { rewrite ptr_bytes. cbn [le_bytes lookup list_lookup]. f_equal. rewrite !Z.div_div by lia. unfold address in Ha.
      rewrite Z.div_small; [done|]. change (2 ^ 47) with 140737488355328 in Ha. lia. }
    apply list_lookup_fmap_Some_1 in H7 as (c & Hc0 & H7). by exists c. }
  apply (Forall_lookup_1 _ _ _ _ Hc) in Hc7 as [Hd| ->]; [|done]. unfold is_digit in Hd. by rewrite Hb in Hd.
Qed.

Lemma read_ptr_sds o a : address a -> read_ptr (read_as o (ptr_sds a)) = Some a.
Proof.
  intros Ha. assert (read_as o (ptr_sds a) = inl (le_bytes 8 a)) as ->.
  { destruct o; cbn [read_as]; unfold evalue, str_value; [rewrite ptr_not_number by done|]; by rewrite ptr_bytes. }
  cbn [read_ptr]. rewrite decide_True by (rewrite length_le_bytes; lia). rewrite firstn_all2 by (rewrite length_le_bytes; lia).
  rewrite le_val_le_bytes, Z.mod_small; [done|]. unfold address in Ha. change (2 ^ 47) with 140737488355328 in Ha. change (2 ^ (8 * Z.of_nat 8)) with 18446744073709551616. lia.
Qed.

Lemma rehHTGet_obj_spec o h key create e : meta_ok o h -> address e -> hash_room o (ptr_sds <$> h) key (ptr_sds e) ->
  exists o', rehHTGet_obj o key create e = Some (o', match h !! key with Some a => Some a | None => if create then Some e else None end) /\
    meta_ok o' (match h !! key with Some _ => h | None => if create then <[key := e]> h else h end).
Proof.
  intros [Hok Ha] He Hroom. unfold rehHTGet_obj. destruct (hashTypeGetValue_spec hashKey o _ key Hok) as (o1 & Hget & Hok1 & _). rewrite Hget. cbn [mbind option_bind].
  apply (get_keeps_room hashKey _ _ _ _ _ _ _ Hget) in Hroom. rewrite lookup_fmap. destruct (h !! key) as [a|] eqn:Hh; cbn [fmap option_fmap option_map].
  - rewrite read_ptr_sds by apply (Ha key a Hh). cbn [mbind option_bind]. by exists o1.
  - destruct create; [|by exists o1]. destruct (hashTypeSet_spec hashKey dict_can_resize max_entries o1 _ key (ptr_sds e) Hok1 Hroom) as (o2 & -> & Hok2). cbn [mbind option_bind].
    exists o2. split; [done|]. split; [by rewrite fmap_insert|]. by apply map_Forall_insert_2.
Qed.

Lemma meta_empty : exists o, createHashObject = Some o /\ meta_ok o ∅.
Proof. destruct (createHashObject_spec hashKey) as (o & Hc & Hok). exists o. split; [done|]. split; [by rewrite fmap_empty|apply map_Forall_empty]. Qed.
End Meta.
