(* ===== verification/Server.v ===== *)
(** * The server ([server.h], [db.c], [object.c], [networking.c], [CRDT.h])

    The state a command handler reads and writes: the objects of the key
    space, the server fields the CRDT code uses and the calling client; the
    database and reply functions; the macros that split a CRDT command into a
    prepare phase, run where the client is connected, and an effect phase, run
    at every replica.

    A pointer to an object of the key space is modelled by the key it is stored
    under, and a pointer to a metadata element by the key of its hash and its
    field: the handlers never delete or overwrite either.  Type confusion and
    null or out-of-bounds accesses are [Crash]. *)
From Stdlib Require Import ZArith Lia Ascii String.
From stdpp Require Import base numbers list strings gmap sets.
From S2P Require Import HashType.
From S2P Require Import Prelude Sds Double VectorClock LamportClock Intset SetType.
Open Scope Z_scope.

(** ** Objects *)

(** [RWFramework.h]: the header of a remove-win element. *)
Record reh := mkReh { pid : Z; current : vc }.

(** [t_orset.c]: the tags added and not removed, and removed before added. *)
Record ore := mkOre { ore_current : Z; aset : gset sds; rset : gset sds }.

(** [t_rzset.c]: a remove-win element with a score, the initial one and the sum
    of the increments. *)
Record rze := mkRze { rz_header : reh; innate : double; acquired : double }.

(** [t_ozset.c]: an addition with its tag, its score (not set when an increment
    created the record), the sum of its increments and of their absolute values;
    an element, in which the two selected additions are given by their tags. *)
Record ase := mkAse { a_t : lc; a_x : option double; a_inc : double; a_count : double }.
Record oze := mkOze {
  oz_current : Z;
  oz_innate : option lc;
  oz_acquired : option lc;
  oz_aset : list ase;
  oz_rset : list lc
}.

(** [t_rwtree.c]: a tree node.  The children are a set object. *)
Record rtn := mkRtn {
  header : reh;
  vectorClock : vc;
  moveVC : vc;
  uid : option sds;
  name : option sds;
  parent : option sds;
  children : setobj
}.

#[global] Instance reh_eq_dec : EqDecision reh.
Proof. solve_decision. Defined.
#[global] Instance ore_eq_dec : EqDecision ore.
Proof. solve_decision. Defined.
#[global] Instance rtn_eq_dec : EqDecision rtn.
Proof. solve_decision. Defined.
#[global] Instance rze_eq_dec : EqDecision rze.
Proof. solve_decision. Defined.
#[global] Instance ase_eq_dec : EqDecision ase.
Proof. solve_decision. Defined.
#[global] Instance oze_eq_dec : EqDecision oze.
Proof. solve_decision. Defined.

(** What the pointer stored in a metadata hash points to. *)
Inductive helem :=
  | HRwse (h : reh)
  | HPne (current : Z)
  | HOre (o : ore)
  | HRtn (n : rtn)
  | HRze (e : rze)
  | HOze (e : oze).

Inductive robj :=
  | OString (s : sds)
  | OSet (so : setobj)
  | OHash (h : gmap sds helem)         (* a hash of metadata *)
  | OVectorClock (c : vc)
  | OZset (z : gmap sds double)        (* the members and their scores *)
  | OHashStr (o : hobj).               (* a hash of strings *)

#[global] Instance helem_eq_dec : EqDecision helem.
Proof. solve_decision. Defined.
#[global] Instance robj_eq_dec : EqDecision robj.
Proof. solve_decision. Defined.

(** Replies: the shared objects and the composed ones. *)
Inductive reply :=
  | R_ok | R_err | R_wrongtypeerr | R_nokeyerr | R_syntaxerr | R_alreadyexisterr
  | R_ele_exist | R_ele_nexist | R_czero | R_cone | R_emptymultibulk
  | R_multi | R_exec | R_select (dbid : Z) | R_replhandshake
  | R_error (msg : sds)
  | R_longlong (z : Z) | R_bulk (s : sds) | R_multibulklen (n : Z)
  | R_nullbulk | R_emptybulk | R_double (d : double).

#[global] Instance reply_eq_dec : EqDecision reply.
Proof. solve_decision. Defined.

(** ** State *)

Record server := mkServer {
  db : gmap sds robj;
  replicas : list (list reply);        (* the output buffers of the replicas *)
  p2p_count : Z;
  p2p_id : Z;
  p2p_seldb : Z;
  dirty : Z;
  set_max_intset_entries : Z;
  total_tag_size : Z;                  (* static in t_orset.c *)
  ovhd_cnt : Z                         (* t_rwtree.c *)
}.

Record client := mkClient {
  argv : list sds;
  rargv : option (list sds);           (* NULL outside a command *)
  is_replica : bool;                   (* CLIENT_REPLICA *)
  replica_message : bool;              (* CLIENT_REPLICA_MESSAGE *)
  replies : list reply                 (* newest first *)
}.

Record world := mkWorld { srv : server; cli : client }.

(** A command handler. *)
Abbreviation cmd A := (M world A).

Definition set_db (f : gmap sds robj -> gmap sds robj) (w : world) : world :=
  let s := srv w in
  mkWorld (mkServer (f (db s)) (replicas s) (p2p_count s) (p2p_id s) (p2p_seldb s) (dirty s)
             (set_max_intset_entries s) (total_tag_size s) (ovhd_cnt s)) (cli w).

Definition inc_dirty (w : world) : world :=
  let s := srv w in
  mkWorld (mkServer (db s) (replicas s) (p2p_count s) (p2p_id s) (p2p_seldb s) (dirty s + 1)
             (set_max_intset_entries s) (total_tag_size s) (ovhd_cnt s)) (cli w).

Definition add_dirty (n : Z) (w : world) : world :=
  let s := srv w in
  mkWorld (mkServer (db s) (replicas s) (p2p_count s) (p2p_id s) (p2p_seldb s) (dirty s + n)
             (set_max_intset_entries s) (total_tag_size s) (ovhd_cnt s)) (cli w).

Definition add_tag_size (n : Z) (w : world) : world :=
  let s := srv w in
  mkWorld (mkServer (db s) (replicas s) (p2p_count s) (p2p_id s) (p2p_seldb s) (dirty s)
             (set_max_intset_entries s) (total_tag_size s + n) (ovhd_cnt s)) (cli w).

Definition add_ovhd_cnt (n : Z) (w : world) : world :=
  let s := srv w in
  mkWorld (mkServer (db s) (replicas s) (p2p_count s) (p2p_id s) (p2p_seldb s) (dirty s)
             (set_max_intset_entries s) (total_tag_size s) (ovhd_cnt s + n)) (cli w).

Definition set_client (f : client -> client) (w : world) : world := mkWorld (srv w) (f (cli w)).

Definition push_reply (r : reply) (c : client) : client :=
  mkClient (argv c) (rargv c) (is_replica c) (replica_message c) (r :: replies c).

Definition set_rargv (r : option (list sds)) (c : client) : client :=
  mkClient (argv c) r (is_replica c) (replica_message c) (replies c).

(** ** Arguments *)

Definition index {A} (l : list A) (i : Z) : option A :=
  if i <? 0 then None else l !! Z.to_nat i.

Definition argc : cmd Z := gets (fun w => Z.of_nat (length (argv (cli w)))).
Definition arg (i : Z) : cmd sds := fun w => deref (index (argv (cli w)) i) w.

Definition rargs : cmd (list sds) := fun w => deref (rargv (cli w)) w.
Definition rargc : cmd Z :=
  gets (fun w => match rargv (cli w) with Some l => Z.of_nat (length l) | None => 0 end).
Definition rarg (i : Z) : cmd sds := l <- rargs ;; deref (index l i).

(** ** Replies ([networking.c])

    [prepareClientToWrite] refuses to write to a replica without the message
    flag. *)
Definition prepareClientToWrite (c : client) : bool :=
  negb (is_replica c && negb (replica_message c)).

Definition addReply (r : reply) : cmd unit :=
  modify (set_client (fun c => if prepareClientToWrite c then push_reply r c else c)).

Lemma addReply_done r w :
  is_replica (cli w) = false -> addReply r w = Done tt (set_client (push_reply r) w).
Proof. intros Hr. unfold addReply, modify, set_client, prepareClientToWrite. by rewrite Hr. Qed.

(** ** Key space ([db.c])

    Expiry and the access statistics are not modelled: no key here has a time
    to live. *)
Definition lookupKey (key : sds) : cmd (option robj) := gets (fun w => db (srv w) !! key).
Definition lookupKeyRead (key : sds) : cmd (option robj) := lookupKey key.
Definition lookupKeyWrite (key : sds) : cmd (option robj) := lookupKey key.

Definition lookupKeyReadOrReply (key : sds) (r : reply) : cmd (option robj) :=
  o <- lookupKeyRead key ;;
  match o with
  | Some _ => ret o
  | None => addReply r ;; ret o
  end.

Definition lookupKeyWriteOrReply (key : sds) (r : reply) : cmd (option robj) :=
  o <- lookupKeyWrite key ;;
  match o with
  | Some _ => ret o
  | None => addReply r ;; ret o
  end.

(** [serverAssertWithInfo]: the key must be new. *)
Definition dbAdd (key : sds) (val : robj) : cmd unit :=
  o <- lookupKey key ;;
  match o with
  | Some _ => crash
  | None => modify (set_db <[sdsdup key := val]>)
  end.

(** Whether there was such a key. *)
Definition dbDelete (key : sds) : cmd bool :=
  o <- lookupKey key ;;
  modify (set_db (base.delete key)) ;;
  ret (bool_decide (is_Some o)).

(** The key must be there. *)
Definition dbOverwrite (key : sds) (val : robj) : cmd unit :=
  o <- lookupKey key ;;
  match o with
  | None => crash
  | Some _ => modify (set_db <[key := val]>)
  end.

Lemma lookupKey_done key w : lookupKey key w = Done (db (srv w) !! key) w.
Proof. done. Qed.

Lemma dbAdd_done key val w :
  db (srv w) !! key = None -> dbAdd key val w = Done tt (set_db <[key := val]> w).
Proof. intros Hn. unfold dbAdd. step_with (lookupKey_done key w). by rewrite Hn. Qed.
#[export] Hint Resolve lookupKey_done dbAdd_done : exec.

(** ** Objects ([object.c]) *)

Definition is_set (o : robj) : bool := match o with OSet _ => true | _ => false end.

(** [checkType(c,o,OBJ_SET)]: [true] is 1, the reply has been sent. *)
Definition checkType_set (o : robj) : cmd bool :=
  if is_set o then ret false else addReply R_wrongtypeerr ;; ret true.

(** [getLongLongFromObject] on a string object; [None] is [C_ERR], which leaves
    the target unassigned. *)
Definition getLongLongFromObject (o : sds) : option Z := string2ll o.

(** ** Set objects of the key space *)

Section SetCmds.
Context `{DictOrder}.

(** The set object a pointer refers to. *)
Definition read_set (key : sds) : cmd setobj := fun w =>
  match db (srv w) !! key with
  | Some (OSet so) => Done so w
  | _ => Crash
  end.

Definition write_set (key : sds) (so : setobj) : cmd unit := modify (set_db <[key := OSet so]>).

Definition set_add (key value : sds) : cmd bool :=
  so <- read_set key ;;
  max <- gets (fun w => set_max_intset_entries (srv w)) ;;
  r <- deref (setTypeAdd max so value) ;;
  write_set key r.1 ;; ret r.2.

Definition set_remove (key value : sds) : cmd bool :=
  so <- read_set key ;;
  let r := setTypeRemove so value in
  write_set key r.1 ;; ret r.2.
End SetCmds.

(** ** The prepare and effect phases ([CRDT.h])

    The vector of additional arguments grows by doubling. *)
Record rvector := mkRvector { rv_capacity : Z; rv_items : list sds }.

Definition INITIAL_CAPACITY : Z := 4.
Definition RVCT_PREPARE : rvector := mkRvector INITIAL_CAPACITY [].

Definition RARGV_ADD_SDS (v : rvector) (obj : sds) : rvector :=
  let capacity :=
    if Z.of_nat (length (rv_items v)) =? rv_capacity v then rv_capacity v * 2 else rv_capacity v in
  mkRvector capacity (rv_items v ++ [obj]).

Definition RVCT_BROADCAST (v : rvector) : cmd unit :=
  modify (set_client (fun c => set_rargv (Some (argv c ++ rv_items v)) c)).

Definition REPLICATION_MODE (s : server) : bool :=
  negb (Nat.eqb (length (replicas s)) 0) || negb (p2p_count s =? 0).

(** A CRDT command: [prepare] returns the additional arguments, or leaves the
    command; [effect] runs on [rargv].  Nothing happens outside the replication
    mode. *)
Definition CRDT (prepare : cmd rvector) (effect : cmd unit) : cmd unit :=
  mode <- gets (fun w => REPLICATION_MODE (srv w)) ;;
  if mode then
    r <- gets (fun w => is_replica (cli w)) ;;
    (if r then ret tt
     else rv <- prepare ;; addReply R_ok ;; RVCT_BROADCAST rv) ;;
    effect ;;
    m <- gets (fun w => replica_message (cli w)) ;;
    (when m do addReply R_ok) ;;
    creturn
  else ret tt.

(** ** Broadcast ([p2p.c])

    Each replica receives the arguments as a multi bulk; the database is
    selected first when it changed, inside a transaction with the command. *)
Definition replicationBroadcast (dictid : Z) (args : list sds) : cmd unit :=
  modify (fun w =>
    let s := srv w in
    if Nat.eqb (length (replicas s)) 0 then w
    else
      let selected := negb (p2p_seldb s =? dictid) in
      let pre := if selected then [R_multi; R_select dictid] else [] in
      let post := if selected then [R_exec] else [] in
      let msg := pre ++ R_multibulklen (Z.of_nat (length args)) :: (R_bulk <$> args) ++ post in
      mkWorld (mkServer (db s) ((fun out => out ++ msg) <$> replicas s) (p2p_count s) (p2p_id s)
                 dictid (dirty s) (set_max_intset_entries s) (total_tag_size s) (ovhd_cnt s))
        (cli w)).

(** [call] in [server.c]: the part that runs a command and propagates a CRDT
    operation.  [proc] is the handler, [dictid] the selected database. *)
Definition call (dictid : Z) (proc : cmd unit) : cmd unit :=
  r <- gets (fun w => is_replica (cli w)) ;;
  (when r do modify (set_client (fun c => set_rargv (Some (argv c)) c))) ;;
  fn proc ;;
  (fun w =>
     match rargv (cli w) with
     | Some args => if is_replica (cli w) then Done tt w else replicationBroadcast dictid args w
     | None => Done tt w
     end) ;;
  r <- gets (fun w => is_replica (cli w)) ;;
  when r do modify (set_client (set_rargv None)).

(** ** Running a CRDT command *)

(** The client after the prepare phase succeeded. *)
Definition prepared (c : client) (rv : rvector) : client :=
  mkClient (argv c) (Some (argv c ++ rv_items rv)) (is_replica c) (replica_message c)
    (R_ok :: replies c).

Lemma CRDT_origin prep eff w rv w1 w2 :
  REPLICATION_MODE (srv w) = true -> is_replica (cli w) = false ->
  prep w = Done rv w1 -> is_replica (cli w1) = false ->
  eff (mkWorld (srv w1) (prepared (cli w1) rv)) = Done tt w2 -> replica_message (cli w2) = false ->
  CRDT prep eff w = Return w2.
Proof.
  intros Hm Hr Hp Hr1 He Hmsg. unfold CRDT, bind, gets. rewrite Hm, Hr, Hp. cbn.
  unfold set_client, prepareClientToWrite. cbn. rewrite Hr1. cbn.
  unfold prepared in He. unfold set_rargv, push_reply. cbn. rewrite He, Hmsg. done.
Qed.

Lemma CRDT_origin_return prep eff w w1 :
  REPLICATION_MODE (srv w) = true -> is_replica (cli w) = false ->
  prep w = Return w1 -> CRDT prep eff w = Return w1.
Proof. intros Hm Hr Hp. unfold CRDT, bind, gets. by rewrite Hm, Hr, Hp. Qed.

(** A crash in the prepare phase takes the server down. *)
Lemma call_origin_crash dictid prep eff w :
  REPLICATION_MODE (srv w) = true -> is_replica (cli w) = false ->
  prep w = Crash -> call dictid (CRDT prep eff) w = Crash.
Proof.
  intros Hm Hr Hp. unfold call, CRDT, bind, gets, fn, ret. by rewrite Hr, Hm, Hr, Hp.
Qed.

Lemma CRDT_delivery prep eff w w1 :
  REPLICATION_MODE (srv w) = true -> is_replica (cli w) = true ->
  eff w = Done tt w1 -> replica_message (cli w1) = false ->
  CRDT prep eff w = Return w1.
Proof. intros Hm Hr He Hmsg. unfold CRDT, bind, gets, ret. by rewrite Hm, Hr, He, Hmsg. Qed.

(** The bytes one broadcast sends to a replica. *)
Definition broadcast_msg (s : server) (dictid : Z) (args : list sds) : list reply :=
  let selected := negb (p2p_seldb s =? dictid) in
  (if selected then [R_multi; R_select dictid] else []) ++
  R_multibulklen (Z.of_nat (length args)) :: (R_bulk <$> args) ++ (if selected then [R_exec] else []).

Lemma call_origin dictid proc w w1 args :
  is_replica (cli w) = false -> proc w = Return w1 -> is_replica (cli w1) = false ->
  rargv (cli w1) = Some args ->
  exists w2, call dictid proc w = Done tt w2 /\ cli w2 = cli w1 /\ db (srv w2) = db (srv w1) /\
    p2p_count (srv w2) = p2p_count (srv w1) /\ p2p_id (srv w2) = p2p_id (srv w1) /\
    set_max_intset_entries (srv w2) = set_max_intset_entries (srv w1) /\
    replicas (srv w2) = (fun out => out ++ broadcast_msg (srv w1) dictid args) <$> replicas (srv w1).
Proof.
  intros Hr Hp Hr1 Ha. unfold call, bind, gets, fn, ret, replicationBroadcast, modify.
  rewrite Hr, Hp, Ha, Hr1. destruct (Nat.eqb_spec (length (replicas (srv w1))) 0) as [Hz|Hz].
  - exists w1. rewrite Hr1. destruct (replicas (srv w1)); done.
  - eexists. cbn. rewrite Hr1. split; [done|]. by split_and!.
Qed.

Lemma call_no_broadcast dictid proc w w1 :
  is_replica (cli w) = false -> proc w = Return w1 -> is_replica (cli w1) = false ->
  rargv (cli w1) = None -> call dictid proc w = Done tt w1.
Proof.
  intros Hr Hp Hr1 Ha. unfold call, bind, gets, fn, ret. rewrite Hr, Hp, Ha, Hr1. done.
Qed.

Lemma call_delivery dictid proc w w1 :
  is_replica (cli w) = true ->
  proc (set_client (fun c => set_rargv (Some (argv c)) c) w) = Return w1 -> is_replica (cli w1) = true ->
  call dictid proc w = Done tt (set_client (set_rargv None) w1).
Proof.
  intros Hr Hp Hr1. unfold call, bind, gets, fn, ret, modify. rewrite Hr, Hp.
  destruct (rargv (cli w1)); rewrite Hr1; [rewrite Hr1|]; done.
Qed.

(** A crash in the effect phase of a delivered command. *)
Lemma call_delivery_crash dictid prep eff w :
  REPLICATION_MODE (srv w) = true -> is_replica (cli w) = true ->
  eff (set_client (fun c => set_rargv (Some (argv c)) c) w) = Crash ->
  call dictid (CRDT prep eff) w = Crash.
Proof.
  intros Hm Hr He. unfold call, CRDT, bind, gets, fn, ret, modify. rewrite Hr.
  unfold set_client in *. cbn [srv]. rewrite Hm. cbn [cli is_replica set_rargv]. rewrite ?Hr. by rewrite He.
Qed.

(** ** The state after a command on the plain types *)

(** The state [w] with the key space [d], the replies [rs] (newest first) added
    and [n] more changes. *)
Definition after (w : world) (d : gmap sds robj) (rs : list reply) (n : Z) : world :=
  add_dirty n (set_client (fun c => mkClient (argv c) (rargv c) (is_replica c) (replica_message c) (rs ++ replies c))
    (set_db (fun _ => d) w)).

Lemma after_start w : after w (db (srv w)) [] 0 = w.
Proof. destruct w as [[] []]. unfold after, add_dirty, set_client, set_db. cbn. by rewrite Z.add_0_r. Qed.

Lemma addReply_after w d rs n r :
  is_replica (cli w) = false -> addReply r (after w d rs n) = Done tt (after w d (r :: rs) n).
Proof. intros Hr. by rewrite addReply_done. Qed.

Lemma addReply_start w r : is_replica (cli w) = false -> addReply r w = Done tt (after w (db (srv w)) [r] 0).
Proof. intros Hr. rewrite <- (after_start w) at 1. by apply addReply_after. Qed.

Lemma dirty_after w d rs n m : modify (add_dirty m) (after w d rs n) = Done tt (after w d rs (n + m)).
Proof. unfold modify, after, add_dirty, set_client, set_db. cbn. by rewrite Z.add_assoc. Qed.

Lemma arg_after w i x d rs n : index (argv (cli w)) i = Some x -> arg i (after w d rs n) = Done x (after w d rs n).
Proof. intros Hi. unfold arg. change (argv (cli (after w d rs n))) with (argv (cli w)). by rewrite Hi. Qed.

Lemma arg_start w i x : index (argv (cli w)) i = Some x -> arg i w = Done x w.
Proof. intros Hi. unfold arg. by rewrite Hi. Qed.

Lemma argc_start w : argc w = Done (Z.of_nat (length (argv (cli w)))) w.
Proof. done. Qed.
