(* ===== verification/HashCommands.v ===== *)
(** * Hash commands ([t_hash.c])

    The commands on hashes of strings, on the key space of [Server].  Commands on
    the hashes that hold metadata, which clients do not address, are not modelled
    and crash here; so are [hincrbyfloat], which computes in long doubles, and
    [hscan]. *)
From Stdlib Require Import ZArith Lia Ascii String.
From S2P Require Import Dict DictMap DictIter.
From stdpp Require Import base numbers strings gmap list.
From S2P Require Import Prelude Sds Ziplist ZiplistRep ZiplistQuery HashType HashRep Server.
Open Scope Z_scope.

Section HashCommands.
Context (hashKey : sds -> Z) (dict_can_resize : bool) (max_entries max_value : Z).
Implicit Types (key field : sds) (hi : hashTypeIterator).

(** Apply an operation to the object stored under a key. *)
Definition on_hash {A} key (f : hobj -> option (hobj * A)) : cmd A :=
  o <- lookupKey key ;;
  match o with
  | Some (OHashStr o) =>
      r <- deref (f o) ;;
      modify (set_db <[key := OHashStr r.1]>) ;;
      ret r.2
  | _ => crash
  end.

Definition is_hash (o : robj) : bool := match o with OHashStr _ | OHash _ => true | _ => false end.

(** [checkType(c,o,OBJ_HASH)]: [true] is 1, the reply has been sent. *)
Definition checkType_hash (o : robj) : cmd bool :=
  if is_hash o then ret false else addReply R_wrongtypeerr ;; ret true.

(** [false] is a null pointer. *)
Definition hashTypeLookupWriteOrCreate key : cmd bool :=
  o <- lookupKeyWrite key ;;
  match o with
  | None => o <- deref createHashObject ;; dbAdd key (OHashStr o) ;; ret true
  | Some o => if is_hash o then ret true else addReply R_wrongtypeerr ;; ret false
  end.

Definition try_conversion (args : list sds) (o : hobj) : option (hobj * unit) :=
  o ← hashTypeTryConversion hashKey dict_can_resize max_value o args; Some (o, tt).

Definition set_field field (value : sds) (o : hobj) : option (hobj * bool) := hashTypeSet hashKey dict_can_resize max_entries o field value.
Definition get_field field (o : hobj) : option (hobj * option hval) := hashTypeGetValue hashKey o field.
Definition delete_field field (o : hobj) : option (hobj * bool) := hashTypeDelete hashKey dict_can_resize o field.

Definition hsetnxCommand : cmd unit :=
  key <- arg 1 ;;
  ok <- hashTypeLookupWriteOrCreate key ;;
  if negb ok then creturn
  else
    field <- arg 2 ;;
    value <- arg 3 ;;
    on_hash key (try_conversion [field; value]) ;;
    exists_ <- on_hash key (fun o => hashTypeExists hashKey o field) ;;
    if (exists_ : bool) then addReply R_czero
    else
      on_hash key (set_field field value) ;;
      addReply R_cone ;;
      modify inc_dirty.

(** The loop over the pairs of arguments from [i] on; the number of fields that
    are new. *)
Fixpoint hset_loop (n : nat) key (i created : Z) : cmd Z :=
  match n with
  | O => ret created
  | S n =>
      field <- arg i ;;
      value <- arg (i + 1) ;;
      update <- on_hash key (set_field field value) ;;
      hset_loop n key (i + 2) (created + (if (update : bool) then 0 else 1))
  end.

(** Also [hmset], told by the second letter of the name. *)
Definition hsetCommand : cmd unit :=
  n <- argc ;;
  if n mod 2 =? 1 then addReply (R_error "wrong number of arguments for HMSET") ;; creturn
  else
    key <- arg 1 ;;
    ok <- hashTypeLookupWriteOrCreate key ;;
    if negb ok then creturn
    else
      args <- gets (fun w => drop 2 (argv (cli w))) ;;
      on_hash key (try_conversion args) ;;
      created <- hset_loop (Z.to_nat ((n - 2) / 2)) key 2 0 ;;
      cmdname <- arg 0 ;;
      c <- deref (chars cmdname !! 1%nat) ;;
      (if bool_decide (c = "s"%char) || bool_decide (c = "S"%char) then addReply (R_longlong created) else addReply R_ok) ;;
      modify inc_dirty.

(** [None] is [C_ERR], the reply has been sent. *)
Definition getLongLongFromObjectOrReply (o : sds) : cmd (option Z) :=
  match getLongLongFromObject o with
  | Some v => ret (Some v)
  | None => addReply (R_error "value is not an integer or out of range") ;; ret None
  end.

(** The number a field holds, as [hashTypeGetValue] returned it. *)
Definition hash_integer (r : option hval) : cmd Z :=
  match r with
  | None => ret 0
  | Some (inr ll) => ret ll
  | Some (inl b) =>
      match string2ll (sdsnewlen b) with
      | Some ll => ret ll
      | None => addReply (R_error "hash value is not an integer") ;; creturn
      end
  end.

Definition would_overflow (oldvalue incr : Z) : bool :=
  ((incr <? 0) && (oldvalue <? 0) && (incr <? LLONG_MIN - oldvalue)) ||
  ((0 <? incr) && (0 <? oldvalue) && (LLONG_MAX - oldvalue <? incr)).

(** From the check on. *)
Definition hincrby_add key field (oldvalue incr : Z) : cmd unit :=
  if would_overflow oldvalue incr then addReply (R_error "increment or decrement would overflow") ;; creturn
  else
    let value := to_llong (oldvalue + incr) in
    on_hash key (set_field field (sdsfromlonglong value)) ;;
    addReply (R_longlong value) ;;
    modify inc_dirty.

Definition hincrbyCommand : cmd unit :=
  a <- arg 3 ;;
  incr <- getLongLongFromObjectOrReply a ;;
  match incr with
  | None => creturn
  | Some incr =>
      key <- arg 1 ;;
      ok <- hashTypeLookupWriteOrCreate key ;;
      if negb ok then creturn
      else
        field <- arg 2 ;;
        r <- on_hash key (get_field field) ;;
        value <- hash_integer r ;;
        hincrby_add key field value incr
  end.

(** The reply for one field; [present] tells whether there is an object. *)
Definition addHashFieldToReply key (present : bool) field : cmd unit :=
  if negb present then addReply R_nullbulk
  else
    v <- on_hash key (get_field field) ;;
    match v with
    | None => addReply R_nullbulk
    | Some v => addReply (R_bulk (value_sds v))
    end.

Definition hgetCommand : cmd unit :=
  key <- arg 1 ;;
  o <- lookupKeyReadOrReply key R_nullbulk ;;
  match o with
  | None => creturn
  | Some o =>
      wrong <- checkType_hash o ;;
      if (wrong : bool) then creturn
      else field <- arg 2 ;; addHashFieldToReply key true field
  end.

Definition hmgetCommand : cmd unit :=
  key <- arg 1 ;;
  o <- lookupKeyRead key ;;
  if negb (match o with Some o => is_hash o | None => true end) then addReply R_wrongtypeerr ;; creturn
  else
    n <- argc ;;
    addReply (R_multibulklen (n - 2)) ;;
    fields <- gets (fun w => drop 2 (argv (cli w))) ;;
    for_each fields (addHashFieldToReply key (match o with Some _ => true | None => false end)).

(** The number of fields deleted; the loop is left when the hash is empty. *)
Fixpoint hdel_loop (fields : list sds) key (deleted : Z) : cmd Z :=
  match fields with
  | [] => ret deleted
  | field :: fields =>
      d <- on_hash key (delete_field field) ;;
      if (d : bool) then
        let deleted := deleted + 1 in
        n <- on_hash key hashTypeLength ;;
        if n =? 0 then dbDelete key ;; ret deleted else hdel_loop fields key deleted
      else hdel_loop fields key deleted
  end.

Definition hdelCommand : cmd unit :=
  key <- arg 1 ;;
  o <- lookupKeyWriteOrReply key R_czero ;;
  match o with
  | None => creturn
  | Some o =>
      wrong <- checkType_hash o ;;
      if (wrong : bool) then creturn
      else
        fields <- gets (fun w => drop 2 (argv (cli w))) ;;
        deleted <- hdel_loop fields key 0 ;;
        (when negb (deleted =? 0) do modify (add_dirty deleted)) ;;
        addReply (R_longlong deleted)
  end.

(** [hlen], [hstrlen] and [hexists]: one number read from the object. *)
Definition hash_number (f : sds -> cmd Z) : cmd unit :=
  key <- arg 1 ;;
  o <- lookupKeyReadOrReply key R_czero ;;
  match o with
  | None => creturn
  | Some o =>
      wrong <- checkType_hash o ;;
      if (wrong : bool) then creturn else n <- f key ;; addReply (R_longlong n)
  end.

Definition hlenCommand : cmd unit := hash_number (fun key => on_hash key hashTypeLength).
Definition hstrlenCommand : cmd unit :=
  hash_number (fun key => field <- arg 2 ;; on_hash key (fun o => hashTypeGetValueLength hashKey o field)).

Definition hexistsCommand : cmd unit :=
  key <- arg 1 ;;
  o <- lookupKeyReadOrReply key R_czero ;;
  match o with
  | None => creturn
  | Some o =>
      wrong <- checkType_hash o ;;
      if (wrong : bool) then creturn
      else
        field <- arg 2 ;;
        b <- on_hash key (fun o => hashTypeExists hashKey o field) ;;
        addReply (if (b : bool) then R_cone else R_czero)
  end.

(** [what]: the field, not the value. *)
Definition addHashIteratorCursorToReply key hi (what : bool) : cmd unit :=
  v <- on_hash key (fun o => v ← hashTypeCurrentObject o hi what; Some (o, v)) ;;
  addReply (R_bulk (value_sds v)).

(** The loop of [genericHgetallCommand]; the number of replies. *)
Fixpoint hgetall_loop (fuel : nat) key (fields values : bool) hi (count : Z) : cmd Z :=
  match fuel with
  | O => out_of_fuel
  | S fuel =>
      r <- on_hash key (fun o => '(o, hi, more) ← hashTypeNext o hi; Some (o, (hi, more))) ;;
      let hi := r.1 in
      if (r.2 : bool) then
        (when fields do addHashIteratorCursorToReply key hi true) ;;
        (when values do addHashIteratorCursorToReply key hi false) ;;
        hgetall_loop fuel key fields values hi (count + (if fields then 1 else 0) + (if values then 1 else 0))
      else
        on_hash key (fun o => Some (hashTypeReleaseIterator o hi, tt)) ;;
        ret count
  end.

(** [OBJ_HASH_KEY] and [OBJ_HASH_VALUE].  One turn for each field, and the end. *)
Definition genericHgetallCommand (fields values : bool) : cmd unit :=
  key <- arg 1 ;;
  o <- lookupKeyReadOrReply key R_emptymultibulk ;;
  match o with
  | None => creturn
  | Some o =>
      wrong <- checkType_hash o ;;
      if (wrong : bool) then creturn
      else
        n <- on_hash key hashTypeLength ;;
        let length := n * ((if fields then 1 else 0) + (if values then 1 else 0)) in
        addReply (R_multibulklen length) ;;
        hi <- on_hash key (fun o => Some (o, hashTypeInitIterator o)) ;;
        count <- hgetall_loop (S (Z.to_nat n)) key fields values hi 0 ;;
        if count =? length then ret tt else crash
  end.

Definition hkeysCommand : cmd unit := genericHgetallCommand true false.
Definition hvalsCommand : cmd unit := genericHgetallCommand false true.
Definition hgetallCommand : cmd unit := genericHgetallCommand true true.
End HashCommands.
