(* ===== verification/HashClient.v ===== *)
(** * What the hash commands do ([t_hash.c])

    Each command on a key that holds a hash, or nothing: the reply, the new
    contents of the hash as a finite map, and that nothing else changes. *)
From Stdlib Require Import ZArith Lia Ascii String.
From S2P Require Import Dict DictMap DictIter.
From stdpp Require Import base numbers strings gmap list.
From S2P Require Import Prelude Sds Ziplist ZiplistRep ZiplistQuery HashType HashRep Server HashCommands.
Open Scope Z_scope.

(** The hash [o] under [key]. *)
Definition st (w : world) (key : sds) (o : hobj) (rs : list reply) (n : Z) : world :=
  after w (<[key := OHashStr o]> (db (srv w))) rs n.

Lemma st_start w key o : db (srv w) !! key = Some (OHashStr o) -> st w key o [] 0 = w.
Proof. intros Hk. unfold st. rewrite insert_id by done. apply after_start. Qed.

Section Steps.
Context (w : world) (key : sds).
Implicit Types (o : hobj) (rs : list reply) (n : Z).

Lemma on_hash_st {A} (f : hobj -> option (hobj * A)) o o' (a : A) rs n : f o = Some (o', a) -> on_hash key f (st w key o rs n) = Done a (st w key o' rs n).
Proof.
  intros Hf. unfold on_hash. step_with (lookupKey_done key (st w key o rs n)). change (db (srv (st w key o rs n))) with (<[key := OHashStr o]> (db (srv w))).
  rewrite lookup_insert_eq, Hf. cbv beta iota. change (Done a (set_db <[key := OHashStr o']> (st w key o rs n)) = Done a (st w key o' rs n)). f_equal.
  unfold st, after, add_dirty, set_client, set_db. cbn. by rewrite insert_insert_eq.
Qed.

Lemma addReply_st r o rs n : is_replica (cli w) = false -> addReply r (st w key o rs n) = Done tt (st w key o (r :: rs) n).
Proof. intros Hr. by rewrite addReply_done. Qed.

Lemma addReply_there r o : is_replica (cli w) = false -> db (srv w) !! key = Some (OHashStr o) -> addReply r w = Done tt (st w key o [r] 0).
Proof. intros Hr Hk. rewrite <- (st_start w key o Hk) at 1. by apply addReply_st. Qed.

Lemma fields_st o rs n : gets (fun w => drop 2 (argv (cli w))) (st w key o rs n) = Done (drop 2 (argv (cli w))) (st w key o rs n).
Proof. done. Qed.

Lemma arg_st i x o rs n : index (argv (cli w)) i = Some x -> arg i (st w key o rs n) = Done x (st w key o rs n).
Proof. apply arg_after. Qed.

Lemma dirty_st o rs n : modify inc_dirty (st w key o rs n) = Done tt (st w key o rs (n + 1)).
Proof. unfold modify, st, after, add_dirty, inc_dirty, set_client, set_db. cbn. by rewrite Z.add_assoc. Qed.
End Steps.

(** ** Room *)

Section Client.
Context (hashKey : sds -> Z) (dict_can_resize : bool) (max_entries max_value : Z).
Implicit Types (o : hobj) (m : gmap sds sds) (key f v : sds) (kvs : list (sds * sds)).

(** Room for the strings [l]. *)
Definition room_for o m (l : list sds) : Prop :=
  match o with
  | HZiplist _ => Z.of_nat (weight (flat (map_to_list m)) + weight l) + 100 < 4294967296
  | HHT _ => Z.of_nat (size m + length l) < 2 ^ 61
  end.

Lemma weight_cons s l : weight (s :: l) = (22 + String.length s + weight l)%nat.
Proof. done. Qed.

Lemma weight_insert m f v : (weight (flat (map_to_list (<[f := v]> m))) <= weight (flat (map_to_list m)) + weight [f; v])%nat.
Proof.
  assert (forall (m : gmap sds sds), m !! f = None -> weight (flat (map_to_list (<[f := v]> m))) = weight (flat (map_to_list m)) + weight [f; v])%nat as Hnew.
  { clear. intros m Hm. rewrite (weight_perm _ ((f, v) :: map_to_list m)) by (by apply map_to_list_insert).
    change (flat ((f, v) :: map_to_list m)) with (f :: v :: flat (map_to_list m)). rewrite !weight_cons. cbn. lia. }
  destruct (m !! f) as [w|] eqn:Hm; [|by rewrite Hnew]. rewrite <- insert_delete_eq, Hnew by apply lookup_delete_eq.
  rewrite <- (insert_delete_id m f w Hm) at 2. rewrite (weight_perm (map_to_list (<[f := w]> (base.delete f m))) ((f, w) :: map_to_list (base.delete f m)))
    by (apply map_to_list_insert, lookup_delete_eq).
  change (flat ((f, w) :: map_to_list (base.delete f m))) with (f :: w :: flat (map_to_list (base.delete f m))). rewrite !weight_cons. lia.
Qed.

Lemma weight_delete m f : (weight (flat (map_to_list (base.delete f m))) <= weight (flat (map_to_list m)))%nat.
Proof.
  destruct (m !! f) as [w|] eqn:Hm; [|by rewrite delete_id]. rewrite <- (insert_delete_id m f w Hm) at 2.
  rewrite (weight_perm (map_to_list (<[f := w]> (base.delete f m))) ((f, w) :: map_to_list (base.delete f m))) by (apply map_to_list_insert, lookup_delete_eq).
  change (flat ((f, w) :: map_to_list (base.delete f m))) with (f :: w :: flat (map_to_list (base.delete f m))). rewrite !weight_cons. lia.
Qed.

Lemma weight_size l : (22 * length l <= weight l)%nat.
Proof. induction l as [|s l IH]; [done|]. rewrite weight_cons. cbn [length]. lia. Qed.

(** A ziplist with room that became a table has room. *)
Lemma room_table m l d : room_for (HZiplist []) m l -> room_for (HHT d) m l.
Proof.
  cbn [room_for]. intros Hr. pose proof (weight_size l). pose proof (weight_size (flat (map_to_list m))) as Hs. rewrite length_flat, length_map_to_list in Hs.
  change (2 ^ 61) with 2305843009213693952. lia.
Qed.

Lemma room_keep o o' m l : (forall d, o = HHT d -> exists d', o' = HHT d') -> room_for o m l -> room_for o' m l.
Proof.
  destruct o as [zl|d], o' as [zl'|d']; intros Hk Hr; try done; [by apply room_table|]. destruct (Hk d eq_refl) as [? ?]. done.
Qed.

Lemma room_less o m m' l l' : (weight (flat (map_to_list m')) + weight l' <= weight (flat (map_to_list m)) + weight l)%nat -> (size m' + length l' <= size m + length l)%nat ->
  room_for o m l -> room_for o m' l'.
Proof. destruct o; cbn [room_for]; lia. Qed.

Lemma room_hash o m f v l : room_for o m (f :: v :: l) -> hash_room o m f v.
Proof. destruct o; cbn [room_for hash_room]; rewrite ?weight_cons; cbn [length]; lia. Qed.

(** The encoding of a table does not change. *)
Lemma set_table o o' f v b : hashTypeSet hashKey dict_can_resize max_entries o f v = Some (o', b) -> forall d, o = HHT d -> exists d', o' = HHT d'.
Proof.
  intros Hs d ->. cbn [hashTypeSet] in Hs. destruct (Dict.dictFind _ _ _) as [[d1 [p|]]|]; [| |done]; cbn [mbind option_bind] in Hs.
  - destruct (Dict.dictSetVal _ _ _) as [d2|]; [|done]. injection Hs as <- _. by eexists.
  - destruct (Dict.dictAdd _ _ _ _ _) as [[d2 ?]|]; [|done]. injection Hs as <- _. by eexists.
Qed.

Lemma size_insert_le m f v : (size (<[f := v]> m) <= S (size m))%nat.
Proof. destruct (m !! f) as [w|] eqn:Hm; [rewrite map_size_insert_Some by done; lia|by rewrite map_size_insert_None]. Qed.

(** One [hashTypeSet]. *)
Lemma set_step o m f v l : hash_ok hashKey o m -> room_for o m (f :: v :: l) ->
  exists o', set_field hashKey dict_can_resize max_entries f v o = Some (o', bool_decide (is_Some (m !! f))) /\
    hash_ok hashKey o' (<[f := v]> m) /\ room_for o' (<[f := v]> m) l.
Proof.
  intros Hok Hr. destruct (hashTypeSet_spec hashKey dict_can_resize max_entries o m f v Hok (room_hash _ _ _ _ _ Hr)) as (o' & Hs & Hok').
  exists o'. split_and!; [done|done|]. apply (room_keep o); [by eapply set_table|]. revert Hr. apply room_less.
  - pose proof (weight_insert m f v). rewrite !weight_cons in *. cbn in *. lia.
  - pose proof (size_insert_le m f v). cbn [length]. lia.
Qed.

(** ** Commands *)

(** What [key] holds: a hash, or nothing. *)
Definition hash_at (w : world) key m (l : list sds) : Prop :=
  is_replica (cli w) = false /\
  match db (srv w) !! key with
  | None => m = ∅ /\ Z.of_nat (weight l) + 100 < 4294967296
  | Some (OHashStr o) => hash_ok hashKey o m /\ room_for o m l
  | Some _ => False
  end.

Lemma lookup_or_create w key m l : hash_at w key m l ->
  exists o, hashTypeLookupWriteOrCreate key w = Done true (st w key o [] 0) /\ hash_ok hashKey o m /\ room_for o m l.
Proof.
  intros [_ Hk]. unfold hashTypeLookupWriteOrCreate, lookupKeyWrite. step_with (lookupKey_done key w). destruct (db (srv w) !! key) as [[]|] eqn:Hdb; try done.
  - exists o. by rewrite st_start.
  - destruct Hk as [-> Hl]. destruct (createHashObject_spec hashKey) as (o & Hc & Hok). exists o. rewrite Hc. cbn [is_hash].
    step_with (deref_some o w). step_with (dbAdd_done key (OHashStr o) w Hdb). split_and!; [|done|].
    + unfold ret. f_equal. unfold st. rewrite <- (after_start w) at 1. done.
    + unfold createHashObject in Hc. destruct ziplistNew; [|done]. injection Hc as <-. cbn [room_for]. rewrite map_to_list_empty. cbn. lia.
Qed.

(** The reading commands, of a key that holds a hash. *)
Definition hash_there (w : world) key o m : Prop :=
  is_replica (cli w) = false /\ db (srv w) !! key = Some (OHashStr o) /\ hash_ok hashKey o m.

Lemma lookup_read w key o m r : hash_there w key o m -> lookupKeyReadOrReply key r w = Done (Some (OHashStr o)) (st w key o [] 0).
Proof.
  intros (_ & Hk & _). unfold lookupKeyReadOrReply, lookupKeyRead. step_with (lookupKey_done key w). rewrite Hk, st_start by done. done.
Qed.

Lemma try_conversion_spec o m l l' : hash_ok hashKey o m -> room_for o m l ->
  exists o', try_conversion hashKey dict_can_resize max_value l' o = Some (o', tt) /\ hash_ok hashKey o' m /\ room_for o' m l.
Proof.
  intros Hok Hr. unfold try_conversion. destruct (hashTypeTryConversion_spec hashKey dict_can_resize max_value o m l' Hok) as (o' & Ht & Hok'). rewrite Ht.
  exists o'. split_and!; [done|done|]. apply (room_keep o); [|done]. intros d ->. cbn in Ht. injection Ht as <-. by eexists.
Qed.

(** *** [hsetnx] *)

Lemma hsetnx_spec w name key f v m : argv (cli w) = [name; key; f; v] -> hash_at w key m [f; v] ->
  exists o, hash_ok hashKey o (if decide (is_Some (m !! f)) then m else <[f := v]> m) /\
    hsetnxCommand hashKey dict_can_resize max_entries max_value w =
    Done tt (if decide (is_Some (m !! f)) then st w key o [R_czero] 0 else st w key o [R_cone] 1).
Proof.
  intros Ha Hat. pose proof (proj1 Hat) as Hr. unfold hsetnxCommand. step_with (arg_start w 1 key ltac:(by rewrite Ha)).
  destruct (lookup_or_create w key m _ Hat) as (o & Hl & Hok & Hroom). step_with Hl. cbn [negb].
  step_with (arg_st w key 2 f o [] 0 ltac:(by rewrite Ha)). step_with (arg_st w key 3 v o [] 0 ltac:(by rewrite Ha)).
  destruct (try_conversion_spec o m _ [f; v] Hok Hroom) as (o1 & Ht & Hok1 & Hroom1). step_with (on_hash_st w key _ _ _ _ [] 0 Ht).
  destruct (hashTypeGetValue_spec hashKey o1 m f Hok1) as (o2 & Hg & Hok2 & _ & He). step_with (on_hash_st w key (fun o => hashTypeExists hashKey o f) _ _ _ [] 0 He).
  case_decide as Hf.
  - rewrite bool_decide_true by done. exists o2. split; [done|]. by rewrite addReply_st.
  - rewrite bool_decide_false by done. assert (room_for o2 m [f; v]) as Hroom2.
    { apply (room_keep o1); [|done]. intros d ->. cbn [hashTypeGetValue] in Hg. destruct (hashTypeGetFromHashTable _ _ _) as [[d' ?]|]; [|done]. injection Hg as <- _. by eexists. }
    destruct (set_step o2 m f v [] Hok2 Hroom2) as (o3 & Hs & Hok3 & _). step_with (on_hash_st w key _ _ _ _ [] 0 Hs).
    step_with (addReply_st w key R_cone o3 [] 0 Hr). exists o3. split; [done|]. by rewrite dirty_st.
Qed.

(** *** [hset] *)

Definition put_all m kvs : gmap sds sds := foldl (fun m kv => <[kv.1 := kv.2]> m) m kvs.

Lemma hset_loop_spec w key kvs : forall (i : nat) o m created, drop i (argv (cli w)) = flat kvs -> hash_ok hashKey o m -> room_for o m (flat kvs) ->
  exists o', hset_loop hashKey dict_can_resize max_entries (length kvs) key (Z.of_nat i) created (st w key o [] 0) =
    Done (created + (Z.of_nat (size (put_all m kvs)) - Z.of_nat (size m))) (st w key o' [] 0) /\ hash_ok hashKey o' (put_all m kvs).
Proof.
  induction kvs as [|[f v] kvs IH]; intros i o m created Ha Hok Hr; cbn [length hset_loop].
  - exists o. split; [|done]. unfold ret. cbn. do 2 f_equal. lia.
  - change (flat ((f, v) :: kvs)) with (f :: v :: flat kvs) in *.
    assert (forall j x, (f :: v :: flat kvs) !! j = Some x -> index (argv (cli w)) (Z.of_nat i + Z.of_nat j) = Some x) as Harg.
    { intros j x Hx. unfold index. destruct (Z.ltb_spec (Z.of_nat i + Z.of_nat j) 0); [lia|]. rewrite <- Nat2Z.inj_add, Nat2Z.id, <- lookup_drop, Ha. done. }
    pose proof (Harg 0%nat f eq_refl) as H0. rewrite Z.add_0_r in H0. step_with (arg_st w key _ f o [] 0 H0).
    step_with (arg_st w key _ v o [] 0 (Harg 1%nat v eq_refl)). destruct (set_step o m f v _ Hok Hr) as (o1 & Hs & Hok1 & Hr1).
    step_with (on_hash_st w key _ _ _ _ [] 0 Hs). replace (Z.of_nat i + 2) with (Z.of_nat (S (S i))) by lia.
    destruct (IH (S (S i)) o1 (<[f := v]> m) (created + (if bool_decide (is_Some (m !! f)) then 0 else 1))) as (o2 & -> & Hok2); [|done|done|].
    { replace (S (S i)) with (i + 2)%nat by lia. by rewrite <- drop_drop, Ha. }
    exists o2. split; [|done]. f_equal. unfold put_all. cbn [foldl fst snd]. destruct (m !! f) as [x|] eqn:Hm.
    + rewrite bool_decide_true by done. rewrite map_size_insert_Some by done. lia.
    + rewrite bool_decide_false by (by intros [? ?]). rewrite map_size_insert_None by done. lia.
Qed.

(** [c]: the second letter of the command. *)
Lemma hset_spec w name key kvs m c : argv (cli w) = name :: key :: flat kvs -> chars name !! 1%nat = Some c -> hash_at w key m (flat kvs) ->
  exists o, hash_ok hashKey o (put_all m kvs) /\
    hsetCommand hashKey dict_can_resize max_entries max_value w =
    Done tt (st w key o [if bool_decide (c = "s"%char) || bool_decide (c = "S"%char)
                         then R_longlong (Z.of_nat (size (put_all m kvs)) - Z.of_nat (size m)) else R_ok] 1).
Proof.
  intros Ha Hc Hat. pose proof (proj1 Hat) as Hr. unfold hsetCommand. step_with (argc_start w). rewrite Ha. cbn [length]. rewrite length_flat.
  replace (Z.of_nat (S (S (2 * length kvs)))) with ((1 + Z.of_nat (length kvs)) * 2) by lia. rewrite Z.mod_mul by lia. cbn [Z.eqb].
  step_with (arg_start w 1 key ltac:(by rewrite Ha)).
  destruct (lookup_or_create w key m _ Hat) as (o & Hl & Hok & Hroom). step_with Hl. cbn [negb]. step_with (fields_st w key o [] 0).
  rewrite Ha, !skipn_cons, drop_0.
  destruct (try_conversion_spec o m _ (flat kvs) Hok Hroom) as (o1 & Ht & Hok1 & Hroom1). step_with (on_hash_st w key _ _ _ _ [] 0 Ht).
  replace (Z.to_nat (((1 + Z.of_nat (length kvs)) * 2 - 2) / 2)) with (length kvs).
  2:{ replace ((1 + Z.of_nat (length kvs)) * 2 - 2) with (Z.of_nat (length kvs) * 2) by lia. rewrite Z.div_mul by lia. lia. }
  destruct (hset_loop_spec w key kvs 2 o1 m 0) as (o2 & Hloop & Hok2); [by rewrite Ha|done|done|]. step_with Hloop.
  step_with (arg_st w key 0 name o2 [] 0 ltac:(by rewrite Ha)). rewrite Hc. step_with (deref_some c (st w key o2 [] 0)).
  exists o2. split; [done|]. rewrite Z.add_0_l. destruct (_ || _); rewrite (bind_done _ _ _ _ _ (addReply_st w key _ o2 [] 0 Hr)); by rewrite dirty_st.
Qed.

(** *** [hincrby] *)

(** The reading of a field in an object that stays in its encoding. *)
Lemma get_step o m f l : hash_ok hashKey o m -> room_for o m l ->
  exists o', get_field hashKey f o = Some (o', read_as o <$> m !! f) /\ hash_ok hashKey o' m /\ room_for o' m l.
Proof.
  intros Hok Hr. destruct (hashTypeGetValue_spec hashKey o m f Hok) as (o' & Hg & Hok' & _). exists o'. split_and!; [done|done|].
  apply (room_keep o); [|done]. intros d ->. cbn [hashTypeGetValue] in Hg. destruct (hashTypeGetFromHashTable _ _ _) as [[d' ?]|]; [|done]. injection Hg as <- _. by eexists.
Qed.

(** What [hincrby] takes for the value of a field. *)
Definition number_of (v : option sds) : option Z := match v with None => Some 0 | Some s => string2ll s end.

Lemma hash_integer_spec o o' (v : option sds) w key : is_replica (cli w) = false ->
  hash_integer (read_as o <$> v) (st w key o' [] 0) =
  match number_of v with
  | Some z => Done z (st w key o' [] 0)
  | None => Return (st w key o' [R_error "hash value is not an integer"] 0)
  end.
Proof.
  intros Hr. destruct v as [s|]; [|done]. cbn [fmap option_fmap option_map number_of]. pose proof (value_sds_read o s) as Hv.
  assert (match read_as o s with inl b => True | inr ll => string2ll s = Some ll end) as Hn.
  { destruct o; cbn [read_as]; [|done]. unfold evalue. destruct (zipTryEncoding s) as [[ll enc]|] eqn:Ht; [|done].
    apply try_encoding in Ht as (Hll & _ & <-). by apply string2ll_print. }
  destruct (read_as o s) as [b|ll]; cbn [hash_integer]; [|by rewrite Hn]. cbn [value_sds] in Hv. rewrite Hv. destruct (string2ll s); [done|].
  by step_with (addReply_st w key (R_error "hash value is not an integer") o' [] 0 Hr).
Qed.

(** The check is exact. *)
Lemma would_overflow_spec value incr : in_llong value -> in_llong incr -> would_overflow value incr = bool_decide (~ in_llong (value + incr)).
Proof.
  intros Hv Hi. unfold would_overflow. apply eq_true_iff_eq. rewrite bool_decide_eq_true, orb_true_iff, !andb_true_iff, !Z.ltb_lt. clia.
Qed.

Lemma number_of_range (v : option sds) z : number_of v = Some z -> in_llong z.
Proof. destruct v as [s|]; cbn; [intros Hs; by apply string2ll_canonical in Hs as [? _]|intros [= <-]; clia]. Qed.

(** No number is longer than the least one. *)
Lemma digits_rev_bound fuel : forall n z, 0 <= z < 10 ^ Z.of_nat (S n) -> (length (digits_rev fuel z) <= S n)%nat.
Proof.
  induction fuel as [|fuel IH]; intros n z Hz; [cbn; lia|]. cbn [digits_rev length]. destruct (Z.eqb_spec (z / 10) 0) as [|Hne]; [cbn; lia|].
  destruct n as [|n]; [destruct Hne; apply Z.div_small; by change (10 ^ Z.of_nat 1) with 10 in Hz|].
  enough (length (digits_rev fuel (z / 10)) <= S n)%nat by lia. apply IH. split; [apply Z.div_pos; lia|]. apply Z.div_lt_upper_bound; [lia|].
  replace (Z.of_nat (S (S n))) with (1 + Z.of_nat (S n)) in Hz by lia. rewrite Z.pow_add_r in Hz by lia. lia.
Qed.

Lemma number_length z : in_llong z -> (String.length (sdsfromlonglong z) <= String.length (sdsfromlonglong LLONG_MIN))%nat.
Proof.
  intros Hz. change (String.length (sdsfromlonglong LLONG_MIN)) with 20%nat. unfold sdsfromlonglong. rewrite <- length_chars, chars_of_chars.
  assert (forall y, 0 <= y <= 9223372036854775808 -> (length (digits_rev 20 y) <= 19)%nat) as Hb.
  { intros y Hy. apply (digits_rev_bound 20 18). change (10 ^ Z.of_nat 19) with 10000000000000000000. lia. }
  destruct (sdsll2str_cases z Hz) as [[-> ->]|[[Hp ->]|[Hn ->]]]; cbn [length]; rewrite ?length_rev; [lia| |].
  - enough (length (digits_rev 20 z) <= 19)%nat by lia. apply Hb. clia.
  - enough (length (digits_rev 20 (- z)) <= 19)%nat by lia. apply Hb. clia.
Qed.

Lemma hincrby_add_spec w key f o m value incr : is_replica (cli w) = false -> hash_ok hashKey o m -> room_for o m [f; sdsfromlonglong LLONG_MIN] ->
  in_llong value -> in_llong incr ->
  exists o', if decide (in_llong (value + incr)) then
    hash_ok hashKey o' (<[f := sdsfromlonglong (value + incr)]> m) /\
    hincrby_add hashKey dict_can_resize max_entries key f value incr (st w key o [] 0) = Done tt (st w key o' [R_longlong (value + incr)] 1)
  else hash_ok hashKey o' m /\
    hincrby_add hashKey dict_can_resize max_entries key f value incr (st w key o [] 0) = Return (st w key o' [R_error "increment or decrement would overflow"] 0).
Proof.
  intros Hr Hok Hroom Hv Hi. unfold hincrby_add. rewrite would_overflow_spec by done. case_decide as Hin; [rewrite bool_decide_false by tauto|rewrite bool_decide_true by tauto].
  - rewrite to_llong_id by done. cbv zeta. assert (room_for o m [f; sdsfromlonglong (value + incr)]) as Hroom2.
    { revert Hroom. apply room_less; [|cbn; lia]. rewrite !weight_cons. pose proof (number_length _ Hin). lia. }
    destruct (set_step o m f _ [] Hok Hroom2) as (o2 & Hs & Hok2 & _). exists o2. split; [done|]. step_with (on_hash_st w key _ _ _ _ [] 0 Hs).
    step_with (addReply_st w key (R_longlong (value + incr)) o2 [] 0 Hr). by rewrite dirty_st.
  - exists o. split; [done|]. by step_with (addReply_st w key (R_error "increment or decrement would overflow") o [] 0 Hr).
Qed.

Lemma hincrby_spec w name key f a m incr : argv (cli w) = [name; key; f; a] -> string2ll a = Some incr -> hash_at w key m [f; sdsfromlonglong LLONG_MIN] ->
  exists o, match number_of (m !! f) with
  | None => hash_ok hashKey o m /\ hincrbyCommand hashKey dict_can_resize max_entries w = Return (st w key o [R_error "hash value is not an integer"] 0)
  | Some value =>
      if decide (in_llong (value + incr)) then
        hash_ok hashKey o (<[f := sdsfromlonglong (value + incr)]> m) /\
        hincrbyCommand hashKey dict_can_resize max_entries w = Done tt (st w key o [R_longlong (value + incr)] 1)
      else hash_ok hashKey o m /\ hincrbyCommand hashKey dict_can_resize max_entries w = Return (st w key o [R_error "increment or decrement would overflow"] 0)
  end.
Proof.
  intros Ha Hincr Hat. pose proof (proj1 Hat) as Hr. unfold hincrbyCommand. step_with (arg_start w 3 a ltac:(by rewrite Ha)).
  assert (getLongLongFromObjectOrReply a w = Done (Some incr) w) as Hll by (unfold getLongLongFromObjectOrReply, getLongLongFromObject; by rewrite Hincr).
  step_with Hll. step_with (arg_start w 1 key ltac:(by rewrite Ha)).
  destruct (lookup_or_create w key m _ Hat) as (o & Hl & Hok & Hroom). step_with Hl. cbn [negb]. step_with (arg_st w key 2 f o [] 0 ltac:(by rewrite Ha)).
  destruct (get_step o m f _ Hok Hroom) as (o1 & Hg & Hok1 & Hroom1). step_with (on_hash_st w key _ _ _ _ [] 0 Hg). pose proof (hash_integer_spec o o1 (m !! f) w key Hr) as Hn.
  apply string2ll_canonical in Hincr as [Hi _]. destruct (number_of (m !! f)) as [value|] eqn:Hnum.
  - step_with Hn. apply hincrby_add_spec; try done. by eapply number_of_range.
  - exists o1. split; [done|]. by rewrite (bind_return _ _ _ _ Hn).
Qed.

(** *** Reading *)

Definition bulk_of (v : option sds) : reply := match v with Some s => R_bulk s | None => R_nullbulk end.

Lemma field_reply w key o m f rs : is_replica (cli w) = false -> hash_ok hashKey o m ->
  exists o', addHashFieldToReply hashKey key true f (st w key o rs 0) = Done tt (st w key o' (bulk_of (m !! f) :: rs) 0) /\ hash_ok hashKey o' m.
Proof.
  intros Hr Hok. destruct (hashTypeGetValue_spec hashKey o m f Hok) as (o' & Hg & Hok' & _). exists o'. split; [|done]. unfold addHashFieldToReply. cbn [negb].
  step_with (on_hash_st w key (get_field hashKey f) _ _ _ rs 0 Hg). destruct (m !! f) as [s|]; cbn [fmap option_fmap option_map]; rewrite addReply_st by done; [|done].
  by rewrite value_sds_read.
Qed.

Lemma checkType_hash_st o s : checkType_hash (OHashStr o) s = Done false s.
Proof. done. Qed.

Lemma hget_spec w name key f o m : argv (cli w) = [name; key; f] -> hash_there w key o m ->
  exists o', hgetCommand hashKey w = Done tt (st w key o' [bulk_of (m !! f)] 0) /\ hash_ok hashKey o' m.
Proof.
  intros Ha Hth. pose proof Hth as (Hr & _ & Hok). unfold hgetCommand. step_with (arg_start w 1 key ltac:(by rewrite Ha)). step_with (lookup_read w key o m R_nullbulk Hth).
  step_with (checkType_hash_st o (st w key o [] 0)). step_with (arg_st w key 2 f o [] 0 ltac:(by rewrite Ha)). by apply field_reply.
Qed.

Lemma hmget_spec w name key fs o m : argv (cli w) = name :: key :: fs -> hash_there w key o m ->
  exists o', hmgetCommand hashKey w = Done tt (st w key o' (reverse (R_multibulklen (Z.of_nat (length fs)) :: (bulk_of ∘ (m !!.) <$> fs))) 0) /\ hash_ok hashKey o' m.
Proof.
  intros Ha Hth. pose proof Hth as (Hr & Hk & Hok). unfold hmgetCommand. step_with (arg_start w 1 key ltac:(by rewrite Ha)). unfold lookupKeyRead.
  step_with (lookupKey_done key w). rewrite Hk. cbn [is_hash negb]. step_with (argc_start w). step_with (addReply_there w key (R_multibulklen (Z.of_nat (length (argv (cli w))) - 2)) o Hr Hk).
  step_with (fields_st w key o [R_multibulklen (Z.of_nat (length (argv (cli w))) - 2)] 0). rewrite Ha, !skipn_cons, drop_0. cbn [length].
  replace (Z.of_nat (S (S (length fs))) - 2) with (Z.of_nat (length fs)) by lia.
  rewrite reverse_cons. generalize [R_multibulklen (Z.of_nat (length fs))] as rs. clear Ha Hth Hk. revert o Hok.
  induction fs as [|f fs IH]; intros o Hok rs; cbn [for_each]; [by exists o|]. destruct (field_reply w key o m f rs Hr Hok) as (o1 & Hf & Hok1). step_with Hf.
  destruct (IH o1 Hok1 (bulk_of (m !! f) :: rs)) as (o2 & -> & Hok2). exists o2. split; [|done]. rewrite fmap_cons, reverse_cons, <- app_assoc. done.
Qed.

Lemma hlen_spec w name key o m : argv (cli w) = [name; key] -> hash_there w key o m ->
  exists o', hlenCommand w = Done tt (st w key o' [R_longlong (Z.of_nat (size m))] 0) /\ hash_ok hashKey o' m.
Proof.
  intros Ha Hth. pose proof Hth as (Hr & _ & Hok). unfold hlenCommand, hash_number. step_with (arg_start w 1 key ltac:(by rewrite Ha)).
  step_with (lookup_read w key o m R_czero Hth). step_with (checkType_hash_st o (st w key o [] 0)).
  destruct (hashTypeLength_spec hashKey o m Hok) as (o' & Hl & Hok'). step_with (on_hash_st w key hashTypeLength _ _ _ [] 0 Hl). exists o'. split; [|done]. by apply addReply_st.
Qed.

Lemma hstrlen_spec w name key f o m : argv (cli w) = [name; key; f] -> hash_there w key o m ->
  exists o', hstrlenCommand hashKey w = Done tt (st w key o' [R_longlong (match m !! f with Some v => Z.of_nat (String.length v) | None => 0 end)] 0) /\ hash_ok hashKey o' m.
Proof.
  intros Ha Hth. pose proof Hth as (Hr & _ & Hok). unfold hstrlenCommand, hash_number. step_with (arg_start w 1 key ltac:(by rewrite Ha)).
  step_with (lookup_read w key o m R_czero Hth). step_with (checkType_hash_st o (st w key o [] 0)). rewrite bind_assoc. step_with (arg_st w key 2 f o [] 0 ltac:(by rewrite Ha)).
  destruct (hashTypeGetValueLength_spec hashKey o m f Hok) as (o' & Hl & Hok'). step_with (on_hash_st w key (fun o => hashTypeGetValueLength hashKey o f) _ _ _ [] 0 Hl).
  exists o'. split; [|done]. by apply addReply_st.
Qed.

Lemma hexists_spec w name key f o m : argv (cli w) = [name; key; f] -> hash_there w key o m ->
  exists o', hexistsCommand hashKey w = Done tt (st w key o' [if decide (is_Some (m !! f)) then R_cone else R_czero] 0) /\ hash_ok hashKey o' m.
Proof.
  intros Ha Hth. pose proof Hth as (Hr & _ & Hok). unfold hexistsCommand. step_with (arg_start w 1 key ltac:(by rewrite Ha)).
  step_with (lookup_read w key o m R_czero Hth). step_with (checkType_hash_st o (st w key o [] 0)). step_with (arg_st w key 2 f o [] 0 ltac:(by rewrite Ha)).
  destruct (hashTypeGetValue_spec hashKey o m f Hok) as (o' & _ & Hok' & _ & He). step_with (on_hash_st w key (fun o => hashTypeExists hashKey o f) _ _ _ [] 0 He).
  exists o'. split; [|done]. rewrite addReply_st by done. case_decide; [by rewrite bool_decide_true|by rewrite bool_decide_false].
Qed.

(** *** [hdel] *)

Lemma delete_step o m f : hash_ok hashKey o m -> room_for o m [] ->
  exists o', delete_field hashKey dict_can_resize f o = Some (o', bool_decide (is_Some (m !! f))) /\ hash_ok hashKey o' (base.delete f m) /\ room_for o' (base.delete f m) [].
Proof.
  intros Hok Hr. destruct (hashTypeDelete_spec hashKey dict_can_resize o m f Hok) as (o' & Hd & Hok').
  { revert Hr. destruct o; cbn [room_for hash_room length String.length weight sum_list_with]; rewrite ?Nat.add_0_r; done. }
  exists o'. split_and!; [done|done|]. apply (room_keep o).
  - intros d ->. cbn [hashTypeDelete] in Hd. destruct (Dict.dictDelete _ _ _) as [[d' []]|]; [| |done]; injection Hd as <- _; by eexists.
  - revert Hr. apply room_less; [pose proof (weight_delete m f); lia|]. cbn [length]. pose proof (map_size_delete f m) as Hs. destruct (m !! f); unfold id in Hs; lia.
Qed.

(** The length of an object that keeps its room. *)
Lemma length_step o m l : hash_ok hashKey o m -> room_for o m l ->
  exists o', hashTypeLength o = Some (o', Z.of_nat (size m)) /\ hash_ok hashKey o' m /\ room_for o' m l.
Proof.
  intros Hok Hr. destruct (hashTypeLength_spec hashKey o m Hok) as (o' & Hl & Hok'). exists o'. split_and!; [done|done|]. apply (room_keep o); [|done].
  intros d ->. injection Hl as <- _. by eexists.
Qed.

Definition delete_all m (fs : list sds) : gmap sds sds := foldl (fun m f => base.delete f m) m fs.

Lemma delete_all_empty fs : delete_all ∅ fs = ∅.
Proof. induction fs as [|f fs IH]; [done|]. cbn. by rewrite delete_empty. Qed.

(** The number deleted; the key goes with the last field. *)
Lemma hdel_loop_spec w key fs : forall o m deleted, hash_ok hashKey o m -> room_for o m [] ->
  let m' := delete_all m fs in
  let n := deleted + (Z.of_nat (size m) - Z.of_nat (size m')) in
  exists o', hdel_loop hashKey dict_can_resize fs key deleted (st w key o [] 0) =
    Done n (if decide (m' = ∅ /\ m <> ∅) then after w (base.delete key (db (srv w))) [] 0 else st w key o' [] 0) /\ hash_ok hashKey o' m'.
Proof.
  induction fs as [|f fs IH]; intros o m deleted Hok Hr m' n; cbn [hdel_loop].
  - exists o. split; [|done]. unfold m' in *. cbn [delete_all foldl] in *. rewrite decide_False by tauto. unfold ret. f_equal. unfold n. cbn. lia.
  - destruct (delete_step o m f Hok Hr) as (o1 & Hd & Hok1 & Hr1). step_with (on_hash_st w key _ _ _ _ [] 0 Hd). unfold m' in *. cbn [delete_all foldl] in *.
    fold (delete_all (base.delete f m) fs) in *. destruct (m !! f) as [v|] eqn:Hm.
    + rewrite bool_decide_true by done. destruct (length_step o1 _ [] Hok1 Hr1) as (o2 & Hl & Hok2 & Hr2). step_with (on_hash_st w key hashTypeLength _ _ _ [] 0 Hl).
      assert (m <> ∅) as Hne by (intros ->; by rewrite lookup_empty in Hm).
      assert (Z.of_nat (size m) = Z.of_nat (size (base.delete f m)) + 1) as Hsize.
      { pose proof (map_size_delete_Some f m ltac:(by rewrite Hm)) as Hs. assert (size m <> 0)%nat by (by intros H0%map_size_empty_inv). lia. }
      destruct (Z.eqb_spec (Z.of_nat (size (base.delete f m))) 0) as [Hz|Hz].
      * assert (base.delete f m = ∅) as Hem by (apply map_size_empty_inv; lia). unfold n. rewrite Hem, delete_all_empty in *. exists o2. rewrite decide_True by (by split). split; [|done].
        unfold bind, dbDelete, lookupKey, gets, bind, modify, ret. f_equal; [rewrite map_size_empty in *; lia|]. unfold st, after, add_dirty, set_client, set_db. cbn. by rewrite delete_insert_eq.
      * destruct (IH o2 (base.delete f m) (deleted + 1)) as (o3 & Hloop & Hok3); [done|done|].
        exists o3. split; [|done]. cbv zeta. rewrite Hloop. f_equal; [unfold n; lia|]. apply decide_ext. split; intros [? _]; (split; [done|]); [done|].
        intros H0. by rewrite H0 in Hz.
    + rewrite bool_decide_false by (by intros [? ?]). unfold n. clear n m'. rewrite delete_id in * by done. by apply IH.
Qed.

Lemma hdel_spec w name key fs o m : argv (cli w) = name :: key :: fs -> hash_there w key o m -> room_for o m [] ->
  let m' := delete_all m fs in
  let n := Z.of_nat (size m) - Z.of_nat (size m') in
  exists o', hdelCommand hashKey dict_can_resize w =
    Done tt (if decide (m' = ∅ /\ m <> ∅) then after w (base.delete key (db (srv w))) [R_longlong n] n else st w key o' [R_longlong n] n) /\ hash_ok hashKey o' m'.
Proof.
  intros Ha Hth Hroom m' n. pose proof Hth as (Hr & _ & Hok). unfold hdelCommand. step_with (arg_start w 1 key ltac:(by rewrite Ha)).
  step_with (lookup_read w key o m R_czero Hth : lookupKeyWriteOrReply key R_czero w = _). step_with (checkType_hash_st o (st w key o [] 0)). step_with (fields_st w key o [] 0).
  rewrite Ha, !skipn_cons, drop_0. destruct (hdel_loop_spec w key fs o m 0 Hok Hroom) as (o' & Hl & Hok'). step_with Hl. rewrite Z.add_0_l. fold m' n. exists o'. split; [|done].
  assert (forall d, ((when negb (n =? 0) do modify (add_dirty n)) ;; addReply (R_longlong n)) (after w d [] 0) = Done tt (after w d [R_longlong n] n)) as Hend.
  { intros d. destruct (Z.eqb_spec n 0) as [->|Hn]; cbn [negb].
    - unfold bind, ret. by rewrite addReply_done.
    - unfold bind, modify. rewrite addReply_done by done. f_equal. unfold after, add_dirty, set_client, set_db, push_reply. cbn. by rewrite Z.add_0_r. }
  change (delete_all m fs) with m'. destruct (decide (m' = ∅ /\ m <> ∅)); apply Hend.
Qed.

(** *** [hgetall], [hkeys] and [hvals] *)

Definition pair_replies (fields values : bool) kvs : list reply :=
  flat_map (fun kv => (if fields then [R_bulk kv.1] else []) ++ (if values then [R_bulk kv.2] else [])) kvs.

Lemma cursor_reply w key o hi what s rs : is_replica (cli w) = false -> hashTypeCurrentObjectNewSds o hi what = Some s ->
  addHashIteratorCursorToReply key hi what (st w key o rs 0) = Done tt (st w key o (R_bulk s :: rs) 0).
Proof.
  intros Hr Hc. unfold hashTypeCurrentObjectNewSds in Hc. destruct (hashTypeCurrentObject o hi what) as [v|] eqn:Hv; [|done]. injection Hc as <-.
  unfold addHashIteratorCursorToReply. rewrite (bind_done _ _ _ v (st w key o rs 0)); [by apply addReply_st|]. apply on_hash_st. by rewrite Hv.
Qed.

Lemma hgetall_loop_spec w key (fields values : bool) : is_replica (cli w) = false -> forall fuel o hi o' kvs rs count, hash_pairs fuel o hi = Some (o', kvs) ->
  hgetall_loop fuel key fields values hi count (st w key o rs 0) =
  Done (count + Z.of_nat (length kvs) * ((if fields then 1 else 0) + (if values then 1 else 0))) (st w key o' (reverse (pair_replies fields values kvs) ++ rs) 0).
Proof.
  intros Hr. induction fuel as [|fuel IH]; intros o hi o' kvs rs count Hp; [done|]. cbn [hash_pairs] in Hp. cbn [hgetall_loop].
  destruct (hashTypeNext o hi) as [[[o1 hi1] more]|] eqn:Hn; [|done]. cbn [mbind option_bind] in Hp.
  rewrite (bind_done _ _ _ (hi1, more) (st w key o1 rs 0)); [|apply on_hash_st; by rewrite Hn]. cbn [fst snd]. destruct more.
  - destruct (hashTypeCurrentObjectNewSds o1 hi1 true) as [k|] eqn:Hk; [|done]. destruct (hashTypeCurrentObjectNewSds o1 hi1 false) as [v|] eqn:Hv; [|done]. cbn [mbind option_bind] in Hp.
    destruct (hash_pairs fuel o1 hi1) as [[o2 kvs']|] eqn:Hrest; [|done]. injection Hp as <- <-.
    assert (forall (b what : bool) s rs, hashTypeCurrentObjectNewSds o1 hi1 what = Some s ->
      (when b do addHashIteratorCursorToReply key hi1 what) (st w key o1 rs 0) = Done tt (st w key o1 ((if b then [R_bulk s] else []) ++ rs) 0)) as Hreply.
    { intros [] what s rs' Hs; [by apply cursor_reply|done]. }
    step_with (Hreply fields true k rs Hk). rewrite (bind_done _ _ _ _ _ (Hreply values false v _ Hv)). rewrite (IH _ _ _ _ _ _ Hrest). f_equal.
    + cbn [length]. destruct fields, values; lia.
    + f_equal. cbn [pair_replies flat_map fst snd]. fold (pair_replies fields values kvs'). rewrite !reverse_app, <- !app_assoc. by destruct fields, values.
  - injection Hp as <- <-. rewrite (bind_done _ _ _ _ _ (on_hash_st w key (fun o => Some (hashTypeReleaseIterator o hi1, tt)) o1 _ tt rs 0 eq_refl)).
    unfold ret. cbn [length]. f_equal. lia.
Qed.

Lemma hgetall_spec w name key (fields values : bool) o m : argv (cli w) = [name; key] -> hash_there w key o m ->
  exists o' kvs, kvs ≡ₚ map_to_list m /\ hash_ok hashKey o' m /\
    genericHgetallCommand fields values w =
    Done tt (st w key o' (reverse (R_multibulklen (Z.of_nat (size m) * ((if fields then 1 else 0) + (if values then 1 else 0))) :: pair_replies fields values kvs)) 0).
Proof.
  intros Ha Hth. pose proof Hth as (Hr & _ & Hok). unfold genericHgetallCommand. step_with (arg_start w 1 key ltac:(by rewrite Ha)).
  step_with (lookup_read w key o m R_emptymultibulk Hth). step_with (checkType_hash_st o (st w key o [] 0)).
  destruct (hashTypeLength_spec hashKey o m Hok) as (o1 & Hl & Hok1). step_with (on_hash_st w key hashTypeLength _ _ _ [] 0 Hl). cbv zeta.
  set (len := Z.of_nat (size m) * _). step_with (addReply_st w key (R_multibulklen len) o1 [] 0 Hr).
  rewrite (bind_done _ _ _ _ _ (on_hash_st w key (fun o => Some (o, hashTypeInitIterator o)) o1 o1 _ _ 0 eq_refl)). rewrite Nat2Z.id.
  destruct (hash_pairs_spec hashKey o1 m Hok1) as (kvs & Hp & Hperm). exists o1, kvs. split_and!; [done|done|].
  step_with (hgetall_loop_spec w key fields values Hr _ _ _ _ _ [R_multibulklen len] 0 Hp).
  assert (Z.of_nat (length kvs) = Z.of_nat (size m)) as Hlen by (by rewrite Hperm, length_map_to_list). rewrite Z.add_0_l, Hlen. fold len. rewrite Z.eqb_refl. unfold ret.
  by rewrite reverse_cons.
Qed.

(** *** Keys without a hash *)

Lemma lookup_fails w key (r : reply) : is_replica (cli w) = false -> db (srv w) !! key = None -> lookupKeyReadOrReply key r w = Done None (after w (db (srv w)) [r] 0).
Proof. intros Hr Hk. unfold lookupKeyReadOrReply, lookupKeyRead. step_with (lookupKey_done key w). rewrite Hk. by step_with (addReply_start w r Hr). Qed.

Lemma absent_spec w name key fs (fields values : bool) : argv (cli w) = name :: key :: fs -> is_replica (cli w) = false -> db (srv w) !! key = None ->
  let reply r := Return (after w (db (srv w)) [r] 0) in
  hgetCommand hashKey w = reply R_nullbulk /\ hdelCommand hashKey dict_can_resize w = reply R_czero /\ hlenCommand w = reply R_czero /\
  hstrlenCommand hashKey w = reply R_czero /\ hexistsCommand hashKey w = reply R_czero /\ genericHgetallCommand fields values w = reply R_emptymultibulk.
Proof.
  intros Ha Hr Hk. assert (arg 1 w = Done key w) as H1 by (by rewrite (arg_start w 1 key ltac:(by rewrite Ha))).
  split_and!; [unfold hgetCommand|unfold hdelCommand|unfold hlenCommand, hash_number|unfold hstrlenCommand, hash_number|unfold hexistsCommand|unfold genericHgetallCommand];
    step_with H1; [step_with (lookup_fails w key R_nullbulk Hr Hk)|step_with (lookup_fails w key R_czero Hr Hk : lookupKeyWriteOrReply key R_czero w = _)|
      step_with (lookup_fails w key R_czero Hr Hk)..|step_with (lookup_fails w key R_emptymultibulk Hr Hk)]; done.
Qed.

Lemma wrong_type_spec w name key fs x (fields values : bool) : argv (cli w) = name :: key :: fs -> is_replica (cli w) = false ->
  db (srv w) !! key = Some x -> is_hash x = false ->
  let refused := Return (after w (db (srv w)) [R_wrongtypeerr] 0) in
  hsetnxCommand hashKey dict_can_resize max_entries max_value w = refused /\
  (Z.of_nat (length (argv (cli w))) mod 2 <> 1 -> hsetCommand hashKey dict_can_resize max_entries max_value w = refused) /\
  hgetCommand hashKey w = refused /\ hmgetCommand hashKey w = refused /\ hdelCommand hashKey dict_can_resize w = refused /\ hlenCommand w = refused /\
  hstrlenCommand hashKey w = refused /\ hexistsCommand hashKey w = refused /\ genericHgetallCommand fields values w = refused.
Proof.
  intros Ha Hr Hk Hx. assert (arg 1 w = Done key w) as H1 by (by rewrite (arg_start w 1 key ltac:(by rewrite Ha))).
  assert (hashTypeLookupWriteOrCreate key w = Done false (after w (db (srv w)) [R_wrongtypeerr] 0)) as Hlook.
  { unfold hashTypeLookupWriteOrCreate, lookupKeyWrite. step_with (lookupKey_done key w). rewrite Hk, Hx. by step_with (addReply_start w R_wrongtypeerr Hr). }
  assert (forall r, lookupKeyReadOrReply key r w = Done (Some x) w) as Hread.
  { intros r. unfold lookupKeyReadOrReply, lookupKeyRead. step_with (lookupKey_done key w). by rewrite Hk. }
  assert (checkType_hash x w = Done true (after w (db (srv w)) [R_wrongtypeerr] 0)) as Hcheck.
  { unfold checkType_hash. rewrite Hx. by step_with (addReply_start w R_wrongtypeerr Hr). }
  split_and!.
  - unfold hsetnxCommand. step_with H1. by step_with Hlook.
  - intros Hodd. unfold hsetCommand. step_with (argc_start w). destruct (Z.eqb_spec (Z.of_nat (length (argv (cli w))) mod 2) 1); [done|]. step_with H1. by step_with Hlook.
  - unfold hgetCommand. step_with H1. step_with (Hread R_nullbulk). by step_with Hcheck.
  - unfold hmgetCommand. step_with H1. unfold lookupKeyRead. step_with (lookupKey_done key w). rewrite Hk, Hx. cbn [negb]. by step_with (addReply_start w R_wrongtypeerr Hr).
  - unfold hdelCommand. step_with H1. step_with (Hread R_czero : lookupKeyWriteOrReply key R_czero w = _). by step_with Hcheck.
  - unfold hlenCommand, hash_number. step_with H1. step_with (Hread R_czero). by step_with Hcheck.
  - unfold hstrlenCommand, hash_number. step_with H1. step_with (Hread R_czero). by step_with Hcheck.
  - unfold hexistsCommand. step_with H1. step_with (Hread R_czero). by step_with Hcheck.
  - unfold genericHgetallCommand. step_with H1. step_with (Hread R_emptymultibulk). by step_with Hcheck.
Qed.

(** [hmget] answers for every field of a missing key. *)
Lemma hmget_absent w name key fs : argv (cli w) = name :: key :: fs -> is_replica (cli w) = false -> db (srv w) !! key = None ->
  hmgetCommand hashKey w = Done tt (after w (db (srv w)) (replicate (length fs) R_nullbulk ++ [R_multibulklen (Z.of_nat (length fs))]) 0).
Proof.
  intros Ha Hr Hk. unfold hmgetCommand. step_with (arg_start w 1 key ltac:(by rewrite Ha)). unfold lookupKeyRead.
  step_with (lookupKey_done key w). rewrite Hk. cbn [negb]. step_with (argc_start w). rewrite Ha. cbn [length].
  replace (Z.of_nat (S (S (length fs))) - 2) with (Z.of_nat (length fs)) by lia.
  step_with (addReply_start w (R_multibulklen (Z.of_nat (length fs))) Hr). unfold bind at 1, gets. cbn [cli after add_dirty set_client set_db argv].
  rewrite Ha, !skipn_cons, drop_0. generalize [R_multibulklen (Z.of_nat (length fs))] as rs. clear Ha.
  induction fs as [|f fs IH]; intros rs; cbn [for_each length replicate app]; [done|].
  unfold addHashFieldToReply at 1. cbn [negb]. step_with (addReply_after w (db (srv w)) rs 0 R_nullbulk Hr). rewrite IH.
  f_equal. f_equal. change (R_nullbulk :: replicate (length fs) R_nullbulk ++ rs) with ((R_nullbulk :: replicate (length fs) R_nullbulk) ++ rs).
  by rewrite replicate_cons_app, <- app_assoc.
Qed.

(** Requests that are refused before the hash is touched. *)
Lemma hset_odd w : is_replica (cli w) = false -> Z.of_nat (length (argv (cli w))) mod 2 = 1 ->
  hsetCommand hashKey dict_can_resize max_entries max_value w = Return (after w (db (srv w)) [R_error "wrong number of arguments for HMSET"] 0).
Proof. intros Hr Ho. unfold hsetCommand. step_with (argc_start w). rewrite Ho, Z.eqb_refl. by step_with (addReply_start w (R_error "wrong number of arguments for HMSET") Hr). Qed.

Lemma hincrby_refused w name key f a : argv (cli w) = [name; key; f; a] -> is_replica (cli w) = false ->
  (string2ll a = None -> hincrbyCommand hashKey dict_can_resize max_entries w =
     Return (after w (db (srv w)) [R_error "value is not an integer or out of range"] 0)) /\
  (forall x incr, string2ll a = Some incr -> db (srv w) !! key = Some x -> is_hash x = false ->
     hincrbyCommand hashKey dict_can_resize max_entries w = Return (after w (db (srv w)) [R_wrongtypeerr] 0)).
Proof.
  intros Ha Hr. split.
  - intros Hs. unfold hincrbyCommand. step_with (arg_start w 3 a ltac:(by rewrite Ha)). unfold getLongLongFromObjectOrReply, getLongLongFromObject. rewrite Hs.
    rewrite bind_assoc. by step_with (addReply_start w (R_error "value is not an integer or out of range") Hr).
  - intros x incr Hs Hk Hx. unfold hincrbyCommand. step_with (arg_start w 3 a ltac:(by rewrite Ha)). unfold getLongLongFromObjectOrReply, getLongLongFromObject. rewrite Hs.
    unfold bind at 1, ret. step_with (arg_start w 1 key ltac:(by rewrite Ha)). unfold hashTypeLookupWriteOrCreate, lookupKeyWrite. rewrite bind_assoc.
    step_with (lookupKey_done key w). rewrite Hk, Hx, bind_assoc. by step_with (addReply_start w R_wrongtypeerr Hr).
Qed.
End Client.
