(* ===== verification/RWFramework.v ===== *)
(** * The remove-win framework ([RWFramework.h], [RWFramework.c])

    Every remove-win container keeps, for each element, a header: the join of
    the remove histories it has seen and the id of the add that is in force.
    This file holds the header operations, the metadata hashes, and the theory
    of the header: the state reached depends only on which operations were
    applied, not on their order or multiplicity, and a removal wins over every
    add that has not seen it. *)
From Stdlib Require Import ZArith Lia Ascii String.
From stdpp Require Import base numbers list strings gmap sets.
From S2P Require Import Prelude Sds VectorClock LamportClock Intset SetType Server.
Open Scope Z_scope.

(** ** Headers *)

(** [l_newVC]: [newVC(server.p2p_count, CURRENT_PID)]. *)
Definition l_newVC (s : server) : vc := newVC (p2p_count s) (p2p_id s).

Definition REH_INIT (s : server) : reh := mkReh (-1) (l_newVC s).

Definition REH_RMV_FUNC (h : reh) (t : vc) : reh := mkReh (-1) (updateVC (current h) t).

Definition EXISTS (h : reh) : bool := 0 <=? pid h.

Definition insertCheck (h : reh) (t : vc) : bool :=
  if negb (equalVC t (current h)) then false else pid h <? vc_id t.

Definition updateCheck (h : reh) (t : vc) : bool := equalVC t (current h).

(** The loop runs over [t->size] entries; [None] reads past the end of the
    header's clock. *)
Fixpoint remove_loop (cur t : list Z) : option bool :=
  match t with
  | [] => Some false
  | y :: t =>
      match cur with
      | [] => None
      | x :: cur => if x <? y then Some true else remove_loop cur t
      end
  end.

Definition removeCheck (h : reh) (t : vc) : option bool :=
  remove_loop (vector (current h)) (vector t).

(** ** Metadata hashes *)

(** The hash's key; created when [create]. *)
Definition getInnerHT (tname suffix : sds) (create : bool) : cmd (option sds) :=
  let htname := sdscat (sdsdup tname) suffix in
  ht <- lookupKeyRead htname ;;
  match ht with
  | Some _ => ret (Some htname)
  | None => if create then dbAdd htname (OHash ∅) ;; ret (Some htname) else ret None
  end.

(** A pointer to an element: the key of its hash and its field. *)
Abbreviation eref := (sds * sds)%type.

Definition hashTypeGetValueObject (ht field : sds) : cmd (option helem) := fun w =>
  match db (srv w) !! ht with
  | Some (OHash h) => Done (h !! field) w
  | _ => Crash
  end.

Definition hashTypeSet (ht field : sds) (e : helem) : cmd unit := fun w =>
  match db (srv w) !! ht with
  | Some (OHash h) => Done tt (set_db <[ht := OHash (<[field := e]> h)]> w)
  | _ => Crash
  end.

(** Look an element up, creating it with [p] when [create]. *)
Definition HTGet (tname suffix key : sds) (create : bool) (p : cmd helem) : cmd (option eref) :=
  ht <- getInnerHT tname suffix create ;;
  match ht with
  | None => ret None
  | Some ht =>
      value <- hashTypeGetValueObject ht key ;;
      match value with
      | Some _ => ret (Some (ht, key))
      | None =>
          if create then
            e <- p ;;
            hashTypeSet ht key e ;;
            ret (Some (ht, key))
          else ret None
      end
  end.

Definition rehHTGet := HTGet.

Definition read_elem (r : eref) : cmd helem :=
  v <- hashTypeGetValueObject r.1 r.2 ;; deref v.
Definition write_elem (r : eref) (e : helem) : cmd unit := hashTypeSet r.1 r.2 e.

(** [CR_GET(n)]: parse a timestamp argument. *)
Definition CR_GET (n : Z) : cmd vc := s <- rarg n ;; deref (SdsToVC s).
Definition CR_GET_LAST : cmd vc := n <- rargc ;; CR_GET (n - 1).

(** [ADD_CR_NON_RMV] and [ADD_CR_RMV]. *)
Definition ADD_CR_NON_RMV (rv : rvector) (h : reh) : cmd rvector :=
  s <- deref (VCToSds (current h)) ;; ret (RARGV_ADD_SDS rv s).
Definition ADD_CR_RMV (rv : rvector) (h : reh) : cmd rvector :=
  s <- deref (nowVC (current h)) ;; ret (RARGV_ADD_SDS rv s).

(** ** The effect of operations on a header

    What every container does with a delivered timestamp: a removal, or an add
    that first applies its timestamp as a removal. *)
Inductive rwop := RAdd (t : vc) | RRem (t : vc).

Definition op_ts (o : rwop) : vc := match o with RAdd t | RRem t => t end.

Definition rem_effect (h : reh) (t : vc) : reh :=
  match removeCheck h t with
  | Some true => REH_RMV_FUNC h t
  | _ => h
  end.

Definition add_effect (h : reh) (t : vc) : reh :=
  let h := rem_effect h t in
  if insertCheck h t then mkReh (vc_id t) (current h) else h.

Definition rw_effect (h : reh) (o : rwop) : reh :=
  match o with
  | RAdd t => add_effect h t
  | RRem t => rem_effect h t
  end.

Lemma remove_loop_spec cur t :
  length cur = length t -> remove_loop cur t = Some (negb (bool_decide (vle t cur))).
Proof.
  unfold vle. revert t. induction cur as [|x cur IH]; intros [|y t] Hl; try done.
  cbn [remove_loop]. rewrite IH by (cbn in Hl; lia).
  destruct (Z.ltb_spec x y).
  - rewrite bool_decide_false; [done|]. intros Hc. inversion Hc; subst. lia.
  - do 2 f_equal. apply bool_decide_ext. rewrite Forall2_cons. intuition lia.
Qed.

Lemma removeCheck_spec h t :
  vc_size (current h) = vc_size t ->
  removeCheck h t = Some (negb (bool_decide (vle (vector t) (vector (current h))))).
Proof. apply remove_loop_spec. Qed.

(** The header's vector after a removal is the join, whether or not the check
    passes. *)
Lemma rem_effect_vector h t :
  vc_size (current h) = vc_size t ->
  vector (current (rem_effect h t)) = update_loop (vector (current h)) (vector t).
Proof.
  intros Hs. unfold rem_effect. rewrite removeCheck_spec by done.
  case_bool_decide as Hle; cbn.
  - by rewrite update_loop_absorb.
  - by apply updateVC_vector.
Qed.

Lemma rem_effect_pid h t :
  vc_size (current h) = vc_size t ->
  pid (rem_effect h t) = if decide (vle (vector t) (vector (current h))) then pid h else -1.
Proof.
  intros Hs. unfold rem_effect. rewrite removeCheck_spec by done.
  case_bool_decide; case_decide; done.
Qed.

Lemma rem_effect_size h t : vc_size (current (rem_effect h t)) = vc_size (current h).
Proof. unfold rem_effect. repeat case_match; try done. apply updateVC_size. Qed.

Lemma rem_effect_vcid h t : vc_id (current (rem_effect h t)) = vc_id (current h).
Proof. unfold rem_effect. repeat case_match; try done. apply updateVC_id. Qed.

Lemma rw_effect_size h o : vc_size (current (rw_effect h o)) = vc_size (current h).
Proof.
  destruct o; cbn; [unfold add_effect; case_match|]; cbn; apply rem_effect_size.
Qed.

Lemma rw_effect_vcid h o : vc_id (current (rw_effect h o)) = vc_id (current h).
Proof.
  destruct o; cbn; [unfold add_effect; case_match|]; cbn; apply rem_effect_vcid.
Qed.

Lemma rw_effect_vector h o :
  vc_size (current h) = vc_size (op_ts o) ->
  vector (current (rw_effect h o)) = update_loop (vector (current h)) (vector (op_ts o)).
Proof.
  intros Hs. destruct o; cbn in *; [unfold add_effect; case_match|]; cbn; by apply rem_effect_vector.
Qed.

(** ** The state is a function of the set of operations *)

Definition rw_run (h : reh) (ops : list rwop) : reh := foldl rw_effect h ops.

(** The join of the timestamps, and the largest id among the adds whose
    timestamp is the whole join. *)
Definition joins (v : list Z) (ops : list rwop) : list Z :=
  foldl (fun v o => update_loop v (vector (op_ts o))) v ops.

Fixpoint winner (j : list Z) (ops : list rwop) : Z :=
  match ops with
  | [] => -1
  | RAdd t :: ops => if decide (vector t = j) then Z.max (vc_id t) (winner j ops) else winner j ops
  | RRem _ :: ops => winner j ops
  end.

(** Operations whose timestamps all have [n] entries. *)
Definition ops_size (n : nat) (ops : list rwop) : Prop :=
  Forall (fun o => vc_size (op_ts o) = n) ops.

Lemma joins_length v ops : length (joins v ops) = length v.
Proof.
  revert v. induction ops as [|o ops IH]; intros v; cbn; [done|].
  fold (joins (update_loop v (vector (op_ts o))) ops). by rewrite IH, update_loop_length.
Qed.

Lemma joins_snoc v ops o : joins v (ops ++ [o]) = update_loop (joins v ops) (vector (op_ts o)).
Proof. apply (foldl_snoc (fun v o => update_loop v (vector (op_ts o)))). Qed.

Lemma joins_ge v ops : vle v (joins v ops).
Proof.
  induction ops as [|o ops IH] using rev_ind; [apply vle_refl|].
  rewrite joins_snoc. eapply vle_trans; [exact IH|apply update_loop_ub_l].
Qed.

Lemma joins_ub v ops o :
  ops_size (length v) ops -> o ∈ ops -> vle (vector (op_ts o)) (joins v ops).
Proof.
  induction ops as [|o' ops IH] using rev_ind; intros Hs Ho; [by apply elem_of_nil in Ho|].
  apply Forall_app in Hs as [Hs Hs']. rewrite Forall_singleton in Hs'.
  rewrite joins_snoc. apply elem_of_app in Ho as [Ho|Ho].
  - eapply vle_trans; [by apply IH|]. apply update_loop_ub_l.
  - apply list_elem_of_singleton in Ho as ->. apply update_loop_ub_r.
    rewrite joins_length. symmetry. exact Hs'.
Qed.

Lemma joins_lub v ops u :
  vle v u -> (forall o, o ∈ ops -> vle (vector (op_ts o)) u) -> vle (joins v ops) u.
Proof.
  intros Hv. induction ops as [|o ops IH] using rev_ind; intros Ho; [done|].
  rewrite joins_snoc. apply update_loop_lub; [apply IH|]; intros; apply Ho; set_solver.
Qed.

Lemma joins_set_eq v ops1 ops2 :
  ops_size (length v) ops1 -> ops_size (length v) ops2 ->
  (forall o, o ∈ ops1 <-> o ∈ ops2) -> joins v ops1 = joins v ops2.
Proof.
  intros H1 H2 Heq. apply vle_antisym; apply joins_lub; try apply joins_ge;
    intros o Ho; apply joins_ub; try done; by apply Heq.
Qed.

Lemma winner_ge j ops : -1 <= winner j ops.
Proof. induction ops as [|[t|t] ops IH]; cbn; [lia|case_decide; lia|done]. Qed.

Lemma winner_app j ops ops' : winner j (ops ++ ops') = Z.max (winner j ops) (winner j ops').
Proof.
  induction ops as [|[t|t] ops IH]; cbn; [pose proof (winner_ge j ops'); lia| |done].
  rewrite IH. case_decide; lia.
Qed.

Lemma winner_in j ops t : RAdd t ∈ ops -> vector t = j -> vc_id t <= winner j ops.
Proof.
  intros Hin Hj. induction ops as [|o ops IH]; [by apply elem_of_nil in Hin|].
  apply elem_of_cons in Hin as [<-|Hin]; cbn.
  - rewrite decide_True by done. lia.
  - specialize (IH Hin). destruct o; [case_decide; lia|lia].
Qed.

Lemma winner_inv j ops :
  winner j ops = -1 \/ exists t, RAdd t ∈ ops /\ vector t = j /\ vc_id t = winner j ops.
Proof.
  induction ops as [|[t|t] ops IH]; cbn; [by left| |].
  - destruct IH as [IH|(t' & Hin & Hv & Hid)]; case_decide; [|by left| |right; set_solver].
    + rewrite IH. destruct (Z.max_spec (vc_id t) (-1)) as [[? ->]|[? ->]]; [by left|].
      right. exists t. set_solver.
    + right. destruct (Z.max_spec (vc_id t) (winner j ops)) as [[? ->]|[? ->]]; [exists t'|exists t]; set_solver.
  - destruct IH as [IH|(t' & Hin & Hv & Hid)]; [by left|right; exists t'; set_solver].
Qed.

Lemma winner_mono j ops1 ops2 :
  (forall o, o ∈ ops1 -> o ∈ ops2) -> winner j ops1 <= winner j ops2.
Proof.
  intros Hsub. pose proof (winner_ge j ops2).
  destruct (winner_inv j ops1) as [->|(t & Hin & Hv & <-)]; [lia|]. apply winner_in; auto.
Qed.

(** An add not covering the join lost. *)
Lemma winner_none j ops :
  (forall o, o ∈ ops -> vector (op_ts o) <> j) -> winner j ops = -1.
Proof.
  intros Hno. destruct (winner_inv j ops) as [|(t & Hin & Hv & _)]; [done|].
  destruct (Hno _ Hin). done.
Qed.

(** A fresh header of size [n]. *)
Definition fresh (n : nat) (h : reh) : Prop := pid h = -1 /\ vc_size (current h) = n.

(** The closed form of the header. *)
Lemma rw_run_state n h ops :
  fresh n h -> ops_size n ops ->
  vector (current (rw_run h ops)) = joins (vector (current h)) ops /\
  pid (rw_run h ops) = winner (joins (vector (current h)) ops) ops.
Proof.
  intros [Hp Hn]. unfold rw_run. induction ops as [|o ops IH] using rev_ind; intros Hs.
  { cbn. by rewrite Hp. }
  pose proof Hs as Hall. apply Forall_app in Hs as [Hs Ho]. rewrite Forall_singleton in Ho. cbn beta in Ho.
  destruct (IH Hs) as [IHv IHp]. rewrite foldl_snoc, joins_snoc, winner_app.
  set (h' := foldl rw_effect h ops) in *. set (j := joins (vector (current h)) ops) in *.
  assert (vc_size (current h') = vc_size (op_ts o)) as Hsz.
  { unfold vc_size. rewrite IHv. unfold j. rewrite joins_length. unfold vc_size in *. lia. }
  split; [by rewrite rw_effect_vector, IHv|].
  assert (vle (vector (op_ts o)) j \/ ~ vle (vector (op_ts o)) j) as [Hle|Hnle]
    by (destruct (decide (vle (vector (op_ts o)) j)); auto).
  - rewrite update_loop_absorb by done. destruct o as [t|t]; cbn [rw_effect op_ts] in *.
    + unfold add_effect, insertCheck. cbn zeta.
      assert (rem_effect h' t = h') as ->.
      { unfold rem_effect. rewrite removeCheck_spec, IHv, bool_decide_true by done. done. }
      cbn [winner]. destruct (equalVC t (current h')) eqn:E; cbn [negb].
      * apply equalVC_spec in E. rewrite IHv in E. rewrite decide_True by done.
        pose proof (winner_ge j ops). rewrite IHp. destruct (Z.ltb_spec (winner j ops) (vc_id t)); cbn [pid]; lia.
      * rewrite decide_False by (intros Hc; rewrite <- IHv, <- equalVC_spec in Hc; congruence).
        pose proof (winner_ge j ops). lia.
    + rewrite rem_effect_pid, IHv, decide_True by done. cbn. pose proof (winner_ge j ops). lia.
  - set (j' := update_loop j (vector (op_ts o))).
    assert (winner j' ops = -1) as ->.
    { apply winner_none. intros o' Ho' Heq. apply Hnle.
      apply vle_trans with j'; [apply update_loop_ub_r|].
      - unfold j. rewrite joins_length. unfold vc_size in *. lia.
      - rewrite <- Heq. apply joins_ub; [|done]. unfold vc_size in Hn. by rewrite Hn. }
    destruct o as [t|t]; cbn [rw_effect op_ts winner] in *.
    + unfold add_effect, insertCheck. cbn zeta.
      assert (vector (current (rem_effect h' t)) = j') as Hv' by (rewrite rem_effect_vector, IHv; done).
      assert (pid (rem_effect h' t) = -1) as Hp' by (rewrite rem_effect_pid, IHv, decide_False; done).
      destruct (equalVC t (current (rem_effect h' t))) eqn:E; cbn [negb].
      * apply equalVC_spec in E. rewrite Hv' in E. rewrite decide_True by done. rewrite Hp'.
        destruct (Z.ltb_spec (-1) (vc_id t)); cbn [pid]; lia.
      * rewrite decide_False by (intros Hc; rewrite <- Hv', <- equalVC_spec in Hc; congruence). lia.
    + rewrite rem_effect_pid, IHv, decide_False by done. done.
Qed.

(** Convergence: replicas that applied the same operations, in whatever order
    and with whatever repetitions, agree. *)
Lemma rw_run_converges n h1 h2 ops1 ops2 :
  fresh n h1 -> fresh n h2 -> vector (current h1) = vector (current h2) ->
  ops_size n ops1 -> ops_size n ops2 -> (forall o, o ∈ ops1 <-> o ∈ ops2) ->
  pid (rw_run h1 ops1) = pid (rw_run h2 ops2) /\
  vector (current (rw_run h1 ops1)) = vector (current (rw_run h2 ops2)).
Proof.
  intros H1 H2 Hv Hs1 Hs2 Heq.
  destruct (rw_run_state n h1 ops1 H1 Hs1) as [-> ->].
  destruct (rw_run_state n h2 ops2 H2 Hs2) as [-> ->].
  assert (joins (vector (current h1)) ops1 = joins (vector (current h2)) ops2) as ->.
  { rewrite Hv. destruct H2 as [_ H2]. unfold vc_size in H2. apply joins_set_eq; rewrite ?H2; done. }
  split; [|done]. apply Z.le_antisymm; apply winner_mono; intros o; apply Heq.
Qed.

(** Who is visible: an element exists exactly when some add of a real replica
    has seen everything that was applied. *)
Lemma rw_run_exists n h ops :
  fresh n h -> ops_size n ops ->
  EXISTS (rw_run h ops) = true <->
  exists t, RAdd t ∈ ops /\ 0 <= vc_id t /\ vle (vector (current h)) (vector t) /\
    forall o, o ∈ ops -> vle (vector (op_ts o)) (vector t).
Proof.
  intros Hf Hs. destruct (rw_run_state n h ops Hf Hs) as [_ Hp].
  destruct Hf as [_ Hn]. unfold EXISTS. rewrite Hp, Z.leb_le.
  set (j := joins (vector (current h)) ops). unfold vc_size in Hn. split.
  - intros Hw. destruct (winner_inv j ops) as [|(t & Hin & Hv & Hid)]; [lia|].
    exists t. split_and!; [done|lia|rewrite Hv; apply joins_ge|].
    intros o Ho. rewrite Hv. apply joins_ub; [by rewrite Hn|done].
  - intros (t & Hin & Hid & H0 & Hall).
    enough (vector t = j) as Hv by (pose proof (winner_in j ops t Hin Hv); lia).
    apply vle_antisym; [|by apply joins_lub].
    change t with (op_ts (RAdd t)). apply joins_ub; [by rewrite Hn|done].
Qed.

(** Remove wins: a removal that no add has seen hides the element. *)
Lemma rw_run_remove_wins n h ops r :
  fresh n h -> ops_size n ops -> RRem r ∈ ops ->
  (forall t, RAdd t ∈ ops -> ~ vle (vector r) (vector t)) ->
  EXISTS (rw_run h ops) = false.
Proof.
  intros Hf Hs Hr Hno. destruct (EXISTS (rw_run h ops)) eqn:E; [|done].
  apply (rw_run_exists n) in E as (t & Ht & _ & _ & Hall); [|done..].
  destruct (Hno t Ht). exact (Hall _ Hr).
Qed.
