(* ===== verification/Container.v ===== *)
(** * CRDT set containers

    The three CRDT sets share one layout: a set object under the container's
    key, the visible members, and a metadata hash under the key with a suffix,
    one element per member ever mentioned.  The element type is an interface,
    [Elem]; the representation predicate of the layout and the behaviour of the
    shared operations are proved once against it. *)
From Stdlib Require Import ZArith Lia Ascii String.
From stdpp Require Import functions base numbers strings gmap sets list.
From S2P Require Import Prelude Sds VectorClock LamportClock Intset SetType Server RWFramework.
Open Scope Z_scope.

(** [t_rwset.c]: the set object, created on first use; the pointer returned is
    its key. *)
Definition getSetOrCreate (setName eleSample : sds) : cmd sds :=
  set <- lookupKeyWrite setName ;;
  match set with
  | Some _ => ret setName
  | None => dbAdd setName (OSet (setTypeCreate eleSample)) ;; ret setName
  end.

(** The arguments from index [k] on, as the loop [for (j = k; j < argc; j++)]
    reads them. *)
Definition args_from (k : nat) : cmd (list sds) := gets (fun w => drop k (argv (cli w))).

(** ** Requests *)

(** A client issues a command, or a replica link delivers one. *)
Definition request (w : world) (args : list sds) : world :=
  mkWorld (srv w) (mkClient args None false false []).
Definition delivery (w : world) (args : list sds) : world :=
  mkWorld (srv w) (mkClient args None true false []).

(** ** Element types *)

Class Elem (E : Type) := {
  el_suffix : sds;
  el_inj : E -> helem;
  el_proj : helem -> option E;
  el_new : server -> E;
  el_ok : server -> E -> Prop;
  el_proj_inj e : el_proj (el_inj e) = Some e;
  el_suffix_ne : sdsnew el_suffix <> EmptyString;
  el_new_ok s : el_ok s (el_new s)
}.

(** The configuration of the server. *)
Record same_config (s s' : server) : Prop := {
  sc_count : p2p_count s' = p2p_count s;
  sc_id : p2p_id s' = p2p_id s;
  sc_max : set_max_intset_entries s' = set_max_intset_entries s
}.

#[global] Instance same_config_refl : Reflexive same_config.
Proof. by split. Qed.
#[global] Instance same_config_trans : Transitive same_config.
Proof. intros ??? [] []. split; congruence. Qed.

(** Element creation and validity depend on the configuration only. *)
Class ElemStable (E : Type) `{Elem E} := {
  el_new_stable s s' : same_config s s' -> el_new s' = el_new s;
  el_ok_stable s s' e : same_config s s' -> el_ok s e -> el_ok s' e
}.

Lemma append_ne k s : s <> EmptyString -> String.append k s <> k.
Proof.
  intros Hs Heq. apply Hs. apply (f_equal chars) in Heq. rewrite chars_append in Heq.
  rewrite <- (app_nil_r (chars k)) in Heq at 2. apply app_inv_head in Heq. by destruct s.
Qed.

(** What the object under the container's key shows: the object, which may be
    missing, represents a value of type [VT].  The first argument is the
    server's limit for integer sets. *)
Class Shape (VT : Type) := shape_obj : Z -> option robj -> VT -> Prop.

(** A set object shows its members. *)
#[global] Instance set_shape : Shape (gset sds) := fun max o V =>
  match o with
  | None => V = ∅
  | Some (OSet so) => set_ok max so /\ V = set_members so
  | _ => False
  end.

Section Container.
Context {E : Type} `{ElemStable E}.
Implicit Types (w : world) (k x : sds) (e : E) (f : sds -> E).

Definition htname k : sds := sdscat (sdsdup k) el_suffix.

Definition el_create : cmd helem := gets (fun w => el_inj (el_new (srv w))).
Definition elHTGet (tname key : sds) (create : bool) : cmd (option eref) :=
  HTGet tname el_suffix key create el_create.
Definition read_el (r : eref) : cmd E := v <- read_elem r ;; deref (el_proj v).
Definition write_el (r : eref) e : cmd unit := write_elem r (el_inj e).

(** ** Representation

    [rep w k f V]: the container [k] holds the elements [f] (new ones where the
    hash has none) and shows the members [V]. *)
Definition shape_set {VT} `{Shape VT} w k (V : VT) : Prop :=
  shape_obj (set_max_intset_entries (srv w)) (db (srv w) !! k) V.

Definition shape_hash w k f : Prop :=
  match db (srv w) !! htname k with
  | None => forall x, f x = el_new (srv w)
  | Some (OHash h) =>
      forall x, match h !! x with
                | None => f x = el_new (srv w)
                | Some v => v = el_inj (f x) /\ el_ok (srv w) (f x)
                end
  | _ => False
  end.

Record rep {VT} `{Shape VT} w k f (V : VT) : Prop := {
  rep_set : shape_set w k V;
  rep_hash : shape_hash w k f;
  rep_max : max_ok (set_max_intset_entries (srv w))
}.

(** The element [x] has been created, and the container's object exists. *)
Definition has w k x : Prop :=
  exists h v, db (srv w) !! htname k = Some (OHash h) /\ h !! x = Some v.
Definition hasset w k : Prop := is_Some (db (srv w) !! k).

(** What an operation on container [k] leaves alone. *)
Record frame k w w' : Prop := {
  fr_config : same_config (srv w) (srv w');
  fr_cli : cli w' = cli w;
  fr_replicas : replicas (srv w') = replicas (srv w);
  fr_seldb : p2p_seldb (srv w') = p2p_seldb (srv w);
  fr_db k' : k' <> k -> k' <> htname k -> db (srv w') !! k' = db (srv w) !! k';
  fr_has x : has w k x -> has w' k x;
  fr_hasset : hasset w k -> hasset w' k
}.

#[global] Instance frame_refl k : Reflexive (frame k).
Proof. intros w. by split. Qed.
#[global] Instance frame_trans k : Transitive (frame k).
Proof.
  intros w1 w2 w3 [C1 L1 R1 E1 D1 H1 S1] [C2 L2 R2 E2 D2 H2 S2].
  split; [by etransitivity|congruence..| |auto|auto]. intros k' ??. by rewrite D2, D1.
Qed.

Lemma htname_ne k : htname k <> k.
Proof. apply append_ne, el_suffix_ne. Qed.

Section AnyShape.
Context {VT : Type} {VS : Shape VT}.
Implicit Types V : VT.

Lemma rep_el_ok w k f V x : rep w k f V -> el_ok (srv w) (f x).
Proof.
  intros [_ Hh _]. unfold shape_hash in Hh. destruct (db (srv w) !! htname k) as [[| |h| | |]|]; try done.
  - specialize (Hh x). destruct (h !! x); [apply Hh|]. rewrite Hh. apply el_new_ok.
  - rewrite Hh. apply el_new_ok.
Qed.

Lemma rep_ext w k f g V : (forall x, f x = g x) -> rep w k f V -> rep w k g V.
Proof.
  intros Hfg [Hs Hh Hm]. split; [done| |done]. unfold shape_hash in *.
  repeat case_match; try done; intros x; specialize (Hh x); rewrite <- (Hfg x); done.
Qed.

Lemma shape_set_stable w w' k V :
  same_config (srv w) (srv w') -> db (srv w') !! k = db (srv w) !! k ->
  shape_set w k V -> shape_set w' k V.
Proof. intros Hc Hdb. unfold shape_set. by rewrite Hdb, (sc_max _ _ Hc). Qed.

Lemma shape_hash_stable w w' k f :
  same_config (srv w) (srv w') -> db (srv w') !! htname k = db (srv w) !! htname k ->
  shape_hash w k f -> shape_hash w' k f.
Proof.
  intros Hc Hdb. unfold shape_hash. rewrite Hdb, (el_new_stable _ _ Hc).
  destruct (db (srv w) !! htname k) as [[| |h| | |]|]; try done.
  intros Hh x. specialize (Hh x). destruct (h !! x); [|done].
  destruct Hh as [-> Hok]. split; [done|]. by eapply el_ok_stable.
Qed.

Lemma set_db_config g w : same_config (srv w) (srv (set_db g w)).
Proof. by split. Qed.

(** A state change outside the key space keeps the representation. *)
Lemma rep_config w w' k f V :
  db (srv w') = db (srv w) -> same_config (srv w) (srv w') -> rep w k f V -> rep w' k f V.
Proof.
  intros Hdb Hc [Hs Hh Hm]. split.
  - by eapply shape_set_stable; [|rewrite Hdb|].
  - by eapply shape_hash_stable; [|rewrite Hdb|].
  - by rewrite (sc_max _ _ Hc).
Qed.

Lemma frame_config w w' k :
  db (srv w') = db (srv w) -> same_config (srv w) (srv w') -> cli w' = cli w ->
  replicas (srv w') = replicas (srv w) -> p2p_seldb (srv w') = p2p_seldb (srv w) -> frame k w w'.
Proof.
  intros Hdb Hc Hcl Hre Hse. split; try done; intros; unfold has, hasset in *; by rewrite Hdb.
Qed.

(** ** The shared operations *)

(** Replacing the object, or one element of the hash. *)
Lemma write_obj_rep w k f V o V' :
  rep w k f V -> shape_obj (set_max_intset_entries (srv w)) (Some o) V' ->
  let w' := set_db <[k := o]> w in
  rep w' k f V' /\ frame k w w'.
Proof.
  intros [Hs Hh Hm] Hok. pose proof (htname_ne k) as Hne. cbn zeta. split.
  - split; [| |done].
    + unfold shape_set. cbn. by rewrite lookup_insert_eq.
    + eapply shape_hash_stable; [apply set_db_config| |done]. cbn. by rewrite lookup_insert_ne.
  - split; cbn; try done.
    + intros k' H1 H2. by rewrite lookup_insert_ne.
    + intros x (h & v & Hx & Hv). exists h, v. cbn. by rewrite lookup_insert_ne.
    + intros _. unfold hasset. cbn. by rewrite lookup_insert_eq.
Qed.

Lemma write_hash_rep w k f V h x e :
  rep w k f V -> el_ok (srv w) e ->
  (db (srv w) !! htname k = Some (OHash h) \/ (db (srv w) !! htname k = None /\ h = ∅)) ->
  let w' := set_db <[htname k := OHash (<[x := el_inj e]> h)]> w in
  rep w' k (<[x := e]> f) V /\ frame k w w' /\ has w' k x.
Proof.
  intros [Hs Hh Hm] Hok Hdb. pose proof (htname_ne k) as Hne. cbn zeta.
  set (w' := set_db _ w). pose proof (set_db_config _ w : same_config (srv w) (srv w')) as Hc.
  assert (db (srv w') !! htname k = Some (OHash (<[x := el_inj e]> h))) as Hdb'
    by apply lookup_insert_eq.
  split_and!.
  - split; [| |done].
    + eapply shape_set_stable; [done| |done]. by apply lookup_insert_ne.
    + unfold shape_hash in *. rewrite Hdb', (el_new_stable _ _ Hc). intros y.
      destruct (decide (y = x)) as [->|Hy].
      * rewrite lookup_insert_eq, fn_lookup_insert. split; [done|]. by eapply el_ok_stable.
      * rewrite lookup_insert_ne, fn_lookup_insert_ne by done.
        destruct Hdb as [Hdb|[Hdb ->]]; rewrite Hdb in Hh; [|by rewrite lookup_empty].
        specialize (Hh y). destruct (h !! y); [|done]. destruct Hh as [-> ?].
        split; [done|]. by eapply el_ok_stable.
  - split; cbn; try done.
    + intros k' H1 H2. by rewrite lookup_insert_ne.
    + intros y (h' & v & Hx & Hv). destruct (decide (y = x)) as [->|Hy].
      * eexists _, _. split; [exact Hdb'|]. by rewrite lookup_insert_eq.
      * destruct Hdb as [Hdb|[Hdb ->]]; [|congruence].
        assert (h' = h) as -> by congruence.
        eexists _, _. split; [exact Hdb'|]. by rewrite lookup_insert_ne.
    + unfold hasset. cbn. by rewrite lookup_insert_ne.
  - eexists _, _. split; [exact Hdb'|]. by rewrite lookup_insert_eq.
Qed.

Lemma new_hash_rep w k f V :
  rep w k f V -> db (srv w) !! htname k = None ->
  let w' := set_db <[htname k := OHash ∅]> w in rep w' k f V /\ frame k w w'.
Proof.
  intros [Hs Hh Hm] Hdb. pose proof (htname_ne k) as Hne. cbn zeta. split.
  - split; [| |done].
    + eapply shape_set_stable; [apply set_db_config| |done]. by apply lookup_insert_ne.
    + unfold shape_hash in *. rewrite (el_new_stable _ _ (set_db_config _ _)).
      cbn. rewrite lookup_insert_eq. rewrite Hdb in Hh. done.
  - split; cbn; try done.
    + intros k' H1 H2. by rewrite lookup_insert_ne.
    + intros y (h' & v & Hx & Hv). congruence.
    + unfold hasset. cbn. by rewrite lookup_insert_ne.
Qed.

(** Fetching an element never changes what the container represents. *)
Lemma elHTGet_true w k f V x :
  rep w k f V ->
  exists w', elHTGet k x true w = Done (Some (htname k, x)) w' /\
    rep w' k f V /\ frame k w w' /\ has w' k x.
Proof.
  intros Hr. unfold elHTGet, HTGet, getInnerHT. fold (htname k).
  assert (exists w1 h, (ht <- lookupKeyRead (htname k) ;;
      match ht with
      | Some _ => ret (Some (htname k))
      | None => dbAdd (htname k) (OHash ∅) ;; ret (Some (htname k))
      end) w = Done (Some (htname k)) w1 /\ rep w1 k f V /\ frame k w w1 /\
      db (srv w1) !! htname k = Some (OHash h)) as (w1 & h & Hget & Hr1 & Hf1 & Hh1).
  { step_with (lookupKey_done _ _).
    destruct (db (srv w) !! htname k) as [o|] eqn:Hdb.
    - pose proof (rep_hash _ _ _ _ Hr) as Hh. unfold shape_hash in Hh. rewrite Hdb in Hh.
      destruct o as [| |h| | |]; try done. by exists w, h.
    - destruct (new_hash_rep _ _ _ _ Hr Hdb) as [Hr1 Hf1].
      eexists _, ∅. step_with (dbAdd_done _ _ _ Hdb). split; [done|]. split_and!; [done..|]. cbn. by rewrite lookup_insert_eq. }
  step_with Hget. unfold bind, hashTypeGetValueObject. rewrite Hh1.
  destruct (h !! x) as [v|] eqn:Hx.
  - exists w1. split_and!; [done..|]. by exists h, v.
  - unfold el_create, gets, hashTypeSet, ret. rewrite Hh1.
    destruct (write_hash_rep w1 k f V h x (el_new (srv w1)) Hr1) as (Hr2 & Hf2 & Hx2);
      [apply el_new_ok|by left|].
    eexists. split; [done|]. split_and!; [|by etransitivity|done].
    eapply rep_ext, Hr2. intros y. destruct (decide (y = x)) as [->|].
    + rewrite fn_lookup_insert. pose proof (rep_hash _ _ _ _ Hr1) as Hh. unfold shape_hash in Hh.
      rewrite Hh1 in Hh. specialize (Hh x). by rewrite Hx in Hh.
    + by rewrite fn_lookup_insert_ne.
Qed.

(** A lookup that does not create leaves the state alone; what it does not find
    is a new element. *)
Lemma elHTGet_false w k f V x :
  rep w k f V ->
  (elHTGet k x false w = Done (Some (htname k, x)) w /\ has w k x) \/
  (elHTGet k x false w = Done None w /\ f x = el_new (srv w)).
Proof.
  intros Hr. pose proof (rep_hash _ _ _ _ Hr) as Hh. unfold shape_hash in Hh.
  unfold elHTGet, HTGet, getInnerHT. fold (htname k). rewrite bind_assoc.
  step_with (lookupKey_done _ _). unfold bind, ret, hashTypeGetValueObject.
  destruct (db (srv w) !! htname k) as [[| |h| | |]|] eqn:Hdb; try done; [|by right].
  rewrite Hdb. specialize (Hh x). destruct (h !! x) as [v|] eqn:Hx; [left|by right].
  split; [done|]. by exists h, v.
Qed.

(** Fetching an element does not touch the set object. *)
Lemma elHTGet_set w k x r w' :
  elHTGet k x true w = Done r w' -> db (srv w') !! k = db (srv w) !! k.
Proof.
  pose proof (htname_ne k) as Hne. unfold elHTGet, HTGet, getInnerHT. fold (htname k). intros Hget.
  apply bind_done_inv in Hget as (ht & w1 & H1 & H2).
  assert (db (srv w1) !! k = db (srv w) !! k /\ ht = Some (htname k)) as [<- ->].
  { unfold bind, lookupKeyRead, lookupKey, gets, dbAdd, lookupKey, bind, gets, ret in H1.
    destruct (db (srv w) !! htname k) eqn:Hdb; [by simplify_eq|]. rewrite Hdb in H1. cbn in H1.
    simplify_eq. split; [|done]. cbn. by rewrite lookup_insert_ne. }
  unfold bind, hashTypeGetValueObject, el_create, gets, hashTypeSet, ret in H2.
  destruct (db (srv w1) !! htname k) as [[| |h| | |]|] eqn:Hdb; try done.
  destruct (h !! x); [by simplify_eq|]. rewrite Hdb in H2. simplify_eq. cbn. by rewrite lookup_insert_ne.
Qed.

Lemma read_el_rep w k f V x :
  rep w k f V -> has w k x -> read_el (htname k, x) w = Done (f x) w.
Proof.
  intros Hr (h & v & Hh & Hx). unfold read_el, read_elem, hashTypeGetValueObject, bind. cbn [fst snd].
  rewrite Hh, Hx. cbn. pose proof (rep_hash _ _ _ _ Hr) as Hs. unfold shape_hash in Hs.
  rewrite Hh in Hs. specialize (Hs x). rewrite Hx in Hs. destruct Hs as [-> _].
  by rewrite el_proj_inj.
Qed.

Lemma write_el_rep w k f V x e :
  rep w k f V -> has w k x -> el_ok (srv w) e ->
  exists w', write_el (htname k, x) e w = Done tt w' /\ rep w' k (<[x := e]> f) V /\ frame k w w'.
Proof.
  intros Hr (h & v & Hh & Hx) Hok. unfold write_el, write_elem, hashTypeSet. cbn [fst snd].
  rewrite Hh. eexists. split; [done|].
  edestruct (write_hash_rep w k f V h x e Hr Hok) as (? & ? & _); [by left|done].
Qed.

Lemma inc_dirty_rep w k f V : rep w k f V -> rep (inc_dirty w) k f V /\ frame k w (inc_dirty w).
Proof.
  intros Hr. split; [eapply rep_config; [..|done]|apply frame_config]; done || by split.
Qed.
End AnyShape.

(** ** Set objects *)

Implicit Types V : gset sds.

Lemma write_set_rep w k f V so :
  rep w k f V -> set_ok (set_max_intset_entries (srv w)) so ->
  let w' := set_db <[k := OSet so]> w in
  rep w' k f (set_members so) /\ frame k w w'.
Proof. intros Hr Hok. by apply write_obj_rep with V. Qed.

Lemma getSetOrCreate_rep w k f V s :
  rep w k f V ->
  exists w', getSetOrCreate k s w = Done k w' /\ rep w' k f V /\ frame k w w' /\ hasset w' k.
Proof.
  intros Hr. unfold getSetOrCreate, lookupKeyWrite. step_with (lookupKey_done _ _).
  pose proof (rep_set _ _ _ _ Hr) as Hs. unfold shape_set, shape_obj, set_shape in Hs. unfold hasset.
  destruct (db (srv w) !! k) as [o|] eqn:Hdb.
  - exists w. split_and!; [done..|]. by rewrite Hdb.
  - destruct (setTypeCreate_ok (set_max_intset_entries (srv w)) s (rep_max _ _ _ _ Hr)) as [Hok Hm].
    destruct (write_set_rep w k f V (setTypeCreate s) Hr Hok) as [Hr' Hf'].
    eexists. step_with (dbAdd_done _ _ _ Hdb). split; [done|]. rewrite Hm, <- Hs in Hr'. split_and!; [done..|].
    cbn. by rewrite lookup_insert_eq.
Qed.

Lemma hasset_set w k f V : rep w k f V -> hasset w k -> exists so, db (srv w) !! k = Some (OSet so).
Proof.
  intros Hr [o Ho]. pose proof (rep_set _ _ _ _ Hr) as Hs. unfold shape_set, shape_obj, set_shape in Hs.
  rewrite Ho in Hs. destruct o as [|so| | | |]; try done. by exists so.
Qed.

Lemma read_set_rep w k f V :
  rep w k f V -> hasset w k ->
  exists so, read_set k w = Done so w /\ set_ok (set_max_intset_entries (srv w)) so /\ V = set_members so.
Proof.
  intros Hr Ho. destruct (hasset_set w k f V Hr Ho) as [so Hso]. pose proof (rep_set _ _ _ _ Hr) as Hs.
  unfold shape_set, shape_obj, set_shape in Hs. rewrite Hso in Hs. exists so. unfold read_set. rewrite Hso. by split.
Qed.

Lemma set_add_rep `{DictOrder} w k f V x :
  rep w k f V -> hasset w k ->
  exists w', set_add k x w = Done (bool_decide (x ∉ V)) w' /\ rep w' k f ({[x]} ∪ V) /\ frame k w w'.
Proof.
  intros Hr Hs. destruct (read_set_rep _ _ _ _ Hr Hs) as (so & Hso & Hok & ->).
  unfold set_add. step_with Hso. unfold bind, gets.
  destruct (setTypeAdd_spec _ so x (rep_max _ _ _ _ Hr) Hok) as (so' & -> & Hok' & Hm').
  cbn. eexists. split; [done|]. rewrite <- Hm'. by apply write_set_rep with (set_members so).
Qed.

Lemma set_remove_rep w k f V x :
  rep w k f V -> hasset w k ->
  exists w', set_remove k x w = Done (bool_decide (x ∈ V)) w' /\ rep w' k f (V ∖ {[x]}) /\ frame k w w'.
Proof.
  intros Hr Hs. destruct (read_set_rep _ _ _ _ Hr Hs) as (so & Hso & Hok & ->).
  unfold set_remove. step_with Hso. unfold bind.
  destruct (setTypeRemove_spec _ so x Hok) as (Hok' & Hm' & Hb).
  cbn. eexists. split; [by rewrite Hb|]. rewrite <- Hm'. by apply write_set_rep with (set_members so).
Qed.

End Container.

(** ** Messages

    The broadcast arguments of most commands: the client's arguments, then
    pairs of an element and its annotation, then the number of pairs.  The
    effects read the pairs from the end. *)
Definition pair_args (pairs : list (sds * sds)) : list sds := pairs ≫= fun p => [p.1; p.2].
Definition msg_args (pairs : list (sds * sds)) : list sds :=
  pair_args pairs ++ [sdsfromlonglong (Z.of_nat (length pairs))].

Lemma pair_args_length pairs : length (pair_args pairs) = (2 * length pairs)%nat.
Proof. induction pairs as [|p pairs IH]; [done|]. cbn in *. unfold pair_args in IH. rewrite IH. lia. Qed.

Lemma msg_args_length pairs : length (msg_args pairs) = (2 * length pairs + 1)%nat.
Proof. unfold msg_args. rewrite length_app, pair_args_length. done. Qed.

Lemma pair_args_lookup pairs i p :
  pairs !! i = Some p ->
  pair_args pairs !! (2 * i)%nat = Some p.1 /\ pair_args pairs !! (2 * i + 1)%nat = Some p.2.
Proof.
  revert i. induction pairs as [|q pairs IH]; intros i Hi; [done|].
  change (pair_args (q :: pairs)) with (q.1 :: q.2 :: pair_args pairs). destruct i as [|i].
  - injection Hi as ->. done.
  - cbn in Hi. destruct (IH _ Hi) as [H1 H2].
    replace (2 * S i)%nat with (S (S (2 * i))) by lia.
    replace (S (S (2 * i)) + 1)%nat with (S (S (2 * i + 1))) by lia. done.
Qed.

Lemma index_lookup {A} (l : list A) (i : Z) (n : nat) : i = Z.of_nat n -> index l i = l !! n.
Proof.
  intros ->. unfold index. destruct (Z.ltb_spec (Z.of_nat n) 0); [lia|]. by rewrite Nat2Z.id.
Qed.

(** The [i]-th pair from the end, and the count. *)
Lemma msg_index pre pairs i p n :
  n = Z.of_nat (length (pre ++ msg_args pairs)) -> reverse pairs !! i = Some p ->
  index (pre ++ msg_args pairs) (n - 3 - 2 * Z.of_nat i) = Some p.1 /\
  index (pre ++ msg_args pairs) (n - 3 - 2 * Z.of_nat i + 1) = Some p.2.
Proof.
  intros -> Hi. pose proof (lookup_lt_Some _ _ _ Hi) as Hlt. rewrite length_reverse in Hlt.
  rewrite reverse_lookup in Hi by lia.
  destruct (pair_args_lookup _ _ _ Hi) as [H1 H2].
  rewrite length_app, msg_args_length.
  set (j := (length pairs - S i)%nat) in *.
  rewrite (index_lookup _ _ (length pre + 2 * j)) by lia.
  rewrite (index_lookup _ _ (length pre + (2 * j + 1))) by lia.
  rewrite !lookup_app_r by lia. rewrite !Nat.add_sub_swap, !Nat.sub_diag by lia. cbn [Nat.add].
  unfold msg_args. rewrite !lookup_app_l by (rewrite pair_args_length; lia). done.
Qed.

Lemma msg_count pre pairs n :
  n = Z.of_nat (length (pre ++ msg_args pairs)) ->
  index (pre ++ msg_args pairs) (n - 1) = Some (sdsfromlonglong (Z.of_nat (length pairs))).
Proof.
  intros ->. rewrite length_app, msg_args_length.
  rewrite (index_lookup _ _ (length pre + (2 * length pairs))) by lia.
  rewrite lookup_app_r by lia. unfold msg_args.
  rewrite lookup_app_r by (rewrite pair_args_length; lia).
  rewrite pair_args_length. replace (_ - _ - _)%nat with 0%nat by lia. done.
Qed.

(** Reading arguments. *)
Lemma rargc_done w l : rargv (cli w) = Some l -> rargc w = Done (Z.of_nat (length l)) w.
Proof. intros Hl. unfold rargc, gets. by rewrite Hl. Qed.

Lemma rarg_done w l i x : rargv (cli w) = Some l -> index l i = Some x -> rarg i w = Done x w.
Proof. intros Hl Hx. unfold rarg, rargs, bind. rewrite Hl. cbn. by rewrite Hx. Qed.

Lemma CR_GET_done w l i s t :
  rargv (cli w) = Some l -> index l i = Some s -> SdsToVC s = Some t -> CR_GET i w = Done t w.
Proof. intros Hl Hx Ht. unfold CR_GET. step_with (rarg_done _ _ _ _ Hl Hx). by rewrite Ht. Qed.

Lemma argc_done w : argc w = Done (Z.of_nat (length (argv (cli w)))) w.
Proof. done. Qed.

Lemma arg_done w i x : index (argv (cli w)) i = Some x -> arg i w = Done x w.
Proof. intros Hx. unfold arg. by rewrite Hx. Qed.

(** A loop over the indices [0 .. n-1] that establishes [P i] step by step. *)
Lemma for_index_inv (body : Z -> cmd unit) (P : nat -> world -> Prop) n w :
  P 0%nat w ->
  (forall i w, (i < n)%nat -> P i w -> exists w', body (Z.of_nat i) w = Done tt w' /\ P (S i) w') ->
  exists w', for_each (Z.of_nat <$> seq 0 n) body w = Done tt w' /\ P n w'.
Proof.
  intros H0 Hstep.
  destruct (for_each_inv body
    (fun l w => exists i, (i <= n)%nat /\ l = Z.of_nat <$> seq i (n - i) /\ P i w)
    (Z.of_nat <$> seq 0 n) w) as (w' & Hw' & i & Hi & Hl & HP).
  - exists 0%nat. split_and!; [lia| |done]. by rewrite Nat.sub_0_r.
  - intros x l w1 (i & Hi & Hl & HP). destruct (n - i)%nat as [|m] eqn:Hm; [done|].
    cbn in Hl. injection Hl as -> ->. destruct (Hstep i w1) as (w2 & Hb & HP2); [lia|done|].
    exists w2. split; [done|]. exists (S i). split_and!; [lia| |done].
    by replace (n - S i)%nat with m by lia.
  - exists w'. split; [done|]. assert (n - i = 0)%nat as Hz by (destruct (n - i)%nat; done).
    by replace n with i by lia.
Qed.

(** ** Prepare loops

    A prepare loop over the arguments appends a chunk of broadcast arguments
    for each argument it selects and keeps the invariant [Inv]. *)
Lemma prepare_chunks {E O} `{Elem E} (Inv : world -> Prop) (D : list sds -> O -> Prop)
    (body : Z * rvector -> sds -> cmd (Z * rvector)) (sel : sds -> bool) (op : sds -> O) k w args :
  Inv w ->
  (forall acc a w1, a ∈ args -> Inv w1 -> frame (E := E) k w w1 ->
     exists w2, Inv w2 /\ frame k w1 w2 /\
       if sel a then exists rv ch, body acc a w1 = Done (acc.1 + 1, rv) w2 /\
                       rv_items rv = rv_items acc.2 ++ ch /\ D ch (op a)
       else body acc a w1 = Done acc w2) ->
  exists w' chunks rv,
    fold_each args (0, RVCT_PREPARE) body w = Done (Z.of_nat (length chunks), rv) w' /\
    rv_items rv = concat chunks /\ Forall2 D chunks (op <$> filter sel args) /\
    Inv w' /\ frame (E := E) k w w'.
Proof.
  intros Hr Hbody.
  destruct (fold_each_inv body (fun rest acc w1 => exists seen chunks,
      args = seen ++ rest /\ acc.1 = Z.of_nat (length chunks) /\ rv_items acc.2 = concat chunks /\
      Forall2 D chunks (op <$> filter sel seen) /\
      Inv w1 /\ frame (E := E) k w w1) args (0, RVCT_PREPARE) w)
    as ([c rv] & w' & Hw' & seen & chunks & Hseen & Hc & Hrv & HD & Hr' & Hf').
  - exists [], []. cbn. by split_and!.
  - intros a rest [c rv] w1 (seen & chunks & Hseen & Hc & Hrv & HD & Hr1 & Hf1). cbn in Hc, Hrv.
    destruct (Hbody (c, rv) a w1) as (w2 & Hr2 & Hf2 & Hb); [rewrite Hseen; set_solver|done..|].
    assert (frame (E := E) k w w2) by (by rewrite Hf1).
    destruct (sel a) eqn:Hsel.
    + destruct Hb as (rv' & ch & Hb & Hch & Hd). eexists _, w2. split; [exact Hb|].
      exists (seen ++ [a]), (chunks ++ [ch]). cbn [fst snd] in *.
      rewrite <- app_assoc. split_and!; [done| | | |done..].
      * rewrite length_app. cbn. lia.
      * rewrite Hch, Hrv, concat_app. cbn. by rewrite app_nil_r.
      * rewrite filter_app, fmap_app. apply Forall2_app; [done|].
        rewrite filter_cons_True by (by rewrite Hsel). by repeat constructor.
    + eexists _, w2. split; [exact Hb|]. exists (seen ++ [a]), chunks. rewrite <- app_assoc.
      split_and!; [done..| |done|done].
      rewrite filter_app, filter_cons_False, filter_nil, app_nil_r; [done|rewrite Hsel; tauto].
  - rewrite app_nil_r in Hseen. subst seen. exists w', chunks, rv. cbn in Hc. by subst c.
Qed.

(** Chunks that are pairs. *)
Lemma chunks_pairs {O} (D : sds * sds -> O -> Prop) chunks ops :
  Forall2 (fun ch o => exists p, ch = [p.1; p.2] /\ D p o) chunks ops ->
  exists pairs, concat chunks = pair_args pairs /\ length pairs = length chunks /\ Forall2 D pairs ops.
Proof.
  induction 1 as [|ch o chunks ops (p & -> & Hp) _ IH]; [by exists []|].
  destruct IH as (pairs & Hc & Hl & HD). exists (p :: pairs). cbn. rewrite Hc, Hl.
  split_and!; [done..|]. by constructor.
Qed.

(** A command refused by its prepare phase. *)
Lemma call_refused prep eff w args r :
  REPLICATION_MODE (srv w) = true ->
  prep (request w args) = Return (set_client (push_reply r) (request w args)) ->
  call 0 (CRDT prep eff) (request w args) = Done tt (mkWorld (srv w) (mkClient args None false false [r])).
Proof. intros Hm Hp. apply call_no_broadcast; [done| |done|done]. by apply CRDT_origin_return. Qed.

(** Running a command at its origin after a successful prepare phase. *)
Lemma origin_run {E} `{Elem E} prep eff w args k rv w1 w2 :
  REPLICATION_MODE (srv w) = true -> prep (request w args) = Done rv w1 ->
  frame (E := E) k (request w args) w1 ->
  eff (mkWorld (srv w1) (mkClient args (Some (args ++ rv_items rv)) false false [R_ok])) = Done tt w2 ->
  frame (E := E) k (mkWorld (srv w1) (mkClient args (Some (args ++ rv_items rv)) false false [R_ok])) w2 ->
  CRDT prep eff (request w args) = Return w2 /\
  cli w2 = mkClient args (Some (args ++ rv_items rv)) false false [R_ok] /\
  same_config (srv w) (srv w2) /\ REPLICATION_MODE (srv w2) = true.
Proof.
  intros Hm Hp Hf1 He Hf2.
  assert (cli w1 = mkClient args None false false []) as Hc1 by apply (fr_cli _ _ _ Hf1).
  assert (cli w2 = mkClient args (Some (args ++ rv_items rv)) false false [R_ok]) as Hc2
    by apply (fr_cli _ _ _ Hf2).
  split_and!.
  - eapply CRDT_origin; [done|done|exact Hp|by rewrite Hc1| |by rewrite Hc2].
    unfold prepared. rewrite Hc1. exact He.
  - done.
  - etransitivity; [apply (fr_config _ _ _ Hf1)|apply (fr_config _ _ _ Hf2)].
  - unfold REPLICATION_MODE in *. rewrite (fr_replicas _ _ _ Hf2). cbn. rewrite (fr_replicas _ _ _ Hf1).
    rewrite (sc_count _ _ (fr_config _ _ _ Hf2)). cbn. by rewrite (sc_count _ _ (fr_config _ _ _ Hf1)).
Qed.

(** The same through [call]: the message is sent to every replica. *)
Lemma origin_sent {E} `{Elem E} prep eff w args k rv w1 w3 :
  REPLICATION_MODE (srv w) = true -> prep (request w args) = Done rv w1 -> frame (E := E) k (request w args) w1 ->
  eff (mkWorld (srv w1) (mkClient args (Some (args ++ rv_items rv)) false false [R_ok])) = Done tt w3 ->
  frame (E := E) k (mkWorld (srv w1) (mkClient args (Some (args ++ rv_items rv)) false false [R_ok])) w3 ->
  exists w4, call 0 (CRDT prep eff) (request w args) = Done tt w4 /\
    db (srv w4) = db (srv w3) /\ same_config (srv w3) (srv w4) /\ same_config (srv w) (srv w4) /\
    REPLICATION_MODE (srv w4) = true /\ replies (cli w4) = [R_ok] /\ rargv (cli w4) = Some (args ++ rv_items rv) /\
    replicas (srv w4) = (fun out => out ++ broadcast_msg (srv w) 0 (args ++ rv_items rv)) <$> replicas (srv w).
Proof.
  intros Hm Hp Hf1 He Hf3.
  destruct (origin_run prep eff w args k rv w1 w3 Hm Hp Hf1 He Hf3) as (Hcmd & Hcli & Hc3 & Hm3).
  destruct (call_origin 0 (CRDT prep eff) (request w args) w3 (args ++ rv_items rv))
    as (w4 & Hw4 & Hcli4 & Hdb4 & Hcount & Hid & Hmax & Hrep); [done|done|by rewrite Hcli..|].
  assert (same_config (srv w3) (srv w4)) as Hc4 by done.
  exists w4. split_and!; [done|done|done|by etransitivity| |by rewrite Hcli4, Hcli..|].
  - unfold REPLICATION_MODE in *. by rewrite Hrep, length_fmap, Hcount.
  - rewrite Hrep. unfold broadcast_msg. rewrite (fr_seldb _ _ _ Hf3), (fr_replicas _ _ _ Hf3). cbn.
    by rewrite (fr_seldb _ _ _ Hf1), (fr_replicas _ _ _ Hf1).
Qed.

(** A delivered message runs the effect phase. *)
Lemma delivery_run {E} `{Elem E} prep eff w args k w1 :
  let w0 := mkWorld (srv w) (mkClient args (Some args) true false []) in
  REPLICATION_MODE (srv w) = true -> eff w0 = Done tt w1 -> frame (E := E) k w0 w1 ->
  exists w', call 0 (CRDT prep eff) (delivery w args) = Done tt w' /\ srv w' = srv w1 /\
    same_config (srv w) (srv w') /\ REPLICATION_MODE (srv w') = true.
Proof.
  intros w0 Hm He Hf. assert (cli w1 = cli w0) as Hcli by apply (fr_cli _ _ _ Hf).
  exists (set_client (set_rargv None) w1). split_and!.
  - apply call_delivery; [done| |by rewrite Hcli]. apply CRDT_delivery; [done|done|exact He|by rewrite Hcli].
  - done.
  - apply (fr_config _ _ _ Hf).
  - unfold REPLICATION_MODE in *. cbn. rewrite (fr_replicas _ _ _ Hf). by rewrite (sc_count _ _ (fr_config _ _ _ Hf)).
Qed.

(** An effect loop that applies the operations [ops] one by one. *)
Lemma effect_steps {E St O} `{Elem E} (Inv : St -> world -> Prop) (stepf : St -> O -> St)
    (body : Z -> cmd unit) (ops : list O) k w s :
  Inv s w ->
  (forall i o w1, ops !! i = Some o -> Inv (foldl stepf s (take i ops)) w1 -> frame (E := E) k w w1 ->
     exists w2, body (Z.of_nat i) w1 = Done tt w2 /\
       Inv (stepf (foldl stepf s (take i ops)) o) w2 /\ frame (E := E) k w1 w2) ->
  exists w', for_each (Z.of_nat <$> seq 0 (length ops)) body w = Done tt w' /\
    Inv (foldl stepf s ops) w' /\ frame (E := E) k w w'.
Proof.
  intros HI Hbody.
  destruct (for_index_inv body (fun i w1 => Inv (foldl stepf s (take i ops)) w1 /\ frame (E := E) k w w1)
    (length ops) w) as (w' & Hw' & HI' & Hf').
  - done.
  - intros i w1 Hi [HI1 Hf1]. destruct (lookup_lt_is_Some_2 ops i Hi) as [o Ho].
    destruct (Hbody i o w1 Ho HI1 Hf1) as (w2 & Hb & HI2 & Hf2). exists w2. split; [done|].
    rewrite (take_S_r _ _ _ Ho), foldl_snoc. split; [done|]. by rewrite Hf1.
  - exists w'. rewrite take_ge in HI' by lia. done.
Qed.
