(* ===== verification/RWSet.v ===== *)
(** * The remove-win set ([t_rwset.c])

    A set whose members carry remove-win headers in a hash next to it.  The
    commands, translated phase by phase, then their correctness: the visible
    set is exactly the elements whose header exists, delivering an operation
    runs the header semantics of [RWFramework], and replicas that received the
    same operations show the same set. *)
From Stdlib Require Import ZArith Lia Ascii String.
From stdpp Require Import functions base numbers strings gmap sets list.
From S2P Require Import Prelude Sds VectorClock LamportClock Intset SetType Server RWFramework Container.
Open Scope Z_scope.

Definition RW_SET_TABLE_SUFFIX : sds := "_rwsets_"%string.

(** ** Elements *)

Definition rwseNew : cmd helem := gets (fun w => HRwse (REH_INIT (srv w))).

Definition rwseHTGet (tname key : sds) (create : bool) : cmd (option eref) :=
  rehHTGet tname RW_SET_TABLE_SUFFIX key create rwseNew.

(** Headers are the elements of this container. *)
#[global, program] Instance rwse_elem : Elem reh := {
  el_suffix := RW_SET_TABLE_SUFFIX;
  el_inj := HRwse;
  el_proj v := match v with HRwse h => Some h | _ => None end;
  el_new s := REH_INIT s;
  el_ok s h := vc_size (current h) = Z.to_nat (p2p_count s) /\ vc_id (current h) = p2p_id s /\
    Forall in_int (vector (current h))
}.
Solve Obligations with try done.
Next Obligation.
  intros s. unfold REH_INIT, l_newVC, newVC, vc_size. cbn. rewrite length_replicate.
  split_and!; [done..|]. apply Forall_replicate. clia.
Qed.

#[global] Instance rwse_stable : ElemStable reh.
Proof.
  split.
  - intros s s' []. unfold el_new. cbn. unfold REH_INIT, l_newVC. congruence.
  - intros s s' e []. unfold el_ok. cbn. by rewrite sc_count, sc_id.
Qed.

Definition read_rwse (e : eref) : cmd reh := read_el e.
Definition write_rwse (e : eref) (h : reh) : cmd unit := write_el e h.

Definition setRemoveFunc (e : eref) (t : vc) (setName eleName : sds) : cmd unit :=
  h <- read_rwse e ;;
  b <- deref (removeCheck h t) ;;
  if b then
    write_rwse e (REH_RMV_FUNC h t) ;;
    set <- getSetOrCreate setName eleName ;;
    set_remove set eleName ;;
    modify inc_dirty
  else ret tt.

Section Commands.
Context `{DictOrder}.

(** ** Effects

    The element and its timestamp are the last pair of arguments not yet
    processed; the count is the last argument. *)
Definition sadd_one (setName set : sds) (n : Z) (i : Z) : cmd unit :=
  let idx := n - 3 - 2 * i in
  t <- CR_GET (idx + 1) ;;
  ele <- rarg idx ;;
  e <- rwseHTGet setName ele true ;;
  e <- deref e ;;
  setRemoveFunc e t setName ele ;;
  h <- read_rwse e ;;
  if insertCheck h t then
    write_rwse e (mkReh (vc_id t) (current h)) ;;
    set_add set ele ;;
    modify inc_dirty
  else ret tt.

Definition saddGenericCommand (setName : sds) : cmd unit := fn (
  n <- rargc ;;
  last <- rarg (n - 1) ;;
  added <- deref (getLongLongFromObject last) ;;
  if added =? 0 then creturn
  else
    sample <- rarg (n - 3) ;;
    set <- getSetOrCreate setName sample ;;
    for_each (Z.of_nat <$> seq 0 (Z.to_nat (to_int added))) (sadd_one setName set n)).

Definition srem_one (setName : sds) (n : Z) (i : Z) : cmd unit :=
  let idx := n - 3 - 2 * i in
  t <- CR_GET (idx + 1) ;;
  ele <- rarg idx ;;
  e <- rwseHTGet setName ele true ;;
  e <- deref e ;;
  setRemoveFunc e t setName ele.

Definition sremGenericCommand (setName : sds) : cmd unit := fn (
  n <- rargc ;;
  last <- rarg (n - 1) ;;
  remed <- deref (getLongLongFromObject last) ;;
  if remed =? 0 then creturn
  else
    sample <- rarg (n - 3) ;;
    set <- getSetOrCreate setName sample ;;
    for_each (Z.of_nat <$> seq 0 (Z.to_nat remed)) (srem_one setName n)).

(** ** [rwsadd] and [rwsrem] *)

Definition rwsadd_loop (key : sds) (acc : Z * rvector) (a : sds) : cmd (Z * rvector) :=
  e <- rwseHTGet key a true ;;
  e <- deref e ;;
  h <- read_rwse e ;;
  if negb (EXISTS h) then
    rv <- ADD_CR_NON_RMV (RARGV_ADD_SDS acc.2 (sdsdup a)) h ;;
    ret (acc.1 + 1, rv)
  else ret acc.

Definition rwsadd_prepare : cmd rvector :=
  key <- arg 1 ;;
  set <- lookupKeyRead key ;;
  (match set with
   | Some o => if is_set o then ret tt else addReply R_wrongtypeerr ;; creturn
   | None => ret tt
   end) ;;
  args <- args_from 2 ;;
  r <- fold_each args (0, RVCT_PREPARE) (rwsadd_loop key) ;;
  let rv := RARGV_ADD_SDS r.2 (sdsfromlonglong r.1) in
  if r.1 =? 0 then addReply R_ele_exist ;; creturn else ret rv.

Definition rwsaddCommand : cmd unit :=
  CRDT rwsadd_prepare (key <- rarg 1 ;; saddGenericCommand key).

Definition rwsrem_loop (key : sds) (acc : Z * rvector) (a : sds) : cmd (Z * rvector) :=
  e <- rwseHTGet key a true ;;
  set <- read_set key ;;
  if setTypeIsMember set a then
    e <- deref e ;;
    h <- read_rwse e ;;
    rv <- ADD_CR_RMV (RARGV_ADD_SDS acc.2 (sdsnew a)) h ;;
    ret (acc.1 + 1, rv)
  else ret acc.

Definition rwsrem_prepare : cmd rvector :=
  key <- arg 1 ;;
  set <- lookupKeyWriteOrReply key R_czero ;;
  (match set with
   | None => creturn
   | Some o => wrong <- checkType_set o ;; if wrong then creturn else ret tt
   end) ;;
  args <- args_from 2 ;;
  r <- fold_each args (0, RVCT_PREPARE) (rwsrem_loop key) ;;
  let rv := RARGV_ADD_SDS r.2 (sdsfromlonglong r.1) in
  if r.1 =? 0 then addReply R_ele_nexist ;; creturn else ret rv.

Definition rwsremCommand : cmd unit :=
  CRDT rwsrem_prepare (key <- rarg 1 ;; sremGenericCommand key).

(** ** Set algebra

    The destination is a set object of the command's own. *)
Definition local_add (dst : setobj) (ele : sds) : cmd setobj :=
  max <- gets (fun w => set_max_intset_entries (srv w)) ;;
  r <- deref (setTypeAdd max dst ele) ;;
  ret r.1.

(** [deref] of the pointer to a set object just looked up. *)
Definition as_set (o : robj) : cmd setobj :=
  match o with OSet so => ret so | _ => crash end.

Fixpoint sunionResult (setkeys : list sds) (dstset : setobj) : cmd setobj :=
  match setkeys with
  | [] => ret dstset
  | k :: setkeys =>
      o <- lookupKeyRead k ;;
      match o with
      | None => sunionResult setkeys dstset
      | Some o =>
          wrong <- checkType_set o ;;
          if wrong then ret dstset
          else
            so <- as_set o ;;
            dstset <- fold_each (set_list so) dstset local_add ;;
            sunionResult setkeys dstset
      end
  end.

Definition sdiffResult (idx : Z) (dstset : setobj) : cmd setobj :=
  k <- arg idx ;;
  set <- lookupKeyRead k ;;
  match set with
  | None => ret dstset
  | Some o =>
      keys <- args_from 3 ;;
      unionSet <- sunionResult keys createIntsetObject ;;
      so <- as_set o ;;
      fold_each (set_list so) dstset (fun dst ele =>
        if negb (setTypeIsMember unionSet ele) then local_add dst ele else ret dst)
  end.

Definition dictSize0 (d : gset sds) : nat := size d.
Definition setTypeSize0 (so : setobj) : nat :=
  match so with SHT d => dictSize0 d | SIntset ins => intsetLen ins end.

(** How the loop over the other sets ends: by [return], by [break], or with
    all sets containing the element. *)
Inductive inter_exit := IReturn | IBreak | IAll.

Fixpoint inter_inner (keys : list sds) (e : selem) : cmd inter_exit :=
  match keys with
  | [] => ret IAll
  | k :: keys =>
      o <- lookupKeyRead k ;;
      match o with
      | None => ret IReturn
      | Some o =>
          wrong <- checkType_set o ;;
          if wrong then ret IReturn
          else
            so <- as_set o ;;
            let found :=
              match e, so with
              | EInt z, SIntset ins => intsetFind ins z
              | EInt z, SHT _ => setTypeIsMember so (sdsfromlonglong z)
              | ESds s, _ => setTypeIsMember so s
              end in
            if found then inter_inner keys e else ret IBreak
      end
  end.

Fixpoint inter_outer (elems : list selem) (keys : list sds) (dstset : setobj) : cmd setobj :=
  match elems with
  | [] => ret dstset
  | e :: elems =>
      x <- inter_inner keys e ;;
      match x with
      | IReturn => ret dstset
      | IBreak => inter_outer elems keys dstset
      | IAll =>
          dstset <- local_add dstset (selem_sds e) ;;
          inter_outer elems keys dstset
      end
  end.

Definition sinterResult (idx : nat) (dstset : setobj) : cmd setobj :=
  k <- arg (Z.of_nat idx) ;;
  o <- lookupKeyRead k ;;
  match o with
  | None => ret dstset
  | Some o =>
      wrong <- checkType_set o ;;
      if wrong then ret dstset
      else
        so <- as_set o ;;
        keys <- args_from (S idx) ;;
        inter_outer (set_elems so) keys dstset
  end.

(** ** [rwsunionstore], [rwsdiffstore], [rwsinterstore] *)

Definition rwsunionstore_loop (key : sds) (acc : Z * rvector) (ele : sds) : cmd (Z * rvector) :=
  e <- rwseHTGet key (sdsnew ele) true ;;
  set <- read_set key ;;
  if negb (setTypeIsMember set ele) then
    e <- deref e ;;
    h <- read_rwse e ;;
    rv <- ADD_CR_NON_RMV (RARGV_ADD_SDS acc.2 (sdsnew ele)) h ;;
    ret (acc.1 + 1, rv)
  else ret acc.

Definition rwsunionstore_prepare : cmd rvector :=
  key <- arg 1 ;;
  set <- lookupKeyRead key ;;
  match set with
  | None => creturn
  | Some _ =>
      keys <- args_from 2 ;;
      dstset <- sunionResult keys createIntsetObject ;;
      r <- fold_each (set_list dstset) (0, RVCT_PREPARE) (rwsunionstore_loop key) ;;
      let rv := RARGV_ADD_SDS r.2 (sdsfromlonglong r.1) in
      if r.1 =? 0 then addReply R_ele_exist ;; creturn else ret rv
  end.

Definition rwsunionstoreCommand : cmd unit :=
  CRDT rwsunionstore_prepare (key <- rarg 1 ;; saddGenericCommand key).

Definition rwsdiffstore_loop (key : sds) (dstset : setobj) (acc : Z * rvector) (ele : sds)
  : cmd (Z * rvector) :=
  if negb (setTypeIsMember dstset ele) then
    e <- rwseHTGet key (sdsnew ele) true ;;
    e <- deref e ;;
    h <- read_rwse e ;;
    rv <- ADD_CR_RMV (RARGV_ADD_SDS acc.2 (sdsnew ele)) h ;;
    ret (acc.1 + 1, rv)
  else ret acc.

Definition rwsdiffstore_prepare : cmd rvector :=
  key <- arg 1 ;;
  set <- lookupKeyRead key ;;
  match set with
  | None => creturn
  | Some _ =>
      dstset <- sdiffResult 2 createIntsetObject ;;
      so <- read_set key ;;
      r <- fold_each (set_list so) (0, RVCT_PREPARE) (rwsdiffstore_loop key dstset) ;;
      let rv := RARGV_ADD_SDS r.2 (sdsfromlonglong r.1) in
      if r.1 =? 0 then addReply R_ele_nexist ;; creturn else ret rv
  end.

Definition rwsdiffstoreCommand : cmd unit :=
  CRDT rwsdiffstore_prepare (key <- rarg 1 ;; sremGenericCommand key).

Definition rwsinterstore_loop (key : sds) (dstset : setobj) (acc : Z * rvector) (ele : sds)
  : cmd (Z * rvector) :=
  if Nat.eqb (setTypeSize dstset) 0 || negb (setTypeIsMember dstset ele) then
    e <- rwseHTGet key (sdsnew ele) true ;;
    e <- deref e ;;
    h <- read_rwse e ;;
    if EXISTS h then
      rv <- ADD_CR_RMV (RARGV_ADD_SDS acc.2 (sdsnew ele)) h ;;
      ret (acc.1 + 1, rv)
    else ret acc
  else ret acc.

Definition rwsinterstore_prepare : cmd rvector :=
  key <- arg 1 ;;
  set <- lookupKeyWrite key ;;
  match set with
  | None => creturn
  | Some _ =>
      dstset <- sinterResult 2 createIntsetObject ;;
      so <- read_set key ;;
      r <- fold_each (set_list so) (0, RVCT_PREPARE) (rwsinterstore_loop key dstset) ;;
      let rv := RARGV_ADD_SDS r.2 (sdsfromlonglong r.1) in
      if r.1 =? 0 then addReply R_ele_nexist ;; creturn else ret rv
  end.

Definition rwsinterstoreCommand : cmd unit :=
  CRDT rwsinterstore_prepare (key <- rarg 1 ;; sremGenericCommand key).
End Commands.

(** A run: two replicas, a concurrent add and removal; the removal wins at
    both. *)
Definition start_world (count id : Z) : world :=
  mkWorld (mkServer ∅ [[]] count id (-1) 0 512 0 0) (mkClient [] None false false []).

Definition members_of (w : world) (k : sds) : list sds :=
  match db (srv w) !! k with Some (OSet so) => set_list so | _ => [] end.

(** Run a command; keep the state and the broadcast arguments. *)
Definition run_call (w : world) (proc : cmd unit) : world * option (list sds) :=
  match call 0 proc w with
  | Done _ w' => (w', rargv (cli w'))
  | _ => (w, None)
  end.

Open Scope string_scope.
Example rwset_run :
  let (a1, m1) := run_call (request (start_world 2 0) ["rwsadd"; "k"; "x"; "7"]) rwsaddCommand in
  let m1 := default [] m1 in
  let b1 := (run_call (delivery (start_world 2 1) m1) rwsaddCommand).1 in
  let (b2, m2) := run_call (request b1 ["rwsrem"; "k"; "x"]) rwsremCommand in
  let m2 := default [] m2 in
  let a2 := (run_call (delivery a1 m2) rwsremCommand).1 in
  let (a3, m3) := run_call (request a2 ["rwsadd"; "k"; "x"]) rwsaddCommand in
  let b3 := (run_call (delivery b2 (default [] m3)) rwsaddCommand).1 in
  m1 = ["rwsadd"; "k"; "x"; "7"; "x"; "0,0|0"; "7"; "0,0|0"; "2"]
  /\ m2 = ["rwsrem"; "k"; "x"; "x"; "0,1|1"; "1"]
  /\ (members_of b1 "k" = ["x"; "7"] \/ members_of b1 "k" = ["7"; "x"])
  /\ members_of b2 "k" = ["7"] /\ members_of a2 "k" = ["7"]
  /\ members_of a3 "k" = members_of b3 "k" /\ length (members_of a3 "k") = 2%nat
  /\ replies (cli a1) = [R_ok]
  /\ length (replicas (srv a3)) = 1%nat.
Proof. vm_compute. repeat split; auto. Qed.
Close Scope string_scope.

(** ** Refinement

    [rws w k f]: the container [k] holds the headers [f], and shows exactly the
    elements whose header exists. *)
Definition agree (f : sds -> reh) (V : gset sds) : Prop :=
  forall x, x ∈ V <-> EXISTS (f x) = true.

Definition rws (w : world) (k : sds) (f : sds -> reh) : Prop :=
  exists V, rep w k f V /\ agree f V.

(** A timestamp of this system: its size, its entries, a real replica id. *)
Definition ts_ok (s : server) (t : vc) : Prop :=
  vc_size t = Z.to_nat (p2p_count s) /\ Forall in_int (vector t) /\ 0 <= vc_id t.

Lemma ts_ok_stable s s' t : same_config s s' -> ts_ok s t -> ts_ok s' t.
Proof. intros []. unfold ts_ok. by rewrite sc_count. Qed.

Lemma update_loop_in_int v w :
  Forall in_int v -> Forall in_int w -> Forall in_int (update_loop v w).
Proof.
  intros Hv. revert w. induction Hv as [|x v Hx Hv IH]; intros [|y w] Hw; cbn; try done.
  - by constructor.
  - apply Forall_cons_1 in Hw as [Hy Hw]. constructor; [by case_match|]. by apply IH.
Qed.

Lemma rem_effect_ok s h t : el_ok s h -> ts_ok s t -> el_ok s (rem_effect h t).
Proof.
  intros (Hs & Hi & Hv) (Ht & Htv & _). unfold el_ok. cbn.
  rewrite rem_effect_size, rem_effect_vcid, rem_effect_vector by congruence.
  split_and!; [done..|]. by apply update_loop_in_int.
Qed.

Lemma add_effect_ok s h t : el_ok s h -> ts_ok s t -> el_ok s (add_effect h t).
Proof.
  intros Hh Ht. pose proof (rem_effect_ok _ _ _ Hh Ht) as Hr. unfold add_effect. by case_match.
Qed.

(** Changing one header and its membership together. *)
Lemma agree_insert f V x h V' :
  agree f V -> (forall y, y <> x -> y ∈ V' <-> y ∈ V) -> (x ∈ V' <-> EXISTS h = true) ->
  agree (<[x := h]> f) V'.
Proof.
  intros Ha Hy Hx y. destruct (decide (y = x)) as [->|Hne].
  - by rewrite fn_lookup_insert.
  - rewrite fn_lookup_insert_ne by done. rewrite Hy by done. apply Ha.
Qed.

Lemma rws_same w k f x : rws w k f -> rws w k (<[x := f x]> f).
Proof.
  intros (V & Hr & Ha). exists V. split.
  - eapply rep_ext, Hr. intros y. destruct (decide (y = x)) as [->|]; [by rewrite fn_lookup_insert|].
    by rewrite fn_lookup_insert_ne.
  - by apply (agree_insert f V).
Qed.

Section Refinement.
Context `{DictOrder}.

(** [setRemoveFunc] is the removal of the framework. *)
Lemma setRemoveFunc_rws w k f x t :
  rws w k f -> has w k x -> ts_ok (srv w) t ->
  exists w', setRemoveFunc (htname k, x) t k x w = Done tt w' /\
    rws w' k (<[x := rem_effect (f x) t]> f) /\ frame k w w'.
Proof.
  intros (V & Hr & Ha) Hx Ht. unfold setRemoveFunc, read_rwse, write_rwse.
  step_with (read_el_rep _ _ _ _ _ Hr Hx).
  pose proof (rep_el_ok _ _ _ _ x Hr) as Hok.
  assert (vc_size (current (f x)) = vc_size t) as Hsz by (destruct Hok, Ht; congruence).
  unfold rem_effect. rewrite removeCheck_spec by done.
  step_with (deref_some _ _).
  destruct (negb _) eqn:Hb.
  - destruct (write_el_rep w k f V x (REH_RMV_FUNC (f x) t) Hr Hx) as (w1 & Hw1 & Hr1 & Hf1).
    { pose proof (rem_effect_ok _ _ _ Hok Ht) as Hok'. unfold rem_effect in Hok'.
      rewrite removeCheck_spec, Hb in Hok' by done. done. }
    step_with Hw1.
    destruct (getSetOrCreate_rep w1 k _ V x Hr1) as (w2 & Hw2 & Hr2 & Hf2 & Hs2).
    step_with Hw2.
    destruct (set_remove_rep w2 k _ V x Hr2 Hs2) as (w3 & Hw3 & Hr3 & Hf3).
    step_with Hw3.
    destruct (inc_dirty_rep w3 k _ _ Hr3) as [Hr4 Hf4].
    exists (inc_dirty w3). split; [done|]. split.
    + exists (V ∖ {[x]}). split; [done|]. apply (agree_insert f V); [done|set_solver|].
      cbn. set_solver.
    + by rewrite Hf1, Hf2, Hf3.
  - exists w. split; [done|]. split; [|done]. apply rws_same. by exists V.
Qed.

Lemma rwseHTGet_rws w k f x :
  rws w k f ->
  exists w', rwseHTGet k x true w = Done (Some (htname k, x)) w' /\
    rws w' k f /\ frame k w w' /\ has w' k x.
Proof.
  intros (V & Hr & Ha). destruct (elHTGet_true w k f V x Hr) as (w' & Hw' & Hr' & Hf' & Hx).
  exists w'. split_and!; [exact Hw'| |done..]. by exists V.
Qed.

Lemma read_rwse_rws w k f x : rws w k f -> has w k x -> read_rwse (htname k, x) w = Done (f x) w.
Proof. intros (V & Hr & _). by apply read_el_rep with V. Qed.

Lemma frame_rargv k w w' : frame k w w' -> rargv (cli w') = rargv (cli w).
Proof. intros Hf. by rewrite (fr_cli _ _ _ Hf). Qed.

(** The headers after one operation. *)
Definition hdr_step (f : sds -> reh) (p : sds * rwop) : sds -> reh :=
  <[p.1 := rw_effect (f p.1) p.2]> f.

(** One iteration of the effect loops. *)
Lemma srem_one_rws w k f n i l x s t :
  rws w k f -> rargv (cli w) = Some l ->
  index l (n - 3 - 2 * i) = Some x -> index l (n - 3 - 2 * i + 1) = Some s ->
  SdsToVC s = Some t -> ts_ok (srv w) t ->
  exists w', srem_one k n i w = Done tt w' /\ rws w' k (hdr_step f (x, RRem t)) /\ frame k w w'.
Proof.
  intros Hr Hl Hx Hs Hp Ht. unfold srem_one.
  step_with (CR_GET_done _ _ _ _ _ Hl Hs Hp).
  step_with (rarg_done _ _ _ _ Hl Hx).
  destruct (rwseHTGet_rws w k f x Hr) as (w1 & Hw1 & Hr1 & Hf1 & Hx1).
  step_with Hw1. step_with (deref_some _ _).
  destruct (setRemoveFunc_rws w1 k f x t Hr1 Hx1) as (w2 & Hw2 & Hr2 & Hf2).
  { eapply ts_ok_stable, Ht. apply Hf1. }
  exists w2. split_and!; [done..|]. by rewrite Hf1.
Qed.

Lemma sadd_one_rws w k f n i l x s t :
  rws w k f -> hasset w k -> rargv (cli w) = Some l ->
  index l (n - 3 - 2 * i) = Some x -> index l (n - 3 - 2 * i + 1) = Some s ->
  SdsToVC s = Some t -> ts_ok (srv w) t ->
  exists w', sadd_one k k n i w = Done tt w' /\ rws w' k (hdr_step f (x, RAdd t)) /\ frame k w w'.
Proof.
  intros Hr Hset Hl Hx Hs Hp Ht. unfold sadd_one.
  step_with (CR_GET_done _ _ _ _ _ Hl Hs Hp).
  step_with (rarg_done _ _ _ _ Hl Hx).
  destruct (rwseHTGet_rws w k f x Hr) as (w1 & Hw1 & Hr1 & Hf1 & Hx1).
  step_with Hw1. step_with (deref_some _ _).
  assert (ts_ok (srv w1) t) as Ht1 by (eapply ts_ok_stable, Ht; apply Hf1).
  destruct (setRemoveFunc_rws w1 k f x t Hr1 Hx1 Ht1) as (w2 & Hw2 & Hr2 & Hf2).
  step_with Hw2.
  assert (has w2 k x) as Hx2 by (by eapply fr_has).
  rewrite (bind_done _ _ _ _ _ (read_rwse_rws _ _ _ _ Hr2 Hx2)), fn_lookup_insert.
  assert (frame k w w2) as Hf by (by rewrite Hf1).
  unfold hdr_step. cbn [fst snd rw_effect]. unfold add_effect. cbn zeta.
  destruct (insertCheck (rem_effect (f x) t) t) eqn:Hi.
  - destruct Hr2 as (V & Hr2 & Ha2). unfold write_rwse.
    destruct (write_el_rep w2 k _ V x (mkReh (vc_id t) (current (rem_effect (f x) t))) Hr2 Hx2)
      as (w3 & Hw3 & Hr3 & Hf3).
    { pose proof (rep_el_ok _ _ _ _ x Hr2) as Hok. rewrite fn_lookup_insert in Hok. exact Hok. }
    step_with Hw3.
    destruct (set_add_rep w3 k _ V x Hr3) as (w4 & Hw4 & Hr4 & Hf4).
    { eapply fr_hasset, fr_hasset, Hset; [exact Hf3|exact Hf]. }
    step_with Hw4.
    destruct (inc_dirty_rep w4 k _ _ Hr4) as [Hr5 Hf5].
    exists (inc_dirty w4). split; [done|]. split; [|by rewrite Hf, Hf3, Hf4].
    exists ({[x]} ∪ V). split.
    + eapply rep_ext, Hr5. intros y. destruct (decide (y = x)) as [->|]; [by rewrite !fn_lookup_insert|].
      by rewrite !fn_lookup_insert_ne.
    + intros y. destruct (decide (y = x)) as [->|Hy].
      * rewrite fn_lookup_insert. destruct Ht as (_ & _ & Hid). unfold EXISTS. cbn.
        rewrite Z.leb_le. set_solver.
      * rewrite fn_lookup_insert_ne by done. specialize (Ha2 y).
        rewrite fn_lookup_insert_ne in Ha2 by done. set_solver.
  - exists w2. by split_and!.
Qed.
End Refinement.

(** The pairs of a message denote operations. *)
Definition decodes (s : server) (mk : vc -> rwop) (p : sds * sds) (o : sds * rwop) : Prop :=
  o.1 = p.1 /\ exists t, SdsToVC p.2 = Some t /\ ts_ok s t /\ o.2 = mk t.

Definition hdr_run (f : sds -> reh) (ops : list (sds * rwop)) : sds -> reh := foldl hdr_step f ops.

Section Effects.
Context `{DictOrder}.

Lemma count_parse pairs :
  Z.of_nat (length pairs) <= INT_MAX ->
  getLongLongFromObject (sdsfromlonglong (Z.of_nat (length (A := sds * sds) pairs)))
  = Some (Z.of_nat (length pairs)).
Proof. intros Hl. apply string2ll_print. clia. Qed.

(** The loop body is called on the pairs from the last to the first. *)
Lemma effect_loop (body : Z -> cmd unit) mk w k f pairs ops :
  rws w k f -> Forall2 (decodes (srv w) mk) pairs ops ->
  (forall i p t w1 f1, reverse pairs !! i = Some p -> SdsToVC p.2 = Some t ->
     ts_ok (srv w1) t -> rws w1 k f1 -> frame k w w1 ->
     exists w2, body (Z.of_nat i) w1 = Done tt w2 /\ rws w2 k (hdr_step f1 (p.1, mk t)) /\ frame k w1 w2) ->
  exists w', for_each (Z.of_nat <$> seq 0 (length pairs)) body w = Done tt w' /\
    rws w' k (hdr_run f (reverse ops)) /\ frame k w w'.
Proof.
  intros Hr Hdec Hbody. pose proof (Forall2_length _ _ _ Hdec) as Hlen.
  destruct (for_index_inv body
    (fun i w1 => rws w1 k (hdr_run f (take i (reverse ops))) /\ frame k w w1) (length pairs) w)
    as (w' & Hw' & Hr' & Hf').
  - split; [by rewrite take_0|done].
  - intros i w1 Hi [Hr1 Hf1].
    destruct (lookup_lt_is_Some_2 (reverse pairs) i) as [p Hp]; [by rewrite length_reverse|].
    destruct (Forall2_lookup_l _ _ _ i p (Forall2_reverse _ _ _ Hdec) Hp)
      as ([x o] & Ho & Hx & t & Ht & Hok & Hmk). cbn in Hx, Hmk. subst x o.
    destruct (Hbody i p t w1 (hdr_run f (take i (reverse ops))) Hp Ht) as (w2 & Hb & Hr2 & Hf2);
      [eapply ts_ok_stable, Hok; apply Hf1|done..|].
    exists w2. split; [done|]. rewrite (take_S_r _ _ _ Ho). unfold hdr_run. rewrite foldl_snoc.
    split; [done|]. by rewrite Hf1.
  - exists w'. split; [done|]. split; [|done].
    by rewrite take_ge in Hr' by (rewrite length_reverse; lia).
Qed.

(** The common part of the two effects: [cnt] converts the count, [body set n]
    is the loop body. *)
Definition generic_effect (cnt : Z -> nat) (body : sds -> Z -> Z -> cmd unit) (k : sds) : cmd unit :=
  n <- rargc ;;
  last <- rarg (n - 1) ;;
  count <- deref (getLongLongFromObject last) ;;
  if count =? 0 then creturn
  else
    sample <- rarg (n - 3) ;;
    set <- getSetOrCreate k sample ;;
    for_each (Z.of_nat <$> seq 0 (cnt count)) (body set n).

Lemma generic_effect_rws cnt body mk w k f pre pairs ops :
  (forall m, Z.of_nat m <= INT_MAX -> cnt (Z.of_nat m) = m) ->
  (forall n i l x s t w f, rws w k f -> hasset w k -> rargv (cli w) = Some l ->
     index l (n - 3 - 2 * i) = Some x -> index l (n - 3 - 2 * i + 1) = Some s ->
     SdsToVC s = Some t -> ts_ok (srv w) t ->
     exists w', body k n i w = Done tt w' /\ rws w' k (hdr_step f (x, mk t)) /\ frame k w w') ->
  rws w k f -> rargv (cli w) = Some (pre ++ msg_args pairs) ->
  (0 < length pairs)%nat -> Z.of_nat (length pairs) <= INT_MAX ->
  Forall2 (decodes (srv w) mk) pairs ops ->
  exists w', fn (generic_effect cnt body k) w = Done tt w' /\
    rws w' k (hdr_run f (reverse ops)) /\ frame k w w'.
Proof.
  intros Hcnt Hbody Hr Hl Hpos Hmax Hdec.
  enough (exists w', generic_effect cnt body k w = Done tt w' /\
    rws w' k (hdr_run f (reverse ops)) /\ frame k w w') as (w' & Hw' & Hr' & Hf').
  { exists w'. split; [by apply fn_done|done]. }
  unfold generic_effect. step_with (rargc_done _ _ Hl).
  set (n := Z.of_nat (length (pre ++ msg_args pairs))).
  step_with (rarg_done _ _ _ _ Hl (msg_count pre pairs n eq_refl)).
  rewrite count_parse by done. step_with (deref_some _ _).
  destruct (Z.eqb_spec (Z.of_nat (length pairs)) 0); [lia|].
  destruct (lookup_lt_is_Some_2 (reverse pairs) 0) as [p0 Hp0]; [by rewrite length_reverse|].
  destruct (msg_index pre pairs 0 p0 n eq_refl Hp0) as [Hx0 _].
  replace (n - 3 - 2 * Z.of_nat 0) with (n - 3) in Hx0 by lia.
  step_with (rarg_done _ _ _ _ Hl Hx0).
  destruct Hr as (V & Hr & Ha).
  destruct (getSetOrCreate_rep w k f V p0.1 Hr) as (w1 & Hw1 & Hr1 & Hf1 & Hs1).
  step_with Hw1. rewrite Hcnt by done.
  destruct (effect_loop (body k n) mk w1 k f pairs ops) as (w2 & Hw2 & Hr2 & Hf2).
  - by exists V.
  - eapply Forall2_impl; [exact Hdec|]. intros p o (Hx & t & Hp & Ht & Ho). split; [done|].
    exists t. split_and!; [done| |done]. eapply ts_ok_stable, Ht. apply Hf1.
  - intros i p t w3 f3 Hi Ht Hok Hr3 Hf3. destruct (msg_index pre pairs i p n eq_refl Hi) as [Hx Hs].
    eapply Hbody; try done; [by eapply fr_hasset|].
    by rewrite (frame_rargv _ _ _ Hf3), (frame_rargv _ _ _ Hf1).
  - exists w2. split_and!; [done..|]. by rewrite Hf1.
Qed.

Lemma saddGeneric_rws w k f pre pairs ops :
  rws w k f -> rargv (cli w) = Some (pre ++ msg_args pairs) ->
  (0 < length pairs)%nat -> Z.of_nat (length pairs) <= INT_MAX ->
  Forall2 (decodes (srv w) RAdd) pairs ops ->
  exists w', saddGenericCommand k w = Done tt w' /\
    rws w' k (hdr_run f (reverse ops)) /\ frame k w w'.
Proof.
  apply (generic_effect_rws (fun c => Z.to_nat (to_int c)) (sadd_one k)).
  - intros m Hm. rewrite to_int_id, Nat2Z.id; [done|clia].
  - intros. by eapply sadd_one_rws.
Qed.

Lemma sremGeneric_rws w k f pre pairs ops :
  rws w k f -> rargv (cli w) = Some (pre ++ msg_args pairs) ->
  (0 < length pairs)%nat -> Z.of_nat (length pairs) <= INT_MAX ->
  Forall2 (decodes (srv w) RRem) pairs ops ->
  exists w', sremGenericCommand k w = Done tt w' /\
    rws w' k (hdr_run f (reverse ops)) /\ frame k w w'.
Proof.
  apply (generic_effect_rws Z.to_nat (fun _ => srem_one k)).
  - intros m Hm. apply Nat2Z.id.
  - intros. by eapply srem_one_rws.
Qed.
End Effects.

(** ** The prepare phases *)

(** A replica of a system whose clocks can be printed. *)
Definition cfg_ok (s : server) : Prop :=
  1 <= p2p_count s <= 100 /\ 0 <= p2p_id s < p2p_count s.

Lemma cfg_ok_stable s s' : same_config s s' -> cfg_ok s -> cfg_ok s'.
Proof. intros []. unfold cfg_ok. by rewrite sc_count, sc_id. Qed.

Lemma el_ok_printable s h : cfg_ok s -> el_ok s h -> vc_printable (current h).
Proof.
  intros [Hc Hi] (Hs & Hid & Hv). unfold vc_printable. rewrite Hs, Hid. unfold VC_BUF.
  split_and!; [lia|lia|done|clia].
Qed.

Lemma el_ok_ts s h : cfg_ok s -> el_ok s h -> ts_ok s (current h).
Proof. intros [Hc Hi] (Hs & Hid & Hv). split_and!; [done..|]. rewrite Hid. lia. Qed.

(** The timestamp of a removal at this replica. *)
Definition rem_ts (h : reh) : vc := mkVC (bump (vector (current h)) (vc_id (current h))) (vc_id (current h)).

(** The header's clock has not reached the end of [int]. *)
Definition clock_room (h : reh) : Prop := Forall (fun x => x < INT_MAX) (vector (current h)).

Lemma rem_ts_ok s h : cfg_ok s -> el_ok s h -> clock_room h ->
  ts_ok s (rem_ts h) /\ exists str, nowVC (current h) = Some str /\ SdsToVC str = Some (rem_ts h).
Proof.
  intros Hc Hok Hroom. pose proof (el_ok_printable _ _ Hc Hok) as Hp.
  destruct Hc as [Hc Hi], Hok as (Hs & Hid & Hv). split.
  - unfold ts_ok, rem_ts, vc_size in *. cbn. rewrite bump_length. split_and!; [done| |lia].
    by apply bump_in_int.
  - apply nowVC_parse. split_and!; [done|lia|unfold vc_size in *; lia|done].
Qed.

Section Prepare.
Context `{DictOrder}.

(** A prepare loop adds a pair for each argument it selects and changes no
    header. *)
Lemma prepare_loop (body : Z * rvector -> sds -> cmd (Z * rvector)) mk (sel : sds -> bool)
    (name : sds -> sds) (ts : sds -> vc) w k f args :
  rws w k f ->
  (forall acc a w1, a ∈ args -> rws w1 k f -> frame k w w1 ->
     exists w2, rws w2 k f /\ frame k w1 w2 /\
       if sel a then exists s, body acc a w1 = Done (acc.1 + 1, RARGV_ADD_SDS (RARGV_ADD_SDS acc.2 (name a)) s) w2
                       /\ SdsToVC s = Some (ts a) /\ ts_ok (srv w) (ts a)
       else body acc a w1 = Done acc w2) ->
  exists w' pairs rv,
    fold_each args (0, RVCT_PREPARE) body w = Done (Z.of_nat (length pairs), rv) w' /\
    rv_items rv = pair_args pairs /\
    Forall2 (decodes (srv w) mk) pairs ((fun a => (name a, mk (ts a))) <$> filter sel args) /\
    rws w' k f /\ frame k w w'.
Proof.
  intros Hr Hbody.
  destruct (prepare_chunks (E := reh) (fun w => rws w k f)
    (fun ch o => exists p, ch = [p.1; p.2] /\ decodes (srv w) mk p o) body sel
    (fun a => (name a, mk (ts a))) k w args Hr) as (w' & chunks & rv & Hw' & Hrv & HD & Hr' & Hf').
  - intros acc a w1 Ha Hr1 Hf1. destruct (Hbody acc a w1 Ha Hr1 Hf1) as (w2 & Hr2 & Hf2 & Hb).
    exists w2. split_and!; [done..|]. destruct (sel a); [|done]. destruct Hb as (s & Hb & Hs & Hts).
    eexists _, [name a; s]. split; [exact Hb|]. split; [cbn; by rewrite <- app_assoc|].
    exists (name a, s). split; [done|]. split; [done|]. by exists (ts a).
  - destruct (chunks_pairs _ _ _ HD) as (pairs & Hc & Hl & Hdec).
    exists w', pairs, rv. rewrite Hl, <- Hc. by split_and!.
Qed.

(** The operations [rwsadd] and [rwsrem] issue. *)
Definition add_ops (f : sds -> reh) (args : list sds) : list (sds * rwop) :=
  (fun a => (a, RAdd (current (f a)))) <$> filter (fun a => negb (EXISTS (f a))) args.
Definition rem_ops (f : sds -> reh) (args : list sds) : list (sds * rwop) :=
  (fun a => (sdsnew a, RRem (rem_ts (f a)))) <$> filter (fun a => EXISTS (f a)) args.

Lemma rws_el_ok w k f x : rws w k f -> el_ok (srv w) (f x).
Proof. intros (V & Hr & _). by eapply rep_el_ok. Qed.

Lemma rwsadd_loop_spec w k f args :
  rws w k f -> cfg_ok (srv w) ->
  exists w' pairs rv,
    fold_each args (0, RVCT_PREPARE) (rwsadd_loop k) w = Done (Z.of_nat (length pairs), rv) w' /\
    rv_items rv = pair_args pairs /\ Forall2 (decodes (srv w) RAdd) pairs (add_ops f args) /\
    rws w' k f /\ frame k w w'.
Proof.
  intros Hr Hc. apply (prepare_loop _ RAdd (fun a => negb (EXISTS (f a))) id (fun a => current (f a)));
    [done|].
  intros acc a w1 _ Hr1 Hf1. unfold rwsadd_loop.
  destruct (rwseHTGet_rws w1 k f a Hr1) as (w2 & Hw2 & Hr2 & Hf2 & Ha2).
  exists w2. split_and!; [done..|]. step_with Hw2. step_with (deref_some _ _).
  step_with (read_rwse_rws _ _ _ _ Hr2 Ha2).
  destruct (negb (EXISTS (f a))); [|done].
  pose proof (rws_el_ok _ _ _ a Hr) as Hok.
  destruct (VCToSds_SdsToVC _ (el_ok_printable _ _ Hc Hok)) as (s & Hs & Hp).
  exists s. split_and!; [|done|by apply el_ok_ts]. unfold ADD_CR_NON_RMV, bind. by rewrite Hs.
Qed.

Lemma rwsrem_loop_spec w k f args :
  rws w k f -> hasset w k -> cfg_ok (srv w) -> (forall a, a ∈ args -> clock_room (f a)) ->
  exists w' pairs rv,
    fold_each args (0, RVCT_PREPARE) (rwsrem_loop k) w = Done (Z.of_nat (length pairs), rv) w' /\
    rv_items rv = pair_args pairs /\ Forall2 (decodes (srv w) RRem) pairs (rem_ops f args) /\
    rws w' k f /\ frame k w w'.
Proof.
  intros Hr Hset Hc Hroom. apply (prepare_loop _ RRem (fun a => EXISTS (f a)) sdsnew (fun a => rem_ts (f a)));
    [done|].
  intros acc a w1 Ha Hr1 Hf1. unfold rwsrem_loop.
  destruct (rwseHTGet_rws w1 k f a Hr1) as (w2 & Hw2 & Hr2 & Hf2 & Ha2).
  exists w2. split_and!; [done..|]. step_with Hw2.
  destruct Hr2 as (V & Hr2 & Hag).
  assert (hasset w2 k) as Hset2 by (eapply fr_hasset, fr_hasset, Hset; [exact Hf2|exact Hf1]).
  destruct (read_set_rep _ _ _ _ Hr2 Hset2) as (so & Hso & Hsok & HV). step_with Hso.
  rewrite (setTypeIsMember_spec _ _ _ Hsok), <- HV.
  destruct (EXISTS (f a)) eqn:He.
  - rewrite bool_decide_true by (by apply Hag). step_with (deref_some _ _).
    step_with (read_el_rep _ _ _ _ _ Hr2 Ha2).
    destruct (rem_ts_ok _ _ Hc (rws_el_ok _ _ _ a Hr) (Hroom _ Ha)) as (Hts & s & Hs & Hp).
    exists s. split_and!; [|done..]. unfold ADD_CR_RMV, bind. by rewrite Hs.
  - rewrite bool_decide_false; [done|]. intros Hin. apply Hag in Hin. congruence.
Qed.
End Prepare.

(** ** The commands at their origin *)

Lemma rws_srv w w' k f : srv w' = srv w -> rws w k f -> rws w' k f.
Proof.
  intros Hs (V & Hr & Ha). exists V. split; [|done]. eapply rep_config, Hr; rewrite Hs; done.
Qed.

Lemma rws_call w w' k f :
  db (srv w') = db (srv w) -> same_config (srv w) (srv w') -> rws w k f -> rws w' k f.
Proof. intros Hd Hc (V & Hr & Ha). exists V. split; [|done]. by eapply rep_config. Qed.

Section Origin.
Context `{DictOrder}.

(** The container exists as far as the key space is concerned: no other type. *)
Lemma rws_lookup w k f :
  rws w k f -> db (srv w) !! k = None \/ exists so, db (srv w) !! k = Some (OSet so).
Proof.
  intros (V & Hr & _). pose proof (rep_set _ _ _ _ Hr) as Hs. unfold shape_set, shape_obj, set_shape in Hs.
  destruct (db (srv w) !! k) as [[]|]; eauto; done.
Qed.

Lemma args_12 w c0 k xs :
  argv (cli w) = c0 :: k :: xs -> arg 1 w = Done k w /\ args_from 2 w = Done xs w.
Proof.
  intros Ha. split; [apply arg_done; by rewrite Ha|]. unfold args_from, gets. by rewrite Ha.
Qed.

Lemma add_ops_zero f xs : length (add_ops f xs) = 0%nat <-> forall x, x ∈ xs -> EXISTS (f x) = true.
Proof.
  unfold add_ops. rewrite length_fmap. split.
  - intros Hl x Hx. apply length_zero_iff_nil in Hl.
    destruct (EXISTS (f x)) eqn:E; [done|].
    assert (x ∈ filter (fun a => negb (EXISTS (f a))) xs) as Hin
      by (apply list_elem_of_filter; by rewrite E).
    rewrite Hl in Hin. by apply elem_of_nil in Hin.
  - intros Hall. apply length_zero_iff_nil.
    destruct (filter _ xs) as [|y l] eqn:E; [done|].
    assert (y ∈ filter (fun a => negb (EXISTS (f a))) xs) as Hy by (rewrite E; left).
    apply list_elem_of_filter in Hy as [Hn Hy]. by rewrite (Hall _ Hy) in Hn.
Qed.

Lemma rem_ops_zero f xs : length (rem_ops f xs) = 0%nat <-> forall x, x ∈ xs -> EXISTS (f x) = false.
Proof.
  unfold rem_ops. rewrite length_fmap. split.
  - intros Hl x Hx. apply length_zero_iff_nil in Hl.
    destruct (EXISTS (f x)) eqn:E; [|done].
    assert (x ∈ filter (fun a => EXISTS (f a)) xs) as Hin
      by (apply list_elem_of_filter; by rewrite E).
    rewrite Hl in Hin. by apply elem_of_nil in Hin.
  - intros Hall. apply length_zero_iff_nil.
    destruct (filter _ xs) as [|y l] eqn:E; [done|].
    assert (y ∈ filter (fun a => EXISTS (f a)) xs) as Hy by (rewrite E; left).
    apply list_elem_of_filter in Hy as [Hn Hy]. by rewrite (Hall _ Hy) in Hn.
Qed.

(** A command whose prepare phase ends with the pairs of a message: the message
    is recorded for the broadcast and its operations are applied here. *)
Lemma origin_effect prep gen mk w k f args w1 rv pairs ops :
  (forall w2 pre, rws w2 k f -> rargv (cli w2) = Some (pre ++ msg_args pairs) ->
     Forall2 (decodes (srv w2) mk) pairs ops ->
     exists w3, gen k w2 = Done tt w3 /\ rws w3 k (hdr_run f (reverse ops)) /\ frame k w2 w3) ->
  index args 1 = Some k -> REPLICATION_MODE (srv w) = true ->
  prep (request w args) = Done rv w1 -> rv_items rv = msg_args pairs ->
  Forall2 (decodes (srv w) mk) pairs ops -> rws w1 k f -> frame k (request w args) w1 ->
  exists w', CRDT prep (key <- rarg 1 ;; gen key) (request w args) = Return w' /\
    cli w' = mkClient args (Some (args ++ msg_args pairs)) false false [R_ok] /\
    same_config (srv w) (srv w') /\ rws w' k (hdr_run f (reverse ops)).
Proof.
  intros Hgen Hk Hm Hp Hrv Hdec Hr1 Hf1.
  set (w2 := mkWorld (srv w1) (prepared (cli w1) rv)).
  assert (cli w2 = mkClient args (Some (args ++ msg_args pairs)) false false [R_ok]) as Hcli
    by (unfold w2, prepared; cbn; rewrite Hrv, (fr_cli _ _ _ Hf1); done).
  destruct (Hgen w2 args) as (w3 & Hw3 & Hr3 & Hf3).
  - by eapply rws_srv, Hr1.
  - by rewrite Hcli.
  - eapply Forall2_impl; [exact Hdec|]. intros p o (Hx & t & Hpt & Ht & Ho). split; [done|].
    exists t. split_and!; [done| |done]. eapply ts_ok_stable, Ht. apply (fr_config _ _ _ Hf1).
  - exists w3. assert (cli w3 = cli w2) as Hcli3 by apply (fr_cli _ _ _ Hf3).
    split_and!; [|congruence| |done].
    + eapply CRDT_origin; [done|done|exact Hp| | |by rewrite Hcli3, Hcli].
      * by rewrite (fr_cli _ _ _ Hf1).
      * fold w2. assert (rarg 1 w2 = Done k w2) as Hk2.
        { eapply rarg_done; [by rewrite Hcli|]. unfold index in *. cbn in *. by apply lookup_app_l_Some. }
        by step_with Hk2.
    + etransitivity; [apply (fr_config _ _ _ Hf1)|apply (fr_config _ _ _ Hf3)].
Qed.

(** The type check of [rwsadd] passes on a container. *)
Lemma rwsadd_typecheck w k f :
  rws w k f ->
  (match db (srv w) !! k with
   | Some o => if is_set o then ret tt else addReply R_wrongtypeerr ;; creturn
   | None => ret tt
   end) w = Done tt w.
Proof. intros Hr. by destruct (rws_lookup _ _ _ Hr) as [-> |[so ->]]. Qed.

(** A prepare phase that issues [ops]: it replies [r] when there are none, and
    otherwise ends with the pairs of their message. *)
Definition prep_result (prep : cmd rvector) w args k f mk (ops : list (sds * rwop)) (r : reply) : Prop :=
  exists w1 pairs, rws w1 k f /\ frame k (request w args) w1 /\
    Forall2 (decodes (srv w) mk) pairs ops /\
    if decide (length ops = 0)%nat
    then prep (request w args) = Return (set_client (push_reply r) w1)
    else exists rv, prep (request w args) = Done rv w1 /\ rv_items rv = msg_args pairs.

(** The end of every prepare phase. *)
Lemma prepare_tail w args k f mk ops r w1 (pairs : list (sds * sds)) rv :
  rws w1 k f -> frame k (request w args) w1 -> Forall2 (decodes (srv w) mk) pairs ops ->
  rv_items rv = pair_args pairs ->
  prep_result (fun _ =>
    (if Z.of_nat (length pairs) =? 0 then addReply r ;; creturn
     else ret (RARGV_ADD_SDS rv (sdsfromlonglong (Z.of_nat (length pairs))))) w1) w args k f mk ops r.
Proof.
  intros Hr1 Hf1 Hdec Hrv. exists w1, pairs. split_and!; [done..|].
  rewrite <- (Forall2_length _ _ _ Hdec). case_decide as Hz.
  - assert (is_replica (cli w1) = false) as Hrep by (by rewrite (fr_cli _ _ _ Hf1)).
    rewrite Hz. change (Z.of_nat 0 =? 0) with true. cbv iota. by step_with (addReply_done _ _ Hrep).
  - destruct (Z.eqb_spec (Z.of_nat (length pairs)) 0); [lia|].
    eexists. split; [done|]. cbn. by rewrite Hrv.
Qed.

Lemma prep_result_eq prep prep' w args k f mk ops r :
  prep (request w args) = prep' (request w args) ->
  prep_result prep' w args k f mk ops r -> prep_result prep w args k f mk ops r.
Proof. unfold prep_result. by intros ->. Qed.

(** What the prepare phase of [rwsadd] does. *)
Lemma rwsadd_prepare_spec w k f c0 xs :
  rws w k f -> cfg_ok (srv w) ->
  prep_result rwsadd_prepare w (c0 :: k :: xs) k f RAdd (add_ops f xs) R_ele_exist.
Proof.
  intros Hr Hc. set (w0 := request w (c0 :: k :: xs)).
  destruct (args_12 w0 c0 k xs eq_refl) as [H1 H2].
  assert (rws w0 k f) as Hr0 by (by eapply rws_srv, Hr).
  destruct (rwsadd_loop_spec w0 k f xs) as (w1 & pairs & rv & Hw1 & Hrv & Hdec & Hr1 & Hf1); [done..|].
  eapply prep_result_eq, (prepare_tail _ _ _ _ _ _ _ w1 pairs rv); try done. fold w0.
  unfold rwsadd_prepare. step_with H1. step_with (lookupKey_done _ _).
  step_with (rwsadd_typecheck _ _ _ Hr0). step_with H2. by step_with Hw1.
Qed.

(** A command with such a prepare phase and the effect [gen]. *)
Lemma prep_origin prep gen w args k f mk ops r :
  (forall w2 pre pairs, rws w2 k f -> rargv (cli w2) = Some (pre ++ msg_args pairs) ->
     (0 < length pairs)%nat -> Z.of_nat (length pairs) <= INT_MAX ->
     Forall2 (decodes (srv w2) mk) pairs ops ->
     exists w3, gen k w2 = Done tt w3 /\ rws w3 k (hdr_run f (reverse ops)) /\ frame k w2 w3) ->
  prep_result prep w args k f mk ops r -> index args 1 = Some k ->
  REPLICATION_MODE (srv w) = true -> Z.of_nat (length ops) <= INT_MAX ->
  exists w' pairs, CRDT prep (key <- rarg 1 ;; gen key) (request w args) = Return w' /\
    Forall2 (decodes (srv w) mk) pairs ops /\ same_config (srv w) (srv w') /\
    rws w' k (hdr_run f (reverse ops)) /\
    cli w' = if decide (length ops = 0)%nat then mkClient args None false false [r]
             else mkClient args (Some (args ++ msg_args pairs)) false false [R_ok].
Proof.
  intros Hgen (w1 & pairs & Hr1 & Hf1 & Hdec & Hp) Hk Hm Hmax.
  pose proof (Forall2_length _ _ _ Hdec) as Hlen. case_decide as Hz.
  - eexists _, pairs. split; [apply CRDT_origin_return; [done..|exact Hp]|].
    apply length_zero_iff_nil in Hz as ->. cbn. rewrite (fr_cli _ _ _ Hf1).
    split_and!; [done|apply (fr_config _ _ _ Hf1)|by eapply rws_srv, Hr1|done].
  - destruct Hp as (rv & Hp & Hrv).
    destruct (origin_effect prep gen mk w k f args w1 rv pairs ops) as (w' & Hw' & Hcli & Hcfg & Hr');
      try done; [intros; eapply Hgen; (done || lia)|].
    exists w', pairs. by split_and!.
Qed.

Lemma rwsadd_origin w k f c0 xs :
  rws w k f -> cfg_ok (srv w) -> REPLICATION_MODE (srv w) = true ->
  Z.of_nat (length (add_ops f xs)) <= INT_MAX ->
  exists w' pairs, rwsaddCommand (request w (c0 :: k :: xs)) = Return w' /\
    Forall2 (decodes (srv w) RAdd) pairs (add_ops f xs) /\ same_config (srv w) (srv w') /\
    rws w' k (hdr_run f (reverse (add_ops f xs))) /\
    cli w' = if decide (length (add_ops f xs) = 0)%nat
             then mkClient (c0 :: k :: xs) None false false [R_ele_exist]
             else mkClient (c0 :: k :: xs) (Some ((c0 :: k :: xs) ++ msg_args pairs)) false false [R_ok].
Proof.
  intros Hr Hc Hm Hmax. eapply prep_origin; try done; [|by apply rwsadd_prepare_spec].
  intros. by eapply saddGeneric_rws.
Qed.

Lemma rws_hasset w k f : rws w k f -> hasset w k -> exists so, db (srv w) !! k = Some (OSet so).
Proof. intros (V & Hr & _) Hs. by eapply hasset_set. Qed.

(** [rwsrem]. *)
Lemma rwsrem_prepare_spec w k f c0 xs :
  rws w k f -> hasset w k -> cfg_ok (srv w) -> (forall x, x ∈ xs -> clock_room (f x)) ->
  prep_result rwsrem_prepare w (c0 :: k :: xs) k f RRem (rem_ops f xs) R_ele_nexist.
Proof.
  intros Hr Hs Hc Hroom. set (w0 := request w (c0 :: k :: xs)).
  destruct (args_12 w0 c0 k xs eq_refl) as [H1 H2].
  assert (rws w0 k f) as Hr0 by (by eapply rws_srv, Hr).
  destruct (rwsrem_loop_spec w0 k f xs) as (w1 & pairs & rv & Hw1 & Hrv & Hdec & Hr1 & Hf1); [done..|].
  eapply prep_result_eq, (prepare_tail _ _ _ _ _ _ _ w1 pairs rv); try done. fold w0.
  destruct (rws_hasset w k f Hr Hs) as [so Hso].
  unfold rwsrem_prepare. step_with H1.
  assert (lookupKeyWriteOrReply k R_czero w0 = Done (Some (OSet so)) w0) as Hlk
    by (unfold lookupKeyWriteOrReply; step_with (lookupKey_done _ _); cbn; by rewrite Hso).
  step_with Hlk. rewrite (bind_done _ _ _ tt w0) by done. step_with H2. by step_with Hw1.
Qed.

Lemma rwsrem_origin w k f c0 xs :
  rws w k f -> hasset w k -> cfg_ok (srv w) -> REPLICATION_MODE (srv w) = true ->
  (forall x, x ∈ xs -> clock_room (f x)) -> Z.of_nat (length (rem_ops f xs)) <= INT_MAX ->
  exists w' pairs, rwsremCommand (request w (c0 :: k :: xs)) = Return w' /\
    Forall2 (decodes (srv w) RRem) pairs (rem_ops f xs) /\ same_config (srv w) (srv w') /\
    rws w' k (hdr_run f (reverse (rem_ops f xs))) /\
    cli w' = if decide (length (rem_ops f xs) = 0)%nat
             then mkClient (c0 :: k :: xs) None false false [R_ele_nexist]
             else mkClient (c0 :: k :: xs) (Some ((c0 :: k :: xs) ++ msg_args pairs)) false false [R_ok].
Proof.
  intros Hr Hs Hc Hm Hroom Hmax. eapply prep_origin; try done; [|by apply rwsrem_prepare_spec].
  intros. by eapply sremGeneric_rws.
Qed.
End Origin.

(** ** Per element *)

Definition ops_of (x : sds) (ops : list (sds * rwop)) : list rwop :=
  (filter (fun p => p.1 = x) ops).*2.

Lemma hdr_run_proj f ops x : hdr_run f ops x = rw_run (f x) (ops_of x ops).
Proof.
  revert f. induction ops as [|[y o] ops IH]; intros f; [done|].
  unfold hdr_run, ops_of, rw_run in *. cbn [foldl]. rewrite IH. unfold hdr_step. cbn [fst snd].
  destruct (decide (y = x)) as [->|Hne].
  - rewrite filter_cons_True by done. cbn. by rewrite fn_lookup_insert.
  - rewrite filter_cons_False by done. by rewrite fn_lookup_insert_ne.
Qed.

Lemma ops_of_in x ops o : o ∈ ops_of x ops <-> (x, o) ∈ ops.
Proof.
  unfold ops_of. rewrite list_elem_of_fmap. setoid_rewrite list_elem_of_filter. split.
  - intros ([y o'] & -> & Hy & Hin). cbn in Hy. by subst.
  - intros Hin. by exists (x, o).
Qed.

(** The visible members. *)
Definition visible (w : world) (k : sds) : gset sds :=
  match db (srv w) !! k with Some (OSet so) => set_members so | _ => ∅ end.

Lemma rws_visible w k f x : rws w k f -> x ∈ visible w k <-> EXISTS (f x) = true.
Proof.
  intros (V & Hr & Ha). rewrite <- (Ha x). pose proof (rep_set _ _ _ _ Hr) as Hs.
  unfold shape_set, shape_obj, set_shape in Hs. unfold visible. destruct (db (srv w) !! k) as [[|so| | | |]|]; try done.
  - by destruct Hs as [_ ->].
  - by rewrite Hs.
Qed.

(** Repeating the adds of one replica at its own clock makes the element exist. *)
Lemma add_again h t ops :
  pid h < 0 -> 0 <= vc_id t -> vector t = vector (current h) ->
  (forall o, o ∈ ops -> o = RAdd t) -> ops <> [] -> EXISTS (rw_run h ops) = true.
Proof.
  intros Hp Hid Hv Hall Hne.
  enough (forall h, vector t = vector (current h) -> (0 <= pid h -> pid h = vc_id t) -> ops <> [] ->
    pid (rw_run h ops) = vc_id t) as He.
  { unfold EXISTS. rewrite He; [lia|done|lia|done]. }
  clear h Hp Hv Hne. induction ops as [|o ops IH]; intros h Hv Hpid Hne; [done|].
  rewrite (Hall o) by left. unfold rw_run. cbn [foldl rw_effect]. fold (rw_run (add_effect h t) ops).
  assert (rem_effect h t = h) as Hrem.
  { unfold rem_effect. rewrite removeCheck_spec by (unfold vc_size; congruence).
    by rewrite bool_decide_true by (rewrite Hv; apply vle_refl). }
  assert (vector (current (add_effect h t)) = vector t /\ pid (add_effect h t) = vc_id t) as [Hv' Hp'].
  { unfold add_effect, insertCheck. rewrite Hrem. rewrite (proj2 (equalVC_spec t (current h)) Hv). cbn [negb].
    destruct (Z.ltb_spec (pid h) (vc_id t)); [done|]. split; [done|]. lia. }
  destruct ops as [|o' ops]; [exact Hp'|]. apply IH; [set_solver|done..].
Qed.

(** Repeating a removal with the next timestamp hides the element. *)
Lemma rem_hides h t ops :
  vc_size (current h) = vc_size t -> ~ vle (vector t) (vector (current h)) ->
  (forall o, o ∈ ops -> o = RRem t) -> ops <> [] -> EXISTS (rw_run h ops) = false.
Proof.
  intros Hs Hn Hall Hne. destruct ops as [|o ops]; [done|].
  rewrite (Hall o) by left. unfold rw_run. cbn [foldl rw_effect].
  assert (vector (current (rem_effect h t)) = update_loop (vector (current h)) (vector t)) as Hv
    by (by apply rem_effect_vector).
  assert (pid (rem_effect h t) = -1) as Hp by (by rewrite rem_effect_pid, decide_False).
  assert (forall ops h', (forall o, o ∈ ops -> o = RRem t) -> pid h' = -1 ->
    vc_size (current h') = vc_size t -> EXISTS (foldl rw_effect h' ops) = false) as Hgo.
  { clear. induction ops as [|o ops IH]; intros h' Hall Hp Hs; cbn [foldl].
    - unfold EXISTS. by rewrite Hp.
    - rewrite (Hall o) by left. cbn [rw_effect]. apply IH; [set_solver| |by rewrite rem_effect_size].
      rewrite rem_effect_pid by done. by case_decide. }
  apply Hgo; [set_solver|done|by rewrite rem_effect_size].
Qed.

(** ** What a client observes *)

Section Client.
Context `{DictOrder}.

Lemma in_add_ops f xs x o :
  (x, o) ∈ add_ops f xs <-> x ∈ xs /\ EXISTS (f x) = false /\ o = RAdd (current (f x)).
Proof.
  unfold add_ops. rewrite list_elem_of_fmap. setoid_rewrite list_elem_of_filter.
  split.
  - intros (a & [= -> ->] & He & Hin). by destruct (EXISTS (f a)).
  - intros (Hin & He & ->). exists x. by rewrite He.
Qed.

Lemma in_rem_ops f xs x o :
  (x, o) ∈ rem_ops f xs <->
  exists a, x = sdsnew a /\ a ∈ xs /\ EXISTS (f a) = true /\ o = RRem (rem_ts (f a)).
Proof.
  unfold rem_ops. rewrite list_elem_of_fmap. setoid_rewrite list_elem_of_filter. split.
  - intros (a & [= -> ->] & He & Hin). exists a. by destruct (EXISTS (f a)).
  - intros (a & -> & Hin & He & ->). exists a. by rewrite He.
Qed.

(** After adding, exactly the given elements have become visible. *)
Lemma add_ops_exists s f xs x :
  cfg_ok s -> (forall y, el_ok s (f y)) ->
  EXISTS (hdr_run f (reverse (add_ops f xs)) x) = true <-> x ∈ xs \/ EXISTS (f x) = true.
Proof.
  intros Hc Hok. rewrite hdr_run_proj.
  destruct (decide (x ∈ xs /\ EXISTS (f x) = false)) as [[Hin He]|Hno].
  - rewrite (add_again _ (current (f x))); [tauto|unfold EXISTS in He; lia| |done| |].
    + destruct (el_ok_ts _ _ Hc (Hok x)) as (_ & _ & Hid). done.
    + intros o Ho. apply ops_of_in, elem_of_reverse, in_add_ops in Ho. tauto.
    + intros Hnil. assert (RAdd (current (f x)) ∈ ops_of x (reverse (add_ops f xs))) as Hin'
        by (apply ops_of_in, elem_of_reverse, in_add_ops; done).
      rewrite Hnil in Hin'. by apply elem_of_nil in Hin'.
  - assert (ops_of x (reverse (add_ops f xs)) = []) as ->.
    { destruct (ops_of x _) as [|o l] eqn:E; [done|].
      assert (o ∈ ops_of x (reverse (add_ops f xs))) as Ho by (rewrite E; left).
      apply ops_of_in, elem_of_reverse, in_add_ops in Ho. tauto. }
    cbn. destruct (EXISTS (f x)) eqn:E; [tauto|]. split; [done|]. intros [?|?]; [tauto|done].
Qed.

Lemma rem_ops_exists s f xs x :
  cfg_ok s -> (forall y, el_ok s (f y)) -> (forall a, a ∈ xs -> nul_free a) ->
  EXISTS (hdr_run f (reverse (rem_ops f xs)) x) = true <-> (x ∉ xs) /\ EXISTS (f x) = true.
Proof.
  intros Hc Hok Hnul. rewrite hdr_run_proj.
  assert (forall o, o ∈ ops_of x (reverse (rem_ops f xs)) <->
    x ∈ xs /\ EXISTS (f x) = true /\ o = RRem (rem_ts (f x))) as Hops.
  { intros o. rewrite ops_of_in, elem_of_reverse, in_rem_ops. split.
    - intros (a & -> & Ha & He & ->). rewrite (sdsnew_nul_free a) by auto. done.
    - intros (Hin & He & ->). exists x. by rewrite (sdsnew_nul_free x) by auto. }
  destruct (decide (x ∈ xs /\ EXISTS (f x) = true)) as [[Hin He]|Hno].
  - rewrite (rem_hides _ (rem_ts (f x))); [split; [done|tauto]| | | |].
    + unfold rem_ts, vc_size. cbn. by rewrite bump_length.
    + destruct (Hok x) as (Hs & Hid & _), Hc as [Hc Hi]. apply bump_not_le.
      unfold vc_size in Hs. lia.
    + intros o Ho. apply Hops in Ho. tauto.
    + intros Hnil. assert (RRem (rem_ts (f x)) ∈ ops_of x (reverse (rem_ops f xs))) as Hin'
        by (by apply Hops).
      rewrite Hnil in Hin'. by apply elem_of_nil in Hin'.
  - assert (ops_of x (reverse (rem_ops f xs)) = []) as ->.
    { destruct (ops_of x _) as [|o l] eqn:E; [done|].
      assert (o ∈ o :: l) as Ho by left. apply Hops in Ho. tauto. }
    cbn. tauto.
Qed.

Lemma rws_vis_sub w k f xs :
  rws w k f -> list_to_set xs ⊆ visible w k <-> (forall x, x ∈ xs -> EXISTS (f x) = true).
Proof.
  intros Hr. split.
  - intros Hs x Hx. apply (rws_visible _ _ _ _ Hr). set_solver.
  - intros Hall x Hx. apply (rws_visible _ _ _ _ Hr). set_solver.
Qed.

Lemma rws_vis_disj w k f xs :
  rws w k f -> list_to_set xs ## visible w k <-> (forall x, x ∈ xs -> EXISTS (f x) = false).
Proof.
  intros Hr. split.
  - intros Hs x Hx. destruct (EXISTS (f x)) eqn:E; [|done].
    apply (rws_visible _ _ _ _ Hr) in E. set_solver.
  - intros Hall x Hx1 Hx2. apply (rws_visible _ _ _ _ Hr) in Hx2.
    rewrite Hall in Hx2; [done|set_solver].
Qed.

(** The broadcast of an origin's message keeps the container. *)
Lemma call_rws proc w k f w1 args c :
  proc (request w args) = Return w1 -> cli w1 = c -> is_replica c = false -> rws w1 k f ->
  exists w2, call 0 proc (request w args) = Done tt w2 /\ cli w2 = c /\ rws w2 k f.
Proof.
  intros Hp <- Hrep Hr. destruct (rargv (cli w1)) as [m|] eqn:Hm.
  - destruct (call_origin 0 proc (request w args) w1 m) as (w2 & Hw2 & Hcli & Hdb & H1 & H2 & H3 & _);
      [done..|]. exists w2. split_and!; [done..|]. by eapply rws_call.
  - exists w1. split; [by apply call_no_broadcast|done].
Qed.

(** A command that adds [xs]: the set shown afterwards, and the reply. *)
Lemma add_client prep w args k f xs :
  prep_result prep w args k f RAdd (add_ops f xs) R_ele_exist -> index args 1 = Some k ->
  rws w k f -> cfg_ok (srv w) -> REPLICATION_MODE (srv w) = true -> Z.of_nat (length xs) <= INT_MAX ->
  exists w' f', call 0 (CRDT prep (key <- rarg 1 ;; saddGenericCommand key)) (request w args) = Done tt w' /\
    rws w' k f' /\ visible w' k = list_to_set xs ∪ visible w k /\
    replies (cli w') = [if decide (list_to_set xs ⊆ visible w k) then R_ele_exist else R_ok].
Proof.
  intros Hp Hk Hr Hc Hm Hmax. pose proof (rws_vis_sub w k f xs Hr) as Hsub.
  assert (length (add_ops f xs) <= length xs)%nat
    by (unfold add_ops; rewrite length_fmap; apply length_filter).
  destruct (prep_origin prep saddGenericCommand w args k f RAdd (add_ops f xs) R_ele_exist)
    as (w1 & pairs & Hw1 & _ & _ & Hr1 & Hcli); [intros; by eapply saddGeneric_rws|done..|lia|].
  assert (is_replica (cli w1) = false) as Hrep by (rewrite Hcli; by case_decide).
  destruct (call_rws _ w k _ w1 args _ Hw1 eq_refl Hrep Hr1) as (w' & Hw' & Hcli' & Hr').
  eexists w', _. split_and!; [exact Hw'|exact Hr'| |].
  - apply set_eq. intros x.
    rewrite elem_of_union, (rws_visible _ _ _ x Hr), (rws_visible _ _ _ x Hr'), elem_of_list_to_set.
    apply (add_ops_exists (srv w)); [done|]. intros y. by eapply rws_el_ok.
  - rewrite Hcli', Hcli. destruct (decide (length _ = 0)%nat) as [Hz|Hz];
      rewrite add_ops_zero, <- Hsub in Hz; by case_decide.
Qed.

Lemma rem_client prep w args k f xs :
  prep_result prep w args k f RRem (rem_ops f xs) R_ele_nexist -> index args 1 = Some k ->
  rws w k f -> cfg_ok (srv w) -> REPLICATION_MODE (srv w) = true -> Z.of_nat (length xs) <= INT_MAX ->
  (forall x, x ∈ xs -> nul_free x) ->
  exists w' f', call 0 (CRDT prep (key <- rarg 1 ;; sremGenericCommand key)) (request w args) = Done tt w' /\
    rws w' k f' /\ visible w' k = visible w k ∖ list_to_set xs /\
    replies (cli w') = [if decide (list_to_set xs ## visible w k) then R_ele_nexist else R_ok].
Proof.
  intros Hp Hk Hr Hc Hm Hmax Hnul. pose proof (rws_vis_disj w k f xs Hr) as Hdis.
  assert (length (rem_ops f xs) <= length xs)%nat
    by (unfold rem_ops; rewrite length_fmap; apply length_filter).
  destruct (prep_origin prep sremGenericCommand w args k f RRem (rem_ops f xs) R_ele_nexist)
    as (w1 & pairs & Hw1 & _ & _ & Hr1 & Hcli); [intros; by eapply sremGeneric_rws|done..|lia|].
  assert (is_replica (cli w1) = false) as Hrep by (rewrite Hcli; by case_decide).
  destruct (call_rws _ w k _ w1 args _ Hw1 eq_refl Hrep Hr1) as (w' & Hw' & Hcli' & Hr').
  eexists w', _. split_and!; [exact Hw'|exact Hr'| |].
  - apply set_eq. intros x.
    rewrite elem_of_difference, (rws_visible _ _ _ x Hr), (rws_visible _ _ _ x Hr'), elem_of_list_to_set.
    rewrite (rem_ops_exists (srv w)); [tauto|done| |done]. intros y. by eapply rws_el_ok.
  - rewrite Hcli', Hcli. destruct (decide (length _ = 0)%nat) as [Hz|Hz];
      rewrite rem_ops_zero, <- Hdis in Hz; by case_decide.
Qed.
End Client.

(** ** Delivery at the other replicas *)

(** A broadcast message and the operations it carries. *)
Record rmsg := mkRmsg { rm_add : bool; rm_args : list sds; rm_ops : list (sds * rwop) }.

Definition rm_wf (s : server) (k : sds) (m : rmsg) : Prop :=
  exists pre pairs, rm_args m = pre ++ msg_args pairs /\ index pre 1 = Some k /\
    (0 < length pairs)%nat /\ Z.of_nat (length pairs) <= INT_MAX /\
    Forall2 (decodes s (if rm_add m then RAdd else RRem)) pairs (rm_ops m).

Section Delivery.
Context `{DictOrder}.

Definition deliver (w : world) (m : rmsg) : outcome world unit :=
  call 0 (if rm_add m then rwsaddCommand else rwsremCommand) (delivery w (rm_args m)).

Fixpoint deliver_all (w : world) (ms : list rmsg) : option world :=
  match ms with
  | [] => Some w
  | m :: ms => match deliver w m with Done _ w' => deliver_all w' ms | _ => None end
  end.

Lemma frame_mode k w w' :
  frame k w w' -> REPLICATION_MODE (srv w') = REPLICATION_MODE (srv w).
Proof.
  intros Hf. unfold REPLICATION_MODE. by rewrite (fr_replicas _ _ _ Hf), (sc_count _ _ (fr_config _ _ _ Hf)).
Qed.

(** Delivering a message applies its operations, last pair first. *)
Lemma deliver_rws w k f m :
  rws w k f -> REPLICATION_MODE (srv w) = true -> rm_wf (srv w) k m ->
  exists w', deliver w m = Done tt w' /\ rws w' k (hdr_run f (reverse (rm_ops m))) /\
    same_config (srv w) (srv w') /\ REPLICATION_MODE (srv w') = true.
Proof.
  intros Hr Hm (pre & pairs & Hargs & Hk & Hpos & Hmax & Hdec).
  set (w0 := mkWorld (srv w) (mkClient (rm_args m) (Some (rm_args m)) true false [])).
  assert (exists w1, (if rm_add m then saddGenericCommand k else sremGenericCommand k) w0 = Done tt w1 /\
    rws w1 k (hdr_run f (reverse (rm_ops m))) /\ frame k w0 w1) as (w1 & Hw1 & Hr1 & Hf1).
  { assert (rws w0 k f) as Hr0 by (by eapply rws_srv, Hr).
    assert (rargv (cli w0) = Some (pre ++ msg_args pairs)) as Hl by (cbn; by rewrite Hargs).
    destruct (rm_add m); [by eapply saddGeneric_rws|by eapply sremGeneric_rws]. }
  assert (rarg 1 w0 = Done k w0) as Hk0.
  { eapply rarg_done; [done|]. rewrite Hargs. unfold index in *. cbn in *. by apply lookup_app_l_Some. }
  assert (cli w1 = cli w0) as Hcli by apply (fr_cli _ _ _ Hf1).
  assert ((if rm_add m then rwsaddCommand else rwsremCommand) w0 = Return w1) as Hcmd.
  { destruct (rm_add m); (apply CRDT_delivery; [done|done| |by rewrite Hcli]); by step_with Hk0. }
  exists (set_client (set_rargv None) w1). split_and!.
  - apply call_delivery; [done|exact Hcmd|by rewrite Hcli].
  - by eapply rws_srv, Hr1.
  - apply (fr_config _ _ _ Hf1).
  - cbn. rewrite (frame_mode _ _ _ Hf1). done.
Qed.

Definition all_ops (ms : list rmsg) : list (sds * rwop) := ms ≫= fun m => reverse (rm_ops m).

Lemma rm_wf_stable s s' k m : p2p_count s' = p2p_count s -> rm_wf s k m -> rm_wf s' k m.
Proof.
  intros Hc (pre & pairs & Ha & Hk & Hp & Hm & Hd). exists pre, pairs. split_and!; [done..|].
  eapply Forall2_impl; [exact Hd|]. intros p o (Hx & t & Ht & Hok & Ho). split; [done|].
  exists t. split_and!; [done| |done]. unfold ts_ok in *. by rewrite Hc.
Qed.

Lemma deliver_all_rws w k f ms :
  rws w k f -> REPLICATION_MODE (srv w) = true -> Forall (rm_wf (srv w) k) ms ->
  exists w', deliver_all w ms = Some w' /\ rws w' k (hdr_run f (all_ops ms)).
Proof.
  revert w f. induction ms as [|m ms IH]; intros w f Hr Hm Hwf; cbn [deliver_all].
  - by exists w.
  - apply Forall_cons_1 in Hwf as [Hwf Hwfs].
    destruct (deliver_rws w k f m Hr Hm Hwf) as (w1 & -> & Hr1 & Hc1 & Hm1).
    destruct (IH w1 _ Hr1 Hm1) as (w' & Hw' & Hr').
    { eapply Forall_impl; [exact Hwfs|]. intros m'. apply rm_wf_stable, Hc1. }
    exists w'. split; [done|]. unfold all_ops. cbn. unfold hdr_run in *. by rewrite foldl_app.
Qed.

(** A container nobody has touched. *)
Definition untouched (w : world) (k : sds) : Prop :=
  db (srv w) !! k = None /\ db (srv w) !! htname k = None /\
  max_ok (set_max_intset_entries (srv w)).

Lemma untouched_rws w k : untouched w k -> rws w k (fun _ => REH_INIT (srv w)).
Proof.
  intros (H1 & H2 & H3). exists ∅. split; [split|].
  - unfold shape_set, shape_obj, set_shape. by rewrite H1.
  - unfold shape_hash. by rewrite H2.
  - done.
  - intros x. set_solver.
Qed.

Lemma all_ops_size s k ms x :
  Forall (rm_wf s k) ms -> ops_size (Z.to_nat (p2p_count s)) (ops_of x (all_ops ms)).
Proof.
  intros Hwf. apply Forall_forall. intros o Ho. apply ops_of_in in Ho.
  unfold all_ops in Ho. apply list_elem_of_bind in Ho as (m & Hin & Hm).
  rewrite Forall_forall in Hwf. destruct (Hwf m Hm) as (pre & pairs & _ & _ & _ & _ & Hdec).
  rewrite elem_of_reverse in Hin. apply list_elem_of_lookup in Hin as [i Hi].
  destruct (Forall2_lookup_r _ _ _ _ _ Hdec Hi) as (p & _ & _ & t & _ & (Hs & _) & Ho).
  cbn in Ho. subst o. by destruct (rm_add m).
Qed.

Lemma all_ops_same ms1 ms2 x :
  (forall m, m ∈ ms1 <-> m ∈ ms2) ->
  forall o, o ∈ ops_of x (all_ops ms1) <-> o ∈ ops_of x (all_ops ms2).
Proof.
  intros Heq o. rewrite !ops_of_in. unfold all_ops. rewrite !list_elem_of_bind.
  setoid_rewrite Heq. done.
Qed.

Lemma REH_INIT_fresh s : fresh (Z.to_nat (p2p_count s)) (REH_INIT s).
Proof. unfold fresh, REH_INIT, l_newVC, newVC, vc_size. cbn. by rewrite length_replicate. Qed.

(** Replicas that ran the operations of the same messages show the same set. *)
Lemma rws_same_messages s1 s2 w1 w2 k ms1 ms2 :
  p2p_count s2 = p2p_count s1 -> Forall (rm_wf s1 k) ms1 -> (forall m, m ∈ ms1 <-> m ∈ ms2) ->
  rws w1 k (hdr_run (fun _ => REH_INIT s1) (all_ops ms1)) -> rws w2 k (hdr_run (fun _ => REH_INIT s2) (all_ops ms2)) ->
  visible w1 k = visible w2 k.
Proof.
  intros Hc Hwf1 Heq Hr1 Hr2. assert (Forall (rm_wf s2 k) ms2) as Hwf2.
  { apply Forall_forall. intros m Hin. apply Heq in Hin. rewrite Forall_forall in Hwf1. eapply rm_wf_stable; [exact Hc|by apply Hwf1]. }
  apply set_eq. intros x. rewrite (rws_visible _ _ _ x Hr1), (rws_visible _ _ _ x Hr2), !hdr_run_proj. unfold EXISTS.
  destruct (rw_run_converges (Z.to_nat (p2p_count s1)) (REH_INIT s1) (REH_INIT s2)
    (ops_of x (all_ops ms1)) (ops_of x (all_ops ms2))) as [-> _]; [| | | | | |done].
  - apply REH_INIT_fresh.
  - rewrite <- Hc. apply REH_INIT_fresh.
  - unfold REH_INIT, l_newVC, newVC. cbn. by rewrite Hc.
  - by eapply all_ops_size.
  - rewrite <- Hc. by eapply all_ops_size.
  - by apply all_ops_same.
Qed.

(** Replicas that received the same messages, in any order and any number of
    times, show the same set. *)
Lemma rwset_converges w1 w2 k ms1 ms2 :
  untouched w1 k -> untouched w2 k -> p2p_count (srv w2) = p2p_count (srv w1) ->
  REPLICATION_MODE (srv w1) = true -> REPLICATION_MODE (srv w2) = true ->
  Forall (rm_wf (srv w1) k) ms1 -> (forall m, m ∈ ms1 <-> m ∈ ms2) ->
  exists w1' w2', deliver_all w1 ms1 = Some w1' /\ deliver_all w2 ms2 = Some w2' /\
    visible w1' k = visible w2' k.
Proof.
  intros Hu1 Hu2 Hc Hm1 Hm2 Hwf1 Heq.
  assert (Forall (rm_wf (srv w2) k) ms2) as Hwf2.
  { apply Forall_forall. intros m Hin. apply Heq in Hin. rewrite Forall_forall in Hwf1.
    eapply rm_wf_stable; [|by apply Hwf1]. done. }
  destruct (deliver_all_rws w1 k _ ms1 (untouched_rws _ _ Hu1) Hm1 Hwf1) as (w1' & H1 & Hr1).
  destruct (deliver_all_rws w2 k _ ms2 (untouched_rws _ _ Hu2) Hm2 Hwf2) as (w2' & H2 & Hr2).
  exists w1', w2'. split_and!; [done..|]. by eapply rws_same_messages.
Qed.
End Delivery.

(** ** Reading the headers off a state *)

Abbreviation rwht := (htname (E := reh)).

Definition hdrs_of (w : world) (k : sds) : sds -> reh := fun x =>
  match db (srv w) !! rwht k with
  | Some (OHash h) => match h !! x with Some (HRwse r) => r | _ => REH_INIT (srv w) end
  | _ => REH_INIT (srv w)
  end.

Definition hdr_check (w : world) (k x : sds) (v : helem) : bool :=
  match v with
  | HRwse r =>
      bool_decide (vc_size (current r) = Z.to_nat (p2p_count (srv w)) /\ vc_id (current r) = p2p_id (srv w) /\
                   Forall in_int (vector (current r))) &&
      Bool.eqb (EXISTS r) (bool_decide (x ∈ visible w k))
  | _ => false
  end.

(** Whether a state holds a remove-win set, encoded as a hash table, under [k]. *)
Definition rws_check (w : world) (k : sds) : bool :=
  (0 <=? set_max_intset_entries (srv w)) && (set_max_intset_entries (srv w) <? 2147483646) &&
  match db (srv w) !! k, db (srv w) !! rwht k with
  | Some (OSet (SHT d)), Some (OHash h) =>
      forallb (fun p => hdr_check w k p.1 p.2) (map_to_list h) && bool_decide (d ⊆ dom h)
  | _, _ => false
  end.

Lemma rws_check_sound w k : rws_check w k = true -> rws w k (hdrs_of w k) /\ hasset w k.
Proof.
  unfold rws_check. rewrite !andb_true_iff, Z.leb_le, Z.ltb_lt. intros [[H1 H2] H3].
  destruct (db (srv w) !! k) as [[|[|d]| | | |]|] eqn:Hk; try done.
  destruct (db (srv w) !! rwht k) as [[| |h| | |]|] eqn:Hh; try done.
  apply andb_true_iff in H3 as [H3 H4]. apply bool_decide_eq_true in H4. rewrite forallb_forall in H3.
  assert (visible w k = d) as Hv by (unfold visible; by rewrite Hk).
  assert (forall x v, h !! x = Some v -> exists r, v = HRwse r /\ el_ok (srv w) r /\
    (EXISTS r = true <-> x ∈ d)) as Hx.
  { intros x v Hx. specialize (H3 (x, v)). cbn in H3. rewrite <- list_elem_of_In, elem_of_map_to_list in H3.
    specialize (H3 Hx). unfold hdr_check in H3. destruct v as [r| | | | |]; try done. exists r. rewrite Hv in H3.
    apply andb_true_iff in H3 as [H5 H6]. apply bool_decide_eq_true in H5. apply eqb_prop in H6.
    split_and!; [done|apply H5..|]. rewrite H6. apply bool_decide_eq_true. }
  split; [|by exists (OSet (SHT d))]. exists d. unfold hdrs_of. rewrite Hh. split; [split|].
  - unfold shape_set, shape_obj, set_shape. by rewrite Hk.
  - unfold shape_hash. rewrite Hh. intros x. destruct (h !! x) as [v|] eqn:Hl; [|done].
    destruct (Hx x v Hl) as (r & -> & Hok & _). done.
  - split; lia.
  - intros x. destruct (h !! x) as [v|] eqn:Hl.
    + destruct (Hx x v Hl) as (r & -> & _ & He). symmetry. exact He.
    + split; [|done]. intros Hd. apply H4, elem_of_dom in Hd as [v Hd]. congruence.
Qed.

(** ** Histories *)

Section Histories.
Context `{DictOrder}.

(** What is shown after a history: an element is visible exactly when some add
    has seen every operation on it. *)
Lemma rwset_visible_iff w k ms :
  untouched w k -> REPLICATION_MODE (srv w) = true -> Forall (rm_wf (srv w) k) ms ->
  exists w', deliver_all w ms = Some w' /\
    forall x, x ∈ visible w' k <->
      exists t, (x, RAdd t) ∈ all_ops ms /\ 0 <= vc_id t /\
        vle (replicate (Z.to_nat (p2p_count (srv w))) 0) (vector t) /\
        forall o, (x, o) ∈ all_ops ms -> vle (vector (op_ts o)) (vector t).
Proof.
  intros Hu Hm Hwf. destruct (deliver_all_rws w k _ ms (untouched_rws _ _ Hu) Hm Hwf) as (w' & Hw' & Hr).
  exists w'. split; [done|]. intros x. rewrite (rws_visible _ _ _ x Hr), hdr_run_proj.
  rewrite (rw_run_exists (Z.to_nat (p2p_count (srv w)))); [|apply REH_INIT_fresh|by eapply all_ops_size].
  by setoid_rewrite ops_of_in.
Qed.

Lemma rwset_remove_wins w k ms x r :
  untouched w k -> REPLICATION_MODE (srv w) = true -> Forall (rm_wf (srv w) k) ms ->
  (x, RRem r) ∈ all_ops ms -> (forall t, (x, RAdd t) ∈ all_ops ms -> ~ vle (vector r) (vector t)) ->
  exists w', deliver_all w ms = Some w' /\ x ∉ visible w' k.
Proof.
  intros Hu Hm Hwf Hr Hno. destruct (rwset_visible_iff w k ms Hu Hm Hwf) as (w' & Hw' & Hv).
  exists w'. split; [done|]. rewrite Hv. intros (t & Ht & _ & _ & Hall). exact (Hno t Ht (Hall _ Hr)).
Qed.

(** The commands as a client sees them. *)
Lemma rwsadd_client w k f c0 xs :
  rws w k f -> cfg_ok (srv w) -> REPLICATION_MODE (srv w) = true -> Z.of_nat (length xs) <= INT_MAX ->
  exists w' f', call 0 rwsaddCommand (request w (c0 :: k :: xs)) = Done tt w' /\ rws w' k f' /\
    visible w' k = list_to_set xs ∪ visible w k /\
    replies (cli w') = [if decide (list_to_set xs ⊆ visible w k) then R_ele_exist else R_ok].
Proof. intros. by apply add_client with f; [apply rwsadd_prepare_spec|..]. Qed.

Lemma rwsrem_client w k f c0 xs :
  rws w k f -> hasset w k -> cfg_ok (srv w) -> REPLICATION_MODE (srv w) = true ->
  Z.of_nat (length xs) <= INT_MAX -> (forall x, x ∈ xs -> nul_free x /\ clock_room (f x)) ->
  exists w' f', call 0 rwsremCommand (request w (c0 :: k :: xs)) = Done tt w' /\ rws w' k f' /\
    visible w' k = visible w k ∖ list_to_set xs /\
    replies (cli w') = [if decide (list_to_set xs ## visible w k) then R_ele_nexist else R_ok].
Proof.
  intros Hr Hs Hc Hm Hl Hx. apply rem_client with f; [|done..|by intros x Hin; apply Hx].
  apply rwsrem_prepare_spec; [done..|]. intros x Hin. by apply Hx.
Qed.
End Histories.
