(* ===== verification/Stamps.v ===== *)
(** * Timestamps in messages

    The clocks a replica keeps and the timestamps it sends: their size, their
    ids, and that what is printed into a message is read back. *)
From Stdlib Require Import ZArith Lia Ascii String.
From stdpp Require Import functions base numbers strings gmap sets list.
From S2P Require Import Prelude Sds VectorClock Server RWFramework Container RWSet.
Open Scope Z_scope.

(** A clock of this replica. *)
Definition clock_ok (s : server) (c : vc) : Prop :=
  vc_size c = Z.to_nat (p2p_count s) /\ vc_id c = p2p_id s /\ Forall in_int (vector c).

(** A timestamp of a replica of the system, as it is and as it is printed. *)
Definition event_ok (s : server) (t : vc) : Prop := ts_ok s t /\ vc_id t < p2p_count s.

Lemma event_ok_stable s s' t : same_config s s' -> event_ok s t -> event_ok s' t.
Proof. intros Hc [H1 H2]. split; [by eapply ts_ok_stable|]. by rewrite (sc_count _ _ Hc). Qed.

Definition stamp_ok (s : server) (t : vc) : Prop := vc_printable t /\ event_ok s t.

Lemma vcs_parse s t : stamp_ok s t -> SdsToVC (vcs t) = Some t.
Proof. intros [Hp _]. by apply vcs_read. Qed.

Lemma stamp_ok_stable s s' t : same_config s s' -> stamp_ok s t -> stamp_ok s' t.
Proof. intros Hc [H1 H2]. split; [done|by eapply event_ok_stable]. Qed.

(** The next event of a clock. *)
Definition next_stamp (c : vc) : vc := mkVC (bump (vector c) (vc_id c)) (vc_id c).

Lemma clock_stamp s c : cfg_ok s -> clock_ok s c -> stamp_ok s c.
Proof.
  intros [Hc Hi] (Hs & Hid & Hv). unfold stamp_ok, vc_printable, event_ok, ts_ok. rewrite Hs, Hid. unfold VC_BUF.
  split_and!; try done; try lia. clia.
Qed.

Lemma next_stamp_ok s c :
  cfg_ok s -> clock_ok s c -> Forall (fun x => x < INT_MAX) (vector c) -> stamp_ok s (next_stamp c).
Proof.
  intros Hc (Hs & Hid & Hv) Hr. apply clock_stamp; [done|]. unfold clock_ok, next_stamp, vc_size in *. cbn.
  rewrite bump_length. split_and!; [done..|]. by apply bump_in_int.
Qed.

Lemma VCToSds_vcs c : vc_printable c -> VCToSds c = Some (vcs c).
Proof. intros Hp. destruct (VCToSds_SdsToVC c Hp) as (s & Hs & _). unfold vcs. by rewrite Hs. Qed.

Lemma nowVC_vcs s c :
  cfg_ok s -> clock_ok s c -> Forall (fun x => x < INT_MAX) (vector c) -> nowVC c = Some (vcs (next_stamp c)).
Proof.
  intros Hc Hok Hr. destruct (next_stamp_ok s c Hc Hok Hr) as [Hp _].
  destruct Hc as [Hc Hi], Hok as (Hs & Hid & Hv). unfold nowVC, increaseVC.
  destruct (at_index_some (vector c) (vc_id c)) as [x Hx]; [unfold vc_size in *; lia|]. rewrite Hx.
  assert (to_int (x + 1) = x + 1) as ->.
  { apply at_index_lookup in Hx as [_ Hx]. rewrite Forall_lookup in Hr, Hv.
    specialize (Hr _ _ Hx). specialize (Hv _ _ Hx). apply to_int_id. clia. }
  rewrite <- (VCToSds_vcs _ Hp). unfold next_stamp, bump. by rewrite Hx.
Qed.

Lemma ADD_CR_done w rv h s :
  cfg_ok s -> clock_ok s (current h) ->
  ADD_CR_NON_RMV rv h w = Done (RARGV_ADD_SDS rv (vcs (current h))) w.
Proof.
  intros Hc Hk. destruct (clock_stamp _ _ Hc Hk) as [Hp _]. unfold ADD_CR_NON_RMV. by rewrite (VCToSds_vcs _ Hp).
Qed.
