(* ===== verification/RWSetStore.v ===== *)
(** * Set algebra and the store commands of the remove-win set

    [sunionResult], [sdiffResult] and [sinterResult] compute the union, the
    difference and the intersection of the visible sets; the three store
    commands of [t_rwset.c] add the union to, or remove everything outside the
    difference or the intersection from, the destination, and do nothing without
    one. *)
From Stdlib Require Import ZArith Lia Ascii String.
From stdpp Require Import functions base numbers strings gmap sets list.
From S2P Require Import Prelude Sds VectorClock LamportClock Intset SetType Server RWFramework Container RWSet.
Open Scope Z_scope.

(** ** Set algebra *)

(** A key that holds a well-formed set or nothing. *)
Definition set_key (w : world) (k : sds) : Prop :=
  match db (srv w) !! k with
  | None => True
  | Some (OSet so) => set_ok (set_max_intset_entries (srv w)) so
  | _ => False
  end.

Definition world_max_ok (w : world) : Prop := max_ok (set_max_intset_entries (srv w)).

Section Algebra.
Context `{DictOrder}.

Lemma local_add_spec w dst x :
  world_max_ok w -> set_ok (set_max_intset_entries (srv w)) dst ->
  exists dst', local_add dst x w = Done dst' w /\ set_ok (set_max_intset_entries (srv w)) dst' /\
    set_members dst' = {[x]} ∪ set_members dst.
Proof.
  intros Hm Hok. destruct (setTypeAdd_spec _ dst x Hm Hok) as (dst' & Hadd & Hok' & Hmem).
  exists dst'. split; [|done]. unfold local_add, bind, gets. by rewrite Hadd.
Qed.

(** Adding all elements of a list that satisfy [sel]. *)
Lemma local_fold_spec w dst l (sel : sds -> bool) (body : setobj -> sds -> cmd setobj) :
  (forall dst x w, body dst x w = (if sel x then local_add dst x else ret dst) w) ->
  world_max_ok w -> set_ok (set_max_intset_entries (srv w)) dst ->
  exists dst', fold_each l dst body w = Done dst' w /\
    set_ok (set_max_intset_entries (srv w)) dst' /\
    set_members dst' = list_to_set (filter sel l) ∪ set_members dst.
Proof.
  intros Hbody Hm. revert dst. induction l as [|x l IH]; intros dst Hok; cbn [fold_each].
  - exists dst. split; [done|]. split; [done|]. cbn. by rewrite (left_id_L ∅ (∪)).
  - destruct (sel x) eqn:Hs.
    + destruct (local_add_spec w dst x Hm Hok) as (d1 & H1 & Hok1 & Hm1).
      destruct (IH d1 Hok1) as (d2 & H2 & Hok2 & Hm2). exists d2.
      rewrite (bind_done _ _ _ d1 w) by (rewrite Hbody, Hs; done). split; [done|]. split; [done|].
      rewrite Hm2, Hm1, filter_cons_True by (by rewrite Hs). cbn. set_solver.
    + destruct (IH dst Hok) as (d2 & H2 & Hok2 & Hm2). exists d2.
      rewrite (bind_done _ _ _ dst w) by (rewrite Hbody, Hs; done). split; [done|]. split; [done|].
      by rewrite Hm2, filter_cons_False by (rewrite Hs; tauto).
Qed.

Lemma set_key_lookup w k :
  set_key w k ->
  (db (srv w) !! k = None /\ visible w k = ∅) \/
  exists so, db (srv w) !! k = Some (OSet so) /\
    set_ok (set_max_intset_entries (srv w)) so /\ visible w k = set_members so.
Proof.
  unfold set_key, visible. destruct (db (srv w) !! k) as [[|so| | | |]|]; try done; [right|left]; eauto.
Qed.

(** The union of several keys. *)
Definition union_of (w : world) (ks : list sds) : gset sds := ⋃ (visible w <$> ks).

Lemma sunionResult_spec w keys dst :
  world_max_ok w -> set_ok (set_max_intset_entries (srv w)) dst -> Forall (set_key w) keys ->
  exists dst', sunionResult keys dst w = Done dst' w /\
    set_ok (set_max_intset_entries (srv w)) dst' /\
    set_members dst' = union_of w keys ∪ set_members dst.
Proof.
  intros Hm. revert dst. unfold union_of.
  induction keys as [|k keys IH]; intros dst Hok Hks; cbn [sunionResult].
  - exists dst. split; [done|]. split; [done|]. cbn. by rewrite (left_id_L ∅ (∪)).
  - apply Forall_cons_1 in Hks as [Hk Hks]. step_with (lookupKey_done _ _).
    destruct (set_key_lookup _ _ Hk) as [[-> Hv]|(so & -> & Hso & Hv)].
    + destruct (IH dst Hok Hks) as (d & Hd & Hokd & Hmd). exists d. split; [done|]. split; [done|].
      cbn. rewrite Hv, Hmd. by rewrite (left_id_L ∅ (∪)).
    + rewrite (bind_done _ _ _ false w) by done. rewrite (bind_done _ _ _ so w) by done.
      destruct (local_fold_spec w dst (set_list so) (fun _ => true) local_add) as (d1 & H1 & Hok1 & Hm1);
        [done..|].
      step_with H1. destruct (IH d1 Hok1 Hks) as (d & Hd & Hokd & Hmd).
      exists d. split; [done|]. split; [done|]. cbn. rewrite Hv, Hmd, Hm1.
      assert (list_to_set (filter (fun _ => true) (set_list so)) = set_members so) as ->.
      { apply set_eq. intros x. rewrite elem_of_list_to_set, list_elem_of_filter.
        rewrite (elem_of_set_list _ _ x Hso). cbn. tauto. }
      set_solver.
Qed.

(** The difference of the key at [idx] = 2 and the keys after it. *)
Lemma sdiffResult_spec w dst c0 dk k ks :
  world_max_ok w -> set_ok (set_max_intset_entries (srv w)) dst ->
  argv (cli w) = c0 :: dk :: k :: ks -> set_key w k -> Forall (set_key w) ks ->
  exists dst', sdiffResult 2 dst w = Done dst' w /\
    set_ok (set_max_intset_entries (srv w)) dst' /\
    set_members dst' = (visible w k ∖ union_of w ks) ∪ set_members dst.
Proof.
  intros Hm Hok Ha Hk Hks. unfold sdiffResult.
  rewrite (bind_done _ _ _ k w) by (apply arg_done; by rewrite Ha).
  step_with (lookupKey_done _ _).
  destruct (set_key_lookup _ _ Hk) as [[-> Hv]|(so & -> & Hso & Hv)].
  - exists dst. split; [done|]. split; [done|]. rewrite Hv. set_solver.
  - rewrite (bind_done _ _ _ ks w) by (unfold args_from, gets; by rewrite Ha).
    destruct (sunionResult_spec w ks createIntsetObject) as (u & Hu & Hoku & Hmu);
      [done|by apply createIntsetObject_ok|done|].
    step_with Hu. rewrite (bind_done _ _ _ so w) by done.
    destruct (local_fold_spec w dst (set_list so) (fun e => negb (setTypeIsMember u e))
      (fun dst ele => if negb (setTypeIsMember u ele) then local_add dst ele else ret dst))
      as (d & Hd & Hokd & Hmd); [intros; by case_match|done..|].
    exists d. split; [done|]. split; [done|]. rewrite Hmd, Hv. f_equal. apply set_eq. intros x.
    rewrite elem_of_list_to_set, list_elem_of_filter, elem_of_difference.
    rewrite (elem_of_set_list _ _ x Hso), (setTypeIsMember_spec _ _ _ Hoku), Hmu.
    change (set_members createIntsetObject) with (∅ : gset sds). rewrite (right_id_L ∅ (∪)).
    case_bool_decide; cbn; tauto.
Qed.

(** Membership in all of several keys. *)
Definition in_all (w : world) (ks : list sds) (x : sds) : bool :=
  forallb (fun k => bool_decide (x ∈ visible w k)) ks.

(** What is in [k1] and in all of [ks]. *)
Definition inter_of (w : world) (k1 : sds) (ks : list sds) : gset sds := filter (in_all w ks) (visible w k1).

Definition selem_ok (e : selem) : Prop := match e with EInt z => in_llong z | ESds _ => True end.

Lemma set_elems_ok max so : set_ok max so -> Forall selem_ok (set_elems so).
Proof.
  destruct so as [ins|d].
  - intros [[l Hr] _]. rewrite set_elems_IS, (rep_values _ _ Hr). apply Forall_fmap.
    apply Forall_forall. intros z Hz. by eapply rep_in_llong.
  - intros _. rewrite set_elems_HT. apply Forall_fmap. by apply Forall_forall.
Qed.

(** The three comparisons agree with membership of the printed element. *)
Lemma inter_found max e so :
  set_ok max so -> selem_ok e ->
  match e, so with
  | EInt z, SIntset ins => intsetFind ins z
  | EInt z, SHT _ => setTypeIsMember so (sdsfromlonglong z)
  | ESds s, _ => setTypeIsMember so s
  end = bool_decide (selem_sds e ∈ set_members so).
Proof.
  intros Hok He. rewrite <- (setTypeIsMember_spec _ _ _ Hok).
  destruct e as [z|x], so as [ins|d]; cbn [selem_sds]; try done.
  cbn. unfold isSdsRepresentableAsLongLong. by rewrite string2ll_print.
Qed.

Lemma inter_inner_spec w keys e :
  Forall (set_key w) keys -> selem_ok e ->
  exists x, inter_inner keys e w = Done x w /\
    (if in_all w keys (selem_sds e) then x = IAll else x = IBreak \/ x = IReturn) /\
    (x = IReturn -> exists k, k ∈ keys /\ visible w k = ∅).
Proof.
  intros Hks He. induction Hks as [|k keys Hk Hks IH]; cbn [inter_inner].
  - by exists IAll.
  - step_with (lookupKey_done _ _). cbn [in_all forallb].
    destruct (set_key_lookup _ _ Hk) as [[-> Hv]|(so & -> & Hso & Hv)].
    + exists IReturn. split; [done|]. split; [|intros _; exists k; set_solver].
      rewrite Hv, bool_decide_false by set_solver. by right.
    + rewrite (bind_done _ _ _ false w) by done. rewrite (bind_done _ _ _ so w) by done.
      rewrite (inter_found _ _ _ Hso He), Hv. case_bool_decide; cbn [andb].
      * destruct IH as (x & Hx & Hall & Hret). exists x. split_and!; [done..|].
        intros Hr. destruct (Hret Hr) as (k' & Hk' & ?). exists k'. set_solver.
      * exists IBreak. split; [done|]. split; [by left|done].
Qed.

Lemma in_all_missing w keys k x : k ∈ keys -> visible w k = ∅ -> in_all w keys x = false.
Proof.
  intros Hk Hv. apply not_true_iff_false. unfold in_all. rewrite forallb_forall. intros Hall.
  specialize (Hall k). rewrite bool_decide_eq_true, Hv in Hall.
  apply list_elem_of_In in Hk. set_solver.
Qed.

Lemma inter_outer_spec w elems keys dst :
  world_max_ok w -> set_ok (set_max_intset_entries (srv w)) dst ->
  Forall (set_key w) keys -> Forall selem_ok elems ->
  exists dst', inter_outer elems keys dst w = Done dst' w /\
    set_ok (set_max_intset_entries (srv w)) dst' /\
    set_members dst' = list_to_set (filter (in_all w keys) (selem_sds <$> elems)) ∪ set_members dst.
Proof.
  intros Hm Hok Hks Hes. revert dst Hok.
  induction Hes as [|e elems He Hes IH]; intros dst Hok; cbn [inter_outer fmap list_fmap].
  - exists dst. split; [done|]. split; [done|]. cbn. by rewrite (left_id_L ∅ (∪)).
  - destruct (inter_inner_spec w keys e Hks He) as (x & Hx & Hall & Hret). step_with Hx.
    destruct (in_all w keys (selem_sds e)) eqn:Hin.
    + subst x. destruct (local_add_spec w dst (selem_sds e) Hm Hok) as (d1 & H1 & Hok1 & Hm1).
      step_with H1. destruct (IH d1 Hok1) as (d2 & H2 & Hok2 & Hm2). exists d2.
      split; [done|]. split; [done|]. rewrite Hm2, Hm1, filter_cons_True by (by rewrite Hin).
      cbn. set_solver.
    + rewrite filter_cons_False by (rewrite Hin; tauto). destruct Hall as [->| ->].
      * destruct (IH dst Hok) as (d2 & H2 & Hok2 & Hm2). by exists d2.
      * destruct (Hret eq_refl) as (k & Hk & Hv). exists dst. split; [done|]. split; [done|].
        assert (list_to_set (filter (in_all w keys) (selem_sds <$> elems)) = (∅ : gset sds)) as ->;
          [|by rewrite (left_id_L ∅ (∪))].
        apply set_eq. intros y. rewrite elem_of_list_to_set, list_elem_of_filter.
        rewrite (in_all_missing w keys k y Hk Hv). set_solver.
Qed.

(** The intersection of the key at [idx] = 2 and the keys after it. *)
Lemma sinterResult_spec w dst c0 dk k ks :
  world_max_ok w -> set_ok (set_max_intset_entries (srv w)) dst ->
  argv (cli w) = c0 :: dk :: k :: ks -> set_key w k -> Forall (set_key w) ks ->
  exists dst', sinterResult 2 dst w = Done dst' w /\
    set_ok (set_max_intset_entries (srv w)) dst' /\
    set_members dst' = filter (in_all w ks) (visible w k) ∪ set_members dst.
Proof.
  intros Hm Hok Ha Hk Hks. unfold sinterResult.
  rewrite (bind_done _ _ _ k w) by (apply arg_done; by rewrite Ha).
  step_with (lookupKey_done _ _).
  destruct (set_key_lookup _ _ Hk) as [[-> Hv]|(so & -> & Hso & Hv)].
  - exists dst. split; [done|]. split; [done|]. rewrite Hv. set_solver.
  - rewrite (bind_done _ _ _ false w) by done. rewrite (bind_done _ _ _ so w) by done.
    rewrite (bind_done _ _ _ ks w) by (unfold args_from, gets; by rewrite Ha).
    destruct (inter_outer_spec w (set_elems so) ks dst) as (d & Hd & Hokd & Hmd);
      [done..|by eapply set_elems_ok|].
    exists d. split; [done|]. split; [done|]. rewrite Hmd, Hv. f_equal. apply set_eq. intros x.
    fold (set_list so). rewrite elem_of_list_to_set, list_elem_of_filter, elem_of_filter.
    by rewrite (elem_of_set_list _ _ x Hso).
Qed.
End Algebra.

(** ** The store commands *)

Section Store.
Context `{DictOrder}.

(** The pointer [set] stays valid through the loop. *)
Lemma frame_hasset2 k w w1 w2 : frame (E := reh) k w w1 -> frame (E := reh) k w1 w2 -> hasset w k -> hasset w2 k.
Proof. intros H1 H2 Hs. eapply fr_hasset, fr_hasset, Hs; [exact H2|exact H1]. Qed.

Lemma union_loop_spec w k f l :
  rws w k f -> hasset w k -> cfg_ok (srv w) -> (forall x, x ∈ l -> nul_free x) ->
  exists w' pairs rv,
    fold_each l (0, RVCT_PREPARE) (rwsunionstore_loop k) w = Done (Z.of_nat (length pairs), rv) w' /\
    rv_items rv = pair_args pairs /\ Forall2 (decodes (srv w) RAdd) pairs (add_ops f l) /\
    rws w' k f /\ frame k w w'.
Proof.
  intros Hr Hset Hc Hnul.
  apply (prepare_loop _ RAdd (fun a => negb (EXISTS (f a))) id (fun a => current (f a))); [done|].
  intros acc a w1 Ha Hr1 Hf1. unfold rwsunionstore_loop. rewrite (sdsnew_nul_free a) by auto.
  destruct (rwseHTGet_rws w1 k f a Hr1) as (w2 & Hw2 & Hr2 & Hf2 & Ha2).
  exists w2. split_and!; [done..|]. step_with Hw2. destruct Hr2 as (V & Hr2 & Hag).
  destruct (read_set_rep _ _ _ _ Hr2 (frame_hasset2 _ _ _ _ Hf1 Hf2 Hset)) as (so & Hso & Hsok & HV).
  step_with Hso. rewrite (setTypeIsMember_spec _ _ _ Hsok), <- HV.
  assert (bool_decide (a ∈ V) = EXISTS (f a)) as ->.
  { destruct (EXISTS (f a)) eqn:E; [apply bool_decide_true; by apply Hag|].
    apply bool_decide_false. intros Hin. apply Hag in Hin. congruence. }
  destruct (negb (EXISTS (f a))); [|done]. step_with (deref_some _ _).
  step_with (read_el_rep _ _ _ _ _ Hr2 Ha2).
  pose proof (rws_el_ok _ _ _ a Hr) as Hok.
  destruct (VCToSds_SdsToVC _ (el_ok_printable _ _ Hc Hok)) as (s & Hs & Hp).
  exists s. split_and!; [|done|by apply el_ok_ts]. unfold ADD_CR_NON_RMV, bind. by rewrite Hs.
Qed.

(** Removing the members outside a set: [rwsdiffstore], and [rwsinterstore]
    with its two extra tests. *)
Lemma rem_loop_spec (body : Z * rvector -> sds -> cmd (Z * rvector)) (keep : sds -> bool) w k f l :
  (forall acc a w1, a ∈ l -> EXISTS (f a) = true -> rws w1 k f -> frame k w w1 ->
     body acc a w1 =
     (if negb (keep a) then
        e <- rwseHTGet k (sdsnew a) true ;; e <- deref e ;; h <- read_rwse e ;;
        if EXISTS h then
          rv <- ADD_CR_RMV (RARGV_ADD_SDS acc.2 (sdsnew a)) h ;; ret (acc.1 + 1, rv)
        else ret acc
      else ret acc) w1) ->
  rws w k f -> cfg_ok (srv w) -> (forall x, x ∈ l -> nul_free x /\ EXISTS (f x) = true /\ clock_room (f x)) ->
  exists w' pairs rv,
    fold_each l (0, RVCT_PREPARE) body w = Done (Z.of_nat (length pairs), rv) w' /\
    rv_items rv = pair_args pairs /\
    Forall2 (decodes (srv w) RRem) pairs (rem_ops f (filter (fun a => negb (keep a)) l)) /\
    rws w' k f /\ frame k w w'.
Proof.
  intros Hbody Hr Hc Hl.
  assert (rem_ops f (filter (fun a => negb (keep a)) l) =
    (fun a => (sdsnew a, RRem (rem_ts (f a)))) <$> filter (fun a => negb (keep a)) l) as ->.
  { unfold rem_ops. rewrite (filter_true (fun a => EXISTS (f a)) (filter _ l)); [done|].
    intros x [_ Hx]%list_elem_of_filter. apply (Hl x Hx). }
  apply (prepare_loop _ RRem (fun a => negb (keep a)) sdsnew (fun a => rem_ts (f a))); [done|].
  intros acc a w1 Ha Hr1 Hf1. destruct (Hl a Ha) as (Hnul & He & Hroom).
  rewrite (Hbody acc a w1 Ha He Hr1 Hf1), (sdsnew_nul_free a) by done.
  destruct (negb (keep a)); [|by exists w1].
  destruct (rwseHTGet_rws w1 k f a Hr1) as (w2 & Hw2 & Hr2 & Hf2 & Ha2).
  exists w2. split_and!; [done..|]. step_with Hw2. step_with (deref_some _ _).
  step_with (read_rwse_rws _ _ _ _ Hr2 Ha2). rewrite He.
  destruct (rem_ts_ok _ _ Hc (rws_el_ok _ _ _ a Hr) Hroom) as (Hts & s & Hs & Hp).
  exists s. split_and!; [|done..]. unfold ADD_CR_RMV, bind. by rewrite Hs.
Qed.

Lemma rws_max w k f : rws w k f -> world_max_ok w.
Proof. intros (V & Hr & _). apply Hr. Qed.

Lemma rws_set_list w k f so :
  rws w k f -> db (srv w) !! k = Some (OSet so) ->
  set_ok (set_max_intset_entries (srv w)) so /\ visible w k = set_members so.
Proof.
  intros (V & Hr & _) Hso. pose proof (rep_set _ _ _ _ Hr) as Hs. unfold shape_set, shape_obj, set_shape in Hs.
  rewrite Hso in Hs. unfold visible. rewrite Hso. tauto.
Qed.

Lemma set_list_to_set max so : set_ok max so -> list_to_set (set_list so) = set_members so.
Proof. intros Hok. apply set_eq. intros x. by rewrite elem_of_list_to_set, (elem_of_set_list _ _ x Hok). Qed.

Lemma set_list_length max so : set_ok max so -> length (set_list so) = size (set_members so).
Proof. intros Hok. by rewrite (Permutation_length (set_list_perm _ _ Hok)). Qed.

(** [rwsunionstore]: the union is added to the destination. *)
Lemma rwsunionstore_client w k f c0 keys :
  rws w k f -> hasset w k -> cfg_ok (srv w) -> REPLICATION_MODE (srv w) = true ->
  Forall (set_key w) keys -> (forall x, x ∈ union_of w keys -> nul_free x) ->
  Z.of_nat (size (union_of w keys)) <= INT_MAX ->
  exists w' f', call 0 rwsunionstoreCommand (request w (c0 :: k :: keys)) = Done tt w' /\ rws w' k f' /\
    visible w' k = union_of w keys ∪ visible w k /\
    replies (cli w') = [if decide (union_of w keys ⊆ visible w k) then R_ele_exist else R_ok].
Proof.
  intros Hr Hset Hc Hm Hks Hnul Hmax. destruct (rws_hasset w k f Hr Hset) as [so Hso].
  set (w0 := request w (c0 :: k :: keys)).
  destruct (args_12 w0 c0 k keys eq_refl) as [H1 H2].
  assert (rws w0 k f) as Hr0 by (by eapply rws_srv, Hr).
  destruct (sunionResult_spec w0 keys createIntsetObject) as (u & Hu & Hoku & Hmu);
    [by eapply rws_max|apply createIntsetObject_ok; by eapply rws_max|done|].
  change (set_members createIntsetObject) with (∅ : gset sds) in Hmu. rewrite (right_id_L ∅ (∪)) in Hmu.
  change (union_of w0 keys) with (union_of w keys) in Hmu.
  assert (forall x, x ∈ set_list u -> nul_free x) as Hnul'.
  { intros x Hx. apply Hnul. by rewrite <- Hmu, <- (elem_of_set_list _ _ x Hoku). }
  destruct (union_loop_spec w0 k f (set_list u)) as (w1 & pairs & rv & Hw1 & Hrv & Hdec & Hr1 & Hf1);
    [done|done|done..|].
  rewrite <- Hmu, <- (set_list_to_set _ _ Hoku). apply (add_client rwsunionstore_prepare w _ k f (set_list u)); try done.
  - eapply prep_result_eq, (prepare_tail _ _ _ _ _ _ _ w1 pairs rv); try done. fold w0.
    unfold rwsunionstore_prepare. step_with H1. step_with (lookupKey_done _ _).
    change (db (srv w0)) with (db (srv w)). rewrite Hso. step_with H2. step_with Hu. by step_with Hw1.
  - by rewrite (set_list_length _ _ Hoku), Hmu.
Qed.

(** The members of the destination all exist and can be removed. *)
Definition removable (w : world) (k : sds) (f : sds -> reh) : Prop :=
  forall x, x ∈ visible w k -> nul_free x /\ clock_room (f x).

(** Keep of the destination only what [D] holds. *)
Lemma keep_client prep w args k f so D (keep : sds -> bool) :
  rws w k f -> db (srv w) !! k = Some (OSet so) -> cfg_ok (srv w) -> REPLICATION_MODE (srv w) = true ->
  removable w k f -> Z.of_nat (size (visible w k)) <= INT_MAX -> index args 1 = Some k ->
  (forall x, x ∈ visible w k -> keep x = bool_decide (x ∈ D)) ->
  prep_result prep w args k f RRem (rem_ops f (filter (fun a => negb (keep a)) (set_list so))) R_ele_nexist ->
  exists w' f', call 0 (CRDT prep (key <- rarg 1 ;; sremGenericCommand key)) (request w args) = Done tt w' /\
    rws w' k f' /\ visible w' k = visible w k ∩ D /\
    replies (cli w') = [if decide (visible w k ⊆ D) then R_ele_nexist else R_ok].
Proof.
  intros Hr Hso Hc Hm Hrem Hmax Hk Hkeep Hp.
  destruct (rws_set_list w k f so Hr Hso) as [Hok Hv].
  set (l := filter (fun a => negb (keep a)) (set_list so)) in *.
  assert (forall x, x ∈ l <-> x ∈ visible w k /\ x ∉ D) as Hl.
  { intros x. unfold l. rewrite list_elem_of_filter, (elem_of_set_list _ _ x Hok), <- Hv.
    split; intros [H1 H2].
    - split; [done|]. rewrite (Hkeep x H2) in H1. case_bool_decide; done.
    - split; [|done]. rewrite (Hkeep x H1), bool_decide_false by done. done. }
  destruct (rem_client prep w args k f l) as (w' & f' & Hw' & Hr' & Hv' & Hre); try done.
  - rewrite Hv, <- (set_list_length _ _ Hok) in Hmax. unfold l.
    pose proof (length_filter (fun a => negb (keep a)) (set_list so)). lia.
  - intros x Hx. apply Hl in Hx as [Hx _]. apply (Hrem x Hx).
  - exists w', f'. split_and!; [done..| |].
    + rewrite Hv'. apply set_eq. intros x. rewrite elem_of_difference, elem_of_list_to_set, Hl, elem_of_intersection.
      destruct (decide (x ∈ D)); tauto.
    + rewrite Hre. do 2 f_equal. apply decide_ext. split.
      * intros Hd x Hx. destruct (decide (x ∈ D)); [done|]. destruct (Hd x); [|done].
        by apply elem_of_list_to_set, Hl.
      * intros Hs x Hx1 Hx2. apply elem_of_list_to_set, Hl in Hx1. set_solver.
Qed.

Lemma dest_elements w k f so x :
  rws w k f -> db (srv w) !! k = Some (OSet so) -> removable w k f -> x ∈ set_list so ->
  nul_free x /\ EXISTS (f x) = true /\ clock_room (f x).
Proof.
  intros Hr Hso Hrem Hx. destruct (rws_set_list w k f so Hr Hso) as [Hok Hv].
  rewrite (elem_of_set_list _ _ x Hok), <- Hv in Hx. destruct (Hrem x Hx).
  split_and!; [done| |done]. by apply (rws_visible _ _ _ x Hr).
Qed.

(** [rwsdiffstore]: what is outside the difference is removed. *)
Lemma rwsdiffstore_client w k f c0 k1 ks :
  rws w k f -> hasset w k -> cfg_ok (srv w) -> REPLICATION_MODE (srv w) = true ->
  removable w k f -> Z.of_nat (size (visible w k)) <= INT_MAX ->
  set_key w k1 -> Forall (set_key w) ks ->
  exists w' f', call 0 rwsdiffstoreCommand (request w (c0 :: k :: k1 :: ks)) = Done tt w' /\ rws w' k f' /\
    visible w' k = visible w k ∩ (visible w k1 ∖ union_of w ks) /\
    replies (cli w') = [if decide (visible w k ⊆ visible w k1 ∖ union_of w ks) then R_ele_nexist else R_ok].
Proof.
  intros Hr Hset Hc Hm Hrem Hmax Hk1 Hks. destruct (rws_hasset w k f Hr Hset) as [so Hso].
  set (w0 := request w (c0 :: k :: k1 :: ks)).
  destruct (args_12 w0 c0 k (k1 :: ks) eq_refl) as [H1 H2].
  assert (rws w0 k f) as Hr0 by (by eapply rws_srv, Hr).
  destruct (sdiffResult_spec w0 createIntsetObject c0 k k1 ks) as (d & Hd & Hokd & Hmd);
    [by eapply rws_max|apply createIntsetObject_ok; by eapply rws_max|done..|].
  change (set_members createIntsetObject) with (∅ : gset sds) in Hmd. rewrite (right_id_L ∅ (∪)) in Hmd.
  destruct (rem_loop_spec (rwsdiffstore_loop k d) (setTypeIsMember d) w0 k f (set_list so))
    as (w1 & pairs & rv & Hw1 & Hrv & Hdec & Hr1 & Hf1); [|done|done|intros x Hx; apply (dest_elements _ _ _ _ _ Hr Hso Hrem Hx)|].
  { intros acc a w1 Ha He Hr1 Hf1. unfold rwsdiffstore_loop. destruct (negb _); [|done].
    assert (nul_free a) as Hn by apply (dest_elements _ _ _ _ _ Hr Hso Hrem Ha). rewrite (sdsnew_nul_free a Hn).
    destruct (rwseHTGet_rws w1 k f a Hr1) as (w2 & Hw2 & Hr2 & Hf2 & Ha2).
    step_with Hw2. step_with Hw2. step_with (deref_some _ _). step_with (deref_some _ _).
    step_with (read_rwse_rws _ _ _ _ Hr2 Ha2). step_with (read_rwse_rws _ _ _ _ Hr2 Ha2). by rewrite He. }
  apply (keep_client rwsdiffstore_prepare w _ k f so _ (setTypeIsMember d)); try done.
  - intros x _. by rewrite (setTypeIsMember_spec _ _ _ Hokd), Hmd.
  - eapply prep_result_eq, (prepare_tail _ _ _ _ _ _ _ w1 pairs rv); try done. fold w0.
    unfold rwsdiffstore_prepare. step_with H1. step_with (lookupKey_done _ _).
    change (db (srv w0)) with (db (srv w)). rewrite Hso. step_with Hd.
    rewrite (bind_done _ _ _ so w0) by (unfold read_set; cbn; by rewrite Hso). by step_with Hw1.
Qed.

(** [rwsinterstore]: what is outside the intersection is removed. *)
Lemma rwsinterstore_client w k f c0 k1 ks :
  rws w k f -> hasset w k -> cfg_ok (srv w) -> REPLICATION_MODE (srv w) = true ->
  removable w k f -> Z.of_nat (size (visible w k)) <= INT_MAX ->
  set_key w k1 -> Forall (set_key w) ks ->
  exists w' f', call 0 rwsinterstoreCommand (request w (c0 :: k :: k1 :: ks)) = Done tt w' /\ rws w' k f' /\
    visible w' k = visible w k ∩ filter (in_all w ks) (visible w k1) /\
    replies (cli w') = [if decide (visible w k ⊆ filter (in_all w ks) (visible w k1)) then R_ele_nexist else R_ok].
Proof.
  intros Hr Hset Hc Hm Hrem Hmax Hk1 Hks. destruct (rws_hasset w k f Hr Hset) as [so Hso].
  set (w0 := request w (c0 :: k :: k1 :: ks)).
  destruct (args_12 w0 c0 k (k1 :: ks) eq_refl) as [H1 H2].
  assert (rws w0 k f) as Hr0 by (by eapply rws_srv, Hr).
  destruct (sinterResult_spec w0 createIntsetObject c0 k k1 ks) as (d & Hd & Hokd & Hmd);
    [by eapply rws_max|apply createIntsetObject_ok; by eapply rws_max|done..|].
  change (set_members createIntsetObject) with (∅ : gset sds) in Hmd. rewrite (right_id_L ∅ (∪)) in Hmd.
  change (visible w0 k1) with (visible w k1) in Hmd. change (in_all w0 ks) with (in_all w ks) in Hmd.
  set (keep := fun a => negb (Nat.eqb (setTypeSize d) 0 || negb (setTypeIsMember d a))).
  assert (forall a, keep a = bool_decide (a ∈ set_members d)) as Hkeep.
  { intros a. unfold keep. rewrite (setTypeIsMember_spec _ _ _ Hokd), (setTypeSize_spec _ _ Hokd).
    destruct (Nat.eqb_spec (size (set_members d)) 0) as [Hz|Hz]; cbn; [|by rewrite negb_involutive].
    apply size_empty_inv in Hz. rewrite bool_decide_false; [done|]. set_solver. }
  destruct (rem_loop_spec (rwsinterstore_loop k d) keep w0 k f (set_list so))
    as (w1 & pairs & rv & Hw1 & Hrv & Hdec & Hr1 & Hf1); [|done|done|intros x Hx; apply (dest_elements _ _ _ _ _ Hr Hso Hrem Hx)|].
  { intros acc a w1 _ _ _ _. unfold rwsinterstore_loop, keep. by rewrite negb_involutive. }
  apply (keep_client rwsinterstore_prepare w _ k f so _ keep); try done.
  - intros x _. by rewrite Hkeep, Hmd.
  - eapply prep_result_eq, (prepare_tail _ _ _ _ _ _ _ w1 pairs rv); try done. fold w0.
    unfold rwsinterstore_prepare. step_with H1. step_with (lookupKey_done _ _).
    change (db (srv w0)) with (db (srv w)). rewrite Hso. step_with Hd.
    rewrite (bind_done _ _ _ so w0) by (unfold read_set; cbn; by rewrite Hso). by step_with Hw1.
Qed.

(** Without a destination the store commands do nothing and send no reply. *)
Lemma store_missing w k c0 ks proc :
  proc ∈ [rwsunionstoreCommand; rwsdiffstoreCommand; rwsinterstoreCommand] ->
  REPLICATION_MODE (srv w) = true -> db (srv w) !! k = None ->
  call 0 proc (request w (c0 :: k :: ks)) = Done tt (mkWorld (srv w) (mkClient (c0 :: k :: ks) None false false [])).
Proof.
  intros Hp Hm Hk. set (w0 := request w (c0 :: k :: ks)).
  assert (forall prep, prep ∈ [rwsunionstore_prepare; rwsdiffstore_prepare; rwsinterstore_prepare] -> prep w0 = Return w0) as Hprep.
  { destruct (args_12 w0 c0 k ks eq_refl) as [H1 _]. intros prep Hin.
    repeat (apply elem_of_cons in Hin as [->|Hin];
      [unfold rwsunionstore_prepare, rwsdiffstore_prepare, rwsinterstore_prepare; step_with H1; step_with (lookupKey_done k w0);
       change (db (srv w0)) with (db (srv w)); by rewrite Hk|]). by apply elem_of_nil in Hin. }
  assert (forall prep eff, prep w0 = Return w0 -> call 0 (CRDT prep eff) w0 = Done tt (mkWorld (srv w) (mkClient (c0 :: k :: ks) None false false []))) as Hrun.
  { intros prep eff Hr. apply call_no_broadcast; [done| |done|done]. by apply CRDT_origin_return. }
  repeat (apply elem_of_cons in Hp as [->|Hp]; [apply Hrun, Hprep; set_solver|]). by apply elem_of_nil in Hp.
Qed.

(** What is added to or filtered is the given set exactly in these cases. *)
Lemma union_is {A : gset sds} D : A ∪ D = A <-> D ⊆ A.
Proof. set_solver. Qed.
Lemma inter_is {A : gset sds} D : D ∩ A = A <-> A ⊆ D.
Proof. set_solver. Qed.
End Store.
