(* ===== verification/SetCommands.v ===== *)
(** * Set commands ([t_set.c])

    The commands on plain sets, which the command table also offers on the
    visible sets of the replicated types.  Notifications, watched keys and the
    propagation to the built-in replicas are not modelled.

    The order in which [qsort] leaves equal elements, and what [rand] and
    [dictGetRandomKey] choose, are not determined by the code: they are classes,
    and every result holds for all their instances.  [sscan] is not modelled. *)
From Stdlib Require Import ZArith Lia Ascii String.
From stdpp Require Import base numbers strings gmap sets list.
From S2P Require Import Prelude Sds Intset SetType Server Container RWSet.
Open Scope Z_scope.

(** ** What the environment chooses *)

Class Qsort := {
  qsort : forall {A}, (A -> A -> Z) -> list A -> list A;
  qsort_perm {A} (cmp : A -> A -> Z) l : qsort cmp l ≡ₚ l
}.

(** The [n]-th draw of a command: a number, or an entry of a table, for which
    [DictRandom] shows what is asked here. *)
Class RandomChoice := {
  rand : nat -> Z;
  rand_nonneg n : 0 <= rand n;
  dictGetRandomKey : nat -> gset sds -> option sds;
  dictGetRandomKey_empty n : dictGetRandomKey n ∅ = None;
  dictGetRandomKey_in n d : d <> ∅ -> exists key, dictGetRandomKey n d = Some key /\ key ∈ d
}.

Section SetCommands.
Context `{DictOrder, Qsort, RandomChoice}.
Implicit Types (key ele : sds) (so : setobj).

(** ** Single sets *)

Definition sadd_loop key (args : list sds) : cmd Z :=
  fold_each args 0 (fun added a => b <- set_add key a ;; ret (if b then added + 1 else added)).

Definition saddCommand : cmd unit :=
  key <- arg 1 ;;
  set <- lookupKeyWrite key ;;
  (match set with
   | None => v <- arg 2 ;; dbAdd key (OSet (setTypeCreate v))
   | Some o => if is_set o then ret tt else addReply R_wrongtypeerr ;; creturn
   end) ;;
  args <- args_from 2 ;;
  added <- sadd_loop key args ;;
  modify (add_dirty added) ;;
  addReply (R_longlong added).

(** The number of elements removed; the loop is left when the set is empty. *)
Fixpoint srem_loop (args : list sds) key (deleted : Z) : cmd Z :=
  match args with
  | [] => ret deleted
  | a :: args =>
      r <- set_remove key a ;;
      if (r : bool) then
        so <- read_set key ;;
        if Nat.eqb (setTypeSize so) 0 then dbDelete key ;; ret (deleted + 1)
        else srem_loop args key (deleted + 1)
      else srem_loop args key deleted
  end.

(** The lookup of the first argument with the reply [r] for a missing key, for
    reading or for writing, and the check of the type. *)
Definition the_set (r : reply) : cmd sds :=
  key <- arg 1 ;;
  set <- lookupKeyReadOrReply key r ;;
  match set with
  | None => creturn
  | Some o => wrong <- checkType_set o ;; if (wrong : bool) then creturn else ret key
  end.

Definition sremCommand : cmd unit :=
  key <- the_set R_czero ;;
  args <- args_from 2 ;;
  deleted <- srem_loop args key 0 ;;
  (when negb (deleted =? 0) do modify (add_dirty deleted)) ;;
  addReply (R_longlong deleted).

(** Two keys hold the same object exactly when they are the same key. *)
Definition smoveCommand : cmd unit :=
  src <- arg 1 ;;
  srcset <- lookupKeyWrite src ;;
  dst <- arg 2 ;;
  dstset <- lookupKeyWrite dst ;;
  ele <- arg 3 ;;
  match srcset with
  | None => addReply R_czero ;; creturn
  | Some o =>
      wrong <- checkType_set o ;;
      wrong <- (if (wrong : bool) then ret true
                else match dstset with Some d => checkType_set d | None => ret false end) ;;
      if (wrong : bool) then creturn
      else if bool_decide (src = dst) then
        so <- read_set src ;;
        addReply (if setTypeIsMember so ele then R_cone else R_czero) ;; creturn
      else
        removed <- set_remove src ele ;;
        if negb removed then addReply R_czero ;; creturn
        else
          so <- read_set src ;;
          (when Nat.eqb (setTypeSize so) 0 do (dbDelete src ;; ret tt)) ;;
          (match dstset with
           | None => dbAdd dst (OSet (setTypeCreate ele))
           | Some _ => ret tt
           end) ;;
          modify inc_dirty ;;
          b <- set_add dst ele ;;
          (when b do modify inc_dirty) ;;
          addReply R_cone
  end.

Definition sismemberCommand : cmd unit :=
  key <- the_set R_czero ;;
  ele <- arg 2 ;;
  so <- read_set key ;;
  addReply (if setTypeIsMember so ele then R_cone else R_czero).

Definition scardCommand : cmd unit :=
  key <- the_set R_czero ;;
  so <- read_set key ;;
  addReply (R_longlong (Z.of_nat (setTypeSize so))).

(** ** Several sets *)

(** A pointer to a set object: the key that holds it, and the object. *)
Definition setptr : Type := sds * setobj.

Definition compare_sizes (first second : nat) : Z :=
  if Nat.ltb second first then 1 else if Nat.ltb first second then -1 else 0.

Definition qsortCompareSetsByCardinality (s1 s2 : setptr) : Z :=
  compare_sizes (setTypeSize s1.2) (setTypeSize s2.2).

Definition ptr_size (s : option setptr) : nat := match s with Some o => setTypeSize o.2 | None => 0 end.

Definition qsortCompareSetsByRevCardinality (s1 s2 : option setptr) : Z :=
  compare_sizes (ptr_size s2) (ptr_size s1).

(** A length announced first and filled in later: the position of its reply. *)
Definition addDeferredMultiBulkLength : cmd (option nat) :=
  gets (fun w => if prepareClientToWrite (cli w) then Some (length (replies (cli w))) else None).

Definition setDeferredMultiBulkLength (node : option nat) (n : Z) : cmd unit :=
  match node with
  | None => ret tt
  | Some p =>
      modify (set_client (fun c =>
        let k := (length (replies c) - p)%nat in
        mkClient (argv c) (rargv c) (is_replica c) (replica_message c)
          (take k (replies c) ++ R_multibulklen n :: drop k (replies c))))
  end.

(** Put the result under the destination key. *)
Definition store_result (dstkey : sds) (dstset : setobj) : cmd unit :=
  dbDelete dstkey ;;
  (if Nat.ltb 0 (setTypeSize dstset) then
     dbAdd dstkey (OSet dstset) ;;
     addReply (R_longlong (Z.of_nat (setTypeSize dstset)))
   else addReply R_czero) ;;
  modify inc_dirty.

(** *** Intersection *)

(** The set objects, in the order of the keys; the command ends at the first
    key that is missing or holds something else. *)
Fixpoint sinter_lookup (dstkey : option sds) (setkeys : list sds) : cmd (list setptr) :=
  match setkeys with
  | [] => ret []
  | k :: setkeys =>
      setobj <- lookupKey k ;;
      match setobj with
      | None =>
          (match dstkey with
           | Some dstkey =>
               deleted <- dbDelete dstkey ;;
               (when deleted do modify inc_dirty) ;;
               addReply R_czero
           | None => addReply R_emptymultibulk
           end) ;;
          creturn
      | Some o =>
          wrong <- checkType_set o ;;
          if (wrong : bool) then creturn
          else
            so <- as_set o ;;
            sets <- sinter_lookup dstkey setkeys ;;
            ret ((k, so) :: sets)
      end
  end.

(** Whether the other sets have the element of the first one. *)
Fixpoint sinter_test (first : sds) (others : list setptr) (e : selem) : bool :=
  match others with
  | [] => true
  | (k, so) :: others =>
      if bool_decide (k = first) then sinter_test first others e
      else
        let found :=
          match e, so with
          | EInt z, SIntset ins => intsetFind ins z
          | EInt z, SHT _ => setTypeIsMember so (sdsfromlonglong z)
          | ESds s, _ => setTypeIsMember so s
          end in
        if found then sinter_test first others e else false
  end.

Definition sinterGenericCommand (setkeys : list sds) (dstkey : option sds) : cmd unit :=
  sets <- sinter_lookup dstkey setkeys ;;
  match qsort qsortCompareSetsByCardinality sets with
  | [] => crash
  | (first, so) :: others =>
      match dstkey with
      | None =>
          replylen <- addDeferredMultiBulkLength ;;
          cardinality <- fold_each (set_elems so) 0 (fun cardinality e =>
            if sinter_test first others e then
              addReply (R_bulk (selem_sds e)) ;; ret (cardinality + 1)
            else ret cardinality) ;;
          setDeferredMultiBulkLength replylen cardinality
      | Some dstkey =>
          dstset <- fold_each (set_elems so) createIntsetObject (fun dstset e =>
            if sinter_test first others e then local_add dstset (selem_sds e) else ret dstset) ;;
          store_result dstkey dstset
      end
  end.

Definition sinterCommand : cmd unit := keys <- args_from 1 ;; sinterGenericCommand keys None.
Definition sinterstoreCommand : cmd unit :=
  keys <- args_from 2 ;; dst <- arg 1 ;; sinterGenericCommand keys (Some dst).

(** *** Union and difference *)

Inductive set_op := SET_OP_UNION | SET_OP_DIFF.

(** A missing key is a null pointer. *)
Fixpoint sunion_lookup (setkeys : list sds) : cmd (list (option setptr)) :=
  match setkeys with
  | [] => ret []
  | k :: setkeys =>
      setobj <- lookupKey k ;;
      match setobj with
      | None => sets <- sunion_lookup setkeys ;; ret (None :: sets)
      | Some o =>
          wrong <- checkType_set o ;;
          if (wrong : bool) then creturn
          else
            so <- as_set o ;;
            sets <- sunion_lookup setkeys ;;
            ret (Some (k, so) :: sets)
      end
  end.

(** The two estimates, [long long]. *)
Definition algo_works (so0 : setobj) (sets : list (option setptr)) : Z * Z :=
  foldl (fun works s =>
    match s with
    | None => works
    | Some o => (to_llong (works.1 + Z.of_nat (setTypeSize so0)), to_llong (works.2 + Z.of_nat (setTypeSize o.2)))
    end) (0, 0) sets.

Definition diff_algo (so0 : setobj) (sets : list (option setptr)) : Z :=
  let works := algo_works so0 sets in
  if works.1 ÷ 2 <=? works.2 then 1 else 2.

(** The sets in the order of the loops, and the algorithm. *)
Definition diff_plan (sets : list (option setptr)) : list (option setptr) * Z :=
  match sets with
  | Some (k, so) :: others =>
      if diff_algo so sets =? 1 then (Some (k, so) :: qsort qsortCompareSetsByRevCardinality others, 1)
      else (sets, 2)
  | _ => (sets, 1)
  end.

(** [cardinality] is an [int]. *)
Definition union_add (acc : setobj * Z) (ele : sds) : cmd (setobj * Z) :=
  max <- gets (fun w => set_max_intset_entries (srv w)) ;;
  r <- deref (setTypeAdd max acc.1 ele) ;;
  ret (r.1, if (r.2 : bool) then to_int (acc.2 + 1) else acc.2).

Definition diff_remove (acc : setobj * Z) (ele : sds) : cmd (setobj * Z) :=
  let r := setTypeRemove acc.1 ele in
  ret (r.1, if r.2 then to_int (acc.2 - 1) else acc.2).

Definition union_sets (acc : setobj * Z) (s : option setptr) : cmd (setobj * Z) :=
  match s with
  | None => ret acc
  | Some o => fold_each (set_list o.2) acc union_add
  end.

(** Whether no other set has the element of the first one. *)
Fixpoint diff_test (first : sds) (others : list (option setptr)) ele : bool :=
  match others with
  | [] => true
  | None :: others => diff_test first others ele
  | Some (k, so) :: others =>
      if bool_decide (k = first) then false
      else if setTypeIsMember so ele then false
      else diff_test first others ele
  end.

Definition diff_one (first : sds) (so : setobj) (others : list (option setptr)) : cmd (setobj * Z) :=
  fold_each (set_list so) (createIntsetObject, 0) (fun acc ele =>
    if diff_test first others ele then
      dstset <- local_add acc.1 ele ;; ret (dstset, to_int (acc.2 + 1))
    else ret acc).

(** [j0]: the first set, whose elements are added. *)
Fixpoint diff_two (j0 : bool) (sets : list (option setptr)) (acc : setobj * Z) : cmd (setobj * Z) :=
  match sets with
  | [] => ret acc
  | None :: sets => diff_two false sets acc
  | Some o :: sets =>
      acc <- fold_each (set_list o.2) acc (if j0 then union_add else diff_remove) ;;
      if acc.2 =? 0 then ret acc else diff_two false sets acc
  end.

Definition union_diff_result (op : set_op) (sets : list (option setptr)) : cmd (setobj * Z) :=
  match op with
  | SET_OP_UNION => fold_each sets (createIntsetObject, 0) union_sets
  | SET_OP_DIFF =>
      match sets with
      | [] => crash
      | _ =>
          let '(sets, algo) := diff_plan sets in
          match sets with
          | Some (k, so) :: others =>
              if algo =? 1 then diff_one k so others else diff_two true sets (createIntsetObject, 0)
          | _ => ret (createIntsetObject, 0)
          end
      end
  end.

Definition sunionDiffGenericCommand (setkeys : list sds) (dstkey : option sds) (op : set_op) : cmd unit :=
  sets <- sunion_lookup setkeys ;;
  r <- union_diff_result op sets ;;
  match dstkey with
  | None =>
      addReply (R_multibulklen r.2) ;;
      for_each (set_list r.1) (fun ele => addReply (R_bulk ele))
  | Some dstkey => store_result dstkey r.1
  end.

Definition sunionCommand : cmd unit := keys <- args_from 1 ;; sunionDiffGenericCommand keys None SET_OP_UNION.
Definition sunionstoreCommand : cmd unit :=
  keys <- args_from 2 ;; dst <- arg 1 ;; sunionDiffGenericCommand keys (Some dst) SET_OP_UNION.
Definition sdiffCommand : cmd unit := keys <- args_from 1 ;; sunionDiffGenericCommand keys None SET_OP_DIFF.
Definition sdiffstoreCommand : cmd unit :=
  keys <- args_from 2 ;; dst <- arg 1 ;; sunionDiffGenericCommand keys (Some dst) SET_OP_DIFF.

(** ** Random elements *)

(** A remainder by zero. *)
Definition intsetRandom (n : nat) (ins : intset) : option Z :=
  if Nat.eqb (is_length ins) 0 then None
  else Some (_intsetGet ins (Z.to_nat (rand n mod Z.of_nat (is_length ins)))).

(** [None]: the null entry of an empty table is read, or the division fails. *)
Definition setTypeRandomElement (n : nat) (so : setobj) : option selem :=
  match so with
  | SHT d => key ← dictGetRandomKey n d; Some (ESds key)
  | SIntset ins => llele ← intsetRandom n ins; Some (EInt llele)
  end.

(** Remove the element drawn from the set under a key. *)
Definition remove_drawn key (e : selem) : cmd unit :=
  so <- read_set key ;;
  match e, so with
  | EInt llele, SIntset ins => write_set key (SIntset (intsetRemove ins llele).1)
  | EInt _, SHT _ => crash
  | ESds s, _ => set_remove key s ;; ret tt
  end.

Definition rewriteClientCommandVector (args : list sds) : cmd unit :=
  modify (set_client (fun c => mkClient args (rargv c) (is_replica c) (replica_message c) (replies c))).

(** A number of loops of [spopWithCountCommand]: emit and remove, *)
Fixpoint spop_emit (count : nat) (n : nat) key : cmd unit :=
  match count with
  | O => ret tt
  | S count =>
      so <- read_set key ;;
      e <- deref (setTypeRandomElement n so) ;;
      addReply (R_bulk (selem_sds e)) ;;
      remove_drawn key e ;;
      spop_emit count (S n) key
  end.

(** and move what stays to a new set. *)
Fixpoint spop_move (remaining : nat) (n : nat) key (newset : option setobj) : cmd (option setobj) :=
  match remaining with
  | O => ret newset
  | S remaining =>
      so <- read_set key ;;
      e <- deref (setTypeRandomElement n so) ;;
      let sdsele := selem_sds e in
      let dst := match newset with Some dst => dst | None => setTypeCreate sdsele end in
      dst <- local_add dst sdsele ;;
      set_remove key sdsele ;;
      spop_move remaining (S n) key (Some dst)
  end.

Definition SPOP_MOVE_STRATEGY_MUL : Z := 5.

(** The count argument; [None] is [C_ERR], the reply has been sent.  A [long]
    has the width of a [long long]. *)
Definition getLongFromObjectOrReply (o : sds) : cmd (option Z) :=
  match getLongLongFromObject o with
  | Some v => ret (Some v)
  | None => addReply (R_error "value is not an integer or out of range") ;; ret None
  end.

Definition spop_some key (size count : Z) : cmd unit :=
  addReply (R_multibulklen count) ;;
  let remaining := size - count in
  (if count <? (remaining * SPOP_MOVE_STRATEGY_MUL) mod 2 ^ 64 then spop_emit (Z.to_nat count) 0 key
   else
     newset <- spop_move (Z.to_nat remaining) 0 key None ;;
     newset <- deref newset ;;
     set <- read_set key ;;
     dbOverwrite key (OSet newset) ;;
     for_each (set_elems set) (fun e => addReply (R_bulk (selem_sds e)))) ;;
  modify inc_dirty.

Definition spopWithCountCommand : cmd unit :=
  a <- arg 2 ;;
  l <- getLongFromObjectOrReply a ;;
  match l with
  | None => creturn
  | Some count =>
      if count <? 0 then addReply (R_error "index out of range") ;; creturn
      else
        key <- the_set R_emptymultibulk ;;
        if count =? 0 then addReply R_emptymultibulk ;; creturn
        else
          so <- read_set key ;;
          let size := Z.of_nat (setTypeSize so) in
          modify (add_dirty count) ;;
          if size <=? count then
            fn (sunionDiffGenericCommand [key] None SET_OP_UNION) ;;
            dbDelete key ;;
            rewriteClientCommandVector ["DEL"%string; key] ;;
            modify inc_dirty ;;
            creturn
          else spop_some key size count
  end.

Definition spopCommand : cmd unit :=
  argc <- argc ;;
  if argc =? 3 then fn spopWithCountCommand ;; creturn
  else if 3 <? argc then addReply R_syntaxerr ;; creturn
  else
    key <- the_set R_nullbulk ;;
    so <- read_set key ;;
    e <- deref (setTypeRandomElement 0 so) ;;
    remove_drawn key e ;;
    rewriteClientCommandVector ["SREM"%string; key; selem_sds e] ;;
    addReply (R_bulk (selem_sds e)) ;;
    so <- read_set key ;;
    (when Nat.eqb (setTypeSize so) 0 do (dbDelete key ;; ret tt)) ;;
    modify inc_dirty.

(** Draw with repetition. *)
Fixpoint srand_any (count : nat) (n : nat) so : cmd unit :=
  match count with
  | O => ret tt
  | S count =>
      e <- deref (setTypeRandomElement n so) ;;
      addReply (R_bulk (selem_sds e)) ;;
      srand_any count (S n) so
  end.

(** Take random keys out of the table. *)
Fixpoint srand_sub (times : nat) (n : nat) (d : gset sds) : cmd (gset sds) :=
  match times with
  | O => ret d
  | S times =>
      key <- deref (dictGetRandomKey n d) ;;
      d <- deref (dictDelete d key) ;;
      srand_sub times (S n) d
  end.

(** Draw until [count] different elements were found; [fuel] bounds the draws. *)
Fixpoint srand_collect (fuel : nat) (n : nat) so (count : Z) (d : gset sds) (added : Z) : cmd (gset sds) :=
  if added <? count then
    match fuel with
    | O => out_of_fuel
    | S fuel =>
        e <- deref (setTypeRandomElement n so) ;;
        match dictAdd d (selem_sds e) with
        | Some d => srand_collect fuel (S n) so count d (added + 1)
        | None => srand_collect fuel (S n) so count d added
        end
    end
  else ret d.

Definition SRANDMEMBER_SUB_STRATEGY_MUL : Z := 3.

(** All elements in a table; they are different. *)
Definition all_elements so : cmd (gset sds) :=
  fold_each (set_elems so) ∅ (fun d e => deref (dictAdd d (selem_sds e))).

Definition srandmember_some (fuel : nat) so (size_ count : Z) : cmd unit :=
  d <- (if size_ <? (count * SRANDMEMBER_SUB_STRATEGY_MUL) mod 2 ^ 64 then
          d <- all_elements so ;;
          if Z.of_nat (size d) =? size_ then srand_sub (Z.to_nat (size_ - count)) 0 d else crash
        else srand_collect fuel 0 so count ∅ 0) ;;
  addReply (R_multibulklen count) ;;
  for_each (dict_iter d) (fun key => addReply (R_bulk key)).

Definition srandmemberWithCountCommand (fuel : nat) : cmd unit :=
  a <- arg 2 ;;
  l <- getLongFromObjectOrReply a ;;
  match l with
  | None => creturn
  | Some l =>
      let uniq := 0 <=? l in
      let count := if uniq then l else (- l) mod 2 ^ 64 in
      key <- the_set R_emptymultibulk ;;
      so <- read_set key ;;
      let size_ := Z.of_nat (setTypeSize so) in
      if count =? 0 then addReply R_emptymultibulk ;; creturn
      else if negb uniq then
        addReply (R_multibulklen count) ;; srand_any (Z.to_nat count) 0 so ;; creturn
      else if size_ <=? count then fn (sunionDiffGenericCommand [key] None SET_OP_UNION) ;; creturn
      else srandmember_some fuel so size_ count
  end.

Definition srandmemberCommand (fuel : nat) : cmd unit :=
  argc <- argc ;;
  if argc =? 3 then fn (srandmemberWithCountCommand fuel) ;; creturn
  else if 3 <? argc then addReply R_syntaxerr ;; creturn
  else
    key <- the_set R_nullbulk ;;
    so <- read_set key ;;
    e <- deref (setTypeRandomElement 0 so) ;;
    addReply (R_bulk (selem_sds e)).
End SetCommands.

(** ** Choices for the examples *)

Fixpoint insert_sorted {A} (cmp : A -> A -> Z) (x : A) (l : list A) : list A :=
  match l with
  | [] => [x]
  | y :: l => if cmp x y <=? 0 then x :: y :: l else y :: insert_sorted cmp x l
  end.

Lemma insert_sorted_perm {A} (cmp : A -> A -> Z) x l : insert_sorted cmp x l ≡ₚ x :: l.
Proof.
  induction l as [|y l IH]; cbn; [done|]. destruct (_ <=? 0); [done|]. rewrite IH. apply Permutation_swap.
Qed.

#[global, program] Instance insertion_qsort : Qsort | 100 := {
  qsort A cmp l := foldr (insert_sorted cmp) [] l
}.
Next Obligation. intros A cmp l. induction l as [|x l IH]; cbn; [done|]. by rewrite insert_sorted_perm, IH. Qed.

#[global, program] Instance round_robin : RandomChoice | 100 := {
  rand n := Z.of_nat n;
  dictGetRandomKey n d := elements d !! (n mod size d)%nat
}.
Next Obligation. intros n. cbn. lia. Qed.
Next Obligation. done. Qed.
Next Obligation.
  intros n d Hd. destruct (elements d !! (n mod size d)%nat) as [x|] eqn:Hx.
  - exists x. split; [done|]. apply elem_of_elements. by eapply list_elem_of_lookup_2.
  - apply lookup_ge_None in Hx. change (length (elements d)) with (size d) in Hx.
    assert (size d <> 0%nat) by (by intros H0%size_empty_inv; apply Hd; apply leibniz_equiv).
    pose proof (Nat.mod_upper_bound n (size d)). lia.
Qed.

(** The replies to a request, oldest first. *)
Definition ask (w : world) (proc : cmd unit) (args : list sds) : world * list reply :=
  match fn proc (mkWorld (srv w) (mkClient args None false false [])) with
  | Done _ w => (w, reverse (replies (cli w)))
  | _ => (w, [])
  end.

Open Scope string_scope.
Definition two_sets : world :=
  let w := (ask (start_world 2 0) saddCommand ["sadd"; "s"; "1"; "2"; "x"; "2"]).1 in
  (ask w saddCommand ["sadd"; "t"; "2"; "3"]).1.

Example set_commands_ex :
  (ask two_sets scardCommand ["scard"; "s"]).2 = [R_longlong 3] /\
  (ask two_sets sinterCommand ["sinter"; "s"; "t"; "s"]).2 = [R_multibulklen 1; R_bulk "2"] /\
  (ask two_sets sdiffCommand ["sdiff"; "t"; "s"; "none"]).2 = [R_multibulklen 1; R_bulk "3"] /\
  (ask two_sets sdiffCommand ["sdiff"; "t"; "t"]).2 = [R_multibulklen 0] /\
  (ask two_sets sunionstoreCommand ["sunionstore"; "t"; "s"; "t"]).2 = [R_longlong 4] /\
  (ask two_sets smoveCommand ["smove"; "t"; "s"; "3"]).2 = [R_cone] /\
  (ask two_sets spopCommand ["spop"; "t"; "1"]).2 = [R_multibulklen 1; R_bulk "2"] /\
  (ask two_sets spopCommand ["spop"; "t"]).2 = [R_bulk "2"] /\
  (ask two_sets (srandmemberCommand 5) ["srandmember"; "t"; "-3"]).2 = [R_multibulklen 3; R_bulk "2"; R_bulk "3"; R_bulk "2"] /\
  (ask two_sets sremCommand ["srem"; "t"; "2"; "7"; "3"]).2 = [R_longlong 2].
Proof. vm_compute. repeat split. Qed.
Close Scope string_scope.
