(* ===== verification/SetClient.v ===== *)
(** * What the set commands do ([t_set.c])

    Each command on keys that hold a set or nothing: the reply, the new contents
    as a finite set, and that nothing else changes. *)
From Stdlib Require Import ZArith Lia Ascii String.
From stdpp Require Import base numbers strings gmap sets list.
From S2P Require Import Prelude Sds Intset SetType Server Container RWSet RWSetStore SetCommands.
Open Scope Z_scope.

(** ** Sizes *)

Lemma size_add (x : sds) (X : gset sds) :
  Z.of_nat (size ({[x]} ∪ X)) = Z.of_nat (size X) + (if bool_decide (x ∉ X) then 1 else 0).
Proof.
  case_bool_decide as Hx.
  - rewrite size_union by set_solver. rewrite size_singleton. lia.
  - replace ({[x]} ∪ X) with X by set_solver. lia.
Qed.

Lemma size_remove (x : sds) (X : gset sds) :
  Z.of_nat (size X) = Z.of_nat (size (X ∖ {[x]})) + (if bool_decide (x ∈ X) then 1 else 0).
Proof.
  case_bool_decide as Hx.
  - rewrite (union_difference_L {[x]} X) at 1 by set_solver. rewrite size_union by set_solver.
    rewrite size_singleton. lia.
  - replace (X ∖ {[x]}) with X by set_solver. lia.
Qed.

Section Client.
Context `{DictOrder, Qsort, RandomChoice}.
Context (w : world) (Hrep : is_replica (cli w) = false) (Hmax : world_max_ok w).
Implicit Types (d : gmap sds robj) (so : setobj) (rs : list reply) (n : Z) (key x : sds).

Definition good so : Prop := set_ok (set_max_intset_entries (srv w)) so.

(** ** Steps *)

Lemma read_set_after key so d rs n :
  d !! key = Some (OSet so) -> read_set key (after w d rs n) = Done so (after w d rs n).
Proof. intros Hk. unfold read_set. cbn. by rewrite Hk. Qed.

Lemma write_set_after key so d rs n :
  write_set key so (after w d rs n) = Done tt (after w (<[key := OSet so]> d) rs n).
Proof. done. Qed.

Lemma set_add_after key so x d rs n :
  d !! key = Some (OSet so) -> good so ->
  exists so', set_add key x (after w d rs n) =
      Done (bool_decide (x ∉ set_members so)) (after w (<[key := OSet so']> d) rs n) /\
    good so' /\ set_members so' = {[x]} ∪ set_members so.
Proof.
  intros Hk Hok. destruct (setTypeAdd_spec _ so x Hmax Hok) as (so' & Hadd & Hok' & Hmem). exists so'.
  split; [|done]. unfold set_add. step_with (read_set_after key so d rs n Hk).
  unfold bind, gets. cbn [srv after add_dirty set_client set_db set_max_intset_entries]. by rewrite Hadd.
Qed.

Lemma set_remove_after key so x d rs n :
  d !! key = Some (OSet so) -> good so ->
  exists so', set_remove key x (after w d rs n) =
      Done (bool_decide (x ∈ set_members so)) (after w (<[key := OSet so']> d) rs n) /\
    good so' /\ set_members so' = set_members so ∖ {[x]}.
Proof.
  intros Hk Hok. destruct (setTypeRemove_spec _ so x Hok) as (Hok' & Hmem & Hb). exists (setTypeRemove so x).1.
  split; [|done]. unfold set_remove. step_with (read_set_after key so d rs n Hk).
  rewrite <- Hb. done.
Qed.

Lemma dbDelete_after key d rs n :
  dbDelete key (after w d rs n) = Done (bool_decide (is_Some (d !! key))) (after w (base.delete key d) rs n).
Proof. done. Qed.

Lemma dbAdd_after key o d rs n :
  d !! key = None -> dbAdd key o (after w d rs n) = Done tt (after w (<[key := o]> d) rs n).
Proof. intros Hk. by rewrite dbAdd_done. Qed.

Lemma inc_dirty_after d rs n : modify inc_dirty (after w d rs n) = Done tt (after w d rs (n + 1)).
Proof. apply (dirty_after w d rs n 1). Qed.

Lemma args_from_after i d rs n : args_from i (after w d rs n) = Done (drop i (argv (cli w))) (after w d rs n).
Proof. done. Qed.

Lemma size_zero so : good so -> Nat.eqb (setTypeSize so) 0 = bool_decide (set_members so = ∅).
Proof.
  intros Hok. rewrite (setTypeSize_spec _ _ Hok). destruct (Nat.eqb_spec (size (set_members so)) 0) as [Hz|Hz]; symmetry.
  - apply bool_decide_true. apply leibniz_equiv. by apply size_empty_inv.
  - apply bool_decide_false. intros He. by rewrite He in Hz.
Qed.

(** A key that holds a set. *)
Definition holds key so : Prop := db (srv w) !! key = Some (OSet so) /\ good so.

Lemma holds_visible key so : holds key so -> visible w key = set_members so.
Proof. intros [Hk _]. unfold visible. by rewrite Hk. Qed.

Lemma the_set_there key so r name args :
  argv (cli w) = name :: key :: args -> holds key so -> the_set r w = Done key w.
Proof.
  intros Ha [Hk _]. unfold the_set. step_with (arg_start w 1 key ltac:(by rewrite Ha)).
  unfold lookupKeyReadOrReply, lookupKeyRead, bind, lookupKey, gets. by rewrite Hk.
Qed.

Lemma the_set_missing key r name args :
  argv (cli w) = name :: key :: args -> db (srv w) !! key = None ->
  the_set r w = Return (after w (db (srv w)) [r] 0).
Proof.
  intros Ha Hk. unfold the_set. step_with (arg_start w 1 key ltac:(by rewrite Ha)).
  unfold lookupKeyReadOrReply, lookupKeyRead, bind, lookupKey, gets. rewrite Hk.
  by rewrite (addReply_start w r Hrep).
Qed.

(** ** [sadd] *)

Lemma sadd_loop_spec key args so d rs n added :
  good so -> d !! key = Some (OSet so) ->
  exists so', fold_each args added (fun added a => b <- set_add key a ;; ret (if b then added + 1 else added))
      (after w d rs n) =
    Done (added + (Z.of_nat (size (set_members so')) - Z.of_nat (size (set_members so))))
      (after w (<[key := OSet so']> d) rs n) /\
    good so' /\ set_members so' = list_to_set args ∪ set_members so.
Proof.
  revert so d added. induction args as [|a args IH]; intros so d added Hok Hk; cbn [fold_each].
  - exists so. rewrite insert_id by done. split; [unfold ret; f_equal; lia|]. split; [done|set_solver].
  - destruct (set_add_after key so a d rs n Hk Hok) as (so1 & Hadd & Hok1 & Hm1). rewrite bind_assoc.
    step_with Hadd. rewrite (bind_done _ _ _ _ _ eq_refl : bind (ret _) _ _ = _). cbv beta.
    destruct (IH so1 (<[key := OSet so1]> d)
      (if bool_decide (a ∉ set_members so) then added + 1 else added)) as (so2 & Hl & Hok2 & Hm2);
      [done|by rewrite lookup_insert_eq|].
    exists so2. split_and!; [|done|set_solver]. rewrite Hl, insert_insert_eq. f_equal.
    pose proof (size_add a (set_members so)) as Hs. rewrite <- Hm1 in Hs. case_bool_decide; lia.
Qed.

Lemma sadd_spec name key x xs :
  argv (cli w) = name :: key :: x :: xs -> set_key w key ->
  exists so, good so /\ set_members so = list_to_set (x :: xs) ∪ visible w key /\
    let n := Z.of_nat (size (set_members so)) - Z.of_nat (size (visible w key)) in
    saddCommand w = Done tt (after w (<[key := OSet so]> (db (srv w))) [R_longlong n] n).
Proof.
  intros Ha Hk. unfold saddCommand. step_with (arg_start w 1 key ltac:(by rewrite Ha)).
  step_with (lookupKey_done key w : lookupKeyWrite key w = _).
  assert (exists so0, good so0 /\ set_members so0 = visible w key /\
    (match db (srv w) !! key with
     | None => v <- arg 2 ;; dbAdd key (OSet (setTypeCreate v))
     | Some o => if is_set o then ret tt else addReply R_wrongtypeerr ;; creturn
     end) w = Done tt (after w (<[key := OSet so0]> (db (srv w))) [] 0)) as (so0 & Hok0 & Hm0 & Hpre).
  { destruct (set_key_lookup _ _ Hk) as [[Hn Hv]|(so & Hs & Hso & Hv)].
    - exists (setTypeCreate x). destruct (setTypeCreate_ok _ x Hmax) as [Hok He]. rewrite Hv, Hn.
      split_and!; [done|done|]. step_with (arg_start w 2 x ltac:(by rewrite Ha)).
      rewrite <- (after_start w) at 1. by apply dbAdd_after.
    - exists so. rewrite Hs, Hv. split_and!; [done|done|]. by rewrite insert_id, after_start. }
  step_with Hpre. step_with (args_from_after 2 (<[key := OSet so0]> (db (srv w))) [] 0).
  rewrite Ha, !skipn_cons, drop_0.
  destruct (sadd_loop_spec key (x :: xs) so0 (<[key := OSet so0]> (db (srv w))) [] 0 0 Hok0)
    as (so & Hl & Hok & Hm); [by rewrite lookup_insert_eq|].
  step_with (Hl : sadd_loop key (x :: xs) _ = _). exists so. split; [done|]. rewrite Hm0 in *. split; [done|].
  step_with (dirty_after _ _ _ _ _ : modify (add_dirty _) _ = _). rewrite insert_insert_eq.
  by rewrite addReply_after.
Qed.

(** ** [srem] *)

Lemma srem_loop_spec key args so d rs n deleted :
  good so -> d !! key = Some (OSet so) ->
  let X := set_members so ∖ list_to_set args in
  exists so', srem_loop args key deleted (after w d rs n) =
    Done (deleted + (Z.of_nat (size (set_members so)) - Z.of_nat (size X)))
      (after w (if decide (X = ∅ /\ set_members so <> ∅) then base.delete key d else <[key := OSet so']> d) rs n) /\
    good so' /\ set_members so' = X.
Proof.
  revert so d deleted. induction args as [|a args IH]; intros so d deleted Hok Hk X; subst X; cbn [srem_loop].
  - exists so. replace (set_members so ∖ list_to_set []) with (set_members so) by set_solver.
    rewrite decide_False by tauto. rewrite insert_id by done. split; [unfold ret; f_equal; lia|]. done.
  - destruct (set_remove_after key so a d rs n Hk Hok) as (so1 & Hrem & Hok1 & Hm1). step_with Hrem.
    assert (<[key := OSet so1]> d !! key = Some (OSet so1)) as Hk1 by apply lookup_insert_eq.
    assert (set_members so ∖ list_to_set (a :: args) = set_members so1 ∖ list_to_set args) as ->
      by (rewrite Hm1; set_solver).
    pose proof (size_remove a (set_members so)) as Hs. rewrite <- Hm1 in Hs.
    destruct (IH so1 (<[key := OSet so1]> d)
      (if bool_decide (a ∈ set_members so) then deleted + 1 else deleted) Hok1 Hk1) as (so2 & Hl & Hok2 & Hm2).
    rewrite delete_insert_eq, insert_insert_eq in Hl. case_bool_decide as Ha.
    + step_with (read_set_after _ _ _ rs n Hk1). rewrite (size_zero so1 Hok1).
      case_bool_decide as He.
      * exists so1. replace (set_members so1 ∖ list_to_set args) with (set_members so1) by set_solver.
        rewrite decide_True by set_solver. split; [|done].
        step_with (dbDelete_after key (<[key := OSet so1]> d) rs n). rewrite delete_insert_eq. unfold ret. f_equal. lia.
      * exists so2. split; [|done]. rewrite Hl. f_equal; [lia|]. f_equal.
        destruct (decide (_ /\ set_members so1 <> ∅)), (decide (_ /\ set_members so <> ∅)); set_solver.
    + assert (set_members so1 = set_members so) as Heq by set_solver. rewrite Heq in *.
      exists so2. split; [|done]. by rewrite Hl.
Qed.

Lemma srem_spec name key xs so :
  argv (cli w) = name :: key :: xs -> holds key so ->
  let X := visible w key ∖ list_to_set xs in
  let n := Z.of_nat (size (visible w key)) - Z.of_nat (size X) in
  exists so', good so' /\ set_members so' = X /\
    sremCommand w = Done tt (after w
      (if decide (X = ∅ /\ visible w key <> ∅) then base.delete key (db (srv w)) else <[key := OSet so']> (db (srv w)))
      [R_longlong n] n).
Proof.
  intros Ha Hh X n. pose proof (holds_visible _ _ Hh) as Hv. unfold sremCommand. step_with (the_set_there key so R_czero _ _ Ha Hh).
  rewrite (bind_done _ _ _ xs w) by (unfold args_from, gets; by rewrite Ha). destruct Hh as [Hk Hok].
  destruct (srem_loop_spec key xs so (db (srv w)) [] 0 0 Hok Hk) as (so' & Hl & Hok' & Hm').
  rewrite <- Hv in Hl, Hm'. rewrite after_start in Hl. fold X n in Hl. rewrite Z.add_0_l in Hl. exists so'. split_and!; [done|done|]. step_with Hl.
  generalize (if decide (X = ∅ /\ visible w key <> ∅) then base.delete key (db (srv w)) else <[key := OSet so']> (db (srv w))).
  intros d. destruct (Z.eqb_spec n 0) as [->|Hn]; cbn [negb].
  - rewrite (bind_done _ _ _ tt (after w d [] 0)) by done. by apply addReply_after.
  - step_with (dirty_after w d [] 0 n). by apply addReply_after.
Qed.

(** ** [sismember], [scard] *)

Lemma sismember_spec name key x so :
  argv (cli w) = [name; key; x] -> holds key so ->
  sismemberCommand w =
    Done tt (after w (db (srv w)) [if bool_decide (x ∈ visible w key) then R_cone else R_czero] 0).
Proof.
  intros Ha Hh. unfold sismemberCommand. step_with (the_set_there key so R_czero _ _ Ha Hh).
  step_with (arg_start w 2 x ltac:(by rewrite Ha)). rewrite (holds_visible _ _ Hh). destruct Hh as [Hk Hok].
  rewrite (bind_done _ _ _ so w) by (unfold read_set; by rewrite Hk).
  rewrite (setTypeIsMember_spec _ _ _ Hok). by apply addReply_start.
Qed.

Lemma scard_spec name key so :
  argv (cli w) = [name; key] -> holds key so ->
  scardCommand w = Done tt (after w (db (srv w)) [R_longlong (Z.of_nat (size (visible w key)))] 0).
Proof.
  intros Ha Hh. unfold scardCommand. step_with (the_set_there key so R_czero _ _ Ha Hh).
  rewrite (holds_visible _ _ Hh). destruct Hh as [Hk Hok].
  rewrite (bind_done _ _ _ so w) by (unfold read_set; by rewrite Hk).
  rewrite (setTypeSize_spec _ _ Hok). by apply addReply_start.
Qed.

(** ** [smove] *)

Lemma smove_same name key x so :
  argv (cli w) = [name; key; key; x] -> holds key so ->
  smoveCommand w =
    Return (after w (db (srv w)) [if bool_decide (x ∈ visible w key) then R_cone else R_czero] 0).
Proof.
  intros Ha Hh. rewrite (holds_visible _ _ Hh). destruct Hh as [Hk Hok]. unfold smoveCommand.
  step_with (arg_start w 1 key ltac:(by rewrite Ha)). step_with (lookupKey_done key w : lookupKeyWrite key w = _).
  step_with (arg_start w 2 key ltac:(by rewrite Ha)). step_with (lookupKey_done key w : lookupKeyWrite key w = _).
  step_with (arg_start w 3 x ltac:(by rewrite Ha)). rewrite Hk.
  rewrite (bind_done _ _ _ false w) by done. rewrite (bind_done _ _ _ false w) by done.
  rewrite bool_decide_true by done. rewrite (bind_done _ _ _ so w) by (unfold read_set; by rewrite Hk).
  rewrite (setTypeIsMember_spec _ _ _ Hok). by step_with (addReply_start w _ Hrep).
Qed.

(** The key space once the set under [key] has become [so]. *)
Definition put_or_drop key so d : gmap sds robj :=
  if decide (set_members so = ∅) then base.delete key d else <[key := OSet so]> d.

Lemma put_or_drop_ne key key' so d : key <> key' -> put_or_drop key so d !! key' = d !! key'.
Proof.
  intros Hne. unfold put_or_drop. destruct (decide (set_members so = ∅)); [by apply lookup_delete_ne|by apply lookup_insert_ne].
Qed.

Lemma drop_empty key so d1 d rs n :
  good so -> d1 = <[key := OSet so]> d ->
  (when Nat.eqb (setTypeSize so) 0 do (dbDelete key ;; ret tt)) (after w d1 rs n) = Done tt (after w (put_or_drop key so d) rs n).
Proof.
  intros Hok ->. rewrite (size_zero so Hok). unfold put_or_drop. destruct (decide (set_members so = ∅)).
  - rewrite bool_decide_true by done. step_with (dbDelete_after key (<[key := OSet so]> d) rs n). by rewrite delete_insert_eq.
  - by rewrite bool_decide_false.
Qed.

(** The destination object: the one that is there, or a new one. *)
Lemma smove_dest dst x d rs n :
  (d !! dst = None /\ visible w dst = ∅ \/ exists so, d !! dst = Some (OSet so) /\ good so /\ visible w dst = set_members so) ->
  exists so, good so /\ set_members so = visible w dst /\
    (match d !! dst with None => dbAdd dst (OSet (setTypeCreate x)) | Some _ => ret tt end) (after w d rs n) =
      Done tt (after w (<[dst := OSet so]> d) rs n).
Proof.
  intros [[Hn Hv]|(so & Hs & Hok & Hv)].
  - exists (setTypeCreate x). destruct (setTypeCreate_ok _ x Hmax) as [Hok He]. rewrite Hn, Hv.
    split_and!; [done|done|]. by apply dbAdd_after.
  - exists so. rewrite Hs, insert_id by done. by rewrite Hv.
Qed.

Lemma smove_spec name src dst x so :
  argv (cli w) = [name; src; dst; x] -> holds src so -> src <> dst -> set_key w dst ->
  exists so1, good so1 /\ set_members so1 = visible w src ∖ {[x]} /\
    if decide (x ∈ visible w src) then
      exists so2, good so2 /\ set_members so2 = {[x]} ∪ visible w dst /\
        smoveCommand w = Done tt (after w (<[dst := OSet so2]> (put_or_drop src so1 (db (srv w)))) [R_cone]
          (if bool_decide (x ∉ visible w dst) then 2 else 1))
    else smoveCommand w = Return (after w (<[src := OSet so1]> (db (srv w))) [R_czero] 0).
Proof.
  intros Ha Hh Hne Hd. rewrite (holds_visible _ _ Hh). destruct Hh as [Hk Hok]. unfold smoveCommand.
  step_with (arg_start w 1 src ltac:(by rewrite Ha)). step_with (lookupKey_done src w : lookupKeyWrite src w = _).
  step_with (arg_start w 2 dst ltac:(by rewrite Ha)). step_with (lookupKey_done dst w : lookupKeyWrite dst w = _).
  step_with (arg_start w 3 x ltac:(by rewrite Ha)). rewrite Hk.
  rewrite (bind_done _ _ _ false w) by done.
  rewrite (bind_done _ _ _ false w) by (destruct (set_key_lookup _ _ Hd) as [[-> _]|(so' & -> & _)]; done).
  rewrite bool_decide_false by done.
  destruct (set_remove_after src so x (db (srv w)) [] 0 Hk Hok) as (so1 & Hrem & Hok1 & Hm1).
  rewrite after_start in Hrem. exists so1. split_and!; [done|done|].
  set (d1 := <[src := OSet so1]> (db (srv w))) in *.
  assert (d1 !! src = Some (OSet so1)) as Hk1 by apply lookup_insert_eq.
  destruct (decide (x ∈ set_members so)) as [Hx|Hx].
  - set (d2 := put_or_drop src so1 (db (srv w))).
    pose proof (drop_empty src so1 d1 (db (srv w)) [] 0 Hok1 eq_refl) as Hdrop. fold d2 in Hdrop.
    assert (d2 !! dst = db (srv w) !! dst) as Hdst by by apply put_or_drop_ne.
    destruct (smove_dest dst x d2 [] 0) as (so0 & Hok0 & Hm0 & Hdest).
    { rewrite Hdst. by apply set_key_lookup. }
    destruct (set_add_after dst so0 x (<[dst := OSet so0]> d2) [] 1) as (so2 & Hadd & Hok2 & Hm2);
      [apply lookup_insert_eq|done|].
    rewrite insert_insert_eq, Hm0 in *. exists so2. split_and!; [done|done|].
    step_with Hrem. rewrite bool_decide_true by done. cbn [negb].
    step_with (read_set_after src so1 d1 [] 0 Hk1). step_with Hdrop. rewrite <- Hdst. step_with Hdest.
    step_with (inc_dirty_after (<[dst := OSet so0]> d2) [] 0). step_with Hadd.
    case_bool_decide.
    + step_with (inc_dirty_after (<[dst := OSet so2]> d2) [] 1). by apply addReply_after.
    + rewrite (bind_done _ _ _ tt (after w (<[dst := OSet so2]> d2) [] 1)) by done. by apply addReply_after.
  - step_with Hrem. rewrite bool_decide_false by done. cbn [negb]. by step_with (addReply_after w d1 [] 0 R_czero Hrep).
Qed.

(** ** Refusals

    A request that only sends the reply [r]. *)
Definition only_replies r (p : cmd unit) : Prop := p w = Return (after w (db (srv w)) [r] 0).

Lemma stopped {A} (m : cmd A) f w' : m w = Return w' -> bind m f w = Return (A := unit) w'.
Proof. unfold bind. by intros ->. Qed.

Lemma missing_set name key args :
  argv (cli w) = name :: key :: args -> db (srv w) !! key = None ->
  only_replies R_czero sremCommand /\ only_replies R_czero sismemberCommand /\ only_replies R_czero scardCommand /\
  forall dst x, args = [dst; x] -> only_replies R_czero smoveCommand.
Proof.
  intros Ha Hk. unfold only_replies, sremCommand, sismemberCommand, scardCommand.
  split_and!; try (apply stopped; by eapply the_set_missing). intros dst x ->. unfold smoveCommand.
  step_with (arg_start w 1 key ltac:(by rewrite Ha)). step_with (lookupKey_done key w : lookupKeyWrite key w = _).
  step_with (arg_start w 2 dst ltac:(by rewrite Ha)). step_with (lookupKey_done dst w : lookupKeyWrite dst w = _).
  step_with (arg_start w 3 x ltac:(by rewrite Ha)). rewrite Hk. by step_with (addReply_start w R_czero Hrep).
Qed.

Lemma checkType_wrong o : is_set o = false -> checkType_set o w = Done true (after w (db (srv w)) [R_wrongtypeerr] 0).
Proof. intros Ho. unfold checkType_set. rewrite Ho. by step_with (addReply_start w R_wrongtypeerr Hrep). Qed.

Lemma the_set_wrong key o r name args :
  argv (cli w) = name :: key :: args -> db (srv w) !! key = Some o -> is_set o = false ->
  the_set r w = Return (after w (db (srv w)) [R_wrongtypeerr] 0).
Proof.
  intros Ha Hk Ho. unfold the_set. step_with (arg_start w 1 key ltac:(by rewrite Ha)).
  rewrite (bind_done _ _ _ (Some o) w) by (unfold lookupKeyReadOrReply, lookupKeyRead, bind, lookupKey, gets; by rewrite Hk).
  by step_with (checkType_wrong o Ho).
Qed.

Lemma wrong_set name key args o :
  argv (cli w) = name :: key :: args -> db (srv w) !! key = Some o -> is_set o = false ->
  only_replies R_wrongtypeerr saddCommand /\ only_replies R_wrongtypeerr sremCommand /\
  only_replies R_wrongtypeerr sismemberCommand /\ only_replies R_wrongtypeerr scardCommand /\
  forall dst x, args = [dst; x] -> only_replies R_wrongtypeerr smoveCommand.
Proof.
  intros Ha Hk Ho. unfold only_replies, sremCommand, sismemberCommand, scardCommand.
  split_and!; try (apply stopped; by eapply the_set_wrong).
  - unfold saddCommand. step_with (arg_start w 1 key ltac:(by rewrite Ha)). step_with (lookupKey_done key w : lookupKeyWrite key w = _).
    rewrite Hk, Ho. apply stopped. by step_with (addReply_start w R_wrongtypeerr Hrep).
  - intros dst x ->. unfold smoveCommand.
    step_with (arg_start w 1 key ltac:(by rewrite Ha)). step_with (lookupKey_done key w : lookupKeyWrite key w = _).
    step_with (arg_start w 2 dst ltac:(by rewrite Ha)). step_with (lookupKey_done dst w : lookupKeyWrite dst w = _).
    step_with (arg_start w 3 x ltac:(by rewrite Ha)). rewrite Hk. by step_with (checkType_wrong o Ho).
Qed.

(** The destination of a move holds something else. *)
Lemma wrong_destination name key dst x so o :
  argv (cli w) = [name; key; dst; x] -> holds key so -> db (srv w) !! dst = Some o -> is_set o = false ->
  only_replies R_wrongtypeerr smoveCommand.
Proof.
  intros Ha [Hk _] Hd Ho. unfold only_replies, smoveCommand.
  step_with (arg_start w 1 key ltac:(by rewrite Ha)). step_with (lookupKey_done key w : lookupKeyWrite key w = _).
  step_with (arg_start w 2 dst ltac:(by rewrite Ha)). step_with (lookupKey_done dst w : lookupKeyWrite dst w = _).
  step_with (arg_start w 3 x ltac:(by rewrite Ha)). rewrite Hk, Hd.
  rewrite (bind_done _ _ _ false w) by done. by step_with (checkType_wrong o Ho).
Qed.
End Client.
