(* ===== verification/SetAlgebra.v ===== *)
(** * Intersection, union and difference of sets ([t_set.c])

    [sinterGenericCommand] and [sunionDiffGenericCommand] compute the set
    operations, whatever [qsort] does with sets of equal size and whichever of
    the two algorithms for the difference is chosen. *)
From Stdlib Require Import ZArith Lia Ascii String.
From stdpp Require Import base numbers strings gmap sets list.
From S2P Require Import Prelude Sds Intset SetType Server Container RWSet RWSetStore SetCommands SetClient.
Open Scope Z_scope.

(** ** Lists and loops *)

Lemma filter_ext_elem {A} (p q : A -> bool) (l : list A) : (forall x, x ∈ l -> p x = q x) -> filter p l = filter q l.
Proof.
  induction l as [|x l IH]; intros Hpq; [done|]. rewrite !filter_cons, (Hpq x) by set_solver.
  rewrite IH by set_solver. done.
Qed.

Lemma filter_map {A B} (f : A -> B) (p : B -> bool) (l : list A) : f <$> filter (p ∘ f) l = filter p (f <$> l).
Proof.
  induction l as [|x l IH]; [done|]. cbn [fmap list_fmap]. rewrite !filter_cons. cbn. case_decide; cbn; [f_equal|]; apply IH.
Qed.

Lemma fold_each_fmap {S A B C} (f : A -> B) (l : list A) (acc : C) (body : C -> B -> M S C) s :
  fold_each (f <$> l) acc body s = fold_each l acc (fun acc x => body acc (f x)) s.
Proof.
  revert acc s. induction l as [|x l IH]; intros acc s; [done|]. cbn [fold_each fmap list_fmap]. unfold bind.
  destruct (body acc (f x) s); [apply IH|done..].
Qed.

Lemma for_each_fmap {S A B} (f : A -> B) (l : list A) (body : B -> M S unit) s :
  for_each (f <$> l) body s = for_each l (fun x => body (f x)) s.
Proof.
  revert s. induction l as [|x l IH]; intros s; [done|]. cbn [for_each fmap list_fmap]. unfold bind.
  destruct (body (f x) s); [apply IH|done..].
Qed.

Lemma fold_each_ext {S A C} (l : list A) (acc : C) (body body' : C -> A -> M S C) s :
  (forall acc x s, x ∈ l -> body acc x s = body' acc x s) -> fold_each l acc body s = fold_each l acc body' s.
Proof.
  revert acc s. induction l as [|x l IH]; intros acc s Hb; [done|]. cbn [fold_each]. unfold bind.
  rewrite Hb by left. destruct (body' acc x s); [|done..]. apply IH. intros; apply Hb. by right.
Qed.

Section Algebra.
Context `{DictOrder, Qsort, RandomChoice}.
Context (w : world) (Hrep : is_replica (cli w) = false) (Hmax : world_max_ok w).
Implicit Types (d : gmap sds robj) (so dst : setobj) (rs : list reply) (n : Z) (key x : sds).

(** ** Storing and replying *)

(** The reply of a store command. *)
Definition stored_reply so : reply :=
  if decide (set_members so = ∅) then R_czero else R_longlong (Z.of_nat (size (set_members so))).

Lemma store_result_spec key so :
  good w so -> store_result key so w = Done tt (after w (put_or_drop key so (db (srv w))) [stored_reply so] 1).
Proof.
  intros Hok. pose proof (dbDelete_after w key (db (srv w)) [] 0) as Hdel. rewrite after_start in Hdel.
  unfold store_result. step_with Hdel. unfold put_or_drop, stored_reply.
  assert (Nat.ltb 0 (setTypeSize so) = negb (bool_decide (set_members so = ∅))) as ->.
  { rewrite <- (size_zero w so Hok). by destruct (setTypeSize so). }
  destruct (decide (set_members so = ∅)).
  - rewrite bool_decide_true by done. cbn [negb].
    step_with (addReply_after w (base.delete key (db (srv w))) [] 0 R_czero Hrep). apply inc_dirty_after.
  - rewrite bool_decide_false by done. cbn [negb]. rewrite bind_assoc.
    step_with (dbAdd_after w key (OSet so) (base.delete key (db (srv w))) [] 0 (lookup_delete_eq _ _)).
    rewrite insert_delete_eq, (setTypeSize_spec _ _ Hok).
    step_with (addReply_after w (<[key := OSet so]> (db (srv w))) [] 0 _ Hrep). apply inc_dirty_after.
Qed.

(** Replying with the elements of a list. *)
Lemma reply_list (l : list sds) d rs n :
  for_each l (fun x => addReply (R_bulk x)) (after w d rs n) = Done tt (after w d (reverse (R_bulk <$> l) ++ rs) n).
Proof.
  revert rs. induction l as [|x l IH]; intros rs; cbn [for_each]; [done|].
  step_with (addReply_after w d rs n (R_bulk x) Hrep). rewrite IH. do 2 f_equal.
  cbn [fmap list_fmap]. rewrite reverse_cons. by rewrite <- app_assoc.
Qed.

(** The multi bulk reply with these elements, newest first. *)
Definition members_reply (l : list sds) : list reply :=
  reverse (R_multibulklen (Z.of_nat (length l)) :: (R_bulk <$> l)).

(** ** Intersection *)

Definition ptrs (keys : list sds) (sos : list setobj) : list setptr := zip keys sos.

Lemma sinter_lookup_all dstkey keys sos :
  Forall2 (holds w) keys sos -> sinter_lookup dstkey keys w = Done (ptrs keys sos) w.
Proof.
  induction 1 as [|k so keys sos [Hk Hok] _ IH]; [done|]. cbn [sinter_lookup].
  step_with (lookupKey_done k w). rewrite Hk. rewrite (bind_done _ _ _ false w) by done.
  rewrite (bind_done _ _ _ so w) by done. by step_with IH.
Qed.

(** The command stops at the first missing key. *)
Lemma sinter_lookup_missing dstkey keys sos k more :
  Forall2 (holds w) keys sos -> db (srv w) !! k = None ->
  sinter_lookup dstkey (keys ++ k :: more) w =
    Return (match dstkey with
      | None => after w (db (srv w)) [R_emptymultibulk] 0
      | Some key => after w (base.delete key (db (srv w))) [R_czero]
          (if decide (is_Some (db (srv w) !! key)) then 1 else 0)
      end).
Proof.
  intros Hks Hk. induction Hks as [|k1 so keys sos [Hk1 Hok] _ IH]; cbn [app sinter_lookup].
  - step_with (lookupKey_done k w). rewrite Hk. destruct dstkey as [key|]; [|by step_with (addReply_start w R_emptymultibulk Hrep)].
    rewrite (bind_done _ _ _ tt (after w (base.delete key (db (srv w))) [R_czero]
      (if decide (is_Some (db (srv w) !! key)) then 1 else 0))); [done|].
    pose proof (dbDelete_after w key (db (srv w)) [] 0) as Hdel. rewrite after_start in Hdel. step_with Hdel.
    destruct (decide (is_Some (db (srv w) !! key))); [rewrite bool_decide_true by done|rewrite bool_decide_false by done].
    + step_with (inc_dirty_after w (base.delete key (db (srv w))) [] 0). by apply addReply_after.
    + rewrite (bind_done _ _ _ tt (after w (base.delete key (db (srv w))) [] 0)) by done. by apply addReply_after.
  - step_with (lookupKey_done k1 w). rewrite Hk1. rewrite (bind_done _ _ _ false w) by done.
    rewrite (bind_done _ _ _ so w) by done. by rewrite (bind_return _ _ _ _ IH).
Qed.

Lemma in_all_true ks x : in_all w ks x = true <-> forall k, k ∈ ks -> x ∈ visible w k.
Proof.
  unfold in_all. rewrite forallb_forall. split.
  - intros Hall k Hk. apply list_elem_of_In, Hall, bool_decide_eq_true in Hk. done.
  - intros Hall k Hk. apply bool_decide_eq_true, Hall. by apply list_elem_of_In.
Qed.

Lemma sinter_test_spec first others e :
  Forall (fun s => holds w s.1 s.2) others -> selem_ok e -> selem_sds e ∈ visible w first ->
  sinter_test first others e = in_all w others.*1 (selem_sds e).
Proof.
  intros Ho He Hf. induction Ho as [|[k so] others Hh _ IH]; [done|]. cbn [fst snd] in Hh. cbn [sinter_test fmap list_fmap fst in_all forallb].
  case_bool_decide as Heq.
  - rewrite Heq, bool_decide_true by done. cbn [andb]. apply IH.
  - pose proof (holds_visible w k so Hh) as ->. destruct Hh as [_ Hok]. rewrite (inter_found _ _ _ Hok He).
    case_bool_decide; cbn [andb]; [apply IH|done].
Qed.

(** The objects as [qsort] leaves them: the first one, and the test of its
    elements against the others. *)
Lemma inter_sorted k1 ks sos :
  Forall2 (holds w) (k1 :: ks) sos ->
  exists first so others, qsort qsortCompareSetsByCardinality (ptrs (k1 :: ks) sos) = (first, so) :: others /\
    holds w first so /\
    (forall e, e ∈ set_elems so -> sinter_test first others e = in_all w (k1 :: ks) (selem_sds e)) /\
    filter (in_all w (k1 :: ks)) (visible w first) = inter_of w k1 ks.
Proof.
  intros Hh. pose proof (qsort_perm qsortCompareSetsByCardinality (ptrs (k1 :: ks) sos)) as Hp.
  destruct (qsort _ _) as [|[first so] others]; [inversion Hh; subst; by apply Permutation_nil_cons in Hp|].
  assert (Forall (fun s => holds w s.1 s.2) ((first, so) :: others)) as [Hf Ho]%Forall_cons.
  { rewrite Hp. unfold ptrs. clear Hp. induction Hh; cbn; constructor; done. }
  assert (first :: others.*1 ≡ₚ k1 :: ks) as Hk.
  { change (first :: others.*1) with (((first, so) :: others).*1). rewrite Hp. unfold ptrs. rewrite fst_zip; [done|].
    by rewrite (Forall2_length _ _ _ Hh). }
  exists first, so, others. split_and!; [done|done| |].
  - intros e He. pose proof (holds_visible w first so Hf) as Hv. destruct Hf as [Hdb Hok].
    assert (selem_sds e ∈ visible w first) as Hin.
    { rewrite Hv, <- (elem_of_set_list _ _ _ Hok). by apply list_elem_of_fmap_2. }
    pose proof (set_elems_ok _ _ Hok) as Hse. rewrite Forall_forall in Hse.
    rewrite (sinter_test_spec first others e Ho (Hse e He) Hin). apply eq_true_iff_eq.
    rewrite !in_all_true. setoid_rewrite <- Hk. set_solver.
  - apply set_eq. intros x. unfold inter_of. rewrite !elem_of_filter.
    assert (forall b, Is_true b <-> b = true) as HT by (by intros []). rewrite !HT, !in_all_true.
    assert (forall k, k ∈ first :: others.*1 <-> k ∈ k1 :: ks) as Hk' by (intros k; by rewrite Hk). set_solver.
Qed.

Lemma inter_reply_loop (test : selem -> bool) elems d rs n card :
  fold_each elems card (fun card e => if test e then addReply (R_bulk (selem_sds e)) ;; ret (card + 1) else ret card) (after w d rs n) =
  Done (card + Z.of_nat (length (filter test elems)))
    (after w d (reverse (R_bulk <$> (selem_sds <$> filter test elems)) ++ rs) n).
Proof.
  revert card rs. induction elems as [|e elems IH]; intros card rs; cbn [fold_each].
  - cbn. by rewrite Z.add_0_r.
  - destruct (test e) eqn:Ht.
    + rewrite bind_assoc. step_with (addReply_after w d rs n (R_bulk (selem_sds e)) Hrep).
      rewrite (bind_done _ _ _ _ _ eq_refl : bind (ret _) _ _ = _). rewrite IH.
      rewrite filter_cons_True by (by rewrite Ht). cbn [length fmap list_fmap]. rewrite reverse_cons, <- app_assoc. f_equal. lia.
    + rewrite (bind_done _ _ _ _ _ eq_refl : bind (ret _) _ _ = _). rewrite IH.
      by rewrite filter_cons_False by (rewrite Ht; tauto).
Qed.

Lemma deferred_after d rs n m :
  setDeferredMultiBulkLength (Some (length (replies (cli w)))) m (after w d rs n) =
  Done tt (after w d (rs ++ [R_multibulklen m]) n).
Proof.
  unfold setDeferredMultiBulkLength, modify. f_equal. unfold after, set_client, set_db, add_dirty.
  cbn [srv cli replies argv rargv is_replica replica_message]. f_equal. f_equal.
  by rewrite length_app, Nat.add_sub, take_app_length, drop_app_length, <- app_assoc.
Qed.

Lemma sinter_spec k1 ks sos :
  Forall2 (holds w) (k1 :: ks) sos ->
  exists l, l ≡ₚ elements (inter_of w k1 ks) /\
    sinterGenericCommand (k1 :: ks) None w = Done tt (after w (db (srv w)) (members_reply l) 0).
Proof.
  intros Hh. unfold sinterGenericCommand. step_with (sinter_lookup_all None _ _ Hh).
  destruct (inter_sorted k1 ks sos Hh) as (first & so & others & -> & Hf & Htest & Hset).
  pose proof (holds_visible w first so Hf) as Hv. destruct Hf as [_ Hok].
  exists (filter (in_all w (k1 :: ks)) (set_list so)). split.
  - rewrite (set_list_perm _ _ Hok), <- Hset, Hv. apply NoDup_Permutation.
    + apply NoDup_filter, NoDup_elements.
    + apply NoDup_elements.
    + intros x. by rewrite elem_of_elements, elem_of_filter, list_elem_of_filter, elem_of_elements.
  - rewrite (bind_done _ _ _ (Some (length (replies (cli w)))) w) by (unfold addDeferredMultiBulkLength, gets, prepareClientToWrite; by rewrite Hrep).
    pose proof (inter_reply_loop (sinter_test first others) (set_elems so) (db (srv w)) [] 0 0) as Hl. rewrite after_start in Hl. step_with Hl.
    rewrite (filter_ext_elem _ (in_all w (k1 :: ks) ∘ selem_sds)) by (intros; by apply Htest).
    rewrite <- (length_fmap selem_sds), filter_map. fold (set_list so).
    rewrite deferred_after, app_nil_r. unfold members_reply. by rewrite reverse_cons.
Qed.

Lemma list_to_set_filter (p : sds -> bool) so :
  good w so -> list_to_set (filter p (set_list so)) = filter p (set_members so).
Proof.
  intros Hok. apply set_eq. intros x. rewrite elem_of_list_to_set, list_elem_of_filter, elem_of_filter.
  by rewrite (elem_of_set_list _ _ x Hok).
Qed.

Lemma sinterstore_spec key k1 ks sos :
  Forall2 (holds w) (k1 :: ks) sos ->
  exists so, good w so /\ set_members so = inter_of w k1 ks /\
    sinterGenericCommand (k1 :: ks) (Some key) w = Done tt (after w (put_or_drop key so (db (srv w))) [stored_reply so] 1).
Proof.
  intros Hh. unfold sinterGenericCommand. step_with (sinter_lookup_all (Some key) _ _ Hh).
  destruct (inter_sorted k1 ks sos Hh) as (first & so & others & -> & Hf & Htest & Hset).
  pose proof (holds_visible w first so Hf) as Hv. destruct Hf as [_ Hok].
  destruct (local_fold_spec w createIntsetObject (set_list so) (in_all w (k1 :: ks))
    (fun dst x => if in_all w (k1 :: ks) x then local_add dst x else ret dst)) as (dst & Hl & Hokd & Hm);
    [intros; by case_match|done|by apply createIntsetObject_ok|].
  exists dst. split; [done|]. split.
  - rewrite Hm, (list_to_set_filter _ _ Hok), <- Hv, Hset. set_solver.
  - rewrite (bind_done _ _ _ dst w); [by apply store_result_spec|]. rewrite <- Hl. unfold set_list.
    rewrite fold_each_fmap. apply fold_each_ext. intros acc e s He. by rewrite Htest.
Qed.

(** Whether a key is missing. *)
Definition missing_key (keys : list sds) : bool := existsb (fun k => bool_decide (db (srv w) !! k = None)) keys.

Lemma missing_split keys :
  Forall (set_key w) keys ->
  if missing_key keys then exists pre sos k post, keys = pre ++ k :: post /\ Forall2 (holds w) pre sos /\ db (srv w) !! k = None
  else exists sos, Forall2 (holds w) keys sos.
Proof.
  induction 1 as [|k keys Hk _ IH]; cbn [missing_key existsb]; [by exists []|]. fold (missing_key keys).
  destruct (set_key_lookup _ _ Hk) as [[Hn _]|(so & Hs & Hok & _)].
  - rewrite bool_decide_true by done. cbn [orb]. exists [], [], k, keys. by split_and!.
  - rewrite bool_decide_false by (by rewrite Hs). cbn [orb]. destruct (missing_key keys).
    + destruct IH as (pre & sos & k' & post & -> & Hpre & Hk'). exists (k :: pre), (so :: sos), k', post. split_and!; [done| |done]. by constructor.
    + destruct IH as (sos & Hsos). exists (so :: sos). by constructor.
Qed.

Lemma missing_empty k1 ks : missing_key (k1 :: ks) = true -> inter_of w k1 ks = ∅.
Proof.
  unfold missing_key. intros (k & Hk & Hn)%existsb_exists. apply bool_decide_eq_true in Hn. apply list_elem_of_In in Hk.
  assert (visible w k = ∅) as Hv by (unfold visible; by rewrite Hn).
  apply set_eq. intros x. unfold inter_of. rewrite elem_of_filter. split; [|set_solver]. intros [Ha Hx].
  assert (in_all w ks x = true) as Ha' by (by destruct (in_all w ks x)). rewrite in_all_true in Ha'.
  apply elem_of_cons in Hk as [->|Hk]; [set_solver|]. specialize (Ha' k Hk). set_solver.
Qed.

(** Both forms, for keys that hold sets or nothing. *)
Lemma sinter_total k1 ks :
  Forall (set_key w) (k1 :: ks) ->
  (exists l, l ≡ₚ elements (inter_of w k1 ks) /\ sinterGenericCommand (k1 :: ks) None w =
    if missing_key (k1 :: ks) then Return (after w (db (srv w)) [R_emptymultibulk] 0)
    else Done tt (after w (db (srv w)) (members_reply l) 0)) /\
  (forall key, exists so, good w so /\ set_members so = inter_of w k1 ks /\ sinterGenericCommand (k1 :: ks) (Some key) w =
    if missing_key (k1 :: ks) then Return (after w (base.delete key (db (srv w))) [R_czero]
      (if decide (is_Some (db (srv w) !! key)) then 1 else 0))
    else Done tt (after w (put_or_drop key so (db (srv w))) [stored_reply so] 1)).
Proof.
  intros Hks. pose proof (missing_split _ Hks) as Hsplit. pose proof (missing_empty k1 ks) as Hem.
  destruct (missing_key (k1 :: ks)).
  - rewrite Hem by done. destruct Hsplit as (pre & sos & k & post & Heq & Hpre & Hk). unfold sinterGenericCommand. rewrite Heq. split; [|intros key].
    + exists []. split; [done|]. apply bind_return. by rewrite (sinter_lookup_missing None pre sos k post Hpre Hk).
    + exists createIntsetObject. split; [by apply createIntsetObject_ok|]. split; [done|]. apply bind_return.
      by rewrite (sinter_lookup_missing (Some key) pre sos k post Hpre Hk).
  - destruct Hsplit as (sos & Hsos). split; [by apply (sinter_spec k1 ks sos)|intros key; by apply (sinterstore_spec key k1 ks sos)].
Qed.

(** ** Union and difference *)

(** What the lookup finds under a key. *)
Definition ptr_of (k : sds) : option setptr :=
  match db (srv w) !! k with Some (OSet so) => Some (k, so) | _ => None end.

Definition ptr_ok (s : option setptr) : Prop := match s with Some o => holds w o.1 o.2 | None => True end.
Definition ptr_members (s : option setptr) : gset sds := match s with Some o => set_members o.2 | None => ∅ end.

Lemma ptr_of_ok k : set_key w k -> ptr_ok (ptr_of k).
Proof.
  intros Hk. unfold ptr_of. destruct (set_key_lookup _ _ Hk) as [[-> _]|(so & Hs & Hok & _)]; [done|]. by rewrite Hs.
Qed.

Lemma ptr_of_members k : ptr_members (ptr_of k) = visible w k.
Proof. unfold ptr_of, visible. by destruct (db (srv w) !! k) as [[]|]. Qed.

Lemma sunion_lookup_all keys : Forall (set_key w) keys -> sunion_lookup keys w = Done (ptr_of <$> keys) w.
Proof.
  induction 1 as [|k keys Hk _ IH]; [done|]. cbn [sunion_lookup]. step_with (lookupKey_done k w).
  cbn [fmap list_fmap]. unfold ptr_of at 1. destruct (set_key_lookup _ _ Hk) as [[-> _]|(so & -> & _)].
  - by step_with IH.
  - rewrite (bind_done _ _ _ false w) by done. rewrite (bind_done _ _ _ so w) by done. by step_with IH.
Qed.

Lemma union_of_ptrs keys : union_of w keys = ⋃ (ptr_members <$> (ptr_of <$> keys)).
Proof.
  unfold union_of. f_equal. rewrite <- list_fmap_compose. apply list_fmap_ext. intros i k _. cbn. by rewrite ptr_of_members.
Qed.

Lemma in_union_of keys x : x ∈ union_of w keys <-> exists k, k ∈ keys /\ x ∈ visible w k.
Proof.
  unfold union_of. rewrite elem_of_union_list. split.
  - intros (X & (k & -> & Hk)%list_elem_of_fmap & Hx). by exists k.
  - intros (k & Hk & Hx). exists (visible w k). split; [|done]. by apply list_elem_of_fmap_2.
Qed.

(** *** The loops *)

(** A temporary set with the number of its elements. *)
Definition counted (acc : setobj * Z) : Prop := good w acc.1 /\ acc.2 = Z.of_nat (size (set_members acc.1)).

Lemma counted_new : counted (createIntsetObject, 0).
Proof. split; [by apply createIntsetObject_ok|done]. Qed.

Definition int_sized (X : gset sds) : Prop := Z.of_nat (size X) <= INT_MAX.

Lemma int_sized_sub X Y : X ⊆ Y -> int_sized Y -> int_sized X.
Proof. intros Hs. pose proof (subseteq_size X Y Hs). unfold int_sized. lia. Qed.

Lemma to_int_size X : int_sized X -> to_int (Z.of_nat (size X)) = Z.of_nat (size X).
Proof. unfold int_sized. intros Hs. apply to_int_id. unfold in_int, INT_MIN. split; [|done]. clia. Qed.

Lemma union_add_spec acc x :
  counted acc -> int_sized ({[x]} ∪ set_members acc.1) ->
  exists acc', union_add acc x w = Done acc' w /\ counted acc' /\ set_members acc'.1 = {[x]} ∪ set_members acc.1.
Proof.
  intros [Hok Hc] Hi. destruct (setTypeAdd_spec _ acc.1 x Hmax Hok) as (so' & Hadd & Hok' & Hm').
  eexists. split; [unfold union_add, bind, gets; by rewrite Hadd|]. cbn [fst snd]. split; [|done]. split; [done|]. cbn [fst snd].
  pose proof (size_add x (set_members acc.1)) as Hs. rewrite Hm', Hc. case_bool_decide; [|lia].
  rewrite <- Hs. by apply to_int_size.
Qed.

Lemma union_fold_spec l acc :
  counted acc -> int_sized (list_to_set l ∪ set_members acc.1) ->
  exists acc', fold_each l acc union_add w = Done acc' w /\ counted acc' /\
    set_members acc'.1 = list_to_set l ∪ set_members acc.1.
Proof.
  revert acc. induction l as [|x l IH]; intros acc Hc Hi; cbn [fold_each].
  - exists acc. split_and!; [done|done|set_solver].
  - destruct (union_add_spec acc x Hc) as (a1 & H1' & Hc1 & Hm1); [eapply int_sized_sub, Hi; set_solver|].
    step_with H1'. destruct (IH a1 Hc1) as (a2 & Ha2 & Hc2 & Hm2); [rewrite Hm1; eapply int_sized_sub, Hi; set_solver|].
    exists a2. split_and!; [done|done|]. rewrite Hm2, Hm1. set_solver.
Qed.

Lemma diff_fold_spec l acc :
  counted acc -> int_sized (set_members acc.1) ->
  exists acc', fold_each l acc diff_remove w = Done acc' w /\ counted acc' /\
    set_members acc'.1 = set_members acc.1 ∖ list_to_set l.
Proof.
  revert acc. induction l as [|x l IH]; intros acc Hc Hi; cbn [fold_each].
  - exists acc. split_and!; [done|done|set_solver].
  - destruct Hc as [Hok Hn]. destruct (setTypeRemove_spec _ acc.1 x Hok) as (Hok1 & Hm1 & Hb).
    rewrite (bind_done _ _ _ _ _ eq_refl : bind (diff_remove acc x) _ w = _). cbv zeta.
    match goal with |- context [fold_each l ?a _ _] => destruct (IH a) as (a2 & Ha2 & Hc2 & Hm2) end; cbn [fst snd].
    + split; [done|]. cbn [fst snd]. rewrite Hb, Hm1, Hn. pose proof (size_remove x (set_members acc.1)) as Hs.
      case_bool_decide; [|lia]. replace (Z.of_nat (size (set_members acc.1)) - 1) with (Z.of_nat (size (set_members acc.1 ∖ {[x]}))) by lia.
      apply to_int_size. eapply int_sized_sub, Hi. set_solver.
    + rewrite Hm1. eapply int_sized_sub, Hi. set_solver.
    + exists a2. split_and!; [done|done|]. cbn [fst] in Hm2. rewrite Hm2, Hm1. set_solver.
Qed.

Lemma set_list_members so : good w so -> list_to_set (set_list so) = set_members so.
Proof. intros Hok. apply set_eq. intros x. by rewrite elem_of_list_to_set, (elem_of_set_list _ _ x Hok). Qed.

Lemma union_sets_spec sets acc :
  Forall ptr_ok sets -> counted acc -> int_sized (⋃ (ptr_members <$> sets) ∪ set_members acc.1) ->
  exists acc', fold_each sets acc union_sets w = Done acc' w /\ counted acc' /\
    set_members acc'.1 = ⋃ (ptr_members <$> sets) ∪ set_members acc.1.
Proof.
  intros Hs. revert acc. induction Hs as [|s sets Hp Hs IH]; intros acc Hc Hi; cbn [fold_each].
  - exists acc. split_and!; [done|done|]. cbn. by rewrite (left_id_L ∅ (∪)).
  - cbn [fmap list_fmap union_list foldr] in *.
    assert (exists a1, union_sets acc s w = Done a1 w /\ counted a1 /\ set_members a1.1 = ptr_members s ∪ set_members acc.1)
      as (a1 & Ha1 & Hc1 & Hm1).
    { destruct s as [o|]; cbn [union_sets ptr_members].
      - rewrite <- (set_list_members o.2) by apply Hp. apply union_fold_spec; [done|].
        rewrite (set_list_members o.2) by apply Hp. eapply int_sized_sub, Hi. cbn. set_solver.
      - exists acc. split_and!; [done|done|set_solver]. }
    step_with Ha1. destruct (IH a1 Hc1) as (a2 & Ha2 & Hc2 & Hm2); [rewrite Hm1; eapply int_sized_sub, Hi; set_solver|].
    exists a2. split_and!; [done|done|]. rewrite Hm2, Hm1. set_solver.
Qed.

Lemma diff_test_spec k1 others x :
  Forall ptr_ok others -> x ∈ visible w k1 ->
  diff_test k1 others x = bool_decide (x ∉ ⋃ (ptr_members <$> others)).
Proof.
  intros Ho Hx. induction Ho as [|s others Hs _ IH]; cbn [diff_test fmap list_fmap union_list foldr].
  - symmetry. apply bool_decide_true. set_solver.
  - destruct s as [[k so]|]; cbn [ptr_members snd].
    + cbn [ptr_ok fst snd] in Hs. pose proof (holds_visible w k so Hs) as Hv. destruct Hs as [_ Hok].
      rewrite (setTypeIsMember_spec _ _ _ Hok), IH. destruct (decide (k = k1)) as [->|Hk].
      * rewrite (bool_decide_true (k1 = k1)) by done. symmetry. apply bool_decide_false. set_solver.
      * rewrite (bool_decide_false (k = k1)) by done. destruct (decide (x ∈ set_members so)).
        -- rewrite (bool_decide_true (x ∈ _)) by done. symmetry. apply bool_decide_false. set_solver.
        -- rewrite (bool_decide_false (x ∈ _)) by done. apply bool_decide_ext. set_solver.
    + rewrite IH. apply bool_decide_ext. set_solver.
Qed.

Lemma diff_one_loop (test : sds -> bool) l acc :
  NoDup l -> (forall x, x ∈ l -> x ∉ set_members acc.1) -> counted acc -> int_sized (list_to_set l ∪ set_members acc.1) ->
  exists acc', fold_each l acc (fun acc x =>
      if test x then dstset <- local_add acc.1 x ;; ret (dstset, to_int (acc.2 + 1)) else ret acc) w = Done acc' w /\
    counted acc' /\ set_members acc'.1 = list_to_set (filter test l) ∪ set_members acc.1.
Proof.
  intros Hnd. revert acc. induction Hnd as [|x l Hx Hnd IH]; intros acc Hd Hc Hi; cbn [fold_each].
  - exists acc. split_and!; [done|done|]. cbn. by rewrite (left_id_L ∅ (∪)).
  - destruct (test x) eqn:Ht.
    + destruct Hc as [Hok Hn]. destruct (local_add_spec w acc.1 x Hmax Hok) as (d1 & Hd1 & Hok1 & Hm1).
      rewrite bind_assoc. step_with Hd1. rewrite (bind_done _ _ _ _ _ eq_refl : bind (ret _) _ w = _).
      destruct (IH (d1, to_int (acc.2 + 1))) as (a2 & Ha2 & Hc2 & Hm2); cbn [fst snd].
      * intros y Hy. rewrite Hm1. specialize (Hd y). set_solver.
      * split; [done|]. cbn [fst snd]. pose proof (size_add x (set_members acc.1)) as Hs.
        rewrite bool_decide_true in Hs by (apply Hd; left). rewrite Hm1, Hn, <- Hs. apply to_int_size.
        eapply int_sized_sub, Hi. set_solver.
      * rewrite Hm1. eapply int_sized_sub, Hi. set_solver.
      * exists a2. split_and!; [done|done|]. cbn [fst] in Hm2. rewrite Hm2, Hm1, filter_cons_True by (by rewrite Ht). set_solver.
    + rewrite (bind_done _ _ _ _ _ eq_refl : bind (ret _) _ w = _).
      destruct (IH acc) as (a2 & Ha2 & Hc2 & Hm2); [set_solver|done|eapply int_sized_sub, Hi; set_solver|].
      exists a2. split_and!; [done|done|]. by rewrite Hm2, filter_cons_False by (rewrite Ht; tauto).
Qed.

Lemma diff_one_spec k1 so others :
  holds w k1 so -> Forall ptr_ok others -> int_sized (visible w k1) ->
  exists acc, diff_one k1 so others w = Done acc w /\ counted acc /\
    set_members acc.1 = visible w k1 ∖ ⋃ (ptr_members <$> others).
Proof.
  intros Hh Ho Hi. pose proof (holds_visible w k1 so Hh) as Hv. destruct Hh as [_ Hok].
  destruct (diff_one_loop (diff_test k1 others) (set_list so) (createIntsetObject, 0)) as (acc & Hl & Hc & Hm).
  - rewrite (set_list_perm _ _ Hok). apply NoDup_elements.
  - set_solver.
  - apply counted_new.
  - rewrite (set_list_members so Hok), <- Hv. cbn. by rewrite (right_id_L ∅ (∪)).
  - exists acc. split_and!; [done|done|]. rewrite Hm, (list_to_set_filter _ _ Hok), <- Hv. cbn [fst].
    change (set_members createIntsetObject) with (∅ : gset sds). rewrite (right_id_L ∅ (∪)).
    apply set_eq. intros x. rewrite elem_of_filter, elem_of_difference. split.
    + intros [Ht Hx]. rewrite (diff_test_spec k1 others x Ho Hx) in Ht. apply bool_decide_unpack in Ht. done.
    + intros [Hx Hn]. split; [|done]. rewrite (diff_test_spec k1 others x Ho Hx). by apply bool_decide_pack.
Qed.

(** The loop over the sets to subtract ends early when nothing is left. *)
Lemma diff_two_rest sets acc :
  Forall ptr_ok sets -> counted acc -> int_sized (set_members acc.1) ->
  exists acc', diff_two false sets acc w = Done acc' w /\ counted acc' /\
    set_members acc'.1 = set_members acc.1 ∖ ⋃ (ptr_members <$> sets).
Proof.
  intros Hs. revert acc. induction Hs as [|s sets Hp Hs IH]; intros acc Hc Hi; cbn [diff_two fmap list_fmap union_list foldr].
  - exists acc. split_and!; [done|done|set_solver].
  - destruct s as [o|]; cbn [ptr_members].
    + destruct (diff_fold_spec (set_list o.2) acc Hc Hi) as (a1 & Ha1 & Hc1 & Hm1).
      rewrite (set_list_members o.2) in Hm1 by apply Hp. step_with Ha1.
      destruct (Z.eqb_spec a1.2 0) as [Hz|Hz].
      * exists a1. split_and!; [done|done|]. destruct Hc1 as [_ Hn1]. rewrite Hz in Hn1.
        assert (set_members a1.1 = ∅) by (apply leibniz_equiv, size_empty_inv; lia). set_solver.
      * destruct (IH a1 Hc1) as (a2 & Ha2 & Hc2 & Hm2); [rewrite Hm1; eapply int_sized_sub, Hi; set_solver|].
        exists a2. split_and!; [done|done|]. rewrite Hm2, Hm1. set_solver.
    + destruct (IH acc Hc Hi) as (a2 & Ha2 & Hc2 & Hm2). exists a2. split_and!; [done|done|]. rewrite Hm2. set_solver.
Qed.

Lemma diff_two_spec k1 so others :
  holds w k1 so -> Forall ptr_ok others -> int_sized (visible w k1) ->
  exists acc, diff_two true (Some (k1, so) :: others) (createIntsetObject, 0) w = Done acc w /\ counted acc /\
    set_members acc.1 = visible w k1 ∖ ⋃ (ptr_members <$> others).
Proof.
  intros Hh Ho Hi. pose proof (holds_visible w k1 so Hh) as Hv. destruct Hh as [_ Hok]. cbn [diff_two snd].
  destruct (union_fold_spec (set_list so) (createIntsetObject, 0) counted_new) as (a1 & Ha1 & Hc1 & Hm1).
  { rewrite (set_list_members so Hok), <- Hv. cbn. by rewrite (right_id_L ∅ (∪)). }
  rewrite (set_list_members so Hok), <- Hv in Hm1. cbn [fst] in Hm1.
  change (set_members createIntsetObject) with (∅ : gset sds) in Hm1. rewrite (right_id_L ∅ (∪)) in Hm1.
  step_with Ha1. destruct (Z.eqb_spec a1.2 0) as [Hz|Hz].
  - exists a1. split_and!; [done|done|]. destruct Hc1 as [_ Hn1]. rewrite Hz in Hn1.
    assert (set_members a1.1 = ∅) by (apply leibniz_equiv, size_empty_inv; lia). set_solver.
  - destruct (diff_two_rest others a1 Ho Hc1) as (a2 & Ha2 & Hc2 & Hm2); [by rewrite Hm1|].
    exists a2. split_and!; [done|done|]. by rewrite Hm2, Hm1.
Qed.

(** *** The commands *)

(** The result of an operation. *)
Definition op_result (op : set_op) (keys : list sds) : gset sds :=
  match op, keys with
  | SET_OP_UNION, _ => union_of w keys
  | SET_OP_DIFF, k1 :: ks => visible w k1 ∖ union_of w ks
  | SET_OP_DIFF, [] => ∅
  end.

Lemma union_diff_spec op k1 ks :
  Forall (set_key w) (k1 :: ks) -> int_sized (op_result op (k1 :: ks)) -> (op = SET_OP_DIFF -> int_sized (visible w k1)) ->
  exists acc, union_diff_result op (ptr_of <$> k1 :: ks) w = Done acc w /\ counted acc /\
    set_members acc.1 = op_result op (k1 :: ks).
Proof.
  intros Hks Hi Hi1. assert (Forall ptr_ok (ptr_of <$> k1 :: ks)) as Hok.
  { apply Forall_fmap. eapply Forall_impl; [exact Hks|]. apply ptr_of_ok. }
  destruct op; cbn [union_diff_result op_result] in *.
  - destruct (union_sets_spec (ptr_of <$> k1 :: ks) (createIntsetObject, 0) Hok counted_new) as (acc & Ha & Hc & Hm).
    { rewrite <- union_of_ptrs. cbn. by rewrite (right_id_L ∅ (∪)). }
    exists acc. split_and!; [done|done|]. rewrite Hm, <- union_of_ptrs. cbn. by rewrite (right_id_L ∅ (∪)).
  - rewrite union_of_ptrs. cbn [fmap list_fmap] in *. apply Forall_cons in Hok as [Hok1 Hok].
    unfold ptr_of at 1 in Hok1. unfold ptr_of at 1 2, diff_plan. apply Forall_cons in Hks as [Hk1 _].
    destruct (set_key_lookup _ _ Hk1) as [[-> Hv]|(so & Hs & Hso & Hv)].
    + exists (createIntsetObject, 0). split_and!; [done|apply counted_new|]. rewrite Hv. set_solver.
    + rewrite Hs in *. destruct (diff_algo so _ =? 1); cbv iota beta.
      * pose proof (qsort_perm qsortCompareSetsByRevCardinality (ptr_of <$> ks)) as Hp.
        assert (⋃ (ptr_members <$> (ptr_of <$> ks)) =
          ⋃ (ptr_members <$> qsort qsortCompareSetsByRevCardinality (ptr_of <$> ks))) as ->
          by (apply set_eq; intros x; rewrite !elem_of_union_list; by setoid_rewrite Hp).
        apply diff_one_spec; [done|by rewrite Hp|by apply Hi1].
      * apply diff_two_spec; [done|done|by apply Hi1].
Qed.

Lemma sunionDiff_spec op k1 ks :
  Forall (set_key w) (k1 :: ks) -> int_sized (op_result op (k1 :: ks)) -> (op = SET_OP_DIFF -> int_sized (visible w k1)) ->
  (exists l, l ≡ₚ elements (op_result op (k1 :: ks)) /\
    sunionDiffGenericCommand (k1 :: ks) None op w = Done tt (after w (db (srv w)) (members_reply l) 0)) /\
  (forall key, exists so, good w so /\ set_members so = op_result op (k1 :: ks) /\
    sunionDiffGenericCommand (k1 :: ks) (Some key) op w =
      Done tt (after w (put_or_drop key so (db (srv w))) [stored_reply so] 1)).
Proof.
  intros Hks Hi Hi1. destruct (union_diff_spec op k1 ks Hks Hi Hi1) as ([so c] & Ha & [Hok Hc] & Hm).
  cbn [fst snd] in Hok, Hc, Hm. unfold sunionDiffGenericCommand. split; [|intros key].
  - exists (set_list so). rewrite <- Hm. split; [by eapply set_list_perm|].
    step_with (sunion_lookup_all _ Hks). step_with Ha. cbn [fst snd]. step_with (addReply_start w (R_multibulklen c) Hrep).
    rewrite reply_list. unfold members_reply. rewrite reverse_cons, (Permutation_length (set_list_perm _ _ Hok)), Hc. done.
  - exists so. split_and!; [done|done|]. step_with (sunion_lookup_all _ Hks). step_with Ha. by apply store_result_spec.
Qed.

Lemma args_after_name name args i : argv (cli w) = name :: args -> args_from (S i) w = Done (drop i args) w.
Proof. intros Ha. unfold args_from, gets. by rewrite Ha. Qed.
End Algebra.
