(* ===== verification/SetRandom.v ===== *)
(** * Random elements of sets ([t_set.c])

    [spop] and [srandmember], whatever the draws are: the elements are members,
    different where they should be, as many as asked for, and what [spop] replies
    with is what it takes out.  On a set without members, which only the
    replicated types leave behind, drawing takes the server down. *)
From Stdlib Require Import ZArith Lia Ascii String.
From stdpp Require Import base numbers strings gmap sets list.
From S2P Require Import Prelude Sds Intset SetType Server Container RWSet RWSetStore SetCommands SetClient SetAlgebra.
Open Scope Z_scope.

Section Random.
Context `{DictOrder, Qsort, RandomChoice}.
Context (w : world) (Hrep : is_replica (cli w) = false) (Hmax : world_max_ok w).
Implicit Types (d : gmap sds robj) (so : setobj) (rs : list reply) (n : nat) (m : Z) (key x : sds).

(** ** One draw *)

Lemma draw_empty n so : good w so -> set_members so = ∅ -> setTypeRandomElement n so = None.
Proof.
  intros Hok He. destruct so as [ins|t]; cbn [setTypeRandomElement].
  - pose proof (setTypeSize_spec _ _ Hok) as Hs. rewrite He, size_empty in Hs. cbn in Hs. unfold intsetRandom.
    unfold intsetLen in Hs. by rewrite Hs.
  - cbn in He. subst t. by rewrite dictGetRandomKey_empty.
Qed.

Lemma draw_spec n so :
  good w so -> set_members so <> ∅ ->
  exists e, setTypeRandomElement n so = Some e /\ e ∈ set_elems so.
Proof.
  intros Hok Hne. destruct so as [ins|t]; cbn [setTypeRandomElement].
  - assert (is_length ins <> 0%nat) as Hl.
    { intros Hz. apply Hne. apply leibniz_equiv, size_empty_inv. by rewrite <- (setTypeSize_spec _ _ Hok). }
    unfold intsetRandom. destruct (Nat.eqb_spec (is_length ins) 0) as [|_]; [done|]. eexists. split; [done|].
    rewrite set_elems_IS. apply list_elem_of_fmap_2. unfold intset_values.
    set (i := rand n mod Z.of_nat (is_length ins)).
    assert (0 <= i < Z.of_nat (is_length ins)) as Hi by (apply Z.mod_pos_bound; lia).
    apply list_elem_of_In, in_map, in_seq. lia.
  - destruct (dictGetRandomKey_in n t Hne) as (k & -> & Hk). exists (ESds k). split; [done|].
    rewrite set_elems_HT. apply list_elem_of_fmap_2. rewrite dict_iter_perm. by apply elem_of_elements.
Qed.

Lemma drawn_member so e : good w so -> e ∈ set_elems so -> selem_sds e ∈ set_members so.
Proof. intros Hok He. rewrite <- (elem_of_set_list _ _ _ Hok). by apply list_elem_of_fmap_2. Qed.

Lemma remove_drawn_spec key so e d rs m :
  d !! key = Some (OSet so) -> good w so -> e ∈ set_elems so ->
  exists so', remove_drawn key e (after w d rs m) = Done tt (after w (<[key := OSet so']> d) rs m) /\
    good w so' /\ set_members so' = set_members so ∖ {[selem_sds e]}.
Proof.
  intros Hk Hok He. destruct (setTypeRemove_spec _ so (selem_sds e) Hok) as (Hok' & Hm & _).
  exists (setTypeRemove so (selem_sds e)).1. split; [|done]. unfold remove_drawn.
  step_with (read_set_after w key so d rs m Hk).
  pose proof (set_elems_ok _ _ Hok) as Hse. rewrite Forall_forall in Hse. specialize (Hse e He).
  destruct so as [ins|t].
  - rewrite set_elems_IS in He. apply list_elem_of_fmap in He as (z & -> & _). cbn [selem_sds setTypeRemove].
    unfold isSdsRepresentableAsLongLong. rewrite string2ll_print by done. by destruct (intsetRemove ins z).
  - rewrite set_elems_HT in He. apply list_elem_of_fmap in He as (x & -> & _).
    unfold set_remove. rewrite bind_assoc. by step_with (read_set_after w key (SHT t) d rs m Hk).
Qed.

(** ** [spop] *)

(** Different members of [X], [count] of them. *)
Definition sample (X : gset sds) (count : nat) (l : list sds) : Prop :=
  NoDup l /\ list_to_set l ⊆ X /\ length l = count.

Lemma sample_cons X count x l :
  x ∈ X -> sample (X ∖ {[x]}) count l -> sample X (S count) (x :: l).
Proof.
  intros Hx (Hnd & Hs & Hl). split_and!; [|set_solver|cbn; by rewrite Hl].
  apply NoDup_cons. split; [|done]. intros Hin. assert (x ∈ X ∖ {[x]}) by (apply Hs; by apply elem_of_list_to_set). set_solver.
Qed.

Lemma size_drawn (X : gset sds) x k : x ∈ X -> (S k <= size X)%nat -> (k <= size (X ∖ {[x]}))%nat.
Proof. intros Hx Hk. pose proof (size_remove x X) as Hs. rewrite bool_decide_true in Hs by done. lia. Qed.

Lemma nonempty_size (X : gset sds) k : (S k <= size X)%nat -> X <> ∅.
Proof. intros Hk ->. rewrite size_empty in Hk. lia. Qed.

Lemma spop_emit_spec count n key so d rs m :
  d !! key = Some (OSet so) -> good w so -> (count <= size (set_members so))%nat ->
  exists l so', sample (set_members so) count l /\ good w so' /\ set_members so' = set_members so ∖ list_to_set l /\
    spop_emit count n key (after w d rs m) = Done tt (after w (<[key := OSet so']> d) (reverse (R_bulk <$> l) ++ rs) m).
Proof.
  revert n so d rs. induction count as [|count IH]; intros n so d rs Hk Hok Hc; cbn [spop_emit].
  - exists [], so. rewrite insert_id by done. split; [split_and!; [apply NoDup_nil_2|set_solver|done]|].
    split_and!; [done|set_solver|done].
  - destruct (draw_spec n so Hok) as (e & Hdraw & He); [by eapply nonempty_size|].
    pose proof (drawn_member so e Hok He) as Hx.
    destruct (remove_drawn_spec key so e d (R_bulk (selem_sds e) :: rs) m Hk Hok He) as (so1 & Hr1 & Hok1 & Hm1).
    destruct (IH (S n) so1 (<[key := OSet so1]> d) (R_bulk (selem_sds e) :: rs)) as (l & so2 & Hl & Hok2 & Hm2 & Hrun);
      [apply lookup_insert_eq|done|rewrite Hm1; by apply size_drawn|].
    rewrite insert_insert_eq in Hrun. rewrite Hm1 in Hl. exists (selem_sds e :: l), so2. split; [by apply sample_cons|].
    split; [done|]. split; [rewrite Hm2, Hm1; set_solver|].
    step_with (read_set_after w key so d rs m Hk). rewrite Hdraw. step_with (deref_some e (after w d rs m)).
    step_with (addReply_after w d rs m (R_bulk (selem_sds e)) Hrep). step_with Hr1. rewrite Hrun.
    cbn [fmap list_fmap]. rewrite reverse_cons, <- app_assoc. done.
Qed.

Lemma spop_move_spec remaining n key so d newset rs m :
  d !! key = Some (OSet so) -> good w so -> (remaining <= size (set_members so))%nat ->
  from_option (good w) True newset ->
  exists l so' newset', sample (set_members so) remaining l /\ good w so' /\ set_members so' = set_members so ∖ list_to_set l /\
    from_option (good w) True newset' /\
    from_option set_members ∅ newset' = list_to_set l ∪ from_option set_members ∅ newset /\
    (remaining <> 0%nat -> is_Some newset') /\
    spop_move remaining n key newset (after w d rs m) = Done newset' (after w (<[key := OSet so']> d) rs m).
Proof.
  revert n so d newset. induction remaining as [|remaining IH]; intros n so d newset Hk Hok Hc Hnew; cbn [spop_move].
  - exists [], so, newset. rewrite insert_id by done. split; [split_and!; [apply NoDup_nil_2|set_solver|done]|].
    split_and!; [done|set_solver|done|set_solver|done|done].
  - destruct (draw_spec n so Hok) as (e & Hdraw & He); [by eapply nonempty_size|].
    pose proof (drawn_member so e Hok He) as Hx. set (x := selem_sds e) in *.
    set (dst := match newset with Some dst => dst | None => setTypeCreate x end).
    assert (good w dst /\ set_members dst = from_option set_members ∅ newset) as [Hokd Hmd].
    { unfold dst. destruct newset; [done|]. by apply setTypeCreate_ok. }
    destruct (local_add_spec (after w d rs m) dst x Hmax Hokd) as (dst1 & Hadd & Hokd1 & Hmd1).
    destruct (set_remove_after w key so x d rs m Hk Hok) as (so1 & Hr1 & Hok1 & Hm1).
    destruct (IH (S n) so1 (<[key := OSet so1]> d) (Some dst1)) as (l & so2 & new2 & Hl & Hok2 & Hm2 & Hn2 & Hmn2 & Hs2 & Hrun);
      [apply lookup_insert_eq|done|rewrite Hm1; by apply size_drawn|done|].
    rewrite insert_insert_eq in Hrun. rewrite Hm1 in Hl. exists (x :: l), so2, new2. split; [by apply sample_cons|].
    split_and!; [done|rewrite Hm2, Hm1; set_solver|done| | |].
    + rewrite Hmn2. cbn [from_option]. rewrite Hmd1, Hmd. set_solver.
    + intros _. destruct remaining; [|by apply Hs2]. cbn [spop_move] in Hrun. injection Hrun as <- _. done.
    + step_with (read_set_after w key so d rs m Hk). rewrite Hdraw. step_with (deref_some e (after w d rs m)).
      cbv zeta. fold x dst. step_with Hadd. step_with Hr1. exact Hrun.
Qed.

(** The complement of the elements that stay. *)
Lemma sample_rest (X : gset sds) so l k :
  good w so -> sample X k l -> set_members so = X ∖ list_to_set l ->
  sample X (size X - k) (set_list so) /\ X ∖ list_to_set (set_list so) = list_to_set l.
Proof.
  intros Hok (Hnd & Hs & Hl) Hm. rewrite (set_list_members w so Hok), Hm.
  assert (size (X ∖ list_to_set l) = size X - k)%nat as Hsize.
  { rewrite size_difference by done. by rewrite size_list_to_set, Hl. }
  split; [split_and!|].
  - rewrite (set_list_perm _ _ Hok). apply NoDup_elements.
  - rewrite (set_list_members w so Hok). set_solver.
  - rewrite (Permutation_length (set_list_perm _ _ Hok)), Hm. exact Hsize.
  - apply set_eq. intros x. rewrite !elem_of_difference. destruct (decide (x ∈@{gset sds} list_to_set l)); set_solver.
Qed.

Lemma spop_some_spec key so (count : nat) m :
  holds w key so -> (0 < count < size (visible w key))%nat ->
  exists l so', sample (visible w key) count l /\ good w so' /\ set_members so' = visible w key ∖ list_to_set l /\
    spop_some key (Z.of_nat (size (visible w key))) (Z.of_nat count) (after w (db (srv w)) [] m) =
      Done tt (after w (<[key := OSet so']> (db (srv w))) (members_reply l) (m + 1)).
Proof.
  intros Hh Hc. pose proof (holds_visible w key so Hh) as Hv. destruct Hh as [Hk Hok].
  unfold spop_some. step_with (addReply_after w (db (srv w)) [] m (R_multibulklen (Z.of_nat count)) Hrep). cbv zeta.
  set (r0 := [R_multibulklen (Z.of_nat count)]).
  assert (forall l, sample (visible w key) count l -> reverse (R_bulk <$> l) ++ r0 = members_reply l) as Hrs.
  { intros l (_ & _ & Hl). unfold members_reply. by rewrite reverse_cons, Hl. }
  destruct (Z.of_nat count <? _).
  - rewrite Nat2Z.id. destruct (spop_emit_spec count 0 key so (db (srv w)) r0 m Hk Hok) as (l & so' & Hl & Hok' & Hm & Hrun); [rewrite <- Hv; lia|].
    rewrite <- Hv in Hl, Hm. exists l, so'. split_and!; [done..|]. step_with Hrun. rewrite (Hrs l Hl). apply inc_dirty_after.
  - replace (Z.to_nat (Z.of_nat (size (visible w key)) - Z.of_nat count)) with (size (visible w key) - count)%nat by lia.
    destruct (spop_move_spec (size (visible w key) - count) 0 key so (db (srv w)) None r0 m Hk Hok)
      as (l & so1 & new & Hl & Hok1 & Hm1 & Hnew & Hmnew & Hsome & Hrun); [rewrite <- Hv; lia|done|].
    destruct Hsome as [so' ->]; [lia|]. cbn [from_option] in Hnew, Hmnew. rewrite <- Hv in Hl, Hm1.
    destruct (sample_rest _ so1 l _ Hok1 Hl Hm1) as [Hl1 Hrest].
    replace (size (visible w key) - (size (visible w key) - count))%nat with count in Hl1 by lia.
    exists (set_list so1), so'. split_and!; [done|done|rewrite Hrest, Hmnew; set_solver|].
    rewrite (bind_done _ _ _ tt (after w (<[key := OSet so']> (db (srv w))) (members_reply (set_list so1)) m)); [apply inc_dirty_after|].
    step_with Hrun. step_with (deref_some so' (after w (<[key := OSet so1]> (db (srv w))) r0 m)).
    step_with (read_set_after w key so1 (<[key := OSet so1]> (db (srv w))) r0 m (lookup_insert_eq _ _ _)).
    rewrite (bind_done _ _ _ tt (after w (<[key := OSet so']> (db (srv w))) r0 m)).
    + rewrite <- (Hrs _ Hl1). rewrite <- (reply_list w Hrep). unfold set_list. symmetry. apply (for_each_fmap selem_sds).
    + unfold dbOverwrite. step_with (lookupKey_done key (after w (<[key := OSet so1]> (db (srv w))) r0 m)).
      change (db (srv (after w (<[key := OSet so1]> (db (srv w))) r0 m))) with (<[key := OSet so1]> (db (srv w))).
      rewrite lookup_insert_eq. unfold modify. f_equal. unfold after, add_dirty, set_client, set_db. cbn. by rewrite insert_insert_eq.
Qed.

(** The arguments after [rewriteClientCommandVector]. *)
Definition with_args (args : list sds) : world :=
  mkWorld (srv w) (mkClient args (rargv (cli w)) (is_replica (cli w)) (replica_message (cli w)) (replies (cli w))).

Lemma rewrite_after args d rs m :
  rewriteClientCommandVector args (after w d rs m) = Done tt (after (with_args args) d rs m).
Proof. done. Qed.

(** The start of the two commands with a count. *)
Lemma count_arg name key a l :
  argv (cli w) = [name; key; a] -> string2ll a = Some l ->
  arg 2 w = Done a w /\ SetCommands.getLongFromObjectOrReply a w = Done (Some l) w.
Proof.
  intros Ha Hl. split; [apply arg_start; by rewrite Ha|]. unfold SetCommands.getLongFromObjectOrReply, getLongLongFromObject. by rewrite Hl.
Qed.

Lemma read_held key so : holds w key so -> read_set key w = Done so w.
Proof. intros [Hk _]. unfold read_set. by rewrite Hk. Qed.

Lemma set_key_held key so : holds w key so -> set_key w key.
Proof. intros [Hk Hok]. unfold set_key. by rewrite Hk. Qed.

(** All members, as the union of one set. *)
Lemma all_members key so m :
  holds w key so -> int_sized (visible w key) ->
  exists l, l ≡ₚ elements (visible w key) /\
    fn (sunionDiffGenericCommand [key] None SET_OP_UNION) (add_dirty m w) = Done tt (after w (db (srv w)) (members_reply l) m).
Proof.
  intros Hh Hi.
  assert (forall w', db (srv w') = db (srv w) -> union_of w' [key] = visible w key) as Hu.
  { intros w' Hw. unfold union_of, visible. cbn. rewrite Hw. apply (right_id_L ∅ (∪)). }
  destruct (sunionDiff_spec (add_dirty m w) Hrep Hmax SET_OP_UNION key []) as [(l & Hl & Hrun) _].
  - apply Forall_singleton. by apply (set_key_held key so).
  - cbn [op_result]. by rewrite Hu.
  - done.
  - cbn [op_result] in Hl. rewrite Hu in Hl by done. exists l. split; [done|]. apply fn_done. rewrite Hrun. f_equal.
    destruct w as [[] []]. unfold after, add_dirty, set_client, set_db. cbn. by rewrite Z.add_0_r.
Qed.

Lemma spop_count_spec name key a so (count : nat) :
  argv (cli w) = [name; key; a] -> string2ll a = Some (Z.of_nat count) -> (0 < count)%nat -> holds w key so ->
  int_sized (visible w key) ->
  exists l, sample (visible w key) (count `min` size (visible w key)) l /\
    if decide (size (visible w key) <= count)%nat then
      spopCommand w = Return (after (with_args ["DEL"%string; key]) (base.delete key (db (srv w))) (members_reply l) (Z.of_nat count + 1))
    else exists so', good w so' /\ set_members so' = visible w key ∖ list_to_set l /\
      spopCommand w = Return (after w (<[key := OSet so']> (db (srv w))) (members_reply l) (Z.of_nat count + 1)).
Proof.
  intros Ha Hl Hpos Hh Hi. destruct (count_arg name key a _ Ha Hl) as [H2 Hlong]. pose proof (holds_visible w key so Hh) as Hv.
  assert (forall w', spopWithCountCommand w = Done tt w' \/ spopWithCountCommand w = Return w' -> spopCommand w = Return w') as Hcmd.
  { intros w' Hw. unfold spopCommand. step_with (argc_start w). rewrite Ha. change (Z.of_nat (length [name; key; a]) =? 3) with true. cbv iota.
    rewrite (bind_done _ _ _ tt w'); [done|]. destruct Hw as [Hw|Hw]; [by apply fn_done|by apply fn_return]. }
  assert (spopWithCountCommand w =
    (if Z.of_nat (size (visible w key)) <=? Z.of_nat count then
       fn (sunionDiffGenericCommand [key] None SET_OP_UNION) ;; dbDelete key ;;
       rewriteClientCommandVector ["DEL"%string; key] ;; modify inc_dirty ;; creturn
     else spop_some key (Z.of_nat (size (visible w key))) (Z.of_nat count)) (add_dirty (Z.of_nat count) w)) as Hrun.
  { unfold spopWithCountCommand. step_with H2. step_with Hlong. destruct (Z.ltb_spec (Z.of_nat count) 0); [lia|].
    step_with (the_set_there w key so R_emptymultibulk _ _ Ha Hh). destruct (Z.eqb_spec (Z.of_nat count) 0); [lia|].
    step_with (read_held key so Hh). rewrite (setTypeSize_spec _ _ (proj2 Hh)), <- Hv. done. }
  destruct (Z.leb_spec (Z.of_nat (size (visible w key))) (Z.of_nat count)) as [Hle|Hlt].
  - destruct (all_members key so (Z.of_nat count) Hh Hi) as (l & Hp & Hall). exists l. rewrite decide_True by lia. split.
    + rewrite Nat.min_r by lia. split_and!; [rewrite Hp; apply NoDup_elements|intros x; rewrite elem_of_list_to_set, Hp; by rewrite elem_of_elements|].
      by rewrite Hp.
    + apply Hcmd. right. rewrite Hrun. step_with Hall. step_with (dbDelete_after w key (db (srv w)) (members_reply l) (Z.of_nat count)).
      step_with (rewrite_after ["DEL"%string; key] (base.delete key (db (srv w))) (members_reply l) (Z.of_nat count)).
      by step_with (inc_dirty_after (with_args ["DEL"%string; key]) (base.delete key (db (srv w))) (members_reply l) (Z.of_nat count)).
  - destruct (spop_some_spec key so count (Z.of_nat count) Hh) as (l & so' & Hs & Hok' & Hm' & Hsome); [lia|].
    exists l. rewrite decide_False by lia. rewrite Nat.min_l by lia. split; [done|]. exists so'. split_and!; [done|done|].
    apply Hcmd. left. rewrite Hrun, <- Hsome. f_equal. destruct w as [[] []]. done.
Qed.

Lemma spop_spec name key so :
  argv (cli w) = [name; key] -> holds w key so ->
  if decide (visible w key = ∅) then spopCommand w = Crash
  else exists x so', x ∈ visible w key /\ good w so' /\ set_members so' = visible w key ∖ {[x]} /\
    spopCommand w = Done tt (after (with_args ["SREM"%string; key; x]) (put_or_drop key so' (db (srv w))) [R_bulk x] 1).
Proof.
  intros Ha Hh. pose proof (holds_visible w key so Hh) as Hv. pose proof Hh as [Hk Hok].
  assert (forall B (k : _ -> cmd B), bind (deref (setTypeRandomElement 0 so)) k w =
    match setTypeRandomElement 0 so with Some e => k e w | None => Crash end) as Hdr by (intros; by destruct (setTypeRandomElement 0 so)).
  unfold spopCommand. rewrite (bind_done _ _ _ _ _ (argc_start w)). rewrite Ha.
  change (Z.of_nat (length [name; key]) =? 3) with false. change (3 <? Z.of_nat (length [name; key])) with false. cbv iota.
  rewrite (bind_done _ _ _ _ _ (the_set_there w key so R_nullbulk _ _ Ha Hh)), (bind_done _ _ _ _ _ (read_held key so Hh)), Hdr.
  destruct (decide (visible w key = ∅)) as [He|Hne].
  - by rewrite (draw_empty 0 so Hok) by (by rewrite <- Hv).
  - destruct (draw_spec 0 so Hok) as (e & -> & He); [by rewrite <- Hv|].
    destruct (remove_drawn_spec key so e (db (srv w)) [] 0 Hk Hok He) as (so' & Hrem & Hok' & Hm'). rewrite after_start in Hrem.
    rewrite <- Hv in Hm'. exists (selem_sds e), so'. split_and!; [rewrite Hv; by apply drawn_member|done|done|].
    step_with Hrem. step_with (rewrite_after ["SREM"%string; key; selem_sds e] (<[key := OSet so']> (db (srv w))) [] 0).
    set (w1 := with_args ["SREM"%string; key; selem_sds e]).
    step_with (addReply_after w1 (<[key := OSet so']> (db (srv w))) [] 0 (R_bulk (selem_sds e)) Hrep).
    step_with (read_set_after w1 key so' (<[key := OSet so']> (db (srv w))) [R_bulk (selem_sds e)] 0 (lookup_insert_eq _ _ _)).
    step_with (drop_empty w1 key so' (<[key := OSet so']> (db (srv w))) (db (srv w)) [R_bulk (selem_sds e)] 0 Hok' eq_refl).
    apply inc_dirty_after.
Qed.

(** ** [srandmember] *)

Lemma srand_any_spec count n so rs m :
  good w so -> set_members so <> ∅ ->
  exists l, length l = count /\ list_to_set l ⊆ set_members so /\
    srand_any count n so (after w (db (srv w)) rs m) = Done tt (after w (db (srv w)) (reverse (R_bulk <$> l) ++ rs) m).
Proof.
  intros Hok Hne. revert n rs. induction count as [|count IH]; intros n rs; cbn [srand_any].
  - exists []. split_and!; [done|set_solver|done].
  - destruct (draw_spec n so Hok Hne) as (e & -> & He). pose proof (drawn_member so e Hok He) as Hx.
    destruct (IH (S n) (R_bulk (selem_sds e) :: rs)) as (l & Hl & Hs & Hrun). exists (selem_sds e :: l).
    split_and!; [cbn; by rewrite Hl|set_solver|]. step_with (deref_some e (after w (db (srv w)) rs m)).
    step_with (addReply_after w (db (srv w)) rs m (R_bulk (selem_sds e)) Hrep). rewrite Hrun.
    cbn [fmap list_fmap]. by rewrite reverse_cons, <- app_assoc.
Qed.

Lemma all_elements_spec so : good w so -> all_elements so w = Done (set_members so) w.
Proof.
  intros Hok. unfold all_elements. rewrite <- (fold_each_fmap selem_sds (set_elems so) ∅ (fun t x => deref (dictAdd t x))).
  fold (set_list so). rewrite <- (set_list_members w so Hok).
  assert (NoDup (set_list so)) as Hnd by (rewrite (set_list_perm _ _ Hok); apply NoDup_elements).
  assert (forall l (t : gset sds), NoDup l -> (forall x, x ∈ l -> x ∉ t) ->
    fold_each l t (fun t x => deref (dictAdd t x)) w = Done (list_to_set l ∪ t) w) as Hgen.
  { clear. induction l as [|x l IH]; intros t Hnd Ht; cbn [fold_each].
    - unfold ret. f_equal. set_solver.
    - apply NoDup_cons in Hnd as [Hx Hnd]. rewrite (bind_done _ _ _ ({[x]} ∪ t) w).
      + rewrite IH; [f_equal; set_solver|done|]. intros y Hy. specialize (Ht y). set_solver.
      + unfold dictAdd. rewrite decide_False by (apply Ht; left). done. }
  rewrite Hgen by (done || set_solver). by rewrite (right_id_L ∅ (∪)).
Qed.

Lemma srand_sub_spec times n (t : gset sds) :
  (times <= size t)%nat ->
  exists t', srand_sub times n t w = Done t' w /\ t' ⊆ t /\ size t' = (size t - times)%nat.
Proof.
  revert n t. induction times as [|times IH]; intros n t Ht; cbn [srand_sub].
  - exists t. split_and!; [done|done|lia].
  - destruct (dictGetRandomKey_in n t) as (x & -> & Hx); [by eapply nonempty_size|].
    step_with (deref_some x w). unfold dictDelete. rewrite decide_True by done. step_with (deref_some (t ∖ {[x]}) w).
    destruct (IH (S n) (t ∖ {[x]})) as (t' & Hrun & Hs & Hsize); [by apply size_drawn|].
    exists t'. split_and!; [done|set_solver|]. pose proof (size_remove x t) as Hr. rewrite bool_decide_true in Hr by done. lia.
Qed.

(** The [n]-th element drawn. *)
Definition drawn so n : sds := from_option selem_sds EmptyString (setTypeRandomElement n so).

(** The search for different elements ends when the draws show enough of them. *)
Lemma srand_collect_spec fuel n so (count : nat) (t : gset sds) :
  good w so -> set_members so <> ∅ -> t ⊆ set_members so -> (size t <= count)%nat ->
  (count <= size (list_to_set (drawn so <$> seq n fuel) ∪ t))%nat ->
  exists t', srand_collect fuel n so (Z.of_nat count) t (Z.of_nat (size t)) w = Done t' w /\
    t' ⊆ set_members so /\ size t' = count.
Proof.
  intros Hok Hne. revert n t. induction fuel as [|fuel IH]; intros n t Hsub Hle Hcov; cbn [srand_collect].
  - cbn in Hcov. rewrite (left_id_L ∅ (∪)) in Hcov. destruct (Z.ltb_spec (Z.of_nat (size t)) (Z.of_nat count)); [lia|].
    exists t. split_and!; [done|done|lia].
  - destruct (Z.ltb_spec (Z.of_nat (size t)) (Z.of_nat count)) as [Hlt|]; [|exists t; split_and!; [done|done|lia]].
    cbn [seq fmap list_fmap list_to_set] in Hcov. unfold drawn at 1 in Hcov.
    destruct (draw_spec n so Hok Hne) as (e & Hd & He). rewrite Hd in Hcov |- *. cbn [from_option] in Hcov.
    pose proof (drawn_member so e Hok He) as Hx. step_with (deref_some e w). pose proof (size_add (selem_sds e) t) as Hsz.
    unfold dictAdd. destruct (decide (selem_sds e ∈ t)) as [Hin|Hin].
    + apply IH; [done|done|]. replace (list_to_set (drawn so <$> seq (S n) fuel) ∪ t) with
        ({[selem_sds e]} ∪ list_to_set (drawn so <$> seq (S n) fuel) ∪ t); [done|set_solver].
    + rewrite bool_decide_true in Hsz by done. rewrite <- Hsz. apply IH; [set_solver|lia|].
      replace (list_to_set (drawn so <$> seq (S n) fuel) ∪ ({[selem_sds e]} ∪ t)) with
        ({[selem_sds e]} ∪ list_to_set (drawn so <$> seq (S n) fuel) ∪ t); [done|set_solver].
Qed.

(** Enough different elements among the first [fuel] draws. *)
Definition enough_draws fuel so (count : nat) : Prop :=
  (count <= size (list_to_set (drawn so <$> seq 0 fuel) : gset sds))%nat.

Lemma iter_sample (X t : gset sds) : t ⊆ X -> sample X (size t) (dict_iter t).
Proof.
  intros Hs. split_and!.
  - rewrite dict_iter_perm. apply NoDup_elements.
  - intros x. rewrite elem_of_list_to_set, dict_iter_perm, elem_of_elements. apply Hs.
  - by rewrite (Permutation_length (dict_iter_perm t)).
Qed.

Lemma srandmember_some_spec fuel so (count : nat) :
  good w so -> (0 < count < size (set_members so))%nat -> int_sized (set_members so) ->
  ((3 * count <= size (set_members so))%nat -> enough_draws fuel so count) ->
  exists l, sample (set_members so) count l /\
    srandmember_some fuel so (Z.of_nat (size (set_members so))) (Z.of_nat count) w = Done tt (after w (db (srv w)) (members_reply l) 0).
Proof.
  intros Hok Hc Hi Hdraws. assert (set_members so <> ∅) as Hne by (apply (nonempty_size _ 0); lia).
  set (X := set_members so) in *.
  assert (exists t, t ⊆ X /\ size t = count /\
    (if Z.of_nat (size X) <? (Z.of_nat count * SRANDMEMBER_SUB_STRATEGY_MUL) mod 2 ^ 64 then
       d <- all_elements so ;;
       if Z.of_nat (size d) =? Z.of_nat (size X) then srand_sub (Z.to_nat (Z.of_nat (size X) - Z.of_nat count)) 0 d else crash
     else srand_collect fuel 0 so (Z.of_nat count) ∅ 0) w = Done t w) as (t & Ht & Hsize & Hrun).
  { unfold SRANDMEMBER_SUB_STRATEGY_MUL. unfold int_sized in Hi. rewrite Z.mod_small by clia.
    destruct (Z.ltb_spec (Z.of_nat (size X)) (Z.of_nat count * 3)) as [Hlt|Hle].
    - destruct (srand_sub_spec (size X - count) 0 X) as (t & Hrun & Ht & Hsize); [lia|]. exists t. split_and!; [done|lia|].
      step_with (all_elements_spec so Hok). fold X. rewrite Z.eqb_refl.
      by replace (Z.to_nat (Z.of_nat (size X) - Z.of_nat count)) with (size X - count)%nat by lia.
    - destruct (srand_collect_spec fuel 0 so count ∅ Hok Hne) as (t & Hrun & Ht & Hsize);
        [set_solver|rewrite size_empty; lia|rewrite (right_id_L ∅ (∪)); apply Hdraws; lia|]. by exists t. }
  exists (dict_iter t). pose proof (iter_sample X t Ht) as Hsam. rewrite Hsize in Hsam. split; [done|].
  unfold srandmember_some. step_with Hrun. step_with (addReply_start w (R_multibulklen (Z.of_nat count)) Hrep).
  rewrite (reply_list w Hrep). unfold members_reply. rewrite reverse_cons. destruct Hsam as (_ & _ & ->). done.
Qed.

(** The replies to a count: different members for a positive one, any members for
    a negative one. *)
Definition random_members (X : gset sds) (l : Z) (res : list sds) : Prop :=
  if 0 <=? l then sample X (Z.to_nat l `min` size X) res else length res = Z.to_nat (- l) /\ list_to_set res ⊆ X.

Lemma srandmember_count_spec fuel name key a so l :
  argv (cli w) = [name; key; a] -> string2ll a = Some l -> l <> 0 -> holds w key so -> visible w key <> ∅ ->
  int_sized (visible w key) ->
  (0 < l -> 3 * l <= Z.of_nat (size (visible w key)) -> enough_draws fuel so (Z.to_nat l)) ->
  exists res, random_members (visible w key) l res /\
    srandmemberCommand fuel w = Return (after w (db (srv w)) (members_reply res) 0).
Proof.
  intros Ha Hl Hl0 Hh Hne Hi Hdraws. destruct (count_arg name key a _ Ha Hl) as [H2 Hlong].
  pose proof (holds_visible w key so Hh) as Hv. pose proof Hh as [Hk Hok].
  pose proof (string2ll_canonical _ _ Hl) as [Hlr _].
  assert (forall w', srandmemberWithCountCommand fuel w = Done tt w' \/ srandmemberWithCountCommand fuel w = Return w' ->
    srandmemberCommand fuel w = Return w') as Hcmd.
  { intros w' Hw. unfold srandmemberCommand. step_with (argc_start w). rewrite Ha. change (Z.of_nat (length [name; key; a]) =? 3) with true. cbv iota.
    rewrite (bind_done _ _ _ tt w'); [done|]. destruct Hw as [Hw|Hw]; [by apply fn_done|by apply fn_return]. }
  unfold srandmemberWithCountCommand in Hcmd.
  rewrite (bind_done _ _ _ _ _ H2), (bind_done _ _ _ _ _ Hlong) in Hcmd. cbv zeta in Hcmd.
  rewrite (bind_done _ _ _ _ _ (the_set_there w key so R_emptymultibulk _ _ Ha Hh)), (bind_done _ _ _ _ _ (read_held key so Hh)) in Hcmd.
  rewrite (setTypeSize_spec _ _ Hok), <- Hv in Hcmd. unfold random_members. destruct (Z.leb_spec 0 l) as [Hpos|Hneg].
  - destruct (Z.eqb_spec l 0) as [|_]; [done|]. cbn [negb] in Hcmd.
    destruct (Z.leb_spec (Z.of_nat (size (visible w key))) l) as [Hle|Hlt].
    + destruct (all_members key so 0 Hh Hi) as (res & Hp & Hrun). exists res. split.
      * rewrite Nat.min_r by lia. split_and!; [rewrite Hp; apply NoDup_elements|intros x; rewrite elem_of_list_to_set, Hp; by rewrite elem_of_elements|by rewrite Hp].
      * apply Hcmd. right. replace (add_dirty 0 w) with w in Hrun by (destruct w as [[] []]; unfold add_dirty; cbn; by rewrite Z.add_0_r).
        by step_with Hrun.
    + destruct (srandmember_some_spec fuel so (Z.to_nat l) Hok) as (res & Hs & Hrun); [rewrite <- Hv; lia|by rewrite <- Hv|rewrite <- Hv; intros; apply Hdraws; lia|].
      rewrite <- Hv, Z2Nat.id in * by lia. exists res. rewrite Nat.min_l by lia. split; [done|]. apply Hcmd. by left.
  - assert ((- l) mod 2 ^ 64 = - l) as Hmod by (apply Z.mod_small; unfold in_llong, LLONG_MIN, LLONG_MAX in Hlr; lia).
    rewrite Hmod in Hcmd. destruct (Z.eqb_spec (- l) 0) as [|_]; [lia|]. cbn [negb] in Hcmd.
    destruct (srand_any_spec (Z.to_nat (- l)) 0 so [R_multibulklen (- l)] 0 Hok) as (res & Hlen & Hs & Hrun); [by rewrite <- Hv|].
    exists res. rewrite Hv. split; [done|]. apply Hcmd. right. step_with (addReply_start w (R_multibulklen (- l)) Hrep).
    step_with Hrun. unfold members_reply. rewrite reverse_cons. replace (Z.of_nat (length res)) with (- l) by lia. done.
Qed.

Lemma srandmember_spec fuel name key so :
  argv (cli w) = [name; key] -> holds w key so ->
  if decide (visible w key = ∅) then srandmemberCommand fuel w = Crash
  else exists x, x ∈ visible w key /\ srandmemberCommand fuel w = Done tt (after w (db (srv w)) [R_bulk x] 0).
Proof.
  intros Ha Hh. pose proof (holds_visible w key so Hh) as Hv. pose proof Hh as [Hk Hok].
  assert (srandmemberCommand fuel w =
    match setTypeRandomElement 0 so with Some e => addReply (R_bulk (selem_sds e)) w | None => Crash end) as ->.
  { unfold srandmemberCommand. step_with (argc_start w). rewrite Ha.
    change (Z.of_nat (length [name; key]) =? 3) with false. change (3 <? Z.of_nat (length [name; key])) with false. cbv iota.
    step_with (the_set_there w key so R_nullbulk _ _ Ha Hh). step_with (read_held key so Hh). by destruct (setTypeRandomElement 0 so). }
  destruct (decide (visible w key = ∅)) as [He|Hne].
  - by rewrite (draw_empty 0 so Hok) by (by rewrite <- Hv).
  - destruct (draw_spec 0 so Hok) as (e & -> & He); [by rewrite <- Hv|]. exists (selem_sds e).
    split; [rewrite Hv; by apply drawn_member|]. by apply addReply_start.
Qed.
End Random.

(** ** A set left empty by a replicated type *)

Open Scope string_scope.

(** A replica that added an element to a remove-win set and removed it again. *)
Definition emptied : world :=
  let w := (run_call (request (start_world 2 0) ["rwsadd"; "k"; "x"]) rwsaddCommand).1 in
  (run_call (request w ["rwsrem"; "k"; "x"]) rwsremCommand).1.

(** The key stays with no members, which the plain commands never leave behind. *)
Lemma emptied_key : exists so, holds emptied "k" so /\ visible emptied "k" = ∅ /\ set_max_intset_entries (srv emptied) = 512.
Proof.
  exists (SHT ∅). split; [split|]; [by vm_compute|done|by vm_compute].
Qed.

(** Drawing from it takes the server down, whatever is drawn. *)
Lemma emptied_crash `{RandomChoice, Qsort} fuel :
  spopCommand (request emptied ["spop"; "k"]) = Crash /\
  srandmemberCommand fuel (request emptied ["srandmember"; "k"]) = Crash.
Proof.
  destruct emptied_key as (so & Hh & Hv & _). split.
  - pose proof (spop_spec (request emptied ["spop"; "k"]) eq_refl "spop" "k" so eq_refl Hh) as Hs.
    rewrite decide_True in Hs by exact Hv. exact Hs.
  - pose proof (srandmember_spec (request emptied ["srandmember"; "k"]) eq_refl fuel "srandmember" "k" so eq_refl Hh) as Hs.
    rewrite decide_True in Hs by exact Hv. exact Hs.
Qed.
Close Scope string_scope.
