(* ===== verification/VcCommands.v ===== *)
(** * Vector clock objects ([vector_clock.c], the commands)

    [vcnew], [vcget] and [vcinc]: a vector clock stored under a key and
    replicated by the CRDT macros. *)
From Stdlib Require Import ZArith Lia Ascii String.
From stdpp Require Import functions base numbers strings gmap sets list.
From S2P Require Import Prelude Sds VectorClock LamportClock Intset SetType Server RWFramework Container RWSet.
Open Scope Z_scope.

(** ** Commands *)

Definition vcnew_prepare : cmd rvector :=
  n <- argc ;;
  if 2 <? n then addReply R_syntaxerr ;; creturn
  else
    key <- arg 1 ;;
    vco <- lookupKeyWrite key ;;
    match vco with
    | Some _ => addReply R_alreadyexisterr ;; creturn
    | None =>
        c <- gets (fun w => l_newVC (srv w)) ;;
        s <- deref (VCToSds c) ;;
        ret (RARGV_ADD_SDS RVCT_PREPARE s)
    end.

Definition vcnew_effect : cmd unit :=
  s <- rarg 2 ;;
  c <- deref (SdsToVC s) ;;
  key <- rarg 1 ;;
  dbAdd key (OVectorClock c) ;;
  modify inc_dirty.

Definition vcnewCommand : cmd unit := CRDT vcnew_prepare vcnew_effect.

Definition vcgetCommand : cmd unit :=
  key <- arg 1 ;;
  o <- lookupKeyReadOrReply key R_nokeyerr ;;
  match o with
  | None => creturn
  | Some (OVectorClock c) => s <- deref (VCToSds c) ;; addReply (R_bulk s)
  | Some _ => addReply R_wrongtypeerr ;; creturn
  end.

Definition vcinc_prepare : cmd rvector :=
  n <- argc ;;
  if 2 <? n then addReply R_syntaxerr ;; creturn
  else
    key <- arg 1 ;;
    o <- lookupKeyWriteOrReply key R_nokeyerr ;;
    match o with
    | None => creturn
    | Some (OVectorClock c) =>
        me <- gets (fun w => p2p_id (srv w)) ;;
        c <- deref (increaseVC (duplicateVC c) me) ;;
        s <- deref (VCToSds c) ;;
        ret (RARGV_ADD_SDS RVCT_PREPARE s)
    | Some _ => addReply R_wrongtypeerr ;; creturn
    end.

(** The object is not checked again: its pointer is read as a clock. *)
Definition vcinc_effect : cmd unit :=
  key <- rarg 1 ;;
  o <- lookupKeyWrite key ;;
  s <- rarg 2 ;;
  c <- deref (SdsToVC s) ;;
  match o with
  | Some (OVectorClock c0) =>
      if compareVC c0 c <? 0
      then modify (set_db <[key := OVectorClock c]>) ;; modify inc_dirty
      else ret tt
  | _ => crash
  end.

Definition vcincCommand : cmd unit := CRDT vcinc_prepare vcinc_effect.

(** ** What they do *)

Definition clock_at (w : world) (k : sds) : option vc :=
  match db (srv w) !! k with Some (OVectorClock c) => Some c | _ => None end.

(** The clock [c] of this system is stored under [k]. *)
Definition stored (w : world) (k : sds) (c : vc) : Prop :=
  db (srv w) !! k = Some (OVectorClock c) /\ vc_size c = Z.to_nat (p2p_count (srv w)) /\
  Forall in_int (vector c) /\ in_int (vc_id c).

Lemma stored_printable w k c : cfg_ok (srv w) -> stored w k c -> vc_printable c.
Proof. intros [Hc _] (_ & Hs & Hv & Hi). unfold vc_printable. rewrite Hs. unfold VC_BUF. split_and!; [lia|lia|done|done]. Qed.

Lemma CRDT_run prep eff w args rv w1 w2 :
  REPLICATION_MODE (srv w) = true -> prep (request w args) = Done rv w1 -> cli w1 = cli (request w args) ->
  eff (mkWorld (srv w1) (mkClient args (Some (args ++ rv_items rv)) false false [R_ok])) = Done tt w2 ->
  cli w2 = mkClient args (Some (args ++ rv_items rv)) false false [R_ok] ->
  exists w', call 0 (CRDT prep eff) (request w args) = Done tt w' /\ db (srv w') = db (srv w2) /\
    cli w' = cli w2 /\ p2p_count (srv w') = p2p_count (srv w2) /\ p2p_id (srv w') = p2p_id (srv w2).
Proof.
  intros Hm Hp Hc1 He Hc2. assert (CRDT prep eff (request w args) = Return w2) as Hcmd.
  { eapply CRDT_origin; [done|done|exact Hp|by rewrite Hc1| |by rewrite Hc2].
    unfold prepared. rewrite Hc1. exact He. }
  destruct (call_origin 0 (CRDT prep eff) (request w args) w2 (args ++ rv_items rv))
    as (w' & Hw' & Hcli & Hdb & H1 & H2 & _); [done|done|by rewrite Hc2..|]. by exists w'.
Qed.

(** [vcnew] stores the zero clock. *)
Lemma vcnew_client w k c0 :
  cfg_ok (srv w) -> REPLICATION_MODE (srv w) = true -> db (srv w) !! k = None ->
  exists w', call 0 vcnewCommand (request w [c0; k]) = Done tt w' /\
    stored w' k (l_newVC (srv w)) /\ replies (cli w') = [R_ok] /\
    p2p_count (srv w') = p2p_count (srv w) /\ p2p_id (srv w') = p2p_id (srv w).
Proof.
  intros Hc Hm Hk. set (c := l_newVC (srv w)).
  assert (vc_size c = Z.to_nat (p2p_count (srv w)) /\ Forall in_int (vector c) /\ in_int (vc_id c)) as (Hs & Hv & Hi).
  { unfold c, l_newVC, newVC, vc_size. cbn. rewrite length_replicate. split_and!; [done| |].
    - apply Forall_replicate. clia.
    - destruct Hc. clia. }
  assert (vc_printable c) as Hp.
  { unfold vc_printable. rewrite Hs. destruct Hc. unfold VC_BUF. split_and!; [lia|lia|done|done]. }
  destruct (VCToSds_SdsToVC c Hp) as (s & Hs1 & Hs2).
  set (w0 := request w [c0; k]). set (rv := RARGV_ADD_SDS RVCT_PREPARE s).
  assert (vcnew_prepare w0 = Done rv w0) as Hprep.
  { unfold vcnew_prepare. step_with (argc_done w0). change (2 <? _) with false. cbv iota. step_with (arg_done w0 1 k eq_refl).
    step_with (lookupKey_done k w0). change (db (srv w0)) with (db (srv w)). rewrite Hk. unfold bind at 1, gets.
    change (l_newVC (srv w0)) with c. by rewrite Hs1. }
  set (w1 := mkWorld (srv w) (mkClient [c0; k] (Some [c0; k; s]) false false [R_ok])).
  assert (vcnew_effect w1 = Done tt (inc_dirty (set_db <[k := OVectorClock c]> w1))) as Heff.
  { unfold vcnew_effect. step_with (rarg_done w1 [c0; k; s] 2 s eq_refl eq_refl). rewrite Hs2.
    step_with (deref_some _ _). step_with (rarg_done w1 [c0; k; s] 1 k eq_refl eq_refl).
    by step_with (dbAdd_done k (OVectorClock c) w1 Hk). }
  destruct (CRDT_run vcnew_prepare vcnew_effect w [c0; k] rv w0 _ Hm Hprep eq_refl Heff eq_refl)
    as (w' & Hw' & Hdb & Hcli & H1 & H2).
  exists w'. split_and!; [done| |by rewrite Hcli|done|done].
  unfold stored. rewrite Hdb, H1. cbn. rewrite lookup_insert_eq. done.
Qed.

(** Advancing an entry makes a clock larger, whatever the ids. *)
Lemma compareVC_bump c i : 0 <= i < Z.of_nat (length (vector c)) -> compareVC c (mkVC (bump (vector c) i) i) < 0.
Proof.
  intros Hi. unfold compareVC, vc_size. cbn [vector vc_id]. rewrite bump_length, Nat.eqb_refl. cbn [negb].
  pose proof (bump_ge (vector c) i) as Hge. pose proof (bump_not_le (vector c) i Hi) as Hnle.
  pose proof (skip_equal_spec (vector c) (bump (vector c) i) ltac:(by rewrite bump_length)) as Hsk.
  destruct (skip_equal _ _) as [|[a b] l]; [destruct Hnle; rewrite <- Hsk; apply vle_refl|].
  destruct Hsk as (p & v & u & Hcv & Hcu & Hne & Hl & ->). rewrite Hcu in Hge. rewrite Hcv in Hge.
  apply vle_prefix in Hge as [Hab Hvu].
  destruct (Z.ltb_spec b a); [lia|]. destruct (Z.ltb_spec a b); [|lia].
  enough (compare_loop (fun x y => y <? x) (vc_id c) i (zip v u) CLOCK_LESS = CLOCK_LESS) as Hloop
    by (rewrite Hloop; done).
  clear -Hvu. induction Hvu as [|y z v u Hyz _ IH]; [done|]. cbn [zip compare_loop zip_with].
  destruct (Z.ltb_spec z y); [lia|]. exact IH.
Qed.

(** [vcinc] advances the own entry and keeps the larger clock. *)
Lemma vcinc_client w k c0 c :
  cfg_ok (srv w) -> REPLICATION_MODE (srv w) = true -> stored w k c ->
  Forall (fun x => x < INT_MAX) (vector c) ->
  exists w', call 0 vcincCommand (request w [c0; k]) = Done tt w' /\
    stored w' k (mkVC (bump (vector c) (p2p_id (srv w))) (p2p_id (srv w))) /\ replies (cli w') = [R_ok].
Proof.
  intros Hc Hm Hst Hroom. pose proof Hst as (Hk & Hs & Hv & Hi). set (me := p2p_id (srv w)).
  destruct (at_index_some (vector c) me) as [x Hx]; [unfold vc_size, me in *; destruct Hc; lia|].
  set (c' := mkVC (bump (vector c) me) me).
  assert (increaseVC (duplicateVC c) me = Some c') as Hinc.
  { unfold increaseVC, duplicateVC, c', bump. cbn. rewrite Hx. do 3 f_equal. apply to_int_id.
    apply at_index_lookup in Hx as [_ Hx]. rewrite Forall_lookup in Hroom, Hv.
    specialize (Hroom _ _ Hx). specialize (Hv _ _ Hx). clia. }
  assert (vc_size c' = Z.to_nat (p2p_count (srv w)) /\ Forall in_int (vector c') /\ in_int (vc_id c')) as (Hs' & Hv' & Hi').
  { unfold c', vc_size in *. cbn. rewrite bump_length. split_and!; [done|by apply bump_in_int|].
    unfold me. destruct Hc. clia. }
  assert (vc_printable c') as Hp.
  { unfold vc_printable. rewrite Hs'. destruct Hc. unfold VC_BUF. split_and!; [lia|lia|done|done]. }
  destruct (VCToSds_SdsToVC c' Hp) as (s & Hs1 & Hs2).
  set (w0 := request w [c0; k]). set (rv := RARGV_ADD_SDS RVCT_PREPARE s).
  assert (vcinc_prepare w0 = Done rv w0) as Hprep.
  { unfold vcinc_prepare. step_with (argc_done w0). change (2 <? _) with false. cbv iota.
    step_with (arg_done w0 1 k eq_refl). unfold lookupKeyWriteOrReply. rewrite bind_assoc.
    step_with (lookupKey_done k w0). change (db (srv w0)) with (db (srv w)). rewrite Hk. unfold bind at 1, ret.
    unfold bind at 1, gets. change (p2p_id (srv w0)) with me. rewrite Hinc. step_with (deref_some _ _). by rewrite Hs1. }
  set (w1 := mkWorld (srv w) (mkClient [c0; k] (Some [c0; k; s]) false false [R_ok])).
  assert (compareVC c c' < 0) as Hcmp
    by (apply compareVC_bump; unfold vc_size, me in *; destruct Hc; lia).
  assert (vcinc_effect w1 = Done tt (inc_dirty (set_db <[k := OVectorClock c']> w1))) as Heff.
  { unfold vcinc_effect. step_with (rarg_done w1 [c0; k; s] 1 k eq_refl eq_refl). step_with (lookupKey_done k w1).
    step_with (rarg_done w1 [c0; k; s] 2 s eq_refl eq_refl). rewrite Hs2. step_with (deref_some _ _).
    change (db (srv w1)) with (db (srv w)). rewrite Hk. destruct (Z.ltb_spec (compareVC c c') 0); [done|lia]. }
  destruct (CRDT_run vcinc_prepare vcinc_effect w [c0; k] rv w0 _ Hm Hprep eq_refl Heff eq_refl)
    as (w' & Hw' & Hdb & Hcli & H1 & H2).
  exists w'. split_and!; [done| |by rewrite Hcli]. unfold stored. rewrite Hdb, H1. cbn. rewrite lookup_insert_eq. done.
Qed.

(** ** Delivery *)

Definition vc_deliver (proc : cmd unit) (w : world) (c0 k s : sds) : outcome world unit :=
  call 0 proc (delivery w [c0; k; s]).

(** A replica that already has the key aborts when another one's [vcnew]
    arrives. *)
Lemma vcnew_delivery_crash w c0 k s c :
  REPLICATION_MODE (srv w) = true -> SdsToVC s = Some c -> is_Some (db (srv w) !! k) ->
  vc_deliver vcnewCommand w c0 k s = Crash.
Proof.
  intros Hm Hs [o Hk]. set (w1 := mkWorld (srv w) (mkClient [c0; k; s] (Some [c0; k; s]) true false [])).
  assert (vcnew_effect w1 = Crash) as Heff.
  { unfold vcnew_effect. step_with (rarg_done w1 [c0; k; s] 2 s eq_refl eq_refl). rewrite Hs.
    step_with (deref_some _ _). step_with (rarg_done w1 [c0; k; s] 1 k eq_refl eq_refl).
    unfold dbAdd. rewrite bind_assoc. step_with (lookupKey_done k w1). change (db (srv w1)) with (db (srv w)). by rewrite Hk. }
  by apply call_delivery_crash.
Qed.

(** A delivered increment replaces a smaller clock; concurrent clocks are not
    merged. *)
Lemma vcinc_delivery w c0 k s c t :
  REPLICATION_MODE (srv w) = true -> stored w k c -> SdsToVC s = Some t ->
  exists w', vc_deliver vcincCommand w c0 k s = Done tt w' /\
    clock_at w' k = Some (if compareVC c t <? 0 then t else c).
Proof.
  intros Hm (Hk & _) Hs. set (w1 := mkWorld (srv w) (mkClient [c0; k; s] (Some [c0; k; s]) true false [])).
  assert (exists w2, vcinc_effect w1 = Done tt w2 /\ cli w2 = cli w1 /\
    clock_at w2 k = Some (if compareVC c t <? 0 then t else c)) as (w2 & Heff & Hcli & Hat).
  { unfold vcinc_effect. step_with (rarg_done w1 [c0; k; s] 1 k eq_refl eq_refl). step_with (lookupKey_done k w1).
    step_with (rarg_done w1 [c0; k; s] 2 s eq_refl eq_refl). rewrite Hs. step_with (deref_some _ _).
    change (db (srv w1)) with (db (srv w)). rewrite Hk. destruct (compareVC c t <? 0); eexists.
    - split_and!; [done|done|]. unfold clock_at. cbn. by rewrite lookup_insert_eq.
    - split_and!; [done|done|]. unfold clock_at. cbn. by rewrite Hk. }
  exists (set_client (set_rargv None) w2). split; [|exact Hat].
  apply call_delivery; [done| |by rewrite Hcli]. apply CRDT_delivery; [done|done|exact Heff|by rewrite Hcli].
Qed.

(** Two replicas that increment concurrently agree afterwards, and one of the
    two increments is lost. *)
Open Scope string_scope.
Example vcinc_lost :
  let (a0, m0) := run_call (request (start_world 2 0) ["vcnew"; "k"]) vcnewCommand in
  let b0 := (run_call (delivery (start_world 2 1) (default [] m0)) vcnewCommand).1 in
  let (a1, ma) := run_call (request a0 ["vcinc"; "k"]) vcincCommand in
  let (b1, mb) := run_call (request b0 ["vcinc"; "k"]) vcincCommand in
  let a2 := (run_call (delivery a1 (default [] mb)) vcincCommand).1 in
  let b2 := (run_call (delivery b1 (default [] ma)) vcincCommand).1 in
  clock_at a2 "k" = Some (mkVC [0; 1] 1) /\ clock_at b2 "k" = Some (mkVC [0; 1] 1).
Proof. vm_compute. by split. Qed.
Close Scope string_scope.
