(* ===== verification/P2P.v ===== *)
(** * Connecting replicas ([p2p.c])

    The commands that make a server a replica of the system: [replicate] sets
    the number of replicas and the server's id and connects to the others,
    [repltest] is the same for test clients.  Opening a connection is a function
    of the environment, [connect]. *)
From Stdlib Require Import ZArith Lia Ascii String.
From stdpp Require Import functions base numbers strings gmap sets list.
From S2P Require Import Prelude Sds VectorClock LamportClock Intset SetType Server RWFramework Container RWSet.
Open Scope Z_scope.

(** ** Helpers *)

Definition set_p2p (count id : Z) (w : world) : world :=
  let s := srv w in
  mkWorld (mkServer (db s) (replicas s) count id (p2p_seldb s) (dirty s)
             (set_max_intset_entries s) (total_tag_size s) (ovhd_cnt s)) (cli w).

(** [listAddNodeTail(server.replicas, r)]; [out] is what [r] has been sent. *)
Definition add_replica (out : list reply) (w : world) : world :=
  let s := srv w in
  mkWorld (mkServer (db s) (replicas s ++ [out]) (p2p_count s) (p2p_id s) (p2p_seldb s) (dirty s)
             (set_max_intset_entries s) (total_tag_size s) (ovhd_cnt s)) (cli w).

(** [c->flags |= ...]. *)
Definition set_flags (replica message : bool) (c : client) : client :=
  mkClient (argv c) (rargv c) (is_replica c || replica) (replica_message c || message) (replies c).

(** [tolower] in the C locale, and [strcasecmp] as an equality test. *)
Definition tolower (c : ascii) : ascii :=
  let n := byteZ c in if (65 <=? n) && (n <=? 90) then ascii_of_nat (Z.to_nat (n + 32)) else c.
Definition lower (s : sds) : list ascii := tolower <$> chars (sdsnew s).
Definition strcaseeq (s t : sds) : bool := bool_decide (lower s = lower t).

(** [getLongFromObjectOrReply] with a message.  The callers ignore the error
    and go on with an unassigned variable: undefined. *)
Definition getLongFromObjectOrReply (o msg : sds) : cmd Z :=
  match getLongLongFromObject o with
  | Some v => ret v
  | None => addReply (R_error msg) ;; crash
  end.

Definition CLUSTER_MSG : sds := "SLAVEOF not allowed in cluster mode."%string.

(** ** Commands *)

Section Commands.
Context (cluster_enabled : bool) (connect : sds -> Z -> bool).

Definition connectWithReplica (ip : sds) (port : Z) : bool := connect (sdsnew ip) port.

(** Two numbers: the size of the system and the id of this server. *)
Definition read_p2p : cmd unit :=
  s1 <- arg 1 ;;
  size <- getLongFromObjectOrReply s1 "invalid replica size."%string ;;
  s2 <- arg 2 ;;
  id <- getLongFromObjectOrReply s2 "invalid replica id."%string ;;
  modify (set_p2p (to_int size) (to_int id)).

Definition repltestCommand : cmd unit :=
  if cluster_enabled then addReply (R_error CLUSTER_MSG) ;; creturn
  else
    modify (set_client (set_flags true true)) ;;
    n <- argc ;;
    (when n =? 1 do modify (add_replica [])) ;;
    (when n =? 3 do read_p2p) ;;
    addReply R_ok.

(** The pairs of an address and a port from [argv[3]] on. *)
Fixpoint replicate_loop (hosts : list sds) : cmd unit :=
  match hosts with
  | [] => ret tt
  | [_] => crash
  | ip :: p :: hosts =>
      port <- getLongFromObjectOrReply p "invalid port number."%string ;;
      if connectWithReplica ip (to_int port)
      then modify (add_replica [R_replhandshake]) ;; replicate_loop hosts
      else addReply (R_error "Something wrong connecting replicas."%string) ;; creturn
  end.

Definition replicateCommand : cmd unit :=
  if cluster_enabled then addReply (R_error CLUSTER_MSG) ;; creturn
  else
    a1 <- arg 1 ;;
    a2 <- (if strcaseeq a1 "replica"%string then a2 <- arg 2 ;; ret (strcaseeq a2 "handshake"%string) else ret false) ;;
    if a2
    then modify (set_client (set_flags true false)) ;; modify (add_replica []) ;; creturn
    else
      read_p2p ;;
      hosts <- args_from 3 ;;
      replicate_loop hosts ;;
      addReply R_ok.
End Commands.

(** ** What they do *)

Section Facts.
Context (connect : sds -> Z -> bool).

(** A command that is not replicated. *)
Lemma call_plain dictid proc w w1 :
  is_replica (cli w) = false -> proc w = Done tt w1 -> is_replica (cli w1) = false ->
  rargv (cli w1) = None -> call dictid proc w = Done tt w1.
Proof. intros Hr Hp Hr1 Ha. unfold call, bind, gets, fn, ret. by rewrite Hr, Hp, Ha, Hr1. Qed.

Lemma getLong_done o msg v w : getLongLongFromObject o = Some v -> getLongFromObjectOrReply o msg w = Done v w.
Proof. intros Ho. unfold getLongFromObjectOrReply. by rewrite Ho. Qed.

Lemma read_p2p_done w a1 a2 size id :
  index (argv (cli w)) 1 = Some a1 -> index (argv (cli w)) 2 = Some a2 ->
  string2ll a1 = Some size -> string2ll a2 = Some id ->
  read_p2p w = Done tt (set_p2p (to_int size) (to_int id) w).
Proof.
  intros H1 H2 Hs Hi. unfold read_p2p. step_with (arg_done w 1 a1 H1). step_with (getLong_done a1 _ size w Hs).
  step_with (arg_done w 2 a2 H2). by step_with (getLong_done a2 _ id w Hi).
Qed.

(** Addresses that can all be connected to. *)
Definition host_args (hosts : list (sds * Z)) : list sds := hosts ≫= fun h => [h.1; sdsfromlonglong h.2].
Definition reachable (h : sds * Z) : Prop := in_int h.2 /\ connect (sdsnew h.1) h.2 = true.

Fixpoint greet (n : nat) (w : world) : world :=
  match n with O => w | S n => greet n (add_replica [R_replhandshake] w) end.

Lemma replicate_loop_done hosts w :
  Forall reachable hosts -> replicate_loop connect (host_args hosts) w = Done tt (greet (length hosts) w).
Proof.
  intros Hh. revert w. induction Hh as [|[ip port] hosts [Hp Hc] _ IH]; intros w; [done|].
  change (host_args ((ip, port) :: hosts)) with (ip :: sdsfromlonglong port :: host_args hosts).
  cbn [replicate_loop fst snd length greet] in *.
  step_with (getLong_done (sdsfromlonglong port) "invalid port number."%string port w
    (string2ll_print port ltac:(clia))).
  rewrite (to_int_id port Hp). unfold connectWithReplica. rewrite Hc. unfold bind, modify. apply IH.
Qed.

Lemma greet_replicas n w : replicas (srv (greet n w)) = replicas (srv w) ++ replicate n [R_replhandshake].
Proof.
  revert w. induction n as [|n IH]; intros w; cbn; [by rewrite app_nil_r|]. rewrite IH. cbn. by rewrite <- app_assoc.
Qed.
Lemma greet_same n w :
  cli (greet n w) = cli w /\ p2p_count (srv (greet n w)) = p2p_count (srv w) /\
  p2p_id (srv (greet n w)) = p2p_id (srv w) /\ db (srv (greet n w)) = db (srv w).
Proof. revert w. induction n as [|n IH]; intros w; cbn [greet]; [done|]. destruct (IH (add_replica [R_replhandshake] w)) as (-> & -> & -> & ->). done. Qed.

(** [replicate size id ip port ...]: the server joins a system of [size]
    replicas as number [id], linked to all the given ones. *)
Lemma replicate_joins w c0 size id hosts :
  in_int size -> in_int id -> Forall reachable hosts ->
  exists w', call 0 (replicateCommand false connect)
      (request w (c0 :: sdsfromlonglong size :: sdsfromlonglong id :: host_args hosts)) = Done tt w' /\
    p2p_count (srv w') = size /\ p2p_id (srv w') = id /\ db (srv w') = db (srv w) /\
    replicas (srv w') = replicas (srv w) ++ replicate (length hosts) [R_replhandshake] /\
    replies (cli w') = [R_ok].
Proof.
  intros Hs Hi Hh. set (args := _ :: _). set (w0 := request w args).
  assert (string2ll (sdsfromlonglong size) = Some size) as Hps by (apply string2ll_print; clia).
  assert (string2ll (sdsfromlonglong id) = Some id) as Hpi by (apply string2ll_print; clia).
  assert (strcaseeq (sdsfromlonglong size) "replica"%string = false) as Hne.
  { apply bool_decide_eq_false. intros Heq. pose proof (sdsll2str_chars size) as Hd.
    assert (sdsfromlonglong size = of_chars (sdsll2str size)) as Hof by done.
    assert (nul_free (sdsfromlonglong size)) as Hnf.
    { unfold nul_free. rewrite Hof, chars_of_chars. intros Hin. rewrite Forall_forall in Hd.
      by destruct (num_char_not NUL (Hd _ Hin)). }
    unfold lower in Heq. rewrite (sdsnew_nul_free _ Hnf), Hof, chars_of_chars in Heq.
    pose proof (sdsll2str_nonempty size) as Hnil. destruct (sdsll2str size) as [|d l]; [done|].
    apply Forall_cons_1 in Hd as [Hd _]. injection Heq as Hdr _. unfold num_char, is_digit in Hd.
    assert (tolower d = d) as Ht.
    { unfold tolower. cbn zeta. destruct Hd as [Hd| ->]; [|done]. unfold is_digit in Hd.
      destruct (Z.leb_spec 65 (byteZ d)); [lia|done]. }
    rewrite Ht in Hdr. subst d. by destruct Hd. }
  set (w1 := set_p2p size id w0). set (w2 := greet (length hosts) w1).
  assert (replicateCommand false connect w0 = Done tt (set_client (push_reply R_ok) w2)) as Hcmd.
  { unfold replicateCommand. step_with (arg_done w0 1 (sdsfromlonglong size) eq_refl). rewrite Hne. unfold bind at 1, ret.
    step_with (read_p2p_done w0 _ _ size id eq_refl eq_refl Hps Hpi). rewrite (to_int_id size Hs), (to_int_id id Hi).
    fold w1. unfold bind at 1, args_from, gets. change (drop 3 (argv (cli w1))) with (host_args hosts).
    step_with (replicate_loop_done hosts w1 Hh). fold w2. apply addReply_done.
    destruct (greet_same (length hosts) w1) as (Hc & _). unfold w2. by rewrite Hc. }
  destruct (greet_same (length hosts) w1) as (Hc & Hn & Hid & Hdb). fold w2 in Hc, Hn, Hid, Hdb.
  exists (set_client (push_reply R_ok) w2). split_and!; [|done|done|done| |].
  - apply call_plain; [done|exact Hcmd|cbn; by rewrite Hc..].
  - cbn. unfold w2. by rewrite greet_replicas.
  - cbn. by rewrite Hc.
Qed.

(** [replicate replica handshake]: the link is accepted; size and id stay. *)
Lemma handshake_links w c0 :
  exists w', call 0 (replicateCommand false connect) (request w [c0; "replica"; "handshake"]%string) = Done tt w' /\
    replicas (srv w') = replicas (srv w) ++ [[]] /\ REPLICATION_MODE (srv w') = true /\
    p2p_count (srv w') = p2p_count (srv w) /\ is_replica (cli w') = true /\ replies (cli w') = [].
Proof.
  eexists. split; [reflexivity|]. cbn. split_and!; try done. unfold REPLICATION_MODE. cbn.
  rewrite length_app. cbn. by rewrite Nat.add_comm.
Qed.
End Facts.

(** A server that only accepted a link has no clock entries: it is in the
    replication mode, but the first add reads outside the empty clock. *)
Lemma handshake_only_run :
  match call 0 (replicateCommand false (fun _ _ => true))
          (request (mkWorld (mkServer ∅ [] 0 0 (-1) 0 512 0 0) (mkClient [] None false false []))
             ["replicate"; "replica"; "handshake"]%string) with
  | Done _ w => call 0 rwsaddCommand (request w ["rwsadd"; "k"; "x"]%string) = Crash
  | _ => False
  end.
Proof. vm_compute. reflexivity. Qed.
