(* ===== verification/Commands.v ===== *)
(** * The command table ([server.c], [db.c])

    The table of all commands as it is compiled, [populateCommandTable], the
    lookup of a request's command and the functions that find the keys among its
    arguments.  The compiled table has the overhead commands of the sets and the
    tree, and not those under [COUNT_OPS]. *)
From Stdlib Require Import Ascii String ZArith Lia.
From stdpp Require Import base numbers strings list.
From S2P Require Import Prelude Sds P2P.
Open Scope Z_scope.

(** ** Commands *)

Definition CMD_WRITE : Z := Z.shiftl 1 0.
Definition CMD_READONLY : Z := Z.shiftl 1 1.
Definition CMD_DENYOOM : Z := Z.shiftl 1 2.
Definition CMD_MODULE : Z := Z.shiftl 1 3.
Definition CMD_ADMIN : Z := Z.shiftl 1 4.
Definition CMD_PUBSUB : Z := Z.shiftl 1 5.
Definition CMD_NOSCRIPT : Z := Z.shiftl 1 6.
Definition CMD_RANDOM : Z := Z.shiftl 1 7.
Definition CMD_SORT_FOR_SCRIPT : Z := Z.shiftl 1 8.
Definition CMD_LOADING : Z := Z.shiftl 1 9.
Definition CMD_STALE : Z := Z.shiftl 1 10.
Definition CMD_SKIP_MONITOR : Z := Z.shiftl 1 11.
Definition CMD_ASKING : Z := Z.shiftl 1 12.
Definition CMD_FAST : Z := Z.shiftl 1 13.
Definition CMD_MODULE_GETKEYS : Z := Z.shiftl 1 14.

(** The function that finds the keys of a command; the field is a pointer, which
    the table can also fill with a number. *)
Inductive keysproc :=
  | K_null | K_zunionInterGetKeys | K_evalGetKeys | K_sortGetKeys | K_migrateGetKeys | K_georadiusGetKeys
  | K_address (a : Z).

(** A command; [proc] is the name of its C function.  The two counters of the
    statistics are left out. *)
Record redisCommand := mkCommand {
  c_name : sds; c_proc : sds; arity : Z; sflags : sds; c_flags : Z;
  getkeys_proc : keysproc; firstkey : Z; lastkey : Z; keystep : Z
}.

Definition has_flag (c : redisCommand) (f : Z) : bool := negb (Z.land (c_flags c) f =? 0).
Definition set_cmd_flags (f : Z) (c : redisCommand) : redisCommand :=
  mkCommand (c_name c) (c_proc c) (arity c) (sflags c) f (getkeys_proc c) (firstkey c) (lastkey c) (keystep c).

Section Table.
#[local] Open Scope string_scope.

Definition string_list_set_commands : list redisCommand :=
  [ mkCommand "module" "moduleCommand" (-2) "as" 0 K_null 0 0 0;
    mkCommand "get" "getCommand" 2 "rF" 0 K_null 1 1 1;
    mkCommand "set" "setCommand" (-3) "wm" 0 K_null 1 1 1;
    mkCommand "setnx" "setnxCommand" 3 "wmF" 0 K_null 1 1 1;
    mkCommand "setex" "setexCommand" 4 "wm" 0 K_null 1 1 1;
    mkCommand "psetex" "psetexCommand" 4 "wm" 0 K_null 1 1 1;
    mkCommand "append" "appendCommand" 3 "wm" 0 K_null 1 1 1;
    mkCommand "strlen" "strlenCommand" 2 "rF" 0 K_null 1 1 1;
    mkCommand "del" "delCommand" (-2) "w" 0 K_null 1 (-1) 1;
    mkCommand "unlink" "unlinkCommand" (-2) "wF" 0 K_null 1 (-1) 1;
    mkCommand "exists" "existsCommand" (-2) "rF" 0 K_null 1 (-1) 1;
    mkCommand "setbit" "setbitCommand" 4 "wm" 0 K_null 1 1 1;
    mkCommand "getbit" "getbitCommand" 3 "rF" 0 K_null 1 1 1;
    mkCommand "bitfield" "bitfieldCommand" (-2) "wm" 0 K_null 1 1 1;
    mkCommand "setrange" "setrangeCommand" 4 "wm" 0 K_null 1 1 1;
    mkCommand "getrange" "getrangeCommand" 4 "r" 0 K_null 1 1 1;
    mkCommand "substr" "getrangeCommand" 4 "r" 0 K_null 1 1 1;
    mkCommand "incr" "incrCommand" 2 "wmF" 0 K_null 1 1 1;
    mkCommand "decr" "decrCommand" 2 "wmF" 0 K_null 1 1 1;
    mkCommand "mget" "mgetCommand" (-2) "rF" 0 K_null 1 (-1) 1;
    mkCommand "rpush" "rpushCommand" (-3) "wmF" 0 K_null 1 1 1;
    mkCommand "lpush" "lpushCommand" (-3) "wmF" 0 K_null 1 1 1;
    mkCommand "rpushx" "rpushxCommand" (-3) "wmF" 0 K_null 1 1 1;
    mkCommand "lpushx" "lpushxCommand" (-3) "wmF" 0 K_null 1 1 1;
    mkCommand "linsert" "linsertCommand" 5 "wm" 0 K_null 1 1 1;
    mkCommand "rpop" "rpopCommand" 2 "wF" 0 K_null 1 1 1;
    mkCommand "lpop" "lpopCommand" 2 "wF" 0 K_null 1 1 1;
    mkCommand "brpop" "brpopCommand" (-3) "ws" 0 K_null 1 (-2) 1;
    mkCommand "brpoplpush" "brpoplpushCommand" 4 "wms" 0 K_null 1 2 1;
    mkCommand "blpop" "blpopCommand" (-3) "ws" 0 K_null 1 (-2) 1;
    mkCommand "llen" "llenCommand" 2 "rF" 0 K_null 1 1 1;
    mkCommand "lindex" "lindexCommand" 3 "r" 0 K_null 1 1 1;
    mkCommand "lset" "lsetCommand" 4 "wm" 0 K_null 1 1 1;
    mkCommand "lrange" "lrangeCommand" 4 "r" 0 K_null 1 1 1;
    mkCommand "ltrim" "ltrimCommand" 4 "w" 0 K_null 1 1 1;
    mkCommand "lrem" "lremCommand" 4 "w" 0 K_null 1 1 1;
    mkCommand "rpoplpush" "rpoplpushCommand" 3 "wm" 0 K_null 1 2 1;
    mkCommand "sadd" "saddCommand" (-3) "wmF" 0 K_null 1 1 1;
    mkCommand "srem" "sremCommand" (-3) "wF" 0 K_null 1 1 1;
    mkCommand "smove" "smoveCommand" 4 "wF" 0 K_null 1 2 1;
    mkCommand "sismember" "sismemberCommand" 3 "rF" 0 K_null 1 1 1;
    mkCommand "scard" "scardCommand" 2 "rF" 0 K_null 1 1 1;
    mkCommand "spop" "spopCommand" (-2) "wRF" 0 K_null 1 1 1;
    mkCommand "srandmember" "srandmemberCommand" (-2) "rR" 0 K_null 1 1 1;
    mkCommand "sinter" "sinterCommand" (-2) "rS" 0 K_null 1 (-1) 1;
    mkCommand "sinterstore" "sinterstoreCommand" (-3) "wm" 0 K_null 1 (-1) 1;
    mkCommand "sunion" "sunionCommand" (-2) "rS" 0 K_null 1 (-1) 1;
    mkCommand "sunionstore" "sunionstoreCommand" (-3) "wm" 0 K_null 1 (-1) 1;
    mkCommand "sdiff" "sdiffCommand" (-2) "rS" 0 K_null 1 (-1) 1;
    mkCommand "sdiffstore" "sdiffstoreCommand" (-3) "wm" 0 K_null 1 (-1) 1;
    mkCommand "smembers" "sinterCommand" 2 "rS" 0 K_null 1 1 1;
    mkCommand "sscan" "sscanCommand" (-3) "rR" 0 K_null 1 1 1 ].

Definition sorted_hash_commands : list redisCommand :=
  [ mkCommand "zadd" "zaddCommand" (-4) "wmF" 0 K_null 1 1 1;
    mkCommand "zincrby" "zincrbyCommand" 4 "wmF" 0 K_null 1 1 1;
    mkCommand "zrem" "zremCommand" (-3) "wF" 0 K_null 1 1 1;
    mkCommand "zremrangebyscore" "zremrangebyscoreCommand" 4 "w" 0 K_null 1 1 1;
    mkCommand "zremrangebyrank" "zremrangebyrankCommand" 4 "w" 0 K_null 1 1 1;
    mkCommand "zremrangebylex" "zremrangebylexCommand" 4 "w" 0 K_null 1 1 1;
    mkCommand "zunionstore" "zunionstoreCommand" (-4) "wm" 0 K_zunionInterGetKeys 0 0 0;
    mkCommand "zinterstore" "zinterstoreCommand" (-4) "wm" 0 K_zunionInterGetKeys 0 0 0;
    mkCommand "zrange" "zrangeCommand" (-4) "r" 0 K_null 1 1 1;
    mkCommand "zrangebyscore" "zrangebyscoreCommand" (-4) "r" 0 K_null 1 1 1;
    mkCommand "zrevrangebyscore" "zrevrangebyscoreCommand" (-4) "r" 0 K_null 1 1 1;
    mkCommand "zrangebylex" "zrangebylexCommand" (-4) "r" 0 K_null 1 1 1;
    mkCommand "zrevrangebylex" "zrevrangebylexCommand" (-4) "r" 0 K_null 1 1 1;
    mkCommand "zcount" "zcountCommand" 4 "rF" 0 K_null 1 1 1;
    mkCommand "zlexcount" "zlexcountCommand" 4 "rF" 0 K_null 1 1 1;
    mkCommand "zrevrange" "zrevrangeCommand" (-4) "r" 0 K_null 1 1 1;
    mkCommand "zcard" "zcardCommand" 2 "rF" 0 K_null 1 1 1;
    mkCommand "zscore" "zscoreCommand" 3 "rF" 0 K_null 1 1 1;
    mkCommand "zrank" "zrankCommand" 3 "rF" 0 K_null 1 1 1;
    mkCommand "zrevrank" "zrevrankCommand" 3 "rF" 0 K_null 1 1 1;
    mkCommand "zscan" "zscanCommand" (-3) "rR" 0 K_null 1 1 1;
    mkCommand "ozadd" "ozaddCommand" (-4) "wmF" 0 K_null 1 1 1;
    mkCommand "ozincrby" "ozincrbyCommand" (-4) "wmF" 0 K_null 1 1 1;
    mkCommand "ozrem" "ozremCommand" (-3) "wF" 0 K_null 1 1 1;
    mkCommand "ozscore" "ozscoreCommand" 3 "rF" 0 K_null 1 1 1;
    mkCommand "ozmax" "ozmaxCommand" 2 "rF" 0 K_null 1 1 1;
    mkCommand "ozestatus" "ozestatusCommand" 3 "rF" 0 K_null 1 1 1;
    mkCommand "ozoverhead" "ozoverheadCommand" 2 "rF" 0 K_null 1 1 1;
    mkCommand "rzadd" "rzaddCommand" (-4) "wmF" 0 K_null 1 1 1;
    mkCommand "rzincrby" "rzincrbyCommand" (-4) "wmF" 0 K_null 1 1 1;
    mkCommand "rzrem" "rzremCommand" (-3) "wF" 0 K_null 1 1 1;
    mkCommand "rzscore" "rzscoreCommand" 3 "rF" 0 K_null 1 1 1;
    mkCommand "rzmax" "rzmaxCommand" 2 "rF" 0 K_null 1 1 1;
    mkCommand "rzestatus" "rzestatusCommand" 3 "rF" 0 K_null 1 1 1;
    mkCommand "rzoverhead" "rzoverheadCommand" 2 "rF" 0 K_null 1 1 1;
    mkCommand "hset" "hsetCommand" (-4) "wmF" 0 K_null 1 1 1;
    mkCommand "hsetnx" "hsetnxCommand" 4 "wmF" 0 K_null 1 1 1;
    mkCommand "hget" "hgetCommand" 3 "rF" 0 K_null 1 1 1;
    mkCommand "hmset" "hsetCommand" (-4) "wmF" 0 K_null 1 1 1;
    mkCommand "hmget" "hmgetCommand" (-3) "rF" 0 K_null 1 1 1;
    mkCommand "hincrby" "hincrbyCommand" 4 "wmF" 0 K_null 1 1 1;
    mkCommand "hincrbyfloat" "hincrbyfloatCommand" 4 "wmF" 0 K_null 1 1 1;
    mkCommand "hdel" "hdelCommand" (-3) "wF" 0 K_null 1 1 1;
    mkCommand "hlen" "hlenCommand" 2 "rF" 0 K_null 1 1 1;
    mkCommand "hstrlen" "hstrlenCommand" 3 "rF" 0 K_null 1 1 1;
    mkCommand "hkeys" "hkeysCommand" 2 "rS" 0 K_null 1 1 1;
    mkCommand "hvals" "hvalsCommand" 2 "rS" 0 K_null 1 1 1;
    mkCommand "hgetall" "hgetallCommand" 2 "r" 0 K_null 1 1 1;
    mkCommand "hexists" "hexistsCommand" 3 "rF" 0 K_null 1 1 1;
    mkCommand "hscan" "hscanCommand" (-3) "rR" 0 K_null 1 1 1 ].

Definition server_commands : list redisCommand :=
  [ mkCommand "incrby" "incrbyCommand" 3 "wmF" 0 K_null 1 1 1;
    mkCommand "decrby" "decrbyCommand" 3 "wmF" 0 K_null 1 1 1;
    mkCommand "incrbyfloat" "incrbyfloatCommand" 3 "wmF" 0 K_null 1 1 1;
    mkCommand "getset" "getsetCommand" 3 "wm" 0 K_null 1 1 1;
    mkCommand "mset" "msetCommand" (-3) "wm" 0 K_null 1 (-1) 2;
    mkCommand "msetnx" "msetnxCommand" (-3) "wm" 0 K_null 1 (-1) 2;
    mkCommand "randomkey" "randomkeyCommand" 1 "rR" 0 K_null 0 0 0;
    mkCommand "select" "selectCommand" 2 "lF" 0 K_null 0 0 0;
    mkCommand "swapdb" "swapdbCommand" 3 "wF" 0 K_null 0 0 0;
    mkCommand "move" "moveCommand" 3 "wF" 0 K_null 1 1 1;
    mkCommand "rename" "renameCommand" 3 "w" 0 K_null 1 2 1;
    mkCommand "renamenx" "renamenxCommand" 3 "wF" 0 K_null 1 2 1;
    mkCommand "expire" "expireCommand" 3 "wF" 0 K_null 1 1 1;
    mkCommand "expireat" "expireatCommand" 3 "wF" 0 K_null 1 1 1;
    mkCommand "pexpire" "pexpireCommand" 3 "wF" 0 K_null 1 1 1;
    mkCommand "pexpireat" "pexpireatCommand" 3 "wF" 0 K_null 1 1 1;
    mkCommand "keys" "keysCommand" 2 "rS" 0 K_null 0 0 0;
    mkCommand "scan" "scanCommand" (-2) "rR" 0 K_null 0 0 0;
    mkCommand "dbsize" "dbsizeCommand" 1 "rF" 0 K_null 0 0 0;
    mkCommand "auth" "authCommand" 2 "sltF" 0 K_null 0 0 0;
    mkCommand "ping" "pingCommand" (-1) "tF" 0 K_null 0 0 0;
    mkCommand "echo" "echoCommand" 2 "F" 0 K_null 0 0 0;
    mkCommand "save" "saveCommand" 1 "as" 0 K_null 0 0 0;
    mkCommand "bgsave" "bgsaveCommand" (-1) "a" 0 K_null 0 0 0;
    mkCommand "bgrewriteaof" "bgrewriteaofCommand" 1 "a" 0 K_null 0 0 0;
    mkCommand "shutdown" "shutdownCommand" (-1) "alt" 0 K_null 0 0 0;
    mkCommand "lastsave" "lastsaveCommand" 1 "RF" 0 K_null 0 0 0;
    mkCommand "type" "typeCommand" 2 "rF" 0 K_null 1 1 1;
    mkCommand "multi" "multiCommand" 1 "sF" 0 K_null 0 0 0;
    mkCommand "exec" "execCommand" 1 "sM" 0 K_null 0 0 0;
    mkCommand "discard" "discardCommand" 1 "sF" 0 K_null 0 0 0;
    mkCommand "sync" "syncCommand" 1 "ars" 0 K_null 0 0 0;
    mkCommand "psync" "syncCommand" 3 "ars" 0 K_null 0 0 0;
    mkCommand "replconf" "replconfCommand" (-1) "aslt" 0 K_null 0 0 0;
    mkCommand "flushdb" "flushdbCommand" (-1) "w" 0 K_null 0 0 0;
    mkCommand "flushall" "flushallCommand" (-1) "w" 0 K_null 0 0 0;
    mkCommand "sort" "sortCommand" (-2) "wm" 0 K_sortGetKeys 1 1 1;
    mkCommand "info" "infoCommand" (-1) "lt" 0 K_null 0 0 0;
    mkCommand "monitor" "monitorCommand" 1 "as" 0 K_null 0 0 0;
    mkCommand "ttl" "ttlCommand" 2 "rF" 0 K_null 1 1 1;
    mkCommand "touch" "touchCommand" (-2) "rF" 0 K_null 1 1 1;
    mkCommand "pttl" "pttlCommand" 2 "rF" 0 K_null 1 1 1;
    mkCommand "persist" "persistCommand" 2 "wF" 0 K_null 1 1 1;
    mkCommand "slaveof" "slaveofCommand" 3 "ast" 0 K_null 0 0 0;
    mkCommand "role" "roleCommand" 1 "lst" 0 K_null 0 0 0;
    mkCommand "debug" "debugCommand" (-1) "as" 0 K_null 0 0 0;
    mkCommand "config" "configCommand" (-2) "lat" 0 K_null 0 0 0;
    mkCommand "subscribe" "subscribeCommand" (-2) "pslt" 0 K_null 0 0 0;
    mkCommand "unsubscribe" "unsubscribeCommand" (-1) "pslt" 0 K_null 0 0 0;
    mkCommand "psubscribe" "psubscribeCommand" (-2) "pslt" 0 K_null 0 0 0;
    mkCommand "punsubscribe" "punsubscribeCommand" (-1) "pslt" 0 K_null 0 0 0;
    mkCommand "publish" "publishCommand" 3 "pltF" 0 K_null 0 0 0;
    mkCommand "pubsub" "pubsubCommand" (-2) "pltR" 0 K_null 0 0 0;
    mkCommand "watch" "watchCommand" (-2) "sF" 0 K_null 1 (-1) 1;
    mkCommand "unwatch" "unwatchCommand" 1 "sF" 0 K_null 0 0 0;
    mkCommand "cluster" "clusterCommand" (-2) "a" 0 K_null 0 0 0;
    mkCommand "restore" "restoreCommand" (-4) "wm" 0 K_null 1 1 1;
    mkCommand "restore-asking" "restoreCommand" (-4) "wmk" 0 K_null 1 1 1;
    mkCommand "migrate" "migrateCommand" (-6) "w" 0 K_migrateGetKeys 0 0 0;
    mkCommand "asking" "askingCommand" 1 "F" 0 K_null 0 0 0;
    mkCommand "readonly" "readonlyCommand" 1 "F" 0 K_null 0 0 0;
    mkCommand "readwrite" "readwriteCommand" 1 "F" 0 K_null 0 0 0;
    mkCommand "dump" "dumpCommand" 2 "r" 0 K_null 1 1 1;
    mkCommand "object" "objectCommand" (-2) "r" 0 K_null 2 2 2;
    mkCommand "memory" "memoryCommand" (-2) "r" 0 K_null 0 0 0;
    mkCommand "client" "clientCommand" (-2) "as" 0 K_null 0 0 0;
    mkCommand "eval" "evalCommand" (-3) "s" 0 K_evalGetKeys 0 0 0;
    mkCommand "evalsha" "evalShaCommand" (-3) "s" 0 K_evalGetKeys 0 0 0;
    mkCommand "slowlog" "slowlogCommand" (-2) "a" 0 K_null 0 0 0;
    mkCommand "script" "scriptCommand" (-2) "s" 0 K_null 0 0 0;
    mkCommand "time" "timeCommand" 1 "RF" 0 K_null 0 0 0;
    mkCommand "bitop" "bitopCommand" (-4) "wm" 0 K_null 2 (-1) 1;
    mkCommand "bitcount" "bitcountCommand" (-2) "r" 0 K_null 1 1 1;
    mkCommand "bitpos" "bitposCommand" (-3) "r" 0 K_null 1 1 1;
    mkCommand "wait" "waitCommand" 3 "s" 0 K_null 0 0 0;
    mkCommand "command" "commandCommand" 0 "lt" 0 K_null 0 0 0;
    mkCommand "geoadd" "geoaddCommand" (-5) "wm" 0 K_null 1 1 1;
    mkCommand "georadius" "georadiusCommand" (-6) "w" 0 K_georadiusGetKeys 1 1 1;
    mkCommand "georadius_ro" "georadiusroCommand" (-6) "r" 0 K_georadiusGetKeys 1 1 1;
    mkCommand "georadiusbymember" "georadiusbymemberCommand" (-5) "w" 0 K_georadiusGetKeys 1 1 1;
    mkCommand "georadiusbymember_ro" "georadiusbymemberroCommand" (-5) "r" 0 K_georadiusGetKeys 1 1 1;
    mkCommand "geohash" "geohashCommand" (-2) "r" 0 K_null 1 1 1;
    mkCommand "geopos" "geoposCommand" (-2) "r" 0 K_null 1 1 1;
    mkCommand "geodist" "geodistCommand" (-4) "r" 0 K_null 1 1 1;
    mkCommand "pfselftest" "pfselftestCommand" 1 "a" 0 K_null 0 0 0;
    mkCommand "pfadd" "pfaddCommand" (-2) "wmF" 0 K_null 1 1 1;
    mkCommand "pfcount" "pfcountCommand" (-2) "r" 0 K_null 1 (-1) 1;
    mkCommand "pfmerge" "pfmergeCommand" (-2) "wm" 0 K_null 1 (-1) 1;
    mkCommand "pfdebug" "pfdebugCommand" (-3) "w" 0 K_null 0 0 0;
    mkCommand "post" "securityWarningCommand" (-1) "lt" 0 K_null 0 0 0;
    mkCommand "host:" "securityWarningCommand" (-1) "lt" 0 K_null 0 0 0;
    mkCommand "latency" "latencyCommand" (-2) "aslt" 0 K_null 0 0 0 ].

(** The entry of [rwftreecreate] has one field less than the others: its flags are
    the null pointer, and every later value stands one field too early. *)
Definition replicated_commands : list redisCommand :=
  [ mkCommand "replicate" "replicateCommand" (-3) "ast" 0 K_null 0 0 0;
    mkCommand "repltest" "repltestCommand" (-1) "astF" 0 K_null 0 0 0;
    mkCommand "vcnew" "vcnewCommand" (-2) "wm" 0 K_null 1 1 1;
    mkCommand "vcget" "vcgetCommand" 2 "rF" 0 K_null 1 1 1;
    mkCommand "vcinc" "vcincCommand" (-2) "wmF" 0 K_null 1 1 1;
    mkCommand "rwftreecreate" "CreateTreeCommand" 2 "wmF" 0 (K_address 1) 1 1 0;
    mkCommand "rwftreeinsert" "InsertWithIdCommand" (-5) "wmF" 0 K_null 1 1 1;
    mkCommand "rwftreedelete" "DeleteCommand" (-3) "wF" 0 K_null 1 1 1;
    mkCommand "rwftreechangevalue" "ChangeValueCommand" (-4) "wmF" 0 K_null 1 1 1;
    mkCommand "rwftreemove" "MoveCommand" (-4) "wmF" 0 K_null 1 1 1;
    mkCommand "rwftreemembers" "treeMembersCommand" 2 "rF" 0 K_null 1 1 1;
    mkCommand "rwftreeovhd" "treeOverhead" 2 "rF" 0 K_null 1 1 1;
    mkCommand "rwfsadd" "rwsaddCommand" (-3) "wmF" 0 K_null 1 1 1;
    mkCommand "rwfsrem" "rwsremCommand" (-3) "wF" 0 K_null 1 1 1;
    mkCommand "rwfsinter" "sinterCommand" (-2) "rS" 0 K_null 1 (-1) 1;
    mkCommand "rwfsinterstore" "rwsinterstoreCommand" (-3) "wm" 0 K_null 1 (-1) 1;
    mkCommand "rwfsunion" "sunionCommand" (-2) "rS" 0 K_null 1 (-1) 1;
    mkCommand "rwfsunionstore" "rwsunionstoreCommand" (-3) "wm" 0 K_null 1 (-1) 1;
    mkCommand "rwfsdiff" "sdiffCommand" (-2) "rS" 0 K_null 1 (-1) 1;
    mkCommand "rwfsdiffstore" "rwsdiffstoreCommand" (-3) "wm" 0 K_null 1 (-1) 1;
    mkCommand "rwfsetovhd" "rwfSetOverhead" 2 "rF" 0 K_null 1 1 1;
    mkCommand "pnsadd" "pnsaddCommand" (-3) "wmF" 0 K_null 1 1 1;
    mkCommand "pnsrem" "pnsremCommand" (-3) "wF" 0 K_null 1 1 1;
    mkCommand "pnsunion" "sunionCommand" (-2) "rS" 0 K_null 1 (-1) 1;
    mkCommand "pnsunionstore" "pnsunionstoreCommand" (-3) "wm" 0 K_null 1 (-1) 1;
    mkCommand "pnsdiff" "sdiffCommand" (-2) "rS" 0 K_null 1 (-1) 1;
    mkCommand "pnsdiffstore" "pnsdiffstoreCommand" (-3) "wm" 0 K_null 1 (-1) 1;
    mkCommand "pnsinter" "sinterCommand" (-2) "rS" 0 K_null 1 (-1) 1;
    mkCommand "pnsinterstore" "pnsinterstoreCommand" (-3) "wm" 0 K_null 1 (-1) 1;
    mkCommand "pnsetovhd" "pnSetOverhead" 2 "rF" 0 K_null 1 1 1;
    mkCommand "orsadd" "orsaddCommand" (-3) "wmF" 0 K_null 1 1 1;
    mkCommand "orsrem" "orsremCommand" (-3) "wF" 0 K_null 1 1 1;
    mkCommand "orsunionstore" "orsunionstoreCommand" (-3) "wm" 0 K_null 1 (-1) 1;
    mkCommand "orsdiffstore" "orsdiffstoreCommand" (-3) "wm" 0 K_null 1 (-1) 1;
    mkCommand "orsinterstore" "orsinterstoreCommand" (-3) "wm" 0 K_null 1 (-1) 1;
    mkCommand "orsetovhd" "orSetOverhead" 2 "rF" 0 K_null 1 1 1 ].

Definition redisCommandTable : list redisCommand :=
  (string_list_set_commands ++ sorted_hash_commands ++ server_commands ++ replicated_commands)%list.
End Table.

(** ** Loading and looking up *)

(** [None] is the panic on a flag that does not exist. *)
Definition flag_of (c : ascii) : option Z :=
  if bool_decide (c = "w"%char) then Some CMD_WRITE
  else if bool_decide (c = "r"%char) then Some CMD_READONLY
  else if bool_decide (c = "m"%char) then Some CMD_DENYOOM
  else if bool_decide (c = "a"%char) then Some CMD_ADMIN
  else if bool_decide (c = "p"%char) then Some CMD_PUBSUB
  else if bool_decide (c = "s"%char) then Some CMD_NOSCRIPT
  else if bool_decide (c = "R"%char) then Some CMD_RANDOM
  else if bool_decide (c = "S"%char) then Some CMD_SORT_FOR_SCRIPT
  else if bool_decide (c = "l"%char) then Some CMD_LOADING
  else if bool_decide (c = "t"%char) then Some CMD_STALE
  else if bool_decide (c = "M"%char) then Some CMD_SKIP_MONITOR
  else if bool_decide (c = "k"%char) then Some CMD_ASKING
  else if bool_decide (c = "F"%char) then Some CMD_FAST
  else None.

Fixpoint parse_flags (f : list ascii) (flags : Z) : option Z :=
  match f with
  | [] => Some flags
  | c :: f => b ← flag_of c; parse_flags f (Z.lor flags b)
  end.

Section Lookup.
(** The bucket of a name in the hash table of the commands: a hash of the whole
    name without regard to case, while names are compared as C strings. *)
Context (bucket : sds -> Z).

Definition hit (name : sds) (c : redisCommand) : bool := strcaseeq (c_name c) name && (bucket (c_name c) =? bucket name).

Definition lookupCommand (commands : list redisCommand) (name : sds) : option redisCommand := List.find (hit name) commands.

(** One entry of the table after the other; [None] is the panic on its flags, or
    the failed assertion that its name is new. *)
Fixpoint populate (table commands : list redisCommand) : option (list redisCommand) :=
  match table with
  | [] => Some commands
  | c :: table =>
      f ← parse_flags (chars (sflags c)) (c_flags c);
      match lookupCommand commands (c_name c) with
      | Some _ => None
      | None => populate table (commands ++ [set_cmd_flags f c])
      end
  end.
Definition populateCommandTable : option (list redisCommand) := populate redisCommandTable [].
End Lookup.

(** The check of the number of arguments, the name included. *)
Definition arity_ok (c : redisCommand) (argc : Z) : bool :=
  negb (((0 <? arity c) && negb (arity c =? argc)) || (argc <? - arity c)).

(** ** Keys among the arguments *)

(** The positions of keys, or an abort: a panic, a call of a bad address, an
    allocation of a negative size, an access out of bounds. *)
Abbreviation keys_result := (outcome unit (list Z)).
Definition argc_of (argv : list sds) : Z := Z.of_nat (length argv).

Fixpoint table_loop (fuel : nat) (cmd : redisCommand) (argc last j : Z) (keys : list Z) : keys_result :=
  match fuel with
  | O => OutOfFuel
  | S fuel =>
      if last <? j then Done keys tt
      else if argc <=? j then
        if has_flag cmd CMD_MODULE || (arity cmd <? 0) then Done [] tt else Crash
      else table_loop fuel cmd argc last (j + keystep cmd) (keys ++ [j])
  end.

(** Every round moves [j] towards the number of arguments. *)
Definition getKeysUsingCommandTable (cmd : redisCommand) (argv : list sds) : keys_result :=
  if firstkey cmd =? 0 then Done [] tt
  else
    let argc := argc_of argv in
    let last := if lastkey cmd <? 0 then argc + lastkey cmd else lastkey cmd in
    if last - firstkey cmd + 1 <? 0 then Crash
    else table_loop (S (length argv)) cmd argc last (firstkey cmd) [].

Definition zunionInterGetKeys (argv : list sds) : keys_result :=
  match argv !! 2%nat with
  | None => Crash
  | Some a =>
      let num := atoi (chars a) in
      if argc_of argv - 3 <? num then Done [] tt
      else if num + 1 <? 0 then Crash
      else if num <? 0 then Crash                       (* keys[num] = 1 *)
      else Done (seqZ 3 num ++ [1]) tt
  end.

Definition evalGetKeys (argv : list sds) : keys_result :=
  match argv !! 2%nat with
  | None => Crash
  | Some a =>
      let num := atoi (chars a) in
      if argc_of argv - 3 <? num then Done [] tt
      else if num <? 0 then Crash
      else Done (seqZ 3 num) tt
  end.

(** The options of SORT: how many arguments to skip, and the position after a
    STORE that has one. *)
Definition skiplist : list (sds * Z) := [("limit"%string, 2); ("get"%string, 1); ("by"%string, 1)].
Fixpoint sort_option (skiplist : list (sds * Z)) (a : sds) (i argc : Z) : Z * option Z :=
  match skiplist with
  | [] => (0, None)
  | (name, skip) :: l =>
      if strcaseeq a name then (skip, None)
      else if strcaseeq a "store"%string && (i + 1 <? argc) then (0, Some (i + 1))
      else sort_option l a i argc
  end.
Fixpoint sort_loop (fuel : nat) (argv : list sds) (i : Z) (store : option Z) : keys_result :=
  match fuel with
  | O => OutOfFuel
  | S fuel =>
      if argc_of argv <=? i then Done (1 :: option_list store) tt
      else
        match argv !! Z.to_nat i with
        | None => Crash
        | Some a =>
            let '(skip, found) := sort_option skiplist a i (argc_of argv) in
            sort_loop fuel argv (i + skip + 1) (if found is Some _ then found else store)
        end
  end.
Definition sortGetKeys (argv : list sds) : keys_result := sort_loop (S (length argv)) argv 2 None.

(** The position of KEYS from [i] on. *)
Fixpoint migrate_keys (l : list sds) (i : Z) : option Z :=
  match l with
  | [] => None
  | a :: l => if strcaseeq a "keys"%string then Some i else migrate_keys l (i + 1)
  end.
Definition migrateGetKeys (argv : list sds) : keys_result :=
  match (if 6 <? argc_of argv then migrate_keys (drop 6 argv) 6 else None) with
  | None => Done (seqZ 3 1) tt
  | Some i =>
      match argv !! 3%nat with
      | None => Crash
      | Some k =>
          if bool_decide (k = EmptyString) then Done (seqZ (i + 1) (argc_of argv - (i + 1))) tt else Done (seqZ 3 1) tt
      end
  end.

Fixpoint georadius_loop (fuel : nat) (argv : list sds) (i : Z) (stored : option Z) : keys_result :=
  match fuel with
  | O => OutOfFuel
  | S fuel =>
      if argc_of argv <=? i then Done (1 :: option_list stored) tt
      else
        match argv !! Z.to_nat i with
        | None => Crash
        | Some a =>
            if (strcaseeq a "store"%string || strcaseeq a "storedist"%string) && (i + 1 <? argc_of argv)
            then georadius_loop fuel argv (i + 2) (Some (i + 1))
            else georadius_loop fuel argv (i + 1) stored
        end
  end.
Definition georadiusGetKeys (argv : list sds) : keys_result := georadius_loop (S (length argv)) argv 5 None.

(** [moduleGetCommandKeysViaAPI] asks the module a command comes from. *)
Definition getKeysFromCommand (moduleGetCommandKeysViaAPI : redisCommand -> list sds -> keys_result)
    (cmd : redisCommand) (argv : list sds) : keys_result :=
  if has_flag cmd CMD_MODULE_GETKEYS then moduleGetCommandKeysViaAPI cmd argv
  else if has_flag cmd CMD_MODULE then getKeysUsingCommandTable cmd argv
  else
    match getkeys_proc cmd with
    | K_null => getKeysUsingCommandTable cmd argv
    | K_zunionInterGetKeys => zunionInterGetKeys argv
    | K_evalGetKeys => evalGetKeys argv
    | K_sortGetKeys => sortGetKeys argv
    | K_migrateGetKeys => migrateGetKeys argv
    | K_georadiusGetKeys => georadiusGetKeys argv
    | K_address _ => Crash
    end.

(** ** The table is well formed *)

Definition flagged (c : redisCommand) : redisCommand :=
  match parse_flags (chars (sflags c)) (c_flags c) with Some f => set_cmd_flags f c | None => c end.

(** The commands after the start of the server. *)
Definition commands : list redisCommand := flagged <$> redisCommandTable.

Fixpoint distinct (names : list sds) : bool :=
  match names with
  | [] => true
  | n :: l => forallb (fun m => negb (strcaseeq n m)) l && distinct l
  end.

Lemma strcaseeq_sym s t : strcaseeq s t = strcaseeq t s.
Proof. unfold strcaseeq. apply bool_decide_ext. naive_solver. Qed.
Lemma strcaseeq_trans s t u : strcaseeq s t = true -> strcaseeq t u = true -> strcaseeq s u = true.
Proof. unfold strcaseeq. rewrite !bool_decide_eq_true. congruence. Qed.
Lemma tolower_nul c : tolower c = NUL -> c = NUL.
Proof. destruct c as [[] [] [] [] [] [] [] []]; vm_compute; intros H; exact H || discriminate H. Qed.
Lemma same_letters_eq s : forall t, tolower <$> chars s = tolower <$> chars t -> strcaseeq s t = true.
Proof.
  unfold strcaseeq, lower. intros t H. apply bool_decide_eq_true. revert t H.
  induction s as [|c s IH]; intros [|d t] H; try done. cbn in H. injection H as Hc H. specialize (IH _ H).
  assert (c = NUL <-> d = NUL) as Hn by (split; intros ->; [symmetry in Hc|]; apply tolower_nul, Hc).
  cbn [sdsnew]. destruct (decide (c = NUL)) as [Hz|Hz].
  - by rewrite (bool_decide_true _ Hz), (bool_decide_true _ (proj1 Hn Hz)).
  - rewrite (bool_decide_false _ Hz), bool_decide_false by (by rewrite <- Hn). cbn. by rewrite Hc, IH.
Qed.
Lemma flagged_name c : c_name (flagged c) = c_name c.
Proof. unfold flagged. by destruct (parse_flags _ _). Qed.

Lemma find_none {A} (f : A -> bool) l : (forall x, x ∈ l -> f x = false) -> List.find f l = None.
Proof. induction l as [|x l IH]; intros H; [done|]. cbn. rewrite (H x) by left. apply IH. intros y Hy. apply H. by right. Qed.

Section Loaded.
Context (bucket : sds -> Z).

Lemma populate_ok table : forall cs,
  forallb (fun c => bool_decide (is_Some (parse_flags (chars (sflags c)) (c_flags c)))) table = true ->
  distinct ((c_name <$> cs) ++ (c_name <$> table)) = true ->
  populate bucket table cs = Some (cs ++ (flagged <$> table)).
Proof.
  induction table as [|c table IH]; intros cs Hf Hd; [by rewrite app_nil_r|].
  cbn [forallb] in Hf. apply andb_prop in Hf as [Hc Hf]. apply bool_decide_eq_true in Hc as [f Hc].
  cbn [populate]. rewrite Hc. cbn [mbind option_bind].
  assert (forall x, x ∈ cs -> hit bucket (c_name c) x = false) as Hno.
  { intros x Hx. unfold hit. apply list_elem_of_split in Hx as (l1 & l2 & ->). rewrite !fmap_app, fmap_cons, <- app_assoc in Hd.
    clear -Hd. induction l1 as [|y l1 IH]; cbn in Hd; apply andb_prop in Hd as [H1 H2]; [|by apply IH].
    rewrite forallb_app in H1. apply andb_prop in H1 as [_ H1]. cbn in H1. apply andb_prop in H1 as [H1 _].
    by destruct (strcaseeq (c_name x) (c_name c)). }
  unfold lookupCommand. rewrite (find_none _ _ Hno).
  assert (flagged c = set_cmd_flags f c) as He by (unfold flagged; by rewrite Hc).
  rewrite (IH (cs ++ [set_cmd_flags f c]) Hf), <- app_assoc; [by rewrite <- He|].
  rewrite fmap_app, <- app_assoc. exact Hd.
Qed.

Lemma populate_loads : populateCommandTable bucket = Some commands.
Proof. apply (populate_ok redisCommandTable []); vm_compute; reflexivity. Qed.

(** What the lookup relies on: names that differ in case only share a bucket. *)
Context (Hbucket : forall s t, tolower <$> chars s = tolower <$> chars t -> bucket s = bucket t).

Lemma commands_distinct : distinct (c_name <$> commands) = true.
Proof. vm_compute. reflexivity. Qed.

Lemma lookup_found c name :
  c ∈ commands -> tolower <$> chars name = tolower <$> chars (c_name c) -> lookupCommand bucket commands name = Some c.
Proof using Hbucket.
  intros Hc Hn. pose proof commands_distinct as Hd. unfold lookupCommand. revert Hc Hd. generalize commands as l.
  induction l as [|x l IH]; intros Hc Hd; [by apply not_elem_of_nil in Hc|]. cbn in Hd. apply andb_prop in Hd as [Hx Hd].
  cbn [List.find]. apply elem_of_cons in Hc as [<-|Hc].
  - unfold hit. rewrite strcaseeq_sym, (same_letters_eq _ _ Hn), (Hbucket _ _ Hn), Z.eqb_refl. done.
  - unfold hit at 1. destruct (strcaseeq (c_name x) name) eqn:E; [|by apply IH].
    exfalso. rewrite forallb_forall in Hx. specialize (Hx (c_name c)). rewrite (strcaseeq_trans _ name) in Hx; [|done|by apply same_letters_eq].
    discriminate Hx. apply list_elem_of_In, list_elem_of_fmap. eauto.
Qed.
End Loaded.

Lemma lookup_inv bucket l name c : lookupCommand bucket l name = Some c -> c ∈ l /\ strcaseeq (c_name c) name = true.
Proof.
  intros H. apply List.find_some in H as [Hi Hh]. apply list_elem_of_In in Hi. split; [done|]. unfold hit in Hh. by apply andb_prop in Hh as [? _].
Qed.

(** ** The keys of a request *)

Lemma arity_min c argc : arity_ok c argc = true -> Z.abs (arity c) <= argc \/ arity c = 0.
Proof. unfold arity_ok. destruct (Z.ltb_spec 0 (arity c)), (Z.eqb_spec (arity c) argc), (Z.ltb_spec argc (- arity c)); cbn; try done; lia. Qed.

(** The fields of an entry fit its number of arguments. *)
Definition keys_fit (c : redisCommand) : bool :=
  let least := Z.abs (arity c) in
  negb (has_flag c CMD_MODULE) && negb (has_flag c CMD_MODULE_GETKEYS) &&
  match getkeys_proc c with
  | K_null =>
      (firstkey c =? 0) ||
      (negb (arity c =? 0) && (1 <=? firstkey c) && (1 <=? keystep c) &&
       if lastkey c <? 0 then firstkey c - 1 <=? least + lastkey c
       else (firstkey c - 1 <=? lastkey c) && ((arity c <? 0) || (lastkey c <? arity c)))
  | K_zunionInterGetKeys | K_evalGetKeys => 3 <=? least
  | K_sortGetKeys | K_georadiusGetKeys => 2 <=? least
  | K_migrateGetKeys => 4 <=? least
  | K_address _ => false
  end.

(** All entries but the one that misses a field. *)
Lemma commands_fit c : c ∈ commands -> c_name c <> "rwftreecreate"%string -> keys_fit c = true.
Proof.
  intros Hc Hn. assert (forallb (fun c => bool_decide (c_name c = "rwftreecreate"%string) || keys_fit c) commands = true) as Hall by (vm_compute; reflexivity).
  rewrite forallb_forall in Hall. specialize (Hall c (proj1 (list_elem_of_In _ _) Hc)). by rewrite bool_decide_false in Hall.
Qed.

(** Positions of arguments after the name. *)
Definition positions (argv : list sds) (r : keys_result) : Prop :=
  exists keys, r = Done keys tt /\ Forall (fun k => 0 < k < argc_of argv) keys.

Lemma seqZ_positions argv a n : 0 < a -> a + n <= argc_of argv -> Forall (fun k => 0 < k < argc_of argv) (seqZ a n).
Proof. intros Ha Hn. apply Forall_forall. intros k Hk. apply elem_of_seqZ in Hk. lia. Qed.

Lemma table_loop_positions cmd argv last : forall fuel j keys,
  1 <= keystep cmd -> 0 < j -> argc_of argv - j < Z.of_nat fuel -> (arity cmd < 0 \/ last < argc_of argv) ->
  Forall (fun k => 0 < k < argc_of argv) keys -> (0 < fuel)%nat ->
  positions argv (table_loop fuel cmd (argc_of argv) last j keys).
Proof.
  induction fuel as [|fuel IH]; intros j keys Hs Hj Hf Hl Hk Hp; [lia|]. cbn [table_loop].
  destruct (Z.ltb_spec last j) as [Hlt|Hlt]; [by exists keys|]. destruct (Z.leb_spec (argc_of argv) j) as [Ha|Ha].
  - destruct Hl as [Hl|Hl]; [|lia]. replace (arity cmd <? 0) with true by lia. rewrite orb_true_r. by exists [].
  - apply IH; try done; try lia. apply Forall_app. split; [done|]. apply Forall_singleton. lia.
Qed.

Lemma table_positions cmd argv :
  getkeys_proc cmd = K_null -> keys_fit cmd = true -> arity_ok cmd (argc_of argv) = true ->
  positions argv (getKeysUsingCommandTable cmd argv).
Proof.
  intros Hg Hfit Ha. apply arity_min in Ha. unfold keys_fit in Hfit. rewrite Hg in Hfit. apply andb_prop in Hfit as [_ Hfit].
  unfold getKeysUsingCommandTable. destruct (Z.eqb_spec (firstkey cmd) 0) as [_|Hf]; [by exists []|]. cbn [orb] in Hfit.
  apply andb_prop in Hfit as [Hb Hlast]. apply andb_prop in Hb as [Hb Hst]. apply andb_prop in Hb as [Hz Hfi].
  cbv zeta. destruct (Z.ltb_spec (lastkey cmd) 0) as [Hl|Hl].
  - replace (argc_of argv + lastkey cmd - firstkey cmd + 1 <? 0) with false by lia.
    apply table_loop_positions; try lia; [unfold argc_of; lia|apply Forall_nil_2].
  - apply andb_prop in Hlast as [H1 H2]. replace (lastkey cmd - firstkey cmd + 1 <? 0) with false by lia.
    apply table_loop_positions; try lia; [unfold argc_of; lia|apply Forall_nil_2].
Qed.

(** A key position found later is one of the arguments. *)
Definition found_ok (argv : list sds) (o : option Z) : Prop := forall k, o = Some k -> 0 < k < argc_of argv.

Lemma sort_option_spec argv l a i : 0 <= i ->
  Forall (fun e => 0 <= e.2) l ->
  0 <= (sort_option l a i (argc_of argv)).1 /\ found_ok argv (sort_option l a i (argc_of argv)).2.
Proof.
  intros Hi. induction l as [|[n s] l IH]; intros Hl; [by split|]. apply Forall_cons_1 in Hl as [Hs Hl]. cbn [sort_option].
  destruct (strcaseeq a n); [by split|]. destruct (strcaseeq a "store" && _) eqn:E; [|by apply IH].
  apply andb_prop in E as [_ E]. split; [done|]. intros k [= <-]. lia.
Qed.
Lemma one_more_position argv o : 1 < argc_of argv -> found_ok argv o -> positions argv (Done (1 :: option_list o) tt).
Proof.
  intros Ha Ho. eexists. split; [done|]. apply Forall_cons_2; [lia|]. destruct o as [k|]; [apply Forall_singleton; by apply Ho|apply Forall_nil_2].
Qed.
Lemma sort_loop_positions argv : forall fuel i store,
  1 < argc_of argv -> 0 < i -> argc_of argv - i < Z.of_nat fuel -> (0 < fuel)%nat -> found_ok argv store ->
  positions argv (sort_loop fuel argv i store).
Proof.
  induction fuel as [|fuel IH]; intros i store Ha Hi Hf Hp Ho; [lia|]. cbn [sort_loop].
  destruct (Z.leb_spec (argc_of argv) i) as [Hge|Hlt]; [by apply one_more_position|].
  destruct (lookup_lt_is_Some_2 argv (Z.to_nat i)) as [a ->]; [unfold argc_of in *; lia|].
  pose proof (sort_option_spec argv skiplist a i ltac:(lia)) as Hspec. destruct (sort_option skiplist a i (argc_of argv)) as [skip found].
  destruct Hspec as [Hsk Hfo]; [repeat (apply Forall_cons_2; [cbn; lia|]); apply Forall_nil_2|]. cbn [fst snd] in *.
  apply IH; try done; try lia. by destruct found.
Qed.
Lemma georadius_loop_positions argv : forall fuel i store,
  1 < argc_of argv -> 0 < i -> argc_of argv - i < Z.of_nat fuel -> (0 < fuel)%nat -> found_ok argv store ->
  positions argv (georadius_loop fuel argv i store).
Proof.
  induction fuel as [|fuel IH]; intros i store Ha Hi Hf Hp Ho; [lia|]. cbn [georadius_loop].
  destruct (Z.leb_spec (argc_of argv) i) as [Hge|Hlt]; [by apply one_more_position|].
  destruct (lookup_lt_is_Some_2 argv (Z.to_nat i)) as [a ->]; [unfold argc_of in *; lia|].
  destruct ((strcaseeq a "store" || _) && _) eqn:E; apply IH; try done; try lia.
  apply andb_prop in E as [_ E]. intros k [= <-]. lia.
Qed.

Lemma migrate_keys_range l : forall i k, migrate_keys l i = Some k -> i <= k < i + Z.of_nat (length l).
Proof.
  induction l as [|a l IH]; intros i k H; [done|]. cbn in H. cbn [length]. destruct (strcaseeq a "keys"); [injection H as <-; lia|].
  specialize (IH _ _ H). lia.
Qed.
Lemma migrate_positions argv : 4 <= argc_of argv -> positions argv (migrateGetKeys argv).
Proof.
  intros Ha. unfold migrateGetKeys. assert (positions argv (Done (seqZ 3 1) tt)) as Hone by (eexists; split; [done|]; apply seqZ_positions; lia).
  destruct (if 6 <? argc_of argv then migrate_keys (drop 6 argv) 6 else None) as [i|] eqn:E; [|done].
  destruct (Z.ltb_spec 6 (argc_of argv)) as [H6|]; [|done]. apply migrate_keys_range in E. rewrite length_drop in E. unfold argc_of in *.
  destruct (lookup_lt_is_Some_2 argv 3) as [k ->]; [lia|]. case_bool_decide; [|done].
  eexists. split; [done|]. apply seqZ_positions; unfold argc_of; lia.
Qed.

(** The announced number of keys, where a command has one. *)
Definition numkeys (cmd : redisCommand) (argv : list sds) : option Z :=
  match getkeys_proc cmd with
  | K_zunionInterGetKeys | K_evalGetKeys => (fun a => atoi (chars a)) <$> argv !! 2%nat
  | _ => None
  end.

(** For a request with a right number of arguments, and no negative number of
    keys, the positions are those of arguments. *)
Lemma keys_positions module_keys cmd argv :
  cmd ∈ commands -> c_name cmd <> "rwftreecreate"%string -> arity_ok cmd (argc_of argv) = true ->
  (forall n, numkeys cmd argv = Some n -> 0 <= n) ->
  positions argv (getKeysFromCommand module_keys cmd argv).
Proof.
  intros Hc Hn Ha Hnum. pose proof (commands_fit cmd Hc Hn) as Hfit. pose proof (arity_min _ _ Ha) as Hmin.
  pose proof Hfit as Hfit'. unfold keys_fit in Hfit'. apply andb_prop in Hfit' as [Hm Hk]. apply andb_prop in Hm as [Hm1 Hm2].
  unfold getKeysFromCommand. apply negb_true_iff in Hm1, Hm2. rewrite Hm1, Hm2. unfold numkeys in Hnum.
  destruct (getkeys_proc cmd) eqn:Hg; try discriminate Hk.
  - by apply table_positions.
  - destruct (lookup_lt_is_Some_2 argv 2) as [a Hl]; [unfold argc_of in *; lia|]. unfold zunionInterGetKeys. rewrite Hl in *. cbv zeta.
    specialize (Hnum _ eq_refl). destruct (Z.ltb_spec (argc_of argv - 3) (atoi (chars a))); [by exists []|].
    replace (atoi (chars a) + 1 <? 0) with false by lia. replace (atoi (chars a) <? 0) with false by lia.
    eexists. split; [done|]. apply Forall_app. split; [apply seqZ_positions; lia|]. apply Forall_singleton. lia.
  - destruct (lookup_lt_is_Some_2 argv 2) as [a Hl]; [unfold argc_of in *; lia|]. unfold evalGetKeys. rewrite Hl in *. cbv zeta.
    specialize (Hnum _ eq_refl). destruct (Z.ltb_spec (argc_of argv - 3) (atoi (chars a))); [by exists []|].
    replace (atoi (chars a) <? 0) with false by lia. eexists. split; [done|]. apply seqZ_positions; lia.
  - apply sort_loop_positions; try done; unfold argc_of in *; lia.
  - apply migrate_positions. lia.
  - apply georadius_loop_positions; try done; unfold argc_of in *; lia.
Qed.

(** The requests for which they are not: the keys of the command whose entry
    misses a field, and a negative number of keys. *)
Definition keys_fatal (cmd : redisCommand) (argv : list sds) : Prop :=
  c_name cmd = "rwftreecreate"%string \/ exists n, numkeys cmd argv = Some n /\ n < 0.

Lemma create_entry c : c ∈ commands -> c_name c = "rwftreecreate"%string ->
  has_flag c CMD_MODULE_GETKEYS = false /\ has_flag c CMD_MODULE = false /\ exists a, getkeys_proc c = K_address a.
Proof.
  intros Hc Hn. assert (forallb (fun c => negb (bool_decide (c_name c = "rwftreecreate"%string)) ||
    (negb (has_flag c CMD_MODULE_GETKEYS) && negb (has_flag c CMD_MODULE) && match getkeys_proc c with K_address _ => true | _ => false end)) commands = true)
    as Hall by (vm_compute; reflexivity).
  rewrite forallb_forall in Hall. specialize (Hall c (proj1 (list_elem_of_In _ _) Hc)). rewrite bool_decide_true in Hall by done.
  cbn [negb orb] in Hall. apply andb_prop in Hall as [Hf Hp]. apply andb_prop in Hf as [H1%negb_true_iff H2%negb_true_iff].
  split_and!; [done..|]. destruct (getkeys_proc c); try done. by eexists.
Qed.

Lemma keys_crash module_keys cmd argv :
  cmd ∈ commands -> arity_ok cmd (argc_of argv) = true -> keys_fatal cmd argv ->
  getKeysFromCommand module_keys cmd argv = Crash.
Proof.
  intros Hc Ha Hf. destruct (decide (c_name cmd = "rwftreecreate"%string)) as [Hn|Hn].
  { destruct (create_entry cmd Hc Hn) as (H1 & H2 & a & H3). unfold getKeysFromCommand. by rewrite H1, H2, H3. }
  destruct Hf as [|(n & Hnum & Hneg)]; [done|]. pose proof (commands_fit cmd Hc Hn) as Hfit. pose proof (arity_min _ _ Ha) as Hmin.
  pose proof Hfit as Hfit'. unfold keys_fit in Hfit'. apply andb_prop in Hfit' as [Hm Hk]. apply andb_prop in Hm as [Hm1 Hm2].
  unfold getKeysFromCommand. apply negb_true_iff in Hm1, Hm2. rewrite Hm1, Hm2. unfold numkeys in Hnum.
  destruct (getkeys_proc cmd) eqn:Hg; try discriminate Hk; try discriminate Hnum;
    unfold zunionInterGetKeys, evalGetKeys; destruct (argv !! 2%nat) as [a|] eqn:Hl; cbn in Hnum; try done; injection Hnum as Hnum; rewrite Hnum.
  all: replace (argc_of argv - 3 <? n) with false by (unfold argc_of in *; apply lookup_lt_Some in Hl; lia).
  - replace (n <? 0) with true by lia. by destruct (n + 1 <? 0).
  - by replace (n <? 0) with true by lia.
Qed.

(** ** Requests that bring the server down *)

Definition find_keys (argv : list sds) : option keys_result :=
  (fun c => getKeysFromCommand (fun _ _ => Crash) c argv) <$> (a ← head argv; lookupCommand (fun _ => 0) commands a).

(** The misplaced field makes the keys of [rwftreecreate] a call of address 1. *)
Lemma create_keys_crash : find_keys ["rwftreecreate"; "t"]%string = Some Crash.
Proof. vm_compute. reflexivity. Qed.
(** A negative number of keys is not refused. *)
Lemma negative_keys_crash :
  find_keys ["zunionstore"; "d"; "-1"; "s"]%string = Some Crash /\ find_keys ["eval"; "return 1"; "-1"]%string = Some Crash.
Proof. vm_compute. done. Qed.
