(* ===== verification/Transactions.v ===== *)
(** * Accepting requests, and transactions ([server.c], [multi.c], [db.c])

    [processCommand] checks a request and then runs it, or queues it inside a
    transaction.  This file models all of its checks with the transactions of a
    client and [SELECT], and shows that a transaction runs all of its commands or
    none, as far as the code keeps that promise. *)
From Stdlib Require Import Ascii String ZArith Lia.
From stdpp Require Import functions base numbers strings sets list.
From S2P Require Import Prelude Sds SdsText ClientInput ClientStream ClientSafety P2P Commands.
Open Scope Z_scope.

(** ** State *)

(** What the checks look at, beside the flags of the client: the configuration
    and the state of the server, whether the client gave the password or is
    subscribed to channels, and the answers of the cluster and of the eviction
    of keys. *)
Record sconf := mkConf {
  requirepass : bool; authenticated : bool;
  cluster_enabled : bool;
  lua_of_master : bool;                               (* CLIENT_LUA and the script was sent by the master *)
  getNodeByQuery : redisCommand -> list sds -> bool;  (* the node of the keys is this one *)
  maxmemory : bool;
  freeMemoryIfNeeded : bool;                          (* C_OK *)
  current_client_freed : bool;                        (* meanwhile *)
  stop_writes_on_bgsave_err : bool; saveparamslen : Z; lastbgsave_status : bool;
  aof_last_write_status : bool;
  masterhost : bool;
  repl_min_slaves_to_write : Z; repl_min_slaves_max_lag : Z; repl_good_slaves_count : Z;
  repl_slave_ro : bool;
  f_pubsub : bool;                                    (* CLIENT_PUBSUB *)
  repl_connected : bool; repl_serve_stale_data : bool;
  loading : bool;
  lua_timedout : bool;
  dbnum : Z
}.

(** The client's database and queue, and what was run: each command with its
    database.  What the other commands do is not looked at. *)
Record mclient := mkM {
  m_db : Z;
  m_commands : list (redisCommand * list sds);   (* mstate.commands *)
  m_dirty_cas : bool;                            (* CLIENT_DIRTY_CAS *)
  m_dirty_exec : bool;                           (* CLIENT_DIRTY_EXEC *)
  m_ran : list (Z * list sds);
  m_errors : list sds                            (* newest first *)
}.

Definition set_multi (b : bool) (f : cflags) : cflags :=
  mkFlags (f_slave f) (f_master f) b (f_blocked f) (f_module f) (f_close_after f) (f_close_asap f)
    (f_asking f) (f_cmd_asking f) (f_skip f) (f_skip_next f).

(** A freed client is gone; the model keeps it as one that is to be closed. *)
Definition freed_flags (f : cflags) : cflags :=
  mkFlags (f_slave f) (f_master f) (f_multi f) (f_blocked f) (f_module f) (f_close_after f) true
    (f_asking f) (f_cmd_asking f) (f_skip f) (f_skip_next f).

(** [c->cmd] is the last command, which [resetClient] asks for. *)
Definition set_cmd_asking (b : bool) (f : cflags) : cflags :=
  mkFlags (f_slave f) (f_master f) (f_multi f) (f_blocked f) (f_module f) (f_close_after f) (f_close_asap f)
    (f_asking f) b (f_skip f) (f_skip_next f).

Definition m_error (e : sds) (c : mclient) : mclient :=
  mkM (m_db c) (m_commands c) (m_dirty_cas c) (m_dirty_exec c) (m_ran c) (e :: m_errors c).
Definition set_db_id (id : Z) (c : mclient) : mclient :=
  mkM id (m_commands c) (m_dirty_cas c) (m_dirty_exec c) (m_ran c) (m_errors c).
Definition m_run (args : list sds) (c : mclient) : mclient :=
  mkM (m_db c) (m_commands c) (m_dirty_cas c) (m_dirty_exec c) (m_ran c ++ [(m_db c, args)]) (m_errors c).
(** A key the client watches was changed. *)
Definition touchWatchedKey (c : mclient) : mclient :=
  mkM (m_db c) (m_commands c) true (m_dirty_exec c) (m_ran c) (m_errors c).

(** The C function of a command. *)
Definition is_proc (p : sds) (cmd : redisCommand) : bool := bool_decide (c_proc cmd = p).

(** ** SELECT and transactions *)

Definition selectDb (dbnum id : Z) (c : mclient) : option mclient :=
  if (id <? 0) || (dbnum <=? id) then None else Some (set_db_id id c).

Definition selectCommand (k : sconf) (args : list sds) (c : mclient) : mclient :=
  match args !! 1%nat ≫= string2ll with
  | None => m_error "invalid DB index" c
  | Some id =>
      if cluster_enabled k && negb (id =? 0) then m_error "SELECT is not allowed in cluster mode" c
      else match selectDb (dbnum k) (to_int id) c with
           | None => m_error "DB index is out of range" c
           | Some c => c
           end
  end.

Definition queueMultiCommand (cmd : redisCommand) (args : list sds) (c : mclient) : mclient :=
  mkM (m_db c) (m_commands c ++ [(cmd, args)]) (m_dirty_cas c) (m_dirty_exec c) (m_ran c) (m_errors c).

Definition discardTransaction (f : cflags) (c : mclient) : cflags * mclient :=
  (set_multi false f, mkM (m_db c) [] false false (m_ran c) (m_errors c)).

(** An error while a command is queued makes EXEC refuse the transaction. *)
Definition flagTransaction (f : cflags) (c : mclient) : mclient :=
  if f_multi f then mkM (m_db c) (m_commands c) (m_dirty_cas c) true (m_ran c) (m_errors c) else c.

Definition multiCommand (f : cflags) (c : mclient) : cflags * mclient :=
  if f_multi f then (f, m_error "MULTI calls can not be nested" c) else (set_multi true f, c).

Definition discardCommand (f : cflags) (c : mclient) : cflags * mclient :=
  if negb (f_multi f) then (f, m_error "DISCARD without MULTI" c) else discardTransaction f c.

(** A command other than these runs in the selected database. *)
Definition run_command (k : sconf) (cmd : redisCommand) (args : list sds) (c : mclient) : mclient :=
  if is_proc "selectCommand" cmd then selectCommand k args c else m_run args c.

(** The queued commands one after the other. *)
Definition run_queue (k : sconf) (q : list (redisCommand * list sds)) (c : mclient) : mclient :=
  foldl (fun c e => run_command k e.1 e.2 c) c q.

(** Nothing runs when a watched key was touched (the reply is then a null, not
    an error) or a command was refused while it was queued. *)
Definition execCommand (k : sconf) (f : cflags) (c : mclient) : cflags * mclient :=
  if negb (f_multi f) then (f, m_error "EXEC without MULTI" c)
  else if m_dirty_cas c || m_dirty_exec c then
    discardTransaction f (if m_dirty_exec c then m_error "EXECABORT Transaction discarded because of previous errors." c else c)
  else discardTransaction f (run_queue k (m_commands c) c).

(** ** Checks *)

(** The checks of the state of the server: whether the refusal is noted in the
    transaction, and how the reply begins. *)
Definition refusal (k : sconf) (cmd : redisCommand) (args : list sds) (f : cflags) : option (bool * sds) :=
  let write := has_flag cmd CMD_WRITE in
  let first := match args !! 1%nat with Some (String ch _) => tolower ch | _ => NUL end in
  if ((stop_writes_on_bgsave_err k && (0 <? saveparamslen k) && negb (lastbgsave_status k)) || negb (aof_last_write_status k)) &&
     negb (masterhost k) && (write || is_proc "pingCommand" cmd)
  then Some (true, if aof_last_write_status k then "MISCONF Redis is configured to save RDB snapshots"%string
                   else "MISCONF Errors writing to the AOF file"%string)
  else if negb (masterhost k) && negb (repl_min_slaves_to_write k =? 0) && negb (repl_min_slaves_max_lag k =? 0) && write &&
          (repl_good_slaves_count k <? repl_min_slaves_to_write k)
  then Some (true, "NOREPLICAS Not enough good slaves to write."%string)
  else if masterhost k && repl_slave_ro k && negb (f_master f) && write
  then Some (false, "READONLY You can't write against a read only slave."%string)
  else if f_pubsub k && negb (is_proc "pingCommand" cmd) && negb (is_proc "subscribeCommand" cmd) &&
          negb (is_proc "unsubscribeCommand" cmd) && negb (is_proc "psubscribeCommand" cmd) && negb (is_proc "punsubscribeCommand" cmd)
  then Some (false, "ERR only (P)SUBSCRIBE / (P)UNSUBSCRIBE / PING / QUIT allowed in this context"%string)
  else if masterhost k && negb (repl_connected k) && negb (repl_serve_stale_data k) && negb (has_flag cmd CMD_STALE)
  then Some (true, "MASTERDOWN Link with MASTER is down and slave-serve-stale-data is set to 'no'."%string)
  else if loading k && negb (has_flag cmd CMD_LOADING)
  then Some (false, "LOADING Redis is loading the dataset in memory"%string)
  else if lua_timedout k && negb (is_proc "authCommand" cmd) && negb (is_proc "replconfCommand" cmd) &&
          negb (is_proc "shutdownCommand" cmd && Nat.eqb (length args) 2 && isc first "n") &&
          negb (is_proc "scriptCommand" cmd && Nat.eqb (length args) 2 && isc first "k")
  then Some (true, "BUSY Redis is busy running a script."%string)
  else None.

(** The end: queue the command or run it. *)
Definition exec_request (k : sconf) (cmd : redisCommand) (args : list sds) (f : cflags) (c : mclient) : cflags * mclient :=
  if f_multi f && negb (is_proc "execCommand" cmd) && negb (is_proc "discardCommand" cmd) &&
     negb (is_proc "multiCommand" cmd) && negb (is_proc "watchCommand" cmd)
  then (f, queueMultiCommand cmd args c)
  else if is_proc "execCommand" cmd then execCommand k f c
  else if is_proc "discardCommand" cmd then discardCommand f c
  else if is_proc "multiCommand" cmd then multiCommand f c
  else if is_proc "watchCommand" cmd && f_multi f then (f, m_error "WATCH inside MULTI is not allowed" c)
  else (f, run_command k cmd args c).

Section Process.
Context (bucket : sds -> Z).

(** A refusal, noted in the transaction or not. *)
Definition refuse (flag : bool) (msg : sds) (f : cflags) (c : mclient) : presult * mclient :=
  (mkP true f false, m_error msg (if flag then flagTransaction f c else c)).

Definition needs_redirection (k : sconf) (cmd : redisCommand) (args : list sds) (f : cflags) : bool :=
  cluster_enabled k && negb (f_master f) && negb (lua_of_master k) &&
  negb ((if getkeys_proc cmd is K_null then true else false) && (firstkey cmd =? 0) && negb (is_proc "execCommand" cmd)) &&
  negb (getNodeByQuery k cmd args).

Definition processCommand (k : sconf) (args : list sds) (f : cflags) (c : mclient) : presult * mclient :=
  let name := default EmptyString (head args) in
  if strcaseeq name "quit" then (mkP false (close_after f) false, c)
  else
    match lookupCommand bucket commands name with
    | None => refuse true (sdscat (sdscat "ERR unknown command '" name) "'") (set_cmd_asking false f) c
    | Some cmd =>
        let f := set_cmd_asking (is_proc "askingCommand" cmd) f in
        if negb (arity_ok cmd (argc_of args))
        then refuse true (sdscat (sdscat "ERR wrong number of arguments for '" (c_name cmd)) "' command") f c
        else if requirepass k && negb (authenticated k) && negb (is_proc "authCommand" cmd)
        then refuse true "NOAUTH Authentication required." f c
        else if needs_redirection k cmd args f then
          if is_proc "execCommand" cmd then let '(f, c) := discardTransaction f c in refuse false "MOVED" f c
          else refuse true "MOVED" f c
        else if maxmemory k && current_client_freed k then (mkP false (freed_flags f) true, c)
        else if maxmemory k && has_flag cmd CMD_DENYOOM && negb (freeMemoryIfNeeded k)
        then refuse true "OOM command not allowed when used memory > 'maxmemory'." f c
        else
          match refusal k cmd args f with
          | Some (flag, msg) => refuse flag msg f c
          | None => let '(f, c) := exec_request k cmd args f c in (mkP true f false, c)
          end
    end.

(** ** What the reader of requests relies on *)

Lemma exec_request_flags k cmd args f c :
  let f' := (exec_request k cmd args f c).1 in
  f_master f' = f_master f /\ f_blocked f' = f_blocked f /\ f_close_after f' = f_close_after f /\ f_close_asap f' = f_close_asap f.
Proof.
  unfold exec_request, execCommand, discardCommand, multiCommand. cbv zeta.
  destruct (_ && _ && _ && _ && _); [done|]. destruct (is_proc "execCommand" cmd).
  { destruct (negb (f_multi f)); [done|]. by destruct (_ || _). }
  destruct (is_proc "discardCommand" cmd); [by destruct (negb (f_multi f))|].
  destruct (is_proc "multiCommand" cmd); [by destruct (f_multi f)|]. by destruct (_ && _).
Qed.

(** The ways [processCommand] ends. *)
Lemma processCommand_ends k args f c :
  let r := (processCommand k args f c).1 in
  f_master (p_flags r) = f_master f /\ f_blocked (p_flags r) = f_blocked f /\
  ((p_ok r = true /\ p_gone r = false /\ f_close_after (p_flags r) = f_close_after f /\ f_close_asap (p_flags r) = f_close_asap f) \/
   (p_ok r = false /\ stuck (p_flags r) = true /\
    (strcaseeq (default EmptyString (head args)) "quit" = true \/ (maxmemory k = true /\ current_client_freed k = true)))).
Proof.
  unfold processCommand, refuse, stuck. cbv zeta. destruct (strcaseeq _ "quit") eqn:Eq.
  { cbn. split_and!; try done. right. split_and!; try done; [|by left]. by destruct (f_blocked f). }
  destruct (lookupCommand _ _ _) as [cmd|]; [|cbn; split_and!; [done|done|left; by split_and!]].
  destruct (negb (arity_ok _ _)); [cbn; split_and!; [done|done|left; by split_and!]|].
  destruct (_ && _ && negb (is_proc "authCommand" _)); [cbn; split_and!; [done|done|left; by split_and!]|].
  destruct (needs_redirection _ _ _ _).
  { destruct (is_proc "execCommand" cmd); cbn; (split_and!; [done|done|left; by split_and!]). }
  destruct (maxmemory k && current_client_freed k) eqn:Em.
  { apply andb_prop in Em. cbn. split_and!; try done. right. split_and!; try done; [|by right].
    by rewrite orb_true_r. }
  destruct (_ && _ && negb (freeMemoryIfNeeded k)); [cbn; split_and!; [done|done|left; by split_and!]|].
  destruct (refusal _ _ _ _) as [[flag msg]|]; [cbn; split_and!; [done|done|left; by split_and!]|].
  match goal with |- context [exec_request k cmd args ?g c] => pose proof (exec_request_flags k cmd args g c) as Hf; destruct (exec_request k cmd args g c) as [f' c'] end.
  cbn in Hf. destruct Hf as (Hm & Hb & Hca & Hcs). cbn. split_and!; [done|done|left; by split_and!].
Qed.

#[global] Instance processCommand_sound (env : mclient -> sconf) : SoundServer (fun args f c => processCommand (env c) args f c).
Proof.
  intros args f c. destruct (processCommand_ends (env c) args f c) as (Hm & _ & [(Hok & Hg & _)|(_ & Hst & _)]); split; try done.
  rewrite Hok, Hg. by intros [?|?].
Qed.

(** Requests other than QUIT, on a server that frees no client to get memory. *)
Definition not_quit (args : list sds) : Prop := strcaseeq (default EmptyString (head args)) "quit" = false.
Lemma processCommand_calm (env : mclient -> sconf) :
  (forall c, maxmemory (env c) && current_client_freed (env c) = false) ->
  CalmServer not_quit (fun args f c => processCommand (env c) args f c) (fun _ => false).
Proof.
  intros Hmem. split; [|done]. intros args f c Hq (Hb & Hca & Hcs & Hm).
  destruct (processCommand_ends (env c) args f c) as (Hm' & Hb' & [(Hok & Hg & Hca' & Hcs')|(_ & _ & [Hq'|[H1 H2]])]).
  - split_and!; try done. unfold calm. rewrite Hm', Hb', Hca', Hcs'. by split_and!.
  - unfold not_quit in Hq. by rewrite Hq in Hq'.
  - specialize (Hmem c). by rewrite H1, H2 in Hmem.
Qed.

(** ** Transactions are run whole *)

(** A request, the server as it finds it, and whether a watched key was touched
    before. *)
Record event := mkEv { e_conf : sconf; e_touched : bool; e_args : list sds }.

Definition one_event (fc : cflags * mclient) (e : event) : cflags * mclient :=
  let '(r, c) := processCommand (e_conf e) (e_args e) fc.1 (if e_touched e then touchWatchedKey fc.2 else fc.2) in
  (reset_flags (p_flags r), c).
Definition session_events (es : list event) (fc : cflags * mclient) : cflags * mclient := foldl one_event fc es.

(** The checks that refuse a command and do not note it: a read only replica, a
    subscribed client, a server that loads its data. *)
Definition notes_refusals (k : sconf) : Prop :=
  masterhost k && repl_slave_ro k = false /\ f_pubsub k = false /\ loading k = false /\ maxmemory k && current_client_freed k = false.

(** A command to be queued, not one that controls the transaction. *)
Definition queueable (args : list sds) : Prop :=
  not_quit args /\
  forall cmd, lookupCommand bucket commands (default EmptyString (head args)) = Some cmd ->
    Forall (fun p => is_proc p cmd = false) ["execCommand"; "discardCommand"; "multiCommand"; "watchCommand"]%string.

Lemma not_control cmd :
  Forall (fun p => is_proc p cmd = false) ["execCommand"; "discardCommand"; "multiCommand"; "watchCommand"]%string ->
  is_proc "execCommand" cmd = false /\ is_proc "discardCommand" cmd = false /\
  is_proc "multiCommand" cmd = false /\ is_proc "watchCommand" cmd = false.
Proof. rewrite !Forall_cons. naive_solver. Qed.

(** Refused and noted. *)
Lemma refuse_noted msg f c :
  f_multi f = true ->
  let '(r, c') := refuse true msg f c in p_flags r = f /\ m_ran c' = m_ran c /\ m_dirty_exec c' = true /\ m_dirty_cas c' = m_dirty_cas c.
Proof. intros Hm. unfold refuse, flagTransaction. rewrite Hm. by cbn. Qed.

(** A refusal by the state of the server is one that is noted. *)
Lemma refusal_noted k cmd args f flag msg : notes_refusals k -> refusal k cmd args f = Some (flag, msg) -> flag = true.
Proof.
  intros (Hro & Hps & Hld & _). unfold refusal. cbv zeta. rewrite Hps, Hld, Hro. cbn [andb].
  repeat (destruct (_ && _); [naive_solver|]). done.
Qed.

(** One request inside a transaction: it is queued, or refused and noted. *)
Lemma queue_step k args f c :
  f_multi f = true -> notes_refusals k -> queueable args ->
  let '(r, c') := processCommand k args f c in
  f_multi (p_flags r) = true /\ m_dirty_cas c' = m_dirty_cas c /\ m_ran c' = m_ran c /\
  (m_dirty_exec c' = true \/
   exists cmd, lookupCommand bucket commands (default EmptyString (head args)) = Some cmd /\ c' = queueMultiCommand cmd args c).
Proof.
  intros Hm Hn [Hq Hctl]. unfold processCommand. cbv zeta. rewrite Hq.
  assert (forall msg g, f_multi g = true -> let '(r, c') := refuse true msg g c in f_multi (p_flags r) = true /\
    m_dirty_cas c' = m_dirty_cas c /\ m_ran c' = m_ran c /\ (m_dirty_exec c' = true \/
      exists cmd, lookupCommand bucket commands (default EmptyString (head args)) = Some cmd /\ c' = queueMultiCommand cmd args c)) as Href.
  { intros msg g Hg. pose proof (refuse_noted msg g c Hg) as H. destruct (refuse true msg g c) as [r c']. destruct H as (-> & -> & -> & ->). auto. }
  destruct (lookupCommand _ _ _) as [cmd|] eqn:El; [|by apply Href]. set (g := set_cmd_asking _ f).
  assert (f_multi g = true) as Hg by done. pose proof (not_control _ (Hctl cmd eq_refl)) as Hnc.
  destruct (negb (arity_ok _ _)); [by apply Href|]. destruct (_ && _ && negb (is_proc "authCommand" _)); [by apply Href|].
  destruct Hnc as (Hx & Hdi & Hmu & Hwa). rewrite Hx.
  destruct (needs_redirection _ _ _ _); [by apply Href|]. destruct Hn as (Hn1 & Hn2 & Hn3 & Hn4). rewrite Hn4.
  destruct (_ && _ && negb (freeMemoryIfNeeded k)); [by apply Href|].
  destruct (refusal k cmd args g) as [[flag msg]|] eqn:Er.
  { apply refusal_noted in Er as ->; [|done]. by apply Href. }
  unfold exec_request. rewrite Hg, Hx, Hdi, Hmu, Hwa.
  cbn. split_and!; try done. right. by exists cmd.
Qed.

(** The commands of the requests, queued with their arguments. *)
Definition command_of (args : list sds) : option redisCommand := lookupCommand bucket commands (default EmptyString (head args)).
Definition queued (es : list event) : list (redisCommand * list sds) :=
  omap (fun e => (fun cmd => (cmd, e_args e)) <$> command_of (e_args e)) es.

Lemma queue_events es : forall f c,
  f_multi f = true -> Forall (fun e => notes_refusals (e_conf e) /\ queueable (e_args e)) es ->
  let '(f', c') := session_events es (f, c) in
  f_multi f' = true /\ m_ran c' = m_ran c /\
  (m_dirty_exec c' = true \/
   m_dirty_exec c' = m_dirty_exec c /\ m_commands c' = m_commands c ++ queued es /\ m_db c' = m_db c /\
   Forall (fun e => is_Some (command_of (e_args e))) es).
Proof.
  induction es as [|e es IH]; intros f c Hm Hes; [cbn; rewrite app_nil_r; split_and!; auto|].
  apply Forall_cons_1 in Hes as [[Hn Hq] Hes]. unfold session_events in *. cbn [foldl].
  destruct (one_event (f, c) e) as [f1 c1'] eqn:E1. unfold one_event in E1. cbn [fst snd] in E1.
  set (c0 := if e_touched e then touchWatchedKey c else c) in E1.
  assert (m_ran c0 = m_ran c /\ m_db c0 = m_db c /\ m_commands c0 = m_commands c /\ m_dirty_exec c0 = m_dirty_exec c) as (Hr0 & Hd0 & Hc0 & He0)
    by (unfold c0; by destruct (e_touched e)).
  pose proof (queue_step (e_conf e) (e_args e) f c0 Hm Hn Hq) as Hs. destruct (processCommand (e_conf e) (e_args e) f c0) as [r c1].
  injection E1 as <- <-. destruct Hs as (Hm1 & _ & Hr1 & Hcase). specialize (IH (reset_flags (p_flags r)) c1 Hm1 Hes).
  destruct (foldl one_event (reset_flags (p_flags r), c1) es) as [f' c']. destruct IH as (Hm' & Hr' & Hrest). split; [done|]. split; [congruence|].
  destruct Hrest as [|(He' & Hq' & Hd' & Hall)]; [by left|]. destruct Hcase as [Hx|(cmd & Hl & ->)]; [left; congruence|right].
  cbn in He', Hq', Hd'. fold (command_of (e_args e)) in Hl. split_and!; [congruence| |congruence|by apply Forall_cons_2].
  rewrite Hq', Hc0, <- app_assoc. unfold queued. cbn [omap list_omap]. rewrite Hl. done.
Qed.

(** Inside a transaction nothing runs but at its end. *)
Lemma multi_step k args f c :
  f_multi f = true ->
  let c' := (processCommand k args f c).2 in
  m_ran c' = m_ran c \/
  (m_dirty_cas c = false /\ m_dirty_exec c = false /\ m_ran c' = m_ran (run_queue k (m_commands c) c)).
Proof.
  intros Hm. unfold processCommand, refuse, flagTransaction. cbv zeta. destruct (strcaseeq _ "quit"); [by left|].
  destruct (lookupCommand _ _ _) as [cmd|]; [|left; cbn; by rewrite Hm]. set (g := set_cmd_asking _ f).
  assert (f_multi g = true) as Hg by done. clearbody g.
  destruct (negb (arity_ok _ _)); [left; cbn; by rewrite Hg|].
  destruct (_ && _ && negb (is_proc "authCommand" _)); [left; cbn; by rewrite Hg|].
  destruct (needs_redirection _ _ _ _); [left; destruct (is_proc _ cmd); cbn; by rewrite ?Hg|].
  destruct (maxmemory k && current_client_freed k); [by left|].
  destruct (_ && _ && negb (freeMemoryIfNeeded k)); [left; cbn; by rewrite Hg|].
  destruct (refusal _ _ _ _) as [[[] msg]|]; [left; cbn; by rewrite Hg|by left|].
  unfold exec_request, execCommand, discardCommand, multiCommand. rewrite Hg. cbn [negb].
  destruct (true && _ && _ && _ && _) eqn:E; [by left|]. destruct (is_proc "execCommand" cmd).
  { destruct (m_dirty_cas c) eqn:E1, (m_dirty_exec c) eqn:E2; cbn; auto. }
  destruct (is_proc "discardCommand" cmd); [by left|]. destruct (is_proc "multiCommand" cmd); [by left|].
  cbn in E. apply negb_false_iff in E. rewrite E. by left.
Qed.

Lemma run_command_ran k cmd args c1 c2 :
  m_db c1 = m_db c2 -> m_ran c1 = m_ran c2 ->
  m_db (run_command k cmd args c1) = m_db (run_command k cmd args c2) /\ m_ran (run_command k cmd args c1) = m_ran (run_command k cmd args c2).
Proof.
  intros Hd Hr. unfold run_command, selectCommand, selectDb. destruct (is_proc _ cmd); [|cbn; by rewrite Hd, Hr].
  destruct (_ ≫= string2ll) as [id|]; [|done]. destruct (_ && _); [done|]. by destruct (_ || _).
Qed.
Lemma run_queue_ran k q : forall c1 c2,
  m_db c1 = m_db c2 -> m_ran c1 = m_ran c2 -> m_ran (run_queue k q c1) = m_ran (run_queue k q c2).
Proof.
  unfold run_queue. induction q as [|[cmd args] q IH]; intros c1 c2 Hd Hr; [done|]. cbn [foldl fst snd].
  destruct (run_command_ran k cmd args c1 c2 Hd Hr). by apply IH.
Qed.

(** All of the commands run, in order, or none. *)
Lemma all_or_nothing es e f c :
  f_multi f = true -> m_commands c = [] -> m_dirty_exec c = false ->
  Forall (fun e => notes_refusals (e_conf e) /\ queueable (e_args e)) es ->
  let c' := (session_events (es ++ [e]) (f, c)).2 in
  m_ran c' = m_ran c \/
  (Forall (fun e => is_Some (command_of (e_args e))) es /\ m_ran c' = m_ran (run_queue (e_conf e) (queued es) c)).
Proof.
  intros Hm Hq He Hes. pose proof (queue_events es f c Hm Hes) as Hev. unfold session_events in *. rewrite foldl_app. cbn [foldl].
  destruct (foldl one_event (f, c) es) as [f1 c1]. destruct Hev as (Hm1 & Hr1 & Hcase). unfold one_event. cbn [fst snd].
  set (c2 := if e_touched e then touchWatchedKey c1 else c1).
  assert (m_ran c2 = m_ran c1 /\ m_db c2 = m_db c1 /\ m_commands c2 = m_commands c1 /\ m_dirty_exec c2 = m_dirty_exec c1) as (Hr2 & Hd2 & Hc2 & He2)
    by (unfold c2; by destruct (e_touched e)).
  pose proof (multi_step (e_conf e) (e_args e) f1 c2 Hm1) as Hs. destruct (processCommand (e_conf e) (e_args e) f1 c2) as [r c']. cbn [snd] in *.
  destruct Hs as [Hs|(_ & Hd & Hs)]; [left; congruence|]. destruct Hcase as [Hx|(_ & Hcm & Hdb & Hall)]; [congruence|].
  right. split; [done|]. rewrite Hs, Hc2, Hcm, Hq. apply run_queue_ran; [congruence|congruence].
Qed.

(** ** A server that serves *)

(** Nothing stands in the way of a request. *)
Definition serving (k : sconf) : Prop :=
  requirepass k && negb (authenticated k) = false /\ cluster_enabled k = false /\ maxmemory k = false /\ masterhost k = false /\
  (stop_writes_on_bgsave_err k && (0 <? saveparamslen k) && negb (lastbgsave_status k)) || negb (aof_last_write_status k) = false /\
  repl_min_slaves_to_write k = 0 /\ f_pubsub k = false /\ loading k = false /\ lua_timedout k = false.

(** A server with [n] databases and no restrictions. *)
Definition open_conf (n : Z) : sconf :=
  mkConf false false false false (fun _ _ => true) false true false false 0 true true false 0 0 0 false false false true false false n.
Lemma open_serving n : serving (open_conf n).
Proof. done. Qed.

(** A request the server knows, with the right number of arguments. *)
Definition known (cmd : redisCommand) (args : list sds) : Prop :=
  not_quit args /\ command_of args = Some cmd /\ arity_ok cmd (argc_of args) = true.

Lemma admitted k cmd args f c :
  serving k -> known cmd args ->
  processCommand k args f c =
    let '(f, c) := exec_request k cmd args (set_cmd_asking (is_proc "askingCommand" cmd) f) c in (mkP true f false, c).
Proof.
  intros (Hrp & Hcl & Hmm & Hmh & Hsv & Hms & Hps & Hld & Hlt) (Hq & Hl & Ha). unfold processCommand. cbv zeta.
  unfold command_of in Hl. rewrite Hq, Hl, Ha. cbn [negb]. rewrite Hrp. cbn [andb]. unfold needs_redirection. rewrite Hcl. cbn [andb].
  rewrite Hmm. cbn [andb]. unfold refusal. cbv zeta. rewrite Hsv, Hmh, Hms, Hps, Hld, Hlt. done.
Qed.

(** A command that is found under its name in any case. *)
Lemma known_at (Hbucket : forall s t, tolower <$> chars s = tolower <$> chars t -> bucket s = bucket t) i cmd name args :
  commands !! i = Some cmd -> tolower <$> chars name = tolower <$> chars (c_name cmd) ->
  strcaseeq name "quit" = false -> arity_ok cmd (argc_of (name :: args)) = true -> known cmd (name :: args).
Proof. intros Hc Hn Hq Ha. split_and!; [done| |done]. apply lookup_found; [done|by eapply list_elem_of_lookup_2|done]. Qed.

(** Outside of a transaction, and inside. *)
Lemma request_runs k cmd args f c :
  serving k -> known cmd args -> f_multi f = false ->
  Forall (fun p => is_proc p cmd = false) ["execCommand"; "discardCommand"; "multiCommand"]%string ->
  processCommand k args f c = (mkP true (set_cmd_asking (is_proc "askingCommand" cmd) f) false, run_command k cmd args c).
Proof.
  intros Hk Hc Hm Hp. rewrite !Forall_cons in Hp. destruct Hp as (Hx & Hd & Hu & _). rewrite (admitted k cmd args f c Hk Hc).
  unfold exec_request. change (f_multi (set_cmd_asking _ f)) with (f_multi f). rewrite Hm, Hx, Hd, Hu. cbn [andb]. by rewrite andb_false_r.
Qed.
Lemma request_queued k cmd args f c :
  serving k -> known cmd args -> f_multi f = true ->
  Forall (fun p => is_proc p cmd = false) ["execCommand"; "discardCommand"; "multiCommand"; "watchCommand"]%string ->
  processCommand k args f c = (mkP true (set_cmd_asking (is_proc "askingCommand" cmd) f) false, queueMultiCommand cmd args c).
Proof.
  intros Hk Hc Hm Hp. apply not_control in Hp as (Hx & Hd & Hu & Hw). rewrite (admitted k cmd args f c Hk Hc).
  unfold exec_request. change (f_multi (set_cmd_asking _ f)) with (f_multi f). by rewrite Hm, Hx, Hd, Hu, Hw.
Qed.
Lemma request_exec k cmd args f c :
  serving k -> known cmd args -> c_proc cmd = "execCommand"%string -> f_multi f = true -> m_dirty_cas c = false -> m_dirty_exec c = false ->
  processCommand k args f c =
    (mkP true (set_multi false (set_cmd_asking (is_proc "askingCommand" cmd) f)) false, (discardTransaction f (run_queue k (m_commands c) c)).2).
Proof.
  intros Hk Hc Hp Hm Hdc Hde. rewrite (admitted k cmd args f c Hk Hc). unfold exec_request, execCommand.
  change (f_multi (set_cmd_asking _ f)) with (f_multi f). assert (is_proc "execCommand" cmd = true) as -> by (unfold is_proc; by rewrite Hp).
  rewrite Hm, Hdc, Hde. done.
Qed.
Lemma request_multi k cmd args f c :
  serving k -> known cmd args -> c_proc cmd = "multiCommand"%string -> f_multi f = false ->
  processCommand k args f c = (mkP true (set_multi true (set_cmd_asking (is_proc "askingCommand" cmd) f)) false, c).
Proof.
  intros Hk Hc Hp Hm. rewrite (admitted k cmd args f c Hk Hc). unfold exec_request, multiCommand.
  change (f_multi (set_cmd_asking _ f)) with (f_multi f). unfold is_proc. rewrite Hp, Hm. done.
Qed.

(** With nothing in the way, all commands are queued and run. *)
Lemma served_queue es : forall f c,
  f_multi f = true -> Forall (fun e => queueable (e_args e)) es ->
  Forall (fun e => serving (e_conf e) /\ e_touched e = false /\ exists cmd, known cmd (e_args e)) es ->
  exists f', f_multi f' = true /\
    session_events es (f, c) = (f', mkM (m_db c) (m_commands c ++ queued es) (m_dirty_cas c) (m_dirty_exec c) (m_ran c) (m_errors c)).
Proof.
  induction es as [|e es IH]; intros f c Hm Hq Hes; [exists f; cbn; rewrite app_nil_r; by destruct c|].
  apply Forall_cons_1 in Hq as [[_ Hctl] Hq]. apply Forall_cons_1 in Hes as [(Hk & Ht & cmd & Hkn) Hes].
  pose proof Hkn as (_ & Hl & _). specialize (Hctl cmd Hl). unfold session_events in *. cbn [foldl].
  assert (one_event (f, c) e = (reset_flags (set_cmd_asking (is_proc "askingCommand" cmd) f), queueMultiCommand cmd (e_args e) c)) as ->.
  { unfold one_event. cbn [fst snd]. rewrite Ht, (request_queued _ cmd _ f c Hk Hkn Hm Hctl). done. }
  destruct (IH (reset_flags (set_cmd_asking (is_proc "askingCommand" cmd) f)) (queueMultiCommand cmd (e_args e) c) Hm Hq Hes) as (f' & Hm' & ->).
  exists f'. split; [done|]. cbn [m_db m_commands m_dirty_cas m_dirty_exec m_ran m_errors queueMultiCommand]. do 2 f_equal.
  rewrite <- app_assoc. f_equal. unfold queued. cbn [omap list_omap]. by rewrite Hl.
Qed.
Lemma served_transaction es e cmd f c :
  f_multi f = true -> m_commands c = [] -> m_dirty_exec c = false -> m_dirty_cas c = false ->
  Forall (fun e => queueable (e_args e)) es ->
  Forall (fun e => serving (e_conf e) /\ e_touched e = false /\ exists cmd, known cmd (e_args e)) (es ++ [e]) ->
  known cmd (e_args e) -> c_proc cmd = "execCommand"%string ->
  m_ran (session_events (es ++ [e]) (f, c)).2 = m_ran (run_queue (e_conf e) (queued es) c).
Proof.
  intros Hm Hc Hde Hdc Hq Hes Hkn Hp. apply Forall_app in Hes as [Hes He]. apply Forall_cons_1 in He as [(Hk & Ht & _) _].
  destruct (served_queue es f c Hm Hq Hes) as (f' & Hm' & Hs). unfold session_events in *. rewrite foldl_app, Hs. cbn [foldl].
  unfold one_event. cbn [fst snd]. rewrite Ht, (request_exec _ cmd _ f' _ Hk Hkn Hp Hm'); [|done|done].
  cbn [snd discardTransaction m_ran m_commands]. rewrite Hc. by apply run_queue_ran.
Qed.
End Process.

(** ** A transaction that is not whole

    A read only replica refuses the write of a transaction, does not note it, and
    runs the rest. *)
Definition readonly_conf : sconf :=
  mkConf false false false false (fun _ _ => true) false true false false 0 true true true 0 0 0 true false true true false false 16.
Definition partial_events : list event :=
  mkEv readonly_conf false <$> [["MULTI"]; ["SET"; "k"; "v"]; ["GET"; "k"]; ["EXEC"]]%string.
Lemma partial_transaction_run :
  let c' := (session_events (fun _ => 0) partial_events (no_flags, mkM 0 [] false false [] [])).2 in
  m_ran c' = [(0, ["GET"; "k"]%string)] /\ m_errors c' = ["READONLY You can't write against a read only slave."%string].
Proof. vm_compute. done. Qed.
