(* ===== verification/Replay.v ===== *)
(** * What the receiver of a link runs

    The requests of a broadcast select the database inside a transaction.  This
    file shows that a receiver that serves its clients runs every broadcast
    command in the database it was issued in, in order; that the broadcast of
    [Server] is the one on the wire; and what happens to a link that is made
    late. *)
From Stdlib Require Import Ascii String ZArith Lia.
From stdpp Require Import functions base numbers strings gmap sets list relations.
From S2P Require Import Prelude Sds SdsText ClientInput ClientStream ClientOutput OutputQueue Wire Link Server P2P Commands Transactions.
Open Scope Z_scope.

Section Replay.
Context (bucket : sds -> Z) (Hbucket : forall s t, tolower <$> chars s = tolower <$> chars t -> bucket s = bucket t).
(** The state of the receiving server, which may depend on all it has run. *)
Context (env : mclient -> sconf) (Henv : forall c, serving (env c)) (databases : Z) (Hdb : forall c, dbnum (env c) = databases).

Abbreviation receive := (fun args f c => processCommand bucket (env c) args f c).

#[global] Instance replay_calm : CalmServer not_quit receive (fun _ => false).
Proof using Henv. apply processCommand_calm. intros c. by destruct (Henv c) as (_ & _ & -> & _). Qed.

(** ** A sequence of broadcasts *)

(** A command the server knows that is not one of a transaction. *)
Definition plain (args : list sds) : Prop :=
  exists cmd, known bucket cmd args /\
    Forall (fun p => is_proc p cmd = false) ["selectCommand"; "execCommand"; "discardCommand"; "multiCommand"; "watchCommand"]%string.

(** Three entries of the table, with their flags. *)
Definition multi_entry : redisCommand := mkCommand "multi" "multiCommand" 1 "sF" 8256 K_null 0 0 0.
Definition exec_entry : redisCommand := mkCommand "exec" "execCommand" 1 "sM" 2112 K_null 0 0 0.
Definition select_entry : redisCommand := mkCommand "select" "selectCommand" 2 "lF" 8704 K_null 0 0 0.

Lemma multi_known : known bucket multi_entry ["MULTI"%string].
Proof using Hbucket. apply (known_at bucket Hbucket 130); vm_compute; reflexivity. Qed.
Lemma exec_known : known bucket exec_entry ["EXEC"%string].
Proof using Hbucket. apply (known_at bucket Hbucket 131); vm_compute; reflexivity. Qed.
Lemma select_known z : known bucket select_entry ["SELECT"%string; sdsfromlonglong z].
Proof using Hbucket. by apply (known_at bucket Hbucket 109); [vm_compute|vm_compute|vm_compute|]. Qed.

(** Outside of a transaction, with no error so far. *)
Definition settled (f : cflags) : Prop := f_multi f = false /\ calm f.
Definition clean (c : mclient) : Prop := m_commands c = [] /\ m_dirty_cas c = false /\ m_dirty_exec c = false.

Lemma plain_run args f c :
  plain args -> settled f -> exists f', run_one receive (f, c) args = (f', m_run args c) /\ settled f'.
Proof using Henv.
  intros (cmd & Hk & Hp) [Hm Hc]. rewrite !Forall_cons in Hp. destruct Hp as (Hs & Hx & Hd & Hu & _).
  unfold run_one. cbn [fst snd]. rewrite (request_runs bucket (env c) cmd args f c (Henv c) Hk Hm) by (by rewrite !Forall_cons).
  unfold run_command. rewrite Hs. eexists. split; [reflexivity|]. split; [done|]. by destruct Hc as (? & ? & ? & ?).
Qed.

(** One step of a run, the flags of the client being calm. *)
Lemma step_queue cmd args f c :
  f_multi f = true -> calm f -> known bucket cmd args ->
  Forall (fun p => is_proc p cmd = false) ["execCommand"; "discardCommand"; "multiCommand"; "watchCommand"]%string ->
  exists f', run_one receive (f, c) args = (f', queueMultiCommand cmd args c) /\ f_multi f' = true /\ calm f'.
Proof using Henv.
  intros Hm Hc Hk Hp. unfold run_one. cbn [fst snd]. rewrite (request_queued bucket (env c) cmd args f c (Henv c) Hk Hm Hp).
  eexists. split; [reflexivity|]. split; [done|]. by destruct Hc as (? & ? & ? & ?).
Qed.
Lemma step_multi f c :
  settled f -> exists f', run_one receive (f, c) ["MULTI"%string] = (f', c) /\ f_multi f' = true /\ calm f'.
Proof using Henv Hbucket.
  intros [Hm Hc]. unfold run_one. cbn [fst snd]. rewrite (request_multi bucket (env c) multi_entry _ f c (Henv c) multi_known eq_refl Hm).
  eexists. split; [reflexivity|]. split; [done|]. by destruct Hc as (? & ? & ? & ?).
Qed.
Lemma step_exec f c :
  f_multi f = true -> calm f -> m_dirty_cas c = false -> m_dirty_exec c = false ->
  exists f', run_one receive (f, c) ["EXEC"%string] =
    (f', (discardTransaction f (run_queue (env c) (m_commands c) c)).2) /\ settled f'.
Proof using Henv Hbucket.
  intros Hm Hc Hd He. unfold run_one. cbn [fst snd]. rewrite (request_exec bucket (env c) exec_entry _ f c (Henv c) exec_known eq_refl Hm Hd He).
  eexists. split; [reflexivity|]. split; [done|]. by destruct Hc as (? & ? & ? & ?).
Qed.

Lemma select_runs k d c :
  serving k -> dbnum k = databases -> 0 <= d < databases -> in_int d ->
  run_command k select_entry ["SELECT"%string; sdsfromlonglong d] c = set_db_id d c.
Proof.
  intros (_ & Hcl & _) Hn Hd Hi. unfold run_command. change (is_proc "selectCommand" select_entry) with true. cbv iota.
  unfold selectCommand. cbn [lookup list_lookup mbind option_bind]. rewrite string2ll_print by clia. rewrite Hcl. cbn [andb].
  rewrite (to_int_id d Hi). unfold selectDb. rewrite Hn. replace ((d <? 0) || (databases <=? d)) with false by lia. done.
Qed.

(** The three requests before the end of a transaction. *)
Lemma transaction_queued d args cmd f c :
  known bucket cmd args ->
  Forall (fun p => is_proc p cmd = false) ["execCommand"; "discardCommand"; "multiCommand"; "watchCommand"]%string -> settled f ->
  exists f1 f2 f3,
    run_one receive (f, c) ["MULTI"%string] = (f1, c) /\
    run_one receive (f1, c) ["SELECT"%string; sdsfromlonglong d] = (f2, queueMultiCommand select_entry ["SELECT"%string; sdsfromlonglong d] c) /\
    run_one receive (f2, queueMultiCommand select_entry ["SELECT"%string; sdsfromlonglong d] c) args =
      (f3, queueMultiCommand cmd args (queueMultiCommand select_entry ["SELECT"%string; sdsfromlonglong d] c)) /\
    f_multi f3 = true /\ calm f3.
Proof using Henv Hbucket.
  intros Hk Hp Hf. destruct (step_multi f c Hf) as (f1 & H1 & Hm1 & Hc1).
  destruct (step_queue select_entry _ f1 c Hm1 Hc1 (select_known d)) as (f2 & H2 & Hm2 & Hc2); [by repeat constructor|].
  destruct (step_queue cmd args f2 (queueMultiCommand select_entry ["SELECT"%string; sdsfromlonglong d] c) Hm2 Hc2 Hk Hp) as (f3 & H3 & Hm3 & Hc3).
  exists f1, f2, f3. split_and!; done.
Qed.

(** A broadcast for another database: it is selected and the command runs in
    it, in one transaction. *)
Lemma transaction_runs d args f c :
  0 <= d < databases -> in_int d -> plain args -> settled f -> clean c ->
  exists f', run_all receive [["MULTI"%string]; ["SELECT"%string; sdsfromlonglong d]; args; ["EXEC"%string]] (f, c) =
    (f', m_run args (set_db_id d c)) /\ settled f'.
Proof using Henv Hbucket Hdb.
  intros Hd Hi (cmd & Hk & Hp) Hf (Hq & Hdc & Hde). apply Forall_cons_1 in Hp as [Hs Hp].
  destruct (transaction_queued d args cmd f c Hk Hp Hf) as (f1 & f2 & f3 & H1 & H2 & H3 & Hm3 & Hc3).
  unfold run_all. cbn [foldl]. rewrite H1, H2, H3.
  match goal with |- context [run_one _ (f3, ?x) _] => destruct (step_exec f3 x Hm3 Hc3 Hdc Hde) as (f4 & -> & Hf4) end.
  exists f4. split; [|done]. f_equal. cbn [m_commands queueMultiCommand]. rewrite Hq. unfold run_queue. cbn [app foldl fst snd].
  rewrite (select_runs _ d) by done. unfold run_command. rewrite Hs. destruct c. cbn in *. by subst.
Qed.

(** A broadcast to databases that exist, of such a command. *)
Definition broadcastable (b : Z * list sds) : Prop := 0 <= b.1 < databases /\ in_int b.1 /\ plain b.2.

(** A receiver that has the sender's last database selected, or to whose
    sender none was selected, runs every command in its database. *)
Lemma chain_runs l : forall sel f c,
  Forall broadcastable l -> settled f -> clean c ->
  sel = m_db c \/ sel < 0 ->
  exists f' c', run_all receive (chain sel l) (f, c) = (f', c') /\ settled f' /\ clean c' /\
    m_ran c' = m_ran c ++ l /\ m_errors c' = m_errors c.
Proof.
  induction l as [|[d args] l IH]; intros sel f c Hl Hf Hc Hsel.
  { exists f, c. rewrite app_nil_r. done. }
  apply Forall_cons_1 in Hl as [(Hd & Hi & Hp) Hl]. cbn [fst snd chain] in *. unfold run_all in *. rewrite foldl_app.
  assert (exists f1, foldl (run_one receive) (f, c) (requests sel d args) = (f1, m_run args (set_db_id d c)) /\ settled f1) as (f1 & -> & Hf1).
  { unfold requests. destruct (Z.eqb_spec sel d) as [He|He]; cbn [negb].
    - destruct Hsel as [Hs|Hs]; [|lia]. destruct (plain_run args f c Hp Hf) as (f1 & Hr & Hf1). cbn [foldl]. rewrite Hr.
      exists f1. split; [|done]. f_equal. destruct c. cbn in *. by subst.
    - by apply transaction_runs. }
  destruct (IH d f1 (m_run args (set_db_id d c)) Hl Hf1) as (f' & c' & -> & Hf' & Hc' & Hr & He); [done|by left|].
  exists f', c'. split_and!; try done. rewrite Hr. cbn. by rewrite <- app_assoc.
Qed.

(** A part of the requests of a broadcast runs nothing. *)
Lemma transaction_part d args f c ran todo :
  plain args -> settled f -> [["MULTI"%string]; ["SELECT"%string; sdsfromlonglong d]; args; ["EXEC"%string]] = ran ++ todo -> todo <> [] ->
  m_ran (run_all receive ran (f, c)).2 = m_ran c.
Proof.
  intros (cmd & Hk & Hp) Hf He Ht. unfold run_all. apply Forall_cons_1 in Hp as [_ Hp].
  destruct (transaction_queued d args cmd f c Hk Hp Hf) as (f1 & f2 & f3 & H1 & H2 & H3 & _ & _).
  destruct ran as [|x1 ran]; [done|]. injection He as <- He. cbn [foldl]. rewrite H1.
  destruct ran as [|x2 ran]; [done|]. injection He as <- He. cbn [foldl]. rewrite H2.
  destruct ran as [|x3 ran]; [done|]. injection He as <- He. cbn [foldl]. rewrite H3.
  destruct ran as [|x4 ran]; [done|]. injection He as <- He. by destruct ran, todo.
Qed.

(** Whatever part of the requests has arrived, the commands run are the first
    ones, each in its database. *)
Lemma chain_part l : forall sel f c ran todo,
  Forall broadcastable l -> settled f -> clean c -> sel = m_db c \/ sel < 0 -> chain sel l = ran ++ todo ->
  exists k, m_ran (run_all receive ran (f, c)).2 = m_ran c ++ take k l.
Proof.
  induction l as [|[d args] l IH]; intros sel f c ran todo Hl Hf Hc Hsel He.
  { exists 0%nat. destruct ran; [|done]. by rewrite app_nil_r. }
  apply Forall_cons_1 in Hl as [(Hd & Hi & Hp) Hl]. cbn [fst snd chain] in *. symmetry in He.
  assert (exists f1, run_all receive (requests sel d args) (f, c) = (f1, m_run args (set_db_id d c)) /\ settled f1) as (f1 & Hreq & Hf1).
  { unfold requests. destruct (Z.eqb_spec sel d) as [Hs|Hs]; cbn [negb].
    - destruct Hsel as [Hs'|Hs']; [|lia]. destruct (plain_run args f c Hp Hf) as (f1 & Hr & Hf1). unfold run_all. cbn [foldl]. rewrite Hr.
      exists f1. split; [|done]. f_equal. destruct c. cbn in *. by subst.
    - by apply transaction_runs. }
  destruct (split_prefix _ _ _ _ He) as [(q & -> & Hq)|(r & Hr & Hne & _)].
  - unfold run_all in *. rewrite foldl_app, Hreq.
    destruct (IH d f1 (m_run args (set_db_id d c)) q todo Hl Hf1) as (k & Hk); [done|by left|done|].
    exists (S k). rewrite Hk. cbn. by rewrite <- app_assoc.
  - exists 0%nat. rewrite app_nil_r. unfold requests in Hr. destruct (negb (sel =? d)); [by apply (transaction_part d args f c ran r)|].
    destruct ran as [|x ran]; [done|]. injection Hr as <- Hr. by destruct ran, r.
Qed.

(** Plain requests, such as the greeting of a link. *)
Lemma plain_all g : forall f c,
  Forall plain g -> settled f -> clean c ->
  exists f' c', run_all receive g (f, c) = (f', c') /\ settled f' /\ clean c' /\ m_db c' = m_db c /\
    m_ran c' = m_ran c ++ ((fun a => (m_db c, a)) <$> g).
Proof.
  induction g as [|a g IH]; intros f c Hg Hf Hc; [exists f, c; by rewrite app_nil_r|].
  apply Forall_cons_1 in Hg as [Ha Hg]. destruct (plain_run a f c Ha Hf) as (f1 & H1 & Hf1).
  destruct (IH f1 (m_run a c) Hg Hf1 Hc) as (f' & c' & Hr & Hf' & Hc' & Hd & Hran).
  exists f', c'. unfold run_all in *. cbn [foldl]. rewrite H1, Hr. split_and!; try done. rewrite Hran. cbn. by rewrite <- app_assoc.
Qed.
Lemma greeting_part g l sel f c ran todo :
  Forall plain g -> Forall broadcastable l -> settled f -> clean c -> sel = m_db c \/ sel < 0 ->
  g ++ chain sel l = ran ++ todo ->
  exists k, m_ran (run_all receive ran (f, c)).2 = m_ran c ++ take k (((fun a => (m_db c, a)) <$> g) ++ l).
Proof.
  intros Hg Hl Hf Hc Hsel He. symmetry in He. destruct (split_prefix _ _ _ _ He) as [(q & -> & Hq)|(r & -> & _ & _)].
  - destruct (plain_all g f c Hg Hf Hc) as (f1 & c1 & Hr & Hf1 & Hc1 & Hd1 & Hran1). unfold run_all in *. rewrite foldl_app, Hr.
    rewrite <- Hd1 in Hsel. destruct (chain_part l sel f1 c1 q todo Hl Hf1 Hc1 Hsel (eq_sym Hq)) as (k & Hk).
    exists (length g + k)%nat. unfold run_all in Hk. rewrite Hk, Hran1, <- app_assoc. f_equal.
    rewrite take_app_ge by (rewrite length_fmap; lia). rewrite length_fmap. do 2 f_equal. lia.
  - apply Forall_app in Hg as [Hg _]. destruct (plain_all ran f c Hg Hf Hc) as (f1 & c1 & Hr & _ & _ & _ & Hran).
    exists (length ran). rewrite Hr. cbn [snd]. rewrite Hran. f_equal. rewrite fmap_app, <- app_assoc.
    rewrite take_app_length'; [done|by rewrite length_fmap].
Qed.

(** ** A link to a replica *)

Lemma requests_not_quit sel d args : not_quit args -> Forall not_quit (requests sel d args).
Proof. intros H. unfold requests. destruct (negb _); repeat (apply Forall_cons_2; [done|]); apply Forall_nil_2. Qed.

Definition new_mclient : mclient := mkM 0 [] false false [] [].

Section OnLink.
Context (limits : client_type -> clientBufferLimitsConfig) (over_memory : bool) (unixtime : Z).
Context (maxbulk maxbuf : Z) (Hmin : 16 <= maxbulk) (Hmax : maxbulk + 2 <= INT_MAX).
Context (Hbuf : PROTO_INLINE_MAX_SIZE <= maxbuf) (Hbuf' : maxbulk + 2 <= maxbuf).

Abbreviation lstep := (step not_quit receive (fun _ => false) limits over_memory unixtime maxbulk maxbuf).

(** What the receiver has run is the beginning of the greeting and the
    broadcasts, and all of it when nothing is under way. *)
Lemma link_replays n0 n :
  fresh_link not_quit maxbulk new_mclient n0 -> n_seldb n0 <= 0 -> Forall plain (n_sent n0) ->
  rtc lstep n0 n -> Forall (fun b => 0 <= b.1 < databases /\ plain b.2) (n_log n) ->
  (exists k, m_ran (n_state n) = take k (((fun a => (0, a)) <$> n_sent n0) ++ n_log n)) /\
  (n_chan n = [] -> queue (n_out n) = [] -> m_ran (n_state n) = ((fun a => (0, a)) <$> n_sent n0) ++ n_log n).
Proof using Hmin Hmax Hbuf Hbuf' Henv Hbucket Hdb.
  intros Hfr Hsel Hg Hr Hpl. destruct (log_inv _ _ _ _ _ _ _ _ n0 n (proj2 (proj2 (proj2 (proj2 (proj2 (proj2 (proj2 Hfr))))))) Hr) as (Hsent & _ & Hok).
  assert (Forall broadcastable (n_log n)) as Hbr.
  { rewrite Forall_forall in *. intros b Hb. destruct (Hpl b Hb) as [? ?], (Hok b Hb) as [? _]. unfold broadcastable. done. }
  assert (settled no_flags /\ clean new_mclient) as [Hset Hcln] by done.
  assert (n_seldb n0 = m_db new_mclient \/ n_seldb n0 < 0) as Hs by (cbn; lia).
  pose proof (reachable_inv not_quit receive (fun _ => false) requests_not_quit limits over_memory unixtime maxbulk maxbuf Hmin Hmax Hbuf Hbuf' new_mclient n0 n Hfr Hr) as Hinv.
  split.
  - destruct Hinv as [_ (ran & todo & Hrt & Hrun & _)]. rewrite Hsent in Hrt.
    destruct (greeting_part (n_sent n0) (n_log n) (n_seldb n0) no_flags new_mclient ran todo Hg Hbr Hset Hcln Hs Hrt) as (k & Hk).
    exists k. by rewrite Hrun in Hk.
  - intros Hch Hq. destruct (inv_quiet not_quit receive maxbulk new_mclient n Hinv Hch Hq) as [Hrun _].
    destruct (plain_all (n_sent n0) no_flags new_mclient Hg Hset Hcln) as (f1 & c1 & Hr1 & Hf1 & Hc1 & Hd1 & Hran1).
    rewrite <- Hd1 in Hs. destruct (chain_runs (n_log n) (n_seldb n0) f1 c1 Hbr Hf1 Hc1 Hs) as (f2 & c2 & Hr2 & _ & _ & Hran2 & _).
    rewrite Hsent in Hrun. unfold run_all in *. rewrite foldl_app, Hr1, Hr2 in Hrun. injection Hrun as _ <-. by rewrite Hran2, Hran1.
Qed.
End OnLink.
End Replay.

(** ** The broadcast of the server model *)

(** The bytes of the replies that are sent on a link. *)
Definition wire (r : reply) : option bytes :=
  match r with
  | R_multi => Some shared_multi
  | R_exec => Some shared_exec
  | R_select d => select_cmd d
  | R_replhandshake => Some shared_replhandshake
  | R_multibulklen n => Some (num_line "*" n)
  | R_bulk s => Some (bulk_line (chars s))
  | _ => None
  end.
Definition wire_all (l : list reply) : option bytes := option_map (@List.concat ascii) (mapM wire l).

Lemma wire_app l k a b : wire_all l = Some a -> wire_all k = Some b -> wire_all (l ++ k) = Some (a ++ b).
Proof.
  unfold wire_all. intros Ha Hb. destruct (mapM wire l) as [x|] eqn:Ex; [|done]. destruct (mapM wire k) as [y|] eqn:Ey; [|done].
  cbn in *. injection Ha as <-. injection Hb as <-. assert (mapM wire (l ++ k) = Some (x ++ y)) as ->; [|cbn; by rewrite concat_app].
  revert x Ex. induction l as [|r l IH]; intros x Ex; [by injection Ex as <-|]. cbn [mapM app] in *.
  destruct (wire r) as [b|]; [|done]. cbn [mbind option_bind] in *. destruct (mapM wire l) as [x'|]; [|done].
  injection Ex as <-. by rewrite (IH x' eq_refl).
Qed.
Lemma wire_bulks args : wire_all (R_bulk <$> args) = Some (args ≫= enc_bulk).
Proof.
  induction args as [|a args IH]; [done|]. change (R_bulk <$> a :: args) with ([R_bulk a] ++ (R_bulk <$> args)).
  change ((a :: args) ≫= enc_bulk) with (enc_bulk a ++ (args ≫= enc_bulk)). apply wire_app; [|done].
  cbn. by rewrite app_nil_r.
Qed.
Lemma wire_broadcast s dictid args :
  in_int dictid -> wire_all (broadcast_msg s dictid args) = Some (message (p2p_seldb s) dictid args).
Proof.
  intros Hd. assert (wire_all (R_multibulklen (Z.of_nat (length args)) :: (R_bulk <$> args)) = Some (enc_cmd args)) as Hcmd.
  { apply (wire_app [_] _ (enc_num "*" (length args))); [|apply wire_bulks]. cbn. by rewrite app_nil_r. }
  unfold broadcast_msg, message, requests. destruct (negb (p2p_seldb s =? dictid)).
  - assert (wire_all [R_multi; R_select dictid] = Some (enc_cmd ["MULTI"%string] ++ enc_cmd ["SELECT"%string; sdsfromlonglong dictid])) as H1.
    { unfold wire_all. cbn [mapM wire]. rewrite (select_cmd_enc dictid Hd). cbn [mbind option_bind mret option_ret option_map List.concat].
      by rewrite app_nil_r. }
    rewrite app_comm_cons. rewrite (wire_app _ _ _ (enc_cmd args ++ enc_cmd ["EXEC"%string]) H1).
    + by f_equal.
    + by apply wire_app.
  - change ([args] ≫= enc_cmd) with (enc_cmd args ++ []). rewrite !app_nil_r. exact Hcmd.
Qed.

(** A link of the server model and its client: what was sent is what was
    written to the socket and what is still queued. *)
Definition link_rel (out : list reply) (c : oclient) : Prop :=
  link_ok c /\ exists written, wire_all out = Some (written ++ queue c).

Section Refine.
Context (limits : client_type -> clientBufferLimitsConfig) (unixtime : Z).

Lemma broadcast_refines w rs dictid argv :
  Forall2 link_rel (replicas (srv w)) rs -> in_int dictid -> Z.of_nat (length argv) <= LLONG_MAX ->
  Forall (fun a => Z.of_nat (slen a) <= LLONG_MAX) argv ->
  Forall (fun c => reply_bytes c + Z.of_nat (length (message (p2p_seldb (srv w)) dictid argv)) < BYTES_LIMIT) rs ->
  exists w' rs', Server.replicationBroadcast dictid argv w = Done tt w' /\
    Wire.replicationBroadcast limits unixtime rs (p2p_seldb (srv w)) dictid argv = Some (rs', p2p_seldb (srv w')) /\
    Forall2 link_rel (replicas (srv w')) rs' /\ cli w' = cli w /\ db (srv w') = db (srv w).
Proof.
  intros Hrel Hd Hn Ha Hr. unfold Server.replicationBroadcast, modify. pose proof (Forall2_length _ _ _ Hrel) as Hlen.
  destruct (Nat.eqb_spec (length (replicas (srv w))) 0) as [Hz|Hz].
  { exists w, rs. unfold Wire.replicationBroadcast. rewrite <- Hlen. apply Nat.eqb_eq in Hz. rewrite Hz. done. }
  eexists. assert (rs <> []) as Hne by (intros ->; cbn in Hlen; lia).
  destruct (broadcast_spec limits unixtime rs (p2p_seldb (srv w)) dictid argv) as (rs' & Hb & Hs); try done.
  { clear -Hrel. induction Hrel as [|o c outs rs [Hl _] _ IH]; constructor; auto. }
  exists rs'. split; [reflexivity|]. split_and!; [exact Hb| |done|done]. cbn.
  pose proof (wire_broadcast (srv w) dictid argv Hd) as Hw. clear -Hrel Hs Hw. change (Forall2 link_rel ((fun out => out ++ broadcast_msg (srv w) dictid argv) <$> replicas (srv w)) rs').
  revert rs' Hs. induction Hrel as [|o c outs rs [_ (wr & Ho)] _ IH]; intros rs' Hs; inversion Hs as [|? c' ? rs1 Hso Hs1]; subst; cbn; constructor; [|by auto].
  destruct Hso as (Hq & Hl & _). split; [done|]. exists wr. rewrite Hq, app_assoc. by apply wire_app.
Qed.
End Refine.

(** ** A link made late

    [server.p2p_seldb] is one for all links.  A replica that is linked after
    messages for a database were sent gets further ones without SELECT, and runs
    them in database 0. *)
Definition db1_world : world := mkWorld (mkServer ∅ [[R_replhandshake]] 2 0 (-1) 0 512 0 0) (mkClient [] None false false []).
Definition late_args : list sds := ["rwfsadd"; "k"; "x"]%string.
Lemma late_link_run :
  match Server.replicationBroadcast 1 late_args db1_world with
  | Done _ w1 =>
      match Server.replicationBroadcast 1 late_args (add_replica [R_replhandshake] w1) with
      | Done _ w2 => last (replicas (srv w2)) = Some (R_replhandshake :: R_multibulklen 3 :: (R_bulk <$> late_args))
      | _ => False
      end
  | _ => False
  end /\
  m_ran (run_all (fun args f c => processCommand (fun _ => 0) (open_conf 16) args f c) (["REPLICATE"; "replica"; "handshake"]%string :: requests 1 1 late_args) (no_flags, new_mclient)).2 =
    [(0, ["REPLICATE"; "replica"; "handshake"]%string); (0, late_args)].
Proof. vm_compute. done. Qed.
