(* ===== verification/System.v ===== *)
(** * A system of replicas

    Servers with a remove-win set under one key, each with its clients, and a
    channel from every server to every other: the requests that [Link] and
    [Replay] show to be run in order at the other end.  A step is a client's
    request at some server, whose message is sent on all its channels, or the
    delivery of the first message of a channel.  In every reachable state in which
    no message is under way all servers show the same set, and from every
    reachable state the messages under way can be delivered. *)
From Stdlib Require Import Ascii String ZArith Lia.
From stdpp Require Import functions base numbers strings gmap sets list relations.
From S2P Require Import Prelude Sds VectorClock Intset SetType Server RWFramework Container RWSet Commands Transactions.
Open Scope Z_scope.

Section System.
Context `{DictOrder} (bucket : sds -> Z) (k : sds) (N : nat).

(** The C function the command table gives for a request. *)
Definition handler (args : list sds) : option (cmd unit) :=
  match command_of bucket args with
  | Some cmd =>
      if is_proc "rwsaddCommand" cmd then Some rwsaddCommand
      else if is_proc "rwsremCommand" cmd then Some rwsremCommand else None
  | None => None
  end.

Record sys := mkSys { s_world : nat -> world; s_chan : nat -> nat -> list (list sds) }.

(** The message of a request goes to all other servers. *)
Definition send (i : nat) (m : option (list sds)) (ch : nat -> nat -> list (list sds)) : nat -> nat -> list (list sds) :=
  match m with
  | None => ch
  | Some args => fun a b => if decide (a = i /\ b <> i /\ (b < N)%nat) then ch a b ++ [args] else ch a b
  end.
Definition receive (i j : nat) (rest : list (list sds)) (ch : nat -> nat -> list (list sds)) : nat -> nat -> list (list sds) :=
  fun a b => if decide (a = i /\ b = j) then rest else ch a b.

(** A request about the set, whose counters have room. *)
Definition acceptable (w : world) (args : list sds) : Prop :=
  exists c0 xs, args = c0 :: k :: xs /\ Z.of_nat (length xs) <= INT_MAX /\ forall x, x ∈ xs -> clock_room (hdrs_of w k x).

Inductive sys_step : sys -> sys -> Prop :=
  | Y_request s i args h w' :
      (i < N)%nat -> handler args = Some h -> acceptable (s_world s i) args ->
      call 0 h (request (s_world s i) args) = Done tt w' ->
      sys_step s (mkSys (<[i := w']> (s_world s)) (send i (rargv (cli w')) (s_chan s)))
  | Y_deliver s i j args rest h w' :
      (i < N)%nat -> (j < N)%nat -> s_chan s i j = args :: rest -> handler args = Some h ->
      call 0 h (delivery (s_world s j) args) = Done tt w' ->
      sys_step s (mkSys (<[j := w']> (s_world s)) (receive i j rest (s_chan s))).

Definition quiet (s : sys) : Prop := forall i j, (i < N)%nat -> (j < N)%nat -> s_chan s i j = [].

(** Servers that were told their number and that of the system, and have not used
    the key. *)
Definition start (s : sys) : Prop :=
  (forall i, (i < N)%nat -> untouched (s_world s i) k /\ cfg_ok (srv (s_world s i)) /\
     p2p_count (srv (s_world s i)) = p2p_count (srv (s_world s 0%nat))) /\
  forall i j, s_chan s i j = [].

(** ** One server *)

Lemma rws_hdrs w f x : rws w k f -> f x = hdrs_of w k x.
Proof.
  intros (V & Hr & _). pose proof (rep_hash _ _ _ _ Hr) as Hh. unfold shape_hash, hdrs_of in *.
  destruct (db (srv w) !! _) as [[]|]; try done. specialize (Hh x). destruct (_ !! x) as [v|]; [|done]. by destruct Hh as [-> _].
Qed.

Lemma mode_on s : cfg_ok s -> REPLICATION_MODE s = true.
Proof. intros [Hc _]. unfold REPLICATION_MODE. replace (p2p_count s =? 0) with false by lia. apply orb_true_r. Qed.

(** The message is one of the table's function. *)
Definition sent_by (m : rmsg) : Prop := handler (rm_args m) = Some (if rm_add m then rwsaddCommand else rwsremCommand).

(** The message of a request begins with the request. *)
Lemma handler_app args more : args <> [] -> handler (args ++ more) = handler args.
Proof. by destruct args. Qed.

Lemma call_config proc w args w1 :
  proc (request w args) = Return w1 -> is_replica (cli w1) = false ->
  exists w2, call 0 proc (request w args) = Done tt w2 /\ cli w2 = cli w1 /\ db (srv w2) = db (srv w1) /\ same_config (srv w1) (srv w2).
Proof.
  intros Hp Hr. destruct (rargv (cli w1)) as [m|] eqn:Hm.
  - destruct (call_origin 0 proc (request w args) w1 m) as (w2 & Hw2 & Hcli & Hdb & H1 & H2 & H3 & _); [done..|].
    exists w2. by split_and!.
  - exists w1. split; [by apply call_no_broadcast|done].
Qed.

(** A removal from a set that does not exist does nothing. *)
Lemma rem_no_set w c0 xs :
  cfg_ok (srv w) -> db (srv w) !! k = None ->
  exists w', rwsremCommand (request w (c0 :: k :: xs)) = Return w' /\ srv w' = srv w /\ rargv (cli w') = None /\ is_replica (cli w') = false.
Proof.
  intros Hc Hk. set (w0 := request w (c0 :: k :: xs)). destruct (args_12 w0 c0 k xs eq_refl) as [H1 _].
  assert (rwsrem_prepare w0 = Return (mkWorld (srv w) (mkClient (c0 :: k :: xs) None false false [R_czero]))) as Hp.
  { unfold rwsrem_prepare. step_with H1. unfold lookupKeyWriteOrReply, lookupKeyWrite, bind, lookupKey, gets. cbn. by rewrite Hk. }
  eexists. split; [apply CRDT_origin_return; [by apply mode_on|done|exact Hp]|]. done.
Qed.

(** What a request does at its server: nothing is sent, or a message that does
    there what it does at its server. *)
Definition requested (w w' : world) (f : sds -> reh) : Prop :=
  same_config (srv w) (srv w') /\
  ((rargv (cli w') = None /\ rws w' k f) \/
   exists m, rargv (cli w') = Some (rm_args m) /\ rm_wf (srv w) k m /\ sent_by m /\ rws w' k (hdr_run f (all_ops [m]))).

Lemma origin_requested (add : bool) w f c0 xs ops w1 pairs r :
  handler (c0 :: k :: xs) = Some (if add then rwsaddCommand else rwsremCommand) ->
  (if add then rwsaddCommand else rwsremCommand) (request w (c0 :: k :: xs)) = Return w1 ->
  Forall2 (decodes (srv w) (if add then RAdd else RRem)) pairs ops -> same_config (srv w) (srv w1) ->
  rws w1 k (hdr_run f (reverse ops)) -> Z.of_nat (length ops) <= INT_MAX ->
  cli w1 = (if decide (length ops = 0)%nat then mkClient (c0 :: k :: xs) None false false [r]
            else mkClient (c0 :: k :: xs) (Some ((c0 :: k :: xs) ++ msg_args pairs)) false false [R_ok]) ->
  exists w', call 0 (if add then rwsaddCommand else rwsremCommand) (request w (c0 :: k :: xs)) = Done tt w' /\ requested w w' f.
Proof.
  intros Hh Hp Hdec Hcfg Hr Hmax Hcli. destruct (call_config _ w (c0 :: k :: xs) w1 Hp) as (w2 & Hc & Hcli2 & Hdb & Hcfg2).
  { rewrite Hcli. by case_decide. }
  assert (rws w2 k (hdr_run f (reverse ops))) as Hr2 by (by eapply rws_call).
  exists w2. split; [exact Hc|]. split; [by transitivity (srv w1)|]. rewrite Hcli2, Hcli.
  pose proof (Forall2_length _ _ _ Hdec) as Hlen. case_decide as Hz.
  - left. split; [done|]. by apply nil_length_inv in Hz as ->.
  - right. exists (mkRmsg add ((c0 :: k :: xs) ++ msg_args pairs) ops). split_and!; [done| | |].
    + exists (c0 :: k :: xs), pairs. cbn [rm_args rm_ops rm_add]. split_and!; try done; lia.
    + unfold sent_by. cbn [rm_args rm_add]. by rewrite handler_app.
    + unfold all_ops. cbn. by rewrite app_nil_r.
Qed.

Lemma own_request w f args h :
  rws w k f -> cfg_ok (srv w) -> handler args = Some h -> acceptable w args ->
  exists w', call 0 h (request w args) = Done tt w' /\ requested w w' f.
Proof.
  intros Hr Hc Hh (c0 & xs & -> & Hl & Hroom). pose proof (mode_on _ Hc) as Hm.
  assert (h = rwsaddCommand \/ h = rwsremCommand) as [->| ->].
  { unfold handler in Hh. destruct (command_of bucket _) as [cmd|]; [|done].
    destruct (is_proc "rwsaddCommand" cmd); [left; congruence|]. destruct (is_proc "rwsremCommand" cmd); [right; congruence|done]. }
  - assert (Z.of_nat (length (add_ops f xs)) <= INT_MAX) as Hlo by (unfold add_ops; rewrite length_fmap; pose proof (length_filter (fun a => negb (EXISTS (f a))) xs); lia).
    destruct (rwsadd_origin w k f c0 xs Hr Hc Hm Hlo) as (w1 & pairs & Hp & Hdec & Hcfg & Hr1 & Hcli).
    by apply (origin_requested true w f c0 xs (add_ops f xs) w1 pairs R_ele_exist).
  - destruct (db (srv w) !! k) as [o|] eqn:Hk.
    + assert (Z.of_nat (length (rem_ops f xs)) <= INT_MAX) as Hlo by (unfold rem_ops; rewrite length_fmap; pose proof (length_filter (fun a => EXISTS (f a)) xs); lia).
      destruct (rwsrem_origin w k f c0 xs Hr) as (w1 & pairs & Hp & Hdec & Hcfg & Hr1 & Hcli); try done.
      { by exists o. }
      { intros x Hx. rewrite (rws_hdrs w f x Hr). by apply Hroom. }
      by apply (origin_requested false w f c0 xs (rem_ops f xs) w1 pairs R_ele_nexist).
    + destruct (rem_no_set w c0 xs Hc Hk) as (w1 & Hp & Hs & Hra & Hrep).
      destruct (call_config _ w (c0 :: k :: xs) w1 Hp Hrep) as (w2 & Hcall & Hcli2 & Hdb & Hcfg2). exists w2. split; [done|].
      rewrite Hs in Hcfg2, Hdb. split; [done|]. left. rewrite Hcli2. split; [done|]. by eapply rws_call.
Qed.

(** ** All servers *)

(** One server: it has run the operations of the messages [did], of which [mine]
    are its own. *)
Record node_inv (w0 w : world) (mine did : list rmsg) : Prop := {
  ni_config : same_config (srv w0) (srv w);
  ni_set : rws w k (hdr_run (fun _ => REH_INIT (srv w0)) (all_ops did));
  ni_mine m : m ∈ mine -> rm_wf (srv w0) k m /\ sent_by m /\ m ∈ did
}.

(** One channel: the messages of its sender are those run at the other end and
    those under way. *)
Definition chan_inv (mine did : list rmsg) (ch : list (list sds)) : Prop :=
  exists del pend, mine = del ++ pend /\ ch = rm_args <$> pend /\ forall m, m ∈ del -> m ∈ did.

Definition sys_inv (s0 s : sys) : Prop :=
  exists log did : nat -> list rmsg,
    (forall i, (i < N)%nat -> node_inv (s_world s0 i) (s_world s i) (log i) (did i)) /\
    (forall i m, (i < N)%nat -> m ∈ did i -> exists j, (j < N)%nat /\ m ∈ log j) /\
    (forall i j, (i < N)%nat -> (j < N)%nat -> i <> j -> chan_inv (log i) (did j) (s_chan s i j)) /\
    (forall i, s_chan s i i = []).

Lemma hdr_run_app f ops1 ops2 : hdr_run f (ops1 ++ ops2) = hdr_run (hdr_run f ops1) ops2.
Proof. apply foldl_app. Qed.
Lemma all_ops_app ms1 ms2 : all_ops (ms1 ++ ms2) = all_ops ms1 ++ all_ops ms2.
Proof. apply bind_app. Qed.

Lemma start_inv s0 : start s0 -> sys_inv s0 s0.
Proof.
  intros [Hs Hch]. exists (fun _ => []), (fun _ => []). split_and!.
  - intros i Hi. destruct (Hs i Hi) as (Hu & _ & _). split; [done|by apply untouched_rws|]. intros m Hm. by apply not_elem_of_nil in Hm.
  - intros i m _ Hm. by apply not_elem_of_nil in Hm.
  - intros i j _ _ _. exists [], []. rewrite Hch. by split_and!.
  - done.
Qed.

(** A server runs one more message. *)
Lemma node_runs w0 w w' mine did m :
  node_inv w0 w mine did -> same_config (srv w) (srv w') ->
  rws w' k (hdr_run (hdr_run (fun _ => REH_INIT (srv w0)) (all_ops did)) (all_ops [m])) -> node_inv w0 w' mine (did ++ [m]).
Proof.
  intros [Hc _ Hm] Hc' Hr. split; [by transitivity (srv w)|by rewrite all_ops_app, hdr_run_app|].
  intros m' Hm'. destruct (Hm m' Hm') as (? & ? & ?). split_and!; try done. apply elem_of_app. by left.
Qed.
Lemma node_issues w0 w w' mine did m :
  node_inv w0 w mine did -> same_config (srv w) (srv w') -> rm_wf (srv w) k m -> sent_by m ->
  rws w' k (hdr_run (hdr_run (fun _ => REH_INIT (srv w0)) (all_ops did)) (all_ops [m])) -> node_inv w0 w' (mine ++ [m]) (did ++ [m]).
Proof.
  intros Hn Hc' Hwf Hsb Hr. destruct (node_runs w0 w w' mine did m Hn Hc' Hr) as [Hc Hr' Hm]. split; [done|done|].
  intros m' Hm'. apply elem_of_app in Hm' as [Hm'|Hm']; [by apply Hm|]. apply list_elem_of_singleton in Hm' as ->.
  split_and!; [|done|apply elem_of_app; right; by left]. eapply rm_wf_stable; [|exact Hwf]. symmetry. apply (ni_config _ _ _ _ Hn).
Qed.
Lemma chan_more mine did did' ch : chan_inv mine did ch -> (forall m, m ∈ did -> m ∈ did') -> chan_inv mine did' ch.
Proof. intros (del & pend & Hl & Hc & Hd) Hsub. exists del, pend. split_and!; try done. intros m Hm. by apply Hsub, Hd. Qed.
Lemma chan_send mine did ch m : chan_inv mine did ch -> chan_inv (mine ++ [m]) did (ch ++ [rm_args m]).
Proof. intros (del & pend & -> & -> & Hd). exists del, (pend ++ [m]). rewrite app_assoc, fmap_app. by split_and!. Qed.
Lemma grow_in (g : nat -> list rmsg) i m a m' : m' ∈ g a -> m' ∈ <[i := g i ++ [m]]> g a.
Proof.
  intros Hm. destruct (decide (a = i)) as [->|Hne]; [rewrite fn_lookup_insert; apply elem_of_app; by left|by rewrite fn_lookup_insert_ne].
Qed.
Lemma grow_inv (g : nat -> list rmsg) i m a m' : m' ∈ <[i := g i ++ [m]]> g a -> m' ∈ g a \/ (a = i /\ m' = m).
Proof.
  destruct (decide (a = i)) as [->|Hne]; [rewrite fn_lookup_insert, elem_of_app, list_elem_of_singleton|rewrite fn_lookup_insert_ne by done]; naive_solver.
Qed.

(** A message is delivered. *)
Lemma node_delivers w0 w mine did m :
  node_inv w0 w mine did -> cfg_ok (srv w) -> rm_wf (srv w0) k m ->
  exists w', call 0 (if rm_add m then rwsaddCommand else rwsremCommand) (delivery w (rm_args m)) = Done tt w' /\ node_inv w0 w' mine (did ++ [m]).
Proof.
  intros Hn Hc Hwf. destruct (deliver_rws w k _ m (ni_set _ _ _ _ Hn) (mode_on _ Hc)) as (w' & Hd & Hr & Hc' & _).
  { eapply rm_wf_stable; [|exact Hwf]. apply (ni_config _ _ _ _ Hn). }
  exists w'. split; [exact Hd|]. apply (node_runs w0 w); [done|done|]. unfold all_ops at 2. cbn. by rewrite app_nil_r.
Qed.

Section Reach.
Context (s0 : sys) (Hstart : start s0).

Lemma node_cfg s log did i : (i < N)%nat -> node_inv (s_world s0 i) (s_world s i) (log i) (did i) -> cfg_ok (srv (s_world s i)).
Proof using Hstart.
  intros Hi [Hc _ _]. destruct Hstart as [Hs _]. destruct (Hs i Hi) as (_ & Hcfg & _). by eapply cfg_ok_stable.
Qed.

(** A message of one server is one for every server. *)
Lemma any_wf i j m : (i < N)%nat -> (j < N)%nat -> rm_wf (srv (s_world s0 i)) k m -> rm_wf (srv (s_world s0 j)) k m.
Proof using Hstart.
  intros Hi Hj. destruct Hstart as [Hs _]. destruct (Hs i Hi) as (_ & _ & Hci), (Hs j Hj) as (_ & _ & Hcj).
  apply rm_wf_stable. congruence.
Qed.

Lemma request_inv s i args h w' :
  (i < N)%nat -> handler args = Some h -> acceptable (s_world s i) args -> call 0 h (request (s_world s i) args) = Done tt w' ->
  sys_inv s0 s -> sys_inv s0 (mkSys (<[i := w']> (s_world s)) (send i (rargv (cli w')) (s_chan s))).
Proof using Hstart.
  intros Hi Hh Ha Hc (log & did & Hn & Hfrom & Hch & Hself). pose proof (Hn i Hi) as Hni.
  destruct (own_request (s_world s i) _ args h (ni_set _ _ _ _ Hni) (node_cfg s log did i Hi Hni) Hh Ha) as (w2 & Hc2 & Hcfg & Hcase).
  rewrite Hc in Hc2. injection Hc2 as <-. destruct Hcase as [[-> Hr]|(m & -> & Hwf & Hsb & Hr)].
  - exists log, did. cbn [send s_world s_chan]. split_and!; try done. intros j Hj. destruct (decide (j = i)) as [->|Hne].
    + rewrite fn_lookup_insert. destruct Hni as [Hc0 _ Hm0]. split; [by transitivity (srv (s_world s i))|done|done].
    + rewrite fn_lookup_insert_ne by done. by apply Hn.
  - exists (<[i := log i ++ [m]]> log), (<[i := did i ++ [m]]> did). cbn [s_world s_chan]. split_and!.
    + intros j Hj. destruct (decide (j = i)) as [->|Hne]; [rewrite !fn_lookup_insert|rewrite !fn_lookup_insert_ne by done; by apply Hn].
      by apply (node_issues _ (s_world s i)).
    + intros j m' Hj Hm'. apply grow_inv in Hm' as [Hm'|[-> ->]].
      * destruct (Hfrom j m' Hj Hm') as (a & Haa & Hin). exists a. split; [done|by apply grow_in].
      * exists i. split; [done|]. rewrite fn_lookup_insert. apply elem_of_app. right. by left.
    + intros a b Hai Hb Hne. assert (chan_inv (log a) (<[i:=did i ++ [m]]> did b) (s_chan s a b)) as Hold.
      { eapply chan_more; [by apply Hch|]. intros m' Hm'. by apply grow_in. }
      unfold send. destruct (decide (a = i)) as [->|Hna].
      * rewrite (fn_lookup_insert log), decide_True by done. by apply chan_send.
      * rewrite (fn_lookup_insert_ne log), decide_False by naive_solver. exact Hold.
    + intros a. unfold send. rewrite decide_False by naive_solver. apply Hself.
Qed.

(** The first message of a channel can be delivered, and is. *)
Lemma deliver_next s i j args rest :
  (i < N)%nat -> (j < N)%nat -> s_chan s i j = args :: rest -> sys_inv s0 s ->
  exists h w', handler args = Some h /\ call 0 h (delivery (s_world s j) args) = Done tt w' /\
    sys_inv s0 (mkSys (<[j := w']> (s_world s)) (receive i j rest (s_chan s))).
Proof using Hstart.
  intros Hi Hj Hc (log & did & Hn & Hfrom & Hch & Hself). destruct (decide (i = j)) as [->|Hne]; [by rewrite Hself in Hc|].
  destruct (Hch i j Hi Hj Hne) as (del & pend & Hl & Hp & Hd). rewrite Hc in Hp. destruct pend as [|m pend]; [done|]. injection Hp as -> ->.
  assert (m ∈ log i) as Hm by (rewrite Hl; apply elem_of_app; right; by left). destruct (ni_mine _ _ _ _ (Hn i Hi) m Hm) as (Hwf & Hsb & _).
  destruct (node_delivers _ _ _ _ m (Hn j Hj) (node_cfg s log did j Hj (Hn j Hj)) (any_wf i j m Hi Hj Hwf)) as (w' & Hcall & Hnj).
  eexists _, w'. split; [exact Hsb|]. split; [exact Hcall|]. exists log, (<[j := did j ++ [m]]> did). cbn [s_world s_chan]. split_and!.
  - intros a Ha. destruct (decide (a = j)) as [->|Hna]; [by rewrite !fn_lookup_insert|rewrite !fn_lookup_insert_ne by done; by apply Hn].
  - intros a m' Ha Hm'. apply grow_inv in Hm' as [Hm'|[-> ->]]; [by apply (Hfrom a)|by exists i].
  - intros a b Ha Hb Hab. unfold receive. destruct (decide (a = i /\ b = j)) as [[-> ->]|Hx].
    + exists (del ++ [m]), pend. rewrite Hl, <- app_assoc. split_and!; try done. intros m' Hm'. rewrite fn_lookup_insert.
      apply elem_of_app in Hm' as [Hm'|Hm']; apply elem_of_app; [left; by apply Hd|by right].
    + eapply chan_more; [by apply Hch|]. intros m' Hm'. by apply grow_in.
  - intros a. unfold receive. rewrite decide_False by naive_solver. apply Hself.
Qed.

Lemma sys_step_inv s s' : sys_step s s' -> sys_inv s0 s -> sys_inv s0 s'.
Proof using Hstart.
  intros [s1 i args h w' Hi Hh Ha Hc|s1 i j args rest h w' Hi Hj Hch Hh Hc] Hinv; [by eapply request_inv|].
  destruct (deliver_next s1 i j args rest Hi Hj Hch Hinv) as (h2 & w2 & Hh2 & Hc2 & Hinv'). rewrite Hh in Hh2. injection Hh2 as <-.
  rewrite Hc in Hc2. by injection Hc2 as <-.
Qed.
Lemma sys_reach_inv s : rtc sys_step s0 s -> sys_inv s0 s.
Proof using Hstart.
  intros Hr. pattern s. eapply rtc_ind_r; [by apply start_inv| |exact Hr]. intros s1 s2 _ Hs Hi. by eapply sys_step_inv.
Qed.

(** When nothing is under way all servers show the same set. *)
Lemma quiet_agree s i j :
  sys_inv s0 s -> quiet s -> (i < N)%nat -> (j < N)%nat -> visible (s_world s i) k = visible (s_world s j) k.
Proof using Hstart.
  intros (log & did & Hn & Hfrom & Hch & _) Hq Hi Hj.
  assert (forall a m, (a < N)%nat -> m ∈ did a <-> exists b, (b < N)%nat /\ m ∈ log b) as Hall.
  { intros a m Ha. split; [by apply Hfrom|]. intros (b & Hb & Hm). destruct (decide (b = a)) as [->|Hne]; [by apply (ni_mine _ _ _ _ (Hn a Ha))|].
    destruct (Hch b a Hb Ha Hne) as (del & pend & Hl & Hp & Hd). rewrite (Hq b a Hb Ha) in Hp. destruct pend; [|done].
    apply Hd. by rewrite Hl, app_nil_r in Hm. }
  destruct Hstart as [Hs _]. destruct (Hs i Hi) as (_ & _ & Hci), (Hs j Hj) as (_ & _ & Hcj).
  eapply (rws_same_messages (srv (s_world s0 i)) (srv (s_world s0 j)) _ _ k (did i) (did j)).
  - congruence.
  - apply Forall_forall. intros m Hm. destruct (Hfrom i m Hi Hm) as (a & Ha & Hin).
    destruct (ni_mine _ _ _ _ (Hn a Ha) m Hin) as (Hwf & _). by apply (any_wf a i).
  - intros m. by rewrite (Hall i m Hi), (Hall j m Hj).
  - apply (ni_set _ _ _ _ (Hn i Hi)).
  - apply (ni_set _ _ _ _ (Hn j Hj)).
Qed.

(** A channel can be emptied, and so all of them. *)
Lemma drain_channel i j ch : forall s,
  (i < N)%nat -> (j < N)%nat -> s_chan s i j = ch -> sys_inv s0 s ->
  exists s', rtc sys_step s s' /\ sys_inv s0 s' /\ forall a b, s_chan s' a b = if decide (a = i /\ b = j) then [] else s_chan s a b.
Proof using Hstart.
  induction ch as [|args rest IH]; intros s Hi Hj Hc Hinv.
  { exists s. split_and!; [done|done|]. intros a b. destruct (decide (a = i /\ b = j)) as [[-> ->]|]; done. }
  destruct (deliver_next s i j args rest Hi Hj Hc Hinv) as (h & w' & Hh & Hcall & Hinv').
  set (s1 := mkSys (<[j := w']> (s_world s)) (receive i j rest (s_chan s))) in *.
  destruct (IH s1) as (s' & Hr & Hinv2 & Hch); try done.
  { cbn. unfold receive. by rewrite decide_True. }
  exists s'. split_and!; [|done|].
  - eapply rtc_l; [|exact Hr]. by eapply Y_deliver.
  - intros a b. rewrite Hch. cbn. unfold receive. by destruct (decide (a = i /\ b = j)).
Qed.
Lemma drain_channels ps : forall s,
  Forall (fun p => p.1 < N /\ p.2 < N)%nat ps -> sys_inv s0 s ->
  exists s', rtc sys_step s s' /\ sys_inv s0 s' /\ (forall a b, s_chan s a b = [] -> s_chan s' a b = []) /\
    forall p, p ∈ ps -> s_chan s' p.1 p.2 = [].
Proof using Hstart.
  induction ps as [|[i j] ps IH]; intros s Hps Hinv; [by exists s; split_and!; [| | |intros p Hp; apply not_elem_of_nil in Hp]|].
  apply Forall_cons_1 in Hps as [[Hi Hj] Hps]. destruct (drain_channel i j _ s Hi Hj eq_refl Hinv) as (s1 & Hr1 & Hinv1 & Hc1).
  destruct (IH s1 Hps Hinv1) as (s2 & Hr2 & Hinv2 & Hk2 & Hc2). exists s2. split_and!; [by transitivity s1|done| |].
  - intros a b Hab. apply Hk2. rewrite Hc1. by destruct (decide _).
  - intros p Hp. apply elem_of_cons in Hp as [->|Hp]; [|by apply Hc2]. apply Hk2. rewrite Hc1. by rewrite decide_True.
Qed.

Lemma sys_converges s :
  rtc sys_step s0 s ->
  (quiet s -> forall i j, (i < N)%nat -> (j < N)%nat -> visible (s_world s i) k = visible (s_world s j) k) /\
  (forall i args h, (i < N)%nat -> handler args = Some h -> acceptable (s_world s i) args ->
     exists w', call 0 h (request (s_world s i) args) = Done tt w') /\
  exists s', rtc sys_step s s' /\ quiet s'.
Proof using Hstart.
  intros Hr. pose proof (sys_reach_inv s Hr) as Hinv. split; [intros Hq i j Hi Hj; by apply quiet_agree|]. split.
  { intros i args h Hi Hh Ha. destruct Hinv as (log & did & Hn & _). pose proof (Hn i Hi) as Hni.
    destruct (own_request (s_world s i) _ args h (ni_set _ _ _ _ Hni) (node_cfg s log did i Hi Hni) Hh Ha) as (w' & Hc & _). by exists w'. }
  destruct (drain_channels (list_prod (seq 0 N) (seq 0 N)) s) as (s' & Hr' & _ & _ & Hc).
  - apply Forall_forall. intros [a b] Hp. apply list_elem_of_In, in_prod_iff in Hp as [Ha Hb].
    apply in_seq in Ha, Hb. cbn. lia.
  - done.
  - exists s'. split; [done|]. intros i j Hi Hj. apply (Hc (i, j)). apply list_elem_of_In, in_prod_iff. rewrite !in_seq. lia.
Qed.
End Reach.
End System.
