(* ===== verification/Zset.v ===== *)
(** * Sorted set objects ([t_zset.c], [t_ozset.c])

    A sorted set is its members with their scores; which of its two encodings
    holds them does not show.  The functions the replicated sorted sets call, the
    helpers they share, and the reads of a score and of the greatest member. *)
From Stdlib Require Import ZArith Lia Ascii String.
From stdpp Require Import functions base numbers strings gmap sets list.
From S2P Require Import Prelude Sds Double VectorClock LamportClock Intset SetType Server RWFramework Container.
Open Scope Z_scope.

Implicit Types z : gmap sds double.

(** [zsetAdd] without flags: a score that is not a number is refused, an equal
    one is not written. *)
Definition zset_add z (score : double) (ele : sds) : gmap sds double :=
  if isnan score then z
  else
    match z !! ele with
    | Some curscore => if deqb score curscore then z else <[ele := score]> z
    | None => <[ele := score]> z
    end.

(** The order of the members: by score, then by name. *)
Definition zset_lt (a b : sds * double) : bool :=
  dltb a.2 b.2 || (deqb a.2 b.2 && (sdscmp a.1 b.1 <? 0)).

(** The tail of the list. *)
Definition zset_last z : option (sds * double) :=
  foldl (fun acc e => match acc with
                      | None => Some e
                      | Some a => if zset_lt a e then Some e else acc
                      end) None (map_to_list z).

(** ** Objects of the key space *)

Definition read_zset (key : sds) : cmd (gmap sds double) := fun w =>
  match db (srv w) !! key with
  | Some (OZset z) => Done z w
  | _ => Crash
  end.

Definition zsetAdd (key : sds) (score : double) (ele : sds) : cmd unit :=
  z <- read_zset key ;; modify (set_db <[key := OZset (zset_add z score ele)]>).

Definition zsetDel (key ele : sds) : cmd unit :=
  z <- read_zset key ;; modify (set_db <[key := OZset (delete ele z)]>).

Definition is_zset (o : robj) : bool := match o with OZset _ => true | _ => false end.

(** [true] is 1: a reply has been sent. *)
Definition checkArgcAndZsetType (max : Z) : cmd bool :=
  n <- argc ;;
  if max <? n then addReply R_syntaxerr ;; ret true
  else
    key <- arg 1 ;;
    zset <- lookupKeyRead key ;;
    match zset with
    | Some o => if is_zset o then ret false else addReply R_wrongtypeerr ;; ret true
    | None => ret false
    end.

(** The pointer returned is the key of the object. *)
Definition getZsetOrCreate (zset_name element_name : sds) : cmd sds :=
  zobj <- lookupKeyWrite zset_name ;;
  match zobj with
  | Some _ => ret zset_name
  | None => dbAdd zset_name (OZset ∅) ;; ret zset_name
  end.

(** [None] has sent the error. *)
Definition getDoubleFromObjectOrReply (o : sds) : cmd (option double) :=
  match getDoubleFromObject o with
  | Some v => ret (Some v)
  | None => addReply (R_error "value is not a valid float") ;; ret None
  end.

(** [rzscore] and [ozscore]. *)
Definition zscore_reply : cmd unit :=
  key <- arg 1 ;;
  zobj <- lookupKeyReadOrReply key R_nullbulk ;;
  match zobj with
  | None => ret tt
  | Some (OZset z) =>
      ele <- arg 2 ;;
      match z !! ele with
      | None => addReply R_nullbulk
      | Some score => addReply (R_double score)
      end
  | Some _ => addReply R_wrongtypeerr
  end.

(** [rzmax] and [ozmax]. *)
Definition zmax_reply : cmd unit :=
  key <- arg 1 ;;
  zobj <- lookupKeyReadOrReply key R_emptymultibulk ;;
  match zobj with
  | None => ret tt
  | Some (OZset z) =>
      match zset_last z with
      | None => addReply R_emptymultibulk
      | Some (ele, score) => addReply (R_multibulklen 2) ;; addReply (R_bulk ele) ;; addReply (R_double score)
      end
  | Some _ => addReply R_wrongtypeerr
  end.

(** ** Containers that show a sorted set *)

#[global] Instance zset_shape : Shape (gmap sds double) := fun _ o z =>
  match o with
  | None => z = ∅
  | Some (OZset z') => z = z'
  | _ => False
  end.

Section Zset.
Context {E : Type} `{ElemStable E}.
Implicit Types (w : world) (k x : sds) (f : sds -> E).

Lemma getZsetOrCreate_rep w k f z s :
  rep w k f z ->
  exists w', getZsetOrCreate k s w = Done k w' /\ rep w' k f z /\ frame (E := E) k w w' /\ hasset w' k.
Proof.
  intros Hr. unfold getZsetOrCreate, lookupKeyWrite. step_with (lookupKey_done _ _).
  destruct (db (srv w) !! k) as [o|] eqn:Hdb.
  - exists w. split_and!; [done..|]. unfold hasset. by rewrite Hdb.
  - assert (z = ∅) as ->.
    { pose proof (rep_set _ _ _ _ Hr) as Hs. unfold shape_set in Hs. by rewrite Hdb in Hs. }
    destruct (write_obj_rep w k f ∅ (OZset ∅) (∅ : gmap sds double) Hr eq_refl) as [Hr' Hf'].
    eexists. step_with (dbAdd_done _ (OZset ∅) _ Hdb). split; [done|]. split_and!; [done..|].
    unfold hasset. cbn. by rewrite lookup_insert_eq.
Qed.

Lemma read_zset_rep w k f z : rep w k f z -> hasset w k -> read_zset k w = Done z w.
Proof.
  intros Hr [o Ho]. pose proof (rep_set _ _ _ _ Hr) as Hs. unfold shape_set, shape_obj, zset_shape in Hs.
  rewrite Ho in Hs. unfold read_zset. rewrite Ho. destruct o; try done. by subst.
Qed.

Lemma zsetAdd_rep w k f z s x :
  rep w k f z -> hasset w k ->
  exists w', zsetAdd k s x w = Done tt w' /\ rep w' k f (zset_add z s x) /\ frame (E := E) k w w'.
Proof.
  intros Hr Hs. unfold zsetAdd. step_with (read_zset_rep _ _ _ _ Hr Hs). eexists. split; [done|].
  by apply (write_obj_rep w k f z (OZset (zset_add z s x))).
Qed.

Lemma zsetDel_rep w k f z x :
  rep w k f z -> hasset w k ->
  exists w', zsetDel k x w = Done tt w' /\ rep w' k f (delete x z) /\ frame (E := E) k w w'.
Proof.
  intros Hr Hs. unfold zsetDel. step_with (read_zset_rep _ _ _ _ Hr Hs). eexists. split; [done|].
  by apply (write_obj_rep w k f z (OZset (delete x z))).
Qed.

(** The checks of the prepare phases. *)
Lemma check_zset_rep w k f z args max :
  rep w k f z -> index args 1 = Some k -> Z.of_nat (length args) <= max ->
  checkArgcAndZsetType max (request w args) = Done false (request w args).
Proof.
  intros Hr Hk Hl. unfold checkArgcAndZsetType. step_with (argc_done (request w args)). cbn [cli request argv].
  replace (max <? _) with false by (symmetry; apply Z.ltb_ge; lia).
  step_with (arg_done (request w args) 1 k Hk). step_with (lookupKey_done k (request w args)). cbn.
  pose proof (rep_set _ _ _ _ Hr) as Hs. unfold shape_set, shape_obj, zset_shape in Hs. by destruct (db (srv w) !! k) as [[]|].
Qed.
End Zset.

(** What they refuse: too many arguments, and a key of another type. *)
Lemma zset_syntax {A} w args max (rest : cmd A) :
  max < Z.of_nat (length args) ->
  (b <- checkArgcAndZsetType max ;; if b then creturn else rest) (request w args) =
  Return (set_client (push_reply R_syntaxerr) (request w args)).
Proof.
  intros Hl. unfold checkArgcAndZsetType. rewrite bind_assoc. step_with (argc_done (request w args)). cbn [cli request argv].
  replace (max <? _) with true by (symmetry; apply Z.ltb_lt; lia). rewrite bind_assoc. by step_with (addReply_done R_syntaxerr (request w args) eq_refl).
Qed.

Lemma zset_wrongtype {A} w args max k o (rest : cmd A) :
  index args 1 = Some k -> Z.of_nat (length args) <= max -> db (srv w) !! k = Some o -> is_zset o = false ->
  (b <- checkArgcAndZsetType max ;; if b then creturn else rest) (request w args) =
  Return (set_client (push_reply R_wrongtypeerr) (request w args)).
Proof.
  intros Hk Hl Ho Hz. unfold checkArgcAndZsetType. rewrite bind_assoc. step_with (argc_done (request w args)). cbn [cli request argv].
  replace (max <? _) with false by (symmetry; apply Z.ltb_ge; lia). rewrite bind_assoc.
  step_with (arg_done (request w args) 1 k Hk). rewrite bind_assoc. step_with (lookupKey_done k (request w args)). cbn [srv request].
  rewrite Ho, Hz, bind_assoc. by step_with (addReply_done R_wrongtypeerr (request w args) eq_refl).
Qed.

Definition not_a_float : reply := R_error "value is not a valid float".

Lemma read_score_done v s w : getDoubleFromObject s = Some v -> getDoubleFromObjectOrReply s w = Done (Some v) w.
Proof. intros Hs. unfold getDoubleFromObjectOrReply. by rewrite Hs. Qed.

(** The score a container shows for an element. *)
Definition shown_score (w : world) (k x : sds) : option double :=
  match db (srv w) !! k with Some (OZset z) => z !! x | _ => None end.

Lemma shown_score_rep `{ElemStable E} w k (f : sds -> E) z x : rep w k f z -> shown_score w k x = z !! x.
Proof.
  intros Hr. pose proof (rep_set _ _ _ _ Hr) as Hs. unfold shape_set, shape_obj, zset_shape in Hs. unfold shown_score.
  destruct (db (srv w) !! k) as [[]|]; try done; by subst.
Qed.

(** ** An element and the score shown for it *)

(** What [zsetAdd] leaves of the score shown. *)
Definition zput (o : option double) (s : double) : option double :=
  if isnan s then o
  else match o with Some cur => if deqb s cur then o else Some s | None => Some s end.

Lemma zset_add_put z s x : zset_add z s x = partial_alter (fun o => zput o s) x z.
Proof.
  unfold zset_add, zput. apply map_eq. intros y. destruct (decide (y = x)) as [->|Hne].
  - rewrite lookup_partial_alter_eq. destruct (isnan s); [done|].
    destruct (z !! x) as [cur|] eqn:Hz; [destruct (deqb s cur); [done|]|]; apply lookup_insert_eq.
  - rewrite lookup_partial_alter_ne by done. destruct (isnan s); [done|].
    destruct (z !! x) as [cur|]; [destruct (deqb s cur); [done|]|]; by apply lookup_insert_ne.
Qed.

Lemma partial_alter_twice {A} (g h : option A -> option A) (m : gmap sds A) y :
  partial_alter g y (partial_alter h y m) = partial_alter (fun o => g (h o)) y m.
Proof.
  apply map_eq. intros i. destruct (decide (i = y)) as [->|Hne].
  - by rewrite !lookup_partial_alter_eq.
  - by rewrite !lookup_partial_alter_ne.
Qed.

Section Shown.
Context {E : Type} `{ElemStable E}.
Implicit Types (f : sds -> E) (p : E * option double).

(** The state of the container with the element [x] replaced. *)
Definition f_upd f (x : sds) p : sds -> E := <[x := p.1]> f.
Definition z_upd z (x : sds) p : gmap sds double := partial_alter (fun _ => p.2) x z.

Lemma f_upd_at f x p : f_upd f x p x = p.1.
Proof. unfold f_upd. by rewrite fn_lookup_insert. Qed.

Lemma f_upd_ext f x e : e = f x -> forall y, f y = f_upd f x (e, None) y.
Proof.
  intros -> y. unfold f_upd. destruct (decide (y = x)) as [->|]; [by rewrite fn_lookup_insert|by rewrite fn_lookup_insert_ne].
Qed.

Lemma st_same w k f z x : rep w k f z -> rep w k (f_upd f x (f x, z !! x)) (z_upd z x (f x, z !! x)).
Proof.
  intros Hr. unfold z_upd. cbn. rewrite partial_alter_self. eapply rep_ext, Hr. by apply f_upd_ext.
Qed.

(** Replacing the element, with the score shown so far. *)
Lemma st_write f z x e y :
  (<[x := e]> f) y = f_upd f x (e, z !! x) y /\ z = z_upd z x (e, z !! x).
Proof. unfold f_upd, z_upd. cbn. by rewrite partial_alter_self. Qed.

Lemma st_read f z x p y :
  (f_upd f x p y, z_upd z x p !! y) = if decide (y = x) then p else (f y, z !! y).
Proof.
  unfold f_upd, z_upd. case_decide as Hy; [subst; rewrite fn_lookup_insert, lookup_partial_alter_eq; by destruct p|].
  by rewrite fn_lookup_insert_ne, lookup_partial_alter_ne.
Qed.
End Shown.
