(* ===== verification/DoubleExact.v ===== *)
(** * Integers as doubles

    Integers below 2^53 in magnitude are held exactly, and so are their sums as
    long as they stay below it: addition in any order gives the same double. *)
From Stdlib Require Import ZArith Lia Ascii String SpecFloat.
From stdpp Require Import base numbers strings list.
From S2P Require Import Prelude Sds Double Zset.
Open Scope Z_scope.

(** A positive shifted left. *)
Definition shl (p : positive) (n : nat) : positive := Nat.iter n xO p.
Definition digits (p : positive) : Z := Zpos (digits2_pos p).

Lemma shl_shl p n m : shl (shl p n) m = shl p (n + m).
Proof. unfold shl. rewrite Nat.add_comm, Nat.iter_add. done. Qed.

Lemma pos_iter_shl p d : Pos.iter xO p d = shl p (Pos.to_nat d).
Proof. unfold shl. by rewrite Pos2Nat.inj_iter. Qed.

Lemma digits_shl p n : digits (shl p n) = digits p + Z.of_nat n.
Proof.
  unfold digits. induction n as [|n IH]; [cbn; lia|].
  change (shl p (S n)) with (xO (shl p n)). cbn [digits2_pos]. lia.
Qed.

Lemma Zpos_shl p n : Zpos (shl p n) = Zpos p * 2 ^ Z.of_nat n.
Proof.
  induction n as [|n IH]; [cbn; lia|]. change (shl p (S n)) with (xO (shl p n)).
  rewrite Nat2Z.inj_succ, Z.pow_succ_r by lia. lia.
Qed.

Lemma digits_pos p : 0 < digits p.
Proof. unfold digits. lia. Qed.

Lemma digits_bound p n : Zpos p < 2 ^ n -> 0 <= n -> digits p <= n.
Proof.
  revert n. unfold digits. induction p as [p IH|p IH|]; intros n Hp Hn; cbn [digits2_pos].
  1,2: destruct (decide (n = 0)) as [->|]; [cbn in Hp; lia|];
    replace n with (Z.succ (n - 1)) in Hp by lia; rewrite Z.pow_succ_r in Hp by lia;
    specialize (IH (n - 1) ltac:(lia) ltac:(lia)); lia.
  destruct (decide (n = 0)) as [->|]; [cbn in Hp; lia|lia].
Qed.

Lemma iter_pos_nat {A} (f : A -> A) n x : SpecFloat.iter_pos f n x = Nat.iter (Pos.to_nat n) f x.
Proof.
  revert x. induction n as [n IH|n IH|]; intros x; cbn [SpecFloat.iter_pos]; [| |done]; rewrite !IH, <- Nat.iter_add.
  - rewrite Pos2Nat.inj_xI. cbn. rewrite <- Nat.iter_succ_r. cbn. by rewrite Nat.add_0_r.
  - rewrite Pos2Nat.inj_xO. cbn. by rewrite Nat.add_0_r.
Qed.

Lemma shr_shl p n :
  Nat.iter n shr_1 (Build_shr_record (Zpos (shl p n)) false false) = Build_shr_record (Zpos p) false false.
Proof.
  induction n as [|n IH]; [done|]. rewrite Nat.iter_succ_r. by change (shl p (S n)) with (xO (shl p n)).
Qed.

Lemma shr_fexp_exact p n e :
  digits p = 53 -> -1074 <= e + Z.of_nat n ->
  shr_fexp 53 1024 (Zpos (shl p n)) e loc_Exact = (Build_shr_record (Zpos p) false false, e + Z.of_nat n).
Proof.
  intros Hd He. unfold shr_fexp, fexp, emin. cbn [shr_record_of_loc Zdigits2].
  change (Zpos (digits2_pos (shl p n))) with (digits (shl p n)). rewrite digits_shl, Hd.
  replace (Z.max _ _ - e) with (Z.of_nat n) by lia.
  unfold SpecFloat.shr. destruct n as [|n]; [by rewrite Z.add_0_r|].
  change (Z.of_nat (S n)) with (Zpos (Pos.of_succ_nat n)).
  cbn beta iota. rewrite iter_pos_nat, SuccNat2Pos.id_succ. by rewrite shr_shl.
Qed.

Lemma round_exact s p n :
  digits p <= 53 -> (n <= 1000)%nat ->
  binary_round 53 1024 s (shl p n) (- Z.of_nat n) =
  S754_finite s (shl p (Z.to_nat (53 - digits p))) (digits p - 53).
Proof.
  intros Hd Hn. pose proof (digits_pos p) as Hp. unfold binary_round, fexp, emin.
  change (Zpos (digits2_pos (shl p n))) with (digits (shl p n)). rewrite digits_shl.
  replace (Z.max _ _) with (digits p - 53) by lia.
  set (q := shl p (Z.to_nat (53 - digits p))).
  assert (digits q = 53) as Hq by (unfold q; rewrite digits_shl; lia).
  assert (exists m, shl_align (shl p n) (- Z.of_nat n) (digits p - 53) = (shl q m, digits p - 53 - Z.of_nat m)) as (m & Hm).
  { unfold shl_align, q. destruct (Z.compare_spec (digits p - 53 - - Z.of_nat n) 0) as [Hc|Hc|Hc].
    - rewrite Hc. exists 0%nat. rewrite shl_shl. f_equal; [f_equal; lia|lia].
    - destruct (digits p - 53 - - Z.of_nat n) as [|x|x] eqn:Hx; [lia..|]. exists 0%nat.
      rewrite pos_iter_shl, !shl_shl. f_equal; [f_equal; lia|lia].
    - exists (Z.to_nat (digits p - 53 + Z.of_nat n)). destruct (digits p - 53 - - Z.of_nat n) as [|x|x] eqn:Hx; [lia| |lia].
      rewrite shl_shl. f_equal; [f_equal; lia|lia]. }
  rewrite Hm. cbn beta iota zeta. unfold binary_round_aux.
  rewrite shr_fexp_exact by lia. cbn [shr_m loc_of_shr_record round_nearest_even].
  change q with (shl q 0) at 1. rewrite shr_fexp_exact by lia. cbn [shr_m].
  replace (digits p - 53 - Z.of_nat m + Z.of_nat m + Z.of_nat 0) with (digits p - 53) by lia.
  replace (_ <=? _) with true by lia. done.
Qed.

Lemma round_exact_0 s p :
  digits p <= 53 ->
  binary_round 53 1024 s p 0 = S754_finite s (shl p (Z.to_nat (53 - digits p))) (digits p - 53).
Proof. intros Hd. apply (round_exact s p 0); [done|lia]. Qed.

(** The integers the format holds exactly. *)
Definition exact (a : Z) : Prop := Z.abs a < 2 ^ 53.

Lemma normalize_exact a n :
  exact a -> (n <= 1000)%nat -> binary_normalize 53 1024 (a * 2 ^ Z.of_nat n) (- Z.of_nat n) false = of_Z a.
Proof.
  unfold exact. intros Ha Hn. unfold of_Z. destruct a as [|p|p]; [done| |];
    assert (digits p <= 53) by (apply digits_bound; lia).
  - rewrite <- Zpos_shl. cbn [binary_normalize]. rewrite round_exact by done.
    by rewrite round_exact_0.
  - change (Zneg p) with (- Zpos p). rewrite Z.mul_opp_l, <- Zpos_shl, !Pos2Z.opp_pos. cbn [binary_normalize]. rewrite round_exact by done.
    by rewrite round_exact_0.
Qed.

Lemma of_Z_form a :
  exact a -> a <> 0 ->
  exists s m n, of_Z a = S754_finite s m (- Z.of_nat n) /\ (n <= 52)%nat /\ cond_Zopp s (Zpos m) = a * 2 ^ Z.of_nat n.
Proof.
  unfold exact. intros Ha Hnz. destruct a as [|p|p]; [done| |];
    (assert (digits p <= 53) as Hd by (apply digits_bound; lia)); pose proof (digits_pos p) as Hp.
  - exists false, (shl p (Z.to_nat (53 - digits p))), (Z.to_nat (53 - digits p)). split_and!; [|lia|].
    + unfold of_Z. cbn [binary_normalize]. rewrite round_exact_0 by done. f_equal. lia.
    + cbn [cond_Zopp]. by rewrite Zpos_shl.
  - exists true, (shl p (Z.to_nat (53 - digits p))), (Z.to_nat (53 - digits p)). split_and!; [|lia|].
    + unfold of_Z. cbn [binary_normalize]. rewrite round_exact_0 by done. f_equal. lia.
    + cbn [cond_Zopp]. rewrite Zpos_shl. change (Zneg p) with (- Zpos p). lia.
Qed.

Lemma align_value s m n k :
  (n <= k)%nat ->
  cond_Zopp s (Zpos (shl_align m (- Z.of_nat n) (- Z.of_nat k)).1) = cond_Zopp s (Zpos m) * 2 ^ Z.of_nat (k - n).
Proof.
  intros Hk. unfold shl_align. destruct (- Z.of_nat k - - Z.of_nat n) as [|d|d] eqn:Hd; [|lia|].
  - replace (k - n)%nat with 0%nat by lia. cbn. lia.
  - cbn [fst]. rewrite pos_iter_shl. replace (k - n)%nat with (Pos.to_nat d) by lia.
    destruct s; cbn [cond_Zopp]; rewrite Zpos_shl; lia.
Qed.

Lemma pow_split n k : (n <= k)%nat -> 2 ^ Z.of_nat n * 2 ^ Z.of_nat (k - n) = 2 ^ Z.of_nat k.
Proof. intros Hk. rewrite <- Z.pow_add_r by lia. f_equal. lia. Qed.

(** Sums of such integers are exact. *)
Lemma dadd_exact a b : exact a -> exact b -> exact (a + b) -> dadd (of_Z a) (of_Z b) = of_Z (a + b).
Proof.
  intros Ha Hb Hab. unfold dadd.
  destruct (decide (a = 0)) as [->|Hna].
  { rewrite Z.add_0_l. destruct (decide (b = 0)) as [->|Hnb]; [done|]. destruct (of_Z_form b Hb Hnb) as (s & m & n & -> & _). done. }
  destruct (of_Z_form a Ha Hna) as (s & m & n & Hf & Hn & Hv). rewrite Hf.
  destruct (decide (b = 0)) as [->|Hnb]; [by rewrite Z.add_0_r|].
  destruct (of_Z_form b Hb Hnb) as (s' & m' & n' & -> & Hn' & Hv').
  unfold SFadd. cbn zeta.
  replace (Z.min _ _) with (- Z.of_nat (Nat.max n n')) by lia.
  rewrite !align_value by lia. rewrite Hv, Hv', <- !Z.mul_assoc, !pow_split, <- Z.mul_add_distr_r by lia.
  apply normalize_exact; [done|lia].
Qed.

Lemma deqb_eq x y : deqb x y = true -> x = y \/ is_zero x && is_zero y = true.
Proof.
  unfold deqb, SFeqb. destruct x as [s|s| |s m e], y as [s'|s'| |s' m' e']; try done; [by right|..]; cbn;
    destruct s, s'; try done; intros Hc; left; try done;
    change (PosDef.Pos.compare_cont Eq m m') with (Pos.compare m m') in Hc;
    destruct (Z.compare_spec e e'); try done; subst; destruct (Pos.compare_spec m m'); try done; by subst.
Qed.

Lemma of_Z_nan a : exact a -> isnan (of_Z a) = false.
Proof. intros Ha. destruct (decide (a = 0)) as [->|Hn]; [done|]. by destruct (of_Z_form a Ha Hn) as (? & ? & ? & -> & _). Qed.

Lemma of_Z_deqb a b : exact a -> exact b -> deqb (of_Z a) (of_Z b) = true -> of_Z a = of_Z b.
Proof.
  intros Ha Hb Hd. apply deqb_eq in Hd as [|Hz]; [done|].
  destruct (decide (a = 0)) as [->|Hn]; [|by destruct (of_Z_form a Ha Hn) as (? & ? & ? & Hf & _); rewrite Hf in Hz].
  destruct (decide (b = 0)) as [->|Hn]; [done|]. destruct (of_Z_form b Hb Hn) as (? & ? & ? & Hf & _). by rewrite Hf in Hz.
Qed.

(** The integer a double holds, towards zero. *)
Definition int_of (x : double) : Z :=
  match x with
  | S754_finite s m e => cond_Zopp s (if 0 <=? e then Zpos m * 2 ^ e else Zpos m / 2 ^ (- e))
  | _ => 0
  end.

(** An exact score is always written. *)
Lemma zput_exact z a :
  z = None \/ (exists b, exact b /\ z = Some (of_Z b)) -> exact a -> zput z (of_Z a) = Some (of_Z a).
Proof.
  intros Hz Ha. unfold zput. rewrite of_Z_nan by done. destruct Hz as [->|(b & Hb & ->)]; [done|].
  destruct (deqb _ _) eqn:Hd; [|done]. f_equal. symmetry. by apply of_Z_deqb.
Qed.

(** ** Comparisons and magnitudes *)

Lemma int_of_exact a : exact a -> int_of (of_Z a) = a.
Proof.
  intros Ha. destruct (decide (a = 0)) as [->|Hn]; [done|].
  destruct (of_Z_form a Ha Hn) as (s & m & n & -> & _ & Hv). unfold int_of.
  assert (0 < 2 ^ Z.of_nat n) as Hp by (apply Z.pow_pos_nonneg; lia).
  assert (Zpos m = Z.abs a * 2 ^ Z.of_nat n) as Hm by (destruct s; cbn in Hv; nia).
  destruct (Z.leb_spec 0 (- Z.of_nat n)) as [Hz|Hz].
  - assert (n = 0%nat) as -> by lia. destruct s; cbn in *; lia.
  - rewrite Z.opp_involutive, Hm, Z.div_mul by lia. destruct s; cbn in *; nia.
Qed.

Lemma deqb_exact a b : exact a -> exact b -> deqb (of_Z a) (of_Z b) = (a =? b).
Proof.
  intros Ha Hb. destruct (Z.eqb_spec a b) as [->|Hn]; [by apply deqb_refl, of_Z_nan|].
  destruct (deqb _ _) eqn:Hd; [|done]. apply of_Z_deqb in Hd; [|done..].
  apply (f_equal int_of) in Hd. rewrite !int_of_exact in Hd by done. lia.
Qed.

Lemma of_pos p : digits p <= 53 -> of_Z (Zpos p) = S754_finite false (shl p (Z.to_nat (53 - digits p))) (digits p - 53).
Proof. intros Hd. unfold of_Z. cbn. by apply round_exact_0. Qed.

Lemma of_neg p : digits p <= 53 -> of_Z (Zneg p) = S754_finite true (shl p (Z.to_nat (53 - digits p))) (digits p - 53).
Proof. intros Hd. unfold of_Z. cbn. by apply round_exact_0. Qed.

Lemma digits_lt p q : digits p < digits q -> (Zpos p < Zpos q)%Z.
Proof.
  intros Hd. assert (forall r, 2 ^ (digits r - 1) <= Zpos r < 2 ^ digits r) as Hb.
  { intros r. unfold digits. induction r as [r IH|r IH|]; cbn [digits2_pos]; [| |done];
      rewrite Pos2Z.inj_succ; replace (Z.succ (Zpos (digits2_pos r)) - 1) with (Z.succ (Zpos (digits2_pos r) - 1)) by lia;
      rewrite !Z.pow_succ_r by lia; lia. }
  pose proof (Hb p). pose proof (Hb q). assert (2 ^ digits p <= 2 ^ (digits q - 1)) by (apply Z.pow_le_mono_r; lia). lia.
Qed.

Lemma dltb_exact a b : exact a -> exact b -> 0 <= a -> 0 <= b -> dltb (of_Z a) (of_Z b) = (a <? b).
Proof.
  unfold exact. intros Ha Hb Ha0 Hb0. destruct a as [|p|p]; [| |lia]; (destruct b as [|q|q]; [| |lia]); try done.
  - by rewrite of_pos by (apply digits_bound; lia).
  - by rewrite of_pos by (apply digits_bound; lia).
  - rewrite !of_pos by (apply digits_bound; lia). unfold dltb, SFltb, SFcompare.
    destruct (Z.compare_spec (digits p - 53) (digits q - 53)) as [He|He|He].
    + change (PosDef.Pos.compare_cont Eq ?x ?y) with (Pos.compare x y). assert (digits p = digits q) as <- by lia.
      set (n := Z.to_nat _). destruct (Pos.compare_spec (shl p n) (shl q n)) as [Hc|Hc|Hc].
      * apply (f_equal Zpos) in Hc. rewrite !Zpos_shl in Hc. symmetry. apply Z.ltb_ge. nia.
      * assert (Zpos (shl p n) < Zpos (shl q n)) as Hc' by lia. rewrite !Zpos_shl in Hc'. symmetry. apply Z.ltb_lt. nia.
      * assert (Zpos (shl q n) < Zpos (shl p n)) as Hc' by lia. rewrite !Zpos_shl in Hc'. symmetry. apply Z.ltb_ge. nia.
    + symmetry. apply Z.ltb_lt, digits_lt. lia.
    + symmetry. apply Z.ltb_ge. pose proof (digits_lt q p ltac:(lia)). lia.
Qed.

(** Adding a magnitude, [(v > 0) ? v : -v]. *)
Lemma dadd_magnitude c n :
  exact c -> exact n -> exact (c + Z.abs n) ->
  dadd (of_Z c) (if dltb dzero (of_Z n) then of_Z n else dneg (of_Z n)) = of_Z (c + Z.abs n).
Proof.
  intros Hc Hn Hs. destruct n as [|p|p].
  - rewrite Z.add_0_r. cbn. destruct (decide (c = 0)) as [->|Hz]; [done|].
    by destruct (of_Z_form c Hc Hz) as (s & m & e & -> & _).
  - assert (dltb dzero (of_Z (Zpos p)) = true) as -> by (by apply (dltb_exact 0 (Zpos p))). by apply dadd_exact.
  - assert (digits p <= 53) as Hd by (apply digits_bound; unfold exact in Hn; lia).
    rewrite of_neg by done. cbn [dneg SFopp negb dltb SFltb SFcompare dzero]. rewrite <- of_pos by done.
    change (Z.abs (Zneg p)) with (Zpos p) in *. apply dadd_exact; [done| |done]. unfold exact in *. cbn in *. lia.
Qed.
