(* ===== verification/DoubleOrder.v ===== *)
(** * The order of doubles

    Comparison of doubles that are numbers is a total order up to the two zeros:
    both comparisons of C are those of a key in a lexicographic order. *)
From Stdlib Require Import ZArith Lia SpecFloat.
From stdpp Require Import base numbers.
From S2P Require Import Prelude Sds Double.
Open Scope Z_scope.

(** Sign and kind, then exponent and mantissa. *)
Definition dkey (x : double) : Z * Z * Z :=
  match x with
  | S754_zero _ | S754_nan => (0, 0, 0)
  | S754_infinity s => (if s then -2 else 2, 0, 0)
  | S754_finite true m e => (-1, - e, Z.neg m)
  | S754_finite false m e => (1, e, Z.pos m)
  end.

Definition key_lt (a b : Z * Z * Z) : Prop :=
  a.1.1 < b.1.1 \/ (a.1.1 = b.1.1 /\ (a.1.2 < b.1.2 \/ (a.1.2 = b.1.2 /\ a.2 < b.2))).

Lemma dcompare x y :
  isnan x = false -> isnan y = false ->
  match SFcompare x y with
  | Some Lt => key_lt (dkey x) (dkey y)
  | Some Eq => dkey x = dkey y
  | Some Gt => key_lt (dkey y) (dkey x)
  | None => False
  end.
Proof.
  destruct x as [[]|[]| |[] m e], y as [[]|[]| |[] m' e']; try done; intros _ _; unfold key_lt; cbn; try lia; try (by left);
    destruct (Z.compare_spec e e') as [<-|He|He]; cbn; try lia;
    change (PosDef.Pos.compare_cont Eq m m') with (Pos.compare m m'); destruct (Pos.compare_spec m m') as [<-|Hm|Hm]; cbn; try done; lia.
Qed.

Lemma dltb_key x y : isnan x = false -> isnan y = false -> dltb x y = true <-> key_lt (dkey x) (dkey y).
Proof.
  intros Hx Hy. pose proof (dcompare x y Hx Hy) as Hc. unfold dltb, SFltb. destruct (SFcompare x y) as [[]|]; [..|done].
  - split; [done|]. rewrite Hc. unfold key_lt. lia.
  - done.
  - split; [done|]. unfold key_lt in *. lia.
Qed.

Lemma deqb_key x y : isnan x = false -> isnan y = false -> deqb x y = true <-> dkey x = dkey y.
Proof.
  intros Hx Hy. pose proof (dcompare x y Hx Hy) as Hc. unfold deqb, SFeqb. destruct (SFcompare x y) as [[]|]; [done|..|done];
    (split; [done|]; intros He; rewrite He in Hc; unfold key_lt in Hc; lia).
Qed.
