(* ===== verification/Skiplist.v ===== *)
(** * Skip lists ([t_zset.c])

    The sorted list behind large sorted sets: every node is linked at level 0,
    and at some levels above it; each link has a span, the number of positions it
    crosses.  The nodes live in a heap and a pointer is an address in it; reading
    through a null or freed pointer is [None], and so is a failed assertion.
    Memory that was not initialised is zero. *)
From Stdlib Require Import ZArith Lia Ascii String.
From stdpp Require Import base numbers strings gmap sets list.
From S2P Require Import Prelude Sds Double.
Open Scope Z_scope.

(** ** Nodes *)

Definition ZSKIPLIST_MAXLEVEL : nat := 32.

Record zskiplistLevel := mkLevel { forward : option nat; span : Z }.

Record zskiplistNode := mkZnode {
  zn_ele : option sds;
  zn_score : double;
  backward : option nat;
  zn_level : list zskiplistLevel
}.

Abbreviation zheap := (gmap nat zskiplistNode).

Record zskiplist := mkZsl {
  sl_heap : zheap;
  header : nat;
  sl_tail : option nat;
  sl_length : Z;
  sl_level : nat
}.

Implicit Types (h : zheap) (zsl : zskiplist).

Definition get_level h (x i : nat) : option zskiplistLevel := n ← h !! x; zn_level n !! i.

Definition set_level h (x i : nat) (v : zskiplistLevel) : option zheap :=
  n ← h !! x;
  if (i <? length (zn_level n))%nat
  then Some (<[x := mkZnode (zn_ele n) (zn_score n) (backward n) (<[i := v]> (zn_level n))]> h)
  else None.

Definition set_backward h (x : nat) (b : option nat) : option zheap :=
  n ← h !! x; Some (<[x := mkZnode (zn_ele n) (zn_score n) b (zn_level n)]> h).

Definition zslCreateNode h (level : nat) (score : double) (ele : option sds) : zheap * nat :=
  let zn := fresh (dom h) in
  (<[zn := mkZnode ele score None (replicate level (mkLevel None 0))]> h, zn).

Definition zslFreeNode h (node : nat) : zheap := delete node h.

(** A loop over levels. *)
Fixpoint for_levels (levels : list nat) (body : nat -> zheap -> option zheap) h : option zheap :=
  match levels with
  | [] => Some h
  | i :: levels => match body i h with Some h => for_levels levels body h | None => None end
  end.

Definition zslCreate : option zskiplist :=
  let '(h, header) := zslCreateNode ∅ ZSKIPLIST_MAXLEVEL dzero None in
  h ← for_levels (seq 0 ZSKIPLIST_MAXLEVEL) (fun j h => set_level h header j (mkLevel None 0)) h;
  h ← set_backward h header None;
  Some (mkZsl h header None 0 1).

(** The level from the values [random] returns: 0.25 * 0xFFFF is not an integer
    and compared exactly.  [None]: more values are drawn. *)
Fixpoint random_loop (level : Z) (draws : list Z) : option Z :=
  match draws with
  | [] => None
  | r :: draws => if 4 * Z.land r 65535 <? 65535 then random_loop (level + 1) draws else Some level
  end.
Definition zslRandomLevel (draws : list Z) : option nat :=
  level ← random_loop 1 draws;
  Some (if level <? Z.of_nat ZSKIPLIST_MAXLEVEL then Z.to_nat level else ZSKIPLIST_MAXLEVEL).

(** ** Walking

    At level [i] from node [x]: forward while the next node satisfies the
    condition, which may look at what was accumulated and at the link. *)
Section Walk.
Context {A : Type} (cond : A -> zskiplistLevel -> zskiplistNode -> option bool) (step : A -> zskiplistLevel -> A) (h : zheap).

Fixpoint walk (fuel i x : nat) (a : A) : option (nat * A) :=
  match fuel with
  | O => None
  | S fuel =>
      l ← get_level h x i;
      match forward l with
      | None => Some (x, a)
      | Some y =>
          n ← h !! y;
          b ← cond a l n;
          if (b : bool) then walk fuel i y (step a l) else Some (x, a)
      end
  end.

(** The nodes where each level is left, level 0 first. *)
Fixpoint descend (fuel i x : nat) (a : A) (update : list (nat * A)) : option (list (nat * A)) :=
  match i with
  | O => Some update
  | S i => r ← walk fuel i x a; descend fuel i r.1 r.2 (r :: update)
  end.
End Walk.

(** Enough for a walk along the whole list. *)
Definition zsl_fuel zsl : nat := S (Z.to_nat (sl_length zsl)).

Definition zn_before (score : double) (ele : sds) (n : zskiplistNode) : option bool :=
  if dltb (zn_score n) score then Some true
  else if deqb (zn_score n) score then e ← zn_ele n; Some (sdscmp e ele <? 0)
  else Some false.

(** ** Insertion *)

Definition raise_level zsl (level : nat) (update : list (nat * Z)) : option (zskiplist * list (nat * Z)) :=
  if (sl_level zsl <? level)%nat then
    h ← for_levels (seq (sl_level zsl) (level - sl_level zsl))
          (fun i h => l ← get_level h (header zsl) i; set_level h (header zsl) i (mkLevel (forward l) (to_uint (sl_length zsl))))
          (sl_heap zsl);
    Some (mkZsl h (header zsl) (sl_tail zsl) (sl_length zsl) level, update ++ replicate (level - sl_level zsl) (header zsl, 0))
  else Some (zsl, update).

Definition link (update : list (nat * Z)) (rank0 : Z) (x i : nat) h : option zheap :=
  u ← update !! i;
  l ← get_level h u.1 i;
  h ← set_level h x i (mkLevel (forward l) (to_uint (span l - to_uint (rank0 - u.2))));
  set_level h u.1 i (mkLevel (Some x) (to_uint (to_uint (rank0 - u.2) + 1))).

Definition bump_span (update : list (nat * Z)) (i : nat) h : option zheap :=
  u ← update !! i;
  l ← get_level h u.1 i;
  set_level h u.1 i (mkLevel (forward l) (to_uint (span l + 1))).

(** A new node between those of the update array and what follows them. *)
Definition insert_at zsl (update : list (nat * Z)) (level : nat) (score : double) (ele : sds) : option (zskiplist * nat) :=
  let '(h, x) := zslCreateNode (sl_heap zsl) level score (Some ele) in
  u0 ← update !! 0%nat;
  h ← for_levels (seq 0 level) (link update u0.2 x) h;
  h ← for_levels (seq level (sl_level zsl - level)) (bump_span update) h;
  h ← set_backward h x (if decide (u0.1 = header zsl) then None else Some u0.1);
  l ← get_level h x 0;
  match forward l with
  | Some y =>
      h ← set_backward h y (Some x);
      Some (mkZsl h (header zsl) (sl_tail zsl) (to_ullong (sl_length zsl + 1)) (sl_level zsl), x)
  | None => Some (mkZsl h (header zsl) (Some x) (to_ullong (sl_length zsl + 1)) (sl_level zsl), x)
  end.

(** [level] is the result of [zslRandomLevel]; the address of the new node is
    returned. *)
Definition zslInsert zsl (level : nat) (score : double) (ele : sds) : option (zskiplist * nat) :=
  if isnan score then None
  else
    update ← descend (fun (_ : Z) _ n => zn_before score ele n) (fun rank l => to_uint (rank + span l)) (sl_heap zsl)
               (zsl_fuel zsl) (sl_level zsl) (header zsl) 0 [];
    '(zsl, update) ← raise_level zsl level update;
    insert_at zsl update level score ele.

(** ** Deletion *)

Definition unlink (update : list nat) (x i : nat) h : option zheap :=
  u ← update !! i;
  l ← get_level h u i;
  if decide (forward l = Some x) then
    lx ← get_level h x i;
    set_level h u i (mkLevel (forward lx) (to_uint (span l + (span lx - 1))))
  else set_level h u i (mkLevel (forward l) (to_uint (span l - 1))).

(** The level without the empty ones on top. *)
Fixpoint shrink h (header level : nat) : option nat :=
  match level with
  | S (S level' as level1) =>
      l ← get_level h header level1;
      match forward l with
      | None => shrink h header level1
      | Some _ => Some level
      end
  | _ => Some level
  end.

Definition zslDeleteNode zsl (x : nat) (update : list nat) : option zskiplist :=
  h ← for_levels (seq 0 (sl_level zsl)) (unlink update x) (sl_heap zsl);
  n ← h !! x;
  l ← get_level h x 0;
  '(h, tail) ← match forward l with
               | Some y => h ← set_backward h y (backward n); Some (h, sl_tail zsl)
               | None => Some (h, backward n)
               end;
  level ← shrink h (header zsl) (sl_level zsl);
  Some (mkZsl h (header zsl) tail (to_ullong (sl_length zsl - 1)) level).

(** [keep]: the caller passes a pointer for the node, which is then not freed. *)
Definition zslDelete zsl (score : double) (ele : sds) (keep : bool) : option (zskiplist * option nat) :=
  update ← descend (fun (_ : unit) _ n => zn_before score ele n) (fun u _ => u) (sl_heap zsl)
             (zsl_fuel zsl) (sl_level zsl) (header zsl) tt [];
  u0 ← update !! 0%nat;
  l ← get_level (sl_heap zsl) u0.1 0;
  match forward l with
  | None => Some (zsl, None)
  | Some x =>
      n ← sl_heap zsl !! x;
      found ← (if deqb score (zn_score n) then e ← zn_ele n; Some (sdscmp e ele =? 0) else Some false);
      if (found : bool) then
        zsl ← zslDeleteNode zsl x update.*1;
        Some (if keep then zsl else mkZsl (zslFreeNode (sl_heap zsl) x) (header zsl) (sl_tail zsl) (sl_length zsl) (sl_level zsl), Some x)
      else Some (zsl, None)
  end.
