(* ===== verification/SkiplistRep.v ===== *)
(** * Skip lists are sorted sequences

    What a skip list stands for: the sequence of its nodes with their heights.
    Every link, span, back link and field of the list is a function of that
    sequence; walking finds the position it should, and insertion and deletion
    change the sequence at that position and keep all the rest. *)
From Stdlib Require Import ZArith Lia Ascii String.
From stdpp Require Import base numbers strings gmap sets list.
From S2P Require Import Prelude Sds Double Skiplist.
Open Scope Z_scope.

Implicit Types (h : zheap) (zsl : zskiplist).

(** ** Sequences of nodes *)

Record snode := mkSn { sid : nat; sel : sds; ssc : double; sht : nat }.

Implicit Types (x y : snode) (l s A B : list snode).

(** The link at level [i] of a node that [s] follows. *)
Fixpoint nxt (i : nat) s : zskiplistLevel :=
  match s with
  | [] => mkLevel None 0
  | y :: s => if decide (i < sht y)%nat then mkLevel (Some (sid y)) 1 else mkLevel (forward (nxt i s)) (span (nxt i s) + 1)
  end.

(** No node of [s] reaches level [i]. *)
Abbreviation short i s := (Forall (fun y => (sht y <= i)%nat) s).

Lemma nxt_short i s t : short i s -> nxt i (s ++ t) = mkLevel (forward (nxt i t)) (span (nxt i t) + Z.of_nat (length s)).
Proof.
  induction 1 as [|y s Hy _ IH]; cbn; [destruct (nxt i t); cbn; by rewrite Z.add_0_r|].
  rewrite decide_False by lia. rewrite IH. cbn. f_equal. lia.
Qed.

Lemma nxt_tall i s y t u : (i < sht y)%nat -> nxt i ((s ++ y :: t) ++ u) = nxt i (s ++ y :: t).
Proof.
  intros Hy. induction s as [|z s IH]; cbn; [by rewrite !decide_True|].
  case_decide; [done|]. by rewrite IH.
Qed.

Lemma short_or i s : short i s \/ exists s1 y s2, s = s1 ++ y :: s2 /\ short i s1 /\ (i < sht y)%nat.
Proof.
  induction s as [|y s IH]; [left; constructor|]. destruct (decide (sht y <= i)%nat) as [Hy|Hy].
  - destruct IH as [IH|(s1 & z & s2 & -> & Hs & Hz)]; [left; by constructor|right]. exists (y :: s1), z, s2. by split_and!; [|constructor|].
  - right. exists [], y, s. split_and!; [done|constructor|lia].
Qed.

Lemma nxt_first i s y t : short i s -> (i < sht y)%nat -> nxt i (s ++ y :: t) = mkLevel (Some (sid y)) (Z.of_nat (length s) + 1).
Proof. intros Hs Hy. rewrite nxt_short by done. cbn. rewrite decide_True by done. cbn. f_equal. lia. Qed.

Lemma nxt_none i s : short i s -> nxt i s = mkLevel None (Z.of_nat (length s)).
Proof. intros Hs. rewrite <- (app_nil_r s), nxt_short by done. by rewrite app_nil_r. Qed.

(** The spans never leave the list. *)
Lemma nxt_span i s : 0 <= span (nxt i s) <= Z.of_nat (length s).
Proof. induction s as [|y s IH]; cbn [nxt length]; [cbn; lia|]. case_decide; cbn; lia. Qed.

Lemma nxt_forward i s t : forward (nxt i s) = Some t -> exists s1 y s2, s = s1 ++ y :: s2 /\ short i s1 /\ (i < sht y)%nat /\ sid y = t.
Proof.
  intros Hf. destruct (short_or i s) as [Hs|(s1 & z & s2 & -> & Hs & Hz)]; [by rewrite nxt_none in Hf|].
  rewrite nxt_first in Hf by done. cbn in Hf. injection Hf as <-. by exists s1, z, s2.
Qed.

(** ** What a skip list stands for *)

(** What levels do not change. *)
Definition frozen (n : zskiplistNode) : option sds * double * option nat * nat :=
  (zn_ele n, zn_score n, backward n, length (zn_level n)).

Definition static h (p : nat) : option (option sds * double * option nat * nat) := frozen <$> h !! p.

(** The header as the first node of the sequence. *)
Definition hd_node (p : nat) : snode := mkSn p "" dzero ZSKIPLIST_MAXLEVEL.

(** The link the node [x], which [s] follows, has at level [i]. *)
Record linked h (lev : nat) (hd : nat) (x : snode) (s : list snode) : Prop := {
  ln_level i : (i < sht x)%nat -> (sid x <> hd \/ i < lev)%nat -> get_level h (sid x) i = Some (nxt i s);
  ln_above i : sid x = hd -> (lev <= i < sht x)%nat -> forward <$> get_level h hd i = Some None
}.

Definition last_id l : option nat := sid <$> last l.

Record zrep zsl l : Prop := {
  zr_nodup : NoDup (header zsl :: (sid <$> l));
  zr_links A x B : hd_node (header zsl) :: l = A ++ x :: B -> linked (sl_heap zsl) (sl_level zsl) (header zsl) x B;
  zr_header : static (sl_heap zsl) (header zsl) = Some (None, dzero, None, ZSKIPLIST_MAXLEVEL);
  zr_nodes A x B : l = A ++ x :: B -> static (sl_heap zsl) (sid x) = Some (Some (sel x), ssc x, last_id A, sht x);
  zr_tail : sl_tail zsl = last_id l;
  zr_length : sl_length zsl = Z.of_nat (length l);
  zr_level : (1 <= sl_level zsl <= ZSKIPLIST_MAXLEVEL)%nat;
  zr_heights : Forall (fun x => (1 <= sht x <= sl_level zsl)%nat) l
}.

(** ** Changing levels *)

Lemma get_set_level h p i v h' : set_level h p i v = Some h' ->
  (forall q j, get_level h' q j = if decide (q = p /\ j = i) then Some v else get_level h q j) /\ (forall q, static h' q = static h q).
Proof.
  unfold set_level. destruct (h !! p) as [n|] eqn:Hn; [|done]. cbn [mbind option_bind]. destruct (Nat.ltb i (length (zn_level n))) eqn:Hi; [|done]. apply Nat.ltb_lt in Hi.
  intros [= <-]. unfold get_level, static. split.
  - intros q j. destruct (decide (q = p)) as [->|Hq].
    + rewrite lookup_insert_eq. cbn. destruct (decide (j = i)) as [->|Hj].
      * rewrite decide_True by done. by apply list_lookup_insert_eq.
      * rewrite decide_False by tauto. rewrite list_lookup_insert_ne by done. by rewrite Hn.
    + rewrite lookup_insert_ne by done. by rewrite decide_False by tauto.
  - intros q. destruct (decide (q = p)) as [->|Hq]; [|by rewrite lookup_insert_ne].
    rewrite lookup_insert_eq, Hn. cbn. unfold frozen. cbn. by rewrite length_insert.
Qed.

Lemma set_level_ok h p i v v0 : get_level h p i = Some v0 -> exists h', set_level h p i v = Some h'.
Proof.
  unfold get_level, set_level. destruct (h !! p) as [n|]; [|done]. cbn [mbind option_bind]. intros Hl%lookup_lt_Some.
  destruct (Nat.ltb_spec i (length (zn_level n))); [by eexists|lia].
Qed.

(** A loop whose round [i] changes level [i] only. *)
Lemma for_levels_spec levels body (new : nat -> nat -> option zskiplistLevel) h :
  NoDup levels ->
  (forall i h1, i ∈ levels -> (forall q, static h1 q = static h q) -> (forall q, get_level h1 q i = get_level h q i) ->
    exists h2, body i h1 = Some h2 /\ (forall q, static h2 q = static h1 q) /\
      forall q j, get_level h2 q j = if decide (j = i) then new q i else get_level h1 q j) ->
  exists h', for_levels levels body h = Some h' /\ (forall q, static h' q = static h q) /\
    forall q j, get_level h' q j = if decide (j ∈ levels) then new q j else get_level h q j.
Proof.
  revert h. induction levels as [|i levels IH]; intros h Hnd Hbody; cbn [for_levels].
  { exists h. split_and!; [done..|]. intros q j. by rewrite decide_False by apply not_elem_of_nil. }
  apply NoDup_cons in Hnd as [Hi Hnd].
  destruct (Hbody i h) as (h1 & -> & Hs1 & Hg1); [left|done..|].
  destruct (IH h1 Hnd) as (h' & -> & Hs' & Hg').
  { intros j h2 Hj Hs2 Hg2. apply Hbody; [by right|intros q; by rewrite Hs2|]. intros q. rewrite Hg2, Hg1.
    rewrite decide_False; [done|]. intros ->. done. }
  exists h'. split_and!; [done|intros q; by rewrite Hs'|]. intros q j. rewrite Hg', Hg1.
  destruct (decide (j ∈ levels)) as [Hj|Hj]; [by rewrite decide_True by (by right)|].
  destruct (decide (j = i)) as [->|Hji]; [by rewrite decide_True by left|]. by rewrite decide_False by (rewrite elem_of_cons; tauto).
Qed.

Lemma set_backward_spec h p b n :
  h !! p = Some n ->
  exists h', set_backward h p b = Some h' /\ (forall q j, get_level h' q j = get_level h q j) /\
    (forall q, static h' q = if decide (q = p) then (fun f => (f.1.1, b, f.2)) <$> static h q else static h q).
Proof.
  intros Hn. unfold set_backward. rewrite Hn. cbn. eexists. split; [done|]. unfold get_level, static. split; intros q.
  - intros j. destruct (decide (q = p)) as [->|]; [by rewrite lookup_insert_eq, Hn|by rewrite lookup_insert_ne].
  - case_decide as Hq; [subst; by rewrite lookup_insert_eq, Hn|by rewrite lookup_insert_ne].
Qed.

(** ** Walking

    The sequence, with the header in front, is [A ++ B]; the condition holds
    where the walk stays inside [A] and fails where it would leave it.  [R] says
    that what was accumulated belongs to a position. *)
Section Walking.
Context zsl l A B (Hz : zrep zsl l) (HAB : hd_node (header zsl) :: l = A ++ B).
Context {T : Type} (cond : T -> zskiplistLevel -> zskiplistNode -> option bool) (step : T -> zskiplistLevel -> T) (R : T -> nat -> Prop).
Context (Hstep : forall a p k v, R a p -> span v = Z.of_nat k -> (p + k <= length l)%nat -> R (step a v) (p + k)).
Context (Hin : forall A1 x S1 y S2 a n, A = A1 ++ x :: S1 ++ y :: S2 -> R a (length A1) -> sl_heap zsl !! sid y = Some n ->
  cond a (mkLevel (Some (sid y)) (Z.of_nat (S (length S1)))) n = Some true).
Context (Hout : forall A1 x S1 S2 y S3 a n, A = A1 ++ x :: S1 -> B = S2 ++ y :: S3 -> R a (length A1) -> sl_heap zsl !! sid y = Some n ->
  cond a (mkLevel (Some (sid y)) (Z.of_nat (S (length (S1 ++ S2))))) n = Some false).

(** Where level [i] is left: at the last node of [A] that reaches it. *)
Definition left_at (i : nat) (r : nat * T) : Prop :=
  exists A1 x S1, A = A1 ++ x :: S1 /\ (i < sht x)%nat /\ short i S1 /\ r.1 = sid x /\ R r.2 (length A1).

Lemma link_of A1 x s i :
  hd_node (header zsl) :: l = A1 ++ x :: s -> (i < sht x)%nat -> (i < sl_level zsl)%nat ->
  get_level (sl_heap zsl) (sid x) i = Some (nxt i s).
Proof. intros Hl Hx Hi. apply (ln_level _ _ _ _ _ (zr_links _ _ Hz _ _ _ Hl)); [done|by right]. Qed.

Lemma node_of A1 x s : l = A1 ++ x :: s -> exists n, sl_heap zsl !! sid x = Some n /\ frozen n = (Some (sel x), ssc x, last_id A1, sht x).
Proof.
  intros Hl. pose proof (zr_nodes _ _ Hz _ _ _ Hl) as Hs. unfold static in Hs. destruct (sl_heap zsl !! sid x) as [n|]; [|done].
  exists n. split; [done|]. cbn in Hs. congruence.
Qed.

Lemma tail_split A1 x S1 y s : hd_node (header zsl) :: l = A1 ++ x :: S1 ++ y :: s -> exists A2, l = A2 ++ y :: s.
Proof.
  destruct A1 as [|z A1]; cbn [app]; intros Hl; injection Hl as _ Hl; [by exists S1|]. exists (A1 ++ x :: S1). by rewrite <- app_assoc.
Qed.

Lemma walk_spec fuel i A1 x S1 a :
  A = A1 ++ x :: S1 -> (i < sht x)%nat -> (i < sl_level zsl)%nat -> R a (length A1) -> (length S1 < fuel)%nat ->
  exists r, walk cond step (sl_heap zsl) fuel i (sid x) a = Some r /\ left_at i r.
Proof.
  revert A1 x S1 a. induction fuel as [|fuel IH]; intros A1 x S1 a HA Hx Hi HR Hf; [lia|]. cbn [walk].
  assert (hd_node (header zsl) :: l = A1 ++ x :: (S1 ++ B)) as Hl by (rewrite HAB, HA, <- app_assoc; done).
  rewrite (link_of A1 x (S1 ++ B) i Hl Hx Hi). cbn [mbind option_bind].
  destruct (short_or i S1) as [Hs|(s1 & y & s2 & -> & Hs & Hy)].
  - assert (left_at i (sid x, a)) as Hstop by (by exists A1, x, S1).
    destruct (short_or i B) as [HsB|(b1 & y & b2 & HB & Hb & Hy)].
    { rewrite nxt_none by (by apply Forall_app). cbn. by eexists. }
    rewrite HB, app_assoc, nxt_first by (done || by apply Forall_app). cbn [forward].
    assert (exists A2, l = A2 ++ y :: b2) as [A2 HA2] by (apply (tail_split A1 x (S1 ++ b1)); by rewrite <- app_assoc, <- HB).
    destruct (node_of A2 y b2 HA2) as (n & Hn & _). rewrite Hn. cbn [mbind option_bind].
    replace (Z.of_nat (length (S1 ++ b1)) + 1) with (Z.of_nat (S (length (S1 ++ b1)))) by lia.
    rewrite (Hout A1 x S1 b1 y b2 a n HA HB HR Hn). cbn. by eexists.
  - rewrite <- app_assoc, <- app_comm_cons in *. rewrite nxt_first by done. cbn [forward].
    destruct (tail_split A1 x s1 y (s2 ++ B)) as [A2 HA2]; [done|].
    destruct (node_of A2 y _ HA2) as (n & Hn & _). rewrite Hn. cbn [mbind option_bind].
    replace (Z.of_nat (length s1) + 1) with (Z.of_nat (S (length s1))) by lia.
    rewrite (Hin A1 x s1 y s2 a n HA HR Hn).
    apply (IH (A1 ++ x :: s1) y s2); [by rewrite HA, <- app_assoc|done|done| |].
    + rewrite length_app. cbn [length]. apply Hstep; [done|done|].
      assert (length (hd_node (header zsl) :: l) = length (A1 ++ x :: s1 ++ y :: s2 ++ B)) as Hlen by (by rewrite Hl).
      rewrite !length_app in Hlen. cbn [length] in Hlen. rewrite !length_app in Hlen. cbn [length] in Hlen. lia.
    + rewrite length_app in Hf. cbn [length] in Hf. lia.
Qed.

Lemma descend_spec fuel i A1 x S1 a ups :
  A = A1 ++ x :: S1 -> (i <= sht x)%nat -> (i <= sl_level zsl)%nat -> R a (length A1) -> (length l < fuel)%nat ->
  exists res, descend cond step (sl_heap zsl) fuel i (sid x) a ups = Some (res ++ ups) /\ length res = i /\
    forall j, (j < i)%nat -> exists r, res !! j = Some r /\ left_at j r.
Proof.
  revert A1 x S1 a ups. induction i as [|i IH]; intros A1 x S1 a ups HA Hx Hi HR Hf; cbn [descend].
  { exists []. split_and!; [done..|]. lia. }
  destruct (walk_spec fuel i A1 x S1 a) as (r & -> & Hr); [done|lia|lia|done| |].
  { assert (length (hd_node (header zsl) :: l) = length (A ++ B)) as Hlen by (by rewrite HAB).
    rewrite HA, !length_app in Hlen. cbn [length] in Hlen. lia. }
  cbn [mbind option_bind]. destruct Hr as (A2 & y & S2 & HA2 & Hy & Hs & Hid & HR2). rewrite Hid.
  destruct (IH A2 y S2 r.2 (r :: ups)) as (res & -> & Hlen & Hres); [done|lia|lia|done|done|].
  exists (res ++ [r]). split_and!; [by rewrite <- app_assoc|rewrite length_app; cbn; lia|].
  intros j Hj. destruct (decide (j = i)) as [->|Hne].
  - exists r. split; [|by exists A2, y, S2]. rewrite lookup_app_r, Hlen, Nat.sub_diag by lia. done.
  - destruct (Hres j) as (r' & Hr' & Hp); [lia|]. exists r'. split; [|done]. by apply lookup_app_l_Some.
Qed.
End Walking.

(** ** Splitting the sequence *)

Lemma app_split {X} (A B C s : list X) (y : X) :
  A ++ B = C ++ y :: s -> (exists m, A = C ++ y :: m /\ s = m ++ B) \/ (exists m, B = m ++ y :: s /\ C = A ++ m).
Proof.
  revert C. induction A as [|a A IH]; intros C Hs; [right; by exists C|]. destruct C as [|c C]; cbn in Hs.
  - injection Hs as -> <-. left. by exists A.
  - injection Hs as -> Hs. destruct (IH C Hs) as [(m & -> & ->)|(m & -> & ->)]; [left|right]; by exists m.
Qed.

Lemma two_splits {X} (A B C s : list X) (x y : X) :
  A ++ x :: B = C ++ y :: s ->
  (A = C /\ x = y /\ B = s) \/ (exists m, A = C ++ y :: m /\ s = m ++ x :: B) \/ (exists m, B = m ++ y :: s /\ C = A ++ x :: m).
Proof.
  intros Hs. apply app_split in Hs as [(m & -> & ->)|(m & Hm & ->)]; [right; left; by exists m|].
  destruct m as [|z m]; cbn in Hm; injection Hm as -> ->; [left; by rewrite app_nil_r|right; right; by exists m].
Qed.

Lemma same_split A1 x S1 A2 y S2 l :
  NoDup (sid <$> l) -> l = A1 ++ x :: S1 -> l = A2 ++ y :: S2 -> sid x = sid y -> A1 = A2 /\ x = y /\ S1 = S2.
Proof.
  intros Hnd -> Hs Hid. rewrite fmap_app, fmap_cons in Hnd. apply NoDup_app in Hnd as (_ & Hd & Hnd). apply NoDup_cons in Hnd as [Hx _].
  apply two_splits in Hs as [?|[(m & -> & ->)|(m & -> & ->)]]; [done|exfalso..].
  - apply (Hd (sid y)); [rewrite fmap_app, fmap_cons; set_solver|rewrite Hid; left].
  - apply Hx. rewrite Hid, fmap_app, fmap_cons. set_solver.
Qed.

(** The heights and ids of a represented sequence. *)
Lemma full_nodup zsl l : zrep zsl l -> NoDup (sid <$> hd_node (header zsl) :: l).
Proof. intros Hz. apply (zr_nodup _ _ Hz). Qed.

Lemma full_height zsl l A x B : zrep zsl l -> hd_node (header zsl) :: l = A ++ x :: B -> (1 <= sht x)%nat.
Proof.
  intros Hz Hl. destruct A as [|a A]; cbn in Hl; injection Hl as Hx Hl; [subst; cbn; unfold ZSKIPLIST_MAXLEVEL; lia|].
  pose proof (zr_heights _ _ Hz) as Hh. rewrite Hl, Forall_app, Forall_cons in Hh. lia.
Qed.

Lemma full_below zsl l A x B i :
  zrep zsl l -> hd_node (header zsl) :: l = A ++ x :: B -> (i < sht x)%nat -> (sid x <> header zsl \/ i < sl_level zsl)%nat -> (i < sl_level zsl)%nat.
Proof.
  intros Hz Hl Hi [Hx|Hx]; [|done]. destruct A as [|a A]; cbn in Hl; injection Hl as Ha Hl; [by subst x|].
  pose proof (zr_heights _ _ Hz) as Hh. rewrite Hl, Forall_app, Forall_cons in Hh. lia.
Qed.

(** Where a level is left, in a sequence that is cut into [A] and [B]. *)
Definition cut_at (A : list snode) (i : nat) (p : nat) (S1 : list snode) : Prop :=
  exists A1 x, A = A1 ++ x :: S1 /\ (i < sht x)%nat /\ short i S1 /\ p = sid x.

(** Putting [C] in place of [B] only changes, at level [i], the link of the node
    where the level is left. *)
Lemma cut_links A B C i p S1 A2 y S2 :
  NoDup (sid <$> A) -> cut_at A i p S1 -> A = A2 ++ y :: S2 -> (i < sht y)%nat ->
  if decide (sid y = p) then S2 = S1 else nxt i (S2 ++ B) = nxt i (S2 ++ C).
Proof.
  intros Hnd (A1 & x & HA & Hx & Hs & ->) HA2 Hy. case_decide as Hp.
  - by destruct (same_split A2 y S2 A1 x S1 A Hnd HA2 HA Hp) as (_ & _ & ->).
  - rewrite HA in HA2. apply two_splits in HA2 as [(_ & -> & _)|[(m & -> & ->)|(m & -> & ->)]]; [done|by rewrite !nxt_tall|].
    rewrite Forall_app, Forall_cons in Hs. lia.
Qed.

(** ** Insertion *)

(** The update array with the ranks. *)
Definition cuts (A : list snode) (ups : list (nat * Z)) (lev : nat) : Prop :=
  forall i, (i < lev)%nat -> exists r S1, ups !! i = Some r /\ cut_at A i r.1 S1 /\ r.2 + Z.of_nat (S (length S1)) = Z.of_nat (length A).

(** The level of the list grows: the header gets links that cross everything. *)
Lemma raise_spec zsl l level ups A B :
  zrep zsl l -> Z.of_nat (length l) < 4294967296 -> (level <= ZSKIPLIST_MAXLEVEL)%nat ->
  hd_node (header zsl) :: l = A ++ B -> A <> [] -> length ups = sl_level zsl -> cuts A ups (sl_level zsl) ->
  exists zsl' ups', raise_level zsl level ups = Some (zsl', ups') /\ zrep zsl' l /\ header zsl' = header zsl /\
    sl_level zsl' = Nat.max level (sl_level zsl) /\ cuts A ups' (sl_level zsl') /\
    forall q, static (sl_heap zsl') q = static (sl_heap zsl) q.
Proof.
  intros Hz Hlen Hlev HAB Hne Hups Hcut. unfold raise_level. destruct (Nat.ltb_spec (sl_level zsl) level) as [Hlt|Hge].
  2:{ exists zsl, ups. rewrite Nat.max_r by done. by split_and!. }
  set (hd := header zsl) in *. set (lev := sl_level zsl) in *. pose proof (zr_level _ _ Hz) as Hl1. fold lev in Hl1.
  assert (forall i, (lev <= i < ZSKIPLIST_MAXLEVEL)%nat -> forward <$> get_level (sl_heap zsl) hd i = Some None) as Habove.
  { intros i Hi. eapply (ln_above _ _ _ (hd_node hd) _ (zr_links _ _ Hz [] (hd_node hd) l eq_refl)); done. }
  destruct (for_levels_spec (seq lev (level - lev))
    (fun i h => v ← get_level h hd i; set_level h hd i (mkLevel (forward v) (to_uint (sl_length zsl))))
    (fun q i => if decide (q = hd) then Some (mkLevel None (Z.of_nat (length l))) else get_level (sl_heap zsl) q i) (sl_heap zsl))
    as (h' & -> & Hs' & Hg').
  { apply NoDup_seq. }
  { intros i h1 Hi Hs1 Hg1. apply elem_of_seq in Hi. specialize (Habove i ltac:(lia)). rewrite <- Hg1 in Habove.
    destruct (get_level h1 hd i) as [v|] eqn:Hv; [|done]. injection Habove as Hf. cbn [mbind option_bind].
    destruct (set_level_ok h1 hd i (mkLevel (forward v) (to_uint (sl_length zsl))) v Hv) as [h2 Hh2].
    exists h2. apply get_set_level in Hh2 as Hget. destruct Hget as [Hget Hst]. split_and!; [done..|]. intros q j. rewrite Hget.
    rewrite (zr_length _ _ Hz), to_uint_id, Hf by lia.
    destruct (decide (j = i)) as [->|Hj]; [|by rewrite decide_False by tauto].
    case_decide as Hq; [by rewrite decide_True by tauto|]. rewrite decide_False by tauto. apply Hg1. }
  cbn [mbind option_bind]. eexists _, _. split; [done|]. cbn [header sl_level sl_heap]. fold hd. rewrite Nat.max_l by lia.
  assert (Forall (fun x => (sht x <= lev)%nat) l) as Hsh.
  { eapply Forall_impl; [apply (zr_heights _ _ Hz)|]. cbn. intros. fold lev in H. lia. }
  split_and!; [|done|done| |done].
  - split; cbn [header sl_level sl_heap sl_tail sl_length]; fold hd; [apply (zr_nodup _ _ Hz)| |by rewrite Hs'; apply (zr_header _ _ Hz)| | | |lia|].
    + intros A2 x s Hx. destruct (zr_links _ _ Hz _ _ _ Hx) as [Hl2 Ha2]. fold lev hd in Hl2, Ha2. split.
      * intros i Hi Hor. rewrite Hg'. case_decide as Hin.
        -- apply elem_of_seq in Hin. case_decide as Hq; [|apply Hl2; [done|by left]].
           assert (x = hd_node hd /\ s = l) as [-> ->].
           { destruct (same_split A2 x s [] (hd_node hd) l _ (full_nodup _ _ Hz) Hx eq_refl Hq) as (_ & -> & ->). done. }
           rewrite nxt_none; [done|]. eapply Forall_impl; [exact Hsh|]. cbn. lia.
        -- rewrite elem_of_seq in Hin. apply Hl2; [done|]. destruct Hor as [Hor|Hor]; [by left|right; lia].
      * intros i Hq Hi. rewrite Hg', decide_False; [apply Ha2; [done|lia]|]. rewrite elem_of_seq. lia.
    + intros A2 x s Hx. rewrite Hs'. by eapply (zr_nodes _ _ Hz).
    + apply (zr_tail _ _ Hz).
    + apply (zr_length _ _ Hz).
    + eapply Forall_impl; [apply (zr_heights _ _ Hz)|]. cbn. fold lev. lia.
  - intros i Hi. destruct (decide (i < lev)%nat) as [Hlo|Hhi].
    + destruct (Hcut i Hlo) as (r & S1 & Hr & Hc). exists r, S1. split; [|done]. by apply lookup_app_l_Some.
    + destruct A as [|a A]; [done|]. cbn in HAB. injection HAB as <- HAB. exists (hd, 0), A. split_and!.
      * rewrite lookup_app_r by lia. rewrite Hups. apply lookup_replicate_2. lia.
      * exists [], (hd_node hd). split_and!; [done|cbn; lia| |done]. rewrite HAB, Forall_app in Hsh. eapply Forall_impl; [apply Hsh|]. cbn. lia.
      * cbn [snd length]. lia.
Qed.

Section Insert.
Context zsl l A B (Hz : zrep zsl l) (HAB : hd_node (header zsl) :: l = A ++ B) (Hlen : Z.of_nat (length l) < 4294967295).
Context (ups : list (nat * Z)) (Hcut : cuts A ups (sl_level zsl)).
Context (p level : nat) (ele : sds) (score : double) (Hp : sl_heap zsl !! p = None) (Hlevel : (1 <= level <= sl_level zsl)%nat).

Abbreviation h0 := (<[p := mkZnode (Some ele) score None (replicate level (mkLevel None 0))]> (sl_heap zsl)).
Abbreviation rank0 := (Z.of_nat (length A) - 1).
Abbreviation x := (mkSn p ele score level).

Lemma in_heap A1 y s : hd_node (header zsl) :: l = A1 ++ y :: s -> sid y <> p.
Proof.
  intros Hl Hy. assert (is_Some (static (sl_heap zsl) (sid y))) as [st Hst].
  { destruct A1 as [|a A1]; cbn in Hl; injection Hl as Ha Hl; [subst y; cbn [sid hd_node]; rewrite (zr_header _ _ Hz); by eexists|].
    rewrite (zr_nodes _ _ Hz _ _ _ Hl). by eexists. }
  unfold static in Hst. by rewrite Hy, Hp in Hst.
Qed.

Lemma h0_other q i : q <> p -> get_level h0 q i = get_level (sl_heap zsl) q i.
Proof. intros Hq. unfold get_level. by rewrite lookup_insert_ne. Qed.

Lemma h0_new i : get_level h0 p i = if decide (i < level)%nat then Some (mkLevel None 0) else None.
Proof.
  unfold get_level. rewrite lookup_insert_eq. cbn. case_decide; [by apply lookup_replicate_2|]. apply lookup_ge_None. rewrite length_replicate. lia.
Qed.

(** What the node where level [i] is left holds. *)
Lemma cut_link i : (i < sl_level zsl)%nat ->
  exists r S1, ups !! i = Some r /\ cut_at A i r.1 S1 /\ r.2 = rank0 - Z.of_nat (length S1) /\ r.1 <> p /\
    get_level (sl_heap zsl) r.1 i = Some (mkLevel (forward (nxt i B)) (span (nxt i B) + Z.of_nat (length S1))) /\
    Z.of_nat (length S1) + Z.of_nat (length B) <= Z.of_nat (length l).
Proof.
  intros Hi. destruct (Hcut i Hi) as (r & S1 & Hr & Hc & Hrank). exists r, S1. destruct Hc as (A1 & z & HA & Hz1 & Hs1 & Hid).
  assert (hd_node (header zsl) :: l = A1 ++ z :: S1 ++ B) as Hl by (rewrite HAB, HA, <- app_assoc; done).
  split_and!; [done|by exists A1, z|lia| | |].
  - rewrite Hid. by eapply in_heap.
  - rewrite Hid, (link_of zsl l Hz A1 z (S1 ++ B) i Hl Hz1 Hi). by rewrite nxt_short.
  - assert (length (hd_node (header zsl) :: l) = length (A1 ++ z :: S1 ++ B)) as Hc by (by rewrite Hl).
    rewrite length_app in Hc. cbn [length] in Hc. rewrite length_app in Hc. lia.
Qed.

(** The links after the first loop, at the levels it visits. *)
Definition linked_in (q i : nat) : option zskiplistLevel :=
  r ← ups !! i;
  if decide (q = p) then Some (nxt i B)
  else if decide (q = r.1) then Some (mkLevel (Some p) (Z.of_nat (length A) - r.2))
  else get_level (sl_heap zsl) q i.

Lemma link_loop :
  exists h1, for_levels (seq 0 level) (link ups rank0 p) h0 = Some h1 /\ (forall q, static h1 q = static h0 q) /\
    forall q i, get_level h1 q i = if decide (i < level)%nat then linked_in q i else get_level h0 q i.
Proof.
  destruct (for_levels_spec (seq 0 level) (link ups rank0 p) linked_in h0) as (h1 & Hh1 & Hs1 & Hg1); [apply NoDup_seq| |].
  - intros i h Hi Hs Hg. apply elem_of_seq in Hi. destruct (cut_link i ltac:(lia)) as (r & S1 & Hr & Hc & Hrank & Hrp & Hget & Hlen').
    unfold link, linked_in. rewrite Hr. cbn [mbind option_bind]. rewrite Hg, h0_other, Hget by done. cbn [mbind option_bind forward span].
    pose proof (nxt_span i B) as Hsp. replace (rank0 - r.2) with (Z.of_nat (length S1)) by lia. rewrite !to_uint_id by (rewrite ?to_uint_id; lia).
    assert (is_Some (get_level h p i)) as [v Hv] by (rewrite Hg, h0_new, decide_True by lia; by eexists).
    destruct (set_level_ok h p i (mkLevel (forward (nxt i B)) (span (nxt i B) + Z.of_nat (length S1) - Z.of_nat (length S1))) v Hv) as [h2 Hh2].
    rewrite Hh2. cbn [mbind option_bind]. apply get_set_level in Hh2 as [Hg2 Hs2].
    assert (get_level h2 r.1 i = Some (mkLevel (forward (nxt i B)) (span (nxt i B) + Z.of_nat (length S1)))) as Hv2.
    { rewrite Hg2, decide_False, Hg, h0_other by naive_solver. done. }
    destruct (set_level_ok h2 r.1 i (mkLevel (Some p) (Z.of_nat (length S1) + 1)) _ Hv2) as [h3 Hh3].
    exists h3. split; [done|]. apply get_set_level in Hh3 as [Hg3 Hs3]. split; [intros q; by rewrite Hs3, Hs2|].
    intros q j. rewrite Hg3, Hg2. destruct (decide (j = i)) as [->|Hj]; [|by rewrite !decide_False by tauto].
    destruct (decide (q = p)) as [->|Hq].
    + rewrite decide_False by naive_solver. rewrite decide_True by done. rewrite Z.add_simpl_r. by destruct (nxt i B).
    + rewrite (decide_False (P := q = p /\ i = i)) by tauto. destruct (decide (q = r.1)) as [->|Hqr].
      * rewrite decide_True by done. do 2 f_equal. lia.
      * rewrite decide_False by tauto. by rewrite Hg, h0_other.
  - exists h1. split_and!; [done..|]. intros q i. rewrite Hg1. apply decide_ext. rewrite elem_of_seq. lia.
Qed.
(** The links after the second loop, at the levels it visits. *)
Definition bumped (q i : nat) : option zskiplistLevel :=
  r ← ups !! i;
  if decide (q = r.1) then (fun v => mkLevel (forward v) (span v + 1)) <$> get_level (sl_heap zsl) q i else get_level h0 q i.

Lemma insert_loops :
  exists h1 h2, for_levels (seq 0 level) (link ups rank0 p) h0 = Some h1 /\
    for_levels (seq level (sl_level zsl - level)) (bump_span ups) h1 = Some h2 /\ (forall q, static h2 q = static h0 q) /\
    forall q i, get_level h2 q i =
      if decide (i < level)%nat then linked_in q i else if decide (i < sl_level zsl)%nat then bumped q i else get_level h0 q i.
Proof.
  destruct link_loop as (h1 & Hh1 & Hs1 & Hg1). exists h1.
  destruct (for_levels_spec (seq level (sl_level zsl - level)) (bump_span ups) bumped h1) as (h2 & Hh2 & Hs2 & Hg2); [apply NoDup_seq| |].
  - intros i h Hi Hs Hg. apply elem_of_seq in Hi. destruct (cut_link i ltac:(lia)) as (r & S1 & Hr & Hc & Hrank & Hrp & Hget & Hlen').
    unfold bump_span, bumped. rewrite Hr. cbn [mbind option_bind].
    assert (forall q, get_level h q i = get_level h0 q i) as Hg0 by (intros q; rewrite Hg, Hg1; by rewrite decide_False by lia).
    rewrite Hg0, h0_other, Hget by done. cbn [mbind option_bind forward span]. pose proof (nxt_span i B) as Hsp. rewrite to_uint_id by lia.
    assert (is_Some (get_level h r.1 i)) as [v Hv] by (rewrite Hg0, h0_other, Hget by done; by eexists).
    destruct (set_level_ok h r.1 i (mkLevel (forward (nxt i B)) (span (nxt i B) + Z.of_nat (length S1) + 1)) v Hv) as [h3 Hh3].
    exists h3. split; [done|]. apply get_set_level in Hh3 as [Hg3 Hs3]. split; [done|]. intros q j. rewrite Hg3.
    destruct (decide (j = i)) as [->|Hj]; [|by rewrite decide_False by tauto].
    destruct (decide (q = r.1)) as [->|Hq]; [by rewrite decide_True, Hget by done|rewrite decide_False by tauto]. apply Hg0.
  - exists h2. split_and!; [done..|intros q; by rewrite Hs2|]. intros q i. rewrite Hg2, Hg1.
    destruct (decide (i < level)%nat) as [Hi|Hi]; [by rewrite decide_False by (rewrite elem_of_seq; lia)|].
    apply decide_ext. rewrite elem_of_seq. lia.
Qed.

Lemma insert_linked h2 A2 y s :
  (forall q i, get_level h2 q i =
      if decide (i < level)%nat then linked_in q i else if decide (i < sl_level zsl)%nat then bumped q i else get_level h0 q i) ->
  A ++ x :: B = A2 ++ y :: s -> p <> header zsl -> linked h2 (sl_level zsl) (header zsl) y s.
Proof.
  intros Hg Hs Hph. pose proof (full_nodup _ _ Hz) as Hnd. rewrite HAB in Hnd.
  apply two_splits in Hs as [(_ & <- & <-)|[(m & HA & ->)|(m & HB & ->)]].
  - split; cbn [sid sht]; [|done]. intros i Hi _. rewrite Hg, decide_True by done. unfold linked_in.
    destruct (cut_link i ltac:(lia)) as (r & S1 & -> & _). cbn. by rewrite decide_True.
  - assert (hd_node (header zsl) :: l = A2 ++ y :: m ++ B) as Hl by (rewrite HAB, HA, <- app_assoc; done).
    pose proof (in_heap _ _ _ Hl) as Hyp. rewrite fmap_app in Hnd. apply NoDup_app in Hnd as (HndA & _). split.
    + intros i Hi Hor. pose proof (full_below _ _ _ _ _ _ Hz Hl Hi Hor) as Hlev.
      destruct (cut_link i Hlev) as (r & S1 & Hr & Hc & Hrank & Hrp & Hget & Hlen').
      pose proof (cut_links A B (x :: B) i r.1 S1 A2 y m HndA Hc HA Hi) as Hm.
      pose proof (link_of zsl l Hz A2 y (m ++ B) i Hl Hi Hlev) as Hold. pose proof Hc as (A1 & z & HA1 & Hz1 & Hsh & Hid).
      rewrite Hg. unfold linked_in, bumped. rewrite Hr. cbn [mbind option_bind]. rewrite !(decide_False (P := sid y = p)) by done.
      destruct (decide (sid y = r.1)) as [Hy|Hy].
      * subst m. rewrite Hold, nxt_short by done. destruct (decide (i < level)%nat) as [Hil|Hil].
        -- rewrite nxt_first by done. do 2 f_equal. lia.
        -- rewrite decide_True by done. cbn [fmap option_fmap option_map forward span]. rewrite nxt_short by done. cbn [nxt sht].
           rewrite decide_False by done. cbn [forward span]. do 2 f_equal. lia.
      * rewrite h0_other, Hold by done. rewrite Hm. by repeat case_decide.
    + intros i Hy Hi. rewrite Hg, !decide_False by lia. rewrite h0_other by congruence.
      apply (ln_above _ _ _ _ _ (zr_links _ _ Hz _ _ _ Hl)); [done|lia].
  - assert (hd_node (header zsl) :: l = (A ++ m) ++ y :: s) as Hl by (rewrite HAB, HB, <- app_assoc; done).
    pose proof (in_heap _ _ _ Hl) as Hyp. split.
    + intros i Hi Hor. pose proof (full_below _ _ _ _ _ _ Hz Hl Hi Hor) as Hlev.
      destruct (cut_link i Hlev) as (r & S1 & Hr & (A1 & z & HA1 & Hz1 & Hsh & Hid) & _).
      assert (sid y <> r.1) as Hyr.
      { rewrite Hid. intros Hq. rewrite HA1, HB in Hnd. rewrite fmap_app, !fmap_app, !fmap_cons in Hnd.
        apply NoDup_app in Hnd as (_ & Hd & _). apply (Hd (sid y)); [rewrite Hq; set_solver|set_solver]. }
      rewrite Hg. unfold linked_in, bumped. rewrite Hr. cbn [mbind option_bind].
      rewrite (decide_False (P := sid y = p)), !(decide_False (P := sid y = r.1)), h0_other by done.
      rewrite (link_of zsl l Hz (A ++ m) y s i Hl Hi Hlev). by repeat case_decide.
    + intros i Hy Hi. rewrite Hg, !decide_False by lia. rewrite h0_other by congruence.
      apply (ln_above _ _ _ _ _ (zr_links _ _ Hz _ _ _ Hl)); [done|lia].
Qed.
End Insert.

(** ** The order *)

Definition sbefore (score : double) (ele : sds) y : bool :=
  dltb (ssc y) score || (deqb (ssc y) score && (sdscmp (sel y) ele <? 0)).

Lemma zn_before_eq score ele n y b k : frozen n = (Some (sel y), ssc y, b, k) -> zn_before score ele n = Some (sbefore score ele y).
Proof.
  unfold frozen. intros [= He Hs _ _]. unfold zn_before, sbefore. rewrite He, Hs.
  destruct (dltb (ssc y) score); [done|]. destruct (deqb (ssc y) score); done.
Qed.

(** Walking up to the nodes that satisfy a condition on their contents. *)
Section Position.
Context zsl A' B (Hz : zrep zsl (A' ++ B)) (c : zskiplistNode -> option bool) (b : snode -> bool).
Context (Hc : forall n y bk k, frozen n = (Some (sel y), ssc y, bk, k) -> c n = Some (b y)).
Context (HA : Forall (fun y => b y = true) A') (HB : Forall (fun y => b y = false) B).
Context {T : Type} (step : T -> zskiplistLevel -> T) (R : T -> nat -> Prop) (a : T).
Context (Hstep : forall a p k v, R a p -> span v = Z.of_nat k -> (p + k <= length (A' ++ B))%nat -> R (step a v) (p + k)).

Abbreviation A := (hd_node (header zsl) :: A').

Lemma node_cond C y D n : A' ++ B = C ++ y :: D -> sl_heap zsl !! sid y = Some n -> c n = Some (b y).
Proof. intros Hl Hn. destruct (node_of zsl _ Hz C y D Hl) as (n' & Hn' & Hf). rewrite Hn in Hn'. injection Hn' as <-. by eapply Hc. Qed.

Lemma cond_in A1 x S1 y S2 (t : T) n :
  A = A1 ++ x :: S1 ++ y :: S2 -> R t (length A1) -> sl_heap zsl !! sid y = Some n -> c n = Some true.
Proof.
  intros Hs _ Hn. destruct (tail_split zsl (A' ++ B) A1 x S1 y (S2 ++ B)) as [A2 HA2].
  { by rewrite app_comm_cons, Hs, <- app_assoc, <- app_comm_cons, <- app_assoc. }
  rewrite (node_cond _ _ _ _ HA2 Hn). f_equal. rewrite Forall_forall in HA. apply HA.
  destruct A1 as [|? A1]; cbn in Hs; injection Hs as _ ->; set_solver.
Qed.

Lemma cond_out A1 x S1 S2 y S3 (t : T) n :
  A = A1 ++ x :: S1 -> B = S2 ++ y :: S3 -> R t (length A1) -> sl_heap zsl !! sid y = Some n -> c n = Some false.
Proof.
  intros _ HB' _ Hn. rewrite (node_cond (A' ++ S2) y S3 n); [|by rewrite HB', <- app_assoc|done].
  f_equal. rewrite Forall_forall in HB. apply HB. set_solver.
Qed.

(** One level, from any node up to the position. *)
Lemma walk_position i A1 x S1 t :
  A = A1 ++ x :: S1 -> (i < sht x)%nat -> (i < sl_level zsl)%nat -> R t (length A1) ->
  exists r, walk (fun _ _ n => c n) step (sl_heap zsl) (zsl_fuel zsl) i (sid x) t = Some r /\ left_at A R i r.
Proof.
  intros Hs Hx Hi HR. apply (walk_spec zsl (A' ++ B) A B Hz eq_refl (fun _ _ n => c n) step R Hstep) with (A1 := A1) (S1 := S1); try done.
  - intros. by eapply cond_in.
  - intros. by eapply cond_out.
  - unfold zsl_fuel. rewrite (zr_length _ _ Hz). assert (length A = length (A1 ++ x :: S1)) as Hl by (by rewrite Hs).
    rewrite length_app in *. cbn [length] in Hl. lia.
Qed.

Lemma find_position :
  R a 0%nat ->
  exists res, descend (fun _ _ n => c n) step (sl_heap zsl) (zsl_fuel zsl) (sl_level zsl) (header zsl) a [] = Some res /\
    length res = sl_level zsl /\ forall j, (j < sl_level zsl)%nat -> exists r, res !! j = Some r /\ left_at A R j r.
Proof.
  intros Ha. destruct (descend_spec zsl (A' ++ B) A B Hz eq_refl (fun _ _ n => c n) step R Hstep)
    with (fuel := zsl_fuel zsl) (i := sl_level zsl) (A1 := @nil snode) (x := hd_node (header zsl)) (S1 := A') (a := a) (ups := @nil (nat * T))
    as (res & Hres & Hlen & Hcut); try done.
  - intros. by eapply cond_in.
  - intros. by eapply cond_out.
  - apply (zr_level _ _ Hz).
  - unfold zsl_fuel. rewrite (zr_length _ _ Hz). lia.
  - exists res. rewrite app_nil_r in Hres. done.
Qed.
End Position.

(** ** Insertion of an element *)

Lemma cuts_of zsl A' res lev :
  (forall j, (j < lev)%nat -> exists r, res !! j = Some r /\ left_at (hd_node (header zsl) :: A') (fun a p => a = Z.of_nat p) j r) ->
  cuts (hd_node (header zsl) :: A') res lev.
Proof.
  intros H i Hi. destruct (H i Hi) as (r & Hr & A1 & x & S1 & HA & Hx & Hs & Hid & Hrank). exists r, S1. split_and!; [done|by exists A1, x|].
  rewrite Hrank, HA, length_app. cbn [length]. lia.
Qed.

Lemma last_split A x : last_id (A ++ [x]) = Some (sid x).
Proof. unfold last_id. by rewrite last_snoc. Qed.

Lemma last_app A x B : last_id (A ++ x :: B) = last_id (x :: B).
Proof. unfold last_id. by rewrite last_app_cons. Qed.

(** At level 0 the walk ends at the last node of [A]. *)
Lemma cut_zero zsl l A' B p S1 :
  zrep zsl l -> l = A' ++ B -> cut_at (hd_node (header zsl) :: A') 0 p S1 ->
  S1 = [] /\ (if decide (p = header zsl) then None else Some p) = last_id A'.
Proof.
  intros Hz Hl (A1 & x & HA & Hx & Hs & ->).
  assert (S1 = []) as ->.
  { destruct S1 as [|y S1]; [done|]. apply Forall_cons in Hs as [Hy _].
    pose proof (full_height zsl l (A1 ++ [x]) y (S1 ++ B) Hz) as Hh. rewrite Hl, app_comm_cons, HA in Hh.
    rewrite <- !app_assoc in Hh. specialize (Hh eq_refl). lia. }
  split; [done|]. pose proof (zr_nodup _ _ Hz) as Hnd. rewrite Hl in Hnd.
  destruct A1 as [|z A1]; cbn in HA; injection HA as Hh ->; [subst x; by rewrite decide_True|].
  rewrite decide_False; [by rewrite last_split|]. intros Hq. apply NoDup_cons in Hnd as [Hnd _]. apply Hnd.
  rewrite <- Hq, !fmap_app. set_solver.
Qed.

Section Inserted.
Context zsl A' B (Hz : zrep zsl (A' ++ B)) (p level : nat) (ele : sds) (score : double).
Context (Hp : sl_heap zsl !! p = None) (Hlevel : (1 <= level <= sl_level zsl)%nat).

Abbreviation x := (mkSn p ele score level).
Abbreviation A := (hd_node (header zsl) :: A').
Abbreviation hd := (header zsl).

Lemma new_nodup : NoDup (hd :: (sid <$> A' ++ x :: B)).
Proof.
  pose proof (zr_nodup _ _ Hz) as Hnd. change (NoDup (sid <$> A ++ x :: B)). rewrite <- Permutation_middle.
  rewrite fmap_cons. apply NoDup_cons. split; [|exact Hnd]. cbn [sid]. intros (y & Hy & Hin)%list_elem_of_fmap.
  apply list_elem_of_split in Hin as (l1 & l2 & Hl). exact (in_heap zsl _ Hz p Hp l1 y l2 Hl (eq_sym Hy)).
Qed.

(** The list with the new node, given the links and the other fields. *)
Lemma inserted_rep h' tail' :
  (forall A2 y s, A ++ x :: B = A2 ++ y :: s -> linked h' (sl_level zsl) hd y s) ->
  static h' p = Some (Some ele, score, last_id A', level) ->
  (forall q, q <> p -> static h' q = match B with
    | y :: _ => if decide (q = sid y) then (fun f => (f.1.1, Some p, f.2)) <$> static (sl_heap zsl) q else static (sl_heap zsl) q
    | [] => static (sl_heap zsl) q
    end) ->
  tail' = (match B with [] => Some p | _ => sl_tail zsl end) ->
  zrep (mkZsl h' hd tail' (sl_length zsl + 1) (sl_level zsl)) (A' ++ x :: B).
Proof.
  intros Hlinks Hstp Hst ->. pose proof new_nodup as Hnd.
  assert (forall y, y ∈ A' ++ B -> sid y <> p /\ sid y <> hd) as Hne.
  { intros y Hy. pose proof Hnd as Hnd'. rewrite <- Permutation_middle, fmap_cons in Hnd'.
    apply NoDup_cons in Hnd' as [H1 H2]. apply NoDup_cons in H2 as [H2 _].
    assert (sid y ∈ sid <$> A' ++ B) as Hin by (by apply list_elem_of_fmap_2). split; intros Hq; rewrite Hq in Hin; [done|]. apply H1. by right. }
  assert (hd <> p) as Hhp. { intros Hq. apply NoDup_cons in Hnd as [H1 _]. apply H1. rewrite Hq, fmap_app, fmap_cons. set_solver. }
  split; cbn [header sl_level sl_heap sl_tail sl_length].
  - done.
  - done.
  - rewrite Hst by done. destruct B as [|y B']; [apply (zr_header _ _ Hz)|]. rewrite decide_False; [apply (zr_header _ _ Hz)|].
    intros Hq. apply (Hne y); [set_solver|done].
  - intros A2 y s Hs. apply two_splits in Hs as [(<- & <- & <-)|[(m & -> & ->)|(m & -> & ->)]]; [done|..].
    + destruct (Hne y) as [Hy _]; [set_solver|]. rewrite Hst by done.
      pose proof (zr_nodes _ _ Hz A2 y (m ++ B)) as Hn. rewrite <- app_assoc in Hn. specialize (Hn eq_refl). rewrite Hn.
      destruct B as [|z B']; [done|]. rewrite decide_False; [done|]. intros Hq. rewrite <- app_assoc, !fmap_app, !fmap_cons in Hnd.
      apply NoDup_cons in Hnd as [_ Hnd]. apply NoDup_app in Hnd as (_ & Hd & Hnd). apply NoDup_cons in Hnd as [Hnd _].
      apply Hnd. rewrite Hq. set_solver.
    + destruct (Hne y) as [Hy _]; [set_solver|]. rewrite Hst by done.
      pose proof (zr_nodes _ _ Hz (A' ++ m) y s) as Hn. rewrite <- app_assoc in Hn. specialize (Hn eq_refl). rewrite Hn.
      destruct m as [|z m]; cbn [app].
      * rewrite decide_True by done. cbn. by rewrite last_split.
      * rewrite decide_False.
        -- by rewrite !last_app.
        -- intros Hq. rewrite !fmap_app, !fmap_cons, fmap_app, fmap_cons in Hnd. apply NoDup_cons in Hnd as [_ Hnd].
           apply NoDup_app in Hnd as (_ & _ & Hnd). apply NoDup_cons in Hnd as [_ Hnd]. cbn in Hnd. apply NoDup_cons in Hnd as [Hnd _].
           apply Hnd. rewrite <- Hq. set_solver.
  - rewrite last_app. destruct B as [|y B']; [done|]. rewrite (zr_tail _ _ Hz). unfold last_id. by rewrite last_app_cons.
  - rewrite (zr_length _ _ Hz), !length_app. cbn [length]. lia.
  - apply (zr_level _ _ Hz).
  - pose proof (zr_heights _ _ Hz) as Hh. rewrite Forall_app in Hh |- *. rewrite Forall_cons. cbn [sht]. tauto.
Qed.
End Inserted.

Lemma static_some h q st : static h q = Some st -> exists n, h !! q = Some n.
Proof. unfold static. destruct (h !! q) as [n|]; [by exists n|done]. Qed.

Lemma linked_ext h h' lev hd y s :
  (forall q i, get_level h' q i = get_level h q i) -> linked h lev hd y s -> linked h' lev hd y s.
Proof. intros Hg [H1 H2]. split; intros i; rewrite Hg; [apply H1|apply H2]. Qed.

Lemma insert_at_spec zsl A' B ups level score ele :
  zrep zsl (A' ++ B) -> Z.of_nat (length (A' ++ B)) < 4294967295 -> (1 <= level <= sl_level zsl)%nat ->
  cuts (hd_node (header zsl) :: A') ups (sl_level zsl) ->
  exists zsl' p, insert_at zsl ups level score ele = Some (zsl', p) /\ zrep zsl' (A' ++ mkSn p ele score level :: B) /\
    header zsl' = header zsl /\ sl_level zsl' = sl_level zsl /\ sl_heap zsl !! p = None.
Proof.
  intros Hz Hlen Hlevel Hcut. unfold insert_at, zslCreateNode. set (p := fresh (dom (sl_heap zsl))).
  assert (sl_heap zsl !! p = None) as Hp by (apply not_elem_of_dom; apply is_fresh).
  pose proof (new_nodup zsl A' B Hz p level ele score Hp) as Hnd.
  destruct (insert_loops zsl (A' ++ B) (hd_node (header zsl) :: A') B Hz eq_refl Hlen ups Hcut p level ele score Hp Hlevel)
    as (h1 & h2 & Hh1 & Hh2 & Hs2 & Hg2).
  assert (p <> header zsl) as Hph.
  { intros Hq. pose proof (zr_header _ _ Hz) as Hh. unfold static in Hh. by rewrite <- Hq, Hp in Hh. }
  destruct (Hcut 0%nat ltac:(lia)) as (u0 & S1 & -> & Hc0 & Hrank). cbn [mbind option_bind].
  destruct (cut_zero zsl _ A' B u0.1 S1 Hz eq_refl Hc0) as [-> Hback]. cbn [length] in Hrank.
  replace u0.2 with (Z.of_nat (length (hd_node (header zsl) :: A')) - 1) by (cbn [length]; lia).
  rewrite Hh1. cbn [mbind option_bind]. rewrite Hh2. cbn [mbind option_bind]. rewrite Hback.
  assert (static h2 p = Some (Some ele, score, None, level)) as Hstp.
  { rewrite Hs2. unfold static. rewrite lookup_insert_eq. cbn. unfold frozen. cbn. by rewrite length_replicate. }
  assert (forall q, q <> p -> static h2 q = static (sl_heap zsl) q) as Hstq.
  { intros q Hq. rewrite Hs2. unfold static. by rewrite lookup_insert_ne. }
  destruct (static_some _ _ _ Hstp) as [n2 Hn2]. destruct (set_backward_spec h2 p (last_id A') n2 Hn2) as (h3 & -> & Hg3 & Hs3).
  cbn [mbind option_bind]. rewrite Hg3, Hg2, decide_True by lia. unfold linked_in.
  destruct (Hcut 0%nat ltac:(lia)) as (r & ? & -> & _). cbn [mbind option_bind]. rewrite decide_True by done. cbn [mbind option_bind].
  assert (forall h' A2 y s, (forall q i, get_level h' q i = get_level h2 q i) -> (hd_node (header zsl) :: A') ++ mkSn p ele score level :: B = A2 ++ y :: s ->
    linked h' (sl_level zsl) (header zsl) y s) as Hlinks.
  { intros h' A2 y s Hg' Hs. eapply linked_ext; [exact Hg'|]. by eapply (insert_linked zsl (A' ++ B) (hd_node (header zsl) :: A') B). }
  assert (to_ullong (sl_length zsl + 1) = sl_length zsl + 1) as Hul by (rewrite (zr_length _ _ Hz); apply to_ullong_id; clia).
  assert (static h3 p = Some (Some ele, score, last_id A', level)) as Hst3 by (rewrite Hs3, decide_True, Hstp by done; done).
  rewrite Hul. destruct B as [|y B'].
  - cbn [nxt forward]. eexists _, p. split; [done|]. split; [|by split].
    apply inserted_rep; [done|done|done|intros A2 y s; apply Hlinks, Hg3|done| |done].
    intros q Hq. rewrite Hs3, decide_False by done. by apply Hstq.
  - assert (forward (nxt 0 (y :: B')) = Some (sid y)) as ->.
    { cbn. rewrite decide_True; [done|]. pose proof (zr_heights _ _ Hz) as Hh. rewrite Forall_app, Forall_cons in Hh. lia. }
    assert (sid y <> p) as Hyp by (apply (in_heap zsl _ Hz p Hp (hd_node (header zsl) :: A') y B'); done).
    assert (static h3 (sid y) = static (sl_heap zsl) (sid y)) as Hy3 by (rewrite Hs3, decide_False by done; by apply Hstq).
    pose proof (zr_nodes _ _ Hz A' y B' eq_refl) as Hyn. rewrite <- Hy3 in Hyn. destruct (static_some _ _ _ Hyn) as [n3 Hn3].
    destruct (set_backward_spec h3 (sid y) (Some p) n3 Hn3) as (h4 & -> & Hg4 & Hs4). cbn [mbind option_bind].
    eexists _, p. split; [done|]. split; [|by split].
    apply inserted_rep; [done|done|done| | | |done].
    + intros A2 z s. apply Hlinks. intros q i. by rewrite Hg4, Hg3.
    + rewrite Hs4, decide_False by done. done.
    + intros q Hq. rewrite Hs4, Hs3, !(decide_False (P := q = p)) by done. by rewrite Hstq.
Qed.

Lemma zslInsert_spec zsl A' B level score ele :
  zrep zsl (A' ++ B) -> Z.of_nat (length (A' ++ B)) < 4294967295 -> (1 <= level <= ZSKIPLIST_MAXLEVEL)%nat -> isnan score = false ->
  Forall (fun y => sbefore score ele y = true) A' -> Forall (fun y => sbefore score ele y = false) B ->
  exists zsl' p, zslInsert zsl level score ele = Some (zsl', p) /\ zrep zsl' (A' ++ mkSn p ele score level :: B) /\
    header zsl' = header zsl /\ sl_level zsl' = Nat.max level (sl_level zsl) /\ sl_heap zsl !! p = None.
Proof.
  intros Hz Hlen Hlevel Hnan HA HB. unfold zslInsert. rewrite Hnan.
  destruct (find_position zsl A' B Hz (zn_before score ele) (sbefore score ele) (zn_before_eq score ele) HA HB
    (fun rank v => to_uint (rank + span v)) (fun a p => a = Z.of_nat p) 0) as (res & -> & Hl & Hres).
  { intros a p k v -> Hv Hk. rewrite Hv, to_uint_id; lia. } { done. }
  cbn [mbind option_bind]. apply cuts_of in Hres.
  destruct (raise_spec zsl (A' ++ B) level res (hd_node (header zsl) :: A') B) as (zsl1 & ups & -> & Hz1 & Hh1 & Hlev1 & Hcut1 & Hst1); [done|lia|lia|done..|].
  cbn [mbind option_bind]. rewrite <- Hh1 in Hcut1.
  destruct (insert_at_spec zsl1 A' B ups level score ele Hz1 Hlen) as (zsl' & p & Hins & Hz' & Hh' & Hl' & Hp); [lia|done|].
  exists zsl', p. split_and!; [exact Hins|done|congruence|congruence|].
  apply eq_None_not_Some. intros [n Hn]. assert (is_Some (static (sl_heap zsl) p)) as [st Hst] by (unfold static; rewrite Hn; by eexists).
  rewrite <- Hst1 in Hst. unfold static in Hst. by rewrite Hp in Hst.
Qed.

(** ** Deletion *)

(** The update array of a deletion, without ranks. *)
Definition ncuts (A : list snode) (ups : list nat) (lev : nat) : Prop :=
  forall i, (i < lev)%nat -> exists u S1, ups !! i = Some u /\ cut_at A i u S1.

Section Delete.
Context zsl A' B x (Hz : zrep zsl (A' ++ x :: B)) (Hlen : Z.of_nat (length (A' ++ x :: B)) < 4294967296).
Context (ups : list nat) (Hcut : ncuts (hd_node (header zsl) :: A') ups (sl_level zsl)).

Abbreviation A := (hd_node (header zsl) :: A').
Abbreviation hd := (header zsl).

(** The links after the loop. *)
Definition unlinked (q i : nat) : option zskiplistLevel :=
  u ← ups !! i;
  if decide (q = u) then
    v ← get_level (sl_heap zsl) u i;
    if decide (forward v = Some (sid x)) then
      vx ← get_level (sl_heap zsl) (sid x) i; Some (mkLevel (forward vx) (span v + (span vx - 1)))
    else Some (mkLevel (forward v) (span v - 1))
  else get_level (sl_heap zsl) q i.

Lemma delete_nodup : NoDup (sid <$> A ++ x :: B).
Proof. apply (full_nodup _ _ Hz). Qed.

Lemma x_apart y : y ∈ A ++ B -> sid y <> sid x.
Proof.
  intros Hy Hq. pose proof delete_nodup as Hnd. rewrite <- Permutation_middle, fmap_cons in Hnd. apply NoDup_cons in Hnd as [Hnd _].
  apply Hnd. rewrite <- Hq. by apply list_elem_of_fmap_2.
Qed.

(** What the loop finds at level [i], and what it leaves there. *)
Lemma unlink_value i : (i < sl_level zsl)%nat ->
  exists u S1, ups !! i = Some u /\ cut_at A i u S1 /\
    get_level (sl_heap zsl) u i = Some (nxt i (S1 ++ x :: B)) /\ unlinked u i = Some (nxt i (S1 ++ B)) /\
    (i < sht x -> get_level (sl_heap zsl) (sid x) i = Some (nxt i B))%nat /\
    (forward (nxt i (S1 ++ x :: B)) = Some (sid x) <-> (i < sht x)%nat) /\ Z.of_nat (length (S1 ++ x :: B)) < 4294967296.
Proof.
  intros Hi. destruct (Hcut i Hi) as (u & S1 & Hu & Hc). exists u, S1. destruct Hc as (A1 & z & HA & Hz1 & Hs1 & Hid).
  assert (hd_node hd :: A' ++ x :: B = A1 ++ z :: S1 ++ x :: B) as Hl by (rewrite app_comm_cons, HA, <- app_assoc; done).
  assert (get_level (sl_heap zsl) u i = Some (nxt i (S1 ++ x :: B))) as Hget by (rewrite Hid; by eapply link_of).
  assert (i < sht x -> get_level (sl_heap zsl) (sid x) i = Some (nxt i B))%nat as Hgx.
  { intros Hx. by apply (link_of zsl _ Hz A x B i). }
  assert (forward (nxt i (S1 ++ x :: B)) = Some (sid x) <-> (i < sht x)%nat) as Hfw.
  { split; [|intros Hx; by rewrite nxt_first]. intros Hf. destruct (decide (i < sht x)%nat) as [|Hx]; [done|]. exfalso.
    rewrite nxt_short in Hf by done. cbn in Hf. rewrite decide_False in Hf by done. cbn in Hf.
    apply nxt_forward in Hf as (s1 & y & s2 & HB & _ & _ & Hy). apply (x_apart y); [|done]. rewrite HB. set_solver. }
  split_and!; [done|by exists A1, z|done| |done|apply Hfw..|].
  - unfold unlinked. rewrite Hu. cbn [mbind option_bind]. rewrite decide_True, Hget by done. cbn [mbind option_bind].
    case_decide as Hd.
    + apply Hfw in Hd. rewrite Hgx by done. cbn [mbind option_bind]. rewrite nxt_first, nxt_short by done. cbn [forward span]. do 2 f_equal. lia.
    + assert (~ (i < sht x)%nat) as Hx by tauto. rewrite !nxt_short by done. cbn [nxt]. rewrite decide_False by done. cbn [forward span]. do 2 f_equal. lia.
  - assert (length (hd_node hd :: A' ++ x :: B) = length (A1 ++ z :: S1 ++ x :: B)) as Hc by (by rewrite Hl).
    rewrite (length_app A1) in Hc. cbn [length] in Hc. lia.
Qed.

Lemma unlink_loop :
  exists h1, for_levels (seq 0 (sl_level zsl)) (unlink ups (sid x)) (sl_heap zsl) = Some h1 /\
    (forall q, static h1 q = static (sl_heap zsl) q) /\
    forall q i, get_level h1 q i = if decide (i < sl_level zsl)%nat then unlinked q i else get_level (sl_heap zsl) q i.
Proof.
  destruct (for_levels_spec (seq 0 (sl_level zsl)) (unlink ups (sid x)) unlinked (sl_heap zsl)) as (h1 & Hh1 & Hs1 & Hg1); [apply NoDup_seq| |].
  2:{ exists h1. split_and!; [done..|]. intros q i. rewrite Hg1. apply decide_ext. rewrite elem_of_seq. lia. }
  intros i h Hi Hs Hg. apply elem_of_seq in Hi. destruct (unlink_value i ltac:(lia)) as (u & S1 & Hu & Hc & Hget & Hval & Hgx & Hfw & Hlen').
  pose proof (nxt_span i (S1 ++ x :: B)) as Hsp. pose proof (nxt_span i (S1 ++ B)) as Hsp'.
  assert (unlink ups (sid x) i h = set_level h u i (nxt i (S1 ++ B))) as Hul.
  { unfold unlink. rewrite Hu. cbn [mbind option_bind]. rewrite (Hg u), Hget. cbn [mbind option_bind].
    unfold unlinked in Hval. rewrite Hu in Hval. cbn [mbind option_bind] in Hval. rewrite decide_True, Hget in Hval by done. cbn [mbind option_bind] in Hval.
    case_decide as Hd.
    - rewrite Hg, Hgx in * by (by apply Hfw). cbn [mbind option_bind] in *. injection Hval as Hval. rewrite <- Hval in *. cbn [span] in Hsp'.
      rewrite to_uint_id; [done|]. rewrite !length_app in *. cbn [length] in *. lia.
    - injection Hval as Hval. rewrite <- Hval in *. cbn [span] in Hsp'. rewrite to_uint_id; [done|]. lia. }
  assert (is_Some (get_level h u i)) as [v Hv] by (rewrite Hg, Hget; by eexists).
  destruct (set_level_ok h u i (nxt i (S1 ++ B)) v Hv) as [h2 Hh2]. exists h2. rewrite Hul. split; [done|].
  apply get_set_level in Hh2 as [Hg2 Hs2]. split; [done|]. intros q j. rewrite Hg2.
  destruct (decide (j = i)) as [->|Hj]; [|by rewrite decide_False by tauto].
  destruct (decide (q = u)) as [->|Hq]; [by rewrite decide_True|rewrite decide_False by tauto]. rewrite Hg. unfold unlinked. rewrite Hu. cbn.
  by rewrite decide_False.
Qed.

Lemma delete_linked h1 A2 y s :
  (forall q i, get_level h1 q i = if decide (i < sl_level zsl)%nat then unlinked q i else get_level (sl_heap zsl) q i) ->
  A ++ B = A2 ++ y :: s -> linked h1 (sl_level zsl) hd y s.
Proof.
  intros Hg Hs. pose proof delete_nodup as Hnd. rewrite fmap_app in Hnd. apply NoDup_app in Hnd as (HndA & Hd & _).
  apply app_split in Hs as [(m & HA & ->)|(m & HB & ->)].
  - assert (hd_node hd :: A' ++ x :: B = A2 ++ y :: m ++ x :: B) as Hl by (rewrite app_comm_cons, HA, <- app_assoc; done). split.
    + intros i Hi Hor. pose proof (full_below _ _ _ _ _ _ Hz Hl Hi Hor) as Hlev.
      destruct (unlink_value i Hlev) as (u & S1 & Hu & Hc & Hget & Hval & _).
      pose proof (cut_links A (x :: B) B i u S1 A2 y m HndA Hc HA Hi) as Hm. rewrite Hg, decide_True by done.
      case_decide as Hy; [by rewrite Hm, Hy|]. unfold unlinked. rewrite Hu. cbn. rewrite decide_False by done.
      rewrite <- Hm. by eapply link_of.
    + intros i Hy Hi. rewrite Hg, decide_False by lia. apply (ln_above _ _ _ _ _ (zr_links _ _ Hz _ _ _ Hl)); [done|lia].
  - assert (hd_node hd :: A' ++ x :: B = (A ++ x :: m) ++ y :: s) as Hl by (rewrite HB, <- app_assoc; done). split.
    + intros i Hi Hor. pose proof (full_below _ _ _ _ _ _ Hz Hl Hi Hor) as Hlev.
      destruct (unlink_value i Hlev) as (u & S1 & Hu & (A1 & z & HA & _ & _ & Hid) & _). rewrite Hg, decide_True by done.
      unfold unlinked. rewrite Hu. cbn. rewrite decide_False; [by eapply link_of|]. intros Hq.
      apply (Hd (sid y)); [rewrite HA, Hq, Hid, fmap_app, fmap_cons; set_solver|]. rewrite HB, fmap_cons, fmap_app, fmap_cons. set_solver.
    + intros i Hy Hi. rewrite Hg, decide_False by lia. apply (ln_above _ _ _ _ _ (zr_links _ _ Hz _ _ _ Hl)); [done|lia].
Qed.
End Delete.

(** The empty levels on top are dropped. *)
Lemma shrink_spec h hd l lev :
  (1 <= lev)%nat -> (forall i, (i < lev)%nat -> get_level h hd i = Some (nxt i l)) ->
  exists lev', shrink h hd lev = Some lev' /\ (1 <= lev' <= lev)%nat /\ (forall i, (lev' <= i < lev)%nat -> forward (nxt i l) = None) /\
    (lev' = 1%nat \/ forward (nxt (lev' - 1) l) <> None).
Proof.
  induction lev as [|lev IH]; intros H1 Hg; [lia|]. destruct lev as [|lev].
  { exists 1%nat. split_and!; [done|lia|lia| |by left]. intros i Hi. lia. }
  change (shrink h hd (S (S lev))) with
    (v ← get_level h hd (S lev); match forward v with None => shrink h hd (S lev) | Some _ => Some (S (S lev)) end).
  rewrite Hg by lia. cbn [mbind option_bind]. destruct (forward (nxt (S lev) l)) as [q|] eqn:Hf.
  - exists (S (S lev)). split_and!; [done|lia|lia| |right; cbn [Nat.sub]; by rewrite Hf]. intros i Hi. lia.
  - destruct IH as (lev' & -> & Hl & Hn & Ht); [lia|intros i Hi; apply Hg; lia|]. exists lev'. split_and!; [done|lia|lia| |done].
    intros i Hi. destruct (decide (i = S lev)) as [->|]; [done|]. apply Hn. lia.
Qed.

Lemma forward_none i l : forward (nxt i l) = None -> short i l.
Proof. intros Hf. destruct (short_or i l) as [|(s1 & y & s2 & -> & Hs & Hy)]; [done|]. by rewrite nxt_first in Hf. Qed.

(** A list whose level is lowered to the heights that are left. *)
Lemma lower_rep zsl l lev' :
  zrep zsl l -> (1 <= lev' <= sl_level zsl)%nat -> (forall i, (lev' <= i < sl_level zsl)%nat -> forward (nxt i l) = None) ->
  zrep (mkZsl (sl_heap zsl) (header zsl) (sl_tail zsl) (sl_length zsl) lev') l.
Proof.
  intros Hz Hl Hn. split; cbn;
    [apply (zr_nodup _ _ Hz)| |apply (zr_header _ _ Hz)|apply (zr_nodes _ _ Hz)|apply (zr_tail _ _ Hz)|apply (zr_length _ _ Hz)| |].
  - intros A x s Hx. pose proof Hx as [H1 H2]%(zr_links _ _ Hz). split.
    + intros i Hi Hor. apply H1; [done|]. destruct Hor; [by left|right; lia].
    + intros i Hq Hi. destruct (decide (i < sl_level zsl)%nat) as [Hlt|]; [|apply H2; [done|lia]].
      destruct (same_split A x s [] (hd_node (header zsl)) l _ (full_nodup _ _ Hz) Hx eq_refl Hq) as (_ & _ & ->).
      rewrite <- Hq, (H1 i) by (lia || by right). cbn. f_equal. apply Hn. lia.
  - pose proof (zr_level _ _ Hz). lia.
  - pose proof (zr_heights _ _ Hz) as Hh. rewrite Forall_forall in Hh |- *. intros x Hx. specialize (Hh x Hx).
    destruct (decide (lev' < sl_level zsl)%nat); [|lia].
    pose proof (forward_none lev' l (Hn lev' ltac:(lia))) as Hs. rewrite Forall_forall in Hs. specialize (Hs x Hx). lia.
Qed.

Section Deleted.
Context zsl A' B x (Hz : zrep zsl (A' ++ x :: B)).

Abbreviation A := (hd_node (header zsl) :: A').
Abbreviation hd := (header zsl).

(** The list without the node, given the links and the other fields. *)
Lemma deleted_rep h' tail' :
  (forall A2 y s, A ++ B = A2 ++ y :: s -> linked h' (sl_level zsl) hd y s) ->
  (forall q, q <> sid x -> static h' q = match B with
    | y :: _ => if decide (q = sid y) then (fun f => (f.1.1, last_id A', f.2)) <$> static (sl_heap zsl) q else static (sl_heap zsl) q
    | [] => static (sl_heap zsl) q
    end) ->
  tail' = (match B with [] => last_id A' | _ => sl_tail zsl end) ->
  zrep (mkZsl h' hd tail' (sl_length zsl - 1) (sl_level zsl)) (A' ++ B).
Proof.
  intros Hlinks Hst ->. pose proof (full_nodup _ _ Hz) as Hnd.
  change (NoDup (sid <$> A ++ x :: B)) in Hnd. pose proof Hnd as Hndx. rewrite <- Permutation_middle, fmap_cons in Hndx.
  apply NoDup_cons in Hndx as [Hx Hnd']. assert (forall y, y ∈ A ++ B -> sid y <> sid x) as Hne by (intros y; by apply x_apart).
  split; cbn [header sl_level sl_heap sl_tail sl_length].
  - exact Hnd'.
  - done.
  - rewrite Hst by (apply (Hne (hd_node hd)); left). destruct B as [|y B']; [apply (zr_header _ _ Hz)|]. rewrite decide_False; [apply (zr_header _ _ Hz)|].
    intros Hq. apply NoDup_cons in Hnd' as [Hnd' _]. apply Hnd'. change (hd ∈ sid <$> A' ++ y :: B'). rewrite Hq, fmap_app. set_solver.
  - intros A2 y s Hs. apply app_split in Hs as [(m & -> & ->)|(m & HB & ->)].
    + rewrite Hst by (apply Hne; set_solver). pose proof (zr_nodes _ _ Hz A2 y (m ++ x :: B)) as Hn. rewrite <- app_assoc in Hn. rewrite (Hn eq_refl).
      destruct B as [|z B']; [done|]. rewrite decide_False; [done|]. intros Hq. apply NoDup_cons in Hnd' as [_ Hnd'].
      change (NoDup (sid <$> (A2 ++ y :: m) ++ z :: B')) in Hnd'. rewrite <- app_assoc, fmap_app in Hnd'.
      apply NoDup_app in Hnd' as (_ & _ & Hnd'). apply NoDup_cons in Hnd' as [Hnd' _]. apply Hnd'.
      change (sid y ∈ sid <$> m ++ z :: B'). rewrite Hq, fmap_app. set_solver.
    + rewrite Hst by (apply Hne; set_solver). pose proof (zr_nodes _ _ Hz (A' ++ x :: m) y s) as Hn.
      rewrite HB, <- app_assoc in Hn. rewrite <- HB in Hn. specialize (Hn ltac:(by rewrite HB)). rewrite Hn.
      destruct m as [|z m]; cbn [app] in HB; rewrite HB.
      * rewrite decide_True by done. cbn. by rewrite app_nil_r.
      * rewrite decide_False; [by rewrite last_app, (last_app A' z m)|]. intros Hq.
        rewrite HB, fmap_app, !fmap_cons, fmap_app, fmap_cons in Hnd'. apply NoDup_app in Hnd' as (_ & _ & Hnd').
        apply NoDup_cons in Hnd' as [Hnd' _]. apply Hnd'. rewrite <- Hq. set_solver.
  - destruct B as [|y B']; [by rewrite app_nil_r|]. rewrite (zr_tail _ _ Hz), !last_app. done.
  - rewrite (zr_length _ _ Hz), !length_app. cbn [length]. lia.
  - apply (zr_level _ _ Hz).
  - pose proof (zr_heights _ _ Hz) as Hh. rewrite Forall_app in Hh |- *. rewrite Forall_cons in Hh. tauto.
Qed.
End Deleted.

(** No level above the first is empty. *)
Definition tight zsl l : Prop := sl_level zsl = 1%nat \/ exists x, x ∈ l /\ sht x = sl_level zsl.

Lemma zslDeleteNode_spec zsl A' B x ups :
  zrep zsl (A' ++ x :: B) -> Z.of_nat (length (A' ++ x :: B)) < 4294967296 -> ncuts (hd_node (header zsl) :: A') ups (sl_level zsl) ->
  exists zsl', zslDeleteNode zsl (sid x) ups = Some zsl' /\ zrep zsl' (A' ++ B) /\ tight zsl' (A' ++ B) /\ header zsl' = header zsl /\
    (sl_level zsl' <= sl_level zsl)%nat /\ static (sl_heap zsl') (sid x) = static (sl_heap zsl) (sid x).
Proof.
  intros Hz Hlen Hcut. unfold zslDeleteNode. destruct (unlink_loop zsl A' B x Hz Hlen ups Hcut) as (h1 & -> & Hs1 & Hg1). cbn [mbind option_bind].
  pose proof (zr_nodes _ _ Hz A' x B eq_refl) as Hx. pose proof Hx as Hx1. rewrite <- Hs1 in Hx1. destruct (static_some _ _ _ Hx1) as [n Hn].
  rewrite Hn. cbn [mbind option_bind].
  assert (1 <= sht x)%nat as Hht by (pose proof (zr_heights _ _ Hz) as Hh; rewrite Forall_app, Forall_cons in Hh; lia).
  assert (get_level h1 (sid x) 0 = Some (nxt 0 B)) as Hgx.
  { pose proof (zr_level _ _ Hz). rewrite Hg1, decide_True by lia.
    destruct (unlink_value zsl A' B x Hz Hlen ups Hcut 0 ltac:(lia)) as (u & S1 & Hu & (A1 & z & HA & _ & _ & Hid) & _ & _ & Hgx & _).
    unfold unlinked. rewrite Hu. cbn. rewrite decide_False; [by apply Hgx|]. rewrite Hid. intros Hq. symmetry in Hq. revert Hq.
    apply (x_apart zsl A' B x Hz). rewrite HA. set_solver. }
  rewrite Hgx. cbn [mbind option_bind].
  assert (backward n = last_id A') as Hb. { unfold static in Hx1. rewrite Hn in Hx1. injection Hx1 as _ _ Hb _. done. }
  assert (exists h2 tail', (match forward (nxt 0 B) with
               | Some y => h ← set_backward h1 y (backward n); Some (h, sl_tail zsl)
               | None => Some (h1, backward n)
               end) = Some (h2, tail') /\ zrep (mkZsl h2 (header zsl) tail' (sl_length zsl - 1) (sl_level zsl)) (A' ++ B) /\
      static h2 (sid x) = static (sl_heap zsl) (sid x)) as (h2 & tail' & -> & Hz2 & Hs2).
  { rewrite Hb. destruct B as [|y B'].
    - eexists _, _. split; [done|]. split; [|by rewrite Hs1]. apply (deleted_rep zsl A' [] x Hz); [|done..].
      intros A2 y s Hs. by eapply delete_linked.
    - assert (forward (nxt 0 (y :: B')) = Some (sid y)) as ->.
      { cbn. rewrite decide_True; [done|]. pose proof (zr_heights _ _ Hz) as Hh. rewrite Forall_app, !Forall_cons in Hh. lia. }
      pose proof (zr_nodes _ _ Hz (A' ++ [x]) y B') as Hy. rewrite <- app_assoc in Hy. specialize (Hy eq_refl).
      rewrite <- Hs1 in Hy. destruct (static_some _ _ _ Hy) as [ny Hny].
      destruct (set_backward_spec h1 (sid y) (last_id A') ny Hny) as (h2 & -> & Hg2 & Hs2). cbn [mbind option_bind].
      assert (sid x <> sid y) as Hxy by (apply not_eq_sym, (x_apart zsl A' (y :: B') x Hz); set_solver).
      eexists _, _. split; [done|]. split; [|by rewrite Hs2, decide_False, Hs1 by done].
      apply (deleted_rep zsl A' (y :: B') x Hz); [| |done].
      + intros A2 z s Hs. eapply linked_ext; [exact Hg2|]. by eapply delete_linked.
      + intros q Hq. by rewrite Hs2, !Hs1. }
  cbn [mbind option_bind].
  destruct (shrink_spec h2 (header zsl) (A' ++ B) (sl_level zsl)) as (lev' & -> & Hl & Hnone & Ht).
  { apply (zr_level _ _ Hz). }
  { intros i Hi. apply (link_of _ _ Hz2 [] (hd_node (header zsl)) (A' ++ B) i eq_refl); [|done]. pose proof (zr_level _ _ Hz). cbn. lia. }
  cbn [mbind option_bind]. rewrite to_ullong_id by (rewrite (zr_length _ _ Hz), length_app in *; cbn [length] in *; clia).
  eexists. split; [done|]. pose proof (lower_rep _ _ lev' Hz2 Hl Hnone) as Hz3. split_and!; [exact Hz3| |done|apply Hl|done].
  destruct Ht as [->|Ht]; [by left|right]. destruct (forward (nxt (lev' - 1) (A' ++ B))) as [q|] eqn:Hf; [|done].
  apply nxt_forward in Hf as (s1 & y & s2 & Hs & _ & Hy & _). exists y. split; [rewrite Hs; set_solver|].
  pose proof (zr_heights _ _ Hz3) as Hh. rewrite Hs, Forall_app, Forall_cons in Hh. cbn [sl_level] in *. lia.
Qed.
