(* ===== verification/SkiplistSorted.v ===== *)
(** * Sorted skip lists

    The nodes of a skip list are in the order of their scores and, for equal
    scores, of their elements.  Insertion and deletion find their place in that
    order, and so do the searches by rank and by score. *)
From Stdlib Require Import ZArith Lia Ascii String.
From stdpp Require Import base numbers strings gmap sets list sorting.
From S2P Require Import Prelude Sds Double DoubleOrder Skiplist SkiplistRep.
Open Scope Z_scope.

Implicit Types (zsl : zskiplist) (x y : snode) (l A B : list snode).

(** ** The order *)

Definition slt x y : Prop := sbefore (ssc y) (sel y) x = true.
Definition is_number x : Prop := isnan (ssc x) = false.

Record zsorted l : Prop := {
  zs_sorted : StronglySorted slt l;
  zs_numbers : Forall is_number l;
  zs_elements : NoDup (sel <$> l)
}.

Lemma sbefore_key score ele y :
  isnan score = false -> is_number y ->
  sbefore score ele y = true <-> key_lt (dkey (ssc y)) (dkey score) \/ (dkey (ssc y) = dkey score /\ sdscmp (sel y) ele < 0).
Proof.
  intros Hs Hy. unfold sbefore. rewrite orb_true_iff, andb_true_iff, dltb_key, deqb_key, Z.ltb_lt by done. done.
Qed.

Lemma sdscmp_lt_trans a b c : sdscmp a b < 0 -> sdscmp b c < 0 -> sdscmp a c < 0.
Proof.
  intros H1 H2. pose proof (sdscmp_trans c b a). pose proof (sdscmp_antisym a b). pose proof (sdscmp_antisym b c). pose proof (sdscmp_antisym a c). lia.
Qed.

Lemma key_lt_trans a b c : key_lt a b -> key_lt b c -> key_lt a c.
Proof. unfold key_lt. lia. Qed.

Lemma sbefore_trans score ele x y :
  isnan score = false -> is_number x -> is_number y -> slt x y -> sbefore score ele y = true -> sbefore score ele x = true.
Proof.
  unfold slt. intros Hs Hx Hy H1 H2. apply sbefore_key in H1; [|done..]. apply sbefore_key in H2; [|done..]. apply sbefore_key; [done..|].
  destruct H1 as [H1|[H1 H1']], H2 as [H2|[H2 H2']].
  - left. by eapply key_lt_trans.
  - left. by rewrite <- H2.
  - left. by rewrite H1.
  - right. split; [congruence|]. by eapply sdscmp_lt_trans.
Qed.

(** What is not before and has another element is after. *)
Lemma sbefore_total score ele y :
  isnan score = false -> is_number y -> sel y <> ele -> sbefore score ele y = false -> sbefore (ssc y) (sel y) (mkSn 0 ele score 0) = true.
Proof.
  intros Hs Hy Hne Hb. apply sbefore_key; [done..|]. cbn [ssc sel].
  assert (~ (key_lt (dkey (ssc y)) (dkey score) \/ (dkey (ssc y) = dkey score /\ sdscmp (sel y) ele < 0))) as Hn.
  { rewrite <- sbefore_key by done. by rewrite Hb. }
  pose proof (sdscmp_antisym ele (sel y)) as Ha. pose proof (sdscmp_eq (sel y) ele) as He. unfold key_lt in *.
  assert (sdscmp (sel y) ele <> 0) as Hz by tauto. destruct (dkey (ssc y)) as [[a b] c], (dkey score) as [[a' b'] c']. cbn in *.
  destruct (decide (a = a' /\ b = b' /\ c = c')) as [(-> & -> & ->)|Hd].
  - right. split; [done|]. apply Decidable.not_or in Hn as [_ Hn]. assert (~ sdscmp (sel y) ele < 0) by (intros ?; by apply Hn). lia.
  - left. apply Decidable.not_or in Hn as [Hn _]. lia.
Qed.

Lemma slt_irrefl x : is_number x -> ~ slt x x.
Proof.
  intros Hx Hs%sbefore_key; [|done..]. unfold key_lt in Hs. pose proof (proj2 (sdscmp_eq (sel x) (sel x)) eq_refl). lia.
Qed.

(** ** Positions *)

Lemma split_before score ele l :
  isnan score = false -> zsorted l ->
  exists A B, l = A ++ B /\ Forall (fun y => sbefore score ele y = true) A /\ Forall (fun y => sbefore score ele y = false) B.
Proof.
  intros Hs [Hsort Hnum _]. induction l as [|x l IH]; [by exists [], []|].
  apply Forall_cons in Hnum as [Hx Hnum]. apply StronglySorted_inv in Hsort as [Hsort Hall].
  destruct (sbefore score ele x) eqn:Hb.
  - destruct (IH Hsort Hnum) as (A & B & -> & HA & HB). exists (x :: A), B. split_and!; [done|by constructor|done].
  - exists [], (x :: l). split_and!; [done|constructor|]. constructor; [done|]. rewrite Forall_forall in Hall, Hnum |- *. intros y Hy.
    destruct (sbefore score ele y) eqn:Hby; [|done]. rewrite (sbefore_trans score ele x y) in Hb; auto.
Qed.

Lemma zsorted_insert A B x :
  zsorted (A ++ B) -> is_number x -> sel x ∉ sel <$> A ++ B ->
  Forall (fun y => sbefore (ssc x) (sel x) y = true) A -> Forall (fun y => sbefore (ssc x) (sel x) y = false) B -> zsorted (A ++ x :: B).
Proof.
  intros [Hs Hn He] Hx Hnew HA HB. apply StronglySorted_app in Hs as (Hab & HsA & HsB). apply Forall_app in Hn as [HnA HnB]. split.
  - apply StronglySorted_app. split_and!; [|done|].
    + intros a y Ha [->|Hy]%elem_of_cons; [|by apply Hab]. rewrite Forall_forall in HA. by apply HA.
    + constructor; [done|]. rewrite Forall_forall in HB, HnB |- *. intros y Hy. pose proof (HB y Hy) as Hy'.
      apply (sbefore_total (ssc x) (sel x) y); [done|by apply HnB| |done]. intros Hq. apply Hnew. rewrite <- Hq, fmap_app.
      apply elem_of_app. right. by apply list_elem_of_fmap_2.
  - apply Forall_app. split; [done|by constructor].
  - rewrite <- Permutation_middle, fmap_cons. by apply NoDup_cons.
Qed.

Lemma zsorted_delete A B x : zsorted (A ++ x :: B) -> zsorted (A ++ B).
Proof.
  intros [Hs Hn He]. apply StronglySorted_app in Hs as (Hab & HsA & HsB). apply StronglySorted_inv in HsB as [HsB _].
  rewrite Forall_app, Forall_cons in Hn. rewrite <- Permutation_middle, fmap_cons in He. apply NoDup_cons in He as [_ He]. split.
  - apply StronglySorted_app. split_and!; [|done..]. intros a b Ha Hb. apply Hab; [done|by right].
  - apply Forall_app. tauto.
  - done.
Qed.

(** An element of the list is the first one that is not before it. *)
Lemma split_at score A x B :
  zsorted (A ++ x :: B) -> isnan score = false -> deqb score (ssc x) = true ->
  Forall (fun y => sbefore score (sel x) y = true) A /\ Forall (fun y => sbefore score (sel x) y = false) (x :: B).
Proof.
  intros [Hs Hn _] Hsc Hd. apply StronglySorted_app in Hs as (Hab & _ & HsB). apply StronglySorted_inv in HsB as [_ Hall].
  rewrite Forall_app, Forall_cons in Hn. destruct Hn as (HnA & Hx & HnB). apply deqb_key in Hd; [|done..].
  assert (forall y, is_number y -> sbefore score (sel x) y = true <-> slt y x) as Heq.
  { intros y Hy. unfold slt. rewrite !sbefore_key by done. by rewrite Hd. }
  rewrite Forall_forall in HnA, HnB, Hall. split.
  - apply Forall_forall. intros y Hy. apply Heq; [by apply HnA|]. apply Hab; [done|left].
  - constructor.
    + apply not_true_iff_false. rewrite Heq by done. by apply slt_irrefl.
    + apply Forall_forall. intros y Hy. apply not_true_iff_false. rewrite Heq by (by apply HnB). intros Hlt.
      apply (slt_irrefl x Hx). apply (sbefore_trans _ _ x y Hx Hx (HnB y Hy) (Hall y Hy) Hlt).
Qed.

(** ** Operations on sorted skip lists *)

(** A sorted skip list without empty levels. *)
Record zlist zsl l : Prop := {
  zl_rep : zrep zsl l;
  zl_sorted : zsorted l;
  zl_tight : tight zsl l
}.

Lemma zslCreate_zlist : exists zsl, zslCreate = Some zsl /\ zlist zsl [].
Proof.
  eexists. split; [vm_compute; reflexivity|]. split; [|by repeat constructor|by left].
  split; cbn; [by apply NoDup_singleton| |done| |done|done|unfold ZSKIPLIST_MAXLEVEL; lia|constructor].
  - intros A x B Hl. destruct A as [|a [|]]; cbn in Hl; [|done..]. injection Hl as <- <-. split; cbn [sid sht hd_node nxt].
    + intros i _ [?|Hi]; [done|]. by assert (i = 0)%nat as -> by lia.
    + intros i _ Hi. unfold ZSKIPLIST_MAXLEVEL in Hi. do 32 (destruct i as [|i]; [done|]). lia.
  - intros A x B. by destruct A.
Qed.

Lemma zslInsert_zlist zsl l level score ele :
  zlist zsl l -> Z.of_nat (length l) < 4294967295 -> (1 <= level <= ZSKIPLIST_MAXLEVEL)%nat -> isnan score = false -> ele ∉ sel <$> l ->
  exists zsl' p A B, l = A ++ B /\ zslInsert zsl level score ele = Some (zsl', p) /\ zlist zsl' (A ++ mkSn p ele score level :: B) /\
    header zsl' = header zsl /\ sl_heap zsl !! p = None.
Proof.
  intros [Hz Hs Ht] Hlen Hlevel Hn Hnew. destruct (split_before score ele l Hn Hs) as (A & B & -> & HA & HB).
  destruct (zslInsert_spec zsl A B level score ele Hz Hlen Hlevel Hn HA HB) as (zsl' & p & Hi & Hz' & Hh & Hl & Hp).
  exists zsl', p, A, B. split_and!; [done..| |done|done]. split; [done|by apply zsorted_insert|].
  unfold tight in *. rewrite Hl. destruct (decide (sl_level zsl <= level)%nat) as [Hle|Hgt].
  - right. exists (mkSn p ele score level). split; [set_solver|]. cbn. lia.
  - rewrite Nat.max_r by lia. destruct Ht as [Ht|(x & Hx & Hxl)]; [by left|right]. exists x. split; [set_solver|done].
Qed.

(** A node that the list does not use can be freed. *)
Lemma free_zrep zsl l q :
  zrep zsl l -> q <> header zsl -> q ∉ sid <$> l ->
  zrep (mkZsl (zslFreeNode (sl_heap zsl) q) (header zsl) (sl_tail zsl) (sl_length zsl) (sl_level zsl)) l.
Proof.
  intros Hz Hq Hl. unfold zslFreeNode.
  assert (forall y : nat, y <> q -> static (delete q (sl_heap zsl)) y = static (sl_heap zsl) y /\
    forall i, get_level (delete q (sl_heap zsl)) y i = get_level (sl_heap zsl) y i) as Hsame.
  { intros y Hy. unfold static, get_level. by rewrite lookup_delete_ne. }
  split; cbn; [apply (zr_nodup _ _ Hz)| | | |apply (zr_tail _ _ Hz)|apply (zr_length _ _ Hz)|apply (zr_level _ _ Hz)|apply (zr_heights _ _ Hz)].
  - intros A x B Hx. pose proof Hx as [H1 H2]%(zr_links _ _ Hz).
    assert (sid x <> q) as Hxq.
    { destruct A as [|a A]; cbn in Hx; injection Hx as Ha Hx; [by subst x|]. intros Hxq. apply Hl. rewrite <- Hxq, Hx, fmap_app. set_solver. }
    split; intros i; [rewrite (proj2 (Hsame _ Hxq))|rewrite (proj2 (Hsame _ (not_eq_sym Hq)))]; [apply H1|apply H2].
  - rewrite (proj1 (Hsame _ (not_eq_sym Hq))). apply (zr_header _ _ Hz).
  - intros A x B Hx. rewrite (proj1 (Hsame (sid x) ltac:(intros Hxq; apply Hl; rewrite <- Hxq, Hx, fmap_app; set_solver))). by eapply (zr_nodes _ _ Hz).
Qed.

Lemma ncuts_of zsl A (res : list (nat * unit)) lev :
  (forall j, (j < lev)%nat -> exists r, res !! j = Some r /\ left_at (hd_node (header zsl) :: A) (fun _ _ => True) j r) ->
  ncuts (hd_node (header zsl) :: A) res.*1 lev.
Proof.
  intros H i Hi. destruct (H i Hi) as (r & Hr & A1 & x & S1 & HA & Hx & Hs & Hid & _). exists r.1, S1. split; [|by exists A1, x].
  by rewrite list_lookup_fmap, Hr.
Qed.

(** The search of [zslDelete]: what follows the nodes that come before. *)
Lemma delete_search zsl A B score ele :
  zrep zsl (A ++ B) -> Forall (fun y => sbefore score ele y = true) A -> Forall (fun y => sbefore score ele y = false) B ->
  exists res u0, descend (fun (_ : unit) _ n => zn_before score ele n) (fun u _ => u) (sl_heap zsl) (zsl_fuel zsl) (sl_level zsl) (header zsl) tt [] = Some res /\
    res !! 0%nat = Some u0 /\ ncuts (hd_node (header zsl) :: A) res.*1 (sl_level zsl) /\ get_level (sl_heap zsl) u0.1 0 = Some (nxt 0 B).
Proof.
  intros Hz HA HB.
  destruct (find_position zsl A B Hz (zn_before score ele) (sbefore score ele) (zn_before_eq score ele) HA HB (fun u _ => u) (fun _ _ => True) tt) as (res & Hres & Hl & Hr); [done..|].
  pose proof (zr_level _ _ Hz) as Hlev. destruct (Hr 0%nat ltac:(lia)) as (u0 & Hu0 & A1 & x & S1 & HA1 & Hx & Hs & Hid & _).
  exists res, u0. split_and!; [done|done|by apply ncuts_of|].
  destruct (cut_zero zsl (A ++ B) A B u0.1 S1 Hz eq_refl) as [-> _]; [by exists A1, x|].
  rewrite Hid. apply (link_of zsl _ Hz A1 x B 0); [by rewrite app_comm_cons, HA1, <- app_assoc|done|lia].
Qed.

Lemma zslDelete_found zsl A x B score keep :
  zlist zsl (A ++ x :: B) -> Z.of_nat (length (A ++ x :: B)) < 4294967296 -> isnan score = false -> deqb score (ssc x) = true ->
  exists zsl', zslDelete zsl score (sel x) keep = Some (zsl', Some (sid x)) /\ zlist zsl' (A ++ B) /\ header zsl' = header zsl /\
    (if keep then static (sl_heap zsl') (sid x) = static (sl_heap zsl) (sid x) else sl_heap zsl' !! sid x = None).
Proof.
  intros [Hz Hs Ht] Hlen Hn Hd. destruct (split_at score A x B Hs Hn Hd) as [HA HB].
  destruct (delete_search zsl A (x :: B) score (sel x) Hz HA HB) as (res & u0 & Hres & Hu0 & Hcut & Hget). unfold zslDelete.
  rewrite Hres. cbn [mbind option_bind]. rewrite Hu0. cbn [mbind option_bind]. rewrite Hget. cbn [mbind option_bind].
  assert (forward (nxt 0 (x :: B)) = Some (sid x)) as ->.
  { cbn. rewrite decide_True; [done|]. pose proof (zr_heights _ _ Hz) as Hh. rewrite Forall_app, Forall_cons in Hh. lia. }
  destruct (node_of zsl _ Hz A x B eq_refl) as (n & -> & Hf). injection Hf as He Hsc _ _. cbn [mbind option_bind]. rewrite He, Hsc, Hd. cbn [mbind option_bind].
  rewrite (proj2 (Z.eqb_eq _ _) (proj2 (sdscmp_eq (sel x) (sel x)) eq_refl)). cbn [mbind option_bind].
  destruct (zslDeleteNode_spec zsl A B x res.*1 Hz Hlen Hcut) as (zsl' & -> & Hz' & Ht' & Hh' & _ & Hst). cbn [mbind option_bind].
  apply zsorted_delete in Hs as Hs'. destruct keep.
  - exists zsl'. split; [done|]. by split_and!.
  - eexists. split; [done|]. split_and!; [|done|apply lookup_delete_eq]. split; [|done|done].
    apply free_zrep; [done| |].
    + rewrite Hh'. intros Hq. pose proof (zr_nodup _ _ Hz) as Hnd. apply NoDup_cons in Hnd as [Hnd _]. apply Hnd. rewrite <- Hq, fmap_app. set_solver.
    + pose proof (zr_nodup _ _ Hz) as Hnd. apply NoDup_cons in Hnd as [_ Hnd]. rewrite <- Permutation_middle, fmap_cons in Hnd. by apply NoDup_cons in Hnd as [Hnd _].
Qed.

Lemma zslDelete_absent zsl l score ele keep :
  zlist zsl l -> isnan score = false -> ele ∉ sel <$> l -> zslDelete zsl score ele keep = Some (zsl, None).
Proof.
  intros [Hz Hs Ht] Hn Hnew. destruct (split_before score ele l Hn Hs) as (A & B & -> & HA & HB).
  destruct (delete_search zsl A B score ele Hz HA HB) as (res & u0 & Hres & Hu0 & _ & Hget). unfold zslDelete.
  rewrite Hres. cbn [mbind option_bind]. rewrite Hu0. cbn [mbind option_bind]. rewrite Hget. cbn [mbind option_bind].
  destruct (forward (nxt 0 B)) as [q|] eqn:Hf; [|done]. apply nxt_forward in Hf as (s1 & y & s2 & -> & _ & _ & <-).
  rewrite app_assoc in Hz. destruct (node_of zsl _ Hz (A ++ s1) y s2 eq_refl) as (n & -> & Hf). injection Hf as He _ _ _. cbn [mbind option_bind].
  rewrite He. assert (sdscmp (sel y) ele <> 0) as Hc.
  { rewrite sdscmp_eq. intros Hq. apply Hnew. rewrite <- Hq, fmap_app, fmap_app. set_solver. }
  apply Z.eqb_neq in Hc. destruct (deqb score (zn_score n)); cbn; by rewrite ?Hc.
Qed.
