(* ===== verification/SkiplistQuery.v ===== *)
(** * Searches in skip lists ([t_zset.c])

    Ranks and ranges of scores: the functions that read a skip list, and the
    deletion of whole ranges, which also removes the elements from the hash table
    of the sorted set. *)
From Stdlib Require Import ZArith Lia Ascii String SpecFloat.
From stdpp Require Import base numbers strings gmap sets list sorting.
From S2P Require Import Prelude Sds Double DoubleOrder Dict Skiplist SkiplistRep SkiplistSorted.
Open Scope Z_scope.

Implicit Types (h : zheap) (zsl : zskiplist).

(** ** Ranks *)

Definition zn_upto (score : double) (ele : sds) (n : zskiplistNode) : option bool :=
  if dltb (zn_score n) score then Some true
  else if deqb (zn_score n) score then e ← zn_ele n; Some (sdscmp e ele <=? 0)
  else Some false.

Definition count_span (traversed : Z) (l : zskiplistLevel) : Z := to_ullong (traversed + span l).

Fixpoint rank_loop zsl (score : double) (ele : sds) (i x : nat) (rank : Z) : option Z :=
  match i with
  | O => Some 0
  | S i =>
      r ← walk (fun _ _ n => zn_upto score ele n) count_span (sl_heap zsl) (zsl_fuel zsl) i x rank;
      n ← sl_heap zsl !! r.1;
      match zn_ele n with
      | Some e => if sdscmp e ele =? 0 then Some r.2 else rank_loop zsl score ele i r.1 r.2
      | None => rank_loop zsl score ele i r.1 r.2
      end
  end.
Definition zslGetRank zsl (score : double) (ele : sds) : option Z := rank_loop zsl score ele (sl_level zsl) (header zsl) 0.

Fixpoint element_loop zsl (rank : Z) (i x : nat) (traversed : Z) : option (option nat) :=
  match i with
  | O => Some None
  | S i =>
      r ← walk (fun traversed l _ => Some (to_ullong (traversed + span l) <=? rank)) count_span (sl_heap zsl) (zsl_fuel zsl) i x traversed;
      if r.2 =? rank then Some (Some r.1) else element_loop zsl rank i r.1 r.2
  end.
Definition zslGetElementByRank zsl (rank : Z) : option (option nat) := element_loop zsl rank (sl_level zsl) (header zsl) 0.

(** ** Ranges of scores *)

Record zrangespec := mkRange { rmin : double; rmax : double; minex : bool; maxex : bool }.

Definition dleb (x y : double) : bool := SFleb x y.

Definition zslValueGteMin (value : double) (spec : zrangespec) : bool :=
  if minex spec then dltb (rmin spec) value else dleb (rmin spec) value.
Definition zslValueLteMax (value : double) (spec : zrangespec) : bool :=
  if maxex spec then dltb value (rmax spec) else dleb value (rmax spec).

(** What is left once the range itself is not empty: the last node is above the
    lower end and the first one is below the upper end. *)
Definition ends_in zsl (gte lte : zskiplistNode -> option bool) : option bool :=
  match sl_tail zsl with
  | None => Some false
  | Some x =>
      n ← sl_heap zsl !! x;
      ok ← gte n;
      if negb ok then Some false
      else
        l ← get_level (sl_heap zsl) (header zsl) 0;
        match forward l with
        | None => Some false
        | Some x => n ← sl_heap zsl !! x; lte n
        end
  end.

(** The node where the last level is left. *)
Definition last_while zsl (cond : zskiplistNode -> option bool) : option nat :=
  update ← descend (fun (_ : unit) _ n => cond n) (fun u _ => u) (sl_heap zsl) (zsl_fuel zsl) (sl_level zsl) (header zsl) tt [];
  fst <$> update !! 0%nat.

(** Forward while out of range; [None] inside is a null pointer. *)
Definition first_in zsl (gte lte : zskiplistNode -> option bool) : option (option nat) :=
  x ← last_while zsl (fun n => negb <$> gte n);
  l ← get_level (sl_heap zsl) x 0;
  x ← forward l;
  n ← sl_heap zsl !! x;
  ok ← lte n;
  Some (if negb ok then None else Some x).

(** Forward while in range. *)
Definition last_in zsl (gte lte : zskiplistNode -> option bool) : option (option nat) :=
  x ← last_while zsl lte;
  n ← sl_heap zsl !! x;
  ok ← gte n;
  Some (if negb ok then None else Some x).

Definition gte_score (range : zrangespec) (n : zskiplistNode) : option bool := Some (zslValueGteMin (zn_score n) range).
Definition lte_score (range : zrangespec) (n : zskiplistNode) : option bool := Some (zslValueLteMax (zn_score n) range).

Definition zslIsInRange zsl (range : zrangespec) : option bool :=
  if dltb (rmax range) (rmin range) || (deqb (rmin range) (rmax range) && (minex range || maxex range)) then Some false
  else ends_in zsl (gte_score range) (lte_score range).

Definition zslFirstInRange zsl (range : zrangespec) : option (option nat) :=
  b ← zslIsInRange zsl range;
  if negb b then Some None else first_in zsl (gte_score range) (lte_score range).

Definition zslLastInRange zsl (range : zrangespec) : option (option nat) :=
  b ← zslIsInRange zsl range;
  if negb b then Some None else last_in zsl (gte_score range) (lte_score range).

(** ** The rank of an element *)

Implicit Types (x y : snode) (l A B : list snode).

Definition supto (score : double) (ele : sds) y : bool :=
  dltb (ssc y) score || (deqb (ssc y) score && (sdscmp (sel y) ele <=? 0)).

Lemma zn_upto_eq score ele n y bk k : frozen n = (Some (sel y), ssc y, bk, k) -> zn_upto score ele n = Some (supto score ele y).
Proof.
  unfold frozen. intros [= He Hs _ _]. unfold zn_upto, supto. rewrite He, Hs.
  destruct (dltb (ssc y) score); [done|]. destruct (deqb (ssc y) score); done.
Qed.

(** Nodes that come before, and the element itself. *)
Lemma supto_split score ele y :
  isnan score = false -> is_number y ->
  supto score ele y = true <-> sbefore score ele y = true \/ (dkey (ssc y) = dkey score /\ sel y = ele).
Proof.
  intros Hs Hy. rewrite sbefore_key by done. unfold supto. rewrite orb_true_iff, andb_true_iff, dltb_key, deqb_key, Z.leb_le by done.
  rewrite <- sdscmp_eq. destruct (decide (sdscmp (sel y) ele = 0)); naive_solver lia.
Qed.

Lemma count_span_ok (a : Z) (p k : nat) v n :
  Z.of_nat n < 4294967296 -> a = Z.of_nat p -> span v = Z.of_nat k -> (p + k <= n)%nat -> count_span a v = Z.of_nat (p + k).
Proof. intros Hn -> Hv Hk. unfold count_span. rewrite Hv, to_ullong_id; [lia|clia]. Qed.

(** In [C ++ [z]] only the last node can be the element. *)
Lemma rank_loop_spec zsl C z B score ele i A1 y S1 :
  zrep zsl (C ++ z :: B) -> Z.of_nat (length (C ++ z :: B)) < 4294967296 ->
  Forall (fun w => supto score ele w = true) (C ++ [z]) -> Forall (fun w => supto score ele w = false) B ->
  Forall (fun w => sel w <> ele) C ->
  hd_node (header zsl) :: C ++ [z] = A1 ++ y :: S1 -> (i <= sht y)%nat -> (i <= sl_level zsl)%nat ->
  rank_loop zsl score ele i (sid y) (Z.of_nat (length A1)) =
    Some (if decide (sel z = ele /\ (0 < i)%nat) then Z.of_nat (S (length C)) else 0).
Proof.
  intros Hz Hlen HC HB Hne. revert A1 y S1. assert (zrep zsl ((C ++ [z]) ++ B)) as Hz' by (by rewrite <- app_assoc).
  induction i as [|i IH]; intros A1 y S1 Hs Hy Hi; cbn [rank_loop]; [by rewrite decide_False by lia|].
  destruct (walk_position zsl (C ++ [z]) B Hz' (zn_upto score ele) (supto score ele) (zn_upto_eq score ele) HC HB count_span
    (fun a p => a = Z.of_nat p)) with (i := i) (A1 := A1) (x := y) (S1 := S1) (t := Z.of_nat (length A1))
    as (r & -> & A2 & w & S2 & HA2 & Hw & Hsh & Hid & Hr); [|done|lia|lia|done|].
  { intros a p k v Ha Hv Hk. eapply count_span_ok; [|done..]. by rewrite <- app_assoc. }
  cbn [mbind option_bind]. rewrite Hid, Hr. destruct A2 as [|a0 A2]; cbn in HA2; injection HA2 as Ha0 HA2.
  - subst w. pose proof (zr_header _ _ Hz) as Hh. destruct (static_some _ _ _ Hh) as [n Hn]. unfold static in Hh. rewrite Hn in Hh.
    injection Hh as Hele _ _ _. cbn [sid hd_node]. rewrite Hn. cbn [mbind option_bind]. rewrite Hele.
    assert (i <> 0)%nat as Hi0.
    { intros ->. rewrite Forall_forall in Hsh. pose proof (zr_heights _ _ Hz') as Hh. rewrite Forall_app, Forall_forall in Hh.
      assert (z ∈ S2) as Hz2 by (rewrite <- HA2; set_solver). pose proof (Hsh z Hz2). pose proof (proj1 Hh z ltac:(set_solver)). lia. }
    etrans; [apply (IH [] (hd_node (header zsl)) (C ++ [z])); [done|cbn; pose proof (zr_level _ _ Hz); lia|lia]|].
    f_equal. apply decide_ext. split; intros [? _]; (split; [done|lia]).
  - destruct (node_of zsl _ Hz' A2 w (S2 ++ B)) as (n & -> & Hf); [by rewrite HA2, <- app_assoc|]. injection Hf as Hele _ _ _.
    cbn [mbind option_bind]. rewrite Hele. destruct (Z.eqb_spec (sdscmp (sel w) ele) 0) as [He|He].
    + apply sdscmp_eq in He. destruct S2 as [|s2 S2 _] using rev_ind.
      * apply app_inj_tail in HA2 as [-> <-]. by rewrite decide_True by (split; [done|lia]).
      * rewrite app_comm_cons, app_assoc in HA2. apply app_inj_tail in HA2 as [-> ->]. rewrite Forall_app, Forall_cons in Hne. tauto.
    + rewrite sdscmp_eq in He. rewrite (IH (a0 :: A2) w S2); [|by rewrite <- Ha0, HA2|lia|lia]. f_equal.
      apply decide_ext. split; [intros [? ?]; split; [done|lia]|]. intros [Hze _]. split; [done|]. destruct i as [|i]; [|lia]. exfalso.
      destruct S2 as [|s2 S2 _] using rev_ind; [apply app_inj_tail in HA2 as [_ ->]; done|].
      apply Forall_app in Hsh as [_ Hsh]. apply Forall_cons in Hsh as [Hs2 _]. pose proof (zr_heights _ _ Hz') as Hh.
      rewrite Forall_forall in Hh. pose proof (Hh s2 ltac:(rewrite HA2; set_solver)). lia.
Qed.

Lemma rank_loop_none zsl l score ele i :
  zrep zsl l -> Z.of_nat (length l) < 4294967296 -> Forall (fun w => supto score ele w = false) l -> (i <= sl_level zsl)%nat ->
  rank_loop zsl score ele i (header zsl) 0 = Some 0.
Proof.
  intros Hz Hlen Hl. induction i as [|i IH]; intros Hi; cbn [rank_loop]; [done|].
  destruct (walk_position zsl [] l Hz (zn_upto score ele) (supto score ele) (zn_upto_eq score ele) (Forall_nil_2 _) Hl count_span
    (fun a p => a = Z.of_nat p)) with (i := i) (A1 := @nil snode) (x := hd_node (header zsl)) (S1 := @nil snode) (t := 0)
    as (r & Hw & A2 & w & S2 & HA2 & _ & _ & Hid & Hr); [|done|pose proof (zr_level _ _ Hz); cbn; lia|lia|done|].
  { intros a p k v Ha Hv Hk. by eapply count_span_ok. }
  cbn [sid hd_node] in Hw. rewrite Hw. cbn [mbind option_bind]. destruct A2 as [|? [|]]; [|done..]. injection HA2 as <- <-. rewrite Hid, Hr.
  pose proof (zr_header _ _ Hz) as Hh. destruct (static_some _ _ _ Hh) as [n Hn]. unfold static in Hh. rewrite Hn in Hh. injection Hh as Hele _ _ _.
  cbn [sid hd_node]. rewrite Hn. cbn [mbind option_bind]. rewrite Hele. apply IH. lia.
Qed.

(** The rank of an element that is in the list under an equal score. *)
Lemma zslGetRank_found zsl A x B score :
  zlist zsl (A ++ x :: B) -> Z.of_nat (length (A ++ x :: B)) < 4294967296 -> isnan score = false -> deqb score (ssc x) = true ->
  zslGetRank zsl score (sel x) = Some (Z.of_nat (S (length A))).
Proof.
  intros [Hz Hs _] Hlen Hn Hd. destruct (split_at score A x B Hs Hn Hd) as [HA HB]. pose proof (zr_level _ _ Hz) as Hlev.
  pose proof (zs_numbers _ Hs) as Hnum. rewrite Forall_app, Forall_cons in Hnum. destruct Hnum as (HnA & Hnx & HnB).
  pose proof (zs_elements _ Hs) as Hel. rewrite fmap_app, fmap_cons in Hel. apply NoDup_app in Hel as (_ & HelA & HelB).
  apply NoDup_cons in HelB as [HelB _]. apply deqb_key in Hd; [|done..]. apply Forall_cons in HB as [_ HB]. rewrite Forall_forall in HA, HB, HnA, HnB.
  etrans; [apply (rank_loop_spec zsl A x B score (sel x) (sl_level zsl) [] (hd_node (header zsl)) (A ++ [x])); try done|].
  - apply Forall_forall. intros y [Hy|Hy%list_elem_of_singleton]%elem_of_app; [|subst y]; apply supto_split; auto.
  - apply Forall_forall. intros y Hy. apply not_true_iff_false. rewrite supto_split by auto. intros [Hb|[_ He]]; [by rewrite HB in Hb|].
    apply HelB. rewrite <- He. by apply list_elem_of_fmap_2.
  - apply Forall_forall. intros y Hy He. apply (HelA (sel x)); [rewrite <- He; by apply list_elem_of_fmap_2|left].
  - cbn. lia.
  - by rewrite decide_True by (split; [done|lia]).
Qed.

Lemma zslGetRank_absent zsl l score ele :
  zlist zsl l -> Z.of_nat (length l) < 4294967296 -> isnan score = false -> ele ∉ sel <$> l -> zslGetRank zsl score ele = Some 0.
Proof.
  intros [Hz Hs _] Hlen Hn Hnew. destruct (split_before score ele l Hn Hs) as (A & B & -> & HA & HB). pose proof (zr_level _ _ Hz) as Hlev.
  pose proof (zs_numbers _ Hs) as Hnum. rewrite Forall_forall in Hnum.
  assert (forall y, y ∈ A ++ B -> sel y <> ele) as Hne by (intros y Hy He; apply Hnew; rewrite <- He; by apply list_elem_of_fmap_2).
  assert (forall y, y ∈ A ++ B -> supto score ele y = sbefore score ele y) as Heq.
  { intros y Hy. apply eq_true_iff_eq. rewrite supto_split by auto. specialize (Hne y Hy). tauto. }
  assert (Forall (fun w => supto score ele w = true) A) as HA'.
  { rewrite Forall_forall in HA |- *. intros y Hy. rewrite Heq by set_solver. by apply HA. }
  assert (Forall (fun w => supto score ele w = false) B) as HB'.
  { rewrite Forall_forall in HB |- *. intros y Hy. rewrite Heq by set_solver. by apply HB. }
  destruct A as [|z C _] using rev_ind; [apply (rank_loop_none zsl B); done|]. rewrite <- app_assoc in Hz, Hlen. unfold zslGetRank.
  etrans; [apply (rank_loop_spec zsl C z B score ele (sl_level zsl) [] (hd_node (header zsl)) (C ++ [z])); try done|].
  - apply Forall_forall. intros y Hy. apply Hne. set_solver.
  - cbn. lia.
  - rewrite decide_False; [done|]. intros [He _]. by apply (Hne z ltac:(set_solver)).
Qed.

(** ** The element of a rank *)

(** The walk stays within the first [rank] nodes. *)
Lemma element_loop_spec zsl A B rank i A1 y S1 :
  zrep zsl (A ++ B) -> Z.of_nat (length (A ++ B)) < 4294967296 ->
  (rank = Z.of_nat (length A) \/ (B = [] /\ Z.of_nat (length A) < rank)) ->
  hd_node (header zsl) :: A = A1 ++ y :: S1 -> (i <= sht y)%nat -> (i <= sl_level zsl)%nat ->
  element_loop zsl rank i (sid y) (Z.of_nat (length A1)) =
    Some (if decide (rank = Z.of_nat (length A) /\ (0 < i)%nat) then sid <$> last (hd_node (header zsl) :: A) else None).
Proof.
  intros Hz Hlen Hrank. revert A1 y S1. induction i as [|i IH]; intros A1 y S1 Hs Hy Hi; cbn [element_loop]; [by rewrite decide_False by lia|].
  assert (forall C w D, hd_node (header zsl) :: A = C ++ w :: D -> length C + length D = length A)%nat as Hpos.
  { intros C w D Hl. assert (length (hd_node (header zsl) :: A) = length (C ++ w :: D)) as Hc by (by rewrite Hl).
    rewrite length_app in Hc. cbn [length] in Hc. lia. }
  destruct (walk_spec zsl (A ++ B) (hd_node (header zsl) :: A) B Hz eq_refl
    (fun t v _ => Some (to_ullong (t + span v) <=? rank)) count_span (fun a p => a = Z.of_nat p))
    with (fuel := zsl_fuel zsl) (i := i) (A1 := A1) (x := y) (S1 := S1) (a := Z.of_nat (length A1))
    as (r & -> & A2 & w & S2 & HA2 & Hw & Hsh & Hid & Hr); try done.
  { intros a p k v Ha Hv Hk. by eapply count_span_ok. }
  { intros C w D z E a n HC -> _. cbn [span]. f_equal. apply Z.leb_le. specialize (Hpos _ _ _ HC). rewrite length_app in Hpos, Hlen. cbn [length] in Hpos.
    rewrite to_ullong_id by clia. lia. }
  { intros C w D D2 z E a n HC HB -> _. cbn [span]. f_equal. apply Z.leb_gt. specialize (Hpos _ _ _ HC).
    destruct Hrank as [Hrank|[HBn _]]; [|by rewrite HBn in HB; destruct D2]. rewrite HB in Hlen. rewrite !length_app in *. cbn [length] in *.
    rewrite to_ullong_id by clia. lia. }
  { unfold zsl_fuel. rewrite (zr_length _ _ Hz), length_app. specialize (Hpos _ _ _ Hs). lia. }
  cbn [mbind option_bind]. rewrite Hid, Hr. specialize (Hpos _ _ _ HA2) as Hp2. destruct (Z.eqb_spec (Z.of_nat (length A2)) rank) as [He|He].
  - assert (S2 = []) as -> by (apply nil_length_inv; lia). rewrite decide_True by lia. rewrite HA2, last_snoc. done.
  - rewrite (IH A2 w S2 HA2) by lia. f_equal. apply decide_ext. split; [lia|]. intros [Hq _]. split; [done|]. destruct i as [|i]; [|lia]. exfalso.
    apply He. rewrite Hq. destruct S2 as [|s S2]; [cbn in Hp2; lia|]. apply Forall_cons in Hsh as [Hsh _].
    pose proof (full_height zsl (A ++ B) (A2 ++ [w]) s (S2 ++ B) Hz) as Hh. rewrite app_comm_cons, HA2 in Hh. rewrite <- !app_assoc in Hh. specialize (Hh eq_refl). lia.
Qed.

Lemma zslGetElementByRank_spec zsl l rank :
  zrep zsl l -> Z.of_nat (length l) < 4294967296 -> 1 <= rank ->
  zslGetElementByRank zsl rank = Some (sid <$> l !! Z.to_nat (rank - 1)).
Proof.
  intros Hz Hlen Hr. pose proof (zr_level _ _ Hz) as Hlev. destruct (decide (rank <= Z.of_nat (length l))) as [Hle|Hgt].
  - set (n := Z.to_nat (rank - 1)). destruct (lookup_lt_is_Some_2 l n) as [x Hx]; [lia|]. rewrite Hx.
    pose proof (take_drop_middle l n x Hx) as Hl. rewrite cons_middle, app_assoc in Hl.
    assert (length (take n l ++ [x]) = S n) as Hn by (rewrite length_app, length_take; cbn; lia).
    etrans; [apply (element_loop_spec zsl (take n l ++ [x]) (drop (S n) l) rank (sl_level zsl) [] (hd_node (header zsl)) (take n l ++ [x]))|];
      rewrite ?Hl; try done; [left; rewrite Hn; lia|cbn; lia|]. rewrite decide_True by (rewrite Hn; lia). by rewrite app_comm_cons, last_snoc.
  - rewrite lookup_ge_None_2 by lia.
    etrans; [apply (element_loop_spec zsl l [] rank (sl_level zsl) [] (hd_node (header zsl)) l)|]; rewrite ?app_nil_r; try done;
      [right; split; [done|lia]|cbn; lia|]. by rewrite decide_False by lia.
Qed.

(** ** Ranges of scores *)

Lemma dleb_key a b : isnan a = false -> isnan b = false -> dleb a b = true <-> key_lt (dkey a) (dkey b) \/ dkey a = dkey b.
Proof.
  intros Ha Hb. pose proof (dcompare a b Ha Hb) as Hc. unfold dleb, SFleb. destruct (SFcompare a b) as [[]|]; [tauto|tauto| |done].
  split; [done|]. intros [Hlt|He]; [unfold key_lt in *; lia|]. rewrite He in Hc. unfold key_lt in Hc. lia.
Qed.

Lemma header_link zsl l i : zrep zsl l -> (i < sl_level zsl)%nat -> get_level (sl_heap zsl) (header zsl) i = Some (nxt i l).
Proof. intros Hz Hi. pose proof (zr_level _ _ Hz). apply (link_of zsl l Hz [] (hd_node (header zsl)) l i eq_refl); [cbn; lia|done]. Qed.

(** The last node, the header included, that satisfies a condition, and what
    follows it. *)
Lemma last_while_spec zsl A B :
  zrep zsl (A ++ B) -> forall (c : zskiplistNode -> option bool) (b : snode -> bool),
  (forall n y bk k, frozen n = (Some (sel y), ssc y, bk, k) -> c n = Some (b y)) ->
  Forall (fun y => b y = true) A -> Forall (fun y => b y = false) B ->
  exists q, last_while zsl c = Some q /\ get_level (sl_heap zsl) q 0 = Some (nxt 0 B) /\ Some q = last_id (hd_node (header zsl) :: A).
Proof.
  intros Hz c b Hc HA HB.
  destruct (find_position zsl A B Hz c b Hc HA HB (fun u _ => u) (fun _ _ => True) tt) as (res & Hres & Hl & Hr); [done..|].
  pose proof (zr_level _ _ Hz) as Hlev. destruct (Hr 0%nat ltac:(lia)) as (u0 & Hu0 & A1 & x & S1 & HA1 & Hx & Hs & Hid & _).
  exists u0.1. unfold last_while. rewrite Hres. cbn [mbind option_bind]. rewrite Hu0.
  destruct (cut_zero zsl (A ++ B) A B u0.1 S1 Hz eq_refl) as [-> _]; [by exists A1, x|].
  split_and!; [done| |by rewrite HA1, last_split, Hid].
  rewrite Hid. apply (link_of zsl _ Hz A1 x B 0); [by rewrite app_comm_cons, HA1, <- app_assoc|done|lia].
Qed.

Lemma filter_none (f : snode -> bool) l : Forall (fun y => f y = false) l -> filter (fun y => f y = true) l = [].
Proof. induction 1 as [|y l Hy _ IH]; [done|]. rewrite filter_cons, decide_False by congruence. done. Qed.

Lemma filter_every (f : snode -> bool) l : Forall (fun y => f y = true) l -> filter (fun y => f y = true) l = l.
Proof. induction 1 as [|y l Hy _ IH]; [done|]. rewrite filter_cons, decide_True by done. by rewrite IH. Qed.

(** A predicate that holds on the front of a sorted list. *)
Lemma split_front (f : snode -> bool) l :
  StronglySorted slt l -> (forall x y, x ∈ l -> y ∈ l -> slt x y -> f y = true -> f x = true) ->
  exists A B, l = A ++ B /\ Forall (fun y => f y = true) A /\ Forall (fun y => f y = false) B.
Proof.
  intros Hsort Hf. induction l as [|x l IH]; [by exists [], []|].
  apply StronglySorted_inv in Hsort as [Hsort Hall]. destruct (f x) eqn:Hfx.
  - destruct (IH Hsort) as (A & B & -> & HA & HB); [intros; eapply Hf; try done; by right|].
    exists (x :: A), B. split_and!; [done|by constructor|done].
  - exists [], (x :: l). split_and!; [done|constructor|]. constructor; [done|]. rewrite Forall_forall in Hall |- *. intros y Hy.
    destruct (f y) eqn:Hfy; [|done]. rewrite (Hf x y) in Hfx; auto; [left|by right].
Qed.

(** ** Intervals

    The nodes between two ends, for any pair of conditions that are monotone along
    the list. *)
Section Interval.
Context (gte lte : zskiplistNode -> option bool) (above below : snode -> bool) (l0 : list snode).
Context (Hgte : forall n y bk k, frozen n = (Some (sel y), ssc y, bk, k) -> gte n = Some (above y)).
Context (Hlte : forall n y bk k, frozen n = (Some (sel y), ssc y, bk, k) -> lte n = Some (below y)).
Context (Hup : forall x y, x ∈ l0 -> y ∈ l0 -> slt x y -> above x = true -> above y = true).
Context (Hdown : forall x y, x ∈ l0 -> y ∈ l0 -> slt x y -> below y = true -> below x = true).

Definition inside y : bool := above y && below y.

(** Below the interval, in it, above it. *)
Lemma split_interval : zsorted l0 ->
  exists A M B, l0 = A ++ M ++ B /\ Forall (fun y => negb (above y) = true) A /\ Forall (fun y => negb (above y) = false) (M ++ B) /\
    Forall (fun y => below y = true) M /\ Forall (fun y => below y = false) B /\
    filter (fun y => inside y = true) l0 = M /\ filter (fun y => negb (inside y) = true) l0 = A ++ B.
Proof using Hup Hdown above below l0.
  clear gte lte Hgte Hlte. intros [Hs _ _]. destruct (split_front (fun y => negb (above y)) l0 Hs) as (A & C & Hl0 & HA & HC).
  { intros x y Hx Hy Hlt Hn. destruct (above x) eqn:Ha; [|done]. by rewrite (Hup x y) in Hn. }
  rewrite Hl0 in Hs |- *. apply StronglySorted_app in Hs as (_ & _ & HsC).
  destruct (split_front below C HsC) as (M & B & -> & HM & HB).
  { intros x y Hx Hy. apply Hdown; rewrite Hl0; set_solver. }
  exists A, M, B. pose proof HC as [HCM HCB]%Forall_app. rewrite Forall_forall in HA, HCM, HCB, HM, HB. unfold inside.
  assert (forall y, y ∈ A -> above y = false) as HA' by (intros y Hy; apply negb_true_iff, HA, Hy).
  assert (forall y, y ∈ M -> above y = true) as HM' by (intros y Hy; apply negb_false_iff, HCM, Hy).
  split_and!; [done|by apply Forall_forall|done|by apply Forall_forall|by apply Forall_forall| |].
  - rewrite !filter_app, (filter_none _ A), (filter_every _ M), (filter_none _ B), app_nil_r; [done|..]; apply Forall_forall; intros y Hy.
    + by rewrite (HB y Hy), andb_false_r.
    + by rewrite (HM' y Hy), (HM y Hy).
    + by rewrite (HA' y Hy).
  - rewrite !filter_app, (filter_every _ A), (filter_none _ M), (filter_every _ B); [done|..]; apply Forall_forall; intros y Hy.
    + by rewrite (HB y Hy), andb_false_r.
    + by rewrite (HM' y Hy), (HM y Hy).
    + by rewrite (HA' y Hy).
Qed.

Lemma ends_in_spec zsl :
  zlist zsl l0 ->
  exists b, ends_in zsl gte lte = Some b /\
    (if b then exists x y, head l0 = Some x /\ last l0 = Some y /\ below x = true /\ above y = true else Forall (fun y => inside y = false) l0).
Proof using Hgte Hlte Hup Hdown.
  intros [Hz [Hs _ _] _]. unfold ends_in. rewrite (zr_tail _ _ Hz). unfold last_id.
  destruct (last l0) as [y|] eqn:Hl; [|exists false; split; [done|]; apply last_None in Hl; by rewrite Hl].
  pose proof Hl as [A HA]%last_Some. cbn [fmap option_fmap option_map].
  destruct (node_of zsl _ Hz A y [] HA) as (n & -> & Hf). cbn [mbind option_bind]. rewrite (Hgte _ _ _ _ Hf). cbn [mbind option_bind].
  assert (forall x, x ∈ l0 -> x = y \/ slt x y) as Hlast.
  { intros x Hx. rewrite HA in Hx, Hs. apply elem_of_app in Hx as [Hx|Hx]; [|left; by apply list_elem_of_singleton].
    right. apply StronglySorted_app in Hs as (Hs & _ & _). apply Hs; [done|left]. }
  assert (y ∈ l0) as Hyin by (rewrite HA; set_solver).
  destruct (above y) eqn:Hy; cbn [negb].
  2:{ exists false. split; [done|]. apply Forall_forall. intros x Hx. unfold inside. destruct (above x) eqn:Hax; [|done].
      destruct (Hlast x Hx) as [->|Hlt]; [congruence|]. by rewrite (Hup x y) in Hy. }
  destruct l0 as [|x B]; [by destruct A|]. apply StronglySorted_inv in Hs as [_ Hxb]. rewrite Forall_forall in Hxb.
  pose proof (zr_level _ _ Hz) as Hlev. pose proof (zr_heights _ _ Hz) as Hh. apply Forall_cons in Hh as [Hhx _].
  rewrite (header_link zsl _ 0 Hz) by lia. cbn [mbind option_bind nxt]. rewrite decide_True by lia. cbn [forward].
  destruct (node_of zsl _ Hz [] x B eq_refl) as (n' & -> & Hf'). cbn [mbind option_bind]. rewrite (Hlte _ _ _ _ Hf').
  exists (below x). split; [done|]. destruct (below x) eqn:Hbx; [by exists x, y|].
  apply Forall_forall. intros z Hzin. unfold inside. destruct (below z) eqn:Hbz; [|by rewrite andb_false_r].
  apply elem_of_cons in Hzin as [->|Hzin]; [congruence|]. rewrite (Hdown x z) in Hbx; [done|left|by right|by apply Hxb|done].
Qed.

(** The first and the last node of the interval, when an end is in reach. *)
Lemma first_in_spec zsl y :
  zlist zsl l0 -> last l0 = Some y -> above y = true ->
  first_in zsl gte lte = Some (sid <$> head (filter (fun y => inside y = true) l0)).
Proof using Hgte Hlte Hup Hdown.
  intros [Hz Hs _] Hlast Hy. unfold first_in. destruct (split_interval Hs) as (A & M & B & Hl0 & HA & HMB & HM & HB & -> & _).
  rewrite Hl0 in Hz, Hlast.
  destruct (last_while_spec zsl A (M ++ B) Hz (fun n => negb <$> gte n) (fun y => negb (above y))) as (x & -> & Hget & _); [|done..|].
  { intros n w bk k Hf. by rewrite (Hgte _ _ _ _ Hf). }
  cbn [mbind option_bind]. rewrite Hget. cbn [mbind option_bind]. destruct (M ++ B) as [|z C] eqn:HC.
  { rewrite app_nil_r in Hlast. apply last_Some_elem_of in Hlast. rewrite Forall_forall in HA. specialize (HA y Hlast). by rewrite Hy in HA. }
  pose proof (zr_heights _ _ Hz) as Hh. rewrite Forall_app, Forall_cons in Hh. cbn [nxt]. rewrite decide_True by lia. cbn [mbind option_bind forward].
  destruct (node_of zsl _ Hz A z C eq_refl) as (n & -> & Hf). cbn [mbind option_bind]. rewrite (Hlte _ _ _ _ Hf). cbn [mbind option_bind].
  destruct M as [|m M]; cbn in HC.
  - rewrite HC in HB. apply Forall_cons in HB as [-> _]. done.
  - injection HC as -> _. apply Forall_cons in HM as [-> _]. done.
Qed.

Lemma last_in_spec zsl x :
  zlist zsl l0 -> head l0 = Some x -> below x = true ->
  last_in zsl gte lte = Some (sid <$> last (filter (fun y => inside y = true) l0)).
Proof using Hgte Hlte Hup Hdown.
  intros [Hz [Hs _ _] _] Hhead Hx. unfold last_in. destruct (split_front below l0 Hs Hdown) as (A & B & Hl0 & HA & HB).
  rewrite Hl0 in Hz, Hs, Hhead |- *. destruct (last_while_spec zsl A B Hz lte below Hlte HA HB) as (q & -> & _ & Hq). cbn [mbind option_bind].
  destruct A as [|z A _] using rev_ind.
  { destruct B as [|b B]; [done|]. injection Hhead as ->. apply Forall_cons in HB as [HB _]. congruence. }
  rewrite app_comm_cons, last_split in Hq. injection Hq as ->. rewrite <- app_assoc in Hz, Hs. cbn [app] in Hz, Hs.
  destruct (node_of zsl _ Hz A z B eq_refl) as (n & -> & Hf). cbn [mbind option_bind]. rewrite (Hgte _ _ _ _ Hf). cbn [mbind option_bind].
  rewrite filter_app, (filter_none inside B), app_nil_r by (eapply Forall_impl; [exact HB|]; cbn; intros w Hw; unfold inside; by rewrite Hw, andb_false_r).
  apply Forall_app in HA as [HA Hbz]. apply Forall_cons in Hbz as [Hbz _]. destruct (above z) eqn:Haz; cbn [negb].
  - rewrite filter_app, filter_cons, decide_True by (unfold inside; by rewrite Hbz, Haz). by rewrite filter_nil, last_snoc.
  - rewrite filter_none; [done|]. apply StronglySorted_app in Hs as (Hs & _ & _).
    apply Forall_app. split; [|constructor; [unfold inside; by rewrite Haz|constructor]].
    apply Forall_forall. intros w Hw. unfold inside. destruct (above w) eqn:Haw; [|done].
    rewrite (Hup w z) in Haz; [done|rewrite Hl0; set_solver|rewrite Hl0; set_solver|apply Hs; [done|left]|done].
Qed.
End Interval.

(** ** Ranges of scores *)

Section Range.
Context (range : zrangespec) (Hmin : isnan (rmin range) = false) (Hmax : isnan (rmax range) = false).

Definition above y : bool := zslValueGteMin (ssc y) range.
Definition below y : bool := zslValueLteMax (ssc y) range.
Definition in_range : snode -> bool := inside above below.

Lemma above_key y : is_number y ->
  above y = true <-> key_lt (dkey (rmin range)) (dkey (ssc y)) \/ (minex range = false /\ dkey (rmin range) = dkey (ssc y)).
Proof.
  intros Hy. unfold above, zslValueGteMin. destruct (minex range); [rewrite dltb_key by done|rewrite dleb_key by done]; naive_solver.
Qed.

Lemma below_key y : is_number y ->
  below y = true <-> key_lt (dkey (ssc y)) (dkey (rmax range)) \/ (maxex range = false /\ dkey (ssc y) = dkey (rmax range)).
Proof.
  intros Hy. unfold below, zslValueLteMax. destruct (maxex range); [rewrite dltb_key by done|rewrite dleb_key by done]; naive_solver.
Qed.

Lemma slt_key x y : is_number x -> is_number y -> slt x y -> key_lt (dkey (ssc x)) (dkey (ssc y)) \/ dkey (ssc x) = dkey (ssc y).
Proof. intros Hx Hy Hs%sbefore_key; [|done..]. tauto. Qed.

Lemma above_up x y : is_number x -> is_number y -> slt x y -> above x = true -> above y = true.
Proof.
  intros Hx Hy Hs. apply slt_key in Hs; [|done..]. rewrite !above_key by done. destruct Hs as [Hs| <-]; [|done].
  intros [Ha|[_ ->]]; left; [by eapply key_lt_trans|done].
Qed.

Lemma below_down x y : is_number x -> is_number y -> slt x y -> below y = true -> below x = true.
Proof.
  intros Hx Hy Hs. apply slt_key in Hs; [|done..]. rewrite !below_key by done. destruct Hs as [Hs| ->]; [|done].
  intros [Ha|[_ Hq]]; left; [by eapply key_lt_trans|]. by rewrite <- Hq.
Qed.

Lemma triple_eq (a b c a' b' c' : Z) : (a, b, c) = (a', b', c') <-> a = a' /\ b = b' /\ c = c'.
Proof. naive_solver. Qed.

(** The range itself excludes everything. *)
Lemma empty_range y :
  is_number y -> dltb (rmax range) (rmin range) || (deqb (rmin range) (rmax range) && (minex range || maxex range)) = true ->
  in_range y = false.
Proof.
  intros Hy He. apply not_true_iff_false. unfold in_range, inside. rewrite andb_true_iff, above_key, below_key by done.
  rewrite orb_true_iff, andb_true_iff, orb_true_iff, dltb_key, deqb_key in He by done. unfold key_lt in *.
  destruct (dkey (rmin range)) as [[a b] c], (dkey (rmax range)) as [[a' b'] c'], (dkey (ssc y)) as [[a2 b2] c2]. cbn in *.
  rewrite !triple_eq in *. clear Hmin Hmax Hy. destruct (minex range), (maxex range); intuition (discriminate || lia).
Qed.

Lemma gte_above n y bk k : frozen n = (Some (sel y), ssc y, bk, k) -> gte_score range n = Some (above y).
Proof. unfold frozen, gte_score, above. by intros [= _ -> _ _]. Qed.
Lemma lte_below n y bk k : frozen n = (Some (sel y), ssc y, bk, k) -> lte_score range n = Some (below y).
Proof. unfold frozen, lte_score, below. by intros [= _ -> _ _]. Qed.

Lemma above_mono l : zsorted l -> forall x y, x ∈ l -> y ∈ l -> slt x y -> above x = true -> above y = true.
Proof. intros [_ Hn _] x y Hx Hy. rewrite Forall_forall in Hn. apply above_up; auto. Qed.
Lemma below_mono l : zsorted l -> forall x y, x ∈ l -> y ∈ l -> slt x y -> below y = true -> below x = true.
Proof. intros [_ Hn _] x y Hx Hy. rewrite Forall_forall in Hn. apply below_down; auto. Qed.

Lemma zslIsInRange_spec zsl l :
  zlist zsl l ->
  exists b, zslIsInRange zsl range = Some b /\
    (if b then exists x y, head l = Some x /\ last l = Some y /\ below x = true /\ above y = true else Forall (fun y => in_range y = false) l).
Proof.
  intros Hl. unfold zslIsInRange. pose proof (zl_sorted _ _ Hl) as Hs. destruct (_ || _) eqn:He.
  { exists false. split; [done|]. eapply Forall_impl; [exact (zs_numbers _ Hs)|]. intros y Hy. by apply empty_range. }
  apply (ends_in_spec _ _ _ _ l gte_above lte_below (above_mono l Hs) (below_mono l Hs) zsl Hl).
Qed.

(** The first and the last element of the range. *)
Lemma zslFirstInRange_spec zsl l :
  zlist zsl l -> zslFirstInRange zsl range = Some (sid <$> head (filter (fun y => in_range y = true) l)).
Proof.
  intros Hl. unfold zslFirstInRange. destruct (zslIsInRange_spec zsl l Hl) as (b & -> & Hb). pose proof (zl_sorted _ _ Hl) as Hs. cbn [mbind option_bind].
  destruct b; cbn [negb]; [|by rewrite filter_none]. destruct Hb as (_ & y & _ & Hlast & _ & Hy).
  by apply (first_in_spec _ _ _ _ l gte_above lte_below (above_mono l Hs) (below_mono l Hs) zsl y).
Qed.

Lemma zslLastInRange_spec zsl l :
  zlist zsl l -> zslLastInRange zsl range = Some (sid <$> last (filter (fun y => in_range y = true) l)).
Proof.
  intros Hl. unfold zslLastInRange. destruct (zslIsInRange_spec zsl l Hl) as (b & -> & Hb). pose proof (zl_sorted _ _ Hl) as Hs. cbn [mbind option_bind].
  destruct b; cbn [negb]; [|by rewrite filter_none]. destruct Hb as (x & _ & Hhead & _ & Hx & _).
  by apply (last_in_spec _ _ _ _ l gte_above lte_below (above_mono l Hs) (below_mono l Hs) zsl x).
Qed.
End Range.
