(* ===== verification/SkiplistLex.v ===== *)
(** * Lexicographic ranges ([t_zset.c])

    The members of a sorted set whose scores are all equal are ordered by name;
    the range commands by name parse their two ends, which may be unbounded, and
    search the skip list.  An unbounded end is a pointer to a shared string. *)
From Stdlib Require Import ZArith Lia Ascii String.
From stdpp Require Import base numbers strings gmap sets list sorting.
From S2P Require Import Prelude Sds Double DoubleOrder Skiplist SkiplistRep SkiplistSorted SkiplistQuery.
Open Scope Z_scope.

Implicit Types (zsl : zskiplist).

(** A pointer to a string: one of the two shared ones, or one of its own. *)
Inductive lexend := minstring | maxstring | lexstr (s : sds).

#[global] Instance lexend_eq_dec : EqDecision lexend.
Proof. solve_decision. Defined.

(** The bytes it points to. *)
Definition lex_text (a : lexend) : sds :=
  match a with minstring => "minstring" | maxstring => "maxstring" | lexstr s => s end.

Record zlexrangespec := mkLex { lmin : lexend; lmax : lexend; lminex : bool; lmaxex : bool }.

(** The byte at an index of a string, which ends with a zero. *)
Definition char_at (c : sds) (i : nat) : ascii := default zero (String.get i c).

Definition zslParseLexRangeItem (item : sds) : option (lexend * bool) :=
  let c0 := char_at item 0 in
  if decide (c0 = "+"%char) then (if decide (char_at item 1 = zero) then Some (maxstring, false) else None)
  else if decide (c0 = "-"%char) then (if decide (char_at item 1 = zero) then Some (minstring, false) else None)
  else if decide (c0 = "("%char) then Some (lexstr (String.substring 1 (String.length item - 1) item), true)
  else if decide (c0 = "["%char) then Some (lexstr (String.substring 1 (String.length item - 1) item), false)
  else None.

(** For arguments that are strings, as those of a client are. *)
Definition zslParseLexRange (min max : sds) : option zlexrangespec :=
  '(a, aex) ← zslParseLexRangeItem min;
  '(b, bex) ← zslParseLexRangeItem max;
  Some (mkLex a b aex bex).

(** Two pointers are equal, or point to strings of their own; two of these are
    equal only if the strings are. *)
Definition sdscmplex (a b : lexend) : Z :=
  if decide (a = b) then 0
  else if decide (a = minstring \/ b = maxstring) then -1
  else if decide (a = maxstring \/ b = minstring) then 1
  else sdscmp (lex_text a) (lex_text b).

Definition zslLexValueGteMin (value : sds) (spec : zlexrangespec) : bool :=
  if lminex spec then 0 <? sdscmplex (lexstr value) (lmin spec) else 0 <=? sdscmplex (lexstr value) (lmin spec).
Definition zslLexValueLteMax (value : sds) (spec : zlexrangespec) : bool :=
  if lmaxex spec then sdscmplex (lexstr value) (lmax spec) <? 0 else sdscmplex (lexstr value) (lmax spec) <=? 0.

Definition gte_lex (range : zlexrangespec) (n : zskiplistNode) : option bool := e ← zn_ele n; Some (zslLexValueGteMin e range).
Definition lte_lex (range : zlexrangespec) (n : zskiplistNode) : option bool := e ← zn_ele n; Some (zslLexValueLteMax e range).

(** The test for the empty range compares with [sdscmp] as well. *)
Definition lex_empty (range : zlexrangespec) : bool :=
  (1 <? sdscmplex (lmin range) (lmax range)) ||
  ((sdscmp (lex_text (lmin range)) (lex_text (lmax range)) =? 0) && (lminex range || lmaxex range)).

Definition zslIsInLexRange zsl (range : zlexrangespec) : option bool :=
  if lex_empty range then Some false else ends_in zsl (gte_lex range) (lte_lex range).

Definition zslFirstInLexRange zsl (range : zlexrangespec) : option (option nat) :=
  b ← zslIsInLexRange zsl range;
  if negb b then Some None else first_in zsl (gte_lex range) (lte_lex range).

Definition zslLastInLexRange zsl (range : zlexrangespec) : option (option nat) :=
  b ← zslIsInLexRange zsl range;
  if negb b then Some None else last_in zsl (gte_lex range) (lte_lex range).

(** ** What the searches return *)

Implicit Types (x y : snode) (l A B : list snode).

Definition same_score l : Prop := forall x y, x ∈ l -> y ∈ l -> deqb (ssc x) (ssc y) = true.

(** An end of the range that is one of the two shared strings is not spelled
    out at the other end. *)
Definition lex_plain (range : zlexrangespec) : Prop :=
  lex_text (lmin range) = lex_text (lmax range) -> lmin range = lmax range.

Section Lex.
Context (range : zlexrangespec).

Definition lex_above y : bool := zslLexValueGteMin (sel y) range.
Definition lex_below y : bool := zslLexValueLteMax (sel y) range.
Definition in_lex : snode -> bool := inside lex_above lex_below.

Lemma gte_lex_above n y bk k : frozen n = (Some (sel y), ssc y, bk, k) -> gte_lex range n = Some (lex_above y).
Proof. unfold frozen, gte_lex. by intros [= -> _ _ _]. Qed.
Lemma lte_lex_below n y bk k : frozen n = (Some (sel y), ssc y, bk, k) -> lte_lex range n = Some (lex_below y).
Proof. unfold frozen, lte_lex. by intros [= -> _ _ _]. Qed.

Lemma sdscmp_self s : sdscmp s s = 0.
Proof. by apply sdscmp_eq. Qed.

(** Against a string of its own the comparison is that of the bytes. *)
Lemma sdscmplex_str e a :
  sdscmplex (lexstr e) a = match a with minstring => 1 | maxstring => -1 | lexstr s => sdscmp e s end.
Proof.
  unfold sdscmplex. destruct a as [| |s]; [done..|]. destruct (decide _) as [Heq|_]; [injection Heq as ->; by rewrite sdscmp_self|].
  rewrite decide_False by (by intros [?|?]). by rewrite decide_False by (by intros [?|?]).
Qed.

Lemma slt_names l x y : zsorted l -> same_score l -> x ∈ l -> y ∈ l -> slt x y -> sdscmp (sel x) (sel y) < 0.
Proof.
  intros [_ Hn _] Hsame Hx Hy Hlt. rewrite Forall_forall in Hn. apply sbefore_key in Hlt as [Hlt|[_ ?]]; [|done|by apply Hn|by apply Hn].
  specialize (Hsame x y Hx Hy). rewrite deqb_key in Hsame by (by apply Hn). rewrite Hsame in Hlt. unfold key_lt in Hlt. lia.
Qed.

Lemma lex_above_mono l : zsorted l -> same_score l -> forall x y, x ∈ l -> y ∈ l -> slt x y -> lex_above x = true -> lex_above y = true.
Proof.
  intros Hs Hsame x y Hx Hy Hlt. apply (slt_names l) in Hlt; [|done..]. unfold lex_above, zslLexValueGteMin. rewrite !sdscmplex_str.
  destruct (lmin range) as [| |s]; [done..|]. pose proof (sdscmp_lt_trans (sel x) (sel y) s Hlt). pose proof (sdscmp_eq (sel y) s) as Heq.
  destruct (decide (sel y = s)) as [<-|]; [destruct (lminex range); lia|]. assert (sdscmp (sel y) s <> 0) by tauto. destruct (lminex range); lia.
Qed.

Lemma lex_below_mono l : zsorted l -> same_score l -> forall x y, x ∈ l -> y ∈ l -> slt x y -> lex_below y = true -> lex_below x = true.
Proof.
  intros Hs Hsame x y Hx Hy Hlt. apply (slt_names l) in Hlt; [|done..]. unfold lex_below, zslLexValueLteMax. rewrite !sdscmplex_str.
  destruct (lmax range) as [| |s]; [done..|]. pose proof (sdscmp_lt_trans (sel x) (sel y) s Hlt). pose proof (sdscmp_eq (sel y) s) as Heq.
  destruct (decide (sel y = s)) as [<-|]; [destruct (lmaxex range); lia|]. assert (sdscmp (sel y) s <> 0) by tauto. destruct (lmaxex range); lia.
Qed.

(** A range that the test rejects is empty. *)
Lemma lex_empty_spec y : lex_plain range -> lex_empty range = true -> in_lex y = false.
Proof.
  intros Hp He. unfold lex_empty in He. unfold in_lex, inside, lex_above, lex_below, zslLexValueGteMin, zslLexValueLteMax. rewrite !sdscmplex_str.
  apply orb_true_iff in He as [He|[He%Z.eqb_eq%sdscmp_eq%Hp Hex]%andb_true_iff].
  - unfold sdscmplex in He. repeat destruct (decide _); try done. destruct (lmin range) as [| |a], (lmax range) as [| |b]; try tauto. cbn in He.
    apply Z.ltb_lt in He. apply not_true_iff_false. rewrite andb_true_iff. intros [Ha Hb].
    assert (0 <= sdscmp (sel y) a) as Ha' by (destruct (lminex range); lia). assert (sdscmp (sel y) b <= 0) as Hb' by (destruct (lmaxex range); lia).
    pose proof (sdscmp_antisym a b). pose proof (sdscmp_antisym (sel y) a). pose proof (sdscmp_antisym (sel y) b).
    pose proof (sdscmp_lt_trans a (sel y) b). pose proof (sdscmp_eq (sel y) a). pose proof (sdscmp_eq (sel y) b).
    destruct (decide (sdscmp (sel y) a = 0)) as [Hya|]; [rewrite (proj1 (sdscmp_eq _ _) Hya) in *; lia|].
    destruct (decide (sdscmp (sel y) b = 0)) as [Hyb|]; [rewrite (proj1 (sdscmp_eq _ _) Hyb) in *; lia|]. lia.
  - rewrite <- He. destruct (lmin range); destruct (lminex range), (lmaxex range); try done; lia.
Qed.

Lemma zslIsInLexRange_spec zsl l :
  zlist zsl l -> same_score l -> lex_plain range ->
  exists b, zslIsInLexRange zsl range = Some b /\
    (if b then exists x y, head l = Some x /\ last l = Some y /\ lex_below x = true /\ lex_above y = true else Forall (fun y => in_lex y = false) l).
Proof.
  intros Hl Hsame Hp. unfold zslIsInLexRange. pose proof (zl_sorted _ _ Hl) as Hs. destruct (lex_empty range) eqn:He.
  { exists false. split; [done|]. apply Forall_forall. intros y _. by apply lex_empty_spec. }
  apply (ends_in_spec _ _ _ _ l gte_lex_above lte_lex_below (lex_above_mono l Hs Hsame) (lex_below_mono l Hs Hsame) zsl Hl).
Qed.

Lemma zslFirstInLexRange_spec zsl l :
  zlist zsl l -> same_score l -> lex_plain range -> zslFirstInLexRange zsl range = Some (sid <$> head (filter (fun y => in_lex y = true) l)).
Proof.
  intros Hl Hsame Hp. unfold zslFirstInLexRange. destruct (zslIsInLexRange_spec zsl l Hl Hsame Hp) as (b & -> & Hb).
  pose proof (zl_sorted _ _ Hl) as Hs. cbn [mbind option_bind]. destruct b; cbn [negb]; [|by rewrite filter_none]. destruct Hb as (_ & y & _ & Hlast & _ & Hy).
  by apply (first_in_spec _ _ _ _ l gte_lex_above lte_lex_below (lex_above_mono l Hs Hsame) (lex_below_mono l Hs Hsame) zsl y).
Qed.

Lemma zslLastInLexRange_spec zsl l :
  zlist zsl l -> same_score l -> lex_plain range -> zslLastInLexRange zsl range = Some (sid <$> last (filter (fun y => in_lex y = true) l)).
Proof.
  intros Hl Hsame Hp. unfold zslLastInLexRange. destruct (zslIsInLexRange_spec zsl l Hl Hsame Hp) as (b & -> & Hb).
  pose proof (zl_sorted _ _ Hl) as Hs. cbn [mbind option_bind]. destruct b; cbn [negb]; [|by rewrite filter_none]. destruct Hb as (x & _ & Hhead & _ & Hx & _).
  by apply (last_in_spec _ _ _ _ l gte_lex_above lte_lex_below (lex_above_mono l Hs Hsame) (lex_below_mono l Hs Hsame) zsl x).
Qed.
End Lex.

(** An unbounded end is taken for the name of the shared string: every member
    is above [-] and [a] is below [(minstring], yet nothing is found. *)
Lemma lex_minstring_lost zsl range : zslParseLexRange "-" "(minstring" = Some range -> zslFirstInLexRange zsl range = Some None.
Proof. intros Hr. vm_compute in Hr. by injection Hr as <-. Qed.
