(* ===== verification/ZsetObj.v ===== *)
(** * Sorted set objects with a skip list ([t_zset.c])

    A large sorted set is a skip list and a hash table from its elements to the
    scores inside the nodes; the two share the elements.  Adding, deleting and
    reading keep them in step and do to the scores what [Zset] says; deleting a
    range removes the same nodes from both. *)
From Stdlib Require Import ZArith Lia Ascii String.
From S2P Require Import Dict DictMap.
From stdpp Require Import functions base numbers strings gmap sets list sorting.
From S2P Require Import Prelude Sds Double DoubleOrder Zset Skiplist SkiplistRep SkiplistSorted SkiplistQuery SkiplistLex.
Open Scope Z_scope.

(** The value of an entry is the address of the node that holds the score. *)
Record zset := mkZset { zs_dict : Dict.dict sds nat; zs_zsl : zskiplist }.

Definition ZADD_NONE : Z := 0.
Definition ZADD_INCR : Z := 1.
Definition ZADD_NX : Z := 2.
Definition ZADD_XX : Z := 4.
Definition ZADD_NOP : Z := 8.
Definition ZADD_NAN : Z := 16.
Definition ZADD_ADDED : Z := 32.
Definition ZADD_UPDATED : Z := 64.

Section Zset.
Context (hashKey : sds -> Z) (dict_can_resize : bool).

Abbreviation dict := (Dict.dict sds nat).

Implicit Types (zs : zset) (d : dict) (zsl : zskiplist).

Definition createZsetObject : option zset := zsl ← zslCreate; Some (mkZset Dict.dictCreate zsl).

(** The score an entry points to. *)
Definition entry_score zsl d (de : Dict.eptr) : option double :=
  e ← Dict.dictEntryAt d de;
  n ← sl_heap zsl !! e.2;
  Some (zn_score n).

Definition free_node zsl (x : nat) : zskiplist :=
  mkZsl (zslFreeNode (sl_heap zsl) x) (header zsl) (sl_tail zsl) (sl_length zsl) (sl_level zsl).

Definition zsetLength zs : Z := to_uint (to_int (sl_length (zs_zsl zs))).

Definition zsetScore zs (member : sds) : option (zset * option double) :=
  '(d, de) ← Dict.dictFind hashKey (zs_dict zs) member;
  let zs := mkZset d (zs_zsl zs) in
  match de with
  | None => Some (zs, None)
  | Some de => score ← entry_score (zs_zsl zs) d de; Some (zs, Some score)
  end.

(** The result, the flags and the value written to [newscore]; [level] is what
    [zslRandomLevel] returns. *)
Definition zsetAdd zs (score : double) (ele : sds) (flags : Z) (level : nat) : option (zset * bool * Z * option double) :=
  let incr := negb (Z.land flags ZADD_INCR =? 0) in
  let nx := negb (Z.land flags ZADD_NX =? 0) in
  let xx := negb (Z.land flags ZADD_XX =? 0) in
  if isnan score then Some (zs, false, ZADD_NAN, None)
  else
    '(d, de) ← Dict.dictFind hashKey (zs_dict zs) ele;
    let zsl := zs_zsl zs in
    match de with
    | Some de =>
        if nx then Some (mkZset d zsl, true, ZADD_NOP, None)
        else
          curscore ← entry_score zsl d de;
          let score := if incr then dadd score curscore else score in
          if incr && isnan score then Some (mkZset d zsl, false, ZADD_NAN, None)
          else
            let newscore := if incr then Some score else None in
            if negb (deqb score curscore) then
              '(zsl, node) ← zslDelete zsl curscore ele true;
              node ← node;
              n ← sl_heap zsl !! node;
              node_ele ← zn_ele n;
              '(zsl, znode) ← zslInsert zsl level score node_ele;
              d ← Dict.dictSetVal d de znode;
              Some (mkZset d (free_node zsl node), true, ZADD_UPDATED, newscore)
            else Some (mkZset d zsl, true, 0, newscore)
    | None =>
        if xx then Some (mkZset d zsl, true, ZADD_NOP, None)
        else
          let ele := sdsdup ele in
          '(zsl, znode) ← zslInsert zsl level score ele;
          '(d, added) ← Dict.dictAdd hashKey dict_can_resize d ele znode;
          if (added : bool) then Some (mkZset d zsl, true, ZADD_ADDED, Some score) else None
    end.

Definition zsetDel zs (ele : sds) : option (zset * bool) :=
  '(d, de) ← Dict.dictUnlink hashKey (zs_dict zs) ele;
  match de with
  | None => Some (mkZset d (zs_zsl zs), false)
  | Some de =>
      n ← sl_heap (zs_zsl zs) !! de.2;
      '(zsl, retval) ← zslDelete (zs_zsl zs) (zn_score n) ele false;
      match retval with
      | None => None
      | Some _ => Some (mkZset (if Dict.htNeedsResize d then (Dict.dictResize dict_can_resize d).1 else d) zsl, true)
      end
  end.

(** -1 when the element does not exist. *)
Definition zsetRank zs (ele : sds) (reverse : bool) : option (zset * Z) :=
  let llen := zsetLength zs in
  '(d, de) ← Dict.dictFind hashKey (zs_dict zs) ele;
  let zs := mkZset d (zs_zsl zs) in
  match de with
  | None => Some (zs, -1)
  | Some de =>
      score ← entry_score (zs_zsl zs) d de;
      rank ← zslGetRank (zs_zsl zs) score ele;
      if rank =? 0 then None
      else Some (zs, if reverse then to_llong (llen - rank) else to_llong (rank - 1))
  end.

(** ** Deleting ranges *)

(** From node [x] on, while the condition holds; it may look at the number
    removed so far. *)
Fixpoint delete_nodes (fuel : nat) (cond : Z -> zskiplistNode -> option bool) zsl (update : list nat) d (x : option nat) (removed : Z) :
    option (zskiplist * dict * Z) :=
  match fuel, x with
  | _, None => Some (zsl, d, removed)
  | O, Some _ => None
  | S fuel, Some x =>
      n ← sl_heap zsl !! x;
      ok ← cond removed n;
      if negb ok then Some (zsl, d, removed)
      else
        next ← get_level (sl_heap zsl) x 0;
        zsl ← zslDeleteNode zsl x update;
        n ← sl_heap zsl !! x;
        e ← zn_ele n;
        '(d, _) ← Dict.dictDelete hashKey d e;
        delete_nodes fuel cond (free_node zsl x) update d (forward next) (to_ullong (removed + 1))
  end.

Definition delete_from zsl (update : list nat) (cond : Z -> zskiplistNode -> option bool) d : option (zskiplist * dict * Z) :=
  u0 ← update !! 0%nat;
  l ← get_level (sl_heap zsl) u0 0;
  delete_nodes (zsl_fuel zsl) cond zsl update d (forward l) 0.

(** The nodes where each level is left, walking while the condition holds. *)
Definition update_path zsl (cond : zskiplistNode -> option bool) : option (list nat) :=
  update ← descend (fun (_ : unit) _ n => cond n) (fun u _ => u) (sl_heap zsl) (zsl_fuel zsl) (sl_level zsl) (header zsl) tt [];
  Some update.*1.

Definition zslDeleteRangeByScore zsl (range : zrangespec) d : option (zskiplist * dict * Z) :=
  update ← update_path zsl (fun n => Some (if minex range then dleb (zn_score n) (rmin range) else dltb (zn_score n) (rmin range)));
  delete_from zsl update (fun _ n => Some (if maxex range then dltb (zn_score n) (rmax range) else dleb (zn_score n) (rmax range))) d.

Definition zslDeleteRangeByLex zsl (range : zlexrangespec) d : option (zskiplist * dict * Z) :=
  update ← update_path zsl (fun n => negb <$> gte_lex range n);
  delete_from zsl update (fun _ n => lte_lex range n) d.

(** [start] and [last] count from 1. *)
Definition zslDeleteRangeByRank zsl (start last : Z) d : option (zskiplist * dict * Z) :=
  update ← descend (fun traversed l _ => Some (to_ullong (traversed + span l) <? start)) count_span
             (sl_heap zsl) (zsl_fuel zsl) (sl_level zsl) (header zsl) 0 [];
  u0 ← update !! 0%nat;
  delete_from zsl update.*1 (fun removed _ => Some (to_ullong (to_ullong (u0.2 + 1) + removed) <=? last)) d.

(** ** The object and the sequence of its nodes *)

Implicit Types (x y : snode) (l A B : list snode).

Definition zs_scores l : gmap sds double := list_to_map ((fun x => (sel x, ssc x)) <$> l).
Definition zs_index l : gmap sds nat := list_to_map ((fun x => (sel x, sid x)) <$> l).

Record zset_ok zs l : Prop := {
  zo_list : zlist (zs_zsl zs) l;
  zo_dict : dict_ok hashKey (zs_dict zs);
  zo_index : dict_map (zs_dict zs) = zs_index l;
  zo_room : Z.of_nat (length l) < 4294967295
}.

Section Views.
Context {X : Type} (f : snode -> X).

Abbreviation view l := (list_to_map ((fun x => (sel x, f x)) <$> l) : gmap sds X).

Lemma view_keys l : ((fun x => (sel x, f x)) <$> l).*1 = sel <$> l.
Proof. induction l as [|x l IH]; [done|]. cbn. by f_equal. Qed.

Lemma view_lookup l e v : NoDup (sel <$> l) -> view l !! e = Some v <-> exists x, x ∈ l /\ sel x = e /\ f x = v.
Proof.
  intros Hnd. rewrite <- elem_of_list_to_map by (by rewrite view_keys). rewrite list_elem_of_fmap. naive_solver.
Qed.

Lemma view_none l e : view l !! e = None <-> e ∉ sel <$> l.
Proof. rewrite <- not_elem_of_list_to_map. by rewrite view_keys. Qed.

Lemma view_insert A B x : NoDup (sel <$> A ++ x :: B) -> view (A ++ x :: B) = <[sel x := f x]> (view (A ++ B)).
Proof.
  intros Hnd. rewrite <- list_to_map_cons. change ((sel x, f x) :: ((fun x => (sel x, f x)) <$> A ++ B)) with ((fun x => (sel x, f x)) <$> x :: A ++ B).
  apply list_to_map_proper; [by rewrite view_keys|]. by rewrite <- Permutation_middle.
Qed.

Lemma view_delete A B x : NoDup (sel <$> A ++ x :: B) -> view (A ++ B) = base.delete (sel x) (view (A ++ x :: B)).
Proof.
  intros Hnd. rewrite view_insert by done. rewrite delete_insert_id; [done|]. apply view_none.
  rewrite <- Permutation_middle, fmap_cons in Hnd. by apply NoDup_cons in Hnd as [? _].
Qed.
End Views.

Lemma zlist_elements zsl l : zlist zsl l -> NoDup (sel <$> l).
Proof. intros Hl. apply (zs_elements _ (zl_sorted _ _ Hl)). Qed.

Lemma zset_ok_dict zs l d : zset_ok zs l -> rehashed hashKey (zs_dict zs) d -> zset_ok (mkZset d (zs_zsl zs)) l.
Proof. intros [Hl Hd Hi Hr] Hre. split; [done|apply Hre| |done]. cbn. by rewrite (rehashed_map _ _ _ Hd Hre). Qed.

Lemma createZsetObject_spec : exists zs, createZsetObject = Some zs /\ zset_ok zs [].
Proof.
  destruct zslCreate_zlist as (zsl & Hc & Hl). unfold createZsetObject. rewrite Hc. eexists. split; [done|].
  destruct (DictMap.dictCreate_spec (V := nat) hashKey) as [Hd Hm]. by split.
Qed.

(** Finding an element: the table of the object moves on, and the entry leads to
    the node. *)
Lemma find_element zs l ele :
  zset_ok zs l ->
  exists d de, Dict.dictFind hashKey (zs_dict zs) ele = Some (d, de) /\ zset_ok (mkZset d (zs_zsl zs)) l /\
    match de with
    | Some p => 0 <= Dict.p_idx p /\ exists A x B, l = A ++ x :: B /\ sel x = ele /\ Dict.dictEntryAt d p = Some (ele, sid x) /\
        entry_score (zs_zsl zs) d p = Some (ssc x) /\ zs_scores l !! ele = Some (ssc x)
    | None => (ele ∉ sel <$> l) /\ zs_scores l !! ele = None
    end.
Proof.
  intros Hok. pose proof Hok as [Hl Hd Hi Hr]. destruct (DictMap.dictFind_spec hashKey (zs_dict zs) ele Hd) as (d & de & Hf & Hre & Hde).
  exists d, de. split_and!; [done|by apply (zset_ok_dict zs)|]. pose proof (zlist_elements _ _ Hl) as Hnd. destruct de as [p|].
  - destruct Hde as (Hp & v & Hat & Hm). split; [done|]. rewrite Hi in Hm. pose proof Hm as (x & Hx & He & <-)%(view_lookup sid l ele v Hnd).
    pose proof Hx as (A & B & ->)%list_elem_of_split. exists A, x, B.
    destruct (node_of _ _ (zl_rep _ _ Hl) A x B eq_refl) as (n & Hn & Hfr). injection Hfr as _ Hsc _ _. split_and!; [done..| |].
    + unfold entry_score. rewrite Hat. cbn. by rewrite Hn, <- Hsc.
    + apply view_lookup; [done|]. by exists x.
  - rewrite Hi in Hde. apply view_none in Hde. split; [done|]. by apply view_none.
Qed.

Lemma zsetScore_spec zs l member : zset_ok zs l -> exists zs', zsetScore zs member = Some (zs', zs_scores l !! member) /\ zset_ok zs' l.
Proof.
  intros Hok. destruct (find_element zs l member Hok) as (d & de & Hf & Hok' & Hde). exists (mkZset d (zs_zsl zs)). split; [|done].
  unfold zsetScore. rewrite Hf. cbn. destruct de as [p|]; [destruct Hde as (_ & A & x & B & _ & _ & _ & -> & ->)|destruct Hde as [_ ->]]; done.
Qed.

(** ** Adding *)

(** What the code does to the scores, with all its flags. *)
Definition zadd_scores (z : gmap sds double) (score : double) (ele : sds) (flags : Z) : gmap sds double * bool * Z * option double :=
  let incr := negb (Z.land flags ZADD_INCR =? 0) in
  if isnan score then (z, false, ZADD_NAN, None)
  else
    match z !! ele with
    | Some cur =>
        let s := if incr then dadd score cur else score in
        if negb (Z.land flags ZADD_NX =? 0) then (z, true, ZADD_NOP, None)
        else if isnan s then (z, false, ZADD_NAN, None)
        else if deqb s cur then (z, true, 0, if incr then Some s else None)
        else (<[ele := s]> z, true, ZADD_UPDATED, if incr then Some s else None)
    | None =>
        if negb (Z.land flags ZADD_XX =? 0) then (z, true, ZADD_NOP, None) else (<[ele := score]> z, true, ZADD_ADDED, Some score)
    end.

(** Without flags this is [zset_add]. *)
Lemma zadd_scores_none z score ele : (zadd_scores z score ele ZADD_NONE).1.1.1 = zset_add z score ele.
Proof.
  unfold zadd_scores, zset_add. destruct (isnan score) eqn:Hn; [done|]. destruct (z !! ele); [|done].
  change (negb (Z.land ZADD_NONE ZADD_NX =? 0)) with false. change (negb (Z.land ZADD_NONE ZADD_INCR =? 0)) with false. cbv iota.
  rewrite Hn. by destruct (deqb score _).
Qed.

(** The element leaves its place and comes back at the place of its new score. *)
Lemma move_node zsl A x B level score :
  zlist zsl (A ++ x :: B) -> Z.of_nat (length (A ++ x :: B)) < 4294967295 -> (1 <= level <= ZSKIPLIST_MAXLEVEL)%nat -> isnan score = false ->
  exists zsl1 zsl2 n p C D, zslDelete zsl (ssc x) (sel x) true = Some (zsl1, Some (sid x)) /\
    sl_heap zsl1 !! sid x = Some n /\ zn_ele n = Some (sel x) /\
    zslInsert zsl1 level score (sel x) = Some (zsl2, p) /\ A ++ B = C ++ D /\ zlist (free_node zsl2 (sid x)) (C ++ mkSn p (sel x) score level :: D).
Proof.
  intros Hl Hlen Hlevel Hn. pose proof (zlist_elements _ _ Hl) as Hnd. pose proof (zr_nodup _ _ (zl_rep _ _ Hl)) as Hid.
  pose proof (zs_numbers _ (zl_sorted _ _ Hl)) as Hnum. rewrite Forall_app, Forall_cons in Hnum. destruct Hnum as (_ & Hnx & _).
  destruct (zslDelete_found zsl A x B (ssc x) true Hl ltac:(lia) Hnx (deqb_refl _ Hnx)) as (zsl1 & Hdel & Hl1 & Hh1 & Hst).
  pose proof (zr_nodes _ _ (zl_rep _ _ Hl) A x B eq_refl) as Hx. rewrite <- Hst in Hx. destruct (static_some _ _ _ Hx) as [n Hnode].
  unfold static in Hx. rewrite Hnode in Hx. injection Hx as Hele _ _ _.
  rewrite <- Permutation_middle, fmap_cons in Hnd. apply NoDup_cons in Hnd as [Hnew _]. apply NoDup_cons in Hid as [Hhx Hid].
  rewrite <- Permutation_middle, fmap_cons in Hid. apply NoDup_cons in Hid as [Hid _].
  destruct (zslInsert_zlist zsl1 (A ++ B) level score (sel x) Hl1) as (zsl2 & p & C & D & HCD & Hins & [Hz2 Hs2 Ht2] & Hh2 & Hp); try done.
  { rewrite !length_app in *. cbn [length] in Hlen. lia. }
  exists zsl1, zsl2, n, p, C, D. split_and!; [done..|]. split; [|done|done]. apply free_zrep; [done| |].
  - rewrite Hh2, Hh1. intros Hq. apply Hhx. rewrite <- Hq, fmap_app. set_solver.
  - rewrite <- Permutation_middle, fmap_cons. cbn [sid]. rewrite <- HCD. intros [Hq|Hq]%elem_of_cons; [by rewrite Hq, Hp in Hnode|done].
Qed.

Lemma zsetAdd_spec zs l score ele flags level :
  zset_ok zs l -> Z.of_nat (length l) < 4294967294 -> (1 <= level <= ZSKIPLIST_MAXLEVEL)%nat ->
  exists zs' l' r f ns, zsetAdd zs score ele flags level = Some (zs', r, f, ns) /\ zset_ok zs' l' /\
    zadd_scores (zs_scores l) score ele flags = (zs_scores l', r, f, ns).
Proof.
  intros Hok Hlen Hlevel. unfold zsetAdd, zadd_scores. destruct (isnan score) eqn:Hn; [by eexists zs, l, _, _, _|].
  destruct (find_element zs l ele Hok) as (d & de & -> & Hok' & Hde). cbn [mbind option_bind].
  set (incr := negb (Z.land flags ZADD_INCR =? 0)). destruct de as [p|].
  - destruct Hde as (Hp & A & x & B & -> & <- & Hat & -> & ->). destruct (negb (Z.land flags ZADD_NX =? 0)); [by eexists _, (A ++ x :: B), _, _, _|].
    cbn [mbind option_bind]. set (s := if incr then dadd score (ssc x) else score).
    assert (incr && isnan s = isnan s) as -> by (unfold s; destruct incr; [done|by rewrite Hn]).
    destruct (isnan s) eqn:Hns; [by eexists _, (A ++ x :: B), _, _, _|].
    destruct (deqb s (ssc x)) eqn:Hd; cbn [negb]; [by eexists _, (A ++ x :: B), _, _, _|].
    destruct Hok' as [Hl' Hd' Hi' _]. cbn [zs_zsl zs_dict] in *.
    destruct (move_node (zs_zsl zs) A x B level s Hl' ltac:(lia) Hlevel Hns) as (zsl1 & zsl2 & n & q & C & D & -> & Hnode & Hele & Hins & HCD & Hl2).
    cbn [mbind option_bind]. rewrite Hnode. cbn [mbind option_bind]. rewrite Hele. cbn [mbind option_bind]. rewrite Hins. cbn [mbind option_bind].
    destruct (DictMap.dictSetVal_spec hashKey d p (sel x) (sid x) q Hd' Hp Hat) as (d2 & -> & Hd2 & _ & Hm2). cbn [mbind option_bind].
    eexists _, (C ++ mkSn q (sel x) s level :: D), _, _, _. split; [done|].
    pose proof (zlist_elements _ _ Hl') as Hnd. pose proof (zlist_elements _ _ Hl2) as Hnd2. split.
    + split; cbn [zs_zsl zs_dict]; [done|done| |].
      * rewrite Hm2, Hi'. unfold zs_index. rewrite (view_insert sid C D) by done. rewrite <- HCD, (view_insert sid A B) by done. apply insert_insert_eq.
      * assert (length (A ++ B) = length (C ++ D)) as HlCD by (by rewrite HCD). rewrite !length_app in *. cbn [length] in *. lia.
    + unfold zs_scores. rewrite (view_insert ssc C D) by done. rewrite <- HCD, (view_insert ssc A B) by done. cbn [sel ssc]. by rewrite insert_insert_eq.
  - destruct Hde as [Hnew ->]. destruct (negb (Z.land flags ZADD_XX =? 0)); [by eexists _, l, _, _, _|].
    destruct Hok' as [Hl' Hd' Hi' _]. cbn [zs_zsl zs_dict] in *. unfold sdsdup.
    destruct (zslInsert_zlist (zs_zsl zs) l level score ele Hl' ltac:(lia) Hlevel Hn Hnew) as (zsl' & q & A & B & -> & -> & Hl2 & _ & _). cbn [mbind option_bind].
    assert (dict_map d !! ele = None) as Hnone by (rewrite Hi'; by apply view_none).
    destruct (DictMap.dictAdd_spec hashKey dict_can_resize d ele q Hd') as (d2 & -> & Hd2 & Hm2).
    { unfold dict_room. rewrite Hi'. unfold zs_index. rewrite map_size_list_to_map by (rewrite view_keys; by eapply zlist_elements). rewrite length_fmap. lia. }
    rewrite Hnone. cbn [mbind option_bind]. rewrite bool_decide_eq_true_2 by done. rewrite Hnone in Hm2.
    eexists _, (A ++ mkSn q ele score level :: B), _, _, _. split; [done|]. pose proof (zlist_elements _ _ Hl2) as Hnd2. split.
    + split; cbn [zs_zsl zs_dict]; [done|done| |].
      * rewrite Hm2, Hi'. unfold zs_index. by rewrite (view_insert sid A B).
      * rewrite length_app in *. cbn [length]. lia.
    + unfold zs_scores. by rewrite (view_insert ssc A B).
Qed.

(** ** Deleting and ranking *)

Lemma zsetDel_spec zs l ele :
  zset_ok zs l ->
  exists zs' l', zsetDel zs ele = Some (zs', bool_decide (is_Some (zs_scores l !! ele))) /\ zset_ok zs' l' /\
    zs_scores l' = base.delete ele (zs_scores l).
Proof.
  intros [Hl Hd Hi Hr]. pose proof (zlist_elements _ _ Hl) as Hnd. unfold zsetDel, Dict.dictUnlink.
  destruct (DictMap.dictGenericDelete_spec hashKey (zs_dict zs) ele Hd) as (d & -> & Hd' & Hm'). rewrite Hi in Hm' |- *. cbn [mbind option_bind].
  destruct (zs_index l !! ele) as [q|] eqn:Hq; cbn [fmap option_fmap option_map].
  - pose proof Hq as (x & Hx & <- & <-)%(view_lookup sid l ele q Hnd). pose proof Hx as (A & B & ->)%list_elem_of_split. cbn [snd].
    destruct (node_of _ _ (zl_rep _ _ Hl) A x B eq_refl) as (n & -> & Hfr). injection Hfr as _ Hsc _ _. cbn [mbind option_bind]. rewrite Hsc.
    pose proof (zs_numbers _ (zl_sorted _ _ Hl)) as Hnum. rewrite Forall_app, Forall_cons in Hnum. destruct Hnum as (_ & Hnx & _).
    destruct (zslDelete_found (zs_zsl zs) A x B (ssc x) false Hl ltac:(lia) Hnx (deqb_refl _ Hnx)) as (zsl' & -> & Hl' & _ & _). cbn [mbind option_bind].
    eexists _, (A ++ B). split.
    + do 2 f_equal. symmetry. apply bool_decide_eq_true_2. exists (ssc x). apply view_lookup; [done|]. by exists x.
    + assert (dict_ok hashKey (if Dict.htNeedsResize d then (Dict.dictResize dict_can_resize d).1 else d) /\
        dict_map (if Dict.htNeedsResize d then (Dict.dictResize dict_can_resize d).1 else d) = dict_map d) as [Hd2 Hm2].
      { destruct (htNeedsResize d); [|done]. pose proof (DictMap.dictResize_spec hashKey dict_can_resize d Hd') as Hre.
        split; [apply Hre|]. by eapply rehashed_map, resized_rehashed, Hre. }
      split; [split; cbn [zs_zsl zs_dict]; [done|done| |]|].
      * rewrite Hm2, Hm'. unfold zs_index. by rewrite (view_delete sid A B x).
      * rewrite !length_app in *. cbn [length] in Hr. lia.
      * unfold zs_scores. by rewrite (view_delete ssc A B x).
  - apply view_none in Hq as Hnew. assert (zs_scores l !! ele = None) as Hns by (by apply view_none).
    eexists _, l. split; [by rewrite Hns|]. split; [|by rewrite delete_id].
    split; cbn [zs_zsl zs_dict]; [done|done| |done]. by rewrite Hm', delete_id.
Qed.

(** The rank of an element, from either end. *)
Lemma zsetRank_spec zs A x B (reverse : bool) :
  zset_ok zs (A ++ x :: B) -> Z.of_nat (length (A ++ x :: B)) <= INT_MAX ->
  exists zs', zsetRank zs (sel x) reverse = Some (zs', Z.of_nat (length (if reverse then B else A))) /\ zset_ok zs' (A ++ x :: B).
Proof.
  intros Hok Hmax. pose proof (zlist_elements _ _ (zo_list _ _ Hok)) as Hnd.
  destruct (find_element zs _ (sel x) Hok) as (d & de & Hf & Hok' & Hde). unfold zsetRank. rewrite Hf. cbn [mbind option_bind].
  destruct de as [p|]; [|destruct Hde as [Hde _]; exfalso; apply Hde; rewrite fmap_app; set_solver].
  destruct Hde as (_ & A2 & y & B2 & _ & _ & _ & Hes & Hsc). cbn [zs_zsl]. rewrite Hes. cbn [mbind option_bind].
  apply (view_lookup ssc) in Hsc as (z & Hz & Hze & <-); [|done].
  assert (z = x) as ->.
  { apply list_elem_of_lookup in Hz as [i Hi]. assert ((A ++ x :: B) !! length A = Some x) as Hx by (by apply list_lookup_middle).
    assert ((sel <$> A ++ x :: B) !! i = Some (sel x)) as H1 by (by rewrite list_lookup_fmap, Hi, <- Hze).
    assert ((sel <$> A ++ x :: B) !! length A = Some (sel x)) as H2 by (by rewrite list_lookup_fmap, Hx).
    pose proof (NoDup_lookup _ _ _ _ Hnd H1 H2) as ->. congruence. }
  pose proof (zo_list _ _ Hok') as Hl. cbn [zs_zsl] in Hl. pose proof (zo_room _ _ Hok) as Hroom.
  pose proof (zs_numbers _ (zl_sorted _ _ Hl)) as Hnum. rewrite Forall_app, Forall_cons in Hnum. destruct Hnum as (_ & Hnx & _).
  rewrite (zslGetRank_found (zs_zsl zs) A x B (ssc x) Hl ltac:(lia) Hnx (deqb_refl _ Hnx)). cbn [mbind option_bind].
  destruct (Z.eqb_spec (Z.of_nat (S (length A))) 0); [lia|]. eexists. split; [|done]. do 2 f_equal.
  unfold zsetLength. rewrite (zr_length _ _ (zl_rep _ _ Hl)). rewrite length_app in *. cbn [length] in *.
  rewrite to_int_id, to_uint_id by clia. destruct reverse; rewrite to_llong_id; clia.
Qed.

Lemma zsetRank_absent zs l ele reverse :
  zset_ok zs l -> ele ∉ sel <$> l -> exists zs', zsetRank zs ele reverse = Some (zs', -1) /\ zset_ok zs' l.
Proof.
  intros Hok Hnew. destruct (find_element zs _ ele Hok) as (d & de & Hf & Hok' & Hde). unfold zsetRank. rewrite Hf. cbn [mbind option_bind].
  destruct de as [p|]; [|by eexists]. destruct Hde as (_ & A & x & B & -> & <- & _). exfalso. apply Hnew. rewrite fmap_app. set_solver.
Qed.

(** ** Deleting ranges *)

Definition shows (n : zskiplistNode) y : Prop := exists b k, frozen n = (Some (sel y), ssc y, b, k).

(** One node with its entry. *)
Lemma delete_one zsl A x B ups d :
  zlist zsl (A ++ x :: B) -> Z.of_nat (length (A ++ x :: B)) < 4294967296 -> ncuts (hd_node (header zsl) :: A) ups (sl_level zsl) ->
  dict_ok hashKey d -> dict_map d = zs_index (A ++ x :: B) ->
  exists zsl' n d' b, zslDeleteNode zsl (sid x) ups = Some zsl' /\ sl_heap zsl' !! sid x = Some n /\ zn_ele n = Some (sel x) /\
    Dict.dictDelete hashKey d (sel x) = Some (d', b) /\ zlist (free_node zsl' (sid x)) (A ++ B) /\
    ncuts (hd_node (header zsl') :: A) ups (sl_level zsl') /\ dict_ok hashKey d' /\ dict_map d' = zs_index (A ++ B).
Proof.
  intros [Hz Hs Ht] Hlen Hcut Hd Hm.
  destruct (zslDeleteNode_spec zsl A B x ups Hz Hlen Hcut) as (zsl' & Hdel & Hz' & Ht' & Hh' & Hlev & Hst).
  pose proof (zr_nodes _ _ Hz A x B eq_refl) as Hx. rewrite <- Hst in Hx. destruct (static_some _ _ _ Hx) as [n Hn].
  unfold static in Hx. rewrite Hn in Hx. injection Hx as Hele _ _ _.
  destruct (DictMap.dictDelete_spec hashKey d (sel x) Hd) as (d' & Hdd & Hd' & Hm').
  exists zsl', n, d', (bool_decide (is_Some (dict_map d !! sel x))). split_and!; [done..| | |done|].
  - split; [|by eapply zsorted_delete|done]. pose proof (zr_nodup _ _ Hz) as Hnd. apply NoDup_cons in Hnd as [Hhx Hnd].
    rewrite <- Permutation_middle, fmap_cons in Hnd. apply NoDup_cons in Hnd as [Hid _].
    apply free_zrep; [done| |done]. rewrite Hh'. intros Hq. apply Hhx. rewrite <- Hq, fmap_app. set_solver.
  - rewrite Hh'. intros i Hi. apply Hcut. lia.
  - rewrite Hm', Hm. unfold zs_index. rewrite <- (view_delete sid A B x); [done|]. apply (zs_elements _ Hs).
Qed.

Lemma delete_nodes_spec cond M B :
  forall fuel zsl A ups d r,
  zlist zsl (A ++ M ++ B) -> Z.of_nat (length (A ++ M ++ B)) < 4294967296 -> ncuts (hd_node (header zsl) :: A) ups (sl_level zsl) ->
  dict_ok hashKey d -> dict_map d = zs_index (A ++ M ++ B) ->
  (forall i y n, M !! i = Some y -> shows n y -> cond (r + Z.of_nat i) n = Some true) ->
  (forall y n, head B = Some y -> shows n y -> cond (r + Z.of_nat (length M)) n = Some false) ->
  (length M < fuel)%nat -> 0 <= r -> r + Z.of_nat (length M) <= 4294967296 ->
  exists zsl' d', delete_nodes fuel cond zsl ups d (forward (nxt 0 (M ++ B))) r = Some (zsl', d', r + Z.of_nat (length M)) /\
    zlist zsl' (A ++ B) /\ dict_ok hashKey d' /\ dict_map d' = zs_index (A ++ B).
Proof.
  induction M as [|x M IH]; intros fuel zsl A ups d r Hl Hlen Hcut Hd Hm HM HB Hf Hr Hmax.
  - destruct fuel as [|fuel]; [cbn in Hf; lia|]. cbn [app length] in *. rewrite Z.add_0_r in *. exists zsl, d. split_and!; [|done..].
    destruct B as [|y B]; [done|]. pose proof (zr_heights _ _ (zl_rep _ _ Hl)) as Hh. rewrite Forall_app, Forall_cons in Hh.
    cbn [nxt]. rewrite decide_True by lia. cbn [forward delete_nodes].
    destruct (node_of _ _ (zl_rep _ _ Hl) A y B eq_refl) as (n & -> & Hfr). cbn [mbind option_bind].
    rewrite (HB y n eq_refl) by (by eexists _, _). done.
  - destruct fuel as [|fuel]; [lia|]. cbn [app length] in *.
    pose proof (zr_heights _ _ (zl_rep _ _ Hl)) as Hh. rewrite Forall_app, Forall_cons in Hh. pose proof (zr_level _ _ (zl_rep _ _ Hl)) as Hlev.
    cbn [nxt]. rewrite decide_True by lia. cbn [forward delete_nodes].
    destruct (node_of _ _ (zl_rep _ _ Hl) A x (M ++ B) eq_refl) as (n & -> & Hfr). cbn [mbind option_bind].
    pose proof (HM 0%nat x n eq_refl ltac:(by eexists _, _)) as Hc0. rewrite Z.add_0_r in Hc0. rewrite Hc0. cbn [mbind option_bind negb].
    rewrite (link_of _ _ (zl_rep _ _ Hl) (hd_node (header zsl) :: A) x (M ++ B) 0 eq_refl) by lia. cbn [mbind option_bind].
    destruct (delete_one zsl A x (M ++ B) ups d Hl Hlen Hcut Hd Hm) as (zsl' & n' & d' & b & -> & Hn' & He & Hdd & Hl' & Hcut' & Hd' & Hm').
    cbn [mbind option_bind]. rewrite Hn'. cbn [mbind option_bind]. rewrite He. cbn [mbind option_bind]. rewrite Hdd. cbn [mbind option_bind].
    rewrite to_ullong_id by clia. replace (r + Z.of_nat (S (length M))) with (r + 1 + Z.of_nat (length M)) by lia.
    apply IH; try done; try lia.
    + rewrite length_app in *. cbn [length] in Hlen. lia.
    + intros i y n0 Hi Hn0. replace (r + 1 + Z.of_nat i) with (r + Z.of_nat (S i)) by lia. by apply (HM (S i) y).
    + intros y n0 Hy Hn0. replace (r + 1 + Z.of_nat (length M)) with (r + Z.of_nat (S (length M))) by lia. by apply (HB y).
Qed.

Lemma delete_from_spec zsl A M B ups d cond :
  zlist zsl (A ++ M ++ B) -> Z.of_nat (length (A ++ M ++ B)) < 4294967296 -> ncuts (hd_node (header zsl) :: A) ups (sl_level zsl) ->
  dict_ok hashKey d -> dict_map d = zs_index (A ++ M ++ B) ->
  (forall i y n, M !! i = Some y -> shows n y -> cond (Z.of_nat i) n = Some true) ->
  (forall y n, head B = Some y -> shows n y -> cond (Z.of_nat (length M)) n = Some false) ->
  exists zsl' d', delete_from zsl ups cond d = Some (zsl', d', Z.of_nat (length M)) /\
    zlist zsl' (A ++ B) /\ dict_ok hashKey d' /\ dict_map d' = zs_index (A ++ B).
Proof.
  intros Hl Hlen Hcut Hd Hm HM HB. unfold delete_from. pose proof (zl_rep _ _ Hl) as Hz. pose proof (zr_level _ _ Hz) as Hlev.
  destruct (Hcut 0%nat ltac:(lia)) as (u & S1 & -> & Hc0). cbn [mbind option_bind]. pose proof Hc0 as (A1 & x & HA1 & Hx & _ & Hid).
  destruct (cut_zero zsl _ A (M ++ B) u S1 Hz eq_refl Hc0) as [-> _]. rewrite Hid.
  rewrite (link_of zsl _ Hz A1 x (M ++ B) 0) by (done || lia || by rewrite app_comm_cons, HA1, <- app_assoc). cbn [mbind option_bind].
  apply (delete_nodes_spec cond M B); try done; try lia.
  - unfold zsl_fuel. rewrite (zr_length _ _ Hz), !length_app. lia.
  - rewrite !length_app in Hlen. lia.
Qed.

(** Walking while out of the interval and deleting while in it. *)
Lemma delete_interval zsl (c lte : zskiplistNode -> option bool) (above below : snode -> bool) l d :
  (forall n y bk k, frozen n = (Some (sel y), ssc y, bk, k) -> y ∈ l -> c n = Some (negb (above y))) ->
  (forall n y bk k, frozen n = (Some (sel y), ssc y, bk, k) -> lte n = Some (below y)) ->
  (forall x y, x ∈ l -> y ∈ l -> slt x y -> above x = true -> above y = true) ->
  (forall x y, x ∈ l -> y ∈ l -> slt x y -> below y = true -> below x = true) ->
  zlist zsl l -> Z.of_nat (length l) < 4294967296 -> dict_ok hashKey d -> dict_map d = zs_index l ->
  exists zsl' d', (update ← update_path zsl c; delete_from zsl update (fun _ n => lte n) d) =
      Some (zsl', d', Z.of_nat (length (filter (fun y => inside above below y = true) l))) /\
    let l' := filter (fun y => negb (inside above below y) = true) l in
    zlist zsl' l' /\ dict_ok hashKey d' /\ dict_map d' = zs_index l'.
Proof.
  intros Hc Hlte Hup Hdown Hl Hlen Hd Hm.
  destruct (split_interval above below l Hup Hdown (zl_sorted _ _ Hl)) as (A & M & B & Hl0 & HA & HMB & HM & HB & -> & ->).
  rewrite Hl0 in Hc, Hl, Hlen, Hm. clear Hup Hdown Hl0. rewrite Forall_forall in HA, HMB, HM.
  destruct (descend_spec zsl (A ++ M ++ B) (hd_node (header zsl) :: A) (M ++ B) (zl_rep _ _ Hl) eq_refl (fun (_ : unit) _ n => c n) (fun u _ => u) (fun _ _ => True))
    with (fuel := zsl_fuel zsl) (i := sl_level zsl) (A1 := @nil snode) (x := hd_node (header zsl)) (S1 := A) (a := tt) (ups := @nil (nat * unit))
    as (res & Hres & _ & Hcut); try done.
  { intros A1 x S1 y S2 t n HA1 _ Hn. destruct (tail_split zsl (A ++ M ++ B) A1 x S1 y (S2 ++ M ++ B)) as [A2 HA2].
    { by rewrite app_comm_cons, HA1, <- app_assoc, <- app_comm_cons, <- app_assoc. }
    destruct (node_of zsl _ (zl_rep _ _ Hl) A2 y _ HA2) as (n' & Hn' & Hf). rewrite Hn in Hn'. injection Hn' as <-.
    assert (y ∈ A) as Hy by (destruct A1 as [|? A1]; cbn in HA1; injection HA1 as _ ->; set_solver).
    rewrite (Hc _ _ _ _ Hf) by set_solver. by rewrite (HA y Hy). }
  { intros A1 x S1 S2 y S3 t n _ HS _ Hn. destruct (node_of zsl _ (zl_rep _ _ Hl) (A ++ S2) y S3) as (n' & Hn' & Hf); [by rewrite HS, <- app_assoc|].
    rewrite Hn in Hn'. injection Hn' as <-. assert (y ∈ M ++ B) as Hy by (rewrite HS; set_solver).
    rewrite (Hc _ _ _ _ Hf) by set_solver. by rewrite (HMB y Hy). }
  { apply (zr_level _ _ (zl_rep _ _ Hl)). }
  { unfold zsl_fuel. rewrite (zr_length _ _ (zl_rep _ _ Hl)). lia. }
  rewrite app_nil_r in Hres. cbn [hd_node sid] in Hres. unfold update_path. rewrite Hres. cbn [mbind option_bind]. apply delete_from_spec; [done..|by apply ncuts_of|done|done| |].
  - intros i y n Hi (bk & k & Hf). rewrite (Hlte _ _ _ _ Hf), (HM y); [done|]. by eapply list_elem_of_lookup_2.
  - intros y n Hy (bk & k & Hf). rewrite (Hlte _ _ _ _ Hf). destruct B as [|z B]; [done|]. injection Hy as ->.
    by apply Forall_cons in HB as [-> _].
Qed.

(** The condition of the walk is the negation of [zslValueGteMin]. *)
Lemma not_above (range : zrangespec) y :
  isnan (rmin range) = false -> is_number y ->
  (if minex range then dleb (ssc y) (rmin range) else dltb (ssc y) (rmin range)) = negb (above range y).
Proof.
  intros Hmin Hy. apply eq_true_iff_eq. rewrite negb_true_iff, <- not_true_iff_false, above_key by done.
  destruct (dkey (rmin range)) as [[a b] c] eqn:E1, (dkey (ssc y)) as [[a' b'] c'] eqn:E2.
  destruct (minex range); [rewrite dleb_key by done|rewrite dltb_key by done]; rewrite E1, E2; unfold key_lt; cbn; rewrite !triple_eq;
    intuition (discriminate || lia).
Qed.

Lemma zslDeleteRangeByScore_spec zsl l (range : zrangespec) d :
  zlist zsl l -> Z.of_nat (length l) < 4294967296 -> dict_ok hashKey d -> dict_map d = zs_index l ->
  isnan (rmin range) = false -> isnan (rmax range) = false ->
  exists zsl' d', zslDeleteRangeByScore zsl range d = Some (zsl', d', Z.of_nat (length (filter (fun y => in_range range y = true) l))) /\
    let l' := filter (fun y => negb (in_range range y) = true) l in
    zlist zsl' l' /\ dict_ok hashKey d' /\ dict_map d' = zs_index l'.
Proof.
  intros Hl Hlen Hd Hm Hmin Hmax. pose proof (zl_sorted _ _ Hl) as Hs. pose proof (zs_numbers _ Hs) as Hnum. rewrite Forall_forall in Hnum.
  apply (delete_interval zsl _ (lte_score range)); try done; [|apply lte_below|by apply above_mono|by apply below_mono].
  intros n y bk k Hf Hy. injection Hf as _ Hsc _ _. by rewrite Hsc, not_above by auto.
Qed.

(** When all scores are equal. *)
Lemma zslDeleteRangeByLex_spec zsl l (range : zlexrangespec) d :
  zlist zsl l -> Z.of_nat (length l) < 4294967296 -> dict_ok hashKey d -> dict_map d = zs_index l -> same_score l ->
  exists zsl' d', zslDeleteRangeByLex zsl range d = Some (zsl', d', Z.of_nat (length (filter (fun y => in_lex range y = true) l))) /\
    let l' := filter (fun y => negb (in_lex range y) = true) l in
    zlist zsl' l' /\ dict_ok hashKey d' /\ dict_map d' = zs_index l'.
Proof.
  intros Hl Hlen Hd Hm Hsame. pose proof (zl_sorted _ _ Hl) as Hs.
  apply (delete_interval zsl _ (lte_lex range)); try done; [|apply lte_lex_below|by apply lex_above_mono|by apply lex_below_mono].
  intros n y bk k Hf _. by rewrite (gte_lex_above _ _ _ _ _ Hf).
Qed.

(** The walk to a rank. *)
Lemma find_rank zsl A B start :
  zrep zsl (A ++ B) -> Z.of_nat (length (A ++ B)) < 4294967296 ->
  (start = Z.of_nat (length A) + 1 \/ (B = [] /\ Z.of_nat (length A) < start)) ->
  exists res u0, descend (fun traversed (v : zskiplistLevel) (_ : zskiplistNode) => Some (to_ullong (traversed + span v) <? start)) count_span
      (sl_heap zsl) (zsl_fuel zsl) (sl_level zsl) (header zsl) 0 [] = Some res /\
    res !! 0%nat = Some u0 /\ u0.2 = Z.of_nat (length A) /\ ncuts (hd_node (header zsl) :: A) res.*1 (sl_level zsl).
Proof.
  intros Hz Hlen Hst. pose proof (zr_level _ _ Hz) as Hlev.
  assert (forall C w D, hd_node (header zsl) :: A = C ++ w :: D -> length C + length D = length A)%nat as Hpos.
  { intros C w D Hl. assert (length (hd_node (header zsl) :: A) = length (C ++ w :: D)) as Hc by (by rewrite Hl).
    rewrite length_app in Hc. cbn [length] in Hc. lia. }
  destruct (descend_spec zsl (A ++ B) (hd_node (header zsl) :: A) B Hz eq_refl
    (fun t v _ => Some (to_ullong (t + span v) <? start)) count_span (fun a p => a = Z.of_nat p))
    with (fuel := zsl_fuel zsl) (i := sl_level zsl) (A1 := @nil snode) (x := hd_node (header zsl)) (S1 := A) (a := 0) (ups := @nil (nat * Z))
    as (res & Hres & Hl & Hr); try done.
  { intros a p k v Ha Hv Hk. by eapply count_span_ok. }
  { intros C w D z E a n HC -> _. cbn [span]. f_equal. apply Z.ltb_lt. specialize (Hpos _ _ _ HC). rewrite length_app in Hpos, Hlen. cbn [length] in Hpos.
    rewrite to_ullong_id by clia. lia. }
  { intros C w D D2 z E a n HC HB -> _. cbn [span]. f_equal. apply Z.ltb_ge. specialize (Hpos _ _ _ HC).
    destruct Hst as [Hst|[HBn _]]; [|by rewrite HBn in HB; destruct D2]. rewrite HB in Hlen. rewrite !length_app in *. cbn [length] in *.
    rewrite to_ullong_id by clia. lia. }
  { cbn. lia. }
  { unfold zsl_fuel. rewrite (zr_length _ _ Hz), length_app. lia. }
  destruct (Hr 0%nat ltac:(lia)) as (u0 & Hu0 & A1 & x & S1 & HA1 & Hx & Hs & Hid & Hu).
  rewrite app_nil_r in Hres. exists res, u0. split_and!; [done|done| |].
  - destruct (cut_zero zsl (A ++ B) A B u0.1 S1 Hz eq_refl) as [-> _]; [by exists A1, x|]. rewrite Hu. specialize (Hpos _ _ _ HA1). cbn in Hpos. lia.
  - intros i Hi. destruct (Hr i Hi) as (r & Hri & A2 & y & S2 & HA2 & Hy & Hs2 & Hid2 & _). exists r.1, S2. split; [|by exists A2, y].
    by rewrite list_lookup_fmap, Hri.
Qed.

Lemma zslDeleteRangeByRank_spec zsl A M B (start last : Z) d :
  let l := A ++ M ++ B in
  zlist zsl l -> Z.of_nat (length l) < 4294967296 -> dict_ok hashKey d -> dict_map d = zs_index l ->
  1 <= start -> A = take (Z.to_nat (start - 1)) l -> M = take (Z.to_nat (last - start + 1)) (drop (Z.to_nat (start - 1)) l) ->
  exists zsl' d', zslDeleteRangeByRank zsl start last d = Some (zsl', d', Z.of_nat (length M)) /\
    zlist zsl' (A ++ B) /\ dict_ok hashKey d' /\ dict_map d' = zs_index (A ++ B).
Proof.
  intros l Hl Hlen Hd Hm Hst HA HM.
  assert (length A = Nat.min (Z.to_nat (start - 1)) (length l)) as HlA by (by rewrite HA at 1; rewrite length_take).
  assert (length M = Nat.min (Z.to_nat (last - start + 1)) (length l - Z.to_nat (start - 1))) as HlM by (by rewrite HM at 1; rewrite length_take, length_drop).
  assert (length l = length A + length M + length B)%nat as Hll by (unfold l; rewrite !length_app; lia).
  destruct (find_rank zsl A (M ++ B) start (zl_rep _ _ Hl) Hlen) as (res & u0 & Hres & Hu0 & Hu & Hcut).
  { destruct (decide (Z.to_nat (start - 1) < length l)%nat); [left; lia|].
    destruct (decide (start = Z.of_nat (length A) + 1)); [by left|]. right. split; [|lia]. apply nil_length_inv. rewrite length_app. lia. }
  unfold zslDeleteRangeByRank. rewrite Hres. cbn [mbind option_bind]. rewrite Hu0. cbn [mbind option_bind]. rewrite Hu.
  apply delete_from_spec; try done.
  - intros i y n Hi _. apply lookup_lt_Some in Hi. rewrite (to_ullong_id (Z.of_nat (length A) + 1)) by clia. rewrite to_ullong_id by clia. f_equal. apply Z.leb_le. lia.
  - intros y n Hy _. destruct B as [|z B]; [done|]. cbn [length] in Hll. rewrite (to_ullong_id (Z.of_nat (length A) + 1)) by clia.
    rewrite to_ullong_id by clia. f_equal. apply Z.leb_gt. lia.
Qed.

(** On the object. *)
Lemma zset_delete_scores zs l (range : zrangespec) :
  zset_ok zs l -> isnan (rmin range) = false -> isnan (rmax range) = false ->
  exists zsl' d', zslDeleteRangeByScore (zs_zsl zs) range (zs_dict zs) =
      Some (zsl', d', Z.of_nat (length (filter (fun y => in_range range y = true) l))) /\
    zset_ok (mkZset d' zsl') (filter (fun y => negb (in_range range y) = true) l).
Proof.
  intros [Hl Hd Hi Hr] Hmin Hmax.
  destruct (zslDeleteRangeByScore_spec (zs_zsl zs) l range (zs_dict zs) Hl ltac:(lia) Hd Hi Hmin Hmax) as (zsl' & d' & Hdel & Hl' & Hd' & Hi').
  exists zsl', d'. split; [done|]. split; [done..|]. pose proof (length_filter (fun y => negb (in_range range y) = true) l). lia.
Qed.

Lemma zset_delete_ranks zs l (start : nat) (stop : Z) :
  zset_ok zs l -> Z.of_nat start <= stop ->
  exists zsl' d', zslDeleteRangeByRank (zs_zsl zs) (Z.of_nat start + 1) stop (zs_dict zs) =
      Some (zsl', d', Z.of_nat (length (take (Z.to_nat stop - start) (drop start l)))) /\
    zset_ok (mkZset d' zsl') (take start l ++ drop (Z.to_nat stop) l).
Proof.
  intros [Hl Hd Hi Hr] Hstop.
  assert (take start l ++ take (Z.to_nat stop - start) (drop start l) ++ drop (Z.to_nat stop) l = l) as Hsplit.
  { replace (Z.to_nat stop) with (start + (Z.to_nat stop - start))%nat at 2 by lia. by rewrite <- drop_drop, !take_drop. }
  destruct (zslDeleteRangeByRank_spec (zs_zsl zs) (take start l) (take (Z.to_nat stop - start) (drop start l)) (drop (Z.to_nat stop) l)
    (Z.of_nat start + 1) stop (zs_dict zs)) as (zsl' & d' & Hdel & Hl' & Hd' & Hi'); rewrite ?Hsplit; try done; try lia.
  { by replace (Z.to_nat (Z.of_nat start + 1 - 1)) with start by lia. }
  { replace (Z.to_nat (Z.of_nat start + 1 - 1)) with start by lia. by replace (Z.to_nat (stop - (Z.of_nat start + 1) + 1)) with (Z.to_nat stop - start)%nat by lia. }
  exists zsl', d'. split; [done|]. split; [done..|]. rewrite length_app, length_take, length_drop. lia.
Qed.
End Zset.
