(* ===== verification/ZsetHistory.v ===== *)
(** * Histories of a sorted set ([t_zset.c], [object.c])

    Any sequence of additions, deletions and reads of a new sorted set object goes
    through without a failed assertion or a bad pointer and leaves the object in
    step with the scores; the end of its list is the greatest member, and the
    level of a new node is within bounds whatever [random] returns. *)
From Stdlib Require Import ZArith Lia Ascii String.
From S2P Require Import Dict DictMap.
From stdpp Require Import functions base numbers strings gmap sets list sorting.
From S2P Require Import Prelude Sds Double DoubleOrder Zset Skiplist SkiplistRep SkiplistSorted SkiplistQuery SkiplistLex ZsetObj.
Open Scope Z_scope.

(** ** The level of a new node *)

Definition promoted (r : Z) : bool := 4 * Z.land r 65535 <? 65535.

Lemma random_loop_spec draws r rest level :
  Forall (fun r => promoted r = true) draws -> promoted r = false ->
  random_loop level (draws ++ r :: rest) = Some (level + Z.of_nat (length draws)).
Proof.
  intros Hd Hr. revert level. induction Hd as [|x draws Hx _ IH]; intros level; cbn [app random_loop length].
  - unfold promoted in Hr. rewrite Hr. f_equal. lia.
  - unfold promoted in Hx. rewrite Hx, IH. f_equal. lia.
Qed.

Lemma zslRandomLevel_spec draws r rest :
  Forall (fun r => promoted r = true) draws -> promoted r = false ->
  zslRandomLevel (draws ++ r :: rest) = Some (Nat.min (S (length draws)) ZSKIPLIST_MAXLEVEL).
Proof.
  intros Hd Hr. unfold zslRandomLevel. rewrite random_loop_spec by done. cbn [mbind option_bind]. f_equal. case (Z.ltb_spec); lia.
Qed.

Lemma zslRandomLevel_bounds draws level : zslRandomLevel draws = Some level -> (1 <= level <= ZSKIPLIST_MAXLEVEL)%nat.
Proof.
  unfold zslRandomLevel. destruct (random_loop 1 draws) as [v|] eqn:Hv; [|done]. cbn [mbind option_bind]. intros [= <-].
  assert (forall k, random_loop k draws = Some v -> k <= v) as Hge.
  { clear Hv. induction draws as [|r draws IH]; intros k; cbn [random_loop]; [done|]. destruct (_ <? _); [intros Hk%IH; lia|by intros [= ->]]. }
  specialize (Hge 1 Hv). unfold ZSKIPLIST_MAXLEVEL. case (Z.ltb_spec); lia.
Qed.

(** ** The greatest member *)

Implicit Types (z : gmap sds double) (a b : sds * double).

Definition better (acc : option (sds * double)) b : option (sds * double) :=
  match acc with None => Some b | Some a => if zset_lt a b then Some b else acc end.

Definition asnode a : snode := mkSn 0 a.1 a.2 0.

Lemma zset_lt_node a b : zset_lt a b = sbefore b.2 b.1 (asnode a).
Proof. done. Qed.

(** At least as great as another. *)
Definition upto a b : Prop := a = b \/ zset_lt a b = true.

Lemma upto_trans a b c :
  isnan a.2 = false -> isnan b.2 = false -> isnan c.2 = false -> upto a b -> upto b c -> upto a c.
Proof.
  intros Ha Hb Hc [->|H1]; [done|]. intros [<-|H2]; [by right|]. right. rewrite zset_lt_node in *.
  by apply (sbefore_trans c.2 c.1 (asnode a) (asnode b)).
Qed.

Lemma upto_total a b : isnan a.2 = false -> isnan b.2 = false -> a.1 <> b.1 -> zset_lt a b = false -> upto b a.
Proof. intros Ha Hb Hne Hlt. right. rewrite zset_lt_node in *. by apply (sbefore_total b.2 b.1 (asnode a)). Qed.

Lemma greatest_of (es : list (sds * double)) acc :
  Forall (fun b => isnan b.2 = false) (acc :: es) -> NoDup ((acc :: es).*1) ->
  exists a, foldl better (Some acc) es = Some a /\ a ∈ acc :: es /\ Forall (fun b => upto b a) (acc :: es).
Proof.
  revert acc. induction es as [|e es IH]; intros acc Hn Hnd.
  { exists acc. split_and!; [done|left|]. constructor; [by left|constructor]. }
  cbn [foldl better]. apply Forall_cons in Hn as [Hacc Hn]. pose proof Hn as [He Hes]%Forall_cons.
  rewrite !fmap_cons in Hnd. apply NoDup_cons in Hnd as [Hin Hnd]. pose proof Hnd as [Hin2 Hnd2]%NoDup_cons.
  assert (acc.1 <> e.1) as Hne by set_solver.
  destruct (zset_lt acc e) eqn:Hlt.
  - destruct (IH e) as (a & -> & Ha & Hall); [done..|]. exists a. split_and!; [done|set_solver|]. constructor; [|done].
    pose proof Hall as [Hea _]%Forall_cons. apply (upto_trans acc e a); [done|done| |by right|done]. rewrite Forall_forall in Hn. by apply Hn.
  - destruct (IH acc) as (a & -> & Ha & Hall); [by constructor|rewrite fmap_cons; constructor; set_solver|]. exists a. split_and!; [done|set_solver|].
    apply Forall_cons in Hall as [Haa Hall]. constructor; [done|]. constructor; [|done].
    apply (upto_trans e acc a); [done|done| |by apply upto_total|done]. apply elem_of_cons in Ha as [->|Ha]; [done|]. rewrite Forall_forall in Hes. by apply Hes.
Qed.

Lemma zset_last_spec l : zsorted l -> zset_last (zs_scores l) = (fun x => (sel x, ssc x)) <$> last l.
Proof.
  intros [Hs Hn Hd]. unfold zset_last. change (foldl _ None) with (foldl better None).
  assert (map_to_list (zs_scores l) ≡ₚ (fun x => (sel x, ssc x)) <$> l) as Hp by (apply map_to_list_to_map; by rewrite view_keys).
  assert (Forall (fun b => isnan b.2 = false) (map_to_list (zs_scores l))) as Hnum.
  { rewrite Hp. apply Forall_fmap. done. }
  pose proof (NoDup_fst_map_to_list (zs_scores l)) as Hnd. destruct l as [|x A _] using rev_ind.
  { apply Permutation_nil_r in Hp. by rewrite Hp. }
  rewrite last_snoc. destruct (map_to_list _) as [|e es]; [apply Permutation_nil_l in Hp; by destruct A|].
  destruct (greatest_of es e Hnum Hnd) as (a & Hf & Ha & Hall). cbn [foldl better]. rewrite Hf. cbn. f_equal.
  rewrite Hp in Ha, Hall. rewrite Forall_forall in Hall. specialize (Hall (sel x, ssc x)) as Hx. destruct Hx as [Hx|Hx]; [|done|].
  { rewrite fmap_app. set_solver. }
  rewrite fmap_app, elem_of_app in Ha. destruct Ha as [(y & -> & Hy)%list_elem_of_fmap|Ha]; [|by apply list_elem_of_singleton in Ha].
  exfalso. apply StronglySorted_app in Hs as (Hlast & _ & _). specialize (Hlast y x Hy ltac:(left)). rewrite Forall_app, Forall_singleton, Forall_forall in Hn.
  destruct Hn as [Hn Hnx]. apply (slt_irrefl x Hnx). by apply (sbefore_trans (ssc x) (sel x) x y); auto.
Qed.

(** ** Sequences of operations *)

Section History.
Context (hashKey : sds -> Z) (dict_can_resize : bool).

Inductive zop :=
| ZopAdd (score : double) (ele : sds) (flags : Z) (level : nat)
| ZopDel (ele : sds)
| ZopScore (ele : sds)
| ZopRank (ele : sds) (reverse : bool).

Definition zop_ok (o : zop) : Prop := match o with ZopAdd _ _ _ level => (1 <= level <= ZSKIPLIST_MAXLEVEL)%nat | _ => True end.

Definition zrun_op (zs : zset) (o : zop) : option zset :=
  match o with
  | ZopAdd score ele flags level => '(zs, _, _, _) ← zsetAdd hashKey dict_can_resize zs score ele flags level; Some zs
  | ZopDel ele => '(zs, _) ← zsetDel hashKey dict_can_resize zs ele; Some zs
  | ZopScore ele => '(zs, _) ← zsetScore hashKey zs ele; Some zs
  | ZopRank ele reverse => '(zs, _) ← zsetRank hashKey zs ele reverse; Some zs
  end.

Fixpoint zrun (zs : zset) (os : list zop) : option zset :=
  match os with
  | [] => Some zs
  | o :: os => zs ← zrun_op zs o; zrun zs os
  end.

(** The same on the scores. *)
Definition zop_scores (z : gmap sds double) (o : zop) : gmap sds double :=
  match o with
  | ZopAdd score ele flags _ => (zadd_scores z score ele flags).1.1.1
  | ZopDel ele => base.delete ele z
  | _ => z
  end.

Lemma zadd_scores_size z score ele flags : (size (zadd_scores z score ele flags).1.1.1 <= S (size z))%nat.
Proof.
  assert (forall v, size (<[ele := v]> z) <= S (size z))%nat as Hi by (intros v; rewrite map_size_insert; destruct (z !! ele); cbn; lia).
  unfold zadd_scores. repeat (case_match; cbn [fst]); auto with lia.
Qed.

Lemma scores_size l : NoDup (sel <$> l) -> size (zs_scores l) = length l.
Proof. intros Hnd. unfold zs_scores. rewrite map_size_list_to_map by (by rewrite view_keys). by rewrite length_fmap. Qed.

Lemma zrun_op_spec zs l o :
  zset_ok hashKey zs l -> Z.of_nat (length l) < INT_MAX -> zop_ok o ->
  exists zs' l', zrun_op zs o = Some zs' /\ zset_ok hashKey zs' l' /\ zs_scores l' = zop_scores (zs_scores l) o.
Proof.
  intros Hok Hlen Ho. pose proof (zlist_elements _ _ (zo_list _ _ _ Hok)) as Hnd. destruct o as [score ele flags level|ele|ele|ele rv]; cbn [zrun_op zop_scores].
  - destruct (zsetAdd_spec hashKey dict_can_resize zs l score ele flags level Hok ltac:(clia) Ho) as (zs' & l' & r & f & ns & -> & Hok' & ->).
    by exists zs', l'.
  - destruct (zsetDel_spec hashKey dict_can_resize zs l ele Hok) as (zs' & l' & -> & Hok' & Hs). by exists zs', l'.
  - destruct (zsetScore_spec hashKey zs l ele Hok) as (zs' & -> & Hok'). by exists zs', l.
  - destruct (decide (ele ∈ sel <$> l)) as [(x & -> & (A & B & ->)%list_elem_of_split)%list_elem_of_fmap|Hnew].
    + destruct (zsetRank_spec hashKey zs A x B rv Hok ltac:(lia)) as (zs' & -> & Hok'). by eexists zs', _.
    + destruct (zsetRank_absent hashKey zs l ele rv Hok Hnew) as (zs' & -> & Hok'). by exists zs', l.
Qed.

Lemma zrun_spec os :
  forall zs l, zset_ok hashKey zs l -> Z.of_nat (length l) + Z.of_nat (length os) < INT_MAX -> Forall zop_ok os ->
  exists zs' l', zrun zs os = Some zs' /\ zset_ok hashKey zs' l' /\ zs_scores l' = foldl zop_scores (zs_scores l) os.
Proof.
  induction os as [|o os IH]; intros zs l Hok Hlen Hos; [by exists zs, l|]. apply Forall_cons in Hos as [Ho Hos]. cbn [length] in Hlen.
  destruct (zrun_op_spec zs l o Hok ltac:(lia) Ho) as (zs' & l' & Hr & Hok' & Hs). cbn [zrun foldl]. rewrite Hr, <- Hs. apply IH; [done| |done].
  assert (length l' <= S (length l))%nat; [|lia].
  rewrite <- !scores_size, Hs by (eapply zlist_elements, zo_list; eassumption).
  destruct o; cbn [zop_scores]; [apply zadd_scores_size|rewrite map_size_delete; destruct (_ !! _); cbn; lia|lia|lia].
Qed.
End History.
