(* ===== verification/RZSet.v ===== *)
(** * The remove-win sorted set ([t_rzset.c])

    Elements of the remove-win framework that carry a score: the value given by
    the addition that won, and the sum of the increments that have seen every
    removal.  The commands, the effect of one operation on one element with the
    score shown for it, and the proof that the commands have that effect. *)
From Stdlib Require Import ZArith Lia Ascii String.
From stdpp Require Import functions base numbers strings gmap sets list.
From S2P Require Import Prelude Sds Double VectorClock LamportClock Intset SetType Server RWFramework Container RWSet Zset.
Open Scope Z_scope.

Definition RW_RPQ_TABLE_SUFFIX : sds := "_rzets_"%string.

(** ** Elements *)

Definition rze_new (s : server) : rze := mkRze (REH_INIT s) dzero dzero.
Definition rzeNew : cmd helem := gets (fun w => HRze (rze_new (srv w))).

Definition SCORE (e : rze) : double := dadd (innate e) (acquired e).

Definition rzeHTGet (tname key : sds) (create : bool) : cmd (option eref) :=
  rehHTGet tname RW_RPQ_TABLE_SUFFIX key create rzeNew.

#[global, program] Instance rze_elem : Elem rze := {
  el_suffix := RW_RPQ_TABLE_SUFFIX;
  el_inj := HRze;
  el_proj v := match v with HRze e => Some e | _ => None end;
  el_new := rze_new;
  el_ok s e := el_ok (E := reh) s (rz_header e)
}.
Solve Obligations with try done.
Next Obligation. intros s. exact (el_new_ok (E := reh) s). Qed.

#[global] Instance rze_stable : ElemStable rze.
Proof.
  split.
  - intros s s' Hc. unfold el_new. cbn. unfold rze_new. f_equal. exact (el_new_stable (E := reh) s s' Hc).
  - intros s s' e Hc. exact (el_ok_stable (E := reh) s s' (rz_header e) Hc).
Qed.

Definition read_rze (e : eref) : cmd rze := read_el e.
Definition write_rze (e : eref) (x : rze) : cmd unit := write_el e x.

(** ** Commands *)

(** The container and the element are [c->rargv[1]] and [c->rargv[2]]. *)
Definition removeFunc (e : eref) (t : vc) : cmd unit :=
  x <- read_rze e ;;
  b <- deref (removeCheck (rz_header x) t) ;;
  if b then
    write_rze e (mkRze (REH_RMV_FUNC (rz_header x) t) dzero dzero) ;;
    key <- rarg 1 ;;
    ele <- rarg 2 ;;
    zset <- getZsetOrCreate key ele ;;
    zsetDel zset ele ;;
    modify inc_dirty
  else ret tt.

(** Show the score of the element. *)
Definition show_score (e : eref) : cmd unit :=
  key <- rarg 1 ;;
  ele <- rarg 2 ;;
  zset <- getZsetOrCreate key ele ;;
  x <- read_rze e ;;
  zsetAdd zset (SCORE x) ele ;;
  modify inc_dirty.

Definition rzadd_prepare : cmd rvector :=
  b <- checkArgcAndZsetType 4 ;;
  if b then creturn
  else
    s <- arg 3 ;;
    v <- getDoubleFromObjectOrReply s ;;
    match v with
    | None => creturn
    | Some _ =>
        key <- arg 1 ;;
        ele <- arg 2 ;;
        e <- rzeHTGet key ele true ;;
        e <- deref e ;;
        x <- read_rze e ;;
        if EXISTS (rz_header x) then addReply R_ele_exist ;; creturn
        else ADD_CR_NON_RMV RVCT_PREPARE (rz_header x)
    end.

Definition rzadd_effect : cmd unit :=
  s <- rarg 3 ;;
  v <- deref (getDoubleFromObject s) ;;
  t <- CR_GET_LAST ;;
  key <- rarg 1 ;;
  ele <- rarg 2 ;;
  e <- rzeHTGet key ele true ;;
  e <- deref e ;;
  removeFunc e t ;;
  x <- read_rze e ;;
  if insertCheck (rz_header x) t then
    write_rze e (mkRze (mkReh (vc_id t) (current (rz_header x))) v (acquired x)) ;;
    show_score e
  else ret tt.

Definition rzaddCommand : cmd unit := CRDT rzadd_prepare rzadd_effect.

Definition rzincrby_prepare : cmd rvector :=
  b <- checkArgcAndZsetType 4 ;;
  if b then creturn
  else
    s <- arg 3 ;;
    v <- getDoubleFromObjectOrReply s ;;
    match v with
    | None => creturn
    | Some _ =>
        key <- arg 1 ;;
        ele <- arg 2 ;;
        e <- rzeHTGet key ele false ;;
        match e with
        | None => addReply R_ele_nexist ;; creturn
        | Some e =>
            x <- read_rze e ;;
            if negb (EXISTS (rz_header x)) then addReply R_ele_nexist ;; creturn
            else ADD_CR_NON_RMV RVCT_PREPARE (rz_header x)
        end
    end.

Definition rzincrby_effect : cmd unit :=
  s <- rarg 3 ;;
  v <- deref (getDoubleFromObject s) ;;
  t <- CR_GET_LAST ;;
  key <- rarg 1 ;;
  ele <- rarg 2 ;;
  e <- rzeHTGet key ele true ;;
  e <- deref e ;;
  removeFunc e t ;;
  x <- read_rze e ;;
  if updateCheck (rz_header x) t then
    write_rze e (mkRze (rz_header x) (innate x) (dadd (acquired x) v)) ;;
    show_score e
  else ret tt.

Definition rzincrbyCommand : cmd unit := CRDT rzincrby_prepare rzincrby_effect.

Definition rzrem_prepare : cmd rvector :=
  b <- checkArgcAndZsetType 3 ;;
  if b then creturn
  else
    key <- arg 1 ;;
    ele <- arg 2 ;;
    e <- rzeHTGet key ele false ;;
    match e with
    | None => addReply R_ele_nexist ;; creturn
    | Some e =>
        x <- read_rze e ;;
        if negb (EXISTS (rz_header x)) then addReply R_ele_nexist ;; creturn
        else ADD_CR_RMV RVCT_PREPARE (rz_header x)
    end.

Definition rzrem_effect : cmd unit :=
  key <- rarg 1 ;;
  ele <- rarg 2 ;;
  e <- rzeHTGet key ele true ;;
  t <- CR_GET_LAST ;;
  e <- deref e ;;
  removeFunc e t.

Definition rzremCommand : cmd unit := CRDT rzrem_prepare rzrem_effect.

Definition rzscoreCommand : cmd unit := zscore_reply.
Definition rzmaxCommand : cmd unit := zmax_reply.

(** ** One operation on one element *)

Inductive rzop := RzAdd (v : double) (t : vc) | RzInc (v : double) (t : vc) | RzRem (t : vc).

Definition rzop_ts (o : rzop) : vc := match o with RzAdd _ t | RzInc _ t | RzRem t => t end.

(** The element and the score shown for it. *)
Abbreviation rzst := (rze * option double)%type.

Definition rz_rem (p : rzst) (t : vc) : rzst :=
  match removeCheck (rz_header p.1) t with
  | Some true => (mkRze (REH_RMV_FUNC (rz_header p.1) t) dzero dzero, None)
  | _ => p
  end.

Definition rz_effect (p : rzst) (o : rzop) : rzst :=
  let p := rz_rem p (rzop_ts o) in
  let h := rz_header p.1 in
  match o with
  | RzAdd v t =>
      if insertCheck h t then
        let e := mkRze (mkReh (vc_id t) (current h)) v (acquired p.1) in (e, zput p.2 (SCORE e))
      else p
  | RzInc v t =>
      if updateCheck h t then
        let e := mkRze h (innate p.1) (dadd (acquired p.1) v) in (e, zput p.2 (SCORE e))
      else p
  | RzRem t => p
  end.

(** The header goes through the operations of the framework: an increment
    acts on it as a removal. *)
Definition hdr_op (o : rzop) : rwop :=
  match o with RzAdd _ t => RAdd t | RzInc _ t | RzRem t => RRem t end.

Lemma rz_rem_header p t : rz_header (rz_rem p t).1 = rem_effect (rz_header p.1) t.
Proof. unfold rz_rem, rem_effect. destruct (removeCheck _ _) as [[]|]; done. Qed.

Lemma rz_effect_header p o : rz_header (rz_effect p o).1 = rw_effect (rz_header p.1) (hdr_op o).
Proof.
  destruct o as [v t|v t|t]; cbn [rz_effect rzop_ts hdr_op rw_effect]; unfold rz_effect; cbn [rzop_ts];
    unfold add_effect; rewrite ?rz_rem_header; [by destruct (insertCheck _ _); cbn; rewrite ?rz_rem_header| |done].
  destruct (updateCheck _ _); cbn; by rewrite ?rz_rem_header.
Qed.

(** ** The commands have this effect *)

Definition rzs (w : world) (k : sds) (f : sds -> rze) (z : gmap sds double) : Prop := rep w k f z.
Abbreviation rzframe := (frame (E := rze)).
Abbreviation rzht := (htname (E := rze)).

Section Effects.
Context (k x : sds) (l : list sds).
Context (Hk : index l 1 = Some k) (Hx : index l 2 = Some x).

Lemma removeFunc_rzs w f z t :
  rzs w k f z -> has (E := rze) w k x -> rargv (cli w) = Some l -> ts_ok (srv w) t ->
  exists w', removeFunc (rzht k, x) t w = Done tt w' /\
    rzs w' k (f_upd f x (rz_rem (f x, z !! x) t)) (z_upd z x (rz_rem (f x, z !! x) t)) /\ rzframe k w w'.
Proof.
  intros Hr Hh Hl Ht. unfold removeFunc, read_rze, write_rze. step_with (read_el_rep _ _ _ _ _ Hr Hh).
  pose proof (rep_el_ok _ _ _ _ x Hr) as Hok. cbn in Hok.
  assert (vc_size (current (rz_header (f x))) = vc_size t) as Hsz by (destruct Hok, Ht; congruence).
  pose proof (rem_effect_ok _ _ _ Hok Ht) as Hok'. unfold rem_effect in Hok'.
  unfold rz_rem. cbn [fst]. rewrite removeCheck_spec in * by done. step_with (deref_some _ _).
  destruct (negb _) eqn:Hb; [|exists w; split_and!; [done|by apply st_same|done]].
  set (e := mkRze (REH_RMV_FUNC (rz_header (f x)) t) dzero dzero).
  destruct (write_el_rep w k f z x e Hr Hh Hok') as (w1 & Hw1 & Hr1 & Hf1). step_with Hw1.
  assert (rargv (cli w1) = Some l) as Hl1 by (by rewrite (fr_cli _ _ _ Hf1)).
  step_with (rarg_done _ _ _ _ Hl1 Hk). step_with (rarg_done _ _ _ _ Hl1 Hx).
  destruct (getZsetOrCreate_rep w1 k _ z x Hr1) as (w2 & Hw2 & Hr2 & Hf2 & Hs2). step_with Hw2.
  destruct (zsetDel_rep w2 k _ z x Hr2 Hs2) as (w3 & Hw3 & Hr3 & Hf3). step_with Hw3.
  destruct (inc_dirty_rep w3 k _ _ Hr3) as [Hr4 Hf4]. exists (inc_dirty w3). split_and!; [done|exact Hr4|].
  by rewrite Hf1, Hf2, Hf3.
Qed.

Lemma show_score_rzs w f z :
  rzs w k f z -> has (E := rze) w k x -> rargv (cli w) = Some l ->
  exists w', show_score (rzht k, x) w = Done tt w' /\
    rzs w' k f (partial_alter (fun o => zput o (SCORE (f x))) x z) /\ rzframe k w w'.
Proof.
  intros Hr Hh Hl. unfold show_score, read_rze.
  step_with (rarg_done _ _ _ _ Hl Hk). step_with (rarg_done _ _ _ _ Hl Hx).
  destruct (getZsetOrCreate_rep w k f z x Hr) as (w1 & Hw1 & Hr1 & Hf1 & Hs1). step_with Hw1.
  step_with (read_el_rep _ _ _ _ _ Hr1 (fr_has _ _ _ Hf1 _ Hh)).
  destruct (zsetAdd_rep w1 k f z (SCORE (f x)) x Hr1 Hs1) as (w2 & Hw2 & Hr2 & Hf2). step_with Hw2.
  rewrite zset_add_put in Hr2. destruct (inc_dirty_rep w2 k _ _ Hr2) as [Hr3 Hf3]. exists (inc_dirty w2).
  split_and!; [done|done|]. by rewrite Hf1, Hf2.
Qed.

(** Write the element and show its score. *)
Lemma write_and_show w f z p e :
  rzs w k (f_upd f x p) (z_upd z x p) -> has (E := rze) w k x -> rargv (cli w) = Some l -> el_ok (srv w) e ->
  exists w', (write_rze (rzht k, x) e ;; show_score (rzht k, x)) w = Done tt w' /\
    rzs w' k (f_upd f x (e, zput p.2 (SCORE e))) (z_upd z x (e, zput p.2 (SCORE e))) /\ rzframe k w w'.
Proof.
  intros Hr Hh Hl Hok. unfold write_rze. destruct (write_el_rep w k _ _ x e Hr Hh Hok) as (w1 & Hw1 & Hr1 & Hf1).
  step_with Hw1. destruct (show_score_rzs w1 _ _ Hr1) as (w2 & Hw2 & Hr2 & Hf2);
    [by apply (fr_has _ _ _ Hf1)|by rewrite (fr_cli _ _ _ Hf1)|].
  exists w2. split_and!; [exact Hw2| |by rewrite Hf1]. unfold f_upd, z_upd in *. cbn [fst snd] in *.
  rewrite fn_lookup_insert, partial_alter_twice in Hr2. eapply rep_ext, Hr2. intros y.
  destruct (decide (y = x)) as [->|]; [by rewrite !fn_lookup_insert|by rewrite !fn_lookup_insert_ne].
Qed.
End Effects.

(** The effect of each message. *)
Section Messages.
Context (w : world) (k x : sds) (f : sds -> rze) (z : gmap sds double) (Hr : rzs w k f z).

Definition rz_done (eff : cmd unit) (o : rzop) : Prop :=
  exists w', eff w = Done tt w' /\ rzs w' k (f_upd f x (rz_effect (f x, z !! x) o)) (z_upd z x (rz_effect (f x, z !! x) o)) /\
    rzframe k w w'.

Lemma rzeHTGet_rzs :
  exists w', rzeHTGet k x true w = Done (Some (rzht k, x)) w' /\ rzs w' k f z /\ rzframe k w w' /\ has (E := rze) w' k x.
Proof. apply (elHTGet_true w k f z x Hr). Qed.

Lemma rzadd_effect_rzs c0 s ts v t :
  rargv (cli w) = Some [c0; k; x; s; ts] -> getDoubleFromObject s = Some v -> SdsToVC ts = Some t -> ts_ok (srv w) t ->
  rz_done rzadd_effect (RzAdd v t).
Proof.
  intros Hl Hs Hts Ht. unfold rz_done, rzadd_effect, CR_GET_LAST.
  step_with (rarg_done _ _ 3 s Hl eq_refl). rewrite Hs. step_with (deref_some _ _). rewrite bind_assoc.
  step_with (rargc_done _ _ Hl). step_with (CR_GET_done _ _ 4 ts t Hl eq_refl Hts).
  step_with (rarg_done _ _ 1 k Hl eq_refl). step_with (rarg_done _ _ 2 x Hl eq_refl).
  destruct rzeHTGet_rzs as (w1 & Hw1 & Hr1 & Hf1 & Hh1). step_with Hw1. step_with (deref_some _ _).
  assert (rargv (cli w1) = Some [c0; k; x; s; ts]) as Hl1 by (by rewrite (fr_cli _ _ _ Hf1)).
  assert (ts_ok (srv w1) t) as Ht1 by (by eapply ts_ok_stable, Ht; apply Hf1).
  destruct (removeFunc_rzs k x [c0; k; x; s; ts] eq_refl eq_refl w1 f z t Hr1 Hh1 Hl1 Ht1) as (w2 & Hw2 & Hr2 & Hf2). step_with Hw2.
  pose proof (fr_has _ _ _ Hf2 _ Hh1) as Hh2. assert (rargv (cli w2) = Some [c0; k; x; s; ts]) as Hl2 by (by rewrite (fr_cli _ _ _ Hf2)).
  unfold read_rze. step_with (read_el_rep _ _ _ _ _ Hr2 Hh2). rewrite f_upd_at.
  unfold rz_effect. cbn [rzop_ts]. set (p := rz_rem (f x, z !! x) t) in *.
  pose proof (rep_el_ok _ _ _ _ x Hr2) as Hok2. rewrite f_upd_at in Hok2.
  destruct (insertCheck (rz_header p.1) t) eqn:Hi.
  - destruct (write_and_show k x [c0; k; x; s; ts] eq_refl eq_refl w2 f z p
      (mkRze (mkReh (vc_id t) (current (rz_header p.1))) v (acquired p.1)) Hr2 Hh2 Hl2 Hok2) as (w3 & Hw3 & Hr3 & Hf3).
    exists w3. split_and!; [exact Hw3|exact Hr3|by rewrite Hf1, Hf2].
  - exists w2. split_and!; [done|exact Hr2|by rewrite Hf1].
Qed.

Lemma rzincrby_effect_rzs c0 s ts v t :
  rargv (cli w) = Some [c0; k; x; s; ts] -> getDoubleFromObject s = Some v -> SdsToVC ts = Some t -> ts_ok (srv w) t ->
  rz_done rzincrby_effect (RzInc v t).
Proof.
  intros Hl Hs Hts Ht. unfold rz_done, rzincrby_effect, CR_GET_LAST.
  step_with (rarg_done _ _ 3 s Hl eq_refl). rewrite Hs. step_with (deref_some _ _). rewrite bind_assoc.
  step_with (rargc_done _ _ Hl). step_with (CR_GET_done _ _ 4 ts t Hl eq_refl Hts).
  step_with (rarg_done _ _ 1 k Hl eq_refl). step_with (rarg_done _ _ 2 x Hl eq_refl).
  destruct rzeHTGet_rzs as (w1 & Hw1 & Hr1 & Hf1 & Hh1). step_with Hw1. step_with (deref_some _ _).
  assert (rargv (cli w1) = Some [c0; k; x; s; ts]) as Hl1 by (by rewrite (fr_cli _ _ _ Hf1)).
  assert (ts_ok (srv w1) t) as Ht1 by (by eapply ts_ok_stable, Ht; apply Hf1).
  destruct (removeFunc_rzs k x [c0; k; x; s; ts] eq_refl eq_refl w1 f z t Hr1 Hh1 Hl1 Ht1) as (w2 & Hw2 & Hr2 & Hf2). step_with Hw2.
  pose proof (fr_has _ _ _ Hf2 _ Hh1) as Hh2. assert (rargv (cli w2) = Some [c0; k; x; s; ts]) as Hl2 by (by rewrite (fr_cli _ _ _ Hf2)).
  unfold read_rze. step_with (read_el_rep _ _ _ _ _ Hr2 Hh2). rewrite f_upd_at.
  unfold rz_effect. cbn [rzop_ts]. set (p := rz_rem (f x, z !! x) t) in *.
  pose proof (rep_el_ok _ _ _ _ x Hr2) as Hok2. rewrite f_upd_at in Hok2.
  destruct (updateCheck (rz_header p.1) t) eqn:Hi.
  - destruct (write_and_show k x [c0; k; x; s; ts] eq_refl eq_refl w2 f z p
      (mkRze (rz_header p.1) (innate p.1) (dadd (acquired p.1) v)) Hr2 Hh2 Hl2 Hok2) as (w3 & Hw3 & Hr3 & Hf3).
    exists w3. split_and!; [exact Hw3|exact Hr3|by rewrite Hf1, Hf2].
  - exists w2. split_and!; [done|exact Hr2|by rewrite Hf1].
Qed.

Lemma rzrem_effect_rzs c0 ts t :
  rargv (cli w) = Some [c0; k; x; ts] -> SdsToVC ts = Some t -> ts_ok (srv w) t -> rz_done rzrem_effect (RzRem t).
Proof.
  intros Hl Hts Ht. unfold rz_done, rzrem_effect, CR_GET_LAST.
  step_with (rarg_done _ _ 1 k Hl eq_refl). step_with (rarg_done _ _ 2 x Hl eq_refl).
  destruct rzeHTGet_rzs as (w1 & Hw1 & Hr1 & Hf1 & Hh1). step_with Hw1. rewrite bind_assoc.
  assert (rargv (cli w1) = Some [c0; k; x; ts]) as Hl1 by (by rewrite (fr_cli _ _ _ Hf1)).
  assert (ts_ok (srv w1) t) as Ht1 by (by eapply ts_ok_stable, Ht; apply Hf1).
  step_with (rargc_done _ _ Hl1). step_with (CR_GET_done _ _ 3 ts t Hl1 eq_refl Hts). step_with (deref_some _ _).
  destruct (removeFunc_rzs k x [c0; k; x; ts] eq_refl eq_refl w1 f z t Hr1 Hh1 Hl1 Ht1) as (w2 & Hw2 & Hr2 & Hf2).
  exists w2. split_and!; [exact Hw2|exact Hr2|by rewrite Hf1].
Qed.
End Messages.
