(* ===== verification/RZSetConv.v ===== *)
(** * Convergence of the remove-win sorted set

    What a history of operations leaves of one element: the join of the clocks,
    the winning addition, the sum of the increments that carry the whole join and
    the score shown.  With integer scores the sums do not depend on the order, and
    replicas that received the same messages show the same scores; with fractions
    they need not. *)
From Stdlib Require Import ZArith Lia Ascii String.
From stdpp Require Import functions base numbers strings gmap sets list.
From S2P Require Import Prelude Sds Double VectorClock LamportClock Intset SetType Server RWFramework Container RWSet Zset.
From S2P Require Import DoubleExact RZSet.
Open Scope Z_scope.

(** ** One element *)

Definition rz_run (p : rzst) (ops : list rzop) : rzst := foldl rz_effect p ops.

(** The value of an operation, as an integer, and the operations that carry the
    join [j]. *)
Definition rz_value (o : rzop) : double := match o with RzAdd v _ | RzInc v _ => v | RzRem _ => dzero end.
Definition rz_int (o : rzop) : Prop := rz_value o = of_Z (int_of (rz_value o)).
Definition rz_mag (ops : list rzop) : Z := foldr (fun o s => Z.abs (int_of (rz_value o)) + s) 0 ops.

Definition inc_at (j : list Z) (o : rzop) : Z :=
  match o with RzInc v t => if decide (vector t = j) then int_of v else 0 | _ => 0 end.
Definition inc_sum (j : list Z) (ops : list rzop) : Z := foldr (fun o s => inc_at j o + s) 0 ops.

Definition live (j : list Z) (o : rzop) : Prop :=
  match o with RzRem _ => False | _ => vector (rzop_ts o) = j end.
#[global] Instance live_dec j o : Decision (live j o).
Proof. destruct o; cbn; apply _. Defined.

(** The state of an element after the operations [ops], whose clocks join to
    [j]. *)
Record rz_state (j : list Z) (ops : list rzop) (p : rzst) : Prop := {
  rs_vector : vector (current (rz_header p.1)) = j;
  rs_pid : pid (rz_header p.1) = winner j (hdr_op <$> ops);
  rs_innate :
    pid (rz_header p.1) = -1 /\ innate p.1 = dzero \/
    exists v t, RzAdd v t ∈ ops /\ vector t = j /\ vc_id t = pid (rz_header p.1) /\ innate p.1 = v;
  rs_acquired : acquired p.1 = of_Z (inc_sum j ops);
  rs_shown : p.2 = if decide (Exists (live j) ops) then Some (SCORE p.1) else None
}.

Lemma rz_mag_app ops1 ops2 : rz_mag (ops1 ++ ops2) = rz_mag ops1 + rz_mag ops2.
Proof. unfold rz_mag. induction ops1 as [|o ops1 IH]; cbn in *; lia. Qed.

Lemma inc_sum_app j ops1 ops2 : inc_sum j (ops1 ++ ops2) = inc_sum j ops1 + inc_sum j ops2.
Proof. unfold inc_sum. induction ops1 as [|o ops1 IH]; cbn in *; lia. Qed.

Lemma inc_sum_perm j ops1 ops2 : ops1 ≡ₚ ops2 -> inc_sum j ops1 = inc_sum j ops2.
Proof. unfold inc_sum. induction 1; cbn in *; lia. Qed.

Lemma inc_at_mag j o : Z.abs (inc_at j o) <= Z.abs (int_of (rz_value o)).
Proof. destruct o; cbn; [lia|case_decide; lia|lia]. Qed.

Lemma inc_sum_mag j ops : Z.abs (inc_sum j ops) <= rz_mag ops.
Proof.
  induction ops as [|o ops IH]; [done|].
  change (inc_sum j (o :: ops)) with (inc_at j o + inc_sum j ops).
  change (rz_mag (o :: ops)) with (Z.abs (int_of (rz_value o)) + rz_mag ops).
  pose proof (inc_at_mag j o). lia.
Qed.

Lemma add_inc_mag j ops v t : RzAdd v t ∈ ops -> Z.abs (int_of v + inc_sum j ops) <= rz_mag ops.
Proof.
  intros Hin. apply list_elem_of_split in Hin as (l1 & l2 & ->). rewrite inc_sum_app, rz_mag_app.
  change (inc_sum j (RzAdd v t :: l2)) with (0 + inc_sum j l2).
  change (rz_mag (RzAdd v t :: l2)) with (Z.abs (int_of v) + rz_mag l2).
  pose proof (inc_sum_mag j l1). pose proof (inc_sum_mag j l2). lia.
Qed.

(** The score of a state is an exact integer. *)
Lemma rs_score j ops p :
  rz_state j ops p -> Forall rz_int ops -> rz_mag ops < 2 ^ 53 ->
  SCORE p.1 = of_Z (int_of (innate p.1) + inc_sum j ops) /\ exact (int_of (innate p.1) + inc_sum j ops).
Proof.
  intros Hs Hi Hm. pose proof (inc_sum_mag j ops) as Hb. unfold SCORE. rewrite (rs_acquired _ _ _ Hs).
  destruct (rs_innate _ _ _ Hs) as [[_ ->]|(v & t & Hin & _ & _ & ->)].
  - change dzero with (of_Z 0) at 1. split; [apply dadd_exact|]; unfold exact; cbn; lia.
  - pose proof (add_inc_mag j ops v t Hin) as Hv. rewrite Forall_forall in Hi. pose proof (Hi _ Hin) as Hvi.
    unfold rz_int in Hvi. cbn in Hvi. apply list_elem_of_split in Hin as (l1 & l2 & ->).
    rewrite rz_mag_app in Hm, Hb, Hv. change (rz_mag (RzAdd v t :: l2)) with (Z.abs (int_of v) + rz_mag l2) in *.
    pose proof (inc_sum_mag j l1). pose proof (inc_sum_mag j l2).
    rewrite Hvi at 1. split; [apply dadd_exact|]; unfold exact; lia.
Qed.

Lemma rs_shown_exact j ops p :
  rz_state j ops p -> Forall rz_int ops -> rz_mag ops < 2 ^ 53 ->
  p.2 = None \/ exists b, exact b /\ p.2 = Some (of_Z b).
Proof.
  intros Hs Hi Hm. rewrite (rs_shown _ _ _ Hs). destruct (rs_score _ _ _ Hs Hi Hm) as [-> Hx].
  case_decide; [right|by left]. eauto.
Qed.

(** No earlier operation carries a larger join. *)
Lemma not_live j j' (ops : list rzop) :
  (forall o, o ∈ ops -> vle (vector (rzop_ts o)) j) -> ~ vle j' j ->
  ~ Exists (live j') ops /\ inc_sum j' ops = 0 /\ winner j' (hdr_op <$> ops) = -1.
Proof.
  intros Hub Hn.
  assert (forall o, o ∈ ops -> vector (rzop_ts o) <> j') as Hne by (intros o Ho <-; by apply Hn, Hub).
  split_and!.
  - intros (o & Hin & Hl)%Exists_exists. apply (Hne o Hin). by destruct o.
  - clear Hub. unfold inc_sum. induction ops as [|o ops IH]; [done|]. cbn.
    unfold inc_sum in IH. rewrite IH by (intros o' Ho'; apply Hne; set_solver).
    destruct o as [v t|v t|t]; cbn; try done. rewrite decide_False; [done|]. apply (Hne (RzInc v t)). set_solver.
  - apply winner_none. intros o Ho. apply list_elem_of_fmap in Ho as (o' & -> & Ho'). pose proof (Hne o' Ho').
    by destruct o'.
Qed.

(** A removal, or the clock of another operation, joins the clock. *)
Lemma rz_rem_state j ops p t :
  rz_state j ops p -> (forall o, o ∈ ops -> vle (vector (rzop_ts o)) j) -> vc_size t = length j ->
  rz_state (update_loop j (vector t)) ops (rz_rem p t).
Proof.
  intros Hs Hub Hsz. pose proof (rs_vector _ _ _ Hs) as Hv.
  assert (vc_size (current (rz_header p.1)) = vc_size t) as Hsz' by (unfold vc_size in *; congruence).
  unfold rz_rem. rewrite removeCheck_spec by done. rewrite Hv. case_bool_decide as Hle; cbn [negb].
  { by rewrite update_loop_absorb. }
  assert (~ vle (update_loop j (vector t)) j) as Hn.
  { intros Hc. apply Hle. eapply vle_trans, Hc. by apply update_loop_ub_r. }
  destruct (not_live j _ ops Hub Hn) as (H1 & H2 & H3). split; cbn.
  - rewrite updateVC_vector, Hv; [done|exact Hsz'].
  - by rewrite H3.
  - by left.
  - by rewrite H2.
  - by rewrite decide_False.
Qed.

Lemma winner_snoc j ops o :
  winner j (hdr_op <$> (ops ++ [o])) = Z.max (winner j (hdr_op <$> ops)) (winner j [hdr_op o]).
Proof. by rewrite fmap_app, winner_app. Qed.

Lemma Exists_live_snoc j ops o : Exists (live j) (ops ++ [o]) <-> Exists (live j) ops \/ live j o.
Proof. rewrite Exists_app, Exists_cons, Exists_nil. tauto. Qed.

(** An operation that adds nothing to the state. *)
Lemma rs_skip j ops p o :
  rz_state j ops p -> winner j [hdr_op o] <= winner j (hdr_op <$> ops) -> inc_at j o = 0 ->
  (live j o -> Exists (live j) ops) -> rz_state j (ops ++ [o]) p.
Proof.
  intros Hs Hw Hi Hl. split.
  - apply Hs.
  - rewrite winner_snoc, (rs_pid _ _ _ Hs). lia.
  - destruct (rs_innate _ _ _ Hs) as [H1|(v & t & Hin & H1)]; [by left|right]. exists v, t. set_solver.
  - rewrite (rs_acquired _ _ _ Hs), inc_sum_app. unfold inc_sum at 3. cbn. f_equal. lia.
  - rewrite (rs_shown _ _ _ Hs). apply decide_ext. rewrite Exists_live_snoc. tauto.
Qed.

Lemma rz_mag_snoc ops o : rz_mag (ops ++ [o]) = rz_mag ops + Z.abs (int_of (rz_value o)).
Proof. rewrite rz_mag_app. unfold rz_mag at 2. cbn. lia. Qed.

Lemma inc_sum_snoc j ops o : inc_sum j (ops ++ [o]) = inc_sum j ops + inc_at j o.
Proof. rewrite inc_sum_app. unfold inc_sum at 2. cbn. lia. Qed.

Lemma rs_equal j ops p t : rz_state j ops p -> equalVC t (current (rz_header p.1)) = bool_decide (vector t = j).
Proof.
  intros Hs. apply eq_bool_prop_intro. rewrite bool_decide_spec, Is_true_true, equalVC_spec. by rewrite (rs_vector _ _ _ Hs).
Qed.

(** Writing the score of the new state shows it. *)
Lemma rs_put j ops e z :
  rz_state j ops (e, Some (SCORE e)) -> Forall rz_int ops -> rz_mag ops < 2 ^ 53 ->
  z = None \/ (exists b, exact b /\ z = Some (of_Z b)) -> rz_state j ops (e, zput z (SCORE e)).
Proof.
  intros Hs Hi Hm Hz. destruct (rs_score _ _ _ Hs Hi Hm) as [Hsc Hx]. cbn [fst] in Hsc.
  rewrite Hsc. rewrite zput_exact by done. by rewrite <- Hsc.
Qed.

Section Act.
Context (j : list Z) (ops : list rzop) (p : rzst) (Hs : rz_state j ops p).
Context (Hi : Forall rz_int ops) (Hm : rz_mag ops < 2 ^ 53).

Lemma rs_add v t :
  insertCheck (rz_header p.1) t = true ->
  let e := mkRze (mkReh (vc_id t) (current (rz_header p.1))) v (acquired p.1) in
  rz_state j (ops ++ [RzAdd v t]) (e, Some (SCORE e)).
Proof.
  unfold insertCheck. rewrite (rs_equal _ _ _ _ Hs). case_bool_decide as He; [|done]. cbn [negb].
  rewrite (rs_pid _ _ _ Hs), Z.ltb_lt. intros Hc. split; cbn.
  - apply Hs.
  - rewrite winner_snoc. cbn. rewrite decide_True by done. pose proof (winner_ge j (hdr_op <$> ops)). lia.
  - right. exists v, t. set_solver.
  - rewrite (rs_acquired _ _ _ Hs), inc_sum_snoc. f_equal. cbn. lia.
  - rewrite decide_True; [done|]. apply Exists_live_snoc. by right.
Qed.

Lemma rs_no_add v t :
  insertCheck (rz_header p.1) t = false -> 0 <= vc_id t -> rz_state j (ops ++ [RzAdd v t]) p.
Proof.
  unfold insertCheck. rewrite (rs_equal _ _ _ _ Hs). pose proof (winner_ge j (hdr_op <$> ops)) as Hge.
  case_bool_decide as He; cbn [negb]; intros Hc Hid.
  - rewrite Z.ltb_ge in Hc. apply rs_skip; [done| |done|].
    + cbn. rewrite decide_True by done. rewrite <- (rs_pid _ _ _ Hs). lia.
    + intros _. destruct (rs_innate _ _ _ Hs) as [[H1 _]|(v' & t' & Hin & H1 & _)]; [lia|].
      apply Exists_exists. by exists (RzAdd v' t').
  - apply rs_skip; [done| |done|done]. cbn. rewrite decide_False by done. lia.
Qed.

Lemma rs_inc v t :
  vector t = j -> rz_int (RzInc v t) -> rz_mag (ops ++ [RzInc v t]) < 2 ^ 53 ->
  let e := mkRze (rz_header p.1) (innate p.1) (dadd (acquired p.1) v) in
  rz_state j (ops ++ [RzInc v t]) (e, Some (SCORE e)).
Proof.
  unfold rz_int. rewrite rz_mag_snoc. cbn [rz_value]. intros He Hv Hm'. pose proof (inc_sum_mag j ops). split; cbn.
  - apply Hs.
  - rewrite winner_snoc, (rs_pid _ _ _ Hs). cbn. pose proof (winner_ge j (hdr_op <$> ops)). lia.
  - destruct (rs_innate _ _ _ Hs) as [H1|(v' & t' & Hin & H1)]; [by left|right]. exists v', t'. set_solver.
  - rewrite (rs_acquired _ _ _ Hs), inc_sum_snoc. rewrite Hv at 1. cbn. rewrite decide_True by done.
    apply dadd_exact; unfold exact; lia.
  - rewrite decide_True; [done|]. apply Exists_live_snoc. by right.
Qed.

(** The rest of the effect, once the clock is joined. *)
Lemma rz_act_state o :
  rz_rem p (rzop_ts o) = p -> 0 <= vc_id (rzop_ts o) -> rz_int o -> rz_mag (ops ++ [o]) < 2 ^ 53 ->
  rz_state j (ops ++ [o]) (rz_effect p o).
Proof.
  intros Hrem Hid Hio Hm'. pose proof (rs_shown_exact _ _ _ Hs Hi Hm) as Hz.
  assert (Forall rz_int (ops ++ [o])) as Hi' by (apply Forall_app; auto).
  unfold rz_effect. rewrite Hrem. destruct o as [v t|v t|t]; cbn [rzop_ts] in *.
  - destruct (insertCheck (rz_header p.1) t) eqn:Hc; [|by apply rs_no_add].
    apply rs_put; [by apply rs_add|done..].
  - unfold updateCheck. rewrite (rs_equal _ _ _ _ Hs). case_bool_decide as He.
    + apply rs_put; [by apply rs_inc|done..].
    + apply rs_skip; [done| |by cbn; rewrite decide_False|done]. cbn. apply winner_ge.
  - apply rs_skip; [done|apply winner_ge|done..].
Qed.
End Act.

(** A removal of a clock that is already joined changes nothing. *)
Lemma rz_rem_again p t :
  vc_size (current (rz_header p.1)) = vc_size t -> rz_rem (rz_rem p t) t = rz_rem p t.
Proof.
  intros Hsz. unfold rz_rem at 1. rewrite removeCheck_spec.
  - rewrite rz_rem_header, rem_effect_vector by done. rewrite bool_decide_true; [done|]. by apply update_loop_ub_r.
  - by rewrite rz_rem_header, rem_effect_size.
Qed.

Lemma rz_effect_again p o :
  vc_size (current (rz_header p.1)) = vc_size (rzop_ts o) -> rz_effect p o = rz_effect (rz_rem p (rzop_ts o)) o.
Proof. intros Hsz. unfold rz_effect at 2. by rewrite rz_rem_again. Qed.

(** Operations a replica sends: clocks of the system's size, integer scores. *)
Definition rz_ok (n : nat) (o : rzop) : Prop := vc_size (rzop_ts o) = n /\ 0 <= vc_id (rzop_ts o) /\ rz_int o.

Lemma hdr_op_ts o : op_ts (hdr_op o) = rzop_ts o.
Proof. by destruct o. Qed.

Lemma hdr_ops_size n ops : Forall (rz_ok n) ops -> ops_size n (hdr_op <$> ops).
Proof. intros Hf. apply Forall_fmap. eapply Forall_impl; [exact Hf|]. intros o [Ho _]. cbn. by rewrite hdr_op_ts. Qed.

(** The state after any history. *)
Lemma rz_run_state n h ops :
  fresh n h -> Forall (rz_ok n) ops -> rz_mag ops < 2 ^ 53 ->
  rz_state (joins (vector (current h)) (hdr_op <$> ops)) ops (rz_run (mkRze h dzero dzero, None) ops).
Proof.
  intros [Hp Hn]. unfold rz_run. induction ops as [|o ops IH] using rev_ind; intros Hok Hm.
  { split; cbn; [done|done|by left|done|done]. }
  apply Forall_app in Hok as [Hok Ho]. rewrite Forall_singleton in Ho. destruct Ho as (Hsz & Hid & Hio).
  rewrite rz_mag_snoc in Hm. assert (rz_mag ops < 2 ^ 53) as Hm1 by lia. specialize (IH Hok Hm1).
  rewrite foldl_snoc, fmap_app. change (hdr_op <$> [o]) with [hdr_op o]. rewrite joins_snoc, hdr_op_ts. set (j := joins _ _) in *.
  assert (length j = n) as Hj by (unfold j; by rewrite joins_length).
  assert (forall o', o' ∈ ops -> vle (vector (rzop_ts o')) j) as Hub.
  { intros o' Ho'. rewrite <- hdr_op_ts. apply joins_ub; [|by apply list_elem_of_fmap_2].
    unfold vc_size in Hn. rewrite Hn. by apply hdr_ops_size. }
  set (p := foldl rz_effect _ ops) in *.
  assert (vc_size (current (rz_header p.1)) = vc_size (rzop_ts o)) as Hsz'.
  { unfold vc_size at 1. rewrite (rs_vector _ _ _ IH). lia. }
  rewrite rz_effect_again by done. apply rz_act_state; [|..].
  - apply rz_rem_state; [done|done|]. lia.
  - eapply Forall_impl; [exact Hok|]. by intros ? (_ & _ & ?).
  - done.
  - by apply rz_rem_again.
  - done.
  - done.
  - rewrite rz_mag_snoc. lia.
Qed.

(** Additions of one element with the same clock carry the same value: a
    replica adds only what does not exist, and the next addition has a larger
    clock. *)
Definition adds_agree (ops : list rzop) : Prop :=
  forall v v' t t', RzAdd v t ∈ ops -> RzAdd v' t' ∈ ops -> vector t = vector t' -> vc_id t = vc_id t' -> v = v'.

Lemma winner_perm j ops1 ops2 : ops1 ≡ₚ ops2 -> winner j (hdr_op <$> ops1) = winner j (hdr_op <$> ops2).
Proof.
  intros Hp. apply Z.le_antisymm; apply winner_mono; intros o Ho; by rewrite ?Hp in *.
Qed.

Lemma rs_innate_eq j ops1 ops2 p1 p2 :
  rz_state j ops1 p1 -> rz_state j ops2 p2 -> ops1 ≡ₚ ops2 -> adds_agree ops1 ->
  Forall (fun o => 0 <= vc_id (rzop_ts o)) ops1 -> innate p1.1 = innate p2.1.
Proof.
  intros H1 H2 Hp Hu Hid. assert (pid (rz_header p1.1) = pid (rz_header p2.1)) as Hpid.
  { rewrite (rs_pid _ _ _ H1), (rs_pid _ _ _ H2). by apply winner_perm. }
  rewrite Forall_forall in Hid.
  destruct (rs_innate _ _ _ H1) as [[Ha ->]|(v & t & Hin & Hv & Ht & ->)];
    destruct (rs_innate _ _ _ H2) as [[Ha' ->]|(v' & t' & Hin' & Hv' & Ht' & ->)]; [done|..].
  - rewrite <- Hp in Hin'. pose proof (Hid _ Hin'). cbn in *. lia.
  - pose proof (Hid _ Hin). cbn in *. lia.
  - rewrite <- Hp in Hin'. eapply Hu; [exact Hin|exact Hin'|congruence|congruence].
Qed.

(** Histories with the same operations agree. *)
Lemma rz_run_converges n h1 h2 ops1 ops2 :
  fresh n h1 -> fresh n h2 -> vector (current h1) = vector (current h2) ->
  Forall (rz_ok n) ops1 -> rz_mag ops1 < 2 ^ 53 -> ops1 ≡ₚ ops2 -> adds_agree ops1 ->
  (rz_run (mkRze h1 dzero dzero, None) ops1).2 = (rz_run (mkRze h2 dzero dzero, None) ops2).2.
Proof.
  intros Hf1 Hf2 Hv Hok Hm Hp Hu.
  assert (rz_mag ops2 < 2 ^ 53) as Hm2.
  { replace (rz_mag ops2) with (rz_mag ops1); [done|]. clear -Hp. unfold rz_mag. induction Hp; cbn in *; lia. }
  assert (Forall (rz_ok n) ops2) as Hok2 by (by rewrite <- Hp).
  pose proof (rz_run_state n h1 ops1 Hf1 Hok Hm) as H1. pose proof (rz_run_state n h2 ops2 Hf2 Hok2 Hm2) as H2.
  assert (joins (vector (current h1)) (hdr_op <$> ops1) = joins (vector (current h2)) (hdr_op <$> ops2)) as Hj.
  { rewrite Hv. destruct Hf2 as [_ Hn]. unfold vc_size in Hn. apply joins_set_eq; rewrite ?Hn; [by apply hdr_ops_size..|].
    intros o. by rewrite Hp. }
  rewrite Hj in H1. rewrite (rs_shown _ _ _ H1), (rs_shown _ _ _ H2).
  assert (SCORE (rz_run (mkRze h1 dzero dzero, None) ops1).1 = SCORE (rz_run (mkRze h2 dzero dzero, None) ops2).1) as Hsc.
  { unfold SCORE. rewrite (rs_acquired _ _ _ H1), (rs_acquired _ _ _ H2), (inc_sum_perm _ _ _ Hp). f_equal.
    eapply rs_innate_eq; try done. eapply Forall_impl; [exact Hok|]. by intros ? (_ & ? & _). }
  rewrite Hsc. apply decide_ext. by rewrite Hp.
Qed.

(** ** Delivery *)

Inductive zmsg :=
  | ZAdd (x s : sds) (t : vc)
  | ZInc (x s : sds) (t : vc)
  | ZRem (x : sds) (t : vc).

Open Scope string_scope.
Definition zm_args (k : sds) (m : zmsg) : list sds :=
  match m with
  | ZAdd x s t => ["rzadd"; k; x; s; vcs t]
  | ZInc x s t => ["rzincrby"; k; x; s; vcs t]
  | ZRem x t => ["rzrem"; k; x; vcs t]
  end.
Close Scope string_scope.

Definition score_of (s : sds) : double := default dzero (getDoubleFromObject s).

Definition zm_op (m : zmsg) : sds * rzop :=
  match m with
  | ZAdd x s t => (x, RzAdd (score_of s) t)
  | ZInc x s t => (x, RzInc (score_of s) t)
  | ZRem x t => (x, RzRem t)
  end.

(** What a replica sends: a clock of the system and, where there is a score, one
    that was read. *)
Definition zm_wf (s : server) (m : zmsg) : Prop :=
  match m with
  | ZAdd x v t | ZInc x v t => is_Some (getDoubleFromObject v) /\ vc_printable t /\ ts_ok s t
  | ZRem x t => vc_printable t /\ ts_ok s t
  end.

Lemma zm_wf_stable s s' m : same_config s s' -> zm_wf s m -> zm_wf s' m.
Proof. intros Hc. destruct m; cbn; intros; destruct_and?; split_and?; eauto using ts_ok_stable. Qed.

Definition zm_proc (m : zmsg) : cmd unit :=
  match m with ZAdd _ _ _ => rzaddCommand | ZInc _ _ _ => rzincrbyCommand | ZRem _ _ => rzremCommand end.
Definition zm_effect (m : zmsg) : cmd unit :=
  match m with ZAdd _ _ _ => rzadd_effect | ZInc _ _ _ => rzincrby_effect | ZRem _ _ => rzrem_effect end.

Definition zdeliver (k : sds) (w : world) (m : zmsg) : outcome world unit :=
  call 0 (zm_proc m) (delivery w (zm_args k m)).

Fixpoint zdeliver_all (k : sds) (w : world) (ms : list zmsg) : option world :=
  match ms with
  | [] => Some w
  | m :: ms => match zdeliver k w m with Done _ w' => zdeliver_all k w' ms | _ => None end
  end.

(** The container [k] holds the elements and scores [g]. *)
Definition rzc (w : world) (k : sds) (g : sds -> rzst) : Prop :=
  exists f z, rzs w k f z /\ forall x, g x = (f x, z !! x).

Definition rzc_step (g : sds -> rzst) (m : sds * rzop) : sds -> rzst := <[m.1 := rz_effect (g m.1) m.2]> g.

Lemma rzc_srv w w' k g : srv w' = srv w -> rzc w k g -> rzc w' k g.
Proof. intros Hs (f & z & Hr & Hg). exists f, z. split; [|done]. eapply rep_config, Hr; rewrite Hs; done. Qed.

Lemma zm_effect_rzc w k g m :
  rzc w k g -> rargv (cli w) = Some (zm_args k m) -> zm_wf (srv w) m ->
  exists w', zm_effect m w = Done tt w' /\ rzc w' k (rzc_step g (zm_op m)) /\ rzframe k w w'.
Proof.
  intros (f & z & Hr & Hg) Hl Hwf.
  assert (rz_done w k (zm_op m).1 f z (zm_effect m) (zm_op m).2) as (w' & Hw' & Hr' & Hf').
  { destruct m as [x s t|x s t|x t]; cbn in Hwf; cbn [zm_op zm_effect fst snd]; unfold score_of.
    - destruct Hwf as ([v Hv] & Hp & Ht). rewrite Hv. eapply rzadd_effect_rzs; [done|exact Hl|done|by apply vcs_read|done].
    - destruct Hwf as ([v Hv] & Hp & Ht). rewrite Hv. eapply rzincrby_effect_rzs; [done|exact Hl|done|by apply vcs_read|done].
    - destruct Hwf as (Hp & Ht). eapply rzrem_effect_rzs; [done|exact Hl|by apply vcs_read|done]. }
  exists w'. split_and!; [done| |done]. eexists _, _. split; [exact Hr'|]. intros y.
  unfold rzc_step. rewrite (Hg (zm_op m).1), st_read. case_decide as Hy; [subst; by rewrite fn_lookup_insert|].
  rewrite fn_lookup_insert_ne by done. apply Hg.
Qed.

Lemma zdeliver_rzc w k g m :
  rzc w k g -> REPLICATION_MODE (srv w) = true -> zm_wf (srv w) m ->
  exists w', zdeliver k w m = Done tt w' /\ rzc w' k (rzc_step g (zm_op m)) /\
    same_config (srv w) (srv w') /\ REPLICATION_MODE (srv w') = true.
Proof.
  intros Hr Hm Hwf.
  set (w0 := mkWorld (srv w) (mkClient (zm_args k m) (Some (zm_args k m)) true false [])).
  destruct (zm_effect_rzc w0 k g m) as (w1 & Hw1 & Hr1 & Hf1); [by eapply rzc_srv, Hr|done..|].
  assert (exists prep, zm_proc m = CRDT prep (zm_effect m)) as [prep Hproc] by (destruct m; by eexists).
  unfold zdeliver. rewrite Hproc. destruct (delivery_run prep _ w _ k w1 Hm Hw1 Hf1) as (w' & Hw' & Hsrv & Hc & Hm').
  exists w'. split_and!; [done| |done|done]. by eapply rzc_srv, Hr1.
Qed.

Definition z_ops (x : sds) (ms : list zmsg) : list rzop := (filter (fun p => p.1 = x) (zm_op <$> ms)).*2.

Lemma zdeliver_all_rzc w k g ms :
  rzc w k g -> REPLICATION_MODE (srv w) = true -> Forall (zm_wf (srv w)) ms ->
  exists w' g', zdeliver_all k w ms = Some w' /\ rzc w' k g' /\ forall x, g' x = rz_run (g x) (z_ops x ms).
Proof.
  revert w g. induction ms as [|m ms IH]; intros w g Hr Hm Hwf; cbn [zdeliver_all]; [by exists w, g|].
  apply Forall_cons_1 in Hwf as [Hwf Hwfs]. destruct (zdeliver_rzc w k g m Hr Hm Hwf) as (w1 & -> & Hr1 & Hc1 & Hm1).
  destruct (IH w1 _ Hr1 Hm1) as (w' & g' & Hw' & Hr' & Hg').
  { eapply Forall_impl; [exact Hwfs|]. intros m'. by apply zm_wf_stable. }
  exists w', g'. split_and!; [done..|]. intros x. rewrite Hg'. unfold z_ops, rzc_step.
  rewrite fmap_cons, filter_cons. case_decide as Hx; [subst; by rewrite fn_lookup_insert|by rewrite fn_lookup_insert_ne].
Qed.

(** A container nobody has touched. *)
Definition z_untouched (w : world) (k : sds) : Prop :=
  db (srv w) !! k = None /\ db (srv w) !! rzht k = None /\ max_ok (set_max_intset_entries (srv w)).

Lemma z_untouched_rzc w k : z_untouched w k -> rzc w k (fun _ => (rze_new (srv w), None)).
Proof.
  intros (H1 & H2 & H3). exists (fun _ => rze_new (srv w)), ∅. split; [|done].
  split; [|by unfold shape_hash; rewrite H2|done]. unfold shape_set, shape_obj, zset_shape. by rewrite H1.
Qed.

Lemma rzc_shown w k g x : rzc w k g -> shown_score w k x = (g x).2.
Proof. intros (f & z & Hr & Hg). rewrite Hg. by eapply shown_score_rep. Qed.

(** What a history shows. *)
Lemma rzset_history w k ms :
  z_untouched w k -> REPLICATION_MODE (srv w) = true -> Forall (zm_wf (srv w)) ms ->
  exists w', zdeliver_all k w ms = Some w' /\
    forall x, shown_score w' k x = (rz_run (rze_new (srv w), None) (z_ops x ms)).2.
Proof.
  intros Hu Hm Hwf. destruct (zdeliver_all_rzc w k _ ms (z_untouched_rzc _ _ Hu) Hm Hwf) as (w' & g' & Hw' & Hr' & Hg').
  exists w'. split; [done|]. intros x. by rewrite (rzc_shown _ _ _ _ Hr'), Hg'.
Qed.

(** ** Convergence *)

Lemma z_ops_in x ms o : o ∈ z_ops x ms <-> exists m, m ∈ ms /\ zm_op m = (x, o).
Proof.
  unfold z_ops. rewrite list_elem_of_fmap. setoid_rewrite list_elem_of_filter. setoid_rewrite list_elem_of_fmap. split.
  - intros ([y o'] & -> & Hy & m & Hm & Hin). cbn in *. subst. by exists m.
  - intros (m & Hin & Hm). exists (x, o). split_and!; [done..|]. by exists m.
Qed.

Lemma z_ops_perm x ms1 ms2 : ms1 ≡ₚ ms2 -> z_ops x ms1 ≡ₚ z_ops x ms2.
Proof. intros Hp. unfold z_ops. by rewrite Hp. Qed.

(** Scores that are integers, below 2^53 in all. *)
Definition zm_int (m : zmsg) : Prop := rz_int (zm_op m).2.
Definition zm_mag (ms : list zmsg) : Z := rz_mag (zm_op <$> ms).*2.

Lemma z_ops_mag x ms : rz_mag (z_ops x ms) <= zm_mag ms.
Proof.
  unfold z_ops, zm_mag. induction ms as [|m ms IH]; [done|]. rewrite fmap_cons, filter_cons.
  case_decide; unfold rz_mag in *; cbn in *; lia.
Qed.

Lemma z_ops_ok s x ms :
  Forall (zm_wf s) ms -> Forall zm_int ms -> Forall (rz_ok (Z.to_nat (p2p_count s))) (z_ops x ms).
Proof.
  intros Hwf Hi. rewrite !Forall_forall in *. intros o (m & Hm & Hop)%z_ops_in.
  pose proof (Hwf m Hm) as Hw. pose proof (Hi m Hm) as Hx. unfold zm_int in Hx. rewrite Hop in Hx.
  unfold rz_ok. destruct m; injection Hop as _ <-; cbn in Hw; unfold ts_ok in Hw; cbn; destruct_and?; done.
Qed.

(** Additions of the same element with the same clock carry the same score. *)
Definition zadds_agree (ms : list zmsg) : Prop :=
  forall x s s' t t', ZAdd x s t ∈ ms -> ZAdd x s' t' ∈ ms -> vector t = vector t' -> vc_id t = vc_id t' ->
    score_of s = score_of s'.

Lemma z_ops_adds x ms : zadds_agree ms -> adds_agree (z_ops x ms).
Proof.
  intros Hu v v' t t' (m & Hm & Hop)%z_ops_in (m' & Hm' & Hop')%z_ops_in Hv Hid.
  destruct m as [y s u| |], m' as [y' s' u'| |]; try done. injection Hop as -> <- ->. injection Hop' as -> <- ->.
  by eapply Hu.
Qed.

Lemma rzset_converges w1 w2 k ms1 ms2 :
  z_untouched w1 k -> z_untouched w2 k -> p2p_count (srv w2) = p2p_count (srv w1) ->
  REPLICATION_MODE (srv w1) = true -> REPLICATION_MODE (srv w2) = true ->
  Forall (zm_wf (srv w1)) ms1 -> Forall zm_int ms1 -> zm_mag ms1 < 2 ^ 53 -> zadds_agree ms1 -> ms1 ≡ₚ ms2 ->
  exists w1' w2', zdeliver_all k w1 ms1 = Some w1' /\ zdeliver_all k w2 ms2 = Some w2' /\
    forall x, shown_score w1' k x = shown_score w2' k x.
Proof.
  intros Hu1 Hu2 Hc Hm1 Hm2 Hwf Hi Hmag Hu Hp.
  assert (Forall (zm_wf (srv w2)) ms2) as Hwf2.
  { rewrite <- Hp. eapply Forall_impl; [exact Hwf|]. intros m. unfold zm_wf, ts_ok. by rewrite Hc. }
  destruct (rzset_history w1 k ms1 Hu1 Hm1 Hwf) as (w1' & Hw1 & Hs1).
  destruct (rzset_history w2 k ms2 Hu2 Hm2 Hwf2) as (w2' & Hw2 & Hs2).
  exists w1', w2'. split_and!; [done..|]. intros x. rewrite Hs1, Hs2.
  apply (rz_run_converges (Z.to_nat (p2p_count (srv w1)))).
  - apply REH_INIT_fresh.
  - rewrite <- Hc. apply REH_INIT_fresh.
  - unfold REH_INIT, l_newVC, newVC. cbn. by rewrite Hc.
  - by apply z_ops_ok.
  - pose proof (z_ops_mag x ms1). lia.
  - by apply z_ops_perm.
  - by apply z_ops_adds.
Qed.

(** The score every replica shows: that of the addition with the greatest id
    among those that have seen every operation, and the increments that have. *)
Lemma rzset_shows w k ms x s t :
  z_untouched w k -> REPLICATION_MODE (srv w) = true ->
  Forall (zm_wf (srv w)) ms -> Forall zm_int ms -> zm_mag ms < 2 ^ 53 -> zadds_agree ms ->
  ZAdd x s t ∈ ms -> (forall o, o ∈ z_ops x ms -> vle (vector (rzop_ts o)) (vector t)) ->
  (forall s' t', ZAdd x s' t' ∈ ms -> vector t' = vector t -> vc_id t' <= vc_id t) ->
  vle (replicate (Z.to_nat (p2p_count (srv w))) 0) (vector t) ->
  exists w', zdeliver_all k w ms = Some w' /\
    shown_score w' k x = Some (of_Z (int_of (score_of s) + inc_sum (vector t) (z_ops x ms))).
Proof.
  intros Hu Hm Hwf Hi Hmag Hadds Hin Hub Hmax H0.
  destruct (rzset_history w k ms Hu Hm Hwf) as (w' & Hw' & Hs'). exists w'. split; [done|]. rewrite Hs'.
  pose proof (z_ops_ok _ x _ Hwf Hi) as Hok. pose proof (z_ops_mag x ms) as Hmx.
  assert (RzAdd (score_of s) t ∈ z_ops x ms) as Hop by (apply z_ops_in; by exists (ZAdd x s t)).
  pose proof (REH_INIT_fresh (srv w)) as [Hfp Hfn]. assert (rz_mag (z_ops x ms) < 2 ^ 53) as Hm' by lia.
  pose proof (rz_run_state _ (REH_INIT (srv w)) _ (conj Hfp Hfn) Hok Hm') as Hst.
  assert (joins (vector (current (REH_INIT (srv w)))) (hdr_op <$> z_ops x ms) = vector t) as Hj.
  { apply vle_antisym.
    - apply joins_lub; [exact H0|]. intros o (o' & -> & Ho')%list_elem_of_fmap. rewrite hdr_op_ts. by apply Hub.
    - change t with (op_ts (hdr_op (RzAdd (score_of s) t))) at 1. apply joins_ub; [|by apply list_elem_of_fmap_2].
      unfold vc_size in Hfn. rewrite Hfn. by apply hdr_ops_size. }
  rewrite Hj in Hst. unfold rze_new. set (p := rz_run _ _) in *.
  assert (Forall rz_int (z_ops x ms)) as Hints by (eapply Forall_impl; [exact Hok|]; by intros ? (_ & _ & ?)).
  rewrite (rs_shown _ _ _ Hst), decide_True; [|apply Exists_exists; by exists (RzAdd (score_of s) t)].
  destruct (rs_score _ _ _ Hst Hints Hm') as [-> _]. f_equal. do 2 f_equal.
  assert (0 <= vc_id t) as Hid by (rewrite Forall_forall in Hok; by destruct (Hok _ Hop) as (_ & ? & _)).
  assert (vc_id t <= pid (rz_header p.1)) as Hge.
  { rewrite (rs_pid _ _ _ Hst). apply (winner_in _ _ t); [|done].
    change (RAdd t) with (hdr_op (RzAdd (score_of s) t)). by apply list_elem_of_fmap_2. }
  destruct (rs_innate _ _ _ Hst) as [[Hc _]|(v & t' & Hin' & Hv' & Hid' & ->)]; [lia|].
  apply z_ops_in in Hin' as (m & Hm2 & Hop2). destruct m as [y s' u| |]; try done. injection Hop2 as -> <- ->.
  pose proof (Hmax s' t' Hm2 Hv'). f_equal. eapply Hadds; [exact Hm2|exact Hin|done|lia].
Qed.
