(* ===== verification/RZSetClient.v ===== *)
(** * The remove-win sorted set at one replica

    What a client of [rzadd], [rzincrby] and [rzrem] observes: the reply on every
    branch, the message sent to the other replicas, and the element and the score
    shown afterwards; and what fractions and overtaking messages lead to. *)
From Stdlib Require Import ZArith Lia Ascii String.
From stdpp Require Import functions base numbers strings gmap sets list.
From S2P Require Import Prelude Sds Double VectorClock LamportClock Intset SetType Server RWFramework Container RWSet Stamps Zset.
From S2P Require Import DoubleExact RZSet RZSetConv.
Open Scope Z_scope.

(** ** The prepare phases *)

Section Prepare.
Context (w : world) (k x : sds) (g : sds -> rzst).
Context (Hr : rzc w k g) (Hc : cfg_ok (srv w)).

Lemma rzc_clock y : clock_ok (srv w) (current (rz_header (g y).1)).
Proof.
  destruct Hr as (f & z & Hrep & Hg). rewrite Hg. destruct (rep_el_ok _ _ _ _ y Hrep) as (H1 & H2 & H3). by split_and!.
Qed.

Lemma check_zset args max :
  index args 1 = Some k -> Z.of_nat (length args) <= max ->
  checkArgcAndZsetType max (request w args) = Done false (request w args).
Proof. destruct Hr as (f & z & Hrep & _). by eapply check_zset_rep. Qed.

(** Looking the element up without creating it. *)
Lemma rze_lookup args :
  rzeHTGet k x false (request w args) = Done (Some (rzht k, x)) (request w args) /\
    read_rze (rzht k, x) (request w args) = Done (g x).1 (request w args) \/
  rzeHTGet k x false (request w args) = Done None (request w args) /\ EXISTS (rz_header (g x).1) = false.
Proof.
  destruct Hr as (f & z & Hrep & Hg). rewrite Hg. cbn [fst].
  assert (rzs (request w args) k f z) as Hrep' by (by eapply rep_config, Hrep).
  destruct (elHTGet_false _ _ _ _ x Hrep') as [[Hget Hh]|[Hget Hn]]; [left|right].
  - split; [exact Hget|]. by apply (read_el_rep _ _ _ _ _ Hrep').
  - split; [exact Hget|]. by rewrite Hn.
Qed.
End Prepare.


(** ** A command at its origin *)

Lemma rz_origin prep m w k g args rv w1 :
  REPLICATION_MODE (srv w) = true -> prep (request w args) = Done rv w1 -> rzframe k (request w args) w1 ->
  rzc w1 k g -> args ++ rv_items rv = zm_args k m -> zm_wf (srv w) m ->
  exists w', call 0 (CRDT prep (zm_effect m)) (request w args) = Done tt w' /\
    rzc w' k (rzc_step g (zm_op m)) /\ replies (cli w') = [R_ok] /\
    replicas (srv w') = (fun out => out ++ broadcast_msg (srv w) 0 (zm_args k m)) <$> replicas (srv w).
Proof.
  intros Hm Hp Hf1 Hr1 Hargs Hwf.
  set (w2 := mkWorld (srv w1) (mkClient args (Some (args ++ rv_items rv)) false false [R_ok])).
  destruct (zm_effect_rzc w2 k g m) as (w3 & Hw3 & Hr3 & Hf3).
  { by eapply rzc_srv, Hr1. } { cbn. by rewrite Hargs. } { eapply zm_wf_stable, Hwf. apply (fr_config _ _ _ Hf1). }
  destruct (origin_sent prep (zm_effect m) w args k rv w1 w3 Hm Hp Hf1 Hw3 Hf3)
    as (w4 & Hw4 & Hdb4 & Hc4 & _ & _ & Hrep4 & _ & Hsent). rewrite Hargs in *.
  exists w4. split_and!; [done| |done|done].
  destruct Hr3 as (f & z & Hr3 & Hg3). exists f, z. split; [|done]. by eapply rep_config, Hr3.
Qed.

Section Client.
Context (w : world) (k x : sds) (g : sds -> rzst).
Context (Hr : rzc w k g) (Hc : cfg_ok (srv w)) (Hm : REPLICATION_MODE (srv w) = true).

Abbreviation hdr := (rz_header (g x).1).
Abbreviation now := (current hdr).

(** What the clients of the replica have: the elements after [o] and its
    message sent. *)
Definition rz_applied (proc : cmd unit) (args : list sds) (m : zmsg) : Prop :=
  exists w', call 0 proc (request w args) = Done tt w' /\
    rzc w' k (rzc_step g (zm_op m)) /\ replies (cli w') = [R_ok] /\
    replicas (srv w') = (fun out => out ++ broadcast_msg (srv w) 0 (zm_args k m)) <$> replicas (srv w).

Definition rz_reply (proc : cmd unit) (args : list sds) (r : reply) : Prop :=
  call 0 proc (request w args) = Done tt (mkWorld (srv w) (mkClient args None false false [r])).

Lemma now_ok : vc_printable now /\ ts_ok (srv w) now.
Proof. by destruct (clock_stamp _ _ Hc (rzc_clock w k g Hr x)) as (? & ? & _). Qed.

(** The arguments of the prepare phases. *)
Ltac read_key args :=
  step_with (arg_done (request w args) 1 k eq_refl); step_with (arg_done (request w args) 2 x eq_refl).
Ltac read_number args s Hs :=
  step_with (check_zset w k g Hr args 4 eq_refl ltac:(cbn; lia)); step_with (arg_done (request w args) 3 s eq_refl);
  lazymatch type of Hs with
  | _ = Some _ => step_with (read_score_done _ _ _ Hs); read_key args
  | _ => unfold getDoubleFromObjectOrReply; by rewrite Hs
  end.

Lemma rz_send prep eff t args m :
  eff = zm_effect m -> args ++ [vcs t] = zm_args k m -> zm_wf (srv w) m ->
  prep (request w args) = Done (RARGV_ADD_SDS RVCT_PREPARE (vcs t)) (request w args) ->
  rz_applied (CRDT prep eff) args m.
Proof.
  intros -> Hargs Hwf Hp. eapply rz_origin; [done|exact Hp|reflexivity|by eapply rzc_srv, Hr|exact Hargs|done].
Qed.

(** [rzadd] creates the header of the element when there is none. *)
Definition rz_kept (proc : cmd unit) (args : list sds) (r : reply) : Prop :=
  exists w', call 0 proc (request w args) = Done tt w' /\ rzc w' k g /\
    cli w' = mkClient args None false false [r] /\ replicas (srv w') = replicas (srv w).

Lemma rze_create args :
  exists w1, rzeHTGet k x true (request w args) = Done (Some (rzht k, x)) w1 /\ rzc w1 k g /\
    rzframe k (request w args) w1 /\ read_rze (rzht k, x) w1 = Done (g x).1 w1.
Proof.
  destruct Hr as (f & z & Hrep & Hg).
  assert (rzs (request w args) k f z) as Hrep' by (by eapply rep_config, Hrep).
  destruct (elHTGet_true _ _ _ _ x Hrep') as (w1 & Hget & Hr1 & Hf1 & Hh1).
  exists w1. split_and!; [exact Hget|by exists f, z|exact Hf1|]. rewrite Hg. by apply (read_el_rep _ _ _ _ _ Hr1).
Qed.

Lemma rzadd_client s :
  let args := ["rzadd"%string; k; x; s] in
  match getDoubleFromObject s with
  | None => rz_reply rzaddCommand args not_a_float
  | Some v =>
      if EXISTS hdr then rz_kept rzaddCommand args R_ele_exist
      else rz_applied rzaddCommand args (ZAdd x s now)
  end.
Proof.
  intros args. unfold rz_reply.
  destruct (getDoubleFromObject s) as [v|] eqn:Hs; [|apply call_refused; [done|]; unfold rzadd_prepare; read_number args s Hs].
  destruct (rze_create args) as (w1 & Hget & Hr1 & Hf1 & Hread).
  pose proof (fr_cli _ _ _ Hf1 : cli w1 = cli (request w args)) as Hcli1.
  assert (rzadd_prepare (request w args) =
    (if EXISTS hdr then addReply R_ele_exist ;; creturn else ADD_CR_NON_RMV RVCT_PREPARE hdr) w1) as Hp.
  { unfold rzadd_prepare. read_number args s Hs. step_with Hget. step_with (deref_some (rzht k, x) w1). by step_with Hread. }
  destruct (EXISTS hdr).
  - exists (set_client (push_reply R_ele_exist) w1). split_and!; [|by eapply rzc_srv, Hr1|by cbn; rewrite Hcli1|].
    + apply call_no_broadcast; [done| |by cbn; rewrite Hcli1..]. apply CRDT_origin_return; [done..|]. rewrite Hp.
      step_with (addReply_done R_ele_exist w1 ltac:(by rewrite Hcli1)). done.
    + cbn. by rewrite (fr_replicas _ _ _ Hf1).
  - rewrite (ADD_CR_done _ _ _ _ Hc (rzc_clock w k g Hr x)) in Hp.
    eapply (rz_origin rzadd_prepare (ZAdd x s now)); [done|exact Hp|exact Hf1|exact Hr1|reflexivity|].
    split; [by eexists|apply now_ok].
Qed.

Lemma rzincrby_client s :
  let args := ["rzincrby"%string; k; x; s] in
  match getDoubleFromObject s with
  | None => rz_reply rzincrbyCommand args not_a_float
  | Some v =>
      if EXISTS hdr then rz_applied rzincrbyCommand args (ZInc x s now)
      else rz_reply rzincrbyCommand args R_ele_nexist
  end.
Proof.
  intros args. unfold rz_reply.
  destruct (getDoubleFromObject s) as [v|] eqn:Hs; [|apply call_refused; [done|]; unfold rzincrby_prepare; read_number args s Hs].
  destruct (rze_lookup w k x g Hr args) as [[Hget Hread]|[Hget Hno]]; [destruct (EXISTS hdr) eqn:He|rewrite Hno].
  - apply (rz_send _ _ now); [done..|split; [by eexists|apply now_ok]|]. unfold rzincrby_prepare. read_number args s Hs.
    step_with Hget. step_with Hread. rewrite He. apply (ADD_CR_done _ _ _ _ Hc (rzc_clock w k g Hr x)).
  - apply call_refused; [done|]. unfold rzincrby_prepare. read_number args s Hs. step_with Hget. step_with Hread. by rewrite He.
  - apply call_refused; [done|]. unfold rzincrby_prepare. read_number args s Hs. by step_with Hget.
Qed.

Lemma rzrem_client :
  clock_room hdr ->
  let args := ["rzrem"%string; k; x] in
  if EXISTS hdr then rz_applied rzremCommand args (ZRem x (next_stamp now))
  else rz_reply rzremCommand args R_ele_nexist.
Proof.
  intros Hroom args. unfold rz_reply. pose proof (rzc_clock w k g Hr x) as Hck.
  destruct (rze_lookup w k x g Hr args) as [[Hget Hread]|[Hget Hno]]; [destruct (EXISTS hdr) eqn:He|rewrite Hno].
  - apply (rz_send _ _ (next_stamp now)); [done..| |].
    + destruct (next_stamp_ok _ _ Hc Hck Hroom) as (H1 & H2 & _). by split.
    + unfold rzrem_prepare. step_with (check_zset w k g Hr args 3 eq_refl ltac:(cbn; lia)). read_key args.
      step_with Hget. step_with Hread. rewrite He. unfold ADD_CR_RMV. by rewrite (nowVC_vcs _ _ Hc Hck Hroom).
  - apply call_refused; [done|]. unfold rzrem_prepare. step_with (check_zset w k g Hr args 3 eq_refl ltac:(cbn; lia)). read_key args.
    step_with Hget. step_with Hread. by rewrite He.
  - apply call_refused; [done|]. unfold rzrem_prepare. step_with (check_zset w k g Hr args 3 eq_refl ltac:(cbn; lia)). read_key args.
    by step_with Hget.
Qed.
(** What the operation does at its origin. *)
Lemma rz_add_now v :
  EXISTS hdr = false ->
  let e := mkRze (mkReh (p2p_id (srv w)) now) v (acquired (g x).1) in
  rz_effect (g x) (RzAdd v now) = (e, zput (g x).2 (SCORE e)).
Proof.
  intros He e. destruct (rzc_clock w k g Hr x) as (Hsz & Hid & _). unfold rz_effect, rz_rem. cbn [rzop_ts].
  rewrite removeCheck_spec, bool_decide_true by (done || apply vle_refl). cbn [negb]. unfold insertCheck.
  rewrite (proj2 (equalVC_spec _ _)) by done. cbn [negb]. unfold EXISTS in He. destruct Hc as [Hc1 Hc2].
  replace (pid hdr <? vc_id now) with true by (symmetry; apply Z.ltb_lt; apply Z.leb_gt in He; lia). by rewrite Hid.
Qed.

Lemma rz_inc_now v :
  let e := mkRze hdr (innate (g x).1) (dadd (acquired (g x).1) v) in
  rz_effect (g x) (RzInc v now) = (e, zput (g x).2 (SCORE e)).
Proof.
  intros e. unfold rz_effect, rz_rem. cbn [rzop_ts].
  rewrite removeCheck_spec, bool_decide_true by (done || apply vle_refl). cbn [negb]. unfold updateCheck.
  by rewrite (proj2 (equalVC_spec _ _)).
Qed.

Lemma rz_rem_now :
  let p := rz_effect (g x) (RzRem (next_stamp now)) in
  EXISTS (rz_header p.1) = false /\ p.2 = None.
Proof.
  destruct (rzc_clock w k g Hr x) as (Hsz & Hid & _). destruct Hc as [Hc1 Hc2]. unfold vc_size in Hsz.
  unfold rz_effect, rz_rem. cbn [rzop_ts].
  rewrite removeCheck_spec, bool_decide_false; [done| |].
  - apply bump_not_le. lia.
  - unfold vc_size, next_stamp. cbn. by rewrite bump_length.
Qed.
End Client.

(** The requests that are refused whatever the replica holds: those with more
    arguments than the command takes, and those for a key of another type. *)
Lemma rz_refusals w k x s :
  REPLICATION_MODE (srv w) = true ->
  (forall a, a <> [] ->
    rz_reply w rzaddCommand ("rzadd"%string :: k :: x :: s :: a) R_syntaxerr /\
    rz_reply w rzincrbyCommand ("rzincrby"%string :: k :: x :: s :: a) R_syntaxerr /\
    rz_reply w rzremCommand ("rzrem"%string :: k :: x :: a) R_syntaxerr) /\
  (forall o, db (srv w) !! k = Some o -> is_zset o = false ->
    rz_reply w rzaddCommand ["rzadd"%string; k; x; s] R_wrongtypeerr /\
    rz_reply w rzincrbyCommand ["rzincrby"%string; k; x; s] R_wrongtypeerr /\
    rz_reply w rzremCommand ["rzrem"%string; k; x] R_wrongtypeerr).
Proof.
  intros Hm. split.
  - intros a Ha. destruct a as [|y a]; [done|].
    split_and!; (apply call_refused; [done|]); apply zset_syntax; cbn [length]; lia.
  - intros o Ho Hz. split_and!; (apply call_refused; [done|]); apply (zset_wrongtype _ _ _ k o); cbn [length]; done || lia.
Qed.

(** ** Limits *)

Definition shown_after (w : world) (ms : list zmsg) (x : sds) : option double :=
  zdeliver_all "q" w ms ≫= fun w' => shown_score w' "q" x.

Definition t0 : vc := mkVC [0; 0; 0] 0.
Definition tenths : list zmsg := [ZInc "x" "0.1" t0; ZInc "x" "0.2" t0; ZInc "x" "0.3" t0].

(** Three increments of tenths, summed in two orders. *)
Lemma fractions_diverge :
  shown_after (start_world 3 1) (ZAdd "x" "0" t0 :: tenths) "x" = getDoubleFromObject "0.6000000000000001" /\
  shown_after (start_world 3 2) (ZAdd "x" "0" t0 :: reverse tenths) "x" = getDoubleFromObject "0.6" /\
  getDoubleFromObject "0.6000000000000001" <> getDoubleFromObject "0.6".
Proof. vm_compute. split_and!; [done..|]. discriminate. Qed.

(** An increment that overtakes the addition of its element shows an element
    that does not exist. *)
Lemma increment_overtakes :
  shown_after (start_world 3 2) [ZInc "x" "1" t0] "x" = Some (of_Z 1) /\
  EXISTS (rz_header (rz_run (rze_new (srv (start_world 3 2)), None) [RzInc (of_Z 1) t0]).1) = false.
Proof. by vm_compute. Qed.
