(* ===== verification/PNSet.v ===== *)
(** * The PN-set ([t_pnset.c])

    A set whose elements are counters: an add raises the counter to one at its
    origin, a removal lowers it by one, and an element is visible while its
    counter is positive. *)
From Stdlib Require Import ZArith Lia Ascii String.
From stdpp Require Import functions base numbers strings gmap sets list.
From S2P Require Import Prelude Sds VectorClock LamportClock Intset SetType Server RWFramework Container RWSet RWSetStore.
Open Scope Z_scope.

Definition PN_SET_TABLE_SUFFIX : sds := "_pnsets_"%string.

Record pne := mkPne { pne_current : Z }.

Definition pneNew : cmd helem := ret (HPne 0).

Definition pneHTGet (tname key : sds) (create : bool) : cmd (option eref) :=
  HTGet tname PN_SET_TABLE_SUFFIX key create pneNew.

#[global, program] Instance pne_elem : Elem pne := {
  el_suffix := PN_SET_TABLE_SUFFIX;
  el_inj e := HPne (pne_current e);
  el_proj v := match v with HPne c => Some (mkPne c) | _ => None end;
  el_new _ := mkPne 0;
  el_ok _ e := in_llong (pne_current e)
}.
Solve Obligations with try done.
Next Obligation. by intros [c]. Qed.

#[global] Instance pne_stable : ElemStable pne.
Proof. by split. Qed.

Definition read_pne (e : eref) : cmd pne := read_el e.
Definition write_pne (e : eref) (p : pne) : cmd unit := write_el e p.

Section Commands.
Context `{DictOrder}.

(** ** Effects *)

Definition pnsadd_one (setName set : sds) (n i : Z) : cmd unit :=
  let idx := n - 3 - 2 * i in
  ele <- rarg idx ;;
  e <- pneHTGet setName ele true ;;
  e <- deref e ;;
  c <- rarg (idx + 1) ;;
  cnt <- deref (getLongLongFromObject c) ;;
  p <- read_pne e ;;
  let cur := to_llong (pne_current p + cnt) in
  write_pne e (mkPne cur) ;;
  if 0 <? cur then set_add set ele ;; ret tt else ret tt.

Definition pnsaddGenericCommand (setName : sds) : cmd unit := fn (
  n <- rargc ;;
  last <- rarg (n - 1) ;;
  added <- deref (getLongLongFromObject last) ;;
  if added =? 0 then creturn
  else
    sample <- rarg (n - 3) ;;
    set <- getSetOrCreate setName sample ;;
    for_each (Z.of_nat <$> seq 0 (Z.to_nat added)) (pnsadd_one setName set n)).

Definition pnsrem_one (setName set : sds) (n i : Z) : cmd unit :=
  let idx := n - 2 - i in
  ele <- rarg idx ;;
  e <- pneHTGet setName ele true ;;
  e <- deref e ;;
  p <- read_pne e ;;
  let cur := to_llong (pne_current p - 1) in
  write_pne e (mkPne cur) ;;
  if cur <=? 0 then set_remove set ele ;; ret tt else ret tt.

Definition pnsremGenericCommand (setName : sds) : cmd unit := fn (
  n <- rargc ;;
  last <- rarg (n - 1) ;;
  remed <- deref (getLongLongFromObject last) ;;
  if remed =? 0 then creturn
  else
    sample <- rarg (n - 2) ;;
    set <- getSetOrCreate setName sample ;;
    for_each (Z.of_nat <$> seq 0 (Z.to_nat remed)) (pnsrem_one setName set n)).

(** ** Commands *)

(** [set == NULL || !setTypeIsMember(set, ele)]; a key of another type is type
    confusion. *)
Definition not_member (set : option robj) (ele : sds) : cmd bool :=
  match set with
  | None => ret true
  | Some o => so <- as_set o ;; ret (negb (setTypeIsMember so ele))
  end.

(** The pair an add broadcasts: the element and what its counter lacks. *)
Definition pns_pair (key field name : sds) (acc : Z * rvector) : cmd (Z * rvector) :=
  e <- pneHTGet key field true ;;
  e <- deref e ;;
  p <- read_pne e ;;
  let rv := RARGV_ADD_SDS acc.2 (sdsnew name) in
  let cnt := to_llong (1 - pne_current p) in
  ret (acc.1 + 1, RARGV_ADD_SDS rv (sdsfromlonglong cnt)).

Definition pnsadd_loop (key : sds) (set : option robj) (acc : Z * rvector) (a : sds) : cmd (Z * rvector) :=
  b <- not_member set a ;;
  if b then pns_pair key a a acc else ret acc.

Definition pnsadd_prepare : cmd rvector :=
  key <- arg 1 ;;
  set <- lookupKeyRead key ;;
  args <- args_from 2 ;;
  r <- fold_each args (0, RVCT_PREPARE) (pnsadd_loop key set) ;;
  let rv := RARGV_ADD_SDS r.2 (sdsfromlonglong r.1) in
  if r.1 =? 0 then addReply R_ele_exist ;; creturn else ret rv.

Definition pnsaddCommand : cmd unit :=
  CRDT pnsadd_prepare (key <- rarg 1 ;; pnsaddGenericCommand key).

Definition pnsrem_loop (set : robj) (acc : Z * rvector) (a : sds) : cmd (Z * rvector) :=
  so <- as_set set ;;
  if setTypeIsMember so a then ret (acc.1 + 1, RARGV_ADD_SDS acc.2 (sdsnew a)) else ret acc.

Definition pnsrem_prepare : cmd rvector :=
  key <- arg 1 ;;
  set <- lookupKeyWriteOrReply key R_czero ;;
  match set with
  | None => creturn
  | Some o =>
      wrong <- checkType_set o ;;
      if wrong then creturn
      else
        args <- args_from 2 ;;
        r <- fold_each args (0, RVCT_PREPARE) (pnsrem_loop o) ;;
        let rv := RARGV_ADD_SDS r.2 (sdsfromlonglong r.1) in
        if r.1 =? 0 then addReply R_ele_nexist ;; creturn else ret rv
  end.

Definition pnsremCommand : cmd unit :=
  CRDT pnsrem_prepare (key <- rarg 1 ;; pnsremGenericCommand key).

Definition pnsunionstore_loop (key : sds) (set : option robj) (acc : Z * rvector) (ele : sds) : cmd (Z * rvector) :=
  b <- not_member set ele ;;
  if b then pns_pair key (sdsnew ele) ele acc else ret acc.

Definition pnsunionstore_prepare : cmd rvector :=
  key <- arg 1 ;;
  set <- lookupKeyRead key ;;
  keys <- args_from 2 ;;
  dstset <- sunionResult keys createIntsetObject ;;
  r <- fold_each (set_list dstset) (0, RVCT_PREPARE) (pnsunionstore_loop key set) ;;
  ret (RARGV_ADD_SDS r.2 (sdsfromlonglong r.1)).

Definition pnsunionstoreCommand : cmd unit :=
  CRDT pnsunionstore_prepare (key <- rarg 1 ;; pnsaddGenericCommand key).

Definition pns_outside_loop (dstset : setobj) (acc : Z * rvector) (ele : sds) : cmd (Z * rvector) :=
  if negb (setTypeIsMember dstset ele) then ret (acc.1 + 1, RARGV_ADD_SDS acc.2 (sdsnew ele))
  else ret acc.

(** The iterator over a missing destination dereferences null. *)
Definition pnsdiffstore_prepare : cmd rvector :=
  key <- arg 1 ;;
  set <- lookupKeyRead key ;;
  dstset <- sdiffResult 2 createIntsetObject ;;
  set <- deref set ;;
  so <- as_set set ;;
  r <- fold_each (set_list so) (0, RVCT_PREPARE) (pns_outside_loop dstset) ;;
  ret (RARGV_ADD_SDS r.2 (sdsfromlonglong r.1)).

Definition pnsdiffstoreCommand : cmd unit :=
  CRDT pnsdiffstore_prepare (key <- rarg 1 ;; pnsremGenericCommand key).

Definition pnsinterstore_prepare : cmd rvector :=
  key <- arg 1 ;;
  set <- lookupKeyRead key ;;
  dstset <- sinterResult 2 createIntsetObject ;;
  set <- deref set ;;
  so <- as_set set ;;
  r <- fold_each (set_list so) (0, RVCT_PREPARE) (pns_outside_loop dstset) ;;
  ret (RARGV_ADD_SDS r.2 (sdsfromlonglong r.1)).

Definition pnsinterstoreCommand : cmd unit :=
  CRDT pnsinterstore_prepare (key <- rarg 1 ;; pnsremGenericCommand key).
End Commands.

(** ** Counters *)

Inductive pnop := PAdd (c : Z) | PRem.

Definition pn_delta (o : pnop) : Z := match o with PAdd c => c | PRem => -1 end.
Definition pn_effect (e : pne) (o : pnop) : pne := mkPne (to_llong (pne_current e + pn_delta o)).
Definition pn_step (f : sds -> pne) (p : sds * pnop) : sds -> pne := <[p.1 := pn_effect (f p.1) p.2]> f.
Definition pn_run (f : sds -> pne) (ops : list (sds * pnop)) : sds -> pne := foldl pn_step f ops.

(** Adds raise the counter. *)
Definition pnop_ok (o : pnop) : Prop := match o with PAdd c => 1 <= c | PRem => True end.

Definition pn_mag (ops : list (sds * pnop)) : Z := foldr (fun p m => Z.abs (pn_delta p.2) + m) 0 ops.
Definition pn_sum (x : sds) (ops : list (sds * pnop)) : Z :=
  foldr (fun p m => (if decide (p.1 = x) then pn_delta p.2 else 0) + m) 0 ops.

(** No counter can overflow during [ops]. *)
Definition pn_room (f : sds -> pne) (ops : list (sds * pnop)) : Prop :=
  forall x, Z.abs (pne_current (f x)) + pn_mag ops <= LLONG_MAX.

Lemma pn_mag_cons p ops : pn_mag (p :: ops) = Z.abs (pn_delta p.2) + pn_mag ops.
Proof. done. Qed.

Lemma pn_mag_nonneg ops : 0 <= pn_mag ops.
Proof. induction ops as [|[x o] ops IH]; unfold pn_mag in *; cbn; lia. Qed.

Lemma pn_room_step f p ops :
  pn_room f (p :: ops) ->
  in_llong (pne_current (f p.1) + pn_delta p.2) /\ pn_room (pn_step f p) ops.
Proof.
  intros Hr. pose proof (Hr p.1) as Hx. rewrite pn_mag_cons in Hx. pose proof (pn_mag_nonneg ops).
  assert (in_llong (pne_current (f p.1) + pn_delta p.2)) as Hin by clia.
  split; [done|]. intros y. unfold pn_step, pn_effect. destruct (decide (y = p.1)) as [->|Hy].
  - rewrite fn_lookup_insert. cbn. rewrite to_llong_id by done. lia.
  - rewrite fn_lookup_insert_ne by done. specialize (Hr y). rewrite pn_mag_cons in Hr. lia.
Qed.

(** The counter is the sum of the changes. *)
Lemma pn_run_sum f ops x :
  pn_room f ops -> pne_current (pn_run f ops x) = pne_current (f x) + pn_sum x ops.
Proof.
  revert f. induction ops as [|p ops IH]; intros f Hr; cbn [pn_run foldl pn_sum foldr]; [lia|].
  destruct (pn_room_step _ _ _ Hr) as [Hin Hr']. fold (pn_run (pn_step f p) ops). rewrite IH by done.
  fold (pn_sum x ops). unfold pn_step, pn_effect. destruct (decide (p.1 = x)) as [<-|Hne].
  - rewrite fn_lookup_insert. cbn. rewrite to_llong_id by done. lia.
  - rewrite fn_lookup_insert_ne by done. lia.
Qed.

Lemma pn_sum_perm x ops1 ops2 : ops1 ≡ₚ ops2 -> pn_sum x ops1 = pn_sum x ops2.
Proof. induction 1; unfold pn_sum, pn_mag in *; cbn in *; lia. Qed.

Lemma pn_mag_perm ops1 ops2 : ops1 ≡ₚ ops2 -> pn_mag ops1 = pn_mag ops2.
Proof. induction 1; unfold pn_sum, pn_mag in *; cbn in *; lia. Qed.

Lemma pn_mag_app ops1 ops2 : pn_mag (ops1 ++ ops2) = pn_mag ops1 + pn_mag ops2.
Proof. induction ops1 as [|p ops IH]; unfold pn_sum, pn_mag in *; cbn in *; lia. Qed.

Lemma pn_sum_app x ops1 ops2 : pn_sum x (ops1 ++ ops2) = pn_sum x ops1 + pn_sum x ops2.
Proof. induction ops1 as [|p ops IH]; unfold pn_sum, pn_mag in *; cbn in *; lia. Qed.

(** ** Refinement *)

Definition pns (w : world) (k : sds) (f : sds -> pne) : Prop :=
  exists V, rep w k f V /\ forall x, x ∈ V <-> 0 < pne_current (f x).

Lemma pns_srv w w' k f : srv w' = srv w -> pns w k f -> pns w' k f.
Proof.
  intros Hs (V & Hr & Ha). exists V. split; [|done]. eapply rep_config, Hr; rewrite Hs; done.
Qed.

Lemma pns_visible w k f x : pns w k f -> x ∈ visible w k <-> 0 < pne_current (f x).
Proof.
  intros (V & Hr & Ha). rewrite <- (Ha x). pose proof (rep_set _ _ _ _ Hr) as Hs.
  unfold shape_set, shape_obj, set_shape in Hs. unfold visible. destruct (db (srv w) !! k) as [[|so| | | |]|]; try done.
  - by destruct Hs as [_ ->].
  - by rewrite Hs.
Qed.

Section Refinement.
Context `{DictOrder}.

Lemma pneHTGet_pns w k f x :
  pns w k f ->
  exists w', pneHTGet k x true w = Done (Some (htname (E := pne) k, x)) w' /\
    pns w' k f /\ frame (E := pne) k w w' /\ has (E := pne) w' k x.
Proof.
  intros (V & Hr & Ha). destruct (elHTGet_true w k f V x Hr) as (w' & Hw' & Hr' & Hf' & Hx).
  exists w'. split_and!; [exact Hw'| |done..]. by exists V.
Qed.

(** One iteration of each effect. *)
Lemma pnsadd_one_pns w k f n i l x s c :
  pns w k f -> hasset w k -> rargv (cli w) = Some l ->
  index l (n - 3 - 2 * i) = Some x -> index l (n - 3 - 2 * i + 1) = Some s ->
  string2ll s = Some c -> 1 <= c -> in_llong (pne_current (f x) + c) ->
  exists w', pnsadd_one k k n i w = Done tt w' /\ pns w' k (pn_step f (x, PAdd c)) /\ frame (E := pne) k w w'.
Proof.
  intros Hr Hset Hl Hx Hs Hp Hc Hin. unfold pnsadd_one.
  step_with (rarg_done _ _ _ _ Hl Hx).
  destruct (pneHTGet_pns w k f x Hr) as (w1 & Hw1 & (V & Hr1 & Ha1) & Hf1 & Hx1).
  assert (rargv (cli w1) = Some l) as Hl1 by (by rewrite (fr_cli _ _ _ Hf1)).
  step_with Hw1. step_with (deref_some _ _). step_with (rarg_done _ _ _ _ Hl1 Hs).
  unfold getLongLongFromObject. rewrite Hp. step_with (deref_some _ _).
  step_with (read_el_rep _ _ _ _ _ Hr1 Hx1). cbn zeta. rewrite to_llong_id by done.
  destruct (write_el_rep w1 k f V x (mkPne (pne_current (f x) + c)) Hr1 Hx1 Hin) as (w2 & Hw2 & Hr2 & Hf2).
  step_with Hw2. unfold pn_step, pn_effect. cbn [fst snd pn_delta]. rewrite to_llong_id by done.
  destruct (Z.ltb_spec 0 (pne_current (f x) + c)).
  - destruct (set_add_rep w2 k _ V x Hr2) as (w3 & Hw3 & Hr3 & Hf3).
    { eapply fr_hasset, fr_hasset, Hset; [exact Hf2|exact Hf1]. }
    step_with Hw3. exists w3. split; [done|]. split; [|by rewrite Hf1, Hf2].
    exists ({[x]} ∪ V). split; [done|]. intros y. destruct (decide (y = x)) as [->|Hy].
    + rewrite fn_lookup_insert. cbn. set_solver.
    + rewrite fn_lookup_insert_ne by done. rewrite <- (Ha1 y). set_solver.
  - exists w2. split; [done|]. split; [|by rewrite Hf1].
    exists V. split; [done|]. intros y. destruct (decide (y = x)) as [->|Hy].
    + rewrite fn_lookup_insert. cbn. rewrite (Ha1 x). lia.
    + by rewrite fn_lookup_insert_ne.
Qed.

Lemma pnsrem_one_pns w k f n i l x :
  pns w k f -> hasset w k -> rargv (cli w) = Some l -> index l (n - 2 - i) = Some x ->
  in_llong (pne_current (f x) - 1) ->
  exists w', pnsrem_one k k n i w = Done tt w' /\ pns w' k (pn_step f (x, PRem)) /\ frame (E := pne) k w w'.
Proof.
  intros Hr Hset Hl Hx Hin. unfold pnsrem_one.
  step_with (rarg_done _ _ _ _ Hl Hx).
  destruct (pneHTGet_pns w k f x Hr) as (w1 & Hw1 & (V & Hr1 & Ha1) & Hf1 & Hx1).
  step_with Hw1. step_with (deref_some _ _). step_with (read_el_rep _ _ _ _ _ Hr1 Hx1).
  cbn zeta. rewrite to_llong_id by done.
  destruct (write_el_rep w1 k f V x (mkPne (pne_current (f x) - 1)) Hr1 Hx1 Hin) as (w2 & Hw2 & Hr2 & Hf2).
  step_with Hw2. unfold pn_step, pn_effect. cbn [fst snd pn_delta].
  change (pne_current (f x) + -1) with (pne_current (f x) - 1). rewrite to_llong_id by done.
  destruct (Z.leb_spec (pne_current (f x) - 1) 0).
  - destruct (set_remove_rep w2 k _ V x Hr2) as (w3 & Hw3 & Hr3 & Hf3).
    { eapply fr_hasset, fr_hasset, Hset; [exact Hf2|exact Hf1]. }
    step_with Hw3. exists w3. split; [done|]. split; [|by rewrite Hf1, Hf2].
    exists (V ∖ {[x]}). split; [done|]. intros y. destruct (decide (y = x)) as [->|Hy].
    + rewrite fn_lookup_insert. cbn. split; [set_solver|lia].
    + rewrite fn_lookup_insert_ne by done. rewrite <- (Ha1 y). set_solver.
  - exists w2. split; [done|]. split; [|by rewrite Hf1].
    exists V. split; [done|]. intros y. destruct (decide (y = x)) as [->|Hy].
    + rewrite fn_lookup_insert. cbn. rewrite (Ha1 x). lia.
    + by rewrite fn_lookup_insert_ne.
Qed.

(** A loop that applies [ops], each within range. *)
Lemma pn_loop (body : Z -> cmd unit) ops k w f :
  pns w k f -> pn_room f ops ->
  (forall i o w1 f1, ops !! i = Some o -> pns w1 k f1 -> frame (E := pne) k w w1 ->
     in_llong (pne_current (f1 o.1) + pn_delta o.2) ->
     exists w2, body (Z.of_nat i) w1 = Done tt w2 /\ pns w2 k (pn_step f1 o) /\ frame (E := pne) k w1 w2) ->
  exists w', for_each (Z.of_nat <$> seq 0 (length ops)) body w = Done tt w' /\
    pns w' k (pn_run f ops) /\ frame (E := pne) k w w'.
Proof.
  intros Hr Hroom Hbody. apply (effect_steps (fun f w => pns w k f) pn_step); [done|].
  intros i o w1 Ho Hr1 Hf1. apply Hbody; try done.
  assert (forall ops f i o, pn_room f ops -> ops !! i = Some o ->
    in_llong (pne_current (foldl pn_step f (take i ops) o.1) + pn_delta o.2)) as Hin; [|by apply Hin].
  clear. induction ops as [|p ops IH]; intros f i o Hroom Ho; [done|].
  destruct (pn_room_step _ _ _ Hroom) as [Hp Hr']. destruct i as [|i].
  - injection Ho as ->. exact Hp.
  - cbn [take foldl]. by apply IH.
Qed.
End Refinement.

(** ** Messages *)

Definition pn_decodes (p : sds * sds) (o : sds * pnop) : Prop :=
  o.1 = p.1 /\ exists c, string2ll p.2 = Some c /\ 1 <= c /\ o.2 = PAdd c.

(** The arguments of a removal: the elements and their number. *)
Definition names_args (xs : list sds) : list sds := xs ++ [sdsfromlonglong (Z.of_nat (length xs))].

Lemma names_index pre xs i x n :
  n = Z.of_nat (length (pre ++ names_args xs)) -> reverse xs !! i = Some x ->
  index (pre ++ names_args xs) (n - 2 - Z.of_nat i) = Some x.
Proof.
  intros -> Hi. pose proof (lookup_lt_Some _ _ _ Hi) as Hlt. rewrite length_reverse in Hlt.
  rewrite reverse_lookup in Hi by lia. unfold names_args. rewrite !length_app. cbn [length].
  rewrite (index_lookup _ _ (length pre + (length xs - S i))) by lia.
  rewrite lookup_app_r by lia. rewrite lookup_app_l by lia. rewrite <- Hi. f_equal. lia.
Qed.

Lemma names_count pre xs n :
  n = Z.of_nat (length (pre ++ names_args xs)) ->
  index (pre ++ names_args xs) (n - 1) = Some (sdsfromlonglong (Z.of_nat (length xs))).
Proof.
  intros ->. unfold names_args. rewrite !length_app. cbn [length].
  rewrite (index_lookup _ _ (length pre + length xs)) by lia.
  rewrite lookup_app_r by lia. rewrite lookup_app_r by lia.
  replace (_ - _ - _)%nat with 0%nat by lia. done.
Qed.

Section Effects.
Context `{DictOrder}.

Lemma pnsaddGeneric_pns w k f pre pairs ops :
  pns w k f -> rargv (cli w) = Some (pre ++ msg_args pairs) -> Z.of_nat (length pairs) <= INT_MAX ->
  Forall2 pn_decodes pairs ops -> pn_room f ops ->
  exists w', pnsaddGenericCommand k w = Done tt w' /\
    pns w' k (pn_run f (reverse ops)) /\ frame (E := pne) k w w'.
Proof.
  intros Hr Hl Hmax Hdec Hroom. pose proof (Forall2_length _ _ _ Hdec) as Hlen.
  unfold pnsaddGenericCommand, fn. step_with (rargc_done _ _ Hl).
  set (n := Z.of_nat (length (pre ++ msg_args pairs))). step_with (rarg_done _ _ _ _ Hl (msg_count pre pairs n eq_refl)).
  rewrite count_parse by done. step_with (deref_some _ _).
  destruct (Z.eqb_spec (Z.of_nat (length pairs)) 0).
  { exists w. split; [done|]. split; [|done]. destruct ops; [done|]. cbn in Hlen. lia. }
  destruct (lookup_lt_is_Some_2 (reverse pairs) 0) as [p0 Hp0]; [rewrite length_reverse; lia|].
  destruct (msg_index pre pairs 0 p0 n eq_refl Hp0) as [Hx0 _].
  replace (n - 3 - 2 * Z.of_nat 0) with (n - 3) in Hx0 by lia.
  step_with (rarg_done _ _ _ _ Hl Hx0). destruct Hr as (V & Hr & Ha).
  destruct (getSetOrCreate_rep w k f V p0.1 Hr) as (w1 & Hw1 & Hr1 & Hf1 & Hs1).
  step_with Hw1. rewrite Nat2Z.id, Hlen, <- (length_reverse ops).
  destruct (pn_loop (pnsadd_one k k n) (reverse ops) k w1 f) as (w2 & Hw2 & Hr2 & Hf2).
  - by exists V.
  - intros x. by rewrite (pn_mag_perm _ _ (reverse_Permutation ops)).
  - intros i [x o] w3 f3 Ho Hr3 Hf3 Hin.
    destruct (Forall2_lookup_r _ _ _ i _ (Forall2_reverse _ _ _ Hdec) Ho) as (p & Hp & Hx & c & Hc & Hc1 & Hoc).
    cbn in Hx, Hoc. subst x o. destruct (msg_index pre pairs i p n eq_refl Hp) as [Hx Hs].
    eapply pnsadd_one_pns; try done; [by eapply fr_hasset|].
    by rewrite (fr_cli _ _ _ Hf3), (fr_cli _ _ _ Hf1).
  - exists w2. rewrite Hw2. split_and!; [done..|]. by rewrite Hf1.
Qed.

Lemma pnsremGeneric_pns w k f pre xs :
  pns w k f -> rargv (cli w) = Some (pre ++ names_args xs) -> Z.of_nat (length xs) <= INT_MAX ->
  pn_room f ((., PRem) <$> xs) ->
  exists w', pnsremGenericCommand k w = Done tt w' /\
    pns w' k (pn_run f ((., PRem) <$> reverse xs)) /\ frame (E := pne) k w w'.
Proof.
  intros Hr Hl Hmax Hroom.
  unfold pnsremGenericCommand, fn. step_with (rargc_done _ _ Hl).
  set (n := Z.of_nat (length (pre ++ names_args xs))). step_with (rarg_done _ _ _ _ Hl (names_count pre xs n eq_refl)).
  unfold getLongLongFromObject. rewrite string2ll_print by clia. step_with (deref_some _ _).
  destruct (Z.eqb_spec (Z.of_nat (length xs)) 0).
  { exists w. split; [done|]. split; [|done]. destruct xs; [done|]. cbn in *. lia. }
  destruct (lookup_lt_is_Some_2 (reverse xs) 0) as [x0 Hx0]; [rewrite length_reverse; lia|].
  pose proof (names_index pre xs 0 x0 n eq_refl Hx0) as Hi0.
  replace (n - 2 - Z.of_nat 0) with (n - 2) in Hi0 by lia.
  step_with (rarg_done _ _ _ _ Hl Hi0). destruct Hr as (V & Hr & Ha).
  destruct (getSetOrCreate_rep w k f V x0 Hr) as (w1 & Hw1 & Hr1 & Hf1 & Hs1).
  step_with Hw1. rewrite Nat2Z.id, <- (length_reverse xs), <- (length_fmap (., PRem) (reverse xs)).
  destruct (pn_loop (pnsrem_one k k n) ((., PRem) <$> reverse xs) k w1 f) as (w2 & Hw2 & Hr2 & Hf2).
  - by exists V.
  - intros x. specialize (Hroom x). rewrite (pn_mag_perm _ ((., PRem) <$> xs)); [done|].
    apply fmap_Permutation, reverse_Permutation.
  - intros i [x o] w3 f3 Ho Hr3 Hf3 Hin. rewrite list_lookup_fmap in Ho.
    destruct (reverse xs !! i) as [y|] eqn:Hy; [|done]. injection Ho as -> <-.
    eapply pnsrem_one_pns; try done; [by eapply fr_hasset| |by apply (names_index pre xs)].
    by rewrite (fr_cli _ _ _ Hf3), (fr_cli _ _ _ Hf1).
  - exists w2. rewrite Hw2. split_and!; [done..|]. by rewrite Hf1.
Qed.
End Effects.

(** A broadcast message and the operations it carries, in the order the effect
    applies them. *)
Record pmsg := mkPmsg { pm_add : bool; pm_args : list sds; pm_ops : list (sds * pnop) }.

Definition pm_wf (k : sds) (m : pmsg) : Prop :=
  if pm_add m then
    exists pre pairs ops, pm_args m = pre ++ msg_args pairs /\ index pre 1 = Some k /\
      Z.of_nat (length pairs) <= INT_MAX /\ Forall2 pn_decodes pairs ops /\ pm_ops m = reverse ops
  else
    exists pre xs, pm_args m = pre ++ names_args xs /\ index pre 1 = Some k /\
      Z.of_nat (length xs) <= INT_MAX /\ pm_ops m = (., PRem) <$> reverse xs.

Section Delivery.
Context `{DictOrder}.

Definition pn_deliver (w : world) (m : pmsg) : outcome world unit :=
  call 0 (if pm_add m then pnsaddCommand else pnsremCommand) (delivery w (pm_args m)).

Fixpoint pn_deliver_all (w : world) (ms : list pmsg) : option world :=
  match ms with
  | [] => Some w
  | m :: ms => match pn_deliver w m with Done _ w' => pn_deliver_all w' ms | _ => None end
  end.

Lemma pn_deliver_pns w k f m :
  pns w k f -> REPLICATION_MODE (srv w) = true -> pm_wf k m -> pn_room f (pm_ops m) ->
  exists w', pn_deliver w m = Done tt w' /\ pns w' k (pn_run f (pm_ops m)) /\
    REPLICATION_MODE (srv w') = true.
Proof.
  intros Hr Hm Hwf Hroom.
  set (w0 := mkWorld (srv w) (mkClient (pm_args m) (Some (pm_args m)) true false [])).
  assert (pns w0 k f) as Hr0 by (by eapply pns_srv, Hr).
  assert (index (pm_args m) 1 = Some k /\
    exists w1, (if pm_add m then pnsaddGenericCommand k else pnsremGenericCommand k) w0 = Done tt w1 /\
    pns w1 k (pn_run f (pm_ops m)) /\ frame (E := pne) k w0 w1) as (Hk & w1 & Hw1 & Hr1 & Hf1).
  { unfold pm_wf in Hwf. destruct (pm_add m).
    - destruct Hwf as (pre & pairs & ops & Ha & Hk & Hmax & Hdec & Hops). split.
      { rewrite Ha. unfold index in *. cbn in *. by apply lookup_app_l_Some. }
      rewrite Hops. apply (pnsaddGeneric_pns w0 k f pre pairs); try done; [cbn; by rewrite Ha|].
      intros x. rewrite <- (pn_mag_perm _ _ (reverse_Permutation ops)), <- Hops. apply Hroom.
    - destruct Hwf as (pre & xs & Ha & Hk & Hmax & Hops). split.
      { rewrite Ha. unfold index in *. cbn in *. by apply lookup_app_l_Some. }
      rewrite Hops. apply (pnsremGeneric_pns w0 k f pre xs); try done; [cbn; by rewrite Ha|].
      intros x. specialize (Hroom x). rewrite Hops in Hroom.
      rewrite (pn_mag_perm _ ((., PRem) <$> reverse xs)); [done|].
      apply fmap_Permutation. symmetry. apply reverse_Permutation. }
  assert (rarg 1 w0 = Done k w0) as Hk0 by (by eapply rarg_done).
  assert (cli w1 = cli w0) as Hcli by apply (fr_cli _ _ _ Hf1).
  assert ((if pm_add m then pnsaddCommand else pnsremCommand) w0 = Return w1) as Hcmd.
  { destruct (pm_add m); (apply CRDT_delivery; [done|done| |by rewrite Hcli]); by step_with Hk0. }
  exists (set_client (set_rargv None) w1). split_and!.
  - apply call_delivery; [done|exact Hcmd|by rewrite Hcli].
  - by eapply pns_srv, Hr1.
  - unfold REPLICATION_MODE in *. cbn. by rewrite (fr_replicas _ _ _ Hf1), (sc_count _ _ (fr_config _ _ _ Hf1)).
Qed.

Definition pn_all_ops (ms : list pmsg) : list (sds * pnop) := ms ≫= pm_ops.

Lemma pn_room_run f ops1 ops2 : pn_room f (ops1 ++ ops2) -> pn_room f ops1 /\ pn_room (pn_run f ops1) ops2.
Proof.
  revert f. induction ops1 as [|p ops1 IH]; intros f Hr.
  - split; [|done]. intros x. specialize (Hr x). pose proof (pn_mag_nonneg ops2). cbn [app] in Hr. change (pn_mag []) with 0. lia.
  - destruct (pn_room_step _ _ _ Hr) as [_ Hr']. destruct (IH _ Hr') as [H1 H2]. split; [|done].
    intros x. specialize (Hr x). cbn [app] in Hr. rewrite pn_mag_cons, pn_mag_app in Hr.
    rewrite pn_mag_cons. pose proof (pn_mag_nonneg ops2). lia.
Qed.

Lemma pn_deliver_all_pns w k f ms :
  pns w k f -> REPLICATION_MODE (srv w) = true -> Forall (pm_wf k) ms -> pn_room f (pn_all_ops ms) ->
  exists w', pn_deliver_all w ms = Some w' /\ pns w' k (pn_run f (pn_all_ops ms)).
Proof.
  revert w f. induction ms as [|m ms IH]; intros w f Hr Hm Hwf Hroom; cbn [pn_deliver_all].
  - by exists w.
  - apply Forall_cons_1 in Hwf as [Hwf Hwfs]. cbn in Hroom. destruct (pn_room_run _ _ _ Hroom) as [Hr1 Hr2].
    destruct (pn_deliver_pns w k f m Hr Hm Hwf Hr1) as (w1 & -> & Hw1 & Hm1).
    destruct (IH w1 _ Hw1 Hm1 Hwfs Hr2) as (w' & Hw' & Hr').
    exists w'. split; [done|]. unfold pn_all_ops, pn_run in *. cbn. by rewrite foldl_app.
Qed.

Lemma pn_untouched w k :
  db (srv w) !! k = None -> db (srv w) !! htname (E := pne) k = None ->
  max_ok (set_max_intset_entries (srv w)) -> pns w k (fun _ => mkPne 0).
Proof.
  intros H1 H2 H3. exists ∅. split; [split|].
  - unfold shape_set, shape_obj, set_shape. by rewrite H1.
  - unfold shape_hash. by rewrite H2.
  - done.
  - intros x. change (pne_current (mkPne 0)) with 0. split; [|lia]. intros Hx. by apply not_elem_of_empty in Hx.
Qed.

(** A key no PN-set command has touched. *)
Definition pn_fresh (w : world) (k : sds) : Prop :=
  db (srv w) !! k = None /\ db (srv w) !! htname (E := pne) k = None /\
  max_ok (set_max_intset_entries (srv w)) /\ REPLICATION_MODE (srv w) = true.

(** Replicas that received the same messages once each, in any order, show the
    same set: the elements with a positive balance. *)
Lemma pnset_converges w1 w2 k ms1 ms2 :
  pn_fresh w1 k -> pn_fresh w2 k -> Forall (pm_wf k) ms1 -> ms1 ≡ₚ ms2 ->
  pn_mag (pn_all_ops ms1) <= LLONG_MAX ->
  exists w1' w2', pn_deliver_all w1 ms1 = Some w1' /\ pn_deliver_all w2 ms2 = Some w2' /\
    visible w1' k = visible w2' k /\
    (forall x, x ∈ visible w1' k <-> 0 < pn_sum x (pn_all_ops ms1)).
Proof.
  intros (H1 & H2 & H3 & Hm1) (H4 & H5 & H6 & Hm2) Hwf Hperm Hmag.
  assert (pn_all_ops ms1 ≡ₚ pn_all_ops ms2) as Hops by (unfold pn_all_ops; by rewrite Hperm).
  assert (pn_room (fun _ => mkPne 0) (pn_all_ops ms1)) as Hr1 by (intros x; cbn; lia).
  assert (pn_room (fun _ => mkPne 0) (pn_all_ops ms2)) as Hr2
    by (intros x; cbn; rewrite <- (pn_mag_perm _ _ Hops); lia).
  destruct (pn_deliver_all_pns w1 k _ ms1 (pn_untouched _ _ H1 H2 H3) Hm1 Hwf Hr1) as (w1' & Hd1 & Hp1).
  destruct (pn_deliver_all_pns w2 k _ ms2 (pn_untouched _ _ H4 H5 H6) Hm2) as (w2' & Hd2 & Hp2);
    [by rewrite <- Hperm|done|].
  exists w1', w2'. split_and!; [done..| |].
  - apply set_eq. intros x. rewrite (pns_visible _ _ _ x Hp1), (pns_visible _ _ _ x Hp2).
    rewrite !pn_run_sum by done. by rewrite (pn_sum_perm x _ _ Hops).
  - intros x. rewrite (pns_visible _ _ _ x Hp1), pn_run_sum by done. done.
Qed.
End Delivery.

(** ** What a client observes *)

Section Client.
Context `{DictOrder}.

(** The operations [pnsadd] and [pnsrem] issue. *)
Definition pn_add_ops (f : sds -> pne) (xs : list sds) : list (sds * pnop) :=
  (fun a => (a, PAdd (1 - pne_current (f a)))) <$> filter (fun a => negb (0 <? pne_current (f a))) xs.
Definition pn_rem_names (f : sds -> pne) (xs : list sds) : list sds :=
  filter (fun a => 0 <? pne_current (f a)) xs.

Lemma pns_member w k f so x :
  pns w k f -> db (srv w) !! k = Some (OSet so) -> setTypeIsMember so x = (0 <? pne_current (f x)).
Proof.
  intros (V & Hr & Ha) Hso. pose proof (rep_set _ _ _ _ Hr) as Hs. unfold shape_set, shape_obj, set_shape in Hs.
  rewrite Hso in Hs. destruct Hs as [Hok ->]. rewrite (setTypeIsMember_spec _ _ _ Hok).
  destruct (Z.ltb_spec 0 (pne_current (f x))) as [Hp|Hp].
  - apply bool_decide_true. by apply Ha.
  - apply bool_decide_false. intros Hin. apply Ha in Hin. lia.
Qed.

Lemma pns_not_member w k f x :
  pns w k f -> not_member (db (srv w) !! k) x w = Done (negb (0 <? pne_current (f x))) w.
Proof.
  intros Hr. destruct (db (srv w) !! k) as [o|] eqn:Hk; cbn.
  - pose proof Hr as (V & Hr' & _). pose proof (rep_set _ _ _ _ Hr') as Hs. unfold shape_set, shape_obj, set_shape in Hs.
    rewrite Hk in Hs. destruct o as [|so| | | |]; try done. rewrite (bind_done _ _ _ so w) by done.
    by rewrite (pns_member _ _ _ _ x Hr Hk).
  - destruct (Z.ltb_spec 0 (pne_current (f x))) as [Hp|Hp]; [|done].
    apply (pns_visible _ _ _ x Hr) in Hp. unfold visible in Hp. rewrite Hk in Hp. set_solver.
Qed.

Lemma pns_counter_ok w k f x : pns w k f -> in_llong (pne_current (f x)).
Proof. intros (V & Hr & _). apply (rep_el_ok _ _ _ _ x Hr). Qed.

(** Enough room to raise every counter. *)
Definition pn_raise (f : sds -> pne) : Prop := forall x, in_llong (1 - pne_current (f x)).

Lemma pnsadd_loop_spec w k f xs :
  pns w k f -> pn_raise f -> (forall x, x ∈ xs -> nul_free x) ->
  exists w' pairs rv,
    fold_each xs (0, RVCT_PREPARE) (pnsadd_loop k (db (srv w) !! k)) w = Done (Z.of_nat (length pairs), rv) w' /\
    rv_items rv = pair_args pairs /\ Forall2 pn_decodes pairs (pn_add_ops f xs) /\
    pns w' k f /\ frame (E := pne) k w w'.
Proof.
  intros Hr Hraise Hnul.
  destruct (prepare_chunks (E := pne) (fun w1 => pns w1 k f /\ db (srv w1) !! k = db (srv w) !! k)
    (fun ch o => exists p, ch = [p.1; p.2] /\ pn_decodes p o) (pnsadd_loop k (db (srv w) !! k))
    (fun a => negb (0 <? pne_current (f a))) (fun a => (a, PAdd (1 - pne_current (f a)))) k w xs)
    as (w' & chunks & rv & Hw' & Hrv & HD & [Hr' _] & Hf'); [done| |].
  - intros acc a w1 Ha [Hr1 Hdb1] Hf1. unfold pnsadd_loop.
    pose proof (pns_not_member w1 k f a Hr1) as Hn. rewrite Hdb1 in Hn.
    destruct (negb (0 <? pne_current (f a))) eqn:Hsel.
    + destruct (pneHTGet_pns w1 k f a Hr1) as (w2 & Hw2 & Hr2 & Hf2 & Ha2).
      assert (db (srv w2) !! k = db (srv w) !! k) as Hdb2.
      { rewrite <- Hdb1. exact (elHTGet_set (E := pne) _ _ _ _ _ Hw2). }
      exists w2. split_and!; [done..|]. step_with Hn. unfold pns_pair. step_with Hw2.
      step_with (deref_some _ _). destruct Hr2 as (V & Hr2 & Hag). step_with (read_el_rep _ _ _ _ _ Hr2 Ha2).
      rewrite to_llong_id by apply Hraise. rewrite (sdsnew_nul_free a) by auto.
      eexists _, [a; sdsfromlonglong (1 - pne_current (f a))]. split; [done|].
      split; [cbn; by rewrite <- app_assoc|]. eexists (_, _). split; [done|]. split; [done|].
      eexists. split; [by apply string2ll_print|]. split; [|done]. lia.
    + exists w1. split_and!; [done..|]. by step_with Hn.
  - destruct (chunks_pairs _ _ _ HD) as (pairs & Hc & Hl & Hdec).
    exists w', pairs, rv. rewrite Hl, <- Hc. by split_and!.
Qed.

Lemma pn_add_ops_sum f xs x :
  if decide (x ∈ xs /\ pne_current (f x) <= 0)
  then 1 - pne_current (f x) <= pn_sum x (pn_add_ops f xs) else pn_sum x (pn_add_ops f xs) = 0.
Proof.
  unfold pn_add_ops. induction xs as [|a xs IH]; [by rewrite decide_False by set_solver|].
  assert (forall b o ops, pn_sum x ((b, o) :: ops) = (if decide (b = x) then pn_delta o else 0) + pn_sum x ops)
    as Hcons by done.
  destruct (Z.ltb_spec 0 (pne_current (f a))) as [Hp|Hp].
  - rewrite filter_cons_False by (destruct (Z.ltb_spec 0 (pne_current (f a))); [cbn; tauto|lia]).
    destruct (decide (x ∈ a :: xs /\ _)) as [H1|H1]; destruct (decide (x ∈ xs /\ _)) as [H2|H2]; try done; exfalso.
    + destruct H1 as [[->|?]%elem_of_cons ?]; [lia|tauto].
    + apply H1. destruct H2. split; [by right|done].
  - rewrite filter_cons_True by (destruct (Z.ltb_spec 0 (pne_current (f a))); [lia|done]).
    cbn [fmap list_fmap]. rewrite Hcons. cbn [pn_delta]. destruct (decide (a = x)) as [->|Hne].
    + rewrite decide_True by (split; [by left|done]). case_decide; lia.
    + destruct (decide (x ∈ a :: xs /\ _)) as [H1|H1]; destruct (decide (x ∈ xs /\ _)) as [H2|H2]; try lia; exfalso.
      * destruct H1 as [[->|?]%elem_of_cons ?]; tauto.
      * apply H1. destruct H2. split; [by right|done].
Qed.

Lemma pns_call w w' k f : db (srv w') = db (srv w) -> same_config (srv w) (srv w') -> pns w k f -> pns w' k f.
Proof. intros Hd Hc (V & Hr & Ha). exists V. split; [|done]. by eapply rep_config. Qed.

(** [call] keeps what the handler left. *)
Lemma call_pns proc w k f w1 args :
  proc (request w args) = Return w1 -> is_replica (cli w1) = false -> pns w1 k f ->
  exists w2, call 0 proc (request w args) = Done tt w2 /\ cli w2 = cli w1 /\ pns w2 k f.
Proof.
  intros Hp Hrep Hr. destruct (rargv (cli w1)) as [m|] eqn:Hm.
  - destruct (call_origin 0 proc (request w args) w1 m) as (w2 & Hw2 & Hcli & Hdb & H1 & H2 & H3 & _);
      [done..|]. exists w2. split_and!; [done..|]. by eapply pns_call.
  - exists w1. split; [by apply call_no_broadcast|done].
Qed.

(** [pnsadd]: the elements become visible, whatever their counters were. *)
Lemma pnsadd_client w k f c0 xs :
  pns w k f -> REPLICATION_MODE (srv w) = true -> (forall x, x ∈ xs -> nul_free x) ->
  pn_raise f -> pn_room f (pn_add_ops f xs) -> Z.of_nat (length xs) <= INT_MAX ->
  exists w' f', call 0 pnsaddCommand (request w (c0 :: k :: xs)) = Done tt w' /\ pns w' k f' /\
    visible w' k = list_to_set xs ∪ visible w k /\
    replies (cli w') = [if decide (length (pn_add_ops f xs) = 0)%nat then R_ele_exist else R_ok].
Proof.
  intros Hr Hm Hnul Hraise Hroom Hmax. set (w0 := request w (c0 :: k :: xs)).
  destruct (args_12 w0 c0 k xs eq_refl) as [H1 H2].
  assert (pns w0 k f) as Hr0 by (by eapply pns_srv, Hr).
  destruct (pnsadd_loop_spec w0 k f xs Hr0 Hraise Hnul) as (w1 & pairs & rv & Hw1 & Hrv & Hdec & Hr1 & Hf1).
  pose proof (Forall2_length _ _ _ Hdec) as Hlen.
  assert (length (pn_add_ops f xs) <= length xs)%nat
    by (unfold pn_add_ops; rewrite length_fmap; apply length_filter).
  set (rv' := RARGV_ADD_SDS rv (sdsfromlonglong (Z.of_nat (length pairs)))).
  assert (pnsadd_prepare w0 = if decide (length (pn_add_ops f xs) = 0)%nat
    then Return (set_client (push_reply R_ele_exist) w1) else Done rv' w1) as Hp.
  { unfold pnsadd_prepare. step_with H1. step_with (lookupKey_done _ _). step_with H2. step_with Hw1.
    cbn [fst snd]. rewrite <- Hlen.
    assert (is_replica (cli w1) = false) as Hrep by (by rewrite (fr_cli _ _ _ Hf1)).
    case_decide as Hz; destruct (Z.eqb_spec (Z.of_nat (length pairs)) 0); try lia; [|done].
    by step_with (addReply_done R_ele_exist _ Hrep). }
  enough (exists w2, pnsaddCommand w0 = Return w2 /\ pns w2 k (pn_run f (reverse (pn_add_ops f xs))) /\
    cli w2 = if decide (length (pn_add_ops f xs) = 0)%nat then mkClient (c0 :: k :: xs) None false false [R_ele_exist]
             else mkClient (c0 :: k :: xs) (Some ((c0 :: k :: xs) ++ rv_items rv')) false false [R_ok])
    as (w2 & Hw2 & Hr2 & Hcli2).
  { destruct (call_pns _ _ _ _ _ _ Hw2 ltac:(rewrite Hcli2; by case_decide) Hr2) as (w3 & Hw3 & Hcli3 & Hr3).
    eexists w3, _. split_and!; [exact Hw3|exact Hr3| |by rewrite Hcli3, Hcli2; case_decide].
    apply set_eq. intros x. rewrite (pns_visible _ _ _ x Hr3), elem_of_union, elem_of_list_to_set, (pns_visible _ _ _ x Hr).
    rewrite pn_run_sum by (intros y; by rewrite (pn_mag_perm _ _ (reverse_Permutation _))).
    rewrite (pn_sum_perm x _ _ (reverse_Permutation _)).
    pose proof (pn_add_ops_sum f xs x) as Hs. case_decide as Hd; [intuition lia|].
    rewrite Hs, Z.add_0_r. destruct (decide (x ∈ xs)); intuition lia. }
  case_decide as Hz.
  - eexists. split; [apply CRDT_origin_return; [done..|exact Hp]|]. cbn. rewrite (fr_cli _ _ _ Hf1).
    split; [|done]. apply length_zero_iff_nil in Hz. rewrite Hz. by eapply pns_srv, Hr1.
  - assert (rv_items rv' = msg_args pairs) as Hrv' by (unfold rv'; cbn; by rewrite Hrv).
    set (w2 := mkWorld (srv w1) (mkClient (c0 :: k :: xs) (Some ((c0 :: k :: xs) ++ rv_items rv')) false false [R_ok])).
    destruct (pnsaddGeneric_pns w2 k f (c0 :: k :: xs) pairs (pn_add_ops f xs)) as (w3 & Hw3 & Hr3 & Hf3);
      [by eapply pns_srv, Hr1|unfold w2; cbn [cli rargv]; by rewrite Hrv'|lia|done..|].
    destruct (origin_run (E := pne) pnsadd_prepare (key <- rarg 1 ;; pnsaddGenericCommand key) w (c0 :: k :: xs) k rv' w1 w3)
      as (Hrun & Hcli & _); [done..| |done|].
    { fold w2. rewrite (bind_done _ _ _ k w2) by (by eapply rarg_done). exact Hw3. }
    exists w3. by split_and!.
Qed.

(** A missing destination crashes [pnsdiffstore] and [pnsinterstore]. *)
Lemma pnsdiffstore_missing w k c0 k1 ks :
  REPLICATION_MODE (srv w) = true -> world_max_ok w -> db (srv w) !! k = None ->
  set_key w k1 -> Forall (set_key w) ks ->
  call 0 pnsdiffstoreCommand (request w (c0 :: k :: k1 :: ks)) = Crash.
Proof.
  intros Hm Hmax Hk Hk1 Hks. set (w0 := request w (c0 :: k :: k1 :: ks)).
  destruct (args_12 w0 c0 k (k1 :: ks) eq_refl) as [H1 H2].
  destruct (sdiffResult_spec w0 createIntsetObject c0 k k1 ks) as (d & Hd & _);
    [done|by apply createIntsetObject_ok|done..|].
  assert (pnsdiffstore_prepare w0 = Crash) as Hp.
  { unfold pnsdiffstore_prepare. step_with H1. step_with (lookupKey_done _ _). step_with Hd.
    change (db (srv w0)) with (db (srv w)). by rewrite Hk. }
  by apply call_origin_crash.
Qed.
End Client.
