(* ===== verification/ORSet.v ===== *)
(** * The OR-set ([t_orset.c])

    Every add carries a fresh tag; a removal names the tags it has observed.
    An element keeps the tags added and not removed, and those whose removal
    arrived before the add; it is visible while the first set is not empty. *)
From Stdlib Require Import ZArith Lia Ascii String.
From stdpp Require Import functions base numbers strings gmap sets list.
From S2P Require Import Prelude Sds VectorClock LamportClock Intset SetType Server RWFramework Container RWSet RWSetStore PNSet.
Open Scope Z_scope.

Definition OR_SET_TABLE_SUFFIX : sds := "_orsets_"%string.

(** ** Elements *)

Definition oreNew : cmd helem := ret (HOre (mkOre 0 ∅ ∅)).

Definition oreHTGet (tname key : sds) (create : bool) : cmd (option eref) :=
  HTGet tname OR_SET_TABLE_SUFFIX key create oreNew.

#[global, program] Instance ore_elem : Elem ore := {
  el_suffix := OR_SET_TABLE_SUFFIX;
  el_inj := HOre;
  el_proj v := match v with HOre o => Some o | _ => None end;
  el_new _ := mkOre 0 ∅ ∅;
  el_ok _ o := forall t, t ∈ aset o ∪ rset o -> nul_free t
}.
Solve Obligations with try done.

#[global] Instance ore_stable : ElemStable ore.
Proof. by split. Qed.

Definition read_ore (e : eref) : cmd ore := read_el e.
Definition write_ore (e : eref) (o : ore) : cmd unit := write_el e o.

(** [LC_NEW(x)]. *)
Definition LC_NEW (s : server) (x : Z) : lc := _lc_new x (p2p_id s).

(** ** Tags *)

Definition tagGenerate (tag : lc) : sds :=
  String.append (fmt_d (lc_id tag)) (String ","%char (fmt_d (lc_x tag))).

Definition addTag (ht : gset sds) (tag : sds) : gset sds :=
  let itag := sdsnew tag in
  match dictAdd ht itag with Some ht => ht | None => ht end.

Definition lookup (e : ore) : Z := Z.of_nat (size (aset e)).

Definition removeTag (ht : gset sds) (tag : sds) : gset sds * Z :=
  match dictDelete ht tag with
  | Some ht => (ht, 1)
  | None => (ht, 0)
  end.

(** One tag of an add, one tag of a removal. *)
Definition tag_add (e : eref) (tag : sds) : cmd unit :=
  o <- read_ore e ;;
  let r := removeTag (rset o) tag in
  if r.2 =? 0 then
    write_ore e (mkOre (ore_current o) (addTag (aset o) tag) (rset o)) ;;
    modify (add_tag_size (Z.of_nat (String.length tag)))
  else
    write_ore e (mkOre (ore_current o) (aset o) r.1) ;;
    modify (add_tag_size (- Z.of_nat (String.length tag))).

Definition tag_rem (e : eref) (tag : sds) : cmd unit :=
  o <- read_ore e ;;
  let r := removeTag (aset o) tag in
  if r.2 =? 0 then
    write_ore e (mkOre (ore_current o) (aset o) (addTag (rset o) tag)) ;;
    modify (add_tag_size (Z.of_nat (String.length tag)))
  else
    write_ore e (mkOre (ore_current o) r.1 (rset o)) ;;
    modify (add_tag_size (- Z.of_nat (String.length tag))).

Section Commands.
Context `{DictOrder}.

(** [getSetOrCreate] receives a pointer to an object where it expects a string:
    what it reads there only decides the encoding of a new set. *)
Context (raw_bytes : sds -> sds).

(** ** Effects *)

Definition orsadd_one (set : sds) (n i : Z) : cmd unit :=
  let idx := n - 3 - 2 * i in
  tname <- rarg 1 ;;
  ele <- rarg idx ;;
  e <- oreHTGet tname ele true ;;
  e <- deref e ;;
  tag <- rarg (idx + 1) ;;
  tag_add e tag ;;
  o <- read_ore e ;;
  if 0 <? lookup o then set_add set ele ;; ret tt else ret tt.

Definition orsaddGenericCommand (setName : sds) : cmd unit := fn (
  n <- rargc ;;
  last <- rarg (n - 1) ;;
  added <- deref (getLongLongFromObject last) ;;
  if added =? 0 then creturn
  else
    sample <- rarg (n - 3) ;;
    set <- getSetOrCreate setName (raw_bytes sample) ;;
    for_each (Z.of_nat <$> seq 0 (Z.to_nat added)) (orsadd_one set n)).

(** [getLongLongFromObject(o, &tagNum)], which keeps the old value on error. *)
Definition parse_or (s : sds) (old : Z) : Z :=
  match getLongLongFromObject s with Some v => v | None => old end.

(** The body of the [while] loop; [idx] is the element's argument and [jdx] the
    argument after its tags. *)
Definition orsrem_chunk (setName set : sds) (idx jdx : Z) : cmd unit :=
  ele <- rarg idx ;;
  e <- oreHTGet setName ele true ;;
  e <- deref e ;;
  for_each ((fun j => idx + 1 + Z.of_nat j) <$> seq 0 (Z.to_nat (jdx - idx - 1)))
    (fun i => tag <- rarg i ;; tag_rem e tag) ;;
  o <- read_ore e ;;
  if lookup o =? 0 then set_remove set ele ;; ret tt else ret tt.

(** The [while (remed > 0)] loop. *)
Fixpoint orsrem_loop (remed : nat) (setName set : sds) (idx jdx tagNum : Z) : cmd unit :=
  match remed with
  | O => ret tt
  | S remed =>
      orsrem_chunk setName set idx jdx ;;
      if Nat.eqb remed 0 then ret tt
      else
        let jdx := idx - 1 in
        s <- rarg jdx ;;
        let tagNum := parse_or s tagNum in
        orsrem_loop remed setName set (to_int (jdx - tagNum - 1)) jdx tagNum
  end.

Definition orsremGenericCommand (setName : sds) : cmd unit := fn (
  n <- rargc ;;
  last <- rarg (n - 1) ;;
  remed <- deref (getLongLongFromObject last) ;;
  if remed =? 0 then creturn
  else
    let jdx := n - 2 in
    s <- rarg jdx ;;
    let tagNum := parse_or s 1 in
    let idx := to_int (jdx - tagNum - 1) in
    sample <- rarg idx ;;
    set <- getSetOrCreate setName (raw_bytes sample) ;;
    orsrem_loop (Z.to_nat remed) setName set idx jdx tagNum).

(** ** Commands *)

(** The pair an add broadcasts, with the next tag of the element here. *)
Definition ors_pair (key field name : sds) (acc : Z * rvector) : cmd (Z * rvector) :=
  e <- oreHTGet key field true ;;
  e <- deref e ;;
  o <- read_ore e ;;
  t <- gets (fun w => LC_NEW (srv w) (ore_current o)) ;;
  write_ore e (mkOre (to_int (ore_current o + 1)) (aset o) (rset o)) ;;
  ret (acc.1 + 1, RARGV_ADD_SDS (RARGV_ADD_SDS acc.2 (sdsnew name)) (lcToSds t)).

Definition orsadd_loop (key : sds) (set : option robj) (acc : Z * rvector) (a : sds) : cmd (Z * rvector) :=
  b <- not_member set a ;;
  if b then ors_pair key a a acc else ret acc.

Definition orsadd_prepare : cmd rvector :=
  key <- arg 1 ;;
  set <- lookupKeyRead key ;;
  args <- args_from 2 ;;
  r <- fold_each args (0, RVCT_PREPARE) (orsadd_loop key set) ;;
  let rv := RARGV_ADD_SDS r.2 (sdsfromlonglong r.1) in
  if r.1 =? 0 then addReply R_ele_exist ;; creturn else ret rv.

Definition orsaddCommand : cmd unit :=
  CRDT orsadd_prepare (key <- rarg 1 ;; orsaddGenericCommand key).

(** The chunk a removal broadcasts: the element, its tags, their number. *)
Definition ors_chunk (key field name : sds) (acc : Z * rvector) : cmd (Z * rvector) :=
  e <- oreHTGet key field true ;;
  e <- deref e ;;
  o <- read_ore e ;;
  let tagNum := Z.of_nat (size (aset o)) in
  let rv := RARGV_ADD_SDS acc.2 (sdsnew name) in
  let rv := foldl (fun rv tag => RARGV_ADD_SDS rv (sdsnew tag)) rv (dict_iter (aset o)) in
  ret (acc.1 + 1, RARGV_ADD_SDS rv (sdsfromlonglong tagNum)).

Definition orsrem_prepare_loop (key : sds) (set : robj) (acc : Z * rvector) (a : sds) : cmd (Z * rvector) :=
  so <- as_set set ;;
  if setTypeIsMember so a then ors_chunk key a a acc else ret acc.

Definition orsrem_prepare : cmd rvector :=
  key <- arg 1 ;;
  set <- lookupKeyWriteOrReply key R_czero ;;
  match set with
  | None => creturn
  | Some o =>
      wrong <- checkType_set o ;;
      if wrong then creturn
      else
        args <- args_from 2 ;;
        r <- fold_each args (0, RVCT_PREPARE) (orsrem_prepare_loop key o) ;;
        let rv := RARGV_ADD_SDS r.2 (sdsfromlonglong r.1) in
        if r.1 =? 0 then addReply R_ele_nexist ;; creturn else ret rv
  end.

Definition orsremCommand : cmd unit :=
  CRDT orsrem_prepare (key <- rarg 1 ;; orsremGenericCommand key).

(** The element is fetched once before the test and again after it. *)
Definition orsunionstore_loop (key : sds) (set : option robj) (acc : Z * rvector) (ele : sds) : cmd (Z * rvector) :=
  oreHTGet key (sdsnew ele) true ;;
  b <- not_member set ele ;;
  if b then ors_pair key (sdsnew ele) ele acc else ret acc.

Definition orsunionstore_prepare : cmd rvector :=
  key <- arg 1 ;;
  set <- lookupKeyRead key ;;
  keys <- args_from 2 ;;
  dstset <- sunionResult keys createIntsetObject ;;
  r <- fold_each (set_list dstset) (0, RVCT_PREPARE) (orsunionstore_loop key set) ;;
  ret (RARGV_ADD_SDS r.2 (sdsfromlonglong r.1)).

Definition orsunionstoreCommand : cmd unit :=
  CRDT orsunionstore_prepare (key <- rarg 1 ;; orsaddGenericCommand key).

Definition ors_outside_loop (key : sds) (dstset : setobj) (acc : Z * rvector) (ele : sds) : cmd (Z * rvector) :=
  if negb (setTypeIsMember dstset ele) then ors_chunk key (sdsnew ele) ele acc else ret acc.

Definition orsdiffstore_prepare : cmd rvector :=
  key <- arg 1 ;;
  set <- lookupKeyRead key ;;
  dstset <- sdiffResult 2 createIntsetObject ;;
  set <- deref set ;;
  so <- as_set set ;;
  r <- fold_each (set_list so) (0, RVCT_PREPARE) (ors_outside_loop key dstset) ;;
  ret (RARGV_ADD_SDS r.2 (sdsfromlonglong r.1)).

Definition orsdiffstoreCommand : cmd unit :=
  CRDT orsdiffstore_prepare (key <- rarg 1 ;; orsremGenericCommand key).

Definition orsinterstore_prepare : cmd rvector :=
  key <- arg 1 ;;
  set <- lookupKeyRead key ;;
  dstset <- sinterResult 2 createIntsetObject ;;
  set <- deref set ;;
  so <- as_set set ;;
  r <- fold_each (set_list so) (0, RVCT_PREPARE) (ors_outside_loop key dstset) ;;
  ret (RARGV_ADD_SDS r.2 (sdsfromlonglong r.1)).

Definition orsinterstoreCommand : cmd unit :=
  CRDT orsinterstore_prepare (key <- rarg 1 ;; orsremGenericCommand key).
End Commands.

Open Scope string_scope.
Example orset_run :
  let raw := fun s : sds => s in
  let (a1, m1) := run_call (request (start_world 2 0) ["orsadd"; "k"; "x"; "y"]) (orsaddCommand raw) in
  let b1 := (run_call (delivery (start_world 2 1) (default [] m1)) (orsaddCommand raw)).1 in
  let (b2, m2) := run_call (request b1 ["orsrem"; "k"; "x"; "y"]) (orsremCommand raw) in
  let a2 := (run_call (delivery a1 (default [] m2)) (orsremCommand raw)).1 in
  default [] m1 = ["orsadd"; "k"; "x"; "y"; "x"; "0,0"; "y"; "0,0"; "2"]
  /\ default [] m2 = ["orsrem"; "k"; "x"; "y"; "x"; "0,0"; "1"; "y"; "0,0"; "1"; "2"]
  /\ members_of a2 "k" = [] /\ members_of b2 "k" = [] /\ length (members_of a1 "k") = 2%nat
  /\ total_tag_size (srv a1) = 6 /\ total_tag_size (srv a2) = 0.
Proof. vm_compute. repeat split. Qed.
Close Scope string_scope.

(** ** The effect of tags on an element *)

Inductive orop := OAdd (tag : sds) | ORem (tag : sds).

Definition or_tag (o : orop) : sds := match o with OAdd t | ORem t => t end.

Definition or_effect (e : ore) (o : orop) : ore :=
  match o with
  | OAdd t =>
      if decide (t ∈ rset e) then mkOre (ore_current e) (aset e) (rset e ∖ {[t]})
      else mkOre (ore_current e) ({[t]} ∪ aset e) (rset e)
  | ORem t =>
      if decide (t ∈ aset e) then mkOre (ore_current e) (aset e ∖ {[t]}) (rset e)
      else mkOre (ore_current e) (aset e) ({[t]} ∪ rset e)
  end.

(** What the element shows after operations whose adds are all different:
    exactly the tags added and never removed. *)
Lemma or_run_tags e ops :
  aset e = ∅ -> rset e = ∅ ->
  NoDup (omap (fun o => match o with OAdd t => Some t | ORem _ => None end) ops) ->
  forall t, (t ∈ aset (foldl or_effect e ops) <-> OAdd t ∈ ops /\ ORem t ∉ ops) /\
    (OAdd t ∉ ops -> t ∈ rset (foldl or_effect e ops) <-> ORem t ∈ ops).
Proof.
  intros Ha Hr. induction ops as [|o ops IH] using rev_ind; intros Hnd t.
  { cbn. rewrite Ha, Hr. set_solver. }
  rewrite omap_app in Hnd. apply NoDup_app in Hnd as (Hnd & Hdis & _).
  rewrite foldl_snoc. set (e' := foldl or_effect e ops) in *.
  destruct o as [t'|t']; cbn [or_effect].
  - assert (OAdd t' ∉ ops) as Hnew.
    { intros Hin. apply (Hdis t'); [|cbn; left]. apply list_elem_of_omap. by exists (OAdd t'). }
    destruct (IH Hnd t') as [_ IHr']. specialize (IHr' Hnew). destruct (IH Hnd t) as [IHa IHr].
    case_decide as Hd; cbn [aset rset].
    + rewrite !elem_of_app, !list_elem_of_singleton. split.
      * rewrite IHa. destruct (decide (t = t')) as [->|]; [tauto|naive_solver].
      * intros Hno. rewrite elem_of_difference, elem_of_singleton. naive_solver.
    + rewrite !elem_of_app, !list_elem_of_singleton. split.
      * rewrite elem_of_union, elem_of_singleton, IHa. destruct (decide (t = t')) as [->|]; naive_solver.
      * intros Hno. naive_solver.
  - destruct (IH Hnd t) as [IHa IHr]. case_decide as Hd; cbn [aset rset].
    + rewrite !elem_of_app, !list_elem_of_singleton. split.
      * rewrite elem_of_difference, elem_of_singleton, IHa. destruct (decide (t = t')) as [->|]; naive_solver.
      * intros Hno. destruct (IH Hnd t') as [IHa' _]. apply IHa' in Hd as [Hd _]. naive_solver.
    + rewrite !elem_of_app, !list_elem_of_singleton. split.
      * rewrite IHa. destruct (decide (t = t')) as [->|]; [|naive_solver].
        destruct (IH Hnd t') as [IHa' _]. naive_solver.
      * intros Hno. rewrite elem_of_union, elem_of_singleton. naive_solver.
Qed.

Definition or_step (f : sds -> ore) (p : sds * orop) : sds -> ore := <[p.1 := or_effect (f p.1) p.2]> f.
Definition or_run (f : sds -> ore) (ops : list (sds * orop)) : sds -> ore := foldl or_step f ops.

Definition or_ops_of (x : sds) (ops : list (sds * orop)) : list orop := (filter (fun p => p.1 = x) ops).*2.

Lemma or_run_proj f ops x : or_run f ops x = foldl or_effect (f x) (or_ops_of x ops).
Proof.
  revert f. induction ops as [|[y o] ops IH]; intros f; [done|].
  unfold or_run, or_ops_of in *. cbn [foldl]. rewrite IH. unfold or_step. cbn [fst snd].
  destruct (decide (y = x)) as [->|Hne].
  - rewrite filter_cons_True by done. cbn. by rewrite fn_lookup_insert.
  - rewrite filter_cons_False by done. by rewrite fn_lookup_insert_ne.
Qed.

(** ** Refinement *)

Definition ors (w : world) (k : sds) (f : sds -> ore) : Prop :=
  exists V, rep w k f V /\ forall x, x ∈ V <-> aset (f x) <> ∅.

Lemma ors_srv w w' k f : srv w' = srv w -> ors w k f -> ors w' k f.
Proof. intros Hs (V & Hr & Ha). exists V. split; [|done]. eapply rep_config, Hr; rewrite Hs; done. Qed.

Lemma ors_visible w k f x : ors w k f -> x ∈ visible w k <-> aset (f x) <> ∅.
Proof.
  intros (V & Hr & Ha). rewrite <- (Ha x). pose proof (rep_set _ _ _ _ Hr) as Hs.
  unfold shape_set, shape_obj, set_shape in Hs. unfold visible. destruct (db (srv w) !! k) as [[|so| | | |]|]; try done.
  - by destruct Hs as [_ ->].
  - by rewrite Hs.
Qed.

Section Refinement.
Context `{DictOrder}.

Lemma add_tag_size_rep w k (f : sds -> ore) V z :
  rep w k f V -> rep (add_tag_size z w) k f V /\ frame (E := ore) k w (add_tag_size z w).
Proof.
  intros Hr. split; [eapply rep_config; [..|done]|apply frame_config]; done || by split.
Qed.

Lemma addTag_nul_free ht t : nul_free t -> addTag ht t = {[t]} ∪ ht.
Proof.
  intros Ht. unfold addTag, dictAdd. rewrite sdsnew_nul_free by done. case_decide; [set_solver|done].
Qed.

Lemma or_effect_ok s e o : el_ok s e -> nul_free (or_tag o) -> el_ok s (or_effect e o).
Proof.
  intros He Ho t. destruct o as [t'|t']; cbn in *; case_decide; cbn; intros Ht;
    (destruct (decide (t = t')) as [->|]; [done|]); apply He; set_solver.
Qed.

(** Both tag functions apply the abstract effect. *)
Lemma tag_add_rep w k f V x t :
  rep w k f V -> has (E := ore) w k x -> nul_free t ->
  exists w', tag_add (htname (E := ore) k, x) t w = Done tt w' /\
    rep w' k (or_step f (x, OAdd t)) V /\ frame (E := ore) k w w'.
Proof.
  intros Hr Hx Ht. unfold tag_add. step_with (read_el_rep _ _ _ _ _ Hr Hx).
  pose proof (or_effect_ok (srv w) (f x) (OAdd t) (rep_el_ok _ _ _ _ x Hr) Ht) as Hok.
  unfold or_step. cbn [fst snd or_effect] in *.
  unfold removeTag, dictDelete. case_decide; cbn [fst snd Z.eqb].
  - destruct (write_el_rep w k f V x _ Hr Hx Hok) as (w1 & Hw1 & Hr1 & Hf1). step_with Hw1.
    destruct (add_tag_size_rep w1 k _ V (- Z.of_nat (String.length t)) Hr1) as [Hr2 Hf2].
    eexists. split; [done|]. split; [done|]. by rewrite Hf1.
  - rewrite addTag_nul_free by done.
    destruct (write_el_rep w k f V x _ Hr Hx Hok) as (w1 & Hw1 & Hr1 & Hf1). step_with Hw1.
    destruct (add_tag_size_rep w1 k _ V (Z.of_nat (String.length t)) Hr1) as [Hr2 Hf2].
    eexists. split; [done|]. split; [done|]. by rewrite Hf1.
Qed.

Lemma tag_rem_rep w k f V x t :
  rep w k f V -> has (E := ore) w k x -> nul_free t ->
  exists w', tag_rem (htname (E := ore) k, x) t w = Done tt w' /\
    rep w' k (or_step f (x, ORem t)) V /\ frame (E := ore) k w w'.
Proof.
  intros Hr Hx Ht. unfold tag_rem. step_with (read_el_rep _ _ _ _ _ Hr Hx).
  pose proof (or_effect_ok (srv w) (f x) (ORem t) (rep_el_ok _ _ _ _ x Hr) Ht) as Hok.
  unfold or_step. cbn [fst snd or_effect] in *.
  unfold removeTag, dictDelete. case_decide; cbn [fst snd Z.eqb].
  - destruct (write_el_rep w k f V x _ Hr Hx Hok) as (w1 & Hw1 & Hr1 & Hf1). step_with Hw1.
    destruct (add_tag_size_rep w1 k _ V (- Z.of_nat (String.length t)) Hr1) as [Hr2 Hf2].
    eexists. split; [done|]. split; [done|]. by rewrite Hf1.
  - rewrite addTag_nul_free by done.
    destruct (write_el_rep w k f V x _ Hr Hx Hok) as (w1 & Hw1 & Hr1 & Hf1). step_with Hw1.
    destruct (add_tag_size_rep w1 k _ V (Z.of_nat (String.length t)) Hr1) as [Hr2 Hf2].
    eexists. split; [done|]. split; [done|]. by rewrite Hf1.
Qed.

Lemma lookup_pos o : 0 < lookup o <-> aset o <> ∅.
Proof.
  unfold lookup. split.
  - intros Hl Hz. rewrite Hz, size_empty in Hl. lia.
  - intros Hne. destruct (size (aset o)) eqn:E; [|lia]. apply size_empty_inv in E.
    destruct Hne. by apply leibniz_equiv.
Qed.

Lemma oreHTGet_ors w k f x :
  ors w k f ->
  exists w', oreHTGet k x true w = Done (Some (htname (E := ore) k, x)) w' /\
    ors w' k f /\ frame (E := ore) k w w' /\ has (E := ore) w' k x.
Proof.
  intros (V & Hr & Ha). destruct (elHTGet_true w k f V x Hr) as (w' & Hw' & Hr' & Hf' & Hx).
  exists w'. split_and!; [exact Hw'| |done..]. by exists V.
Qed.

(** One iteration of the add effect. *)
Lemma orsadd_one_ors w k f n i l x t :
  ors w k f -> hasset w k -> rargv (cli w) = Some l -> index l 1 = Some k ->
  index l (n - 3 - 2 * i) = Some x -> index l (n - 3 - 2 * i + 1) = Some t -> nul_free t ->
  exists w', orsadd_one k n i w = Done tt w' /\ ors w' k (or_step f (x, OAdd t)) /\ frame (E := ore) k w w'.
Proof.
  intros Hr Hset Hl Hk Hx Ht Hn. unfold orsadd_one.
  step_with (rarg_done _ _ _ _ Hl Hk). step_with (rarg_done _ _ _ _ Hl Hx).
  destruct (oreHTGet_ors w k f x Hr) as (w1 & Hw1 & (V & Hr1 & Ha1) & Hf1 & Hx1).
  assert (rargv (cli w1) = Some l) as Hl1 by (by rewrite (fr_cli _ _ _ Hf1)).
  step_with Hw1. step_with (deref_some _ _). step_with (rarg_done _ _ _ _ Hl1 Ht).
  destruct (tag_add_rep w1 k f V x t Hr1 Hx1 Hn) as (w2 & Hw2 & Hr2 & Hf2). step_with Hw2.
  assert (has (E := ore) w2 k x) as Hx2 by (by eapply fr_has).
  step_with (read_el_rep _ _ _ _ _ Hr2 Hx2).
  assert (frame (E := ore) k w w2) as Hf by (by rewrite Hf1).
  set (o := or_step f (x, OAdd t) x).
  assert (forall y, y <> x -> or_step f (x, OAdd t) y = f y) as Hother
    by (intros y Hy; unfold or_step; by rewrite fn_lookup_insert_ne).
  destruct (Z.ltb_spec 0 (lookup o)) as [Hp|Hp].
  - destruct (set_add_rep w2 k _ V x Hr2) as (w3 & Hw3 & Hr3 & Hf3); [by eapply fr_hasset|].
    step_with Hw3. exists w3. split; [done|]. split; [|by rewrite Hf].
    exists ({[x]} ∪ V). split; [done|]. intros y. destruct (decide (y = x)) as [->|Hy].
    + apply lookup_pos in Hp. set_solver.
    + rewrite Hother by done. rewrite <- (Ha1 y). set_solver.
  - exists w2. split; [done|]. split; [|done].
    exists V. split; [done|]. intros y. destruct (decide (y = x)) as [->|Hy].
    + assert (aset o = ∅) as Hz.
      { destruct (decide (aset o = ∅)) as [|Hc]; [done|]. apply lookup_pos in Hc. lia. }
      assert (aset (f x) = ∅) as Hz'.
      { unfold o, or_step in Hz. rewrite fn_lookup_insert in Hz. cbn in Hz. case_decide; cbn in Hz; [done|].
        assert (t ∈ (∅ : gset sds)) by (rewrite <- Hz; set_solver). set_solver. }
      rewrite (Ha1 x), Hz'. fold o. by rewrite Hz.
    + by rewrite Hother, Ha1.
Qed.
End Refinement.

(** ** Messages of a removal

    Each removed element is followed by its tags and their number; the effect
    walks the chunks from the last to the first. *)
Abbreviation chunk := (sds * list sds)%type.

Definition chunk_args (c : chunk) : list sds := c.1 :: c.2 ++ [sdsfromlonglong (Z.of_nat (length c.2))].
Definition or_args (cs : list chunk) : list sds :=
  (cs ≫= chunk_args) ++ [sdsfromlonglong (Z.of_nat (length cs))].

Definition chunk_ops (c : chunk) : list (sds * orop) := (fun t => (c.1, ORem t)) <$> c.2.

Lemma chunk_args_length c : length (chunk_args c) = (length c.2 + 2)%nat.
Proof. unfold chunk_args. cbn. rewrite length_app. cbn. lia. Qed.

Section Removal.
Context `{DictOrder}.

(** The tags of one chunk. *)
Lemma tags_loop w k f V x l base tags :
  rep w k f V -> has (E := ore) w k x -> rargv (cli w) = Some l -> 0 <= base ->
  (forall j t, tags !! j = Some t -> index l (base + Z.of_nat j) = Some t) -> Forall nul_free tags ->
  exists w', for_each ((fun j => base + Z.of_nat j) <$> seq 0 (length tags))
      (fun i => tag <- rarg i ;; tag_rem (htname (E := ore) k, x) tag) w = Done tt w' /\
    rep w' k (or_run f (chunk_ops (x, tags))) V /\ frame (E := ore) k w w'.
Proof.
  intros Hr Hx Hl Hb. revert w f base Hr Hx Hl Hb.
  induction tags as [|t tags IH]; intros w f base Hr Hx Hl Hb Hidx Hn; cbn [length seq fmap list_fmap for_each].
  - by exists w.
  - apply Forall_cons_1 in Hn as [Hn Hns].
    rewrite (bind_assoc (rarg _)). rewrite (bind_done _ _ _ _ _ (rarg_done _ _ _ _ Hl (Hidx 0%nat t eq_refl))).
    destruct (tag_rem_rep w k f V x t Hr Hx Hn) as (w1 & Hw1 & Hr1 & Hf1). step_with Hw1.
    destruct (IH w1 (or_step f (x, ORem t)) (base + 1)) as (w2 & Hw2 & Hr2 & Hf2); try done; [by eapply fr_has|..].
    + by rewrite (fr_cli _ _ _ Hf1).
    + lia.
    + intros j t' Hj. rewrite <- (Hidx (S j) t' Hj). f_equal. lia.
    + exists w2. split; [|split; [done|by rewrite Hf1]]. rewrite <- Hw2.
      rewrite <- (fmap_S_seq 0), <- list_fmap_compose. f_equal. apply list_fmap_ext. intros; cbn. lia.
Qed.

(** The part of the loop that handles one chunk. *)
Lemma chunk_step w k f l idx jdx c :
  ors w k f -> hasset w k -> rargv (cli w) = Some l -> 0 <= idx ->
  index l idx = Some c.1 -> jdx = idx + 1 + Z.of_nat (length c.2) ->
  (forall j t, c.2 !! j = Some t -> index l (idx + 1 + Z.of_nat j) = Some t) -> Forall nul_free c.2 ->
  exists w', orsrem_chunk k k idx jdx w = Done tt w' /\
    ors w' k (or_run f (chunk_ops c)) /\ frame (E := ore) k w w'.
Proof.
  destruct c as [x tags]. cbn [fst snd]. intros Hr Hset Hl Hi Hx -> Hidx Hn. unfold orsrem_chunk.
  step_with (rarg_done _ _ _ _ Hl Hx).
  destruct (oreHTGet_ors w k f x Hr) as (w1 & Hw1 & (V & Hr1 & Ha1) & Hf1 & Hx1).
  step_with Hw1. step_with (deref_some _ _).
  replace (Z.to_nat (idx + 1 + Z.of_nat (length tags) - idx - 1)) with (length tags) by lia.
  destruct (tags_loop w1 k f V x l (idx + 1) tags) as (w2 & Hw2 & Hr2 & Hf2); try done; [|lia|].
  { by rewrite (fr_cli _ _ _ Hf1). }
  step_with Hw2. assert (has (E := ore) w2 k x) as Hx2 by (by eapply fr_has).
  step_with (read_el_rep _ _ _ _ _ Hr2 Hx2).
  assert (frame (E := ore) k w w2) as Hf by (by rewrite Hf1).
  set (g := or_run f (chunk_ops (x, tags))) in *.
  assert (forall y, y <> x -> g y = f y) as Hother.
  { intros y Hy. unfold g. rewrite or_run_proj. unfold or_ops_of.
    replace (filter _ (chunk_ops (x, tags))) with (@nil (sds * orop)); [done|].
    unfold chunk_ops. cbn. clear -Hy. induction tags as [|t tags IH]; [done|].
    cbn [fmap list_fmap]. rewrite filter_cons_False by (cbn; congruence). done. }
  assert (forall tags f, (forall t, t ∈ aset (or_run f (chunk_ops (x, tags)) x) -> t ∈ aset (f x))) as Hsub.
  { clear. induction tags as [|t tags IH]; intros f t' Ht'; [done|]. cbn in Ht'.
    apply IH in Ht'. unfold or_step in Ht'. cbn in Ht'. rewrite fn_lookup_insert in Ht'.
    cbn in Ht'. case_decide; cbn in Ht'; set_solver. }
  assert (aset (g x) <> ∅ -> aset (f x) <> ∅) as Hmono.
  { intros Hg Hz. apply Hg. apply set_eq. intros t. split; [|set_solver]. intros Ht.
    apply Hsub in Ht. rewrite Hz in Ht. done. }
  destruct (Z.eqb_spec (lookup (g x)) 0) as [Hz|Hz].
  - assert (aset (g x) = ∅) as Hg.
    { destruct (decide (aset (g x) = ∅)) as [|Hc]; [done|]. apply lookup_pos in Hc. lia. }
    destruct (set_remove_rep w2 k g V x Hr2) as (w3 & Hw3 & Hr3 & Hf3); [by eapply fr_hasset|].
    step_with Hw3. exists w3. split; [done|]. split; [|by rewrite Hf].
    exists (V ∖ {[x]}). split; [done|]. intros y. destruct (decide (y = x)) as [->|Hy].
    + rewrite Hg. set_solver.
    + rewrite Hother by done. rewrite <- (Ha1 y). set_solver.
  - exists w2. split; [done|]. split; [|done].
    exists V. split; [done|]. intros y. destruct (decide (y = x)) as [->|Hy].
    + rewrite (Ha1 x). split; [|done]. intros _. apply lookup_pos. unfold lookup in *. lia.
    + by rewrite Hother, Ha1.
Qed.

(** The arguments of chunk [c] in the whole message. *)
Lemma chunk_index pre c post :
  let base := Z.of_nat (length pre) in
  index (pre ++ chunk_args c ++ post) base = Some c.1 /\
  (forall j t, c.2 !! j = Some t -> index (pre ++ chunk_args c ++ post) (base + 1 + Z.of_nat j) = Some t) /\
  index (pre ++ chunk_args c ++ post) (base + 1 + Z.of_nat (length c.2)) =
    Some (sdsfromlonglong (Z.of_nat (length c.2))).
Proof.
  destruct c as [x tags]. unfold chunk_args. cbn [fst snd]. split_and!.
  - rewrite (index_lookup _ _ (length pre)) by lia. rewrite lookup_app_r, Nat.sub_diag by lia. done.
  - intros j t Hj. rewrite (index_lookup _ _ (length pre + S j)) by lia.
    rewrite lookup_app_r by lia. replace (length pre + S j - length pre)%nat with (S j) by lia.
    change (((tags ++ [sdsfromlonglong (Z.of_nat (length tags))]) ++ post) !! j = Some t).
    pose proof (lookup_lt_Some _ _ _ Hj). by rewrite <- app_assoc, lookup_app_l.
  - rewrite (index_lookup _ _ (length pre + S (length tags))) by lia.
    rewrite lookup_app_r by lia. replace (_ - _)%nat with (S (length tags)) by lia.
    change (((tags ++ [sdsfromlonglong (Z.of_nat (length tags))]) ++ post) !! length tags =
      Some (sdsfromlonglong (Z.of_nat (length tags)))). by rewrite <- app_assoc, lookup_app_r, Nat.sub_diag by lia.
Qed.

Lemma orsrem_loop_spec w k f l pre cs c post tagNum :
  ors w k f -> hasset w k -> rargv (cli w) = Some l ->
  l = pre ++ (cs ≫= chunk_args) ++ chunk_args c ++ post -> Z.of_nat (length l) <= INT_MAX ->
  Forall (fun c => Forall nul_free c.2) (cs ++ [c]) ->
  let idx := Z.of_nat (length (pre ++ (cs ≫= chunk_args))) in
  exists w', orsrem_loop (S (length cs)) k k idx (idx + 1 + Z.of_nat (length c.2)) tagNum w = Done tt w' /\
    ors w' k (or_run f (reverse (cs ++ [c]) ≫= chunk_ops)) /\ frame (E := ore) k w w'.
Proof.
  intros Hr Hset Hargs Hl Hmax Hn. revert w f c post tagNum Hr Hset Hargs Hl Hn.
  induction cs as [|c' cs IH] using rev_ind; intros w f c post tagNum Hr Hset Hargs Hl Hn idx.
  - rewrite (app_assoc pre) in Hl.
    destruct (chunk_index (pre ++ ([] ≫= chunk_args)) c post) as (H1 & H2 & _).
    rewrite <- Hl in H1, H2. fold idx in H1, H2.
    apply Forall_app in Hn as [_ Hc]. apply Forall_cons_1 in Hc as [Hc _].
    destruct (chunk_step w k f l idx _ c Hr Hset Hargs ltac:(lia) H1 eq_refl H2 Hc) as (w' & Hw' & Hr' & Hf').
    assert (reverse ([] ++ [c]) ≫= chunk_ops = chunk_ops c) as -> by apply app_nil_r.
    exists w'. split; [|by split].
    cbn [orsrem_loop length Nat.eqb]. by step_with Hw'.
  - rewrite (app_assoc pre) in Hl.
    destruct (chunk_index (pre ++ ((cs ++ [c']) ≫= chunk_args)) c post) as (H1 & H2 & _).
    rewrite <- Hl in H1, H2. fold idx in H1, H2.
    pose proof Hn as Hn'. apply Forall_app in Hn as [Hcs Hc]. apply Forall_cons_1 in Hc as [Hc _].
    destruct (chunk_step w k f l idx _ c Hr Hset Hargs ltac:(lia) H1 eq_refl H2 Hc) as (w1 & Hw1 & Hr1 & Hf1).
    assert (rargv (cli w1) = Some l) as Hargs1 by (by rewrite (fr_cli _ _ _ Hf1)).
    assert (l = pre ++ (cs ≫= chunk_args) ++ chunk_args c' ++ (chunk_args c ++ post)) as Hl'.
    { by rewrite Hl, bind_app, bind_one, <- !app_assoc. }
    destruct (IH w1 (or_run f (chunk_ops c)) c' (chunk_args c ++ post) (Z.of_nat (length c'.2)) Hr1)
      as (w2 & Hw2 & Hr2 & Hf2); [by eapply fr_hasset|done..|].
    exists w2. split; [|split; [|by rewrite Hf1]].
    + rewrite (app_assoc pre) in Hl'. destruct (chunk_index (pre ++ (cs ≫= chunk_args)) c' (chunk_args c ++ post)) as (_ & _ & H3).
      rewrite <- Hl' in H3. set (idx' := Z.of_nat (length (pre ++ (cs ≫= chunk_args)))) in *.
      assert (idx - 1 = idx' + 1 + Z.of_nat (length c'.2)) as Hj.
      { unfold idx, idx'. rewrite bind_app, bind_one, app_assoc, length_app, chunk_args_length. lia. }
      assert (idx' + 1 + Z.of_nat (length c'.2) < Z.of_nat (length l)) as Hlt.
      { rewrite Hl', !length_app, chunk_args_length. unfold idx'. rewrite length_app. lia. }
      rewrite length_app. cbn [length]. replace (length cs + 1)%nat with (S (length cs)) by lia.
      cbn [orsrem_loop Nat.eqb]. step_with Hw1. cbn zeta. rewrite Hj.
      step_with (rarg_done _ _ _ _ Hargs1 H3). unfold parse_or, getLongLongFromObject.
      rewrite string2ll_print by clia. rewrite to_int_id by clia. replace (idx' + 1 + Z.of_nat (length c'.2) - Z.of_nat (length c'.2) - 1) with idx' by lia. exact Hw2.
    + rewrite (reverse_app (cs ++ [c']) [c]), reverse_singleton, bind_app.
      rewrite bind_one. unfold or_run in *. by rewrite foldl_app.
Qed.
End Removal.

(** ** Delivery *)

Definition or_pair_op (p : sds * sds) : sds * orop := (p.1, OAdd p.2).

Section Effects.
Context `{DictOrder} (raw_bytes : sds -> sds).

Lemma orsaddGeneric_ors w k f pre pairs :
  ors w k f -> rargv (cli w) = Some (pre ++ msg_args pairs) -> index pre 1 = Some k ->
  Z.of_nat (length pairs) <= INT_MAX -> Forall (fun p => nul_free p.2) pairs ->
  exists w', orsaddGenericCommand raw_bytes k w = Done tt w' /\
    ors w' k (or_run f (or_pair_op <$> reverse pairs)) /\ frame (E := ore) k w w'.
Proof.
  intros Hr Hl Hk Hmax Hn. unfold orsaddGenericCommand, fn. step_with (rargc_done _ _ Hl).
  set (n := Z.of_nat (length (pre ++ msg_args pairs))).
  step_with (rarg_done _ _ _ _ Hl (msg_count pre pairs n eq_refl)).
  rewrite count_parse by done. step_with (deref_some _ _).
  destruct (Z.eqb_spec (Z.of_nat (length pairs)) 0).
  { exists w. split; [done|]. split; [|done]. destruct pairs; [done|]. cbn in *. lia. }
  destruct (lookup_lt_is_Some_2 (reverse pairs) 0) as [p0 Hp0]; [rewrite length_reverse; lia|].
  destruct (msg_index pre pairs 0 p0 n eq_refl Hp0) as [Hx0 _].
  replace (n - 3 - 2 * Z.of_nat 0) with (n - 3) in Hx0 by lia.
  step_with (rarg_done _ _ _ _ Hl Hx0). destruct Hr as (V & Hr & Ha).
  destruct (getSetOrCreate_rep w k f V (raw_bytes p0.1) Hr) as (w1 & Hw1 & Hr1 & Hf1 & Hs1).
  step_with Hw1. rewrite Nat2Z.id, <- (length_reverse pairs), <- (length_fmap or_pair_op (reverse pairs)).
  destruct (effect_steps (E := ore) (fun f w => ors w k f) or_step (orsadd_one k n)
    (or_pair_op <$> reverse pairs) k w1 f) as (w2 & Hw2 & Hr2 & Hf2).
  - by exists V.
  - intros i o w3 Ho Hr3 Hf3. rewrite list_lookup_fmap in Ho.
    destruct (reverse pairs !! i) as [p|] eqn:Hp; [|done]. injection Ho as <-.
    destruct (msg_index pre pairs i p n eq_refl Hp) as [Hx Ht].
    eapply (orsadd_one_ors _ _ _ _ _ (pre ++ msg_args pairs)); [done|by eapply fr_hasset| | |done|done|].
    + by rewrite (fr_cli _ _ _ Hf3), (fr_cli _ _ _ Hf1).
    + unfold index in *. cbn in *. by apply lookup_app_l_Some.
    + rewrite Forall_forall in Hn. apply Hn. apply elem_of_reverse. by eapply list_elem_of_lookup_2.
  - exists w2. rewrite Hw2. split_and!; [done..|]. by rewrite Hf1.
Qed.

Lemma orsremGeneric_ors w k f pre cs :
  ors w k f -> rargv (cli w) = Some (pre ++ or_args cs) ->
  Z.of_nat (length (pre ++ or_args cs)) <= INT_MAX -> Forall (fun c => Forall nul_free c.2) cs ->
  exists w', orsremGenericCommand raw_bytes k w = Done tt w' /\
    ors w' k (or_run f (reverse cs ≫= chunk_ops)) /\ frame (E := ore) k w w'.
Proof.
  intros Hr Hl Hmax Hn. unfold orsremGenericCommand, fn. step_with (rargc_done _ _ Hl).
  set (l := pre ++ or_args cs) in *. set (n := Z.of_nat (length l)).
  assert (length cs <= length l)%nat as Hlen.
  { unfold l, or_args. rewrite !length_app. clear. induction cs as [|c cs IH]; cbn [length]; [lia|].
    cbn [mbind list_bind]. rewrite length_app, chunk_args_length. cbn in *. lia. }
  assert (index l (n - 1) = Some (sdsfromlonglong (Z.of_nat (length cs)))) as Hlast.
  { unfold n, l, or_args. rewrite (app_assoc pre), length_app. cbn [length].
    erewrite index_lookup by (instantiate (1 := length (pre ++ (cs ≫= chunk_args))); lia).
    by rewrite lookup_app_r, Nat.sub_diag by lia. }
  step_with (rarg_done _ _ _ _ Hl Hlast). unfold getLongLongFromObject at 1.
  rewrite string2ll_print by clia. step_with (deref_some _ _).
  destruct (Z.eqb_spec (Z.of_nat (length cs)) 0).
  { exists w. split; [done|]. split; [|done]. destruct cs; [done|]. cbn in *. lia. }
  destruct cs as [|c cs _] using rev_ind; [done|].
  assert (l = (pre ++ (cs ≫= chunk_args)) ++ chunk_args c ++ [sdsfromlonglong (Z.of_nat (length (cs ++ [c])))]) as Hl2
    by (unfold l, or_args; rewrite bind_app, bind_one, <- !app_assoc; done).
  destruct (chunk_index (pre ++ (cs ≫= chunk_args)) c [sdsfromlonglong (Z.of_nat (length (cs ++ [c])))]) as (H1 & _ & H3).
  rewrite <- Hl2 in H1, H3. set (idx := Z.of_nat (length (pre ++ (cs ≫= chunk_args)))) in *.
  assert (n - 2 = idx + 1 + Z.of_nat (length c.2)) as Hj.
  { unfold n, idx. rewrite Hl2, length_app, (length_app (chunk_args c)), chunk_args_length. cbn. lia. }
  cbn zeta. rewrite Hj. step_with (rarg_done _ _ _ _ Hl H3). unfold parse_or, getLongLongFromObject.
  rewrite string2ll_print by clia. rewrite to_int_id by clia.
  replace (idx + 1 + Z.of_nat (length c.2) - Z.of_nat (length c.2) - 1) with idx by lia.
  step_with (rarg_done _ _ _ _ Hl H1). destruct Hr as (V & Hr & Ha).
  destruct (getSetOrCreate_rep w k f V (raw_bytes c.1) Hr) as (w1 & Hw1 & Hr1 & Hf1 & Hs1). step_with Hw1.
  rewrite Nat2Z.id, length_app. cbn [length]. rewrite Nat.add_1_r.
  destruct (orsrem_loop_spec w1 k f l pre cs c [sdsfromlonglong (Z.of_nat (length (cs ++ [c])))] (Z.of_nat (length c.2)))
    as (w2 & Hw2 & Hr2 & Hf2); try done.
  - by exists V.
  - by rewrite (fr_cli _ _ _ Hf1).
  - by rewrite Hl2, <- app_assoc.
  - exists w2. fold idx in Hw2. rewrite Hw2. split_and!; [done..|]. by rewrite Hf1.
Qed.
End Effects.

(** A broadcast message and the operations it carries, in the order the effect
    applies them. *)
Record omsg := mkOmsg { om_add : bool; om_args : list sds; om_ops : list (sds * orop) }.

Definition om_wf (k : sds) (m : omsg) : Prop :=
  if om_add m then
    exists pre pairs, om_args m = pre ++ msg_args pairs /\ index pre 1 = Some k /\
      Z.of_nat (length pairs) <= INT_MAX /\ Forall (fun p => nul_free p.2) pairs /\
      om_ops m = or_pair_op <$> reverse pairs
  else
    exists pre cs, om_args m = pre ++ or_args cs /\ index pre 1 = Some k /\
      Z.of_nat (length (pre ++ or_args cs)) <= INT_MAX /\ Forall (fun c => Forall nul_free c.2) cs /\
      om_ops m = reverse cs ≫= chunk_ops.

Section Delivery.
Context `{DictOrder} (raw_bytes : sds -> sds).

Definition or_deliver (w : world) (m : omsg) : outcome world unit :=
  call 0 (if om_add m then orsaddCommand raw_bytes else orsremCommand raw_bytes) (delivery w (om_args m)).

Fixpoint or_deliver_all (w : world) (ms : list omsg) : option world :=
  match ms with
  | [] => Some w
  | m :: ms => match or_deliver w m with Done _ w' => or_deliver_all w' ms | _ => None end
  end.

Lemma or_deliver_ors w k f m :
  ors w k f -> REPLICATION_MODE (srv w) = true -> om_wf k m ->
  exists w', or_deliver w m = Done tt w' /\ ors w' k (or_run f (om_ops m)) /\
    REPLICATION_MODE (srv w') = true.
Proof.
  intros Hr Hm Hwf.
  set (w0 := mkWorld (srv w) (mkClient (om_args m) (Some (om_args m)) true false [])).
  assert (ors w0 k f) as Hr0 by (by eapply ors_srv, Hr).
  assert (index (om_args m) 1 = Some k /\
    exists w1, (if om_add m then orsaddGenericCommand raw_bytes k else orsremGenericCommand raw_bytes k) w0 = Done tt w1 /\
    ors w1 k (or_run f (om_ops m)) /\ frame (E := ore) k w0 w1) as (Hk & w1 & Hw1 & Hr1 & Hf1).
  { unfold om_wf in Hwf. destruct (om_add m).
    - destruct Hwf as (pre & pairs & Ha & Hk & Hmax & Hn & Hops). split.
      { rewrite Ha. unfold index in *. cbn in *. by apply lookup_app_l_Some. }
      rewrite Hops. apply (orsaddGeneric_ors raw_bytes w0 k f pre pairs); try done. cbn. by rewrite Ha.
    - destruct Hwf as (pre & cs & Ha & Hk & Hmax & Hn & Hops). split.
      { rewrite Ha. unfold index in *. cbn in *. by apply lookup_app_l_Some. }
      rewrite Hops. apply (orsremGeneric_ors raw_bytes w0 k f pre cs); try done. cbn. by rewrite Ha. }
  assert (rarg 1 w0 = Done k w0) as Hk0 by (by eapply rarg_done).
  assert (cli w1 = cli w0) as Hcli by apply (fr_cli _ _ _ Hf1).
  assert ((if om_add m then orsaddCommand raw_bytes else orsremCommand raw_bytes) w0 = Return w1) as Hcmd.
  { destruct (om_add m); (apply CRDT_delivery; [done|done| |by rewrite Hcli]); by step_with Hk0. }
  exists (set_client (set_rargv None) w1). split_and!.
  - apply call_delivery; [done|exact Hcmd|by rewrite Hcli].
  - by eapply ors_srv, Hr1.
  - unfold REPLICATION_MODE in *. cbn. by rewrite (fr_replicas _ _ _ Hf1), (sc_count _ _ (fr_config _ _ _ Hf1)).
Qed.

Definition or_all_ops (ms : list omsg) : list (sds * orop) := ms ≫= om_ops.

Lemma or_deliver_all_ors w k f ms :
  ors w k f -> REPLICATION_MODE (srv w) = true -> Forall (om_wf k) ms ->
  exists w', or_deliver_all w ms = Some w' /\ ors w' k (or_run f (or_all_ops ms)).
Proof.
  revert w f. induction ms as [|m ms IH]; intros w f Hr Hm Hwf; cbn [or_deliver_all].
  - by exists w.
  - apply Forall_cons_1 in Hwf as [Hwf Hwfs].
    destruct (or_deliver_ors w k f m Hr Hm Hwf) as (w1 & -> & Hw1 & Hm1).
    destruct (IH w1 _ Hw1 Hm1 Hwfs) as (w' & Hw' & Hr').
    exists w'. split; [done|]. unfold or_all_ops, or_run in *. cbn. by rewrite foldl_app.
Qed.

(** A key no OR-set command has touched. *)
Definition or_fresh (w : world) (k : sds) : Prop :=
  db (srv w) !! k = None /\ db (srv w) !! htname (E := ore) k = None /\
  max_ok (set_max_intset_entries (srv w)) /\ REPLICATION_MODE (srv w) = true.

Lemma or_untouched w k : or_fresh w k -> ors w k (fun _ => mkOre 0 ∅ ∅).
Proof.
  intros (H1 & H2 & H3 & _). exists ∅. split; [split|].
  - unfold shape_set, shape_obj, set_shape. by rewrite H1.
  - unfold shape_hash. by rewrite H2.
  - done.
  - intros x. cbn. set_solver.
Qed.

(** The adds of a list of operations: element and tag. *)
Definition or_adds (ops : list (sds * orop)) : list (sds * sds) :=
  omap (fun p => match p.2 with OAdd t => Some (p.1, t) | ORem _ => None end) ops.

Lemma or_adds_proj x ops :
  NoDup (or_adds ops) ->
  NoDup (omap (fun o => match o with OAdd t => Some t | ORem _ => None end) (or_ops_of x ops)).
Proof.
  unfold or_adds, or_ops_of. intros Hnd. induction ops as [|[y [t|t]] ops IH]; [constructor| |].
  - cbn in Hnd. apply NoDup_cons in Hnd as [Hni Hnd]. specialize (IH Hnd).
    destruct (decide (y = x)) as [->|Hne]; [|by rewrite filter_cons_False].
    rewrite filter_cons_True by done. cbn. constructor; [|done]. intros Hin. apply Hni.
    apply list_elem_of_omap in Hin as (o & Ho & Heq). apply list_elem_of_fmap in Ho as ([z o'] & -> & Hz).
    apply list_elem_of_filter in Hz as [Hzx Hz]. cbn in *. destruct o'; simplify_eq.
    apply list_elem_of_omap. by exists (x, OAdd t).
  - cbn in Hnd. specialize (IH Hnd).
    destruct (decide (y = x)) as [->|Hne]; [|by rewrite filter_cons_False].
    by rewrite filter_cons_True.
Qed.

Lemma or_ops_of_in x ops o : o ∈ or_ops_of x ops <-> (x, o) ∈ ops.
Proof.
  unfold or_ops_of. rewrite list_elem_of_fmap. setoid_rewrite list_elem_of_filter. split.
  - intros ([y o'] & -> & Hy & Hin). cbn in Hy. by subst.
  - intros Hin. by exists (x, o).
Qed.

(** Replicas that received the same messages in any order show the same set:
    the elements with an add whose tag no message removes. *)
Lemma orset_converges w1 w2 k ms1 ms2 :
  or_fresh w1 k -> or_fresh w2 k -> Forall (om_wf k) ms1 -> ms1 ≡ₚ ms2 ->
  NoDup (or_adds (or_all_ops ms1)) ->
  exists w1' w2', or_deliver_all w1 ms1 = Some w1' /\ or_deliver_all w2 ms2 = Some w2' /\
    visible w1' k = visible w2' k /\
    (forall x, x ∈ visible w1' k <->
       exists t, (x, OAdd t) ∈ or_all_ops ms1 /\ (x, ORem t) ∉ or_all_ops ms1).
Proof.
  intros Hf1 Hf2 Hwf Hperm Hnd. pose proof Hf1 as (_ & _ & _ & Hm1). pose proof Hf2 as (_ & _ & _ & Hm2).
  assert (or_all_ops ms1 ≡ₚ or_all_ops ms2) as Hops by (unfold or_all_ops; by rewrite Hperm).
  assert (NoDup (or_adds (or_all_ops ms2))) as Hnd2 by (unfold or_adds in *; by rewrite <- Hops).
  destruct (or_deliver_all_ors w1 k _ ms1 (or_untouched _ _ Hf1) Hm1 Hwf) as (w1' & Hd1 & Hp1).
  destruct (or_deliver_all_ors w2 k _ ms2 (or_untouched _ _ Hf2) Hm2) as (w2' & Hd2 & Hp2); [by rewrite <- Hperm|].
  assert (forall ms w x, NoDup (or_adds (or_all_ops ms)) -> ors w k (or_run (fun _ => mkOre 0 ∅ ∅) (or_all_ops ms)) ->
    x ∈ visible w k <-> exists t, (x, OAdd t) ∈ or_all_ops ms /\ (x, ORem t) ∉ or_all_ops ms) as Hvis.
  { intros ms w x Hn Ho. rewrite (ors_visible _ _ _ x Ho), or_run_proj.
    pose proof (or_run_tags (mkOre 0 ∅ ∅) _ eq_refl eq_refl (or_adds_proj x _ Hn)) as Ht.
    split.
    - intros Hne. apply set_choose_L in Hne as [t Hin]. apply (proj1 (Ht t)) in Hin. rewrite !or_ops_of_in in Hin. by exists t.
    - intros (t & Hin) Hz. rewrite <- !or_ops_of_in in Hin. apply (proj2 (proj1 (Ht t))) in Hin. apply (not_elem_of_empty (C := gset sds) t). rewrite <- Hz. exact Hin. }
  exists w1', w2'. split_and!; [done..| |].
  - apply set_eq. intros x. rewrite (Hvis ms1 w1'), (Hvis ms2 w2') by done. setoid_rewrite Hops. done.
  - intros x. by apply Hvis.
Qed.
End Delivery.
