(* ===== verification/OZSet.v ===== *)
(** * The observed-remove sorted set ([t_ozset.c])

    Every addition has a unique tag; an element keeps the additions that were not
    removed, each with its increments, and the tags that were.  Its score is the
    value of the addition with the greatest tag and the increments of the addition
    with the greatest sum of magnitudes.  The commands, the effect of one
    operation on one element with the score shown for it, and the proof that the
    commands have that effect. *)
From Stdlib Require Import ZArith Lia Ascii String.
From stdpp Require Import functions base numbers strings gmap sets list.
From S2P Require Import Prelude Sds Double VectorClock LamportClock Intset SetType Server RWFramework Container RWSet ORSet Zset.
Open Scope Z_scope.

Definition ORI_RPQ_TABLE_SUFFIX : sds := "_ozets_"%string.

(** ** Elements *)

Definition oze_new : oze := mkOze 0 None None [] [].
Definition ozeNew : cmd helem := ret (HOze oze_new).

Definition ozeHTGet (tname key : sds) (create : bool) : cmd (option eref) :=
  HTGet tname ORI_RPQ_TABLE_SUFFIX key create ozeNew.

#[global, program] Instance oze_elem : Elem oze := {
  el_suffix := ORI_RPQ_TABLE_SUFFIX;
  el_inj := HOze;
  el_proj v := match v with HOze e => Some e | _ => None end;
  el_new _ := oze_new;
  el_ok _ _ := True
}.
Solve Obligations with try done.

#[global] Instance oze_stable : ElemStable oze.
Proof. by split. Qed.

Definition read_oze (e : eref) : cmd oze := read_el e.
Definition write_oze (e : eref) (x : oze) : cmd unit := write_el e x.

Definition LOOKUP (e : oze) : bool := negb (Nat.eqb (length (oz_aset e)) 0).

(** The record a pointer of the element points to. *)
Definition ase_at (e : oze) (t : lc) : option ase := list_find (fun a => a_t a = t) (oz_aset e) ≫= fun p => Some p.2.

(** [None]: a score that was never set is read. *)
Definition SCORE (e : oze) : option double :=
  x ← match oz_innate e with None => Some dzero | Some t => ase_at e t ≫= a_x end;
  inc ← match oz_acquired e with None => Some dzero | Some t => a_inc <$> ase_at e t end;
  Some (dadd x inc).

(** The first record with the tag, and the list without it. *)
Fixpoint aset_find (t : lc) (l : list ase) : option ase :=
  match l with
  | [] => None
  | a :: l => if lc_cmp_as_tag t (a_t a) =? 0 then Some a else aset_find t l
  end.
Fixpoint aset_del (t : lc) (l : list ase) : list ase :=
  match l with
  | [] => []
  | a :: l => if lc_cmp_as_tag t (a_t a) =? 0 then l else a :: aset_del t l
  end.

Definition asetGet (e : oze) (t : lc) (delete : bool) : oze * option ase :=
  let a := aset_find t (oz_aset e) in
  (if delete then mkOze (oz_current e) (oz_innate e) (oz_acquired e) (aset_del t (oz_aset e)) (oz_rset e) else e, a).

(** Never called with [delete]. *)
Definition rsetGet (e : oze) (t : lc) : option lc := snd <$> list_find (fun a => lc_cmp_as_tag t a = 0) (oz_rset e).

Definition add_ase (e : oze) (t : lc) : oze * ase :=
  let a := mkAse (lc_dup t) None dzero dzero in
  (mkOze (oz_current e) (oz_innate e) (oz_acquired e) (oz_aset e ++ [a]) (oz_rset e), a).

(** Writing through a pointer to a record: no two records have one tag. *)
Definition put_ase (e : oze) (a : ase) : oze :=
  mkOze (oz_current e) (oz_innate e) (oz_acquired e)
    ((fun b => if decide (a_t b = a_t a) then a else b) <$> oz_aset e) (oz_rset e).
Definition set_innate (e : oze) (t : option lc) : oze :=
  mkOze (oz_current e) t (oz_acquired e) (oz_aset e) (oz_rset e).
Definition set_acquired (e : oze) (t : option lc) : oze :=
  mkOze (oz_current e) (oz_innate e) t (oz_aset e) (oz_rset e).

(** The record of a tag, added when there is none. *)
Definition get_ase (e : oze) (t : lc) : oze * ase :=
  match (asetGet e t false).2 with
  | Some a => (e, a)
  | None => add_ase e t
  end.

Definition update_innate_value (e : oze) (t : lc) (v : double) : oze * Z :=
  match rsetGet e t with
  | Some _ => (e, 0)
  | None =>
      let '(e, a) := get_ase e t in
      let a := mkAse (a_t a) (Some v) (a_inc a) (a_count a) in
      let e := put_ase e a in
      let newer := match oz_innate e with None => true | Some i => lc_cmp_as_tag i (a_t a) <? 0 end in
      if newer then (set_innate e (Some (a_t a)), 1) else (e, 0)
  end.

(** Whether the record [a] takes the place of the acquired one. *)
Definition outdoes (e : oze) (a : ase) : option bool :=
  match oz_acquired e with
  | None => Some true
  | Some i =>
      b ← ase_at e i;
      Some (dltb (a_count b) (a_count a) || (deqb (a_count b) (a_count a) && (lc_cmp_as_tag i (a_t a) <? 0)))
  end.

Definition update_acquired_value (e : oze) (t : lc) (v : double) : option (oze * Z) :=
  match rsetGet e t with
  | Some _ => Some (e, 0)
  | None =>
      let '(e, a) := get_ase e t in
      let a := mkAse (a_t a) (a_x a) (dadd (a_inc a) v) (dadd (a_count a) (if dltb dzero v then v else dneg v)) in
      let e := put_ase e a in
      if decide (oz_acquired e = Some (a_t a)) then Some (e, 1)
      else
        match outdoes e a with
        | Some b => Some (if b then (set_acquired e (Some (a_t a)), 1) else (e, 0))
        | None => None
        end
  end.

Definition remove_tag (e : oze) (t : lc) : oze :=
  match rsetGet e t with
  | Some _ => e
  | None =>
      let e := mkOze (oz_current e) (oz_innate e) (oz_acquired e) (oz_aset e) (oz_rset e ++ [lc_dup t]) in
      match asetGet e t true with
      | (e, Some a) =>
          let e := if decide (oz_innate e = Some (a_t a)) then set_innate e None else e in
          if decide (oz_acquired e = Some (a_t a)) then set_acquired e None else e
      | (e, None) => e
      end
  end.

Definition resort_step (e : oze) (a : ase) : option oze :=
  let e := match oz_innate e with
    | None => set_innate e (Some (a_t a))
    | Some i => if lc_cmp_as_tag i (a_t a) <? 0 then set_innate e (Some (a_t a)) else e
    end in
  match outdoes e a with
  | Some b => Some (if b then set_acquired e (Some (a_t a)) else e)
  | None => None
  end.

Definition resort (e : oze) : option oze :=
  match oz_innate e, oz_acquired e with
  | Some _, Some _ => Some e
  | _, _ => foldl (fun e a => e ← e; resort_step e a) (Some e) (oz_aset e)
  end.

(** ** Commands *)

(** Show the score of the element. *)
Definition oz_show (x : oze) : cmd unit :=
  key <- rarg 1 ;;
  ele <- rarg 2 ;;
  zset <- getZsetOrCreate key ele ;;
  s <- deref (SCORE x) ;;
  zsetAdd zset s ele.

Definition ozadd_prepare : cmd rvector :=
  b <- checkArgcAndZsetType 4 ;;
  if b then creturn
  else
    s <- arg 3 ;;
    v <- getDoubleFromObjectOrReply s ;;
    match v with
    | None => creturn
    | Some _ =>
        key <- arg 1 ;;
        ele <- arg 2 ;;
        e <- ozeHTGet key ele true ;;
        e <- deref e ;;
        x <- read_oze e ;;
        if LOOKUP x then addReply R_ele_exist ;; creturn
        else
          t <- gets (fun w => LC_NEW (srv w) (oz_current x)) ;;
          write_oze e (mkOze (to_int (oz_current x + 1)) (oz_innate x) (oz_acquired x) (oz_aset x) (oz_rset x)) ;;
          ret (RARGV_ADD_SDS RVCT_PREPARE (lcToSds t))
    end.

Definition ozadd_effect : cmd unit :=
  s <- rarg 3 ;;
  v <- deref (getDoubleFromObject s) ;;
  s <- rarg 4 ;;
  t <- deref (sdsToLc s) ;;
  key <- rarg 1 ;;
  ele <- rarg 2 ;;
  e <- ozeHTGet key ele true ;;
  e <- deref e ;;
  x <- read_oze e ;;
  let '(x, changed) := update_innate_value x t v in
  write_oze e x ;;
  (when (negb (changed =? 0)) do oz_show x) ;;
  modify inc_dirty.

Definition ozaddCommand : cmd unit := CRDT ozadd_prepare ozadd_effect.

(** The tags of the additions the replica has. *)
Definition add_tags (x : oze) (rv : rvector) : rvector :=
  foldl (fun rv a => RARGV_ADD_SDS rv (lcToSds (a_t a))) rv (oz_aset x).

Definition oz_present_prepare (key ele : sds) : cmd rvector :=
  e <- ozeHTGet key ele false ;;
  match e with
  | None => addReply R_ele_nexist ;; creturn
  | Some e =>
      x <- read_oze e ;;
      if negb (LOOKUP x) then addReply R_ele_nexist ;; creturn
      else ret (add_tags x RVCT_PREPARE)
  end.

Definition ozincrby_prepare : cmd rvector :=
  b <- checkArgcAndZsetType 4 ;;
  if b then creturn
  else
    s <- arg 3 ;;
    v <- getDoubleFromObjectOrReply s ;;
    match v with
    | None => creturn
    | Some _ => key <- arg 1 ;; ele <- arg 2 ;; oz_present_prepare key ele
    end.

Definition ozincrby_one (e : eref) (v : double) (changed : Z) (s : sds) : cmd Z :=
  t <- deref (sdsToLc s) ;;
  x <- read_oze e ;;
  r <- deref (update_acquired_value x t v) ;;
  write_oze e r.1 ;;
  ret (to_int (changed + r.2)).

Definition ozincrby_effect : cmd unit :=
  s <- rarg 3 ;;
  v <- deref (getDoubleFromObject s) ;;
  key <- rarg 1 ;;
  ele <- rarg 2 ;;
  e <- ozeHTGet key ele true ;;
  e <- deref e ;;
  l <- rargs ;;
  changed <- fold_each (drop 4 l) 0 (ozincrby_one e v) ;;
  (when (negb (changed =? 0)) do (x <- read_oze e ;; oz_show x)) ;;
  modify inc_dirty.

Definition ozincrbyCommand : cmd unit := CRDT ozincrby_prepare ozincrby_effect.

Definition ozrem_prepare : cmd rvector :=
  b <- checkArgcAndZsetType 3 ;;
  if b then creturn
  else key <- arg 1 ;; ele <- arg 2 ;; oz_present_prepare key ele.

Definition ozrem_one (e : eref) (u : unit) (s : sds) : cmd unit :=
  t <- deref (sdsToLc s) ;;
  x <- read_oze e ;;
  write_oze e (remove_tag x t).

Definition ozrem_effect : cmd unit :=
  key <- rarg 1 ;;
  ele <- rarg 2 ;;
  e <- ozeHTGet key ele true ;;
  e <- deref e ;;
  l <- rargs ;;
  fold_each (drop 3 l) tt (ozrem_one e) ;;
  x <- read_oze e ;;
  (match oz_innate x, oz_acquired x with
   | Some _, Some _ => ret tt
   | _, _ =>
       x <- deref (resort x) ;;
       write_oze e x ;;
       if LOOKUP x then oz_show x
       else
         key <- rarg 1 ;;
         ele <- rarg 2 ;;
         zset <- getZsetOrCreate key ele ;;
         zsetDel zset ele
   end) ;;
  modify inc_dirty.

Definition ozremCommand : cmd unit := CRDT ozrem_prepare ozrem_effect.

Definition ozscoreCommand : cmd unit := zscore_reply.
Definition ozmaxCommand : cmd unit := zmax_reply.

(** ** One operation on one element *)

Inductive ozop := OzAdd (v : double) (t : lc) | OzInc (v : double) (ts : list lc) | OzRem (ts : list lc).

(** The element and the score shown for it. *)
Abbreviation ozst := (oze * option double)%type.

Definition oz_put (p : ozst) : option ozst := s ← SCORE p.1; Some (p.1, zput p.2 s).

Definition oz_incs (e : oze) (v : double) (ts : list lc) : option (oze * Z) :=
  foldl (fun r t => r ← r; r' ← update_acquired_value r.1 t v; Some (r'.1, to_int (r.2 + r'.2))) (Some (e, 0)) ts.

Definition oz_rems (e : oze) (ts : list lc) : oze := foldl remove_tag e ts.

Definition oz_effect (p : ozst) (o : ozop) : option ozst :=
  match o with
  | OzAdd v t =>
      let '(e, changed) := update_innate_value p.1 t v in
      if changed =? 0 then Some (e, p.2) else oz_put (e, p.2)
  | OzInc v ts =>
      r ← oz_incs p.1 v ts;
      if r.2 =? 0 then Some (r.1, p.2) else oz_put (r.1, p.2)
  | OzRem ts =>
      let e := oz_rems p.1 ts in
      match oz_innate e, oz_acquired e with
      | Some _, Some _ => Some (e, p.2)
      | _, _ => e ← resort e; if LOOKUP e then oz_put (e, p.2) else Some (e, None)
      end
  end.

(** ** The commands have this effect *)

Definition ozs (w : world) (k : sds) (f : sds -> oze) (z : gmap sds double) : Prop := rep w k f z.
Abbreviation ozframe := (frame (E := oze)).
Abbreviation ozht := (htname (E := oze)).

Section Effects.
Context (k x : sds) (l : list sds).
Context (Hk : index l 1 = Some k) (Hx : index l 2 = Some x).

(** The element [x] is [p.1], shown with [p.2]. *)
Definition oz_at (w : world) (f : sds -> oze) (z : gmap sds double) (p : ozst) : Prop :=
  rep w k (f_upd f x p) (z_upd z x p) /\ has (E := oze) w k x /\ rargv (cli w) = Some l.

Lemma oz_read w f z p : oz_at w f z p -> read_oze (ozht k, x) w = Done p.1 w.
Proof. intros (Hr & Hh & _). unfold read_oze. by rewrite (read_el_rep _ _ _ _ _ Hr Hh), f_upd_at. Qed.

Lemma oz_write w f z p e :
  oz_at w f z p -> exists w', write_oze (ozht k, x) e w = Done tt w' /\ oz_at w' f z (e, p.2) /\ ozframe k w w'.
Proof.
  intros (Hr & Hh & Hl). destruct (write_el_rep w k _ _ x e Hr Hh I) as (w1 & Hw1 & Hr1 & Hf1).
  exists w1. split_and!; [exact Hw1| |done]. split_and!.
  - eapply rep_ext, Hr1. intros y. unfold f_upd. cbn.
    destruct (decide (y = x)) as [->|]; [by rewrite !fn_lookup_insert|by rewrite !fn_lookup_insert_ne].
  - by apply (fr_has _ _ _ Hf1).
  - by rewrite (fr_cli _ _ _ Hf1).
Qed.

Lemma oz_show_at w f z p s :
  oz_at w f z p -> SCORE p.1 = Some s ->
  exists w', oz_show p.1 w = Done tt w' /\ oz_at w' f z (p.1, zput p.2 s) /\ ozframe k w w'.
Proof.
  intros (Hr & Hh & Hl) Hs. unfold oz_show.
  step_with (rarg_done _ _ _ _ Hl Hk). step_with (rarg_done _ _ _ _ Hl Hx).
  destruct (getZsetOrCreate_rep w k _ _ x Hr) as (w1 & Hw1 & Hr1 & Hf1 & Hs1). step_with Hw1.
  rewrite Hs. step_with (deref_some s w1).
  destruct (zsetAdd_rep w1 k _ _ s x Hr1 Hs1) as (w2 & Hw2 & Hr2 & Hf2). exists w2. split_and!; [exact Hw2| |by rewrite Hf1].
  split_and!.
  - rewrite zset_add_put in Hr2. unfold z_upd in *. rewrite partial_alter_twice in Hr2. exact Hr2.
  - by apply (fr_has _ _ _ Hf2), (fr_has _ _ _ Hf1).
  - by rewrite (fr_cli _ _ _ Hf2), (fr_cli _ _ _ Hf1).
Qed.

Lemma oz_del_at w f z p :
  oz_at w f z p ->
  exists w', (key <- rarg 1 ;; ele <- rarg 2 ;; zset <- getZsetOrCreate key ele ;; zsetDel zset ele) w = Done tt w' /\
    oz_at w' f z (p.1, None) /\ ozframe k w w'.
Proof.
  intros (Hr & Hh & Hl). step_with (rarg_done _ _ _ _ Hl Hk). step_with (rarg_done _ _ _ _ Hl Hx).
  destruct (getZsetOrCreate_rep w k _ _ x Hr) as (w1 & Hw1 & Hr1 & Hf1 & Hs1). step_with Hw1.
  destruct (zsetDel_rep w1 k _ _ x Hr1 Hs1) as (w2 & Hw2 & Hr2 & Hf2). exists w2. split_and!; [exact Hw2| |by rewrite Hf1].
  split_and!.
  - unfold z_upd in *. unfold delete, map_delete in Hr2. rewrite partial_alter_twice in Hr2. exact Hr2.
  - by apply (fr_has _ _ _ Hf2), (fr_has _ _ _ Hf1).
  - by rewrite (fr_cli _ _ _ Hf2), (fr_cli _ _ _ Hf1).
Qed.

(** Writing the element and showing its score. *)
Lemma oz_put_at w f z p q :
  oz_at w f z p -> oz_put p = Some q ->
  exists w', oz_show p.1 w = Done tt w' /\ oz_at w' f z q /\ ozframe k w w'.
Proof.
  intros Ha Hq. unfold oz_put in Hq. destruct (SCORE p.1) as [s|] eqn:Hs; [|done]. injection Hq as <-.
  by apply oz_show_at.
Qed.
End Effects.

Definition oz_inc_step (v : double) (r : option (oze * Z)) (t : lc) : option (oze * Z) :=
  r ← r; r' ← update_acquired_value r.1 t v; Some (r'.1, to_int (r.2 + r'.2)).

Lemma oz_incs_none v ts : foldl (oz_inc_step v) None ts = None.
Proof. by induction ts. Qed.

Lemma oz_incs_cons v e c t ts :
  foldl (oz_inc_step v) (Some (e, c)) (t :: ts) =
  match update_acquired_value e t v with
  | Some r => foldl (oz_inc_step v) (Some (r.1, to_int (c + r.2))) ts
  | None => None
  end.
Proof. cbn. destruct (update_acquired_value e t v); [done|apply oz_incs_none]. Qed.

(** Tags in a message. *)
Definition tags_read (ss : list sds) (ts : list lc) : Prop := Forall2 (fun s t => sdsToLc s = Some t) ss ts.

Section Loops.
Context (k x : sds) (l : list sds).
Abbreviation at_x := (oz_at k x l).

Lemma ozincrby_loop v ss ts w f z p c r :
  at_x w f z p -> tags_read ss ts -> foldl (oz_inc_step v) (Some (p.1, c)) ts = Some r ->
  exists w', fold_each ss c (ozincrby_one (ozht k, x) v) w = Done r.2 w' /\ at_x w' f z (r.1, p.2) /\ ozframe k w w'.
Proof.
  intros Ha Hts. revert w p c Ha. induction Hts as [|s t ss ts Hs _ IH]; intros w p c Ha Hr.
  - injection Hr as <-. exists w. split_and!; [done| |done]. by destruct p.
  - rewrite oz_incs_cons in Hr. destruct (update_acquired_value p.1 t v) as [r'|] eqn:Hu; [|done].
    destruct (oz_write k x l w f z p r'.1 Ha) as (w1 & Hw1 & Ha1 & Hf1).
    destruct (IH w1 (r'.1, p.2) _ Ha1 Hr) as (w2 & Hw2 & Ha2 & Hf2). exists w2. split_and!; [|exact Ha2|by rewrite Hf1].
    cbn [fold_each]. unfold ozincrby_one at 1. rewrite !bind_assoc. rewrite Hs. step_with (deref_some t w).
    rewrite bind_assoc. step_with (oz_read k x l _ _ _ _ Ha). rewrite Hu. rewrite bind_assoc. step_with (deref_some r' w).
    rewrite bind_assoc. step_with Hw1. exact Hw2.
Qed.

Lemma ozrem_loop ss ts w f z p :
  at_x w f z p -> tags_read ss ts ->
  exists w', fold_each ss tt (ozrem_one (ozht k, x)) w = Done tt w' /\ at_x w' f z (oz_rems p.1 ts, p.2) /\ ozframe k w w'.
Proof.
  intros Ha Hts. revert w p Ha. induction Hts as [|s t ss ts Hs _ IH]; intros w p Ha.
  - exists w. split_and!; [done| |done]. by destruct p.
  - destruct (oz_write k x l w f z p (remove_tag p.1 t) Ha) as (w1 & Hw1 & Ha1 & Hf1).
    destruct (IH w1 _ Ha1) as (w2 & Hw2 & Ha2 & Hf2). exists w2. split_and!; [|exact Ha2|by rewrite Hf1].
    cbn [fold_each]. unfold ozrem_one at 1. rewrite !bind_assoc, Hs. step_with (deref_some t w).
    rewrite bind_assoc. step_with (oz_read k x l _ _ _ _ Ha). step_with Hw1. exact Hw2.
Qed.
End Loops.

Section Messages.
Context (w : world) (k x : sds) (f : sds -> oze) (z : gmap sds double) (Hr : ozs w k f z).

Definition oz_done (eff : cmd unit) (o : ozop) : Prop :=
  forall q, oz_effect (f x, z !! x) o = Some q ->
  exists w', eff w = Done tt w' /\ ozs w' k (f_upd f x q) (z_upd z x q) /\ ozframe k w w'.

(** The lookup that starts every effect. *)
Lemma ozeHTGet_at l :
  rargv (cli w) = Some l ->
  exists w', ozeHTGet k x true w = Done (Some (ozht k, x)) w' /\ oz_at k x l w' f z (f x, z !! x) /\ ozframe k w w'.
Proof.
  intros Hl. destruct (elHTGet_true w k f z x Hr) as (w1 & Hw1 & Hr1 & Hf1 & Hh1).
  exists w1. split_and!; [exact Hw1| |done]. split_and!; [by apply st_same|done|by rewrite (fr_cli _ _ _ Hf1)].
Qed.

Lemma oz_finish l w' q :
  oz_at k x l w' f z q -> ozframe k w w' ->
  exists w2, modify inc_dirty w' = Done tt w2 /\ ozs w2 k (f_upd f x q) (z_upd z x q) /\ ozframe k w w2.
Proof.
  intros (Hq & _) Hf. destruct (inc_dirty_rep w' k _ _ Hq) as [Hr2 Hf2]. exists (inc_dirty w'). split_and!; [done|exact Hr2|].
  by rewrite Hf.
Qed.

Lemma ozadd_effect_ozs c0 s ts v t :
  rargv (cli w) = Some [c0; k; x; s; ts] -> getDoubleFromObject s = Some v -> sdsToLc ts = Some t ->
  oz_done ozadd_effect (OzAdd v t).
Proof.
  intros Hl Hs Ht q Hq. unfold ozadd_effect. set (l := [c0; k; x; s; ts]) in *.
  step_with (rarg_done _ _ 3 s Hl eq_refl). rewrite Hs. step_with (deref_some v w).
  step_with (rarg_done _ _ 4 ts Hl eq_refl). rewrite Ht. step_with (deref_some t w).
  step_with (rarg_done _ _ 1 k Hl eq_refl). step_with (rarg_done _ _ 2 x Hl eq_refl).
  destruct (ozeHTGet_at l Hl) as (w1 & Hw1 & Ha1 & Hf1). step_with Hw1. step_with (deref_some (ozht k, x) w1).
  step_with (oz_read k x l _ _ _ _ Ha1). cbn [fst]. cbn [oz_effect fst snd] in Hq.
  destruct (update_innate_value (f x) t v) as [e ch].
  destruct (oz_write k x l w1 f z _ e Ha1) as (w2 & Hw2 & Ha2 & Hf2). step_with Hw2.
  destruct (ch =? 0); cbn [negb].
  - injection Hq as <-. apply (oz_finish l); [done|]. by rewrite Hf1.
  - destruct (oz_put_at k x l eq_refl eq_refl w2 f z (e, z !! x) q Ha2 Hq) as (w3 & Hw3 & Ha3 & Hf3). cbn [fst] in Hw3. step_with Hw3.
    apply (oz_finish l); [done|]. by rewrite Hf1, Hf2.
Qed.

Lemma ozincrby_effect_ozs c0 s ss v ts :
  rargv (cli w) = Some (c0 :: k :: x :: s :: ss) -> getDoubleFromObject s = Some v -> tags_read ss ts ->
  oz_done ozincrby_effect (OzInc v ts).
Proof.
  intros Hl Hs Ht q Hq. unfold ozincrby_effect. set (l := c0 :: k :: x :: s :: ss) in *.
  step_with (rarg_done _ _ 3 s Hl eq_refl). rewrite Hs. step_with (deref_some v w).
  step_with (rarg_done _ _ 1 k Hl eq_refl). step_with (rarg_done _ _ 2 x Hl eq_refl).
  destruct (ozeHTGet_at l Hl) as (w1 & Hw1 & Ha1 & Hf1). step_with Hw1. step_with (deref_some (ozht k, x) w1).
  assert (rargs w1 = Done l w1) as Hargs by (unfold rargs; by rewrite (proj2 (proj2 Ha1))). step_with Hargs.
  cbn [oz_effect fst snd] in Hq. change (oz_incs (f x) v ts) with (foldl (oz_inc_step v) (Some (f x, 0)) ts) in Hq.
  destruct (foldl _ _ ts) as [r|] eqn:Hinc; [|done]. cbn [mbind option_bind] in Hq.
  destruct (ozincrby_loop k x l v ss ts w1 f z _ 0 r Ha1 Ht Hinc) as (w2 & Hw2 & Ha2 & Hf2).
  change (drop 4 l) with ss. step_with Hw2. destruct (r.2 =? 0); cbn [negb].
  - injection Hq as <-. apply (oz_finish l); [done|]. by rewrite Hf1.
  - rewrite bind_assoc. step_with (oz_read k x l _ _ _ _ Ha2).
    destruct (oz_put_at k x l eq_refl eq_refl w2 f z _ q Ha2 Hq) as (w3 & Hw3 & Ha3 & Hf3). cbn [fst] in *. step_with Hw3.
    apply (oz_finish l); [done|]. by rewrite Hf1, Hf2.
Qed.

Lemma ozrem_effect_ozs c0 ss ts :
  rargv (cli w) = Some (c0 :: k :: x :: ss) -> tags_read ss ts -> oz_done ozrem_effect (OzRem ts).
Proof.
  intros Hl Ht q Hq. unfold ozrem_effect. set (l := c0 :: k :: x :: ss) in *.
  step_with (rarg_done _ _ 1 k Hl eq_refl). step_with (rarg_done _ _ 2 x Hl eq_refl).
  destruct (ozeHTGet_at l Hl) as (w1 & Hw1 & Ha1 & Hf1). step_with Hw1. step_with (deref_some (ozht k, x) w1).
  assert (rargs w1 = Done l w1) as Hargs by (unfold rargs; by rewrite (proj2 (proj2 Ha1))). step_with Hargs.
  destruct (ozrem_loop k x l ss ts w1 f z _ Ha1 Ht) as (w2 & Hw2 & Ha2 & Hf2).
  change (drop 3 l) with ss. step_with Hw2. step_with (oz_read k x l _ _ _ _ Ha2).
  cbn [oz_effect fst snd] in *. set (e := oz_rems (f x) ts) in *.
  assert (forall e', resort e = Some e' -> (if LOOKUP e' then oz_put (e', z !! x) else Some (e', None)) = Some q ->
    exists w', ((e' <- deref (resort e) ;; write_oze (ozht k, x) e' ;;
      if LOOKUP e' then oz_show e'
      else key <- rarg 1 ;; ele <- rarg 2 ;; zset <- getZsetOrCreate key ele ;; zsetDel zset ele) ;;
      modify inc_dirty) w2 = Done tt w' /\ ozs w' k (f_upd f x q) (z_upd z x q) /\ ozframe k w w') as Hresort.
  { intros e' He' Hq'. rewrite bind_assoc, He'. step_with (deref_some e' w2). rewrite bind_assoc.
    destruct (oz_write k x l w2 f z _ e' Ha2) as (w3 & Hw3 & Ha3 & Hf3). step_with Hw3.
    assert (ozframe k w w3) as Hf by (by rewrite Hf1, Hf2). destruct (LOOKUP e').
    - destruct (oz_put_at k x l eq_refl eq_refl w3 f z _ q Ha3 Hq') as (w4 & Hw4 & Ha4 & Hf4). step_with Hw4.
      apply (oz_finish l); [done|]. by rewrite Hf.
    - injection Hq' as <-. destruct (oz_del_at k x l eq_refl eq_refl w3 f z _ Ha3) as (w4 & Hw4 & Ha4 & Hf4). step_with Hw4.
      apply (oz_finish l); [done|]. by rewrite Hf. }
  destruct (oz_innate e), (oz_acquired e); [|destruct (resort e) as [e'|] eqn:He; [|done]; by apply (Hresort e')..].
  injection Hq as <-. apply (oz_finish l); [done|]. by rewrite Hf1.
Qed.
End Messages.
