(* ===== verification/OZSetConv.v ===== *)
(** * Convergence of the observed-remove sorted set

    What a history of operations leaves of one element: the additions that were
    not removed with the sums of their increments, the two selected ones, and the
    score shown.  With integer scores, and when no increment of an addition comes
    before it, replicas that received the same messages show the same scores. *)
From Stdlib Require Import ZArith Lia Ascii String.
From stdpp Require Import functions base numbers strings gmap sets list.
From S2P Require Import Prelude Sds Double VectorClock LamportClock Intset SetType Server RWFramework Container RWSet ORSet Zset.
From S2P Require Import DoubleExact OZSet.
Open Scope Z_scope.

(** ** Operations on one tag *)

Inductive tagop := TAdd (v : double) (t : lc) | TInc (v : double) (t : lc) | TRem (t : lc).

Definition to_tag (o : tagop) : lc := match o with TAdd _ t | TInc _ t | TRem t => t end.
Definition to_val (o : tagop) : Z := match o with TAdd v _ | TInc v _ => int_of v | TRem _ => 0 end.
Definition to_ok (o : tagop) : Prop :=
  lc_wf (to_tag o) /\ match o with TAdd v _ | TInc v _ => v = of_Z (int_of v) | TRem _ => True end.

(** The value a tag was added with, the sum of its increments and of their
    magnitudes, and the magnitude of everything. *)
Fixpoint addv (t : lc) (l : list tagop) : Z :=
  match l with
  | [] => 0
  | TAdd v t' :: l => if decide (t' = t) then int_of v else addv t l
  | _ :: l => addv t l
  end.
Definition inc_of (t : lc) (o : tagop) : Z := match o with TInc v t' => if decide (t' = t) then int_of v else 0 | _ => 0 end.
Definition isum (t : lc) (l : list tagop) : Z := foldr (fun o s => inc_of t o + s) 0 l.
Definition imag (t : lc) (l : list tagop) : Z := foldr (fun o s => Z.abs (inc_of t o) + s) 0 l.
Definition total (l : list tagop) : Z := foldr (fun o s => Z.abs (to_val o) + s) 0 l.

Definition added (t : lc) (l : list tagop) : Prop := exists v, TAdd v t ∈ l.
Definition removed (t : lc) (l : list tagop) : Prop := TRem t ∈ l.

(** Additions of one tag carry the same value: a tag is used once. *)
Definition adds_agree (l : list tagop) : Prop := forall v v' t, TAdd v t ∈ l -> TAdd v' t ∈ l -> v = v'.

Lemma total_app l1 l2 : total (l1 ++ l2) = total l1 + total l2.
Proof. unfold total. induction l1; cbn in *; lia. Qed.

Lemma isum_snoc t l o : isum t (l ++ [o]) = isum t l + inc_of t o.
Proof. unfold isum. induction l; cbn in *; lia. Qed.

Lemma imag_snoc t l o : imag t (l ++ [o]) = imag t l + Z.abs (inc_of t o).
Proof. unfold imag. induction l; cbn in *; lia. Qed.

Lemma imag_nonneg t l : 0 <= imag t l.
Proof. unfold imag. induction l; cbn in *; lia. Qed.

Lemma isum_imag t l : Z.abs (isum t l) <= imag t l.
Proof. unfold isum, imag. induction l; cbn in *; lia. Qed.

Lemma total_cons o l : total (o :: l) = Z.abs (to_val o) + total l.
Proof. done. Qed.

Lemma imag_cons t o l : imag t (o :: l) = Z.abs (inc_of t o) + imag t l.
Proof. done. Qed.

Lemma imag_total_0 t l : imag t l <= total l.
Proof.
  induction l as [|o l IH]; [done|]. rewrite total_cons, imag_cons. destruct o; cbn; [lia|case_decide; lia|lia].
Qed.

Lemma imag_total t t' l : Z.abs (addv t l) + imag t' l <= total l.
Proof.
  induction l as [|o l IH]; [done|]. rewrite total_cons, imag_cons. pose proof (imag_total_0 t' l).
  destruct o as [v u|v u|u]; cbn [addv to_val inc_of]; [case_decide|case_decide|]; lia.
Qed.

Lemma isum_perm t l1 l2 : l1 ≡ₚ l2 -> isum t l1 = isum t l2.
Proof. unfold isum. induction 1; cbn in *; lia. Qed.

Lemma imag_perm t l1 l2 : l1 ≡ₚ l2 -> imag t l1 = imag t l2.
Proof. unfold imag. induction 1; cbn in *; lia. Qed.

Lemma addv_in t l v : adds_agree l -> TAdd v t ∈ l -> addv t l = int_of v.
Proof.
  intros Hag Hin. induction l as [|o l IH]; [by apply elem_of_nil in Hin|].
  assert (adds_agree l) as Hag' by (intros v1 v2 t' H1 H2; eapply Hag; right; done).
  destruct o as [v' t'|v' t'|t']; cbn.
  - case_decide as Ht; [subst; f_equal; eapply Hag; [left|done]|].
    apply IH; [done|]. apply elem_of_cons in Hin as [[= -> ->]|]; done.
  - apply IH; [done|]. by apply elem_of_cons in Hin as [|].
  - apply IH; [done|]. by apply elem_of_cons in Hin as [|].
Qed.

Lemma addv_mono t l o : added t l -> addv t (l ++ [o]) = addv t l.
Proof.
  intros [v Hin]. induction l as [|o' l IH]; [by apply elem_of_nil in Hin|].
  destruct o' as [v' t'|v' t'|t']; cbn.
  - case_decide; [done|]. apply IH. apply elem_of_cons in Hin as [[= -> ->]|]; done.
  - apply IH. by apply elem_of_cons in Hin as [|].
  - apply IH. by apply elem_of_cons in Hin as [|].
Qed.

(** ** The state of an element *)

Definition a_cnt (l : list tagop) (a : ase) : Z := imag (a_t a) l.

(** What the element holds after the operations [l]. *)
Record oz_holds (l : list tagop) (e : oze) : Prop := {
  oh_tags : NoDup (a_t <$> oz_aset e);
  oh_aset t : t ∈ a_t <$> oz_aset e <-> added t l /\ ~ removed t l;
  oh_rec a : a ∈ oz_aset e ->
    a_x a = Some (of_Z (addv (a_t a) l)) /\ a_inc a = of_Z (isum (a_t a) l) /\ a_count a = of_Z (imag (a_t a) l);
  oh_rset t : t ∈ oz_rset e <-> removed t l;
  oh_orphan t : imag t l <> 0 -> added t l \/ removed t l
}.

(** The selected additions: the greatest tag, and the greatest magnitude with
    the tag deciding, which does not matter when nothing was added up. *)
Definition outranked (l : list tagop) (i : lc) (t : lc) : Prop :=
  imag t l < imag i l \/ (imag t l = imag i l /\ (~ tag_lt i t \/ imag i l = 0)).

Record oz_selected (l : list tagop) (e : oze) : Prop := {
  os_innate i : oz_innate e = Some i -> i ∈ a_t <$> oz_aset e /\ forall t, t ∈ a_t <$> oz_aset e -> ~ tag_lt i t;
  os_acquired i : oz_acquired e = Some i -> i ∈ a_t <$> oz_aset e /\ forall t, t ∈ a_t <$> oz_aset e -> outranked l i t
}.

(** Between operations something is selected whenever there is something. *)
Record oz_settled (l : list tagop) (e : oze) : Prop := {
  ot_innate : oz_innate e = None -> oz_aset e = [];
  ot_acquired : oz_acquired e = None -> forall t, t ∈ a_t <$> oz_aset e -> imag t l = 0
}.

Definition oz_score (l : list tagop) (e : oze) : Z :=
  match oz_innate e with Some i => addv i l | None => 0 end + match oz_acquired e with Some i => isum i l | None => 0 end.

Lemma oz_score_exact l e : total l < 2 ^ 53 -> exact (oz_score l e).
Proof.
  intros Ht. unfold oz_score, exact. destruct (oz_innate e) as [i|], (oz_acquired e) as [j|].
  - pose proof (imag_total i j l). pose proof (isum_imag j l). lia.
  - pose proof (imag_total i i l). pose proof (imag_nonneg i l). lia.
  - pose proof (imag_total j j l). pose proof (isum_imag j l). lia.
  - lia.
Qed.

Lemma part_exact l t : total l < 2 ^ 53 -> exact (addv t l) /\ exact (isum t l) /\ exact (imag t l).
Proof.
  intros Ht. pose proof (imag_total t t l). pose proof (isum_imag t l). pose proof (imag_nonneg t l). unfold exact. lia.
Qed.

Lemma ase_at_in e t : NoDup (a_t <$> oz_aset e) -> t ∈ a_t <$> oz_aset e -> exists a, ase_at e t = Some a /\ a ∈ oz_aset e /\ a_t a = t.
Proof.
  intros _ Hin. apply list_elem_of_fmap in Hin as (a & Ht & Ha). unfold ase_at.
  destruct (list_find_elem_of (fun b => a_t b = t) (oz_aset e) a Ha (eq_sym Ht)) as [[n b] Hb].
  rewrite Hb. apply list_find_Some in Hb as (Hl & Hb & _). cbn. exists b. split_and!; [done| |done]. by eapply list_elem_of_lookup_2.
Qed.

Lemma SCORE_spec l e :
  oz_holds l e -> oz_selected l e -> total l < 2 ^ 53 -> SCORE e = Some (of_Z (oz_score l e)).
Proof.
  intros Hh Hs Ht. pose proof (oz_score_exact l e Ht) as Hx. unfold SCORE, oz_score in *.
  assert (match oz_innate e with None => Some dzero | Some t => ase_at e t ≫= a_x end =
    Some (of_Z match oz_innate e with Some i => addv i l | None => 0 end)) as ->.
  { destruct (oz_innate e) as [i|] eqn:Hi; [|done]. destruct (os_innate _ _ Hs i Hi) as [Hin _].
    destruct (ase_at_in e i (oh_tags _ _ Hh) Hin) as (a & -> & Ha & <-). cbn. apply (oh_rec _ _ Hh a Ha). }
  assert (match oz_acquired e with None => Some dzero | Some t => a_inc <$> ase_at e t end =
    Some (of_Z match oz_acquired e with Some i => isum i l | None => 0 end)) as ->.
  { destruct (oz_acquired e) as [i|] eqn:Hi; [|done]. destruct (os_acquired _ _ Hs i Hi) as [Hin _].
    destruct (ase_at_in e i (oh_tags _ _ Hh) Hin) as (a & -> & Ha & <-). cbn. f_equal. apply (oh_rec _ _ Hh a Ha). }
  cbn. f_equal. apply dadd_exact; [| |done].
  - destruct (oz_innate e) as [i|]; [by apply part_exact|done].
  - destruct (oz_acquired e) as [i|]; [by apply part_exact|done].
Qed.

(** ** The helpers *)

Abbreviation tags e := (a_t <$> oz_aset e).

Lemma cmp_zero t u : lc_wf t -> lc_wf u -> lc_cmp_as_tag t u = 0 <-> t = u.
Proof. intros Ht Hu. apply (lc_cmp_as_tag_spec t u Ht Hu). Qed.

Lemma cmp_lt t u : lc_wf t -> lc_wf u -> (lc_cmp_as_tag t u <? 0) = true <-> tag_lt t u.
Proof. intros Ht Hu. rewrite Z.ltb_lt. apply (lc_cmp_as_tag_spec t u Ht Hu). Qed.

Lemma rsetGet_spec e t : lc_wf t -> Forall lc_wf (oz_rset e) -> is_Some (rsetGet e t) <-> t ∈ oz_rset e.
Proof.
  intros Ht Hf. unfold rsetGet. rewrite fmap_is_Some. rewrite Forall_forall in Hf. split.
  - intros [[n u] Hu]. apply list_find_Some in Hu as (Hl & Hu & _). apply list_elem_of_lookup_2 in Hl.
    rewrite cmp_zero in Hu by auto. by subst.
  - intros Hin. eapply list_find_elem_of; [exact Hin|]. by apply cmp_zero.
Qed.

Lemma aset_find_in t (l : list ase) :
  lc_wf t -> Forall (fun a => lc_wf (a_t a)) l -> t ∈ a_t <$> l -> exists a, aset_find t l = Some a /\ a ∈ l /\ a_t a = t.
Proof.
  intros Ht Hf Hin. induction l as [|a l IH]; [by apply elem_of_nil in Hin|].
  apply Forall_cons_1 in Hf as [Ha Hf]. cbn [aset_find].
  destruct (Z.eqb_spec (lc_cmp_as_tag t (a_t a)) 0) as [Hz|Hz].
  - apply cmp_zero in Hz; [|done..]. exists a. split_and!; [done|left|done].
  - destruct IH as (b & Hb & Hbl & Hbt); [done| |exists b; split_and!; [done|by right|done]].
    rewrite fmap_cons in Hin. apply elem_of_cons in Hin as [->|]; [|done]. by rewrite cmp_zero in Hz.
Qed.

Lemma aset_find_out t (l : list ase) :
  lc_wf t -> Forall (fun a => lc_wf (a_t a)) l -> t ∉ a_t <$> l -> aset_find t l = None /\ aset_del t l = l.
Proof.
  intros Ht Hf Hout. induction l as [|a l IH]; [done|]. apply Forall_cons_1 in Hf as [Ha Hf].
  rewrite fmap_cons, not_elem_of_cons in Hout. destruct Hout as [Hne Hout]. cbn [aset_find aset_del].
  destruct (Z.eqb_spec (lc_cmp_as_tag t (a_t a)) 0) as [Hz|Hz]; [by apply cmp_zero in Hz|].
  destruct (IH Hf Hout) as [-> ->]. done.
Qed.

Lemma aset_del_in t (l : list ase) :
  lc_wf t -> Forall (fun a => lc_wf (a_t a)) l -> NoDup (a_t <$> l) ->
  NoDup (a_t <$> aset_del t l) /\ forall a, a ∈ aset_del t l <-> a ∈ l /\ a_t a <> t.
Proof.
  intros Ht Hf Hnd. induction l as [|a l IH]; [split; [done|]; set_solver|]. apply Forall_cons_1 in Hf as [Ha Hf].
  rewrite fmap_cons in Hnd. apply NoDup_cons in Hnd as [Hna Hnd]. cbn [aset_del].
  destruct (Z.eqb_spec (lc_cmp_as_tag t (a_t a)) 0) as [Hz|Hz].
  - apply cmp_zero in Hz; [|done..]. subst t. split; [done|]. intros b. rewrite elem_of_cons. split; [|naive_solver].
    intros Hb. split; [by right|]. intros Heq. apply Hna. rewrite <- Heq. by apply list_elem_of_fmap_2.
  - destruct (IH Hf Hnd) as [Hnd' Hin']. rewrite fmap_cons, NoDup_cons. split_and!; [|done|].
    + intros Hc. apply Hna. apply list_elem_of_fmap in Hc as (b & -> & Hb). apply list_elem_of_fmap_2. by apply Hin'.
    + intros b. rewrite !elem_of_cons, Hin'. rewrite cmp_zero in Hz by done. naive_solver.
Qed.

(** The tags in an element are those of the operations. *)
Lemma tags_wf l e : Forall to_ok l -> oz_holds l e -> Forall (fun a => lc_wf (a_t a)) (oz_aset e) /\ Forall lc_wf (oz_rset e).
Proof.
  intros Hok Hh. rewrite Forall_forall in Hok. split; apply Forall_forall.
  - intros a Ha. assert (a_t a ∈ tags e) as Hin by (by apply list_elem_of_fmap_2).
    apply (oh_aset _ _ Hh) in Hin as [[v Hv] _]. apply (Hok _ Hv).
  - intros t Ht. apply (oh_rset _ _ Hh) in Ht. apply (Hok _ Ht).
Qed.

(** Getting the record of a tag and writing it. *)
Definition touch (e : oze) (t : lc) (h : ase -> ase) : oze := let '(e1, a) := get_ase e t in put_ase e1 (h a).

Lemma touch_spec l e t h :
  Forall to_ok l -> lc_wf t -> oz_holds l e -> (forall a, a_t (h a) = a_t a) ->
  exists a, get_ase e t = ((get_ase e t).1, a) /\ a_t a = t /\
    (t ∈ tags e -> a ∈ oz_aset e) /\ (t ∉ tags e -> a = mkAse t None dzero dzero) /\
    NoDup (tags (touch e t h)) /\ (forall u, u ∈ tags (touch e t h) <-> u ∈ tags e \/ u = t) /\
    (forall b, b ∈ oz_aset (touch e t h) <-> b = h a \/ (b ∈ oz_aset e /\ a_t b <> t)) /\
    oz_rset (touch e t h) = oz_rset e /\ oz_innate (touch e t h) = oz_innate e /\ oz_acquired (touch e t h) = oz_acquired e.
Proof.
  intros Hok Ht Hh Hht. destruct (tags_wf l e Hok Hh) as [Hwf _].
  assert (forall e1 a, get_ase e t = (e1, a) -> a_t a = t -> a ∈ oz_aset e1 -> NoDup (tags e1) ->
    let e2 := put_ase e1 (h a) in
    tags e2 = tags e1 /\ forall b, b ∈ oz_aset e2 <-> b = h a \/ (b ∈ oz_aset e1 /\ a_t b <> t)) as Hput.
  { intros e1 a _ Hat Ha Hnd. cbn. split.
    - rewrite <- list_fmap_compose. apply list_fmap_ext. intros i b _. cbn. case_decide as Hd; [|done]. by rewrite Hd.
    - intros b. rewrite list_elem_of_fmap. rewrite Hht, Hat. split.
      + intros (c & -> & Hc). case_decide; [by left|by right].
      + intros [->|[Hb Hne]]; [exists a; by rewrite decide_True|exists b; by rewrite decide_False]. }
  unfold touch, get_ase, asetGet. cbn [snd]. destruct (decide (t ∈ tags e)) as [Hin|Hout].
  - destruct (aset_find_in t _ Ht Hwf Hin) as (a & Hf & Ha & Hat). rewrite Hf. exists a.
    destruct (Hput e a) as [Htags Hrec]; [unfold get_ase, asetGet; cbn; by rewrite Hf|done|done|apply Hh|].
    split_and!; [done|done|done|done| | |done|done|done|done].
    + rewrite Htags. apply Hh.
    + intros u. rewrite Htags. split; [by left|]. intros [Hu|Hu]; [done|by subst].
  - destruct (aset_find_out t _ Ht Hwf Hout) as [Hf _]. rewrite Hf. unfold add_ase. cbn [fst snd].
    assert (lc_dup t = t) as Hdup by (by destruct t). rewrite Hdup. set (a := mkAse t None dzero dzero). exists a.
    set (e1 := mkOze _ _ _ (oz_aset e ++ [a]) _).
    assert (tags e1 = tags e ++ [t]) as Ht1 by (cbn; by rewrite fmap_app).
    assert (NoDup (tags e1)) as Hnd.
    { rewrite Ht1. apply NoDup_app. split_and!; [apply Hh| |apply NoDup_singleton].
      intros u Hu ->%list_elem_of_singleton. done. }
    destruct (Hput e1 a) as [Htags Hrec]; [unfold get_ase, asetGet, add_ase; cbn; by rewrite Hf, Hdup|done| |done|].
    { cbn. apply elem_of_app. right. by apply list_elem_of_singleton. }
    split_and!; [done|done|done|done|by rewrite Htags| | |done|done|done].
    + intros u. rewrite Htags, Ht1, elem_of_app, list_elem_of_singleton. done.
    + intros b. rewrite Hrec. cbn. rewrite elem_of_app, list_elem_of_singleton. naive_solver.
Qed.

(** ** One operation on a tag *)

Lemma added_snoc t l o : added t (l ++ [o]) <-> added t l \/ exists v, o = TAdd v t.
Proof. unfold added. setoid_rewrite elem_of_app. setoid_rewrite list_elem_of_singleton. naive_solver. Qed.

Lemma removed_snoc t l o : removed t (l ++ [o]) <-> removed t l \/ o = TRem t.
Proof. unfold removed. rewrite elem_of_app, list_elem_of_singleton. naive_solver. Qed.

(** Tags an operation does not touch keep their values. *)
Lemma other_tag t l o : to_tag o <> t -> isum t (l ++ [o]) = isum t l /\ imag t (l ++ [o]) = imag t l.
Proof.
  intros Hne. rewrite isum_snoc, imag_snoc. assert (inc_of t o = 0) as ->; [|lia].
  destruct o as [v u|v u|u]; cbn in *; [done|by rewrite decide_False|done].
Qed.

Lemma no_inc t l o : (forall v, o <> TInc v t) -> isum t (l ++ [o]) = isum t l /\ imag t (l ++ [o]) = imag t l.
Proof.
  intros Hne. rewrite isum_snoc, imag_snoc. assert (inc_of t o = 0) as ->; [|lia].
  destruct o as [v u|v u|u]; cbn in *; [done| |done]. case_decide; [subst; by destruct (Hne v)|done].
Qed.

(** Nothing but [l] changes. *)
Lemma oz_score_stable l o e :
  oz_holds l e -> oz_selected l e -> (forall v i, oz_acquired e = Some i -> o <> TInc v i) ->
  oz_score (l ++ [o]) e = oz_score l e.
Proof.
  intros Hh Hs Hne. unfold oz_score. f_equal.
  - destruct (oz_innate e) as [i|] eqn:Hi; [|done]. apply addv_mono.
    destruct (os_innate _ _ Hs i Hi) as [Hin _]. by apply (oh_aset _ _ Hh) in Hin as [? _].
  - destruct (oz_acquired e) as [i|] eqn:Hi; [|done]. apply no_inc. intros v. by apply Hne.
Qed.

(** An operation on a tag that was removed changes nothing. *)
Lemma ignored l o e :
  oz_holds l e -> oz_selected l e -> oz_settled l e -> removed (to_tag o) l -> ~ (exists t, o = TRem t) ->
  oz_holds (l ++ [o]) e /\ oz_selected (l ++ [o]) e /\ oz_settled (l ++ [o]) e /\ oz_score (l ++ [o]) e = oz_score l e.
Proof.
  intros Hh Hs Ht Hrem Hno.
  assert (forall u, u ∈ tags e -> to_tag o <> u) as Hne by (intros u Hu <-; by apply (oh_aset _ _ Hh) in Hu as [_ ?]).
  assert (forall u, u ∈ tags e -> imag u (l ++ [o]) = imag u l) as Him by (intros u Hu; by apply other_tag, Hne).
  split_and!.
  - split; [apply Hh| | | |].
    + intros t. rewrite (oh_aset _ _ Hh), added_snoc, removed_snoc. split.
      * intros [H1 H2]. split; [by left|]. intros [?| ->]; [done|naive_solver].
      * intros [[H1|[v ->]] H2]; [naive_solver|]. cbn in Hrem. naive_solver.
    + intros a Ha. assert (a_t a ∈ tags e) as Hin by (by apply list_elem_of_fmap_2).
      destruct (other_tag (a_t a) l o (Hne _ Hin)) as [-> ->]. rewrite addv_mono by (by apply (oh_aset _ _ Hh) in Hin as [? _]).
      by apply Hh.
    + intros t. rewrite (oh_rset _ _ Hh), removed_snoc. naive_solver.
    + intros t Hi. rewrite removed_snoc, added_snoc. destruct (decide (to_tag o = t)) as [<-|Hn]; [right; by left|].
      rewrite (proj2 (other_tag t l o Hn)) in Hi. destruct (oh_orphan _ _ Hh t Hi); [left|right]; by left.
  - split.
    + apply Hs.
    + intros i Hi. destruct (os_acquired _ _ Hs i Hi) as [Hin Hall]. split; [done|]. intros u Hu.
      unfold outranked. rewrite !Him by done. by apply Hall.
  - split; [apply Ht|]. intros Hn u Hu. rewrite Him by done. by apply Ht.
  - apply oz_score_stable; [done..|]. intros v i Hi ->. destruct (os_acquired _ _ Hs i Hi) as [Hin _]. by apply (Hne i Hin).
Qed.

Lemma orphan_zero l e t : oz_holds l e -> ~ removed t l -> t ∉ tags e -> imag t l = 0.
Proof.
  intros Hh Hr Hn. destruct (decide (imag t l = 0)) as [|Hz]; [done|].
  destruct (oh_orphan _ _ Hh t Hz) as [Ha|?]; [|done]. destruct Hn. by apply (oh_aset _ _ Hh).
Qed.

(** Writing the record of a tag that was not removed. *)
Lemma touched l o e h :
  Forall to_ok l -> lc_wf (to_tag o) -> oz_holds l e -> ~ removed (to_tag o) l -> ~ (exists t, o = TRem t) ->
  (forall a, a_t (h a) = a_t a) -> added (to_tag o) (l ++ [o]) -> adds_agree (l ++ [o]) ->
  (forall a, a_t a = to_tag o ->
     (a ∈ oz_aset e /\ added (to_tag o) l \/ a = mkAse (to_tag o) None dzero dzero /\ ~ added (to_tag o) l /\ isum (to_tag o) l = 0 /\ imag (to_tag o) l = 0) ->
     a_x (h a) = Some (of_Z (addv (to_tag o) (l ++ [o]))) /\ a_inc (h a) = of_Z (isum (to_tag o) (l ++ [o])) /\
     a_count (h a) = of_Z (imag (to_tag o) (l ++ [o]))) ->
  oz_holds (l ++ [o]) (touch e (to_tag o) h).
Proof.
  intros Hok Hwf Hh Hrem Hno Hht Hadd Hag Hrec. set (t := to_tag o) in *.
  destruct (touch_spec l e t h Hok Hwf Hh Hht) as (a & _ & Hat & Hin & Hout & Hnd & Htags & Hasets & Hrset & _ & _).
  assert (~ removed t (l ++ [o])) as Hrem' by (rewrite removed_snoc; intros [?|?]; [done|naive_solver]).
  split; [done| | | |].
  - intros u. rewrite Htags, (oh_aset _ _ Hh), added_snoc, removed_snoc. split.
    + intros [[H1 H2]|Hu].
      * split; [by left|]. intros [?|?]; [done|naive_solver].
      * subst u. split; [by rewrite added_snoc in Hadd|]. by rewrite removed_snoc in Hrem'.
    + intros [[H1|[v Ho]] H2]; [left; naive_solver|right]. unfold t. by rewrite Ho.
  - intros b Hb. apply Hasets in Hb as [Hb|[Hb Hne]].
    + subst b. rewrite !Hht, !Hat. apply Hrec; [done|]. destruct (decide (t ∈ tags e)) as [Hi|Hi].
      * left. split; [by apply Hin|]. by apply (oh_aset _ _ Hh) in Hi as [? _].
      * right. split; [by apply Hout|]. split; [intros Ha; destruct Hi; by apply (oh_aset _ _ Hh)|].
        pose proof (orphan_zero l e t Hh Hrem Hi). pose proof (isum_imag t l). lia.
    + assert (a_t b ∈ tags e) as Hbt by (by apply list_elem_of_fmap_2).
      destruct (other_tag (a_t b) l o) as [-> ->]; [by intros ?|]. rewrite addv_mono by (by apply (oh_aset _ _ Hh) in Hbt as [? _]).
      by apply Hh.
  - intros u. rewrite Hrset, (oh_rset _ _ Hh), removed_snoc. naive_solver.
  - intros u Hi. destruct (decide (u = t)) as [->|Hn]; [by left|].
    rewrite (proj2 (other_tag u l o (not_eq_sym Hn))) in Hi. rewrite removed_snoc, added_snoc.
    destruct (oh_orphan _ _ Hh u Hi); [left|right]; by left.
Qed.

(** The state an element is in between operations. *)
Definition oz_good (l : list tagop) (e : oze) : Prop := oz_holds l e /\ oz_selected l e /\ oz_settled l e.

Lemma rsetGet_cases l e t :
  Forall to_ok l -> lc_wf t -> oz_holds l e ->
  (removed t l /\ exists u, rsetGet e t = Some u) \/ (~ removed t l /\ rsetGet e t = None).
Proof.
  intros Hok Ht Hh. destruct (tags_wf l e Hok Hh) as [_ Hr]. pose proof (rsetGet_spec e t Ht Hr) as Hs.
  rewrite (oh_rset _ _ Hh) in Hs. destruct (rsetGet e t) as [u|]; [left|right].
  - split; [apply Hs; by eexists|by exists u].
  - split; [|done]. intros Hc. by destruct (proj2 Hs Hc).
Qed.

Lemma tag_ok l e t : Forall to_ok l -> oz_holds l e -> t ∈ tags e -> lc_wf t.
Proof.
  intros Hok Hh Hin. destruct (tags_wf l e Hok Hh) as [Hw _]. apply list_elem_of_fmap in Hin as (a & -> & Ha).
  rewrite Forall_forall in Hw. by apply Hw.
Qed.

Lemma tags_nil e : oz_aset e = [] <-> forall t, t ∉ tags e.
Proof.
  split; [intros ->; by intros t Ht%elem_of_nil|]. destruct (oz_aset e) as [|a s]; [done|]. intros Hn.
  destruct (Hn (a_t a)). left.
Qed.

Lemma update_innate_eq e t v :
  rsetGet e t = None ->
  let e' := touch e t (fun a => mkAse (a_t a) (Some v) (a_inc a) (a_count a)) in
  update_innate_value e t v =
  if match oz_innate e' with None => true | Some i => lc_cmp_as_tag i (a_t (get_ase e t).2) <? 0 end
  then (set_innate e' (Some (a_t (get_ase e t).2)), 1) else (e', 0).
Proof. intros Hr. unfold update_innate_value, touch. rewrite Hr. by destruct (get_ase e t) as [e1 a]. Qed.

(** A tag that joins without increments does not disturb the acquired one. *)
Lemma widen l o e e' t :
  oz_good l e -> ~ removed t l -> (forall v u, o <> TInc v u) ->
  (forall u, u ∈ tags e' <-> u ∈ tags e \/ u = t) -> oz_acquired e' = oz_acquired e ->
  (forall i, oz_acquired e' = Some i -> i ∈ tags e' /\ forall u, u ∈ tags e' -> outranked (l ++ [o]) i u) /\
  (oz_acquired e' = None -> forall u, u ∈ tags e' -> imag u (l ++ [o]) = 0).
Proof.
  intros (Hh & Hs & Ht) Hr Ho Htags ->.
  assert (forall i, imag i (l ++ [o]) = imag i l) as Him by (intros i; by apply no_inc). split.
  - intros i Hi. destruct (os_acquired _ _ Hs i Hi) as [Hi1 Hi2]. split; [apply Htags; by left|].
    intros u Hu. unfold outranked. rewrite !Him. apply Htags in Hu as [Hu| ->]; [by apply Hi2|].
    destruct (decide (t ∈ tags e)) as [Hte|Hte]; [by apply Hi2|]. rewrite (orphan_zero l e t Hh Hr Hte).
    pose proof (imag_nonneg i l). lia.
  - intros Hn u Hu. rewrite Him. apply Htags in Hu as [Hu| ->]; [by apply (ot_acquired _ _ Ht)|].
    destruct (decide (t ∈ tags e)) as [Hte|Hte]; [by apply (ot_acquired _ _ Ht)|]. by eapply orphan_zero.
Qed.

Section Add.
Context (l : list tagop) (e : oze) (v : double) (t : lc).
Context (Hok : Forall to_ok (l ++ [TAdd v t])) (Hag : adds_agree (l ++ [TAdd v t])) (Hgood : oz_good l e).

Lemma add_step :
  let '(e', changed) := update_innate_value e t v in
  oz_good (l ++ [TAdd v t]) e' /\
  (changed = 0 -> oz_score (l ++ [TAdd v t]) e' = oz_score l e /\ (oz_aset e' = [] <-> oz_aset e = [])) /\
  (changed <> 0 -> oz_aset e' <> []).
Proof.
  destruct Hgood as (Hh & Hs & Ht). pose proof Hok as [Hokl Ho]%Forall_app. rewrite Forall_singleton in Ho.
  destruct Ho as [Hwf Hv]. cbn in Hwf, Hv.
  destruct (rsetGet_cases l e t Hokl Hwf Hh) as [[Hrem [u Hu]]|[Hrem Hu]].
  { unfold update_innate_value. rewrite Hu.
    destruct (ignored l (TAdd v t) e Hh Hs Ht Hrem) as (H1 & H2 & H3 & H4); [naive_solver|]. split_and!; [by split_and!|done|done]. }
  rewrite update_innate_eq by done. set (h := fun a => _). cbn zeta.
  assert (oz_holds (l ++ [TAdd v t]) (touch e t h)) as Hh'.
  { apply (touched l (TAdd v t) e h Hokl Hwf Hh Hrem); [naive_solver|done|rewrite added_snoc; right; by exists v|done|].
    cbn [to_tag]. intros a Hat Hcase. assert (TAdd v t ∈ l ++ [TAdd v t]) as Hin by set_solver.
    rewrite (addv_in t _ v Hag Hin). destruct (no_inc t l (TAdd v t)) as [-> ->]; [done|]. unfold h. cbn.
    split; [by rewrite <- Hv|]. destruct Hcase as [[Ha _]|(-> & _ & -> & ->)]; [|done].
    rewrite <- Hat. split; apply (oh_rec _ _ Hh a Ha). }
  destruct (touch_spec l e t h Hokl Hwf Hh) as (a & Hget & Hat & _ & _ & _ & Htags & _ & _ & Hin & Hac); [done|].
  assert ((get_ase e t).2 = a) as -> by (by rewrite Hget). rewrite Hat, Hin.
  destruct (widen l (TAdd v t) e (touch e t h) t) as [Hacq Hno]; [done..|].
  assert (oz_aset (touch e t h) <> []) as Hne by (rewrite tags_nil; intros Hc; apply (Hc t), Htags; by right).
  destruct (match oz_innate e with None => true | Some i => lc_cmp_as_tag i t <? 0 end) eqn:Hnew.
  - split_and!; [|done|done]. split_and!.
    + by destruct Hh'.
    + split; cbn.
      * intros i [= <-]. split; [apply Htags; by right|]. intros u Hu'. apply Htags in Hu' as [Hu'| ->].
        -- destruct (oz_innate e) as [i|] eqn:Hi.
           ++ destruct (os_innate _ _ Hs i Hi) as [Hi1 Hi2]. apply cmp_lt in Hnew; [|by eapply tag_ok|done].
              pose proof (Hi2 u Hu'). unfold tag_lt in *. lia.
           ++ apply (ot_innate _ _ Ht) in Hi. rewrite tags_nil in Hi. by destruct (Hi u).
        -- unfold tag_lt. lia.
      * apply Hacq.
    + split; cbn; [done|]. apply Hno.
  - destruct (oz_innate e) as [i|] eqn:Hi; [|done]. destruct (os_innate _ _ Hs i Hi) as [Hi1 Hi2]. split_and!.
    + split_and!; [done| |].
      * split.
        -- intros j Hj. rewrite Hin in Hj. injection Hj as <-. split; [apply Htags; by left|]. intros u Hu'.
           apply Htags in Hu' as [Hu'| ->]; [by apply Hi2|]. intros Hlt. apply cmp_lt in Hlt; [congruence|by eapply tag_ok|done].
        -- apply Hacq.
      * split; [by rewrite Hin|]. apply Hno.
    + intros _. split.
      * rewrite <- (oz_score_stable l (TAdd v t) e Hh Hs) by done. unfold oz_score. by rewrite Hin, Hac, Hi.
      * split; [done|]. intros Hc. rewrite tags_nil in Hc. by destruct (Hc i).
    + done.
Qed.
End Add.

(** Whether a record outdoes the acquired one, by the numbers. *)
Definition outdoesb (l : list tagop) (i t : lc) : bool :=
  (imag i l <? imag t l) || ((imag i l =? imag t l) && (lc_cmp_as_tag i t <? 0)).

Lemma outdoes_spec l e a i :
  Forall to_ok l -> oz_holds l e -> total l < 2 ^ 53 -> a ∈ oz_aset e -> oz_acquired e = Some i -> i ∈ tags e ->
  outdoes e a = Some (outdoesb l i (a_t a)).
Proof.
  intros Hok Hh Ht Ha Hi Hin. unfold outdoes, outdoesb. rewrite Hi.
  destruct (ase_at_in e i (oh_tags _ _ Hh) Hin) as (b & -> & Hb & Hbt). cbn [mbind option_bind].
  destruct (oh_rec _ _ Hh a Ha) as (_ & _ & ->). destruct (oh_rec _ _ Hh b Hb) as (_ & _ & ->). rewrite Hbt.
  rewrite dltb_exact, deqb_exact; try done; try apply imag_nonneg; by apply part_exact.
Qed.

Lemma outdoesb_false l i t : lc_wf i -> lc_wf t -> outdoesb l i t = false -> outranked l i t.
Proof.
  intros Hi Ht Hb. unfold outdoesb in Hb. apply orb_false_iff in Hb as [H1 H2]. apply Z.ltb_ge in H1. unfold outranked.
  destruct (Z.eqb_spec (imag i l) (imag t l)) as [He|He]; [|lia]. cbn in H2. right. split; [done|]. left.
  intros Hlt. apply cmp_lt in Hlt; [congruence|done..].
Qed.

Lemma outdoesb_true l i t u :
  lc_wf i -> lc_wf t -> outdoesb l i t = true -> outranked l i u -> outranked l t u.
Proof.
  intros Hi Ht Hb. unfold outdoesb in Hb. apply orb_true_iff in Hb as [H1|H2]; unfold outranked.
  - apply Z.ltb_lt in H1. lia.
  - apply andb_true_iff in H2 as [H2 H3]. apply Z.eqb_eq in H2. apply cmp_lt in H3; [|done..]. rewrite <- H2.
    unfold tag_lt in *. lia.
Qed.

Lemma outranked_refl l t : outranked l t t.
Proof. unfold outranked, tag_lt. lia. Qed.

(** More increments on the other side do not unseat. *)
Lemma outranked_inc l v t u :
  u <> t -> outranked l t u -> outranked (l ++ [TInc v t]) t u.
Proof.
  intros Hne. unfold outranked. rewrite (proj2 (other_tag u l (TInc v t) (not_eq_sym Hne))), (imag_snoc t).
  pose proof (imag_nonneg t l). unfold tag_lt. lia.
Qed.

Section Inc.
Context (l : list tagop) (e : oze) (v : double) (t : lc).
Context (Hok : Forall to_ok (l ++ [TInc v t])) (Hag : adds_agree (l ++ [TInc v t])) (Htot : total (l ++ [TInc v t]) < 2 ^ 53).
Context (Hgood : oz_good l e).

Abbreviation l' := (l ++ [TInc v t]).
Definition inc_rec (a : ase) : ase :=
  mkAse (a_t a) (a_x a) (dadd (a_inc a) v) (dadd (a_count a) (if dltb dzero v then v else dneg v)).

(** The record of the tag with the increment added. *)
Lemma inc_holds : ~ removed t l -> added t l -> oz_holds l' (touch e t inc_rec).
Proof.
  intros Hrem Hadd. destruct Hgood as (Hh & _ & _). pose proof Hok as [Hokl Ho]%Forall_app. rewrite Forall_singleton in Ho.
  destruct Ho as [Hwf Hv]. cbn in Hwf, Hv.
  apply (touched l (TInc v t) e inc_rec Hokl Hwf Hh Hrem); [naive_solver|done|rewrite added_snoc; by left|done|].
  cbn [to_tag]. intros a Hat Hcase. rewrite addv_mono by done. rewrite isum_snoc, imag_snoc. cbn [inc_of]. rewrite decide_True by done.
  pose proof Htot as Htot'. rewrite total_app, total_cons in Htot'. cbn in Htot'. pose proof (imag_total t t l) as Hb. pose proof (isum_imag t l) as Hi.
  pose proof (imag_nonneg t l).
  assert (a_x a = Some (of_Z (addv t l)) /\ a_inc a = of_Z (isum t l) /\ a_count a = of_Z (imag t l)) as (Hx & Hinc & Hcnt).
  { destruct Hcase as [[Ha _]|(_ & ? & _)]; [|done]. rewrite <- Hat. by apply Hh. }
  unfold inc_rec. cbn. rewrite Hinc, Hcnt. rewrite Hv at 1. split_and!; [done| |].
  - apply dadd_exact; unfold exact; lia.
  - pose proof (dadd_magnitude (imag t l) (int_of v)) as Hmag. rewrite <- Hv in Hmag. apply Hmag; unfold exact; lia.
Qed.

Lemma update_acquired_eq :
  rsetGet e t = None ->
  let e' := touch e t inc_rec in
  let a := inc_rec (get_ase e t).2 in
  update_acquired_value e t v =
  if decide (oz_acquired e' = Some (a_t a)) then Some (e', 1)
  else match outdoes e' a with
       | Some b => Some (if b then (set_acquired e' (Some (a_t a)), 1) else (e', 0))
       | None => None
       end.
Proof. intros Hr. unfold update_acquired_value, touch. rewrite Hr. by destruct (get_ase e t) as [e1 a]. Qed.

(** The selected entries of an element [e2] with the tags of [e] and its innate
    one, and when [t] becomes the acquired one. *)
Lemma inc_innate e2 :
  (forall u, u ∈ tags e2 <-> u ∈ tags e) -> oz_innate e2 = oz_innate e ->
  (forall i, oz_innate e2 = Some i -> i ∈ tags e2 /\ forall u, u ∈ tags e2 -> ~ tag_lt i u) /\
  (oz_innate e2 = None -> oz_aset e2 = []).
Proof using Hgood.
  pose proof Hgood as (_ & Hs & Ht). intros Htags Hi2. rewrite Hi2. split.
  - intros i Hi. destruct (os_innate _ _ Hs i Hi) as [H1 H2]. split; [by apply Htags|]. intros u Hu'. by apply H2, Htags.
  - intros Hc. assert (oz_aset e2 = [] <-> oz_aset e = []) as Hnil by (rewrite !tags_nil; by setoid_rewrite Htags). by apply Hnil, Ht.
Qed.
Lemma inc_take e' e2 :
  oz_holds l' e' -> (forall u, u ∈ tags e' <-> u ∈ tags e) -> t ∈ tags e ->
  oz_aset e2 = oz_aset e' -> oz_rset e2 = oz_rset e' -> oz_innate e2 = oz_innate e -> oz_acquired e2 = Some t ->
  (forall u, u ∈ tags e -> u <> t -> outranked l' t u) -> oz_good l' e2.
Proof using Hgood.
  intros Hh' Htags' Hte Ha2 Hr2 Hi2 Hq2 Hout.
  destruct (inc_innate e2) as [Hi3 Hi4]; [intros u; by rewrite Ha2|done|]. split_and!.
  - destruct Hh' as [F1 F2 F3 F4 F5]. by split; rewrite ?Ha2, ?Hr2.
  - split; [done|]. intros i Hi. rewrite Hq2 in Hi. injection Hi as <-. rewrite Ha2. split; [by apply Htags'|].
    intros u Hu'%Htags'. destruct (decide (u = t)) as [->|Hn]; [apply outranked_refl|by apply Hout].
  - split; [done|]. by rewrite Hq2.
Qed.

Lemma inc_step :
  added t l \/ removed t l ->
  exists e' changed, update_acquired_value e t v = Some (e', changed) /\ (changed = 0 \/ changed = 1) /\
    oz_good l' e' /\ (changed = 0 -> oz_score l' e' = oz_score l e) /\ (oz_aset e' = [] <-> oz_aset e = []) /\
    (changed <> 0 -> oz_aset e' <> []).
Proof.
  intros Hcausal. pose proof Hgood as (Hh & Hs & Ht). pose proof Hok as [Hokl Ho]%Forall_app. rewrite Forall_singleton in Ho.
  destruct Ho as [Hwf Hv]. cbn in Hwf.
  destruct (rsetGet_cases l e t Hokl Hwf Hh) as [[Hrem [u Hu]]|[Hrem Hu]].
  { exists e, 0. unfold update_acquired_value. rewrite Hu.
    destruct (ignored l (TInc v t) e Hh Hs Ht Hrem) as (H1 & H2 & H3 & H4); [naive_solver|]. split_and!; try done; by left. }
  destruct Hcausal as [Hadd|]; [|done]. pose proof (inc_holds Hrem Hadd) as Hh'.
  assert (t ∈ tags e) as Hte by (by apply (oh_aset _ _ Hh)).
  rewrite update_acquired_eq by done.
  destruct (touch_spec l e t inc_rec Hokl Hwf Hh) as (a & Hget & Hat & _ & _ & _ & Htags & Hrec & _ & Hin & Hac); [done|].
  assert ((get_ase e t).2 = a) as -> by (by rewrite Hget). set (e' := touch e t inc_rec) in *. cbn zeta.
  change (a_t (inc_rec a)) with (a_t a). rewrite Hat, Hac.
  assert (forall u, u ∈ tags e' <-> u ∈ tags e) as Htags' by (intros u; rewrite Htags; naive_solver).
  assert (oz_aset e' = [] <-> oz_aset e = []) as Hnil by (rewrite !tags_nil; by setoid_rewrite Htags').
  assert (oz_aset e <> []) as Hne by (rewrite tags_nil; intros Hc; by apply (Hc t)).
  pose proof (fun e2 Ha2 Hr2 Hi2 => inc_take e' e2 Hh' Htags' Hte Ha2 Hr2 (eq_trans Hi2 Hin)) as Htake.
  case_decide as Hacq.
  { exists e', 1. split_and!; [done|by right| |done|done|intros _ Hc; by apply Hne, Hnil]. apply Htake; [done|done|done|congruence|].
    intros u Hu' Hn. apply outranked_inc; [done|]. by apply (os_acquired _ _ Hs t Hacq). }
  destruct (oz_acquired e) as [i|] eqn:Hi.
  - destruct (os_acquired _ _ Hs i Hi) as [Hi1 Hi2]. assert (i <> t) as Hit by congruence.
    pose proof (tag_ok l e i Hokl Hh Hi1) as Hiw.
    assert (forall u, u <> t -> imag u l' = imag u l) as Him by (intros u Hn; apply other_tag; by intros ?).
    rewrite (outdoes_spec l' e' (inc_rec a) i Hok Hh' Htot); [|apply Hrec; by left|congruence|by apply Htags'].
    change (a_t (inc_rec a)) with (a_t a). rewrite Hat. destruct (outdoesb l' i t) eqn:Hb.
    + eexists _, 1. split; [done|]. split_and!; [by right| |done|done|intros _ Hc; by apply Hne, Hnil]. apply Htake; [done..|].
      intros u Hu' Hn. eapply outdoesb_true; [exact Hiw|done|exact Hb|]. unfold outranked. rewrite !Him by done. by apply Hi2.
    + exists e', 0. destruct (inc_innate e' Htags' Hin) as [Hi3 Hi4]. split_and!; [done|by left| | |done|done].
      * split_and!; [done| |split; [done|congruence]]. split; [done|]. intros j Hj. rewrite Hac in Hj. injection Hj as <-.
        split; [by apply Htags'|]. intros u Hu'%Htags'. destruct (decide (u = t)) as [->|Hn]; [by apply outdoesb_false|].
        unfold outranked. rewrite !Him by done. by apply Hi2.
      * intros _. rewrite <- (oz_score_stable l (TInc v t) e Hh Hs) by (intros v' j Hj; congruence).
        unfold oz_score. by rewrite Hin, Hac, Hi.
  - unfold outdoes. rewrite Hac. eexists _, 1. split; [done|]. split_and!; [by right| |done|done|intros _ Hc; by apply Hne, Hnil].
    apply Htake; [done..|]. intros u Hu' Hn. unfold outranked. rewrite (proj2 (other_tag u l (TInc v t) (not_eq_sym Hn))).
    rewrite (ot_acquired _ _ Ht Hi u Hu'). pose proof (imag_nonneg t l'). unfold tag_lt. lia.
Qed.
End Inc.

(** A removal: the selected additions may be gone. *)
(** An element without the tag [t] after the removal of this tag. *)
Lemma rem_holds l e e2 t :
  oz_holds l e -> NoDup (tags e2) -> (forall a, a ∈ oz_aset e2 <-> a ∈ oz_aset e /\ a_t a <> t) ->
  (forall u, u ∈ oz_rset e2 <-> u ∈ oz_rset e \/ u = t) -> oz_holds (l ++ [TRem t]) e2.
Proof.
  intros Hh Hnd Ha Hr.
  assert (forall u, isum u (l ++ [TRem t]) = isum u l /\ imag u (l ++ [TRem t]) = imag u l) as Him by (intros u; by apply no_inc).
  assert (forall u, u ∈ tags e2 <-> u ∈ tags e /\ u <> t) as Htags.
  { intros u. rewrite !list_elem_of_fmap. setoid_rewrite Ha. naive_solver. }
  split; [done| | | |].
  - intros u. rewrite Htags, (oh_aset _ _ Hh), added_snoc, removed_snoc. naive_solver.
  - intros a [Ha1 Ha2]%Ha. rewrite (proj1 (Him _)), (proj2 (Him _)). rewrite addv_mono; [by apply Hh|].
    assert (a_t a ∈ tags e) as Hin by (by apply list_elem_of_fmap_2). by apply (oh_aset _ _ Hh) in Hin as [? _].
  - intros u. rewrite Hr, (oh_rset _ _ Hh), removed_snoc. naive_solver.
  - intros u Hi. rewrite (proj2 (Him _)) in Hi. rewrite added_snoc, removed_snoc. destruct (oh_orphan _ _ Hh u Hi); auto.
Qed.
Lemma rem_selected l e e2 t :
  oz_selected l e -> (forall u, u ∈ tags e2 <-> u ∈ tags e /\ u <> t) ->
  (forall i, oz_innate e2 = Some i -> oz_innate e = Some i /\ i <> t) ->
  (forall i, oz_acquired e2 = Some i -> oz_acquired e = Some i /\ i <> t) -> oz_selected (l ++ [TRem t]) e2.
Proof.
  intros Hs Htags Hi Ha.
  assert (forall u, imag u (l ++ [TRem t]) = imag u l) as Him by (intros u; by apply no_inc).
  split.
  - intros i [H1 H2]%Hi. destruct (os_innate _ _ Hs i H1) as [H3 H4]. split; [by apply Htags|]. intros u [Hu _]%Htags. by apply H4.
  - intros i [H1 H2]%Ha. destruct (os_acquired _ _ Hs i H1) as [H3 H4]. split; [by apply Htags|]. intros u [Hu _]%Htags.
    unfold outranked. rewrite !Him. by apply H4.
Qed.

Lemma rem_step l e t :
  Forall to_ok (l ++ [TRem t]) -> oz_holds l e -> oz_selected l e ->
  oz_holds (l ++ [TRem t]) (remove_tag e t) /\ oz_selected (l ++ [TRem t]) (remove_tag e t) /\
  (oz_innate (remove_tag e t) <> None -> oz_innate (remove_tag e t) = oz_innate e) /\
  (oz_acquired (remove_tag e t) <> None -> oz_acquired (remove_tag e t) = oz_acquired e).
Proof.
  intros Hok Hh Hs. pose proof Hok as [Hokl Ho]%Forall_app. rewrite Forall_singleton in Ho. destruct Ho as [Hwf _]. cbn in Hwf.
  pose proof (fun e2 => rem_holds l e e2 t Hh) as Hholds. pose proof (fun e2 => rem_selected l e e2 t Hs) as Hsel.
  destruct (tags_wf l e Hokl Hh) as [Hwa _].
  unfold remove_tag. destruct (rsetGet_cases l e t Hokl Hwf Hh) as [[Hrem [u ->]]|[Hrem ->]].
  - assert (t ∉ tags e) as Hout by (intros Hin; by apply (oh_aset _ _ Hh) in Hin as [_ ?]).
    split_and!; [|apply Hsel|done|done].
    + apply Hholds; [apply Hh| |].
      * intros a. split; [|naive_solver]. intros Ha. split; [done|]. intros <-. apply Hout. by apply list_elem_of_fmap_2.
      * intros w. split; [by left|]. intros [Hw| ->]; [done|]. by apply (oh_rset _ _ Hh).
    + naive_solver.
    + intros i Hi. split; [done|]. intros ->. by destruct (os_innate _ _ Hs t Hi).
    + intros i Hi. split; [done|]. intros ->. by destruct (os_acquired _ _ Hs t Hi).
  - unfold asetGet. cbn [oz_aset oz_current oz_innate oz_acquired oz_rset]. assert (lc_dup t = t) as -> by (by destruct t).
    destruct (aset_del_in t (oz_aset e) Hwf Hwa (oh_tags _ _ Hh)) as [Hnd Hdel].
    assert (forall u, u ∈ a_t <$> aset_del t (oz_aset e) <-> u ∈ tags e /\ u <> t) as Htags.
    { intros u. rewrite !list_elem_of_fmap. setoid_rewrite Hdel. naive_solver. }
    destruct (decide (t ∈ tags e)) as [Hin|Hout].
    + destruct (aset_find_in t _ Hwf Hwa Hin) as (a & -> & Ha & ->).
      assert (forall u, u ∈ oz_rset e ++ [t] <-> u ∈ oz_rset e \/ u = t) as Hr by (intros u; by rewrite elem_of_app, list_elem_of_singleton).
      cbn [oz_innate]. destruct (decide (oz_innate e = Some t)) as [Hi|Hi]; cbn [set_innate oz_acquired];
        (destruct (decide (oz_acquired e = Some t)) as [Hq|Hq]; cbn);
        (split_and!; [by apply Hholds|apply Hsel; [done|cbn; naive_solver..]|done|done]).
    + destruct (aset_find_out t _ Hwf Hwa Hout) as [-> Hd]. rewrite Hd in *. cbn. split_and!; [|apply Hsel|done|done].
      * apply Hholds; [done|done|]. intros u. cbn. by rewrite elem_of_app, list_elem_of_singleton.
      * done.
      * intros i Hi. split; [done|]. intros ->. by destruct (os_innate _ _ Hs t Hi).
      * intros i Hi. split; [done|]. intros ->. by destruct (os_acquired _ _ Hs t Hi).
Qed.

(** ** Selecting again *)

Section Resort.
Context (l : list tagop) (e : oze) (Hok : Forall to_ok l) (Hh : oz_holds l e) (Htot : total l < 2 ^ 53).

(** The element with other pointers, which are right for the records [pre]. *)
Record sorted_to (pre : list ase) (e' : oze) : Prop := {
  so_aset : oz_aset e' = oz_aset e;
  so_rset : oz_rset e' = oz_rset e;
  so_innate : match oz_innate e' with
    | None => pre = []
    | Some i => i ∈ tags e /\ forall t, t ∈ a_t <$> pre -> ~ tag_lt i t
    end;
  so_acquired : match oz_acquired e' with
    | None => pre = []
    | Some i => i ∈ tags e /\ forall t, t ∈ a_t <$> pre -> outranked l i t
    end
}.

Lemma sorted_holds pre e' : sorted_to pre e' -> oz_holds l e'.
Proof. intros [Ha Hr _ _]. destruct Hh as [F1 F2 F3 F4 F5]. by split; rewrite ?Ha, ?Hr. Qed.

Lemma sorted_step pre a e' :
  sorted_to pre e' -> a ∈ oz_aset e -> exists e2, resort_step e' a = Some e2 /\ sorted_to (pre ++ [a]) e2.
Proof.
  intros Hs Ha. pose proof (sorted_holds _ _ Hs) as Hh'. assert (a_t a ∈ tags e) as Hat by (by apply list_elem_of_fmap_2).
  pose proof (tag_ok l e _ Hok Hh Hat) as Hwa.
  set (e1 := match oz_innate e' with
    | None => set_innate e' (Some (a_t a))
    | Some i => if lc_cmp_as_tag i (a_t a) <? 0 then set_innate e' (Some (a_t a)) else e'
    end).
  assert (oz_aset e1 = oz_aset e /\ oz_rset e1 = oz_rset e /\ oz_acquired e1 = oz_acquired e' /\
    exists i, oz_innate e1 = Some i /\ i ∈ tags e /\ forall t, t ∈ a_t <$> (pre ++ [a]) -> ~ tag_lt i t) as (Ha1 & Hr1 & Hq1 & Hi1).
  { destruct Hs as [Hsa Hsr Hsi _]. unfold e1. destruct (oz_innate e') as [i|] eqn:Hi; [destruct (lc_cmp_as_tag i (a_t a) <? 0) eqn:Hc|];
      (split_and!; [done..|]).
    - exists (a_t a). split_and!; [done..|]. destruct Hsi as [Hie Hall]. apply cmp_lt in Hc; [|exact (tag_ok l e i Hok Hh Hie)|done].
      intros t. rewrite fmap_app, elem_of_app. intros [Ht|Ht%list_elem_of_singleton].
      + pose proof (Hall t Ht). unfold tag_lt in *. lia.
      + subst. unfold tag_lt. lia.
    - exists i. destruct Hsi as [Hie Hall]. split_and!; [done..|]. intros t. rewrite fmap_app, elem_of_app.
      intros [Ht|Ht%list_elem_of_singleton]; [by apply Hall|subst]. intros Hlt. apply cmp_lt in Hlt; [congruence|exact (tag_ok l e i Hok Hh Hie)|done].
    - exists (a_t a). split_and!; [done..|]. rewrite Hsi. intros t Ht%list_elem_of_singleton. subst. unfold tag_lt. lia. }
  assert (oz_holds l e1) as Hh1 by (destruct Hh as [F1 F2 F3 F4 F5]; by split; rewrite ?Ha1, ?Hr1).
  destruct Hi1 as (i & Hi1 & Hi2). unfold resort_step. fold e1.
  assert (exists b, outdoes e1 a = Some b /\
    (b = true -> forall t, t ∈ a_t <$> (pre ++ [a]) -> outranked l (a_t a) t) /\
    (b = false -> exists q, oz_acquired e1 = Some q /\ q ∈ tags e /\ forall t, t ∈ a_t <$> (pre ++ [a]) -> outranked l q t))
    as (b & -> & Hbt & Hbf).
  { pose proof (so_acquired _ _ Hs) as Hq. rewrite <- Hq1 in Hq. destruct (oz_acquired e1) as [q|] eqn:Hqe.
    - destruct Hq as [Hq2 Hq3]. pose proof (tag_ok l e q Hok Hh Hq2) as Hwq. exists (outdoesb l q (a_t a)).
      split_and!; [apply outdoes_spec; try done; by rewrite Ha1| |].
      + intros Hb t. rewrite fmap_app, elem_of_app. intros [Ht|Ht%list_elem_of_singleton]; [|subst; apply outranked_refl].
        eapply outdoesb_true; [exact Hwq|done|exact Hb|by apply Hq3].
      + intros Hb. exists q. split_and!; [done..|]. intros t. rewrite fmap_app, elem_of_app.
        intros [Ht|Ht%list_elem_of_singleton]; [by apply Hq3|subst; by apply outdoesb_false].
    - exists true. unfold outdoes. rewrite Hqe. split_and!; [done| |done]. rewrite Hq. intros _ t Ht%list_elem_of_singleton.
      subst. apply outranked_refl. }
  eexists. split; [done|]. destruct b.
  - split; cbn; [done|done|by rewrite Hi1|]. split; [done|by apply Hbt].
  - destruct (Hbf eq_refl) as (q & Hq & Hq2). split; [done|done|by rewrite Hi1|by rewrite Hq].
Qed.

Lemma sorted_all post pre e' :
  oz_aset e = pre ++ post -> sorted_to pre e' ->
  exists e2, foldl (fun e a => e ← e; resort_step e a) (Some e') post = Some e2 /\ sorted_to (oz_aset e) e2.
Proof.
  revert pre e'. induction post as [|a post IH]; intros pre e' Hsplit Hs.
  { exists e'. split; [done|]. by rewrite Hsplit, app_nil_r. }
  destruct (sorted_step pre a e' Hs) as (e2 & He2 & Hs2); [rewrite Hsplit; set_solver|].
  cbn [foldl mbind option_bind]. rewrite He2. apply (IH (pre ++ [a])); [by rewrite <- app_assoc|done].
Qed.

Lemma sorted_good e' : sorted_to (oz_aset e) e' -> oz_good l e'.
Proof.
  intros Hs. split; [by eapply sorted_holds|]. destruct Hs as [Ha Hr Hi Hq]. split; split; rewrite Ha.
  - intros i He. by rewrite He in Hi.
  - intros i He. by rewrite He in Hq.
  - intros He. by rewrite He in Hi.
  - intros He. rewrite He in Hq. rewrite Hq. by intros t Ht%elem_of_nil.
Qed.

Lemma resort_spec :
  oz_selected l e -> exists e', resort e = Some e' /\ oz_good l e' /\ oz_aset e' = oz_aset e.
Proof.
  intros Hs.
  assert (exists e', foldl (fun e a => e ← e; resort_step e a) (Some e) (oz_aset e) = Some e' /\ oz_good l e' /\ oz_aset e' = oz_aset e) as Hfold.
  { destruct (sorted_all (oz_aset e) [] e) as (e2 & He2 & Hs2); [done| |].
    - split; [done|done| |].
      + destruct (oz_innate e) as [i|] eqn:Hi; [|done]. destruct (os_innate _ _ Hs i Hi) as [H1 _]. split; [done|]. by intros t Ht%elem_of_nil.
      + destruct (oz_acquired e) as [i|] eqn:Hi; [|done]. destruct (os_acquired _ _ Hs i Hi) as [H1 _]. split; [done|]. by intros t Ht%elem_of_nil.
    - exists e2. split_and!; [done|by apply sorted_good|by destruct Hs2]. }
  unfold resort. destruct (oz_innate e) as [i|] eqn:Hi; [|exact Hfold]. destruct (oz_acquired e) as [q|] eqn:Hq; [|exact Hfold].
  exists e. split_and!; [done| |done]. split_and!; [done..|]. split; congruence.
Qed.
End Resort.

(** ** Whole operations *)

Definition flat (o : ozop) : list tagop :=
  match o with
  | OzAdd v t => [TAdd v t]
  | OzInc v ts => TInc v <$> ts
  | OzRem ts => TRem <$> ts
  end.

(** No increment comes before its addition, unless that was removed already. *)
Definition ready (l : list tagop) (o : ozop) : Prop :=
  match o with OzInc _ ts => forall t, t ∈ ts -> added t l \/ removed t l | _ => True end.

Definition oz_short (o : ozop) : Prop :=
  match o with OzInc _ ts => Z.of_nat (length ts) <= INT_MAX | _ => True end.

(** The element and the score shown. *)
Definition oz_inv (l : list tagop) (p : ozst) : Prop :=
  oz_good l p.1 /\ p.2 = if decide (oz_aset p.1 = []) then None else Some (of_Z (oz_score l p.1)).

Lemma total_nonneg l : 0 <= total l.
Proof. unfold total. induction l; cbn in *; lia. Qed.

Lemma agree_app l1 l2 : adds_agree (l1 ++ l2) -> adds_agree l1.
Proof. intros H v v' t H1 H2. eapply H; apply elem_of_app; by left. Qed.

Lemma known_app t l l2 : added t l \/ removed t l -> added t (l ++ l2) \/ removed t (l ++ l2).
Proof. unfold added, removed. setoid_rewrite elem_of_app. naive_solver. Qed.

Lemma incs_good v ts l e c :
  oz_good l e -> Forall to_ok (l ++ (TInc v <$> ts)) -> adds_agree (l ++ (TInc v <$> ts)) -> total (l ++ (TInc v <$> ts)) < 2 ^ 53 ->
  (forall t, t ∈ ts -> added t l \/ removed t l) -> 0 <= c -> c + Z.of_nat (length ts) <= INT_MAX ->
  exists e' c', foldl (oz_inc_step v) (Some (e, c)) ts = Some (e', c') /\ oz_good (l ++ (TInc v <$> ts)) e' /\
    c <= c' /\ (c' = c -> oz_score (l ++ (TInc v <$> ts)) e' = oz_score l e) /\
    (oz_aset e' = [] <-> oz_aset e = []) /\ (c' <> c -> oz_aset e' <> []).
Proof.
  revert l e c. induction ts as [|t ts IH]; intros l e c Hg Hok Hag Htot Hk Hc Hlen.
  { exists e, c. rewrite app_nil_r. by split_and!. }
  rewrite fmap_cons, cons_middle, app_assoc in *. cbn [length] in Hlen. rewrite total_app in Htot.
  pose proof (total_nonneg (TInc v <$> ts)) as Hnn.
  destruct (inc_step l e v t) as (e1 & ch & Hu & Hch & Hg1 & Hs1 & Hn1 & Hne1).
  { by apply Forall_app in Hok as [? _]. } { by apply agree_app in Hag. } { lia. } { done. } { apply Hk. left. }
  rewrite oz_incs_cons, Hu. cbn [fst snd]. rewrite to_int_id by (destruct Hch; clia).
  destruct (IH (l ++ [TInc v t]) e1 (c + ch)) as (e' & c' & -> & Hg' & Hle & Hs' & Hn' & Hne').
  { done. } { done. } { done. } { rewrite total_app. lia. } { intros u Hu'. apply known_app, Hk. by right. } { lia. } { lia. }
  exists e', c'. split_and!; [done|apply Hg'..|lia| | |].
  - intros ->. assert (ch = 0) as -> by lia. rewrite Hs' by lia. by apply Hs1.
  - by rewrite Hn'.
  - intros Hne. destruct (decide (c' = c + ch)) as [->|]; [|by apply Hne']. rewrite Hn'. apply Hne1. lia.
Qed.

Lemma rems_good ts l e :
  Forall to_ok (l ++ (TRem <$> ts)) -> oz_holds l e -> oz_selected l e ->
  oz_holds (l ++ (TRem <$> ts)) (oz_rems e ts) /\ oz_selected (l ++ (TRem <$> ts)) (oz_rems e ts) /\
  (oz_innate (oz_rems e ts) <> None -> oz_innate (oz_rems e ts) = oz_innate e) /\
  (oz_acquired (oz_rems e ts) <> None -> oz_acquired (oz_rems e ts) = oz_acquired e).
Proof.
  revert l e. induction ts as [|t ts IH]; intros l e Hok Hh Hs.
  { by rewrite app_nil_r. }
  rewrite fmap_cons, cons_middle, app_assoc in *. cbn [oz_rems foldl].
  destruct (rem_step l e t) as (Hh1 & Hs1 & Hi1 & Hq1); [by apply Forall_app in Hok as [? _]|done..|].
  destruct (IH _ _ Hok Hh1 Hs1) as (Hh2 & Hs2 & Hi2 & Hq2). split_and!; [done..| |].
  - intros Hn. rewrite <- Hi1; [by apply Hi2|]. by rewrite <- Hi2.
  - intros Hn. rewrite <- Hq1; [by apply Hq2|]. by rewrite <- Hq2.
Qed.

Lemma addv_rems t l ts : addv t (l ++ (TRem <$> ts)) = addv t l.
Proof.
  induction l as [|o l IH]; cbn; [by induction ts|]. destruct o; [by case_decide|done..].
Qed.

Lemma isum_rems t l ts : isum t (l ++ (TRem <$> ts)) = isum t l.
Proof.
  induction ts as [|u ts IH] using rev_ind; [by rewrite app_nil_r|].
  rewrite fmap_app, app_assoc. by rewrite (proj1 (no_inc t _ (TRem u) ltac:(done))).
Qed.

(** A score that was put. *)
Lemma put_inv l l' e p :
  oz_inv l p -> total l < 2 ^ 53 -> oz_good l' e -> total l' < 2 ^ 53 -> oz_aset e <> [] ->
  exists q, oz_put (e, p.2) = Some q /\ oz_inv l' q.
Proof.
  intros [_ Hz] Ht Hg Ht' Hne. exists (e, Some (of_Z (oz_score l' e))). unfold oz_put. cbn [fst snd].
  rewrite (SCORE_spec l' e) by (done || apply Hg). cbn [mbind option_bind]. split.
  - do 2 f_equal. apply zput_exact; [|by apply oz_score_exact]. rewrite Hz. case_decide; [by left|right].
    eexists. split; [|done]. by apply oz_score_exact.
  - split; [done|]. cbn. by rewrite decide_False.
Qed.

Lemma effect_inv l p o :
  oz_inv l p -> Forall to_ok (l ++ flat o) -> adds_agree (l ++ flat o) -> total (l ++ flat o) < 2 ^ 53 ->
  ready l o -> oz_short o -> exists q, oz_effect p o = Some q /\ oz_inv (l ++ flat o) q.
Proof.
  intros Hinv Hok Hag Htot Hready Hshort. pose proof Hinv as [Hg Hz]. pose proof Htot as Htot'. rewrite total_app in Htot'.
  pose proof (total_nonneg (flat o)) as Hnn. assert (total l < 2 ^ 53) as Htl by lia.
  destruct o as [v t|v ts|ts]; cbn [flat oz_effect] in *.
  - pose proof (add_step l p.1 v t Hok Hag Hg) as Hstep. destruct (update_innate_value p.1 t v) as [e ch].
    destruct Hstep as (Hg' & H0 & H1). destruct (Z.eqb_spec ch 0) as [->|Hch]; [|by apply (put_inv l); auto].
    destruct (H0 eq_refl) as [Hsc Hnil]. eexists. split; [done|]. split; [done|]. cbn. rewrite Hz, Hsc. by apply decide_ext.
  - destruct (incs_good v ts l p.1 0 Hg Hok Hag Htot Hready) as (e' & c' & Hinc & Hg' & _ & H0 & Hnil & H1); [done|exact Hshort|].
    change (oz_incs p.1 v ts) with (foldl (oz_inc_step v) (Some (p.1, 0)) ts). rewrite Hinc. cbn [mbind option_bind fst snd].
    destruct (Z.eqb_spec c' 0) as [->|Hch]; [|by apply (put_inv l), H1].
    eexists. split; [done|]. split; [done|]. cbn. rewrite Hz, H0 by done. by apply decide_ext.
  - destruct Hg as (Hh & Hs & Ht). destruct (rems_good ts l p.1 Hok Hh Hs) as (Hh' & Hs' & Hi & Hq).
    set (e := oz_rems p.1 ts) in *.
    assert (exists q, (e ← resort e; if LOOKUP e then oz_put (e, p.2) else Some (e, None)) = Some q /\ oz_inv (l ++ (TRem <$> ts)) q) as Hre.
    { destruct (resort_spec _ e Hok Hh' Htot Hs') as (e' & -> & Hg' & Ha'). cbn [mbind option_bind]. unfold LOOKUP.
      destruct (oz_aset e') as [|a s] eqn:He; cbn.
      - eexists. split; [done|]. split; [done|]. cbn. by rewrite He.
      - apply (put_inv l); [done..|]. by rewrite He. }
    destruct (oz_innate e) as [i|] eqn:Hie; [|exact Hre]. destruct (oz_acquired e) as [j|] eqn:Hje; [|exact Hre].
    eexists. split; [done|]. specialize (Hi ltac:(done)). specialize (Hq ltac:(done)).
    destruct (os_innate _ _ Hs i (eq_sym Hi)) as [Hip _]. destruct (os_innate _ _ Hs' i Hie) as [Hip' _]. split.
    + split_and!; [done..|]. split; cbn; congruence.
    + cbn. rewrite Hz. rewrite !decide_False; [|rewrite tags_nil; intros Hc; by apply (Hc i)..]. do 2 f_equal.
      unfold oz_score. by rewrite <- Hi, <- Hq, Hie, Hje, addv_rems, isum_rems.
Qed.

(** ** Histories of one element *)

Definition flats (ops : list ozop) : list tagop := ops ≫= flat.

Fixpoint oz_run (p : ozst) (ops : list ozop) : option ozst :=
  match ops with
  | [] => Some p
  | o :: ops => match oz_effect p o with Some q => oz_run q ops | None => None end
  end.

Fixpoint ready_run (l : list tagop) (ops : list ozop) : Prop :=
  match ops with
  | [] => True
  | o :: ops => ready l o /\ ready_run (l ++ flat o) ops
  end.

Lemma run_inv ops l p :
  oz_inv l p -> Forall to_ok (l ++ flats ops) -> adds_agree (l ++ flats ops) -> total (l ++ flats ops) < 2 ^ 53 ->
  ready_run l ops -> Forall oz_short ops -> exists q, oz_run p ops = Some q /\ oz_inv (l ++ flats ops) q.
Proof.
  revert l p. induction ops as [|o ops IH]; intros l p Hinv Hok Hag Htot Hr Hsh; cbn [oz_run].
  { exists p. unfold flats. cbn. by rewrite app_nil_r. }
  change (flats (o :: ops)) with (flat o ++ flats ops) in *. rewrite app_assoc in *. destruct Hr as [Hr1 Hr].
  apply Forall_cons_1 in Hsh as [Hs1 Hsh]. pose proof (total_nonneg (flats ops)). rewrite total_app in Htot.
  destruct (effect_inv l p o) as (q & -> & Hq); [done|by apply Forall_app in Hok as [? _]|by eapply agree_app|lia|done|done|].
  apply IH; try done. rewrite total_app. lia.
Qed.

Lemma fresh_inv c : oz_inv [] (mkOze c None None [] [], None).
Proof.
  split; [|done]. split_and!.
  - split; cbn; [apply NoDup_nil_2| | | |done].
    + intros t. unfold added. setoid_rewrite elem_of_nil. naive_solver.
    + by intros a Ha%elem_of_nil.
    + intros t. unfold removed. by rewrite !elem_of_nil.
  - by split.
  - split; cbn; [done|]. by intros _ t Ht%elem_of_nil.
Qed.

Lemma tag_total t u : ~ tag_lt t u -> ~ tag_lt u t -> t = u.
Proof. destruct t, u. unfold tag_lt. cbn. intros. f_equal; lia. Qed.

Lemma zero_sum i l : imag i l = 0 -> isum i l = 0.
Proof. intros Hz. pose proof (isum_imag i l). lia. Qed.

Lemma top_unique l i j : outranked l i j -> outranked l j i -> isum i l = isum j l.
Proof.
  intros Hij Hji. destruct (decide (imag i l = 0)) as [Hz|Hz].
  - unfold outranked in *. pose proof (imag_nonneg j l). rewrite !zero_sum; [done|lia|lia].
  - f_equal. unfold outranked in *. destruct Hij as [?|[? [?|?]]], Hji as [?|[? [?|?]]]; try lia. by apply tag_total.
Qed.

Lemma inv_agree l1 l2 p1 p2 :
  oz_inv l1 p1 -> oz_inv l2 p2 -> l1 ≡ₚ l2 -> adds_agree l1 -> p1.2 = p2.2.
Proof.
  intros [(Hh1 & Hs1 & Ht1) ->] [(Hh2 & Hs2 & Ht2) ->] Hp Hag.
  assert (forall t, t ∈ tags p1.1 <-> t ∈ tags p2.1) as Htags.
  { intros t. rewrite (oh_aset _ _ Hh1), (oh_aset _ _ Hh2). unfold added, removed. by setoid_rewrite Hp. }
  assert (oz_aset p1.1 = [] <-> oz_aset p2.1 = []) as Hnil by (rewrite !tags_nil; by setoid_rewrite Htags).
  destruct (decide (oz_aset p1.1 = [])) as [H1|H1]; [by rewrite decide_True by (by apply Hnil)|].
  rewrite decide_False by (by rewrite <- Hnil). do 2 f_equal. unfold oz_score. f_equal.
  - destruct (oz_innate p1.1) as [i|] eqn:Hi; [|by apply Ht1 in Hi]. destruct (oz_innate p2.1) as [j|] eqn:Hj; [|apply Ht2 in Hj; tauto].
    destruct (os_innate _ _ Hs1 i Hi) as [Hi1 Hi2]. destruct (os_innate _ _ Hs2 j Hj) as [Hj1 Hj2].
    assert (i = j) as <- by (apply tag_total; [by apply Hi2, Htags|by apply Hj2, Htags]).
    apply (oh_aset _ _ Hh1) in Hi1 as [[v Hv] _]. rewrite (addv_in i l1 v Hag Hv). symmetry. apply addv_in; [|by rewrite <- Hp].
    intros v1 v2 t. rewrite <- !Hp. apply Hag.
  - assert (forall i, imag i l1 = imag i l2) as Him by (intros i; by apply imag_perm).
    assert (forall i, isum i l1 = isum i l2) as His by (intros i; by apply isum_perm).
    destruct (oz_acquired p1.1) as [i|] eqn:Hi; destruct (oz_acquired p2.1) as [j|] eqn:Hj; [| | |done].
    + destruct (os_acquired _ _ Hs1 i Hi) as [Hi1 Hi2]. destruct (os_acquired _ _ Hs2 j Hj) as [Hj1 Hj2].
      rewrite <- His. apply top_unique; [by apply Hi2, Htags|]. specialize (Hj2 i (proj1 (Htags i) Hi1)).
      unfold outranked in *. by rewrite !Him.
    + destruct (os_acquired _ _ Hs1 i Hi) as [Hi1 _]. apply zero_sum. rewrite Him. by apply (ot_acquired _ _ Ht2 Hj), Htags.
    + destruct (os_acquired _ _ Hs2 j Hj) as [Hj1 _]. symmetry. apply zero_sum. rewrite <- Him. by apply (ot_acquired _ _ Ht1 Hi), Htags.
Qed.

(** ** Delivery *)

Inductive ozmsg :=
  | MAdd (x s : sds) (t : lc)
  | MInc (x s : sds) (ts : list lc)
  | MRem (x : sds) (ts : list lc).

Open Scope string_scope.
Definition ozm_args (k : sds) (m : ozmsg) : list sds :=
  match m with
  | MAdd x s t => ["ozadd"; k; x; s; lcToSds t]
  | MInc x s ts => "ozincrby" :: k :: x :: s :: (lcToSds <$> ts)
  | MRem x ts => "ozrem" :: k :: x :: (lcToSds <$> ts)
  end.
Close Scope string_scope.

Definition ozm_score (s : sds) : double := default dzero (getDoubleFromObject s).

Definition ozm_op (m : ozmsg) : sds * ozop :=
  match m with
  | MAdd x s t => (x, OzAdd (ozm_score s) t)
  | MInc x s ts => (x, OzInc (ozm_score s) ts)
  | MRem x ts => (x, OzRem ts)
  end.

Definition ozm_wf (m : ozmsg) : Prop :=
  match m with
  | MAdd _ s t => is_Some (getDoubleFromObject s) /\ lc_wf t
  | MInc _ s ts => is_Some (getDoubleFromObject s) /\ Forall lc_wf ts /\ Z.of_nat (length ts) <= INT_MAX
  | MRem _ ts => Forall lc_wf ts
  end.

(** The scores are integers. *)
Definition ozm_int (m : ozmsg) : Prop :=
  match m with MAdd _ s _ | MInc _ s _ => ozm_score s = of_Z (int_of (ozm_score s)) | MRem _ _ => True end.

Definition ozm_proc (m : ozmsg) : cmd unit :=
  match m with MAdd _ _ _ => ozaddCommand | MInc _ _ _ => ozincrbyCommand | MRem _ _ => ozremCommand end.
Definition ozm_effect (m : ozmsg) : cmd unit :=
  match m with MAdd _ _ _ => ozadd_effect | MInc _ _ _ => ozincrby_effect | MRem _ _ => ozrem_effect end.

Definition ozdeliver (k : sds) (w : world) (m : ozmsg) : outcome world unit :=
  call 0 (ozm_proc m) (delivery w (ozm_args k m)).

Fixpoint ozdeliver_all (k : sds) (w : world) (ms : list ozmsg) : option world :=
  match ms with
  | [] => Some w
  | m :: ms => match ozdeliver k w m with Done _ w' => ozdeliver_all k w' ms | _ => None end
  end.

(** The container [k] holds the elements and scores [g]. *)
Definition ozc (w : world) (k : sds) (g : sds -> ozst) : Prop :=
  exists f z, ozs w k f z /\ forall x, g x = (f x, z !! x).

Lemma ozc_srv w w' k g : srv w' = srv w -> ozc w k g -> ozc w' k g.
Proof. intros Hs (f & z & Hr & Hg). exists f, z. split; [|done]. eapply rep_config, Hr; rewrite Hs; done. Qed.

Lemma tags_reading ts : Forall lc_wf ts -> tags_read (lcToSds <$> ts) ts.
Proof.
  induction 1 as [|t ts Ht _ IH]; constructor; [|exact IH]. by apply lcToSds_sdsToLc, lc_wf_printable.
Qed.

Lemma ozm_effect_ozc w k g m q :
  ozc w k g -> rargv (cli w) = Some (ozm_args k m) -> ozm_wf m -> oz_effect (g (ozm_op m).1) (ozm_op m).2 = Some q ->
  exists w', ozm_effect m w = Done tt w' /\ ozc w' k (<[(ozm_op m).1 := q]> g) /\ ozframe k w w'.
Proof.
  intros (f & z & Hr & Hg) Hl Hwf Hq. rewrite Hg in Hq.
  assert (oz_done w k (ozm_op m).1 f z (ozm_effect m) (ozm_op m).2) as Hdone.
  { destruct m as [x s t|x s ts|x ts]; cbn in Hwf; cbn [ozm_op ozm_effect fst snd]; unfold ozm_score.
    - destruct Hwf as ([v Hv] & Ht). rewrite Hv. eapply ozadd_effect_ozs; [done|exact Hl|done|]. by apply lcToSds_sdsToLc, lc_wf_printable.
    - destruct Hwf as ([v Hv] & Ht & _). rewrite Hv. eapply ozincrby_effect_ozs; [done|exact Hl|done|by apply tags_reading].
    - eapply ozrem_effect_ozs; [done|exact Hl|by apply tags_reading]. }
  destruct (Hdone q Hq) as (w' & Hw' & Hr' & Hf'). exists w'. split_and!; [done| |done]. eexists _, _. split; [exact Hr'|].
  intros y. rewrite st_read. case_decide as Hy; [subst; by rewrite fn_lookup_insert|]. rewrite fn_lookup_insert_ne by done. apply Hg.
Qed.

Lemma ozdeliver_ozc w k g m q :
  ozc w k g -> REPLICATION_MODE (srv w) = true -> ozm_wf m -> oz_effect (g (ozm_op m).1) (ozm_op m).2 = Some q ->
  exists w', ozdeliver k w m = Done tt w' /\ ozc w' k (<[(ozm_op m).1 := q]> g) /\ REPLICATION_MODE (srv w') = true.
Proof.
  intros Hr Hm Hwf Hq.
  set (w0 := mkWorld (srv w) (mkClient (ozm_args k m) (Some (ozm_args k m)) true false [])).
  destruct (ozm_effect_ozc w0 k g m q) as (w1 & Hw1 & Hr1 & Hf1); [by eapply ozc_srv, Hr|done..|].
  assert (exists prep, ozm_proc m = CRDT prep (ozm_effect m)) as [prep Hproc] by (destruct m; by eexists).
  unfold ozdeliver. rewrite Hproc. destruct (delivery_run prep _ w _ k w1 Hm Hw1 Hf1) as (w' & Hw' & Hsrv & _ & Hm').
  exists w'. split_and!; [done| |done]. by eapply ozc_srv, Hr1.
Qed.

Definition o_ops (x : sds) (ms : list ozmsg) : list ozop := (filter (fun p => p.1 = x) (ozm_op <$> ms)).*2.

Lemma ozdeliver_all_ozc w k g ms :
  ozc w k g -> REPLICATION_MODE (srv w) = true -> Forall ozm_wf ms -> (forall x, is_Some (oz_run (g x) (o_ops x ms))) ->
  exists w' g', ozdeliver_all k w ms = Some w' /\ ozc w' k g' /\ forall x, oz_run (g x) (o_ops x ms) = Some (g' x).
Proof.
  revert w g. induction ms as [|m ms IH]; intros w g Hr Hm Hwf Hrun; cbn [ozdeliver_all]; [by exists w, g|].
  apply Forall_cons_1 in Hwf as [Hwf Hwfs].
  assert (forall x, o_ops x (m :: ms) = if decide ((ozm_op m).1 = x) then (ozm_op m).2 :: o_ops x ms else o_ops x ms) as Hops.
  { intros x. unfold o_ops. rewrite fmap_cons, filter_cons. by case_decide. }
  pose proof (Hrun (ozm_op m).1) as Hx. rewrite Hops, decide_True in Hx by done. cbn [oz_run] in Hx.
  destruct (oz_effect (g (ozm_op m).1) (ozm_op m).2) as [q|] eqn:Hq; [|by destruct Hx].
  destruct (ozdeliver_ozc w k g m q Hr Hm Hwf Hq) as (w1 & -> & Hr1 & Hm1).
  assert (forall x, oz_run (g x) (o_ops x (m :: ms)) = oz_run ((<[(ozm_op m).1 := q]> g) x) (o_ops x ms)) as Hstep.
  { intros x. rewrite Hops. case_decide as Hd; [subst; cbn [oz_run]; by rewrite Hq, fn_lookup_insert|by rewrite fn_lookup_insert_ne]. }
  destruct (IH w1 _ Hr1 Hm1 Hwfs) as (w' & g' & Hw' & Hr' & Hg'); [intros x; rewrite <- Hstep; apply Hrun|].
  exists w', g'. split_and!; [done..|]. intros x. by rewrite Hstep.
Qed.

(** ** Convergence *)

Definition o_untouched (w : world) (k : sds) : Prop :=
  db (srv w) !! k = None /\ db (srv w) !! ozht k = None /\ max_ok (set_max_intset_entries (srv w)).

Lemma o_untouched_ozc w k : o_untouched w k -> ozc w k (fun _ => (oze_new, None)).
Proof.
  intros (H1 & H2 & H3). exists (fun _ => oze_new), ∅. split; [|done].
  split; [|by unfold shape_hash; rewrite H2|done]. unfold shape_set, shape_obj, zset_shape. by rewrite H1.
Qed.

Lemma ozc_shown w k g x : ozc w k g -> shown_score w k x = (g x).2.
Proof. intros (f & z & Hr & Hg). rewrite Hg. by eapply shown_score_rep. Qed.

(** The operations on the tags of one element. *)
Definition o_tags (x : sds) (ms : list ozmsg) : list tagop := flats (o_ops x ms).

(** Each increment comes after the additions it names, or after their removal. *)
Definition o_causal (ms : list ozmsg) : Prop := forall x, ready_run [] (o_ops x ms).

Definition o_agree (ms : list ozmsg) : Prop := forall x, adds_agree (o_tags x ms).

Lemma o_ops_in x ms o : o ∈ o_ops x ms <-> exists m, m ∈ ms /\ ozm_op m = (x, o).
Proof.
  unfold o_ops. rewrite list_elem_of_fmap. setoid_rewrite list_elem_of_filter. setoid_rewrite list_elem_of_fmap. split.
  - intros ([y o'] & -> & Hy & m & Hm & Hin). cbn in *. subst. by exists m.
  - intros (m & Hin & Hm). exists (x, o). split_and!; [done..|]. by exists m.
Qed.

Lemma o_tags_ok x ms : Forall ozm_wf ms -> Forall ozm_int ms -> Forall to_ok (o_tags x ms) /\ Forall oz_short (o_ops x ms).
Proof.
  intros Hwf Hi. rewrite !Forall_forall in *. split.
  - intros o (op & Ho & Hop)%list_elem_of_bind. apply o_ops_in in Hop as (m & Hm & Hmo).
    pose proof (Hwf m Hm) as Hw. pose proof (Hi m Hm) as Hx.
    destruct m as [y s t|y s ts|y ts]; injection Hmo as <- <-; cbn [flat ozm_wf ozm_int] in *.
    + apply list_elem_of_singleton in Ho as ->. split; [apply Hw|done].
    + apply list_elem_of_fmap in Ho as (t & -> & Ht). destruct Hw as (_ & Hw & _). rewrite Forall_forall in Hw. split; [by apply Hw|done].
    + apply list_elem_of_fmap in Ho as (t & -> & Ht). rewrite Forall_forall in Hw. split; [by apply Hw|done].
  - intros o (m & Hm & Hmo)%o_ops_in. pose proof (Hwf m Hm) as Hw. destruct m; injection Hmo as <- <-; cbn in *; [done| |done]. apply Hw.
Qed.

Lemma ozset_history w k ms :
  o_untouched w k -> REPLICATION_MODE (srv w) = true -> Forall ozm_wf ms -> Forall ozm_int ms ->
  o_causal ms -> o_agree ms -> (forall x, total (o_tags x ms) < 2 ^ 53) ->
  exists w', ozdeliver_all k w ms = Some w' /\
    forall x, exists p, oz_inv (o_tags x ms) p /\ shown_score w' k x = p.2.
Proof.
  intros Hu Hm Hwf Hi Hc Hag Htot.
  assert (forall x, exists p, oz_run (oze_new, None) (o_ops x ms) = Some p /\ oz_inv (o_tags x ms) p) as Hrun.
  { intros x. destruct (o_tags_ok x ms Hwf Hi) as [Hok Hsh].
    apply (run_inv (o_ops x ms) [] (oze_new, None)); [apply fresh_inv|exact Hok|apply Hag|apply Htot|apply Hc|exact Hsh]. }
  destruct (ozdeliver_all_ozc w k _ ms (o_untouched_ozc _ _ Hu) Hm Hwf) as (w' & g' & Hw' & Hr' & Hg').
  { intros x. destruct (Hrun x) as (p & -> & _). by eexists. }
  exists w'. split; [done|]. intros x. destruct (Hrun x) as (p & Hp & Hinv). exists p. split; [done|].
  rewrite (ozc_shown _ _ _ _ Hr'). cbn in Hg'. rewrite Hg' in Hp. congruence.
Qed.

Lemma ozset_converges w1 w2 k ms1 ms2 :
  o_untouched w1 k -> o_untouched w2 k -> REPLICATION_MODE (srv w1) = true -> REPLICATION_MODE (srv w2) = true ->
  Forall ozm_wf ms1 -> Forall ozm_int ms1 -> o_agree ms1 -> (forall x, total (o_tags x ms1) < 2 ^ 53) ->
  o_causal ms1 -> o_causal ms2 -> ms1 ≡ₚ ms2 ->
  exists w1' w2', ozdeliver_all k w1 ms1 = Some w1' /\ ozdeliver_all k w2 ms2 = Some w2' /\
    forall x, shown_score w1' k x = shown_score w2' k x.
Proof.
  intros Hu1 Hu2 Hm1 Hm2 Hwf Hi Hag Htot Hc1 Hc2 Hp.
  assert (forall x, o_tags x ms1 ≡ₚ o_tags x ms2) as Hpt by (intros x; unfold o_tags, flats, o_ops; by rewrite Hp).
  destruct (ozset_history w1 k ms1) as (w1' & Hw1 & Hs1); try done.
  destruct (ozset_history w2 k ms2) as (w2' & Hw2 & Hs2); try done; try by rewrite <- Hp.
  { intros x v v' t. rewrite <- !Hpt. apply Hag. }
  { intros x. replace (total (o_tags x ms2)) with (total (o_tags x ms1)); [apply Htot|].
    generalize (Hpt x). unfold total. induction 1; cbn in *; lia. }
  exists w1', w2'. split_and!; [done..|]. intros x. destruct (Hs1 x) as (p1 & Hp1 & ->). destruct (Hs2 x) as (p2 & Hp2 & ->).
  eapply inv_agree; [exact Hp1|exact Hp2|apply Hpt|apply Hag].
Qed.
