(* ===== verification/OZSetClient.v ===== *)
(** * The observed-remove sorted set at one replica

    What a client of [ozadd], [ozincrby] and [ozrem] observes: the reply on every
    branch, the message sent to the other replicas, and the element and the score
    shown afterwards; and what a message that overtakes another leads to. *)
From Stdlib Require Import ZArith Lia Ascii String.
From stdpp Require Import functions base numbers strings gmap sets list.
From S2P Require Import Prelude Sds Double VectorClock LamportClock Intset SetType Server RWFramework Container RWSet ORSet Zset.
From S2P Require Import DoubleExact OZSet OZSetConv.
Open Scope Z_scope.

(** ** The prepare phases *)

Section Prepare.
Context (w : world) (k x : sds) (g : sds -> ozst) (Hr : ozc w k g).

Lemma check_ozset args max :
  index args 1 = Some k -> Z.of_nat (length args) <= max ->
  checkArgcAndZsetType max (request w args) = Done false (request w args).
Proof. destruct Hr as (f & z & Hrep & _). by eapply check_zset_rep. Qed.

Lemma oze_lookup args :
  ozeHTGet k x false (request w args) = Done (Some (ozht k, x)) (request w args) /\
    read_oze (ozht k, x) (request w args) = Done (g x).1 (request w args) \/
  ozeHTGet k x false (request w args) = Done None (request w args) /\ LOOKUP (g x).1 = false.
Proof.
  destruct Hr as (f & z & Hrep & Hg). rewrite Hg. cbn [fst].
  assert (ozs (request w args) k f z) as Hrep' by (by eapply rep_config, Hrep).
  destruct (elHTGet_false _ _ _ _ x Hrep') as [[Hget Hh]|[Hget Hn]]; [left|right].
  - split; [exact Hget|]. by apply (read_el_rep _ _ _ _ _ Hrep').
  - split; [exact Hget|]. by rewrite Hn.
Qed.

Lemma oze_create args :
  exists w1, ozeHTGet k x true (request w args) = Done (Some (ozht k, x)) w1 /\ ozc w1 k g /\
    ozframe k (request w args) w1 /\ read_oze (ozht k, x) w1 = Done (g x).1 w1 /\ has (E := oze) w1 k x.
Proof.
  destruct Hr as (f & z & Hrep & Hg).
  assert (ozs (request w args) k f z) as Hrep' by (by eapply rep_config, Hrep).
  destruct (elHTGet_true _ _ _ _ x Hrep') as (w1 & Hget & Hr1 & Hf1 & Hh1).
  exists w1. split_and!; [exact Hget|by exists f, z|exact Hf1| |done]. rewrite Hg. by apply (read_el_rep _ _ _ _ _ Hr1).
Qed.
End Prepare.

(** The counter of the element after a tag was taken. *)
Definition next_tag (e : oze) : oze :=
  mkOze (to_int (oz_current e + 1)) (oz_innate e) (oz_acquired e) (oz_aset e) (oz_rset e).

Lemma next_tag_write w k x g :
  ozc w k g -> has (E := oze) w k x ->
  exists w', write_oze (ozht k, x) (next_tag (g x).1) w = Done tt w' /\ ozc w' k (<[x := (next_tag (g x).1, (g x).2)]> g) /\ ozframe k w w'.
Proof.
  intros (f & z & Hr & Hg) Hh. destruct (write_el_rep w k f z x (next_tag (g x).1) Hr Hh I) as (w1 & Hw1 & Hr1 & Hf1).
  exists w1. split_and!; [exact Hw1| |done]. eexists _, z. split; [exact Hr1|]. intros y.
  destruct (decide (y = x)) as [->|Hne]; [rewrite !fn_lookup_insert; by rewrite Hg|by rewrite !fn_lookup_insert_ne].
Qed.

Lemma add_tags_items x rv : rv_items (add_tags x rv) = rv_items rv ++ (lcToSds <$> (a_t <$> oz_aset x)).
Proof.
  unfold add_tags. revert rv. induction (oz_aset x) as [|a s IH]; intros rv; cbn [foldl fmap list_fmap]; [by rewrite app_nil_r|].
  rewrite IH. cbn. by rewrite <- app_assoc.
Qed.

(** ** What a replica knows of an element *)

(** The counter of an element is only moved by a prepare phase. *)
Lemma get_ase_current e t : oz_current (get_ase e t).1 = oz_current e.
Proof. unfold get_ase. by destruct (asetGet e t false).2. Qed.

Lemma innate_current e t v : oz_current (update_innate_value e t v).1 = oz_current e.
Proof.
  unfold update_innate_value. destruct (rsetGet e t); [done|]. pose proof (get_ase_current e t).
  destruct (get_ase e t) as [e1 a]. cbn. by destruct (match oz_innate e1 with None => true | _ => _ end).
Qed.

Lemma acquired_current e t v r : update_acquired_value e t v = Some r -> oz_current r.1 = oz_current e.
Proof.
  unfold update_acquired_value. destruct (rsetGet e t); [by intros [= <-]|]. pose proof (get_ase_current e t).
  destruct (get_ase e t) as [e1 a]. case_decide; [by intros [= <-]|]. destruct (outdoes _ _) as [[]|]; [by intros [= <-]..|done].
Qed.

Lemma incs_current v ts e c r : foldl (oz_inc_step v) (Some (e, c)) ts = Some r -> oz_current r.1 = oz_current e.
Proof.
  revert e c. induction ts as [|t ts IH]; intros e c; [by intros [= <-]|]. rewrite oz_incs_cons.
  destruct (update_acquired_value e t v) as [r'|] eqn:Hu; [|done]. intros ->%IH. by eapply acquired_current.
Qed.

Lemma remove_tag_current e t : oz_current (remove_tag e t) = oz_current e.
Proof.
  unfold remove_tag. destruct (rsetGet e t); [done|]. unfold asetGet. cbn. destruct (aset_find t _); [|done].
  by repeat case_decide.
Qed.

Lemma rems_current ts e : oz_current (oz_rems e ts) = oz_current e.
Proof. revert e. induction ts as [|t ts IH]; intros e; [done|]. cbn. by rewrite IH, remove_tag_current. Qed.

Lemma resort_step_current e a r : resort_step e a = Some r -> oz_current r = oz_current e.
Proof.
  unfold resort_step. destruct (oz_innate e); [destruct (_ <? 0)|]; (destruct (outdoes _ a) as [[]|]; [by intros [= <-]..|done]).
Qed.

Lemma resort_current e r : resort e = Some r -> oz_current r = oz_current e.
Proof.
  unfold resort. assert (forall l e, foldl (fun e a => e ← e; resort_step e a) (Some e) l = Some r -> oz_current r = oz_current e) as H.
  { clear e. intros l. induction l as [|a l IH]; intros e; [by intros [= <-]|]. cbn [foldl mbind option_bind].
    destruct (resort_step e a) as [e1|] eqn:Hs; [intros ->%IH; by eapply resort_step_current|].
    intros Hn. exfalso. clear -Hn. by induction l. }
  destruct (oz_innate e), (oz_acquired e); [by intros [= <-]|apply H..].
Qed.

Lemma put_current p q : oz_put p = Some q -> oz_current q.1 = oz_current p.1.
Proof. unfold oz_put. destruct (SCORE p.1); [by intros [= <-]|done]. Qed.

Lemma effect_current p o q : oz_effect p o = Some q -> oz_current q.1 = oz_current p.1.
Proof.
  destruct o as [v t|v ts|ts]; cbn.
  - pose proof (innate_current p.1 t v). destruct (update_innate_value p.1 t v) as [e c]. cbn in *.
    destruct (c =? 0); [by intros [= <-]|]. by intros ->%put_current.
  - destruct (oz_incs p.1 v ts) as [r|] eqn:Hi; [|done]. apply incs_current in Hi. cbn.
    destruct (r.2 =? 0); [by intros [= <-]|]. by intros ->%put_current.
  - pose proof (rems_current ts p.1) as Hc. set (e := oz_rems p.1 ts) in *.
    assert ((e ← resort e; if LOOKUP e then oz_put (e, p.2) else Some (e, None)) = Some q -> oz_current q.1 = oz_current p.1) as Hre.
    { destruct (resort e) as [e1|] eqn:He; [|done]. apply resort_current in He. cbn. destruct (LOOKUP e1); [intros ->%put_current|intros [= <-]]; cbn; congruence. }
    destruct (oz_innate e), (oz_acquired e); [by intros [= <-]|exact Hre..].
Qed.

(** After the operations [l] the replica [id] has the element and the score [p],
    and the tags it gave out are below its counter. *)
Record oz_known (id : Z) (l : list tagop) (p : ozst) : Prop := {
  ok_inv : oz_inv l p;
  ok_tags : Forall to_ok l;
  ok_agree : adds_agree l;
  ok_own o : o ∈ l -> lc_id (to_tag o) = id -> lc_x (to_tag o) < oz_current p.1
}.

Lemma known_step id l p o :
  oz_known id l p -> Forall to_ok (flat o) -> adds_agree (l ++ flat o) -> total (l ++ flat o) < 2 ^ 53 -> ready l o -> oz_short o ->
  (forall o', o' ∈ flat o -> lc_id (to_tag o') = id -> lc_x (to_tag o') < oz_current p.1) ->
  exists q, oz_effect p o = Some q /\ oz_known id (l ++ flat o) q.
Proof.
  intros [Hi Ht Ha Ho] Hf Hag Htot Hr Hsh Hown. destruct (effect_inv l p o) as (q & Hq & Hinv); [done|by apply Forall_app|done..|].
  exists q. split; [done|]. split; [done|by apply Forall_app|done|]. intros o' [Hin|Hin]%elem_of_app; rewrite (effect_current _ _ _ Hq); auto.
Qed.

(** A tag was taken: nothing but the counter changed. *)
Lemma next_tag_known id l p : oz_known id l p -> 0 <= oz_current p.1 < INT_MAX -> oz_known id l (next_tag p.1, p.2).
Proof.
  intros [[(Hh & Hs & Ht) Hz] Hok Hag Hown] Hc. split; [|done|done|].
  - split; [|exact Hz]. split_and!; [destruct Hh|destruct Hs|destruct Ht]; by split.
  - intros o Ho Hid. cbn. rewrite to_int_id by clia. specialize (Hown o Ho Hid). lia.
Qed.

Lemma own_tag_new id l p o : oz_known id l p -> o ∈ l -> to_tag o <> mkLC (oz_current p.1) id.
Proof. intros Hk Ho Ht. pose proof (ok_own _ _ _ Hk o Ho) as H. rewrite Ht in H. cbn in H. lia. Qed.

Lemma agree_new l v t : adds_agree l -> (forall o, o ∈ l -> to_tag o <> t) -> adds_agree (l ++ [TAdd v t]).
Proof.
  intros Ha Hnew v1 v2 u. rewrite !elem_of_app, !list_elem_of_singleton. intros [H1|H1] [H2|H2]; simplify_eq; [|..|done].
  - by eapply Ha. - by destruct (Hnew _ H1). - by destruct (Hnew _ H2).
Qed.

Lemma isum_new l t : (forall o, o ∈ l -> to_tag o <> t) -> isum t l = 0.
Proof.
  intros Hnew. induction l as [|o l IH]; [done|]. unfold isum in *. cbn. rewrite IH by (intros; apply Hnew; by right).
  specialize (Hnew o ltac:(left)). destruct o; cbn in *; [done|by rewrite decide_False|done].
Qed.

(** The one addition of an element that was not there. *)
Lemma sole_tag l e q v t :
  oz_holds l e -> oz_aset e = [] -> oz_holds (l ++ [TAdd v t]) q -> (forall o, o ∈ l -> to_tag o <> t) -> forall u, u ∈ tags q <-> u = t.
Proof.
  intros Hh0 He Hh Hnew u. pose proof (oh_aset _ _ Hh0 u) as Hu. rewrite He, elem_of_nil in Hu.
  rewrite (oh_aset _ _ Hh), added_snoc, removed_snoc. split.
  - intros [[Hadd|[v' [= _ Hx]]] Hrem]; [|congruence]. exfalso. apply Hu. split; [done|]. intros Hr. apply Hrem. by left.
  - intros ->. split; [right; by eexists|]. intros [Hr|Hr]; [by destruct (Hnew _ Hr)|done].
Qed.

Lemma add_now id l p v :
  let t := mkLC (oz_current p.1) id in
  oz_known id l p -> 0 <= oz_current p.1 < INT_MAX -> 0 <= id <= INT_MAX -> v = of_Z (int_of v) -> total l + Z.abs (int_of v) < 2 ^ 53 ->
  LOOKUP p.1 = false ->
  exists q, oz_effect (next_tag p.1, p.2) (OzAdd v t) = Some q /\ oz_known id (l ++ [TAdd v t]) q /\ q.2 = Some v.
Proof.
  intros t Hk Hc Hid Hv Htot Hno.
  assert (forall o, o ∈ l -> to_tag o <> t) as Hnew by (intros o; by apply own_tag_new).
  pose proof (agree_new l v t (ok_agree _ _ _ Hk) Hnew) as Hag.
  destruct (known_step id l (next_tag p.1, p.2) (OzAdd v t)) as (q & Hq & Hkq).
  { by apply next_tag_known. } { repeat constructor; [cbn; clia..|done]. } { done. } { rewrite total_app. cbn. lia. } { done. } { done. }
  { intros o' ->%list_elem_of_singleton _. cbn. rewrite to_int_id by clia. lia. }
  exists q. split_and!; [done..|]. destruct Hkq as [[(Hh & Hs & Ht) ->] _ _ _]. cbn [flat] in *.
  assert (forall u, u ∈ tags q.1 <-> u = t) as Htags.
  { pose proof (ok_inv _ _ _ Hk) as [(Hh0 & _) _]. unfold LOOKUP in Hno. destruct (oz_aset p.1) eqn:He; [|done]. by eapply sole_tag. }
  rewrite decide_False by (rewrite tags_nil; intros Hn; by apply (Hn t), Htags).
  assert (isum t (l ++ [TAdd v t]) = 0) as H0 by (rewrite isum_snoc, (isum_new l t Hnew); done).
  unfold oz_score. destruct (oz_innate q.1) as [i|] eqn:Hi.
  2:{ pose proof (proj2 (Htags t) eq_refl) as Hin. rewrite (ot_innate _ _ Ht Hi) in Hin. by apply elem_of_nil in Hin. }
  pose proof (proj1 (os_innate _ _ Hs i Hi)) as Hit. apply Htags in Hit as ->.
  rewrite (addv_in t _ v Hag) by (apply elem_of_app; right; left).
  destruct (oz_acquired q.1) as [j|] eqn:Hj; [|by rewrite Z.add_0_r, <- Hv].
  pose proof (proj1 (os_acquired _ _ Hs j Hj)) as Hjt. apply Htags in Hjt as ->. by rewrite H0, Z.add_0_r, <- Hv.
Qed.

Lemma addv_incs t l v ts : addv t (l ++ (TInc v <$> ts)) = addv t l.
Proof. induction l as [|o l IH]; cbn; [by induction ts|]. destruct o; [by case_decide|done..]. Qed.

Lemma sums_incs t l v ts :
  NoDup ts ->
  isum t (l ++ (TInc v <$> ts)) = isum t l + (if decide (t ∈ ts) then int_of v else 0) /\
  imag t (l ++ (TInc v <$> ts)) = imag t l + (if decide (t ∈ ts) then Z.abs (int_of v) else 0).
Proof.
  induction ts as [|u ts IH] using rev_ind; intros Hnd; [by rewrite app_nil_r, !Z.add_0_r|].
  apply NoDup_app in Hnd as (Hnd & Hu & _). destruct (IH Hnd) as [H1 H2].
  rewrite fmap_app, app_assoc. change (TInc v <$> [u]) with [TInc v u]. rewrite isum_snoc, imag_snoc, H1, H2. cbn [inc_of].
  assert (t ∈ ts ++ [u] <-> t ∈ ts \/ t = u) as Hiff by (by rewrite elem_of_app, list_elem_of_singleton).
  assert (u ∉ ts) as Hu' by (intros Hin; apply (Hu u Hin); left).
  repeat case_decide; naive_solver lia.
Qed.

Lemma total_incs l v ts : total (l ++ (TInc v <$> ts)) = total l + Z.of_nat (length ts) * Z.abs (int_of v).
Proof. rewrite total_app. f_equal. induction ts as [|t ts IH]; [done|]. rewrite fmap_cons, total_cons, IH. cbn [to_val length]. lia. Qed.

Lemma incs_same l v ts e q : oz_holds l e -> oz_holds (l ++ (TInc v <$> ts)) q -> forall t, t ∈ tags q <-> t ∈ tags e.
Proof.
  intros H1 H2 t. rewrite (oh_aset _ _ H1), (oh_aset _ _ H2). unfold added, removed.
  setoid_rewrite elem_of_app. setoid_rewrite list_elem_of_fmap. naive_solver.
Qed.

(** When all the additions are incremented the order of their magnitudes stays. *)
Lemma incs_score l v e q :
  oz_good l e -> oz_good (l ++ (TInc v <$> tags e)) q -> oz_aset e <> [] ->
  oz_score (l ++ (TInc v <$> tags e)) q = oz_score l e + int_of v.
Proof.
  intros (Hh & Hs & Ht) (Hh' & Hs' & Ht') Hne. pose proof (incs_same l v (tags e) e q Hh Hh') as Hsame.
  assert (forall t, t ∈ tags e -> isum t (l ++ (TInc v <$> tags e)) = isum t l + int_of v /\ imag t (l ++ (TInc v <$> tags e)) = imag t l + Z.abs (int_of v)) as Hsum.
  { intros t Hin. destruct (sums_incs t l v (tags e) (oh_tags _ _ Hh)) as [-> ->]. by rewrite !decide_True. }
  unfold oz_score.
  destruct (oz_innate e) as [i|] eqn:Hi; [|by apply (ot_innate _ _ Ht) in Hi].
  destruct (oz_innate q) as [i'|] eqn:Hi'.
  2:{ apply (ot_innate _ _ Ht') in Hi'. exfalso. apply Hne, tags_nil. intros t Hin%Hsame. by rewrite Hi', elem_of_nil in Hin. }
  destruct (os_innate _ _ Hs i Hi) as [Hi1 Hi2]. destruct (os_innate _ _ Hs' i' Hi') as [Hi1' Hi2'].
  assert (i = i') as <- by (apply tag_total; [by apply Hi2, Hsame|by apply Hi2', Hsame]). rewrite addv_incs.
  assert (match oz_acquired q with Some j => isum j (l ++ (TInc v <$> tags e)) | None => 0 end =
          match oz_acquired e with Some j => isum j l | None => 0 end + int_of v) as ->; [|lia].
  destruct (oz_acquired q) as [j'|] eqn:Hj'.
  2:{ pose proof (ot_acquired _ _ Ht' Hj' i Hi1') as Hz. destruct (Hsum i Hi1) as [_ Hm]. pose proof (imag_nonneg i l).
      assert (int_of v = 0) as -> by lia. destruct (oz_acquired e) as [j|] eqn:Hj; [|done]. destruct (os_acquired _ _ Hs j Hj) as [Hj1 _].
      pose proof (ot_acquired _ _ Ht' Hj' j (proj2 (Hsame j) Hj1)) as Hzj. destruct (Hsum j Hj1) as [_ Hmj]. rewrite zero_sum; lia. }
  destruct (os_acquired _ _ Hs' j' Hj') as [Hj1' Hj2']. apply Hsame in Hj1'. destruct (Hsum j' Hj1') as [-> Hmj']. f_equal.
  destruct (oz_acquired e) as [j|] eqn:Hj; [|apply zero_sum; by apply (ot_acquired _ _ Ht Hj)].
  destruct (os_acquired _ _ Hs j Hj) as [Hj1 Hj2]. apply top_unique; [|by apply Hj2].
  specialize (Hj2' j (proj2 (Hsame j) Hj1)). destruct (Hsum j Hj1) as [_ Hmj]. unfold outranked in *. pose proof (imag_nonneg j' l).
  destruct Hj2' as [?|[? [?|?]]]; [left; lia|right; split; [lia|by left]|right; split; [lia|right; lia]].
Qed.

(** An operation on all the additions the replica has. *)
Lemma known_step_all id l p o (f : lc -> tagop) :
  oz_known id l p -> flat o = f <$> tags p.1 -> (forall t, to_tag (f t) = t) -> (forall t v u, f t <> TAdd v u) ->
  (forall t, lc_wf t -> to_ok (f t)) -> total (l ++ flat o) < 2 ^ 53 -> ready l o -> oz_short o ->
  exists q, oz_effect p o = Some q /\ oz_known id (l ++ flat o) q.
Proof.
  intros Hk Ho Hf Hna Hok Htot Hr Hsh. pose proof (ok_inv _ _ _ Hk) as [(Hh & _) _]. apply known_step; [done|..|done|done|done|]; rewrite Ho.
  - apply Forall_forall. intros o' (t & -> & Hin)%list_elem_of_fmap. apply Hok. by eapply tag_ok, Hin; [apply (ok_tags _ _ _ Hk)|].
  - intros v1 v2 t. rewrite !elem_of_app, !list_elem_of_fmap.
    intros [H1|(? & ? & _)] [H2|(? & ? & _)]; [by eapply (ok_agree _ _ _ Hk)|by edestruct Hna..].
  - intros o' (t & -> & Hin)%list_elem_of_fmap. rewrite Hf. apply (oh_aset _ _ Hh) in Hin as [[w Hw] _]. apply (ok_own _ _ _ Hk _ Hw).
Qed.

Lemma total_rems l ts : total (l ++ (TRem <$> ts)) = total l.
Proof. rewrite total_app. induction ts as [|t ts IH]; [cbn; lia|]. rewrite fmap_cons, total_cons. cbn [to_val]. lia. Qed.

Lemma inc_now id l p v :
  oz_known id l p -> v = of_Z (int_of v) -> total l + Z.of_nat (length (tags p.1)) * Z.abs (int_of v) < 2 ^ 53 ->
  Z.of_nat (length (tags p.1)) <= INT_MAX -> LOOKUP p.1 = true ->
  exists q n, oz_effect p (OzInc v (tags p.1)) = Some q /\ oz_known id (l ++ (TInc v <$> tags p.1)) q /\
    p.2 = Some (of_Z n) /\ q.2 = Some (of_Z (n + int_of v)).
Proof.
  intros Hk Hv Htot Hlen Hin. pose proof (ok_inv _ _ _ Hk) as [(Hh & Hs & Ht) Hz]. pose proof (conj Hh (conj Hs Ht) : oz_good l p.1) as Hg.
  assert (oz_aset p.1 <> []) as Hne by (intros He; unfold LOOKUP in Hin; by rewrite He in Hin).
  destruct (known_step_all id l p (OzInc v (tags p.1)) (TInc v)) as (q & Hq & Hkq); [done..|by split|cbn; by rewrite total_incs| |done|].
  { intros t Hin'. left. by apply (oh_aset _ _ Hh). }
  exists q, (oz_score l p.1). split_and!; [done..| |]; [by rewrite Hz, decide_False|].
  destruct Hkq as [[Hg' ->] _ _ _]. cbn [flat] in *. rewrite (incs_score l v p.1 q.1 Hg Hg' Hne), decide_False; [done|].
  rewrite tags_nil. intros Hn. apply Hne, tags_nil. intros t Hin'. apply (Hn t). by rewrite (incs_same l v (tags p.1) p.1 q.1 Hh (proj1 Hg')).
Qed.

Lemma rem_now id l p :
  oz_known id l p -> total l < 2 ^ 53 ->
  exists q, oz_effect p (OzRem (tags p.1)) = Some q /\ oz_known id (l ++ (TRem <$> tags p.1)) q /\ LOOKUP q.1 = false /\ q.2 = None.
Proof.
  intros Hk Htot. pose proof (ok_inv _ _ _ Hk) as [(Hh & _) _].
  destruct (known_step_all id l p (OzRem (tags p.1)) TRem) as (q & Hq & Hkq); [done|done|done|done|by split|cbn; by rewrite total_rems|done|done|].
  exists q. destruct (ok_inv _ _ _ Hkq) as [(Hh' & _) Hz'].
  assert (oz_aset q.1 = []) as He.
  { apply tags_nil. intros t Hin. apply (oh_aset _ _ Hh') in Hin as [[v Hv] Hr]. unfold removed in Hr. cbn in *.
    rewrite elem_of_app, list_elem_of_fmap in Hv, Hr. destruct Hv as [Hv|(? & ? & _)]; [|done]. apply Hr. right.
    exists t. split; [done|]. apply (oh_aset _ _ Hh). split; [by exists v|]. intros Hr'. apply Hr. by left. }
  split_and!; [done..|unfold LOOKUP; by rewrite He|]. rewrite Hz'. by rewrite decide_True.
Qed.

(** ** A command at its origin *)

Lemma oz_origin prep m w k g args rv w1 q :
  REPLICATION_MODE (srv w) = true -> prep (request w args) = Done rv w1 -> ozframe k (request w args) w1 ->
  ozc w1 k g -> args ++ rv_items rv = ozm_args k m -> ozm_wf m -> oz_effect (g (ozm_op m).1) (ozm_op m).2 = Some q ->
  exists w', call 0 (CRDT prep (ozm_effect m)) (request w args) = Done tt w' /\
    ozc w' k (<[(ozm_op m).1 := q]> g) /\ replies (cli w') = [R_ok] /\
    replicas (srv w') = (fun out => out ++ broadcast_msg (srv w) 0 (ozm_args k m)) <$> replicas (srv w).
Proof.
  intros Hm Hp Hf1 Hr1 Hargs Hwf Hq.
  set (w2 := mkWorld (srv w1) (mkClient args (Some (args ++ rv_items rv)) false false [R_ok])).
  destruct (ozm_effect_ozc w2 k g m q) as (w3 & Hw3 & Hr3 & Hf3).
  { by eapply ozc_srv, Hr1. } { cbn. by rewrite Hargs. } { done. } { done. }
  destruct (origin_sent prep (ozm_effect m) w args k rv w1 w3 Hm Hp Hf1 Hw3 Hf3)
    as (w4 & Hw4 & Hdb4 & Hc4 & _ & _ & Hrep4 & _ & Hsent). rewrite Hargs in *.
  exists w4. split_and!; [done| |done|done].
  destruct Hr3 as (f & z & Hr3 & Hg3). exists f, z. split; [|done]. by eapply rep_config, Hr3.
Qed.

Section Client.
Context (w : world) (k x : sds) (g : sds -> ozst) (Hr : ozc w k g) (Hm : REPLICATION_MODE (srv w) = true).

Abbreviation e := (g x).1.

(** [m] was applied to the elements [g'] and sent. *)
Definition oz_applied (proc : cmd unit) (args : list sds) (m : ozmsg) (q : ozst) : Prop :=
  exists w', call 0 proc (request w args) = Done tt w' /\ ozc w' k (<[x := q]> g) /\ replies (cli w') = [R_ok] /\
    replicas (srv w') = (fun out => out ++ broadcast_msg (srv w) 0 (ozm_args k m)) <$> replicas (srv w).

Definition oz_reply (proc : cmd unit) (args : list sds) (r : reply) : Prop :=
  call 0 proc (request w args) = Done tt (mkWorld (srv w) (mkClient args None false false [r])).

Definition oz_kept (proc : cmd unit) (args : list sds) (r : reply) : Prop :=
  exists w', call 0 proc (request w args) = Done tt w' /\ ozc w' k g /\
    cli w' = mkClient args None false false [r] /\ replicas (srv w') = replicas (srv w).

Ltac read_args args :=
  step_with (arg_done (request w args) 1 k eq_refl); step_with (arg_done (request w args) 2 x eq_refl).
Ltac read_score args s Hs :=
  step_with (check_ozset w k g Hr args 4 eq_refl ltac:(cbn; lia)); step_with (arg_done (request w args) 3 s eq_refl);
  lazymatch type of Hs with
  | _ = Some _ => step_with (read_score_done _ _ _ Hs); read_args args
  | _ => unfold getDoubleFromObjectOrReply; by rewrite Hs
  end.

(** An increment or a removal names the additions the replica has. *)
Lemma oz_present prep eff m args q :
  eff = ozm_effect m -> (ozm_op m).1 = x -> args ++ (lcToSds <$> tags e) = ozm_args k m -> ozm_wf m ->
  prep (request w args) = oz_present_prepare k x (request w args) ->
  oz_effect (g x) (ozm_op m).2 = Some q ->
  if LOOKUP e then oz_applied (CRDT prep eff) args m q else oz_reply (CRDT prep eff) args R_ele_nexist.
Proof.
  intros -> Hx Hargs Hwf Hp Hq. unfold oz_reply, oz_applied, oz_present_prepare in *.
  destruct (oze_lookup w k x g Hr args) as [[Hget Hread]|[Hget Hno]];
    [rewrite (bind_done _ _ _ _ _ Hget), (bind_done _ _ _ _ _ Hread) in Hp; destruct (LOOKUP e) eqn:He|rewrite Hno].
  - rewrite <- Hx in *. eapply oz_origin; [done|exact Hp|reflexivity|by eapply ozc_srv, Hr| |done|done].
    by rewrite add_tags_items.
  - by apply call_refused.
  - rewrite (bind_done _ _ _ _ _ Hget) in Hp. by apply call_refused.
Qed.

Lemma ozincrby_client s :
  let args := ["ozincrby"%string; k; x; s] in
  match getDoubleFromObject s with
  | None => oz_reply ozincrbyCommand args not_a_float
  | Some v =>
      forall q, Forall lc_wf (tags e) -> Z.of_nat (length (tags e)) <= INT_MAX -> oz_effect (g x) (OzInc v (tags e)) = Some q ->
      if LOOKUP e then oz_applied ozincrbyCommand args (MInc x s (tags e)) q else oz_reply ozincrbyCommand args R_ele_nexist
  end.
Proof.
  intros args. destruct (getDoubleFromObject s) as [v|] eqn:Hs.
  - intros q Hwf Hlen Hq. apply oz_present; [done|done|done| | |].
    + split_and!; [by eexists|done|done].
    + unfold ozincrby_prepare. read_score args s Hs. done.
    + cbn. unfold ozm_score. by rewrite Hs.
  - apply call_refused; [done|]. unfold ozincrby_prepare. read_score args s Hs.
Qed.

Lemma ozrem_client q :
  let args := ["ozrem"%string; k; x] in
  Forall lc_wf (tags e) -> oz_effect (g x) (OzRem (tags e)) = Some q ->
  if LOOKUP e then oz_applied ozremCommand args (MRem x (tags e)) q else oz_reply ozremCommand args R_ele_nexist.
Proof.
  intros args Hwf Hq. apply oz_present; [done..| |done]. unfold ozrem_prepare.
  step_with (check_ozset w k g Hr args 3 eq_refl ltac:(cbn; lia)). by read_args args.
Qed.

Lemma ozadd_client s :
  let args := ["ozadd"%string; k; x; s] in
  let t := mkLC (oz_current e) (p2p_id (srv w)) in
  match getDoubleFromObject s with
  | None => oz_reply ozaddCommand args not_a_float
  | Some v =>
      if LOOKUP e then oz_kept ozaddCommand args R_ele_exist
      else forall q, lc_wf t -> oz_effect (next_tag e, (g x).2) (OzAdd v t) = Some q -> oz_applied ozaddCommand args (MAdd x s t) q
  end.
Proof.
  intros args t. unfold oz_reply.
  destruct (getDoubleFromObject s) as [v|] eqn:Hs; [|apply call_refused; [done|]; unfold ozadd_prepare; read_score args s Hs].
  destruct (oze_create w k x g Hr args) as (w1 & Hget & Hr1 & Hf1 & Hread & Hh1).
  pose proof (fr_cli _ _ _ Hf1 : cli w1 = cli (request w args)) as Hcli1.
  destruct (LOOKUP e) eqn:He.
  - exists (set_client (push_reply R_ele_exist) w1). split_and!; [|by eapply ozc_srv, Hr1|by cbn; rewrite Hcli1|].
    + apply call_no_broadcast; [done| |by cbn; rewrite Hcli1..]. apply CRDT_origin_return; [done..|]. unfold ozadd_prepare.
      read_score args s Hs. step_with Hget. step_with (deref_some (ozht k, x) w1). step_with Hread. rewrite He.
      step_with (addReply_done R_ele_exist w1 ltac:(by rewrite Hcli1)). done.
    + cbn. by rewrite (fr_replicas _ _ _ Hf1).
  - intros q Hwf Hq. destruct (next_tag_write w1 k x g Hr1 Hh1) as (w2 & Hw2 & Hr2 & Hf2).
    assert (ozadd_prepare (request w args) = Done (RARGV_ADD_SDS RVCT_PREPARE (lcToSds t)) w2) as Hp.
    { unfold ozadd_prepare. read_score args s Hs. step_with Hget. step_with (deref_some (ozht k, x) w1). step_with Hread. rewrite He.
      assert (gets (fun w => LC_NEW (srv w) (oz_current e)) w1 = Done t w1) as Hlc.
      { unfold gets, LC_NEW, _lc_new, t. by rewrite (sc_id _ _ (fr_config _ _ _ Hf1)). }
      step_with Hlc. by step_with Hw2. }
    assert (ozframe k (request w args) w2) as Hf by (by rewrite Hf1).
    destruct (oz_origin ozadd_prepare (MAdd x s t) w k _ args _ w2 q Hm Hp Hf Hr2) as (w' & Hw' & Hr' & Hrest); [done|split; [by eexists|done]| |].
    + cbn. rewrite fn_lookup_insert. unfold ozm_score. by rewrite Hs.
    + exists w'. split_and!; [exact Hw'| |apply Hrest..]. destruct Hr' as (f & z & Hrz & Hgz). exists f, z. split; [done|].
      intros y. rewrite <- Hgz. cbn [ozm_op fst]. destruct (decide (y = x)) as [->|]; [by rewrite !fn_lookup_insert|by rewrite !fn_lookup_insert_ne].
Qed.
(** The three commands at a replica that knows the operations [l]. *)
Lemma known_tags_wf id l : oz_known id l (g x) -> Forall lc_wf (tags e).
Proof.
  intros Hk. apply Forall_forall. intros t Ht. pose proof (ok_inv _ _ _ Hk) as [(Hh & _) _].
  by eapply tag_ok, Ht; [apply (ok_tags _ _ _ Hk)|].
Qed.

Lemma ozadd_known l s v (id := p2p_id (srv w)) (t := mkLC (oz_current e) id) :
  oz_known id l (g x) -> 0 <= id <= INT_MAX -> 0 <= oz_current e < INT_MAX -> getDoubleFromObject s = Some v ->
  v = of_Z (int_of v) -> total l + Z.abs (int_of v) < 2 ^ 53 -> LOOKUP e = false ->
  exists q, oz_applied ozaddCommand ["ozadd"%string; k; x; s] (MAdd x s t) q /\ oz_known id (l ++ [TAdd v t]) q /\ q.2 = Some v.
Proof.
  intros Hk Hid Hc Hs Hv Htot He. destruct (add_now id l (g x) v Hk Hc Hid Hv Htot He) as (q & Hq & Hkq & Hz).
  exists q. split_and!; [|done..]. pose proof (ozadd_client s) as Ha. cbn zeta in Ha. rewrite Hs, He in Ha. apply Ha; [|done].
  unfold lc_wf. cbn. clia.
Qed.

Lemma ozincrby_known l s v (id := p2p_id (srv w)) :
  oz_known id l (g x) -> getDoubleFromObject s = Some v -> v = of_Z (int_of v) ->
  total l + Z.of_nat (length (tags e)) * Z.abs (int_of v) < 2 ^ 53 -> Z.of_nat (length (tags e)) <= INT_MAX -> LOOKUP e = true ->
  exists q n, oz_applied ozincrbyCommand ["ozincrby"%string; k; x; s] (MInc x s (tags e)) q /\
    oz_known id (l ++ (TInc v <$> tags e)) q /\ (g x).2 = Some (of_Z n) /\ q.2 = Some (of_Z (n + int_of v)).
Proof.
  intros Hk Hs Hv Htot Hlen He. destruct (inc_now id l (g x) v Hk Hv Htot Hlen He) as (q & n & Hq & Hkq & Hz).
  exists q, n. split_and!; [|done|apply Hz..]. pose proof (ozincrby_client s) as Ha. cbn zeta in Ha. rewrite Hs in Ha.
  specialize (Ha q (known_tags_wf _ _ Hk) Hlen Hq). by rewrite He in Ha.
Qed.

Lemma ozincrby_absent s v : getDoubleFromObject s = Some v -> LOOKUP e = false ->
  oz_reply ozincrbyCommand ["ozincrby"%string; k; x; s] R_ele_nexist.
Proof.
  intros Hs He. pose proof (ozincrby_client s) as Ha. cbn zeta in Ha. rewrite Hs, He in Ha.
  assert (oz_aset e = []) as Hn by (unfold LOOKUP in He; by destruct (oz_aset e)).
  apply (Ha (g x)); rewrite Hn; [apply Forall_nil_2|cbn; clia|]. by destruct (g x).
Qed.

Lemma ozrem_known l (id := p2p_id (srv w)) :
  oz_known id l (g x) -> total l < 2 ^ 53 ->
  if LOOKUP e then
    exists q, oz_applied ozremCommand ["ozrem"%string; k; x] (MRem x (tags e)) q /\
      oz_known id (l ++ (TRem <$> tags e)) q /\ LOOKUP q.1 = false /\ q.2 = None
  else oz_reply ozremCommand ["ozrem"%string; k; x] R_ele_nexist.
Proof.
  intros Hk Htot. destruct (rem_now id l (g x) Hk Htot) as (q & Hq & Hkq & Hz).
  pose proof (ozrem_client q (known_tags_wf _ _ Hk) Hq) as Hd. destruct (LOOKUP e); [|done]. by exists q.
Qed.
End Client.

(** The requests that are refused whatever the replica holds: those with more
    arguments than the command takes, and those for a key of another type. *)
Lemma oz_refusals w k x s :
  REPLICATION_MODE (srv w) = true ->
  (forall a, a <> [] ->
    oz_reply w ozaddCommand ("ozadd"%string :: k :: x :: s :: a) R_syntaxerr /\
    oz_reply w ozincrbyCommand ("ozincrby"%string :: k :: x :: s :: a) R_syntaxerr /\
    oz_reply w ozremCommand ("ozrem"%string :: k :: x :: a) R_syntaxerr) /\
  (forall o, db (srv w) !! k = Some o -> is_zset o = false ->
    oz_reply w ozaddCommand ["ozadd"%string; k; x; s] R_wrongtypeerr /\
    oz_reply w ozincrbyCommand ["ozincrby"%string; k; x; s] R_wrongtypeerr /\
    oz_reply w ozremCommand ["ozrem"%string; k; x] R_wrongtypeerr).
Proof.
  intros Hm. split.
  - intros a Ha. destruct a as [|y a]; [done|].
    split_and!; (apply call_refused; [done|]); apply zset_syntax; cbn [length]; lia.
  - intros o Ho Hz. split_and!; (apply call_refused; [done|]); apply (zset_wrongtype _ _ _ k o); cbn [length]; done || lia.
Qed.

(** ** Limits *)

(** An increment that overtakes the addition it names makes a record without a
    score.  Once the other addition is removed that record is selected, and the
    value that was never set is read. *)
Definition overtaken_adds : list ozmsg :=
  [MAdd "x" "5" (mkLC 0 0); MInc "x" "1" [mkLC 0 1]; MRem "x" [mkLC 0 0]].

Lemma score_never_set :
  ozdeliver_all "q" (start_world 2 0) overtaken_adds = None /\
  is_Some (ozdeliver_all "q" (start_world 2 0) (MAdd "x" "7" (mkLC 0 1) :: overtaken_adds)).
Proof. split; [by vm_compute|]. vm_compute. by eexists. Qed.

(** The tag order decides between concurrent additions. *)
Lemma greatest_tag :
  (w' ← ozdeliver_all "q" (start_world 2 0) [MAdd "x" "5" (mkLC 9 0); MAdd "x" "3" (mkLC 0 1); MInc "x" "1" [mkLC 9 0; mkLC 0 1]];
   shown_score w' "q" "x") = Some (of_Z 4).
Proof. by vm_compute. Qed.
