(* ===== verification/RWTree.v ===== *)
(** * The remove-win tree ([t_rwtree.c])

    A tree of named nodes, each with a remove-win header, the id of its parent,
    the set of its children's ids and one clock each for its value and its
    position.  A node is in the tree when it and all its ancestors exist.  This
    file translates the commands. *)
From Stdlib Require Import ZArith Lia Ascii String.
From stdpp Require Import functions base numbers strings gmap sets list.
From S2P Require Import Prelude Sds VectorClock LamportClock Intset SetType Server RWFramework Container RWSet Stamps.
Open Scope Z_scope.

Definition RW_TREE_SUFFIX : sds := "_tree_"%string.
Definition TREE_ROOT : sds := "_root_"%string.
Definition ROOT_ID : sds := "0,0"%string.

(** ** Nodes *)

Definition rtn_new (s : server) : rtn :=
  mkRtn (REH_INIT s) (l_newVC s) (l_newVC s) None None None createSetObject.

Definition rtnNew : cmd helem := gets (fun w => HRtn (rtn_new (srv w))).

(** The children are a hash table; the clocks have the size of the system. *)
Definition rtn_ok (s : server) (n : rtn) : Prop :=
  clock_ok s (current (header n)) /\ clock_ok s (vectorClock n) /\ clock_ok s (moveVC n) /\
  exists d, children n = SHT d.

Lemma l_newVC_ok s : clock_ok s (l_newVC s).
Proof.
  unfold clock_ok, l_newVC, newVC, vc_size. cbn. rewrite length_replicate.
  split_and!; try done. apply Forall_replicate. clia.
Qed.

Lemma clock_ok_stable s s' c : same_config s s' -> clock_ok s c -> clock_ok s' c.
Proof. intros []. unfold clock_ok. by rewrite sc_count, sc_id. Qed.

#[global, program] Instance rtn_elem : Elem rtn := {
  el_suffix := RW_TREE_SUFFIX;
  el_inj := HRtn;
  el_proj v := match v with HRtn n => Some n | _ => None end;
  el_new := rtn_new;
  el_ok := rtn_ok
}.
Solve Obligations with try done.
Next Obligation.
  intros s. pose proof (l_newVC_ok s). unfold rtn_ok, rtn_new. split_and!; [done..|by eexists].
Qed.

#[global] Instance rtn_stable : ElemStable rtn.
Proof.
  split.
  - intros s s' []. unfold el_new. cbn. unfold rtn_new, REH_INIT, l_newVC. congruence.
  - intros s s' n Hc (H1 & H2 & H3 & H4). unfold el_ok. cbn.
    split_and!; [by eapply clock_ok_stable..|done].
Qed.

(** The key may be null, which [sdsnew] takes for the empty string. *)
Definition rtnHTGet (tname : sds) (key : option sds) (create : bool) : cmd (option eref) :=
  rehHTGet tname RW_TREE_SUFFIX (sdsnew_ptr key) create rtnNew.

Definition read_rtn (e : eref) : cmd rtn := read_el e.
Definition write_rtn (e : eref) (n : rtn) : cmd unit := write_el e n.

Definition set_header (n : rtn) (h : reh) : rtn :=
  mkRtn h (vectorClock n) (moveVC n) (uid n) (name n) (parent n) (children n).
Definition set_vectorClock (n : rtn) (c : vc) : rtn :=
  mkRtn (header n) c (moveVC n) (uid n) (name n) (parent n) (children n).
Definition set_moveVC (n : rtn) (c : vc) : rtn :=
  mkRtn (header n) (vectorClock n) c (uid n) (name n) (parent n) (children n).
Definition set_uid (n : rtn) (u : option sds) : rtn :=
  mkRtn (header n) (vectorClock n) (moveVC n) u (name n) (parent n) (children n).
Definition set_name (n : rtn) (s : option sds) : rtn :=
  mkRtn (header n) (vectorClock n) (moveVC n) (uid n) s (parent n) (children n).
Definition set_parent (n : rtn) (p : option sds) : rtn :=
  mkRtn (header n) (vectorClock n) (moveVC n) (uid n) (name n) p (children n).
Definition set_children (n : rtn) (so : setobj) : rtn :=
  mkRtn (header n) (vectorClock n) (moveVC n) (uid n) (name n) (parent n) so.

(** Update a field through the pointer. *)
Definition update_rtn (e : eref) (g : rtn -> rtn) : cmd unit := n <- read_rtn e ;; write_rtn e (g n).

(** [treeNodeAttribute] and [RWF_NODE_SIZE]: the sizes of the structures on a
    64-bit machine. *)
Definition sdslen_opt (s : option sds) : Z :=
  match s with Some s => Z.of_nat (String.length s) | None => 0 end.
Definition treeNodeAttribute (n : rtn) : Z :=
  2 * sdslen_opt (uid n) + sdslen_opt (name n) + sdslen_opt (parent n).
Definition RWF_NODE_BASE : Z := 24 + 48 + 2 * 16 + 16.
Definition RWF_NODE_SIZE (n : rtn) : Z := RWF_NODE_BASE + treeNodeAttribute n.

Section Tree.
Context `{DictOrder}.

(** [setTypeRemove(children, uid)]: a null uid returns at once on an empty
    table and is dereferenced otherwise. *)
Definition children_remove (e : eref) (u : option sds) : cmd unit :=
  n <- read_rtn e ;;
  match u with
  | Some u => write_rtn e (set_children n (setTypeRemove (children n) u).1)
  | None => if Nat.eqb (setTypeSize (children n)) 0 then ret tt else crash
  end.

Definition children_add (e : eref) (u : option sds) : cmd unit :=
  n <- read_rtn e ;;
  u <- deref u ;;
  max <- gets (fun w => set_max_intset_entries (srv w)) ;;
  r <- deref (setTypeAdd max (children n) u) ;;
  write_rtn e (set_children n r.1).

(** The tree's name is [c->rargv[1]]. *)
Definition tRemFunc (tn : eref) (t : vc) : cmd unit :=
  n <- read_rtn tn ;;
  b <- deref (removeCheck (header n) t) ;;
  if b then
    tname <- rarg 1 ;;
    tn_p <- rtnHTGet tname (parent n) true ;;
    update_rtn tn (fun n => set_header n (REH_RMV_FUNC (header n) t)) ;;
    (match tn_p with
     | Some tn_p => n <- read_rtn tn ;; children_remove tn_p (uid n)
     | None => ret tt
     end) ;;
    update_rtn tn (fun n => set_parent n (Some "none"%string))
  else ret tt.

(** ** Membership and subtrees

    Both loops follow pointers between nodes and end only if the parents, or
    the children, form no cycle: the fuel bounds their iterations. *)
Fixpoint istreeMember_loop (fuel : nat) (tname ele : sds) : cmd bool :=
  if sdscmp ele ROOT_ID =? 0 then ret true
  else
    match fuel with
    | O => out_of_fuel
    | S fuel =>
        tn <- rtnHTGet tname (Some ele) false ;;
        match tn with
        | None => ret false
        | Some tn =>
            n <- read_rtn tn ;;
            if EXISTS (header n) then
              p <- deref (parent n) ;;
              istreeMember_loop fuel tname (sdsdup p)
            else ret false
        end
    end.

Definition istreeMember (fuel : nat) (tname id : sds) : cmd bool :=
  istreeMember_loop fuel tname (sdsnew id).

Fixpoint subTree_loop (fuel : nat) (treeHT : sds) (queue : list sds) (subtree : setobj) : cmd setobj :=
  match queue with
  | [] => ret subtree
  | curId :: queue =>
      match fuel with
      | O => out_of_fuel
      | S fuel =>
          tn <- rtnHTGet treeHT (Some curId) false ;;
          match tn with
          | None => subTree_loop fuel treeHT queue subtree
          | Some tn =>
              n <- read_rtn tn ;;
              if EXISTS (header n) then
                subtree <- local_add subtree curId ;;
                subTree_loop fuel treeHT
                  (queue ++ (if Nat.ltb 0 (setTypeSize (children n)) then set_list (children n) else []))
                  subtree
              else subTree_loop fuel treeHT queue subtree
          end
      end
  end.

Definition subTree (fuel : nat) (treeHT uid : sds) : cmd setobj :=
  subTree_loop fuel treeHT [sdsnew uid] createSetObject.

(** ** Iterators over a set of ids

    They take the object for a hash table without looking at its encoding. *)
Definition treeTypeIterator : Type := list sds.

Definition treeTypeInitIterator (subject : setobj) : option treeTypeIterator :=
  match subject with SHT d => Some (dict_iter d) | SIntset _ => None end.

Definition treeTypeNext (tri : treeTypeIterator) : option (sds * treeTypeIterator) :=
  match tri with [] => None | key :: tri => Some (key, tri) end.

Definition treeTypeNextObject (tri : treeTypeIterator) : option (sds * treeTypeIterator) :=
  match treeTypeNext tri with Some (sdsele, tri) => Some (sdsdup sdsele, tri) | None => None end.

Definition treeTypeAdd (tName : setobj) (nodeName : sds) : setobj * bool :=
  match tName with
  | SHT d => match dictAdd d (sdsdup nodeName) with Some d => (SHT d, true) | None => (SHT d, false) end
  | SIntset _ => (tName, false)
  end.

Definition treeTypeRemove (tName : setobj) (nodeName : sds) : setobj * bool :=
  match tName with
  | SHT d => match dictDelete d nodeName with Some d => (SHT d, true) | None => (SHT d, false) end
  | SIntset _ => (tName, false)
  end.

(** The ids a loop over [treeTypeNextObject] sees: as many as the iterator
    holds. *)
Fixpoint tree_drain (fuel : nat) (tri : treeTypeIterator) : list sds :=
  match fuel with
  | O => []
  | S fuel =>
      match treeTypeNextObject tri with
      | Some (uid, tri) => uid :: tree_drain fuel tri
      | None => []
      end
  end.

(** ** [CreateTree] *)

Definition CreateTree_prepare : cmd rvector :=
  tname <- arg 1 ;;
  tree <- getInnerHT tname RW_TREE_SUFFIX false ;;
  match tree with
  | Some _ => addReply R_ele_exist ;; creturn
  | None => ret RVCT_PREPARE
  end.

Definition CreateTree_effect : cmd unit :=
  let uid := sdsnew ROOT_ID in
  tname <- rarg 1 ;;
  tn <- rtnHTGet tname (Some uid) true ;;
  tn <- deref tn ;;
  update_rtn tn (fun n => set_uid n (Some (sdsdup uid))) ;;
  update_rtn tn (fun n => set_name n (Some (sdsnew TREE_ROOT))) ;;
  update_rtn tn (fun n => set_parent n (Some (sdsnew "null"%string))) ;;
  me <- gets (fun w => p2p_id (srv w)) ;;
  update_rtn tn (fun n => set_header n (mkReh me (current (header n)))) ;;
  modify inc_dirty.

Definition CreateTreeCommand : cmd unit := CRDT CreateTree_prepare CreateTree_effect.

(** ** Display *)

Open Scope string_scope.
Definition node_output (uid : sds) (n : rtn) : sds :=
  let par := sdsnew_ptr (parent n) in
  let nodename := sdsnew uid ++ " " ++ sdsnew_ptr (name n) in
  let output := sdsnew nodename ++ " " ++ sdsnew par ++ " ("
                ++ sdsfromlonglong (Z.of_nat (setTypeSize (children n))) ++ ")[" in
  let output := if Nat.ltb 0 (setTypeSize (children n))
                then foldl (fun o ele => o ++ sdsnew ele ++ " ") output (set_list (children n))
                else output in
  output ++ "]".
Close Scope string_scope.

(** The replies of the loop over the subtree's ids. *)
Fixpoint treeMembers_loop (tname : sds) (ids : list sds) (out : list sds) : cmd (list sds) :=
  match ids with
  | [] => ret out
  | uid :: ids =>
      tn <- rtnHTGet tname (Some uid) false ;;
      tn <- deref tn ;;
      n <- read_rtn tn ;;
      tn_p <- rtnHTGet tname (parent n) false ;;
      shown <- (match tn_p with
                | None => ret false
                | Some tn_p => np <- read_rtn tn_p ;; ret (EXISTS (header n) && EXISTS (header np))
                end) ;;
      treeMembers_loop tname ids (if shown then out ++ [node_output uid n] else out)
  end.

Definition treeMembersCommand (fuel : nat) : cmd unit :=
  tname <- arg 1 ;;
  tree <- subTree fuel tname (sdsnew ROOT_ID) ;;
  tri <- deref (treeTypeInitIterator tree) ;;
  out <- treeMembers_loop tname (tree_drain (length tri) tri) [] ;;
  addReply (R_multibulklen (Z.of_nat (length out))) ;;
  for_each out (fun s => addReply (R_bulk s)).

(** ** Insertion *)

Definition checkInitVC (c : vc) : bool := forallb (fun x => negb (0 <? x)) (vector c).

Definition insert_prepare (fuel : nat) : cmd rvector :=
  tname <- arg 1 ;;
  tree <- getInnerHT tname RW_TREE_SUFFIX false ;;
  match tree with
  | None => addReply R_emptymultibulk ;; creturn
  | Some _ =>
      p <- arg 3 ;;
      b <- istreeMember fuel tname p ;;
      if negb b then addReply R_ele_nexist ;; creturn
      else
        tnp <- rtnHTGet tname (Some p) false ;;
        tnp <- deref tnp ;;
        np <- read_rtn tnp ;;
        rv <- ADD_CR_NON_RMV RVCT_PREPARE (header np) ;;
        u <- arg 4 ;;
        b <- istreeMember fuel tname u ;;
        if b then addReply R_ele_exist ;; creturn
        else
          tn <- rtnHTGet tname (Some u) true ;;
          tn <- deref tn ;;
          n <- read_rtn tn ;;
          ADD_CR_NON_RMV rv (header n)
  end.

(** The parts of the effect: the new node's fields and its parent's children,
    and the header. *)
Definition insert_attach (tn tnp : eref) (u p : sds) : cmd unit :=
  update_rtn tn (fun n => set_uid n (Some (sdsdup u))) ;;
  update_rtn tn (fun n => set_parent n (Some (sdsdup p))) ;;
  n <- read_rtn tn ;;
  (if checkInitVC (vectorClock n) then
     nm <- rarg 2 ;;
     update_rtn tn (fun n => set_name n (Some (sdsdup nm)))
   else ret tt) ;;
  children_add tnp (Some u).

Definition insert_pid (tn : eref) (r : vc) : cmd unit :=
  n <- read_rtn tn ;;
  if insertCheck (header n) r then
    update_rtn tn (fun n => set_header n (mkReh (vc_id r) (current (header n)))) ;;
    modify inc_dirty
  else ret tt.

Definition insert_effect : cmd unit :=
  r_p <- CR_GET 5 ;;
  r <- CR_GET_LAST ;;
  tname <- rarg 1 ;;
  u <- rarg 4 ;;
  p <- rarg 3 ;;
  tn <- rtnHTGet tname (Some u) true ;;
  tn <- deref tn ;;
  tnp <- rtnHTGet tname (Some p) true ;;
  tnp <- deref tnp ;;
  insert_attach tn tnp u p ;;
  tRemFunc tnp r_p ;;
  tRemFunc tn r ;;
  insert_pid tn r ;;
  n <- read_rtn tn ;;
  modify (add_ovhd_cnt (RWF_NODE_SIZE n)).

Definition InsertWithIdCommand (fuel : nat) : cmd unit := CRDT (insert_prepare fuel) insert_effect.

(** ** Deletion *)

Definition delete_prepare (fuel : nat) : cmd rvector :=
  tname <- arg 1 ;;
  tree <- getInnerHT tname RW_TREE_SUFFIX false ;;
  match tree with
  | None => addReply R_emptymultibulk ;; creturn
  | Some _ =>
      u <- arg 2 ;;
      b <- istreeMember fuel tname u ;;
      if negb b then addReply R_ele_nexist ;; creturn
      else
        tn <- rtnHTGet tname (Some u) false ;;
        tn <- deref tn ;;
        n <- read_rtn tn ;;
        ADD_CR_RMV RVCT_PREPARE (header n)
  end.

Definition delete_effect : cmd unit :=
  r <- CR_GET_LAST ;;
  tname <- rarg 1 ;;
  u <- rarg 2 ;;
  tn <- rtnHTGet tname (Some u) true ;;
  tn <- deref tn ;;
  tRemFunc tn r.

Definition DeleteCommand (fuel : nat) : cmd unit := CRDT (delete_prepare fuel) delete_effect.

(** ** Clock comparisons

    [None] is a failed assertion. *)
Fixpoint currency_loop (v1 v2 : list Z) (flag1 flag2 : bool) : bool * bool :=
  match v1, v2 with
  | x :: v1, y :: v2 =>
      if y <? x then currency_loop v1 v2 true flag2
      else if x <? y then currency_loop v1 v2 flag1 true
      else currency_loop v1 v2 flag1 flag2
  | _, _ => (flag1, flag2)
  end.

Definition checkCurrency (vc1 vc2 : vc) : option bool :=
  if negb (Nat.eqb (vc_size vc1) (vc_size vc2)) then None
  else if equalVC vc1 vc2 then Some false
  else let '(flag1, flag2) := currency_loop (vector vc1) (vector vc2) false false in Some (flag1 && flag2).

Fixpoint current_loop (v1 v2 : list Z) : Z :=
  match v1, v2 with
  | x :: v1, y :: v2 => if y <? x then 1 else if x <? y then -1 else current_loop v1 v2
  | _, _ => 0
  end.

Definition currentCompare (vc1 vc2 : vc) : option Z :=
  if negb (Nat.eqb (vc_size vc1) (vc_size vc2)) then None
  else Some (current_loop (vector vc1) (vector vc2)).

(** ** Change of value *)

Definition changevalue_prepare (fuel : nat) : cmd rvector :=
  tname <- arg 1 ;;
  tree <- getInnerHT tname RW_TREE_SUFFIX false ;;
  match tree with
  | None => addReply R_emptymultibulk ;; creturn
  | Some _ =>
      u <- arg 2 ;;
      b <- istreeMember fuel tname u ;;
      if negb b then addReply R_ele_nexist ;; creturn
      else
        tn <- rtnHTGet tname (Some u) false ;;
        tn <- deref tn ;;
        n <- read_rtn tn ;;
        s <- deref (nowVC (vectorClock n)) ;;
        ADD_CR_NON_RMV (RARGV_ADD_SDS RVCT_PREPARE s) (header n)
  end.

Definition changevalue_apply (tn : eref) (r vc_changeval : vc) : cmd unit :=
  n <- read_rtn tn ;;
  if updateCheck (header n) r then
    c <- deref (currentCompare (vectorClock n) vc_changeval) ;;
    if c <? 0 then
      v <- rarg 3 ;;
      update_rtn tn (fun n => set_name n (Some (sdsdup v)))
    else
      b <- deref (causally_ready (vectorClock n) vc_changeval) ;;
      if b then
        v <- rarg 3 ;;
        update_rtn tn (fun n => set_name n (Some (sdsdup v)))
      else ret tt
  else ret tt.

Definition changevalue_effect : cmd unit :=
  r <- CR_GET_LAST ;;
  vc_changeval <- CR_GET 4 ;;
  tname <- rarg 1 ;;
  u <- rarg 2 ;;
  tn <- rtnHTGet tname (Some u) true ;;
  tn <- deref tn ;;
  tRemFunc tn r ;;
  changevalue_apply tn r vc_changeval ;;
  modify inc_dirty ;;
  update_rtn tn (fun n => set_vectorClock n (updateVC (vectorClock n) vc_changeval)).

Definition ChangeValueCommand (fuel : nat) : cmd unit := CRDT (changevalue_prepare fuel) changevalue_effect.

(** ** Move *)

Definition move_prepare (fuel : nat) : cmd rvector :=
  tname <- arg 1 ;;
  tree <- getInnerHT tname RW_TREE_SUFFIX false ;;
  match tree with
  | None => addReply R_emptymultibulk ;; creturn
  | Some _ =>
      dst <- arg 2 ;;
      b <- istreeMember fuel tname dst ;;
      if negb b then addReply R_ele_nexist ;; creturn
      else
        src <- arg 3 ;;
        b <- istreeMember fuel tname src ;;
        if negb b then addReply R_ele_nexist ;; creturn
        else
          src_st <- subTree fuel tname src ;;
          if setTypeIsMember src_st dst then addReply R_err ;; creturn
          else
            tn_dst <- rtnHTGet tname (Some dst) false ;;
            tn_src <- rtnHTGet tname (Some src) false ;;
            tn_src <- deref tn_src ;;
            ns <- read_rtn tn_src ;;
            s <- deref (nowVC (moveVC ns)) ;;
            tn_dst <- deref tn_dst ;;
            nd <- read_rtn tn_dst ;;
            rv <- ADD_CR_NON_RMV (RARGV_ADD_SDS RVCT_PREPARE s) (header nd) ;;
            ADD_CR_NON_RMV rv (header ns)
  end.

(** Detach the node from its parent [tmp] and attach it to [dst]. *)
Definition reattach (tname : sds) (tn_src tn_dst : eref) (tmp dst : sds) (create : bool) : cmd unit :=
  tn_p <- rtnHTGet tname (Some tmp) create ;;
  (match tn_p with
   | Some tn_p => n <- read_rtn tn_src ;; children_remove tn_p (uid n)
   | None => ret tt
   end) ;;
  n <- read_rtn tn_src ;;
  children_add tn_dst (uid n) ;;
  update_rtn tn_src (fun n => set_parent n (Some (sdsnew dst))).

Definition move_apply (tname : sds) (tn_src tn_dst : eref) (dst : sds) (r_src move_vc : vc) : cmd unit :=
  n <- read_rtn tn_src ;;
  if updateCheck (header n) r_src then
    c <- deref (checkCurrency (moveVC n) move_vc) ;;
    if c then
      let tmp := sdsnew_ptr (parent n) in
      if 0 <? sdscmp tmp dst then reattach tname tn_src tn_dst tmp dst false else ret tt
    else
      b <- deref (causally_ready (moveVC n) move_vc) ;;
      if b then reattach tname tn_src tn_dst (sdsnew_ptr (parent n)) dst true else ret tt
  else ret tt.

Definition move_effect : cmd unit :=
  r_src <- CR_GET_LAST ;;
  r_dst <- CR_GET 5 ;;
  move_vc <- CR_GET 4 ;;
  tname <- rarg 1 ;;
  dst <- rarg 2 ;;
  src <- rarg 3 ;;
  tn_dst <- rtnHTGet tname (Some dst) true ;;
  tn_dst <- deref tn_dst ;;
  tn_src <- rtnHTGet tname (Some src) true ;;
  tn_src <- deref tn_src ;;
  tRemFunc tn_dst r_dst ;;
  tRemFunc tn_src r_src ;;
  move_apply tname tn_src tn_dst dst r_src move_vc ;;
  update_rtn tn_src (fun n => set_moveVC n (updateVC (moveVC n) move_vc)).

Definition MoveCommand (fuel : nat) : cmd unit := CRDT (move_prepare fuel) move_effect.

(** ** Overhead *)

Definition treeOverhead (fuel : nat) : cmd unit := fn (
  tname <- arg 1 ;;
  tree <- subTree fuel tname (sdsnew ROOT_ID) ;;
  let keySize := Z.of_nat (setTypeSize tree) in
  if keySize =? 0 then addReply R_czero ;; creturn
  else
    cnt <- gets (fun w => ovhd_cnt (srv w)) ;;
    addReply (R_longlong (Z.quot cnt keySize))).
End Tree.
