(* ===== verification/RWTreeRep.v ===== *)
(** * The node table of the remove-win tree

    An abstract description of a tree: the table that maps every node id to its
    node.  Each effect of [t_rwtree.c] is a function on the table; this file
    shows that the handlers compute it on the key space, never abort, and keep
    the table well formed. *)
From Stdlib Require Import ZArith Lia Ascii String.
From stdpp Require Import functions base numbers strings gmap sets list.
From S2P Require Import Prelude Sds VectorClock LamportClock Intset SetType Server RWFramework Container RWSet Stamps RWTree.
Open Scope Z_scope.

(** The children of a node, as a set. *)
Definition kids (n : rtn) : gset sds := set_members (children n).

Definition add_child (u : sds) (n : rtn) : rtn := set_children n (SHT ({[u]} ∪ kids n)).
Definition drop_child (u : sds) (n : rtn) : rtn := set_children n (SHT (kids n ∖ {[u]})).

(** A node table, and the change of one entry. *)
Abbreviation table := (sds -> rtn).
Definition upd (x : sds) (g : rtn -> rtn) (f : table) : table := <[x := g (f x)]> f.

Lemma upd_eq x g f : upd x g f x = g (f x).
Proof. apply fn_lookup_insert. Qed.
Lemma upd_ne x y g f : y <> x -> upd x g f y = f y.
Proof. intros. by apply fn_lookup_insert_ne. Qed.

(** A projection that [g] keeps is the same everywhere. *)
Lemma upd_proj {A} (pr : rtn -> A) x g f y :
  (forall n, pr (g n) = pr n) -> pr (upd x g f y) = pr (f y).
Proof.
  intros Hg. destruct (decide (y = x)) as [->|Hne]; [by rewrite upd_eq, Hg|by rewrite upd_ne].
Qed.

(** ** The effects on the table *)

(** [tRemFunc]. *)
Definition t_rem (f : table) (x : sds) (t : vc) : table :=
  match removeCheck (header (f x)) t with
  | Some true =>
      let p := sdsnew_ptr (parent (f x)) in
      let f := upd x (fun n => set_header n (REH_RMV_FUNC (header n) t)) f in
      let f := match uid (f x) with Some u => upd p (drop_child u) f | None => f end in
      upd x (fun n => set_parent n (Some "none"%string)) f
  | _ => f
  end.

Definition t_create (f : table) (me : Z) : table :=
  upd ROOT_ID (fun n => mkRtn (mkReh me (current (header n))) (vectorClock n) (moveVC n)
                          (Some ROOT_ID) (Some TREE_ROOT) (Some "null"%string) (children n)) f.

Definition t_attach (f : table) (nm p u : sds) : table :=
  let f := upd u (fun n => set_parent (set_uid n (Some u)) (Some p)) f in
  let f := if checkInitVC (vectorClock (f u)) then upd u (fun n => set_name n (Some nm)) f else f in
  upd p (add_child u) f.

Definition t_insert (f : table) (nm p u : sds) (r_p r : vc) : table :=
  let f := t_rem (t_rem (t_attach f nm p u) p r_p) u r in
  if insertCheck (header (f u)) r
  then upd u (fun n => set_header n (mkReh (vc_id r) (current (header n)))) f else f.

(** A change of value wins when its clock is larger, in the order of
    [currentCompare], or is the next event. *)
Definition value_wins (c t : vc) : bool :=
  (default 0 (currentCompare c t) <? 0) || default false (causally_ready c t).

Definition t_change (f : table) (u v : sds) (t r : vc) : table :=
  let f := t_rem f u r in
  let f := if updateCheck (header (f u)) r && value_wins (vectorClock (f u)) t
           then upd u (fun n => set_name n (Some v)) f else f in
  upd u (fun n => set_vectorClock n (updateVC (vectorClock n) t)) f.

(** A move wins when it is concurrent with the last one and its target is the
    smaller id, or when it is the next event. *)
Definition move_wins (n : rtn) (dst : sds) (t : vc) : bool :=
  if default false (checkCurrency (moveVC n) t)
  then 0 <? sdscmp (sdsnew_ptr (parent n)) dst
  else default false (causally_ready (moveVC n) t).

Definition t_reattach (f : table) (src dst : sds) : table :=
  let f := upd (sdsnew_ptr (parent (f src))) (drop_child src) f in
  let f := upd dst (add_child src) f in
  upd src (fun n => set_parent n (Some dst)) f.

Definition t_move (f : table) (dst src : sds) (t r_dst r_src : vc) : table :=
  let f := t_rem (t_rem f dst r_dst) src r_src in
  let f := if updateCheck (header (f src)) r_src && move_wins (f src) dst t
           then t_reattach f src dst else f in
  upd src (fun n => set_moveVC n (updateVC (moveVC n) t)) f.

(** ** Well-formed tables

    An inserted node knows its id; a node that is not inserted hangs nowhere;
    the ids [""] and ["none"], which stand for no parent, have no children; a
    node that exists has a parent. *)
Record nodes_ok (f : table) : Prop := {
  no_uid x : uid (f x) = None \/ uid (f x) = Some x;
  no_free x : uid (f x) = None -> parent (f x) = None \/ parent (f x) = Some "none"%string;
  no_empty : kids (f EmptyString) = ∅;
  no_none : kids (f "none"%string) = ∅;
  no_parent x : EXISTS (header (f x)) = true -> is_Some (parent (f x))
}.

(** The ids a client may use for a parent. *)
Definition parent_id (p : sds) : Prop := nul_free p /\ p <> EmptyString /\ p <> "none"%string.

(** A node's parent, when it has no id, has no children. *)
Lemma nodes_ok_free f x :
  nodes_ok f -> uid (f x) = None -> kids (f (sdsnew_ptr (parent (f x)))) = ∅.
Proof.
  intros Hn Hu. destruct (no_free _ Hn x Hu) as [-> | ->]; [apply no_empty, Hn|apply no_none, Hn].
Qed.

(** Changes that touch neither ids nor headers nor parents, and add no child to
    a reserved id. *)
Lemma nodes_ok_upd f x g :
  nodes_ok f -> (forall n, uid (g n) = uid n) -> (forall n, header (g n) = header n) ->
  (forall n, parent (g n) = parent n) ->
  (forall n, kids n = ∅ -> kids (g n) = ∅) -> nodes_ok (upd x g f).
Proof.
  intros Hn H1 H2 H3 H4. split.
  - intros y. rewrite (upd_proj uid) by done. apply Hn.
  - intros y. rewrite (upd_proj uid), (upd_proj parent) by done. apply Hn.
  - destruct (decide (EmptyString = x)) as [<-|Hne]; [rewrite upd_eq; apply H4, Hn|rewrite upd_ne by done; apply Hn].
  - destruct (decide ("none"%string = x)) as [<-|Hne]; [rewrite upd_eq; apply H4, Hn|rewrite upd_ne by done; apply Hn].
  - intros y. rewrite (upd_proj header), (upd_proj parent) by done. apply Hn.
Qed.

(** Changing one node in a way that keeps it well formed. *)
Lemma nodes_ok_upd1 f x g :
  nodes_ok f -> kids (g (f x)) = kids (f x) ->
  (uid (g (f x)) = None \/ uid (g (f x)) = Some x) ->
  (uid (g (f x)) = None -> parent (g (f x)) = None \/ parent (g (f x)) = Some "none"%string) ->
  (EXISTS (header (g (f x))) = true -> is_Some (parent (g (f x)))) ->
  nodes_ok (upd x g f).
Proof.
  intros Hn Hk H1 H2 H3.
  assert (forall y, kids (upd x g f y) = kids (f y)) as Hkids.
  { intros y. destruct (decide (y = x)) as [->|]; [by rewrite upd_eq|by rewrite upd_ne]. }
  split; [| |rewrite Hkids; apply Hn..|].
  all: intros y; destruct (decide (y = x)) as [->|Hne];
    [rewrite upd_eq; done|rewrite upd_ne by done; apply Hn].
Qed.

Lemma EXISTS_removed h t : EXISTS (REH_RMV_FUNC h t) = false.
Proof. done. Qed.

Lemma t_rem_ok f x t : nodes_ok f -> nodes_ok (t_rem f x t).
Proof.
  intros Hn. unfold t_rem. destruct (removeCheck _ _) as [[]|]; [|done..]. cbn zeta.
  set (f1 := upd x _ f).
  assert (nodes_ok f1) as Hn1.
  { apply nodes_ok_upd1; [done|done|apply Hn|apply Hn|]. cbn. done. }
  set (f2 := match uid (f1 x) with Some _ => _ | None => _ end).
  assert (nodes_ok f2 /\ header (f2 x) = header (f1 x)) as [Hn2 Hh2].
  { unfold f2. destruct (uid (f1 x)); [|done]. split; [|by apply upd_proj].
    apply nodes_ok_upd; [done..|]. intros n Hk. unfold drop_child, kids. cbn. fold (kids n). set_solver. }
  apply nodes_ok_upd1; [done|done|apply Hn2|by right|]. cbn. rewrite Hh2. unfold f1. by rewrite upd_eq.
Qed.

Lemma add_child_ok f p u : nodes_ok f -> parent_id p -> nodes_ok (upd p (add_child u) f).
Proof.
  intros Hn (_ & H1 & H2). split.
  - intros y. rewrite (upd_proj uid) by done. apply Hn.
  - intros y. rewrite (upd_proj uid), (upd_proj parent) by done. apply Hn.
  - rewrite upd_ne by done. apply Hn.
  - rewrite upd_ne by done. apply Hn.
  - intros y. rewrite (upd_proj header), (upd_proj parent) by done. apply Hn.
Qed.

Lemma t_create_ok f me : nodes_ok f -> nodes_ok (t_create f me).
Proof. intros Hn. apply nodes_ok_upd1; [done|done|by right|done|]. by eexists. Qed.

Lemma t_attach_ok f nm p u : nodes_ok f -> parent_id p -> nodes_ok (t_attach f nm p u).
Proof.
  intros Hn Hp. unfold t_attach. cbn zeta. apply add_child_ok; [|done].
  assert (nodes_ok (upd u (fun n => set_parent (set_uid n (Some u)) (Some p)) f)).
  { apply nodes_ok_upd1; [done|done|by right|done|by eexists]. }
  case_match; [|done]. by apply nodes_ok_upd.
Qed.

(** What a removal keeps. *)
Lemma t_rem_uid f x t y : uid (t_rem f x t y) = uid (f y).
Proof.
  unfold t_rem. destruct (removeCheck _ _) as [[]|]; [|done..]. cbn zeta.
  rewrite (upd_proj uid) by done. case_match; rewrite !(upd_proj uid) by done; done.
Qed.

Lemma t_rem_parent f x t y : is_Some (parent (f y)) -> is_Some (parent (t_rem f x t y)).
Proof.
  intros Hp. unfold t_rem. destruct (removeCheck _ _) as [[]|]; [|done..]. cbn zeta.
  destruct (decide (y = x)) as [->|Hne]; [rewrite upd_eq; by eexists|]. rewrite upd_ne by done.
  case_match; rewrite !(upd_proj parent) by done; done.
Qed.

Lemma t_insert_ok f nm p u r_p r : nodes_ok f -> parent_id p -> nodes_ok (t_insert f nm p u r_p r).
Proof.
  intros Hn Hp. unfold t_insert. cbn zeta. set (f1 := t_rem _ u r).
  assert (nodes_ok f1) as Hn1 by (by apply t_rem_ok, t_rem_ok, t_attach_ok).
  case_match; [|done]. apply nodes_ok_upd1; [done|done|apply Hn1|apply Hn1|]. intros _. cbn.
  apply t_rem_parent, t_rem_parent. unfold t_attach. cbn zeta. rewrite (upd_proj parent) by done.
  case_match; rewrite ?(upd_proj parent _ (fun n => set_name n _)) by done; rewrite upd_eq; by eexists.
Qed.

Lemma t_change_ok f u v t r : nodes_ok f -> nodes_ok (t_change f u v t r).
Proof.
  intros Hn. unfold t_change. cbn zeta. apply nodes_ok_upd; [|done..].
  case_match; [apply nodes_ok_upd; [|done..]|]; by apply t_rem_ok.
Qed.

Lemma t_reattach_ok f src dst :
  nodes_ok f -> parent_id dst -> uid (f src) = Some src -> nodes_ok (t_reattach f src dst).
Proof.
  intros Hn Hd Hu. unfold t_reattach. cbn zeta. set (f1 := upd _ (drop_child src) f).
  assert (nodes_ok f1) as Hn1.
  { apply nodes_ok_upd; [done..|]. intros n Hk. unfold drop_child, kids. cbn. fold (kids n). set_solver. }
  assert (uid (upd dst (add_child src) f1 src) = Some src) as Hu2.
  { rewrite (upd_proj uid) by done. unfold f1. by rewrite (upd_proj uid). }
  apply nodes_ok_upd1; cbn; rewrite ?Hu2; [by apply add_child_ok|done|by right|done|by eexists].
Qed.

Lemma t_move_ok f dst src t r_dst r_src :
  nodes_ok f -> parent_id dst -> uid (f src) = Some src -> nodes_ok (t_move f dst src t r_dst r_src).
Proof.
  intros Hn Hd Hu. unfold t_move. cbn zeta. apply nodes_ok_upd; [|done..].
  case_match; [|by apply t_rem_ok, t_rem_ok].
  apply t_reattach_ok; [by apply t_rem_ok, t_rem_ok|done|by rewrite !t_rem_uid].
Qed.

(** ** Headers

    On the headers the effects are those of the framework. *)
Definition headers (f : table) : sds -> reh := fun x => header (f x).

Lemma t_rem_header f x t y : headers (t_rem f x t) y = hdr_step (headers f) (x, RRem t) y.
Proof.
  unfold t_rem, hdr_step, headers. cbn [fst snd rw_effect]. unfold rem_effect.
  destruct (removeCheck (header (f x)) t) as [[]|].
  - cbn zeta. rewrite (upd_proj header) by done.
    assert (forall y, header (upd x (fun n => set_header n (REH_RMV_FUNC (header n) t)) f y) =
      <[x := REH_RMV_FUNC (header (f x)) t]> (fun z => header (f z)) y) as Hu.
    { intros z. destruct (decide (z = x)) as [->|]; [by rewrite upd_eq, fn_lookup_insert|].
      by rewrite upd_ne, fn_lookup_insert_ne. }
    case_match; [rewrite (upd_proj header) by done|]; apply Hu.
  - destruct (decide (y = x)) as [->|]; [by rewrite fn_lookup_insert|by rewrite fn_lookup_insert_ne].
  - destruct (decide (y = x)) as [->|]; [by rewrite fn_lookup_insert|by rewrite fn_lookup_insert_ne].
Qed.

Lemma hdr_run_ext ops f g y : (forall x, f x = g x) -> hdr_run f ops y = hdr_run g ops y.
Proof.
  revert f g. induction ops as [|[x o] ops IH]; intros f g Hfg; cbn; [done|]. apply IH. intros z.
  unfold hdr_step. cbn [fst snd]. rewrite Hfg.
  destruct (decide (z = x)) as [->|]; [by rewrite !fn_lookup_insert|by rewrite !fn_lookup_insert_ne].
Qed.

Lemma headers_upd f x g y : (forall n, header (g n) = header n) -> headers (upd x g f) y = headers f y.
Proof. intros. by apply upd_proj. Qed.

Lemma t_attach_header f nm p u y : headers (t_attach f nm p u) y = headers f y.
Proof.
  unfold t_attach. cbn zeta. rewrite headers_upd by done. case_match; by rewrite !headers_upd.
Qed.

Lemma t_rem2_header f x t x' t' y :
  headers (t_rem (t_rem f x t) x' t') y = hdr_run (headers f) [(x, RRem t); (x', RRem t')] y.
Proof.
  rewrite t_rem_header. cbn.
  apply (hdr_run_ext [(x', RRem t')] (headers (t_rem f x t))). intros z. apply t_rem_header.
Qed.

Lemma t_insert_header f nm p u r_p r y :
  headers (t_insert f nm p u r_p r) y = hdr_run (headers f) [(p, RRem r_p); (u, RAdd r)] y.
Proof.
  set (g := t_rem (t_rem (t_attach f nm p u) p r_p) u r).
  set (h := hdr_step (headers f) (p, RRem r_p)).
  assert (forall z, headers g z = hdr_step h (u, RRem r) z) as Hg.
  { intros z. unfold g. rewrite t_rem2_header.
    apply (hdr_run_ext [(p, RRem r_p); (u, RRem r)] _ (headers f)), t_attach_header. }
  assert (header (g u) = rem_effect (h u) r) as Hu.
  { specialize (Hg u). unfold headers in Hg. rewrite Hg. unfold hdr_step. cbn. by rewrite fn_lookup_insert. }
  cbn [hdr_run foldl]. fold h. unfold hdr_step at 1. cbn [fst snd rw_effect]. unfold add_effect. cbn zeta.
  unfold t_insert. cbn zeta. fold g. rewrite Hu.
  destruct (insertCheck (rem_effect (h u) r) r); destruct (decide (y = u)) as [->|Hne].
  all: rewrite ?fn_lookup_insert, ?fn_lookup_insert_ne by done.
  - unfold headers. rewrite upd_eq. cbn. by rewrite Hu.
  - unfold headers. rewrite upd_ne by done. specialize (Hg y). unfold headers in Hg. rewrite Hg.
    unfold hdr_step. cbn. by rewrite fn_lookup_insert_ne.
  - exact Hu.
  - rewrite Hg. unfold hdr_step. cbn. by rewrite fn_lookup_insert_ne.
Qed.

Lemma t_change_header f u v t r y :
  headers (t_change f u v t r) y = hdr_run (headers f) [(u, RRem r)] y.
Proof.
  unfold t_change. cbn zeta. rewrite headers_upd by done.
  case_match; rewrite ?headers_upd by done; apply t_rem_header.
Qed.

Lemma t_reattach_header f src dst y : headers (t_reattach f src dst) y = headers f y.
Proof. unfold t_reattach. cbn zeta. by rewrite !headers_upd. Qed.

Lemma t_move_header f dst src t r_dst r_src y :
  headers (t_move f dst src t r_dst r_src) y =
  hdr_run (headers f) [(dst, RRem r_dst); (src, RRem r_src)] y.
Proof.
  unfold t_move. cbn zeta. rewrite headers_upd by done.
  case_match; rewrite ?t_reattach_header; apply t_rem2_header.
Qed.

Lemma t_create_header f me y : y <> ROOT_ID -> headers (t_create f me) y = headers f y.
Proof. intros. unfold headers, t_create. by rewrite upd_ne. Qed.

(** ** Refinement *)

Abbreviation tframe := (frame (E := rtn)).
Abbreviation thas := (has (E := rtn)).
Abbreviation tht := (htname (E := rtn)).

(** The key space holds the table [f] for the tree [k]. *)
Definition tree (w : world) (k : sds) (f : table) : Prop := exists V : gset sds, rep w k f V.

Lemma tree_ext w k f g : (forall x, f x = g x) -> tree w k f -> tree w k g.
Proof. intros Hfg (V & Hr). exists V. by eapply rep_ext. Qed.

Lemma tree_config w w' k f :
  db (srv w') = db (srv w) -> same_config (srv w) (srv w') -> tree w k f -> tree w' k f.
Proof. intros Hdb Hc (V & Hr). exists V. by eapply rep_config. Qed.

Lemma tree_ok w k f x : tree w k f -> rtn_ok (srv w) (f x).
Proof. intros (V & Hr). exact (rep_el_ok _ _ _ _ x Hr). Qed.

Lemma rtnHTGet_true w k f key :
  tree w k f ->
  exists w', rtnHTGet k key true w = Done (Some (tht k, sdsnew_ptr key)) w' /\
    tree w' k f /\ tframe k w w' /\ thas w' k (sdsnew_ptr key).
Proof.
  intros (V & Hr). destruct (elHTGet_true w k f V (sdsnew_ptr key) Hr) as (w' & Hw' & Hr' & Hf' & Hx).
  exists w'. split_and!; [exact Hw'|by exists V|done..].
Qed.

Lemma rtnHTGet_false w k f key :
  tree w k f ->
  (rtnHTGet k key false w = Done (Some (tht k, sdsnew_ptr key)) w /\ thas w k (sdsnew_ptr key)) \/
  (rtnHTGet k key false w = Done None w /\ f (sdsnew_ptr key) = rtn_new (srv w)).
Proof. intros (V & Hr). exact (elHTGet_false w k f V (sdsnew_ptr key) Hr). Qed.

Lemma read_rtn_tree w k f x : tree w k f -> thas w k x -> read_rtn (tht k, x) w = Done (f x) w.
Proof. intros (V & Hr). by apply read_el_rep with V. Qed.

Lemma write_rtn_tree w k f x n :
  tree w k f -> thas w k x -> rtn_ok (srv w) n ->
  exists w', write_rtn (tht k, x) n w = Done tt w' /\ tree w' k (<[x := n]> f) /\ tframe k w w'.
Proof.
  intros (V & Hr) Hx Hn. destruct (write_el_rep w k f V x n Hr Hx Hn) as (w' & Hw' & Hr' & Hf').
  exists w'. split_and!; [done|by exists V|done].
Qed.

Lemma update_rtn_tree w k f x g :
  tree w k f -> thas w k x -> (rtn_ok (srv w) (f x) -> rtn_ok (srv w) (g (f x))) ->
  exists w', update_rtn (tht k, x) g w = Done tt w' /\ tree w' k (upd x g f) /\ tframe k w w'.
Proof.
  intros Ht Hx Hg. unfold update_rtn. step_with (read_rtn_tree _ _ _ _ Ht Hx).
  apply write_rtn_tree; [done..|]. by apply Hg, tree_ok with k.
Qed.

(** Run one update of a node that keeps it valid. *)
Tactic Notation "t_update" constr(Ht) constr(Hx) "as" ident(w') ident(Hw') ident(Ht') ident(Hf') :=
  edestruct update_rtn_tree as (w' & Hw' & Ht' & Hf');
    [exact Ht|exact Hx| |rewrite (bind_done _ _ _ _ _ Hw'); cbv beta]; [done|].

Section Refine.
Context `{DictOrder}.

Lemma children_remove_tree w k f x u :
  tree w k f -> thas w k x ->
  exists w', children_remove (tht k, x) (Some u) w = Done tt w' /\
    tree w' k (upd x (drop_child u) f) /\ tframe k w w'.
Proof.
  intros Ht Hx. unfold children_remove. step_with (read_rtn_tree _ _ _ _ Ht Hx).
  pose proof (tree_ok _ _ _ x Ht) as Hok. destruct Hok as (H1 & H2 & H3 & d & Hd).
  assert (set_children (f x) (setTypeRemove (children (f x)) u).1 = drop_child u (f x)) as ->.
  { unfold drop_child, kids. f_equal. rewrite Hd. cbn. unfold dictDelete.
    destruct (decide (u ∈ d)); [done|]. cbn. f_equal. set_solver. }
  apply write_rtn_tree; [done..|]. unfold drop_child. split_and!; [done..|]. by eexists.
Qed.

Lemma children_add_tree w k f x u :
  tree w k f -> thas w k x ->
  exists w', children_add (tht k, x) (Some u) w = Done tt w' /\
    tree w' k (upd x (add_child u) f) /\ tframe k w w'.
Proof.
  intros Ht Hx. unfold children_add. step_with (read_rtn_tree _ _ _ _ Ht Hx).
  step_with (deref_some _ _). unfold bind at 1, gets.
  pose proof (tree_ok _ _ _ x Ht) as Hok. destruct Hok as (H1 & H2 & H3 & d & Hd).
  assert (exists b, setTypeAdd (set_max_intset_entries (srv w)) (children (f x)) u = Some (SHT ({[u]} ∪ d), b))
    as [b Hb].
  { rewrite Hd. cbn. unfold dictAdd, sdsdup. destruct (decide (u ∈ d)); eexists; cbn; [|done].
    do 3 f_equal. set_solver. }
  rewrite Hb. step_with (deref_some _ _). cbn [fst].
  assert (set_children (f x) (SHT ({[u]} ∪ d)) = add_child u (f x)) as ->.
  { unfold add_child, kids. by rewrite Hd. }
  apply write_rtn_tree; [done..|]. unfold add_child. split_and!; [done..|]. by eexists.
Qed.

(** Removing a child without an id from a node without children does nothing. *)
Lemma children_remove_none w k f x :
  tree w k f -> thas w k x -> kids (f x) = ∅ -> children_remove (tht k, x) None w = Done tt w.
Proof.
  intros Ht Hx Hk. unfold children_remove. step_with (read_rtn_tree _ _ _ _ Ht Hx).
  pose proof (tree_ok _ _ _ x Ht) as Hok. destruct Hok as (_ & _ & _ & d & Hd).
  unfold kids in Hk. rewrite Hd in *. cbn in *. by rewrite Hk, size_empty.
Qed.

(** The removal function on the table. *)
Lemma tRemFunc_tree w k f x t l :
  tree w k f -> thas w k x -> nodes_ok f -> ts_ok (srv w) t ->
  rargv (cli w) = Some l -> index l 1 = Some k ->
  exists w', tRemFunc (tht k, x) t w = Done tt w' /\ tree w' k (t_rem f x t) /\ tframe k w w'.
Proof.
  intros Ht Hx Hn Hts Hl Hk. unfold tRemFunc. step_with (read_rtn_tree _ _ _ _ Ht Hx).
  pose proof (tree_ok _ _ _ x Ht) as ((Hs & _) & _).
  assert (vc_size (current (header (f x))) = vc_size t) as Hsz by (destruct Hts; congruence).
  unfold t_rem. destruct (removeCheck (header (f x)) t) as [b|] eqn:Hb;
    [|by rewrite removeCheck_spec in Hb].
  step_with (deref_some _ _). destruct b; [|by exists w].
  step_with (rarg_done _ _ _ _ Hl Hk). cbn zeta.
  destruct (rtnHTGet_true w k f (parent (f x)) Ht) as (w1 & Hw1 & Ht1 & Hf1 & Hp1). step_with Hw1.
  set (f1 := upd x (fun n => set_header n (REH_RMV_FUNC (header n) t)) f).
  assert (thas w1 k x) as Hx1 by (by eapply fr_has).
  destruct (update_rtn_tree w1 k f x (fun n => set_header n (REH_RMV_FUNC (header n) t)) Ht1 Hx1)
    as (w2 & Hw2 & Ht2 & Hf2).
  { intros ((H1 & H2 & H3) & Hr). split; [|exact Hr].
    pose proof (rem_effect_ok (srv w1) (header (f x)) t) as Hre. unfold rem_effect in Hre.
    rewrite Hb in Hre. apply Hre; [done|]. eapply ts_ok_stable, Hts. apply Hf1. }
  fold f1 in Ht2. step_with Hw2.
  assert (thas w2 k x) as Hx2 by (by eapply fr_has).
  assert (thas w2 k (sdsnew_ptr (parent (f x)))) as Hp2 by (by eapply fr_has).
  rewrite bind_assoc. step_with (read_rtn_tree _ _ _ _ Ht2 Hx2).
  assert (exists w3, children_remove (tht k, sdsnew_ptr (parent (f x))) (uid (f1 x)) w2 = Done tt w3 /\
    tree w3 k (match uid (f1 x) with
               | Some u => upd (sdsnew_ptr (parent (f x))) (drop_child u) f1 | None => f1 end) /\
    tframe k w2 w3) as (w3 & Hw3 & Ht3 & Hf3).
  { destruct (uid (f1 x)) as [u|] eqn:Hu; [by apply children_remove_tree|].
    exists w2. split_and!; [|done..]. apply (children_remove_none w2 k f1); [done..|].
    unfold f1 in *. rewrite (upd_proj uid) in Hu by done. rewrite (upd_proj kids) by done.
    by apply nodes_ok_free. }
  step_with Hw3.
  assert (thas w3 k x) as Hx3 by (by eapply fr_has).
  destruct (update_rtn_tree w3 k _ x (fun n => set_parent n (Some "none"%string)) Ht3 Hx3)
    as (w4 & Hw4 & Ht4 & Hf4); [done|].
  exists w4. split_and!; [done..|]. by rewrite Hf1, Hf2, Hf3.
Qed.
(** A change outside the key space. *)
Lemma modify_tree (h : world -> world) w k f :
  db (srv (h w)) = db (srv w) -> same_config (srv w) (srv (h w)) -> cli (h w) = cli w ->
  replicas (srv (h w)) = replicas (srv w) -> p2p_seldb (srv (h w)) = p2p_seldb (srv w) ->
  tree w k f -> tree (h w) k f /\ tframe k w (h w).
Proof. intros ????? Ht. split; [by eapply tree_config|by apply frame_config]. Qed.

Lemma inc_dirty_tree w k f : tree w k f -> tree (inc_dirty w) k f /\ tframe k w (inc_dirty w).
Proof. apply (modify_tree inc_dirty); done. Qed.

Lemma add_ovhd_tree n w k f :
  tree w k f -> tree (add_ovhd_cnt n w) k f /\ tframe k w (add_ovhd_cnt n w).
Proof. apply (modify_tree (add_ovhd_cnt n)); done. Qed.

Lemma upd_upd x g h f y : upd x h (upd x g f) y = upd x (fun n => h (g n)) f y.
Proof.
  destruct (decide (y = x)) as [->|]; [by rewrite !upd_eq|by rewrite !upd_ne].
Qed.

Lemma CreateTree_effect_tree w k f l :
  tree w k f -> rargv (cli w) = Some l -> index l 1 = Some k ->
  exists w', CreateTree_effect w = Done tt w' /\ tree w' k (t_create f (p2p_id (srv w))) /\ tframe k w w'.
Proof.
  intros Ht Hl Hk. unfold CreateTree_effect. cbn zeta. step_with (rarg_done _ _ _ _ Hl Hk).
  destruct (rtnHTGet_true w k f (Some (sdsnew ROOT_ID)) Ht) as (w1 & Hw1 & Ht1 & Hf1 & Hx1).
  step_with Hw1. step_with (deref_some _ _). change (sdsnew_ptr _) with ROOT_ID in *.
  t_update Ht1 Hx1 as w2 Hw2 Ht2 Hf2.
  assert (thas w2 k ROOT_ID) as Hx2 by (by eapply fr_has).
  t_update Ht2 Hx2 as w3 Hw3 Ht3 Hf3.
  assert (thas w3 k ROOT_ID) as Hx3 by (by eapply fr_has).
  t_update Ht3 Hx3 as w4 Hw4 Ht4 Hf4.
  assert (thas w4 k ROOT_ID) as Hx4 by (by eapply fr_has).
  unfold bind at 1, gets.
  t_update Ht4 Hx4 as w5 Hw5 Ht5 Hf5.
  assert (tframe k w w4) as Hf by (by rewrite Hf1, Hf2, Hf3).
  rewrite (sc_id _ _ (fr_config _ _ _ Hf)) in Ht5.
  destruct (inc_dirty_tree w5 k _ Ht5) as [Ht6 Hf6].
  exists (inc_dirty w5). split_and!; [done| |by rewrite Hf, Hf5].
  eapply tree_ext, Ht6. intros y.
  destruct (decide (y = ROOT_ID)) as [->|]; [|unfold t_create; by rewrite !upd_ne].
  unfold t_create. by rewrite !upd_eq.
Qed.
(** Timestamps of other replicas keep the clocks valid. *)
Lemma updateVC_ok s c t : clock_ok s c -> ts_ok s t -> clock_ok s (updateVC c t).
Proof.
  intros (H1 & H2 & H3) (T1 & T2 & T3). unfold clock_ok.
  rewrite updateVC_size, updateVC_id, updateVC_vector by congruence. split_and!; [done..|].
  by apply update_loop_in_int.
Qed.

Lemma insert_attach_tree w k f nm p u l :
  tree w k f -> thas w k u -> thas w k p -> rargv (cli w) = Some l -> index l 2 = Some nm ->
  exists w', insert_attach (tht k, u) (tht k, p) u p w = Done tt w' /\
    tree w' k (t_attach f nm p u) /\ tframe k w w'.
Proof.
  intros Ht Hx Hp Hl Hnm. unfold insert_attach, sdsdup.
  t_update Ht Hx as w1 Hw1 Ht1 Hf1. assert (thas w1 k u) as Hx1 by (by eapply fr_has).
  t_update Ht1 Hx1 as w2 Hw2 Ht2 Hf2. assert (thas w2 k u) as Hx2 by (by eapply fr_has).
  set (f1 := upd u (fun n => set_parent (set_uid n (Some u)) (Some p)) f).
  assert (tree w2 k f1) as Ht2' by (eapply tree_ext, Ht2; intros y; apply upd_upd).
  step_with (read_rtn_tree _ _ _ _ Ht2' Hx2).
  assert (tframe k w w2) as Hfw2 by (by rewrite Hf1).
  set (f2 := if checkInitVC (vectorClock (f1 u)) then upd u (fun n => set_name n (Some nm)) f1 else f1).
  match goal with |- exists w', (bind ?m _) _ = _ /\ _ =>
    assert (exists w3, m w2 = Done tt w3 /\ tree w3 k f2 /\ tframe k w2 w3)
      as (w3 & Hw3 & Ht3 & Hf3) end.
  { unfold f2. destruct (checkInitVC _); [|by exists w2].
    rewrite <- (fr_cli _ _ _ Hfw2) in Hl. step_with (rarg_done _ _ _ _ Hl Hnm). by apply update_rtn_tree. }
  step_with Hw3. assert (tframe k w w3) as Hfw3 by (by rewrite Hfw2).
  destruct (children_add_tree w3 k f2 p u Ht3) as (w4 & Hw4 & Ht4 & Hf4); [by eapply fr_has|].
  exists w4. split_and!; [done..|]. by rewrite Hfw3.
Qed.

Lemma insert_pid_tree w k f u r :
  tree w k f -> thas w k u ->
  exists w', insert_pid (tht k, u) r w = Done tt w' /\
    tree w' k (if insertCheck (header (f u)) r
               then upd u (fun n => set_header n (mkReh (vc_id r) (current (header n)))) f else f) /\
    tframe k w w'.
Proof.
  intros Ht Hx. unfold insert_pid. step_with (read_rtn_tree _ _ _ _ Ht Hx).
  destruct (insertCheck _ _); [|by exists w].
  t_update Ht Hx as w1 Hw1 Ht1 Hf1. destruct (inc_dirty_tree w1 k _ Ht1) as [Ht2 Hf2].
  exists (inc_dirty w1). split_and!; [done|done|by rewrite Hf1].
Qed.

(** [tRemFunc] somewhere in an effect that started in [w]. *)
Lemma tRemFunc_frame w w1 k f x t l :
  tframe k w w1 -> tree w1 k f -> thas w1 k x -> nodes_ok f -> ts_ok (srv w) t ->
  rargv (cli w) = Some l -> index l 1 = Some k ->
  exists w', tRemFunc (tht k, x) t w1 = Done tt w' /\ tree w' k (t_rem f x t) /\ tframe k w w' /\
    tframe k w1 w'.
Proof.
  intros Hf Ht Hx Hn Hts Hl Hk.
  destruct (tRemFunc_tree w1 k f x t l) as (w' & Hw' & Ht' & Hf'); [done..| | |done|].
  - eapply ts_ok_stable, Hts. apply Hf.
  - by rewrite (fr_cli _ _ _ Hf).
  - exists w'. split_and!; [done..|by rewrite Hf|done].
Qed.

Lemma insert_effect_tree w k f c nm p u s_p s r_p r :
  tree w k f -> nodes_ok f -> rargv (cli w) = Some [c; k; nm; p; u; s_p; s] ->
  SdsToVC s_p = Some r_p -> SdsToVC s = Some r -> ts_ok (srv w) r_p -> ts_ok (srv w) r ->
  parent_id p -> nul_free u ->
  exists w', insert_effect w = Done tt w' /\ tree w' k (t_insert f nm p u r_p r) /\ tframe k w w'.
Proof.
  intros Ht Hn Hl Hsp Hs Hrp Hr Hp Hu. unfold insert_effect.
  step_with (CR_GET_done _ _ 5 s_p r_p Hl eq_refl Hsp).
  unfold CR_GET_LAST. rewrite bind_assoc. step_with (rargc_done _ _ Hl).
  step_with (CR_GET_done _ _ 6 s r Hl eq_refl Hs).
  step_with (rarg_done _ _ 1 k Hl eq_refl). step_with (rarg_done _ _ 4 u Hl eq_refl).
  step_with (rarg_done _ _ 3 p Hl eq_refl).
  destruct (rtnHTGet_true w k f (Some u) Ht) as (w1 & Hw1 & Ht1 & Hf1 & Hx1).
  step_with Hw1. step_with (deref_some _ _).
  destruct (rtnHTGet_true w1 k f (Some p) Ht1) as (w2 & Hw2 & Ht2 & Hf2 & Hp2).
  step_with Hw2. step_with (deref_some _ _). cbn [sdsnew_ptr] in *.
  rewrite (sdsnew_nul_free u), (sdsnew_nul_free p) in * by (done || apply Hp).
  assert (thas w2 k u) as Hx2 by (by eapply fr_has). assert (tframe k w w2) as Hfw2 by (by rewrite Hf1).
  destruct (insert_attach_tree w2 k f nm p u [c; k; nm; p; u; s_p; s] Ht2 Hx2 Hp2)
    as (w3 & Hw3 & Ht3 & Hf3); [by rewrite (fr_cli _ _ _ Hfw2)|done|].
  step_with Hw3. assert (tframe k w w3) as Hfw3 by (by rewrite Hfw2).
  destruct (tRemFunc_frame w w3 k _ p r_p [c; k; nm; p; u; s_p; s] Hfw3 Ht3) as (w4 & Hw4 & Ht4 & Hfw4 & Hf4);
    [exact (fr_has _ _ _ Hf3 _ Hp2)|by apply t_attach_ok|done|exact Hl|done|].
  step_with Hw4.
  destruct (tRemFunc_frame w w4 k _ u r [c; k; nm; p; u; s_p; s] Hfw4 Ht4) as (w5 & Hw5 & Ht5 & Hfw5 & Hf5);
    [exact (fr_has _ _ _ Hf4 _ (fr_has _ _ _ Hf3 _ Hx2))|by apply t_rem_ok, t_attach_ok|done|exact Hl|done|].
  step_with Hw5. assert (tframe k w2 w5) as Hf25 by (by rewrite Hf3, Hf4).
  pose proof (fr_has _ _ _ Hf25 _ Hx2 : thas w5 k u) as Hx5.
  destruct (insert_pid_tree w5 k _ u r Ht5 Hx5) as (w6 & Hw6 & Ht6 & Hf6). step_with Hw6.
  assert (thas w6 k u) as Hx6 by (by eapply fr_has).
  step_with (read_rtn_tree _ _ _ _ Ht6 Hx6).
  match goal with |- context [add_ovhd_cnt ?n] => destruct (add_ovhd_tree n w6 k _ Ht6) as [Ht7 Hf7] end.
  eexists. split_and!; [done..|]. by rewrite Hfw5, Hf6.
Qed.
Lemma delete_effect_tree w k f c u s r :
  tree w k f -> nodes_ok f -> rargv (cli w) = Some [c; k; u; s] -> SdsToVC s = Some r ->
  ts_ok (srv w) r -> nul_free u ->
  exists w', delete_effect w = Done tt w' /\ tree w' k (t_rem f u r) /\ tframe k w w'.
Proof.
  intros Ht Hn Hl Hs Hr Hu. unfold delete_effect, CR_GET_LAST. rewrite bind_assoc.
  step_with (rargc_done _ _ Hl). step_with (CR_GET_done _ _ 3 s r Hl eq_refl Hs).
  step_with (rarg_done _ _ 1 k Hl eq_refl). step_with (rarg_done _ _ 2 u Hl eq_refl).
  destruct (rtnHTGet_true w k f (Some u) Ht) as (w1 & Hw1 & Ht1 & Hf1 & Hx1).
  step_with Hw1. step_with (deref_some _ _). cbn [sdsnew_ptr] in *. rewrite (sdsnew_nul_free u) in * by done.
  destruct (tRemFunc_frame w w1 k f u r [c; k; u; s]) as (w2 & Hw2 & Ht2 & Hf2 & _); [done..|].
  by exists w2.
Qed.

(** A timestamp of one of the replicas of this system. *)
Lemma event_size s c t : clock_ok s c -> event_ok s t -> vc_size c = vc_size t.
Proof. intros (H1 & _) ((H2 & _) & _). congruence. Qed.

Lemma causally_ready_some s c t : clock_ok s c -> event_ok s t -> is_Some (causally_ready c t).
Proof.
  intros Hc He. pose proof (event_size _ _ _ Hc He) as Hs. destruct He as [(Ht & _ & Hid) Hlt].
  unfold causally_ready. rewrite Hs, Nat.eqb_refl. cbn [negb]. destruct (negb _); [by eexists|].
  destruct (at_index_some (vector t) (vc_id t)) as [y ->]; [unfold vc_size in *; lia|].
  destruct (at_index_some (vector c) (vc_id t)) as [x ->]; [unfold vc_size in *; lia|]. by eexists.
Qed.

Lemma currentCompare_some s c t : clock_ok s c -> event_ok s t -> is_Some (currentCompare c t).
Proof.
  intros Hc He. unfold currentCompare. rewrite (event_size _ _ _ Hc He), Nat.eqb_refl. by eexists.
Qed.

Lemma checkCurrency_some s c t : clock_ok s c -> event_ok s t -> is_Some (checkCurrency c t).
Proof.
  intros Hc He. unfold checkCurrency. rewrite (event_size _ _ _ Hc He), Nat.eqb_refl. cbn [negb].
  destruct (equalVC c t); [by eexists|]. destruct (currency_loop _ _ _ _). by eexists.
Qed.

Lemma changevalue_apply_tree w k f u v r t l :
  tree w k f -> thas w k u -> event_ok (srv w) t -> rargv (cli w) = Some l -> index l 3 = Some v ->
  exists w', changevalue_apply (tht k, u) r t w = Done tt w' /\
    tree w' k (if updateCheck (header (f u)) r && value_wins (vectorClock (f u)) t
               then upd u (fun n => set_name n (Some v)) f else f) /\ tframe k w w'.
Proof.
  intros Ht Hx He Hl Hv. unfold changevalue_apply. step_with (read_rtn_tree _ _ _ _ Ht Hx).
  destruct (updateCheck _ _); cbn [andb]; [|by exists w].
  pose proof (tree_ok _ _ _ u Ht) as (_ & Hc & _). unfold value_wins.
  destruct (currentCompare_some _ _ _ Hc He) as [c Hcmp]. rewrite Hcmp. step_with (deref_some _ _).
  cbn [default]. unfold id. destruct (c <? 0); cbn [orb].
  { step_with (rarg_done _ _ _ _ Hl Hv). by apply update_rtn_tree. }
  destruct (causally_ready_some _ _ _ Hc He) as [b Hb]. rewrite Hb. step_with (deref_some _ _).
  cbn [default]. unfold id. destruct b; [|by exists w].
  step_with (rarg_done _ _ _ _ Hl Hv). by apply update_rtn_tree.
Qed.

Lemma changevalue_effect_tree w k f c u v s_t s t r :
  tree w k f -> nodes_ok f -> rargv (cli w) = Some [c; k; u; v; s_t; s] ->
  SdsToVC s_t = Some t -> SdsToVC s = Some r -> event_ok (srv w) t -> ts_ok (srv w) r -> nul_free u ->
  exists w', changevalue_effect w = Done tt w' /\ tree w' k (t_change f u v t r) /\ tframe k w w'.
Proof.
  intros Ht Hn Hl Hst Hs Het Hr Hu. unfold changevalue_effect, CR_GET_LAST. rewrite bind_assoc.
  step_with (rargc_done _ _ Hl). step_with (CR_GET_done _ _ 5 s r Hl eq_refl Hs).
  step_with (CR_GET_done _ _ 4 s_t t Hl eq_refl Hst).
  step_with (rarg_done _ _ 1 k Hl eq_refl). step_with (rarg_done _ _ 2 u Hl eq_refl).
  destruct (rtnHTGet_true w k f (Some u) Ht) as (w1 & Hw1 & Ht1 & Hf1 & Hx1).
  step_with Hw1. step_with (deref_some _ _). cbn [sdsnew_ptr] in *. rewrite (sdsnew_nul_free u) in * by done.
  destruct (tRemFunc_frame w w1 k f u r [c; k; u; v; s_t; s]) as (w2 & Hw2 & Ht2 & Hfw2 & Hf2); [done..|].
  step_with Hw2. assert (thas w2 k u) as Hx2 by exact (fr_has _ _ _ Hf2 _ Hx1).
  destruct (changevalue_apply_tree w2 k _ u v r t [c; k; u; v; s_t; s] Ht2 Hx2) as (w3 & Hw3 & Ht3 & Hf3);
    [eapply event_ok_stable, Het; apply Hfw2|by rewrite (fr_cli _ _ _ Hfw2)|done|].
  step_with Hw3. destruct (inc_dirty_tree w3 k _ Ht3) as [Ht4 Hf4]. unfold bind, modify.
  destruct (update_rtn_tree (inc_dirty w3) k _ u
    (fun n => set_vectorClock n (updateVC (vectorClock n) t)) Ht4) as (w5 & Hw5 & Ht5 & Hf5).
  - exact (fr_has _ _ _ Hf4 _ (fr_has _ _ _ Hf3 _ Hx2)).
  - intros (H1 & H2 & H3 & H4). split_and!; [done| |done..]. cbn. apply updateVC_ok; [done|].
    eapply ts_ok_stable; [|apply Het]. etransitivity; [apply Hfw2|]. etransitivity; [apply Hf3|apply Hf4].
  - exists w5. split_and!; [done..|]. by rewrite Hfw2, Hf3, Hf4.
Qed.
(** Dropping a child from a node that was never created changes nothing. *)
Lemma drop_new f x u s : f x = rtn_new s -> forall y, upd x (drop_child u) f y = f y.
Proof.
  intros Hx y. destruct (decide (y = x)) as [->|Hne]; [|by rewrite upd_ne]. rewrite upd_eq, Hx.
  unfold drop_child, rtn_new, set_children. cbn. f_equal. f_equal. set_solver.
Qed.

Lemma upd_ext x g f f' y : (forall z, f z = f' z) -> upd x g f y = upd x g f' y.
Proof.
  intros Hf. destruct (decide (y = x)) as [->|]; [by rewrite !upd_eq, Hf|by rewrite !upd_ne].
Qed.

Lemma reattach_tree w k f src dst create :
  tree w k f -> thas w k src -> thas w k dst -> nul_free dst -> uid (f src) = Some src ->
  exists w', reattach k (tht k, src) (tht k, dst) (sdsnew_ptr (parent (f src))) dst create w = Done tt w' /\
    tree w' k (t_reattach f src dst) /\ tframe k w w'.
Proof.
  intros Ht Hx Hd Hnul Hu. unfold reattach. set (old := sdsnew_ptr (parent (f src))).
  assert (sdsnew_ptr (Some old) = old) as Hold.
  { unfold old. destruct (parent (f src)); [|done]. apply sdsnew_nul_free, nul_free_sdsnew. }
  set (f1 := upd old (drop_child src) f).
  assert (uid (f1 src) = Some src) as Hu1 by (unfold f1; by rewrite (upd_proj uid)).
  match goal with |- exists w', (bind ?m ?j) _ = _ /\ _ =>
    assert (exists w1, bind m j w = (n <- read_rtn (tht k, src) ;; children_add (tht k, dst) (uid n) ;;
      update_rtn (tht k, src) (fun n => set_parent n (Some (sdsnew dst)))) w1 /\
      tree w1 k f1 /\ tframe k w w1) as (w1 & -> & Ht1 & Hf1) end.
  { assert (forall w1, tree w1 k f -> thas w1 k old -> tframe k w w1 -> exists w2,
      (n <- read_rtn (tht k, src) ;; children_remove (tht k, old) (uid n)) w1 = Done tt w2 /\
      tree w2 k f1 /\ tframe k w w2) as Hgo.
    { intros w1 Ht1 Ho1 Hf1. step_with (read_rtn_tree _ _ _ _ Ht1 (fr_has _ _ _ Hf1 _ Hx)). rewrite Hu.
      destruct (children_remove_tree w1 k f old src Ht1 Ho1) as (w2 & Hw2 & Ht2 & Hf2).
      exists w2. split_and!; [done..|by rewrite Hf1]. }
    destruct create.
    - destruct (rtnHTGet_true w k f (Some old) Ht) as (w1 & Hw1 & Ht1 & Hf1 & Ho1). rewrite Hold in *.
      destruct (Hgo w1 Ht1 Ho1 Hf1) as (w2 & Hw2 & Ht2 & Hf2). exists w2. step_with Hw1. by step_with Hw2.
    - destruct (rtnHTGet_false w k f (Some old) Ht) as [[Hw1 Ho1]|[Hw1 Ho1]]; rewrite Hold in *.
      + destruct (Hgo w Ht Ho1) as (w2 & Hw2 & Ht2 & Hf2); [done|].
        exists w2. step_with Hw1. by step_with Hw2.
      + exists w. step_with Hw1. split_and!; [done| |done]. eapply tree_ext, Ht. intros y.
        symmetry. by eapply drop_new. }
  step_with (read_rtn_tree _ _ _ _ Ht1 (fr_has _ _ _ Hf1 _ Hx)). rewrite Hu1.
  destruct (children_add_tree w1 k f1 dst src Ht1 (fr_has _ _ _ Hf1 _ Hd)) as (w2 & Hw2 & Ht2 & Hf2).
  step_with Hw2. rewrite (sdsnew_nul_free dst) by done.
  edestruct update_rtn_tree as (w3 & Hw3 & Ht3 & Hf3);
    [exact Ht2|exact (fr_has _ _ _ Hf2 _ (fr_has _ _ _ Hf1 _ Hx))| |rewrite Hw3]; [done|].
  exists w3. split_and!; [done..|by rewrite Hf1, Hf2].
Qed.

Lemma move_apply_tree w k f src dst r t :
  tree w k f -> thas w k src -> thas w k dst -> nul_free dst -> uid (f src) = Some src ->
  event_ok (srv w) t ->
  exists w', move_apply k (tht k, src) (tht k, dst) dst r t w = Done tt w' /\
    tree w' k (if updateCheck (header (f src)) r && move_wins (f src) dst t
               then t_reattach f src dst else f) /\ tframe k w w'.
Proof.
  intros Ht Hx Hd Hnul Hu He. unfold move_apply. step_with (read_rtn_tree _ _ _ _ Ht Hx).
  destruct (updateCheck _ _); cbn [andb]; [|by exists w].
  pose proof (tree_ok _ _ _ src Ht) as (_ & _ & Hc & _). unfold move_wins.
  destruct (checkCurrency_some _ _ _ Hc He) as [c Hcc]. rewrite Hcc. step_with (deref_some _ _).
  cbn [default]. unfold id. destruct c; cbn zeta.
  - destruct (0 <? _); [by apply reattach_tree|by exists w].
  - destruct (causally_ready_some _ _ _ Hc He) as [b Hb]. rewrite Hb. step_with (deref_some _ _).
    cbn [default]. unfold id. destruct b; [by apply reattach_tree|by exists w].
Qed.

Lemma move_effect_tree w k f c dst src s_t s_d s t r_dst r_src :
  tree w k f -> nodes_ok f -> rargv (cli w) = Some [c; k; dst; src; s_t; s_d; s] ->
  SdsToVC s_t = Some t -> SdsToVC s_d = Some r_dst -> SdsToVC s = Some r_src ->
  event_ok (srv w) t -> ts_ok (srv w) r_dst -> ts_ok (srv w) r_src ->
  nul_free dst -> nul_free src -> uid (f src) = Some src ->
  exists w', move_effect w = Done tt w' /\ tree w' k (t_move f dst src t r_dst r_src) /\ tframe k w w'.
Proof.
  intros Ht Hn Hl Hst Hsd Hs Het Hrd Hrs Hnd Hns Hu. unfold move_effect, CR_GET_LAST. rewrite bind_assoc.
  step_with (rargc_done _ _ Hl). step_with (CR_GET_done _ _ 6 s r_src Hl eq_refl Hs).
  step_with (CR_GET_done _ _ 5 s_d r_dst Hl eq_refl Hsd). step_with (CR_GET_done _ _ 4 s_t t Hl eq_refl Hst).
  step_with (rarg_done _ _ 1 k Hl eq_refl). step_with (rarg_done _ _ 2 dst Hl eq_refl).
  step_with (rarg_done _ _ 3 src Hl eq_refl).
  destruct (rtnHTGet_true w k f (Some dst) Ht) as (w1 & Hw1 & Ht1 & Hf1 & Hd1).
  step_with Hw1. step_with (deref_some _ _).
  destruct (rtnHTGet_true w1 k f (Some src) Ht1) as (w2 & Hw2 & Ht2 & Hf2 & Hs2).
  step_with Hw2. step_with (deref_some _ _). cbn [sdsnew_ptr] in *.
  rewrite (sdsnew_nul_free dst), (sdsnew_nul_free src) in * by done.
  pose proof (fr_has _ _ _ Hf2 _ Hd1) as Hd2. assert (tframe k w w2) as Hfw2 by (by rewrite Hf1).
  destruct (tRemFunc_frame w w2 k f dst r_dst [c; k; dst; src; s_t; s_d; s])
    as (w3 & Hw3 & Ht3 & Hfw3 & Hf3); [done..|]. step_with Hw3.
  destruct (tRemFunc_frame w w3 k _ src r_src [c; k; dst; src; s_t; s_d; s] Hfw3 Ht3)
    as (w4 & Hw4 & Ht4 & Hfw4 & Hf4);
    [exact (fr_has _ _ _ Hf3 _ Hs2)|by apply t_rem_ok|done..|]. step_with Hw4.
  pose proof (fr_has _ _ _ Hf4 _ (fr_has _ _ _ Hf3 _ Hs2)) as Hs4.
  pose proof (fr_has _ _ _ Hf4 _ (fr_has _ _ _ Hf3 _ Hd2)) as Hd4.
  destruct (move_apply_tree w4 k _ src dst r_src t Ht4 Hs4 Hd4 Hnd) as (w5 & Hw5 & Ht5 & Hf5);
    [by rewrite !t_rem_uid|eapply event_ok_stable, Het; apply Hfw4|]. step_with Hw5.
  edestruct (update_rtn_tree w5 k _ src (fun n => set_moveVC n (updateVC (moveVC n) t)) Ht5)
    as (w6 & Hw6 & Ht6 & Hf6).
  - exact (fr_has _ _ _ Hf5 _ Hs4).
  - intros (H1 & H2 & H3 & H4). split_and!; [done..| |done]. cbn. apply updateVC_ok; [done|].
    eapply ts_ok_stable; [|apply Het]. etransitivity; [apply Hfw4|apply Hf5].
  - exists w6. split_and!; [done..|]. by rewrite Hfw4, Hf5.
Qed.
End Refine.

(** ** Reading the table off a state *)

Definition table_of (w : world) (k : sds) : table := fun x =>
  match db (srv w) !! tht k with
  | Some (OHash h) => match h !! x with Some (HRtn n) => n | _ => rtn_new (srv w) end
  | _ => rtn_new (srv w)
  end.

#[global] Instance clock_ok_dec s c : Decision (clock_ok s c).
Proof. unfold clock_ok. apply _. Defined.
#[global] Instance max_ok_dec m : Decision (max_ok m).
Proof. unfold max_ok. apply _. Defined.

Definition node_check (s : server) (v : helem) : bool :=
  match v with
  | HRtn n =>
      bool_decide (clock_ok s (current (header n)) /\ clock_ok s (vectorClock n) /\ clock_ok s (moveVC n)) &&
      match children n with SHT _ => true | SIntset _ => false end
  | _ => false
  end.

(** Whether a state holds a tree under [k]. *)
Definition tree_check (w : world) (k : sds) : bool :=
  bool_decide (db (srv w) !! k = None) && bool_decide (max_ok (set_max_intset_entries (srv w))) &&
  match db (srv w) !! tht k with
  | None => true
  | Some (OHash h) => forallb (fun p => node_check (srv w) p.2) (map_to_list h)
  | _ => false
  end.

Lemma tree_check_sound w k : tree_check w k = true -> tree w k (table_of w k).
Proof.
  unfold tree_check. rewrite !andb_true_iff, !bool_decide_eq_true. intros [[H1 H2] H3]. exists ∅.
  split; [unfold shape_set, shape_obj, set_shape; by rewrite H1| |done]. unfold shape_hash, table_of.
  destruct (db (srv w) !! tht k) as [[| |h| | |]|]; try done. intros x.
  destruct (h !! x) as [v|] eqn:Hx; [|done]. rewrite forallb_forall in H3.
  specialize (H3 (x, v)). cbn in H3. unfold node_check in H3. rewrite <- list_elem_of_In, elem_of_map_to_list in H3.
  specialize (H3 Hx). destruct v as [| | |n| |]; try done. apply andb_true_iff in H3 as [Hc Hk].
  apply bool_decide_eq_true in Hc. split; [done|]. unfold el_ok. cbn. unfold rtn_ok.
  split_and!; try apply Hc. destruct (children n); [done|by eexists].
Qed.

(** The table is determined by the state. *)
Lemma tree_unique w k f x : tree w k f -> f x = table_of w k x.
Proof.
  intros (V & Hr). pose proof (rep_hash _ _ _ _ Hr) as Hh. unfold shape_hash in Hh. unfold table_of.
  destruct (db (srv w) !! tht k) as [[| |h| | |]|]; try done. specialize (Hh x).
  destruct (h !! x) as [v|]; [|done]. by destruct Hh as [-> _].
Qed.
