(* ===== verification/RWTreeConv.v ===== *)
(** * Delivery of the remove-win tree's messages

    The messages the replicas exchange, their effect at a replica, and the
    convergence of the set of existing nodes: replicas that received the same
    messages, in any order and any number of times, agree on which nodes other
    than the root exist, and a removal hides a node from every insertion that had
    not seen it.  On the root they agree while nobody deletes it.  A move must not
    overtake the insertion of its node. *)
From Stdlib Require Import ZArith Lia Ascii String.
From stdpp Require Import functions base numbers strings gmap sets list.
From S2P Require Import Prelude Sds VectorClock LamportClock Intset SetType Server RWFramework Container RWSet Stamps RWTree RWTreeRep.
Open Scope Z_scope.

(** ** Messages *)

Inductive tmsg :=
  | TCreate
  | TInsert (nm p u : sds) (r_p r : vc)
  | TDelete (u : sds) (r : vc)
  | TChange (u v : sds) (t r : vc)
  | TMove (dst src : sds) (t r_dst r_src : vc).

#[global] Instance tmsg_eq_dec : EqDecision tmsg.
Proof. solve_decision. Defined.

Open Scope string_scope.
Definition tm_args (k : sds) (m : tmsg) : list sds :=
  match m with
  | TCreate => ["rwftreecreate"; k]
  | TInsert nm p u r_p r => ["rwftreeinsert"; k; nm; p; u; vcs r_p; vcs r]
  | TDelete u r => ["rwftreedelete"; k; u; vcs r]
  | TChange u v t r => ["rwftreechangevalue"; k; u; v; vcs t; vcs r]
  | TMove dst src t r_dst r_src => ["rwftreemove"; k; dst; src; vcs t; vcs r_dst; vcs r_src]
  end.
Close Scope string_scope.

(** The ids and clocks of a message that a replica of this system sends. *)
Definition tm_wf (s : server) (m : tmsg) : Prop :=
  match m with
  | TCreate => True
  | TInsert nm p u r_p r => parent_id p /\ nul_free u /\ stamp_ok s r_p /\ stamp_ok s r
  | TDelete u r => nul_free u /\ stamp_ok s r
  | TChange u v t r => nul_free u /\ stamp_ok s t /\ stamp_ok s r
  | TMove dst src t r_dst r_src =>
      parent_id dst /\ nul_free src /\ stamp_ok s t /\ stamp_ok s r_dst /\ stamp_ok s r_src
  end.

(** The table after a message, and its operations on the headers. *)
Definition tm_step (me : Z) (f : table) (m : tmsg) : table :=
  match m with
  | TCreate => t_create f me
  | TInsert nm p u r_p r => t_insert f nm p u r_p r
  | TDelete u r => t_rem f u r
  | TChange u v t r => t_change f u v t r
  | TMove dst src t r_dst r_src => t_move f dst src t r_dst r_src
  end.

Definition tm_ops (m : tmsg) : list (sds * rwop) :=
  match m with
  | TCreate => []
  | TInsert nm p u r_p r => [(p, RRem r_p); (u, RAdd r)]
  | TDelete u r | TChange u _ _ r => [(u, RRem r)]
  | TMove dst src t r_dst r_src => [(dst, RRem r_dst); (src, RRem r_src)]
  end.

(** A move needs its node. *)
Definition move_ready (f : table) (m : tmsg) : Prop :=
  match m with TMove _ src _ _ _ => uid (f src) = Some src | _ => True end.

Lemma tm_step_ok s me f m : nodes_ok f -> tm_wf s m -> move_ready f m -> nodes_ok (tm_step me f m).
Proof.
  destruct m; cbn; intros Hn Hwf Hmv.
  - by apply t_create_ok.
  - apply t_insert_ok; [done|apply Hwf].
  - by apply t_rem_ok.
  - by apply t_change_ok.
  - apply t_move_ok; [done|apply Hwf|done].
Qed.

Lemma tm_step_header me f m y :
  y <> ROOT_ID \/ m <> TCreate -> headers (tm_step me f m) y = hdr_run (headers f) (tm_ops m) y.
Proof.
  destruct m; cbn [tm_step tm_ops]; intros Hy.
  - apply t_create_header. by destruct Hy.
  - apply t_insert_header.
  - apply t_rem_header.
  - apply t_change_header.
  - apply t_move_header.
Qed.

(** Ids stay. *)
Lemma t_insert_uid f nm p u r_p r y :
  uid (t_insert f nm p u r_p r y) = if decide (y = u) then Some u else uid (f y).
Proof.
  unfold t_insert. cbn zeta.
  assert (uid (t_rem (t_rem (t_attach f nm p u) p r_p) u r y) = if decide (y = u) then Some u else uid (f y))
    as Hu.
  { rewrite !t_rem_uid. unfold t_attach. cbn zeta. rewrite (upd_proj uid) by done.
    assert (uid (upd u (fun n => set_parent (set_uid n (Some u)) (Some p)) f y) =
      if decide (y = u) then Some u else uid (f y)) as Hv.
    { case_decide; [subst; by rewrite upd_eq|by rewrite upd_ne]. }
    destruct (checkInitVC _); [by rewrite (upd_proj uid)|done]. }
  destruct (insertCheck _ _); [by rewrite (upd_proj uid)|done].
Qed.

Lemma t_reattach_uid f src dst y : uid (t_reattach f src dst y) = uid (f y).
Proof. unfold t_reattach. cbn zeta. by rewrite !(upd_proj uid). Qed.

Lemma tm_step_uid me f m y : uid (f y) = Some y -> uid (tm_step me f m y) = Some y.
Proof.
  intros Hy. destruct m; cbn [tm_step].
  - unfold t_create. destruct (decide (y = ROOT_ID)) as [->|]; [by rewrite upd_eq|by rewrite upd_ne].
  - rewrite t_insert_uid. by case_decide; subst.
  - by rewrite t_rem_uid.
  - unfold t_change. cbn zeta. rewrite (upd_proj uid) by done.
    case_match; rewrite ?(upd_proj uid) by done; by rewrite t_rem_uid.
  - unfold t_move. cbn zeta. rewrite (upd_proj uid) by done.
    case_match; rewrite ?t_reattach_uid; by rewrite !t_rem_uid.
Qed.

(** ** Delivery *)

Section Deliver.
Context `{DictOrder}.

(** A delivered message never runs a prepare phase: the fuel of its loops is
    not used. *)
Definition tm_proc (m : tmsg) : cmd unit :=
  match m with
  | TCreate => CreateTreeCommand
  | TInsert _ _ _ _ _ => InsertWithIdCommand 0
  | TDelete _ _ => DeleteCommand 0
  | TChange _ _ _ _ => ChangeValueCommand 0
  | TMove _ _ _ _ _ => MoveCommand 0
  end.

Definition tm_effect (m : tmsg) : cmd unit :=
  match m with
  | TCreate => CreateTree_effect
  | TInsert _ _ _ _ _ => insert_effect
  | TDelete _ _ => delete_effect
  | TChange _ _ _ _ => changevalue_effect
  | TMove _ _ _ _ _ => move_effect
  end.

Definition tdeliver (k : sds) (w : world) (m : tmsg) : outcome world unit :=
  call 0 (tm_proc m) (delivery w (tm_args k m)).

Fixpoint tdeliver_all (k : sds) (w : world) (ms : list tmsg) : option world :=
  match ms with
  | [] => Some w
  | m :: ms => match tdeliver k w m with Done _ w' => tdeliver_all k w' ms | _ => None end
  end.

(** The effect of a message, wherever it runs. *)
Lemma tm_effect_tree w k f m :
  tree w k f -> nodes_ok f -> rargv (cli w) = Some (tm_args k m) -> tm_wf (srv w) m -> move_ready f m ->
  exists w', tm_effect m w = Done tt w' /\ tree w' k (tm_step (p2p_id (srv w)) f m) /\ tframe k w w'.
Proof.
  intros Ht Hn Hl Hwf Hmv. destruct m; cbn [tm_effect tm_step tm_args tm_wf move_ready] in *.
  - by eapply CreateTree_effect_tree.
  - destruct Hwf as (Hp & Hu & Hrp & Hr). eapply insert_effect_tree; try done.
    all: first [by eapply vcs_parse|apply Hrp|apply Hr].
  - destruct Hwf as (Hu & Hr). eapply delete_effect_tree; try done; [by eapply vcs_parse|apply Hr].
  - destruct Hwf as (Hu & Hst & Hr). eapply changevalue_effect_tree; try done.
    all: first [by eapply vcs_parse|apply Hst|apply Hr].
  - destruct Hwf as (Hd & Hs & Hst & Hrd & Hrs). eapply move_effect_tree; try done.
    all: first [by eapply vcs_parse|apply Hst|apply Hrd|apply Hrs|apply Hd].
Qed.

Lemma tdeliver_tree w k f m :
  tree w k f -> nodes_ok f -> REPLICATION_MODE (srv w) = true -> tm_wf (srv w) m -> move_ready f m ->
  exists w', tdeliver k w m = Done tt w' /\ tree w' k (tm_step (p2p_id (srv w)) f m) /\
    same_config (srv w) (srv w') /\ REPLICATION_MODE (srv w') = true.
Proof.
  intros Ht Hn Hm Hwf Hmv.
  set (w0 := mkWorld (srv w) (mkClient (tm_args k m) (Some (tm_args k m)) true false [])).
  assert (tree w0 k f) as Ht0 by (by eapply tree_config, Ht).
  destruct (tm_effect_tree w0 k f m) as (w1 & Hw1 & Ht1 & Hf1); [done..|].
  assert (exists prep, tm_proc m = CRDT prep (tm_effect m)) as [prep Hproc] by (destruct m; by eexists).
  unfold tdeliver. rewrite Hproc. destruct (delivery_run prep _ w _ k w1 Hm Hw1 Hf1) as (w' & Hw' & Hsrv & Hc & Hm').
  exists w'. split_and!; [done| |done|done]. by eapply tree_config, Ht1; rewrite Hsrv.
Qed.
(** No move comes before its node: [seen] are the ids placed so far. *)
Definition tm_new (m : tmsg) : list sds :=
  match m with TCreate => [ROOT_ID] | TInsert _ _ u _ _ => [u] | _ => [] end.

Fixpoint placed (seen : list sds) (ms : list tmsg) : Prop :=
  match ms with
  | [] => True
  | m :: ms =>
      match m with TMove _ src _ _ _ => src ∈ seen | _ => True end /\ placed (tm_new m ++ seen) ms
  end.

Definition tall_ops (ms : list tmsg) : list (sds * rwop) := ms ≫= tm_ops.

Lemma tm_new_uid me f m x : x ∈ tm_new m -> uid (tm_step me f m x) = Some x.
Proof.
  destruct m; cbn [tm_new tm_step]; intros Hx; try by apply elem_of_nil in Hx.
  - apply list_elem_of_singleton in Hx as ->. unfold t_create. by rewrite upd_eq.
  - apply list_elem_of_singleton in Hx as ->. rewrite t_insert_uid. by rewrite decide_True.
Qed.

Lemma tm_wf_stable s s' m : same_config s s' -> tm_wf s m -> tm_wf s' m.
Proof. intros Hc. destruct m; cbn; try done; intros; destruct_and?; split_and?; eauto using stamp_ok_stable. Qed.

Lemma tdeliver_all_tree w k f ms seen :
  tree w k f -> nodes_ok f -> REPLICATION_MODE (srv w) = true -> Forall (tm_wf (srv w)) ms ->
  (forall x, x ∈ seen -> uid (f x) = Some x) -> placed seen ms ->
  exists w' f', tdeliver_all k w ms = Some w' /\ tree w' k f' /\ nodes_ok f' /\
    f' = foldl (tm_step (p2p_id (srv w))) f ms /\
    (forall y, y <> ROOT_ID -> headers f' y = hdr_run (headers f) (tall_ops ms) y).
Proof.
  revert w f seen. induction ms as [|m ms IH]; intros w f seen Ht Hn Hm Hwf Hseen Hpl; cbn [tdeliver_all].
  { by exists w, f. }
  apply Forall_cons_1 in Hwf as [Hwf Hwfs]. destruct Hpl as [Hmv Hpl].
  assert (move_ready f m) as Hmr by (destruct m; try done; by apply Hseen).
  destruct (tdeliver_tree w k f m Ht Hn Hm Hwf Hmr) as (w1 & -> & Ht1 & Hc1 & Hm1).
  destruct (IH w1 _ (tm_new m ++ seen) Ht1) as (w' & f' & Hw' & Ht' & Hn' & Hfold & Hh'); [|done| | |done|].
  - by eapply tm_step_ok.
  - eapply Forall_impl; [exact Hwfs|]. intros m'. by apply tm_wf_stable.
  - intros x [Hx|Hx]%elem_of_app; [by apply tm_new_uid|]. by apply tm_step_uid, Hseen.
  - exists w', f'. split_and!; [done..|by rewrite Hfold, (sc_id _ _ Hc1)|]. intros y Hy. rewrite Hh', !hdr_run_proj by done.
    rewrite tm_step_header, hdr_run_proj by (by left). unfold tall_ops, rw_run, ops_of. cbn.
    by rewrite filter_app, fmap_app, foldl_app.
Qed.
End Deliver.

(** ** Convergence *)

(** Whether a node exists, as the key space shows it. *)
Definition node_exists (w : world) (k x : sds) : bool :=
  match db (srv w) !! tht k with
  | Some (OHash h) => match h !! x with Some (HRtn n) => EXISTS (header n) | _ => false end
  | _ => false
  end.

Lemma node_exists_tree w k f x : tree w k f -> node_exists w k x = EXISTS (header (f x)).
Proof.
  intros (V & Hr). pose proof (rep_hash _ _ _ _ Hr) as Hh. unfold shape_hash in Hh. unfold node_exists.
  destruct (db (srv w) !! tht k) as [[| |h| | |]|]; try done; specialize (Hh x).
  - destruct (h !! x) as [v|]; [by destruct Hh as [-> _]|]. by rewrite Hh.
  - by rewrite Hh.
Qed.

(** A tree nobody has touched. *)
Lemma untouched_tree w k :
  db (srv w) !! k = None -> db (srv w) !! tht k = None -> max_ok (set_max_intset_entries (srv w)) ->
  tree w k (fun _ => rtn_new (srv w)) /\ nodes_ok (fun _ => rtn_new (srv w)).
Proof.
  intros H1 H2 H3. split.
  - exists ∅. split; [|by unfold shape_hash; rewrite H2|done]. unfold shape_set, shape_obj, set_shape. by rewrite H1.
  - split; try done; auto.
Qed.

Definition tree_untouched (w : world) (k : sds) : Prop :=
  db (srv w) !! k = None /\ db (srv w) !! tht k = None /\ max_ok (set_max_intset_entries (srv w)).

Lemma tm_ops_size s m x o : tm_wf s m -> (x, o) ∈ tm_ops m -> vc_size (op_ts o) = Z.to_nat (p2p_count s).
Proof.
  destruct m; cbn; intros Hwf Hin; unfold stamp_ok, event_ok, ts_ok in Hwf; destruct_and?;
    repeat (apply elem_of_cons in Hin as [[= -> ->]|Hin]; [done|]); by apply elem_of_nil in Hin.
Qed.

Lemma tall_ops_size s ms x :
  Forall (tm_wf s) ms -> ops_size (Z.to_nat (p2p_count s)) (ops_of x (tall_ops ms)).
Proof.
  intros Hwf. apply Forall_forall. intros o Ho. apply ops_of_in in Ho.
  apply list_elem_of_bind in Ho as (m & Hin & Hm). rewrite Forall_forall in Hwf. by eapply tm_ops_size; [apply Hwf|].
Qed.

(** ** The root

    Its creation sets the header without a clock, so its existence follows the
    messages only as long as nobody deletes it: then every message that names the
    root carries its first clock. *)
Definition root_kept (n : nat) (ms : list tmsg) : Prop :=
  forall o, (ROOT_ID, o) ∈ tall_ops ms -> exists r, o = RRem r /\ vector r = replicate n 0.

Lemma rem_seen h r : vector r = vector (current h) -> rem_effect h r = h.
Proof.
  intros Hv. unfold rem_effect. rewrite removeCheck_spec by (unfold vc_size; congruence).
  by rewrite bool_decide_true by (rewrite Hv; apply vle_refl).
Qed.

Lemma rw_run_seen n h ops :
  vector (current h) = replicate n 0 -> (forall o, o ∈ ops -> exists r, o = RRem r /\ vector r = replicate n 0) ->
  rw_run h ops = h.
Proof.
  intros Hv. induction ops as [|o ops IH]; intros Hops; [done|]. cbn. destruct (Hops o) as (r & -> & Hr); [by left|].
  cbn [rw_effect]. rewrite rem_seen by congruence. apply IH. intros o Ho. apply Hops. by right.
Qed.

Lemma root_fold n me f ms :
  0 <= me -> vector (current (header (f ROOT_ID))) = replicate n 0 -> root_kept n ms ->
  EXISTS (header (foldl (tm_step me) f ms ROOT_ID)) = EXISTS (header (f ROOT_ID)) || bool_decide (TCreate ∈ ms).
Proof.
  intros Hme. revert f. induction ms as [|m ms IH]; intros f Hv Hk; cbn [foldl].
  { rewrite bool_decide_false by apply not_elem_of_nil. by rewrite orb_false_r. }
  assert (root_kept n ms) as Hk' by (intros o Ho; apply Hk; unfold tall_ops; cbn; apply elem_of_app; by right).
  destruct (decide (m = TCreate)) as [->|Hm].
  - rewrite IH; [|cbn [tm_step]; unfold t_create; rewrite upd_eq; exact Hv|done].
    cbn [tm_step]. unfold t_create at 1. rewrite upd_eq. unfold EXISTS at 1. cbn [header pid].
    rewrite (proj2 (Z.leb_le 0 me) Hme), (bool_decide_true (TCreate ∈ TCreate :: ms)) by left. by rewrite orb_true_r.
  - assert (headers (tm_step me f m) ROOT_ID = headers f ROOT_ID) as Hh.
    { rewrite tm_step_header by (by right). rewrite hdr_run_proj. apply (rw_run_seen n); [exact Hv|].
      intros o Ho%ops_of_in. apply Hk. unfold tall_ops. cbn. apply elem_of_app. by left. }
    unfold headers in Hh. rewrite IH, Hh by (by rewrite ?Hh). f_equal. apply bool_decide_ext. rewrite elem_of_cons. naive_solver.
Qed.

Section Converge.
Context `{DictOrder}.

(** The header every node has after a history. *)
Lemma tree_history w k ms :
  tree_untouched w k -> REPLICATION_MODE (srv w) = true -> Forall (tm_wf (srv w)) ms -> placed [] ms ->
  exists w', tdeliver_all k w ms = Some w' /\
    forall x, x <> ROOT_ID ->
      node_exists w' k x = EXISTS (rw_run (REH_INIT (srv w)) (ops_of x (tall_ops ms))).
Proof.
  intros (H1 & H2 & H3) Hm Hwf Hpl. destruct (untouched_tree w k H1 H2 H3) as [Ht Hn].
  destruct (tdeliver_all_tree w k _ ms [] Ht Hn Hm Hwf) as (w' & f' & Hw' & Ht' & _ & _ & Hh');
    [by intros x Hx%elem_of_nil|done|].
  exists w'. split; [done|]. intros x Hx. rewrite (node_exists_tree _ _ _ _ Ht').
  change (header (f' x)) with (headers f' x). by rewrite Hh', hdr_run_proj.
Qed.

(** While nobody deletes it the root exists exactly after a creation. *)
Lemma root_history w k ms :
  tree_untouched w k -> REPLICATION_MODE (srv w) = true -> Forall (tm_wf (srv w)) ms -> placed [] ms ->
  0 <= p2p_id (srv w) -> root_kept (Z.to_nat (p2p_count (srv w))) ms ->
  exists w', tdeliver_all k w ms = Some w' /\ node_exists w' k ROOT_ID = bool_decide (TCreate ∈ ms).
Proof.
  intros (H1 & H2 & H3) Hm Hwf Hpl Hid Hk. destruct (untouched_tree w k H1 H2 H3) as [Ht Hn].
  destruct (tdeliver_all_tree w k _ ms [] Ht Hn Hm Hwf) as (w' & f' & Hw' & Ht' & _ & -> & _);
    [by intros x Hx%elem_of_nil|done|].
  exists w'. split; [done|]. rewrite (node_exists_tree _ _ _ _ Ht').
  by rewrite (root_fold (Z.to_nat (p2p_count (srv w)))).
Qed.

Lemma tree_exists_converges w1 w2 k ms1 ms2 :
  tree_untouched w1 k -> tree_untouched w2 k -> p2p_count (srv w2) = p2p_count (srv w1) ->
  REPLICATION_MODE (srv w1) = true -> REPLICATION_MODE (srv w2) = true ->
  Forall (tm_wf (srv w1)) ms1 -> placed [] ms1 -> placed [] ms2 -> (forall m, m ∈ ms1 <-> m ∈ ms2) ->
  exists w1' w2', tdeliver_all k w1 ms1 = Some w1' /\ tdeliver_all k w2 ms2 = Some w2' /\
    forall x, x <> ROOT_ID -> node_exists w1' k x = node_exists w2' k x.
Proof.
  intros Hu1 Hu2 Hc Hm1 Hm2 Hwf1 Hp1 Hp2 Heq.
  assert (Forall (tm_wf (srv w2)) ms2) as Hwf2.
  { apply Forall_forall. intros m Hin. apply Heq in Hin. rewrite Forall_forall in Hwf1.
    specialize (Hwf1 m Hin). unfold tm_wf, stamp_ok, event_ok, ts_ok in *. destruct m; rewrite ?Hc; done. }
  destruct (tree_history w1 k ms1 Hu1 Hm1 Hwf1 Hp1) as (w1' & Hw1 & Hx1).
  destruct (tree_history w2 k ms2 Hu2 Hm2 Hwf2 Hp2) as (w2' & Hw2 & Hx2).
  exists w1', w2'. split_and!; [done..|]. intros x Hx. rewrite Hx1, Hx2 by done. unfold EXISTS.
  destruct (rw_run_converges (Z.to_nat (p2p_count (srv w1))) (REH_INIT (srv w1)) (REH_INIT (srv w2))
    (ops_of x (tall_ops ms1)) (ops_of x (tall_ops ms2))) as [-> _]; [| | | | | |done].
  - apply REH_INIT_fresh.
  - rewrite <- Hc. apply REH_INIT_fresh.
  - unfold REH_INIT, l_newVC, newVC. cbn. by rewrite Hc.
  - by apply tall_ops_size.
  - rewrite <- Hc. by apply tall_ops_size.
  - intros o. rewrite !ops_of_in. unfold tall_ops. rewrite !list_elem_of_bind. by setoid_rewrite Heq.
Qed.

Lemma root_kept_same n ms1 ms2 : (forall m, m ∈ ms1 <-> m ∈ ms2) -> root_kept n ms1 -> root_kept n ms2.
Proof.
  intros Heq Hk o Ho. apply Hk. unfold tall_ops in *. rewrite list_elem_of_bind in *.
  destruct Ho as (m & Hm & Hin). exists m. by rewrite Heq.
Qed.

Lemma root_converges w1 w2 k ms1 ms2 w1' w2' :
  tree_untouched w1 k -> tree_untouched w2 k -> p2p_count (srv w2) = p2p_count (srv w1) ->
  REPLICATION_MODE (srv w1) = true -> REPLICATION_MODE (srv w2) = true ->
  Forall (tm_wf (srv w1)) ms1 -> placed [] ms1 -> placed [] ms2 -> (forall m, m ∈ ms1 <-> m ∈ ms2) ->
  0 <= p2p_id (srv w1) -> 0 <= p2p_id (srv w2) -> root_kept (Z.to_nat (p2p_count (srv w1))) ms1 ->
  tdeliver_all k w1 ms1 = Some w1' -> tdeliver_all k w2 ms2 = Some w2' ->
  node_exists w1' k ROOT_ID = bool_decide (TCreate ∈ ms1) /\ node_exists w2' k ROOT_ID = bool_decide (TCreate ∈ ms1).
Proof.
  intros Hu1 Hu2 Hc Hm1 Hm2 Hwf1 Hp1 Hp2 Heq Hi1 Hi2 Hk Hd1 Hd2.
  destruct (root_history w1 k ms1) as (v1 & Hv1 & H1); [done..|]. destruct (root_history w2 k ms2) as (v2 & Hv2 & H2); try done.
  - apply Forall_forall. intros m Hin. apply Heq in Hin. rewrite Forall_forall in Hwf1.
    specialize (Hwf1 m Hin). unfold tm_wf, stamp_ok, event_ok, ts_ok in *. destruct m; rewrite ?Hc; done.
  - rewrite Hc. by eapply root_kept_same.
  - rewrite Hd1 in Hv1. rewrite Hd2 in Hv2. injection Hv1 as <-. injection Hv2 as <-.
    split; [done|]. rewrite H2. apply bool_decide_ext. by rewrite Heq.
Qed.

(** A removal wins over every insertion that has not seen it. *)
Lemma tree_remove_wins w k ms x r :
  tree_untouched w k -> REPLICATION_MODE (srv w) = true -> Forall (tm_wf (srv w)) ms -> placed [] ms ->
  x <> ROOT_ID -> TDelete x r ∈ ms ->
  (forall nm p r_p t, TInsert nm p x r_p t ∈ ms -> ~ vle (vector r) (vector t)) ->
  exists w', tdeliver_all k w ms = Some w' /\ node_exists w' k x = false.
Proof.
  intros Hu Hm Hwf Hp Hx Hin Hno. destruct (tree_history w k ms Hu Hm Hwf Hp) as (w' & Hw' & Hh).
  exists w'. split; [done|]. rewrite Hh by done.
  apply (rw_run_remove_wins (Z.to_nat (p2p_count (srv w))) _ _ r); [apply REH_INIT_fresh|by apply tall_ops_size| |].
  - apply ops_of_in, list_elem_of_bind. exists (TDelete x r). split; [|done]. by left.
  - intros t Ht. apply ops_of_in, list_elem_of_bind in Ht as (m & Ht & Hmin).
    destruct m as [|nm p u r_p t'|u r'|u v t' r'|dst src t' r1 r2]; cbn in Ht;
      repeat (apply elem_of_cons in Ht as [[= -> ->]|Ht]); try by apply elem_of_nil in Ht.
    by eapply Hno.
Qed.
End Converge.
