(* ===== verification/RWTreeWalk.v ===== *)
(** * Walking the remove-win tree

    [istreeMember] follows parents to the root and [subTree] follows children
    from a node; neither remembers where it has been.  On the node table both
    are plain searches: this file shows what they return, that they end when
    the links they follow have no cycle, with how many iterations, and that
    they run forever on a cycle. *)
From Stdlib Require Import ZArith Lia Ascii String.
From stdpp Require Import functions base numbers strings relations gmap sets list.
From S2P Require Import Prelude Sds VectorClock LamportClock Intset SetType Server RWFramework Container RWSet Stamps RWTree RWTreeRep.
Open Scope Z_scope.

(** The node an id refers to. *)
Definition node (f : table) (x : sds) : rtn := f (sdsnew x).

(** ** Parents *)

Definition parent_step (f : table) (x p : sds) : Prop :=
  x <> ROOT_ID /\ EXISTS (header (node f x)) = true /\ parent (node f x) = Some p.

(** A node is in the tree when it and its ancestors exist, up to the root. *)
Inductive in_tree (f : table) : sds -> Prop :=
  | it_root : in_tree f ROOT_ID
  | it_child x p : parent_step f x p -> in_tree f p -> in_tree f x.

Definition acyclic (f : table) : Prop := forall x, ~ tc (parent_step f) x x.

Lemma parent_step_fun f x p q : parent_step f x p -> parent_step f x q -> p = q.
Proof. intros (_ & _ & H1) (_ & _ & H2). congruence. Qed.

Lemma in_tree_parent f x p : in_tree f x -> parent_step f x p -> in_tree f p.
Proof.
  intros [|y q Hs Hq] Hp; [by destruct Hp|]. by rewrite (parent_step_fun _ _ _ _ Hp Hs).
Qed.

Lemma in_tree_ancestor f x y : in_tree f x -> rtc (parent_step f) x y -> in_tree f y.
Proof. intros Hx Hr. induction Hr; [done|]. eauto using in_tree_parent. Qed.

(** The walk of [istreeMember] on the table. *)
Fixpoint walk (f : table) (fuel : nat) (x : sds) : option bool :=
  if decide (x = ROOT_ID) then Some true
  else
    match fuel with
    | O => None
    | S fuel =>
        if EXISTS (header (node f x)) then
          match parent (node f x) with Some p => walk f fuel p | None => None end
        else Some false
    end.

Lemma walk_eq f fuel x :
  walk f fuel x =
  if decide (x = ROOT_ID) then Some true
  else match fuel with
       | O => None
       | S fuel => if EXISTS (header (node f x)) then
                     match parent (node f x) with Some p => walk f fuel p | None => None end
                   else Some false
       end.
Proof. by destruct fuel. Qed.

Lemma walk_sound f fuel x b : walk f fuel x = Some b -> b = true <-> in_tree f x.
Proof.
  revert x. induction fuel as [|fuel IH]; intros x; rewrite walk_eq;
    destruct (decide (x = ROOT_ID)) as [->|Hx]; try done.
  1, 2: intros [= <-]; split; [intros _; constructor|done].
  destruct (EXISTS (header (node f x))) eqn:He.
  - destruct (parent (node f x)) as [p|] eqn:Hp; [|done]. intros Hw. rewrite (IH _ Hw).
    split; [by econstructor|]. intros Ht. eapply in_tree_parent; [exact Ht|done].
  - intros [= <-]. split; [done|]. intros Ht. inversion Ht as [Hr|? ? (_ & He' & _)]; congruence.
Qed.

(** Enough iterations: one for every node that exists. *)
Lemma walk_ends f fuel (D : gset sds) x :
  nodes_ok f -> acyclic f -> (size D < fuel)%nat ->
  (forall y, rtc (parent_step f) x y -> y <> ROOT_ID -> EXISTS (header (node f y)) = true -> sdsnew y ∈ D) ->
  is_Some (walk f fuel x).
Proof.
  intros Hn Hac. revert D x. induction fuel as [|fuel IH]; intros D x Hsz HD; [lia|].
  rewrite walk_eq. destruct (decide (x = ROOT_ID)) as [|Hx]; [by eexists|].
  destruct (EXISTS (header (node f x))) eqn:He; [|by eexists].
  destruct (no_parent _ Hn _ He) as [p Hp]. change (parent (node f x) = Some p) in Hp. rewrite Hp.
  assert (parent_step f x p) as Hs by done.
  assert (sdsnew x ∈ D) as Hin by (by apply HD).
  apply (IH (D ∖ {[sdsnew x]})).
  - rewrite size_difference by set_solver. rewrite size_singleton.
    assert (size D <> 0%nat); [|lia]. intros Hz. apply size_empty_inv in Hz. set_solver.
  - intros y Hr Hy Hey. apply elem_of_difference. split; [apply HD; [by econstructor|done..]|].
    rewrite elem_of_singleton. intros Heq. apply (Hac p).
    apply tc_rtc_l with y; [done|]. apply tc_once. unfold parent_step, node in *. by rewrite Heq.
Qed.

(** A cycle is walked forever. *)
Lemma walk_trapped f (S : gset sds) fuel x :
  (forall y, y ∈ S -> exists p, parent_step f y p /\ p ∈ S) -> x ∈ S -> walk f fuel x = None.
Proof.
  intros HS. revert x. induction fuel as [|fuel IH]; intros x Hx; rewrite walk_eq;
    destruct (HS x Hx) as (p & (Hr & He & Hp) & Hin); rewrite decide_False by done; [done|].
  rewrite He, Hp. by apply IH.
Qed.

Section Member.
Context `{DictOrder}.

(** [istreeMember] is the walk. *)
Lemma istreeMember_walk w k f fuel x :
  tree w k f -> nodes_ok f ->
  istreeMember_loop fuel k x w =
  match walk f fuel x with Some b => Done b w | None => OutOfFuel end.
Proof.
  intros Ht Hn. revert x. induction fuel as [|fuel IH]; intros x; rewrite walk_eq; cbn [istreeMember_loop].
  all: destruct (decide (x = ROOT_ID)) as [Hx|Hx];
    [rewrite (proj2 (Z.eqb_eq _ _) (proj2 (sdscmp_eq _ _) Hx)); done|].
  all: destruct (Z.eqb_spec (sdscmp x ROOT_ID) 0) as [Hc|_]; [by apply sdscmp_eq in Hc|].
  { done. }
  unfold node. destruct (rtnHTGet_false w k f (Some x) Ht) as [[Hg Hh]|[Hg Hh]]; step_with Hg; cbn [sdsnew_ptr] in *.
  - step_with (read_rtn_tree _ _ _ _ Ht Hh). destruct (EXISTS _) eqn:He; [|done].
    destruct (no_parent _ Hn _ He) as [p ->]. step_with (deref_some _ _). apply IH.
  - by rewrite Hh.
Qed.

(** The number of nodes stored. *)
Definition node_count (w : world) (k : sds) : nat :=
  match db (srv w) !! tht k with Some (OHash h) => size h | _ => 0 end.

Lemma tree_support w k f :
  tree w k f -> exists D : gset sds, size D = node_count w k /\
    forall x, EXISTS (header (f x)) = true -> x ∈ D.
Proof.
  intros (V & Hr). pose proof (rep_hash _ _ _ _ Hr) as Hh. unfold shape_hash in Hh. unfold node_count.
  destruct (db (srv w) !! tht k) as [[| |h| | |]|]; try done.
  - exists (dom h). rewrite size_dom. split; [done|]. intros x Hx. specialize (Hh x).
    apply elem_of_dom. destruct (h !! x); [done|]. rewrite Hh in Hx. done.
  - exists ∅. split; [done|]. intros x Hx. by rewrite Hh in Hx.
Qed.

Lemma istreeMember_spec w k f fuel x :
  tree w k f -> nodes_ok f -> acyclic f -> (node_count w k < fuel)%nat ->
  exists b, istreeMember fuel k x w = Done b w /\ (b = true <-> in_tree f (sdsnew x)).
Proof.
  intros Ht Hn Hac Hfuel. unfold istreeMember. rewrite (istreeMember_walk w k f) by done.
  destruct (tree_support w k f Ht) as (D & HD & Hsup).
  destruct (walk_ends f fuel D (sdsnew x)) as [b Hb]; [done|done|lia|by intros y _ _ Hy; apply Hsup|].
  exists b. rewrite Hb. split; [done|]. by eapply walk_sound.
Qed.
End Member.

(** ** Children *)

Definition child_step (f : table) (x c : sds) : Prop :=
  EXISTS (header (node f x)) = true /\ c ∈ kids (node f x).

(** The nodes below [x], itself included, that exist together with all nodes in
    between. *)
Definition below (f : table) (x y : sds) : Prop :=
  rtc (child_step f) x y /\ EXISTS (header (node f y)) = true.

(** A table whose children are hash tables, as in the key space. *)
Definition hashed (f : table) : Prop := forall x, exists d, children (f x) = SHT d.

Lemma tree_hashed w k f : tree w k f -> hashed f.
Proof. intros Ht x. by destruct (tree_ok _ _ _ x Ht) as (_ & _ & _ & d & Hd); exists d. Qed.

Section Below.
Context `{DictOrder}.

(** The search of [subTree] on the table. *)
Fixpoint sub_walk (f : table) (fuel : nat) (queue : list sds) (acc : gset sds) : option (gset sds) :=
  match queue with
  | [] => Some acc
  | x :: queue =>
      match fuel with
      | O => None
      | S fuel =>
          if EXISTS (header (node f x))
          then sub_walk f fuel (queue ++ set_list (children (node f x))) ({[x]} ∪ acc)
          else sub_walk f fuel queue acc
      end
  end.

Lemma in_children f x c : hashed f -> c ∈ set_list (children (node f x)) <-> c ∈ kids (node f x).
Proof. intros Hh. destruct (Hh (sdsnew x)) as [d Hd]. apply (elem_of_set_list 0). unfold node. by rewrite Hd. Qed.

Lemma subTree_loop_walk w k f fuel queue acc :
  tree w k f ->
  subTree_loop fuel k queue (SHT acc) w =
  match sub_walk f fuel queue acc with Some s => Done (SHT s) w | None => OutOfFuel end.
Proof.
  intros Ht. revert queue acc. induction fuel as [|fuel IH]; intros [|x queue] acc; try done.
  cbn [subTree_loop sub_walk]. unfold node.
  destruct (rtnHTGet_false w k f (Some x) Ht) as [[Hg Hh]|[Hg Hh]]; step_with Hg; cbn [sdsnew_ptr] in *.
  - step_with (read_rtn_tree _ _ _ _ Ht Hh). destruct (EXISTS _); [|apply IH].
    unfold local_add. rewrite bind_assoc. unfold bind at 1, gets. rewrite bind_assoc.
    assert (exists b, setTypeAdd (set_max_intset_entries (srv w)) (SHT acc) x = Some (SHT ({[x]} ∪ acc), b))
      as [b ->].
    { cbn. unfold dictAdd, sdsdup. destruct (decide (x ∈ acc)); eexists; [|done]. do 3 f_equal. set_solver. }
    step_with (deref_some _ _). unfold bind at 1, ret. cbn [fst]. rewrite IH.
    destruct (tree_hashed _ _ _ Ht (sdsnew x)) as [d Hd]. rewrite Hd.
    destruct (Nat.ltb_spec 0 (setTypeSize (SHT d))) as [|Hz]; [done|].
    assert (d = ∅) as -> by (cbn in Hz; apply leibniz_equiv, size_empty_inv; lia).
    unfold set_list. rewrite set_elems_HT. pose proof (dict_iter_perm ∅) as Hp. rewrite elements_empty in Hp.
    apply Permutation_nil_r in Hp. by rewrite Hp.
  - rewrite Hh. cbn. apply IH.
Qed.

(** It returns what is below the queue. *)
Lemma sub_walk_sound f fuel queue acc s :
  hashed f -> sub_walk f fuel queue acc = Some s ->
  forall y, y ∈ s <-> y ∈ acc \/ exists x, x ∈ queue /\ below f x y.
Proof.
  intros Hh. revert queue acc. induction fuel as [|fuel IH]; intros [|x queue] acc Hw y; cbn in Hw; try done.
  1, 2: injection Hw as <-; split; [auto|]; intros [?|(z & Hz & _)]; [done|by apply elem_of_nil in Hz].
  destruct (EXISTS (header (node f x))) eqn:He; rewrite (IH _ _ Hw y).
  - rewrite elem_of_union, elem_of_singleton. setoid_rewrite elem_of_app. setoid_rewrite elem_of_cons. split.
    + intros [[->|Ha]|(z & [Hz|Hz] & Hb)]; [right; exists x; split; [by left|by split]|by left| |].
      * right. exists z. auto.
      * right. exists x. split; [by left|]. destruct Hb as [Hr Hy]. split; [|done].
        econstructor; [|exact Hr]. split; [done|]. by apply in_children.
    + intros [Ha|(z & [->|Hz] & [Hr Hy])]; [auto| |right; exists z; split; [auto|by split]].
      inversion Hr as [|? c ? [_ Hc] Hr']; subst; [auto|]. right. exists c.
      split; [|by split]. right. by apply in_children.
  - setoid_rewrite elem_of_cons. split.
    + intros [Ha|(z & Hz & Hb)]; [auto|]. right. exists z. auto.
    + intros [Ha|(z & [->|Hz] & [Hr Hy])]; [auto| |right; exists z; by split; [|split]].
      inversion Hr as [|? c ? [He' _] Hr']; congruence.
Qed.

(** The number of iterations a node costs: one, and those of its children. *)
Inductive cost (f : table) : sds -> nat -> Prop :=
  | cost_leaf x : EXISTS (header (node f x)) = false -> cost f x 1
  | cost_node x ns : EXISTS (header (node f x)) = true ->
      Forall2 (cost f) (set_list (children (node f x))) ns -> cost f x (S (sum_list ns)).

Lemma cost_exists f x : hashed f -> Acc (flip (child_step f)) x -> exists n, cost f x n.
Proof.
  intros Hh. induction 1 as [x _ IH]. destruct (EXISTS (header (node f x))) eqn:He.
  - assert (exists ns, Forall2 (cost f) (set_list (children (node f x))) ns) as [ns Hns].
    { assert (forall c, c ∈ set_list (children (node f x)) -> exists n, cost f c n) as Hc.
      { intros c Hin. apply IH. split; [done|]. by apply in_children. }
      clear IH. induction (set_list (children (node f x))) as [|c l IHl]; [by exists []|].
      destruct (Hc c) as [n Hn]; [by left|]. destruct IHl as [ns Hns]; [intros; apply Hc; by right|].
      exists (n :: ns). by constructor. }
    eexists. by econstructor.
  - eexists. by constructor.
Qed.

Lemma sub_walk_ends f fuel queue ns acc :
  Forall2 (cost f) queue ns -> (sum_list ns <= fuel)%nat -> is_Some (sub_walk f fuel queue acc).
Proof.
  revert queue ns acc. induction fuel as [|fuel IH]; intros queue ns acc Hq Hf.
  all: destruct Hq as [|x n queue ns Hx Hq]; [by eexists|]; cbn in Hf.
  - inversion Hx; subst; lia.
  - cbn. inversion Hx as [? He|? ns' He Hc]; subst; rewrite He.
    + apply (IH _ ns); [done|lia].
    + apply (IH _ (ns ++ ns')); [by apply Forall2_app|]. rewrite sum_list_with_app. lia.
Qed.

(** No fewer iterations do. *)
Lemma sub_walk_cost f fuel queue ns acc s :
  Forall2 (cost f) queue ns -> sub_walk f fuel queue acc = Some s -> (sum_list ns <= fuel)%nat.
Proof.
  revert queue ns acc. induction fuel as [|fuel IH]; intros queue ns acc Hq Hw.
  all: destruct Hq as [|x n queue ns Hx Hq]; [cbn; lia|]; cbn in Hw.
  { done. }
  inversion Hx as [? He|? ns' He Hc]; subst; rewrite He in Hw; cbn.
  - specialize (IH _ _ _ Hq Hw). lia.
  - specialize (IH _ (ns ++ ns') _ ltac:(by apply Forall2_app) Hw). rewrite sum_list_with_app in IH. lia.
Qed.

(** The children of existing nodes are among [D] and have one parent. *)
Definition unshared (f : table) (D : gset sds) : Prop :=
  forall x c, child_step f x c -> nul_free c /\ c ∈ D /\ forall y, child_step f y c -> sdsnew y = sdsnew x.

Lemma children_NoDup f x : hashed f -> NoDup (set_list (children (node f x))).
Proof.
  intros Hh. destruct (Hh (sdsnew x)) as [d Hd]. unfold node. rewrite Hd, (set_list_perm 0) by done. apply NoDup_elements.
Qed.

Lemma acc_no_cycle f s x : Acc (flip (child_step f)) s -> rtc (child_step f) s x -> ~ child_step f x s.
Proof.
  intros Hacc. revert x. induction Hacc as [s _ IH]. intros x Hr Hx.
  inversion Hr as [|? c ? Hc Hr']; subst; [by apply (IH x Hx x)|]. apply (IH c Hc s); [by eapply rtc_r|done].
Qed.

(** From [s], the search puts every node on the queue at most once: [seen] are
    the nodes it has taken off. *)
Lemma sub_walk_unshared f (D : gset sds) s fuel seen queue acc :
  hashed f -> unshared f D -> Acc (flip (child_step f)) s ->
  NoDup (seen ++ queue) -> Forall (rtc (child_step f) s) (seen ++ queue) -> Forall nul_free (seen ++ queue) ->
  (forall c, c ∈ seen ++ queue -> c = s \/ exists y, y ∈ seen /\ child_step f y c) ->
  (S (size D) <= fuel + length seen)%nat -> is_Some (sub_walk f fuel queue acc).
Proof.
  intros Hh HD Hacc. revert seen queue acc. induction fuel as [|fuel IH]; intros seen queue acc Hnd Hr Hnul Hpar Hf.
  all: destruct queue as [|x queue]; [by eexists|].
  { exfalso. assert (length (seen ++ x :: queue) <= size ({[s]} ∪ D))%nat as Hle.
    { rewrite <- (size_list_to_set (C := gset sds)) by done. apply subseteq_size. intros c.
      rewrite elem_of_list_to_set, elem_of_union, elem_of_singleton. intros Hc.
      destruct (Hpar c Hc) as [|(y & _ & Hy)]; [by left|]. right. by apply (HD y c). }
    assert (size ({[s]} ∪ D) <= S (size D))%nat as Hs.
    { rewrite size_union_alt, size_singleton. apply le_n_S, subseteq_size. set_solver. }
    rewrite length_app in Hle. cbn in Hle. lia. }
  cbn. rewrite Forall_app, Forall_cons in Hr, Hnul. destruct Hr as (Hr1 & Hrx & Hr2), Hnul as (Hn1 & Hnx & Hn2).
  assert (forall l, seen ++ x :: l = (seen ++ [x]) ++ l) as Happ by (intros l; by rewrite <- app_assoc).
  destruct (EXISTS (header (node f x))) eqn:He.
  - set (cs := set_list (children (node f x))).
    assert (forall c, c ∈ cs -> child_step f x c) as Hcs by (intros c Hc; split; [done|by apply in_children]).
    assert (forall l, (seen ++ [x]) ++ queue ++ l = (seen ++ x :: queue) ++ l) as Happ'.
    { intros l. by rewrite app_assoc, <- (Happ queue). }
    apply (IH (seen ++ [x])); rewrite ?Happ'.
    + apply NoDup_app. split_and!; [done| |by apply children_NoDup]. intros c Hc Hc'. apply Hcs in Hc' as Hx.
      destruct (Hpar c Hc) as [->|(y & Hy & Hyc)]; [by apply (acc_no_cycle f s x)|].
      destruct (HD _ _ Hx) as (_ & _ & Hu). specialize (Hu y Hyc). rewrite Forall_forall in Hn1.
      rewrite (sdsnew_nul_free y), (sdsnew_nul_free x) in Hu by auto. subst y.
      apply NoDup_app in Hnd as (_ & Hnd & _). apply (Hnd x Hy). by left.
    + rewrite !Forall_app, Forall_cons. split_and!; [done..|]. apply Forall_forall. intros c Hc.
      eapply rtc_r; [exact Hrx|by apply Hcs].
    + rewrite !Forall_app, Forall_cons. split_and!; [done..|]. apply Forall_forall. intros c Hc. by apply (HD x c), Hcs.
    + intros c [Hc|Hc]%elem_of_app.
      * destruct (Hpar c Hc) as [|(y & Hy & Hyc)]; [by left|right; exists y]. rewrite elem_of_app. auto.
      * right. exists x. rewrite elem_of_app. split; [right; by left|by apply Hcs].
    + rewrite length_app. cbn. lia.
  - apply (IH (seen ++ [x])); rewrite <- ?Happ; [done|by rewrite Forall_app, Forall_cons..| |rewrite length_app; cbn; lia].
    intros c Hc. destruct (Hpar c Hc) as [|(y & Hy & Hyc)]; [by left|right; exists y]. rewrite elem_of_app. auto.
Qed.

(** A queue that holds a node of a trap, a set whose nodes all have a child in
    it, never empties. *)
Lemma sub_walk_trapped f (S : gset sds) fuel queue acc :
  hashed f -> (forall y, y ∈ S -> exists c, child_step f y c /\ c ∈ S) ->
  (exists x, x ∈ queue /\ x ∈ S) -> sub_walk f fuel queue acc = None.
Proof.
  intros Hh HS. revert queue acc. induction fuel as [|fuel IH]; intros [|x queue] acc (y & Hy & HyS);
    try by apply elem_of_nil in Hy. { done. }
  cbn. apply elem_of_cons in Hy as [->|Hy].
  - destruct (HS x HyS) as (c & [He Hc] & HcS). rewrite He. apply IH. exists c.
    split; [|done]. apply elem_of_app. right. by apply in_children.
  - destruct (EXISTS _); apply IH; exists y; [|done]. split; [|done]. apply elem_of_app. by left.
Qed.

(** The ids of the stored nodes. *)
Definition stored_ids (w : world) (k : sds) : gset sds :=
  match db (srv w) !! tht k with Some (OHash h) => dom h | _ => ∅ end.

Lemma stored_ids_size w k : size (stored_ids w k) = node_count w k.
Proof. unfold stored_ids, node_count. destruct (db (srv w) !! tht k) as [[| |h| | |]|]; try done. apply size_dom. Qed.

(** [subTree] collects what is below a node, when nothing is below itself, in a
    number of iterations that is at most one more than that of the stored nodes
    when no child has two parents. *)
Lemma subTree_spec w k f x :
  tree w k f -> Acc (flip (child_step f)) (sdsnew x) ->
  exists n s, (forall y, y ∈ s <-> below f (sdsnew x) y) /\
    (forall fuel, subTree fuel k x w = if decide (n <= fuel)%nat then Done (SHT s) w else OutOfFuel) /\
    (unshared f (stored_ids w k) -> (n <= S (node_count w k))%nat).
Proof.
  intros Ht Hacc. pose proof (tree_hashed _ _ _ Ht) as Hh.
  destruct (cost_exists f (sdsnew x) Hh Hacc) as [n Hn].
  assert (Forall2 (cost f) [sdsnew x] [n]) as Hq by (by repeat constructor).
  assert (forall fuel s, sub_walk f fuel [sdsnew x] ∅ = Some s -> forall y, y ∈ s <-> below f (sdsnew x) y) as Hs.
  { intros fuel s Hs y. rewrite (sub_walk_sound _ _ _ _ _ Hh Hs y). setoid_rewrite list_elem_of_singleton. set_solver. }
  assert (forall fuel, is_Some (sub_walk f fuel [sdsnew x] ∅) <-> (n <= fuel)%nat) as Hw.
  { intros fuel. split.
    - intros [s Hw]. pose proof (sub_walk_cost _ _ _ _ _ _ Hq Hw) as Hle. cbn in Hle. lia.
    - intros Hf. apply (sub_walk_ends _ _ _ _ _ Hq). cbn. lia. }
  destruct (proj2 (Hw n)) as [s Hsn]; [done|]. exists n, s. split_and!; [by eapply Hs| |].
  - intros fuel. unfold subTree, createSetObject. rewrite (subTree_loop_walk w k f) by done.
    destruct (decide _) as [Hf|Hf]; rewrite <- Hw in Hf.
    + destruct Hf as [s' Hs']. rewrite Hs'. do 2 f_equal. apply set_eq. intros y. by rewrite (Hs _ _ Hs'), (Hs _ _ Hsn).
    + apply eq_None_not_Some in Hf. by rewrite Hf.
  - intros Hu. apply Hw. apply (sub_walk_unshared f (stored_ids w k) (sdsnew x) _ []); try done; cbn [app].
    + apply NoDup_singleton.
    + by repeat constructor.
    + repeat constructor. apply nul_free_sdsnew.
    + intros c Hc. apply list_elem_of_singleton in Hc. by left.
    + rewrite stored_ids_size. cbn. lia.
Qed.

(** Whether no child of the stored nodes has two parents. *)
Definition lists_child (e : helem) (c : sds) : bool :=
  match e with HRtn n => EXISTS (header n) && bool_decide (c ∈ kids n) | _ => false end.

Definition unshared_check (w : world) (k : sds) : bool :=
  match db (srv w) !! tht k with
  | Some (OHash h) =>
      forallb (fun p => match p.2 with
        | HRtn n => forallb (fun c => negb (lists_child p.2 c) || bool_decide (nul_free c /\ c ∈ dom h) &&
                      forallb (fun q => negb (lists_child q.2 c) || bool_decide (q.1 = p.1)) (map_to_list h)) (elements (kids n))
        | _ => true
        end) (map_to_list h)
  | _ => true
  end.

Lemma table_child w k x c :
  child_step (table_of w k) x c -> exists h e, db (srv w) !! tht k = Some (OHash h) /\ h !! sdsnew x = Some e /\
    lists_child e c = true.
Proof.
  intros [He Hc]. unfold node, table_of in *. destruct (db (srv w) !! tht k) as [[| |h| | |]|]; try done.
  exists h. destruct (h !! sdsnew x) as [e|]; [|done]. exists e. split_and!; [done..|].
  destruct e; try done. cbn. by rewrite He, bool_decide_true.
Qed.

Lemma unshared_check_sound w k : unshared_check w k = true -> unshared (table_of w k) (stored_ids w k).
Proof.
  unfold unshared_check, stored_ids. intros Hu x c Hx. destruct (table_child w k x c Hx) as (h & e & Hh & He & Hl).
  rewrite Hh in *. rewrite forallb_forall in Hu. specialize (Hu (sdsnew x, e)). cbn [fst snd] in Hu.
  rewrite <- list_elem_of_In, elem_of_map_to_list in Hu. specialize (Hu He). destruct e as [| | |n| |]; try done.
  rewrite forallb_forall in Hu. specialize (Hu c). rewrite Hl in Hu. cbn in Hl. apply andb_true_iff in Hl as [_ Hc].
  rewrite <- list_elem_of_In, elem_of_elements in Hu. apply bool_decide_eq_true in Hc. specialize (Hu Hc).
  cbn [negb orb] in Hu. apply andb_true_iff in Hu as [Hn Hu]. apply bool_decide_eq_true in Hn as [Hn Hd].
  split_and!; [done..|]. intros y Hy. destruct (table_child w k y c Hy) as (h' & e' & Hh' & He' & Hl').
  rewrite Hh in Hh'. injection Hh' as <-. rewrite forallb_forall in Hu. specialize (Hu (sdsnew y, e')). cbn [fst snd] in Hu.
  rewrite <- list_elem_of_In, elem_of_map_to_list in Hu. specialize (Hu He'). rewrite Hl' in Hu. by apply bool_decide_eq_true in Hu.
Qed.

(** The iterators agree with those of sets. *)
Lemma tree_drain_all (tri : treeTypeIterator) : tree_drain (length tri) tri = tri.
Proof. induction tri as [|x tri IH]; [done|]. cbn. by rewrite IH. Qed.

Lemma treeType_ops d x :
  treeTypeAdd (SHT d) x = (SHT ({[x]} ∪ d), bool_decide (x ∉ d)) /\
  treeTypeRemove (SHT d) x = (SHT (d ∖ {[x]}), bool_decide (x ∈ d)) /\
  exists tri, treeTypeInitIterator (SHT d) = Some tri /\ tree_drain (length tri) tri = set_list (SHT d).
Proof.
  unfold treeTypeAdd, treeTypeRemove, dictAdd, dictDelete, sdsdup. split_and!.
  - destruct (decide (x ∈ d)); [rewrite bool_decide_false by tauto|by rewrite bool_decide_true].
    f_equal. f_equal. set_solver.
  - destruct (decide (x ∈ d)); [by rewrite bool_decide_true|rewrite bool_decide_false by tauto].
    f_equal. f_equal. set_solver.
  - exists (dict_iter d). split; [done|]. rewrite tree_drain_all. unfold set_list. rewrite set_elems_HT.
    rewrite <- list_fmap_compose. symmetry. apply list_fmap_id.
Qed.

Lemma subTree_trapped w k f (S : gset sds) fuel x :
  tree w k f -> (forall y, y ∈ S -> exists c, child_step f y c /\ c ∈ S) -> sdsnew x ∈ S ->
  subTree fuel k x w = OutOfFuel.
Proof.
  intros Ht HS Hx. unfold subTree, createSetObject. rewrite (subTree_loop_walk w k f) by done.
  rewrite (sub_walk_trapped f S); [done|by eapply tree_hashed|done|]. exists (sdsnew x). by split; [left|].
Qed.
End Below.

(** ** Changing one node's links *)

(** [y] is [u] or hangs below it. *)
Definition hangs (f : table) (u y : sds) : Prop := exists z, rtc (parent_step f) y z /\ sdsnew z = u.

Lemma ROOT_sdsnew z : sdsnew z <> ROOT_ID -> z <> ROOT_ID.
Proof. by intros Hz ->. Qed.

Lemma in_tree_below f x y : rtc (parent_step f) x y -> in_tree f y -> in_tree f x.
Proof. induction 1; [done|]. intros. econstructor; eauto. Qed.

Lemma in_tree_no_cycle f x : in_tree f x -> ~ tc (parent_step f) x x.
Proof.
  induction 1 as [|x p Hs _ IH]; intros Hc.
  - inversion Hc as [? ? [? _]|? ? ? [? _]]; done.
  - apply IH. assert (rtc (parent_step f) p x) as Hr.
    { inversion Hc as [? ? Hs'|? q ? Hs' Hr]; subst; rewrite (parent_step_fun _ _ _ _ Hs Hs'); [done|by apply tc_rtc]. }
    by eapply tc_rtc_l; [exact Hr|apply tc_once].
Qed.

(** Two ids of the same node. *)
Lemma in_tree_alias f z : sdsnew z <> ROOT_ID -> in_tree f z -> in_tree f (sdsnew z).
Proof.
  intros Hz Hin. pose proof (ROOT_sdsnew _ Hz). inversion Hin as [|? p (_ & He & Hp) Hin']; subst; [done|].
  apply it_child with p; [|done]. split; [done|]. unfold node in *.
  by rewrite (sdsnew_nul_free (sdsnew z)) by apply nul_free_sdsnew.
Qed.

(** The node [u] now exists below [p]; nothing else changed. *)
Section Relink.
Context (f g : table) (p u : sds).
Hypothesis Hnew : EXISTS (header (g u)) = true /\ parent (g u) = Some p.
Hypothesis Hold : forall y, y <> u -> header (g y) = header (f y) /\ parent (g y) = parent (f y).
Hypothesis Hroot : u <> ROOT_ID.

Lemma relink_step x q :
  parent_step g x q <-> (sdsnew x = u /\ q = p) \/ (sdsnew x <> u /\ parent_step f x q).
Proof.
  destruct Hnew as [He Hp]. unfold parent_step, node. destruct (decide (sdsnew x = u)) as [Heq|Hne].
  - assert (x <> ROOT_ID) by (apply ROOT_sdsnew; by rewrite Heq). rewrite Heq. intuition congruence.
  - destruct (Hold _ Hne) as [-> ->]. tauto.
Qed.

(** The chain above a node that does not hang below [u] stays. *)
Lemma relink_keeps x : in_tree f x -> ~ hangs f u x -> in_tree g x.
Proof.
  induction 1 as [|x q Hs Hq IH]; intros Hno; [constructor|]. apply it_child with q.
  - apply relink_step. right. split; [|done]. intros Heq. apply Hno. by exists x.
  - apply IH. intros (z & Hz & Hzu). apply Hno. exists z. split; [|done]. by econstructor.
Qed.

Lemma relink_members y : in_tree g p -> hangs g u y -> in_tree g y.
Proof.
  intros Hp (z & Hz & Hzu). eapply in_tree_below; [exact Hz|].
  apply it_child with p; [|done]. apply relink_step. by left.
Qed.

Lemma relink_members_inv y : in_tree g y -> in_tree f y \/ hangs g u y.
Proof.
  induction 1 as [|x q Hs Hq IH]; [left; constructor|].
  apply relink_step in Hs as Hs'. destruct Hs' as [[Heq ->]|[Hne Hs']]; [right; by exists x|].
  destruct IH as [IH|(z & Hz & Hzu)]; [left; by econstructor|]. right. exists z. split; [|done]. by econstructor.
Qed.

(** Moving a member inside the tree keeps the members. *)
Lemma relink_same y : in_tree f u -> in_tree g p -> in_tree g y <-> in_tree f y.
Proof.
  intros Hu Hp. split; induction 1 as [|x q Hx Hq IH]; try constructor.
  - apply relink_step in Hx as [[Heq ->]|[_ Hx]]; [|by apply it_child with q].
    inversion Hu as [|? p' (_ & He & Hp') Hin]; subst; [done|]. apply it_child with p'; [|done].
    split; [by apply ROOT_sdsnew|]. unfold node in *.
    by rewrite (sdsnew_nul_free (sdsnew x)) in He, Hp' by apply nul_free_sdsnew.
  - destruct (decide (sdsnew x = u)) as [Heq|Hne].
    + apply it_child with p; [|done]. apply relink_step. by left.
    + apply it_child with q; [|done]. apply relink_step. by right.
Qed.

(** What hangs below [u] is the same. *)
Lemma relink_hangs y : hangs g u y <-> hangs f u y.
Proof.
  split; intros (z & Hz & Hzu).
  - induction Hz as [y|y q z Hs _ IH]; [by exists y|]. apply relink_step in Hs as [[Heq _]|[_ Hs]]; [by exists y|].
    destruct (IH Hzu) as (z' & Hz' & Hzu'). exists z'. split; [by econstructor|done].
  - induction Hz as [y|y q z Hs _ IH]; [by exists y|]. destruct (decide (sdsnew y = u)) as [Heq|Hne]; [by exists y|].
    destruct (IH Hzu) as (z' & Hz' & Hzu'). exists z'. split; [|done]. econstructor; [|exact Hz'].
    apply relink_step. by right.
Qed.

Lemma relink_acyclic : in_tree g p -> acyclic f -> acyclic g.
Proof.
  intros Hp Hac.
  assert (forall x y, tc (parent_step g) x y -> in_tree g y \/ tc (parent_step f) x y) as Hgo.
  { induction 1 as [x y Hs|x z y Hs Hr IH]; apply relink_step in Hs as Hs'.
    - destruct Hs' as [[_ ->]|[_ Hs']]; [by left|right; by apply tc_once].
    - destruct Hs' as [[_ ->]|[_ Hs']].
      + left. eapply in_tree_ancestor; [exact Hp|by apply tc_rtc].
      + destruct IH; [by left|right; by eapply tc_l]. }
  intros x Hx. destruct (Hgo x x Hx) as [Hin'|Hc]; [by apply (in_tree_no_cycle g x)|by apply (Hac x)].
Qed.
End Relink.

(** Nothing of the tree hangs below a node that is not in it. *)
Lemma outside_hangs f u x : ~ in_tree f u -> u <> ROOT_ID -> in_tree f x -> ~ hangs f u x.
Proof.
  intros Hout Hr Hx (z & Hz & Hzu). apply Hout. rewrite <- Hzu.
  apply in_tree_alias; [by rewrite Hzu|]. by eapply in_tree_ancestor.
Qed.

(** A node stops existing. *)
Section Detach.
Context (f g : table) (u : sds).
Hypothesis Hgone : EXISTS (header (g u)) = false.
Hypothesis Hold : forall y, y <> u -> header (g y) = header (f y) /\ parent (g y) = parent (f y).
Hypothesis Hroot : u <> ROOT_ID.

Lemma detach_step x q : parent_step g x q <-> sdsnew x <> u /\ parent_step f x q.
Proof.
  unfold parent_step, node. destruct (decide (sdsnew x = u)) as [Heq|Hne].
  - rewrite Heq, Hgone. naive_solver.
  - destruct (Hold _ Hne) as [-> ->]. tauto.
Qed.

Lemma detach_members y : in_tree g y <-> in_tree f y /\ ~ hangs f u y.
Proof.
  split.
  - induction 1 as [|x q Hs Hq [IH1 IH2]].
    + split; [constructor|]. intros (z & Hz & Hzu). inversion Hz as [|? ? ? [? _]]; subst; done.
    + apply detach_step in Hs as [Hne Hs]. split; [by econstructor|]. intros (z & Hz & Hzu).
      inversion Hz as [|? q' ? Hs' Hz']; subst; [done|]. rewrite (parent_step_fun _ _ _ _ Hs' Hs) in Hz'.
      apply IH2. by exists z.
  - intros [Hy Hno]. induction Hy as [|x q Hs Hq IH]; [constructor|]. apply it_child with q.
    + apply detach_step. split; [|done]. intros Heq. apply Hno. by exists x.
    + apply IH. intros (z & Hz & Hzu). apply Hno. exists z. split; [|done]. by econstructor.
Qed.

Lemma detach_acyclic : acyclic f -> acyclic g.
Proof.
  intros Hac x Hc. apply (Hac x). revert Hc. generalize x at 1 3 as y. intros y Hc.
  induction Hc as [y z Hs|y z x' Hs _ IH]; apply detach_step in Hs as [_ Hs]; [by apply tc_once|by eapply tc_l].
Qed.
End Detach.
