(* ===== verification/RWTreeClient.v ===== *)
(** * The remove-win tree at one replica

    What a client of a replica observes: the reply of each command, the message
    it sends, and how the table of nodes and the set of nodes in the tree change.
    The links from nodes to their parents stay free of cycles, so the walk of
    [istreeMember] ends. *)
From Stdlib Require Import ZArith Lia Ascii String.
From stdpp Require Import functions base numbers strings relations gmap sets list.
From S2P Require Import Prelude Sds VectorClock LamportClock Intset SetType Server RWFramework Container RWSet Stamps RWTree RWTreeRep RWTreeConv RWTreeWalk.
Open Scope Z_scope.

(** ** The state of a replica that holds the tree [k] *)

(** A node that exists is among the children of its parent. *)
Definition linked (f : table) : Prop :=
  forall x p, nul_free x -> parent_step f x p -> nul_free p /\ x ∈ kids (f p).

Record holds (w : world) (k : sds) (f : table) : Prop := {
  ho_tree : tree w k f;
  ho_nodes : nodes_ok f;
  ho_acyclic : acyclic f;
  ho_linked : linked f;
  ho_root : thas w k ROOT_ID;
  ho_cfg : cfg_ok (srv w);
  ho_mode : REPLICATION_MODE (srv w) = true
}.

Lemma holds_request w k f args : holds w k f -> holds (request w args) k f.
Proof. intros [H1 H2 H3 H4 H5 H6 H7]. split; try done. by eapply tree_config, H1. Qed.

Section Client.
Context `{DictOrder}.

Lemma getInnerHT_tree w k x : thas w k x -> getInnerHT k RW_TREE_SUFFIX false w = Done (Some (tht k)) w.
Proof.
  intros (h & v & Hh & _). unfold getInnerHT. fold (tht k). step_with (lookupKey_done _ _).
  change (sdscat (sdsdup k) RW_TREE_SUFFIX) with (tht k). by rewrite Hh.
Qed.

(** A node that exists is stored. *)
Lemma exists_has w k f x :
  tree w k f -> EXISTS (header (f x)) = true -> sdsnew x = x ->
  rtnHTGet k (Some x) false w = Done (Some (tht k, x)) w /\ thas w k x.
Proof.
  intros Ht He Hx. destruct (rtnHTGet_false w k f (Some x) Ht) as [[Hg Hh]|[Hg Hn]]; cbn [sdsnew_ptr] in *;
    rewrite Hx in *; [done|]. by rewrite Hn in He.
Qed.

Lemma has_get w k f x :
  tree w k f -> thas w k x -> sdsnew x = x -> rtnHTGet k (Some x) false w = Done (Some (tht k, x)) w.
Proof.
  intros (V & Hr) (h & v & Hh & Hv) Hx. unfold rtnHTGet, rehHTGet, HTGet. cbn [sdsnew_ptr]. rewrite Hx.
  step_with (getInnerHT_tree w k x ltac:(by exists h, v)). unfold bind, hashTypeGetValueObject. by rewrite Hh, Hv.
Qed.

(** A member of the tree is stored. *)
Lemma member_has w k f x :
  tree w k f -> thas w k ROOT_ID -> nul_free x -> in_tree f x -> thas w k x.
Proof.
  intros Ht Hr Hx Hin. destruct Hin as [|x p (_ & He & _) _]; [done|].
  unfold node in He. rewrite (sdsnew_nul_free x Hx) in He.
  apply (exists_has w k f x); [done..|by apply sdsnew_nul_free].
Qed.

Lemma istreeMember_holds w k f fuel x :
  holds w k f -> (node_count w k < fuel)%nat -> nul_free x ->
  exists b, istreeMember fuel k x w = Done b w /\ (b = true <-> in_tree f x).
Proof.
  intros Hh Hf Hx. destruct (istreeMember_spec w k f fuel x) as (b & Hb & Hi); try apply Hh; [done|].
  rewrite (sdsnew_nul_free x Hx) in Hi. by exists b.
Qed.

(** ** A command at its origin

    After a prepare phase that produced the arguments of [m], the origin applies
    [m] as every other replica will. *)
Lemma tree_origin prep m w k f args rv w1 :
  nodes_ok f -> REPLICATION_MODE (srv w) = true ->
  prep (request w args) = Done rv w1 -> tframe k (request w args) w1 -> tree w1 k f ->
  args ++ rv_items rv = tm_args k m -> tm_wf (srv w) m -> move_ready f m ->
  exists w', call 0 (CRDT prep (tm_effect m)) (request w args) = Done tt w' /\
    tree w' k (tm_step (p2p_id (srv w)) f m) /\ replies (cli w') = [R_ok] /\
    rargv (cli w') = Some (tm_args k m) /\
    replicas (srv w') = (fun out => out ++ broadcast_msg (srv w) 0 (tm_args k m)) <$> replicas (srv w) /\
    same_config (srv w) (srv w') /\ REPLICATION_MODE (srv w') = true /\
    forall x, thas w k x -> thas w' k x.
Proof.
  intros Hn Hm Hp Hf1 Ht1 Hargs Hwf Hmv.
  set (w2 := mkWorld (srv w1) (mkClient args (Some (args ++ rv_items rv)) false false [R_ok])).
  assert (same_config (srv w) (srv w1)) as Hc1 by apply (fr_config _ _ _ Hf1).
  destruct (tm_effect_tree w2 k f m) as (w3 & Hw3 & Ht3 & Hf3).
  { by eapply tree_config, Ht1. } { done. } { cbn. by rewrite Hargs. } { by eapply tm_wf_stable. } { done. }
  cbn in Ht3. rewrite (sc_id _ _ Hc1) in Ht3.
  destruct (origin_sent prep (tm_effect m) w args k rv w1 w3 Hm Hp Hf1 Hw3 Hf3)
    as (w4 & Hw4 & Hdb4 & Hc4 & Hc & Hm4 & Hrep4 & Hrargv & Hsent). rewrite Hargs in *.
  exists w4. split_and!; [done|by eapply tree_config, Ht3|done..|].
  intros x Hx. assert (thas w3 k x) as (h & v & Hh3 & Hv).
  { apply (fr_has _ _ _ Hf3 x). exact (fr_has _ _ _ Hf1 x Hx). }
  exists h, v. by rewrite Hdb4.
Qed.

(** Without the tree every command but its creation is refused. *)
Lemma no_tree w k args fuel prep :
  prep ∈ [insert_prepare fuel; delete_prepare fuel; changevalue_prepare fuel; move_prepare fuel] ->
  REPLICATION_MODE (srv w) = true -> db (srv w) !! tht k = None -> args !! 1%nat = Some k ->
  forall eff, call 0 (CRDT prep eff) (request w args) =
    Done tt (mkWorld (srv w) (mkClient args None false false [R_emptymultibulk])).
Proof.
  intros Hp Hm Hno Hk eff. apply call_refused; [done|].
  assert (getInnerHT k RW_TREE_SUFFIX false (request w args) = Done None (request w args)) as Hi.
  { unfold getInnerHT. step_with (lookupKey_done _ _).
    change (sdscat (sdsdup k) RW_TREE_SUFFIX) with (tht k). cbn. by rewrite Hno. }
  assert (arg 1 (request w args) = Done k (request w args)) as Ha by (by apply arg_done).
  repeat (apply elem_of_cons in Hp as [->|Hp]; [unfold insert_prepare, delete_prepare, changevalue_prepare, move_prepare; step_with Ha; by step_with Hi|]).
  by apply elem_of_nil in Hp.
Qed.
End Client.

(** ** Insertion *)

Section Insert.
Context `{DictOrder}.

Definition insert_args (k nm p u : sds) : list sds := ["rwftreeinsert"%string; k; nm; p; u].

Lemma insert_prepare_spec w k f fuel nm p u :
  let w0 := request w (insert_args k nm p u) in
  holds w k f -> (node_count w k < fuel)%nat -> nul_free p -> nul_free u ->
  (~ in_tree f p /\ insert_prepare fuel w0 = Return (set_client (push_reply R_ele_nexist) w0)) \/
  (in_tree f p /\ in_tree f u /\ insert_prepare fuel w0 = Return (set_client (push_reply R_ele_exist) w0)) \/
  (in_tree f p /\ ~ in_tree f u /\ exists w1 rv, insert_prepare fuel w0 = Done rv w1 /\
     tree w1 k f /\ tframe k w0 w1 /\
     rv_items rv = [vcs (current (header (f p))); vcs (current (header (f u)))]).
Proof.
  intros w0 Hh Hf Hp Hu. pose proof (holds_request w k f _ Hh : holds w0 k f) as Hh0.
  change (node_count w k) with (node_count w0 k) in Hf. pose proof (ho_tree _ _ _ Hh0) as Ht.
  unfold insert_prepare. step_with (arg_done w0 1 k eq_refl).
  step_with (getInnerHT_tree _ _ _ (ho_root _ _ _ Hh0)). step_with (arg_done w0 3 p eq_refl).
  destruct (istreeMember_holds w0 k f fuel p Hh0 Hf Hp) as (b & Hb & Hbi). step_with Hb.
  destruct b; cbn [negb]; [|left; split; [by intros Hin%Hbi|done]].
  assert (in_tree f p) as Hpin by tauto. right.
  pose proof (member_has w0 k f p Ht (ho_root _ _ _ Hh0) Hp Hpin) as Hph.
  step_with (has_get _ _ _ _ Ht Hph (sdsnew_nul_free p Hp)). step_with (deref_some _ _).
  step_with (read_rtn_tree _ _ _ _ Ht Hph).
  destruct (tree_ok _ _ _ p Ht) as (Hcp & _). step_with (ADD_CR_done w0 RVCT_PREPARE _ _ (ho_cfg _ _ _ Hh0) Hcp).
  step_with (arg_done w0 4 u eq_refl).
  destruct (istreeMember_holds w0 k f fuel u Hh0 Hf Hu) as (b & Hb' & Hbu). step_with Hb'.
  destruct b; [left; split_and!; [done|tauto|done]|]. right. split; [done|].
  split; [by intros Hin%Hbu|]. destruct (rtnHTGet_true w0 k f (Some u) Ht) as (w1 & Hw1 & Ht1 & Hf1 & Hu1).
  step_with Hw1. step_with (deref_some _ _). cbn [sdsnew_ptr] in *. rewrite (sdsnew_nul_free u Hu) in *.
  step_with (read_rtn_tree _ _ _ _ Ht1 Hu1). destruct (tree_ok _ _ _ u Ht) as (Hcu & _).
  eexists w1, _. split_and!; [by eapply ADD_CR_done, Hcu; apply Hh0|done..].
Qed.

(** The table after an insertion by a client: the timestamps are the headers'
    own clocks, so nothing is removed. *)
Lemma t_rem_self f x : t_rem f x (current (header (f x))) = f.
Proof. unfold t_rem. rewrite removeCheck_spec, bool_decide_true by (done || apply vle_refl). done. Qed.

Lemma t_attach_current f nm p u y : current (header (t_attach f nm p u y)) = current (header (f y)).
Proof. exact (f_equal current (t_attach_header f nm p u y)). Qed.

Definition t_insert_own (f : table) (nm p u : sds) : table :=
  t_insert f nm p u (current (header (f p))) (current (header (f u))).

Lemma t_insert_own_eq f nm p u :
  t_insert_own f nm p u =
  let g := t_attach f nm p u in
  if pid (header (f u)) <? vc_id (current (header (f u)))
  then upd u (fun n => set_header n (mkReh (vc_id (current (header (f u)))) (current (header n)))) g else g.
Proof.
  unfold t_insert_own, t_insert. cbn zeta.
  assert (forall x, t_rem (t_attach f nm p u) x (current (header (f x))) = t_attach f nm p u) as Hself.
  { intros x. rewrite <- (t_attach_current f nm p u x). apply t_rem_self. }
  rewrite !Hself. unfold insertCheck. pose proof (t_attach_header f nm p u u) as Hu. unfold headers in Hu. rewrite Hu.
  by rewrite equalVC_refl.
Qed.

(** The entries of the table after it: the node hangs below its parent and
    exists, and has the name unless its value was changed before. *)
Definition inserted (f : table) (nm p u : sds) (y : sds) : rtn :=
  let n := f y in
  if decide (y = u) then
    mkRtn (mkReh (Z.max (pid (header n)) (vc_id (current (header n)))) (current (header n)))
      (vectorClock n) (moveVC n) (Some u) (if checkInitVC (vectorClock n) then Some nm else name n) (Some p) (children n)
  else if decide (y = p) then add_child u n else n.

Lemma t_insert_own_entry f nm p u y : p <> u -> t_insert_own f nm p u y = inserted f nm p u y.
Proof.
  intros Hpu. rewrite t_insert_own_eq. cbn zeta.
  assert (t_attach f nm p u y =
    if decide (y = u) then set_name (set_parent (set_uid (f u) (Some u)) (Some p))
                             (if checkInitVC (vectorClock (f u)) then Some nm else name (f u))
    else if decide (y = p) then add_child u (f p) else f y) as Ha.
  { unfold t_attach. cbn zeta. rewrite upd_eq. cbn [vectorClock set_parent set_uid].
    set (f2 := if checkInitVC _ then _ else _).
    assert (f2 u = set_name (set_parent (set_uid (f u) (Some u)) (Some p)) (if checkInitVC (vectorClock (f u)) then Some nm else name (f u))) as Hu.
    { unfold f2. destruct (checkInitVC _); rewrite ?upd_eq; [done|]. by destruct (f u). }
    assert (forall z, z <> u -> f2 z = f z) as Hz by (intros z Hz; unfold f2; destruct (checkInitVC _); by rewrite ?upd_ne by done).
    destruct (decide (y = u)) as [->|Hyu]; [by rewrite upd_ne by done|].
    destruct (decide (y = p)) as [->|Hyp]; [rewrite upd_eq, Hz by done; done|by rewrite upd_ne, Hz]. }
  unfold inserted. cbn zeta. destruct (decide (y = u)) as [->|Hyu].
  - destruct (Z.ltb_spec (pid (header (f u))) (vc_id (current (header (f u))))).
    + rewrite upd_eq, Ha, Z.max_r by lia. done.
    + rewrite Ha, Z.max_l by lia. destruct (f u) as [[]]. done.
  - destruct (_ <? _); [rewrite upd_ne by done|]; rewrite Ha; by case_decide; subst.
Qed.

(** The links after it: the new node exists under its parent. *)
Lemma t_insert_own_node f nm p u y :
  0 <= vc_id (current (header (f u))) -> 
  parent (t_insert_own f nm p u y) = (if decide (y = u) then Some p else parent (f y)) /\
  EXISTS (header (t_insert_own f nm p u y)) = (if decide (y = u) then true else EXISTS (header (f y))).
Proof.
  intros Hid. rewrite t_insert_own_eq. cbn zeta. set (g := t_attach f nm p u).
  assert (parent (g y) = if decide (y = u) then Some p else parent (f y)) as Hp.
  { unfold g, t_attach. cbn zeta. rewrite (upd_proj parent) by done.
    assert (parent (upd u (fun n => set_parent (set_uid n (Some u)) (Some p)) f y) =
      if decide (y = u) then Some p else parent (f y)) as Hv.
    { case_decide; [subst; by rewrite upd_eq|by rewrite upd_ne]. }
    destruct (checkInitVC _); [by rewrite (upd_proj parent)|done]. }
  pose proof (t_attach_header f nm p u y) as Hy. unfold headers in Hy. fold g in Hy.
  destruct (Z.ltb_spec (pid (header (f u))) (vc_id (current (header (f u))))).
  - split; [by rewrite (upd_proj parent)|]. case_decide as Hd.
    + subst y. rewrite upd_eq. unfold EXISTS. cbn. by apply Z.leb_le.
    + by rewrite upd_ne, Hy.
  - split; [done|]. rewrite Hy. case_decide as Hd; [|done]. subst y. unfold EXISTS. apply Z.leb_le. lia.
Qed.
Lemma t_insert_own_kids f nm p u y x :
  (y = p /\ x = u) \/ x ∈ kids (f y) -> x ∈ kids (t_insert_own f nm p u y).
Proof.
  rewrite t_insert_own_eq. cbn zeta. intros Hx.
  assert (x ∈ kids (t_attach f nm p u y)) as Hk.
  { unfold t_attach. cbn zeta. set (f2 := if checkInitVC _ then _ else _).
    assert (kids (f2 y) = kids (f y)) as Hf2.
    { unfold f2. destruct (checkInitVC _); by rewrite !(upd_proj kids). }
    destruct (decide (y = p)) as [->|Hy]; [rewrite upd_eq|rewrite upd_ne by done; rewrite Hf2; naive_solver].
    unfold add_child, kids. cbn. fold (kids (f2 p)). rewrite Hf2. set_solver. }
  destruct (_ <? _); [by rewrite (upd_proj kids)|done].
Qed.

Lemma relink_linked f g p u :
  linked f -> nul_free p -> u <> ROOT_ID ->
  EXISTS (header (g u)) = true /\ parent (g u) = Some p ->
  (forall y, y <> u -> header (g y) = header (f y) /\ parent (g y) = parent (f y)) ->
  (forall y x, (y = p /\ x = u) \/ (x <> u /\ x ∈ kids (f y)) -> x ∈ kids (g y)) -> linked g.
Proof.
  intros Hl Hp Hr Hnew Hold Hk x q Hx Hs.
  apply (relink_step f g p u Hnew Hold Hr) in Hs as [[Heq ->]|[Hne Hs]].
  - rewrite (sdsnew_nul_free x Hx) in Heq. split; [done|]. apply Hk. by left.
  - destruct (Hl x q Hx Hs) as [H1 H2]. split; [done|]. apply Hk. right. split; [|done].
    by rewrite (sdsnew_nul_free x Hx) in Hne.
Qed.

(** What a client sees of an insertion. *)
Lemma insert_client w k f fuel nm p u :
  let args := insert_args k nm p u in
  holds w k f -> (node_count w k < fuel)%nat -> parent_id p -> nul_free u ->
  (~ in_tree f p /\ call 0 (InsertWithIdCommand fuel) (request w args) =
     Done tt (mkWorld (srv w) (mkClient args None false false [R_ele_nexist]))) \/
  (in_tree f p /\ in_tree f u /\ call 0 (InsertWithIdCommand fuel) (request w args) =
     Done tt (mkWorld (srv w) (mkClient args None false false [R_ele_exist]))) \/
  (in_tree f p /\ ~ in_tree f u /\ exists w' f',
     call 0 (InsertWithIdCommand fuel) (request w args) = Done tt w' /\ holds w' k f' /\
     replies (cli w') = [R_ok] /\ (forall y, f' y = inserted f nm p u y) /\
     in_tree f' u /\ (forall y, in_tree f' y <-> in_tree f y \/ hangs f u y) /\
     rargv (cli w') =
       Some (tm_args k (TInsert nm p u (current (header (f p))) (current (header (f u)))))).
Proof.
  intros args Hh Hf Hp Hu.
  destruct (insert_prepare_spec w k f fuel nm p u Hh Hf (proj1 Hp) Hu)
    as [[Hin Hprep]|[(Hin & Hin' & Hprep)|(Hin & Hout & w1 & rv & Hprep & Ht1 & Hf1 & Hrv)]].
  - left. split; [done|]. by apply call_refused; [apply Hh|].
  - right; left. split_and!; [done..|]. by apply call_refused; [apply Hh|].
  - right; right. split_and!; [done..|].
    pose proof (ho_tree _ _ _ Hh) as Ht. pose proof (ho_cfg _ _ _ Hh) as Hc.
    destruct (tree_ok _ _ _ p Ht) as (Hcp & _), (tree_ok _ _ _ u Ht) as (Hcu & _).
    set (m := TInsert nm p u (current (header (f p))) (current (header (f u)))).
    assert (tm_wf (srv w) m) as Hwf by (split_and!; [done|done|by apply clock_stamp..]).
    destruct (tree_origin (insert_prepare fuel) m w k f args rv w1)
      as (w' & Hw' & Ht' & Hr' & Ha' & _ & Hc' & Hm' & Hhas'); [apply Hh|apply Hh|done|done|done|by rewrite Hrv|done|done|].
    set (f' := t_insert_own f nm p u). change (tm_step (p2p_id (srv w)) f m) with f' in Ht'.
    assert (0 <= vc_id (current (header (f u)))) as Hid by (destruct Hcu as (_ & -> & _); apply Hc).
    pose proof (t_insert_own_node f nm p u) as Hnode.
    assert (EXISTS (header (f' u)) = true /\ parent (f' u) = Some p) as Hnew.
    { destruct (Hnode u Hid) as [H1 H2]. rewrite decide_True in H1 by done. by rewrite decide_True in H2. }
    assert (forall y, y <> u -> header (f' y) = header (f y) /\ parent (f' y) = parent (f y)) as Hold.
    { intros y Hy. destruct (Hnode y Hid) as [H1 _]. rewrite decide_False in H1 by done. split; [|done].
      unfold f'. rewrite t_insert_own_eq. cbn zeta. pose proof (t_attach_header f nm p u y) as H3.
      unfold headers in H3. destruct (_ <? _); [by rewrite upd_ne|done]. }
    assert (u <> ROOT_ID) as Hroot by (intros ->; apply Hout; constructor).
    assert (in_tree f' p) as Hpin.
    { eapply relink_keeps; [exact Hnew|exact Hold|done..|by apply outside_hangs]. }
    assert (p <> u) as Hpu by (by intros ->).
    exists w', f'. split_and!; [done| |done|intros y; by apply t_insert_own_entry| | |done].
    + split; [done| | | |by apply Hhas', Hh|by eapply cfg_ok_stable|done].
      * apply t_insert_ok; [apply Hh|done].
      * eapply relink_acyclic; [exact Hnew|exact Hold|done..|apply Hh].
      * apply (relink_linked f f' p u); try done; [apply Hh|apply Hp|]. intros y x Hx. apply t_insert_own_kids. tauto.
    + eapply relink_members; [exact Hnew|exact Hold|done..|]. exists u. split; [done|]. by apply sdsnew_nul_free.
    + intros y. rewrite <- (relink_hangs f f' p u Hnew Hold Hroot y).
      split; [by eapply relink_members_inv; [exact Hnew|exact Hold|..]|].
      intros [Hy|Hy]; [|by eapply relink_members; [exact Hnew|exact Hold|..]].
      eapply relink_keeps; [exact Hnew|exact Hold|done..|by apply outside_hangs].
Qed.
End Insert.

(** ** Deletion *)

Section Delete.
Context `{DictOrder}.

Definition delete_args (k u : sds) : list sds := ["rwftreedelete"%string; k; u].

Definition node_room (f : table) (x : sds) : Prop := clock_room (header (f x)).

Lemma delete_prepare_spec w k f fuel u :
  let w0 := request w (delete_args k u) in
  holds w k f -> (node_count w k < fuel)%nat -> nul_free u -> node_room f u ->
  (~ in_tree f u /\ delete_prepare fuel w0 = Return (set_client (push_reply R_ele_nexist) w0)) \/
  (in_tree f u /\ exists rv, delete_prepare fuel w0 = Done rv w0 /\
     rv_items rv = [vcs (next_stamp (current (header (f u))))]).
Proof.
  intros w0 Hh Hf Hu Hroom. pose proof (holds_request w k f _ Hh : holds w0 k f) as Hh0.
  change (node_count w k) with (node_count w0 k) in Hf. pose proof (ho_tree _ _ _ Hh0) as Ht.
  unfold delete_prepare. step_with (arg_done w0 1 k eq_refl).
  step_with (getInnerHT_tree _ _ _ (ho_root _ _ _ Hh0)). step_with (arg_done w0 2 u eq_refl).
  destruct (istreeMember_holds w0 k f fuel u Hh0 Hf Hu) as (b & Hb & Hbi). step_with Hb.
  destruct b; cbn [negb]; [right|left; split; [by intros Hin%Hbi|done]].
  assert (in_tree f u) as Huin by tauto. split; [done|].
  pose proof (member_has w0 k f u Ht (ho_root _ _ _ Hh0) Hu Huin) as Huh.
  step_with (has_get _ _ _ _ Ht Huh (sdsnew_nul_free u Hu)). step_with (deref_some _ _).
  step_with (read_rtn_tree _ _ _ _ Ht Huh). destruct (tree_ok _ _ _ u Ht) as (Hcu & _).
  unfold ADD_CR_RMV. rewrite (nowVC_vcs _ _ (ho_cfg _ _ _ Hh0) Hcu Hroom).
  step_with (deref_some _ _). by eexists.
Qed.

(** A fresh removal takes effect. *)
Lemma t_rem_now f u s :
  cfg_ok s -> clock_ok s (current (header (f u))) ->
  let g := t_rem f u (next_stamp (current (header (f u)))) in
  EXISTS (header (g u)) = false /\
  forall y, y <> u -> header (g y) = header (f y) /\ parent (g y) = parent (f y).
Proof.
  intros [Hc Hi] (Hs & Hid & _). cbn zeta. unfold t_rem. rewrite removeCheck_spec, bool_decide_false.
  - cbn [negb]. cbn zeta. split.
    + rewrite (upd_proj header) by done. case_match; [rewrite (upd_proj header) by done|]; by rewrite upd_eq.
    + intros y Hy. rewrite upd_ne by done. case_match; rewrite ?(upd_proj header), ?(upd_proj parent) by done;
        by rewrite upd_ne.
  - apply bump_not_le. unfold vc_size in Hs. lia.
  - unfold vc_size, next_stamp. cbn. by rewrite bump_length.
Qed.

Lemma t_rem_kids f u t y x : nodes_ok f -> x ∈ kids (f y) -> x <> u -> x ∈ kids (t_rem f u t y).
Proof.
  intros Hn Hx Hne. unfold t_rem. destruct (removeCheck _ _) as [[]|]; [|done..]. cbn zeta.
  rewrite (upd_proj kids) by done. set (f1 := upd u _ f).
  assert (kids (f1 y) = kids (f y)) as H1 by (unfold f1; by rewrite (upd_proj kids)).
  destruct (uid (f1 u)) as [v|] eqn:Hv; [|by rewrite H1].
  assert (v = u) as ->.
  { unfold f1 in Hv. rewrite (upd_proj uid) in Hv by done. destruct (no_uid _ Hn u); congruence. }
  set (q := sdsnew_ptr (parent (f u))).
  destruct (decide (y = q)) as [->|Hy]; [rewrite upd_eq|by rewrite upd_ne, H1].
  unfold drop_child, kids. cbn. fold (kids (f1 q)). rewrite H1. set_solver.
Qed.

Lemma delete_client w k f fuel u :
  let args := delete_args k u in
  holds w k f -> (node_count w k < fuel)%nat -> nul_free u -> node_room f u -> u <> ROOT_ID ->
  (~ in_tree f u /\ call 0 (DeleteCommand fuel) (request w args) =
     Done tt (mkWorld (srv w) (mkClient args None false false [R_ele_nexist]))) \/
  (in_tree f u /\ exists w' f',
     call 0 (DeleteCommand fuel) (request w args) = Done tt w' /\ holds w' k f' /\
     replies (cli w') = [R_ok] /\
     (forall y, in_tree f' y <-> in_tree f y /\ ~ hangs f u y) /\
     rargv (cli w') = Some (tm_args k (TDelete u (next_stamp (current (header (f u))))))).
Proof.
  intros args Hh Hf Hu Hroom Hroot.
  destruct (delete_prepare_spec w k f fuel u Hh Hf Hu Hroom) as [[Hout Hprep]|(Hin & rv & Hprep & Hrv)].
  - left. split; [done|]. by apply call_refused; [apply Hh|].
  - right. split; [done|]. pose proof (ho_tree _ _ _ Hh) as Ht. pose proof (ho_cfg _ _ _ Hh) as Hc.
    destruct (tree_ok _ _ _ u Ht) as (Hcu & _).
    set (m := TDelete u (next_stamp (current (header (f u))))).
    assert (tm_wf (srv w) m) as Hwf by (split; [done|by apply next_stamp_ok]).
    destruct (tree_origin (delete_prepare fuel) m w k f args rv (request w args))
      as (w' & Hw' & Ht' & Hr' & Ha' & _ & Hc' & Hm' & Hhas');
      [apply Hh|apply Hh|done|done|by eapply tree_config, Ht|by rewrite Hrv|done|done|].
    destruct (t_rem_now f u (srv w) Hc Hcu) as [Hgone Hold].
    eexists w', _. split_and!; [done| |done| |done].
    + split; [exact Ht'|apply t_rem_ok, Hh| | |by apply Hhas', Hh|by eapply cfg_ok_stable|done].
      * eapply detach_acyclic; [exact Hgone|exact Hold|done..|apply Hh].
      * intros x q Hx Hs. apply (detach_step f _ u Hgone Hold Hroot) in Hs as [Hne Hs].
        destruct (ho_linked _ _ _ Hh x q Hx Hs) as [H1 H2]. split; [done|]. apply t_rem_kids; [apply Hh|done|].
        by rewrite (sdsnew_nul_free x Hx) in Hne.
    + intros y. by eapply detach_members.
Qed.
End Delete.

(** ** Creation *)

Section Create.
Context `{DictOrder}.

Definition create_args (k : sds) : list sds := ["rwftreecreate"%string; k].

(** A second creation is refused. *)
Lemma create_again w k f :
  holds w k f ->
  call 0 CreateTreeCommand (request w (create_args k)) =
  Done tt (mkWorld (srv w) (mkClient (create_args k) None false false [R_ele_exist])).
Proof.
  intros Hh. apply call_refused; [apply Hh|]. unfold CreateTree_prepare.
  step_with (arg_done (request w (create_args k)) 1 k eq_refl).
  by step_with (getInnerHT_tree _ _ _ (ho_root _ _ _ (holds_request _ _ _ (create_args k) Hh))).
Qed.

Definition only_root (s : server) : table := t_create (fun _ => rtn_new s) (p2p_id s).

Lemma only_root_none s y : y <> ROOT_ID -> EXISTS (header (node (only_root s) y)) = true -> sdsnew y = ROOT_ID.
Proof.
  intros Hy. unfold only_root, t_create, node. destruct (decide (sdsnew y = ROOT_ID)); [done|].
  by rewrite upd_ne.
Qed.

(** The tree that only has a root: no other plain id exists. *)
Lemma only_root_members s y : nul_free y -> in_tree (only_root s) y <-> y = ROOT_ID.
Proof.
  intros Hn. split; [|intros ->; constructor]. intros Hin. inversion Hin as [|? p (Hr & He & _) _]; [done|]. subst.
  apply only_root_none in He; [|done]. by rewrite (sdsnew_nul_free y Hn) in He.
Qed.

Lemma only_root_parent s x p : parent_step (only_root s) x p -> p = "null"%string.
Proof.
  intros (Hr & He & Hp). apply only_root_none in He; [|done]. unfold node, only_root, t_create in Hp.
  rewrite He, upd_eq in Hp. cbn in Hp. congruence.
Qed.

Lemma create_client w k :
  tree_untouched w k -> cfg_ok (srv w) -> REPLICATION_MODE (srv w) = true ->
  exists w', call 0 CreateTreeCommand (request w (create_args k)) = Done tt w' /\
    holds w' k (only_root (srv w)) /\ replies (cli w') = [R_ok] /\ rargv (cli w') = Some (tm_args k TCreate).
Proof.
  intros (H1 & H2 & H3) Hc Hm. destruct (untouched_tree w k H1 H2 H3) as [Ht Hn].
  destruct (tree_origin CreateTree_prepare TCreate w k (fun _ => rtn_new (srv w)) (create_args k) RVCT_PREPARE
    (request w (create_args k)))
    as (w' & Hw' & Ht' & Hr' & Ha' & _ & Hc' & Hm' & _); [done|done| |done|by eapply tree_config, Ht|done|done|done|].
  { unfold CreateTree_prepare. step_with (arg_done (request w (create_args k)) 1 k eq_refl).
    unfold getInnerHT. rewrite bind_assoc. step_with (lookupKey_done _ _).
    change (sdscat (sdsdup k) RW_TREE_SUFFIX) with (tht k). cbn. by rewrite H2. }
  assert (forall x y, tc (parent_step (only_root (srv w))) x y -> y = "null"%string) as Htc.
  { induction 1; [by eapply only_root_parent|done]. }
  exists w'. split_and!; [done| |done|done]. split; [done|by apply t_create_ok| | | |by eapply cfg_ok_stable|done].
  - intros x Hx. pose proof (Htc _ _ Hx) as ->. inversion Hx as [? ? (_ & He & _)|? ? ? (_ & He & _)]; done.
  - intros x p Hx (Hr & He & _). apply only_root_none in He; [|done]. by rewrite (sdsnew_nul_free x Hx) in He.
  - destruct Ht' as (V & Hrep). pose proof (rep_hash _ _ _ _ Hrep) as Hh. unfold shape_hash in Hh.
    assert (tm_step (p2p_id (srv w)) (fun _ => rtn_new (srv w)) TCreate ROOT_ID <> el_new (srv w')) as Hne.
    { cbn [tm_step]. unfold t_create. rewrite upd_eq. intros Heq. by apply (f_equal uid) in Heq. }
    destruct (db (srv w') !! tht k) as [[| |h| | |]|] eqn:Hdb; try done; specialize (Hh ROOT_ID); [|done].
    destruct (h !! ROOT_ID) as [v|] eqn:Hv; [|done]. by exists h, v.
Qed.
End Create.

(** ** Change of value *)

Section Change.
Context `{DictOrder}.

Definition change_args (k u v : sds) : list sds := ["rwftreechangevalue"%string; k; u; v].

Lemma current_loop_bump v i : 0 <= i < Z.of_nat (length v) -> current_loop v (bump v i) = -1.
Proof.
  intros Hi. unfold bump, at_index, set_index. destruct (Z.ltb_spec i 0); [lia|].
  assert (Z.to_nat i < length v)%nat as Hlt by lia. generalize dependent (Z.to_nat i). clear.
  intros n. revert n. induction v as [|x v IH]; intros [|n] Hn; cbn in Hn; try lia; cbn.
  - destruct (Z.ltb_spec (x + 1) x); [lia|]. destruct (Z.ltb_spec x (x + 1)); [done|lia].
  - specialize (IH n ltac:(lia)). destruct (v !! n) eqn:Hv; [|apply lookup_ge_None in Hv; lia].
    cbn. by rewrite Z.ltb_irrefl.
Qed.

(** The next event of a clock wins. *)
Lemma value_wins_next s c : cfg_ok s -> clock_ok s c -> value_wins c (next_stamp c) = true.
Proof.
  intros [Hc Hi] (Hs & Hid & _). unfold value_wins, currentCompare, next_stamp, vc_size in *.
  cbn. rewrite bump_length, Nat.eqb_refl, current_loop_bump; [done|lia].
Qed.

Definition value_room (f : table) (x : sds) : Prop := Forall (fun z => z < INT_MAX) (vector (vectorClock (f x))).

Lemma changevalue_prepare_spec w k f fuel u v :
  let w0 := request w (change_args k u v) in
  holds w k f -> (node_count w k < fuel)%nat -> nul_free u -> value_room f u ->
  (~ in_tree f u /\ changevalue_prepare fuel w0 = Return (set_client (push_reply R_ele_nexist) w0)) \/
  (in_tree f u /\ exists rv, changevalue_prepare fuel w0 = Done rv w0 /\
     rv_items rv = [vcs (next_stamp (vectorClock (f u))); vcs (current (header (f u)))]).
Proof.
  intros w0 Hh Hf Hu Hroom. pose proof (holds_request w k f _ Hh : holds w0 k f) as Hh0.
  change (node_count w k) with (node_count w0 k) in Hf. pose proof (ho_tree _ _ _ Hh0) as Ht.
  unfold changevalue_prepare. step_with (arg_done w0 1 k eq_refl).
  step_with (getInnerHT_tree _ _ _ (ho_root _ _ _ Hh0)). step_with (arg_done w0 2 u eq_refl).
  destruct (istreeMember_holds w0 k f fuel u Hh0 Hf Hu) as (b & Hb & Hbi). step_with Hb.
  destruct b; cbn [negb]; [right|left; split; [by intros Hin%Hbi|done]].
  assert (in_tree f u) as Huin by tauto. split; [done|].
  pose proof (member_has w0 k f u Ht (ho_root _ _ _ Hh0) Hu Huin) as Huh.
  step_with (has_get _ _ _ _ Ht Huh (sdsnew_nul_free u Hu)). step_with (deref_some _ _).
  step_with (read_rtn_tree _ _ _ _ Ht Huh). destruct (tree_ok _ _ _ u Ht) as (Hcu & Hcv & _).
  rewrite (nowVC_vcs _ _ (ho_cfg _ _ _ Hh0) Hcv Hroom). step_with (deref_some _ _).
  eexists. split; [by eapply ADD_CR_done, Hcu; apply Hh0|done].
Qed.

(** Changes that keep every link keep the tree. *)
Lemma same_links f g :
  (forall y, header (g y) = header (f y) /\ parent (g y) = parent (f y)) ->
  forall x p, parent_step g x p <-> parent_step f x p.
Proof. intros Hfg x p. unfold parent_step, node. by destruct (Hfg (sdsnew x)) as [-> ->]. Qed.

Lemma same_links_members f g y :
  (forall x p, parent_step g x p <-> parent_step f x p) -> in_tree g y <-> in_tree f y.
Proof.
  intros Hs. split; induction 1 as [|x p Hx _ IH]; try constructor; apply it_child with p; try done; by apply Hs.
Qed.

Lemma same_links_acyclic f g :
  (forall x p, parent_step g x p <-> parent_step f x p) -> acyclic f -> acyclic g.
Proof.
  intros Hs Hac x Hx. apply (Hac x). revert Hx. generalize x at 1 3 as y. intros y Hy.
  induction Hy as [y z H1|y z t H1 _ IH]; apply Hs in H1; [by apply tc_once|by eapply tc_l].
Qed.

(** The entries of the table after a change by a client. *)
Definition changed (f : table) (u v : sds) : table :=
  upd u (fun n => set_vectorClock (set_name n (Some v)) (updateVC (vectorClock n) (next_stamp (vectorClock n)))) f.

Lemma change_client w k f fuel u v :
  let args := change_args k u v in
  holds w k f -> (node_count w k < fuel)%nat -> nul_free u -> value_room f u ->
  (~ in_tree f u /\ call 0 (ChangeValueCommand fuel) (request w args) =
     Done tt (mkWorld (srv w) (mkClient args None false false [R_ele_nexist]))) \/
  (in_tree f u /\ exists w' f',
     call 0 (ChangeValueCommand fuel) (request w args) = Done tt w' /\ holds w' k f' /\
     replies (cli w') = [R_ok] /\
     (forall y, f' y = changed f u v y) /\ (forall y, in_tree f' y <-> in_tree f y) /\
     rargv (cli w') =
       Some (tm_args k (TChange u v (next_stamp (vectorClock (f u))) (current (header (f u)))))).
Proof.
  intros args Hh Hf Hu Hroom.
  destruct (changevalue_prepare_spec w k f fuel u v Hh Hf Hu Hroom) as [[Hout Hprep]|(Hin & rv & Hprep & Hrv)].
  { left. split; [done|]. by apply call_refused; [apply Hh|]. }
  right. split; [done|]. pose proof (ho_tree _ _ _ Hh) as Ht. pose proof (ho_cfg _ _ _ Hh) as Hc.
  destruct (tree_ok _ _ _ u Ht) as (Hcu & Hcv & _).
  set (m := TChange u v (next_stamp (vectorClock (f u))) (current (header (f u)))).
  assert (tm_wf (srv w) m) as Hwf by (split_and!; [done|by apply next_stamp_ok|by apply clock_stamp]).
  destruct (tree_origin (changevalue_prepare fuel) m w k f args rv (request w args))
    as (w' & Hw' & Ht' & Hr' & Ha' & _ & Hc' & Hm' & Hhas');
    [apply Hh|apply Hh|done|done|by eapply tree_config, Ht|by rewrite Hrv|done|done|].
  set (f' := tm_step (p2p_id (srv w)) f m) in *.
  assert (forall y, f' y = changed f u v y) as Hf'.
  { intros y. unfold f', m. cbn [tm_step]. unfold t_change, changed. cbn zeta. rewrite t_rem_self.
    unfold updateCheck. rewrite equalVC_refl, (value_wins_next _ _ Hc Hcv). cbn [andb]. rewrite upd_upd.
    destruct (decide (y = u)) as [->|]; [by rewrite !upd_eq|by rewrite !upd_ne]. }
  assert (forall x p, parent_step f' x p <-> parent_step f x p) as Hs.
  { apply same_links. intros y. unfold changed in Hf'. by rewrite !Hf', !(upd_proj header), !(upd_proj parent). }
  exists w', f'. split_and!; [done| |done|done| |done].
  - split; [done| | | |by apply Hhas', Hh|by eapply cfg_ok_stable|done].
    + apply t_change_ok, Hh.
    + eapply same_links_acyclic; [exact Hs|apply Hh].
    + intros x p Hx Hp. apply Hs in Hp. destruct (ho_linked _ _ _ Hh x p Hx Hp). split; [done|].
      unfold changed in Hf'. by rewrite Hf', (upd_proj kids).
  - intros y. by apply same_links_members.
Qed.
End Change.

(** ** Move *)

Section Move.
Context `{DictOrder}.

Definition move_args (k dst src : sds) : list sds := ["rwftreemove"%string; k; dst; src].

Lemma currency_loop_le v w a b : vle v w -> (currency_loop v w a b).1 = a.
Proof.
  intros Hle. revert a b. induction Hle as [|x y v w Hxy _ IH]; intros a b; [done|]. cbn.
  destruct (Z.ltb_spec y x); [lia|]. destruct (x <? y); apply IH.
Qed.

(** A larger clock is not concurrent. *)
Lemma checkCurrency_le c t : vle (vector c) (vector t) -> checkCurrency c t = Some false.
Proof.
  intros Hle. unfold checkCurrency, vc_size. rewrite (vle_length _ _ Hle), Nat.eqb_refl. cbn [negb].
  destruct (equalVC c t); [done|]. pose proof (currency_loop_le _ _ false false Hle) as Hf.
  destruct (currency_loop _ _ _ _) as [b1 b2]. cbn in Hf. by subst.
Qed.

Lemma next_stamp_event c :
  0 <= vc_id c < Z.of_nat (length (vector c)) -> next_event c (next_stamp c).
Proof.
  intros Hid. destruct (at_index_some (vector c) (vc_id c) Hid) as [x Hx]. unfold next_event, next_stamp.
  cbn [vc_id vector]. unfold bump, set_index. rewrite Hx. pose proof (at_index_lookup _ _ _ Hx) as [_ Hl].
  pose proof (lookup_lt_Some _ _ _ Hl) as Hlt. exists x, (x + 1). split_and!; [done| |done|].
  - unfold at_index. destruct (Z.ltb_spec (vc_id c) 0); [lia|]. by apply list_lookup_insert_eq.
  - intros j a b Ha Hb Hj. rewrite list_lookup_insert_ne in Hb by lia. rewrite Ha in Hb. injection Hb. lia.
Qed.

Lemma move_wins_next s n dst :
  cfg_ok s -> clock_ok s (moveVC n) -> Forall (fun z => z < INT_MAX) (vector (moveVC n)) ->
  move_wins n dst (next_stamp (moveVC n)) = true.
Proof.
  intros [Hc Hi] (Hs & Hid & Hv) Hroom. unfold move_wins. rewrite checkCurrency_le by apply bump_ge. cbn [default].
  unfold id, vc_size in *.
  destruct (causally_ready_next (moveVC n) (next_stamp (moveVC n))) as (b & -> & Hb); try done.
  - unfold vc_size, next_stamp. cbn. by rewrite bump_length.
  - unfold vc_size, next_stamp. cbn. rewrite bump_length. lia.
  - cbn. apply Hb, next_stamp_event. lia.
Qed.

(** Whatever hangs below an existing node is found below it. *)
Lemma linked_nul_free f y z : linked f -> nul_free y -> rtc (parent_step f) y z -> nul_free z.
Proof. intros Hl Hy Hr. induction Hr as [|y p z Hs _ IH]; [done|]. apply IH. by apply (Hl y p Hy). Qed.

Lemma hangs_below f x y :
  linked f -> EXISTS (header (f x)) = true -> nul_free y -> EXISTS (header (f y)) = true -> hangs f x y ->
  below f x y.
Proof.
  intros Hl Hx Hny Hy (z & Hr & Hz). pose proof (linked_nul_free _ _ _ Hl Hny Hr) as Hnz.
  rewrite (sdsnew_nul_free z Hnz) in Hz. subst z. unfold below, node. rewrite (sdsnew_nul_free y Hny).
  split; [|done]. clear Hy. induction Hr as [y|y p x Hs Hr IH]; [done|].
  destruct (Hl y p Hny Hs) as [Hnp Hk]. eapply rtc_r; [by apply IH|].
  unfold child_step, node. rewrite (sdsnew_nul_free p Hnp). split; [|done].
  inversion Hr as [|? ? ? (_ & He & _) _]; subst; [done|]. unfold node in He. by rewrite (sdsnew_nul_free p Hnp) in He.
Qed.

Definition move_room (f : table) (x : sds) : Prop := Forall (fun z => z < INT_MAX) (vector (moveVC (f x))).

(** A member other than the root exists and knows its id. *)
Lemma member_exists f x : nul_free x -> x <> ROOT_ID -> in_tree f x -> EXISTS (header (f x)) = true.
Proof.
  intros Hx Hr Hin. inversion Hin as [|? p (_ & He & _) _]; subst; [done|].
  unfold node in He. by rewrite (sdsnew_nul_free x Hx) in He.
Qed.

Lemma member_uid f x :
  nodes_ok f -> linked f -> nul_free x -> x <> ROOT_ID -> in_tree f x -> uid (f x) = Some x.
Proof.
  intros Hn Hl Hx Hr Hin. destruct (no_uid _ Hn x) as [Hu|]; [|done]. exfalso.
  inversion Hin as [|? p Hs _]; subst; [done|]. destruct (Hl x p Hx Hs) as [_ Hk].
  destruct Hs as (_ & _ & Hp). unfold node in Hp. rewrite (sdsnew_nul_free x Hx) in Hp.
  destruct (no_free _ Hn x Hu) as [Hp'|Hp']; rewrite Hp in Hp'; [done|]. injection Hp' as ->.
  rewrite (no_none _ Hn) in Hk. set_solver.
Qed.

(** Its parent is another node. *)
Lemma member_parent f x :
  linked f -> acyclic f -> nul_free x -> x <> ROOT_ID -> in_tree f x ->
  exists p, parent (f x) = Some p /\ nul_free p /\ p <> x.
Proof.
  intros Hl Hac Hx Hr Hin. inversion Hin as [|? p Hs _]; subst; [done|]. destruct (Hl x p Hx Hs) as [Hp _].
  exists p. split_and!; [|done|].
  - destruct Hs as (_ & _ & Hs). unfold node in Hs. by rewrite (sdsnew_nul_free x Hx) in Hs.
  - intros ->. by apply (Hac x), tc_once.
Qed.

Lemma move_prepare_spec w k f fuel dst src s :
  let w0 := request w (move_args k dst src) in
  holds w k f -> (node_count w k < fuel)%nat -> subTree fuel k src w0 = Done (SHT s) w0 ->
  nul_free dst -> nul_free src -> move_room f src ->
  (~ (in_tree f dst /\ in_tree f src) /\
     move_prepare fuel w0 = Return (set_client (push_reply R_ele_nexist) w0)) \/
  (in_tree f dst /\ in_tree f src /\ dst ∈ s /\
     move_prepare fuel w0 = Return (set_client (push_reply R_err) w0)) \/
  (in_tree f dst /\ in_tree f src /\ (dst ∉ s) /\ exists rv, move_prepare fuel w0 = Done rv w0 /\
     rv_items rv = [vcs (next_stamp (moveVC (f src))); vcs (current (header (f dst)));
                    vcs (current (header (f src)))]).
Proof.
  intros w0 Hh Hf Hsub Hd Hs Hroom. pose proof (holds_request w k f _ Hh : holds w0 k f) as Hh0.
  change (node_count w k) with (node_count w0 k) in Hf. pose proof (ho_tree _ _ _ Hh0) as Ht.
  unfold move_prepare. step_with (arg_done w0 1 k eq_refl).
  step_with (getInnerHT_tree _ _ _ (ho_root _ _ _ Hh0)). step_with (arg_done w0 2 dst eq_refl).
  destruct (istreeMember_holds w0 k f fuel dst Hh0 Hf Hd) as (b & Hb & Hbi). step_with Hb.
  destruct b; cbn [negb]; [|left; split; [by intros [Hin%Hbi _]|done]].
  assert (in_tree f dst) as Hdin by tauto. step_with (arg_done w0 3 src eq_refl).
  destruct (istreeMember_holds w0 k f fuel src Hh0 Hf Hs) as (b & Hb' & Hbs). step_with Hb'.
  destruct b; cbn [negb]; [|left; split; [by intros [_ Hin%Hbs]|done]].
  assert (in_tree f src) as Hsin by tauto. right. step_with Hsub.
  assert (setTypeIsMember (SHT s) dst = bool_decide (dst ∈ s)) as -> by (by apply (setTypeIsMember_spec 0)).
  case_bool_decide as Hin; [left; by split_and!|right; split_and!; [done..|]].
  pose proof (member_has w0 k f dst Ht (ho_root _ _ _ Hh0) Hd Hdin) as Hdh.
  pose proof (member_has w0 k f src Ht (ho_root _ _ _ Hh0) Hs Hsin) as Hsh.
  step_with (has_get _ _ _ _ Ht Hdh (sdsnew_nul_free dst Hd)).
  step_with (has_get _ _ _ _ Ht Hsh (sdsnew_nul_free src Hs)). step_with (deref_some _ _).
  step_with (read_rtn_tree _ _ _ _ Ht Hsh). destruct (tree_ok _ _ _ src Ht) as (Hcs & _ & Hcm & _).
  rewrite (nowVC_vcs _ _ (ho_cfg _ _ _ Hh0) Hcm Hroom). step_with (deref_some _ _). step_with (deref_some _ _).
  step_with (read_rtn_tree _ _ _ _ Ht Hdh). destruct (tree_ok _ _ _ dst Ht) as (Hcd & _).
  step_with (ADD_CR_done w0 (RARGV_ADD_SDS RVCT_PREPARE (vcs (next_stamp (moveVC (f src))))) _ _
    (ho_cfg _ _ _ Hh0) Hcd).
  eexists. split; [by eapply ADD_CR_done, Hcs; apply Hh0|done].
Qed.

(** The entries of the table after a move by a client: the node has another
    parent and a later move clock, its old parent lost it and the new one got it,
    and nothing else changed. *)
Definition moved (f : table) (dst src : sds) (y : sds) : rtn :=
  let n := f y in
  if decide (y = src) then set_moveVC (set_parent n (Some dst)) (updateVC (moveVC n) (next_stamp (moveVC n)))
  else if decide (y = dst) then add_child src n
  else if decide (parent (f src) = Some y) then drop_child src n else n.

Lemma t_reattach_entry f dst src p y :
  dst <> src -> parent (f src) = Some p -> nul_free p -> p <> src ->
  t_reattach f src dst y =
  if decide (y = src) then set_parent (f src) (Some dst)
  else if decide (y = dst) then add_child src (f y)
  else if decide (parent (f src) = Some y) then drop_child src (f y) else f y.
Proof.
  intros Hds Hp Hnp Hps. unfold t_reattach. cbn zeta. rewrite Hp. cbn [sdsnew_ptr]. rewrite (sdsnew_nul_free p Hnp).
  destruct (decide (y = src)) as [->|Hys]; [rewrite upd_eq, !upd_ne by done; done|]. rewrite upd_ne by done.
  destruct (decide (y = dst)) as [->|Hyd].
  - rewrite upd_eq. destruct (decide (dst = p)) as [->|Hdp]; [rewrite upd_eq|by rewrite upd_ne].
    assert ({[src]} ∪ (kids (f p) ∖ {[src]}) = {[src]} ∪ kids (f p)) as Hk by (apply set_eq; intros x; destruct (decide (x = src)); set_solver).
    unfold add_child. change (kids (drop_child src (f p))) with (kids (f p) ∖ {[src]}). by rewrite Hk.
  - rewrite upd_ne by done. destruct (decide (Some p = Some y)) as [[= ->]|Hpy]; [by rewrite upd_eq|].
    rewrite upd_ne; [done|]. by intros ->.
Qed.

Lemma t_move_entry f dst src p s y :
  cfg_ok s -> clock_ok s (moveVC (f src)) -> move_room f src ->
  dst <> src -> parent (f src) = Some p -> nul_free p -> p <> src ->
  t_move f dst src (next_stamp (moveVC (f src))) (current (header (f dst))) (current (header (f src))) y =
  moved f dst src y.
Proof.
  intros Hc Hm Hroom Hds Hp Hnp Hps. unfold t_move. cbn zeta. rewrite !t_rem_self. unfold updateCheck.
  rewrite equalVC_refl, (move_wins_next _ _ dst Hc Hm Hroom). cbn [andb]. unfold moved.
  destruct (decide (y = src)) as [->|Hys]; [rewrite upd_eq|rewrite upd_ne by done];
    rewrite (t_reattach_entry f dst src p) by done; [|by rewrite decide_False]. by rewrite decide_True.
Qed.

(** The links after it. *)
Lemma moved_links f dst src :
  dst <> src ->
  (forall y, header (moved f dst src y) = header (f y)) /\
  (forall y, parent (moved f dst src y) = if decide (y = src) then Some dst else parent (f y)) /\
  (forall y x, (y = dst /\ x = src) \/ (x <> src /\ x ∈ kids (f y)) -> x ∈ kids (moved f dst src y)).
Proof.
  intros Hds. unfold moved. cbn zeta. split_and!.
  - intros y. repeat case_decide; done.
  - intros y. repeat case_decide; done.
  - intros y x Hx. repeat case_decide; try (naive_solver done).
    + unfold add_child, kids. cbn. fold (kids (f y)). set_solver.
    + unfold drop_child, kids. cbn. fold (kids (f y)). set_solver.
Qed.

(** What a client sees of a move, when nothing below the moved node is below
    itself. *)
Lemma move_client w k f dst src :
  let args := move_args k dst src in
  holds w k f -> parent_id dst -> nul_free src -> src <> ROOT_ID -> move_room f src ->
  Acc (flip (child_step f)) src ->
  exists n, (unshared f (stored_ids w k) -> (n <= S (node_count w k))%nat) /\
  forall fuel, (n <= fuel)%nat -> (node_count w k < fuel)%nat ->
  (~ (in_tree f dst /\ in_tree f src) /\ call 0 (MoveCommand fuel) (request w args) =
     Done tt (mkWorld (srv w) (mkClient args None false false [R_ele_nexist]))) \/
  (in_tree f dst /\ in_tree f src /\ below f src dst /\ call 0 (MoveCommand fuel) (request w args) =
     Done tt (mkWorld (srv w) (mkClient args None false false [R_err]))) \/
  (in_tree f dst /\ in_tree f src /\ ~ below f src dst /\ exists w' f',
     call 0 (MoveCommand fuel) (request w args) = Done tt w' /\ holds w' k f' /\
     replies (cli w') = [R_ok] /\ (forall y, f' y = moved f dst src y) /\
     (forall y, in_tree f' y <-> in_tree f y) /\ (forall y, hangs f' src y <-> hangs f src y) /\
     rargv (cli w') = Some (tm_args k (TMove dst src (next_stamp (moveVC (f src)))
                                        (current (header (f dst))) (current (header (f src)))))).
Proof.
  intros args Hh Hd Hs Hroot Hroom Hacc. pose proof (ho_tree _ _ _ Hh) as Ht. pose proof (ho_cfg _ _ _ Hh) as Hc.
  assert (tree (request w args) k f) as Ht0 by (by eapply tree_config, Ht).
  destruct (subTree_spec (request w args) k f src Ht0) as (n & s & Hmem & Hsub & Hn);
    rewrite (sdsnew_nul_free src Hs) in *; [done|].
  exists n. split; [exact Hn|]. intros fuel Hfuel Hcount. specialize (Hsub fuel). rewrite decide_True in Hsub by done.
  destruct (move_prepare_spec w k f fuel dst src s Hh Hcount Hsub (proj1 Hd) Hs Hroom)
    as [[Hin Hprep]|[(Hdin & Hsin & Hin & Hprep)|(Hdin & Hsin & Hout & rv & Hprep & Hrv)]].
  { left. split; [done|]. by apply call_refused; [apply Hh|]. }
  { right; left. rewrite <- Hmem. split_and!; [done..|]. by apply call_refused; [apply Hh|]. }
  right; right. rewrite Hmem in Hout. split_and!; [done..|].
  destruct (tree_ok _ _ _ src Ht) as (Hcs & _ & Hcm & _), (tree_ok _ _ _ dst Ht) as (Hcd & _).
  set (m := TMove dst src (next_stamp (moveVC (f src))) (current (header (f dst))) (current (header (f src)))).
  pose proof (member_uid f src (ho_nodes _ _ _ Hh) (ho_linked _ _ _ Hh) Hs Hroot Hsin) as Huid.
  pose proof (member_exists f src Hs Hroot Hsin) as Hex.
  assert (tm_wf (srv w) m) as Hwf by (split; [done|]; split_and!; [done|by apply next_stamp_ok|by apply clock_stamp..]).
  destruct (tree_origin (move_prepare fuel) m w k f args rv (request w args))
    as (w' & Hw' & Ht' & Hr' & Ha' & _ & Hc' & Hm' & Hhas');
    [apply Hh|apply Hh|done|done|done|by rewrite Hrv|done|done|].
  set (f' := tm_step (p2p_id (srv w)) f m) in *.
  assert (dst <> src) as Hds.
  { intros ->. apply Hout. split; [done|]. unfold node. by rewrite (sdsnew_nul_free src Hs). }
  destruct (member_parent f src (ho_linked _ _ _ Hh) (ho_acyclic _ _ _ Hh) Hs Hroot Hsin) as (p & Hp & Hnp & Hps).
  assert (forall y, f' y = moved f dst src y) as Hf' by (intros y; by apply (t_move_entry f dst src p (srv w))).
  destruct (moved_links f dst src Hds) as (Hhd & Hpar & Hkids).
  assert (EXISTS (header (f' src)) = true /\ parent (f' src) = Some dst) as Hnew.
  { by rewrite !Hf', Hhd, Hpar, decide_True. }
  assert (forall y, y <> src -> header (f' y) = header (f y) /\ parent (f' y) = parent (f y)) as Hold.
  { intros y Hy. by rewrite !Hf', Hhd, Hpar, decide_False. }
  assert (~ hangs f src dst) as Hno.
  { intros Hhang. apply Hout, hangs_below; [apply Hh|done|apply Hd| |done].
    apply member_exists; [apply Hd| |done]. intros ->. destruct Hhang as (z & Hz & Hzs).
    inversion Hz as [|? ? ? [? _]]; by subst. }
  assert (in_tree f' dst) as Hdin' by (eapply relink_keeps; [exact Hnew|exact Hold|done..]).
  exists w', f'. split_and!; [done| |done|done| | |done].
  - split; [done| | | |by apply Hhas', Hh|by eapply cfg_ok_stable|done].
    + apply t_move_ok; [apply Hh|done|done].
    + eapply relink_acyclic; [exact Hnew|exact Hold|done..|apply Hh].
    + apply (relink_linked f f' dst src); try done; [apply Hh|apply Hd|]. intros y x Hx. rewrite Hf'. by apply Hkids.
  - intros y. by eapply relink_same; [exact Hnew|exact Hold|..].
  - by apply (relink_hangs f f' dst src).
Qed.

(** Every member of the tree is found from the root. *)
Lemma member_below_root f y :
  linked f -> EXISTS (header (f ROOT_ID)) = true -> nul_free y -> in_tree f y -> below f ROOT_ID y.
Proof.
  intros Hl Hr Hy Hin. destruct (decide (y = ROOT_ID)) as [->|Hne]; [by split|].
  apply hangs_below; [done..|by apply member_exists|]. clear Hy Hne.
  induction Hin as [|x p Hs _ (z & Hz & Hzr)]; [by exists ROOT_ID|]. exists z. split; [|done]. by econstructor.
Qed.
End Move.

(** ** The table of a state *)

Lemma ext_links f g : (forall x, f x = g x) -> forall x p, parent_step g x p <-> parent_step f x p.
Proof. intros Hfg. apply same_links. intros y. by rewrite Hfg. Qed.

Lemma nodes_ok_ext f g : (forall x, f x = g x) -> nodes_ok f -> nodes_ok g.
Proof. intros Hfg Hn. split; [intros x|intros x| | |intros x]; rewrite <- !Hfg; apply Hn. Qed.

Lemma holds_table w k f : holds w k f -> holds w k (table_of w k).
Proof.
  intros Hh. assert (forall x, f x = table_of w k x) as Hx by (intros; eapply tree_unique, Hh).
  destruct Hh as [H1 H2 H3 H4 H5 H6 H7]. split; try done.
  - by eapply tree_ext.
  - by eapply nodes_ok_ext.
  - by eapply same_links_acyclic; [by apply ext_links|].
  - intros x p Hn Hp. rewrite <- Hx. apply H4; [done|]. exact (proj1 (ext_links f (table_of w k) Hx x p) Hp).
Qed.

Section Runs.
Context `{DictOrder}.

Lemma create_holds w k :
  tree_untouched w k -> cfg_ok (srv w) -> REPLICATION_MODE (srv w) = true ->
  let w' := (run_call (request w (create_args k)) CreateTreeCommand).1 in holds w' k (table_of w' k).
Proof.
  intros Hu Hc Hm. destruct (create_client w k Hu Hc Hm) as (w' & Hw' & Hh & _).
  unfold run_call. rewrite Hw'. by eapply holds_table.
Qed.

Lemma insert_holds w k fuel nm p u :
  let f := table_of w k in
  holds w k f -> (node_count w k < fuel)%nat -> parent_id p -> nul_free u ->
  walk f fuel p = Some true -> walk f fuel u = Some false ->
  let w' := (run_call (request w (insert_args k nm p u)) (InsertWithIdCommand fuel)).1 in
  holds w' k (table_of w' k).
Proof.
  intros f Hh Hn Hp Hu Hwp Hwu. pose proof (walk_sound _ _ _ _ Hwp) as H1. pose proof (walk_sound _ _ _ _ Hwu) as H2.
  destruct (insert_client w k f fuel nm p u Hh Hn Hp Hu) as [[Hc _]|[(_ & Hc & _)|(_ & _ & w' & f' & Hw' & Hh' & _)]].
  - by destruct Hc; apply H1.
  - by apply H2 in Hc.
  - unfold run_call. rewrite Hw'. by eapply holds_table.
Qed.
End Runs.
