(* ===== verification/RWTreeLimits.v ===== *)
(** * Where the remove-win tree fails

    What the commands do that a tree should not.  For any two replicas: concurrent
    changes and insertions end with different values and different parents,
    crossing moves form a cycle on which the walks never end, and the creation of
    the tree undoes a deletion of its root.  And single runs: a root that can be
    deleted, and a move that aborts the server when it overtakes the insertion of
    its node. *)
From Stdlib Require Import ZArith Lia Ascii String.
From stdpp Require Import functions base numbers strings gmap sets list.
From S2P Require Import Prelude Sds VectorClock LamportClock Intset SetType Server RWFramework Container RWSet Stamps RWTree RWTreeRep RWTreeConv RWTreeWalk RWTreeClient.
Open Scope Z_scope.
Open Scope string_scope.

(** ** Two replicas that exchange one request each

    Both hold the tree and have seen the same operations on the nodes in
    question.  Each runs a request of a client and then receives the message of
    the other's. *)
Definition same_clocks (f1 f2 : table) (u : sds) : Prop :=
  vector (current (header (f1 u))) = vector (current (header (f2 u))) /\
  vector (vectorClock (f1 u)) = vector (vectorClock (f2 u)) /\
  vector (moveVC (f1 u)) = vector (moveVC (f2 u)).

Definition exchanged `{DictOrder} (k : sds) (p1 p2 : cmd unit) (a1 a2 : list sds) (w1 w2 w1' w2' : world) : Prop :=
  exists m1 m2 v1 v2,
    call 0 p1 (request w1 a1) = Done tt v1 /\ rargv (cli v1) = Some (tm_args k m1) /\
    call 0 p2 (request w2 a2) = Done tt v2 /\ rargv (cli v2) = Some (tm_args k m2) /\
    tdeliver k v1 m2 = Done tt w1' /\ tdeliver k v2 m1 = Done tt w2'.

Record peers (w1 w2 : world) (k : sds) (f1 f2 : table) : Prop := {
  pe_1 : holds w1 k f1;
  pe_2 : holds w2 k f2;
  pe_count : p2p_count (srv w1) = p2p_count (srv w2);
  pe_id : p2p_id (srv w1) <> p2p_id (srv w2)
}.

Lemma peers_sym w1 w2 k f1 f2 : peers w1 w2 k f1 f2 -> peers w2 w1 k f2 f1.
Proof. intros [H1 H2 H3 H4]. by split. Qed.

Lemma same_clocks_sym f1 f2 u : same_clocks f1 f2 u -> same_clocks f2 f1 u.
Proof. intros (H1 & H2 & H3). by split_and!. Qed.

(** The message of the other replica is well formed here. *)
Lemma tm_wf_count s s' m : p2p_count s = p2p_count s' -> tm_wf s m -> tm_wf s' m.
Proof. intros Hc. unfold tm_wf, stamp_ok, event_ok, ts_ok. by rewrite Hc. Qed.

(** Requests do not change the number of replicas. *)
Lemma holds_count w w' k f f' u :
  holds w k f -> holds w' k f' -> current (header (f' u)) = current (header (f u)) ->
  p2p_count (srv w') = p2p_count (srv w).
Proof.
  intros Hh Hh' Hu. destruct (tree_ok _ _ _ u (ho_tree _ _ _ Hh)) as ((Hs & _) & _).
  destruct (tree_ok _ _ _ u (ho_tree _ _ _ Hh')) as ((Hs' & _) & _). rewrite Hu in Hs'.
  destruct (ho_cfg _ _ _ Hh), (ho_cfg _ _ _ Hh'). lia.
Qed.

(** A removal that was seen changes nothing. *)
Lemma t_rem_seen f x r : vector r = vector (current (header (f x))) -> t_rem f x r = f.
Proof.
  intros Hv. unfold t_rem. rewrite removeCheck_spec by (unfold vc_size; congruence).
  by rewrite bool_decide_true by (rewrite Hv; apply vle_refl).
Qed.

(** The next event of another replica is ready, also after events of this
    one. *)
Lemma at_index_bump v i j : 0 <= i -> i <> j -> at_index (bump v i) j = at_index v j.
Proof.
  intros Hi Hij. unfold bump. destruct (at_index v i) eqn:Hx; [|done]. unfold at_index, set_index.
  destruct (Z.ltb_spec j 0); [done|]. apply list_lookup_insert_ne. lia.
Qed.

Lemma ready_peer s c v c2 :
  clock_ok s c2 -> cfg_ok s -> Forall (fun z => z < INT_MAX) (vector c2) -> vle (vector c2) (vector c) -> v = vc_id c2 ->
  at_index (vector c) v = at_index (vector c2) v -> causally_ready c (next_stamp c2) = Some true.
Proof.
  intros (Hs & Hid & Hin) [Hc Hi] Hmax Hle -> Hat. unfold causally_ready, next_stamp, vc_size in *. cbn [vector vc_id].
  rewrite bump_length, <- (vle_length _ _ Hle), Nat.eqb_refl. cbn [negb].
  destruct (at_index_some (vector c2) (vc_id c2)) as [x Hx]; [lia|].
  assert (ready_loop 0 (vc_id c2) (vector c) (bump (vector c2) (vc_id c2)) = true) as ->.
  { apply ready_loop_spec; [by rewrite bump_length, (vle_length _ _ Hle)|]. intros j a b Ha Hb Hj. cbn in Hj.
    unfold bump in Hb. rewrite Hx in Hb. unfold set_index in Hb. rewrite list_lookup_insert_ne in Hb by lia.
    by apply (Forall2_lookup_lr _ _ _ j b a Hle). }
  rewrite Hat, Hx. cbn [negb]. unfold bump. rewrite Hx.
  apply at_index_lookup in Hx as [H0 Hx]. unfold at_index, set_index. destruct (Z.ltb_spec (vc_id c2) 0); [lia|].
  rewrite list_lookup_insert_eq by (by eapply lookup_lt_Some). rewrite Forall_lookup in Hmax, Hin.
  specialize (Hmax _ _ Hx). specialize (Hin _ _ Hx). rewrite to_int_id by clia. by rewrite Z.eqb_refl.
Qed.

Lemma next_vector c : vector (updateVC c (next_stamp c)) = bump (vector c) (vc_id c).
Proof.
  rewrite updateVC_vector by (unfold vc_size, next_stamp; cbn; by rewrite bump_length). cbn.
  rewrite update_loop_comm by (by rewrite bump_length). apply update_loop_absorb, bump_ge.
Qed.

Section Peers.
Context `{DictOrder}.

(** ** Values diverge *)

(** A change at this replica, and then one that was made elsewhere without
    knowledge of it: the second wins. *)
Lemma change_then w1 w2 k f1 f2 fuel u x y :
  peers w1 w2 k f1 f2 -> same_clocks f1 f2 u -> nul_free u -> (node_count w1 k < fuel)%nat ->
  in_tree f1 u -> value_room f1 u -> value_room f2 u ->
  exists v1 w1', call 0 (ChangeValueCommand fuel) (request w1 (change_args k u x)) = Done tt v1 /\
    rargv (cli v1) = Some (tm_args k (TChange u x (next_stamp (vectorClock (f1 u))) (current (header (f1 u))))) /\
    tdeliver k v1 (TChange u y (next_stamp (vectorClock (f2 u))) (current (header (f2 u)))) = Done tt w1' /\
    name (table_of w1' k u) = Some y.
Proof.
  intros [H1 H2 Hcnt Hid] (Ha & Hv & _) Hu Hf Hin Hr1 Hr2.
  destruct (change_client w1 k f1 fuel u x H1 Hf Hu Hr1) as [[Hout _]|(_ & v1 & f & Hc & Hh & _ & Hf' & _ & Hm)]; [done|].
  destruct (tree_ok _ _ _ u (ho_tree _ _ _ H2)) as (Hch & Hcv & _).
  destruct (tree_ok _ _ _ u (ho_tree _ _ _ H1)) as (_ & (_ & Hcid1 & _) & _).
  assert (f u = changed f1 u x u) as Hfu by apply Hf'. unfold changed in Hfu. rewrite upd_eq in Hfu.
  set (m := TChange u y (next_stamp (vectorClock (f2 u))) (current (header (f2 u)))).
  assert (tm_wf (srv v1) m) as Hwf.
  { apply (tm_wf_count (srv w2)); [rewrite <- Hcnt; symmetry; eapply (holds_count _ _ k _ _ u H1 Hh); by rewrite Hfu|].
    destruct (ho_cfg _ _ _ H2). split_and!; [done|by apply next_stamp_ok|by apply clock_stamp]. }
  destruct (tdeliver_tree v1 k f m (ho_tree _ _ _ Hh) (ho_nodes _ _ _ Hh) (ho_mode _ _ _ Hh) Hwf I) as (w1' & Hd & Ht & _).
  exists v1, w1'. split_and!; [done..|]. rewrite <- (tree_unique _ _ _ u Ht). unfold m. cbn [tm_step]. unfold t_change. cbn zeta.
  rewrite t_rem_seen by (rewrite Hfu; by cbn). rewrite upd_eq. cbn [name set_vectorClock].
  assert (updateCheck (header (f u)) (current (header (f2 u))) = true) as ->.
  { unfold updateCheck. apply equalVC_spec. rewrite Hfu. by cbn. }
  assert (value_wins (vectorClock (f u)) (next_stamp (vectorClock (f2 u))) = true) as ->.
  { unfold value_wins. rewrite (ready_peer (srv w2) _ (vc_id (vectorClock (f2 u)))); [by rewrite orb_true_r|done|apply H2|done|..|done|].
    all: rewrite Hfu; cbn [vectorClock set_vectorClock]; rewrite next_vector, <- Hv.
    - apply bump_ge.
    - destruct Hcv as (_ & -> & _). rewrite Hcid1. apply at_index_bump; [apply H1|done]. }
  cbn [andb]. by rewrite upd_eq.
Qed.

Lemma values_diverge w1 w2 k f1 f2 fuel u x y :
  peers w1 w2 k f1 f2 -> same_clocks f1 f2 u -> nul_free u ->
  (node_count w1 k < fuel)%nat -> (node_count w2 k < fuel)%nat ->
  in_tree f1 u -> in_tree f2 u -> value_room f1 u -> value_room f2 u ->
  exists w1' w2', exchanged k (ChangeValueCommand fuel) (ChangeValueCommand fuel) (change_args k u x) (change_args k u y) w1 w2 w1' w2' /\
    name (table_of w1' k u) = Some y /\ name (table_of w2' k u) = Some x.
Proof.
  intros Hp Hs Hu Hf1 Hf2 Hi1 Hi2 Hr1 Hr2.
  destruct (change_then w1 w2 k f1 f2 fuel u x y) as (v1 & w1' & Hc1 & Hm1 & Hd1 & Hn1); [done..|].
  destruct (change_then w2 w1 k f2 f1 fuel u y x) as (v2 & w2' & Hc2 & Hm2 & Hd2 & Hn2);
    [by apply peers_sym|by apply same_clocks_sym|done..|].
  exists w1', w2'. split; [|done]. by eexists _, _, v1, v2.
Qed.

(** ** Parents diverge *)

Lemma t_rem_parent_ne f x t y : y <> x -> parent (t_rem f x t y) = parent (f y).
Proof.
  intros Hy. unfold t_rem. destruct (removeCheck _ _) as [[]|]; [|done..]. cbn zeta. rewrite upd_ne by done.
  case_match; by rewrite !(upd_proj parent).
Qed.

(** An insertion whose clock was seen puts the node below its parent. *)
Lemma t_insert_parent f nm p u r_p r :
  u <> p -> vector r = vector (current (header (f u))) -> parent (t_insert f nm p u r_p r u) = Some p.
Proof.
  intros Hup Hr. unfold t_insert. cbn zeta.
  assert (header (t_rem (t_attach f nm p u) p r_p u) = header (f u)) as Hh.
  { pose proof (t_rem_header (t_attach f nm p u) p r_p u) as Hh. unfold headers, hdr_step in Hh. cbn [fst snd] in Hh.
    rewrite fn_lookup_insert_ne in Hh by done. rewrite Hh. apply (t_attach_header f nm p u u). }
  rewrite (t_rem_seen _ u r) by (by rewrite Hh).
  assert (parent (t_rem (t_attach f nm p u) p r_p u) = Some p) as Hp.
  { rewrite t_rem_parent_ne by done. unfold t_attach. cbn zeta. rewrite upd_ne by done.
    destruct (checkInitVC _); rewrite ?(upd_proj parent _ (fun n => set_name n _)) by done; by rewrite upd_eq. }
  destruct (insertCheck _ _); [by rewrite (upd_proj parent)|done].
Qed.

Lemma insert_then w1 w2 k f1 f2 fuel n1 n2 p1 p2 u :
  peers w1 w2 k f1 f2 -> same_clocks f1 f2 u -> nul_free u -> parent_id p1 -> parent_id p2 -> (node_count w1 k < fuel)%nat ->
  in_tree f1 p1 -> ~ in_tree f1 u -> in_tree f2 p2 -> ~ in_tree f2 u ->
  exists v1 w1', call 0 (InsertWithIdCommand fuel) (request w1 (insert_args k n1 p1 u)) = Done tt v1 /\
    rargv (cli v1) = Some (tm_args k (TInsert n1 p1 u (current (header (f1 p1))) (current (header (f1 u))))) /\
    tdeliver k v1 (TInsert n2 p2 u (current (header (f2 p2))) (current (header (f2 u)))) = Done tt w1' /\
    parent (table_of w1' k u) = Some p2.
Proof.
  intros [H1 H2 Hcnt Hid] (Ha & _) Hu Hp1 Hp2 Hf Hin Hout Hin2 Hout2.
  destruct (insert_client w1 k f1 fuel n1 p1 u H1 Hf Hp1 Hu) as [[? _]|[(_ & ? & _)|(_ & _ & v1 & f & Hc & Hh & _ & Hf' & _ & _ & Hm)]]; [done..|].
  destruct (tree_ok _ _ _ u (ho_tree _ _ _ H2)) as (Hch & _), (tree_ok _ _ _ p2 (ho_tree _ _ _ H2)) as (Hcp & _).
  assert (current (header (f u)) = current (header (f1 u))) as Hfu.
  { rewrite Hf'. unfold inserted. by rewrite decide_True. }
  set (m := TInsert n2 p2 u (current (header (f2 p2))) (current (header (f2 u)))).
  assert (tm_wf (srv v1) m) as Hwf.
  { apply (tm_wf_count (srv w2)); [rewrite <- Hcnt; symmetry; by eapply (holds_count _ _ k _ _ u H1 Hh)|].
    destruct (ho_cfg _ _ _ H2). split_and!; [apply Hp2..|done|by apply clock_stamp|by apply clock_stamp]. }
  destruct (tdeliver_tree v1 k f m (ho_tree _ _ _ Hh) (ho_nodes _ _ _ Hh) (ho_mode _ _ _ Hh) Hwf I) as (w1' & Hd & Ht & _).
  exists v1, w1'. split_and!; [done..|]. rewrite <- (tree_unique _ _ _ u Ht). apply t_insert_parent; [by intros ->|]. by rewrite Hfu.
Qed.

Lemma parents_diverge w1 w2 k f1 f2 fuel n1 n2 p1 p2 u :
  peers w1 w2 k f1 f2 -> same_clocks f1 f2 u -> nul_free u -> parent_id p1 -> parent_id p2 ->
  (node_count w1 k < fuel)%nat -> (node_count w2 k < fuel)%nat ->
  in_tree f1 p1 -> ~ in_tree f1 u -> in_tree f2 p2 -> ~ in_tree f2 u ->
  exists w1' w2', exchanged k (InsertWithIdCommand fuel) (InsertWithIdCommand fuel) (insert_args k n1 p1 u) (insert_args k n2 p2 u) w1 w2 w1' w2' /\
    parent (table_of w1' k u) = Some p2 /\ parent (table_of w2' k u) = Some p1.
Proof.
  intros Hp Hs Hu Hp1 Hp2 Hf1 Hf2 Hi1 Ho1 Hi2 Ho2.
  destruct (insert_then w1 w2 k f1 f2 fuel n1 n2 p1 p2 u) as (v1 & w1' & Hc1 & Hm1 & Hd1 & Hn1); [done..|].
  destruct (insert_then w2 w1 k f2 f1 fuel n2 n1 p2 p1 u) as (v2 & w2' & Hc2 & Hm2 & Hd2 & Hn2);
    [by apply peers_sym|by apply same_clocks_sym|done..|].
  exists w1', w2'. split; [|done]. by eexists _, _, v1, v2.
Qed.

(** ** Concurrent moves make a cycle *)

(** Two nodes that are each other's parents: the membership test never ends. *)
Definition trapped (w : world) (k x : sds) : Prop := forall fuel, istreeMember fuel k x w = OutOfFuel.

Lemma parents_trap w k f x y :
  tree w k f -> nodes_ok f -> nul_free x -> nul_free y -> x <> ROOT_ID -> y <> ROOT_ID ->
  EXISTS (header (f x)) = true -> EXISTS (header (f y)) = true ->
  parent (f x) = Some y -> parent (f y) = Some x -> trapped w k x /\ trapped w k y.
Proof.
  intros Ht Hn Hx Hy Hrx Hry Hex Hey Hpx Hpy.
  assert (forall z, z ∈ ({[x; y]} : gset sds) -> exists p, parent_step f z p /\ p ∈ ({[x; y]} : gset sds)) as HS.
  { intros z. rewrite elem_of_union, !elem_of_singleton. unfold parent_step, node.
    intros [-> | ->]; [exists y|exists x]; rewrite sdsnew_nul_free by done; (split; [done|set_solver]). }
  split; intros fuel; unfold istreeMember; rewrite sdsnew_nul_free, (istreeMember_walk w k f) by done;
    (rewrite (walk_trapped f {[x; y]}); [done|done|set_solver]).
Qed.

(** The entries a move of another replica touches, when it has seen the same
    operations on the two nodes. *)
Lemma move_peer w2 k f f2 dst src :
  holds w2 k f2 -> move_room f2 src -> dst <> src ->
  vector (current (header (f2 src))) = vector (current (header (f src))) ->
  vector (current (header (f2 dst))) = vector (current (header (f dst))) ->
  vector (moveVC (f2 src)) = vector (moveVC (f src)) ->
  let g := t_move f dst src (next_stamp (moveVC (f2 src))) (current (header (f2 dst))) (current (header (f2 src))) in
  parent (g src) = Some dst /\ (forall y, y <> src -> parent (g y) = parent (f y)) /\ (forall y, header (g y) = header (f y)).
Proof.
  intros H2 Hroom Hds Hs Hd Hm. cbn zeta. destruct (tree_ok _ _ _ src (ho_tree _ _ _ H2)) as (_ & _ & Hcm & _).
  unfold t_move. cbn zeta. rewrite (t_rem_seen f dst) by done. rewrite (t_rem_seen f src) by done.
  assert (updateCheck (header (f src)) (current (header (f2 src))) = true) as -> by (unfold updateCheck; by apply equalVC_spec).
  assert (move_wins (f src) dst (next_stamp (moveVC (f2 src))) = true) as ->.
  { unfold move_wins. rewrite checkCurrency_le by (rewrite <- Hm; apply bump_ge). cbn [default]. unfold id.
    rewrite (ready_peer (srv w2) _ (vc_id (moveVC (f2 src)))); [done|done|apply H2|done| |done|by rewrite Hm].
    rewrite Hm. apply vle_refl. }
  cbn [andb]. unfold t_reattach. cbn zeta. split_and!.
  - by rewrite upd_eq, upd_eq.
  - intros y Hy. rewrite !upd_ne by done. by rewrite !(upd_proj parent).
  - intros y. by rewrite !(upd_proj header).
Qed.

Lemma move_then w1 w2 k f1 f2 x y :
  peers w1 w2 k f1 f2 -> same_clocks f1 f2 x -> same_clocks f1 f2 y -> parent_id x -> parent_id y ->
  x <> ROOT_ID -> y <> ROOT_ID -> in_tree f1 x -> in_tree f1 y -> ~ below f1 x y ->
  move_room f1 x -> move_room f2 y -> Acc (flip (child_step f1)) x ->
  exists n, forall fuel, (n <= fuel)%nat ->
  exists v1 w1', call 0 (MoveCommand fuel) (request w1 (move_args k y x)) = Done tt v1 /\
    rargv (cli v1) = Some (tm_args k (TMove y x (next_stamp (moveVC (f1 x))) (current (header (f1 y))) (current (header (f1 x))))) /\
    tdeliver k v1 (TMove x y (next_stamp (moveVC (f2 y))) (current (header (f2 x))) (current (header (f2 y)))) = Done tt w1' /\
    trapped w1' k x /\ trapped w1' k y.
Proof.
  intros [H1 H2 Hcnt Hid] (Hax & _ & _) (Hay & _ & Hmy) Hx Hy Hrx Hry Hix Hiy Hno Hr1 Hr2 Hacc.
  destruct (move_client w1 k f1 y x H1 Hy (proj1 Hx) Hrx Hr1 Hacc) as (n & _ & Hmv).
  exists (n + S (node_count w1 k))%nat. intros fuel Hfuel.
  destruct (Hmv fuel ltac:(lia) ltac:(lia)) as [[? _]|[(_ & _ & ? & _)|(_ & _ & _ & v1 & f & Hc & Hh & _ & Hf' & _ & _ & Hm)]]; [tauto|done|].
  destruct (tree_ok _ _ _ x (ho_tree _ _ _ H2)) as (Hcx & _), (tree_ok _ _ _ y (ho_tree _ _ _ H2)) as (Hcy & _ & Hcm & _).
  pose proof (member_exists f1 x (proj1 Hx) Hrx Hix) as Hex. pose proof (member_exists f1 y (proj1 Hy) Hry Hiy) as Hey.
  assert (y <> x) as Hyx.
  { intros ->. apply Hno. split; [done|]. unfold node. by rewrite (sdsnew_nul_free x (proj1 Hx)). }
  destruct (moved_links f1 y x Hyx) as (Hhd & Hpar & _).
  assert (moveVC (f y) = moveVC (f1 y) /\ uid (f y) = Some y) as [Hfm Hfu].
  { pose proof (member_uid f1 y (ho_nodes _ _ _ H1) (ho_linked _ _ _ H1) (proj1 Hy) Hry Hiy).
    rewrite Hf'. unfold moved. rewrite decide_False, decide_True by done. done. }
  set (m := TMove x y (next_stamp (moveVC (f2 y))) (current (header (f2 x))) (current (header (f2 y)))).
  assert (tm_wf (srv v1) m) as Hwf.
  { apply (tm_wf_count (srv w2)); [rewrite <- Hcnt; symmetry; eapply (holds_count _ _ k _ _ x H1 Hh); by rewrite Hf', Hhd|].
    destruct (ho_cfg _ _ _ H2). split; [done|]. split_and!; [apply Hy|by apply next_stamp_ok|by apply clock_stamp..]. }
  destruct (tdeliver_tree v1 k f m (ho_tree _ _ _ Hh) (ho_nodes _ _ _ Hh) (ho_mode _ _ _ Hh) Hwf Hfu) as (w1' & Hd & Ht & _).
  destruct (move_peer w2 k f f2 x y) as (Hg1 & Hg2 & Hg3); [done..|by rewrite Hf', Hhd|by rewrite Hf', Hhd|by rewrite Hfm|].
  exists v1, w1'. do 3 (split; [done|]). apply (parents_trap _ _ _ x y Ht); try apply Hx; try apply Hy; try done.
  - apply (tm_step_ok (srv v1)); [apply Hh|done|done].
  - unfold m. cbn [tm_step]. by rewrite Hg3, Hf', Hhd.
  - unfold m. cbn [tm_step]. by rewrite Hg3, Hf', Hhd.
  - unfold m. cbn [tm_step]. by rewrite Hg2, Hf', Hpar, decide_True.
Qed.

Lemma moves_trap w1 w2 k f1 f2 x y :
  peers w1 w2 k f1 f2 -> same_clocks f1 f2 x -> same_clocks f1 f2 y -> parent_id x -> parent_id y ->
  x <> ROOT_ID -> y <> ROOT_ID -> in_tree f1 x -> in_tree f1 y -> in_tree f2 x -> in_tree f2 y ->
  ~ below f1 x y -> ~ below f2 y x -> move_room f1 x -> move_room f2 y ->
  Acc (flip (child_step f1)) x -> Acc (flip (child_step f2)) y ->
  exists n, forall fuel, (n <= fuel)%nat ->
  exists w1' w2', exchanged k (MoveCommand fuel) (MoveCommand fuel) (move_args k y x) (move_args k x y) w1 w2 w1' w2' /\
    (trapped w1' k x /\ trapped w1' k y) /\ trapped w2' k x /\ trapped w2' k y.
Proof.
  intros Hp Hsx Hsy Hx Hy Hrx Hry Hx1 Hy1 Hx2 Hy2 Hn1 Hn2 Hr1 Hr2 Ha1 Ha2.
  destruct (move_then w1 w2 k f1 f2 x y) as (n1 & Hm1); [done..|].
  destruct (move_then w2 w1 k f2 f1 y x) as (n2 & Hm2); [by apply peers_sym|by apply same_clocks_sym|by apply same_clocks_sym|done..|].
  exists (n1 + n2)%nat. intros fuel Hfuel.
  destruct (Hm1 fuel ltac:(lia)) as (v1 & w1' & Hc1 & Hg1 & Hd1 & Ht1). destruct (Hm2 fuel ltac:(lia)) as (v2 & w2' & Hc2 & Hg2 & Hd2 & Ht2).
  exists w1', w2'. split_and!; [by eexists _, _, v1, v2|apply Ht1..|apply Ht2|apply Ht2].
Qed.

(** ** The root comes back *)

(** A deletion of the root and its creation, in the two orders. *)
Lemma root_diverges w1 w2 k r :
  tree_untouched w1 k -> tree_untouched w2 k -> REPLICATION_MODE (srv w1) = true -> REPLICATION_MODE (srv w2) = true ->
  p2p_count (srv w1) = p2p_count (srv w2) -> 0 <= p2p_id (srv w2) ->
  stamp_ok (srv w1) r -> ~ vle (vector r) (replicate (Z.to_nat (p2p_count (srv w1))) 0) ->
  exists w1' w2', tdeliver_all k w1 [TCreate; TDelete ROOT_ID r] = Some w1' /\ tdeliver_all k w2 [TDelete ROOT_ID r; TCreate] = Some w2' /\
    node_exists w1' k ROOT_ID = false /\ node_exists w2' k ROOT_ID = true.
Proof.
  intros H1 H2 Hm1 Hm2 Hc Hid Hr Hnew. assert (nul_free ROOT_ID) as Hn by (apply (bool_decide_unpack _); by vm_compute).
  destruct (untouched_tree w1 k) as [Ht1 Hn1]; [apply H1..|]. destruct (untouched_tree w2 k) as [Ht2 Hn2]; [apply H2..|].
  destruct (tdeliver_all_tree w1 k _ [TCreate; TDelete ROOT_ID r] [] Ht1 Hn1 Hm1) as (w1' & f1' & Hd1 & Ht1' & _ & -> & _);
    [apply Forall_cons_2; [done|]; by apply Forall_singleton|by intros x Hx%elem_of_nil|done|].
  destruct (tdeliver_all_tree w2 k _ [TDelete ROOT_ID r; TCreate] [] Ht2 Hn2 Hm2) as (w2' & f2' & Hd2 & Ht2' & _ & -> & _);
    [|by intros x Hx%elem_of_nil|done|].
  { apply Forall_cons_2; [|by apply Forall_singleton]. apply (tm_wf_count (srv w1)); [done|by split]. }
  exists w1', w2'. split_and!; [done..| |]; rewrite (node_exists_tree _ _ _ ROOT_ID) by eassumption; cbn [foldl tm_step].
  - set (f := t_create _ _). change (EXISTS (headers (t_rem f ROOT_ID r) ROOT_ID) = false). rewrite t_rem_header.
    unfold hdr_step. cbn [fst snd rw_effect]. rewrite fn_lookup_insert. unfold rem_effect, headers.
    assert (current (header (f ROOT_ID)) = l_newVC (srv w1)) as Hf by (unfold f, t_create; by rewrite upd_eq).
    rewrite removeCheck_spec, Hf, bool_decide_false; [done|done|].
    rewrite Hf. destruct Hr as (_ & (-> & _) & _). unfold vc_size, l_newVC, newVC. cbn. by rewrite length_replicate.
  - unfold t_create. rewrite upd_eq. unfold EXISTS. cbn. by apply Z.leb_le.
Qed.
End Peers.

(** ** Running commands *)

(** One client command at a replica: the state, and the message it sent. *)
Definition FUEL : nat := 20.
Definition at_origin (proc : cmd unit) (args : list sds) (w : world) : world * list sds :=
  let r := run_call (request w args) proc in (r.1, default [] r.2).
Definition at_replica (proc : cmd unit) (msg : list sds) (w : world) : world :=
  (run_call (delivery w msg) proc).1.

Definition create := at_origin CreateTreeCommand ["rwftreecreate"; "t"].
Definition insert (nm p u : sds) := at_origin (InsertWithIdCommand FUEL) ["rwftreeinsert"; "t"; nm; p; u].
Definition delete (u : sds) := at_origin (DeleteCommand FUEL) ["rwftreedelete"; "t"; u].
Definition change (u v : sds) := at_origin (ChangeValueCommand FUEL) ["rwftreechangevalue"; "t"; u; v].
Definition move (dst src : sds) := at_origin (MoveCommand FUEL) ["rwftreemove"; "t"; dst; src].

Definition get_node (w : world) (x : sds) : option rtn :=
  match db (srv w) !! "t_tree_" with
  | Some (OHash h) => match h !! x with Some (HRtn n) => Some n | _ => None end
  | _ => None
  end.

(** Two replicas that share a tree with the nodes [a] and [b] below the root. *)
Definition shared_tree : world * world :=
  let (w0, m0) := create (start_world 2 0) in
  let v0 := at_replica CreateTreeCommand m0 (start_world 2 1) in
  let (w1, m1) := insert "A" "0,0" "a" w0 in
  let v1 := at_replica (InsertWithIdCommand FUEL) m1 v0 in
  let (w2, m2) := insert "B" "0,0" "b" w1 in
  let v2 := at_replica (InsertWithIdCommand FUEL) m2 v1 in
  (w2, v2).

Example shared_tree_ok :
  let (w, v) := shared_tree in
  istreeMember FUEL "t" "a" w = Done true w /\ istreeMember FUEL "t" "b" w = Done true w /\
  istreeMember FUEL "t" "a" v = Done true v /\ istreeMember FUEL "t" "b" v = Done true v /\
  (parent <$> get_node w "b") = Some (Some "0,0") /\ (name <$> get_node v "b") = Some (Some "B").
Proof. vm_compute. repeat split. Qed.

(** ** Values diverge *)

Definition changed_twice : world * world :=
  let (w, v) := shared_tree in
  let (w1, mx) := change "a" "x" w in
  let (v1, my) := change "a" "y" v in
  (at_replica (ChangeValueCommand FUEL) my w1, at_replica (ChangeValueCommand FUEL) mx v1).

Lemma values_diverge_run :
  name <$> get_node changed_twice.1 "a" = Some (Some "y") /\
  name <$> get_node changed_twice.2 "a" = Some (Some "x").
Proof. vm_compute. repeat split. Qed.

(** ** Parents diverge *)

Definition inserted_twice : world * world :=
  let (w, v) := shared_tree in
  let (w1, mx) := insert "C" "a" "c" w in
  let (v1, my) := insert "C" "b" "c" v in
  (at_replica (InsertWithIdCommand FUEL) my w1, at_replica (InsertWithIdCommand FUEL) mx v1).

Lemma parents_diverge_run :
  parent <$> get_node inserted_twice.1 "c" = Some (Some "b") /\
  parent <$> get_node inserted_twice.2 "c" = Some (Some "a").
Proof. vm_compute. repeat split. Qed.

(** ** Concurrent moves make a cycle *)

Definition moved_twice : world * world :=
  let (w, v) := shared_tree in
  let (w1, mx) := move "b" "a" w in
  let (v1, my) := move "a" "b" v in
  (at_replica (MoveCommand FUEL) my w1, at_replica (MoveCommand FUEL) mx v1).

Lemma cycle_a fuel : istreeMember_loop (S fuel) "t" "a" moved_twice.1 = istreeMember_loop fuel "t" "b" moved_twice.1.
Proof. vm_compute. reflexivity. Qed.
Lemma cycle_b fuel : istreeMember_loop (S fuel) "t" "b" moved_twice.1 = istreeMember_loop fuel "t" "a" moved_twice.1.
Proof. vm_compute. reflexivity. Qed.

Lemma moved_forever fuel :
  istreeMember_loop fuel "t" "a" moved_twice.1 = OutOfFuel /\ istreeMember_loop fuel "t" "b" moved_twice.1 = OutOfFuel.
Proof. induction fuel as [|fuel [IH1 IH2]]; [by split|]. by rewrite cycle_a, cycle_b. Qed.

(** ** A stale child makes a cycle at one replica

    [b] below [a]; [a] is deleted but keeps its child; [b] is inserted below the
    root and [a] below [b]. *)
Definition stale_child : world :=
  let w := (create (start_world 2 0)).1 in
  let w := (insert "A" "0,0" "a" w).1 in
  let w := (insert "B" "a" "b" w).1 in
  let w := (delete "a" w).1 in
  let w := (insert "B" "0,0" "b" w).1 in
  (insert "A" "b" "a" w).1.

Lemma stale_members :
  istreeMember FUEL "t" "a" stale_child = Done true stale_child /\
  istreeMember FUEL "t" "b" stale_child = Done true stale_child.
Proof. vm_compute. repeat split. Qed.

Lemma stale_child_step x c : (x, c) ∈ [("0,0", "b"); ("b", "a"); ("a", "b")] ->
  child_step (table_of stale_child "t") x c.
Proof.
  intros Hin. repeat (apply elem_of_cons in Hin as [[= -> ->]|Hin];
    [split; [by vm_compute|apply (bool_decide_unpack _); by vm_compute]|]). by apply elem_of_nil in Hin.
Qed.

Lemma stale_forever fuel : subTree fuel "t" ROOT_ID stale_child = OutOfFuel.
Proof.
  apply (subTree_trapped _ _ (table_of stale_child "t") {["0,0"; "a"; "b"]}).
  - apply tree_check_sound. by vm_compute.
  - intros y Hy. assert (y = "0,0" \/ y = "a" \/ y = "b") as [->|[->| ->]] by set_solver.
    + exists "b". split; [apply stale_child_step|]; set_solver.
    + exists "b". split; [apply stale_child_step|]; set_solver.
    + exists "a". split; [apply stale_child_step|]; set_solver.
  - change (sdsnew ROOT_ID) with "0,0". set_solver.
Qed.

(** ** The root can be deleted *)

Definition rootless : world := (delete "0,0" shared_tree.1).1.

Lemma rootless_run :
  replies (cli rootless) = [R_ok] /\
  istreeMember FUEL "t" "a" rootless = Done true rootless /\
  (match call 0 (treeMembersCommand FUEL) (request rootless ["rwftreemembers"; "t"]) with
   | Done _ w => replies (cli w) = [R_multibulklen 0]
   | _ => False
   end).
Proof. vm_compute. repeat split. Qed.

(** ** A move that overtakes an insertion *)

Definition overtaken : list sds * list sds * world :=
  let (w0, m0) := create (start_world 3 0) in
  let v0 := at_replica CreateTreeCommand m0 (start_world 3 1) in
  let u0 := at_replica CreateTreeCommand m0 (start_world 3 2) in
  let (w1, m1) := insert "A" "0,0" "a" w0 in
  let (w2, m2) := insert "B" "0,0" "b" w1 in
  let v2 := at_replica (InsertWithIdCommand FUEL) m2 (at_replica (InsertWithIdCommand FUEL) m1 v0) in
  let (v3, m3) := move "a" "b" v2 in
  (m2, m3, at_replica (InsertWithIdCommand FUEL) m1 u0).

Lemma overtaken_crash :
  let '(m2, m3, u1) := overtaken in
  call 0 (MoveCommand FUEL) (delivery u1 m3) = Crash /\
  call 0 (MoveCommand FUEL) (delivery (at_replica (InsertWithIdCommand FUEL) m2 u1) m3) <> Crash.
Proof. vm_compute. split; [reflexivity|discriminate]. Qed.
