(* ===== verification/Properties.v ===== *)
(** * The properties of the development

    The theorems a reader should start from, in the order of their importance,
    each with an instance on a concrete state where it has hypotheses.  The
    proofs apply the lemmas of the component files. *)
From S2P Require Import DictRandom SetCommands SetClient SetAlgebra SetRandom.
From S2P Require Import SdsText ClientInput ClientStream ClientSafety ClientInline ClientOutput OutputQueue Wire Link Commands Transactions Replay System.
From S2P Require Import Dict DictMap DictIter DictScan HashType HashRep HashMeta HashCommands HashClient.
From Stdlib Require Import ZArith Lia Ascii String.
From stdpp Require Import functions base numbers strings relations gmap sets list.
From S2P Require Import Prelude Sds Double DoubleOrder Skiplist SkiplistRep SkiplistSorted SkiplistQuery SkiplistLex ZsetObj ZsetHistory Ziplist ZiplistRep ZiplistUpdate ZiplistQuery ZiplistMerge.
From S2P Require Import VectorClock LamportClock Intset SetType Server RWFramework Container RWSet Stamps RWSetStore VcCommands P2P Double DoubleExact Zset OZSet OZSetConv OZSetClient RZSet RZSetConv RZSetClient PNSet ORSet RWTree RWTreeRep RWTreeConv RWTreeWalk RWTreeClient RWTreeLimits.
Open Scope Z_scope.

(** ** Concrete states *)

Open Scope string_scope.

(** The stamps [0,0|0] and [0,1|1]. *)
Definition ts0 : vc := mkVC [0; 0] 0.
Definition ts1 : vc := mkVC [0; 1] 1.

Definition msg_add : rmsg :=
  mkRmsg true ["rwsadd"; "k"; "x"; "x"; "0,0|0"; "1"] [("x", RAdd ts0)].
Definition msg_rem : rmsg :=
  mkRmsg false ["rwsrem"; "k"; "x"; "x"; "0,1|1"; "1"] [("x", RRem ts1)].

Lemma msg_add_wf s : p2p_count s = 2 -> rm_wf s "k" msg_add.
Proof.
  intros Hc. exists ["rwsadd"; "k"; "x"], [("x", "0,0|0")]. split_and!; [done|done|cbn; lia|by vm_compute|].
  repeat constructor. exists ts0. split_and!; [done| |done]. unfold ts_ok. rewrite Hc.
  split_and!; [done|repeat constructor; clia|cbn; lia].
Qed.

Lemma msg_rem_wf s : p2p_count s = 2 -> rm_wf s "k" msg_rem.
Proof.
  intros Hc. exists ["rwsrem"; "k"; "x"], [("x", "0,1|1")]. split_and!; [done|done|cbn; lia|by vm_compute|].
  repeat constructor. exists ts1. split_and!; [done| |done]. unfold ts_ok. rewrite Hc.
  split_and!; [done|repeat constructor; clia|cbn; lia].
Qed.

(** A replica with the sets [d], [s] and [t] of the members [x y], [y z] and
    [y]. *)
Definition three_sets : world :=
  let add k xs w := (run_call (request w ("rwsadd" :: k :: xs)) rwsaddCommand).1 in
  add "t" ["y"] (add "s" ["y"; "z"] (add "d" ["x"; "y"] (start_world 2 0))).

#[local] Opaque three_sets.

Lemma three_sets_rws k : k ∈ ["d"; "s"; "t"] -> rws three_sets k (hdrs_of three_sets k) /\ hasset three_sets k.
Proof.
  intros Hk. apply rws_check_sound.
  repeat (apply elem_of_cons in Hk as [->|Hk]; [vm_compute; reflexivity|]). destruct (not_elem_of_nil _ Hk).
Qed.

Lemma three_sets_cfg : cfg_ok (srv three_sets) /\ REPLICATION_MODE (srv three_sets) = true.
Proof. vm_compute. repeat split; discriminate. Qed.

(** A replica with an empty tree [t], and one with the node [a] below the
    root. *)
Definition tree_empty : world :=
  (run_call (request (start_world 2 0) (create_args "t")) CreateTreeCommand).1.
Definition tree_a : world :=
  (run_call (request tree_empty (insert_args "t" "A" "0,0" "a")) (InsertWithIdCommand FUEL)).1.

(** ** Convergence of the remove-win set *)

(** A system of two servers, and after a request at the first. *)
Definition sys0 : sys := mkSys (fun i => start_world 2 (Z.of_nat i)) (fun _ _ => []).
Definition sys_args : list sds := ["RWFSAdd"; "k"; "x"].
Definition sys_world : world := match call 0 rwsaddCommand (request (s_world sys0 0%nat) sys_args) with Done _ w => w | _ => s_world sys0 0%nat end.
Definition sys1 : sys := mkSys (<[0%nat := sys_world]> (s_world sys0)) (send 2 0 (rargv (cli sys_world)) (s_chan sys0)).

Lemma sys0_start : start "k" 2 sys0.
Proof.
  split; [|done]. intros [|[|i]] Hi; [| |lia]; (split; [repeat split; try done; cbn; lia|]); (split; [|done]); vm_compute; repeat split; discriminate.
Qed.
Lemma sys0_step : sys_step (fun _ => 0) "k" 2 sys0 sys1.
Proof.
  apply (Y_request _ _ _ sys0 0 sys_args rwsaddCommand sys_world).
  - lia.
  - unfold handler. assert (command_of (fun _ => 0) sys_args = Some (flagged (mkCommand "rwfsadd" "rwsaddCommand" (-3) "wmF" 0 K_null 1 1 1))) as ->
      by (vm_compute; reflexivity). reflexivity.
  - exists "RWFSAdd", ["x"]. split; [done|]. split; [by vm_compute|]. intros x Hx. apply list_elem_of_singleton in Hx as ->.
    apply (bool_decide_unpack _). by vm_compute.
  - vm_compute. reflexivity.
Qed.

(** C1: a system of servers with a remove-win set, each with its clients, and
    channels between them that keep the order of messages.  Whatever requests to add
    and remove elements the clients make, at whatever servers, and in whatever order
    the messages of different channels arrive: when no message is under way all
    servers show the same set; no request fails; and the messages under way can
    always be delivered.  That messages are well formed is part of it. *)
Theorem system_convergence `{DictOrder} bucket k N s0 s :
  start k N s0 -> rtc (sys_step bucket k N) s0 s ->
  (quiet N s -> forall i j, (i < N)%nat -> (j < N)%nat -> visible (s_world s i) k = visible (s_world s j) k) /\
  (forall i args h, (i < N)%nat -> handler bucket args = Some h -> acceptable k (s_world s i) args ->
     exists w', call 0 h (request (s_world s i) args) = Done tt w') /\
  exists s', rtc (sys_step bucket k N) s s' /\ quiet N s'.
Proof. intros Hs Hr. by apply (sys_converges bucket k N s0). Qed.

Lemma system_convergence_witness :
  exists s', rtc (sys_step (fun _ => 0) "k" 2) sys1 s' /\ visible (s_world s' 0%nat) "k" = visible (s_world s' 1%nat) "k".
Proof.
  destruct (system_convergence (fun _ => 0) "k" 2 sys0 sys1 sys0_start (rtc_once _ _ sys0_step)) as (_ & _ & s' & Hr & Hq).
  destruct (system_convergence (fun _ => 0) "k" 2 sys0 s' sys0_start) as (Hv & _).
  - eapply rtc_l; [apply sys0_step|exact Hr].
  - exists s'. split; [exact Hr|]. apply Hv; [exact Hq|lia|lia].
Defined.

(** C2: replicas of a remove-win set that received the same messages, in any
    order and any number of times, have handled all of them and show the same
    set; and they show an element exactly when some add, of a real replica, has
    seen every operation on that element that was delivered.  So removes win: an
    element is not shown when it was removed by an operation that none of its adds
    has seen. *)
Theorem rwset_convergence `{DictOrder} w1 w2 k ms1 ms2 :
  untouched w1 k -> untouched w2 k -> p2p_count (srv w2) = p2p_count (srv w1) ->
  REPLICATION_MODE (srv w1) = true -> REPLICATION_MODE (srv w2) = true ->
  Forall (rm_wf (srv w1) k) ms1 -> (forall m, m ∈ ms1 <-> m ∈ ms2) ->
  exists w1' w2', deliver_all w1 ms1 = Some w1' /\ deliver_all w2 ms2 = Some w2' /\
    visible w1' k = visible w2' k /\
    (forall x, x ∈ visible w1' k <->
      exists t, (x, RAdd t) ∈ all_ops ms1 /\ 0 <= vc_id t /\
        vle (replicate (Z.to_nat (p2p_count (srv w1))) 0) (vector t) /\
        forall o, (x, o) ∈ all_ops ms1 -> vle (vector (op_ts o)) (vector t)) /\
    (forall x r, (x, RRem r) ∈ all_ops ms1 -> (forall t, (x, RAdd t) ∈ all_ops ms1 -> ~ vle (vector r) (vector t)) -> x ∉ visible w1' k).
Proof.
  intros Hu1 Hu2 Hp Hm1 Hm2 Hwf Hms. destruct (rwset_converges w1 w2 k ms1 ms2) as (w1' & w2' & Hd1 & Hd2 & Hv); [done..|].
  destruct (rwset_visible_iff w1 k ms1 Hu1 Hm1 Hwf) as (w' & Hd & Hvis). rewrite Hd1 in Hd. injection Hd as <-.
  exists w1', w2'. split_and!; [done..|].
  intros x r Hr Hno. destruct (rwset_remove_wins w1 k ms1 x r Hu1 Hm1 Hwf Hr Hno) as (w3 & Hd3 & Hx). rewrite Hd1 in Hd3. by injection Hd3 as <-.
Qed.

Lemma start_untouched i k : untouched (start_world 2 i) k.
Proof. repeat split; try done; cbn; lia. Qed.

Lemma rwset_convergence_witness :
  exists w1' w2', deliver_all (start_world 2 0) [msg_add; msg_rem] = Some w1' /\
    deliver_all (start_world 2 1) [msg_rem; msg_add; msg_rem] = Some w2' /\ visible w1' "k" = visible w2' "k" /\
    "x" ∉ visible w1' "k".
Proof.
  destruct (rwset_convergence (start_world 2 0) (start_world 2 1) "k" [msg_add; msg_rem] [msg_rem; msg_add; msg_rem])
    as (w1' & w2' & Hd1 & Hd2 & Hv & _ & Hwins).
  - apply start_untouched.
  - apply start_untouched.
  - reflexivity.
  - reflexivity.
  - reflexivity.
  - repeat constructor; [by apply msg_add_wf|by apply msg_rem_wf].
  - intros m. set_solver.
  - exists w1', w2'. split; [exact Hd1|]. split; [exact Hd2|]. split; [exact Hv|].
    apply (Hwins "x" ts1); [right; left|]. intros t Ht Hle. assert (t = ts0) as ->.
    { cbn in Ht. apply elem_of_cons in Ht as [Ht|Ht]; [by injection Ht|]. apply list_elem_of_singleton in Ht. discriminate. }
    vm_compute in Hle. inversion Hle as [|? ? ? ? _ Hle']. inversion Hle' as [|? ? ? ? Hbad _]. by apply Hbad.
Defined.

(** ** Convergence of the remove-win tree *)

Definition tmsgs : list tmsg :=
  [TCreate; TInsert "A" ROOT_ID "a" ts0 ts0; TInsert "B" ROOT_ID "b" ts0 ts0; TDelete "a" ts1;
   TMove ROOT_ID "b" ts1 ts0 ts0].
Definition tmsgs' : list tmsg :=
  [TDelete "a" ts1; TInsert "B" ROOT_ID "b" ts0 ts0; TCreate; TMove ROOT_ID "b" ts1 ts0 ts0;
   TInsert "A" ROOT_ID "a" ts0 ts0; TDelete "a" ts1].

Lemma stamps_ok i : stamp_ok (srv (start_world 2 i)) ts0 /\ stamp_ok (srv (start_world 2 i)) ts1.
Proof.
  unfold stamp_ok, vc_printable, event_ok, ts_ok, in_int. cbn. repeat split; repeat constructor; clia || (unfold VC_BUF; lia).
Qed.

Lemma ids_ok : parent_id ROOT_ID /\ nul_free "a" /\ nul_free "b" /\ nul_free "c".
Proof. split_and!; [split_and!; [|done|done]|..]; apply (bool_decide_unpack _); by vm_compute. Qed.

Lemma tmsgs_wf i : Forall (tm_wf (srv (start_world 2 i))) tmsgs.
Proof.
  destruct (stamps_ok i) as [H0 H1], ids_ok as (Hr & Ha & Hb & _).
  unfold tmsgs. repeat (apply Forall_cons_2; [cbn [tm_wf]; repeat split; solve [exact I|assumption|apply Hr|apply H0|apply H1]|]).
  apply Forall_nil_2.
Qed.

Lemma tmsgs_a : TDelete "a" ts1 ∈ tmsgs /\ forall nm p r_p t, TInsert nm p "a" r_p t ∈ tmsgs -> t = ts0.
Proof. unfold tmsgs. split; [set_solver|]. intros nm p r_p t Ht. set_solver. Qed.

Lemma start_tree_untouched i k : tree_untouched (start_world 2 i) k.
Proof. repeat split; try done; cbn; lia. Qed.

Lemma start_cfg : cfg_ok (srv (start_world 2 0)) /\ REPLICATION_MODE (srv (start_world 2 0)) = true.
Proof. split; [split; cbn; lia|done]. Qed.

(** C3: replicas of a remove-win tree that received the same messages, in any
    order and any number of times, provided no move overtakes the insertion of
    its node, handle all of them and agree on which nodes other than the root
    exist; a deletion wins over every insertion of such a node that has not seen
    it.  As long as nobody deletes the root, so that every message names it with
    its first clock, it exists at both replicas exactly when the creation of the
    tree was among the messages; once it was deleted the replicas may disagree on
    it, because its creation does not look at the clock. *)
Theorem tree_existence_convergence `{DictOrder} w1 w2 k ms1 ms2 :
  tree_untouched w1 k -> tree_untouched w2 k -> p2p_count (srv w2) = p2p_count (srv w1) ->
  REPLICATION_MODE (srv w1) = true -> REPLICATION_MODE (srv w2) = true ->
  Forall (tm_wf (srv w1)) ms1 -> placed [] ms1 -> placed [] ms2 -> (forall m, m ∈ ms1 <-> m ∈ ms2) ->
  exists w1' w2', tdeliver_all k w1 ms1 = Some w1' /\ tdeliver_all k w2 ms2 = Some w2' /\
    (forall x, x <> ROOT_ID -> node_exists w1' k x = node_exists w2' k x) /\
    (forall x r, x <> ROOT_ID -> TDelete x r ∈ ms1 -> (forall nm p r_p t, TInsert nm p x r_p t ∈ ms1 -> ~ vle (vector r) (vector t)) ->
      node_exists w1' k x = false) /\
    (0 <= p2p_id (srv w1) -> 0 <= p2p_id (srv w2) -> root_kept (Z.to_nat (p2p_count (srv w1))) ms1 ->
      node_exists w1' k ROOT_ID = bool_decide (TCreate ∈ ms1) /\ node_exists w2' k ROOT_ID = bool_decide (TCreate ∈ ms1)).
Proof.
  intros H1 H2 Hc Hm1 Hm2 Hwf Hp1 Hp2 Hms. destruct (tree_exists_converges w1 w2 k ms1 ms2 H1 H2 Hc Hm1 Hm2 Hwf Hp1 Hp2 Hms) as (w1' & w2' & Hd1 & Hd2 & Heq).
  exists w1', w2'. do 3 (split; [done|]). split.
  - intros x r Hx Hdel Hno. destruct (tree_remove_wins w1 k ms1 x r H1 Hm1 Hwf Hp1 Hx Hdel Hno) as (w' & Hd & Hf).
    rewrite Hd1 in Hd. by injection Hd as <-.
  - intros Hi1 Hi2 Hk. by apply (root_converges w1 w2 k ms1 ms2).
Qed.

Lemma tmsgs_root : root_kept 2 tmsgs.
Proof. intros o Ho. unfold tall_ops, tmsgs in Ho. cbn in Ho. set_unfold in Ho. exists ts0. naive_solver. Qed.

Lemma tree_existence_convergence_witness :
  exists w1' w2', tdeliver_all "t" (start_world 2 0) tmsgs = Some w1' /\
    tdeliver_all "t" (start_world 2 1) tmsgs' = Some w2' /\
    node_exists w1' "t" "b" = node_exists w2' "t" "b" /\ node_exists w1' "t" "a" = false /\ node_exists w2' "t" ROOT_ID = true.
Proof.
  destruct (tree_existence_convergence (start_world 2 0) (start_world 2 1) "t" tmsgs tmsgs') as (w1' & w2' & Hd1 & Hd2 & Heq & Hwins & Hroot).
  - apply start_tree_untouched.
  - apply start_tree_untouched.
  - reflexivity.
  - reflexivity.
  - reflexivity.
  - apply tmsgs_wf.
  - cbn. repeat split; set_solver.
  - cbn. repeat split; set_solver.
  - intros m. unfold tmsgs, tmsgs'. set_solver.
  - exists w1', w2'. split; [exact Hd1|]. split; [exact Hd2|]. split; [apply Heq; discriminate|]. split.
    + apply (Hwins "a" ts1).
      * discriminate.
      * apply tmsgs_a.
      * intros nm p r_p t Ht Hle. apply tmsgs_a in Ht as ->.
        vm_compute in Hle. inversion Hle as [|? ? ? ? _ Hle']. inversion Hle' as [|? ? ? ? Hbad _]. by apply Hbad.
    + apply Hroot; [done|done|exact tmsgs_root].
Defined.

(** ** The remove-win tree at one replica *)

Definition tree_ab : world :=
  (run_call (request tree_a (insert_args "t" "B" "0,0" "b")) (InsertWithIdCommand FUEL)).1.
Definition ft : table := table_of tree_ab "t".

Lemma tree_empty_holds : holds tree_empty "t" (table_of tree_empty "t").
Proof.
  unfold tree_empty. apply create_holds; [apply start_tree_untouched|apply start_cfg|apply start_cfg].
Qed.

Lemma tree_a_holds : holds tree_a "t" (table_of tree_a "t").
Proof.
  unfold tree_a. apply insert_holds; [apply tree_empty_holds| |apply ids_ok|apply ids_ok| |];
    vm_compute; (reflexivity || lia).
Qed.

Lemma tree_ab_holds : holds tree_ab "t" ft.
Proof.
  unfold ft, tree_ab. apply insert_holds; [apply tree_a_holds| |apply ids_ok|apply ids_ok| |];
    vm_compute; (reflexivity || lia).
Qed.

Lemma tree_ab_count : (node_count tree_ab "t" < FUEL)%nat.
Proof. vm_compute. lia. Qed.

(** C4: insertion.  Without the tree it is refused.  At a replica whose parent
    links have no cycle, a parent that is not in the tree and an id that already is
    are refused without any change.  Otherwise the table of nodes changes exactly
    as [inserted] says: the node exists below its parent, with the given name
    unless its value was changed before, the parent has it among its children, and
    no other entry changes.  So it is in the tree together with whatever hung below
    it, everything that was in the tree stays, the links have no cycle afterwards,
    and the message carries the clocks of the two headers. *)
Theorem tree_insert_behaviour `{DictOrder} w k fuel nm p u :
  let args := insert_args k nm p u in
  (db (srv w) !! tht k = None -> REPLICATION_MODE (srv w) = true ->
   call 0 (InsertWithIdCommand fuel) (request w args) =
     Done tt (mkWorld (srv w) (mkClient args None false false [R_emptymultibulk]))) /\
  (forall f, holds w k f -> (node_count w k < fuel)%nat -> parent_id p -> nul_free u ->
   (~ in_tree f p /\ call 0 (InsertWithIdCommand fuel) (request w args) =
      Done tt (mkWorld (srv w) (mkClient args None false false [R_ele_nexist]))) \/
   (in_tree f p /\ in_tree f u /\ call 0 (InsertWithIdCommand fuel) (request w args) =
      Done tt (mkWorld (srv w) (mkClient args None false false [R_ele_exist]))) \/
   (in_tree f p /\ ~ in_tree f u /\ exists w' f',
      call 0 (InsertWithIdCommand fuel) (request w args) = Done tt w' /\ holds w' k f' /\
      replies (cli w') = [R_ok] /\ (forall y, f' y = inserted f nm p u y) /\
      in_tree f' u /\ (forall y, in_tree f' y <-> in_tree f y \/ hangs f u y) /\
      rargv (cli w') =
        Some (tm_args k (TInsert nm p u (current (header (f p))) (current (header (f u))))))).
Proof.
  intros args. split; [|intros f; apply insert_client]. intros Hno Hm. apply (no_tree w k args fuel); [left|done..].
Qed.

Lemma tree_insert_behaviour_witness :
  call 0 (InsertWithIdCommand FUEL) (request (start_world 2 0) (insert_args "t" "C" "a" "c")) =
    Done tt (mkWorld (srv (start_world 2 0)) (mkClient (insert_args "t" "C" "a" "c") None false false [R_emptymultibulk])) /\
  exists w' f', call 0 (InsertWithIdCommand FUEL) (request tree_ab (insert_args "t" "C" "a" "c")) = Done tt w' /\
    (forall y, f' y = inserted ft "C" "a" "c" y) /\ in_tree f' "c".
Proof.
  split.
  - apply (tree_insert_behaviour (start_world 2 0) "t" FUEL "C" "a" "c"); reflexivity.
  - destruct (proj2 (tree_insert_behaviour tree_ab "t" FUEL "C" "a" "c") ft tree_ab_holds tree_ab_count) as
      [[_ Hno]|[(_ & _ & Hno)|(_ & _ & w' & f' & Hc & _ & _ & Hf & Hin & _)]].
    + split_and!; [apply ids_ok|discriminate|discriminate].
    + apply ids_ok.
    + exfalso. apply (f_equal (fun r => match r with Done _ w => replies (cli w) | _ => [] end)) in Hno. vm_compute in Hno. discriminate.
    + exfalso. apply (f_equal (fun r => match r with Done _ w => replies (cli w) | _ => [] end)) in Hno. vm_compute in Hno. discriminate.
    + exists w', f'. split; [exact Hc|]. split; [exact Hf|exact Hin].
Defined.

(** C5: deletion and change of value at such a replica.  A node that is not in
    the tree is refused.  Deleting a node other than the root takes exactly the
    node and what hangs below it out of the tree; changing a value sets it and the
    node's value clock and leaves every other node and all links alone. *)
Theorem tree_update_behaviour `{DictOrder} w k f fuel u v :
  holds w k f -> (node_count w k < fuel)%nat -> nul_free u ->
  (let args := delete_args k u in
   node_room f u -> u <> ROOT_ID ->
   (~ in_tree f u /\ call 0 (DeleteCommand fuel) (request w args) =
      Done tt (mkWorld (srv w) (mkClient args None false false [R_ele_nexist]))) \/
   (in_tree f u /\ exists w' f',
      call 0 (DeleteCommand fuel) (request w args) = Done tt w' /\ holds w' k f' /\
      replies (cli w') = [R_ok] /\
      (forall y, in_tree f' y <-> in_tree f y /\ ~ hangs f u y) /\
      rargv (cli w') = Some (tm_args k (TDelete u (next_stamp (current (header (f u)))))))) /\
  (let args := change_args k u v in
   value_room f u ->
   (~ in_tree f u /\ call 0 (ChangeValueCommand fuel) (request w args) =
      Done tt (mkWorld (srv w) (mkClient args None false false [R_ele_nexist]))) \/
   (in_tree f u /\ exists w' f',
      call 0 (ChangeValueCommand fuel) (request w args) = Done tt w' /\ holds w' k f' /\
      replies (cli w') = [R_ok] /\ name (f' u) = Some v /\ (forall y, f' y = changed f u v y) /\
      (forall y, y <> u -> f' y = f y) /\ (forall y, in_tree f' y <-> in_tree f y) /\
      rargv (cli w') =
        Some (tm_args k (TChange u v (next_stamp (vectorClock (f u))) (current (header (f u))))))).
Proof.
  intros Hh Hf Hn. split; [intros args; by apply delete_client|]. intros args Hr.
  destruct (change_client w k f fuel u v Hh Hf Hn Hr) as [Hno|(Hin & w' & f' & Hc & Hh' & Hok & Hf' & Hm & Ha)]; [by left|right].
  split; [done|]. exists w', f'. split_and!; try done.
  - rewrite Hf'. unfold changed. by rewrite upd_eq.
  - intros y Hy. rewrite Hf'. unfold changed. by rewrite upd_ne.
Qed.

Lemma room_ab x : x ∈ ["a"; "b"] -> node_room ft x /\ value_room ft x /\ move_room ft x.
Proof.
  intros Hx. repeat (apply elem_of_cons in Hx as [->|Hx]; [split_and!; apply (bool_decide_unpack _); by vm_compute|]).
  destruct (not_elem_of_nil _ Hx).
Qed.

Lemma tree_update_behaviour_witness :
  exists w' f', call 0 (ChangeValueCommand FUEL) (request tree_ab (change_args "t" "a" "v")) = Done tt w' /\ name (f' "a") = Some "v" /\
    (forall y, in_tree f' y <-> in_tree ft y).
Proof.
  destruct (room_ab "a" ltac:(left)) as (_ & Hv & _).
  destruct (proj2 (tree_update_behaviour tree_ab "t" ft FUEL "a" "v" tree_ab_holds tree_ab_count (proj1 (proj2 ids_ok))) Hv) as [[_ Hno]|(Hin & w' & f' & Hc & _ & _ & Hn & _ & _ & Hall & _)].
  - exfalso. apply (f_equal (fun r => match r with Done _ w => replies (cli w) | _ => [] end)) in Hno. vm_compute in Hno. discriminate.
  - exists w', f'. split; [exact Hc|]. split; [exact Hn|exact Hall].
Defined.

(** C6: a move.  Without the tree it is refused.  At a replica as above, when the
    children links below the moved node have no cycle and its two walks have enough
    iterations (no more than one per stored node and one, if no child has two
    parents), it is refused when one of the nodes is not in the tree or the target
    is below the moved node.  Otherwise the table of nodes changes exactly as
    [moved] says: the node's parent is the target and its move clock advances, its
    old parent loses it and the target gets it, and no other entry changes.  So it
    moves with all that hangs below it, the same nodes are in the tree, and the
    parent links still have no cycle. *)
Theorem tree_move_behaviour `{DictOrder} w k dst src :
  let args := move_args k dst src in
  (db (srv w) !! tht k = None -> REPLICATION_MODE (srv w) = true -> forall fuel,
   call 0 (MoveCommand fuel) (request w args) =
     Done tt (mkWorld (srv w) (mkClient args None false false [R_emptymultibulk]))) /\
  (forall f, holds w k f -> parent_id dst -> nul_free src -> src <> ROOT_ID -> move_room f src ->
   Acc (flip (child_step f)) src ->
   exists n, (unshared f (stored_ids w k) -> (n <= S (node_count w k))%nat) /\
   forall fuel, (n <= fuel)%nat -> (node_count w k < fuel)%nat ->
   (~ (in_tree f dst /\ in_tree f src) /\ call 0 (MoveCommand fuel) (request w args) =
      Done tt (mkWorld (srv w) (mkClient args None false false [R_ele_nexist]))) \/
   (in_tree f dst /\ in_tree f src /\ below f src dst /\ call 0 (MoveCommand fuel) (request w args) =
      Done tt (mkWorld (srv w) (mkClient args None false false [R_err]))) \/
   (in_tree f dst /\ in_tree f src /\ ~ below f src dst /\ exists w' f',
      call 0 (MoveCommand fuel) (request w args) = Done tt w' /\ holds w' k f' /\
      replies (cli w') = [R_ok] /\ (forall y, f' y = moved f dst src y) /\
      (forall y, in_tree f' y <-> in_tree f y) /\ (forall y, hangs f' src y <-> hangs f src y) /\
      rargv (cli w') = Some (tm_args k (TMove dst src (next_stamp (moveVC (f src)))
                                         (current (header (f dst))) (current (header (f src))))))).
Proof.
  intros args. split; [|intros f; apply move_client]. intros Hno Hm fuel.
  apply (no_tree w k args fuel); [do 3 right; left|done..].
Qed.

Lemma no_kids_acc f x : kids (node f x) = ∅ -> Acc (flip (child_step f)) x.
Proof. intros Hk. constructor. intros y [_ Hy]. rewrite Hk in Hy. set_solver. Qed.

Lemma tree_ab_unshared : unshared ft (stored_ids tree_ab "t").
Proof. apply unshared_check_sound. by vm_compute. Qed.

Lemma tree_move_behaviour_witness :
  exists n, (n <= S (node_count tree_ab "t"))%nat /\ forall fuel, (n <= fuel)%nat -> (node_count tree_ab "t" < fuel)%nat ->
  (~ (in_tree ft "b" /\ in_tree ft "a") \/ below ft "a" "b") \/ exists w' f',
     call 0 (MoveCommand fuel) (request tree_ab (move_args "t" "b" "a")) = Done tt w' /\
     (forall y, f' y = moved ft "b" "a" y) /\ (forall y, in_tree f' y <-> in_tree ft y).
Proof.
  destruct (proj2 (tree_move_behaviour tree_ab "t" "b" "a") ft) as (n & Hn & Hgo).
  - exact tree_ab_holds.
  - split_and!; [apply ids_ok|discriminate|discriminate].
  - apply ids_ok.
  - discriminate.
  - refine (proj2 (proj2 (room_ab "a" _))). left.
  - apply no_kids_acc. vm_compute. reflexivity.
  - exists n. split; [apply Hn; exact tree_ab_unshared|]. intros fuel H1 H2.
    destruct (Hgo fuel H1 H2) as [[Hno _]|[(_ & _ & Hb & _)|(_ & _ & _ & w' & f' & Hc & _ & _ & Hf & Hall & _)]].
    + left. left. exact Hno.
    + left. right. exact Hb.
    + right. exists w', f'. split; [exact Hc|]. split; [exact Hf|exact Hall].
Defined.

(** C7: the walks over a tree end.  When the parent links have no cycle,
    [istreeMember] returns within as many iterations as nodes are stored, changes
    nothing, and tells whether the node and all its ancestors up to the root
    exist.  When the children links below a node are well founded, there is a
    number of iterations from which on [subTree] returns the set of the existing
    nodes below it, and below which it does not; when moreover every child is
    stored and has one parent, that number is at most one more than that of the
    stored nodes. *)
Theorem tree_walks_end `{DictOrder} w k f x :
  tree w k f ->
  (nodes_ok f -> acyclic f -> forall fuel, (node_count w k < fuel)%nat ->
   exists b, istreeMember fuel k x w = Done b w /\ (b = true <-> in_tree f (sdsnew x))) /\
  (Acc (flip (child_step f)) (sdsnew x) ->
   exists n s, (forall y, y ∈ s <-> below f (sdsnew x) y) /\
     (forall fuel, subTree fuel k x w = if decide (n <= fuel)%nat then Done (SHT s) w else OutOfFuel) /\
     (unshared f (stored_ids w k) -> (n <= S (node_count w k))%nat)).
Proof. intros Ht. split; [intros; by apply istreeMember_spec|]. by apply subTree_spec. Qed.

Lemma tree_walks_end_witness :
  (exists b, istreeMember FUEL "t" "a" tree_ab = Done b tree_ab /\ (b = true <-> in_tree ft (sdsnew "a"))) /\
  exists s, (forall y, y ∈ s <-> below ft (sdsnew "a") y) /\
    forall fuel, (node_count tree_ab "t" < fuel)%nat -> subTree fuel "t" "a" tree_ab = Done (SHT s) tree_ab.
Proof.
  destruct (tree_walks_end tree_ab "t" ft "a" (ltac:(apply tree_ab_holds))) as [Hm Hs]. split.
  - apply Hm; [apply tree_ab_holds|apply tree_ab_holds|exact tree_ab_count].
  - destruct Hs as (n & s & Hb & Hf & Hn); [apply no_kids_acc; vm_compute; reflexivity|].
    exists s. split; [exact Hb|]. intros fuel Hfuel. rewrite Hf, decide_True; [reflexivity|].
    specialize (Hn tree_ab_unshared). lia.
Defined.

(** ** The remove-win sorted set *)

Definition scores : list zmsg := [ZAdd "x" "5" ts0; ZInc "x" "2" ts0; ZInc "x" "-1" ts0; ZAdd "y" "1" ts0; ZRem "y" ts1].

Lemma scores_wf s : p2p_count s = 2 -> Forall (zm_wf s) scores.
Proof.
  intros Hc.
  assert (forall t, t = ts0 \/ t = ts1 -> vc_printable t /\ ts_ok s t) as Ht.
  { intros t Ht. unfold vc_printable, ts_ok, in_int. rewrite Hc.
    destruct Ht as [-> | ->]; cbn; repeat split; repeat constructor; clia || (unfold VC_BUF; lia). }
  assert (forall v, v ∈ ["5"; "2"; "-1"; "1"] -> is_Some (getDoubleFromObject v)) as Hv.
  { apply Forall_forall. repeat (apply Forall_cons_2; [vm_compute; eexists; reflexivity|]). apply Forall_nil_2. }
  unfold scores. rewrite !Forall_cons. unfold zm_wf.
  split_and!; try (apply Hv; set_solver); try (apply Ht; by (left + right)). apply Forall_nil_2.
Qed.

Lemma scores_int : Forall zm_int scores.
Proof. unfold zm_int, rz_int. repeat (apply Forall_cons_2; [vm_compute; reflexivity|]). apply Forall_nil_2. Qed.

Lemma scores_agree : zadds_agree scores.
Proof.
  intros x s s' t t' H1 H2 _ _. unfold scores in *. rewrite !elem_of_cons, elem_of_nil in H1, H2.
  destruct_or! H1; try done; destruct_or! H2; try done; by simplify_eq.
Qed.

Lemma scores_x :
  (forall o, o ∈ z_ops "x" scores -> vle (vector (rzop_ts o)) (vector ts0)) /\
  (forall s' t', ZAdd "x" s' t' ∈ scores -> vector t' = vector ts0 -> vc_id t' <= vc_id ts0) /\
  vle (replicate (Z.to_nat (p2p_count (srv (start_world 2 0)))) 0) (vector ts0).
Proof.
  split_and!.
  - intros o Ho. change (z_ops "x" scores) with [RzAdd (score_of "5") ts0; RzInc (score_of "2") ts0; RzInc (score_of "-1") ts0] in Ho.
    repeat (apply elem_of_cons in Ho as [->|Ho]; [apply vle_refl|]). by apply elem_of_nil in Ho.
  - intros s' t' Hin _. unfold scores in Hin. rewrite !elem_of_cons, elem_of_nil in Hin.
    destruct_or! Hin; try done. by simplify_eq.
  - repeat constructor; done.
Qed.

Lemma start_z_untouched id : z_untouched (start_world 2 id) "q".
Proof. split_and!; [done..|]. vm_compute. by split. Qed.

(** C8: replicas of a remove-win sorted set that received the same messages once
    each, in any order, show the same scores, as long as the scores are integers
    whose magnitudes sum to less than 2^53; the score of an element that some
    addition made visible is the value of the addition with the greatest id among
    those that have seen every operation on it, plus the increments that have. *)
Theorem rzset_convergence w1 w2 k ms1 ms2 :
  z_untouched w1 k -> z_untouched w2 k -> p2p_count (srv w2) = p2p_count (srv w1) ->
  REPLICATION_MODE (srv w1) = true -> REPLICATION_MODE (srv w2) = true ->
  Forall (zm_wf (srv w1)) ms1 -> Forall zm_int ms1 -> zm_mag ms1 < 2 ^ 53 -> zadds_agree ms1 -> ms1 ≡ₚ ms2 ->
  exists w1' w2', zdeliver_all k w1 ms1 = Some w1' /\ zdeliver_all k w2 ms2 = Some w2' /\
    (forall x, shown_score w1' k x = shown_score w2' k x) /\
    (forall x s t, ZAdd x s t ∈ ms1 -> (forall o, o ∈ z_ops x ms1 -> vle (vector (rzop_ts o)) (vector t)) ->
       (forall s' t', ZAdd x s' t' ∈ ms1 -> vector t' = vector t -> vc_id t' <= vc_id t) ->
       vle (replicate (Z.to_nat (p2p_count (srv w1))) 0) (vector t) ->
       shown_score w1' k x = Some (of_Z (int_of (score_of s) + inc_sum (vector t) (z_ops x ms1)))).
Proof.
  intros H1 H2 Hn Hm1 Hm2 Hwf Hint Hmag Hag Hp.
  destruct (rzset_converges w1 w2 k ms1 ms2 H1 H2 Hn Hm1 Hm2 Hwf Hint Hmag Hag Hp) as (w1' & w2' & Hd1 & Hd2 & Hs).
  exists w1', w2'. split_and!; [done..|]. intros x s t Hin Hops Hmax Hv.
  destruct (rzset_shows w1 k ms1 x s t H1 Hm1 Hwf Hint Hmag Hag Hin Hops Hmax Hv) as (w' & Hd & Hsh).
  rewrite Hd1 in Hd. by injection Hd as <-.
Qed.

Lemma rzset_convergence_witness :
  exists w1' w2', zdeliver_all "q" (start_world 2 0) scores = Some w1' /\
    zdeliver_all "q" (start_world 2 1) (reverse scores) = Some w2' /\
    (forall x, shown_score w1' "q" x = shown_score w2' "q" x) /\ shown_score w1' "q" "x" = Some (of_Z 6).
Proof.
  destruct (rzset_convergence (start_world 2 0) (start_world 2 1) "q" scores (reverse scores)) as (w1' & w2' & Hd1 & Hd2 & Hs & Hsh).
  - apply start_z_untouched.
  - apply start_z_untouched.
  - done.
  - vm_compute. reflexivity.
  - vm_compute. reflexivity.
  - by apply scores_wf.
  - apply scores_int.
  - vm_compute. reflexivity.
  - apply scores_agree.
  - symmetry. apply reverse_Permutation.
  - exists w1', w2'. split_and!; [done..|]. rewrite (Hsh "x" "5" ts0).
    + vm_compute. reflexivity.
    + left.
    + apply scores_x.
    + apply scores_x.
    + apply scores_x.
Defined.

(** C9: [rzadd], [rzincrby] and [rzrem] at a replica.  More arguments than the
    command takes and a key of another type are refused; so are an argument that is
    not a number, adding an element that exists, and incrementing or removing one
    that does not.  Otherwise the message carries the clock of the element, the
    replica replies OK, sends it to all others, and the element has the given score
    on top of its increments, the increment added, or neither score nor
    existence. *)
Theorem rzset_commands w k x s :
  REPLICATION_MODE (srv w) = true ->
  (forall a, a <> [] ->
    rz_reply w rzaddCommand ("rzadd" :: k :: x :: s :: a) R_syntaxerr /\
    rz_reply w rzincrbyCommand ("rzincrby" :: k :: x :: s :: a) R_syntaxerr /\
    rz_reply w rzremCommand ("rzrem" :: k :: x :: a) R_syntaxerr) /\
  (forall o, db (srv w) !! k = Some o -> is_zset o = false ->
    rz_reply w rzaddCommand ["rzadd"; k; x; s] R_wrongtypeerr /\
    rz_reply w rzincrbyCommand ["rzincrby"; k; x; s] R_wrongtypeerr /\
    rz_reply w rzremCommand ["rzrem"; k; x] R_wrongtypeerr) /\
  (forall g, rzc w k g -> cfg_ok (srv w) -> clock_room (rz_header (g x).1) ->
   let e := (g x).1 in
   let now := current (rz_header e) in
   match getDoubleFromObject s with
   | None =>
       rz_reply w rzaddCommand ["rzadd"; k; x; s] not_a_float /\
       rz_reply w rzincrbyCommand ["rzincrby"; k; x; s] not_a_float
   | Some v =>
       let add := mkRze (mkReh (p2p_id (srv w)) now) v (acquired e) in
       let inc := mkRze (rz_header e) (innate e) (dadd (acquired e) v) in
       if EXISTS (rz_header e) then
         rz_kept w k g rzaddCommand ["rzadd"; k; x; s] R_ele_exist /\
         rz_applied w k g rzincrbyCommand ["rzincrby"; k; x; s] (ZInc x s now) /\
         rz_effect (g x) (RzInc v now) = (inc, zput (g x).2 (SCORE inc))
       else
         rz_applied w k g rzaddCommand ["rzadd"; k; x; s] (ZAdd x s now) /\
         rz_effect (g x) (RzAdd v now) = (add, zput (g x).2 (SCORE add)) /\
         rz_reply w rzincrbyCommand ["rzincrby"; k; x; s] R_ele_nexist
   end /\
   (if EXISTS (rz_header e) then
      rz_applied w k g rzremCommand ["rzrem"; k; x] (ZRem x (next_stamp now)) /\
      EXISTS (rz_header (rz_effect (g x) (RzRem (next_stamp now))).1) = false /\
      (rz_effect (g x) (RzRem (next_stamp now))).2 = None
    else rz_reply w rzremCommand ["rzrem"; k; x] R_ele_nexist)).
Proof.
  intros Hm. split; [by apply rz_refusals|]. split; [by apply rz_refusals|]. intros g Hr Hc Hroom. cbn zeta.
  pose proof (rzadd_client w k x g Hr Hc Hm s) as Ha.
  pose proof (rzincrby_client w k x g Hr Hc Hm s) as Hi. pose proof (rzrem_client w k x g Hr Hc Hm Hroom) as Hd.
  pose proof (rz_rem_now w k x g Hr Hc) as Hn. cbn zeta in *. split.
  - destruct (getDoubleFromObject s) as [v|]; [|done].
    destruct (EXISTS (rz_header (g x).1)) eqn:He; split_and!; try done.
    + apply rz_inc_now.
    + by apply (rz_add_now w k x g Hr Hc v He).
  - destruct (EXISTS (rz_header (g x).1)); [|done]. by split.
Qed.

(** The start of a replica where [q] holds a string. *)
Definition string_world : world := set_db <["q" := OString "v"]> (start_world 2 0).

Lemma rzset_commands_witness :
  rz_applied (start_world 2 0) "q" (fun _ => (rze_new (srv (start_world 2 0)), None)) rzaddCommand
    ["rzadd"; "q"; "x"; "2.5"] (ZAdd "x" "2.5" (mkVC [0; 0] 0)) /\
  rz_reply (start_world 2 0) rzremCommand ["rzrem"; "q"; "x"; "y"] R_syntaxerr /\
  rz_reply string_world rzaddCommand ["rzadd"; "q"; "x"; "2.5"] R_wrongtypeerr.
Proof.
  destruct (rzset_commands (start_world 2 0) "q" "x" "2.5" eq_refl) as (Hs & _ & H1).
  destruct (rzset_commands string_world "q" "x" "2.5" eq_refl) as (_ & Ht & _). split_and!.
  - destruct (H1 (fun _ => (rze_new (srv (start_world 2 0)), None))) as [H2 _].
    + apply z_untouched_rzc, start_z_untouched.
    + vm_compute. repeat split; discriminate.
    + repeat constructor.
    + change (getDoubleFromObject "2.5") with (Some (Double.decimal false 25 (-1) 2)) in H2. exact (proj1 H2).
  - apply (Hs ["y"]). discriminate.
  - apply (Ht (OString "v")); reflexivity.
Defined.

(** ** The observed-remove sorted set *)

Definition tag00 : lc := mkLC 0 0.
Definition tag01 : lc := mkLC 0 1.

(** Two concurrent additions, an increment of both, and the removal of one. *)
Definition oz_scores : list ozmsg := [MAdd "x" "5" tag00; MAdd "x" "3" tag01; MInc "x" "2" [tag00; tag01]; MRem "x" [tag01]].
Definition oz_scores' : list ozmsg := [MRem "x" [tag01]; MAdd "x" "5" tag00; MInc "x" "2" [tag00; tag01]; MAdd "x" "3" tag01].

Lemma oz_scores_wf : Forall ozm_wf oz_scores /\ Forall ozm_int oz_scores.
Proof.
  assert (lc_wf tag00 /\ lc_wf tag01) as [H0 H1] by (unfold lc_wf, tag00, tag01; cbn [lc_x lc_id]; clia).
  assert (forall s, s ∈ ["5"; "3"; "2"] -> is_Some (getDoubleFromObject s) /\ ozm_score s = of_Z (int_of (ozm_score s))) as Hs.
  { intros s Hs. repeat (apply elem_of_cons in Hs as [->|Hs]; [split; [vm_compute; by eexists|by vm_compute]|]). by apply elem_of_nil in Hs. }
  unfold oz_scores. rewrite !Forall_cons. cbn [ozm_wf ozm_int]. rewrite !Forall_cons, !Forall_nil.
  split_and!; try done; try (apply Hs; set_solver); cbn [length]; clia.
Qed.

(** The operations on the tags of [y]. *)
Lemma oz_scores_tags y ms :
  (forall m, m ∈ ms -> (ozm_op m).1 = "x") -> o_ops y ms = if decide (y = "x") then (ozm_op <$> ms).*2 else [].
Proof.
  intros Hx. unfold o_ops. induction ms as [|m ms IH]; [by case_decide|].
  specialize (IH ltac:(intros; apply Hx; by right)). pose proof (Hx m ltac:(left)) as Hm. rewrite fmap_cons, filter_cons.
  destruct (decide (y = "x")) as [->|Hne]; [rewrite decide_True by done; cbn; by rewrite IH|by rewrite decide_False by congruence].
Qed.

Lemma oz_scores_on_x ms y : ms ≡ₚ oz_scores -> o_ops y ms = if decide (y = "x") then (ozm_op <$> ms).*2 else [].
Proof.
  intros Hp. apply oz_scores_tags. intros m. rewrite Hp. unfold oz_scores. rewrite !elem_of_cons, elem_of_nil. by intros [->|[->|[->|[->|[]]]]].
Qed.

Lemma oz_scores_perm : oz_scores' ≡ₚ oz_scores.
Proof. unfold oz_scores, oz_scores'. solve_Permutation. Qed.

Lemma oz_scores_causal ms : ms = oz_scores \/ ms = oz_scores' -> o_causal ms.
Proof.
  intros [-> | ->] y; rewrite oz_scores_on_x by (done || apply oz_scores_perm);
    (case_decide; [|done]); cbn; unfold added, removed; split_and!; try done;
    intros t; rewrite !elem_of_cons, elem_of_nil; intros [->|[->|[]]]; set_solver.
Qed.

(** C10: replicas of an observed-remove sorted set that received the same messages
    once each, in orders where no increment comes before an addition it names
    unless that was removed, show the same scores, as long as the scores are
    integers whose magnitudes sum to less than 2^53 and no tag is used twice. *)
Theorem ozset_convergence w1 w2 k ms1 ms2 :
  o_untouched w1 k -> o_untouched w2 k -> REPLICATION_MODE (srv w1) = true -> REPLICATION_MODE (srv w2) = true ->
  Forall ozm_wf ms1 -> Forall ozm_int ms1 -> o_agree ms1 -> (forall x, total (o_tags x ms1) < 2 ^ 53) ->
  o_causal ms1 -> o_causal ms2 -> ms1 ≡ₚ ms2 ->
  exists w1' w2', ozdeliver_all k w1 ms1 = Some w1' /\ ozdeliver_all k w2 ms2 = Some w2' /\
    forall x, shown_score w1' k x = shown_score w2' k x.
Proof. apply ozset_converges. Qed.

Lemma start_o_untouched id : o_untouched (start_world 2 id) "q".
Proof. split_and!; [done..|]. vm_compute. by split. Qed.

Lemma ozset_convergence_witness :
  exists w1' w2', ozdeliver_all "q" (start_world 2 0) oz_scores = Some w1' /\
    ozdeliver_all "q" (start_world 2 1) oz_scores' = Some w2' /\
    forall x, shown_score w1' "q" x = shown_score w2' "q" x.
Proof.
  apply (ozset_convergence (start_world 2 0) (start_world 2 1) "q" oz_scores oz_scores').
  - apply start_o_untouched.
  - apply start_o_untouched.
  - vm_compute. reflexivity.
  - vm_compute. reflexivity.
  - apply oz_scores_wf.
  - apply oz_scores_wf.
  - intros y v v' t. unfold o_tags. rewrite oz_scores_on_x by done. case_decide; [|cbn; set_solver].
    change (flats ((ozm_op <$> oz_scores).*2)) with
      [TAdd (ozm_score "5") tag00; TAdd (ozm_score "3") tag01; TInc (ozm_score "2") tag00; TInc (ozm_score "2") tag01; TRem tag01].
    rewrite !elem_of_cons, !elem_of_nil. unfold tag00, tag01. intros H1 H2.
    destruct H1 as [[= -> ->]|[[= -> ->]|[|[|[|[]]]]]], H2 as [[= ->]|[[= ->]|[|[|[|[]]]]]]; done.
  - intros y. unfold o_tags. rewrite oz_scores_on_x by done. case_decide; [vm_compute|cbn; lia]. reflexivity.
  - apply oz_scores_causal. by left.
  - apply oz_scores_causal. by right.
  - symmetry. apply oz_scores_perm.
Defined.

(** C11: [ozadd], [ozincrby] and [ozrem] at a replica that knows the operations [l]
    on the element.  More arguments than the command takes and a key of another
    type are refused.  As long as scores and increments are integers whose
    magnitudes sum to less than 2^53, so are an argument that is not a number,
    adding an element that exists, and incrementing or removing one that does not.
    Otherwise the message names a tag never used before, or all the additions the
    replica has, the replica replies OK and sends it to all others, and afterwards
    the element has exactly the given score, its score is raised by exactly the
    increment, or it is gone. *)
Theorem ozset_commands w k x s :
  REPLICATION_MODE (srv w) = true ->
  (forall a, a <> [] ->
    oz_reply w ozaddCommand ("ozadd" :: k :: x :: s :: a) R_syntaxerr /\
    oz_reply w ozincrbyCommand ("ozincrby" :: k :: x :: s :: a) R_syntaxerr /\
    oz_reply w ozremCommand ("ozrem" :: k :: x :: a) R_syntaxerr) /\
  (forall o, db (srv w) !! k = Some o -> is_zset o = false ->
    oz_reply w ozaddCommand ["ozadd"; k; x; s] R_wrongtypeerr /\
    oz_reply w ozincrbyCommand ["ozincrby"; k; x; s] R_wrongtypeerr /\
    oz_reply w ozremCommand ["ozrem"; k; x] R_wrongtypeerr) /\
  (forall g l, let id := p2p_id (srv w) in
   let e := (g x).1 in
   let t := mkLC (oz_current e) id in
   ozc w k g -> oz_known id l (g x) -> 0 <= id <= INT_MAX -> 0 <= oz_current e < INT_MAX ->
   Z.of_nat (length (tags e)) <= INT_MAX -> total l < 2 ^ 53 ->
   (forall v, getDoubleFromObject s = Some v ->
     v = of_Z (int_of v) /\ total l + (1 + Z.of_nat (length (tags e))) * Z.abs (int_of v) < 2 ^ 53) ->
   match getDoubleFromObject s with
   | None =>
       oz_reply w ozaddCommand ["ozadd"; k; x; s] not_a_float /\
       oz_reply w ozincrbyCommand ["ozincrby"; k; x; s] not_a_float
   | Some v =>
       if OZSet.LOOKUP e then
         oz_kept w k g ozaddCommand ["ozadd"; k; x; s] R_ele_exist /\
         exists q n, oz_applied w k x g ozincrbyCommand ["ozincrby"; k; x; s] (MInc x s (tags e)) q /\
           oz_known id (l ++ (TInc v <$> tags e)) q /\ (g x).2 = Some (of_Z n) /\ q.2 = Some (of_Z (n + int_of v))
       else
         oz_reply w ozincrbyCommand ["ozincrby"; k; x; s] R_ele_nexist /\
         exists q, oz_applied w k x g ozaddCommand ["ozadd"; k; x; s] (MAdd x s t) q /\
           oz_known id (l ++ [TAdd v t]) q /\ q.2 = Some v
   end /\
   (if OZSet.LOOKUP e then
      exists q, oz_applied w k x g ozremCommand ["ozrem"; k; x] (MRem x (tags e)) q /\
        oz_known id (l ++ (TRem <$> tags e)) q /\ OZSet.LOOKUP q.1 = false /\ q.2 = None
    else oz_reply w ozremCommand ["ozrem"; k; x] R_ele_nexist)).
Proof.
  intros Hm. split; [by apply oz_refusals|]. split; [by apply oz_refusals|].
  intros g l id e t Hr Hk Hid Hc Hlen Htot Hv. split; [|by apply ozrem_known].
  pose proof (ozadd_client w k x g Hr Hm s) as Ha. pose proof (ozincrby_client w k x g Hr Hm s) as Hi. cbn zeta in *. fold e in Ha, Hi.
  destruct (getDoubleFromObject s) as [v|] eqn:Hs; [|done]. destruct (Hv v eq_refl) as [Hint Hsum].
  destruct (OZSet.LOOKUP e) eqn:He; split.
  - exact Ha.
  - apply ozincrby_known; try done. rewrite Z.mul_add_distr_r in Hsum. fold e. lia.
  - by eapply ozincrby_absent.
  - apply ozadd_known; try done. rewrite Z.mul_add_distr_r in Hsum. nia.
Qed.

Lemma ozset_commands_witness :
  let g : sds -> ozst := fun _ => (oze_new, None) in
  (exists q, oz_applied (start_world 2 0) "q" "x" g ozaddCommand ["ozadd"; "q"; "x"; "5"] (MAdd "x" "5" tag00) q /\ q.2 = Some (of_Z 5)) /\
  oz_reply (start_world 2 0) ozaddCommand ["ozadd"; "q"; "x"; "5"; "6"] R_syntaxerr /\
  oz_reply string_world ozremCommand ["ozrem"; "q"; "x"] R_wrongtypeerr.
Proof.
  intros g. destruct (ozset_commands (start_world 2 0) "q" "x" "5" eq_refl) as (Hs & _ & H0).
  destruct (ozset_commands string_world "q" "x" "5" eq_refl) as (_ & Ht & _).
  split; [|split; [apply (Hs ["6"]); discriminate|apply (Ht (OString "v")); reflexivity]].
  destruct (H0 g []) as [H1 _].
  - apply o_untouched_ozc, start_o_untouched.
  - split; [apply fresh_inv|apply Forall_nil_2|by intros v v' t Hv%elem_of_nil|by intros o Ho%elem_of_nil].
  - cbn. clia.
  - cbn. clia.
  - cbn. clia.
  - vm_compute. reflexivity.
  - intros v Hv. vm_compute in Hv. injection Hv as <-. split; vm_compute; reflexivity.
  - assert (getDoubleFromObject "5" = Some (of_Z 5)) as Hs5 by (vm_compute; reflexivity). rewrite Hs5 in H1.
    destruct H1 as [_ (q & H1 & _ & H2)]. by exists q.
Defined.

(** ** The other replicated sets *)

Definition or_add : omsg := mkOmsg true ["orsadd"; "k"; "x"; "x"; "1,0"; "1"] [("x", OAdd "1,0")].
Definition or_rem : omsg := mkOmsg false ["orsrem"; "k"; "x"; "x"; "1,0"; "1"; "1"] [("x", ORem "1,0")].

Lemma start_fresh i k : or_fresh (start_world 2 i) k /\ pn_fresh (start_world 2 i) k.
Proof. repeat split; try done; cbn; lia. Qed.

Definition pn_add : pmsg := mkPmsg true ["pnsadd"; "k"; "x"; "x"; "1"; "1"] [("x", PAdd 1)].
Definition pn_rem : pmsg := mkPmsg false ["pnsrem"; "k"; "x"; "x"; "1"] [("x", PRem)].

Lemma or_msgs_wf : Forall (om_wf "k") [or_add; or_rem].
Proof.
  apply Forall_cons_2; [|apply Forall_cons_2; [|apply Forall_nil_2]].
  - exists ["orsadd"; "k"; "x"], [("x", "1,0")]. split_and!; [done|done|by vm_compute| |done].
    repeat constructor. apply (bool_decide_unpack _). by vm_compute.
  - exists ["orsrem"; "k"; "x"], [("x", ["1,0"])]. split_and!; [done|done|by vm_compute| |done].
    repeat constructor. apply (bool_decide_unpack _). by vm_compute.
Qed.
Lemma pn_msgs_wf : Forall (pm_wf "k") [pn_add; pn_rem].
Proof.
  apply Forall_cons_2; [|apply Forall_cons_2; [|apply Forall_nil_2]].
  - exists ["pnsadd"; "k"; "x"], [("x", "1")], [("x", PAdd 1)]. split_and!; [done|done|by vm_compute| |done].
    repeat constructor. exists 1. split_and!; [done|lia|done].
  - exists ["pnsrem"; "k"; "x"], ["x"]. by split_and!.
Qed.

(** C12: replicas of an observed-remove set that received the same messages once
    each, in any order, show the same set: the elements with a tag that was added and not
    removed, the tags of the adds being distinct.  Replicas of a counting set that
    received the same messages once each, in any order, show the same set: the
    elements whose additions outweigh their removals, as long as no counter can
    leave [long long]. *)
Theorem orset_pnset_convergence `{DictOrder} raw_bytes w1 w2 k ms1 ms2 ps1 ps2 :
  or_fresh w1 k -> or_fresh w2 k -> Forall (om_wf k) ms1 -> ms1 ≡ₚ ms2 -> NoDup (or_adds (or_all_ops ms1)) ->
  pn_fresh w1 k -> pn_fresh w2 k -> Forall (pm_wf k) ps1 -> ps1 ≡ₚ ps2 -> pn_mag (pn_all_ops ps1) <= LLONG_MAX ->
  (exists w1' w2', or_deliver_all raw_bytes w1 ms1 = Some w1' /\ or_deliver_all raw_bytes w2 ms2 = Some w2' /\
    visible w1' k = visible w2' k /\
    (forall x, x ∈ visible w1' k <->
       exists t, (x, OAdd t) ∈ or_all_ops ms1 /\ (x, ORem t) ∉ or_all_ops ms1)) /\
  (exists w1' w2', pn_deliver_all w1 ps1 = Some w1' /\ pn_deliver_all w2 ps2 = Some w2' /\
    visible w1' k = visible w2' k /\
    (forall x, x ∈ visible w1' k <-> 0 < pn_sum x (pn_all_ops ps1))).
Proof. intros. split; [by apply orset_converges|by apply pnset_converges]. Qed.

Lemma orset_pnset_convergence_witness :
  (exists w1' w2', or_deliver_all id (start_world 2 0) [or_add; or_rem] = Some w1' /\
    or_deliver_all id (start_world 2 1) [or_rem; or_add] = Some w2' /\ visible w1' "k" = visible w2' "k" /\
    (forall x, x ∈ visible w1' "k" <->
       exists t, (x, OAdd t) ∈ or_all_ops [or_add; or_rem] /\ (x, ORem t) ∉ or_all_ops [or_add; or_rem])) /\
  (exists w1' w2', pn_deliver_all (start_world 2 0) [pn_add; pn_rem] = Some w1' /\
    pn_deliver_all (start_world 2 1) [pn_rem; pn_add] = Some w2' /\ visible w1' "k" = visible w2' "k" /\
    (forall x, x ∈ visible w1' "k" <-> 0 < pn_sum x (pn_all_ops [pn_add; pn_rem]))).
Proof.
  apply (orset_pnset_convergence id (start_world 2 0) (start_world 2 1) "k" [or_add; or_rem] [or_rem; or_add] [pn_add; pn_rem] [pn_rem; pn_add]).
  - apply start_fresh.
  - apply start_fresh.
  - apply or_msgs_wf.
  - constructor.
  - apply (bool_decide_unpack _). by vm_compute.
  - apply start_fresh.
  - apply start_fresh.
  - apply pn_msgs_wf.
  - constructor.
  - by vm_compute.
Defined.

(** C13: [rwsadd] makes exactly the given elements visible in addition, and
    replies that they exist when all of them already were; [rwsrem] hides exactly
    the given elements, and replies that none exists when none was visible. *)
Theorem rws_update_behaviour `{DictOrder} w k f c0 xs :
  rws w k f -> cfg_ok (srv w) -> REPLICATION_MODE (srv w) = true -> Z.of_nat (length xs) <= INT_MAX ->
  (exists w' f', call 0 rwsaddCommand (request w (c0 :: k :: xs)) = Done tt w' /\ rws w' k f' /\
    visible w' k = list_to_set xs ∪ visible w k /\
    replies (cli w') = [if decide (list_to_set xs ⊆ visible w k) then R_ele_exist else R_ok]) /\
  (hasset w k -> (forall x, x ∈ xs -> nul_free x /\ clock_room (f x)) ->
   exists w' f', call 0 rwsremCommand (request w (c0 :: k :: xs)) = Done tt w' /\ rws w' k f' /\
    visible w' k = visible w k ∖ list_to_set xs /\
    replies (cli w') = [if decide (list_to_set xs ## visible w k) then R_ele_nexist else R_ok]).
Proof. intros. split; [by apply (rwsadd_client w k f)|]. intros. by apply (rwsrem_client w k f). Qed.

Lemma room_d x : x ∈ ["x"; "y"] -> nul_free x /\ clock_room (hdrs_of three_sets "d" x).
Proof.
  intros Hx. repeat (apply elem_of_cons in Hx as [->|Hx]; [split; apply (bool_decide_unpack _); by vm_compute|]).
  destruct (not_elem_of_nil _ Hx).
Qed.

Lemma rws_update_behaviour_witness :
  exists w' f', call 0 rwsremCommand (request three_sets ["rwsrem"; "d"; "y"]) = Done tt w' /\ rws w' "d" f' /\
    visible w' "d" = visible three_sets "d" ∖ list_to_set ["y"] /\
    replies (cli w') = [if decide (list_to_set ["y"] ## visible three_sets "d") then R_ele_nexist else R_ok].
Proof.
  refine (proj2 (rws_update_behaviour three_sets "d" (hdrs_of three_sets "d") "rwsrem" ["y"] _ _ _ _) _ _).
  - apply three_sets_rws. left.
  - apply three_sets_cfg.
  - apply three_sets_cfg.
  - by vm_compute.
  - apply three_sets_rws. left.
  - intros x Hx. apply room_d. set_solver.
Defined.

Lemma three_sets_key k : k ∈ ["s"; "t"] -> set_key three_sets k.
Proof.
  intros Hk. repeat (apply elem_of_cons in Hk as [->|Hk]; [vm_compute; exact I|]). destruct (not_elem_of_nil _ Hk).
Qed.

Lemma d_elements : elements (visible three_sets "d") ≡ₚ ["x"; "y"].
Proof. apply (bool_decide_unpack _). by vm_compute. Qed.

Lemma dest_removable : removable three_sets "d" (hdrs_of three_sets "d").
Proof. intros x Hx. apply elem_of_elements in Hx. rewrite d_elements in Hx. by apply room_d. Qed.

(** C14: the store commands.  They do not replace the destination, as the
    document of the commands has it.  Without a destination they do nothing and
    send no reply.  [rwsunionstore] adds the union of the given sets to the
    destination; [rwsdiffstore] keeps of the destination what is in the first given
    set and in none of the others, [rwsinterstore] what is in all of them; each
    replies whether anything changed.  So the destination is afterwards the union
    exactly when it had nothing else, and the difference or the intersection
    exactly when it had all of it. *)
Theorem rws_store_behaviour `{DictOrder} w k c0 k1 ks :
  REPLICATION_MODE (srv w) = true ->
  let args := c0 :: k :: k1 :: ks in
  let U := union_of w (k1 :: ks) in
  let D := visible w k1 ∖ union_of w ks in
  let I := inter_of w k1 ks in
  (db (srv w) !! k = None -> forall proc, proc ∈ [rwsunionstoreCommand; rwsdiffstoreCommand; rwsinterstoreCommand] ->
   call 0 proc (request w args) = Done tt (mkWorld (srv w) (mkClient args None false false []))) /\
  (forall f, rws w k f -> hasset w k -> cfg_ok (srv w) -> Forall (set_key w) (k1 :: ks) ->
   ((forall x, x ∈ U -> nul_free x) -> Z.of_nat (size U) <= INT_MAX ->
    exists w' f', call 0 rwsunionstoreCommand (request w args) = Done tt w' /\ rws w' k f' /\
     visible w' k = U ∪ visible w k /\ (visible w' k = U <-> visible w k ⊆ U) /\
     replies (cli w') = [if decide (U ⊆ visible w k) then R_ele_exist else R_ok]) /\
   (removable w k f -> Z.of_nat (size (visible w k)) <= INT_MAX ->
    (exists w' f', call 0 rwsdiffstoreCommand (request w args) = Done tt w' /\ rws w' k f' /\
     visible w' k = visible w k ∩ D /\ (visible w' k = D <-> D ⊆ visible w k) /\
     replies (cli w') = [if decide (visible w k ⊆ D) then R_ele_nexist else R_ok]) /\
    (exists w' f', call 0 rwsinterstoreCommand (request w args) = Done tt w' /\ rws w' k f' /\
     visible w' k = visible w k ∩ I /\ (visible w' k = I <-> I ⊆ visible w k) /\
     replies (cli w') = [if decide (visible w k ⊆ I) then R_ele_nexist else R_ok]))).
Proof.
  intros Hm args U D I. split; [intros Hk proc Hp; by apply store_missing|].
  intros f Hr Hh Hc Hks. pose proof Hks as [Hk1 Hks']%Forall_cons. split.
  - intros Hn Hs. destruct (rwsunionstore_client w k f c0 (k1 :: ks)) as (w' & f' & H1 & H2 & H3 & H4); [done..|].
    exists w', f'. split_and!; [exact H1|exact H2|exact H3| |exact H4]. rewrite H3. apply union_is.
  - intros Hrem Hs. split.
    + destruct (rwsdiffstore_client w k f c0 k1 ks) as (w' & f' & H1 & H2 & H3 & H4); [done..|].
      exists w', f'. split_and!; [exact H1|exact H2|exact H3| |exact H4]. rewrite H3. apply inter_is.
    + destruct (rwsinterstore_client w k f c0 k1 ks) as (w' & f' & H1 & H2 & H3 & H4); [done..|].
      exists w', f'. split_and!; [exact H1|exact H2|exact H3| |exact H4]. rewrite H3. apply inter_is.
Qed.

Lemma rws_store_behaviour_witness :
  let K := visible three_sets "s" ∖ union_of three_sets ["t"] in
  exists w' f', call 0 rwsdiffstoreCommand (request three_sets ["rwsdiffstore"; "d"; "s"; "t"]) = Done tt w' /\
    rws w' "d" f' /\ visible w' "d" = visible three_sets "d" ∩ K /\
    replies (cli w') = [if decide (visible three_sets "d" ⊆ K) then R_ele_nexist else R_ok].
Proof.
  destruct (proj2 (rws_store_behaviour three_sets "d" "rwsdiffstore" "s" ["t"] (proj2 three_sets_cfg)) (hdrs_of three_sets "d")) as [_ Hdi].
  - apply three_sets_rws. left.
  - apply three_sets_rws. left.
  - apply three_sets_cfg.
  - apply Forall_forall, three_sets_key.
  - destruct Hdi as [(w' & f' & H1 & H2 & H3 & _ & H4) _].
    + exact dest_removable.
    + by vm_compute.
    + exists w', f'. split; [exact H1|]. split; [exact H2|]. split; [exact H3|exact H4].
Defined.

(** ** Clients and links *)

(** A link on which nothing was sent yet. *)
Definition no_limits (t : client_type) : clientBufferLimitsConfig := mkLimits 0 0 0.
Definition replica_flags : oflags := mkOF false false false false true false false false false false true false.
Definition new_link : oclient := mkO [] 0 [] 0 0 false false false 0 replica_flags.
Definition one_mb : Z := 1024 * 1024.
Definition link0 : Link.net (S := mclient) := mkNet new_link (-1) [] ClientInput.createClient new_mclient [] [].
Definition add_args : list sds := ["rwfsadd"; "k"; "x"].
Definition sent_link : oclient :=
  match Wire.replicationBroadcast no_limits 0 [new_link] (-1) 3 add_args with Some ([c], _) => c | _ => new_link end.
Definition link1 : Link.net (S := mclient) :=
  mkNet sent_link 3 [] ClientInput.createClient new_mclient (requests (-1) 3 add_args) [(3, add_args)].

Lemma new_link_ok : link_ok new_link.
Proof.
  split; [split| | |done].
  - done.
  - done.
  - by left.
  - apply NoDup_nil_2.
  - apply Forall_nil_2.
  - done.
  - apply Forall_nil_2.
Qed.
Lemma add_args_plain : plain (fun _ => 0) add_args.
Proof.
  exists (default (mkCommand "" "" 0 "" 0 K_null 0 0 0) (Commands.commands !! 206%nat)). split; [|repeat constructor].
  split_and!; vm_compute; reflexivity.
Qed.
Lemma link0_fresh : fresh_link not_quit one_mb new_mclient link0.
Proof. split_and!; try done. apply new_link_ok. Qed.
Definition open_receiver (args : list sds) (f : cflags) (c : mclient) : presult * mclient :=
  Transactions.processCommand (fun _ => 0) (open_conf 16) args f c.
Lemma link0_step : step not_quit open_receiver (fun _ => false) no_limits false 0 one_mb (2 * one_mb) link0 link1.
Proof.
  apply (S_broadcast _ _ _ _ _ _ _ _ new_link (-1) [] ClientInput.createClient new_mclient [] [] 3 add_args sent_link).
  - clia.
  - split_and!; [done|done|]. repeat (apply Forall_cons_2; [done|]). apply Forall_nil_2.
  - done.
  - vm_compute. reflexivity.
  - vm_compute. reflexivity.
Qed.

(** C15: a link from one server to another, as a state machine whose steps are
    broadcasts, writes of what the socket takes and reads of what has arrived.
    In every reachable state the receiver has run the first of the broadcast
    commands, in order and each in the database it was issued in, and has found
    no protocol error; and from every reachable state the bytes under way can be
    delivered, after which it has run all of them.  The receiver is a server that
    serves its clients (no password, cluster, memory limit, master or loading
    stands in the way) and knows the commands; the link was made before any
    broadcast, or after broadcasts for database 0. *)
Theorem link_delivery bucket env databases limits over_memory unixtime maxbulk maxbuf n0 n :
  (forall s t, P2P.tolower <$> chars s = P2P.tolower <$> chars t -> bucket s = bucket t) ->
  (forall c, serving (env c)) -> (forall c, dbnum (env c) = databases) ->
  16 <= maxbulk -> maxbulk + 2 <= INT_MAX -> PROTO_INLINE_MAX_SIZE <= maxbuf -> maxbulk + 2 <= maxbuf ->
  fresh_link not_quit maxbulk new_mclient n0 -> n_seldb n0 <= 0 -> Forall (plain bucket) (n_sent n0) ->
  let receive args f c := Transactions.processCommand bucket (env c) args f c in
  let lstep := step not_quit receive (fun _ => false) limits over_memory unixtime maxbulk maxbuf in
  rtc lstep n0 n -> Forall (fun b => 0 <= b.1 < databases /\ plain bucket b.2) (n_log n) ->
  let all := (((fun a => (0, a)) <$> n_sent n0) ++ n_log n)%list in
  (exists k, m_ran (n_state n) = take k all) /\ errs (n_in n) = [] /\
  exists n', rtc lstep n n' /\ n_log n' = n_log n /\ n_chan n' = [] /\ queue (n_out n') = [] /\ m_ran (n_state n') = all.
Proof.
  intros Hbk Henv Hdb Hmin Hmax Hbuf Hbuf' Hfr Hsel Hg receive lstep Hr Hl all. pose proof (replay_calm bucket env Henv) as Hcalm.
  pose proof (reachable_inv not_quit receive _ requests_not_quit limits over_memory unixtime maxbulk maxbuf Hmin Hmax Hbuf Hbuf' new_mclient n0 n Hfr Hr) as Hinv.
  pose proof (link_replays bucket Hbk env Henv databases Hdb limits over_memory unixtime maxbulk maxbuf Hmin Hmax Hbuf Hbuf' n0) as Hrep.
  destruct (Hrep n Hfr Hsel Hg Hr Hl) as [Hk _]. split; [exact Hk|]. split; [by destruct Hinv as [_ (ran & todo & _ & _ & _ & He & _)]|].
  destruct (Link.delivery not_quit receive _ requests_not_quit limits over_memory unixtime maxbulk maxbuf Hmin Hmax Hbuf Hbuf' new_mclient n Hinv)
    as (n' & Hr' & _ & Hlog & Hch & Hq & _).
  exists n'. split_and!; [exact Hr'|exact Hlog|exact Hch|exact Hq|]. unfold all. rewrite <- Hlog.
  apply (Hrep n'); try done; [by transitivity n|by rewrite Hlog].
Qed.

Lemma link_delivery_witness :
  exists n', rtc (step not_quit open_receiver (fun _ => false) no_limits false 0 one_mb (2 * one_mb)) link1 n' /\
    m_ran (n_state n') = [(3, add_args)].
Proof.
  destruct (link_delivery (fun _ => 0) (fun _ => open_conf 16) 16 no_limits false 0 one_mb (2 * one_mb) link0 link1) as (_ & _ & n' & Hr & _ & _ & _ & Hran).
  - done.
  - intros _. apply open_serving.
  - done.
  - done.
  - done.
  - done.
  - done.
  - apply link0_fresh.
  - done.
  - apply Forall_nil_2.
  - apply rtc_once, link0_step.
  - apply Forall_singleton. split; [done|apply add_args_plain].
  - exists n'. split; [exact Hr|exact Hran].
Defined.

(** C16: the broadcast of the server model is the one on the wire.  When every
    link of the model stands for a client whose bytes, written and still queued,
    are those of the replies on the link, a broadcast in the model and the
    byte-level broadcast to these clients keep it so, and leave the same selected
    database. *)
Theorem broadcast_on_the_wire limits unixtime w rs dictid argv :
  Forall2 link_rel (replicas (srv w)) rs -> in_int dictid -> Z.of_nat (length argv) <= LLONG_MAX ->
  Forall (fun a => Z.of_nat (slen a) <= LLONG_MAX) argv ->
  Forall (fun c => reply_bytes c + Z.of_nat (length (message (p2p_seldb (srv w)) dictid argv)) < BYTES_LIMIT) rs ->
  exists w' rs', Server.replicationBroadcast dictid argv w = Done tt w' /\
    Wire.replicationBroadcast limits unixtime rs (p2p_seldb (srv w)) dictid argv = Some (rs', p2p_seldb (srv w')) /\
    Forall2 link_rel (replicas (srv w')) rs' /\ cli w' = cli w /\ db (srv w') = db (srv w).
Proof. apply broadcast_refines. Qed.

Definition linked_world : world := mkWorld (mkServer ∅ [[]] 2 0 (-1) 0 512 0 0) (mkClient [] None false false []).
Lemma broadcast_on_the_wire_witness :
  exists w' rs', Server.replicationBroadcast 3 add_args linked_world = Done tt w' /\
    Wire.replicationBroadcast no_limits 0 [new_link] (-1) 3 add_args = Some (rs', 3) /\
    Forall2 link_rel (replicas (srv w')) rs'.
Proof.
  destruct (broadcast_on_the_wire no_limits 0 linked_world [new_link] 3 add_args) as (w' & rs' & Hb & Hw & Hrel & _).
  - apply Forall2_cons_2; [|apply Forall2_nil_2]. split; [apply new_link_ok|by exists []].
  - clia.
  - by vm_compute.
  - repeat (apply Forall_cons_2; [by vm_compute|]). apply Forall_nil_2.
  - apply Forall_singleton. vm_compute. reflexivity.
  - exists w', rs'. split; [exact Hb|]. split; [|exact Hrel].
    vm_compute in Hb. injection Hb as <-. exact Hw.
Defined.

(** C17: a transaction.  Whatever happens to the server between the requests, the
    commands of a transaction run all, in order, at its EXEC, or none of them runs:
    a command that is refused while it is queued makes EXEC refuse the rest.  When
    nothing stands in the way and no watched key is touched, they run.  The
    requests must not meet one of the checks that refuse a command without noting
    it in the transaction. *)
Theorem transactions_whole bucket es e f c :
  f_multi f = true -> m_commands c = [] -> m_dirty_exec c = false ->
  Forall (fun e => notes_refusals (e_conf e) /\ queueable bucket (e_args e)) es ->
  let c' := (session_events bucket (es ++ [e]) (f, c)).2 in
  (m_ran c' = m_ran c \/
   (Forall (fun e => is_Some (command_of bucket (e_args e))) es /\ m_ran c' = m_ran (run_queue (e_conf e) (queued bucket es) c))) /\
  (forall cmd, m_dirty_cas c = false ->
   Forall (fun e => serving (e_conf e) /\ e_touched e = false /\ exists cmd, known bucket cmd (e_args e)) (es ++ [e]) ->
   known bucket cmd (e_args e) -> c_proc cmd = "execCommand" ->
   m_ran c' = m_ran (run_queue (e_conf e) (queued bucket es) c)).
Proof.
  intros Hm Hc Hd Hes c'. split; [by apply all_or_nothing|]. intros cmd Hdc Hs Hk Hp. apply (served_transaction bucket es e cmd); try done.
  eapply Forall_impl; [exact Hes|]. by intros x [_ Hx].
Qed.

(** A set and an unknown command in a transaction. *)
Definition in_multi : cflags := set_multi true no_flags.
Lemma transactions_whole_witness :
  m_ran (session_events (fun _ => 0) ([mkEv (open_conf 16) false ["SET"; "k"; "v"]; mkEv (open_conf 16) true ["NOSUCH"]] ++
    [mkEv (open_conf 16) false ["EXEC"]]) (in_multi, new_mclient)).2 = [].
Proof.
  destruct (transactions_whole (fun _ => 0) [mkEv (open_conf 16) false ["SET"; "k"; "v"]; mkEv (open_conf 16) true ["NOSUCH"]]
    (mkEv (open_conf 16) false ["EXEC"]) in_multi new_mclient) as [[H|[H _]] _].
  - done.
  - done.
  - done.
  - apply Forall_cons_2; [|apply Forall_singleton]; (split; [done|]); (split; [done|]); intros cmd Hcmd; vm_compute in Hcmd; [|done].
    injection Hcmd as <-. repeat constructor.
  - exact H.
  - apply Forall_cons_1 in H as [_ H]. apply Forall_cons_1 in H as [[x Hx] _]. vm_compute in Hx. discriminate Hx.
Defined.

(** C18: the command table.  It loads without a panic or a name given twice; a
    command is found under its name in any case.  For a request with a right number
    of arguments the positions of keys are positions of its arguments, except for
    [rwftreecreate], whose entry misses a field, and for a negative number of keys
    in ZUNIONSTORE, ZINTERSTORE, EVAL and EVALSHA: for these, looking for the keys
    calls an address that is no function or writes outside of its array. *)
Theorem command_table bucket module_keys i cmd name args :
  (forall s t, P2P.tolower <$> chars s = P2P.tolower <$> chars t -> bucket s = bucket t) ->
  Commands.commands !! i = Some cmd -> P2P.tolower <$> chars name = P2P.tolower <$> chars (c_name cmd) ->
  arity_ok cmd (argc_of (name :: args)) = true ->
  populateCommandTable bucket = Some Commands.commands /\
  lookupCommand bucket Commands.commands name = Some cmd /\
  (~ keys_fatal cmd (name :: args) ->
   exists keys, getKeysFromCommand module_keys cmd (name :: args) = Done keys tt /\
     Forall (fun k => 0 < k < argc_of (name :: args)) keys) /\
  (keys_fatal cmd (name :: args) -> getKeysFromCommand module_keys cmd (name :: args) = Crash).
Proof.
  intros Hb Hi Hn Ha. apply list_elem_of_lookup_2 in Hi. split_and!.
  - apply populate_loads.
  - by apply lookup_found.
  - intros Hf. apply keys_positions; try done; [intros Hc; apply Hf; by left|].
    intros n Hk. destruct (Z.le_gt_cases 0 n); [done|]. destruct Hf. right. by exists n.
  - intros Hf. by apply keys_crash.
Qed.

Lemma command_table_witness :
  exists cmd keys, lookupCommand (fun _ => 0) Commands.commands "RWFSUnionStore" = Some cmd /\
    getKeysFromCommand (fun _ _ => Crash) cmd ["RWFSUnionStore"; "d"; "s"; "t"] = Done keys tt.
Proof.
  destruct (command_table (fun _ => 0) (fun _ _ => Crash) 211 (flagged (mkCommand "rwfsunionstore" "rwsunionstoreCommand" (-3) "wm" 0 K_null 1 (-1) 1))
    "RWFSUnionStore" ["d"; "s"; "t"]) as (_ & Hl & Hk & _).
  - done.
  - vm_compute. reflexivity.
  - vm_compute. reflexivity.
  - vm_compute. reflexivity.
  - destruct Hk as (keys & Hk & _).
    + intros [Hc|(n & Hc & _)]; [discriminate Hc|vm_compute in Hc; discriminate Hc].
    + eexists _, keys. split; [exact Hl|exact Hk].
Defined.

(** C19: requests in the multi bulk form arrive in pieces of any sizes.  Read by a
    client, whatever [read] returns each time, they are run one after the other:
    at any time a prefix of them, with no protocol error; when all bytes were
    read, all of them, and the client is between two requests with an empty
    buffer; and that is so after at most as many reads as there are bytes. *)
Theorem requests_in_pieces {S} good (processCommand : list sds -> cflags -> S -> presult * S) paused
    `{!CalmServer good processCommand paused} maxbulk maxbuf unixtime sizes cmds s :
  maxbulk + 2 <= INT_MAX -> PROTO_INLINE_MAX_SIZE <= maxbuf -> maxbulk + 2 <= maxbuf ->
  Forall (cmd_ok maxbulk) cmds -> Forall good cmds -> Forall (fun n => (0 < n)%nat) sizes ->
  let stream := cmds ≫= enc_cmd in
  exists c' s' unread ran todo,
    serve processCommand paused maxbulk maxbuf unixtime sizes stream ClientInput.createClient s = Done (Some c', unread) s' /\
    cmds = (ran ++ todo)%list /\ run_all processCommand ran (no_flags, s) = (ClientInput.flags c', s') /\ errs c' = [] /\
    (unread = [] -> todo = [] /\ querybuf c' = []) /\
    ((length stream <= length sizes)%nat -> unread = []).
Proof.
  intros Hmax Hbuf Hbuf' Hok Hgd Hs stream.
  destruct (serve_spec good processCommand paused maxbulk maxbuf unixtime Hmax Hbuf Hbuf' sizes stream ClientInput.createClient s cmds) as
    (c' & s' & unread & ran & todo & Hsv & Hc & Hrun & _ & _ & _ & Hend & He & Hl); try done.
  - apply E_idle; auto.
  - by left.
  - intros Hn. split; [|done]. by destruct cmds.
  - exists c', s', unread, ran, todo. split_and!; try done. intros Hle. apply nil_length_inv. specialize (Hl Hs). lia.
Qed.

Lemma requests_in_pieces_witness :
  exists c' s' unread ran todo,
    serve record_server (fun _ => false) one_mb (2 * one_mb) 0 [7; 1; 30]%nat ([["GET"; "k"]; add_args] ≫= enc_cmd) ClientInput.createClient [] =
      Done (Some c', unread) s' /\
    [["GET"; "k"]; add_args] = (ran ++ todo)%list /\ run_all record_server ran (no_flags, []) = (ClientInput.flags c', s').
Proof.
  destruct (requests_in_pieces (fun _ => True) record_server (fun _ => false) one_mb (2 * one_mb) 0 [7; 1; 30]%nat [["GET"; "k"]; add_args] []) as
    (c' & s' & unread & ran & todo & H1 & H2 & H3 & _).
  - done.
  - done.
  - done.
  - repeat (apply Forall_cons_2; [split_and!; [done|done|repeat (apply Forall_cons_2; [done|]); apply Forall_nil_2]|]). apply Forall_nil_2.
  - by apply Forall_forall.
  - repeat (apply Forall_cons_2; [lia|]). apply Forall_nil_2.
  - exists c', s', unread, ran, todo. split_and!; [exact H1|exact H2|exact H3].
Defined.

(** C20: any bytes are safe to read.  Whatever a client sends, in whatever
    pieces, with read errors and closed connections, reading ends and no
    assertion of the parser fails; the client is left ready to go on, blocked or
    to be closed, or it was freed.  On the link to a master, what was passed on
    to the replicas of this server and what is pending are together all bytes
    read, and exactly the bytes applied were passed on. *)
Theorem client_input_safe {S} (processCommand : list sds -> cflags -> S -> presult * S) paused
    `{!SoundServer processCommand} maxbulk maxbuf unixtime ns c s :
  q_ok c ->
  exists oc fed s', session processCommand paused maxbulk maxbuf unixtime ns c s = Done (oc, fed) s' /\
    forall c', oc = Some c' -> q_ok c' /\
      (f_master (ClientInput.flags c) = true -> master_ok c ->
       fed ++ pending_querybuf c' = pending_querybuf c ++ (ns ≫= received) /\ master_ok c')%list.
Proof.
  intros Hq. destruct (session_safe processCommand paused maxbulk maxbuf unixtime ns c s Hq) as (oc & fed & s' & Hs & Hc).
  exists oc, fed, s'. split; [exact Hs|]. intros c' Hc'. destruct (Hc c' Hc') as (Hq' & _ & Hm). by split.
Qed.

Lemma client_input_safe_witness :
  exists oc fed s', session record_server (fun _ => false) one_mb (2 * one_mb) 0
      [N_data (chars "*2*?"); N_again; N_data (chars "$-1 '"); N_eof] ClientInput.createClient [] = Done (oc, fed) s' /\
    forall c', oc = Some c' -> q_ok c'.
Proof.
  destruct (client_input_safe record_server (fun _ => false) one_mb (2 * one_mb) 0
    [N_data (chars "*2*?"); N_again; N_data (chars "$-1 '"); N_eof] ClientInput.createClient []) as (oc & fed & s' & Hs & Hc).
  - apply createClient_ok.
  - exists oc, fed, s'. split; [exact Hs|]. intros c' Hc'. by apply Hc.
Defined.

(** C21: the output of a client is a queue of bytes.  Every function that adds a
    reply, but those for doubles and help texts, appends exactly its bytes, through
    the static buffer, the nodes of the list and the shared headers: objects,
    strings, errors (a formatted one with its ends of lines made blanks), status
    lines, integers, lengths and bulk strings; a length announced first and filled
    in later stands where it was announced.  A write takes bytes from the front,
    whatever the socket accepts, loses and repeats none, sends at least one when
    the socket takes one, fails no assertion, and what is left is scheduled. *)
Theorem replies_are_a_queue limits unixtime over_memory o z n s e c ws :
  obj_ok o -> in_llong z -> 0 <= n <= LLONG_MAX -> Z.of_nat (length s) <= LLONG_MAX -> Z.of_nat (length (chars e)) <= LLONG_MAX ->
  o_ok c -> writable (oflags_of c) -> filled c ->
  (adds (ClientOutput.addReply limits unixtime o) (getDecodedObject o) /\
   adds (ClientOutput.addReplySds limits unixtime s) s /\
   adds (ClientOutput.addReplyString limits unixtime s) s) /\
  (adds (addReplyErrorLength limits unixtime s) (chars "-ERR " ++ s ++ crlf_obj)%list /\
   adds (ClientOutput.addReplyError limits unixtime e) (chars "-ERR " ++ cstr (chars e) ++ crlf_obj)%list /\
   (exists t, one_line s t /\ adds (addReplyErrorFormat limits unixtime s) (chars "-ERR " ++ t ++ crlf_obj)%list) /\
   adds (addReplyStatusLength limits unixtime s) (chars "+" ++ s ++ crlf_obj)%list /\
   adds (addReplyStatusFormat limits unixtime s) (chars "+" ++ s ++ crlf_obj)%list /\
   adds (addReplyStatus limits unixtime e) (chars "+" ++ cstr (chars e) ++ crlf_obj)%list) /\
  (adds (addReplyLongLong limits unixtime z) (num_line ":" z) /\
   adds (addReplyMultiBulkLen limits unixtime n) (num_line "*" n) /\
   adds (addReplyBulkLen limits unixtime o) (num_line "$" (Z.of_nat (length (getDecodedObject o))))) /\
  (adds (ClientOutput.addReplyBulk limits unixtime o) (bulk_line (getDecodedObject o)) /\
   adds (addReplyBulkCBuffer limits unixtime s) (bulk_line s) /\
   adds (addReplyBulkSds limits unixtime s) (bulk_line s) /\
   adds (addReplyBulkCString limits unixtime (Some e)) (bulk_line (cstr (chars e))) /\
   adds (addReplyBulkCString limits unixtime None) (chars "$-1" ++ crlf_obj)%list /\
   adds (addReplyBulkLongLong limits unixtime z) (bulk_line (sdsll2str z))) /\
  (exists id c1, addDeferredMultiBulkLength c = (Some id, c1) /\
     forall s' c2, appended s' c1 c2 -> reply_bytes c2 + 24 < BYTES_LIMIT ->
       exists c3, setDeferredMultiBulkLength limits unixtime (Some id) n c2 = Some c3 /\
         queue c3 = (queue c ++ num_line "*" n ++ s')%list /\ o_ok c3) /\
  (exists alive out c', handleClientWithPendingWrites over_memory true ws c = Done (alive, out) c' /\
     queue c = (out ++ queue c')%list /\ o_ok c' /\ filled c' /\ (alive = true -> scheduled c') /\
     (forall k ws', ws = W_bytes (Datatypes.S k) :: ws' -> queue c <> [] -> out <> [])).
Proof.
  intros Ho Hz Hn Hs He Hok Hw Hfi. split; [|split; [|split; [|split; [|split]]]].
  - split_and!; [by apply adds_obj|apply adds_sds|apply adds_string].
  - split_and!; [apply adds_error|apply adds_error|apply adds_error_format|apply adds_status|apply adds_status|apply adds_status].
  - split_and!; [by apply adds_longlong|by apply adds_multibulklen|by apply adds_bulklen].
  - split_and!; [by apply adds_bulk|by apply adds_bulk_buffer|by apply adds_bulk_sds|by apply adds_bulk_cstring|apply adds_raw|by apply adds_bulk_longlong].
  - by apply deferred_header.
  - destruct (pending_scheduled over_memory ws c Hok Hfi) as (al & out & c' & H1 & H2 & H3 & H4 & _ & H5 & H6 & _).
    exists al, out, c'. split_and!; assumption.
Qed.

Definition one_reply : oclient := mkO (chars "+OK") 1 [] 0 0 true false false 0 (mkOF false false false false false false false false false false true false).
Lemma one_reply_ok : o_ok one_reply /\ writable (oflags_of one_reply) /\ filled one_reply.
Proof.
  split_and!; try done; [|apply Forall_nil_2]. split; [done|done| |apply NoDup_nil_2|apply Forall_nil_2]. right. left. cbn. lia.
Qed.
Lemma replies_are_a_queue_witness :
  adds (ClientOutput.addReplyBulk no_limits 0 (O_int (-12))) (chars "$3" ++ crlf_obj ++ chars "-12" ++ crlf_obj)%list /\
  exists out c', handleClientWithPendingWrites false true [W_bytes 1; W_again] one_reply = Done (true, out) c' /\
    out = chars "O" /\ queue c' = chars "K".
Proof.
  destruct (replies_are_a_queue no_limits 0 false (O_int (-12)) 5 2 [] "" one_reply [W_bytes 1; W_again]) as
    (_ & _ & _ & (Hb & _) & _ & al & out & c' & Hw & _).
  - unfold obj_ok. clia.
  - clia.
  - clia.
  - by vm_compute.
  - by vm_compute.
  - apply one_reply_ok.
  - apply one_reply_ok.
  - apply one_reply_ok.
  - split; [exact Hb|]. vm_compute in Hw. injection Hw as <- <- <-. eexists _, _. split; [vm_compute; reflexivity|]. split; reflexivity.
Defined.

(** C22: text.  What [sdscatrepr] prints, [sdssplitargs] reads back, whatever the
    bytes; so a line of quoted arguments that are not empty is the request with
    these arguments, and the bytes after the line stay in the buffer. *)
Theorem quoted_requests unixtime c l rest :
  querybuf c = (quote_args l ++ crlf ++ rest)%list -> Forall (fun a => a <> EmptyString) l ->
  sdssplitargs (quote_args l) = Some l /\
  exists c', processInlineBuffer unixtime c = (true, c') /\ cargv c' = l /\ querybuf c' = rest.
Proof.
  intros Hq Hl. split; [apply sdssplitargs_quoted|]. destruct (inline_quoted unixtime c l rest Hq) as (c' & Hp & Ha & Hr).
  exists c'. split_and!; [exact Hp| |exact Hr]. rewrite Ha. by apply filter_nonempty.
Qed.

Lemma quoted_requests_witness :
  exists c', processInlineBuffer 0 (set_querybuf (quote_args ["SET"; "k"; of_chars [NUL; DQ; LF]] ++ crlf) ClientInput.createClient) = (true, c') /\
    cargv c' = ["SET"; "k"; of_chars [NUL; DQ; LF]].
Proof.
  destruct (quoted_requests 0 (set_querybuf (quote_args ["SET"; "k"; of_chars [NUL; DQ; LF]] ++ crlf) ClientInput.createClient)
    ["SET"; "k"; of_chars [NUL; DQ; LF]] []) as (_ & c' & Hp & Ha & _).
  - reflexivity.
  - repeat (apply Forall_cons_2; [discriminate|]). apply Forall_nil_2.
  - exists c'. split; [exact Hp|exact Ha].
Defined.

(** ** Sets and integer sets *)

(** C23: a set object, in either encoding and across the conversion between
    them, is the finite set of its members: adding, removing and testing do
    what they say, report whether they changed it, keep the encoding valid, and
    never fail an assertion.  Below it, an integer set, whose bytes hold its
    sorted values in the smallest of three widths that fits them all, refines a
    finite set of integers: adding with the upgrade to a wider encoding, removing
    and the binary search. *)
Theorem setType_refines_set `{DictOrder} max so v ins l value :
  max_ok max -> set_ok max so -> intset_rep ins l -> in_llong value -> Z.of_nat (length l) + 1 < 2147483648 ->
  ((exists so', setTypeAdd max so v = Some (so', bool_decide (v ∉ set_members so)) /\
      set_ok max so' /\ set_members so' = {[v]} ∪ set_members so) /\
   (set_ok max (setTypeRemove so v).1 /\ set_members (setTypeRemove so v).1 = set_members so ∖ {[v]} /\
      (setTypeRemove so v).2 = bool_decide (v ∈ set_members so)) /\
   setTypeIsMember so v = bool_decide (v ∈ set_members so) /\
   setTypeSize so = size (set_members so)) /\
  ((exists l', intset_rep (intsetAdd ins value).1 l' /\ (forall x, x ∈ l' <-> x = value \/ x ∈ l) /\
      (intsetAdd ins value).2 = bool_decide (value ∉ l)) /\
   (exists l', intset_rep (intsetRemove ins value).1 l' /\ (forall x, x ∈ l' <-> x <> value /\ x ∈ l) /\
      (intsetRemove ins value).2 = bool_decide (value ∈ l)) /\
   intsetFind ins value = bool_decide (value ∈ l)).
Proof.
  intros Hm Hok Hr Hv Hl. split.
  - split; [by apply setTypeAdd_spec|]. split; [by apply setTypeRemove_spec|].
    split; [by apply setTypeIsMember_spec with max|by apply setTypeSize_spec with max].
  - split_and!; [by apply intsetAdd_rep|by apply intsetRemove_rep|by apply intsetFind_rep].
Qed.

Lemma setType_refines_set_witness :
  (exists so', setTypeAdd 512 (SHT {["x"]}) "7" = Some (so', true) /\ set_members so' = {["7"]} ∪ {["x"]}) /\
  (exists l', intset_rep (intsetAdd intsetNew 70000).1 l' /\ (forall x, x ∈ l' <-> x = 70000 \/ x ∈ []) /\
     (intsetAdd intsetNew 70000).2 = true).
Proof.
  destruct (setType_refines_set 512 (SHT {["x"]}) "7" intsetNew [] 70000) as [[(so' & Ha & _ & Hm) _] [Hi _]].
  - split; lia.
  - exact I.
  - apply intsetNew_rep.
  - clia.
  - cbn. lia.
  - split; [by exists so'|exact Hi].
Defined.

(** ** Set commands *)

(** A request to a server with the plain sets [s] and [t] of the members [x y z]
    and [y]. *)
Definition plain_sets : world :=
  (ask (ask (start_world 2 0) saddCommand ["sadd"; "s"; "x"; "y"; "z"]).1 saddCommand ["sadd"; "t"; "y"]).1.
Definition plain_client (args : list sds) : world := request plain_sets args.
Definition s_members : gset sds := list_to_set ["x"; "y"; "z"].

Lemma plain_client_ok args :
  is_replica (cli (plain_client args)) = false /\ world_max_ok (plain_client args) /\
  SetClient.holds (plain_client args) "s" (SHT s_members) /\ SetClient.holds (plain_client args) "t" (SHT {["y"]}).
Proof. split; [reflexivity|]. split; [vm_compute; split; congruence|]. split; (split; [vm_compute; reflexivity|exact I]). Qed.

Lemma plain_keys args : Forall (set_key (plain_client args)) ["s"; "t"].
Proof.
  destruct (plain_client_ok args) as (_ & _ & [Hs Hgs] & [Ht Hgt]).
  apply Forall_cons_2; [|apply Forall_singleton]; unfold set_key; [rewrite Hs|rewrite Ht]; exact I.
Qed.

(** C24: [sdiff], [sunion] and [sinter] reply with exactly the members of the
    difference, the union and the intersection, each once, and their store forms
    put this set under the destination, or delete it when the set is empty, and
    reply with the size; whatever [qsort] does with sets of equal size, and with
    either algorithm for the difference.  An intersection with a missing key ends
    there, with the empty reply. *)
Theorem set_algebra `{DictOrder, Qsort} w (name key k1 : sds) ks :
  is_replica (cli w) = false -> world_max_ok w -> Forall (set_key w) (k1 :: ks) -> int_sized (union_of w (k1 :: ks)) ->
  (argv (cli w) = name :: k1 :: ks ->
   (exists l, l ≡ₚ elements (visible w k1 ∖ union_of w ks) /\ sdiffCommand w = Done tt (after w (db (srv w)) (members_reply l) 0)) /\
   (exists l, l ≡ₚ elements (union_of w (k1 :: ks)) /\ sunionCommand w = Done tt (after w (db (srv w)) (members_reply l) 0)) /\
   (exists l, l ≡ₚ elements (inter_of w k1 ks) /\ sinterCommand w =
      if missing_key w (k1 :: ks) then Return (after w (db (srv w)) [R_emptymultibulk] 0)
      else Done tt (after w (db (srv w)) (members_reply l) 0))) /\
  (argv (cli w) = name :: key :: k1 :: ks ->
   (exists so, good w so /\ set_members so = visible w k1 ∖ union_of w ks /\
      sdiffstoreCommand w = Done tt (after w (put_or_drop key so (db (srv w))) [stored_reply so] 1)) /\
   (exists so, good w so /\ set_members so = union_of w (k1 :: ks) /\
      sunionstoreCommand w = Done tt (after w (put_or_drop key so (db (srv w))) [stored_reply so] 1)) /\
   (exists so, good w so /\ set_members so = inter_of w k1 ks /\ sinterstoreCommand w =
      if missing_key w (k1 :: ks) then Return (after w (base.delete key (db (srv w))) [R_czero] (if decide (is_Some (db (srv w) !! key)) then 1 else 0))
      else Done tt (after w (put_or_drop key so (db (srv w))) [stored_reply so] 1))).
Proof.
  intros Hr Hm Hks Hi. assert (visible w k1 ⊆ union_of w (k1 :: ks)) as Hk1 by (intros x Hx; apply in_union_of; exists k1; split; [left|done]).
  destruct (sunionDiff_spec w Hr Hm SET_OP_DIFF k1 ks Hks) as [Hd Hds]; [eapply int_sized_sub, Hi; cbn; set_solver|intros; by eapply int_sized_sub, Hi|].
  destruct (sunionDiff_spec w Hr Hm SET_OP_UNION k1 ks Hks Hi) as [Hu Hus]; [done|].
  destruct (sinter_total w Hr Hm k1 ks Hks) as [Hn Hns]. split; intros Ha.
  - unfold sdiffCommand, sunionCommand, sinterCommand. rewrite !(bind_done _ _ _ _ _ (args_after_name w name _ 0 Ha)). by split_and!.
  - pose proof (arg_start w 1 key ltac:(by rewrite Ha)) as Hkey. unfold sdiffstoreCommand, sunionstoreCommand, sinterstoreCommand.
    rewrite !(bind_done _ _ _ _ _ (args_after_name w name _ 1 Ha)), !(bind_done _ _ _ _ _ Hkey). by split_and!.
Qed.

Lemma set_algebra_witness :
  exists l, l ≡ₚ elements (visible (plain_client ["sdiff"; "s"; "t"]) "s" ∖ union_of (plain_client ["sdiff"; "s"; "t"]) ["t"]) /\
    sdiffCommand (plain_client ["sdiff"; "s"; "t"]) =
    Done tt (after (plain_client ["sdiff"; "s"; "t"]) (db (srv (plain_client ["sdiff"; "s"; "t"]))) (members_reply l) 0).
Proof.
  refine (proj1 (proj1 (set_algebra (plain_client ["sdiff"; "s"; "t"]) "sdiff" "d" "s" ["t"] _ _ _ _) _)).
  - apply plain_client_ok.
  - apply plain_client_ok.
  - apply plain_keys.
  - vm_compute. congruence.
  - reflexivity.
Defined.

(** C25: the commands on one plain set.  [sadd] adds the elements, to a new set
    when the key is missing, and replies how many were new; [srem] removes them and
    replies how many were there, and deletes the key when it took the last one;
    [smove] moves a member, drops an empty source, and leaves all as it is for an
    element that is not there and when source and destination are the same key;
    [sismember] and [scard] answer for the set.  Nothing else of the key space
    changes.  On a missing key (for [smove], a missing source) they reply 0, and on
    a key of another type (for [smove], also of the destination) an error, and
    change nothing. *)
Theorem set_commands `{DictOrder} w (name key : sds) :
  is_replica (cli w) = false -> world_max_ok w ->
  (forall x xs, argv (cli w) = name :: key :: x :: xs -> set_key w key ->
   exists so, good w so /\ set_members so = list_to_set (x :: xs) ∪ visible w key /\
     let n := Z.of_nat (size (set_members so)) - Z.of_nat (size (visible w key)) in
     saddCommand w = Done tt (after w (<[key := OSet so]> (db (srv w))) [R_longlong n] n)) /\
  (forall xs so, argv (cli w) = name :: key :: xs -> SetClient.holds w key so ->
   let X := visible w key ∖ list_to_set xs in
   let n := Z.of_nat (size (visible w key)) - Z.of_nat (size X) in
   exists so', good w so' /\ set_members so' = X /\
     sremCommand w = Done tt (after w
       (if decide (X = ∅ /\ visible w key <> ∅) then base.delete key (db (srv w)) else <[key := OSet so']> (db (srv w))) [R_longlong n] n)) /\
  (forall dst x so, argv (cli w) = [name; key; dst; x] -> SetClient.holds w key so -> key <> dst -> set_key w dst ->
   exists so1, good w so1 /\ set_members so1 = visible w key ∖ {[x]} /\
     if decide (x ∈ visible w key) then
       exists so2, good w so2 /\ set_members so2 = {[x]} ∪ visible w dst /\
         smoveCommand w = Done tt (after w (<[dst := OSet so2]> (put_or_drop key so1 (db (srv w)))) [R_cone]
           (if bool_decide (x ∉ visible w dst) then 2 else 1))
     else smoveCommand w = Return (after w (<[key := OSet so1]> (db (srv w))) [R_czero] 0)) /\
  (forall x so, argv (cli w) = [name; key; x] -> SetClient.holds w key so ->
   sismemberCommand w = Done tt (after w (db (srv w)) [if bool_decide (x ∈ visible w key) then R_cone else R_czero] 0)) /\
  (forall so, argv (cli w) = [name; key] -> SetClient.holds w key so ->
   scardCommand w = Done tt (after w (db (srv w)) [R_longlong (Z.of_nat (size (visible w key)))] 0)) /\
  (forall x so, argv (cli w) = [name; key; key; x] -> SetClient.holds w key so ->
   only_replies w (if bool_decide (x ∈ visible w key) then R_cone else R_czero) smoveCommand) /\
  (forall args, argv (cli w) = name :: key :: args -> db (srv w) !! key = None ->
   only_replies w R_czero sremCommand /\ only_replies w R_czero sismemberCommand /\ only_replies w R_czero scardCommand /\
   (forall dst x, args = [dst; x] -> only_replies w R_czero smoveCommand)) /\
  (forall args o, argv (cli w) = name :: key :: args -> db (srv w) !! key = Some o -> is_set o = false ->
   only_replies w R_wrongtypeerr saddCommand /\ only_replies w R_wrongtypeerr sremCommand /\
   only_replies w R_wrongtypeerr sismemberCommand /\ only_replies w R_wrongtypeerr scardCommand /\
   (forall dst x, args = [dst; x] -> only_replies w R_wrongtypeerr smoveCommand)) /\
  (forall dst x so o, argv (cli w) = [name; key; dst; x] -> SetClient.holds w key so ->
   db (srv w) !! dst = Some o -> is_set o = false -> only_replies w R_wrongtypeerr smoveCommand).
Proof.
  intros Hr Hm. refine (conj _ (conj _ (conj _ (conj _ (conj _ (conj _ (conj _ (conj _ _)))))))).
  - intros x xs. by apply sadd_spec.
  - intros xs so Ha Hh. by apply (srem_spec w Hr Hm name key xs so).
  - intros dst x so Ha Hh Hne Hd. by apply (smove_spec w Hr Hm name key dst x so).
  - intros x so. by apply sismember_spec.
  - intros so. by apply scard_spec.
  - intros x so. apply (smove_same w Hr name key).
  - intros args. apply (missing_set w Hr name key).
  - intros args o. apply (wrong_set w Hr name key).
  - intros dst x so o. apply (wrong_destination w Hr name key).
Qed.

Lemma set_commands_witness :
  exists so, good (plain_client ["srem"; "t"; "y"; "q"]) so /\
    sremCommand (plain_client ["srem"; "t"; "y"; "q"]) =
    Done tt (after (plain_client ["srem"; "t"; "y"; "q"]) (base.delete "t" (db (srv (plain_client ["srem"; "t"; "y"; "q"])))) [R_longlong 1] 1).
Proof.
  destruct (set_commands (plain_client ["srem"; "t"; "y"; "q"]) "srem" "t") as (_ & Hrem & _).
  - apply plain_client_ok.
  - apply plain_client_ok.
  - destruct (Hrem ["y"; "q"] (SHT {["y"]}) eq_refl) as (so & Hok & _ & Hrun).
    + apply plain_client_ok.
    + exists so. split; [exact Hok|]. rewrite decide_True in Hrun; [exact Hrun|]. by vm_compute.
Defined.

(** C26: [spop] takes out exactly the different members it replies with, as many
    as asked for or all, and [srandmember] replies with that many different members,
    or for a negative count with that many members, whatever the draws are; few
    different elements of a big set are found once the draws have shown enough of
    them.  On an emptied set, which only the replicated types leave behind, drawing
    one element crashes. *)
Theorem random_elements `{DictOrder, Qsort, RandomChoice} w (name key : sds) so :
  is_replica (cli w) = false -> world_max_ok w -> SetClient.holds w key so -> int_sized (visible w key) ->
  (forall a (count : nat), argv (cli w) = [name; key; a] -> string2ll a = Some (Z.of_nat count) -> (0 < count)%nat ->
   exists l, sample (visible w key) (count `min` size (visible w key)) l /\
     if decide (size (visible w key) <= count)%nat then
       spopCommand w = Return (after (with_args w ["DEL"; key]) (base.delete key (db (srv w))) (members_reply l) (Z.of_nat count + 1))
     else exists so', good w so' /\ set_members so' = visible w key ∖ list_to_set l /\
       spopCommand w = Return (after w (<[key := OSet so']> (db (srv w))) (members_reply l) (Z.of_nat count + 1))) /\
  (argv (cli w) = [name; key] -> if decide (visible w key = ∅) then spopCommand w = Crash
   else exists x so', x ∈ visible w key /\ good w so' /\ set_members so' = visible w key ∖ {[x]} /\
     spopCommand w = Done tt (after (with_args w ["SREM"; key; x]) (put_or_drop key so' (db (srv w))) [R_bulk x] 1)) /\
  (forall fuel a l, argv (cli w) = [name; key; a] -> string2ll a = Some l -> l <> 0 -> visible w key <> ∅ ->
   (0 < l -> 3 * l <= Z.of_nat (size (visible w key)) -> enough_draws fuel so (Z.to_nat l)) ->
   exists res, random_members (visible w key) l res /\
     srandmemberCommand fuel w = Return (after w (db (srv w)) (members_reply res) 0)) /\
  (forall fuel, argv (cli w) = [name; key] -> if decide (visible w key = ∅) then srandmemberCommand fuel w = Crash
   else exists x, x ∈ visible w key /\ srandmemberCommand fuel w = Done tt (after w (db (srv w)) [R_bulk x] 0)).
Proof.
  intros Hr Hm Hh Hi. split_and!.
  - intros a count Ha Hl Hc. by apply (spop_count_spec w Hr Hm name key a so).
  - intros Ha. by apply (spop_spec w Hr name key so).
  - intros fuel a l Ha Hl Hl0 Hne Hdr. by apply (srandmember_count_spec w Hr Hm fuel name key a so).
  - intros fuel Ha. by apply (srandmember_spec w Hr fuel name key so).
Qed.

Lemma random_elements_witness :
  exists res, sample (visible (plain_client ["srandmember"; "s"; "1"]) "s") 1 res /\
    srandmemberCommand 1 (plain_client ["srandmember"; "s"; "1"]) =
    Return (after (plain_client ["srandmember"; "s"; "1"]) (db (srv (plain_client ["srandmember"; "s"; "1"]))) (members_reply res) 0).
Proof.
  destruct (random_elements (plain_client ["srandmember"; "s"; "1"]) "srandmember" "s" (SHT s_members)) as (_ & _ & Hrand & _).
  - apply plain_client_ok.
  - apply plain_client_ok.
  - apply plain_client_ok.
  - vm_compute. congruence.
  - refine (Hrand 1%nat "1" 1 eq_refl eq_refl _ _ _); [lia|vm_compute; congruence|].
    intros _ _. unfold enough_draws. vm_compute. lia.
Defined.

(** ** Hash tables *)

(** Five entries: the table of four buckets is being rehashed into eight. *)
Definition five : option (Dict.dict Z unit) := add_all [1; 2; 3; 4; 5] (Some Dict.dictCreate).

(** C27: a hash table refines the finite map of its entries: adding, replacing,
    fetching and deleting do what they say and report whether the key was there,
    the incremental rehashing they do on the way and resizing do not show, and the
    size is that of the map; the invariant is kept and no access is out of bounds. *)
Theorem dict_refines_map {K V} `{Countable K} `{Inhabited V} (hashKey : K -> Z) resize (d : Dict.dict K V) k v n :
  dict_ok hashKey d -> dict_room d ->
  (exists d', Dict.dictAdd hashKey resize d k v = Some (d', bool_decide (dict_map d !! k = None)) /\ dict_ok hashKey d' /\
     dict_map d' = match dict_map d !! k with Some _ => dict_map d | None => <[k := v]> (dict_map d) end) /\
  (exists d', Dict.dictReplace hashKey resize d k v = Some (d', bool_decide (dict_map d !! k = None)) /\ dict_ok hashKey d' /\
     dict_map d' = <[k := v]> (dict_map d)) /\
  (exists d', Dict.dictFetchValue hashKey d k = Some (d', dict_map d !! k) /\ dict_ok hashKey d' /\ dict_map d' = dict_map d) /\
  (exists d', Dict.dictDelete hashKey d k = Some (d', bool_decide (is_Some (dict_map d !! k))) /\ dict_ok hashKey d' /\
     dict_map d' = base.delete k (dict_map d)) /\
  (exists d' more, Dict.dictRehash hashKey d n = Some (d', more) /\ dict_ok hashKey d' /\ dict_map d' = dict_map d) /\
  (dict_ok hashKey (Dict.dictResize resize d).1 /\ dict_map (Dict.dictResize resize d).1 = dict_map d) /\
  (dict_ok hashKey (Dict.dictEmpty d).1 /\ dict_map (Dict.dictEmpty d).1 = ∅) /\
  Dict.dictSize d = Z.of_nat (size (dict_map d)).
Proof.
  intros Hok Hroom. split_and!.
  - by apply DictMap.dictAdd_spec.
  - by apply DictMap.dictReplace_spec.
  - destruct (DictMap.dictFetchValue_spec hashKey d k Hok) as (d' & Hd & Hr). exists d'.
    split_and!; [done|apply Hr|by eapply rehashed_map].
  - by apply DictMap.dictDelete_spec.
  - destruct (DictMap.dictRehash_spec hashKey d n Hok) as (d' & more & Hd & Hr & _). exists d', more.
    split_and!; [done|apply Hr|by eapply rehashed_map].
  - apply (DictMap.dictResize_spec hashKey resize d Hok).
  - eapply rehashed_map; [exact Hok|]. apply resized_rehashed, DictMap.dictResize_spec, Hok.
  - by apply DictMap.dictEmpty_spec.
  - by apply (DictMap.dictEmpty_spec hashKey d).
  - by apply (DictMap.dictSize_map hashKey).
Qed.

Lemma dict_refines_map_witness :
  exists d, five = Some d /\ Dict.dictIsRehashing d = true /\
    exists d', Dict.dictDelete id_hash d 2 = Some (d', true) /\ dict_ok id_hash d'.
Proof.
  destruct five as [d|] eqn:Hf; [|by vm_compute in Hf]. exists d. split; [done|].
  assert (dict_ok id_hash d) as Hok by (eapply (add_all_ok [1; 2; 3; 4; 5]); [apply DictMap.dictCreate_spec|done|exact Hf]).
  vm_compute in Hf. injection Hf as <-. split; [done|].
  destruct (dict_refines_map id_hash true _ 2 tt 1 Hok) as (_ & _ & _ & (d' & Hd & Hok' & _) & _).
  - vm_compute. reflexivity.
  - exists d'. split; [exact Hd|exact Hok'].
Defined.

(** C28: the loops over a hash table.  Rehashing ends: as many rounds as there
    are buckets left to move, of at least one bucket each, complete it, whatever
    the table holds, and the map is unchanged.  An iterator, safe or not, returns
    every entry of the table exactly once, in a number of calls one larger than
    the number of entries, also while a rehashing is under way, and releasing it
    leaves the table as it was.  A random key is an entry of the table, whatever is
    drawn, and the search for it ends once every number below that of the slots was
    drawn. *)
Theorem dict_loops_end {K V} `{Countable K} (hashKey : K -> Z) (d : Dict.dict K V) n rounds safe :
  dict_ok hashKey d -> (1 <= n)%nat -> ht_size (ht0 d) + 1 - rehashidx d <= Z.of_nat rounds ->
  (exists d', rehash_all hashKey rounds n d = Some d' /\ Dict.dictIsRehashing d' = false /\ dict_ok hashKey d' /\
    dict_map d' = dict_map d) /\
  (NoDup (entries d) /\ list_to_map (entries d) = dict_map d /\
   exists d' it', drain_iter (S (length (entries d))) d (mkIter false (-1) safe [] []) = Some (d', it', entries d) /\
     iterators d' = iterators d + (if safe then 1 else 0) /\ dictReleaseIterator d' it' = d) /\
  (forall random fuel, (forall i, 0 <= random i) -> Dict.dictSize d <= INT_MAX ->
   (forall d', Dict.rehash_step hashKey d = Some d' -> few_slots d') ->
   exists d' res, DictRandom.dictGetRandomKey hashKey random fuel d = Some (d', res) /\ rehashed hashKey d d' /\
     match res with
     | RNull => dict_map d = ∅
     | REntry e => dict_map d !! e.1 = Some e.2
     | RSearching => ~ all_drawn random fuel d'
     end).
Proof.
  intros Hok Hn Hr. split_and!; [..|intros random fuel Hrnd Hsz Hfew; by apply dictGetRandomKey_spec].
  - destruct (rehash_all_done hashKey n d Hok Hn rounds Hr) as (d' & Hd & Hre & Hno).
    exists d'. split_and!; [done|done|apply Hre|by eapply rehashed_map].
  - eapply NoDup_fmap_1, ok_keys, Hok.
  - done.
  - by apply (iterate_all hashKey).
Qed.

Lemma dict_loops_end_witness :
  exists d d' d2 it', five = Some d /\ rehash_all id_hash 5 1 d = Some d' /\ Dict.dictIsRehashing d' = false /\
    drain_iter 6 d (mkIter false (-1) true [] []) = Some (d2, it', entries d) /\ length (entries d) = 5%nat.
Proof.
  destruct five as [d|] eqn:Hf; [|by vm_compute in Hf]. exists d.
  assert (dict_ok id_hash d) as Hok by (eapply (add_all_ok [1; 2; 3; 4; 5]); [apply DictMap.dictCreate_spec|done|exact Hf]).
  vm_compute in Hf. injection Hf as <-.
  destruct (dict_loops_end id_hash _ 1 5 true Hok) as ((d' & Hd & Hno & _) & (_ & _ & d2 & it' & Hi & _) & _).
  - lia.
  - vm_compute. discriminate.
  - exists d', d2, it'. split_and!; [reflexivity|exact Hd|exact Hno|exact Hi|reflexivity].
Defined.

(** C29: a scan.  A complete scan, from cursor zero to cursor zero, returns every
    entry that was in the table at each of its calls, whatever else was added or
    removed, as long as no call meets a rehashing with its cursor inside a block of
    the smaller table; and a scan of a table that does not change is complete
    after as many calls as its smaller table has buckets. *)
Theorem dict_scan_guarantee {K V} `{Countable K} (hashKey : K -> Z) (ds : list (Dict.dict K V)) e em (d : Dict.dict K V) :
  (forall x, word (hashKey x)) ->
  Forall (fun d => dict_ok hashKey d /\ e ∈ entries d) ds -> ds <> [] -> aligned_run ds 0 ->
  scan_run ds 0 = Some (em, 0) -> dict_ok hashKey d -> Dict.dictSize d <> 0 ->
  e ∈ em /\
  exists em', scan_run (replicate (Z.to_nat (ht_size (min_ht d))) d) 0 = Some (em', 0) /\
    forall e' : K * V, e' ∈ entries d -> e' ∈ em'.
Proof.
  intros Hh Hds Hne Hal Hrun Hok Hs. split; [by eapply scan_guarantee|by eapply scan_complete].
Qed.

Lemma dict_scan_guarantee_witness :
  exists d em, five = Some d /\ scan_run (replicate 4 d) 0 = Some (em, 0) /\ (3, tt) ∈ em.
Proof.
  destruct five as [d|] eqn:Hf; [|by vm_compute in Hf].
  assert (dict_ok id_hash d) as Hok by (eapply (add_all_ok [1; 2; 3; 4; 5]); [apply DictMap.dictCreate_spec|done|exact Hf]).
  vm_compute in Hf. injection Hf as <-. eexists _, _. split; [reflexivity|]. split; [vm_compute; reflexivity|].
  eapply (dict_scan_guarantee id_hash (replicate 4 _) (3, tt) _ _).
  - intros x. apply to_ullong_word.
  - apply Forall_replicate. split; [exact Hok|]. apply (bool_decide_unpack _). by vm_compute.
  - done.
  - cbn [aligned_run replicate].
    repeat (split; [apply (bool_decide_unpack _); by vm_compute|]; intros ?em ?v' ?Hsc; vm_compute in Hsc; injection Hsc as <- <-).
    done.
  - vm_compute. reflexivity.
  - exact Hok.
  - done.
Defined.

(** ** Sorted set objects *)

Open Scope list_scope.

Definition name_hash (s : sds) : Z := Z.of_nat (String.length s).

(** C30: a skip list represents a list of nodes sorted by score and name, linked at
    every level with the right spans: a new one the empty list, inserting puts the
    node where it belongs, deleting removes the node of the score and name, and
    deleting what is not there changes nothing. *)
Theorem skiplist_refines_sorted zsl l score ele level :
  zlist zsl l -> Z.of_nat (length l) < 4294967295 -> isnan score = false ->
  (exists new, zslCreate = Some new /\ zlist new []) /\
  ((1 <= level <= ZSKIPLIST_MAXLEVEL)%nat -> (ele ∉ sel <$> l) ->
   exists zsl' q A B, l = A ++ B /\ zslInsert zsl level score ele = Some (zsl', q) /\ zlist zsl' (A ++ mkSn q ele score level :: B)) /\
  (forall A x B keep, l = A ++ x :: B -> sel x = ele -> deqb score (ssc x) = true ->
   exists zsl', zslDelete zsl score ele keep = Some (zsl', Some (sid x)) /\ zlist zsl' (A ++ B)) /\
  (forall keep, (ele ∉ sel <$> l) -> zslDelete zsl score ele keep = Some (zsl, None)).
Proof.
  intros Hl Hlen Hn. split_and!.
  - apply zslCreate_zlist.
  - intros Hlevel Hnew. destruct (zslInsert_zlist zsl l level score ele Hl Hlen Hlevel Hn Hnew) as (zsl' & q & A & B & H1 & H2 & H3 & _).
    by exists zsl', q, A, B.
  - intros A x B keep -> <- Hd. destruct (zslDelete_found zsl A x B score keep Hl ltac:(lia) Hn Hd) as (zsl' & H1 & H2 & _). by exists zsl'.
  - intros keep Hnew. by apply (zslDelete_absent zsl l).
Qed.

Lemma skiplist_refines_sorted_witness :
  exists zsl zsl' q, zslCreate = Some zsl /\ zslInsert zsl 3 dzero "a" = Some (zsl', q) /\ zlist zsl' [mkSn q "a" dzero 3].
Proof.
  destruct zslCreate_zlist as (zsl & Hc & Hl). exists zsl.
  destruct (skiplist_refines_sorted zsl [] dzero "a" 3 Hl) as (_ & Hi & _); [cbn; lia|reflexivity|].
  destruct Hi as (zsl' & q & A & B & HAB & Hins & Hl'); [unfold ZSKIPLIST_MAXLEVEL; lia|apply not_elem_of_nil|].
  exists zsl', q. symmetry in HAB. apply app_nil in HAB as [-> ->]. split_and!; [exact Hc|exact Hins|exact Hl'].
Defined.

(** C31: searching a skip list: the rank of a node and the node of a rank are
    its position in the list, a rank past the end has no node, and the first and
    the last node of a range of scores are those of the sublist in range; so are
    those of a range of names when all scores are equal and no bounded end has one
    of the names that stand for the unbounded ones. *)
Theorem skiplist_searches zsl l (range : zrangespec) (names : zlexrangespec) :
  zlist zsl l -> Z.of_nat (length l) < 4294967296 -> isnan (rmin range) = false -> isnan (rmax range) = false ->
  (forall i x, l !! i = Some x -> zslGetRank zsl (ssc x) (sel x) = Some (Z.of_nat i + 1)) /\
  (forall i, zslGetElementByRank zsl (Z.of_nat i + 1) = Some (sid <$> l !! i)) /\
  zslFirstInRange zsl range = Some (sid <$> head (filter (fun y => in_range range y = true) l)) /\
  zslLastInRange zsl range = Some (sid <$> last (filter (fun y => in_range range y = true) l)) /\
  (same_score l -> lex_plain names ->
   zslFirstInLexRange zsl names = Some (sid <$> head (filter (fun y => in_lex names y = true) l)) /\
   zslLastInLexRange zsl names = Some (sid <$> last (filter (fun y => in_lex names y = true) l))).
Proof.
  intros Hl Hlen Hmin Hmax. split_and!.
  - intros i x Hx. pose proof Hl as Hl'. rewrite <- (take_drop_middle l i x Hx) in Hl, Hlen.
    pose proof (zs_numbers _ (zl_sorted _ _ Hl)) as Hn. rewrite Forall_app, Forall_cons in Hn. destruct Hn as (_ & Hn & _).
    rewrite (zslGetRank_found zsl (take i l) x (drop (S i) l) (ssc x) Hl Hlen Hn (deqb_refl _ Hn)). f_equal.
    apply lookup_lt_Some in Hx. rewrite length_take. lia.
  - intros i. rewrite (zslGetElementByRank_spec zsl l _ (zl_rep _ _ Hl) Hlen) by lia. by replace (Z.to_nat (Z.of_nat i + 1 - 1)) with i by lia.
  - by apply zslFirstInRange_spec.
  - by apply zslLastInRange_spec.
  - intros Hsame Hp. split; [by apply zslFirstInLexRange_spec|by apply zslLastInLexRange_spec].
Qed.

Lemma skiplist_searches_witness :
  exists zsl zsl' q, zslCreate = Some zsl /\ zslInsert zsl 3 dzero "a" = Some (zsl', q) /\
    zslGetRank zsl' dzero "a" = Some 1 /\ zslFirstInRange zsl' (mkRange dzero dzero false false) = Some (Some q).
Proof.
  destruct zslCreate_zlist as (zsl & Hc & Hl). exists zsl.
  destruct (zslInsert_zlist zsl [] 3 dzero "a" Hl) as (zsl' & q & A & B & HAB & Hins & Hl' & _);
    [cbn; lia|unfold ZSKIPLIST_MAXLEVEL; lia|reflexivity|apply not_elem_of_nil|].
  exists zsl', q. symmetry in HAB. apply app_nil in HAB as [-> ->]. split; [exact Hc|]. split; [exact Hins|].
  destruct (skiplist_searches zsl' _ (mkRange dzero dzero false false) (mkLex minstring maxstring false false) Hl') as (Hrank & _ & Hfirst & _);
    [cbn; lia|reflexivity|reflexivity|].
  split; [apply (Hrank 0%nat _ eq_refl)|exact Hfirst].
Defined.

(** C32: a sorted set object of the large encoding refines the map of its scores:
    adding with any flags, deleting and reading a score do and report what the
    map says, the rank is the position from either end, and deleting a range of
    scores or of ranks removes exactly its nodes; each keeps the list and the hash
    table in step. *)
Theorem zset_refines_scores (hashKey : sds -> Z) resize zs l score ele flags level (range : zrangespec) (start : nat) (stop : Z) :
  zset_ok hashKey zs l -> Z.of_nat (length l) < INT_MAX -> (1 <= level <= ZSKIPLIST_MAXLEVEL)%nat ->
  isnan (rmin range) = false -> isnan (rmax range) = false -> Z.of_nat start <= stop ->
  (exists zs' l' r f ns, ZsetObj.zsetAdd hashKey resize zs score ele flags level = Some (zs', r, f, ns) /\ zset_ok hashKey zs' l' /\
     zadd_scores (zs_scores l) score ele flags = (zs_scores l', r, f, ns)) /\
  (exists zs' l', ZsetObj.zsetDel hashKey resize zs ele = Some (zs', bool_decide (is_Some (zs_scores l !! ele))) /\
     zset_ok hashKey zs' l' /\ zs_scores l' = base.delete ele (zs_scores l)) /\
  (exists zs', zsetScore hashKey zs ele = Some (zs', zs_scores l !! ele) /\ zset_ok hashKey zs' l) /\
  (forall A x B reverse, l = A ++ x :: B -> sel x = ele ->
   exists zs', zsetRank hashKey zs ele reverse = Some (zs', Z.of_nat (length (if reverse then B else A))) /\ zset_ok hashKey zs' l) /\
  (exists zsl' d', zslDeleteRangeByScore hashKey (zs_zsl zs) range (zs_dict zs) =
       Some (zsl', d', Z.of_nat (length (filter (fun y => in_range range y = true) l))) /\
     zset_ok hashKey (mkZset d' zsl') (filter (fun y => negb (in_range range y) = true) l)) /\
  (exists zsl' d', zslDeleteRangeByRank hashKey (zs_zsl zs) (Z.of_nat start + 1) stop (zs_dict zs) =
       Some (zsl', d', Z.of_nat (length (take (Z.to_nat stop - start) (drop start l)))) /\
     zset_ok hashKey (mkZset d' zsl') (take start l ++ drop (Z.to_nat stop) l)).
Proof.
  intros Hok Hlen Hlevel Hmin Hmax Hstop. split_and!.
  - apply zsetAdd_spec; [done|clia|done].
  - by apply zsetDel_spec.
  - by apply zsetScore_spec.
  - intros A x B reverse -> <-. apply zsetRank_spec; [done|lia].
  - by apply zset_delete_scores.
  - by apply zset_delete_ranks.
Qed.

Lemma zset_refines_scores_witness :
  exists zs0 zs zs', createZsetObject = Some zs0 /\ zrun name_hash true zs0 [ZopAdd dzero "b" ZADD_NONE 1; ZopAdd dzero "a" ZADD_NONE 2] = Some zs /\
    ZsetObj.zsetDel name_hash true zs "b" = Some (zs', true).
Proof.
  destruct (createZsetObject_spec name_hash) as (zs0 & Hc & Hok0). exists zs0.
  destruct (zrun_spec name_hash true [ZopAdd dzero "b" ZADD_NONE 1; ZopAdd dzero "a" ZADD_NONE 2] zs0 [] Hok0) as (zs & l & Hr & Hok & Hs).
  { by vm_compute. }
  { repeat (apply Forall_cons_2; [unfold zop_ok, ZSKIPLIST_MAXLEVEL; lia|]). apply Forall_nil_2. }
  assert (length l = 2%nat) as Hlen by (rewrite <- scores_size, Hs by (eapply zlist_elements, zo_list, Hok); by vm_compute).
  exists zs.
  destruct (zset_refines_scores name_hash true zs l dzero "b" ZADD_NONE 1 (mkRange dzero dzero false false) 0 0 Hok)
    as (_ & (zs' & l' & Hd & _) & _); [rewrite Hlen; clia|unfold ZSKIPLIST_MAXLEVEL; lia|reflexivity|reflexivity|lia|].
  exists zs'. split; [exact Hc|]. split; [exact Hr|]. rewrite Hd. rewrite Hs. by vm_compute.
Defined.

(** C33: every sequence of additions, deletions and reads of a new sorted set object
    runs through, without a failed assertion or a bad pointer, and leaves a well
    formed object whose scores are what the operations say; the last node of its
    list is the greatest member, and its length is their number. *)
Theorem zset_history (hashKey : sds -> Z) resize os :
  Forall zop_ok os -> Z.of_nat (length os) < INT_MAX ->
  exists zs0 zs l, createZsetObject = Some zs0 /\ zrun hashKey resize zs0 os = Some zs /\ zset_ok hashKey zs l /\
    zs_scores l = foldl zop_scores ∅ os /\
    sl_tail (zs_zsl zs) = sid <$> last l /\ zset_last (zs_scores l) = (fun x => (sel x, ssc x)) <$> last l /\
    sl_length (zs_zsl zs) = Z.of_nat (size (zs_scores l)).
Proof.
  intros Hos Hlen. destruct (createZsetObject_spec hashKey) as (zs0 & Hc & Hok0).
  destruct (zrun_spec hashKey resize os zs0 [] Hok0 Hlen Hos) as (zs & l & Hr & Hok & Hs). exists zs0, zs, l.
  pose proof (zo_list _ _ _ Hok) as [Hz Hsort _]. split_and!; [exact Hc|exact Hr|exact Hok|exact Hs|..].
  - apply (zr_tail _ _ Hz).
  - by apply zset_last_spec.
  - rewrite (zr_length _ _ Hz), scores_size by (apply (zs_elements _ Hsort)). done.
Qed.

Lemma zset_history_witness :
  exists zs0 zs, createZsetObject = Some zs0 /\
    zrun name_hash true zs0 [ZopAdd dzero "b" ZADD_NONE 1; ZopDel "b"; ZopAdd dzero "a" ZADD_NX 32; ZopRank "a" true] = Some zs /\
    sl_length (zs_zsl zs) = 1.
Proof.
  destruct (zset_history name_hash true [ZopAdd dzero "b" ZADD_NONE 1; ZopDel "b"; ZopAdd dzero "a" ZADD_NX 32; ZopRank "a" true])
    as (zs0 & zs & l & Hc & Hr & _ & Hs & _ & _ & Hlen).
  - repeat (apply Forall_cons_2; [unfold zop_ok, ZSKIPLIST_MAXLEVEL; done || lia|]). apply Forall_nil_2.
  - by vm_compute.
  - exists zs0, zs. split_and!; [exact Hc|exact Hr|]. rewrite Hlen, Hs. by vm_compute.
Defined.

(** ** Ziplists *)

(** C34: a ziplist, byte by byte, refines a list of strings: a new one is empty,
    inserting at an entry or at the end, pushing at either end, deleting entries
    and merging, with a second list that is not empty, do to the list what they
    say; the lengths of the previous entries,
    the offset of the last one and the count stay right, through the cascade of
    widened fields, and no access is out of bounds. *)
Theorem ziplist_refines_list zl es s i num (zl2 : buffer) es2 :
  zlrep zl es -> zlrep zl2 es2 -> short_str s -> Z.of_nat (length zl + length zl2 + String.length s + 22 + 4 * (length es + length es2)) < 4294967296 ->
  (exists new, ziplistNew = Some new /\ zlrep new []) /\
  ((i <= length es)%nat ->
   exists zl' es', ziplistInsert zl (off es i) s = Some zl' /\ zlrep zl' es' /\ strs es' = take i (strs es) ++ s :: drop i (strs es)) /\
  (forall head, exists zl' es', ziplistPush zl s head = Some zl' /\ zlrep zl' es' /\ strs es' = if (head : bool) then s :: strs es else strs es ++ [s]) /\
  ((i < length es)%nat ->
   exists zl' es', ziplistDelete zl (off es i) = Some (zl', off es' i) /\ zlrep zl' es' /\ strs es' = take i (strs es) ++ drop (S i) (strs es)) /\
  (forall index, (0 < num)%nat ->
   exists zl' es', ziplistDeleteRange zl index num = Some zl' /\ zlrep zl' es' /\
     strs es' = match index_of es index with Some i => take i (strs es) ++ drop (i + num) (strs es) | None => strs es end) /\
  (es2 <> [] ->
   exists zl' es', ziplistMerge false zl zl2 = Some (Some zl') /\ zlrep zl' es' /\ strs es' = strs es ++ strs es2).
Proof.
  intros Hz Hz2 Hs Hmax. split_and!.
  - apply ziplistNew_spec.
  - intros Hi. apply ziplistInsert_spec; [done..|lia].
  - intros head. apply ziplistPush_spec; [done..|lia].
  - intros Hi. destruct (ziplistDelete_at zl es i 1 Hz Hi ltac:(lia) ltac:(lia)) as (zl' & es' & Hd & Hz' & Hstr & Hoff). exists zl', es'.
    unfold ziplistDelete. rewrite Hd, Hoff. split_and!; [done..|]. by rewrite Hstr, Nat.add_1_r.
  - intros index Hnum. apply ziplistDeleteRange_spec; [done..|lia].
  - intros Hne. apply ziplistMerge_spec; [done..|lia].
Qed.

Lemma ziplist_refines_list_witness :
  exists zl zl' es', ziplistNew = Some zl /\ ziplistPush zl "12" true = Some zl' /\ zlrep zl' es' /\ strs es' = ["12"].
Proof.
  destruct ziplistNew_spec as (zl & Hnew & Hz). exists zl.
  destruct (ziplist_refines_list zl [] "12" 0 1 zl [] Hz Hz) as (_ & _ & Hpush & _).
  - by vm_compute.
  - injection Hnew as <-. by vm_compute.
  - destruct (Hpush true) as (zl' & es' & Hp & Hz' & Hs). exists zl', es'. split_and!; [exact Hnew|exact Hp|exact Hz'|exact Hs].
Defined.

(** C35: reading a ziplist: an index from either end leads to its entry or to
    nothing, the steps to the next and the previous entry are inverse, the value
    read tells the string that was written, comparing and searching, with entries
    skipped, agree with the strings, and the length is that of the list, also when
    the header does not hold it. *)
Theorem ziplist_reads zl es i e s skip :
  zlrep zl es -> es !! i = Some e ->
  (forall index, ziplistIndex zl index = Some (off es <$> index_of es index)) /\
  ziplistNext zl (off es i) = Some (if decide (S i < length es)%nat then Some (off es (S i)) else None) /\
  ziplistPrev zl (off es i) = Some (match i with O => None | S j => Some (off es j) end) /\
  ziplistGet zl (off es i) = Some (Some (evalue (ze_str e))) /\ (evalue (ze_str e) = evalue s -> ze_str e = s) /\
  ziplistCompare zl (off es i) s = Some (bool_decide (ze_str e = s)) /\
  match find_every skip 0 (strs (drop i es)) s with
  | Some j => ziplistFind zl (off es i) s skip = Some (Some (off es (i + j))) /\ strs (drop i es) !! j = Some s /\ (exists m, j = m * S skip)%nat /\
      forall m, (m * S skip < j)%nat -> strs (drop i es) !! (m * S skip)%nat <> Some s
  | None => ziplistFind zl (off es i) s skip = Some None /\ forall m, strs (drop i es) !! (m * S skip)%nat <> Some s
  end /\
  exists zl', ziplistLen zl = Some (zl', length es) /\ zlrep zl' es.
Proof.
  intros Hz He. apply lookup_lt_Some in He as Hi. split_and!.
  - apply ziplistIndex_spec, Hz.
  - apply ziplistNext_spec; [done|lia].
  - apply ziplistPrev_spec; [done|lia].
  - by apply ziplistGet_spec.
  - apply evalue_inj.
  - by apply ziplistCompare_spec.
  - pose proof (find_every_spec skip (strs (drop i es)) s 0) as Hf. rewrite (ziplistFind_spec zl es Hz i s skip) by lia.
    destruct (find_every skip 0 (strs (drop i es)) s) as [j|]; (split; [reflexivity|exact Hf]).
  - by apply ziplistLen_spec.
Qed.

Lemma ziplist_reads_witness :
  exists zl es, (none ← ziplistNew; ziplistPush none "-300" true) = Some zl /\ zlrep zl es /\
    ziplistGet zl (off es 0) = Some (Some (inr (-300))) /\ ziplistIndex zl (-1) = Some (Some (off es 0)).
Proof.
  destruct ziplistNew_spec as (none & Hnew & Hz). destruct (ziplistPush_spec none [] "-300" true Hz) as (zl & es & Hp & Hz' & Hs).
  - by vm_compute.
  - injection Hnew as <-. by vm_compute.
  - exists zl, es. rewrite Hnew. split; [exact Hp|]. split; [exact Hz'|].
    destruct es as [|e [|e' es]]; cbn in Hs; try discriminate. injection Hs as Hs.
    destruct (ziplist_reads zl [e] 0 e "-300" 0 Hz' eq_refl) as (Hidx & _ & _ & Hget & _). rewrite Hs in Hget. split; [exact Hget|exact (Hidx (-1))].
Defined.

(** ** Hash objects *)

(** C36: a hash object refines the finite map of its fields, as a ziplist, as a
    hash table and across the conversion: reading, testing, setting and deleting a
    field, the length and the loop over all pairs, which ends.  When it holds the
    metadata of a replicated type, the address stored for a field is read back,
    whatever the encoding (the bytes of an address below 2^47 are never taken for a
    number), a missing field gets the new element's address when one is to be
    created, and the others keep theirs. *)
Theorem hash_refines_map (hashKey : sds -> Z) resize max_entries max_value o (m : gmap sds sds) f v args :
  hash_ok hashKey o m -> hash_room o m f v ->
  (exists new, HashType.createHashObject = Some new /\ hash_ok hashKey new ∅) /\
  (exists o', HashType.hashTypeGetValueObject hashKey o f = Some (o', m !! f) /\ hash_ok hashKey o' m) /\
  (exists o', hashTypeExists hashKey o f = Some (o', bool_decide (is_Some (m !! f))) /\ hash_ok hashKey o' m) /\
  (exists o', hashTypeGetValueLength hashKey o f = Some (o', match m !! f with Some v => Z.of_nat (String.length v) | None => 0 end) /\ hash_ok hashKey o' m) /\
  (exists o', hashTypeLength o = Some (o', Z.of_nat (size m)) /\ hash_ok hashKey o' m) /\
  (exists o', HashType.hashTypeSet hashKey resize max_entries o f v = Some (o', bool_decide (is_Some (m !! f))) /\ hash_ok hashKey o' (<[f := v]> m)) /\
  (exists o', hashTypeDelete hashKey resize o f = Some (o', bool_decide (is_Some (m !! f))) /\ hash_ok hashKey o' (base.delete f m)) /\
  (exists o', hashTypeTryConversion hashKey resize max_value o args = Some o' /\ hash_ok hashKey o' m) /\
  (exists kvs, hash_pairs (S (size m)) o (hashTypeInitIterator o) = Some (o, kvs) /\ kvs ≡ₚ map_to_list m) /\
  (forall h key (create : bool) e, meta_ok hashKey o h -> address e -> hash_room o (ptr_sds <$> h) key (ptr_sds e) ->
   exists o', rehHTGet_obj hashKey resize max_entries o key create e =
       Some (o', match h !! key with Some a => Some a | None => if create then Some e else None end) /\
     meta_ok hashKey o' (match h !! key with Some _ => h | None => if create then <[key := e]> h else h end)).
Proof.
  intros Hok Hroom. destruct (hashTypeGetValue_spec hashKey o m f Hok) as (o1 & _ & Hok1 & Hget & Hex). split_and!.
  - apply createHashObject_spec.
  - by exists o1.
  - by exists o1.
  - by apply hashTypeGetValueLength_spec.
  - by apply hashTypeLength_spec.
  - by apply hashTypeSet_spec.
  - apply hashTypeDelete_spec; [done|]. revert Hroom. destruct o; cbn [hash_room String.length]; lia.
  - by apply hashTypeTryConversion_spec.
  - by apply (hash_pairs_spec hashKey).
  - intros h key create e. apply rehHTGet_obj_spec.
Qed.

Lemma hash_refines_map_witness :
  exists o o', HashType.createHashObject = Some o /\ HashType.hashTypeSet (fun _ => 0) true 512 o "f" "12" = Some (o', false) /\ hash_ok (fun _ => 0) o' {["f" := "12"]}.
Proof.
  destruct (createHashObject_spec (fun _ => 0)) as (o & Hc & Hok). exists o.
  destruct (hash_refines_map (fun _ => 0) true 512 64 o ∅ "f" "12" [] Hok) as (_ & _ & _ & _ & _ & (o' & Hs & Hok') & _).
  - injection Hc as <-. by vm_compute.
  - exists o'. split; [exact Hc|]. split; [exact Hs|exact Hok'].
Defined.

(** C37: the hash commands on a key that holds a hash or nothing: [hset] and
    [hmset] set all pairs and count the new fields, [hsetnx] only sets a missing
    field, [hdel] deletes fields and the key with the last of them, [hmget] and
    [hgetall] reply with the values, and nothing else of the key space changes; on
    a missing key [hdel] replies 0, [hmget] a null for every field and [hgetall] an
    empty list.  [hincrby] adds exactly: the sum is stored and replied when it is a
    64-bit integer, and otherwise refused without a change; so is a value that is
    not an integer.  A missing field counts as zero.  A key of another type, a
    field without a value and an increment that is not an integer are refused. *)
Theorem hash_commands (hashKey : sds -> Z) resize max_entries max_value w (name key : sds) (m : gmap sds sds) :
  is_replica (cli w) = false ->
  (forall kvs c, argv (cli w) = name :: key :: HashRep.flat kvs -> chars name !! 1%nat = Some c -> hash_at hashKey w key m (HashRep.flat kvs) ->
   exists o, hash_ok hashKey o (put_all m kvs) /\
     hsetCommand hashKey resize max_entries max_value w =
     Done tt (HashClient.st w key o [if bool_decide (c = "s"%char) || bool_decide (c = "S"%char)
                                     then R_longlong (Z.of_nat (size (put_all m kvs)) - Z.of_nat (size m)) else R_ok] 1)) /\
  (forall f v, argv (cli w) = [name; key; f; v] -> hash_at hashKey w key m [f; v] ->
   exists o, hash_ok hashKey o (if decide (is_Some (m !! f)) then m else <[f := v]> m) /\
     hsetnxCommand hashKey resize max_entries max_value w =
     Done tt (if decide (is_Some (m !! f)) then HashClient.st w key o [R_czero] 0 else HashClient.st w key o [R_cone] 1)) /\
  (forall fs o, argv (cli w) = name :: key :: fs -> hash_there hashKey w key o m -> room_for o m [] ->
   let m' := delete_all m fs in
   let n := Z.of_nat (size m) - Z.of_nat (size m') in
   exists o', hash_ok hashKey o' m' /\
     hdelCommand hashKey resize w =
     Done tt (if decide (m' = ∅ /\ m <> ∅) then after w (base.delete key (db (srv w))) [R_longlong n] n else HashClient.st w key o' [R_longlong n] n)) /\
  (forall fs o, argv (cli w) = name :: key :: fs -> hash_there hashKey w key o m ->
   exists o', hash_ok hashKey o' m /\
     hmgetCommand hashKey w = Done tt (HashClient.st w key o' (reverse (R_multibulklen (Z.of_nat (length fs)) :: (bulk_of ∘ (m !!.) <$> fs))) 0)) /\
  (forall o, argv (cli w) = [name; key] -> hash_there hashKey w key o m ->
   exists o' kvs, kvs ≡ₚ map_to_list m /\ hash_ok hashKey o' m /\
     hgetallCommand w = Done tt (HashClient.st w key o' (reverse (R_multibulklen (Z.of_nat (size m) * 2) :: (R_bulk <$> HashRep.flat kvs))) 0)) /\
  (forall f a incr, argv (cli w) = [name; key; f; a] -> string2ll a = Some incr -> hash_at hashKey w key m [f; sdsfromlonglong LLONG_MIN] ->
   exists o, match number_of (m !! f) with
   | None => hash_ok hashKey o m /\ hincrbyCommand hashKey resize max_entries w = Return (HashClient.st w key o [R_error "hash value is not an integer"] 0)
   | Some value =>
       if decide (in_llong (value + incr)) then
         hash_ok hashKey o (<[f := sdsfromlonglong (value + incr)]> m) /\
         hincrbyCommand hashKey resize max_entries w = Done tt (HashClient.st w key o [R_longlong (value + incr)] 1)
       else hash_ok hashKey o m /\ hincrbyCommand hashKey resize max_entries w = Return (HashClient.st w key o [R_error "increment or decrement would overflow"] 0)
   end) /\
  (let only r := Return (after w (db (srv w)) [r] 0) in
   (forall fs, argv (cli w) = name :: key :: fs -> db (srv w) !! key = None ->
    hdelCommand hashKey resize w = only R_czero /\ hgetallCommand w = only R_emptymultibulk /\
    hmgetCommand hashKey w = Done tt (after w (db (srv w)) (replicate (length fs) R_nullbulk ++ [R_multibulklen (Z.of_nat (length fs))])%list 0)) /\
   (forall fs x, argv (cli w) = name :: key :: fs -> db (srv w) !! key = Some x -> is_hash x = false ->
    hsetnxCommand hashKey resize max_entries max_value w = only R_wrongtypeerr /\
    (Z.of_nat (length (argv (cli w))) mod 2 <> 1 -> hsetCommand hashKey resize max_entries max_value w = only R_wrongtypeerr) /\
    hmgetCommand hashKey w = only R_wrongtypeerr /\ hdelCommand hashKey resize w = only R_wrongtypeerr /\ hgetallCommand w = only R_wrongtypeerr /\
    (forall f a incr, fs = [f; a] -> string2ll a = Some incr -> hincrbyCommand hashKey resize max_entries w = only R_wrongtypeerr)) /\
   (Z.of_nat (length (argv (cli w))) mod 2 = 1 ->
    hsetCommand hashKey resize max_entries max_value w = only (R_error "wrong number of arguments for HMSET")) /\
   (forall f a, argv (cli w) = [name; key; f; a] -> string2ll a = None ->
    hincrbyCommand hashKey resize max_entries w = only (R_error "value is not an integer or out of range"))).
Proof.
  intros Hr. refine (conj _ (conj _ (conj _ (conj _ (conj _ (conj (fun f a incr => hincrby_spec _ _ _ w name key f a m incr) _)))))).
  - intros kvs c. apply hset_spec.
  - intros f v. apply hsetnx_spec.
  - intros fs o Ha Hth Hroom. destruct (hdel_spec hashKey resize w name key fs o m Ha Hth Hroom) as (o' & Hd & Hok). by exists o'.
  - intros fs o Ha Hth. destruct (hmget_spec hashKey w name key fs o m Ha Hth) as (o' & Hd & Hok). by exists o'.
  - intros o Ha Hth. destruct (hgetall_spec hashKey w name key true true o m Ha Hth) as (o' & kvs & Hp & Hok & Hg). exists o', kvs. split; [done|]. split; [done|].
    assert (pair_replies true true kvs = R_bulk <$> HashRep.flat kvs) as Hrep.
    { clear. induction kvs as [|kv kvs IH]; [done|].
      change (pair_replies true true (kv :: kvs)) with (R_bulk kv.1 :: R_bulk kv.2 :: pair_replies true true kvs). by rewrite IH. }
    unfold hgetallCommand. by rewrite Hg, Hrep.
  - cbn zeta. split; [|split; [|split]].
    + intros fs Ha Hk. destruct (absent_spec hashKey resize w name key fs true true Ha Hr Hk) as (_ & H1 & _ & _ & _ & H2).
      split; [exact H1|]. split; [exact H2|]. by apply (hmget_absent hashKey w name key fs).
    + intros fs x Ha Hk Hx. destruct (wrong_type_spec hashKey resize max_entries max_value w name key fs x true true Ha Hr Hk Hx) as (H1 & H2 & _ & H3 & H4 & _ & _ & _ & H5).
      do 5 (split; [assumption|]). intros f a incr -> Hs. by apply (proj2 (hincrby_refused hashKey resize max_entries w name key f a Ha Hr) x incr).
    + intros Ho. by apply hset_odd.
    + intros f a Ha Hs. by apply (proj1 (hincrby_refused hashKey resize max_entries w name key f a Ha Hr)).
Qed.

Definition hash_client (args : list sds) : world := request (start_world 2 0) args.

Lemma hash_commands_witness :
  exists o, hash_ok (fun _ => 0) o {["f" := "1"]} /\
    hsetCommand (fun _ => 0) true 512 64 (hash_client ["hset"; "h"; "f"; "1"]) =
    Done tt (HashClient.st (hash_client ["hset"; "h"; "f"; "1"]) "h" o [R_longlong 1] 1).
Proof.
  destruct (hash_commands (fun _ => 0) true 512 64 (hash_client ["hset"; "h"; "f"; "1"]) "hset" "h" ∅ eq_refl) as [Hset _].
  destruct (Hset [("f", "1")] "s"%char eq_refl eq_refl) as (o & Hok & Hc).
  - split; [reflexivity|]. change (db (srv (hash_client ["hset"; "h"; "f"; "1"])) !! "h") with (@None robj). split; [reflexivity|by vm_compute].
  - exists o. split; [exact Hok|exact Hc].
Defined.

(** ** Numbers and clocks as text *)

(** C38: integers as text.  The digit-pair printer [ll2string] writes exactly
    what the simple printer [sdsll2str] does, for every [long long], and refuses
    when the buffer has no room for it and the terminator; [string2ll] accepts
    exactly the canonical decimal representations of the [long long] values, and
    returns the value they denote. *)
Theorem ll2string_equivalent dst dstlen z :
  in_llong z -> dstlen <= Z.of_nat (length dst) ->
  ll2string dst dstlen z = (if (Z.of_nat (length (sdsll2str z)) <? dstlen)%Z then Some (sdsll2str z) else None) /\
  (forall s v, string2ll s = Some v <-> in_llong v /\ sdsfromlonglong v = s).
Proof.
  intros Hz Hd. split; [by apply ll2string_equiv|]. intros s v. split; [apply string2ll_canonical|].
  intros [Hv <-]. by apply string2ll_print.
Qed.

Lemma ll2string_equivalent_witness :
  ll2string (replicate 32 NUL) 32 (-9223372036854775808) =
  (if (Z.of_nat (length (sdsll2str (-9223372036854775808))) <? 32)%Z
   then Some (sdsll2str (-9223372036854775808)) else None) /\ string2ll "-12" = Some (-12).
Proof.
  destruct (ll2string_equivalent (replicate 32 NUL) 32 (-9223372036854775808)) as [H1 H2]; [clia|by vm_compute|].
  split; [exact H1|]. apply H2. split; [clia|reflexivity].
Defined.

(** ** Clock commands and joining the system *)

(** C39: vector clocks.  A clock of at most a hundred entries survives printing and
    parsing; for clocks of different replicas [compareVC] is the causal order, with
    the ids for equal or incomparable vectors.  [vcinc] at its origin moves the stored
    clock to the next event of this replica; delivered elsewhere, it replaces the
    stored clock exactly when [compareVC] says that it is newer.  [replicate size id
    ip port ...] makes the server number [id] of a system of [size] replicas and
    sends a handshake to every given address. *)
Theorem clocks_and_joining connect w k c0 c s t size id hosts p c1 c2 :
  vc_printable p -> vc_size c1 = vc_size c2 -> vc_id c1 <> vc_id c2 ->
  cfg_ok (srv w) -> REPLICATION_MODE (srv w) = true -> stored w k c ->
  Forall (fun x => x < INT_MAX) (vector c) -> SdsToVC s = Some t ->
  in_int size -> in_int id -> Forall (reachable connect) hosts ->
  (exists str, VCToSds p = Some str /\ SdsToVC str = Some p) /\ compareVC c1 c2 = clock_order c1 c2 /\
  (exists w', call 0 vcincCommand (request w [c0; k]) = Done tt w' /\
     stored w' k (mkVC (bump (vector c) (p2p_id (srv w))) (p2p_id (srv w))) /\ replies (cli w') = [R_ok]) /\
  (exists w', vc_deliver vcincCommand w c0 k s = Done tt w' /\
     clock_at w' k = Some (if (compareVC c t <? 0)%Z then t else c)) /\
  (exists w', call 0 (replicateCommand false connect)
      (request w (c0 :: sdsfromlonglong size :: sdsfromlonglong id :: host_args hosts)) = Done tt w' /\
    p2p_count (srv w') = size /\ p2p_id (srv w') = id /\ db (srv w') = db (srv w) /\
    replicas (srv w') = (replicas (srv w) ++ replicate (length hosts) [R_replhandshake])%list /\
    replies (cli w') = [R_ok]).
Proof.
  intros Hp Hs Hi Hc Hm Hst Hr Ht Hsz Hid Hh. split; [by apply VCToSds_SdsToVC|]. split; [by apply compareVC_order|].
  split; [by apply vcinc_client|]. split; [by apply vcinc_delivery|by apply replicate_joins].
Qed.

Definition with_clock : world := (run_call (request (start_world 2 0) ["vcnew"; "k"]) vcnewCommand).1.

Lemma clocks_and_joining_witness :
  (exists s, VCToSds (mkVC [3; -1; 12] 2) = Some s /\ SdsToVC s = Some (mkVC [3; -1; 12] 2)) /\
  compareVC (mkVC [1; 0] 0) (mkVC [0; 1] 1) = clock_order (mkVC [1; 0] 0) (mkVC [0; 1] 1) /\
  (exists w', call 0 vcincCommand (request with_clock ["vcinc"; "k"]) = Done tt w' /\
     stored w' "k" (mkVC (bump [0; 0] (p2p_id (srv with_clock))) (p2p_id (srv with_clock))) /\
     replies (cli w') = [R_ok]) /\
  (exists w', vc_deliver vcincCommand with_clock "vcinc" "k" "0,1|1" = Done tt w' /\
     clock_at w' "k" = Some (if (compareVC (mkVC [0; 0] 0) ts1 <? 0)%Z then ts1 else mkVC [0; 0] 0)) /\
  (exists w', call 0 (replicateCommand false (fun _ _ => true))
      (request with_clock ("vcinc" :: sdsfromlonglong 3 :: sdsfromlonglong 1 ::
        host_args [("127.0.0.1", 6379); ("127.0.0.1", 6380)])) = Done tt w' /\
    p2p_count (srv w') = 3 /\ p2p_id (srv w') = 1 /\ db (srv w') = db (srv with_clock) /\
    replicas (srv w') = (replicas (srv with_clock) ++ replicate 2 [R_replhandshake])%list /\ replies (cli w') = [R_ok]).
Proof.
  apply (clocks_and_joining (fun _ _ => true) with_clock "k" "vcinc" (mkVC [0; 0] 0) "0,1|1" ts1 3 1
    [("127.0.0.1", 6379); ("127.0.0.1", 6380)] (mkVC [3; -1; 12] 2) (mkVC [1; 0] 0) (mkVC [0; 1] 1)).
  - apply (bool_decide_unpack _). by vm_compute.
  - reflexivity.
  - discriminate.
  - vm_compute. repeat split; discriminate.
  - vm_compute. reflexivity.
  - split; [vm_compute; reflexivity|]. split; [vm_compute; reflexivity|].
    split; apply (bool_decide_unpack _); by vm_compute.
  - repeat constructor.
  - vm_compute. reflexivity.
  - clia.
  - clia.
  - apply Forall_cons_2; [split; [cbn [snd]; clia|reflexivity]|]. apply Forall_cons_2; [split; [cbn [snd]; clia|reflexivity]|].
    apply Forall_nil_2.
Defined.

(** ** Where the tree does not converge or does not end *)

(** C40: two replicas hold the tree and have seen the same operations on the
    nodes in question; each serves a request of a client and then receives the
    message of the other's.  Two changes of the value of one node leave each
    replica with the value given at the other; two insertions of one id leave the
    node below the parent given at the other; a move of [x] below [y] and one of
    [y] below [x] leave a cycle at both, on which the membership test of either
    node never returns, whatever the number of iterations it is given.  And a
    deletion of the root received before the creation of the tree is undone by it,
    while in the other order the root is gone. *)
Theorem tree_limits `{DictOrder} w1 w2 k f1 f2 :
  peers w1 w2 k f1 f2 ->
  (forall fuel u x y, same_clocks f1 f2 u -> nul_free u -> (node_count w1 k < fuel)%nat -> (node_count w2 k < fuel)%nat ->
   in_tree f1 u -> in_tree f2 u -> value_room f1 u -> value_room f2 u ->
   exists w1' w2', exchanged k (ChangeValueCommand fuel) (ChangeValueCommand fuel) (change_args k u x) (change_args k u y) w1 w2 w1' w2' /\
     name (table_of w1' k u) = Some y /\ name (table_of w2' k u) = Some x) /\
  (forall fuel n1 n2 p1 p2 u, same_clocks f1 f2 u -> nul_free u -> parent_id p1 -> parent_id p2 ->
   (node_count w1 k < fuel)%nat -> (node_count w2 k < fuel)%nat ->
   in_tree f1 p1 -> ~ in_tree f1 u -> in_tree f2 p2 -> ~ in_tree f2 u ->
   exists w1' w2', exchanged k (InsertWithIdCommand fuel) (InsertWithIdCommand fuel) (insert_args k n1 p1 u) (insert_args k n2 p2 u) w1 w2 w1' w2' /\
     parent (table_of w1' k u) = Some p2 /\ parent (table_of w2' k u) = Some p1) /\
  (forall x y, same_clocks f1 f2 x -> same_clocks f1 f2 y -> parent_id x -> parent_id y -> x <> ROOT_ID -> y <> ROOT_ID ->
   in_tree f1 x -> in_tree f1 y -> in_tree f2 x -> in_tree f2 y -> ~ below f1 x y -> ~ below f2 y x ->
   move_room f1 x -> move_room f2 y -> Acc (flip (child_step f1)) x -> Acc (flip (child_step f2)) y ->
   exists n, forall fuel, (n <= fuel)%nat ->
   exists w1' w2', exchanged k (MoveCommand fuel) (MoveCommand fuel) (move_args k y x) (move_args k x y) w1 w2 w1' w2' /\
     (trapped w1' k x /\ trapped w1' k y) /\ trapped w2' k x /\ trapped w2' k y) /\
  (forall k' r, tree_untouched w1 k' -> tree_untouched w2 k' -> stamp_ok (srv w1) r ->
   ~ vle (vector r) (replicate (Z.to_nat (p2p_count (srv w1))) 0) ->
   exists w1' w2', tdeliver_all k' w1 [TCreate; TDelete ROOT_ID r] = Some w1' /\ tdeliver_all k' w2 [TDelete ROOT_ID r; TCreate] = Some w2' /\
     node_exists w1' k' ROOT_ID = false /\ node_exists w2' k' ROOT_ID = true).
Proof.
  intros Hp. split_and!.
  - intros. by apply (values_diverge w1 w2 k f1 f2).
  - intros. by apply (parents_diverge w1 w2 k f1 f2).
  - intros. by apply (moves_trap w1 w2 k f1 f2).
  - intros k' r Hu1 Hu2 Hr Hv. destruct Hp as [H1 H2 Hc _]. apply root_diverges; try done; [apply H1|apply H2|apply (ho_cfg _ _ _ H2)].
Qed.

(** The other replica of [tree_ab]. *)
Definition tree_ab' : world :=
  let w := (run_call (request (start_world 2 1) (create_args "t")) CreateTreeCommand).1 in
  let w := (run_call (request w (insert_args "t" "A" "0,0" "a")) (InsertWithIdCommand FUEL)).1 in
  (run_call (request w (insert_args "t" "B" "0,0" "b")) (InsertWithIdCommand FUEL)).1.
Definition ft' : table := table_of tree_ab' "t".

Lemma tree_ab_peers : peers tree_ab tree_ab' "t" ft ft'.
Proof.
  split; [exact tree_ab_holds| |by vm_compute|by vm_compute].
  unfold ft', tree_ab'. cbv zeta. repeat (apply insert_holds; [| |apply ids_ok|apply ids_ok| |]; try (vm_compute; (reflexivity || lia))).
  apply create_holds; [apply start_tree_untouched|split; cbn; lia|done].
Qed.

Lemma tree_ab_clocks x : x ∈ ["a"; "b"; "c"] -> same_clocks ft ft' x.
Proof.
  intros Hx. repeat (apply elem_of_cons in Hx as [->|Hx]; [vm_compute; by split_and!|]). destruct (not_elem_of_nil _ Hx).
Qed.

Lemma tree_ab_in x : x ∈ ["a"; "b"] -> in_tree ft x /\ in_tree ft' x.
Proof.
  intros Hx. repeat (apply elem_of_cons in Hx as [->|Hx];
    [split; (eapply (walk_sound _ FUEL); [vm_compute; reflexivity|reflexivity])|]). destruct (not_elem_of_nil _ Hx).
Qed.

Lemma no_kids_below f x y : kids (node f x) = ∅ -> x <> y -> ~ below f x y.
Proof. intros Hk Hne [Hr _]. inversion Hr as [|? c ? [_ Hc]]; subst; [done|]. rewrite Hk in Hc. set_solver. Qed.

Lemma tree_limits_witness :
  exists n, forall fuel, (n <= fuel)%nat ->
  exists w1' w2', exchanged "t" (MoveCommand fuel) (MoveCommand fuel) (move_args "t" "b" "a") (move_args "t" "a" "b") tree_ab tree_ab' w1' w2' /\
    (trapped w1' "t" "a" /\ trapped w1' "t" "b") /\ trapped w2' "t" "a" /\ trapped w2' "t" "b".
Proof.
  destruct (tree_limits tree_ab tree_ab' "t" ft ft' tree_ab_peers) as (_ & _ & Hmv & _). apply (Hmv "a" "b").
  - apply tree_ab_clocks. left.
  - apply tree_ab_clocks. right. left.
  - split_and!; [apply ids_ok|discriminate|discriminate].
  - split_and!; [apply ids_ok|discriminate|discriminate].
  - discriminate.
  - discriminate.
  - apply tree_ab_in. left.
  - apply tree_ab_in. right. left.
  - apply tree_ab_in. left.
  - apply tree_ab_in. right. left.
  - apply no_kids_below; [vm_compute; reflexivity|discriminate].
  - apply no_kids_below; [vm_compute; reflexivity|discriminate].
  - refine (proj2 (proj2 (room_ab "a" _))). left.
  - apply (bool_decide_unpack _). by vm_compute.
  - apply no_kids_acc. vm_compute. reflexivity.
  - apply no_kids_acc. vm_compute. reflexivity.
Defined.
